(* ===== verification/_CoqProject ===== *)
-Q . S2P
Prelude.v
IsaTypes.v
Catalog.v
Decode.v
Integer.v
System.v
Custom.v
Softfloat.v
Float.v
Memory.v
WarpState.v
Apply.v
ApplyInvariant.v
View.v
EvaluateTyped.v
Agreement.v
WarpExec.v
WarpCorrect.v
WarpMemory.v
WarpRun.v
Cta.v
CtaInvariant.v
CtaThreads.v
CtaMemory.v
Barrier.v
BarrierSpec.v
Residency.v
Launch.v
LaunchSpec.v
CtaTyped.v
Core.v
CoreStep.v
Scheduling.v
Admission.v
CoreInvariant.v
CoreBarrier.v
CoreCoordinate.v
CoreStepInvariant.v
CoreReach.v
Delivery.v
DeliverySpec.v
Grid.v
GridSpec.v
CoreFrame.v
ClusterAdmission.v
Kernel.v
KernelSpec.v
TimingIR.v
Memsys.v
CacheArray.v
CacheArraySpec.v
Mshr.v
MshrSpec.v
CacheBank.v
CacheBankInvariant.v
CacheBankSpec.v
Backend.v
BackendSpec.v
Coalescer.v
CoalescerSpec.v
CoalescerRun.v
LocalMemory.v
LocalMemorySpec.v
Split.v
DCachePort.v
Cache.v
CacheExternal.v
Lanes.v
SplitSpec.v
GlobalAdapter.v
GlobalAdapterSpec.v
LocalAdapter.v
LocalAdapterSpec.v
External.v
ExternalSpec.v
MemorySystem.v
MemorySystemSpec.v
