(* ===== verification/Prelude.v ===== *)
(** * Vortex simulator: a verification development (root file)

    The repository is a functional and cycle-level simulator, in Go, of a Vortex
    GPU core: RV32IMF with the Vortex SIMT extension, four warps of four lanes, one
    core, local memory, barriers, and a kernel dispatcher.  This library models the
    functional simulator, from the instruction catalog up to the kernel executor, and
    the whole memory system of the cycle-level simulator, from the load-store unit's
    port to the external backend, and proves what makes them correct.  Names follow
    the Go source; a method [T.M] is [M] or [T_M].

    ** Layers, files and sources

    - [Prelude]: machine integers at their width ([u8] ... [u64], [signed]), the error
      values, the [result] monad ([let?], [check ... else ... in]), four-element
      vectors ([quad]) for the lane and warp arrays, list lemmas, tactics.
    - [IsaTypes], [Catalog], [Decode] (src/isa: types.go, effects.go, catalog.go,
      decode.go): the instruction vocabulary, the catalog row by row, the decoder.
    - [Integer], [System], [Custom], [Float] (src/isa: integer.go, system.go,
      csr_catalog.go, custom.go, float.go): the evaluators, pure functions from a
      decoded instruction and its inputs to a bundle of effects.  [Softfloat]
      (src/support/softfloat): the Go wrappers; the C library behind cgo is the class
      [SoftFloatLib] with its documented laws [SoftFloatLaws].
    - [Memory] (src/support/memory): the flat memory, the page-backed sparse memory,
      and the interface [MemoryService] their clients rely on.
    - [WarpState], [Apply], [View] (src/emu/state: state.go, apply.go, view.go,
      integration.go, instruction_context.go, operands.go): the canonical owner of a
      warp's architectural state, validation, staging and commit of effect bundles,
      snapshots, operand capture, and one whole instruction ([ExecuteSingle]).
      [ApplyInvariant], [EvaluateTyped], [Agreement]: what every bundle an evaluator
      produces satisfies, and that the owner accepts it.
    - [Launch] (src/emu/state: launch.go, spawn.go): the transactions that start
      several warps at once; [LaunchSpec] proves them.
    - [WarpExec] (src/emu/warp: warp.go, run.go): fetch, decode, evaluate, memory and
      commit of one instruction, and bounded runs of one warp.  [WarpCorrect],
      [WarpMemory], [WarpRun]: its theorems.
    - [Cta], [Barrier], [Residency] (src/emu/core: cta.go, barrier.go, residency.go,
      local_lease.go): resident CTAs, their thread coordinates and local memory, the
      barrier coordinator, physical residency and pinned leases.
      [CtaInvariant], [CtaThreads], [CtaMemory], [CtaTyped], [BarrierSpec]: their
      theorems.
    - [Core], [CoreStep] (src/emu/core: core.go, run.go): the four scheduler slots,
      admission and reclaim of CTAs, round-robin steps with the coordination of
      WSPAWN, WSYNC and barriers, bounded runs.  [Scheduling], [Admission],
      [CoreInvariant], [CoreBarrier], [CoreCoordinate], [CoreStepInvariant],
      [CoreReach]: their theorems.

    - [Delivery] (src/emu/state: delivery.go, effect_stream.go): effects of one warp
      made visible part by part, over a store that the owners, streams and deliveries
      share; [DeliverySpec] proves it.
    - [Grid] (src/emu/device/launch.go), [Kernel] (src/emu/device/kernel.go): launch
      validation, the grid walker, and the executor that generates CTAs, admits them
      in clusters, steps the core, reclaims and completes.  [GridSpec], [CoreFrame],
      [ClusterAdmission], [KernelSpec]: their theorems.
    - [TimingIR] (src/timing: ir.go, number.go, arbiter.go): the parameters of the
      timing model; the parsed YAML document is the class [TimingDocument].
    - [Memsys], [CacheArray], [Mshr], [CacheBank] (src/timing/memsys: backend.go and
      cache.go for the shared types, cache_spec.go, cache_array.go, cache_mshr.go,
      cache_bank.go): requests and queues, the geometry and the data array, the miss
      table, and the clock edge of one cache bank.  [CacheArraySpec], [MshrSpec],
      [CacheBankInvariant], [CacheBankSpec]: their theorems.
    - [Backend] (backend.go), [External] (external.go): the external memory of fixed
      latency and the one driven by a DRAM timing library, which is the class
      [DRAMTiming].  [BackendSpec], [ExternalSpec]: their theorems.
    - [Cache] (cache.go): the whole cache, banks, crossbars, flush control and
      external wire ids; [CacheExternal] proves its external side.
    - [Split] (split.go), [Coalescer] (coalescer.go), [GlobalAdapter]
      (global_adapter.go), [LocalAdapter] (local_adapter.go), [DCachePort]
      (dcache_port_buffer.go), [LocalMemory] (local_memory.go): the parts between the
      load-store unit and the two memories.  [Lanes] is what their proofs share: how
      often a lane of a key occurs in a list, and the table of numbered requests.
      [SplitSpec], [CoalescerSpec], [CoalescerRun], [GlobalAdapterSpec],
      [LocalAdapterSpec], [LocalMemorySpec]: their theorems.
    - [MemorySystem] (system.go, trace.go): all of these composed, one clock edge.  A
      part is advanced by a [stage], a state monad that keeps the system when it
      fails, as the Go method keeps the receiver.  [MemorySystemSpec]: its theorems,
      and a run of the system the shipped document describes.

    ** State and effects

    A warp is the record [WarpState]; Go pointers to warps are keys of a finite map
    [owners], so that two slots, a stage or a route that name the same warp share it.
    A CTA manager is [CTAManager] with the local memory array, the warp table and
    the barrier records of its coordinator; a [Core] holds the four slots, the
    owners, the manager and the byte owner of global memory, whose type is a
    parameter.  Operations take the state and return the new state with the Go
    result; an error is a value of [error], a Go panic the value [GoPanic].  The byte
    owner is an interface ([DataService], [MemoryService]): theorems about steps
    hold for every implementation that keeps its stated laws, and [Memory] and the
    CTA-routed memory are proved to keep them.

    ** Theorem groups

    - Instruction level: the decoder is total and unambiguous, immediates round-trip,
      the ALU computes the RV32 arithmetic, memory completion does not depend on the
      order of responses, SPLIT partitions lanes, packed loads assemble.
    - Owner level: effects accepted on a well-formed warp leave it well formed; a
      stage commits at most once and a stale or failing one changes nothing; every
      bundle the evaluators produce is accepted, except the listed cases.
    - Memory level: the sparse memory refines the flat one; batches are atomic.
    - Warp level: a step is atomic over the warp and the bytes; loads and stores move
      exactly the active lanes' bytes; a bounded run is iterated stepping.
    - CTA level: allocation is first fit; the residency invariant; thread
      coordinates enumerate the block; local memory is private to its CTA; barriers
      refine an abstract rendezvous and release everyone.
    - Core level: every reachable core is consistent and no barrier wakeup is lost;
      admission, reclaim, launch and spawn are transactions; the scheduler is fair;
      a bounded run is iterated stepping.
    - Delivery level: local effects delivered in any order end in the state of the
      atomic commit; a late control delivery moves nothing.
    - Kernel level: launch validation accepts exactly the launchable grids; the walker
      enumerates the grid; every run returns, every CTA is generated, admitted and
      reclaimed once, and only an instruction can make a run fault.
    - Cache level: the data array over a byte memory is a flat memory; a bank never
      faults on legal inputs and answers every request exactly once.  What it does
      not promise, the order of a hit and an older replaying store, is the run
      [CacheBankSpec.hit_overtakes_store].  Each memory port of a cache numbers its
      external requests without gap and gets one answer for each.
    - Memory system level: the backends are sequential memories; the banked local
      memory serves every word once; split, coalescer and the two adapters each
      handle every request, batch, word and lane exactly once under any
      back-pressure; and the composition moves every lane of every memory request
      exactly once.  A fault is terminal.

    ** Fuel and bounds

    Loops that Go runs over a counter are recursions on a bound equal to the number
    of turns the source can make: the bytes left for [readLoop] and [writeLoop],
    [ceil (length / 4096)] pages for [zeroLoop], the remaining step budget for
    [runLoop] and [coreRunLoop], [turns_left] (the attempts, generations, admissions
    and reclaims still possible) for [runTurns].  The theorems on these functions show the bound is
    enough: no case of running out is left as an assumption.

    ** Not modelled

    Locks, which only serialise the calls; [String] methods and message arguments;
    trace detachment, the identity on values; the C SoftFloat library, the DRAM timing
    library and the YAML library.  Of the cycle-level simulator (src/timing) the core
    pipeline (src/timing/model), its effect delivery (src/timing/effects) and the
    runners are later extensions; src/integration and src/cmd are bindings and
    command-line programs, src/timing/check is a linter over YAML. *)

From Stdlib Require Export ZArith Lia Bool.
From stdpp Require Export base list strings gmap.

#[local] Open Scope Z_scope.

(** ** Machine integers

    A Go [uintN] is a [Z] in [0, 2^N); every operation that can leave that
    range is wrapped where the source wraps it.  A Go [int32] is a [Z] in
    [-2^31, 2^31). *)

Definition u8 (x : Z) : Z := x mod 2 ^ 8.
Definition u16 (x : Z) : Z := x mod 2 ^ 16.
Definition u32 (x : Z) : Z := x mod 2 ^ 32.
Definition u64 (x : Z) : Z := x mod 2 ^ 64.

(** [signed n x]: the two's-complement reading of the low [n] bits of [x];
    Go's conversions [int8(x)], [int16(x)], [int32(x)], [int64(x)]. *)
Definition signed (n x : Z) : Z :=
  let y := x mod 2 ^ n in if y <? 2 ^ (n - 1) then y else y - 2 ^ n.
Definition i8 (x : Z) : Z := signed 8 x.
Definition i16 (x : Z) : Z := signed 16 x.
Definition i32 (x : Z) : Z := signed 32 x.
Definition i64 (x : Z) : Z := signed 64 x.

Definition is_u8 (x : Z) : Prop := 0 <= x < 2 ^ 8.
Definition is_u16 (x : Z) : Prop := 0 <= x < 2 ^ 16.
Definition is_u32 (x : Z) : Prop := 0 <= x < 2 ^ 32.
Definition is_u64 (x : Z) : Prop := 0 <= x < 2 ^ 64.

Declare Scope go_scope.
Delimit Scope go_scope with go.

(** Go's bitwise operators on unsigned operands; [.&^] is Go's [&^]. *)
Notation "a .& b" := (Z.land a b) (at level 40, left associativity) : go_scope.
Notation "a .&^ b" := (Z.ldiff a b) (at level 40, left associativity) : go_scope.
Notation "a .| b" := (Z.lor a b) (at level 50, left associativity) : go_scope.
Notation "a .^ b" := (Z.lxor a b) (at level 50, left associativity) : go_scope.
Notation "a << n" := (Z.shiftl a n) (at level 40, left associativity) : go_scope.
Notation "a >> n" := (Z.shiftr a n) (at level 40, left associativity) : go_scope.
Notation "a =? b" := (Z.eqb a b) (at level 70, no associativity) : go_scope.
Notation "a <>? b" := (negb (Z.eqb a b)) (at level 70, no associativity) : go_scope.
Notation "a >=? b" := (Z.leb b a) (at level 70, no associativity) : go_scope.
Notation "a >? b" := (Z.ltb b a) (at level 70, no associativity) : go_scope.
(** String comparison in a Go [switch] or [==]. *)
Notation "s == t" := (String.eqb s t) (at level 70, no associativity) : go_scope.

#[local] Open Scope go_scope.

(** ** Errors and results

    The Go [error] values of the modelled packages.  A formatted message keeps
    its text and drops its arguments.  A Go panic is the value [GoPanic], which
    the result monad propagates like an unrecovered panic. *)

Inductive CSRAccessProblem :=
| CSRUnknownAddress
| CSRReadOnlyWrite.

Inductive error :=
| IllegalInstructionError (word : Z)
| AmbiguousCatalogMatch (word : Z) (first second : string)
| EvaluationError (instruction problem : string)
| CSRAccessError (instruction : string) (address : Z) (problem : CSRAccessProblem)
| EffectValidationError (field problem : string)
| BoundsError (addr length capacity : Z)
| ErrOverlappingWrites (previous index : nat)
| Errorf (message : string)
| GoPanic (message : string).

Inductive result (A : Type) :=
| Ok (a : A)
| Err (e : error).
Arguments Ok {A} a.
Arguments Err {A} e.

Definition result_bind {A B} (r : result A) (f : A -> result B) : result B :=
  match r with Ok a => f a | Err e => Err e end.

Notation "'let?' x ':=' r 'in' k" := (result_bind r (fun x => k))
  (at level 10, x pattern, r at level 100, k at level 200) : go_scope.
Notation "'check' b 'else' e 'in' k" := (if b then k else Err e)
  (at level 10, b at level 100, e at level 100, k at level 200) : go_scope.

#[export] Instance CSRAccessProblem_eq_dec : EqDecision CSRAccessProblem.
Proof. solve_decision. Defined.
#[export] Instance error_eq_dec : EqDecision error.
Proof. solve_decision. Defined.
#[export] Instance result_eq_dec {A} `{EqDecision A} : EqDecision (result A).
Proof. solve_decision. Defined.

Definition is_ok {A} (r : result A) : bool := match r with Ok _ => true | Err _ => false end.

Lemma result_bind_ok {A B} (r : result A) (f : A -> result B) b :
  result_bind r f = Ok b <-> exists a, r = Ok a /\ f a = Ok b.
Proof. destruct r; naive_solver. Qed.

Lemma Ok_inj {A} (a b : A) : Ok a = Ok b -> a = b.
Proof. by intros [= ->]. Qed.

Lemma result_bind_err {A B} (r : result A) (f : A -> result B) e :
  result_bind r f = Err e <-> r = Err e \/ exists a, r = Ok a /\ f a = Err e.
Proof. destruct r; naive_solver. Qed.

(** ** Four-element arrays

    [FrozenLaneCount] and [FrozenWarpCount] are 4: a Go [[4]T] indexed by lane
    or warp is a [quad].  Indices are always guarded or loop variables in the
    source; an index outside 0..3 (a Go panic) reads the last cell here. *)

Record quad (A : Type) := Quad { q0 : A; q1 : A; q2 : A; q3 : A }.
Arguments Quad {A} _ _ _ _.
Arguments q0 {A} _.
Arguments q1 {A} _.
Arguments q2 {A} _.
Arguments q3 {A} _.

#[export] Instance quad_eq_dec {A} `{EqDecision A} : EqDecision (quad A).
Proof. solve_decision. Defined.

Definition qget {A} (q : quad A) (i : Z) : A :=
  if i =? 0 then q0 q else if i =? 1 then q1 q else if i =? 2 then q2 q else q3 q.

Definition qset {A} (q : quad A) (i : Z) (x : A) : quad A :=
  if i =? 0 then Quad x (q1 q) (q2 q) (q3 q)
  else if i =? 1 then Quad (q0 q) x (q2 q) (q3 q)
  else if i =? 2 then Quad (q0 q) (q1 q) x (q3 q)
  else Quad (q0 q) (q1 q) (q2 q) x.

(** [for i := 0; i < 4; i++ { q[i] = f(i) }] *)
Definition qmake {A} (f : Z -> A) : quad A := Quad (f 0) (f 1) (f 2) (f 3).
Definition qfill {A} (x : A) : quad A := Quad x x x x.
Definition qlist {A} (q : quad A) : list A := [q0 q; q1 q; q2 q; q3 q].
Definition qforall {A} (P : A -> Prop) (q : quad A) : Prop := P (q0 q) /\ P (q1 q) /\ P (q2 q) /\ P (q3 q).

(** [for i := 0; i < 4; i++ { acc = f(acc, i) }] *)
Definition fold4 {A} (f : A -> Z -> A) (acc : A) : A := f (f (f (f acc 0) 1) 2) 3.

(** The indices of a frozen four-element array. *)
Definition idx4 (i : Z) : Prop := i = 0 \/ i = 1 \/ i = 2 \/ i = 3.

Lemma idx4_range i : idx4 i <-> 0 <= i < 4.
Proof. unfold idx4; lia. Qed.

Lemma fold4_ext {A} (f g : A -> Z -> A) acc :
  (forall a i, idx4 i -> f a i = g a i) -> fold4 f acc = fold4 g acc.
Proof. intros H. unfold fold4. by rewrite !H by (unfold idx4; lia). Qed.

Lemma fold4_inv {A} (P : A -> Prop) (f : A -> Z -> A) acc : P acc -> (forall a i, P a -> P (f a i)) -> P (fold4 f acc).
Proof. intros Ha Hf. unfold fold4. by repeat apply Hf. Qed.

Lemma qget_qmake {A} (f : Z -> A) i : idx4 i -> qget (qmake f) i = f i.
Proof. by intros [-> | [-> | [-> | ->]]]. Qed.

Lemma qget_qfill {A} (x : A) i : qget (qfill x) i = x.
Proof. unfold qget, qfill; by repeat case_match. Qed.

Lemma qget_qset_eq {A} (q : quad A) i x : idx4 i -> qget (qset q i x) i = x.
Proof. by intros [-> | [-> | [-> | ->]]]. Qed.

Lemma qget_qset_ne {A} (q : quad A) i j x :
  idx4 i -> idx4 j -> i <> j -> qget (qset q i x) j = qget q j.
Proof. by intros [-> | [-> | [-> | ->]]] [-> | [-> | [-> | ->]]]. Qed.

Lemma quad_ext {A} (q r : quad A) : (forall i, idx4 i -> qget q i = qget r i) -> q = r.
Proof.
  intros H. destruct q, r.
  pose proof (H 0 ltac:(unfold idx4; lia)). pose proof (H 1 ltac:(unfold idx4; lia)).
  pose proof (H 2 ltac:(unfold idx4; lia)). pose proof (H 3 ltac:(unfold idx4; lia)).
  unfold qget in *; simpl in *; congruence.
Qed.

Lemma qforall_get {A} (P : A -> Prop) q : qforall P q <-> forall i, P (qget q i).
Proof.
  split.
  - intros (? & ? & ? & ?) i. unfold qget. by repeat case_match.
  - intros H. repeat split; [apply (H 0) | apply (H 1) | apply (H 2) | apply (H 3)].
Qed.

Lemma qforall_qmake {A} (P : A -> Prop) f : (forall i, idx4 i -> P (f i)) -> qforall P (qmake f).
Proof. intros H. repeat split; apply H; unfold idx4; simpl; lia. Qed.

Lemma qforall_qfill {A} (P : A -> Prop) x : P x -> qforall P (qfill x).
Proof. by repeat split. Qed.

Lemma qforall_qset {A} (P : A -> Prop) q i x : qforall P q -> P x -> qforall P (qset q i x).
Proof. intros (? & ? & ? & ?) ?. unfold qset. by repeat case_match; repeat split. Qed.

(** ** Integer lemmas *)

Lemma pow2_32 : 2 ^ 32 = 4294967296. Proof. reflexivity. Qed.

Lemma u8_range x : is_u8 (u8 x). Proof. apply Z.mod_pos_bound; lia. Qed.
Lemma u16_range x : is_u16 (u16 x). Proof. apply Z.mod_pos_bound; lia. Qed.
Lemma u32_range x : is_u32 (u32 x). Proof. apply Z.mod_pos_bound; lia. Qed.
Lemma u64_range x : is_u64 (u64 x). Proof. apply Z.mod_pos_bound; lia. Qed.

Lemma u8_id x : is_u8 x -> u8 x = x. Proof. apply Z.mod_small. Qed.
Lemma u16_id x : is_u16 x -> u16 x = x. Proof. apply Z.mod_small. Qed.
Lemma u32_id x : is_u32 x -> u32 x = x. Proof. apply Z.mod_small. Qed.
Lemma u64_id x : is_u64 x -> u64 x = x. Proof. apply Z.mod_small. Qed.

Lemma signed_range n x : 0 < n -> - 2 ^ (n - 1) <= signed n x < 2 ^ (n - 1).
Proof.
  intros Hn. unfold signed.
  assert (2 ^ n = 2 * 2 ^ (n - 1)) by (rewrite <- Z.pow_succ_r by lia; f_equal; lia).
  pose proof (Z.mod_pos_bound x (2 ^ n) ltac:(lia)).
  destruct (Z.ltb_spec (x mod 2 ^ n) (2 ^ (n - 1))); lia.
Qed.

Lemma signed_mod n x : 0 < n -> signed n x mod 2 ^ n = x mod 2 ^ n.
Proof.
  intros Hn. unfold signed. case_match; [by rewrite Zmod_mod|].
  replace (x mod 2 ^ n - 2 ^ n) with (x mod 2 ^ n + (-1) * 2 ^ n) by lia.
  by rewrite Z_mod_plus_full, Zmod_mod.
Qed.

Lemma signed_small n x : 0 < n -> - 2 ^ (n - 1) <= x < 2 ^ (n - 1) -> signed n x = x.
Proof.
  intros Hn Hx. unfold signed.
  assert (2 ^ n = 2 * 2 ^ (n - 1)) by (rewrite <- Z.pow_succ_r by lia; f_equal; lia).
  destruct (Z.le_gt_cases 0 x).
  - rewrite Z.mod_small by lia. by destruct (Z.ltb_spec x (2 ^ (n - 1))); try lia.
  - assert (x mod 2 ^ n = x + 2 ^ n) as ->.
    { symmetry. apply Z.mod_unique_pos with (-1); lia. }
    destruct (Z.ltb_spec (x + 2 ^ n) (2 ^ (n - 1))); lia.
Qed.

Lemma signed_eq_mod n x y : x mod 2 ^ n = y mod 2 ^ n -> signed n x = signed n y.
Proof. intros E. unfold signed. by rewrite E. Qed.

Lemma u32_i32 x : u32 (i32 x) = u32 x. Proof. by apply (signed_mod 32). Qed.
Lemma i32_u32 x : i32 (u32 x) = i32 x.
Proof. apply signed_eq_mod. unfold u32. by rewrite Zmod_mod. Qed.
Lemma i32_range x : - 2 ^ 31 <= i32 x < 2 ^ 31. Proof. by apply (signed_range 32). Qed.

(** ** Bit-level reasoning

    [zbits] rewrites [Z.testbit] through the bitwise operators; [bitwise]
    reduces an equality of integers to their bits. *)

Lemma testbit_mod_pow2 x n i : 0 <= n -> 0 <= i -> Z.testbit (x mod 2 ^ n) i = (i <? n) && Z.testbit x i.
Proof.
  intros Hn Hi. destruct (Z.ltb_spec i n).
  - by rewrite Z.mod_pow2_bits_low by lia.
  - by rewrite Z.mod_pow2_bits_high by lia.
Qed.

Lemma testbit_u32 x i : 0 <= i -> Z.testbit (u32 x) i = (i <? 32) && Z.testbit x i.
Proof. intros. apply testbit_mod_pow2; lia. Qed.

Lemma testbit_ones n i : 0 <= n -> 0 <= i -> Z.testbit (Z.ones n) i = (i <? n).
Proof.
  intros Hn Hi. destruct (Z.ltb_spec i n).
  - by apply Z.ones_spec_low.
  - by apply Z.ones_spec_high.
Qed.

(** A natural number is below [2^n] exactly when its bits from [n] on are off. *)
Lemma bits_bounded n x : 0 <= n -> (0 <= x < 2 ^ n <-> 0 <= x /\ forall i, n <= i -> Z.testbit x i = false).
Proof.
  intros Hn. split.
  - intros Hx. split; [lia|]. intros i Hi.
    rewrite <- (Z.mod_small x (2 ^ n)) by lia. apply Z.mod_pow2_bits_high. lia.
  - intros [H0 Hb]. split; [done|].
    enough (x mod 2 ^ n = x) as <- by (apply Z.mod_pos_bound; lia).
    apply Z.bits_inj'. intros i Hi. rewrite testbit_mod_pow2 by lia.
    destruct (Z.ltb_spec i n); [done|]. by rewrite Hb by lia.
Qed.

Lemma testbit_above n x i : 0 <= n -> 0 <= x < 2 ^ n -> n <= i -> Z.testbit x i = false.
Proof. intros Hn Hx. by apply bits_bounded. Qed.

Create Rewrite HintDb zbits.
#[export] Hint Rewrite Z.land_spec Z.lor_spec Z.lxor_spec Z.ldiff_spec Z.testbit_0_l : zbits.
#[export] Hint Rewrite Z.shiftr_spec Z.shiftl_spec Z.lnot_spec testbit_u32 testbit_mod_pow2 testbit_ones using lia : zbits.

Ltac bitwise :=
  apply Z.bits_inj'; let i := fresh "i" in let Hi := fresh "Hi" in
  intros i Hi; autorewrite with zbits.

Lemma land_bounded n x y : 0 <= n -> 0 <= y < 2 ^ n -> 0 <= Z.land x y < 2 ^ n.
Proof.
  intros Hn Hy. apply bits_bounded; [done|]. split; [apply Z.land_nonneg; lia|].
  intros i Hi. rewrite Z.land_spec, (testbit_above n y) by lia. apply andb_false_r.
Qed.

Lemma lor_bounded n x y : 0 <= n -> 0 <= x < 2 ^ n -> 0 <= y < 2 ^ n -> 0 <= Z.lor x y < 2 ^ n.
Proof.
  intros Hn Hx Hy. apply bits_bounded; [done|]. split; [apply Z.lor_nonneg; lia|].
  intros i Hi. by rewrite Z.lor_spec, !(testbit_above n) by lia.
Qed.

Lemma lxor_bounded n x y : 0 <= n -> 0 <= x < 2 ^ n -> 0 <= y < 2 ^ n -> 0 <= Z.lxor x y < 2 ^ n.
Proof.
  intros Hn Hx Hy. apply bits_bounded; [done|]. split; [apply Z.lxor_nonneg; lia|].
  intros i Hi. by rewrite Z.lxor_spec, !(testbit_above n) by lia.
Qed.

Lemma ldiff_bounded n x y : 0 <= n -> 0 <= x < 2 ^ n -> 0 <= Z.ldiff x y < 2 ^ n.
Proof.
  intros Hn Hx. apply bits_bounded; [done|]. split; [apply Z.ldiff_nonneg; lia|].
  intros i Hi. by rewrite Z.ldiff_spec, (testbit_above n) by lia.
Qed.

Lemma shiftr_bounded n x k : 0 <= k -> 0 <= x < 2 ^ n -> 0 <= Z.shiftr x k < 2 ^ n.
Proof.
  intros Hk Hx. rewrite Z.shiftr_div_pow2 by lia.
  assert (0 < 2 ^ k) by lia. split; [apply Z.div_pos; lia|].
  apply Z.le_lt_trans with x; [|lia]. apply Z.div_le_upper_bound; nia.
Qed.

Lemma is_u32_land x y : is_u32 y -> is_u32 (Z.land x y).
Proof. by apply land_bounded. Qed.
Lemma is_u32_lor x y : is_u32 x -> is_u32 y -> is_u32 (Z.lor x y).
Proof. by apply lor_bounded. Qed.
Lemma is_u32_lxor x y : is_u32 x -> is_u32 y -> is_u32 (Z.lxor x y).
Proof. by apply lxor_bounded. Qed.
Lemma is_u32_ldiff x y : is_u32 x -> is_u32 (Z.ldiff x y).
Proof. by apply ldiff_bounded. Qed.
Lemma is_u32_shiftr x k : 0 <= k -> is_u32 x -> is_u32 (Z.shiftr x k).
Proof. by apply shiftr_bounded. Qed.
Lemma is_u32_0 : is_u32 0. Proof. by unfold is_u32. Qed.
Lemma is_u32_1 : is_u32 1. Proof. by unfold is_u32. Qed.

(** Closure of the word range under the operators of the evaluators. *)
Create HintDb words.
#[export] Hint Resolve u8_range u16_range u32_range u64_range is_u32_land is_u32_lor is_u32_lxor
  is_u32_ldiff is_u32_0 is_u32_1 : words.

(** [for _, x := range xs] with an early error return. *)
Fixpoint foldM {A S} (f : S -> A -> result S) (s : S) (xs : list A) : result S :=
  match xs with
  | [] => Ok s
  | x :: xs => let? s' := f s x in foldM f s' xs
  end.

Lemma foldM_app {A S} (f : S -> A -> result S) xs ys s : foldM f s (xs ++ ys) = (let? s := foldM f s xs in foldM f s ys).
Proof. revert s. induction xs as [|x xs IH]; intros s; [done|]. cbn [app foldM]. destruct (f s x); [apply IH|done]. Qed.

Lemma foldM_map {A B S} (g : A -> B) (f : S -> B -> result S) xs s : foldM f s (map g xs) = foldM (fun s x => f s (g x)) s xs.
Proof. revert s. induction xs as [|x xs IH]; intros s; [done|]. cbn [map foldM]. destruct (f s (g x)); [apply IH|done]. Qed.

Lemma foldM_ext {A S} (f g : S -> A -> result S) xs s : (forall s x, f s x = g s x) -> foldM f s xs = foldM g s xs.
Proof. intros H. revert s. induction xs as [|x xs IH]; intros s; [done|]. cbn [foldM]. rewrite H. destruct (g s x); [apply IH|done]. Qed.

(** The checks of a loop that only checks. *)
Lemma foldM_unit {A} (f : A -> result unit) xs : foldM (fun _ x => f x) tt xs = Ok tt -> forall x, x ∈ xs -> f x = Ok tt.
Proof. induction xs as [|y xs IH]; cbn [foldM]; intros H x Hx; [by apply elem_of_nil in Hx|]. destruct (f y) as [[]|] eqn:E; [|done]. apply elem_of_cons in Hx as [->|Hx]; [done|by apply IH]. Qed.

(** Rule of invariants for [foldM]. *)
Lemma foldM_inv {A S} (f : S -> A -> result S) (P : S -> Prop) xs s s' :
  P s -> (forall s x s', x ∈ xs -> P s -> f s x = Ok s' -> P s') -> foldM f s xs = Ok s' -> P s'.
Proof.
  revert s. induction xs as [|x xs IH]; simpl; intros s Hs Hf H; [by simplify_eq|].
  apply result_bind_ok in H as (s1 & H1 & H2).
  eapply IH; [|intros; eapply Hf; [by apply list_elem_of_further| |]; eassumption|exact H2].
  eapply Hf; [apply list_elem_of_here| |]; eassumption.
Qed.

(** Reducing a statement about every member of a closed list to a computation. *)
Lemma forallb_elem {A} (f : A -> bool) xs : forallb f xs = true -> forall x, x ∈ xs -> f x = true.
Proof. intros H x Hx. rewrite forallb_forall in H. by apply H, list_elem_of_In. Qed.

Lemma filter_negb_nil {A} (f : A -> bool) xs : List.filter f xs = [] -> List.filter (fun x => negb (f x)) xs = xs.
Proof.
  induction xs as [|x xs IH]; simpl; [done|]. destruct (f x); simpl; [done|]. intros H. by rewrite IH.
Qed.

(** Case analysis on a Go [if] chain in a hypothesis or the goal. *)
Ltac case_if_in H :=
  match type of H with context [if ?b then _ else _] => destruct b eqn:? end.

(** ** Sign extension *)

Lemma signed_testbit n x i : 0 < n -> 0 <= i -> Z.testbit (signed n x) i = Z.testbit x (Z.min i (n - 1)).
Proof.
  intros Hn Hi.
  destruct (Z.le_gt_cases i (n - 1)).
  - rewrite Z.min_l by lia.
    rewrite <- (Z.mod_pow2_bits_low (signed n x) n) by lia.
    rewrite signed_mod by lia. by apply Z.mod_pow2_bits_low; lia.
  - rewrite Z.min_r by lia.
    assert (Z.testbit x (n - 1) = negb (x mod 2 ^ n <? 2 ^ (n - 1))) as ->.
    { rewrite <- (Z.mod_pow2_bits_low x n) by lia. pose proof (Z.mod_pos_bound x (2 ^ n) ltac:(lia)).
      set (y := x mod 2 ^ n) in *.
      assert (2 ^ n = 2 * 2 ^ (n - 1)) by (rewrite <- Z.pow_succ_r by lia; f_equal; lia).
      destruct (Z.ltb_spec y (2 ^ (n - 1))); simpl.
      - apply (testbit_above (n - 1)); lia.
      - apply Z.testbit_true; [lia|]. assert (y / 2 ^ (n - 1) = 1) as ->; [|done].
        symmetry. apply Z.div_unique with (y - 2 ^ (n - 1)); lia. }
    unfold signed. pose proof (Z.mod_pos_bound x (2 ^ n) ltac:(lia)).
    destruct (Z.ltb_spec (x mod 2 ^ n) (2 ^ (n - 1))); simpl.
    + apply (testbit_above n); lia.
    + rewrite <- (Z.lnot_involutive (x mod 2 ^ n - 2 ^ n)), Z.lnot_spec by lia.
      rewrite (testbit_above n); [done|lia| |lia]. unfold Z.lnot. lia.
Qed.

Lemma signed_shift n s x : 0 < n -> 0 <= s -> signed (n + s) (x * 2 ^ s) = signed n x * 2 ^ s.
Proof.
  intros Hn Hs. unfold signed. rewrite !Z.pow_add_r by lia.
  rewrite Z.mul_mod_distr_r by lia.
  replace (n + s - 1) with (n - 1 + s) by lia. rewrite Z.pow_add_r by lia.
  assert (0 < 2 ^ s) by lia.
  destruct (Z.ltb_spec (x mod 2 ^ n) (2 ^ (n - 1))), (Z.ltb_spec (x mod 2 ^ n * 2 ^ s) (2 ^ (n - 1) * 2 ^ s)); nia.
Qed.

(** Bit tests at concrete positions, which may be negative after a shift:
    [zbits_at] needs no side condition on the position. *)
Lemma testbit_shiftr_at x n i : 0 <= n -> Z.testbit (Z.shiftr x n) i = (0 <=? i) && Z.testbit x (i + n).
Proof.
  intros Hn. destruct (Z.leb_spec 0 i); [by apply Z.shiftr_spec|].
  by rewrite Z.testbit_neg_r by lia.
Qed.

Lemma testbit_shiftl_at x n i : 0 <= n -> Z.testbit (Z.shiftl x n) i = (0 <=? i) && Z.testbit x (i - n).
Proof.
  intros Hn. destruct (Z.leb_spec 0 i); [by apply Z.shiftl_spec|].
  by rewrite Z.testbit_neg_r by lia.
Qed.

Lemma testbit_u32_at x i : Z.testbit (u32 x) i = (i <? 32) && Z.testbit x i.
Proof.
  destruct (Z.le_gt_cases 0 i); [by apply testbit_u32|].
  by rewrite !Z.testbit_neg_r, andb_false_r by lia.
Qed.

Create Rewrite HintDb zbits_at.
#[export] Hint Rewrite Z.land_spec Z.lor_spec Z.lxor_spec Z.ldiff_spec Z.testbit_0_l testbit_u32_at : zbits_at.
#[export] Hint Rewrite testbit_shiftr_at testbit_shiftl_at using lia : zbits_at.

(** Evaluate the closed bit tests and indices of a goal about concrete bits. *)
Ltac close_bits :=
  repeat match goal with
  | |- context [Z.testbit ?c ?i] =>
      let b := eval vm_compute in (Z.testbit c i) in
      match b with
      | true => change (Z.testbit c i) with true
      | false => change (Z.testbit c i) with false
      end
  | |- context [Z.testbit ?x ?i] =>
      let j := eval vm_compute in i in progress change (Z.testbit x i) with (Z.testbit x j)
  | |- context [?a <? ?b] =>
      let c := eval vm_compute in (a <? b) in
      match c with
      | true => change (a <? b) with true
      | false => change (a <? b) with false
      end
  | |- context [?a <=? ?b] =>
      let c := eval vm_compute in (a <=? b) in
      match c with
      | true => change (a <=? b) with true
      | false => change (a <=? b) with false
      end
  end;
  rewrite ?andb_false_l, ?andb_false_r, ?andb_true_l, ?andb_true_r, ?orb_false_l, ?orb_false_r.

(** Split [0 <= i < n], [n] a small literal, into its cases. *)
Lemma range_S i n : 0 <= n -> 0 <= i < Z.succ n -> i = n \/ 0 <= i < n.
Proof. lia. Qed.

Ltac enum_range H :=
  match type of H with
  | 0 <= ?i < ?n =>
      let m := eval vm_compute in (Z.pred n) in
      match m with
      | -1 => exfalso; clear -H; lia
      | _ => apply (range_S i m ltac:(lia)) in H; destruct H as [->|H]; [|enum_range H]
      end
  end.
