(* ===== verification/IsaTypes.v ===== *)
(** * The instruction-set vocabulary (src/isa/types.go, effects.go, system.go)

    The catalog row ([Entry]), the decoded operation ([Decoded]), the immutable
    inputs of the evaluators and the typed effects they return.  A Go struct
    field [T.F] is the projection [<prefix of T>_F]; a nil-able pointer field is
    an [option].  An enumeration whose unknown values the owner rejects keeps a
    last constructor [..Other] for the remaining [uint8] values. *)

From S2P Require Import Prelude.

#[local] Open Scope Z_scope.
#[local] Open Scope go_scope.

(** ** types.go *)

Definition Category : Type := string.
Definition CategoryRV32I : Category := "RV32I".
Definition CategoryRV32M : Category := "RV32M".
Definition CategoryRV32F : Category := "RV32F".
Definition CategoryZicond : Category := "Zicond".
Definition CategorySystem : Category := "System/CSR".
Definition CategoryFence : Category := "Fence".
Definition CategoryCustom : Category := "Vortex custom/SIMT".

Inductive RegisterFile := Integer | Float | RegisterFileOther (n : Z).
Inductive RegisterField := FieldRD | FieldRS1 | FieldRS2 | FieldRS3.
Inductive OperandAccess := Read | Write.

Record OperandSpec := mkOperandSpec {
  os_Field : RegisterField;
  os_File : RegisterFile;
  os_Access : OperandAccess
}.

Record Register := mkRegister { reg_File : RegisterFile; reg_Index : Z }.

Inductive ImmediateKind :=
| ImmediateNone | ImmediateI | ImmediateS | ImmediateB | ImmediateU | ImmediateJ
| ImmediateShift | ImmediateCSR.

Inductive RoundingMode := RoundingNone | RNE | RTZ | RDN | RUP | RMM | Dynamic.
Inductive FloatFormat := FormatNone | FormatSingle.
Inductive ResultKind :=
| ResultNone | ResultInteger | ResultFloat | ResultMemoryValue | ResultCSRValue | ResultControlValue.

(** [EffectKind] is a bit set. *)
Definition EffectKind : Type := Z.
Definition EffectRegister : EffectKind := 1 << 0.
Definition EffectMemory : EffectKind := 1 << 1.
Definition EffectOrdering : EffectKind := 1 << 2.
Definition EffectCSR : EffectKind := 1 << 3.
Definition EffectControl : EffectKind := 1 << 4.
Definition EffectFFlags : EffectKind := 1 << 5.
Definition EffectLane : EffectKind := 1 << 6.
Definition EffectWarp : EffectKind := 1 << 7.
Definition EffectBarrier : EffectKind := 1 << 8.

Inductive WriteMask := WriteMaskNone | WriteMaskActive | WriteMaskGatherNonSource.
Inductive MemoryKind := MemoryNone | MemoryLoad | MemoryStore | MemoryFence.

Record MemorySpec := mkMemorySpec {
  ms_Kind : MemoryKind;
  ms_Bytes : Z;
  ms_Signed : bool;
  ms_Float : bool;
  ms_Packed : Z
}.

Inductive CSRKind := CSRNone | CSRRW | CSRRS | CSRRC.
Inductive ControlKind :=
| ControlNone | ControlBranch | ControlJump | ControlTrap | ControlTrapReturn | ControlThreadMask
| ControlWarpSpawn | ControlSplit | ControlJoin | ControlPredicate | ControlWarpSync.
Inductive BarrierKind := BarrierNone | BarrierSync | BarrierArrive | BarrierWait | BarrierKindOther (n : Z).
Inductive ModifierKind :=
| ModifierNone | ModifierSplitNegateRS2 | ModifierPredicateNegateRD | ModifierGatherSourceLane.

Record ValueConstraint := mkValueConstraint {
  vc_Name : string;
  vc_Mask : Z;
  vc_Shift : Z;
  vc_Values : list Z;
  vc_NonZero : bool
}.

(** [ValueConstraint.accepts] *)
Definition constraint_accepts (c : ValueConstraint) (word : Z) : bool :=
  let v := (word .& vc_Mask c) >> vc_Shift c in
  if vc_NonZero c && (v =? 0) then false
  else match vc_Values c with
       | [] => true
       | values => existsb (fun allowed => v =? allowed) values
       end.

Record Entry := mkEntry {
  e_Name : string;
  e_Category : Category;
  e_Match : Z;
  e_Mask : Z;
  e_Constraints : list ValueConstraint;
  e_Operands : list OperandSpec;
  e_Immediate : ImmediateKind;
  e_Rounding : bool;
  e_Format : FloatFormat;
  e_Result : ResultKind;
  e_Effects : EffectKind;
  e_RequiresPC : bool;
  e_RequiresActiveMask : bool;
  e_WriteMask : WriteMask;
  e_Memory : MemorySpec;
  e_CSR : CSRKind;
  e_Control : ControlKind;
  e_Barrier : BarrierKind;
  e_Modifier : ModifierKind;
  e_RTLEvidence : list string;
  e_Example : Z
}.

(** [Entry.accepts] *)
Definition entry_accepts (e : Entry) (word : Z) : bool :=
  if word .& e_Mask e <>? e_Match e then false
  else forallb (fun c => constraint_accepts c word) (e_Constraints e).

Record Decoded := mkDecoded {
  d_Word : Z;
  d_Name : string;
  d_Category : Category;
  d_Sources : list Register;
  d_Destinations : list Register;
  d_HasImmediate : bool;
  d_Immediate : Z;
  d_Rounding : RoundingMode;
  d_Format : FloatFormat;
  d_Result : ResultKind;
  d_Effects : EffectKind;
  d_RequiresPC : bool;
  d_RequiresActiveMask : bool;
  d_WriteMask : WriteMask;
  d_Memory : MemorySpec;
  d_CSR : CSRKind;
  d_CSRAddress : Z;
  d_CSRImmediate : bool;
  d_CSRImmediateValue : Z;
  d_Control : ControlKind;
  d_Barrier : BarrierKind;
  d_ConditionNegated : bool;
  d_GatherSourceLane : Z
}.

(** ** effects.go *)

Definition FrozenLaneCount : Z := 4.
Definition FrozenWarpCount : Z := 4.

Definition LaneMask : Type := Z.
Definition AllLanes : LaneMask := (1 << FrozenLaneCount) - 1.
Definition LaneMask_Valid (m : LaneMask) : bool := m .&^ AllLanes =? 0.
Definition LaneMask_Active (m : LaneMask) (lane : Z) : bool :=
  (lane <? FrozenLaneCount) && (m .& (1 << lane) <>? 0).

Definition LaneValues : Type := quad Z.

Definition WarpMask : Type := Z.
Definition AllWarps : WarpMask := (1 << FrozenWarpCount) - 1.
Definition WarpMask_Valid (m : WarpMask) : bool := m .&^ AllWarps =? 0.
Definition WarpMask_Active (m : WarpMask) (warp : Z) : bool :=
  (warp <? FrozenWarpCount) && (m .& (1 << warp) <>? 0).

Record AddressBounds := mkAddressBounds { ab_Base : Z; ab_Size : Z }.

(** [AddressBounds.valid]: the sum is a [uint64] sum. *)
Definition AddressBounds_valid (b : AddressBounds) : bool :=
  u64 (ab_Base b + ab_Size b) <=? 1 << 32.

(** [AddressBounds.contains] *)
Definition AddressBounds_contains (b : AddressBounds) (address width : Z) : bool :=
  let start := address in
  let end_ := u64 (start + width) in
  let base := ab_Base b in
  (end_ <=? 1 << 32) && (start >=? base) && (end_ <=? u64 (base + ab_Size b)).

Record IntegerInput := mkIntegerInput {
  ii_PC : Z;
  ii_ActiveMask : LaneMask;
  ii_RS1 : LaneValues;
  ii_RS2 : LaneValues;
  ii_Bounds : option AddressBounds
}.

Record FloatInput := mkFloatInput {
  fi_PC : Z;
  fi_ActiveMask : LaneMask;
  fi_RS1 : LaneValues;
  fi_RS2 : LaneValues;
  fi_RS3 : LaneValues;
  fi_FRM : RoundingMode;
  fi_Bounds : option AddressBounds
}.

Record DivergenceRecordView := mkDivergenceRecordView {
  drv_Valid : bool;
  drv_Pointer : Z;
  drv_OriginalMask : LaneMask;
  drv_NextPC : Z;
  drv_ElseVisited : bool
}.

Record DivergenceView := mkDivergenceView {
  dv_WritePointer : Z;
  dv_Record : DivergenceRecordView
}.

Record CustomInput := mkCustomInput {
  ci_PC : Z;
  ci_ActiveMask : LaneMask;
  ci_RS1 : LaneValues;
  ci_RS2 : LaneValues;
  ci_RS3 : LaneValues;
  ci_WarpID : Z;
  ci_MScratch : Z;
  ci_Divergence : DivergenceView;
  ci_BarrierPhase : bool;
  ci_PendingPriorWork : bool;
  ci_PendingLSU : bool;
  ci_Bounds : option AddressBounds
}.

Record RegisterWriteEffect := mkRegisterWriteEffect {
  rw_ByteMask : Z;
  rw_Destination : Register;
  rw_Mask : LaneMask;
  rw_Values : LaneValues
}.

Inductive PCReason :=
| PCSequential | PCBranch | PCJump | PCTrap | PCTrapReturn | PCReconverge | PCReasonOther (n : Z).

Record ControlEffect := mkControlEffect {
  ce_Reason : PCReason;
  ce_CurrentPC : Z;
  ce_NextPC : Z;
  ce_Target : Z;
  ce_Taken : bool;
  ce_DecisionLane : Z
}.

Record MemoryRequest := mkMemoryRequest {
  mr_Lane : Z;
  mr_Kind : MemoryKind;
  mr_Address : Z;
  mr_AlignedAddress : Z;
  mr_Width : Z;
  mr_Signed : bool;
  mr_ByteMask : Z;
  mr_StoreData : Z
}.

Inductive FaultKind :=
| FaultNone
| FaultInstructionAddressMisaligned
| FaultLoadAddressMisaligned
| FaultStoreAddressMisaligned
| FaultLoadAccess
| FaultStoreAccess
| FaultKindOther (n : Z).

Inductive FaultReason :=
| FaultReasonNone | FaultReasonAlignment | FaultReasonBounds | FaultReasonMemoryService.

Record MemoryResponse := mkMemoryResponse {
  mp_Request : MemoryRequest;
  mp_Data : Z;
  mp_Fault : FaultKind;
  mp_Reason : FaultReason
}.

Record OrderingEffect := mkOrderingEffect { oe_Predecessor : Z; oe_Successor : Z }.

(** [FFlags]: the RISC-V exception bits. *)
Definition FFlags : Type := Z.
Definition FFlagInexact : FFlags := 1 << 0.
Definition FFlagUnderflow : FFlags := 1 << 1.
Definition FFlagOverflow : FFlags := 1 << 2.
Definition FFlagDivideByZero : FFlags := 1 << 3.
Definition FFlagInvalid : FFlags := 1 << 4.

Record FFlagsEffect := mkFFlagsEffect { ff_Accumulate : FFlags }.

Inductive CSRScope :=
| CSRScopeConstant | CSRScopeLane | CSRScopeWarp | CSRScopeCTA | CSRScopeCore | CSRScopeCounter.

Record CSRReadEffect := mkCSRReadEffect {
  cr_Address : Z;
  cr_Scope : CSRScope;
  cr_Values : LaneValues
}.

Record CSRWriteEffect := mkCSRWriteEffect {
  cw_Address : Z;
  cw_Scope : CSRScope;
  cw_WarpID : Z;
  cw_OldValue : Z;
  cw_Value : Z;
  cw_WriteMask : Z;
  cw_Ignored : bool
}.

Inductive TrapKind := TrapEnter | TrapReturn | TrapKindOther (n : Z).

Record TrapEffect := mkTrapEffect {
  te_Kind : TrapKind;
  te_Cause : Z;
  te_EPC : Z;
  te_Vector : Z;
  te_SaveThreadMask : LaneMask;
  te_RestoreThreadMask : LaneMask;
  te_RestoresThreadMask : bool
}.

Inductive WarpMaskReason :=
| WarpMaskTMC | WarpMaskPredicate | WarpMaskSplit | WarpMaskJoin | WarpMaskReasonOther (n : Z).

Record WarpMaskEffect := mkWarpMaskEffect {
  wm_WarpID : Z;
  wm_Reason : WarpMaskReason;
  wm_Mask : LaneMask;
  wm_Active : bool
}.

Record WarpSpawnEffect := mkWarpSpawnEffect {
  ws_SourceWarp : Z;
  ws_RequestedCount : Z;
  ws_Targets : WarpMask;
  ws_TargetPC : Z;
  ws_InitialLaneMask : LaneMask;
  ws_CopyMScratch : bool;
  ws_MScratch : Z;
  ws_RequiresSingleActiveWarp : bool;
  ws_ReleaseSourceAfterApply : bool
}.

Inductive DivergenceAction := DivergenceSplit | DivergenceJoin | DivergenceActionOther (n : Z).

Record DivergenceEffect := mkDivergenceEffect {
  de_Action : DivergenceAction;
  de_WarpID : Z;
  de_StackPointer : Z;
  de_Divergent : bool;
  de_OriginalMask : LaneMask;
  de_ExecuteMask : LaneMask;
  de_DeferredMask : LaneMask;
  de_ReconvergencePC : Z;
  de_Push : bool;
  de_MarkElseVisited : bool;
  de_Pop : bool
}.

Inductive WarpDrainKind := DrainPriorInstructions | DrainLSU | WarpDrainKindOther (n : Z).

Record WarpDrainEffect := mkWarpDrainEffect {
  wd_WarpID : Z;
  wd_Kind : WarpDrainKind;
  wd_Wait : bool;
  wd_ReleaseAfterDrain : bool
}.

Record BarrierEffect := mkBarrierEffect {
  be_WarpID : Z;
  be_AddressWarp : Z;
  be_ID : Z;
  be_Kind : BarrierKind;
  be_Global : bool;
  be_Sync : bool;
  be_Arrive : bool;
  be_Wait : bool;
  be_ReleaseByCoordinator : bool;
  be_Event : bool;
  be_ExpectCount : Z;
  be_ParticipantCount : Z;
  be_SizeMinusOne : Z;
  be_Phase : bool;
  be_DrainLSU : bool
}.

Record PackedLoadRequest := mkPackedLoadRequest {
  pr_Lane : Z;
  pr_Element : Z;
  pr_Address : Z;
  pr_AlignedAddress : Z;
  pr_Width : Z
}.

Record PackedLoadResponse := mkPackedLoadResponse {
  pp_Request : PackedLoadRequest;
  pp_Data : Z;
  pp_Fault : FaultKind;
  pp_Reason : FaultReason
}.

Record FaultEffect := mkFaultEffect {
  fe_Kind : FaultKind;
  fe_Reason : FaultReason;
  fe_Lane : Z;
  fe_Address : Z;
  fe_Width : Z
}.

Record InstructionEffects := mkInstructionEffects {
  RegisterWrites : list RegisterWriteEffect;
  Control : option ControlEffect;
  MemoryRequests : list MemoryRequest;
  Ordering : option OrderingEffect;
  FFlagsOf : option FFlagsEffect;
  CSRReads : list CSRReadEffect;
  CSRWrites : list CSRWriteEffect;
  Trap : option TrapEffect;
  WarpMasks : list WarpMaskEffect;
  WarpSpawn : option WarpSpawnEffect;
  Divergence : option DivergenceEffect;
  WarpDrains : list WarpDrainEffect;
  Barriers : list BarrierEffect;
  PackedLoads : list PackedLoadRequest;
  Faults : list FaultEffect
}.

(** The zero value [InstructionEffects{}] and its field updates. *)
Definition no_effects : InstructionEffects :=
  mkInstructionEffects [] None [] None None [] [] None [] None None [] [] [] [].
Definition with_RegisterWrites (v : list RegisterWriteEffect) (e : InstructionEffects) : InstructionEffects :=
  mkInstructionEffects v (Control e) (MemoryRequests e) (Ordering e) (FFlagsOf e) (CSRReads e) (CSRWrites e) (Trap e) (WarpMasks e) (WarpSpawn e) (Divergence e) (WarpDrains e) (Barriers e) (PackedLoads e) (Faults e).
Definition with_Control (v : option ControlEffect) (e : InstructionEffects) : InstructionEffects :=
  mkInstructionEffects (RegisterWrites e) v (MemoryRequests e) (Ordering e) (FFlagsOf e) (CSRReads e) (CSRWrites e) (Trap e) (WarpMasks e) (WarpSpawn e) (Divergence e) (WarpDrains e) (Barriers e) (PackedLoads e) (Faults e).
Definition with_MemoryRequests (v : list MemoryRequest) (e : InstructionEffects) : InstructionEffects :=
  mkInstructionEffects (RegisterWrites e) (Control e) v (Ordering e) (FFlagsOf e) (CSRReads e) (CSRWrites e) (Trap e) (WarpMasks e) (WarpSpawn e) (Divergence e) (WarpDrains e) (Barriers e) (PackedLoads e) (Faults e).
Definition with_Ordering (v : option OrderingEffect) (e : InstructionEffects) : InstructionEffects :=
  mkInstructionEffects (RegisterWrites e) (Control e) (MemoryRequests e) v (FFlagsOf e) (CSRReads e) (CSRWrites e) (Trap e) (WarpMasks e) (WarpSpawn e) (Divergence e) (WarpDrains e) (Barriers e) (PackedLoads e) (Faults e).
Definition with_FFlagsOf (v : option FFlagsEffect) (e : InstructionEffects) : InstructionEffects :=
  mkInstructionEffects (RegisterWrites e) (Control e) (MemoryRequests e) (Ordering e) v (CSRReads e) (CSRWrites e) (Trap e) (WarpMasks e) (WarpSpawn e) (Divergence e) (WarpDrains e) (Barriers e) (PackedLoads e) (Faults e).
Definition with_CSRReads (v : list CSRReadEffect) (e : InstructionEffects) : InstructionEffects :=
  mkInstructionEffects (RegisterWrites e) (Control e) (MemoryRequests e) (Ordering e) (FFlagsOf e) v (CSRWrites e) (Trap e) (WarpMasks e) (WarpSpawn e) (Divergence e) (WarpDrains e) (Barriers e) (PackedLoads e) (Faults e).
Definition with_CSRWrites (v : list CSRWriteEffect) (e : InstructionEffects) : InstructionEffects :=
  mkInstructionEffects (RegisterWrites e) (Control e) (MemoryRequests e) (Ordering e) (FFlagsOf e) (CSRReads e) v (Trap e) (WarpMasks e) (WarpSpawn e) (Divergence e) (WarpDrains e) (Barriers e) (PackedLoads e) (Faults e).
Definition with_Trap (v : option TrapEffect) (e : InstructionEffects) : InstructionEffects :=
  mkInstructionEffects (RegisterWrites e) (Control e) (MemoryRequests e) (Ordering e) (FFlagsOf e) (CSRReads e) (CSRWrites e) v (WarpMasks e) (WarpSpawn e) (Divergence e) (WarpDrains e) (Barriers e) (PackedLoads e) (Faults e).
Definition with_WarpMasks (v : list WarpMaskEffect) (e : InstructionEffects) : InstructionEffects :=
  mkInstructionEffects (RegisterWrites e) (Control e) (MemoryRequests e) (Ordering e) (FFlagsOf e) (CSRReads e) (CSRWrites e) (Trap e) v (WarpSpawn e) (Divergence e) (WarpDrains e) (Barriers e) (PackedLoads e) (Faults e).
Definition with_WarpSpawn (v : option WarpSpawnEffect) (e : InstructionEffects) : InstructionEffects :=
  mkInstructionEffects (RegisterWrites e) (Control e) (MemoryRequests e) (Ordering e) (FFlagsOf e) (CSRReads e) (CSRWrites e) (Trap e) (WarpMasks e) v (Divergence e) (WarpDrains e) (Barriers e) (PackedLoads e) (Faults e).
Definition with_Divergence (v : option DivergenceEffect) (e : InstructionEffects) : InstructionEffects :=
  mkInstructionEffects (RegisterWrites e) (Control e) (MemoryRequests e) (Ordering e) (FFlagsOf e) (CSRReads e) (CSRWrites e) (Trap e) (WarpMasks e) (WarpSpawn e) v (WarpDrains e) (Barriers e) (PackedLoads e) (Faults e).
Definition with_WarpDrains (v : list WarpDrainEffect) (e : InstructionEffects) : InstructionEffects :=
  mkInstructionEffects (RegisterWrites e) (Control e) (MemoryRequests e) (Ordering e) (FFlagsOf e) (CSRReads e) (CSRWrites e) (Trap e) (WarpMasks e) (WarpSpawn e) (Divergence e) v (Barriers e) (PackedLoads e) (Faults e).
Definition with_Barriers (v : list BarrierEffect) (e : InstructionEffects) : InstructionEffects :=
  mkInstructionEffects (RegisterWrites e) (Control e) (MemoryRequests e) (Ordering e) (FFlagsOf e) (CSRReads e) (CSRWrites e) (Trap e) (WarpMasks e) (WarpSpawn e) (Divergence e) (WarpDrains e) v (PackedLoads e) (Faults e).
Definition with_PackedLoads (v : list PackedLoadRequest) (e : InstructionEffects) : InstructionEffects :=
  mkInstructionEffects (RegisterWrites e) (Control e) (MemoryRequests e) (Ordering e) (FFlagsOf e) (CSRReads e) (CSRWrites e) (Trap e) (WarpMasks e) (WarpSpawn e) (Divergence e) (WarpDrains e) (Barriers e) v (Faults e).
Definition with_Faults (v : list FaultEffect) (e : InstructionEffects) : InstructionEffects :=
  mkInstructionEffects (RegisterWrites e) (Control e) (MemoryRequests e) (Ordering e) (FFlagsOf e) (CSRReads e) (CSRWrites e) (Trap e) (WarpMasks e) (WarpSpawn e) (Divergence e) (WarpDrains e) (Barriers e) (PackedLoads e) v.

(** ** system.go: the CSR views *)

Record CTAView := mkCTAView {
  cta_ID : Z;
  cta_Rank : Z;
  cta_Size : Z;
  cta_ThreadCoordinates : LaneValues * LaneValues * LaneValues;
  cta_BlockID : Z * Z * Z;
  cta_BlockDimensions : Z * Z * Z;
  cta_GridDimensions : Z * Z * Z;
  cta_BlockSize : Z;
  cta_WarpStep : Z * Z * Z;
  cta_ParameterAddress : Z;
  cta_LocalMemoryAddress : Z;
  cta_ClusterDimensions : Z * Z * Z;
  cta_ClusterSize : Z;
  cta_Entry : Z
}.

Record CounterView := mkCounterView { ctr_Cycle : Z; ctr_Instret : Z }.

Record CSRView := mkCSRView {
  cv_WarpID : Z;
  cv_CoreID : Z;
  cv_ActiveWarps : Z;
  cv_ThreadMask : LaneMask;
  cv_SavedThreadMask : LaneMask;
  cv_FCSR : Z;
  cv_MStatus : Z;
  cv_MTVec : Z;
  cv_MScratch : Z;
  cv_MEPC : Z;
  cv_MCause : Z;
  cv_MTVal : Z;
  cv_CTA : CTAView;
  cv_Counters : CounterView
}.

Record SystemInput := mkSystemInput {
  si_PC : Z;
  si_ActiveMask : LaneMask;
  si_RS1 : LaneValues;
  si_CSR : CSRView
}.

(** ** Decidable equality, as Go's [==] on these comparable types *)

#[export] Instance RegisterFile_eq_dec : EqDecision RegisterFile. Proof. solve_decision. Defined.
#[export] Instance Register_eq_dec : EqDecision Register. Proof. solve_decision. Defined.
#[export] Instance ImmediateKind_eq_dec : EqDecision ImmediateKind. Proof. solve_decision. Defined.
#[export] Instance RoundingMode_eq_dec : EqDecision RoundingMode. Proof. solve_decision. Defined.
#[export] Instance FloatFormat_eq_dec : EqDecision FloatFormat. Proof. solve_decision. Defined.
#[export] Instance MemoryKind_eq_dec : EqDecision MemoryKind. Proof. solve_decision. Defined.
#[export] Instance CSRKind_eq_dec : EqDecision CSRKind. Proof. solve_decision. Defined.
#[export] Instance ControlKind_eq_dec : EqDecision ControlKind. Proof. solve_decision. Defined.
#[export] Instance BarrierKind_eq_dec : EqDecision BarrierKind. Proof. solve_decision. Defined.
#[export] Instance ResultKind_eq_dec : EqDecision ResultKind. Proof. solve_decision. Defined.
#[export] Instance PCReason_eq_dec : EqDecision PCReason. Proof. solve_decision. Defined.
#[export] Instance FaultKind_eq_dec : EqDecision FaultKind. Proof. solve_decision. Defined.
#[export] Instance FaultReason_eq_dec : EqDecision FaultReason. Proof. solve_decision. Defined.
#[export] Instance CSRScope_eq_dec : EqDecision CSRScope. Proof. solve_decision. Defined.
#[export] Instance TrapKind_eq_dec : EqDecision TrapKind. Proof. solve_decision. Defined.
#[export] Instance WarpMaskReason_eq_dec : EqDecision WarpMaskReason. Proof. solve_decision. Defined.
#[export] Instance DivergenceAction_eq_dec : EqDecision DivergenceAction. Proof. solve_decision. Defined.
#[export] Instance WarpDrainKind_eq_dec : EqDecision WarpDrainKind. Proof. solve_decision. Defined.

(** Go's [a == b] as a boolean. *)
Notation "a ==. b" := (bool_decide (a = b)) (at level 70, no associativity) : go_scope.
Notation "a !=. b" := (negb (bool_decide (a = b))) (at level 70, no associativity) : go_scope.

(** ** Lane masks as sets of lanes *)

Lemma land_pow2_testbit m n : 0 <= n -> (m .& (1 << n) <>? 0) = Z.testbit m n.
Proof.
  intros Hn. rewrite Z.shiftl_1_l. destruct (Z.testbit m n) eqn:E.
  - apply negb_true_iff, Z.eqb_neq. intros H.
    assert (Z.testbit (m .& 2 ^ n) n = true) as H1
      by (rewrite Z.land_spec, Z.pow2_bits_true by lia; by rewrite E).
    by rewrite H, Z.testbit_0_l in H1.
  - apply negb_false_iff, Z.eqb_eq. apply Z.bits_inj'. intros i Hi.
    rewrite Z.land_spec, Z.pow2_bits_eqb, Z.testbit_0_l by lia.
    destruct (Z.eqb_spec n i); [subst; by rewrite E|apply andb_false_r].
Qed.

Lemma LaneMask_Active_testbit m lane : 0 <= lane < 4 -> LaneMask_Active m lane = Z.testbit m lane.
Proof.
  intros H. unfold LaneMask_Active, FrozenLaneCount. rewrite land_pow2_testbit by lia.
  destruct (Z.ltb_spec lane 4); [done|lia].
Qed.

Lemma LaneMask_Active_lt m lane : LaneMask_Active m lane = true -> lane < 4.
Proof. unfold LaneMask_Active. intros [H _]%andb_true_iff. by apply Z.ltb_lt in H. Qed.

(** A valid lane mask is one of the sixteen subsets of the frozen lanes. *)
Definition mask_ok (m : LaneMask) : Prop := 0 <= m < 16.

Lemma LaneMask_Valid_spec m : 0 <= m -> LaneMask_Valid m = true <-> mask_ok m.
Proof.
  intros Hm. unfold LaneMask_Valid, AllLanes, mask_ok, FrozenLaneCount.
  rewrite Z.eqb_eq. change ((1 << 4) - 1) with (Z.ones 4). rewrite Z.ldiff_ones_r by lia.
  rewrite Z.shiftl_mul_pow2, Z.shiftr_div_pow2 by lia.
  split; intros H; [|rewrite Z.div_small; lia].
  assert (m / 2 ^ 4 = 0) as E by lia. apply Z.div_small_iff in E; lia.
Qed.

Lemma mask_cases m : mask_ok m ->
  m ∈ [0; 1; 2; 3; 4; 5; 6; 7; 8; 9; 10; 11; 12; 13; 14; 15].
Proof.
  unfold mask_ok. intros H.
  assert (exists n : nat, m = Z.of_nat n /\ (n < 16)%nat) as (n & -> & Hn)
    by (exists (Z.to_nat m); lia).
  do 16 (destruct n as [|n]; [apply elem_of_list_lookup_2 with 0%nat || set_solver|]); lia.
Qed.

(** Decide a closed statement about all sixteen masks by computation. *)
Lemma mask_forall (f : Z -> bool) :
  forallb f [0; 1; 2; 3; 4; 5; 6; 7; 8; 9; 10; 11; 12; 13; 14; 15] = true ->
  forall m, mask_ok m -> f m = true.
Proof. intros H m Hm. by eapply forallb_elem, mask_cases. Qed.

Lemma mask_ok_land m n : mask_ok n -> mask_ok (m .& n).
Proof. by apply (land_bounded 4). Qed.
Lemma mask_ok_lor m n : mask_ok m -> mask_ok n -> mask_ok (m .| n).
Proof. by apply (lor_bounded 4). Qed.
Lemma mask_ok_ldiff m n : mask_ok m -> mask_ok (m .&^ n).
Proof. by apply (ldiff_bounded 4). Qed.
