(* ===== verification/Catalog.v ===== *)
(** * The frozen instruction catalog (src/isa/catalog.go)

    The authoritative manifest every decode consults, built from the same row
    constructors as the source.  A row constructor that sets fields after [base]
    is a chain of field updates. *)

From S2P Require Import Prelude IsaTypes.

#[local] Open Scope Z_scope.
#[local] Open Scope go_scope.

Definition opLUI : Z := 0x37.
Definition opAUIPC : Z := 0x17.
Definition opJAL : Z := 0x6f.
Definition opJALR : Z := 0x67.
Definition opBranch : Z := 0x63.
Definition opLoad : Z := 0x03.
Definition opStore : Z := 0x23.
Definition opImm : Z := 0x13.
Definition opReg : Z := 0x33.
Definition opFence : Z := 0x0f.
Definition opSystem : Z := 0x73.
Definition opFLoad : Z := 0x07.
Definition opFStore : Z := 0x27.
Definition opFMAdd : Z := 0x43.
Definition opFMSub : Z := 0x47.
Definition opFNMSub : Z := 0x4b.
Definition opFNMAdd : Z := 0x4f.
Definition opFloat : Z := 0x53.
Definition opCustom : Z := 0x0b.
Definition opGather : Z := 0x2b.

Definition maskOpcode : Z := 0x0000007f.
Definition maskF3 : Z := 0x0000707f.
Definition maskF7 : Z := 0xfe00707f.
Definition maskF7NoF3 : Z := 0xfe00007f.
Definition maskRS2 : Z := 0x01f00000.
Definition maskRS1 : Z := 0x000f8000.
Definition maskRD : Z := 0x00000f80.
Definition maskRM : Z := 0x00007000.

Definition integerEvidence : list string := ["hw/rtl/core/VX_decode.sv:208-339"; "hw/rtl/VX_gpu_pkg.sv:249-283"].
Definition mEvidence : list string := ["hw/rtl/core/VX_decode.sv:143-157,227-246"; "hw/rtl/core/VX_alu_muldiv.sv"].
Definition fEvidence : list string := ["hw/rtl/core/VX_decode.sv:398-558"; "hw/rtl/VX_gpu_pkg.sv:470-490"].
Definition systemEvidence : list string := ["hw/rtl/core/VX_decode.sv:131-140,373-397"; "hw/rtl/core/VX_csr_unit.sv"].
Definition memoryEvidence : list string := ["hw/rtl/core/VX_decode.sv:340-347,398-431"; "hw/rtl/core/VX_lsu_slice.sv:149-164"].
Definition customEvidence : list string := ["hw/rtl/core/VX_decode.sv:560-751"; "hw/rtl/core/VX_wctl_unit.sv:74-192"].
Definition laneEvidence : list string := ["hw/rtl/core/VX_decode.sv:613-623,739-751"; "hw/rtl/core/VX_alu_int.sv:136-223"].
Definition packEvidence : list string := ["hw/rtl/core/VX_decode.sv:709-732"; "hw/rtl/core/VX_uop_packld.sv"].
Definition rmConstraint : list ValueConstraint := [mkValueConstraint "rm" maskRM 12 [0; 1; 2; 3; 4; 7] false].

Definition operand_field (file : RegisterFile) (field : RegisterField) (access : OperandAccess) : OperandSpec :=
  mkOperandSpec field file access.

Definition xd : OperandSpec := operand_field Integer FieldRD Write.
Definition x1 : OperandSpec := operand_field Integer FieldRS1 Read.
Definition x2 : OperandSpec := operand_field Integer FieldRS2 Read.
Definition x3 : OperandSpec := operand_field Integer FieldRS3 Read.
Definition fd : OperandSpec := operand_field Float FieldRD Write.
Definition f1 : OperandSpec := operand_field Float FieldRS1 Read.
Definition f2 : OperandSpec := operand_field Float FieldRS2 Read.
Definition f3 : OperandSpec := operand_field Float FieldRS3 Read.

Definition bitsF3 (f3 opcode : Z) : Z := u32 (f3 << 12) .| opcode.
Definition bitsF7 (f7 f3 opcode : Z) : Z := u32 (f7 << 25) .| bitsF3 f3 opcode.
Definition bitsRS2 (rs2 f7 f3 opcode : Z) : Z := u32 (rs2 << 20) .| bitsF7 f7 f3 opcode.
Definition rExample (match_ mask : Z) : Z :=
  let ordinaryFields := (3 << 7) .| (1 << 15) .| (2 << 20) .| (3 << 27) in
  match_ .| (ordinaryFields .&^ mask).

Definition no_memory : MemorySpec := mkMemorySpec MemoryNone 0 false false 0.

Definition base (name : string) (category : Category) (match_ mask : Z) (operands : list OperandSpec)
    (imm : ImmediateKind) (res : ResultKind) (effects : EffectKind) (evidence : list string) : Entry :=
  mkEntry name category match_ mask [] operands imm false FormatNone res effects false true
    (if bool_decide (res = ResultNone) then WriteMaskNone else WriteMaskActive)
    no_memory CSRNone ControlNone BarrierNone ModifierNone evidence (rExample match_ mask).

(** Assignments [e.F = v] of the row constructors. *)
Definition set_e_Match (v : Z) (e : Entry) : Entry :=
  mkEntry (e_Name e) (e_Category e) v (e_Mask e) (e_Constraints e) (e_Operands e) (e_Immediate e) (e_Rounding e) (e_Format e) (e_Result e) (e_Effects e) (e_RequiresPC e) (e_RequiresActiveMask e) (e_WriteMask e) (e_Memory e) (e_CSR e) (e_Control e) (e_Barrier e) (e_Modifier e) (e_RTLEvidence e) (e_Example e).
Definition set_e_Mask (v : Z) (e : Entry) : Entry :=
  mkEntry (e_Name e) (e_Category e) (e_Match e) v (e_Constraints e) (e_Operands e) (e_Immediate e) (e_Rounding e) (e_Format e) (e_Result e) (e_Effects e) (e_RequiresPC e) (e_RequiresActiveMask e) (e_WriteMask e) (e_Memory e) (e_CSR e) (e_Control e) (e_Barrier e) (e_Modifier e) (e_RTLEvidence e) (e_Example e).
Definition set_e_Constraints (v : list ValueConstraint) (e : Entry) : Entry :=
  mkEntry (e_Name e) (e_Category e) (e_Match e) (e_Mask e) v (e_Operands e) (e_Immediate e) (e_Rounding e) (e_Format e) (e_Result e) (e_Effects e) (e_RequiresPC e) (e_RequiresActiveMask e) (e_WriteMask e) (e_Memory e) (e_CSR e) (e_Control e) (e_Barrier e) (e_Modifier e) (e_RTLEvidence e) (e_Example e).
Definition set_e_Rounding (v : bool) (e : Entry) : Entry :=
  mkEntry (e_Name e) (e_Category e) (e_Match e) (e_Mask e) (e_Constraints e) (e_Operands e) (e_Immediate e) v (e_Format e) (e_Result e) (e_Effects e) (e_RequiresPC e) (e_RequiresActiveMask e) (e_WriteMask e) (e_Memory e) (e_CSR e) (e_Control e) (e_Barrier e) (e_Modifier e) (e_RTLEvidence e) (e_Example e).
Definition set_e_Format (v : FloatFormat) (e : Entry) : Entry :=
  mkEntry (e_Name e) (e_Category e) (e_Match e) (e_Mask e) (e_Constraints e) (e_Operands e) (e_Immediate e) (e_Rounding e) v (e_Result e) (e_Effects e) (e_RequiresPC e) (e_RequiresActiveMask e) (e_WriteMask e) (e_Memory e) (e_CSR e) (e_Control e) (e_Barrier e) (e_Modifier e) (e_RTLEvidence e) (e_Example e).
Definition set_e_Result (v : ResultKind) (e : Entry) : Entry :=
  mkEntry (e_Name e) (e_Category e) (e_Match e) (e_Mask e) (e_Constraints e) (e_Operands e) (e_Immediate e) (e_Rounding e) (e_Format e) v (e_Effects e) (e_RequiresPC e) (e_RequiresActiveMask e) (e_WriteMask e) (e_Memory e) (e_CSR e) (e_Control e) (e_Barrier e) (e_Modifier e) (e_RTLEvidence e) (e_Example e).
Definition set_e_RequiresPC (v : bool) (e : Entry) : Entry :=
  mkEntry (e_Name e) (e_Category e) (e_Match e) (e_Mask e) (e_Constraints e) (e_Operands e) (e_Immediate e) (e_Rounding e) (e_Format e) (e_Result e) (e_Effects e) v (e_RequiresActiveMask e) (e_WriteMask e) (e_Memory e) (e_CSR e) (e_Control e) (e_Barrier e) (e_Modifier e) (e_RTLEvidence e) (e_Example e).
Definition set_e_WriteMask (v : WriteMask) (e : Entry) : Entry :=
  mkEntry (e_Name e) (e_Category e) (e_Match e) (e_Mask e) (e_Constraints e) (e_Operands e) (e_Immediate e) (e_Rounding e) (e_Format e) (e_Result e) (e_Effects e) (e_RequiresPC e) (e_RequiresActiveMask e) v (e_Memory e) (e_CSR e) (e_Control e) (e_Barrier e) (e_Modifier e) (e_RTLEvidence e) (e_Example e).
Definition set_e_Memory (v : MemorySpec) (e : Entry) : Entry :=
  mkEntry (e_Name e) (e_Category e) (e_Match e) (e_Mask e) (e_Constraints e) (e_Operands e) (e_Immediate e) (e_Rounding e) (e_Format e) (e_Result e) (e_Effects e) (e_RequiresPC e) (e_RequiresActiveMask e) (e_WriteMask e) v (e_CSR e) (e_Control e) (e_Barrier e) (e_Modifier e) (e_RTLEvidence e) (e_Example e).
Definition set_e_CSR (v : CSRKind) (e : Entry) : Entry :=
  mkEntry (e_Name e) (e_Category e) (e_Match e) (e_Mask e) (e_Constraints e) (e_Operands e) (e_Immediate e) (e_Rounding e) (e_Format e) (e_Result e) (e_Effects e) (e_RequiresPC e) (e_RequiresActiveMask e) (e_WriteMask e) (e_Memory e) v (e_Control e) (e_Barrier e) (e_Modifier e) (e_RTLEvidence e) (e_Example e).
Definition set_e_Control (v : ControlKind) (e : Entry) : Entry :=
  mkEntry (e_Name e) (e_Category e) (e_Match e) (e_Mask e) (e_Constraints e) (e_Operands e) (e_Immediate e) (e_Rounding e) (e_Format e) (e_Result e) (e_Effects e) (e_RequiresPC e) (e_RequiresActiveMask e) (e_WriteMask e) (e_Memory e) (e_CSR e) v (e_Barrier e) (e_Modifier e) (e_RTLEvidence e) (e_Example e).
Definition set_e_Barrier (v : BarrierKind) (e : Entry) : Entry :=
  mkEntry (e_Name e) (e_Category e) (e_Match e) (e_Mask e) (e_Constraints e) (e_Operands e) (e_Immediate e) (e_Rounding e) (e_Format e) (e_Result e) (e_Effects e) (e_RequiresPC e) (e_RequiresActiveMask e) (e_WriteMask e) (e_Memory e) (e_CSR e) (e_Control e) v (e_Modifier e) (e_RTLEvidence e) (e_Example e).
Definition set_e_Modifier (v : ModifierKind) (e : Entry) : Entry :=
  mkEntry (e_Name e) (e_Category e) (e_Match e) (e_Mask e) (e_Constraints e) (e_Operands e) (e_Immediate e) (e_Rounding e) (e_Format e) (e_Result e) (e_Effects e) (e_RequiresPC e) (e_RequiresActiveMask e) (e_WriteMask e) (e_Memory e) (e_CSR e) (e_Control e) (e_Barrier e) v (e_RTLEvidence e) (e_Example e).
Definition set_e_Example (v : Z) (e : Entry) : Entry :=
  mkEntry (e_Name e) (e_Category e) (e_Match e) (e_Mask e) (e_Constraints e) (e_Operands e) (e_Immediate e) (e_Rounding e) (e_Format e) (e_Result e) (e_Effects e) (e_RequiresPC e) (e_RequiresActiveMask e) (e_WriteMask e) (e_Memory e) (e_CSR e) (e_Control e) (e_Barrier e) (e_Modifier e) (e_RTLEvidence e) v.

Definition finish (e : Entry) : Entry := set_e_Example (rExample (e_Match e) (e_Mask e)) e.

Definition aluI (name : string) (f3 : Z) : Entry :=
  base name CategoryRV32I (bitsF3 f3 opImm) maskF3 [xd; x1] ImmediateI ResultInteger
    (EffectRegister .| EffectLane) integerEvidence.
Definition shiftI (name : string) (f7 f3 : Z) : Entry :=
  base name CategoryRV32I (bitsF7 f7 f3 opImm) maskF7 [xd; x1] ImmediateShift ResultInteger
    (EffectRegister .| EffectLane) integerEvidence.
Definition aluR (name : string) (category : Category) (f7 f3 : Z) (evidence : list string) : Entry :=
  base name category (bitsF7 f7 f3 opReg) maskF7 [xd; x1; x2] ImmediateNone ResultInteger
    (EffectRegister .| EffectLane) evidence.
Definition branch (name : string) (f3 : Z) : Entry :=
  set_e_RequiresPC true (set_e_Control ControlBranch
    (base name CategoryRV32I (bitsF3 f3 opBranch) maskF3 [x1; x2] ImmediateB ResultNone
      (EffectControl .| EffectLane) integerEvidence)).
Definition load (name : string) (f3 bytes : Z) (signed : bool) : Entry :=
  set_e_Memory (mkMemorySpec MemoryLoad bytes signed false 0)
    (base name CategoryRV32I (bitsF3 f3 opLoad) maskF3 [xd; x1] ImmediateI ResultMemoryValue
      (EffectRegister .| EffectMemory .| EffectLane) memoryEvidence).
Definition store (name : string) (f3 bytes : Z) : Entry :=
  set_e_Memory (mkMemorySpec MemoryStore bytes false false 0)
    (base name CategoryRV32I (bitsF3 f3 opStore) maskF3 [x1; x2] ImmediateS ResultNone
      (EffectMemory .| EffectLane) memoryEvidence).
Definition fpRM (name : string) (match_ mask : Z) (operands : list OperandSpec) : Entry :=
  set_e_Example (rExample match_ mask) (set_e_Format FormatSingle (set_e_Rounding true
    (set_e_Constraints rmConstraint
      (base name CategoryRV32F match_ mask operands ImmediateNone ResultFloat
        (EffectRegister .| EffectFFlags .| EffectLane) fEvidence)))).
Definition fpFixed (name : string) (f7 f3 : Z) (operands : list OperandSpec) (res : ResultKind) (flags : bool) : Entry :=
  let effects := EffectRegister .| EffectLane in
  let effects := if flags then effects .| EffectFFlags else effects in
  set_e_Format FormatSingle
    (base name CategoryRV32F (bitsF7 f7 f3 opFloat) maskF7 operands ImmediateNone res effects fEvidence).
Definition fpRS2RM (name : string) (f7 rs2 : Z) (operands : list OperandSpec) (res : ResultKind) : Entry :=
  set_e_Result res (fpRM name (bitsRS2 rs2 f7 0 opFloat) (maskF7NoF3 .| maskRS2) operands).
Definition csr (name : string) (f3 : Z) (kind : CSRKind) (immediate : bool) : Entry :=
  let ops := [xd] in
  let ops := if immediate then ops else ops ++ [x1] in
  set_e_CSR kind
    (base name CategorySystem (bitsF3 f3 opSystem) maskF3 ops ImmediateCSR ResultCSRValue
      (EffectRegister .| EffectCSR .| EffectLane) systemEvidence).
Definition custom (name : string) (f3 : Z) (operands : list OperandSpec) (res : ResultKind)
    (effects : EffectKind) (control : ControlKind) : Entry :=
  set_e_Control control
    (base name CategoryCustom (bitsF7 0 f3 opCustom) maskF7 operands ImmediateNone res effects customEvidence).

(** [e.Mask |= m] *)
Definition or_mask (m : Z) (e : Entry) : Entry := set_e_Mask (e_Mask e .| m) e.
(** [e.Mask |= maskRS2; e.Match &^= maskRS2; return finish(e)] of the FMV/FCLASS rows. *)
Definition fixed_rs2_zero (e : Entry) : Entry :=
  finish (set_e_Match (e_Match e .&^ maskRS2) (or_mask maskRS2 e)).

(** The five rows whose word is completely fixed. *)
Definition trap_row (name : string) (match_ : Z) (control : ControlKind) : Entry :=
  set_e_Example match_ (set_e_RequiresPC true (set_e_Control control
    (base name CategorySystem match_ 0xffffffff [] ImmediateNone ResultNone
      (EffectControl .| EffectCSR .| EffectWarp) systemEvidence))).

Definition vote_row (name : string) (f3 : Z) : Entry :=
  base name CategoryCustom (bitsF7 1 f3 opCustom) (maskF7 .| maskRS2) [xd; x1] ImmediateNone ResultInteger
    (EffectRegister .| EffectLane) laneEvidence.
Definition shfl_row (name : string) (f3 : Z) : Entry :=
  base name CategoryCustom (bitsF7 1 f3 opCustom) maskF7 [xd; x1; x2] ImmediateNone ResultInteger
    (EffectRegister .| EffectLane) laneEvidence.
Definition pack_row (name : string) (f3 bytes packed : Z) : Entry :=
  set_e_Memory (mkMemorySpec MemoryLoad bytes false true packed) (set_e_Format FormatSingle
    (base name CategoryCustom (bitsF7 4 f3 opCustom) maskF7 [fd; x1; x2] ImmediateNone ResultMemoryValue
      (EffectRegister .| EffectMemory .| EffectLane) packEvidence)).

Definition catalog : list Entry := [
  base "lui" CategoryRV32I opLUI maskOpcode [xd] ImmediateU ResultInteger (EffectRegister .| EffectLane) integerEvidence;
  set_e_RequiresPC true
    (base "auipc" CategoryRV32I opAUIPC maskOpcode [xd] ImmediateU ResultInteger (EffectRegister .| EffectLane) integerEvidence);
  set_e_RequiresPC true (set_e_Control ControlJump
    (base "jal" CategoryRV32I opJAL maskOpcode [xd] ImmediateJ ResultInteger
      (EffectRegister .| EffectControl .| EffectLane) integerEvidence));
  set_e_RequiresPC true (set_e_Control ControlJump
    (base "jalr" CategoryRV32I (bitsF3 0 opJALR) maskF3 [xd; x1] ImmediateI ResultInteger
      (EffectRegister .| EffectControl .| EffectLane) integerEvidence));
  branch "beq" 0; branch "bne" 1; branch "blt" 4; branch "bge" 5; branch "bltu" 6; branch "bgeu" 7;
  load "lb" 0 1 true; load "lh" 1 2 true; load "lw" 2 4 true; load "lbu" 4 1 false; load "lhu" 5 2 false;
  store "sb" 0 1; store "sh" 1 2; store "sw" 2 4;
  aluI "addi" 0; shiftI "slli" 0x00 1; aluI "slti" 2; aluI "sltiu" 3; aluI "xori" 4; shiftI "srli" 0x00 5;
  shiftI "srai" 0x20 5; aluI "ori" 6; aluI "andi" 7;
  aluR "add" CategoryRV32I 0x00 0 integerEvidence; aluR "sub" CategoryRV32I 0x20 0 integerEvidence;
  aluR "sll" CategoryRV32I 0x00 1 integerEvidence; aluR "slt" CategoryRV32I 0x00 2 integerEvidence;
  aluR "sltu" CategoryRV32I 0x00 3 integerEvidence; aluR "xor" CategoryRV32I 0x00 4 integerEvidence;
  aluR "srl" CategoryRV32I 0x00 5 integerEvidence; aluR "sra" CategoryRV32I 0x20 5 integerEvidence;
  aluR "or" CategoryRV32I 0x00 6 integerEvidence; aluR "and" CategoryRV32I 0x00 7 integerEvidence;
  set_e_Example 0x0ff0000f (set_e_Memory (mkMemorySpec MemoryFence 0 false false 0)
    (base "fence" CategoryFence opFence 0xf00fffff [] ImmediateNone ResultNone (EffectMemory .| EffectOrdering) memoryEvidence));

  aluR "mul" CategoryRV32M 0x01 0 mEvidence; aluR "mulh" CategoryRV32M 0x01 1 mEvidence;
  aluR "mulhsu" CategoryRV32M 0x01 2 mEvidence; aluR "mulhu" CategoryRV32M 0x01 3 mEvidence;
  aluR "div" CategoryRV32M 0x01 4 mEvidence; aluR "divu" CategoryRV32M 0x01 5 mEvidence;
  aluR "rem" CategoryRV32M 0x01 6 mEvidence; aluR "remu" CategoryRV32M 0x01 7 mEvidence;
  aluR "czero.eqz" CategoryZicond 0x07 5 integerEvidence; aluR "czero.nez" CategoryZicond 0x07 7 integerEvidence;

  trap_row "ecall" 0x00000073 ControlTrap;
  trap_row "ebreak" 0x00100073 ControlTrap;
  trap_row "uret" 0x00200073 ControlTrapReturn;
  trap_row "sret" 0x10200073 ControlTrapReturn;
  trap_row "mret" 0x30200073 ControlTrapReturn;
  csr "csrrw" 1 CSRRW false; csr "csrrs" 2 CSRRS false; csr "csrrc" 3 CSRRC false;
  csr "csrrwi" 5 CSRRW true; csr "csrrsi" 6 CSRRS true; csr "csrrci" 7 CSRRC true;

  set_e_Memory (mkMemorySpec MemoryLoad 4 false true 0) (set_e_Format FormatSingle
    (base "flw" CategoryRV32F (bitsF3 2 opFLoad) maskF3 [fd; x1] ImmediateI ResultMemoryValue
      (EffectRegister .| EffectMemory .| EffectLane) memoryEvidence));
  set_e_Memory (mkMemorySpec MemoryStore 4 false true 0) (set_e_Format FormatSingle
    (base "fsw" CategoryRV32F (bitsF3 2 opFStore) maskF3 [x1; f2] ImmediateS ResultNone
      (EffectMemory .| EffectLane) memoryEvidence));
  fpRM "fmadd.s" opFMAdd 0x0600007f [fd; f1; f2; f3]; fpRM "fmsub.s" opFMSub 0x0600007f [fd; f1; f2; f3];
  fpRM "fnmsub.s" opFNMSub 0x0600007f [fd; f1; f2; f3]; fpRM "fnmadd.s" opFNMAdd 0x0600007f [fd; f1; f2; f3];
  fpRM "fadd.s" (bitsF7 0x00 0 opFloat) maskF7NoF3 [fd; f1; f2]; fpRM "fsub.s" (bitsF7 0x04 0 opFloat) maskF7NoF3 [fd; f1; f2];
  fpRM "fmul.s" (bitsF7 0x08 0 opFloat) maskF7NoF3 [fd; f1; f2]; fpRM "fdiv.s" (bitsF7 0x0c 0 opFloat) maskF7NoF3 [fd; f1; f2];
  fpRS2RM "fsqrt.s" 0x2c 0 [fd; f1] ResultFloat;
  fpFixed "fsgnj.s" 0x10 0 [fd; f1; f2] ResultFloat false; fpFixed "fsgnjn.s" 0x10 1 [fd; f1; f2] ResultFloat false;
  fpFixed "fsgnjx.s" 0x10 2 [fd; f1; f2] ResultFloat false; fpFixed "fmin.s" 0x14 0 [fd; f1; f2] ResultFloat true;
  fpFixed "fmax.s" 0x14 1 [fd; f1; f2] ResultFloat true;
  fpFixed "fle.s" 0x50 0 [xd; f1; f2] ResultInteger true; fpFixed "flt.s" 0x50 1 [xd; f1; f2] ResultInteger true;
  fpFixed "feq.s" 0x50 2 [xd; f1; f2] ResultInteger true;
  fpRS2RM "fcvt.w.s" 0x60 0 [xd; f1] ResultInteger; fpRS2RM "fcvt.wu.s" 0x60 1 [xd; f1] ResultInteger;
  fpRS2RM "fcvt.s.w" 0x68 0 [fd; x1] ResultFloat; fpRS2RM "fcvt.s.wu" 0x68 1 [fd; x1] ResultFloat;
  fixed_rs2_zero (fpFixed "fmv.x.w" 0x70 0 [xd; f1] ResultInteger false);
  fixed_rs2_zero (fpFixed "fclass.s" 0x70 1 [xd; f1] ResultInteger false);
  fixed_rs2_zero (fpFixed "fmv.w.x" 0x78 0 [fd; x1] ResultFloat false);

  finish (or_mask (maskRD .| maskRS2)
    (custom "tmc" 0 [x1] ResultNone (EffectWarp .| EffectLane .| EffectControl) ControlThreadMask));
  finish (or_mask maskRD
    (custom "wspawn" 1 [x1; x2] ResultNone (EffectWarp .| EffectCSR .| EffectControl) ControlWarpSpawn));
  finish (set_e_RequiresPC true (set_e_Modifier ModifierSplitNegateRS2 (or_mask 0x01e00000
    (custom "split" 2 [xd; x1] ResultControlValue (EffectRegister .| EffectWarp .| EffectControl) ControlSplit))));
  finish (or_mask (maskRD .| maskRS2)
    (custom "join" 3 [x1] ResultNone (EffectWarp .| EffectControl) ControlJoin));
  finish (set_e_Barrier BarrierSync (or_mask maskRD
    (custom "bar" 4 [x1; x2] ResultNone (EffectBarrier .| EffectWarp .| EffectOrdering) ControlNone)));
  finish (set_e_Modifier ModifierPredicateNegateRD (or_mask 0x00000f00
    (custom "pred" 5 [x1; x2] ResultNone (EffectWarp .| EffectLane .| EffectControl) ControlPredicate)));
  finish (set_e_Barrier BarrierWait (or_mask maskRD
    (custom "bar.wait" 6 [x1; x2] ResultNone (EffectBarrier .| EffectWarp .| EffectOrdering) ControlNone)));
  finish (set_e_Barrier BarrierArrive (set_e_Constraints [mkValueConstraint "rd" maskRD 7 [] true]
    (custom "bar.arrive" 6 [xd; x1; x2] ResultControlValue
      (EffectRegister .| EffectBarrier .| EffectWarp .| EffectOrdering) ControlNone)));
  finish (or_mask (maskRD .| maskRS1 .| maskRS2)
    (custom "wsync" 7 [] ResultNone (EffectWarp .| EffectOrdering) ControlWarpSync));

  vote_row "vote.all" 0; vote_row "vote.any" 1; vote_row "vote.uni" 2; vote_row "vote.ballot" 3;
  shfl_row "shfl.up" 4; shfl_row "shfl.down" 5; shfl_row "shfl.bfly" 6; shfl_row "shfl.idx" 7;
  set_e_Modifier ModifierGatherSourceLane (set_e_WriteMask WriteMaskGatherNonSource
    (base "wgather" CategoryCustom (bitsF3 0 opGather) maskF3 [xd; x1; x2; x3] ImmediateNone ResultInteger
      (EffectRegister .| EffectLane) laneEvidence));
  pack_row "vx_packlb_f" 1 1 4; pack_row "vx_packlh_f" 2 2 2
].

(** ** The rows do not overlap

    [rows_disjoint a b] decides by looking at the masks alone that no word
    satisfies both rows: a bit both rows fix differs, or a non-zero field of one
    row is fixed to zero by the other. *)

Definition forces_zero (c : ValueConstraint) (e : Entry) : bool :=
  vc_NonZero c && (vc_Mask c .&^ e_Mask e =? 0) && ((e_Match e .& vc_Mask c) >> vc_Shift c =? 0).

Definition rows_disjoint (a b : Entry) : bool :=
  ((e_Match a .^ e_Match b) .& (e_Mask a .& e_Mask b) <>? 0)
  || existsb (fun c => forces_zero c b) (e_Constraints a)
  || existsb (fun c => forces_zero c a) (e_Constraints b).

Fixpoint pairwise_disjoint (rows : list Entry) : bool :=
  match rows with
  | [] => true
  | e :: rest => forallb (rows_disjoint e) rest && pairwise_disjoint rest
  end.

Lemma entry_accepts_spec e w :
  entry_accepts e w = true <->
  w .& e_Mask e = e_Match e /\ forall c, In c (e_Constraints e) -> constraint_accepts c w = true.
Proof.
  unfold entry_accepts. destruct (Z.eqb_spec (w .& e_Mask e) (e_Match e)); simpl.
  - rewrite forallb_forall. naive_solver.
  - naive_solver.
Qed.

Lemma forces_zero_sound c e w :
  forces_zero c e = true -> w .& e_Mask e = e_Match e -> constraint_accepts c w = false.
Proof.
  unfold forces_zero, constraint_accepts.
  intros [[-> Hm]%andb_true_iff Hz]%andb_true_iff Hw.
  apply Z.eqb_eq in Hm, Hz. rewrite <- Hw in Hz.
  assert (w .& e_Mask e .& vc_Mask c = w .& vc_Mask c) as E.
  { rewrite <- Z.land_assoc. f_equal. bitwise.
    apply (f_equal (fun z => Z.testbit z i)) in Hm. rewrite Z.ldiff_spec, Z.testbit_0_l in Hm.
    destruct (Z.testbit (vc_Mask c) i), (Z.testbit (e_Mask e) i); done. }
  rewrite E in Hz. by rewrite Hz.
Qed.

Lemma rows_disjoint_sound a b w :
  rows_disjoint a b = true -> entry_accepts a w = true -> entry_accepts b w = true -> False.
Proof.
  rewrite !entry_accepts_spec. intros H [Ha Ca] [Hb Cb].
  unfold rows_disjoint in H. rewrite !orb_true_iff in H. destruct H as [[H|H]|H].
  - apply negb_true_iff, Z.eqb_neq in H. apply H. rewrite <- Ha, <- Hb. bitwise.
    destruct (Z.testbit w i), (Z.testbit (e_Mask a) i), (Z.testbit (e_Mask b) i); done.
  - apply existsb_exists in H as (c & Hc & Hz).
    specialize (Ca c Hc).
    by rewrite (forces_zero_sound _ _ w Hz Hb) in Ca.
  - apply existsb_exists in H as (c & Hc & Hz). specialize (Cb c Hc).
    by rewrite (forces_zero_sound _ _ w Hz Ha) in Cb.
Qed.

Lemma catalog_pairwise_disjoint : pairwise_disjoint catalog = true.
Proof. vm_compute. reflexivity. Qed.

#[global] Opaque catalog.
