(* ===== verification/Decode.v ===== *)
(** * Strict decoding (src/isa/decode.go)

    [Decode] scans the whole catalog, rejects a second match, and translates the
    accepted row.  The theorems show that the ambiguity error and the panic of
    the source are unreachable, that decoding is exactly "the unique accepting
    row", and that immediates have the ranges and round trips of RV32. *)

From S2P Require Import Prelude IsaTypes Catalog.

#[local] Open Scope Z_scope.
#[local] Open Scope go_scope.

Definition registerIndex (word : Z) (field : RegisterField) : Z :=
  match field with
  | FieldRD => (word >> 7) .& 0x1f
  | FieldRS1 => (word >> 15) .& 0x1f
  | FieldRS2 => (word >> 20) .& 0x1f
  | FieldRS3 => (word >> 27) .& 0x1f
  end.

(** [int32(value<<shift) >> shift]: the right shift is arithmetic. *)
Definition signExtend (value bits : Z) : Z :=
  let shift := 32 - bits in i32 (u32 (value << shift)) >> shift.

Definition decodeImmediate (word : Z) (kind : ImmediateKind) : Z :=
  match kind with
  | ImmediateI => signExtend (word >> 20) 12
  | ImmediateS => signExtend (u32 ((word >> 25) << 5) .| ((word >> 7) .& 0x1f)) 12
  | ImmediateB =>
      let value := u32 ((word >> 31) << 12) .| u32 (((word >> 7) .& 1) << 11)
                   .| u32 (((word >> 25) .& 0x3f) << 5) .| u32 (((word >> 8) .& 0xf) << 1) in
      signExtend value 13
  | ImmediateU => i32 (word .& 0xfffff000)
  | ImmediateJ =>
      let value := u32 ((word >> 31) << 20) .| u32 (((word >> 12) .& 0xff) << 12)
                   .| u32 (((word >> 20) .& 1) << 11) .| u32 (((word >> 21) .& 0x3ff) << 1) in
      signExtend value 21
  | ImmediateShift => i32 ((word >> 20) .& 0x1f)
  | ImmediateCSR => i32 ((word >> 20) .& 0xfff)
  | ImmediateNone => 0
  end.

Definition decodeRounding (encoded : Z) : result RoundingMode :=
  if encoded =? 0 then Ok RNE
  else if encoded =? 1 then Ok RTZ
  else if encoded =? 2 then Ok RDN
  else if encoded =? 3 then Ok RUP
  else if encoded =? 4 then Ok RMM
  else if encoded =? 7 then Ok Dynamic
  else Err (GoPanic "reserved rounding mode reached decode").

(** The operand loop: registers with the given access, in catalog order. *)
Definition operand_registers (word : Z) (access_is_read : bool) (ops : list OperandSpec) : list Register :=
  map (fun o => mkRegister (os_File o) (registerIndex word (os_Field o)))
    (List.filter (fun o => match os_Access o with Read => access_is_read | Write => negb access_is_read end) ops).

Definition decodeEntry (word : Z) (entry : Entry) : result Decoded :=
  let? rounding := if e_Rounding entry then decodeRounding ((word >> 12) .& 7) else Ok RoundingNone in
  let has_csr := negb (bool_decide (e_CSR entry = CSRNone)) in
  let csr_imm := has_csr && ((e_Name entry == "csrrwi") || (e_Name entry == "csrrsi") || (e_Name entry == "csrrci")) in
  Ok {| d_Word := word;
        d_Name := e_Name entry;
        d_Category := e_Category entry;
        d_Sources := operand_registers word true (e_Operands entry);
        d_Destinations := operand_registers word false (e_Operands entry);
        d_HasImmediate := negb (bool_decide (e_Immediate entry = ImmediateNone));
        d_Immediate := decodeImmediate word (e_Immediate entry);
        d_Rounding := rounding;
        d_Format := e_Format entry;
        d_Result := e_Result entry;
        d_Effects := e_Effects entry;
        d_RequiresPC := e_RequiresPC entry;
        d_RequiresActiveMask := e_RequiresActiveMask entry;
        d_WriteMask := e_WriteMask entry;
        d_Memory := e_Memory entry;
        d_CSR := e_CSR entry;
        d_CSRAddress := if has_csr then u16 (word >> 20) else 0;
        d_CSRImmediate := csr_imm;
        d_CSRImmediateValue := if csr_imm then (word >> 15) .& 0x1f else 0;
        d_Control := e_Control entry;
        d_Barrier := e_Barrier entry;
        d_ConditionNegated :=
          match e_Modifier entry with
          | ModifierSplitNegateRS2 => (word >> 20) .& 1 <>? 0
          | ModifierPredicateNegateRD => (word >> 7) .& 1 <>? 0
          | _ => false
          end;
        d_GatherSourceLane :=
          match e_Modifier entry with
          | ModifierGatherSourceLane => (word >> 25) .& 3
          | _ => 0
          end |}.

(** The scan of [Decode]: [matched] is the row found so far. *)
Fixpoint scan_catalog (rows : list Entry) (word : Z) (matched : option Entry) : result (option Entry) :=
  match rows with
  | [] => Ok matched
  | e :: rest =>
      if entry_accepts e word then
        match matched with
        | Some m => Err (AmbiguousCatalogMatch word (e_Name m) (e_Name e))
        | None => scan_catalog rest word (Some e)
        end
      else scan_catalog rest word matched
  end.

Definition Decode (word : Z) : result Decoded :=
  let? matched := scan_catalog catalog word None in
  match matched with
  | None => Err (IllegalInstructionError word)
  | Some e => decodeEntry word e
  end.

(** ** The scan *)

Lemma scan_none rows word m : (forall e, e ∈ rows -> entry_accepts e word = false) -> scan_catalog rows word m = Ok m.
Proof.
  induction rows as [|e rows IH]; simpl; [done|]. intros H.
  rewrite (H e) by apply list_elem_of_here. apply IH. intros; apply H. by apply list_elem_of_further.
Qed.

Lemma scan_unique rows word e :
  pairwise_disjoint rows = true -> e ∈ rows -> entry_accepts e word = true ->
  scan_catalog rows word None = Ok (Some e).
Proof.
  induction rows as [|r rows IH]; simpl; [by intros _ ?%elem_of_nil|].
  intros [Hr Hd]%andb_true_iff He Ha. apply elem_of_cons in He as [->|He].
  - rewrite Ha. apply scan_none. intros e' He'.
    destruct (entry_accepts e' word) eqn:E; [|done]. exfalso.
    eapply rows_disjoint_sound; [|exact Ha|exact E]. by eapply forallb_elem in Hr.
  - destruct (entry_accepts r word) eqn:E; [|by apply IH]. exfalso.
    eapply rows_disjoint_sound; [|exact E|exact Ha]. by eapply forallb_elem in Hr.
Qed.

Lemma scan_cases word :
  (exists e, e ∈ catalog /\ entry_accepts e word = true /\ scan_catalog catalog word None = Ok (Some e)) \/
  ((forall e, e ∈ catalog -> entry_accepts e word = false) /\ scan_catalog catalog word None = Ok None).
Proof.
  destruct (existsb (fun e => entry_accepts e word) catalog) eqn:E.
  - left. apply existsb_exists in E as (e & He & Ha). apply list_elem_of_In in He.
    exists e. split_and!; [done..|]. by apply scan_unique, Ha; [apply catalog_pairwise_disjoint|].
  - right. assert (forall e, e ∈ catalog -> entry_accepts e word = false) as H.
    { intros e He. destruct (entry_accepts e word) eqn:Ha; [|done].
      assert (existsb (fun e => entry_accepts e word) catalog = true); [|congruence].
      apply existsb_exists. exists e. by rewrite <- list_elem_of_In. }
    split; [done|]. by apply scan_none.
Qed.

(** A row that asks for a rounding mode constrains the field to legal values. *)
Definition rounding_guarded (e : Entry) : bool :=
  negb (e_Rounding e) || bool_decide (map vc_Mask (e_Constraints e) = [maskRM])
    && bool_decide (map vc_Shift (e_Constraints e) = [12])
    && bool_decide (map vc_Values (e_Constraints e) = [[0; 1; 2; 3; 4; 7]]).

Lemma catalog_rounding_guarded : forallb rounding_guarded catalog = true.
Proof. vm_compute. reflexivity. Qed.

Lemma rounding_field word : (word .& maskRM) >> 12 = (word >> 12) .& 7.
Proof.
  bitwise. destruct (Z.le_gt_cases 3 i).
  - rewrite (testbit_above 15 maskRM), (testbit_above 3 7) by (unfold maskRM; lia). by rewrite !andb_false_r.
  - f_equal. assert (i = 0 \/ i = 1 \/ i = 2) as [->|[->| ->]] by lia; reflexivity.
Qed.

Lemma decodeRounding_legal n :
  existsb (fun allowed => n =? allowed) [0; 1; 2; 3; 4; 7] = true -> exists m, decodeRounding n = Ok m.
Proof.
  intros (v & Hv & ->%Z.eqb_eq)%existsb_exists. simpl in Hv.
  destruct Hv as [<-|[<-|[<-|[<-|[<-|[<-|[]]]]]]]; by eexists.
Qed.

Lemma decodeEntry_ok word e :
  e ∈ catalog -> entry_accepts e word = true -> exists d, decodeEntry word e = Ok d.
Proof.
  intros He Ha. pose proof (forallb_elem _ _ catalog_rounding_guarded e He) as Hg.
  unfold decodeEntry. destruct (e_Rounding e) eqn:Er; [|by eexists].
  unfold rounding_guarded in Hg. rewrite Er in Hg. simpl in Hg.
  apply andb_true_iff in Hg as [[H1%bool_decide_eq_true H2%bool_decide_eq_true]%andb_true_iff H3%bool_decide_eq_true].
  apply entry_accepts_spec in Ha as [_ Hc].
  destruct (e_Constraints e) as [|c [|? ?]]; try discriminate.
  injection H1 as H1. injection H2 as H2. injection H3 as H3.
  specialize (Hc c (or_introl eq_refl)). unfold constraint_accepts in Hc. rewrite H1, H2, H3 in Hc.
  rewrite rounding_field in Hc. destruct (vc_NonZero c && _); [done|].
  destruct (decodeRounding_legal _ Hc) as [m ->]. by eexists.
Qed.

(** Inversion of a successful decode, the entry point of every later proof. *)
Lemma decode_inv word d :
  Decode word = Ok d -> exists e, e ∈ catalog /\ entry_accepts e word = true /\ decodeEntry word e = Ok d.
Proof.
  unfold Decode. intros (m & Hm & Hd)%result_bind_ok. destruct m as [e|]; [|done].
  destruct (scan_cases word) as [(e' & He & Ha & Hs)|[_ Hs]]; rewrite Hs in Hm; simplify_eq.
  by exists e.
Qed.

(** What a row of the catalog asks of a word, in terms of its fields. *)
Definition row_matches (e : Entry) (word : Z) : Prop :=
  word .& e_Mask e = e_Match e /\ forall c, In c (e_Constraints e) ->
    let v := (word .& vc_Mask c) >> vc_Shift c in (vc_NonZero c = true -> v <> 0) /\ (vc_Values c <> [] -> v ∈ vc_Values c).

Lemma constraint_accepts_spec c word :
  constraint_accepts c word = true <-> let v := (word .& vc_Mask c) >> vc_Shift c in (vc_NonZero c = true -> v <> 0) /\ (vc_Values c <> [] -> v ∈ vc_Values c).
Proof.
  unfold constraint_accepts. cbv zeta. set (v := (word .& vc_Mask c) >> vc_Shift c). clearbody v.
  assert (match vc_Values c with [] => true | values => existsb (fun allowed => v =? allowed) values end = true <-> (vc_Values c <> [] -> v ∈ vc_Values c)) as Hv.
  { destruct (vc_Values c) as [|x xs]; [done|]. rewrite existsb_exists. split.
    - intros (y & Hy & ->%Z.eqb_eq) _. by apply list_elem_of_In.
    - intros H. exists v. split; [apply list_elem_of_In, H; done|apply Z.eqb_refl]. }
  destruct (vc_NonZero c), (Z.eqb_spec v 0); cbn [andb]; rewrite ?Hv; naive_solver.
Qed.

Lemma entry_accepts_matches e word : entry_accepts e word = true <-> row_matches e word.
Proof. rewrite entry_accepts_spec. unfold row_matches. by setoid_rewrite constraint_accepts_spec. Qed.

(** C37: decoding is total and follows the catalog.  A word decodes to [d] exactly when it
    has the fixed bits of some row and satisfies that row's constraints, and [d] is
    that row's translation, which never fails; no word matches two rows, so no match
    is ambiguous; a word is refused, with the illegal-instruction error that carries
    it, exactly when it matches no row; and every row is reached, by its own example
    word. *)
Theorem decode_spec word :
  (forall d, Decode word = Ok d <-> exists e, e ∈ catalog /\ row_matches e word /\ decodeEntry word e = Ok d) /\
  (forall e, e ∈ catalog -> row_matches e word -> is_ok (decodeEntry word e) = true /\ forall e', e' ∈ catalog -> row_matches e' word -> e' = e) /\
  (Decode word = Err (IllegalInstructionError word) <-> forall e, e ∈ catalog -> ~ row_matches e word) /\
  ((exists d, Decode word = Ok d) \/ Decode word = Err (IllegalInstructionError word)) /\
  (forall e, e ∈ catalog -> exists d, Decode (e_Example e) = Ok d /\ d_Name d = e_Name e).
Proof.
  assert (forall a, a ∈ catalog -> entry_accepts a word = true -> scan_catalog catalog word None = Ok (Some a)) as U.
  { intros a Ha Hw. apply scan_unique; [apply catalog_pairwise_disjoint|done..]. }
  split; [|split; [|split; [|split]]].
  - intros d. split.
    + intros (e & He & Ha%entry_accepts_matches & Hd)%decode_inv. by exists e.
    + intros (e & He & Ha%entry_accepts_matches & Hd). unfold Decode. by rewrite (U e).
  - intros e He Ha%entry_accepts_matches. split; [by destruct (decodeEntry_ok word e He Ha) as [d ->]|].
    intros e' He' Ha'%entry_accepts_matches. pose proof (U e He Ha). pose proof (U e' He' Ha'). congruence.
  - setoid_rewrite <- entry_accepts_matches. unfold Decode. destruct (scan_cases word) as [(e & He & Ha & Hs)|[Hn Hs]]; rewrite Hs; simpl.
    + split; [|intros H; by destruct (H e He)]. destruct (decodeEntry_ok word e He Ha) as [d' ->]. done.
    + split; [|done]. intros _ e He. by rewrite (Hn e He).
  - unfold Decode. destruct (scan_cases word) as [(e & He & Ha & ->)|[_ ->]]; simpl; [left|by right]. by apply decodeEntry_ok.
  - assert (forallb (fun e => match Decode (e_Example e) with Ok d => d_Name d == e_Name e | Err _ => false end) catalog = true) as Hall by (vm_compute; reflexivity).
    intros e He. eapply forallb_elem in Hall; [|exact He]. cbv beta in Hall. destruct (Decode (e_Example e)) as [d|]; [|done]. exists d. split; [done|]. by apply String.eqb_eq.
Qed.

(** ** Immediates *)

Lemma signExtend_spec v n : 0 < n <= 32 -> signExtend v n = signed n v.
Proof.
  intros Hn. unfold signExtend, i32. rewrite Z.shiftl_mul_pow2, Z.shiftr_div_pow2 by lia.
  unfold u32. rewrite (signed_eq_mod 32 _ (v * 2 ^ (32 - n))) by apply Zmod_mod.
  replace 32 with (n + (32 - n)) at 1 by lia. rewrite signed_shift by lia.
  apply Z.div_mul. lia.
Qed.

(** The RV32 immediate layout: which instruction bit supplies bit [k] of the
    immediate of each format ([None]: the bit is zero). *)
Definition imm_source (kind : ImmediateKind) (k : Z) : option Z :=
  match kind with
  | ImmediateNone => None
  | ImmediateI => Some (20 + Z.min k 11)
  | ImmediateS => if k <? 5 then Some (7 + k) else Some (20 + Z.min k 11)
  | ImmediateB =>
      if k =? 0 then None else if k <? 5 then Some (7 + k) else if k <? 11 then Some (20 + k)
      else if k =? 11 then Some 7 else Some 31
  | ImmediateU => if k <? 12 then None else Some (Z.min k 31)
  | ImmediateJ =>
      if k =? 0 then None else if k <? 11 then Some (20 + k) else if k =? 11 then Some 20
      else if k <? 20 then Some k else Some 31
  | ImmediateShift => if k <? 5 then Some (20 + k) else None
  | ImmediateCSR => if k <? 12 then Some (20 + k) else None
  end.

Ltac imm_bit_cases :=
  match goal with
  | |- context [imm_source ?kind ?j] =>
      let v := eval vm_compute in (imm_source kind j) in change (imm_source kind j) with v
  end;
  cbn [from_option]; autorewrite with zbits_at; close_bits; reflexivity.

Lemma imm_bits_signed (word value n : Z) (src : Z -> option Z) k :
  0 < n -> 0 <= k ->
  (forall j, 0 <= j < n -> Z.testbit value j = from_option (Z.testbit word) false (src j)) ->
  (forall j, n <= j -> src j = src (n - 1)) ->
  Z.testbit (signed n value) k = from_option (Z.testbit word) false (src k).
Proof.
  intros Hn Hk Hlow Hhigh. rewrite signed_testbit by lia.
  destruct (Z.le_gt_cases n k).
  - rewrite Z.min_r, Hhigh by lia. apply Hlow. lia.
  - rewrite Z.min_l by lia. apply Hlow. lia.
Qed.

(** The format tables, bit by bit. *)
Lemma immediate_bit_source word kind k :
  is_u32 word -> 0 <= k ->
  Z.testbit (decodeImmediate word kind) k = from_option (Z.testbit word) false (imm_source kind k).
Proof.
  intros Hw Hk.
  destruct kind; [apply Z.testbit_0_l|..]; unfold decodeImmediate; cbv zeta;
    rewrite ?signExtend_spec by lia; unfold i32;
    (apply imm_bits_signed; [lia | lia | intros j Hj; enum_range Hj; imm_bit_cases | ]);
    intros j Hj; unfold imm_source; rewrite ?Z.min_r by lia; repeat case_match; try lia; done.
Qed.

(** Every bit of a decoded immediate is the instruction bit the RV32 format
    names, sign-extended where the format is signed (all seven formats, all bit
    positions). *)
Theorem decodeImmediate_bits word kind k :
  is_u32 word -> 0 <= k ->
  Z.testbit (decodeImmediate word kind) k = from_option (Z.testbit word) false (imm_source kind k).
Proof. apply immediate_bit_source. Qed.

Example decodeImmediate_bits_witness :
  is_u32 0xfe000ee3 /\ Z.testbit (decodeImmediate 0xfe000ee3 ImmediateB) 40 = Z.testbit 0xfe000ee3 31.
Proof. split; [by vm_compute|]. apply (decodeImmediate_bits 0xfe000ee3 ImmediateB 40); by vm_compute. Defined.

(** The reference encoder: the instruction field that carries an immediate. *)
Definition encodeImmediate (kind : ImmediateKind) (imm : Z) : Z :=
  match kind with
  | ImmediateNone => 0
  | ImmediateI | ImmediateCSR => (imm .& 0xfff) << 20
  | ImmediateS => (((imm >> 5) .& 0x7f) << 25) .| ((imm .& 0x1f) << 7)
  | ImmediateB => (((imm >> 12) .& 1) << 31) .| (((imm >> 5) .& 0x3f) << 25)
                  .| (((imm >> 1) .& 0xf) << 8) .| (((imm >> 11) .& 1) << 7)
  | ImmediateU => imm .& 0xfffff000
  | ImmediateJ => (((imm >> 20) .& 1) << 31) .| (((imm >> 1) .& 0x3ff) << 21)
                  .| (((imm >> 11) .& 1) << 20) .| (((imm >> 12) .& 0xff) << 12)
  | ImmediateShift => (imm .& 0x1f) << 20
  end.

Definition imm_field (kind : ImmediateKind) : Z :=
  match kind with
  | ImmediateNone => 0
  | ImmediateI | ImmediateCSR => 0xfff00000
  | ImmediateS | ImmediateB => 0xfe000f80
  | ImmediateU | ImmediateJ => 0xfffff000
  | ImmediateShift => 0x01f00000
  end.

Definition imm_width (kind : ImmediateKind) : Z :=
  match kind with
  | ImmediateI | ImmediateS => 12 | ImmediateB => 13 | ImmediateJ => 21 | _ => 32
  end.

(** The immediates a format can carry. *)
Definition imm_legal (kind : ImmediateKind) (imm : Z) : Prop :=
  match kind with
  | ImmediateNone => imm = 0
  | ImmediateI | ImmediateS => - 2048 <= imm < 2048
  | ImmediateB => - 4096 <= imm < 4096 /\ imm mod 2 = 0
  | ImmediateU => - 2 ^ 31 <= imm < 2 ^ 31 /\ imm mod 4096 = 0
  | ImmediateJ => - 2 ^ 20 <= imm < 2 ^ 20 /\ imm mod 2 = 0
  | ImmediateShift => 0 <= imm < 32
  | ImmediateCSR => 0 <= imm < 4096
  end.

Lemma imm_legal_signed kind imm : imm_legal kind imm -> signed (imm_width kind) imm = imm.
Proof. intros H. apply signed_small; destruct kind; simpl in *; lia. Qed.

Lemma imm_source_saturates kind k : imm_width kind <= k -> imm_source kind k = imm_source kind (imm_width kind - 1).
Proof.
  intros Hk. destruct kind; unfold imm_source, imm_width in *; rewrite ?Z.min_r by lia;
    repeat case_match; try lia; done.
Qed.

Lemma mod_pow2_low_bits x n k : 0 <= k < n -> x mod 2 ^ n = 0 -> Z.testbit x k = false.
Proof. intros Hk H. by rewrite <- (Z.mod_pow2_bits_low x n), H, Z.testbit_0_l by lia. Qed.

(** Bits a format does not encode are zero in a legal immediate, and the others
    are where [imm_source] reads them. *)
Lemma encodeImmediate_bit kind imm k :
  imm_legal kind imm -> 0 <= k < imm_width kind ->
  Z.testbit imm k =
  match imm_source kind k with
  | Some j => Z.testbit (encodeImmediate kind imm) j && Z.testbit (imm_field kind) j
  | None => false
  end.
Proof.
  intros Hl Hk. destruct (imm_source kind k) as [j|] eqn:E.
  - destruct kind; simpl imm_width in Hk; try discriminate; enum_range Hk; vm_compute in E; try discriminate;
      injection E as <-; unfold encodeImmediate, imm_field; autorewrite with zbits_at; close_bits; reflexivity.
  - destruct kind; unfold imm_source, imm_legal in *; try subst imm; try discriminate; [apply Z.testbit_0_l|..];
      destruct_and?; repeat case_match; try discriminate; rewrite ?Z.eqb_eq, ?Z.ltb_lt, ?Z.ltb_ge in *; subst;
      (apply (mod_pow2_low_bits imm 1); [lia|done]) || (apply (mod_pow2_low_bits imm 12); [lia|done])
      || (apply (testbit_above 5); lia) || (apply (testbit_above 12); lia).
Qed.

Lemma imm_source_in_field kind k j :
  0 <= k < imm_width kind -> imm_source kind k = Some j -> Z.testbit (imm_field kind) j = true.
Proof.
  intros Hk E. destruct kind; simpl imm_width in Hk; try discriminate; enum_range Hk; vm_compute in E;
    try discriminate; injection E as <-; reflexivity.
Qed.

(** C39: immediates round-trip: whatever the other fields of the word hold, placing
    a legal immediate with the reference encoder and decoding it gives the
    immediate back. *)
Theorem decode_encode_immediate kind imm rest :
  imm_legal kind imm -> is_u32 rest ->
  decodeImmediate (rest .&^ imm_field kind .| (encodeImmediate kind imm .& imm_field kind)) kind = imm.
Proof.
  intros Hl Hr. apply Z.bits_inj'. intros k Hk.
  assert (is_u32 (imm_field kind)) as Hf by (destruct kind; by vm_compute).
  rewrite immediate_bit_source by auto with words.
  assert (forall k, 0 <= k < imm_width kind ->
    from_option (Z.testbit (rest .&^ imm_field kind .| (encodeImmediate kind imm .& imm_field kind))) false (imm_source kind k)
    = Z.testbit imm k) as Hlow.
  { intros n Hn. rewrite (encodeImmediate_bit kind imm n Hl Hn).
    destruct (imm_source kind n) as [j|] eqn:E; simpl; [|done].
    rewrite Z.lor_spec, Z.ldiff_spec, Z.land_spec, (imm_source_in_field kind n j Hn E).
    by rewrite andb_false_r, andb_true_r. }
  destruct (Z.le_gt_cases (imm_width kind) k).
  - rewrite imm_source_saturates, Hlow by (destruct kind; simpl in *; lia).
    rewrite <- (imm_legal_signed kind imm Hl) at 2. rewrite signed_testbit by (destruct kind; simpl; lia).
    by rewrite Z.min_r by lia.
  - apply Hlow. lia.
Qed.

Example decode_encode_immediate_witness :
  imm_legal ImmediateJ (-2048) /\ is_u32 0x12345678 /\
  decodeImmediate (0x12345678 .&^ imm_field ImmediateJ .| (encodeImmediate ImmediateJ (-2048) .& imm_field ImmediateJ)) ImmediateJ = -2048.
Proof.
  split_and!; [by vm_compute..|].
  apply (decode_encode_immediate ImmediateJ (-2048) 0x12345678); by vm_compute.
Defined.

(** ** What every decoded operation satisfies *)

Record decoded_from (word : Z) (e : Entry) (d : Decoded) : Prop := {
  df_catalog : e ∈ catalog;
  df_accepts : entry_accepts e word = true;
  df_word : d_Word d = word;
  df_name : d_Name d = e_Name e;
  df_category : d_Category d = e_Category e;
  df_sources : d_Sources d = operand_registers word true (e_Operands e);
  df_destinations : d_Destinations d = operand_registers word false (e_Operands e);
  df_immediate : d_Immediate d = decodeImmediate word (e_Immediate e);
  df_format : d_Format d = e_Format e;
  df_effects : d_Effects d = e_Effects e;
  df_memory : d_Memory d = e_Memory e;
  df_csr : d_CSR d = e_CSR e;
  df_csr_address : d_CSRAddress d = if bool_decide (e_CSR e = CSRNone) then 0 else u16 (word >> 20);
  df_csr_immediate : 0 <= d_CSRImmediateValue d < 32;
  df_control : d_Control d = e_Control e;
  df_barrier : d_Barrier d = e_Barrier e;
  df_gather : 0 <= d_GatherSourceLane d < 4;
  df_rounding : e_Rounding e = false -> d_Rounding d = RoundingNone
}.

Lemma decode_from word d : Decode word = Ok d -> exists e, decoded_from word e d.
Proof.
  intros (e & He & Ha & Hd)%decode_inv. exists e. unfold decodeEntry in Hd.
  apply result_bind_ok in Hd as (rounding & Hr & <-%Ok_inj).
  split; [exact He|exact Ha|reflexivity..| | |reflexivity|reflexivity| |]; cbn [d_CSRAddress d_CSRImmediateValue d_GatherSourceLane d_Rounding].
  - by case_bool_decide.
  - destruct (_ && _); [by apply (land_bounded 5)|lia].
  - destruct (e_Modifier e); try lia. by apply (land_bounded 2).
  - intros E. rewrite E in Hr. by simplify_eq.
Qed.

(** Transfer a closed check of the catalog rows to decoded operations. *)
Lemma decoded_row (f : Entry -> bool) word e d :
  forallb f catalog = true -> decoded_from word e d -> f e = true.
Proof. intros Hf Hd. eapply forallb_elem; [exact Hf|]. by apply df_catalog in Hd. Qed.

Definition reg_ok (r : Register) : Prop :=
  (reg_File r = Integer \/ reg_File r = Float) /\ 0 <= reg_Index r < 32.

Definition operands_wf (e : Entry) : bool :=
  forallb (fun o => bool_decide (os_File o = Integer) || bool_decide (os_File o = Float)) (e_Operands e)
  && bool_decide (length (operand_registers 0 true (e_Operands e)) <= 3)%nat
  && bool_decide (length (operand_registers 0 false (e_Operands e)) <= 1)%nat.

Lemma catalog_operands_wf : forallb operands_wf catalog = true.
Proof. vm_compute. reflexivity. Qed.

Lemma registerIndex_range word f : 0 <= registerIndex word f < 32.
Proof. destruct f; by apply (land_bounded 5). Qed.

Lemma operand_registers_ok word b ops :
  forallb (fun o => bool_decide (os_File o = Integer) || bool_decide (os_File o = Float)) ops = true ->
  Forall reg_ok (operand_registers word b ops).
Proof.
  intros H. apply Forall_forall. intros r Hr. apply list_elem_of_In, in_map_iff in Hr as (o & <- & Ho).
  apply filter_In in Ho as [Ho _]. rewrite forallb_forall in H. specialize (H o Ho).
  apply orb_true_iff in H. rewrite !bool_decide_eq_true in H.
  split; [exact H|]. apply registerIndex_range.
Qed.

Lemma operand_registers_length word word' b ops :
  length (operand_registers word b ops) = length (operand_registers word' b ops).
Proof. unfold operand_registers. by rewrite !length_map. Qed.

(** The register operands of a decoded word. *)
Lemma decode_registers word d :
  Decode word = Ok d ->
  (length (d_Sources d) <= 3)%nat /\ (length (d_Destinations d) <= 1)%nat /\
  Forall reg_ok (d_Sources d) /\ Forall reg_ok (d_Destinations d).
Proof.
  intros [e He]%decode_from. pose proof (decoded_row _ _ _ _ catalog_operands_wf He) as H.
  unfold operands_wf in H. apply andb_true_iff in H as [[H Hs%bool_decide_eq_true]%andb_true_iff Hd%bool_decide_eq_true].
  rewrite (df_sources _ _ _ He), (df_destinations _ _ _ He).
  rewrite (operand_registers_length word 0 true), (operand_registers_length word 0 false).
  split_and!; try done; by apply operand_registers_ok.
Qed.

(** A decoded operation names at most three source and one destination
    register, every register index is below 32 in the integer or floating file,
    the immediate is an int32, the CSR address has twelve bits, and the gather
    lane is one of the four lanes. *)
Theorem decode_wf word d :
  is_u32 word -> Decode word = Ok d ->
  (length (d_Sources d) <= 3)%nat /\ (length (d_Destinations d) <= 1)%nat /\
  Forall reg_ok (d_Sources d) /\ Forall reg_ok (d_Destinations d) /\
  - 2 ^ 31 <= d_Immediate d < 2 ^ 31 /\ 0 <= d_CSRAddress d < 4096 /\
  0 <= d_CSRImmediateValue d < 32 /\ 0 <= d_GatherSourceLane d < 4.
Proof.
  intros Hw [e He]%decode_from. pose proof (decoded_row _ _ _ _ catalog_operands_wf He) as H.
  unfold operands_wf in H. apply andb_true_iff in H as [[H Hs%bool_decide_eq_true]%andb_true_iff Hd%bool_decide_eq_true].
  rewrite (df_sources _ _ _ He), (df_destinations _ _ _ He), (df_csr_address _ _ _ He), (df_immediate _ _ _ He).
  rewrite (operand_registers_length word 0 true), (operand_registers_length word 0 false).
  split_and!; try done; try (by apply operand_registers_ok); try apply He.
  - unfold decodeImmediate; destruct (e_Immediate e); try lia; try apply i32_range;
      rewrite signExtend_spec by lia.
    all: match goal with |- _ <= signed ?n ?x => pose proof (signed_range n x ltac:(lia)); lia end.
  - unfold decodeImmediate; destruct (e_Immediate e); try lia; try apply i32_range;
      rewrite signExtend_spec by lia.
    all: match goal with |- signed ?n ?x < _ => pose proof (signed_range n x ltac:(lia)); lia end.
  - case_bool_decide; [lia|]. apply u16_range.
  - case_bool_decide; [lia|]. unfold u16. rewrite Z.shiftr_div_pow2 by lia.
    unfold is_u32 in Hw. assert (word / 2 ^ 20 < 4096) by (apply Z.div_lt_upper_bound; lia).
    assert (0 <= word / 2 ^ 20) by (apply Z.div_pos; lia). rewrite Z.mod_small; lia.
Qed.

Example decode_wf_witness :
  is_u32 0x00208033 /\ exists d, Decode 0x00208033 = Ok d /\ (length (d_Sources d) <= 3)%nat.
Proof.
  split; [by vm_compute|]. eexists. split; [vm_compute; reflexivity|].
  eapply (decode_wf 0x00208033); by vm_compute.
Defined.
