(* ===== verification/Integer.v ===== *)
(** * Integer, control-transfer and memory instructions (src/isa/integer.go)

    The stateless evaluator of RV32I/M/Zicond, fence, loads and stores, and the
    completion of memory responses.  The theorems compare the machine-width ALU
    with the mathematical RV32 semantics, show that memory evaluation is
    all-or-faults with well-shaped requests, and that completion does not depend
    on the order in which the memory owner answers. *)

From S2P Require Import Prelude IsaTypes Catalog Decode.

#[local] Open Scope Z_scope.
#[local] Open Scope go_scope.

Definition integerMilestoneInstruction (d : Decoded) : bool :=
  (d_Category d == CategoryRV32I) || (d_Category d == CategoryRV32M) ||
  (d_Category d == CategoryZicond) || (d_Category d == CategoryFence).

Definition evalError {A} (d : Decoded) (problem : string) : result A :=
  Err (EvaluationError (d_Name d) problem).

Definition sequentialControl (pc : Z) : option ControlEffect :=
  Some (mkControlEffect PCSequential pc (u32 (pc + 4)) 0 false 0).

Definition appendRegisterWrite (effects : InstructionEffects) (d : Decoded) (mask : LaneMask)
    (values : LaneValues) : InstructionEffects :=
  if mask =? 0 then effects else
  match d_Destinations d with
  | [] => effects
  | destination :: _ =>
      if (reg_File destination ==. Integer) && (reg_Index destination =? 0) then effects
      else with_RegisterWrites
             (RegisterWrites effects ++ [mkRegisterWriteEffect 0 destination mask values]) effects
  end.

Definition extendLoad (value width : Z) (signed : bool) : Z :=
  if width =? 1 then (if signed then u32 (i8 value) else value .& 0xff)
  else if width =? 2 then (if signed then u32 (i16 value) else value .& 0xffff)
  else value.

Definition boolWord (value : bool) : Z := if value then 1 else 0.

Definition highSignedSigned (a b : Z) : Z :=
  let product := i64 (i32 a * i32 b) in u32 (u64 product >> 32).
Definition highSignedUnsigned (a b : Z) : Z :=
  let product := i64 (i32 a * b) in u32 (u64 product >> 32).

Definition divideSigned (a b : Z) : Z :=
  if b =? 0 then 0xffffffff
  else if (a =? 0x80000000) && (b =? 0xffffffff) then a
  else u32 (i32 (Z.quot (i32 a) (i32 b))).
Definition divideUnsigned (a b : Z) : Z := if b =? 0 then 0xffffffff else a / b.
Definition remainderSigned (a b : Z) : Z :=
  if b =? 0 then a
  else if (a =? 0x80000000) && (b =? 0xffffffff) then 0
  else u32 (i32 (Z.rem (i32 a) (i32 b))).
Definition remainderUnsigned (a b : Z) : Z := if b =? 0 then a else a mod b.

(** The loop counts down from lane 3; [None] is [(0, false)]. *)
Definition highestActiveLane (mask : LaneMask) : option Z :=
  if LaneMask_Active mask 3 then Some 3
  else if LaneMask_Active mask 2 then Some 2
  else if LaneMask_Active mask 1 then Some 1
  else if LaneMask_Active mask 0 then Some 0
  else None.

Definition filledValues (value : Z) : LaneValues := qfill value.

(** One iteration of the lane loop of [evaluateALULanes]; [None] is the
    [default] case.  [imm] is [uint32(decoded.Immediate)]. *)
Definition evaluateALULane (name : string) (pc a b imm : Z) : option Z :=
  if name == "lui" then Some imm
  else if name == "auipc" then Some (u32 (pc + imm))
  else if name == "addi" then Some (u32 (a + imm))
  else if name == "slti" then Some (boolWord (i32 a <? i32 imm))
  else if name == "sltiu" then Some (boolWord (a <? imm))
  else if name == "xori" then Some (a .^ imm)
  else if name == "ori" then Some (a .| imm)
  else if name == "andi" then Some (a .& imm)
  else if name == "slli" then Some (u32 (a << (imm .& 31)))
  else if name == "srli" then Some (a >> (imm .& 31))
  else if name == "srai" then Some (u32 (i32 a >> (imm .& 31)))
  else if name == "add" then Some (u32 (a + b))
  else if name == "sub" then Some (u32 (a - b))
  else if name == "sll" then Some (u32 (a << (b .& 31)))
  else if name == "slt" then Some (boolWord (i32 a <? i32 b))
  else if name == "sltu" then Some (boolWord (a <? b))
  else if name == "xor" then Some (a .^ b)
  else if name == "srl" then Some (a >> (b .& 31))
  else if name == "sra" then Some (u32 (i32 a >> (b .& 31)))
  else if name == "or" then Some (a .| b)
  else if name == "and" then Some (a .& b)
  else if name == "mul" then Some (u32 (u64 (a * b)))
  else if name == "mulh" then Some (highSignedSigned a b)
  else if name == "mulhsu" then Some (highSignedUnsigned a b)
  else if name == "mulhu" then Some (u32 (u64 (a * b) >> 32))
  else if name == "div" then Some (divideSigned a b)
  else if name == "divu" then Some (divideUnsigned a b)
  else if name == "rem" then Some (remainderSigned a b)
  else if name == "remu" then Some (remainderUnsigned a b)
  else if name == "czero.eqz" then Some (if b <>? 0 then a else 0)
  else if name == "czero.nez" then Some (if b =? 0 then a else 0)
  else None.

Definition evaluateALULanes (d : Decoded) (input : IntegerInput) : LaneValues * bool :=
  let lane_value lane :=
    evaluateALULane (d_Name d) (ii_PC input) (qget (ii_RS1 input) lane) (qget (ii_RS2 input) lane)
      (u32 (d_Immediate d)) in
  (qmake (fun lane => if LaneMask_Active (ii_ActiveMask input) lane then default 0 (lane_value lane) else 0),
   fold4 (fun known lane =>
     if LaneMask_Active (ii_ActiveMask input) lane
     then match lane_value lane with Some _ => known | None => false end else known) true).

Definition branchTaken (name : string) (a b : Z) : option bool :=
  if name == "beq" then Some (a =? b)
  else if name == "bne" then Some (a <>? b)
  else if name == "blt" then Some (i32 a <? i32 b)
  else if name == "bge" then Some (i32 a >=? i32 b)
  else if name == "bltu" then Some (a <? b)
  else if name == "bgeu" then Some (a >=? b)
  else None.

Definition evaluateControl (d : Decoded) (input : IntegerInput) : result InstructionEffects :=
  match highestActiveLane (ii_ActiveMask input) with
  | None => evalError d "control instruction requires an active lane"
  | Some decisionLane =>
      let sequential := u32 (ii_PC input + 4) in
      let misaligned target :=
        with_Faults [mkFaultEffect FaultInstructionAddressMisaligned FaultReasonAlignment decisionLane target 4]
          no_effects in
      if d_Control d ==. ControlJump then
        let target :=
          if d_Name d == "jal" then u32 (ii_PC input + u32 (d_Immediate d))
          else u32 (qget (ii_RS1 input) decisionLane + u32 (d_Immediate d)) .&^ 1 in
        if target .& 3 <>? 0 then Ok (misaligned target)
        else
          let effects := appendRegisterWrite no_effects d (ii_ActiveMask input) (filledValues sequential) in
          Ok (with_Control (Some (mkControlEffect PCJump (ii_PC input) target target true decisionLane)) effects)
      else
        let target := u32 (ii_PC input + u32 (d_Immediate d)) in
        match branchTaken (d_Name d) (qget (ii_RS1 input) decisionLane) (qget (ii_RS2 input) decisionLane) with
        | None => evalError d "unknown branch operation"
        | Some taken =>
            if taken && (target .& 3 <>? 0) then Ok (misaligned target)
            else
              let nextPC := if taken then target else sequential in
              Ok (with_Control (Some (mkControlEffect PCBranch (ii_PC input) nextPC target taken decisionLane)) no_effects)
        end
  end.

(** One iteration of the lane loop of [evaluateMemory]. *)
Definition evaluateMemoryLane (d : Decoded) (input : IntegerInput)
    (acc : list MemoryRequest * list FaultEffect) (lane : Z) : list MemoryRequest * list FaultEffect :=
  let '(requests, faults) := acc in
  let bytes := ms_Bytes (d_Memory d) in
  let is_store := ms_Kind (d_Memory d) ==. MemoryStore in
  if negb (LaneMask_Active (ii_ActiveMask input) lane) then acc else
  let address := u32 (qget (ii_RS1 input) lane + u32 (d_Immediate d)) in
  if address mod bytes <>? 0 then
    let kind := if is_store then FaultStoreAddressMisaligned else FaultLoadAddressMisaligned in
    (requests, faults ++ [mkFaultEffect kind FaultReasonAlignment lane address bytes])
  else if match ii_Bounds input with Some b => negb (AddressBounds_contains b address bytes) | None => false end then
    let kind := if is_store then FaultStoreAccess else FaultLoadAccess in
    (requests, faults ++ [mkFaultEffect kind FaultReasonBounds lane address bytes])
  else
    let laneOffset := u8 (address .& 3) in
    let byteMask := u8 (u8 (u16 (u16 (1 << bytes) - 1)) << laneOffset) in
    let storeData := if is_store then u32 (qget (ii_RS2 input) lane << (8 * laneOffset)) else 0 in
    (requests ++ [mkMemoryRequest lane (ms_Kind (d_Memory d)) address (address .&^ 3) bytes
                    (ms_Signed (d_Memory d)) byteMask storeData], faults).

Definition evaluateMemory (d : Decoded) (input : IntegerInput) : result InstructionEffects :=
  let bytes := ms_Bytes (d_Memory d) in
  if (bytes <>? 1) && (bytes <>? 2) && (bytes <>? 4) then evalError d "unsupported integer memory width"
  else
    let '(requests, faults) := fold4 (evaluateMemoryLane d input) ([], []) in
    match faults with
    | [] => Ok (with_MemoryRequests requests no_effects)
    | _ => Ok (with_Faults faults no_effects)
    end.

Definition EvaluateInteger (d : Decoded) (input : IntegerInput) : result InstructionEffects :=
  check LaneMask_Valid (ii_ActiveMask input)
    else EvaluationError (d_Name d) "active mask exceeds four frozen lanes" in
  check match ii_Bounds input with Some b => AddressBounds_valid b | None => true end
    else EvaluationError (d_Name d) "invalid memory bounds view" in
  check integerMilestoneInstruction d
    else EvaluationError (d_Name d) "instruction is outside the integer/memory milestone" in
  if ms_Kind (d_Memory d) ==. MemoryFence then
    Ok (with_Control (sequentialControl (ii_PC input))
         (with_Ordering (Some (mkOrderingEffect ((d_Word d >> 24) .& 0xf) ((d_Word d >> 20) .& 0xf))) no_effects))
  else if (ms_Kind (d_Memory d) ==. MemoryLoad) || (ms_Kind (d_Memory d) ==. MemoryStore) then
    evaluateMemory d input
  else if (d_Control d ==. ControlBranch) || (d_Control d ==. ControlJump) then
    evaluateControl d input
  else
    let '(values, ok) := evaluateALULanes d input in
    if negb ok then evalError d "missing integer functional semantics"
    else
      Ok (appendRegisterWrite (with_Control (sequentialControl (ii_PC input)) no_effects) d
            (ii_ActiveMask input) values).

(** The loop state of [CompleteMemory]. *)
Record completion := mkCompletion {
  co_values : LaneValues;
  co_mask : LaneMask;
  co_seen : LaneMask;
  co_faults : list FaultEffect
}.

Definition completeResponse (d : Decoded) (st : completion) (response : MemoryResponse) : result completion :=
  let request := mp_Request response in
  let kind := ms_Kind (d_Memory d) in
  check negb ((mr_Lane request >=? FrozenLaneCount) || LaneMask_Active (co_seen st) (mr_Lane request))
    else EvaluationError (d_Name d) "duplicate or invalid memory response lane" in
  let seen := co_seen st .| (1 << mr_Lane request) in
  check (mr_Kind request ==. kind) && (mr_Width request =? ms_Bytes (d_Memory d))
        && Bool.eqb (mr_Signed request) (ms_Signed (d_Memory d))
    else EvaluationError (d_Name d) "memory response does not match decoded operation" in
  if mp_Fault response !=. FaultNone then
    check negb (((kind ==. MemoryLoad) && (mp_Fault response !=. FaultLoadAccess)) ||
                ((kind ==. MemoryStore) && (mp_Fault response !=. FaultStoreAccess)))
      else EvaluationError (d_Name d) "memory response has incompatible fault kind" in
    let reason := if mp_Reason response ==. FaultReasonNone then FaultReasonMemoryService else mp_Reason response in
    Ok (mkCompletion (co_values st) (co_mask st) seen
          (co_faults st ++ [mkFaultEffect (mp_Fault response) reason (mr_Lane request) (mr_Address request) (mr_Width request)]))
  else if kind ==. MemoryLoad then
    Ok (mkCompletion
          (qset (co_values st) (mr_Lane request) (extendLoad (mp_Data response) (mr_Width request) (mr_Signed request)))
          (co_mask st .| (1 << mr_Lane request)) seen (co_faults st))
  else Ok (mkCompletion (co_values st) (co_mask st) seen (co_faults st)).

Definition CompleteMemory (d : Decoded) (pc : Z) (expected : LaneMask) (responses : list MemoryResponse) : result InstructionEffects :=
  let kind := ms_Kind (d_Memory d) in
  check (kind ==. MemoryLoad) || (kind ==. MemoryStore)
    else EvaluationError (d_Name d) "instruction has no completable memory effect" in
  check LaneMask_Valid expected
    else EvaluationError (d_Name d) "expected memory lane mask exceeds four frozen lanes" in
  let? st := foldM (completeResponse d) (mkCompletion (qfill 0) 0 0 []) responses in
  check co_seen st =? expected
    else EvaluationError (d_Name d) "memory responses do not cover the expected lane mask" in
  match co_faults st with
  | [] =>
      let effects :=
        if kind ==. MemoryLoad then appendRegisterWrite no_effects d (co_mask st) (co_values st) else no_effects in
      Ok (with_Control (sequentialControl pc) effects)
  | faults => Ok (with_Faults faults no_effects)
  end.

(** ** The ALU against the mathematical RV32 semantics

    [rv32_alu] reads registers as unsigned words [a], [b] or as two's-complement
    integers [i32 a], [i32 b], and the immediate as a signed integer; results are
    integers reduced modulo 2^32.  Division truncates toward zero. *)
Definition rv32_alu (name : string) (pc a b imm : Z) : option Z :=
  let wrap x := Some (x mod 2 ^ 32) in
  let truth (c : bool) := Some (if c then 1 else 0) in
  if name == "lui" then wrap imm
  else if name == "auipc" then wrap (pc + imm)
  else if name == "addi" then wrap (a + imm)
  else if name == "slti" then truth (i32 a <? imm)
  else if name == "sltiu" then truth (a <? imm mod 2 ^ 32)
  else if name == "xori" then wrap (Z.lxor a imm)
  else if name == "ori" then wrap (Z.lor a imm)
  else if name == "andi" then wrap (Z.land a imm)
  else if name == "slli" then wrap (a * 2 ^ (imm mod 32))
  else if name == "srli" then wrap (a / 2 ^ (imm mod 32))
  else if name == "srai" then wrap (i32 a / 2 ^ (imm mod 32))
  else if name == "add" then wrap (a + b)
  else if name == "sub" then wrap (a - b)
  else if name == "sll" then wrap (a * 2 ^ (b mod 32))
  else if name == "slt" then truth (i32 a <? i32 b)
  else if name == "sltu" then truth (a <? b)
  else if name == "xor" then wrap (Z.lxor a b)
  else if name == "srl" then wrap (a / 2 ^ (b mod 32))
  else if name == "sra" then wrap (i32 a / 2 ^ (b mod 32))
  else if name == "or" then wrap (Z.lor a b)
  else if name == "and" then wrap (Z.land a b)
  else if name == "mul" then wrap (i32 a * i32 b)
  else if name == "mulh" then wrap (i32 a * i32 b / 2 ^ 32)
  else if name == "mulhsu" then wrap (i32 a * b / 2 ^ 32)
  else if name == "mulhu" then wrap (a * b / 2 ^ 32)
  else if name == "div" then wrap (if b =? 0 then -1 else Z.quot (i32 a) (i32 b))
  else if name == "divu" then wrap (if b =? 0 then -1 else a / b)
  else if name == "rem" then wrap (if b =? 0 then a else Z.rem (i32 a) (i32 b))
  else if name == "remu" then wrap (if b =? 0 then a else a mod b)
  else if name == "czero.eqz" then wrap (if b =? 0 then 0 else a)
  else if name == "czero.nez" then wrap (if b =? 0 then a else 0)
  else None.

Lemma land_31 x : x .& 31 = x mod 32.
Proof. change 31 with (Z.ones 5). by rewrite Z.land_ones. Qed.

Lemma u32_mod32 x : u32 x mod 32 = x mod 32.
Proof. apply Z.mod_mod_divide. by exists (2 ^ 27). Qed.

Lemma shiftl_mod x k : u32 (x << (k .& 31)) = x * 2 ^ (k mod 32) mod 2 ^ 32.
Proof. rewrite land_31, Z.shiftl_mul_pow2; [done|]. pose proof (Z.mod_pos_bound k 32); lia. Qed.

Lemma shiftr_floor x k : x >> (k .& 31) = x / 2 ^ (k mod 32).
Proof. rewrite land_31, Z.shiftr_div_pow2; [done|]. pose proof (Z.mod_pos_bound k 32); lia. Qed.

(** The int64 detour of the high multiplications keeps the upper word. *)
Lemma high_word p : u32 (p mod 2 ^ 64 >> 32) = (p / 2 ^ 32) mod 2 ^ 32.
Proof.
  rewrite <- Z.shiftr_div_pow2 by lia. unfold u32. bitwise.
  destruct (Z.ltb_spec i 32); [|done]. by destruct (Z.ltb_spec (i + 32) 64); [|lia].
Qed.

Lemma i32_mul_mod a b : (i32 a * i32 b) mod 2 ^ 32 = (a * b) mod 2 ^ 32.
Proof.
  rewrite Z.mul_mod by lia. unfold i32. rewrite !signed_mod by lia. by rewrite <- Z.mul_mod by lia.
Qed.

Lemma lxor_mod a b n : 0 <= n -> 0 <= a < 2 ^ n -> Z.lxor a (b mod 2 ^ n) = Z.lxor a b mod 2 ^ n.
Proof.
  intros Hn Ha. bitwise. destruct (Z.ltb_spec i n); [done|].
  by rewrite (testbit_above n a) by lia.
Qed.

Lemma lor_mod a b n : 0 <= n -> 0 <= a < 2 ^ n -> Z.lor a (b mod 2 ^ n) = Z.lor a b mod 2 ^ n.
Proof.
  intros Hn Ha. bitwise. destruct (Z.ltb_spec i n); [done|].
  by rewrite (testbit_above n a) by lia.
Qed.

Lemma land_mod a b n : 0 <= n -> 0 <= a < 2 ^ n -> Z.land a (b mod 2 ^ n) = Z.land a b mod 2 ^ n.
Proof.
  intros Hn Ha. bitwise. destruct (Z.ltb_spec i n); [done|].
  by rewrite (testbit_above n a) by lia.
Qed.

Lemma divideSigned_spec a b :
  is_u32 a -> divideSigned a b = (if b =? 0 then -1 else Z.quot (i32 a) (i32 b)) mod 2 ^ 32.
Proof.
  intros Ha. unfold divideSigned. destruct (Z.eqb_spec b 0); [done|].
  destruct ((a =? 0x80000000) && (b =? 0xffffffff)) eqn:E; [|apply u32_i32].
  apply andb_true_iff in E as [->%Z.eqb_eq ->%Z.eqb_eq]. reflexivity.
Qed.

Lemma remainderSigned_spec a b :
  is_u32 a -> remainderSigned a b = (if b =? 0 then a else Z.rem (i32 a) (i32 b)) mod 2 ^ 32.
Proof.
  intros Ha. unfold remainderSigned. destruct (Z.eqb_spec b 0); [by rewrite Z.mod_small|].
  destruct ((a =? 0x80000000) && (b =? 0xffffffff)) eqn:E; [|apply u32_i32].
  apply andb_true_iff in E as [->%Z.eqb_eq ->%Z.eqb_eq]. reflexivity.
Qed.

Lemma divideUnsigned_spec a b :
  is_u32 a -> is_u32 b -> divideUnsigned a b = (if b =? 0 then -1 else a / b) mod 2 ^ 32.
Proof.
  intros Ha Hb. unfold divideUnsigned, is_u32 in *. destruct (Z.eqb_spec b 0); [done|].
  rewrite Z.mod_small; [done|]. split; [apply Z.div_pos; lia|].
  apply Z.le_lt_trans with a; [|lia]. apply Z.div_le_upper_bound; nia.
Qed.

Lemma remainderUnsigned_spec a b :
  is_u32 a -> is_u32 b -> remainderUnsigned a b = (if b =? 0 then a else a mod b) mod 2 ^ 32.
Proof.
  intros Ha Hb. unfold remainderUnsigned, is_u32 in *. destruct (Z.eqb_spec b 0); [by rewrite Z.mod_small|].
  rewrite (Z.mod_small (a mod b)); [done|]. pose proof (Z.mod_pos_bound a b). lia.
Qed.

Lemma high_signed p : u32 (u64 (i64 p) >> 32) = (p / 2 ^ 32) mod 2 ^ 32.
Proof. unfold u64, i64. rewrite signed_mod by lia. apply high_word. Qed.

Lemma mul_low a b : u32 (u64 (a * b)) = (i32 a * i32 b) mod 2 ^ 32.
Proof. rewrite i32_mul_mod. apply Z.mod_mod_divide. by exists (2 ^ 32). Qed.

(** The operations on bit patterns and shifts, and those on integers, one
    rewrite each. *)
Ltac alu_case :=
  f_equal; unfold u32, u64, boolWord;
  first
    [ reflexivity
    | rewrite Zplus_mod_idemp_r; reflexivity
    | rewrite lxor_mod by assumption || lia; reflexivity
    | rewrite lor_mod by assumption || lia; reflexivity
    | rewrite land_mod by assumption || lia; reflexivity
    | symmetry; apply u32_id; solve [auto with words]
    | match goal with |- context [Z.eqb ?x ?y] => destruct (Z.eqb x y) end; cbn [negb];
      symmetry; apply u32_id; solve [auto with words] ].

(** Operation by operation. *)
Lemma evaluateALULane_rv32 name pc a b imm :
  is_u32 pc -> is_u32 a -> is_u32 b -> - 2 ^ 31 <= imm < 2 ^ 31 ->
  evaluateALULane name pc a b (u32 imm) = rv32_alu name pc a b imm.
Proof.
  intros Hpc Ha Hb Himm.
  assert (i32 (u32 imm) = imm) as Es by (rewrite i32_u32; apply signed_small; lia).
  assert (forall k, a >> (k .& 31) = a / 2 ^ (k mod 32) mod 2 ^ 32) as Esr.
  { intros k. rewrite <- shiftr_floor, Z.mod_small; [done|]. apply is_u32_shiftr; [|done]. apply Z.land_nonneg; lia. }
  assert (forall k, u32 (i32 a >> (k .& 31)) = i32 a / 2 ^ (k mod 32) mod 2 ^ 32) as Esra
    by (intros k; by rewrite shiftr_floor).
  unfold evaluateALULane, rv32_alu; cbv zeta.
  rewrite Es, !shiftl_mod, !Esr, !Esra, !u32_mod32, divideSigned_spec, divideUnsigned_spec, remainderSigned_spec, remainderUnsigned_spec
    by assumption.
  unfold highSignedSigned, highSignedUnsigned. rewrite !high_signed, mul_low.
  unfold u64 at 1. rewrite high_word.
  repeat match goal with |- context [String.eqb name ?s] => destruct (String.eqb name s); [alu_case|] end.
  reflexivity.
Qed.

(** C36: on word operands and an int32 immediate, the width-limited ALU computes
    the RV32I/M/Zicond result of every instruction name, and knows exactly the
    same names as the reference. *)
Theorem alu_refines_rv32 name pc a b imm :
  is_u32 pc -> is_u32 a -> is_u32 b -> - 2 ^ 31 <= imm < 2 ^ 31 ->
  evaluateALULane name pc a b (u32 imm) = rv32_alu name pc a b imm.
Proof. apply evaluateALULane_rv32. Qed.

Example alu_refines_rv32_witness :
  is_u32 0x80000000 /\ evaluateALULane "div" 0 0x80000000 0xffffffff (u32 0) = Some 0x80000000.
Proof.
  split; [by vm_compute|].
  rewrite (alu_refines_rv32 "div" 0 0x80000000 0xffffffff 0); by vm_compute.
Defined.

(** ** Loads and stores: requests *)

Definition lanes : list Z := [0; 1; 2; 3].
Definition active_lanes (mask : LaneMask) : list Z := List.filter (LaneMask_Active mask) lanes.

(** The reference request and fault of one lane, with the byte position
    arithmetic written with division and powers. *)
Definition lane_address (d : Decoded) (input : IntegerInput) (lane : Z) : Z :=
  (qget (ii_RS1 input) lane + d_Immediate d) mod 2 ^ 32.

Definition in_bounds (bounds : option AddressBounds) (address width : Z) : bool :=
  match bounds with Some b => AddressBounds_contains b address width | None => true end.

Definition lane_faulty (d : Decoded) (input : IntegerInput) (lane : Z) : bool :=
  let address := lane_address d input lane in let bytes := ms_Bytes (d_Memory d) in
  negb ((address mod bytes =? 0) && in_bounds (ii_Bounds input) address bytes).

Definition lane_request (d : Decoded) (input : IntegerInput) (lane : Z) : MemoryRequest :=
  let address := lane_address d input lane in let bytes := ms_Bytes (d_Memory d) in
  {| mr_Lane := lane; mr_Kind := ms_Kind (d_Memory d); mr_Address := address;
     mr_AlignedAddress := address / 4 * 4; mr_Width := bytes; mr_Signed := ms_Signed (d_Memory d);
     mr_ByteMask := (2 ^ bytes - 1) * 2 ^ (address mod 4);
     mr_StoreData := if ms_Kind (d_Memory d) ==. MemoryStore
                     then (qget (ii_RS2 input) lane * 2 ^ (8 * (address mod 4))) mod 2 ^ 32 else 0 |}.

Definition lane_fault (d : Decoded) (input : IntegerInput) (lane : Z) : FaultEffect :=
  let address := lane_address d input lane in let bytes := ms_Bytes (d_Memory d) in
  let store := ms_Kind (d_Memory d) ==. MemoryStore in
  if address mod bytes =? 0
  then mkFaultEffect (if store then FaultStoreAccess else FaultLoadAccess) FaultReasonBounds lane address bytes
  else mkFaultEffect (if store then FaultStoreAddressMisaligned else FaultLoadAddressMisaligned) FaultReasonAlignment lane address bytes.

Definition mem_width (bytes : Z) : Prop := bytes = 1 \/ bytes = 2 \/ bytes = 4.

Lemma lane_address_code d input lane :
  u32 (qget (ii_RS1 input) lane + u32 (d_Immediate d)) = lane_address d input lane.
Proof. unfold u32, lane_address. by rewrite Zplus_mod_idemp_r. Qed.

Lemma ldiff_3 x : x .&^ 3 = x / 4 * 4.
Proof.
  change 3 with (Z.ones 2). rewrite Z.ldiff_ones_r, Z.shiftl_mul_pow2, Z.shiftr_div_pow2 by lia. done.
Qed.
Lemma land_3 x : x .& 3 = x mod 4.
Proof. change 3 with (Z.ones 2). by rewrite Z.land_ones. Qed.

(** An aligned access does not leave its word. *)
Lemma aligned_offset address bytes :
  mem_width bytes -> address mod bytes = 0 -> 0 <= address mod 4 /\ address mod 4 + bytes <= 4.
Proof. intros [-> | [-> | ->]] H; Z.div_mod_to_equations; lia. Qed.

Lemma byteMask_code bytes off :
  mem_width bytes -> 0 <= off -> off + bytes <= 4 ->
  u8 (u8 (u16 (u16 (1 << bytes) - 1)) << u8 off) = (2 ^ bytes - 1) * 2 ^ off.
Proof.
  intros Hb Ho Hs. assert (0 <= off < 4) as Hr by (destruct Hb as [-> | [-> | ->]]; lia).
  destruct Hb as [-> | [-> | ->]]; enum_range Hr; first [reflexivity | lia].
Qed.

Lemma evaluateMemoryLane_step d input requests faults lane :
  mem_width (ms_Bytes (d_Memory d)) ->
  evaluateMemoryLane d input (requests, faults) lane =
  if negb (LaneMask_Active (ii_ActiveMask input) lane) then (requests, faults)
  else if lane_faulty d input lane then (requests, faults ++ [lane_fault d input lane])
  else (requests ++ [lane_request d input lane], faults).
Proof.
  intros Hb. unfold evaluateMemoryLane. rewrite lane_address_code, ldiff_3, land_3.
  destruct (LaneMask_Active (ii_ActiveMask input) lane); [|done]; cbn [negb].
  unfold lane_faulty, lane_fault, lane_request, in_bounds; cbv zeta.
  destruct (Z.eqb_spec (lane_address d input lane mod ms_Bytes (d_Memory d)) 0) as [Ha|Ha]; cbn [negb andb]; [|done].
  destruct (aligned_offset _ _ Hb Ha) as [Ho1 Ho2].
  pose proof (Z.mod_pos_bound (lane_address d input lane) 4 ltac:(lia)).
  rewrite byteMask_code by done. rewrite (u8_id (_ mod 4)) by (unfold is_u8; lia).
  rewrite Z.shiftl_mul_pow2 by lia.
  destruct (ii_Bounds input) as [b|]; [|done]. by destruct (AddressBounds_contains b _ _).
Qed.

Lemma evaluateMemory_fold d input ls requests faults :
  mem_width (ms_Bytes (d_Memory d)) ->
  fold_left (evaluateMemoryLane d input) ls (requests, faults) =
  (requests ++ map (lane_request d input)
     (List.filter (fun l => negb (lane_faulty d input l)) (List.filter (LaneMask_Active (ii_ActiveMask input)) ls)),
   faults ++ map (lane_fault d input)
     (List.filter (lane_faulty d input) (List.filter (LaneMask_Active (ii_ActiveMask input)) ls))).
Proof.
  intros Hb. revert requests faults. induction ls as [|l ls IH]; intros; cbn [fold_left List.filter map].
  - by rewrite !app_nil_r.
  - rewrite evaluateMemoryLane_step by done.
    destruct (LaneMask_Active (ii_ActiveMask input) l); cbn [negb List.filter]; [|apply IH].
    destruct (lane_faulty d input l); cbn [negb map]; rewrite IH, <- app_assoc; done.
Qed.

(** The lane loop as filters over the active lanes. *)
Lemma evaluateMemory_form d input :
  mem_width (ms_Bytes (d_Memory d)) ->
  let active := active_lanes (ii_ActiveMask input) in
  let faulty := List.filter (lane_faulty d input) active in
  evaluateMemory d input =
  Ok (match faulty with
      | [] => with_MemoryRequests (map (lane_request d input) active) no_effects
      | _ => with_Faults (map (lane_fault d input) faulty) no_effects
      end).
Proof.
  intros Hb active faulty. unfold evaluateMemory.
  assert (((ms_Bytes (d_Memory d) <>? 1) && (ms_Bytes (d_Memory d) <>? 2) && (ms_Bytes (d_Memory d) <>? 4)) = false) as ->
    by (by destruct Hb as [-> | [-> | ->]]).
  change (fold4 (evaluateMemoryLane d input) ([], []))
    with (fold_left (evaluateMemoryLane d input) lanes ([], [])).
  rewrite evaluateMemory_fold by done. cbn [app]. subst active. unfold active_lanes in *.
  destruct faulty as [|f fs] eqn:Ef; subst faulty; rewrite Ef; [|done].
  by rewrite (filter_negb_nil _ _ Ef).
Qed.

(** A load or store evaluates to exactly one well-shaped request per active
    lane, in lane order, or, when any active lane is misaligned or out of bounds,
    to the faults of the offending lanes and no request at all; it never writes a
    register or the PC before completion. *)
Theorem evaluateMemory_spec d input :
  mem_width (ms_Bytes (d_Memory d)) ->
  let active := active_lanes (ii_ActiveMask input) in
  let faulty := List.filter (lane_faulty d input) active in
  evaluateMemory d input =
  Ok (match faulty with
      | [] => with_MemoryRequests (map (lane_request d input) active) no_effects
      | _ => with_Faults (map (lane_fault d input) faulty) no_effects
      end).
Proof. apply evaluateMemory_form. Qed.

Example evaluateMemory_witness :
  exists d, Decode 0x00052583 = Ok d /\ mem_width (ms_Bytes (d_Memory d)) /\
  evaluateMemory d (mkIntegerInput 0 5 (Quad 0x100 1 0x202 3) (qfill 0) None) =
  Ok (with_Faults [mkFaultEffect FaultLoadAddressMisaligned FaultReasonAlignment 2 0x202 4] no_effects).
Proof.
  eexists. split_and!; [vm_compute; reflexivity|by right; right|].
  rewrite evaluateMemory_spec by (right; right; reflexivity). vm_compute. reflexivity.
Defined.

(** ** Loads and stores: completion *)

(** Completion states that differ only in the order of the recorded faults. *)
Definition completion_equiv (s t : completion) : Prop :=
  co_values s = co_values t /\ co_mask s = co_mask t /\ co_seen s = co_seen t /\ co_faults s ≡ₚ co_faults t.

#[export] Instance completion_equiv_equivalence : Equivalence completion_equiv.
Proof.
  split.
  - by intros s.
  - intros s t (? & ? & ? & ?). by split_and!.
  - intros s t u (E1 & E2 & E3 & P1) (F1 & F2 & F3 & P2). split_and!; try congruence. by rewrite P1.
Qed.

(** Results up to an equivalence of their values; errors up to being errors. *)
Definition result_equiv {A} (R : A -> A -> Prop) (r r' : result A) : Prop :=
  match r, r' with Ok a, Ok b => R a b | Err _, Err _ => True | _, _ => False end.

Lemma completeResponse_proper d r s t :
  completion_equiv s t -> result_equiv completion_equiv (completeResponse d s r) (completeResponse d t r).
Proof.
  intros (Hv & Hm & Hs & Hf). unfold completeResponse. rewrite Hs, Hv, Hm. cbv zeta.
  repeat case_match; simpl; try done; split_and!; simpl; try done; by rewrite Hf.
Qed.

Lemma foldM_completion_proper d rs s t :
  completion_equiv s t ->
  result_equiv completion_equiv (foldM (completeResponse d) s rs) (foldM (completeResponse d) t rs).
Proof.
  revert s t. induction rs as [|r rs IH]; intros s t H; simpl; [done|].
  pose proof (completeResponse_proper d r s t H) as Hr.
  destruct (completeResponse d s r), (completeResponse d t r); simpl in *; try done. by apply IH.
Qed.

Lemma Active_lor_pow2 m l k :
  0 <= l -> 0 <= k -> LaneMask_Active (m .| (1 << l)) k = LaneMask_Active m k || ((k <? 4) && (k =? l)).
Proof.
  intros Hl Hk. unfold LaneMask_Active, FrozenLaneCount. rewrite !land_pow2_testbit by lia.
  rewrite Z.lor_spec, Z.shiftl_1_l, Z.pow2_bits_eqb by lia. rewrite (Z.eqb_sym l k).
  by destruct (k <? 4), (Z.testbit m k), (k =? l).
Qed.

(** Responses of the memory owner carry a [uint8] lane. *)
Definition lane_nonneg (r : MemoryResponse) : Prop := 0 <= mr_Lane (mp_Request r).

Lemma qset_comm {A} (q : quad A) i j x y :
  idx4 i -> idx4 j -> i <> j -> qset (qset q i x) j y = qset (qset q j y) i x.
Proof. by intros [-> | [-> | [-> | ->]]] [-> | [-> | [-> | ->]]]. Qed.

(** [completeResponse] as a guard and an update. *)
Definition lane_free (s : completion) (r : MemoryResponse) : bool :=
  (mr_Lane (mp_Request r) <? 4) && negb (LaneMask_Active (co_seen s) (mr_Lane (mp_Request r))).

Definition response_ok (d : Decoded) (r : MemoryResponse) : bool :=
  let kind := ms_Kind (d_Memory d) in
  (mr_Kind (mp_Request r) ==. kind) && (mr_Width (mp_Request r) =? ms_Bytes (d_Memory d))
  && Bool.eqb (mr_Signed (mp_Request r)) (ms_Signed (d_Memory d))
  && ((mp_Fault r ==. FaultNone) ||
      negb (((kind ==. MemoryLoad) && (mp_Fault r !=. FaultLoadAccess)) ||
            ((kind ==. MemoryStore) && (mp_Fault r !=. FaultStoreAccess)))).

Definition response_fault (r : MemoryResponse) : FaultEffect :=
  mkFaultEffect (mp_Fault r) (if mp_Reason r ==. FaultReasonNone then FaultReasonMemoryService else mp_Reason r)
    (mr_Lane (mp_Request r)) (mr_Address (mp_Request r)) (mr_Width (mp_Request r)).

Definition response_apply (d : Decoded) (r : MemoryResponse) (s : completion) : completion :=
  let lane := mr_Lane (mp_Request r) in
  let writes := (mp_Fault r ==. FaultNone) && (ms_Kind (d_Memory d) ==. MemoryLoad) in
  mkCompletion
    (if writes then qset (co_values s) lane (extendLoad (mp_Data r) (mr_Width (mp_Request r)) (mr_Signed (mp_Request r)))
     else co_values s)
    (if writes then co_mask s .| (1 << lane) else co_mask s)
    (co_seen s .| (1 << lane))
    (co_faults s ++ if mp_Fault r ==. FaultNone then [] else [response_fault r]).

Lemma completeResponse_form d s r :
  (lane_free s r && response_ok d r = true /\ completeResponse d s r = Ok (response_apply d r s)) \/
  (lane_free s r && response_ok d r = false /\ exists e, completeResponse d s r = Err e).
Proof.
  unfold completeResponse, lane_free, response_ok, response_apply, response_fault, FrozenLaneCount; cbv zeta.
  rewrite (Z.ltb_antisym 4).
  destruct (4 <=? _); cbn [negb andb orb]; [right; eauto|].
  destruct (LaneMask_Active _ _); cbn [negb andb orb]; [right; eauto|].
  destruct ((_ ==. _) && _ && _); cbn [andb]; [|right; eauto].
  destruct (mp_Fault r ==. FaultNone); cbn [negb andb orb].
  - left. destruct (_ ==. MemoryLoad); by rewrite app_nil_r.
  - destruct (_ || _); cbn [negb]; [right; eauto|left; done].
Qed.

Lemma lane_free_apply d s r1 r2 :
  lane_nonneg r1 -> lane_nonneg r2 ->
  lane_free (response_apply d r1 s) r2 =
  lane_free s r2 && negb (mr_Lane (mp_Request r2) =? mr_Lane (mp_Request r1)).
Proof.
  intros H1 H2. unfold lane_free, response_apply; simpl co_seen. rewrite Active_lor_pow2 by done.
  by destruct (_ <? 4), (LaneMask_Active _ _), (_ =? _).
Qed.

Lemma response_apply_comm d s r1 r2 :
  idx4 (mr_Lane (mp_Request r1)) -> idx4 (mr_Lane (mp_Request r2)) ->
  mr_Lane (mp_Request r1) <> mr_Lane (mp_Request r2) ->
  completion_equiv (response_apply d r2 (response_apply d r1 s)) (response_apply d r1 (response_apply d r2 s)).
Proof.
  intros H1 H2 Hne. unfold response_apply. split_and!; simpl.
  - destruct (_ && _), (_ && _); try done. by apply qset_comm.
  - destruct (_ && _), (_ && _); try done. rewrite <- !Z.lor_assoc. f_equal. apply Z.lor_comm.
  - rewrite <- !Z.lor_assoc. f_equal. apply Z.lor_comm.
  - rewrite <- !app_assoc. f_equiv. apply Permutation_app_comm.
Qed.

Lemma completeResponse_swap d s r1 r2 :
  lane_nonneg r1 -> lane_nonneg r2 ->
  result_equiv completion_equiv
    (let? s1 := completeResponse d s r1 in completeResponse d s1 r2)
    (let? s1 := completeResponse d s r2 in completeResponse d s1 r1).
Proof.
  intros H1 H2.
  destruct (completeResponse_form d s r1) as [[E1 ->]|[E1 [e1 ->]]],
    (completeResponse_form d s r2) as [[E2 ->]|[E2 [e2 ->]]]; simpl; [|..|done].
  - destruct (completeResponse_form d (response_apply d r1 s) r2) as [[F1 ->]|[F1 [? ->]]],
      (completeResponse_form d (response_apply d r2 s) r1) as [[F2 ->]|[F2 [? ->]]]; simpl;
      rewrite lane_free_apply in F1, F2 by done; apply andb_true_iff in E1 as [L1 R1], E2 as [L2 R2];
      rewrite L1, R1 in F2; rewrite L2, R2 in F1; simpl in F1, F2; rewrite ?andb_true_r in F1, F2.
    + apply response_apply_comm; [apply idx4_range..|].
      * unfold lane_free in L1. apply andb_true_iff in L1 as [L1%Z.ltb_lt _]. unfold lane_nonneg in *; lia.
      * unfold lane_free in L2. apply andb_true_iff in L2 as [L2%Z.ltb_lt _]. unfold lane_nonneg in *; lia.
      * apply negb_true_iff, Z.eqb_neq in F1. lia.
    + rewrite Z.eqb_sym in F2. congruence.
    + rewrite Z.eqb_sym in F2. congruence.
    + done.
  - destruct (completeResponse_form d (response_apply d r1 s) r2) as [[F1 ->]|[F1 [? ->]]]; simpl; [|done].
    rewrite lane_free_apply in F1 by done. destruct (lane_free s r2), (response_ok d r2); simpl in *; try done.
    by rewrite andb_false_r in F1.
  - destruct (completeResponse_form d (response_apply d r2 s) r1) as [[F1 ->]|[F1 [? ->]]]; simpl; [|done].
    rewrite lane_free_apply in F1 by done. destruct (lane_free s r1), (response_ok d r1); simpl in *; try done.
    by rewrite andb_false_r in F1.
Qed.

Lemma result_equiv_trans (a b c : result completion) :
  result_equiv completion_equiv a b -> result_equiv completion_equiv b c -> result_equiv completion_equiv a c.
Proof. destruct a, b, c; simpl; try done. apply transitivity. Qed.

Lemma foldM_completion_perm d rs rs' s :
  rs ≡ₚ rs' -> Forall lane_nonneg rs ->
  result_equiv completion_equiv (foldM (completeResponse d) s rs) (foldM (completeResponse d) s rs').
Proof.
  intros Hp. revert s. induction Hp as [|r rs rs' Hp IH|r1 r2 rs|rs1 rs2 rs3 H12 IH1 H23 IH2]; intros s Hn; simpl.
  - done.
  - apply Forall_cons in Hn as [_ Hn]. destruct (completeResponse d s r); simpl; [|done]. by apply IH.
  - apply Forall_cons in Hn as [H1 [H2 Hn]%Forall_cons].
    pose proof (completeResponse_swap d s r2 r1 H1 H2) as Hs.
    destruct (completeResponse d s r2) as [s2|], (completeResponse d s r1) as [s1|]; simpl in *;
      repeat match goal with |- context [completeResponse ?d ?a ?b] => destruct (completeResponse d a b) end;
      simpl in *; try done. by apply foldM_completion_proper.
  - eapply result_equiv_trans; [by apply IH1|]. apply IH2. by rewrite <- H12.
Qed.

(** Effects that differ only in the order of their faults. *)
Definition effects_equiv (a b : InstructionEffects) : Prop :=
  with_Faults [] a = with_Faults [] b /\ Faults a ≡ₚ Faults b.

(** The memory owner may answer in any order: completing a permutation of the
    responses succeeds or fails alike, with the same register write and PC and the
    same faults up to order. *)
Theorem CompleteMemory_permutation d pc expected rs rs' :
  rs ≡ₚ rs' -> Forall lane_nonneg rs ->
  result_equiv effects_equiv (CompleteMemory d pc expected rs) (CompleteMemory d pc expected rs').
Proof.
  intros Hp Hn. unfold CompleteMemory.
  destruct (_ || _); [|done]. destruct (LaneMask_Valid expected); [|done].
  pose proof (foldM_completion_perm d rs rs' (mkCompletion (qfill 0) 0 0 []) Hp Hn) as H.
  destruct (foldM _ _ rs) as [s|], (foldM _ _ rs') as [t|]; simpl in *; try done.
  destruct H as (Hv & Hm & Hs & Hf). rewrite Hv, Hm, Hs. destruct (_ =? _); [|done].
  destruct (co_faults s) as [|f fs], (co_faults t) as [|g gs];
    [by split| by apply Permutation_nil_cons in Hf | by apply symmetry, Permutation_nil_cons in Hf | by split].
Qed.

Example CompleteMemory_permutation_witness :
  exists d, Decode 0x00052583 = Ok d /\
  let r l := mkMemoryResponse (lane_request d (mkIntegerInput 0 3 (Quad 0x100 0x104 0 0) (qfill 0) None) l) (l + 7) FaultNone FaultReasonNone in
  is_ok (CompleteMemory d 0 3 [r 0; r 1]) = true /\
  result_equiv effects_equiv (CompleteMemory d 0 3 [r 0; r 1]) (CompleteMemory d 0 3 [r 1; r 0]).
Proof.
  eexists. split; [vm_compute; reflexivity|]. cbv zeta. split; [vm_compute; reflexivity|].
  apply CompleteMemory_permutation; [apply Permutation_swap|by repeat constructor].
Defined.

Definition or_lane (m : LaneMask) (lane : Z) : LaneMask := m .| (1 << lane).

(** One acceptable answer [resp l] per lane [l]. *)
Definition answers (d : Decoded) (resp : Z -> MemoryResponse) (ls : list Z) : Prop :=
  forall l, l ∈ ls -> mr_Lane (mp_Request (resp l)) = l /\ response_ok d (resp l) = true.

Lemma foldM_answers d resp ls s :
  NoDup ls -> Forall idx4 ls -> answers d resp ls -> (forall l, l ∈ ls -> LaneMask_Active (co_seen s) l = false) ->
  foldM (completeResponse d) s (map resp ls) = Ok (fold_left (fun s l => response_apply d (resp l) s) ls s).
Proof.
  revert s. induction ls as [|l ls IH]; intros s Hd Hi Ha Hs; [done|].
  apply NoDup_cons in Hd as [Hnin Hd]. apply Forall_cons in Hi as [Hl Hi]. cbn [map foldM fold_left].
  pose proof (Hs l ltac:(apply list_elem_of_here)) as Hfree. destruct (Ha l ltac:(apply list_elem_of_here)) as [Hlane Hok].
  destruct (completeResponse_form d s (resp l)) as [[_ ->]|[E _]].
  - apply IH; [done..| |].
    + intros k Hk. apply Ha. by apply list_elem_of_further.
    + intros k Hk. rewrite Forall_forall in Hi. specialize (Hi k Hk).
      unfold response_apply; simpl co_seen. rewrite Hlane. unfold idx4 in *. rewrite Active_lor_pow2 by lia.
      rewrite (Hs k) by by apply list_elem_of_further. simpl. destruct (Z.eqb_spec k l); [by subst|].
      apply andb_false_r.
  - rewrite Hok, andb_true_r in E. unfold lane_free in E. rewrite Hlane, Hfree in E.
    destruct Hl as [-> | [-> | [-> | ->]]]; done.
Qed.

Lemma active_lanes_seen mask : mask_ok mask -> fold_left or_lane (active_lanes mask) 0 = mask.
Proof.
  intros H. apply Z.eqb_eq. revert mask H.
  apply (mask_forall (fun m => fold_left or_lane (active_lanes m) 0 =? m)). vm_compute. reflexivity.
Qed.

Lemma active_lanes_ok mask : NoDup (active_lanes mask) /\ Forall idx4 (active_lanes mask).
Proof.
  unfold active_lanes, lanes. split.
  - apply NoDup_ListNoDup, List.NoDup_filter, NoDup_ListNoDup. repeat constructor; set_solver by lia.
  - apply Forall_forall. intros x [Hx _]%list_elem_of_In%filter_In. unfold idx4. simpl in Hx. naive_solver.
Qed.

(** The faults of the answers, in lane order. *)
Definition answer_faults (resp : Z -> MemoryResponse) (ls : list Z) : list FaultEffect :=
  map (fun l => response_fault (resp l)) (List.filter (fun l => mp_Fault (resp l) !=. FaultNone) ls).

Lemma fold_answers d resp ls s :
  answers d resp ls ->
  let t := fold_left (fun s l => response_apply d (resp l) s) ls s in
  co_seen t = fold_left or_lane ls (co_seen s) /\ co_faults t = co_faults s ++ answer_faults resp ls /\
  (answer_faults resp ls = [] -> ms_Kind (d_Memory d) = MemoryLoad ->
   co_values t = fold_left (fun v l => qset v l (extendLoad (mp_Data (resp l)) (ms_Bytes (d_Memory d)) (ms_Signed (d_Memory d)))) ls (co_values s) /\
   co_mask t = fold_left or_lane ls (co_mask s)).
Proof.
  revert s. induction ls as [|l ls IH]; intros s Ha; [cbn; by rewrite app_nil_r|].
  assert (answers d resp ls) as Ha' by (intros k Hk; apply Ha; by apply list_elem_of_further).
  destruct (Ha l ltac:(apply list_elem_of_here)) as [Hlane Hok]. cbn [fold_left]. cbv zeta.
  destruct (IH (response_apply d (resp l) s) Ha') as (Hseen & Hfaults & Hvals). rewrite Hseen, Hfaults.
  unfold answer_faults. cbn [List.filter]. cbn [response_apply co_seen co_faults]. rewrite Hlane. split; [done|].
  destruct (mp_Fault (resp l) ==. FaultNone) eqn:Ef; cbn [negb map]; [rewrite app_nil_r|rewrite <- app_assoc]; (split; [done|]); [|done].
  intros Hnf Hk. destruct (Hvals Hnf Hk) as [-> ->]. cbn [response_apply co_values co_mask]. rewrite Hlane, Ef, Hk. cbn [andb].
  rewrite bool_decide_true by done. unfold response_ok in Hok.
  rewrite !andb_true_iff in Hok. destruct Hok as [[[_ Hw%Z.eqb_eq] Hs%eqb_prop] _]. by rewrite Hw, Hs.
Qed.

(** Completion of one acceptable answer per active lane. *)
Lemma CompleteMemory_answers d pc mask resp :
  ms_Kind (d_Memory d) = MemoryLoad \/ ms_Kind (d_Memory d) = MemoryStore -> mask_ok mask -> answers d resp (active_lanes mask) ->
  CompleteMemory d pc mask (map resp (active_lanes mask)) =
  Ok (match answer_faults resp (active_lanes mask) with
      | [] => with_Control (sequentialControl pc)
          (if ms_Kind (d_Memory d) ==. MemoryLoad
           then appendRegisterWrite no_effects d mask
                  (qmake (fun lane => if LaneMask_Active mask lane
                     then extendLoad (mp_Data (resp lane)) (ms_Bytes (d_Memory d)) (ms_Signed (d_Memory d)) else 0))
           else no_effects)
      | faults => with_Faults faults no_effects
      end).
Proof.
  intros Hk Hm Ha. unfold CompleteMemory.
  assert ((ms_Kind (d_Memory d) ==. MemoryLoad) || (ms_Kind (d_Memory d) ==. MemoryStore) = true) as -> by (by destruct Hk as [-> | ->]).
  rewrite (proj2 (LaneMask_Valid_spec mask (proj1 Hm)) Hm). destruct (active_lanes_ok mask) as [Hn Hi].
  rewrite foldM_answers by (try done; intros l _; unfold LaneMask_Active; rewrite Z.land_0_l; apply andb_false_r). cbn [result_bind].
  destruct (fold_answers d resp (active_lanes mask) (mkCompletion (qfill 0) 0 0 []) Ha) as (-> & -> & Hv). cbn [co_seen co_faults app].
  rewrite active_lanes_seen, Z.eqb_refl by done. destruct (answer_faults resp (active_lanes mask)) as [|f fs]; [|done].
  do 3 f_equal. destruct (bool_decide_reflect (ms_Kind (d_Memory d) = MemoryLoad)) as [E|]; [|done].
  destruct (Hv eq_refl E) as [-> ->]. cbn [co_values co_mask]. rewrite active_lanes_seen by done. f_equal.
  apply mask_cases in Hm. unfold active_lanes.
  repeat (apply elem_of_cons in Hm as [->|Hm]; [reflexivity|]). by apply elem_of_nil in Hm.
Qed.

(** The memory owner's successful answer for one active lane. *)
Definition lane_response (d : Decoded) (input : IntegerInput) (data : Z -> Z) (lane : Z) : MemoryResponse :=
  mkMemoryResponse (lane_request d input lane) (data lane) FaultNone FaultReasonNone.

Lemma lane_request_ok d input lane data fault reason :
  response_ok d (mkMemoryResponse (lane_request d input lane) data fault reason) =
  (fault ==. FaultNone) || negb (((ms_Kind (d_Memory d) ==. MemoryLoad) && (fault !=. FaultLoadAccess)) ||
                                 ((ms_Kind (d_Memory d) ==. MemoryStore) && (fault !=. FaultStoreAccess))).
Proof. unfold response_ok. cbn. by rewrite bool_decide_true, Z.eqb_refl, eqb_reflx. Qed.

(** Completing the one-response-per-active-lane answer of the owner succeeds:
    a load writes every active lane with its sign- or zero-extended data (nothing
    for integer x0), a store writes nothing, and both advance the PC by four. *)
Theorem CompleteMemory_spec d input pc mask data :
  ms_Kind (d_Memory d) = MemoryLoad \/ ms_Kind (d_Memory d) = MemoryStore -> mask_ok mask ->
  CompleteMemory d pc mask (map (lane_response d input data) (active_lanes mask)) =
  Ok (with_Control (sequentialControl pc)
       (if ms_Kind (d_Memory d) ==. MemoryLoad
        then appendRegisterWrite no_effects d mask
               (qmake (fun lane => if LaneMask_Active mask lane
                                   then extendLoad (data lane) (ms_Bytes (d_Memory d)) (ms_Signed (d_Memory d)) else 0))
        else no_effects)).
Proof.
  intros Hk Hm. rewrite CompleteMemory_answers; [|done|done|intros l _; split; [done|apply lane_request_ok]].
  assert (answer_faults (lane_response d input data) (active_lanes mask) = []) as ->; [|done].
  unfold answer_faults. by induction (active_lanes mask).
Qed.

Example CompleteMemory_spec_witness :
  exists d, Decode 0x00050583 = Ok d /\ ms_Kind (d_Memory d) = MemoryLoad /\ mask_ok 5 /\
  let input := mkIntegerInput 0 5 (Quad 0x101 0 0x203 0) (qfill 0) None in
  CompleteMemory d 0x40 5 (map (lane_response d input (fun _ => 0x80)) (active_lanes 5)) =
  Ok (mkInstructionEffects [mkRegisterWriteEffect 0 (mkRegister Integer 11) 5 (Quad 0xffffff80 0 0xffffff80 0)]
        (sequentialControl 0x40) [] None None [] [] None [] None None [] [] [] []).
Proof.
  eexists. split_and!; [vm_compute; reflexivity|reflexivity|by vm_compute|]. cbv zeta.
  rewrite CompleteMemory_spec; [vm_compute; reflexivity|by left|by vm_compute].
Defined.
