(* ===== verification/System.v ===== *)
(** * CSR catalog and System instructions (src/isa/csr_catalog.go, system.go)

    The strict CSR address table, the view-based CSR read, the read-modify-write
    and trap evaluators. *)

From S2P Require Import Prelude IsaTypes Catalog Decode Integer.

#[local] Open Scope Z_scope.
#[local] Open Scope go_scope.

(** ** csr_catalog.go *)

Definition FrozenCoreCount : Z := 1.
Definition FrozenBarrierCount : Z := 8.
Definition FrozenLocalMemBase : Z := 0xffff0000.
Definition FrozenLocalMemSize : Z := 1 << 14.
Definition FrozenCounterBits : Z := 44.
Definition FrozenMISA : Z := 0x40901120.

Inductive CSRValueKind :=
| csrValueZero | csrValueFFlags | csrValueFRM | csrValueFCSR | csrValueMStatus | csrValueMTVec
| csrValueMScratch | csrValueMEPC | csrValueMCause | csrValueMTVal | csrValueMISA | csrValueThreadID
| csrValueHartID | csrValueWarpID | csrValueCoreID | csrValueActiveWarps | csrValueActiveThreads
| csrValueNumThreads | csrValueNumWarps | csrValueNumCores | csrValueLocalMemBase | csrValueNumBarriers
| csrValueCTAID | csrValueCTARank | csrValueCTASize | csrValueCTAThreadX | csrValueCTAThreadY
| csrValueCTAThreadZ | csrValueCTABlockX | csrValueCTABlockY | csrValueCTABlockZ | csrValueCTABlockDimX
| csrValueCTABlockDimY | csrValueCTABlockDimZ | csrValueCTAGridDimX | csrValueCTAGridDimY
| csrValueCTAGridDimZ | csrValueCTALMemAddress | csrValueCTAClusterSize | csrValueCTAEntry
| csrValueCycleLow | csrValueCycleHigh | csrValueInstretLow | csrValueInstretHigh.

Record CSREntry := mkCSREntry {
  csr_Name : string;
  csr_Address : Z;
  csr_Scope : CSRScope;
  csr_Value : CSRValueKind;
  csr_Writable : bool;
  csr_WriteIgnored : bool;
  csr_WriteMask : Z;
  csr_RTLEvidence : list string
}.

Definition csrDataEvidence : list string := ["hw/VX_types.vh:348-429"; "hw/rtl/core/VX_csr_data.sv:76-263"].
Definition csrLaneEvidence : list string := ["hw/rtl/core/VX_csr_unit.sv:121-187"; "hw/rtl/core/VX_csr_data.sv:210-234"].
Definition csrTrapEvidence : list string := ["hw/rtl/core/VX_csr_data.sv:76-120,254-258"; "hw/rtl/core/VX_scheduler.sv:245-255,358-381"].
Definition csrCountEvidence : list string := ["hw/rtl/core/VX_csr_data.sv:21-27,236-263"; "hw/rtl/core/VX_scheduler.sv:132,541-588"].

Definition csrEntry (name : string) (address : Z) (scope : CSRScope) (value : CSRValueKind) (evidence : list string) : CSREntry :=
  mkCSREntry name address scope value false false 0 evidence.
Definition csrRW (name : string) (address : Z) (value : CSRValueKind) (mask : Z) (evidence : list string) : CSREntry :=
  mkCSREntry name address CSRScopeWarp value true false mask evidence.
Definition csrZero (name : string) (address : Z) : CSREntry :=
  mkCSREntry name address CSRScopeConstant csrValueZero false true 0 csrDataEvidence.

(** [fmt.Sprintf("%02d", slot)] for a slot below 100. *)
Definition two_digits (slot : nat) : string :=
  let digit n := String (Ascii.ascii_of_nat (48 + n)) EmptyString in
  (digit (slot / 10) +:+ digit (slot mod 10))%nat.

Definition mpm_slot (slot : nat) : list CSREntry :=
  [ csrEntry ("mpm_zero_" +:+ two_digits slot) (0xb03 + Z.of_nat slot) CSRScopeCounter csrValueZero csrCountEvidence;
    csrEntry ("mpm_zero_" +:+ two_digits slot +:+ "_h") (0xb83 + Z.of_nat slot) CSRScopeCounter csrValueZero csrCountEvidence ].

Definition buildCSRCatalog : list CSREntry :=
  [ csrRW "fflags" 0x001 csrValueFFlags 0x1f csrDataEvidence;
    csrRW "frm" 0x002 csrValueFRM 0x07 csrDataEvidence;
    csrRW "fcsr" 0x003 csrValueFCSR 0xff csrDataEvidence;
    csrZero "satp-disabled" 0x180;
    csrRW "mstatus" 0x300 csrValueMStatus 0xffffffff csrTrapEvidence;
    csrEntry "misa" 0x301 CSRScopeConstant csrValueMISA csrDataEvidence;
    csrZero "medeleg" 0x302;
    csrZero "mideleg" 0x303;
    csrZero "mie" 0x304;
    csrRW "mtvec" 0x305 csrValueMTVec 0xffffffff csrTrapEvidence;
    csrRW "mscratch" 0x340 csrValueMScratch 0xffffffff csrTrapEvidence;
    csrRW "mepc" 0x341 csrValueMEPC 0xffffffff csrTrapEvidence;
    csrRW "mcause" 0x342 csrValueMCause 0xffffffff csrTrapEvidence;
    csrRW "mtval" 0x343 csrValueMTVal 0xffffffff csrTrapEvidence;
    csrZero "pmpcfg0" 0x3a0;
    csrZero "pmpaddr0" 0x3b0;
    csrZero "mnstatus" 0x744;

    csrEntry "thread_id" 0xcc0 CSRScopeLane csrValueThreadID csrLaneEvidence;
    csrEntry "warp_id" 0xcc1 CSRScopeWarp csrValueWarpID csrLaneEvidence;
    csrEntry "core_id" 0xcc2 CSRScopeCore csrValueCoreID csrLaneEvidence;
    csrEntry "active_warps" 0xcc3 CSRScopeCore csrValueActiveWarps csrLaneEvidence;
    csrEntry "active_threads" 0xcc4 CSRScopeWarp csrValueActiveThreads csrLaneEvidence;

    csrEntry "cta_id" 0xcd0 CSRScopeCTA csrValueCTAID csrLaneEvidence;
    csrEntry "cta_rank" 0xcd1 CSRScopeCTA csrValueCTARank csrLaneEvidence;
    csrEntry "cta_size" 0xcd2 CSRScopeCTA csrValueCTASize csrLaneEvidence;
    csrEntry "cta_thread_id_x" 0xcd3 CSRScopeLane csrValueCTAThreadX csrLaneEvidence;
    csrEntry "cta_thread_id_y" 0xcd4 CSRScopeLane csrValueCTAThreadY csrLaneEvidence;
    csrEntry "cta_thread_id_z" 0xcd5 CSRScopeLane csrValueCTAThreadZ csrLaneEvidence;
    csrEntry "cta_block_id_x" 0xcd6 CSRScopeCTA csrValueCTABlockX csrLaneEvidence;
    csrEntry "cta_block_id_y" 0xcd7 CSRScopeCTA csrValueCTABlockY csrLaneEvidence;
    csrEntry "cta_block_id_z" 0xcd8 CSRScopeCTA csrValueCTABlockZ csrLaneEvidence;
    csrEntry "cta_block_dim_x" 0xcd9 CSRScopeCTA csrValueCTABlockDimX csrLaneEvidence;
    csrEntry "cta_block_dim_y" 0xcda CSRScopeCTA csrValueCTABlockDimY csrLaneEvidence;
    csrEntry "cta_block_dim_z" 0xcdb CSRScopeCTA csrValueCTABlockDimZ csrLaneEvidence;
    csrEntry "cta_grid_dim_x" 0xcdc CSRScopeCTA csrValueCTAGridDimX csrLaneEvidence;
    csrEntry "cta_grid_dim_y" 0xcdd CSRScopeCTA csrValueCTAGridDimY csrLaneEvidence;
    csrEntry "cta_grid_dim_z" 0xcde CSRScopeCTA csrValueCTAGridDimZ csrLaneEvidence;
    csrEntry "cta_lmem_addr" 0xcdf CSRScopeCTA csrValueCTALMemAddress csrLaneEvidence;
    csrEntry "cta_cluster_size" 0xce0 CSRScopeCTA csrValueCTAClusterSize csrLaneEvidence;
    csrEntry "cta_entry" 0xce1 CSRScopeCTA csrValueCTAEntry csrLaneEvidence;

    csrEntry "num_threads" 0xfc0 CSRScopeConstant csrValueNumThreads csrDataEvidence;
    csrEntry "num_warps" 0xfc1 CSRScopeConstant csrValueNumWarps csrDataEvidence;
    csrEntry "num_cores" 0xfc2 CSRScopeConstant csrValueNumCores csrDataEvidence;
    csrEntry "local_mem_base" 0xfc3 CSRScopeConstant csrValueLocalMemBase csrDataEvidence;
    csrEntry "num_barriers" 0xfc4 CSRScopeConstant csrValueNumBarriers csrDataEvidence;

    csrEntry "mvendorid" 0xf11 CSRScopeConstant csrValueZero csrDataEvidence;
    csrEntry "marchid" 0xf12 CSRScopeConstant csrValueZero csrDataEvidence;
    csrEntry "mimpid" 0xf13 CSRScopeConstant csrValueZero csrDataEvidence;
    csrEntry "mhartid" 0xf14 CSRScopeLane csrValueHartID csrLaneEvidence;

    csrEntry "mcycle" 0xb00 CSRScopeCounter csrValueCycleLow csrCountEvidence;
    csrEntry "mcycleh" 0xb80 CSRScopeCounter csrValueCycleHigh csrCountEvidence;
    csrEntry "minstret" 0xb02 CSRScopeCounter csrValueInstretLow csrCountEvidence;
    csrEntry "minstreth" 0xb82 CSRScopeCounter csrValueInstretHigh csrCountEvidence ]
  ++ concat (map mpm_slot (seq 0 32)).

Definition csrCatalog : list CSREntry := Eval vm_compute in buildCSRCatalog.

Definition findCSR (address : Z) : option CSREntry := List.find (fun entry => csr_Address entry =? address) csrCatalog.

(** ** system.go *)

Definition TrapCauseBreakpoint : Z := 3.
Definition TrapCauseEnvironmentCallMMode : Z := 11.

(** Component [i] of a Go [[3]uint32]. *)
Definition dim_x (t : Z * Z * Z) : Z := fst (fst t).
Definition dim_y (t : Z * Z * Z) : Z := snd (fst t).
Definition dim_z (t : Z * Z * Z) : Z := snd t.

Definition readCSR (kind : CSRValueKind) (view : CSRView) : LaneValues :=
  let cta := cv_CTA view in
  let high counter := u32 (counter >> 32) .& ((1 << (FrozenCounterBits - 32)) - 1) in
  match kind with
  | csrValueFFlags => filledValues (cv_FCSR view .& 0x1f)
  | csrValueFRM => filledValues ((cv_FCSR view >> 5) .& 0x07)
  | csrValueFCSR => filledValues (cv_FCSR view .& 0xff)
  | csrValueMStatus => filledValues (cv_MStatus view)
  | csrValueMTVec => filledValues (cv_MTVec view)
  | csrValueMScratch => filledValues (cv_MScratch view)
  | csrValueMEPC => filledValues (cv_MEPC view)
  | csrValueMCause => filledValues (cv_MCause view)
  | csrValueMTVal => filledValues (cv_MTVal view)
  | csrValueMISA => filledValues FrozenMISA
  | csrValueThreadID => qmake (fun lane => lane)
  | csrValueHartID =>
      let base := u32 (cv_CoreID view * FrozenWarpCount * FrozenLaneCount + cv_WarpID view * FrozenLaneCount) in
      qmake (fun lane => u32 (base + lane))
  | csrValueWarpID => filledValues (cv_WarpID view)
  | csrValueCoreID => filledValues (cv_CoreID view)
  | csrValueActiveWarps => filledValues (cv_ActiveWarps view)
  | csrValueActiveThreads => filledValues (cv_ThreadMask view)
  | csrValueNumThreads => filledValues FrozenLaneCount
  | csrValueNumWarps => filledValues FrozenWarpCount
  | csrValueNumCores => filledValues FrozenCoreCount
  | csrValueLocalMemBase => filledValues FrozenLocalMemBase
  | csrValueNumBarriers => filledValues FrozenBarrierCount
  | csrValueCTAID => filledValues (cta_ID cta)
  | csrValueCTARank => filledValues (cta_Rank cta)
  | csrValueCTASize => filledValues (cta_Size cta)
  | csrValueCTAThreadX => fst (fst (cta_ThreadCoordinates cta))
  | csrValueCTAThreadY => snd (fst (cta_ThreadCoordinates cta))
  | csrValueCTAThreadZ => snd (cta_ThreadCoordinates cta)
  | csrValueCTABlockX => filledValues (dim_x (cta_BlockID cta))
  | csrValueCTABlockY => filledValues (dim_y (cta_BlockID cta))
  | csrValueCTABlockZ => filledValues (dim_z (cta_BlockID cta))
  | csrValueCTABlockDimX => filledValues (dim_x (cta_BlockDimensions cta))
  | csrValueCTABlockDimY => filledValues (dim_y (cta_BlockDimensions cta))
  | csrValueCTABlockDimZ => filledValues (dim_z (cta_BlockDimensions cta))
  | csrValueCTAGridDimX => filledValues (dim_x (cta_GridDimensions cta))
  | csrValueCTAGridDimY => filledValues (dim_y (cta_GridDimensions cta))
  | csrValueCTAGridDimZ => filledValues (dim_z (cta_GridDimensions cta))
  | csrValueCTALMemAddress => filledValues (cta_LocalMemoryAddress cta)
  | csrValueCTAClusterSize => filledValues (cta_ClusterSize cta)
  | csrValueCTAEntry => filledValues (cta_Entry cta)
  | csrValueCycleLow => filledValues (u32 (ctr_Cycle (cv_Counters view)))
  | csrValueCycleHigh => filledValues (high (ctr_Cycle (cv_Counters view)))
  | csrValueInstretLow => filledValues (u32 (ctr_Instret (cv_Counters view)))
  | csrValueInstretHigh => filledValues (high (ctr_Instret (cv_Counters view)))
  | csrValueZero => filledValues 0
  end.

Definition evaluateCSR (d : Decoded) (input : SystemInput) : result InstructionEffects :=
  match findCSR (d_CSRAddress d) with
  | None => Err (CSRAccessError (d_Name d) (d_CSRAddress d) CSRUnknownAddress)
  | Some entry =>
      let values := readCSR (csr_Value entry) (si_CSR input) in
      let source := if d_CSRImmediate d then d_CSRImmediateValue d else qget (si_RS1 input) 0 in
      let writeRequested := (d_CSR d ==. CSRRW) || (source <>? 0) in
      if writeRequested && negb (csr_Writable entry) && negb (csr_WriteIgnored entry) then
        Err (CSRAccessError (d_Name d) (d_CSRAddress d) CSRReadOnlyWrite)
      else
        let effects := with_CSRReads [mkCSRReadEffect (csr_Address entry) (csr_Scope entry) values]
                         (with_Control (sequentialControl (si_PC input)) no_effects) in
        let effects := appendRegisterWrite effects d (si_ActiveMask input) values in
        if negb writeRequested then Ok effects
        else
          let oldValue := qget values 0 in
          let newValue :=
            match d_CSR d with
            | CSRRS => oldValue .| source
            | CSRRC => oldValue .&^ source
            | _ => source
            end in
          let write := mkCSRWriteEffect (csr_Address entry) (csr_Scope entry) (cv_WarpID (si_CSR input)) oldValue
                         (if csr_Writable entry then newValue .& csr_WriteMask entry else 0)
                         (csr_WriteMask entry) (csr_WriteIgnored entry) in
          Ok (with_CSRWrites [write] effects)
  end.

Definition trapCSRWrite (address warpID oldValue value : Z) : CSRWriteEffect :=
  mkCSRWriteEffect address CSRScopeWarp warpID oldValue value 0xffffffff false.

Definition evaluateTrapSystem (d : Decoded) (input : SystemInput) : result InstructionEffects :=
  let view := si_CSR input in
  if (d_Name d == "ecall") || (d_Name d == "ebreak") then
    if (si_ActiveMask input =? 0) || (cv_ThreadMask view =? 0) then
      evalError d "trap entry requires a running thread mask"
    else
      let cause := if d_Name d == "ebreak" then TrapCauseBreakpoint else TrapCauseEnvironmentCallMMode in
      let vector := cv_MTVec view .&^ 3 in
      Ok (with_Trap (Some (mkTrapEffect TrapEnter cause (si_PC input) vector (cv_ThreadMask view) 0 false))
           (with_CSRWrites
             [trapCSRWrite 0x341 (cv_WarpID view) (cv_MEPC view) (si_PC input);
              trapCSRWrite 0x342 (cv_WarpID view) (cv_MCause view) cause;
              trapCSRWrite 0x343 (cv_WarpID view) (cv_MTVal view) 0]
             (with_Control (Some (mkControlEffect PCTrap (si_PC input) vector vector true 0)) no_effects)))
  else if (d_Name d == "uret") || (d_Name d == "sret") || (d_Name d == "mret") then
    if si_ActiveMask input =? 0 then evalError d "trap return requires an active lane"
    else
      let target := cv_MEPC view .&^ 3 in
      let restore := cv_SavedThreadMask view <>? 0 in
      Ok (with_Trap (Some (mkTrapEffect TrapReturn 0 (cv_MEPC view) 0 0 (cv_SavedThreadMask view) restore))
           (with_Control (Some (mkControlEffect PCTrapReturn (si_PC input) target target true 0)) no_effects))
  else evalError d "missing System functional semantics".

Definition EvaluateSystem (d : Decoded) (input : SystemInput) : result InstructionEffects :=
  let view := si_CSR input in
  check LaneMask_Valid (si_ActiveMask input)
    else EvaluationError (d_Name d) "active mask exceeds four frozen lanes" in
  check negb ((cv_WarpID view >=? FrozenWarpCount) || (cv_CoreID view >=? FrozenCoreCount) ||
              (cv_ActiveWarps view .&^ ((1 << FrozenWarpCount) - 1) <>? 0) ||
              negb (LaneMask_Valid (cv_ThreadMask view)) || negb (LaneMask_Valid (cv_SavedThreadMask view)))
    else EvaluationError (d_Name d) "CSR context exceeds frozen topology" in
  check d_Category d == CategorySystem
    else EvaluationError (d_Name d) "instruction is outside System/CSR" in
  if d_CSR d !=. CSRNone then evaluateCSR d input else evaluateTrapSystem d input.

(** ** The CSR table *)

Lemma csrCatalog_addresses_nodup : NoDup (map csr_Address csrCatalog).
Proof. apply (bool_decide_eq_true_1 (NoDup (map csr_Address csrCatalog))). vm_compute. reflexivity. Qed.

Lemma findCSR_some address entry : findCSR address = Some entry -> entry ∈ csrCatalog /\ csr_Address entry = address.
Proof.
  unfold findCSR. intros H. split; [by apply find_some in H as [H _]; apply list_elem_of_In|].
  apply find_some in H as [_ H]. by apply Z.eqb_eq.
Qed.

Lemma findCSR_unique entry : entry ∈ csrCatalog -> findCSR (csr_Address entry) = Some entry.
Proof.
  intros H. destruct (findCSR (csr_Address entry)) as [e|] eqn:E.
  - apply findCSR_some in E as [He Ha]. f_equal.
    apply list_elem_of_lookup in H as [i Hi]. apply list_elem_of_lookup in He as [j Hj].
    assert (i = j) as ->; [|congruence].
    eapply NoDup_lookup; [apply csrCatalog_addresses_nodup|rewrite list_lookup_fmap, Hi; done|].
    by rewrite list_lookup_fmap, Hj; simpl; rewrite Ha.
  - unfold findCSR in E. eapply find_none in E; [|by apply list_elem_of_In]. by rewrite Z.eqb_refl in E.
Qed.

(** A writable or write-ignored row never both; a writable row is warp-scoped. *)
Definition csr_row_wf (e : CSREntry) : bool :=
  negb (csr_Writable e && csr_WriteIgnored e)
  && (negb (csr_Writable e) || (csr_Scope e ==. CSRScopeWarp))
  && (negb (csr_WriteIgnored e) || (csr_Scope e ==. CSRScopeConstant) && (csr_WriteMask e =? 0))
  && (csr_Address e >=? 0) && (csr_Address e <? 4096).

Lemma csrCatalog_wf : forallb csr_row_wf csrCatalog = true.
Proof. vm_compute. reflexivity. Qed.
