(* ===== verification/Custom.v ===== *)
(** * Vortex custom/SIMT instructions (src/isa/custom.go)

    The stateless evaluator of the warp-control, cross-lane, barrier and
    packed-load instructions, and the completion of packed loads, whole or one
    element at a time.  The theorems: which decoded custom instructions can be
    refused, SPLIT partitions the active lanes, votes and shuffles against their
    lane-set meaning, and packed-load parts assemble the whole value. *)

From S2P Require Import Prelude IsaTypes Catalog Decode Integer.

#[local] Open Scope Z_scope.
#[local] Open Scope go_scope.

(** [for e := uint8(0); e < n; e++] *)
Definition upto (n : Z) : list Z := map Z.of_nat (seq 0 (Z.to_nat n)).

Definition popCount (mask : LaneMask) : Z :=
  fold4 (fun count lane => if LaneMask_Active mask lane then u8 (count + 1) else count) 0.

(** The lanes selected by [p], in the order of the source's lane loops. *)
Definition select_lanes (p : Z -> bool) : LaneMask :=
  fold4 (fun selected lane => if p lane then u8 (selected .| (1 << lane)) else selected) 0.

(** The condition bit of one lane of PRED and SPLIT. *)
Definition lane_condition (d : Decoded) (input : CustomInput) (lane : Z) : bool :=
  LaneMask_Active (ci_ActiveMask input) lane &&
  negb (Bool.eqb (qget (ci_RS1 input) lane .& 1 <>? 0) (d_ConditionNegated d)).

Definition voteMasks (input : CustomInput) : LaneMask * LaneMask :=
  fold4 (fun '(trueMask, falseMask) lane =>
    if negb (LaneMask_Active (ci_ActiveMask input) lane) then (trueMask, falseMask)
    else if qget (ci_RS1 input) lane .& 1 <>? 0 then (u8 (trueMask .| (1 << lane)), falseMask)
    else (trueMask, u8 (falseMask .| (1 << lane)))) (0, 0).

Definition voteValue (name : string) (trueMask falseMask : LaneMask) : Z :=
  if name == "vote.all" then boolWord (falseMask =? 0)
  else if name == "vote.any" then boolWord (trueMask <>? 0)
  else if name == "vote.uni" then boolWord ((trueMask =? 0) || (falseMask =? 0))
  else if name == "vote.ballot" then trueMask
  else 0.

Definition shflTarget (name : string) (lane rs2 : Z) : Z :=
  let bval := u8 (rs2 .& 3) in
  let cval := u8 ((rs2 >> 6) .& 3) in
  let mask := u8 ((rs2 >> 12) .& 3) in
  let minLane := lane .& mask in
  let maxLane := minLane .| (cval .& ((0xff .^ mask) .& 3)) in
  if name == "shfl.up" then
    if (lane >=? bval) && (u8 (lane - bval) >=? minLane) then u8 (lane - bval) else lane
  else if name == "shfl.down" then
    let candidate := u16 (lane + bval) in
    if candidate <=? maxLane then u8 candidate else lane
  else if name == "shfl.bfly" then
    let candidate := lane .^ bval in
    if candidate <=? maxLane then candidate else lane
  else if name == "shfl.idx" then
    let candidate := minLane .| (bval .& ((0xff .^ mask) .& 3)) in
    if candidate <=? maxLane then candidate else lane
  else lane.

Definition evaluateCrossLane (d : Decoded) (input : CustomInput) : result InstructionEffects :=
  let effects := with_Control (sequentialControl (ci_PC input)) no_effects in
  let active := ci_ActiveMask input in
  let name := d_Name d in
  if (name == "vote.all") || (name == "vote.any") || (name == "vote.uni") || (name == "vote.ballot") then
    let '(trueMask, falseMask) := voteMasks input in
    Ok (appendRegisterWrite effects d active (filledValues (voteValue name trueMask falseMask)))
  else if (name == "shfl.up") || (name == "shfl.down") || (name == "shfl.bfly") || (name == "shfl.idx") then
    let values := qmake (fun lane =>
      if negb (LaneMask_Active active lane) then 0 else
      let target := shflTarget name lane (qget (ci_RS2 input) lane) in
      if LaneMask_Active active target then qget (ci_RS1 input) target else qget (ci_RS1 input) lane) in
    Ok (appendRegisterWrite effects d active values)
  else if name == "wgather" then
    let sourceOffset := d_GatherSourceLane d .& 3 in
    let fallback := default 0 (highestActiveLane active) in
    let source := if negb (LaneMask_Active active sourceOffset) then fallback else sourceOffset in
    let values := qmake (fun lane =>
      let k := u8 (lane - sourceOffset) .& 3 in
      if k =? 1 then qget (ci_RS1 input) source
      else if k =? 2 then qget (ci_RS2 input) source
      else if k =? 3 then qget (ci_RS3 input) source
      else 0) in
    Ok (appendRegisterWrite effects d (AllLanes .&^ (1 << sourceOffset)) values)
  else evalError d "missing cross-lane functional semantics".

Definition spawnTargets (count warpID : Z) : WarpMask :=
  fold4 (fun targets warp => if (warp <? count) && (warp <>? warpID) then u8 (targets .| (1 << warp)) else targets) 0.

Definition splitEffects (d : Decoded) (input : CustomInput) : result InstructionEffects :=
  let pointer := dv_WritePointer (ci_Divergence input) in
  check negb (pointer >=? 4) else EvaluationError (d_Name d) "divergence write pointer exceeds frozen encoding" in
  let thenMask := select_lanes (lane_condition d input) in
  let elseMask := ci_ActiveMask input .&^ thenMask in
  let divergent := (thenMask <>? 0) && (elseMask <>? 0) in
  let '(executeMask, deferredMask) :=
    if popCount thenMask >? popCount elseMask then (elseMask, thenMask) else (thenMask, elseMask) in
  let effects := with_Divergence
    (Some (mkDivergenceEffect DivergenceSplit (ci_WarpID input) pointer divergent (ci_ActiveMask input)
             executeMask deferredMask (u32 (ci_PC input + 4)) divergent false false))
    (with_Control (sequentialControl (ci_PC input)) no_effects) in
  let effects :=
    if divergent
    then with_WarpMasks [mkWarpMaskEffect (ci_WarpID input) WarpMaskSplit executeMask true] effects else effects in
  Ok (appendRegisterWrite effects d (ci_ActiveMask input) (filledValues pointer)).

Definition joinEffects (d : Decoded) (input : CustomInput) (decisionLane : Z) : result InstructionEffects :=
  let effects := with_Control (sequentialControl (ci_PC input)) no_effects in
  let pointer := u8 (qget (ci_RS1 input) decisionLane .& 3) in
  let join original execute pc mark pop :=
    mkDivergenceEffect DivergenceJoin (ci_WarpID input) pointer (pointer <>? dv_WritePointer (ci_Divergence input))
      original execute 0 pc false mark pop in
  if pointer =? dv_WritePointer (ci_Divergence input) then
    Ok (with_Divergence (Some (join (ci_ActiveMask input) 0 0 false false)) effects)
  else
    let record := dv_Record (ci_Divergence input) in
    check negb (negb (drv_Valid record) || (drv_Pointer record <>? pointer) ||
                negb (LaneMask_Valid (drv_OriginalMask record)))
      else EvaluationError (d_Name d) "JOIN requires the addressed divergence record view" in
    let original := drv_OriginalMask record in
    let masks execute := with_WarpMasks [mkWarpMaskEffect (ci_WarpID input) WarpMaskJoin execute (execute <>? 0)] in
    if drv_ElseVisited record then
      Ok (with_Divergence (Some (join original original (drv_NextPC record) false true)) (masks original effects))
    else
      let execute := original .&^ ci_ActiveMask input in
      Ok (with_Divergence (Some (join original execute (drv_NextPC record) true false))
           (masks execute
             (with_Control (Some (mkControlEffect PCReconverge (ci_PC input) (drv_NextPC record)
                                    (drv_NextPC record) true decisionLane)) effects))).

Definition barrierEffects (d : Decoded) (input : CustomInput) (decisionLane : Z) : InstructionEffects :=
  if ci_PendingLSU input then
    with_WarpDrains [mkWarpDrainEffect (ci_WarpID input) DrainLSU true false] no_effects
  else
    let rs1 := qget (ci_RS1 input) decisionLane in
    let rs2 := qget (ci_RS2 input) decisionLane in
    let kind := d_Barrier d in
    let wait := (kind ==. BarrierSync) || (kind ==. BarrierWait) in
    let arrive := (kind ==. BarrierSync) || (kind ==. BarrierArrive) in
    let event := (kind ==. BarrierArrive) && (rs2 >> 31 <>? 0) in
    let expect := u8 (rs2 .& 0x1f) in
    let barrier := {|
      be_WarpID := ci_WarpID input;
      be_AddressWarp := u8 (rs1 .& 3);
      be_ID := u8 ((rs1 >> 8) .& 7);
      be_Kind := kind;
      be_Global := rs1 >> 31 <>? 0;
      be_Sync := kind ==. BarrierSync;
      be_Arrive := if event then false else arrive;
      be_Wait := wait;
      be_ReleaseByCoordinator := wait;
      be_Event := event;
      be_ExpectCount := if event then (if expect =? 0 then 32 else expect) else 0;
      be_ParticipantCount := u8 (rs2 .& 0x1f);
      be_SizeMinusOne := u8 (u32 (rs2 - 1) .& 0x1f);
      be_Phase := if event then true else rs2 .& 1 <>? 0;
      be_DrainLSU := true |} in
    let effects :=
      with_Barriers [barrier]
        (with_WarpDrains [mkWarpDrainEffect (ci_WarpID input) DrainLSU false false]
          (with_Control (sequentialControl (ci_PC input)) no_effects)) in
    if kind ==. BarrierArrive
    then appendRegisterWrite effects d (ci_ActiveMask input) (filledValues (boolWord (ci_BarrierPhase input)))
    else effects.

Definition evaluateWarpControl (d : Decoded) (input : CustomInput) : result InstructionEffects :=
  let effects := with_Control (sequentialControl (ci_PC input)) no_effects in
  let decisionLane := default 0 (highestActiveLane (ci_ActiveMask input)) in
  let name := d_Name d in
  let warp_mask reason mask := with_WarpMasks [mkWarpMaskEffect (ci_WarpID input) reason mask (mask <>? 0)] effects in
  if name == "tmc" then
    Ok (warp_mask WarpMaskTMC (u8 (qget (ci_RS1 input) decisionLane) .& AllLanes))
  else if name == "pred" then
    let selected := select_lanes (lane_condition d input) in
    let selected := if selected =? 0 then u8 (qget (ci_RS2 input) decisionLane) .& AllLanes else selected in
    Ok (warp_mask WarpMaskPredicate selected)
  else if name == "wspawn" then
    let count := u8 (qget (ci_RS1 input) decisionLane .& 7) in
    Ok (with_WarpSpawn
          (Some (mkWarpSpawnEffect (ci_WarpID input) count (spawnTargets count (ci_WarpID input))
                   (qget (ci_RS2 input) decisionLane) 1 true (ci_MScratch input) true true)) effects)
  else if name == "split" then splitEffects d input
  else if name == "join" then joinEffects d input decisionLane
  else if (name == "bar") || (name == "bar.arrive") || (name == "bar.wait") then
    Ok (barrierEffects d input decisionLane)
  else if name == "wsync" then
    let effects := with_WarpDrains
      [mkWarpDrainEffect (ci_WarpID input) DrainPriorInstructions (ci_PendingPriorWork input) true] effects in
    Ok (if ci_PendingPriorWork input then with_Control None effects else effects)
  else evalError d "missing custom control functional semantics".

Definition packed_shape (d : Decoded) : bool :=
  ((ms_Bytes (d_Memory d) =? 1) && (ms_Packed (d_Memory d) =? 4)) ||
  ((ms_Bytes (d_Memory d) =? 2) && (ms_Packed (d_Memory d) =? 2)).

(** One iteration of the element loop of [evaluatePackedLoad]. *)
Definition packedElement (d : Decoded) (input : CustomInput) (lane : Z)
    (acc : list PackedLoadRequest * list FaultEffect) (element : Z) : list PackedLoadRequest * list FaultEffect :=
  let '(loads, faults) := acc in
  let bytes := ms_Bytes (d_Memory d) in
  let address := u32 (qget (ci_RS1 input) lane + u32 (element * qget (ci_RS2 input) lane)) in
  if address mod bytes <>? 0 then
    (loads, faults ++ [mkFaultEffect FaultLoadAddressMisaligned FaultReasonAlignment lane address bytes])
  else if match ci_Bounds input with Some b => negb (AddressBounds_contains b address bytes) | None => false end then
    (loads, faults ++ [mkFaultEffect FaultLoadAccess FaultReasonBounds lane address bytes])
  else (loads ++ [mkPackedLoadRequest lane element address (address .&^ 3) bytes], faults).

Definition packedLane (d : Decoded) (input : CustomInput)
    (acc : list PackedLoadRequest * list FaultEffect) (lane : Z) : list PackedLoadRequest * list FaultEffect :=
  if negb (LaneMask_Active (ci_ActiveMask input) lane) then acc
  else fold_left (packedElement d input lane) (upto (ms_Packed (d_Memory d))) acc.

Definition evaluatePackedLoad (d : Decoded) (input : CustomInput) : result InstructionEffects :=
  check negb ((ms_Kind (d_Memory d) !=. MemoryLoad) || negb (ms_Float (d_Memory d)) || negb (packed_shape d))
    else EvaluationError (d_Name d) "invalid packed-load metadata" in
  let '(loads, faults) := fold4 (packedLane d input) ([], []) in
  match faults with
  | [] => Ok (with_PackedLoads loads no_effects)
  | _ => Ok (with_Faults faults no_effects)
  end.

Definition EvaluateCustom (d : Decoded) (input : CustomInput) : result InstructionEffects :=
  check d_Category d == CategoryCustom
    else EvaluationError (d_Name d) "instruction is outside the Vortex custom milestone" in
  check LaneMask_Valid (ci_ActiveMask input)
    else EvaluationError (d_Name d) "active mask exceeds four frozen lanes" in
  check negb (ci_WarpID input >=? FrozenWarpCount)
    else EvaluationError (d_Name d) "warp id exceeds frozen warp count" in
  check match ci_Bounds input with Some b => AddressBounds_valid b | None => true end
    else EvaluationError (d_Name d) "invalid memory bounds view" in
  let name := d_Name d in
  if (name == "vote.all") || (name == "vote.any") || (name == "vote.uni") || (name == "vote.ballot") ||
     (name == "shfl.up") || (name == "shfl.down") || (name == "shfl.bfly") || (name == "shfl.idx") ||
     (name == "wgather") then evaluateCrossLane d input
  else if (name == "vx_packlb_f") || (name == "vx_packlh_f") then evaluatePackedLoad d input
  else evaluateWarpControl d input.

(** The loop state of [completePackedLoad]. *)
Record packing := mkPacking {
  pk_seen : quad (quad bool);
  pk_values : LaneValues;
  pk_faults : list FaultEffect
}.

Definition packResponse (d : Decoded) (st : packing) (response : PackedLoadResponse) : result packing :=
  let request := pp_Request response in
  let lane := pr_Lane request in
  let element := pr_Element request in
  check negb ((lane >=? FrozenLaneCount) || (element >=? ms_Packed (d_Memory d)) ||
              qget (qget (pk_seen st) lane) element || (pr_Width request <>? ms_Bytes (d_Memory d)))
    else EvaluationError (d_Name d) "duplicate or invalid packed-load response" in
  let seen := qset (pk_seen st) lane (qset (qget (pk_seen st) lane) element true) in
  if pp_Fault response !=. FaultNone then
    check pp_Fault response ==. FaultLoadAccess
      else EvaluationError (d_Name d) "packed-load response has incompatible fault kind" in
    let reason := if pp_Reason response ==. FaultReasonNone then FaultReasonMemoryService else pp_Reason response in
    Ok (mkPacking seen (pk_values st)
          (pk_faults st ++ [mkFaultEffect FaultLoadAccess reason lane (pr_Address request) (pr_Width request)]))
  else
    let mask := if pr_Width request =? 2 then 0xffff else 0xff in
    Ok (mkPacking seen
          (qset (pk_values st) lane
             (qget (pk_values st) lane .| u32 ((pp_Data response .& mask) << u8 (8 * pr_Width request * element))))
          (pk_faults st)).

(** The coverage loops: every lane/element seen exactly when expected. *)
Definition packed_covered (d : Decoded) (seen : quad (quad bool)) (expected : LaneMask) (part : option Z) : bool :=
  forallb (fun lane => forallb (fun element =>
      Bool.eqb (qget (qget seen lane) element)
        (LaneMask_Active expected lane && match part with None => true | Some p => element =? p end))
    (upto (ms_Packed (d_Memory d)))) (upto FrozenLaneCount).

Definition set_rw_ByteMask (mask : Z) (w : RegisterWriteEffect) : RegisterWriteEffect :=
  mkRegisterWriteEffect mask (rw_Destination w) (rw_Mask w) (rw_Values w).

(** [uint8((1<<bytes)-1) << (bytes * part)] *)
Definition partByteMask (bytes part : Z) : Z := u8 (u8 (u8 (1 << bytes) - 1) << u8 (bytes * part)).

Definition completePackedLoad (d : Decoded) (pc : Z) (expected : LaneMask) (responses : list PackedLoadResponse)
    (part : option Z) : result InstructionEffects :=
  check negb (negb (d_Category d == CategoryCustom) || (ms_Kind (d_Memory d) !=. MemoryLoad) ||
              negb (ms_Float (d_Memory d)) || negb (packed_shape d))
    else EvaluationError (d_Name d) "instruction has no completable packed load" in
  check LaneMask_Valid expected
    else EvaluationError (d_Name d) "expected packed-load mask exceeds four frozen lanes" in
  let? st := foldM (packResponse d) (mkPacking (qfill (qfill false)) (qfill 0) []) responses in
  check packed_covered d (pk_seen st) expected part
    else EvaluationError (d_Name d) "packed-load responses do not cover the expected lane/element set" in
  match pk_faults st with
  | [] =>
      let effects := with_Control (sequentialControl pc) no_effects in
      let effects := appendRegisterWrite effects d expected (pk_values st) in
      match part with
      | None => Ok effects
      | Some p =>
          let effects := with_Control None effects in
          Ok (with_RegisterWrites
                (map (set_rw_ByteMask (partByteMask (ms_Bytes (d_Memory d)) p)) (RegisterWrites effects)) effects)
      end
  | faults => Ok (with_Faults faults no_effects)
  end.

Definition CompletePackedLoad (d : Decoded) (pc : Z) (expected : LaneMask) (responses : list PackedLoadResponse) :
    result InstructionEffects := completePackedLoad d pc expected responses None.

Definition CompletePackedLoadPart (d : Decoded) (pc : Z) (expected : LaneMask) (element : Z)
    (responses : list PackedLoadResponse) : result InstructionEffects :=
  check negb (element >=? ms_Packed (d_Memory d)) else EvaluationError (d_Name d) "invalid packed-load element" in
  completePackedLoad d pc expected responses (Some element).

(** ** The evaluator on valid inputs *)

Definition bounds_ok (bounds : option AddressBounds) : bool :=
  match bounds with Some b => AddressBounds_valid b | None => true end.

(** The inputs the warp owner builds: a custom operation, a four-lane mask, one of
    the four warps, a usable memory window and a two-bit divergence pointer. *)
Record custom_input_ok (d : Decoded) (input : CustomInput) : Prop := {
  cok_category : d_Category d = CategoryCustom;
  cok_mask : mask_ok (ci_ActiveMask input);
  cok_warp : 0 <= ci_WarpID input < 4;
  cok_bounds : bounds_ok (ci_Bounds input) = true;
  cok_pointer : 0 <= dv_WritePointer (ci_Divergence input) < 4
}.

Definition is_crosslane (name : string) : bool :=
  existsb (String.eqb name) ["vote.all"; "vote.any"; "vote.uni"; "vote.ballot"; "shfl.up"; "shfl.down";
    "shfl.bfly"; "shfl.idx"; "wgather"].

Lemma EvaluateCustom_dispatch d input :
  custom_input_ok d input ->
  EvaluateCustom d input =
  if is_crosslane (d_Name d) then evaluateCrossLane d input
  else if (d_Name d == "vx_packlb_f") || (d_Name d == "vx_packlh_f") then evaluatePackedLoad d input
  else evaluateWarpControl d input.
Proof.
  intros [Hc Hm Hw Hb _]. unfold EvaluateCustom, FrozenWarpCount. rewrite Hc, (proj2 (LaneMask_Valid_spec _ (proj1 Hm)) Hm).
  destruct (Z.leb_spec 4 (ci_WarpID input)); [lia|]. unfold bounds_ok in Hb. rewrite Hb.
  unfold is_crosslane; cbn [existsb negb]. rewrite orb_false_r, !orb_assoc. reflexivity.
Qed.

(** JOIN reads the divergence record it is given and refuses a wrong one. *)
Definition join_record_missing (input : CustomInput) : bool :=
  let lane := default 0 (highestActiveLane (ci_ActiveMask input)) in
  let pointer := qget (ci_RS1 input) lane .& 3 in
  let record := dv_Record (ci_Divergence input) in
  (pointer <>? dv_WritePointer (ci_Divergence input)) &&
  negb (drv_Valid record && (drv_Pointer record =? pointer) && LaneMask_Valid (drv_OriginalMask record)).

Definition custom_row_known (e : Entry) : bool :=
  negb (e_Category e == CategoryCustom) || is_crosslane (e_Name e) ||
  existsb (String.eqb (e_Name e)) ["tmc"; "pred"; "wspawn"; "split"; "join"; "bar"; "bar.arrive"; "bar.wait"; "wsync"] ||
  (((e_Name e == "vx_packlb_f") || (e_Name e == "vx_packlh_f")) &&
   (ms_Kind (e_Memory e) ==. MemoryLoad) && ms_Float (e_Memory e) &&
   (((ms_Bytes (e_Memory e) =? 1) && (ms_Packed (e_Memory e) =? 4)) ||
    ((ms_Bytes (e_Memory e) =? 2) && (ms_Packed (e_Memory e) =? 2)))).

Lemma catalog_custom_known : forallb custom_row_known catalog = true.
Proof. vm_compute. reflexivity. Qed.

Lemma evaluateCrossLane_ok d input : is_crosslane (d_Name d) = true -> exists e, evaluateCrossLane d input = Ok e.
Proof.
  unfold is_crosslane, evaluateCrossLane. cbn [existsb]. rewrite orb_false_r. intros H.
  destruct (voteMasks input).
  repeat match goal with |- exists e, (if ?b then _ else _) = Ok e => destruct b eqn:? end; eauto.
  repeat match goal with E : _ || _ = false |- _ => apply orb_false_iff in E as [? ?] end.
  repeat match goal with E : String.eqb _ _ = false |- _ => rewrite E in H; clear E end. done.
Qed.

Lemma joinEffects_cases d input :
  let lane := default 0 (highestActiveLane (ci_ActiveMask input)) in
  (join_record_missing input = false /\ exists e, joinEffects d input lane = Ok e) \/
  (join_record_missing input = true /\
   joinEffects d input lane = Err (EvaluationError (d_Name d) "JOIN requires the addressed divergence record view")).
Proof.
  intros lane. unfold join_record_missing, joinEffects; fold lane. cbv zeta.
  rewrite (u8_id (_ .& 3)) by (pose proof (land_bounded 2 (qget (ci_RS1 input) lane) 3); unfold is_u8; lia).
  destruct (_ =? dv_WritePointer _); cbn [negb andb]; [left; eauto|].
  rewrite !negb_orb, !negb_involutive.
  destruct (_ && _); cbn [negb]; [left|right; done].
  split; [done|]. destruct (drv_ElseVisited _); eauto.
Qed.

(** On a valid input the evaluator gives effects for every decoded custom
    instruction; the single refusal is a JOIN whose pointer differs from the
    write pointer and whose divergence record is absent or belongs elsewhere. *)
Theorem EvaluateCustom_total word d input :
  Decode word = Ok d -> custom_input_ok d input ->
  (exists e, EvaluateCustom d input = Ok e) \/
  (d_Name d = "join" /\ join_record_missing input = true /\
   EvaluateCustom d input = Err (EvaluationError "join" "JOIN requires the addressed divergence record view")).
Proof.
  intros [row Hrow]%decode_from Hok. rewrite (EvaluateCustom_dispatch d input Hok).
  pose proof (decoded_row _ _ _ _ catalog_custom_known Hrow) as H. unfold custom_row_known, packed_shape in *.
  rewrite <- (df_name _ _ _ Hrow), <- (df_category _ _ _ Hrow), <- (df_memory _ _ _ Hrow) in H.
  rewrite (cok_category _ _ Hok) in H. cbn [negb] in H. change (negb (CategoryCustom == CategoryCustom)) with false in H.
  destruct (is_crosslane (d_Name d)) eqn:Hx; [left; by apply evaluateCrossLane_ok|]. cbn [orb] in H.
  destruct (_ || (d_Name d == "vx_packlh_f")) eqn:Hp.
  - left. unfold evaluatePackedLoad, packed_shape. destruct (fold4 _ _) as [loads [|f fs]];
      destruct (existsb _ _) eqn:Hn; cbn [orb andb] in H.
    2, 4: apply andb_true_iff in H as [[Hk Hf]%andb_true_iff Hs]; rewrite Hk, Hf, Hs; cbn [negb orb]; eauto.
    all: exfalso; apply orb_true_iff in Hp as [Hp|Hp]; apply String.eqb_eq in Hp; rewrite Hp in Hn; done.
  - cbn [andb] in H. unfold evaluateWarpControl. cbn [existsb] in H. rewrite !orb_false_r in H.
    destruct (d_Name d == "tmc"); [eauto|]. destruct (d_Name d == "pred"); [eauto|].
    destruct (d_Name d == "wspawn"); [eauto|].
    destruct (d_Name d == "split").
    { left. unfold splitEffects. destruct (Z.leb_spec 4 (dv_WritePointer (ci_Divergence input))).
      - pose proof (cok_pointer _ _ Hok). lia.
      - cbn [negb]. destruct (popCount _ <? _); eauto. }
    destruct (String.eqb_spec (d_Name d) "join") as [Hj|_].
    { destruct (joinEffects_cases d input) as [[_ ?]|[? Hr]]; [by left|right]. by rewrite Hr, Hj. }
    cbn [orb] in H. destruct (_ || (d_Name d == "bar.wait")) eqn:Hb; [eauto|].
    destruct (d_Name d == "wsync"); [eauto|]. rewrite orb_false_r, orb_assoc, Hb in H; done.
Qed.

Example EvaluateCustom_total_witness :
  exists d input, Decode 0x0000b00b = Ok d /\ custom_input_ok d input /\ join_record_missing input = true /\
  EvaluateCustom d input = Err (EvaluationError "join" "JOIN requires the addressed divergence record view").
Proof.
  eexists.
  exists (mkCustomInput 0x80000000 15 (qfill 1) (qfill 0) (qfill 0) 2 0
            (mkDivergenceView 2 (mkDivergenceRecordView false 0 0 0 false)) false false false None).
  split; [vm_compute; reflexivity|]. split; [by split; vm_compute|]. split; [reflexivity|].
  match goal with |- EvaluateCustom ?d ?i = _ =>
    destruct (EvaluateCustom_total 0x0000b00b d i) as [[e He]|(_ & _ & He)];
      [vm_compute; reflexivity|by split; vm_compute|by vm_compute in He|exact He] end.
Defined.

(** ** Lane selection *)

Lemma select_lanes_spec p :
  mask_ok (select_lanes p) /\ forall lane, idx4 lane -> LaneMask_Active (select_lanes p) lane = p lane.
Proof.
  unfold select_lanes, fold4. destruct (p 0) eqn:E0, (p 1) eqn:E1, (p 2) eqn:E2, (p 3) eqn:E3.
  all: split; [by vm_compute|]; intros lane [-> | [-> | [-> | ->]]]; vm_compute; congruence.
Qed.

(** Two masks with the same lanes are equal. *)
Lemma mask_ext m n :
  mask_ok m -> mask_ok n -> (forall lane, idx4 lane -> LaneMask_Active m lane = LaneMask_Active n lane) -> m = n.
Proof.
  intros Hm Hn H. apply Z.bits_inj'. intros i Hi. destruct (Z.le_gt_cases 4 i).
  - by rewrite !(testbit_above 4) by (unfold mask_ok in *; lia).
  - rewrite <- !LaneMask_Active_testbit by lia. apply H, idx4_range. lia.
Qed.

Lemma split_halves m t :
  mask_ok m -> mask_ok t -> t .&^ m = 0 ->
  let e := m .&^ t in
  t .| e = m /\ t .& e = 0 /\ popCount t + popCount e = popCount m.
Proof.
  intros Hm Ht Hs. cbv zeta.
  assert (implb (t .&^ m =? 0) ((t .| (m .&^ t) =? m) && (t .& (m .&^ t) =? 0) &&
            (popCount t + popCount (m .&^ t) =? popCount m)) = true) as H.
  { revert t Ht Hs. apply mask_cases in Hm.
    repeat (apply elem_of_cons in Hm as [->|Hm];
      [intros t Ht _; revert t Ht; apply mask_forall; vm_compute; reflexivity|]).
    by apply elem_of_nil in Hm. }
  rewrite Hs in H. cbn [implb Z.eqb] in H.
  apply andb_true_iff in H as [[H1%Z.eqb_eq H2%Z.eqb_eq]%andb_true_iff H3%Z.eqb_eq]. done.
Qed.

Lemma select_lanes_within d input :
  mask_ok (ci_ActiveMask input) -> select_lanes (lane_condition d input) .&^ ci_ActiveMask input = 0.
Proof.
  intros Hm. destruct (select_lanes_spec (lane_condition d input)) as [Hok Hl].
  apply mask_ext; [by apply mask_ok_ldiff|done|]. intros lane Hlane. pose proof (proj1 (idx4_range lane) Hlane).
  rewrite !LaneMask_Active_testbit, Z.ldiff_spec, Z.testbit_0_l by lia.
  rewrite <- !LaneMask_Active_testbit, Hl by done || lia. unfold lane_condition.
  by destruct (LaneMask_Active _ _); [rewrite andb_false_r|].
Qed.

(** SPLIT divides the active lanes into the lanes whose condition bit holds and
    the others: the two masks are disjoint, cover the active mask, the executed
    half is never the larger one, and a record is pushed (and the thread mask
    changed) exactly when both halves are nonempty.  The pushed continuation is
    the next instruction, and the old write pointer goes to the destination. *)
Theorem split_partitions d input :
  d_Name d = "split" -> custom_input_ok d input ->
  exists e s, EvaluateCustom d input = Ok e /\ Divergence e = Some s /\
  let then_ := select_lanes (lane_condition d input) in
  (de_ExecuteMask s = then_ \/ de_DeferredMask s = then_) /\
  de_ExecuteMask s .| de_DeferredMask s = ci_ActiveMask input /\
  de_ExecuteMask s .& de_DeferredMask s = 0 /\
  popCount (de_ExecuteMask s) <= popCount (de_DeferredMask s) /\
  de_Push s = (de_ExecuteMask s <>? 0) && (de_DeferredMask s <>? 0) /\
  WarpMasks e = (if de_Push s then [mkWarpMaskEffect (ci_WarpID input) WarpMaskSplit (de_ExecuteMask s) true] else []) /\
  de_OriginalMask s = ci_ActiveMask input /\ de_StackPointer s = dv_WritePointer (ci_Divergence input) /\
  de_ReconvergencePC s = u32 (ci_PC input + 4) /\ Control e = sequentialControl (ci_PC input).
Proof.
  intros Hn Hok. rewrite (EvaluateCustom_dispatch _ _ Hok). unfold evaluateWarpControl. rewrite Hn.
  change (is_crosslane "split") with false. cbn -[splitEffects select_lanes popCount u32 sequentialControl Z.eqb]. unfold splitEffects.
  destruct (Z.leb_spec 4 (dv_WritePointer (ci_Divergence input))); [pose proof (cok_pointer _ _ Hok); lia|]. cbn [negb].
  pose proof (select_lanes_within d input (cok_mask _ _ Hok)) as Hw.
  destruct (select_lanes_spec (lane_condition d input)) as [Ht _].
  destruct (split_halves _ _ (cok_mask _ _ Hok) Ht Hw) as (Hor & Hand & _).
  set (t := select_lanes (lane_condition d input)) in *. set (el := ci_ActiveMask input .&^ t) in *.
  assert (forall eff v, WarpMasks (appendRegisterWrite eff d (ci_ActiveMask input) v) = WarpMasks eff /\
            Divergence (appendRegisterWrite eff d (ci_ActiveMask input) v) = Divergence eff /\
            Control (appendRegisterWrite eff d (ci_ActiveMask input) v) = Control eff) as Hrw.
  { intros. unfold appendRegisterWrite. repeat case_match; done. }
  assert (forall (b : bool) l eff, Divergence (if b then with_WarpMasks l eff else eff) = Divergence eff) as Hif
    by (by intros []).
  destruct (Z.ltb_spec (popCount el) (popCount t)); eexists _, _; (split; [reflexivity|]);
    (split; [rewrite (proj1 (proj2 (Hrw _ _))), Hif; reflexivity|]); cbn [de_ExecuteMask de_DeferredMask de_Push
      de_OriginalMask de_StackPointer de_ReconvergencePC]; cbv zeta; rewrite (proj1 (Hrw _ _)), (proj2 (proj2 (Hrw _ _))).
  - split_and!; [by right|by rewrite Z.lor_comm|by rewrite Z.land_comm|lia|by rewrite andb_comm| |done|done|done|].
    all: by destruct (_ && _).
  - split_and!; [by left|done|done|lia|done| |done|done|done|].
    all: by destruct (_ && _).
Qed.

Definition split_example : CustomInput :=
  mkCustomInput 0x100 15 (Quad 1 0 1 1) (qfill 0) (qfill 0) 1 0
    (mkDivergenceView 2 (mkDivergenceRecordView false 0 0 0 false)) false false false None.

Example split_partitions_witness :
  exists d, Decode 0x0000a18b = Ok d /\ custom_input_ok d split_example /\
  exists e s, EvaluateCustom d split_example = Ok e /\ Divergence e = Some s /\
  de_ExecuteMask s .| de_DeferredMask s = 15 /\ de_ExecuteMask s = 2.
Proof.
  eexists. split; [vm_compute; reflexivity|]. split; [by split; vm_compute|].
  match goal with |- context [EvaluateCustom ?d ?i] =>
    destruct (split_partitions d i) as (e & s & He & Hs & _ & Hor & _); [reflexivity|by split; vm_compute|] end.
  exists e, s. split; [exact He|]. split; [exact Hs|]. split; [exact Hor|].
  vm_compute in He. apply Ok_inj in He. subst e. vm_compute in Hs. by simplify_eq.
Defined.

(** ** Votes and shuffles *)

(** The meaning of a vote over the active lanes, [bit lane] being the low bit of
    the lane's operand. *)
Definition vote_reference (name : string) (active : LaneMask) (bit : Z -> bool) : Z :=
  let ls := active_lanes active in
  if name == "vote.all" then boolWord (forallb bit ls)
  else if name == "vote.any" then boolWord (existsb bit ls)
  else if name == "vote.uni" then boolWord (forallb bit ls || forallb (fun l => negb (bit l)) ls)
  else fold_right (fun l acc => 2 ^ l + acc) 0 (List.filter bit ls).

Definition is_vote (name : string) : Prop :=
  name = "vote.all" \/ name = "vote.any" \/ name = "vote.uni" \/ name = "vote.ballot".

Definition operand_bit (values : LaneValues) (lane : Z) : bool := Z.odd (qget values lane).

Lemma land_1_odd x : (x .& 1 <>? 0) = Z.odd x.
Proof. change 1 with (Z.ones 1). rewrite Z.land_ones, Zmod_odd by lia. by destruct (Z.odd x). Qed.

(** The vote loop as a function of the operand bits alone, so that its sixteen by
    sixteen inputs can be checked by computation. *)
Definition voteMasks_of (active : LaneMask) (bit : Z -> bool) : LaneMask * LaneMask :=
  fold4 (fun '(t, f) lane =>
    if negb (LaneMask_Active active lane) then (t, f)
    else if bit lane then (u8 (t .| (1 << lane)), f) else (t, u8 (f .| (1 << lane)))) (0, 0).

Definition bool_quads : list (quad bool) :=
  let b := [false; true] in
  concat (map (fun b0 => concat (map (fun b1 => concat (map (fun b2 => map (fun b3 => Quad b0 b1 b2 b3) b) b)) b)) b).

Lemma bool_quads_all q : In q bool_quads.
Proof. destruct q as [[] [] [] []]; vm_compute; tauto. Qed.

Lemma vote_check :
  forallb (fun name => forallb (fun m => forallb (fun q =>
    let '(t, f) := voteMasks_of m (qget q) in voteValue name t f =? vote_reference name m (qget q)) bool_quads)
    [0; 1; 2; 3; 4; 5; 6; 7; 8; 9; 10; 11; 12; 13; 14; 15])
    ["vote.all"; "vote.any"; "vote.uni"; "vote.ballot"] = true.
Proof. vm_compute. reflexivity. Qed.

Lemma voteValue_reference name input :
  is_vote name -> mask_ok (ci_ActiveMask input) ->
  let '(t, f) := voteMasks input in
  voteValue name t f = vote_reference name (ci_ActiveMask input) (operand_bit (ci_RS1 input)).
Proof.
  intros Hn Hm. set (q := qmake (operand_bit (ci_RS1 input))).
  assert (voteMasks input = voteMasks_of (ci_ActiveMask input) (qget q)) as ->
    by (apply fold4_ext; intros [t f] i Hi; subst q; by rewrite land_1_odd, qget_qmake).
  assert (vote_reference name (ci_ActiveMask input) (operand_bit (ci_RS1 input)) =
          vote_reference name (ci_ActiveMask input) (qget q)) as ->.
  { unfold vote_reference, active_lanes, lanes. cbn [List.filter].
    by destruct (LaneMask_Active _ 0), (LaneMask_Active _ 1), (LaneMask_Active _ 2), (LaneMask_Active _ 3). }
  pose proof vote_check as H. rewrite forallb_forall in H.
  assert (In name ["vote.all"; "vote.any"; "vote.uni"; "vote.ballot"]) as Hin by (destruct Hn as [-> | [-> | [-> | ->]]]; simpl; tauto).
  specialize (H _ Hin). rewrite forallb_forall in H. specialize (H _ (proj1 (list_elem_of_In _ _) (mask_cases _ Hm))).
  rewrite forallb_forall in H. specialize (H _ (bool_quads_all q)).
  destruct (voteMasks_of _ _). by apply Z.eqb_eq in H.
Qed.

(** Each vote writes to every active lane the meaning of the vote over the
    active lanes: all / any / uniform low bits, or the ballot of the set bits; no
    other effect than the sequential PC. *)
Theorem vote_spec d input :
  is_vote (d_Name d) -> custom_input_ok d input ->
  EvaluateCustom d input =
  Ok (appendRegisterWrite (with_Control (sequentialControl (ci_PC input)) no_effects) d (ci_ActiveMask input)
        (filledValues (vote_reference (d_Name d) (ci_ActiveMask input) (operand_bit (ci_RS1 input))))).
Proof.
  intros Hn Hok. rewrite (EvaluateCustom_dispatch _ _ Hok).
  pose proof (voteValue_reference _ _ Hn (cok_mask _ _ Hok)) as H.
  unfold evaluateCrossLane. destruct (voteMasks input) as [t f].
  destruct Hn as [E | [E | [E | E]]]; rewrite E in *; cbn -[voteValue vote_reference sequentialControl appendRegisterWrite]; by rewrite H.
Qed.

Example vote_spec_witness :
  exists d, Decode 0x0200818b = Ok d /\ custom_input_ok d split_example /\
  EvaluateCustom d split_example =
  Ok (appendRegisterWrite (with_Control (sequentialControl 0x100) no_effects) d 15 (filledValues 0)).
Proof.
  eexists. split; [vm_compute; reflexivity|]. split; [by split; vm_compute|].
  rewrite vote_spec; [reflexivity|by left|by split; vm_compute].
Defined.

(** The lane a whole-warp shuffle names; [None] when it leaves the warp. *)
Definition shfl_reference (name : string) (lane b : Z) : option Z :=
  if name == "shfl.up" then (if b <=? lane then Some (lane - b) else None)
  else if name == "shfl.down" then (if lane + b <? 4 then Some (lane + b) else None)
  else if name == "shfl.bfly" then Some (Z.lxor lane b)
  else Some b.

Definition is_shfl (name : string) : Prop :=
  name = "shfl.up" \/ name = "shfl.down" \/ name = "shfl.bfly" \/ name = "shfl.idx".

(** The clamp and segment fields of a shuffle that ranges over the whole warp. *)
Definition whole_warp (rs2 : Z) : Prop := (rs2 >> 6) .& 3 = 3 /\ (rs2 >> 12) .& 3 = 0.

Lemma shflTarget_range name lane rs2 : is_shfl name -> idx4 lane -> idx4 (shflTarget name lane rs2).
Proof.
  intros Hn Hl%idx4_range. apply idx4_range. unfold shflTarget.
  pose proof (land_bounded 2 rs2 3 ltac:(lia) ltac:(lia)) as Hb.
  pose proof (land_bounded 2 (rs2 >> 12) 3 ltac:(lia) ltac:(lia)) as Hm.
  rewrite (u8_id (rs2 .& 3)), (u8_id ((rs2 >> 12) .& 3)) by (unfold is_u8; lia).
  revert Hb Hm. generalize (rs2 .& 3), ((rs2 >> 12) .& 3), (u8 ((rs2 >> 6) .& 3)). intros b m c Hb Hm.
  assert (forall x, 0 <= x .& ((0xff .^ m) .& 3) < 2 ^ 2) as Hx
    by (intros; apply land_bounded; [lia|]; apply land_bounded; lia).
  pose proof (lor_bounded 2 (lane .& m) _ ltac:(lia) (land_bounded 2 lane m ltac:(lia) Hm) (Hx c)).
  pose proof (lor_bounded 2 (lane .& m) _ ltac:(lia) (land_bounded 2 lane m ltac:(lia) Hm) (Hx b)).
  pose proof (lxor_bounded 2 lane b ltac:(lia) Hl Hb).
  destruct Hn as [-> | [-> | [-> | ->]]]; cbn [String.eqb Ascii.eqb Bool.eqb andb]; cbv zeta.
  - destruct (Z.leb_spec b lane); [|by simpl]. rewrite u8_id by (unfold is_u8; lia). simpl. case_match; lia.
  - rewrite (u16_id (lane + b)) by (unfold is_u16; lia). destruct (Z.leb_spec (lane + b) (lane .& m .| c .& ((255 .^ m) .& 3))); [|lia].
    rewrite u8_id by (unfold is_u8; lia). lia.
  - case_match; lia.
  - case_match; lia.
Qed.

Lemma shflTarget_whole name lane rs2 :
  is_shfl name -> idx4 lane -> whole_warp rs2 -> shflTarget name lane rs2 = default lane (shfl_reference name lane (rs2 mod 4)).
Proof.
  intros Hn Hl [Hc Hm]. unfold shflTarget. rewrite Hc, Hm, !(land_3 rs2).
  pose proof (Z.mod_pos_bound rs2 4 ltac:(lia)) as Hb. revert Hb. generalize (rs2 mod 4). intros b Hb.
  destruct Hn as [-> | [-> | [-> | ->]]], Hl as [-> | [-> | [-> | ->]]]; enum_range Hb; reflexivity.
Qed.

(** Every active lane of a shuffle receives the operand of one of the four
    lanes: of the named lane when that lane is active, of itself otherwise; over
    the whole warp the named lane is lane - b, lane + b, lane xor b or b, and the
    lane itself when that leaves the warp. *)
Theorem shfl_spec d input :
  is_shfl (d_Name d) -> custom_input_ok d input ->
  exists values,
  EvaluateCustom d input =
  Ok (appendRegisterWrite (with_Control (sequentialControl (ci_PC input)) no_effects) d (ci_ActiveMask input) values) /\
  forall lane, idx4 lane -> LaneMask_Active (ci_ActiveMask input) lane = true ->
  exists target, idx4 target /\
  (whole_warp (qget (ci_RS2 input) lane) ->
   target = default lane (shfl_reference (d_Name d) lane (qget (ci_RS2 input) lane mod 4))) /\
  qget values lane =
  qget (ci_RS1 input) (if LaneMask_Active (ci_ActiveMask input) target then target else lane).
Proof.
  intros Hn Hok. rewrite (EvaluateCustom_dispatch _ _ Hok).
  exists (qmake (fun lane =>
    if negb (LaneMask_Active (ci_ActiveMask input) lane) then 0 else
    let target := shflTarget (d_Name d) lane (qget (ci_RS2 input) lane) in
    if LaneMask_Active (ci_ActiveMask input) target then qget (ci_RS1 input) target else qget (ci_RS1 input) lane)).
  split.
  - unfold evaluateCrossLane. destruct Hn as [E | [E | [E | E]]]; rewrite E; reflexivity.
  - intros lane Hl Ha. exists (shflTarget (d_Name d) lane (qget (ci_RS2 input) lane)).
    split; [by apply shflTarget_range|]. split; [by apply shflTarget_whole|].
    rewrite qget_qmake by done. rewrite Ha. cbn [negb]. cbv zeta. by case_match.
Qed.

Example shfl_spec_witness :
  let input := mkCustomInput 0x100 7 (Quad 10 20 30 40) (qfill 0xc2) (qfill 0) 1 0
    (mkDivergenceView 2 (mkDivergenceRecordView false 0 0 0 false)) false false false None in
  exists d, Decode 0x0220d18b = Ok d /\ custom_input_ok d input /\ whole_warp 0xc2 /\
  exists values, EvaluateCustom d input =
    Ok (appendRegisterWrite (with_Control (sequentialControl 0x100) no_effects) d 7 values) /\
  qget values 0 = 30 /\ qget values 1 = 20.
Proof.
  eexists. split; [vm_compute; reflexivity|]. split; [by split; vm_compute|]. split; [by split|].
  match goal with |- context [EvaluateCustom ?d ?i] =>
    destruct (shfl_spec d i) as (v & He & Hv); [by right; left|by split; vm_compute|] end.
  exists v. split; [exact He|]. split.
  - destruct (Hv 0) as (t & _ & Ht & ->); [by left|reflexivity|]. rewrite Ht by done. reflexivity.
  - destruct (Hv 1) as (t & _ & Ht & ->); [by right; left|reflexivity|]. rewrite Ht by done. reflexivity.
Defined.

(** ** Packed loads *)

Record packed_ok (d : Decoded) : Prop := {
  po_category : d_Category d = CategoryCustom;
  po_kind : ms_Kind (d_Memory d) = MemoryLoad;
  po_float : ms_Float (d_Memory d) = true;
  po_shape : packed_shape d = true
}.

Definition part_selects (part : option Z) (element : Z) : bool :=
  match part with None => true | Some p => element =? p end.

(** The element loads of one packed load, or of one part of it. *)
Definition packed_elements (d : Decoded) (part : option Z) : list Z :=
  List.filter (part_selects part) (upto (ms_Packed (d_Memory d))).
Definition packed_keys (d : Decoded) (expected : LaneMask) (part : option Z) : list (Z * Z) :=
  concat (map (fun lane => map (pair lane) (packed_elements d part)) (active_lanes expected)).

(** The memory owner's successful answer to the element load at [key]. *)
Definition packed_response (d : Decoded) (address data : Z * Z -> Z) (key : Z * Z) : PackedLoadResponse :=
  mkPackedLoadResponse
    (mkPackedLoadRequest key.1 key.2 (address key) (address key .&^ 3) (ms_Bytes (d_Memory d)))
    (data key) FaultNone FaultReasonNone.

(** Little-endian assembly of the elements [es] of width [bytes]. *)
Definition assemble (bytes : Z) (f : Z -> Z) (es : list Z) : Z :=
  fold_right (fun e acc => ((f e .& Z.ones (8 * bytes)) << (8 * bytes * e)) .| acc) 0 es.

Definition packed_values (d : Decoded) (expected : LaneMask) (part : option Z) (data : Z * Z -> Z) : LaneValues :=
  qmake (fun lane => if LaneMask_Active expected lane
                     then assemble (ms_Bytes (d_Memory d)) (fun e => data (lane, e)) (packed_elements d part) else 0).

Lemma packed_width d : packed_ok d ->
  let w := 8 * ms_Bytes (d_Memory d) in
  (ms_Bytes (d_Memory d) = 1 /\ w = 8 /\ ms_Packed (d_Memory d) = 4) \/
  (ms_Bytes (d_Memory d) = 2 /\ w = 16 /\ ms_Packed (d_Memory d) = 2).
Proof.
  intros [_ _ _ H]. unfold packed_shape in H. cbv zeta.
  apply orb_true_iff in H as [[H1%Z.eqb_eq H2%Z.eqb_eq]%andb_true_iff|[H1%Z.eqb_eq H2%Z.eqb_eq]%andb_true_iff]; lia.
Qed.

Lemma elem_of_upto n e : e ∈ upto n <-> 0 <= e < n.
Proof.
  unfold upto. rewrite list_elem_of_In, in_map_iff. split.
  - intros (k & <- & Hk%in_seq). lia.
  - intros He. exists (Z.to_nat e). split; [lia|]. apply in_seq. lia.
Qed.

Lemma elem_of_packed_keys d expected part l e :
  (l, e) ∈ packed_keys d expected part <->
  idx4 l /\ LaneMask_Active expected l = true /\ 0 <= e < ms_Packed (d_Memory d) /\ part_selects part e = true.
Proof.
  unfold packed_keys, packed_elements. rewrite list_elem_of_In, in_concat. split.
  - intros (ks & (lane & <- & Hl)%in_map_iff & (e' & [= -> ->] & He)%in_map_iff).
    apply filter_In in Hl as [Hl Ha], He as [He Hp]. rewrite <- list_elem_of_In, elem_of_upto in He.
    split_and!; try done; try lia. simpl in Hl. unfold idx4. naive_solver.
  - intros (Hl & Ha & He & Hp). eexists. split.
    + apply in_map_iff. exists l. split; [reflexivity|]. apply filter_In. split; [|done].
      unfold lanes. destruct Hl as [-> | [-> | [-> | ->]]]; simpl; tauto.
    + apply in_map_iff. exists e. split; [done|]. apply filter_In. by rewrite <- list_elem_of_In, elem_of_upto.
Qed.

Lemma upto_NoDup n : NoDup (upto n).
Proof. unfold upto. apply NoDup_fmap_2; [intros ???; lia|]. apply NoDup_seq. Qed.

Lemma packed_keys_NoDup d expected part : NoDup (packed_keys d expected part).
Proof.
  unfold packed_keys. destruct (active_lanes_ok expected) as [Hn _]. revert Hn.
  generalize (active_lanes expected). intros ls. induction ls as [|l ls IH]; intros Hn; simpl; [constructor|].
  apply NoDup_cons in Hn as [Hl Hn]. apply NoDup_app. split_and!; [|  |by apply IH].
  - apply NoDup_fmap_2; [by intros ?? [= ->]|]. apply NoDup_ListNoDup, List.NoDup_filter, NoDup_ListNoDup, upto_NoDup.
  - intros k (e & <- & _)%list_elem_of_In%in_map_iff (ks & (l' & <- & Hl')%in_map_iff & Hk)%list_elem_of_In%in_concat.
    apply in_map_iff in Hk as (e' & [= -> ->] & _). apply Hl. by apply list_elem_of_In.
Qed.

(** The loop invariant of [completePackedLoad]: which elements were seen, and the
    bits of the values as a function of the seen elements. *)
Record packing_inv (d : Decoded) (data : Z * Z -> Z) (ks : gset (Z * Z)) (st : packing) : Prop := {
  pi_faults : pk_faults st = [];
  pi_seen : forall l e, idx4 l -> idx4 e -> qget (qget (pk_seen st) l) e = bool_decide ((l, e) ∈ ks);
  pi_values : forall l j, idx4 l -> 0 <= j ->
    let w := 8 * ms_Bytes (d_Memory d) in
    Z.testbit (qget (pk_values st) l) j = (j <? 32) && bool_decide ((l, j / w) ∈ ks) && Z.testbit (data (l, j / w)) (j mod w)
}.

Lemma div_eq_range j w e : 0 < w -> (j / w = e <-> w * e <= j < w * e + w).
Proof. intros Hw. split; [intros <-|intros H]; [|symmetry; apply Z.div_unique with (j - w * e)]; Z.div_mod_to_equations; nia. Qed.

(** The bits one element contributes. *)
Lemma element_bits x w e j :
  0 < w -> 0 <= w * e -> 0 <= j ->
  Z.testbit ((x .& Z.ones w) << (w * e)) j = bool_decide (j / w = e) && Z.testbit x (j mod w).
Proof.
  intros Hw He Hj. rewrite Z.shiftl_spec, Z.land_spec by lia.
  destruct (Z.le_gt_cases (w * e) j); [|rewrite (Z.testbit_neg_r x) by lia; rewrite bool_decide_false; [done|]; intros E;
    apply div_eq_range in E; lia].
  rewrite testbit_ones by lia. case_bool_decide as E; rewrite div_eq_range in E by lia.
  - destruct (Z.ltb_spec (j - w * e) w); [|lia]. rewrite andb_true_r. simpl. f_equal.
    apply Z.mod_unique with e; lia.
  - destruct (Z.ltb_spec (j - w * e) w); [lia|]. apply andb_false_r.
Qed.

Lemma packResponse_step d address data ks st l e :
  packed_ok d -> packing_inv d data ks st -> idx4 l -> 0 <= e < ms_Packed (d_Memory d) -> (l, e) ∉ ks ->
  exists st', packResponse d st (packed_response d address data (l, e)) = Ok st' /\
              packing_inv d data ({[(l, e)]} ∪ ks) st'.
Proof.
  intros Hd [Hf Hs Hv] Hl He Hnew. pose proof (packed_width d Hd) as Hw; cbv zeta in Hw.
  assert (idx4 e) as He4 by (apply idx4_range; lia). pose proof (proj1 (idx4_range l) Hl) as Hl4.
  unfold packResponse, packed_response, FrozenLaneCount; cbn [pp_Request pp_Fault pp_Data pr_Lane pr_Element pr_Width pr_Address fst snd].
  destruct (Z.leb_spec 4 l); [lia|]. destruct (Z.leb_spec (ms_Packed (d_Memory d)) e); [lia|].
  rewrite (Hs l e) by done. rewrite bool_decide_false by done. rewrite Z.eqb_refl. cbn [orb negb].
  eexists. split; [reflexivity|]. set (w := 8 * ms_Bytes (d_Memory d)) in *.
  split; cbn [pk_faults pk_seen pk_values]; [done| |].
  - intros l' e' Hl' He'. destruct (decide (l' = l)) as [->|Hne].
    + rewrite qget_qset_eq by done. destruct (decide (e' = e)) as [->|Hne'].
      * rewrite qget_qset_eq by done. symmetry. apply bool_decide_eq_true. set_solver.
      * rewrite qget_qset_ne by done. rewrite Hs by done. apply bool_decide_ext. set_solver.
    + rewrite qget_qset_ne by done. rewrite Hs by done. apply bool_decide_ext. set_solver.
  - intros l' j Hl' Hj. destruct (decide (l' = l)) as [->|Hne].
    2:{ rewrite qget_qset_ne by done. rewrite (Hv l' j) by done. do 2 f_equal. apply bool_decide_ext. set_solver. }
    rewrite qget_qset_eq by done. rewrite Z.lor_spec, (Hv l j), testbit_u32 by done.
    assert ((if ms_Bytes (d_Memory d) =? 2 then 0xffff else 0xff) = Z.ones w) as -> by (by destruct Hw as [(-> & -> & _)|(-> & -> & _)]).
    rewrite (u8_id (w * e)) by (unfold is_u8; destruct Hw as [(_ & -> & ?)|(_ & -> & ?)]; lia).
    rewrite element_bits by (destruct Hw as [(_ & -> & ?)|(_ & -> & ?)]; lia).
    destruct (decide (j / w = e)) as [E|E].
    + rewrite E, (bool_decide_false ((l, e) ∈ ks)), (bool_decide_true (e = e)), bool_decide_true by (done || set_solver).
      fold w. rewrite E. by destruct (j <? 32).
    + rewrite (bool_decide_false (j / w = e)) by done. rewrite andb_false_r, orb_false_r. do 2 f_equal. apply bool_decide_ext. set_solver.
Qed.

Lemma foldM_packed d address data ks keys st :
  packed_ok d -> packing_inv d data ks st -> NoDup keys ->
  (forall l e, (l, e) ∈ keys -> idx4 l /\ 0 <= e < ms_Packed (d_Memory d) /\ (l, e) ∉ ks) ->
  exists st', foldM (packResponse d) st (map (packed_response d address data) keys) = Ok st' /\
              packing_inv d data (list_to_set keys ∪ ks) st'.
Proof.
  intros Hd. revert ks st. induction keys as [|[l e] keys IH]; intros ks st Hst Hn Hk; cbn [map foldM].
  - exists st. split; [done|]. by replace (list_to_set [] ∪ ks) with ks by set_solver.
  - apply NoDup_cons in Hn as [Hnin Hn]. destruct (Hk l e ltac:(set_solver)) as (Hl & He & Hnew).
    destruct (packResponse_step d address data ks st l e Hd Hst Hl He Hnew) as (st1 & -> & Hst1). cbn [result_bind].
    destruct (IH _ _ Hst1 Hn) as (st' & Hst' & Hi).
    { intros l' e' H'. destruct (Hk l' e' ltac:(set_solver)) as (? & ? & ?). split_and!; try done; try lia.
      intros [[= -> ->]%elem_of_singleton|?]%elem_of_union; done. }
    exists st'. split; [done|]. by replace (list_to_set ((l, e) :: keys) ∪ ks) with (list_to_set keys ∪ ({[(l, e)]} ∪ ks)) by set_solver.
Qed.

Lemma packing_inv_init d data : packing_inv d data ∅ (mkPacking (qfill (qfill false)) (qfill 0) []).
Proof.
  split; cbn [pk_faults pk_seen pk_values]; [done| |].
  - intros. by rewrite !qget_qfill, bool_decide_false by set_solver.
  - intros. by rewrite qget_qfill, Z.testbit_0_l, bool_decide_false, andb_false_r by set_solver.
Qed.

Lemma assemble_bits bytes f es j :
  0 < bytes -> Forall (fun e => 0 <= e) es -> 0 <= j ->
  Z.testbit (assemble bytes f es) j = bool_decide (j / (8 * bytes) ∈ es) && Z.testbit (f (j / (8 * bytes))) (j mod (8 * bytes)).
Proof.
  intros Hb He Hj. induction es as [|e es IH]; cbn [assemble fold_right].
  - by rewrite Z.testbit_0_l.
  - apply Forall_cons in He as [He Hes]. rewrite Z.lor_spec, element_bits by nia.
    fold (assemble bytes f es). rewrite IH by done.
    destruct (decide (j / (8 * bytes) = e)) as [E|E].
    + rewrite E, (bool_decide_true (e = e)), (bool_decide_true (e ∈ e :: es)) by set_solver. cbn [andb].
      generalize (Z.testbit (f e) (j mod (8 * bytes))), (bool_decide (e ∈ es)). by intros [] [].
    + rewrite (bool_decide_false (_ = e)) by done. simpl. f_equal. apply bool_decide_ext. set_solver.
Qed.

Lemma elem_of_packed_elements d part e :
  e ∈ packed_elements d part <-> 0 <= e < ms_Packed (d_Memory d) /\ part_selects part e = true.
Proof. unfold packed_elements. by rewrite list_elem_of_In, filter_In, <- list_elem_of_In, elem_of_upto. Qed.

Lemma packing_inv_values d expected part data st ks :
  packed_ok d -> packing_inv d data ks st -> (forall k, k ∈ ks <-> k ∈ packed_keys d expected part) ->
  pk_values st = packed_values d expected part data.
Proof.
  intros Hd [_ _ Hv] Hk. apply quad_ext. intros l Hl. unfold packed_values. rewrite qget_qmake by done.
  pose proof (packed_width d Hd) as Hw; cbv zeta in Hw.
  apply Z.bits_inj'. intros j Hj. rewrite Hv by done. cbv zeta.
  set (w := 8 * ms_Bytes (d_Memory d)) in *.
  assert (bool_decide ((l, j / w) ∈ ks) =
          LaneMask_Active expected l && bool_decide (j / w ∈ packed_elements d part)) as ->.
  { apply eq_true_iff_eq. rewrite andb_true_iff, !bool_decide_eq_true, Hk, elem_of_packed_keys, elem_of_packed_elements. naive_solver. }
  assert (Forall (fun e => 0 <= e) (packed_elements d part)) as Hp
    by (apply Forall_forall; intros e He%elem_of_packed_elements; lia).
  destruct (LaneMask_Active expected l); [|by rewrite andb_false_l, andb_false_r, Z.testbit_0_l].
  rewrite assemble_bits by (done || lia). fold w.
  destruct (Z.ltb_spec j 32); [done|]. rewrite bool_decide_false; [done|].
  rewrite elem_of_packed_elements. intros [H1 _].
  destruct Hw as [(_ & Ew & Hp4)|(_ & Ew & Hp4)]; rewrite Ew, Hp4 in H1; Z.div_mod_to_equations; lia.
Qed.

Lemma packing_inv_covered d expected part data st ks :
  packed_ok d -> packing_inv d data ks st -> (forall k, k ∈ ks <-> k ∈ packed_keys d expected part) ->
  packed_covered d (pk_seen st) expected part = true.
Proof.
  intros Hd [_ Hs _] Hk. pose proof (packed_width d Hd) as Hw; cbv zeta in Hw. unfold packed_covered.
  apply forallb_forall. intros l Hl%list_elem_of_In%elem_of_upto.
  apply forallb_forall. intros e He%list_elem_of_In%elem_of_upto. unfold FrozenLaneCount in Hl.
  rewrite Hs by (apply idx4_range; lia). apply eqb_true_iff, eq_true_iff_eq.
  rewrite bool_decide_eq_true, Hk, elem_of_packed_keys, andb_true_iff, idx4_range. unfold part_selects. naive_solver.
Qed.

Lemma completePackedLoad_answers d pc expected part address data rs :
  packed_ok d -> mask_ok expected -> rs ≡ₚ map (packed_response d address data) (packed_keys d expected part) ->
  completePackedLoad d pc expected rs part =
  let effects := appendRegisterWrite (with_Control (sequentialControl pc) no_effects) d expected
                   (packed_values d expected part data) in
  Ok (match part with
      | None => effects
      | Some p => with_RegisterWrites
                    (map (set_rw_ByteMask (partByteMask (ms_Bytes (d_Memory d)) p)) (RegisterWrites effects))
                    (with_Control None effects)
      end).
Proof.
  intros Hd Hm Hp. apply Permutation_map_inv in Hp as (keys & -> & Hp).
  unfold completePackedLoad. rewrite (po_category _ Hd), (po_kind _ Hd), (po_float _ Hd), (po_shape _ Hd).
  rewrite (proj2 (LaneMask_Valid_spec _ (proj1 Hm)) Hm). cbn [negb orb String.eqb]. rewrite bool_decide_true by done.
  change (CategoryCustom == CategoryCustom) with true. cbn [negb orb].
  destruct (foldM_packed d address data ∅ keys _ Hd (packing_inv_init d data)) as (st & -> & Hst).
  { rewrite <- Hp. apply packed_keys_NoDup. }
  { intros l e Hle. rewrite <- Hp in Hle. apply elem_of_packed_keys in Hle. set_solver. }
  assert (forall k, k ∈ (list_to_set keys ∪ ∅ : gset (Z * Z)) <-> k ∈ packed_keys d expected part) as Hk.
  { intros k. rewrite Hp. set_solver. }
  cbn [result_bind]. rewrite (packing_inv_covered _ _ _ _ _ _ Hd Hst Hk), (pi_faults _ _ _ _ Hst).
  rewrite (packing_inv_values _ _ _ _ _ _ Hd Hst Hk). by destruct part.
Qed.

(** The element responses of a packed load, in any order, complete to one FPR
    write of the little-endian assembly of their elements in every active lane
    and the sequential PC; the responses of one element alone complete to a
    byte-masked write without a PC. *)
Theorem packed_load_complete d pc expected address data :
  packed_ok d -> mask_ok expected ->
  (forall rs, rs ≡ₚ map (packed_response d address data) (packed_keys d expected None) ->
   CompletePackedLoad d pc expected rs =
   Ok (appendRegisterWrite (with_Control (sequentialControl pc) no_effects) d expected
         (packed_values d expected None data))) /\
  (forall p rs, 0 <= p < ms_Packed (d_Memory d) ->
   rs ≡ₚ map (packed_response d address data) (packed_keys d expected (Some p)) ->
   exists writes, CompletePackedLoadPart d pc expected p rs = Ok (with_RegisterWrites writes no_effects) /\
   writes = map (set_rw_ByteMask (partByteMask (ms_Bytes (d_Memory d)) p))
     (RegisterWrites (appendRegisterWrite no_effects d expected (packed_values d expected (Some p) data)))).
Proof.
  intros Hd Hm. split.
  - intros rs Hp. unfold CompletePackedLoad. by rewrite (completePackedLoad_answers d pc expected None address data rs).
  - intros p rs Hr Hp. eexists. split; [|reflexivity]. unfold CompletePackedLoadPart.
    destruct (Z.leb_spec (ms_Packed (d_Memory d)) p); [lia|]. cbn [negb].
    rewrite (completePackedLoad_answers d pc expected (Some p) address data rs) by done.
    cbv zeta. unfold appendRegisterWrite. repeat case_match; done.
Qed.

Definition packlb_word : Z := 0x0820918b.
Example packed_load_complete_witness :
  exists d, Decode packlb_word = Ok d /\ packed_ok d /\
  let data k := 0x10 * k.1 + k.2 + 0xa00 in
  exists rs, CompletePackedLoad d 0x40 10 rs =
    Ok (with_Control (sequentialControl 0x40) (with_RegisterWrites
         [mkRegisterWriteEffect 0 (mkRegister Float 3) 10 (Quad 0 0x13121110 0 0x33323130)] no_effects)).
Proof.
  eexists. split; [vm_compute; reflexivity|]. split; [by split|]. cbv zeta.
  eexists. match goal with |- CompletePackedLoad ?d _ _ _ = _ =>
    rewrite (proj1 (packed_load_complete d 0x40 10 (fun _ => 0) (fun k => 0x10 * k.1 + k.2 + 0xa00) ltac:(by split) ltac:(by vm_compute)) _ (reflexivity _)) end.
  vm_compute. reflexivity.
Defined.

(** The parts of a packed load are the whole load cut into disjoint byte groups:
    the byte masks of the parts partition the four bytes of the word, and every
    byte selected by a part holds, in the part's value, the byte the whole load
    has there. *)
Theorem packed_parts_compose d expected data lane byte :
  packed_ok d -> idx4 lane -> idx4 byte ->
  let bytes := ms_Bytes (d_Memory d) in
  exists p, 0 <= p < ms_Packed (d_Memory d) /\
  (forall q, 0 <= q < ms_Packed (d_Memory d) -> Z.testbit (partByteMask bytes q) byte = (q =? p)) /\
  (qget (packed_values d expected (Some p) data) lane >> (8 * byte)) .& 0xff =
  (qget (packed_values d expected None data) lane >> (8 * byte)) .& 0xff.
Proof.
  intros Hd Hl Hbyte. cbv zeta. pose proof (packed_width d Hd) as Hw; cbv zeta in Hw.
  pose proof (proj1 (idx4_range byte) Hbyte) as Hb4.
  exists (byte / ms_Bytes (d_Memory d)). split; [|split].
  - destruct Hw as [(-> & _ & ->)|(-> & _ & ->)]; Z.div_mod_to_equations; lia.
  - intros q Hq. destruct Hw as [(Eb & _ & Ep)|(Eb & _ & Ep)]; rewrite Eb; rewrite Ep in Hq;
      enum_range Hq; destruct Hbyte as [-> | [-> | [-> | ->]]]; reflexivity.
  - unfold packed_values. rewrite !qget_qmake by done. destruct (LaneMask_Active expected lane); [|done].
    bitwise. assert (0 < ms_Bytes (d_Memory d)) by lia.
    change 0xff with (Z.ones 8). rewrite testbit_ones by lia. destruct (Z.ltb_spec i 8); [|by rewrite !andb_false_r].
    assert (forall part, Forall (fun e => 0 <= e) (packed_elements d part)) as Hp
      by (intros part; apply Forall_forall; intros e He%elem_of_packed_elements; lia).
    rewrite !assemble_bits by (done || lia). do 2 f_equal. apply bool_decide_ext.
    rewrite !elem_of_packed_elements. unfold part_selects. rewrite Z.eqb_eq.
    assert ((i + 8 * byte) / (8 * ms_Bytes (d_Memory d)) = byte / ms_Bytes (d_Memory d)); [|naive_solver].
    destruct Hw as [(-> & _)|(-> & _)]; Z.div_mod_to_equations; lia.
Qed.

Example packed_parts_compose_witness :
  exists d, Decode packlb_word = Ok d /\ packed_ok d /\
  exists p, (qget (packed_values d 15 (Some p) (fun k => 0x80 + k.2)) 2 >> 16) .& 0xff = 0x82.
Proof.
  eexists. split; [vm_compute; reflexivity|]. split; [by split|].
  match goal with |- context [packed_values ?d _ _ _] =>
    destruct (packed_parts_compose d 15 (fun k => 0x80 + k.2) 2 2) as (p & _ & _ & Hp);
      [by split|by right; right; left|by right; right; left|] end.
  exists p. change (8 * 2) with 16 in Hp. rewrite Hp. vm_compute. reflexivity.
Defined.
