(* ===== verification/Softfloat.v ===== *)
(** * The SoftFloat binding (src/support/softfloat/softfloat.go)

    Berkeley SoftFloat itself is a C library outside the repository: its entry
    points, as bridge.c exposes them, are the operations of the class
    [SoftFloatLib], and what the simulator relies on is the class
    [SoftFloatLaws].  The Go wrappers validate the rounding mode and forward;
    the mutex that serialises the library's global state carries no data. *)

From S2P Require Import Prelude.

#[local] Open Scope Z_scope.
#[local] Open Scope go_scope.

(** [type RoundingMode uint8] and [type ExceptionFlags uint8] *)
Definition RoundNearEven : Z := 0.
Definition RoundTowardZero : Z := 1.
Definition RoundDown : Z := 2.
Definition RoundUp : Z := 3.
Definition RoundNearAway : Z := 4.
Definition RoundOdd : Z := 6.

Definition ExceptionFlags : Type := Z.
Definition FlagInexact : ExceptionFlags := 1.
Definition FlagUnderflow : ExceptionFlags := 2.
Definition FlagOverflow : ExceptionFlags := 4.
Definition FlagDivideByZero : ExceptionFlags := 8.
Definition FlagInvalid : ExceptionFlags := 16.

Record Result32 := mkResult32 { r32_Bits : Z; r32_Flags : ExceptionFlags }.
Record CompareResult := mkCompareResult { cmp_Value : bool; cmp_Flags : ExceptionFlags }.

(** The C entry points of bridge.h. *)
Class SoftFloatLib := {
  sf_f32_add : Z -> Z -> Z -> Result32;
  sf_f32_sub : Z -> Z -> Z -> Result32;
  sf_f32_mul : Z -> Z -> Z -> Result32;
  sf_f32_div : Z -> Z -> Z -> Result32;
  sf_f32_sqrt : Z -> Z -> Result32;
  sf_f32_fma : Z -> Z -> Z -> Z -> Result32;
  sf_i32_to_f32 : Z -> Z -> Result32;
  sf_ui32_to_f32 : Z -> Z -> Result32;
  sf_f32_to_i32 : Z -> Z -> Result32;
  sf_f32_to_ui32 : Z -> Z -> Result32;
  sf_f32_eq : Z -> Z -> CompareResult;
  sf_f32_lt : Z -> Z -> CompareResult;
  sf_f32_le : Z -> Z -> CompareResult
}.

Section Wrappers.
Context `{SoftFloatLib}.

Definition validateRoundingMode (mode : Z) : result unit :=
  if (mode =? RoundNearEven) || (mode =? RoundTowardZero) || (mode =? RoundDown) || (mode =? RoundUp) ||
     (mode =? RoundNearAway) || (mode =? RoundOdd)
  then Ok tt else Err (Errorf "softfloat: unsupported rounding mode").

Definition F32Add (a b mode : Z) : result Result32 :=
  let? _ := validateRoundingMode mode in Ok (sf_f32_add a b mode).
Definition F32Sub (a b mode : Z) : result Result32 :=
  let? _ := validateRoundingMode mode in Ok (sf_f32_sub a b mode).
Definition F32Mul (a b mode : Z) : result Result32 :=
  let? _ := validateRoundingMode mode in Ok (sf_f32_mul a b mode).
Definition F32Div (a b mode : Z) : result Result32 :=
  let? _ := validateRoundingMode mode in Ok (sf_f32_div a b mode).
Definition F32Sqrt (a mode : Z) : result Result32 :=
  let? _ := validateRoundingMode mode in Ok (sf_f32_sqrt a mode).
Definition F32FMA (a b c mode : Z) : result Result32 :=
  let? _ := validateRoundingMode mode in Ok (sf_f32_fma a b c mode).
Definition I32ToF32 (bits mode : Z) : result Result32 :=
  let? _ := validateRoundingMode mode in Ok (sf_i32_to_f32 bits mode).
Definition UI32ToF32 (bits mode : Z) : result Result32 :=
  let? _ := validateRoundingMode mode in Ok (sf_ui32_to_f32 bits mode).
Definition F32ToI32 (bits mode : Z) : result Result32 :=
  let? _ := validateRoundingMode mode in Ok (sf_f32_to_i32 bits mode).
Definition F32ToUI32 (bits mode : Z) : result Result32 :=
  let? _ := validateRoundingMode mode in Ok (sf_f32_to_ui32 bits mode).
Definition F32Equal (a b : Z) : CompareResult := sf_f32_eq a b.
Definition F32LessThan (a b : Z) : CompareResult := sf_f32_lt a b.
Definition F32LessOrEqual (a b : Z) : CompareResult := sf_f32_le a b.
End Wrappers.

(** ** What the simulator relies on *)

Definition is_nan (x : Z) : bool := ((x / 2 ^ 23) mod 2 ^ 8 =? 255) && (x mod 2 ^ 23 <>? 0).

(** The position of a non-NaN binary32 on the real line (+0 and -0 coincide). *)
Definition f32_order (x : Z) : Z := if x <? 2 ^ 31 then x else - (x - 2 ^ 31).

Definition flags_ok (f : Z) : Prop := 0 <= f < 32.
Definition result_ok (r : Result32) : Prop := is_u32 (r32_Bits r) /\ flags_ok (r32_Flags r).

(** Results are 32-bit patterns with five exception bits (the types of bridge.h),
    and the comparisons are the IEEE-754 order on numbers. *)
Class SoftFloatLaws (L : SoftFloatLib) : Prop := {
  sf_binary_ok : forall op a b m, op ∈ [sf_f32_add; sf_f32_sub; sf_f32_mul; sf_f32_div] -> result_ok (op a b m);
  sf_unary_ok : forall op a m,
    op ∈ [sf_f32_sqrt; sf_i32_to_f32; sf_ui32_to_f32; sf_f32_to_i32; sf_f32_to_ui32] -> result_ok (op a m);
  sf_fma_ok : forall a b c m, result_ok (sf_f32_fma a b c m);
  sf_compare_ok : forall op a b, op ∈ [sf_f32_eq; sf_f32_lt; sf_f32_le] -> flags_ok (cmp_Flags (op a b));
  sf_lt_order : forall a b, is_u32 a -> is_u32 b -> is_nan a = false -> is_nan b = false ->
    cmp_Value (sf_f32_lt a b) = (f32_order a <? f32_order b)
}.

(** An instance for concrete evaluation: comparisons as IEEE-754 orders them (a NaN
    is unordered), arithmetic that returns its first operand. *)
Definition toy_compare (f : Z -> Z -> bool) (a b : Z) : CompareResult :=
  mkCompareResult (negb (is_nan a) && negb (is_nan b) && f (f32_order a) (f32_order b))
    (if is_nan a || is_nan b then FlagInvalid else 0).
#[export] Instance toy_softfloat : SoftFloatLib := {|
  sf_f32_add a b m := mkResult32 (u32 a) 0;
  sf_f32_sub a b m := mkResult32 (u32 a) 0;
  sf_f32_mul a b m := mkResult32 (u32 a) 0;
  sf_f32_div a b m := mkResult32 (u32 a) 0;
  sf_f32_sqrt a m := mkResult32 (u32 a) 0;
  sf_f32_fma a b c m := mkResult32 (u32 a) FlagInexact;
  sf_i32_to_f32 a m := mkResult32 (u32 a) 0;
  sf_ui32_to_f32 a m := mkResult32 (u32 a) 0;
  sf_f32_to_i32 a m := mkResult32 (u32 a) 0;
  sf_f32_to_ui32 a m := mkResult32 (u32 a) 0;
  sf_f32_eq := toy_compare Z.eqb;
  sf_f32_lt := toy_compare Z.ltb;
  sf_f32_le := toy_compare Z.leb |}.

#[export] Instance toy_softfloat_laws : SoftFloatLaws toy_softfloat.
Proof.
  split.
  - intros op a b m Hop. repeat (apply elem_of_cons in Hop as [->|Hop]; [split; [apply u32_range|by vm_compute]|]).
    by apply elem_of_nil in Hop.
  - intros op a m Hop. repeat (apply elem_of_cons in Hop as [->|Hop]; [split; [apply u32_range|by vm_compute]|]).
    by apply elem_of_nil in Hop.
  - intros. split; [apply u32_range|by vm_compute].
  - intros op a b Hop. repeat (apply elem_of_cons in Hop as [->|Hop];
      [cbn; unfold toy_compare; cbn [cmp_Flags]; case_match; by vm_compute|]).
    by apply elem_of_nil in Hop.
  - intros a b _ _ Ha Hb. cbn. unfold toy_compare. by rewrite Ha, Hb.
Qed.
