(* ===== verification/Float.v ===== *)
(** * Single-precision floating point (src/isa/float.go)

    The RV32F evaluator over the SoftFloat binding.  The theorems: which decoded
    RV32F instructions evaluate and what their effects look like, FMIN/FMAX
    against the IEEE-754 order, and FCLASS. *)

From S2P Require Import Prelude IsaTypes Catalog Decode Integer Custom Softfloat.

#[local] Open Scope Z_scope.
#[local] Open Scope go_scope.

Definition f32Sign : Z := 1 << 31.
Definition f32Exponent : Z := 0x7f800000.
Definition f32Fraction : Z := 0x007fffff.
Definition f32Quiet : Z := 0x00400000.
Definition f32CanonicalQ : Z := 0x7fc00000.

Definition floatNaN (bits : Z) : bool := (bits .& f32Exponent =? f32Exponent) && (bits .& f32Fraction <>? 0).
Definition floatSignalingNaN (bits : Z) : bool := floatNaN bits && (bits .& f32Quiet =? 0).

Definition floatClass (bits : Z) : Z :=
  let sign := bits .& f32Sign <>? 0 in
  let exponent := bits .& f32Exponent in
  let fraction := bits .& f32Fraction in
  if (exponent =? f32Exponent) && (fraction =? 0) then (if sign then 1 << 0 else 1 << 7)
  else if exponent =? f32Exponent then (if bits .& f32Quiet =? 0 then 1 << 8 else 1 << 9)
  else if (exponent =? 0) && (fraction =? 0) then (if sign then 1 << 3 else 1 << 4)
  else if exponent =? 0 then (if sign then 1 << 2 else 1 << 5)
  else (if sign then 1 << 1 else 1 << 6).

Definition resolveFloatRounding (d : Decoded) (frm : RoundingMode) : result Z :=
  let rounding := if d_Rounding d ==. Dynamic then frm else d_Rounding d in
  if d_Rounding d ==. RoundingNone then Ok RoundNearEven
  else match rounding with
       | RNE => Ok RoundNearEven
       | RTZ => Ok RoundTowardZero
       | RDN => Ok RoundDown
       | RUP => Ok RoundUp
       | RMM => Ok RoundNearAway
       | _ => evalError d "dynamic rounding requires a legal FRM value"
       end.

Section Evaluate.
Context `{SoftFloatLib}.

Definition floatMinMax (maximum : bool) (a b : Z) : Z * ExceptionFlags :=
  let aNaN := floatNaN a in
  let bNaN := floatNaN b in
  let flags := if floatSignalingNaN a || floatSignalingNaN b then FlagInvalid else 0 in
  if aNaN && bNaN then (f32CanonicalQ, flags)
  else if aNaN then (b, flags)
  else if bNaN then (a, flags)
  else if (u32 (a << 1) =? 0) && (u32 (b << 1) =? 0) then
    (if maximum then a .& b else a .| b, flags)
  else
    let less := F32LessThan a b in
    if maximum then (if cmp_Value less then b else a, flags)
    else (if cmp_Value less then a else b, flags).

(** [None] is [ok == false]; the error is the wrapper's. *)
Definition evaluateFloatLane (name : string) (a b c rounding : Z) : result (option (Z * ExceptionFlags)) :=
  let arith (r : result Result32) := let? x := r in Ok (Some (r32_Bits x, r32_Flags x)) in
  let value bits flags := Ok (Some (bits, flags)) in
  let compare r := Ok (Some (boolWord (cmp_Value r), cmp_Flags r)) in
  if name == "fadd.s" then arith (F32Add a b rounding)
  else if name == "fsub.s" then arith (F32Sub a b rounding)
  else if name == "fmul.s" then arith (F32Mul a b rounding)
  else if name == "fdiv.s" then arith (F32Div a b rounding)
  else if name == "fsqrt.s" then arith (F32Sqrt a rounding)
  else if name == "fmadd.s" then arith (F32FMA a b c rounding)
  else if name == "fmsub.s" then arith (F32FMA a b (c .^ f32Sign) rounding)
  else if name == "fnmsub.s" then arith (F32FMA (a .^ f32Sign) b c rounding)
  else if name == "fnmadd.s" then arith (F32FMA (a .^ f32Sign) b (c .^ f32Sign) rounding)
  else if name == "fcvt.w.s" then arith (F32ToI32 a rounding)
  else if name == "fcvt.wu.s" then arith (F32ToUI32 a rounding)
  else if name == "fcvt.s.w" then arith (I32ToF32 a rounding)
  else if name == "fcvt.s.wu" then arith (UI32ToF32 a rounding)
  else if name == "fsgnj.s" then value ((a .&^ f32Sign) .| (b .& f32Sign)) 0
  else if name == "fsgnjn.s" then value ((a .&^ f32Sign) .| ((b .^ 0xffffffff) .& f32Sign)) 0
  else if name == "fsgnjx.s" then value (a .^ (b .& f32Sign)) 0
  else if (name == "fmin.s") || (name == "fmax.s") then
    let '(bits, flags) := floatMinMax (name == "fmax.s") a b in value bits flags
  else if name == "feq.s" then compare (F32Equal a b)
  else if name == "flt.s" then compare (F32LessThan a b)
  else if name == "fle.s" then compare (F32LessOrEqual a b)
  else if name == "fclass.s" then value (floatClass a) 0
  else if (name == "fmv.x.w") || (name == "fmv.w.x") then value a 0
  else Ok None.

(** [laneErr.Error()] *)
Definition error_text (e : error) : string := match e with Errorf m => m | _ => "" end.

(** One iteration of the lane loop of [EvaluateFloat]. *)
Definition floatLane (d : Decoded) (input : FloatInput) (rounding : Z)
    (acc : LaneValues * FFlags) (lane : Z) : result (LaneValues * FFlags) :=
  let '(values, flags) := acc in
  if negb (LaneMask_Active (fi_ActiveMask input) lane) then Ok acc else
  match evaluateFloatLane (d_Name d) (qget (fi_RS1 input) lane) (qget (fi_RS2 input) lane)
          (qget (fi_RS3 input) lane) rounding with
  | Err e => evalError d (error_text e)
  | Ok None => evalError d "missing RV32F functional semantics"
  | Ok (Some (bits, laneFlags)) => Ok (qset values lane bits, flags .| laneFlags)
  end.

Definition EvaluateFloat (d : Decoded) (input : FloatInput) : result InstructionEffects :=
  check LaneMask_Valid (fi_ActiveMask input)
    else EvaluationError (d_Name d) "active mask exceeds four frozen lanes" in
  check match fi_Bounds input with Some b => AddressBounds_valid b | None => true end
    else EvaluationError (d_Name d) "invalid memory bounds view" in
  check (d_Category d == CategoryRV32F) && (d_Format d ==. FormatSingle)
    else EvaluationError (d_Name d) "instruction is outside frozen RV32F" in
  if ms_Kind (d_Memory d) !=. MemoryNone then
    check negb (negb (ms_Float (d_Memory d)) || (negb (d_Name d == "flw") && negb (d_Name d == "fsw")))
      else EvaluationError (d_Name d) "unsupported floating memory operation" in
    evaluateMemory d (mkIntegerInput (fi_PC input) (fi_ActiveMask input) (fi_RS1 input) (fi_RS2 input) (fi_Bounds input))
  else
    let? rounding := resolveFloatRounding d (fi_FRM input) in
    let? (values, flags) := foldM (floatLane d input rounding) (qfill 0, 0) lanes in
    let effects := appendRegisterWrite (with_Control (sequentialControl (fi_PC input)) no_effects) d
                     (fi_ActiveMask input) values in
    Ok (if d_Effects d .& EffectFFlags <>? 0 then with_FFlagsOf (Some (mkFFlagsEffect flags)) effects else effects).

Definition CompleteFloatMemory (d : Decoded) (pc : Z) (expected : LaneMask) (responses : list MemoryResponse) :
    result InstructionEffects :=
  check (d_Category d == CategoryRV32F) && ms_Float (d_Memory d)
    else EvaluationError (d_Name d) "instruction is not floating memory" in
  CompleteMemory d pc expected responses.
End Evaluate.

(** ** Which instructions evaluate *)

Definition float_names : list string :=
  ["fadd.s"; "fsub.s"; "fmul.s"; "fdiv.s"; "fsqrt.s"; "fmadd.s"; "fmsub.s"; "fnmsub.s"; "fnmadd.s"; "fcvt.w.s";
   "fcvt.wu.s"; "fcvt.s.w"; "fcvt.s.wu"; "fsgnj.s"; "fsgnjn.s"; "fsgnjx.s"; "fmin.s"; "fmax.s"; "feq.s"; "flt.s";
   "fle.s"; "fclass.s"; "fmv.x.w"; "fmv.w.x"].

Definition float_row_known (e : Entry) : bool :=
  negb (e_Category e == CategoryRV32F) ||
  ((e_Format e ==. FormatSingle) &&
   (if ms_Kind (e_Memory e) ==. MemoryNone then existsb (String.eqb (e_Name e)) float_names
    else ms_Float (e_Memory e) && ((e_Name e == "flw") || (e_Name e == "fsw")) && (ms_Bytes (e_Memory e) =? 4))).

Lemma catalog_float_known : forallb float_row_known catalog = true.
Proof. vm_compute. reflexivity. Qed.

Definition frm_legal (r : RoundingMode) : bool := match r with RNE | RTZ | RDN | RUP | RMM => true | _ => false end.

Lemma resolveFloatRounding_cases d frm :
  (exists m, resolveFloatRounding d frm = Ok m /\ validateRoundingMode m = Ok tt) \/
  (d_Rounding d = Dynamic /\ frm_legal frm = false /\
   resolveFloatRounding d frm = Err (EvaluationError (d_Name d) "dynamic rounding requires a legal FRM value")).
Proof.
  unfold resolveFloatRounding, evalError. destruct (d_Rounding d); simpl; try (left; eexists; split; reflexivity).
  destruct frm; simpl; first [right; by split_and! | left; eexists; split; reflexivity].
Qed.

Section Laws.
Context {L : SoftFloatLib} {HL : SoftFloatLaws L}.

Lemma arith_ok (r : Result32) : result_ok r ->
  exists bits flags, Ok (Some (r32_Bits r, r32_Flags r)) = Ok (Some (bits, flags)) /\ is_u32 bits /\ flags_ok flags.
Proof. intros [? ?]. eauto. Qed.

Lemma compare_ok (r : CompareResult) : flags_ok (cmp_Flags r) ->
  exists bits flags, Ok (Some (boolWord (cmp_Value r), cmp_Flags r)) = Ok (Some (bits, flags)) /\ is_u32 bits /\ flags_ok flags.
Proof. intros ?. do 2 eexists. split_and!; [reflexivity| |done]. unfold boolWord. case_match; auto with words. Qed.

Lemma floatMinMax_ok maximum a b : is_u32 a -> is_u32 b ->
  is_u32 (floatMinMax maximum a b).1 /\ flags_ok (floatMinMax maximum a b).2.
Proof.
  intros Ha Hb. unfold floatMinMax. cbv zeta.
  assert (flags_ok (if floatSignalingNaN a || floatSignalingNaN b then FlagInvalid else 0)) by (case_match; by vm_compute).
  repeat case_match; split; try done; simpl; auto with words; by vm_compute.
Qed.

Lemma evaluateFloatLane_ok name a b c m :
  name ∈ float_names -> validateRoundingMode m = Ok tt -> is_u32 a -> is_u32 b ->
  exists bits flags, evaluateFloatLane name a b c m = Ok (Some (bits, flags)) /\ is_u32 bits /\ flags_ok flags.
Proof.
  intros Hn Hm Ha Hb.
  assert (is_u32 f32Sign) by by vm_compute. assert (flags_ok 0) by by vm_compute.
  unfold evaluateFloatLane, F32Add, F32Sub, F32Mul, F32Div, F32Sqrt, F32FMA, F32ToI32, F32ToUI32, I32ToF32, UI32ToF32,
    F32Equal, F32LessThan, F32LessOrEqual. rewrite Hm. cbn [result_bind].
  pose proof (floatMinMax_ok false a b Ha Hb). pose proof (floatMinMax_ok true a b Ha Hb).
  repeat (apply elem_of_cons in Hn as [->|Hn];
    [cbn [String.eqb Ascii.eqb Bool.eqb orb];
     first [ apply arith_ok; first [apply sf_binary_ok; set_solver | apply sf_unary_ok; set_solver | apply sf_fma_ok]
           | apply compare_ok; apply sf_compare_ok; set_solver
           | match goal with |- context [floatMinMax ?x a b] => destruct (floatMinMax x a b) end; naive_solver
           | do 2 eexists; split_and!; [reflexivity| |done]; auto with words;
             unfold floatClass; repeat case_match; by vm_compute ]|]).
  by apply elem_of_nil in Hn.
Qed.

Lemma foldM_floatLane d input m ls values flags :
  d_Name d ∈ float_names -> validateRoundingMode m = Ok tt ->
  qforall is_u32 (fi_RS1 input) -> qforall is_u32 (fi_RS2 input) ->
  qforall is_u32 values -> flags_ok flags ->
  exists values' flags', foldM (floatLane d input m) (values, flags) ls = Ok (values', flags') /\
  qforall is_u32 values' /\ flags_ok flags'.
Proof.
  intros Hn Hm H1 H2. revert values flags. induction ls as [|l ls IH]; intros values flags Hv Hf; [eauto|].
  cbn [foldM floatLane]. destruct (LaneMask_Active (fi_ActiveMask input) l); cbn [negb]; [|by apply IH].
  destruct (evaluateFloatLane_ok (d_Name d) (qget (fi_RS1 input) l) (qget (fi_RS2 input) l) (qget (fi_RS3 input) l) m)
    as (bits & fl & -> & Hb & Hfl); [done|done|by apply qforall_get|by apply qforall_get|].
  cbn [result_bind]. apply IH; [by apply qforall_qset|]. by apply (lor_bounded 5).
Qed.

(** The three ways a decoded RV32F instruction evaluates. *)
Lemma EvaluateFloat_cases word d input :
  Decode word = Ok d -> d_Category d = CategoryRV32F ->
  mask_ok (fi_ActiveMask input) -> bounds_ok (fi_Bounds input) = true ->
  qforall is_u32 (fi_RS1 input) -> qforall is_u32 (fi_RS2 input) ->
  (ms_Kind (d_Memory d) <> MemoryNone /\ mem_width (ms_Bytes (d_Memory d)) /\
   EvaluateFloat d input = evaluateMemory d
     (mkIntegerInput (fi_PC input) (fi_ActiveMask input) (fi_RS1 input) (fi_RS2 input) (fi_Bounds input))) \/
  (exists values flags, qforall is_u32 values /\ flags_ok flags /\
   EvaluateFloat d input =
   Ok ((if d_Effects d .& EffectFFlags <>? 0 then with_FFlagsOf (Some (mkFFlagsEffect flags)) else fun e => e)
        (appendRegisterWrite (with_Control (sequentialControl (fi_PC input)) no_effects) d (fi_ActiveMask input) values))) \/
  (d_Rounding d = Dynamic /\ frm_legal (fi_FRM input) = false /\
   EvaluateFloat d input = Err (EvaluationError (d_Name d) "dynamic rounding requires a legal FRM value")).
Proof.
  intros [row Hrow]%decode_from Hc Hm Hb H1 H2.
  pose proof (decoded_row _ _ _ _ catalog_float_known Hrow) as H. unfold float_row_known in H.
  rewrite <- (df_name _ _ _ Hrow), <- (df_category _ _ _ Hrow), <- (df_memory _ _ _ Hrow), <- (df_format _ _ _ Hrow), Hc in H.
  change (negb (CategoryRV32F == CategoryRV32F)) with false in H. cbn [orb] in H. apply andb_true_iff in H as [Hf H].
  unfold EvaluateFloat. rewrite (proj2 (LaneMask_Valid_spec _ (proj1 Hm)) Hm). unfold bounds_ok in Hb. rewrite Hb, Hc, Hf.
  change (CategoryRV32F == CategoryRV32F) with true. cbn [andb].
  case_bool_decide as Hk; cbn [negb].
  - destruct (resolveFloatRounding_cases d (fi_FRM input)) as [(m & -> & Hv)|(? & ? & ->)]; [|by right; right].
    right; left. cbn [result_bind].
    apply existsb_exists in H as (n & Hn & Heq). apply String.eqb_eq in Heq as <-. apply list_elem_of_In in Hn.
    destruct (foldM_floatLane d input m lanes (qfill 0) 0 Hn Hv H1 H2) as (values & flags & -> & Hvs & Hfs);
      [by apply qforall_qfill, is_u32_0|by vm_compute|]. cbn [result_bind].
    exists values, flags. split; [done|]. split; [done|]. by destruct (d_Effects d .& EffectFFlags <>? 0).
  - left. apply andb_true_iff in H as [[-> Hn]%andb_true_iff Hw%Z.eqb_eq]. split_and!; [done|right; right; exact Hw|].
    cbn [negb orb]. rewrite <- negb_orb, Hn. done.
Qed.

(** A decoded RV32F instruction on valid inputs is a load or store, and then
    evaluates as one; or it writes a 32-bit result per active lane, advances the PC
    and accumulates five-bit flags exactly when the catalog says so; the only
    refusal is dynamic rounding with an illegal FRM. *)
Theorem EvaluateFloat_total word d input :
  Decode word = Ok d -> d_Category d = CategoryRV32F ->
  mask_ok (fi_ActiveMask input) -> bounds_ok (fi_Bounds input) = true ->
  qforall is_u32 (fi_RS1 input) -> qforall is_u32 (fi_RS2 input) ->
  (ms_Kind (d_Memory d) <> MemoryNone /\ mem_width (ms_Bytes (d_Memory d)) /\
   EvaluateFloat d input = evaluateMemory d
     (mkIntegerInput (fi_PC input) (fi_ActiveMask input) (fi_RS1 input) (fi_RS2 input) (fi_Bounds input))) \/
  (exists values flags, qforall is_u32 values /\ flags_ok flags /\
   EvaluateFloat d input =
   Ok ((if d_Effects d .& EffectFFlags <>? 0 then with_FFlagsOf (Some (mkFFlagsEffect flags)) else fun e => e)
        (appendRegisterWrite (with_Control (sequentialControl (fi_PC input)) no_effects) d (fi_ActiveMask input) values))) \/
  (d_Rounding d = Dynamic /\ frm_legal (fi_FRM input) = false /\
   EvaluateFloat d input = Err (EvaluationError (d_Name d) "dynamic rounding requires a legal FRM value")).
Proof. apply EvaluateFloat_cases. Qed.

(** ** FMIN/FMAX and FCLASS *)

Lemma exponent_field x : x .& f32Exponent = (x / 2 ^ 23) mod 2 ^ 8 * 2 ^ 23.
Proof.
  rewrite <- Z.shiftr_div_pow2, <- Z.land_ones, <- Z.shiftl_mul_pow2 by lia.
  change f32Exponent with (Z.shiftl (Z.ones 8) 23). bitwise. destruct (Z.le_gt_cases 23 i).
  - rewrite Z.shiftr_spec by lia. by replace (i - 23 + 23) with i by lia.
  - by rewrite !(Z.testbit_neg_r _ (i - 23)), andb_false_r by lia.
Qed.

Lemma exponent_max x : (x .& f32Exponent =? f32Exponent) = ((x / 2 ^ 23) mod 2 ^ 8 =? 255).
Proof. rewrite exponent_field. apply eq_true_iff_eq. rewrite !Z.eqb_eq. unfold f32Exponent. lia. Qed.
Lemma exponent_zero x : (x .& f32Exponent =? 0) = ((x / 2 ^ 23) mod 2 ^ 8 =? 0).
Proof. rewrite exponent_field. apply eq_true_iff_eq. rewrite !Z.eqb_eq. lia. Qed.
Lemma fraction_field x : x .& f32Fraction = x mod 2 ^ 23.
Proof. change f32Fraction with (Z.ones 23). by apply Z.land_ones. Qed.
Lemma quiet_field x : (x .& f32Quiet =? 0) = negb (Z.testbit x 22).
Proof. change f32Quiet with (1 << 22). rewrite <- land_pow2_testbit by lia. by rewrite negb_involutive. Qed.

Lemma floatNaN_is_nan x : floatNaN x = is_nan x.
Proof. unfold floatNaN, is_nan. by rewrite exponent_max, fraction_field. Qed.

Definition signaling (x : Z) : bool := is_nan x && negb (Z.testbit x 22).

Lemma zero_magnitude x : is_u32 x -> (u32 (x << 1) =? 0) = (f32_order x =? 0).
Proof.
  unfold is_u32, u32, f32_order. intros Hx. rewrite Z.shiftl_mul_pow2 by lia.
  apply eq_true_iff_eq. rewrite !Z.eqb_eq. destruct (Z.ltb_spec x (2 ^ 31)); Z.div_mod_to_equations; lia.
Qed.

(** FMIN and FMAX: a NaN operand yields the other operand, two NaNs the canonical
    NaN; otherwise the result is one of the operands and is the minimum or maximum
    of the IEEE-754 order, with -0 below +0; invalid is raised exactly for a
    signaling NaN. *)
Theorem floatMinMax_spec maximum a b :
  is_u32 a -> is_u32 b ->
  let r := (floatMinMax maximum a b).1 in
  (floatMinMax maximum a b).2 = (if signaling a || signaling b then FlagInvalid else 0) /\
  (is_nan a = true -> is_nan b = true -> r = f32CanonicalQ) /\
  (is_nan a = true -> is_nan b = false -> r = b) /\
  (is_nan a = false -> is_nan b = true -> r = a) /\
  (is_nan a = false -> is_nan b = false ->
   (r = a \/ r = b) /\
   f32_order r = (if maximum then Z.max else Z.min) (f32_order a) (f32_order b) /\
   (f32_order a = 0 -> f32_order b = 0 -> r = (if maximum then Z.min else Z.max) a b)).
Proof.
  intros Ha Hb. unfold floatMinMax, floatSignalingNaN. rewrite !floatNaN_is_nan, !quiet_field. fold (signaling a) (signaling b).
  cbv zeta. destruct (is_nan a) eqn:Na, (is_nan b) eqn:Nb; cbn [andb]; try (simpl; split_and!; done).
  rewrite !zero_magnitude by done. unfold F32LessThan. rewrite sf_lt_order by done.
  split; [by repeat case_match|]. split_and!; try done. intros _ _.
  destruct (Z.eqb_spec (f32_order a) 0) as [Ea|Ea], (Z.eqb_spec (f32_order b) 0) as [Eb|Eb]; cbn [andb].
  - assert (forall x, is_u32 x -> f32_order x = 0 -> x = 0 \/ x = 2 ^ 31) as Hz
      by (unfold f32_order, is_u32; intros x Hx; destruct (Z.ltb_spec x (2 ^ 31)); lia).
    destruct (Hz a Ha Ea) as [-> | ->], (Hz b Hb Eb) as [-> | ->], maximum; vm_compute; by eauto.
  - destruct maximum, (Z.ltb_spec (f32_order a) (f32_order b)); cbn [fst]; split_and!; lia || tauto.
  - destruct maximum, (Z.ltb_spec (f32_order a) (f32_order b)); cbn [fst]; split_and!; lia || tauto.
  - destruct maximum, (Z.ltb_spec (f32_order a) (f32_order b)); cbn [fst]; split_and!; lia || tauto.
Qed.
End Laws.

Example EvaluateFloat_total_witness :
  let input := mkFloatInput 0x20 15 (qfill 0x3f800000) (qfill 0x40000000) (qfill 0) RoundingNone None in
  exists d, Decode 0x00207053 = Ok d /\ d_Rounding d = Dynamic /\
  EvaluateFloat d input = Err (EvaluationError "fadd.s" "dynamic rounding requires a legal FRM value").
Proof.
  eexists. split; [vm_compute; reflexivity|]. split; [reflexivity|].
  match goal with |- EvaluateFloat ?d ?i = _ =>
    destruct (EvaluateFloat_total 0x00207053 d i) as [(Hk & _)|[(v & f & _ & _ & He)|(_ & _ & He)]];
      [vm_compute; reflexivity|reflexivity|by vm_compute|reflexivity|by apply qforall_qfill; vm_compute
      |by apply qforall_qfill; vm_compute|by destruct Hk|by vm_compute in He|exact He] end.
Defined.

Example floatMinMax_spec_witness :
  is_u32 0x80000000 /\ is_u32 0xbf800000 /\ is_nan 0x80000000 = false /\ is_nan 0xbf800000 = false /\
  f32_order (floatMinMax true 0x80000000 0xbf800000).1 = 0.
Proof.
  do 4 (split; [by vm_compute|]).
  destruct (floatMinMax_spec true 0x80000000 0xbf800000) as (_ & _ & _ & _ & H); [by vm_compute..|].
  destruct H as (_ & -> & _); by vm_compute.
Defined.

(** FCLASS sets exactly the bit of the operand's class: the infinities, normal,
    subnormal and zero of each sign, the signaling and the quiet NaN, read from
    the sign, exponent and fraction fields. *)
Theorem floatClass_spec x :
  let s := Z.testbit x 31 in
  let e := (x / 2 ^ 23) mod 2 ^ 8 in
  let f := x mod 2 ^ 23 in
  floatClass x =
  2 ^ (if e =? 255 then (if f =? 0 then (if s then 0 else 7) else if Z.testbit x 22 then 9 else 8)
       else if e =? 0 then (if f =? 0 then (if s then 3 else 4) else (if s then 2 else 5))
       else if s then 1 else 6).
Proof.
  cbv zeta. unfold floatClass. cbv zeta. rewrite exponent_max, exponent_zero, fraction_field, quiet_field.
  change f32Sign with (1 << 31). rewrite land_pow2_testbit by lia.
  destruct (_ =? 255); [|destruct ((x / 2 ^ 23) mod 2 ^ 8 =? 0)]; destruct (x mod 2 ^ 23 =? 0), (Z.testbit x 31), (Z.testbit x 22); reflexivity.
Qed.
