(* ===== verification/Memory.v ===== *)
(** * Functional memory (src/support/memory/memory.go, sparse.go)

    The contiguous [Memory] and the page-backed [Sparse] memory.  An operation
    that changes the object returns the new object and a result, so that what an
    error leaves behind is explicit; a read returns the bytes copied to [dst].
    Locks only serialise callers and carry no data.

    [MemoryService] is the interface the rest of the simulator sees, with its laws
    over an abstract byte map; both memories discharge it, and [Sparse] is
    bisimilar to a [Memory] with the same initial bytes. *)

From S2P Require Import Prelude.

#[local] Open Scope Z_scope.
#[local] Open Scope go_scope.

Definition addressSpaceSize : Z := 1 << 32.
(** [int(^uint(0) >> 1)] on the 64-bit targets. *)
Definition maxInt : Z := 2 ^ 63 - 1.

Definition zlen {A} (l : list A) : Z := Z.of_nat (length l).

(** [copy(data[start:start+len(src)], src)] for a range inside [data]. *)
Definition splice {A} (data : list A) (start : nat) (src : list A) : list A :=
  take start data ++ src ++ drop (start + length src) data.

(** [data[start : start+n]] *)
Definition slice {A} (data : list A) (start n : nat) : list A := take n (drop start data).

(** Go's [encoding/binary] little-endian codec for [n] bytes. *)
Definition PutUint (n : nat) (value : Z) : list Z :=
  map (fun i => u8 (value >> (8 * Z.of_nat i))) (seq 0 n).
Fixpoint Uint (bytes : list Z) : Z :=
  match bytes with [] => 0 | b :: rest => b .| (Uint rest << 8) end.

(** The validation loop shared by the two [WriteBatch] methods: [previous] holds the
    (start, end) of the entries already checked, in order. *)
Definition overlap_index (previous : list (Z * Z)) (start end_ : Z) : option nat :=
  fst <$> list_find (fun o => (start <? o.2) && (o.1 <? end_) = true) previous.

Fixpoint batch_check (checkRange : Z -> Z -> result unit) (previous : list (Z * Z))
    (writes : list (Z * list Z)) : result unit :=
  match writes with
  | [] => Ok tt
  | (address, source) :: rest =>
      let? _ := checkRange address (zlen source) in
      let start := address in
      let end_ := u64 (address + zlen source) in
      match overlap_index previous start end_ with
      | Some p => Err (ErrOverlappingWrites p (length previous))
      | None => batch_check checkRange (previous ++ [(start, end_)]) rest
      end
  end.

(** ** memory.go *)

Record Memory := mkMemory { m_data : list Z }.

Definition Memory_New (size : Z) : result Memory :=
  if (size >? addressSpaceSize) || (size >? maxInt) then Err (Errorf "invalid memory size")
  else Ok (mkMemory (replicate (Z.to_nat size) 0)).

Definition Memory_Size (m : Memory) : Z := zlen (m_data m).

Definition Memory_checkRange (m : Memory) (addr length : Z) : result unit :=
  let capacity := zlen (m_data m) in
  let start := addr in
  if (start >? capacity) || (length >? capacity - start) then Err (BoundsError addr length capacity) else Ok tt.

(** [Read(addr, dst)], [n] being [len(dst)]. *)
Definition Memory_Read (m : Memory) (addr n : Z) : result (list Z) :=
  let? _ := Memory_checkRange m addr n in Ok (slice (m_data m) (Z.to_nat addr) (Z.to_nat n)).

Definition Memory_ReadBytes (m : Memory) (addr length : Z) : result (list Z) :=
  let? _ := Memory_checkRange m addr length in
  if length >? maxInt then Err (BoundsError addr length (zlen (m_data m)))
  else Ok (slice (m_data m) (Z.to_nat addr) (Z.to_nat length)).

Definition Memory_Write (m : Memory) (addr : Z) (src : list Z) : Memory * result unit :=
  match Memory_checkRange m addr (zlen src) with
  | Err e => (m, Err e)
  | Ok _ => (mkMemory (splice (m_data m) (Z.to_nat addr) src), Ok tt)
  end.

Definition Memory_WriteBatch (m : Memory) (addresses : list Z) (sources : list (list Z)) : Memory * result unit :=
  if negb (length addresses =? length sources)%nat then
    (m, Err (Errorf "memory: atomic batch address and source counts differ"))
  else
    match batch_check (Memory_checkRange m) [] (zip addresses sources) with
    | Err e => (m, Err e)
    | Ok _ =>
        (mkMemory (fold_left (fun data '(address, source) => splice data (Z.to_nat address) source)
                     (zip addresses sources) (m_data m)), Ok tt)
    end.

Definition Memory_Zero (m : Memory) (addr length : Z) : Memory * result unit :=
  match Memory_checkRange m addr length with
  | Err e => (m, Err e)
  | Ok _ => (mkMemory (splice (m_data m) (Z.to_nat addr) (replicate (Z.to_nat length) 0)), Ok tt)
  end.

Definition Memory_Snapshot (m : Memory) : list Z := m_data m.

Definition Load8 (m : Memory) (addr : Z) : result Z := let? data := Memory_Read m addr 1 in Ok (Uint data).
Definition Load16 (m : Memory) (addr : Z) : result Z := let? data := Memory_Read m addr 2 in Ok (Uint data).
Definition Load32 (m : Memory) (addr : Z) : result Z := let? data := Memory_Read m addr 4 in Ok (Uint data).
Definition Store8 (m : Memory) (addr value : Z) : Memory * result unit := Memory_Write m addr [value].
Definition Store16 (m : Memory) (addr value : Z) : Memory * result unit := Memory_Write m addr (PutUint 2 value).
Definition Store32 (m : Memory) (addr value : Z) : Memory * result unit := Memory_Write m addr (PutUint 4 value).

(** ** sparse.go *)

Record Sparse := mkSparse {
  sp_capacity : Z;
  sp_pageSize : Z;
  sp_fill : quad Z;
  sp_pages : gmap Z (list Z)
}.

Definition set_sp_pages (pages : gmap Z (list Z)) (m : Sparse) : Sparse :=
  mkSparse (sp_capacity m) (sp_pageSize m) (sp_fill m) pages.

Definition NewSparse (capacity pageSize fillWord : Z) : result Sparse :=
  if (capacity =? 0) || (capacity >? addressSpaceSize) then Err (Errorf "invalid memory size")
  else if (pageSize =? 0) || (pageSize .& u32 (pageSize - 1) <>? 0) || (pageSize >? capacity) then
    Err (Errorf "memory: invalid sparse page size")
  else Ok (mkSparse capacity pageSize (qmake (fun i => u8 (fillWord >> (8 * i)))) ∅).

Definition Sparse_Size (m : Sparse) : Z := sp_capacity m.

Definition Sparse_checkRange (m : Sparse) (address length : Z) : result unit :=
  let start := address in
  if (start >? sp_capacity m) || (length >? sp_capacity m - start) then
    Err (BoundsError address length (sp_capacity m)) else Ok tt.

(** The fill pattern of the bytes [address, address+count). *)
Definition fill_bytes (m : Sparse) (address count : Z) : list Z :=
  map (fun i => qget (sp_fill m) ((address + Z.of_nat i) .& 3)) (seq 0 (Z.to_nat count)).

(** The loop of [readLocked]; each turn copies at least one byte, so the number of
    remaining bytes is enough fuel. *)
Fixpoint readLoop (fuel : nat) (m : Sparse) (address remaining : Z) : list Z :=
  match fuel with
  | O => []
  | S fuel =>
      if remaining =? 0 then [] else
      let pageIndex := address / sp_pageSize m in
      let pageOffset := address .& (sp_pageSize m - 1) in
      let count := Z.min remaining (sp_pageSize m - pageOffset) in
      (match sp_pages m !! pageIndex with
       | Some page => slice page (Z.to_nat pageOffset) (Z.to_nat count)
       | None => fill_bytes m address count
       end) ++ readLoop fuel m (u32 (address + count)) (remaining - count)
  end.

Definition readLocked (m : Sparse) (address n : Z) : list Z := readLoop (Z.to_nat n) m address n.

Definition Sparse_Read (m : Sparse) (address n : Z) : result (list Z) :=
  let? _ := Sparse_checkRange m address n in Ok (readLocked m address n).

(** [pageLocked]: the page and the memory with the page allocated. *)
Definition pageLocked (m : Sparse) (pageIndex : Z) : list Z * Sparse :=
  match sp_pages m !! pageIndex with
  | Some page => (page, m)
  | None =>
      let page := fill_bytes m (pageIndex * sp_pageSize m) (sp_pageSize m) in
      (page, set_sp_pages (<[pageIndex := page]> (sp_pages m)) m)
  end.

(** The loop of [writeLocked]; the length of the source is enough fuel. *)
Fixpoint writeLoop (fuel : nat) (m : Sparse) (address : Z) (source : list Z) : Sparse :=
  match fuel with
  | O => m
  | S fuel =>
      if zlen source =? 0 then m else
      let pageIndex := address / sp_pageSize m in
      let pageOffset := address .& (sp_pageSize m - 1) in
      let count := Z.min (zlen source) (sp_pageSize m - pageOffset) in
      let '(page, m) := pageLocked m pageIndex in
      let page := splice page (Z.to_nat pageOffset) (take (Z.to_nat count) source) in
      let m := set_sp_pages (<[pageIndex := page]> (sp_pages m)) m in
      writeLoop fuel m (u32 (address + count)) (drop (Z.to_nat count) source)
  end.

Definition writeLocked (m : Sparse) (address : Z) (source : list Z) : Sparse :=
  writeLoop (length source) m address source.

Definition Sparse_Write (m : Sparse) (address : Z) (source : list Z) : Sparse * result unit :=
  match Sparse_checkRange m address (zlen source) with
  | Err e => (m, Err e)
  | Ok _ => (writeLocked m address source, Ok tt)
  end.

Definition Sparse_WriteBatch (m : Sparse) (addresses : list Z) (sources : list (list Z)) : Sparse * result unit :=
  if negb (length addresses =? length sources)%nat then
    (m, Err (Errorf "memory: atomic batch address and source counts differ"))
  else
    match batch_check (Sparse_checkRange m) [] (zip addresses sources) with
    | Err e => (m, Err e)
    | Ok _ => (fold_left (fun m '(address, source) => writeLocked m address source) (zip addresses sources) m, Ok tt)
    end.

(** The chunk loop of [Zero]: [turns] chunks of at most 4096 bytes. *)
Fixpoint zeroLoop (turns : nat) (m : Sparse) (address remaining : Z) : Sparse :=
  match turns with
  | O => m
  | S turns =>
      if remaining =? 0 then m else
      let count := Z.min remaining 4096 in
      zeroLoop turns (writeLocked m address (replicate (Z.to_nat count) 0)) (u32 (address + count)) (remaining - count)
  end.

Definition Sparse_Zero (m : Sparse) (address length : Z) : Sparse * result unit :=
  match Sparse_checkRange m address length with
  | Err e => (m, Err e)
  | Ok _ => (zeroLoop (Z.to_nat ((length + 4095) / 4096)) m address length, Ok tt)
  end.

Definition AllocatedPages (m : Sparse) : nat := size (sp_pages m).

(** ** Byte maps *)

(** The addresses [address, address+n). *)
Definition zrange (address n : Z) : list Z := map (fun i => address + Z.of_nat i) (seq 0 (Z.to_nat n)).

(** Byte [i] of a list, 0 outside. *)
Definition byte_of (l : list Z) (i : Z) : Z := default 0 (l !! Z.to_nat i).

(** The byte map [f] after writing [src] at [address]. *)
Definition overlay (address : Z) (src : list Z) (f : Z -> Z) (a : Z) : Z :=
  if (address <=? a) && (a <? address + zlen src) then byte_of src (a - address) else f a.

Definition in_range (capacity address n : Z) : bool := (address <=? capacity) && (n <=? capacity - address).

Definition range_check (capacity address n : Z) : result unit :=
  if in_range capacity address n then Ok tt else Err (BoundsError address n capacity).

Lemma range_check_form capacity address n :
  (if (capacity <? address) || (capacity - address <? n) then Err (BoundsError address n capacity) else Ok tt) =
  range_check capacity address n.
Proof.
  unfold range_check, in_range. rewrite !(Z.ltb_antisym). by destruct (address <=? capacity), (n <=? capacity - address).
Qed.

Lemma zlen_nonneg {A} (l : list A) : 0 <= zlen l. Proof. unfold zlen. lia. Qed.

Lemma zrange_nil a n : n <= 0 -> zrange a n = [].
Proof. intros H. unfold zrange. by replace (Z.to_nat n) with 0%nat by lia. Qed.

Lemma zrange_length a n : length (zrange a n) = Z.to_nat n.
Proof. unfold zrange. by rewrite length_map, length_seq. Qed.

Lemma lookup_zrange a n i : (i < Z.to_nat n)%nat -> zrange a n !! i = Some (a + Z.of_nat i).
Proof. intros H. unfold zrange. rewrite list_lookup_fmap, lookup_seq_lt by done. done. Qed.

Lemma zrange_app a n k : 0 <= n -> 0 <= k -> zrange a (n + k) = zrange a n ++ zrange (a + n) k.
Proof.
  intros Hn Hk. unfold zrange. rewrite Z2Nat.inj_add, seq_app, map_app by lia. f_equal.
  rewrite Nat.add_0_l, <- (Nat.add_0_r (Z.to_nat n)), <- fmap_add_seq, map_map. apply map_ext. intros; lia.
Qed.

Lemma elem_of_zrange a n x : x ∈ zrange a n <-> a <= x < a + n.
Proof.
  unfold zrange. rewrite list_elem_of_In, in_map_iff. split.
  - intros (i & <- & Hi%in_seq). lia.
  - intros H. exists (Z.to_nat (x - a)). rewrite in_seq. lia.
Qed.

Lemma map_zrange_ext (f g : Z -> Z) a n :
  (forall x, a <= x < a + n -> f x = g x) -> map f (zrange a n) = map g (zrange a n).
Proof. intros H. apply map_ext_in. intros x Hx%list_elem_of_In%elem_of_zrange. by apply H. Qed.

Lemma splice_length {A} (data : list A) s src :
  (s + length src <= length data)%nat -> length (splice data s src) = length data.
Proof. intros H. unfold splice. rewrite !length_app, length_take, length_drop. lia. Qed.

Lemma lookup_splice {A} (data : list A) s src i :
  (s + length src <= length data)%nat ->
  splice data s src !! i = if decide (s <= i < s + length src)%nat then src !! (i - s)%nat else data !! i.
Proof.
  intros H. unfold splice. rewrite lookup_app.
  destruct (decide (i < s)%nat) as [Hi|Hi].
  - rewrite lookup_take_lt by done. destruct (lookup_lt_is_Some_2 data i ltac:(lia)) as [x ->].
    by rewrite decide_False by lia.
  - rewrite (lookup_ge_None_2 (take s data)) by (rewrite length_take; lia).
    rewrite length_take, Nat.min_l, lookup_app by lia.
    destruct (decide (i < s + length src)%nat) as [Hj|Hj].
    + destruct (lookup_lt_is_Some_2 src (i - s) ltac:(lia)) as [x Hx]. by rewrite Hx, decide_True by lia.
    + rewrite (lookup_ge_None_2 src) by lia. rewrite lookup_drop, decide_False by lia. f_equal. lia.
Qed.

Lemma byte_of_splice data s src a :
  0 <= s -> s + zlen src <= zlen data -> 0 <= a ->
  byte_of (splice data (Z.to_nat s) src) a = overlay s src (byte_of data) a.
Proof.
  unfold zlen. intros Hs Hl Ha. unfold overlay, byte_of, zlen. rewrite lookup_splice by lia.
  case_decide; destruct (Z.leb_spec s a), (Z.ltb_spec a (s + Z.of_nat (length src))); cbn [andb]; try lia; [|done..].
  by rewrite Z2Nat.inj_sub by lia.
Qed.

Lemma slice_bytes data s n :
  0 <= s -> 0 <= n -> s + n <= zlen data -> slice data (Z.to_nat s) (Z.to_nat n) = map (byte_of data) (zrange s n).
Proof.
  unfold zlen. intros Hs Hn Hl. apply list_eq. intros i. unfold slice. rewrite list_lookup_fmap.
  destruct (decide (i < Z.to_nat n)%nat) as [Hi|Hi].
  - rewrite lookup_take_lt, lookup_drop, lookup_zrange by done. simpl. unfold byte_of.
    replace (Z.to_nat (s + Z.of_nat i)) with (Z.to_nat s + i)%nat by lia.
    by destruct (lookup_lt_is_Some_2 data (Z.to_nat s + i) ltac:(lia)) as [x ->].
  - rewrite lookup_take_ge by lia. by rewrite lookup_ge_None_2 by (rewrite zrange_length; lia).
Qed.

(** ** The interface of a functional memory *)

Class MemoryService (M : Type) := {
  svc_size : M -> Z;
  svc_read : M -> Z -> Z -> result (list Z);
  svc_write : M -> Z -> list Z -> M * result unit;
  svc_batch : M -> list Z -> list (list Z) -> M * result unit;
  svc_zero : M -> Z -> Z -> M * result unit
}.

(** What a memory promises, over its abstract byte map [svc_byte]: reads and writes
    of the bytes in range, an unchanged object and the bounds error otherwise, and
    batches that are checked as a whole before the first byte changes. *)
Class MemoryLaws (M : Type) `{MemoryService M} := {
  svc_wf : M -> Prop;
  svc_byte : M -> Z -> Z;
  svc_size_bound : forall m, svc_wf m -> 0 <= svc_size m <= 2 ^ 32;
  svc_read_law : forall m address n, svc_wf m -> 0 <= address -> 0 <= n ->
    svc_read m address n =
    (let? _ := range_check (svc_size m) address n in Ok (map (svc_byte m) (zrange address n)));
  svc_write_law : forall m address src, svc_wf m -> 0 <= address ->
    let m' := (svc_write m address src).1 in
    (svc_write m address src).2 = range_check (svc_size m) address (zlen src) /\
    svc_wf m' /\ svc_size m' = svc_size m /\
    if in_range (svc_size m) address (zlen src)
    then forall a, 0 <= a -> svc_byte m' a = overlay address src (svc_byte m) a
    else m' = m;
  svc_batch_law : forall m addresses sources, svc_wf m -> Forall (fun a => 0 <= a) addresses ->
    length addresses = length sources ->
    let m' := (svc_batch m addresses sources).1 in
    let writes := zip addresses sources in
    (svc_batch m addresses sources).2 = batch_check (range_check (svc_size m)) [] writes /\
    svc_wf m' /\ svc_size m' = svc_size m /\
    if is_ok (batch_check (range_check (svc_size m)) [] writes)
    then forall a, 0 <= a -> svc_byte m' a = fold_left (fun f w => overlay w.1 w.2 f) writes (svc_byte m) a
    else m' = m;
  svc_zero_law : forall m address n, svc_wf m -> 0 <= address -> 0 <= n ->
    let m' := (svc_zero m address n).1 in
    (svc_zero m address n).2 = range_check (svc_size m) address n /\
    svc_wf m' /\ svc_size m' = svc_size m /\
    if in_range (svc_size m) address n
    then forall a, 0 <= a -> svc_byte m' a = overlay address (replicate (Z.to_nat n) 0) (svc_byte m) a
    else m' = m
}.

Lemma batch_check_ext c c' prev ws :
  (forall a n, c a n = c' a n) -> batch_check c prev ws = batch_check c' prev ws.
Proof.
  intros H. revert prev. induction ws as [|[a s] ws IH]; intros prev; simpl; [done|].
  rewrite H. destruct (c' a _); simpl; [|done]. case_match; [done|apply IH].
Qed.

(** Every write of a batch that passes its check is in range. *)
Lemma batch_check_range capacity prev ws :
  is_ok (batch_check (range_check capacity) prev ws) = true ->
  Forall (fun w => in_range capacity w.1 (zlen w.2) = true) ws.
Proof.
  revert prev. induction ws as [|[a s] ws IH]; intros prev; simpl; [constructor|].
  unfold range_check at 1. destruct (in_range capacity a (zlen s)) eqn:E; simpl; [|done].
  case_match; simpl; [done|]. intros Hok. constructor; [done|by eapply IH].
Qed.

Lemma in_range_spec capacity a n : in_range capacity a n = true <-> a <= capacity /\ a + n <= capacity.
Proof. unfold in_range. rewrite andb_true_iff, !Z.leb_le. lia. Qed.

Lemma overlay_ext address src f g a : f a = g a -> overlay address src f a = overlay address src g a.
Proof. intros H. unfold overlay. by case_match. Qed.

Lemma fold_overlay_ext (ws : list (Z * list Z)) f g a :
  (forall a, 0 <= a -> f a = g a) -> 0 <= a ->
  fold_left (fun f w => overlay w.1 w.2 f) ws f a = fold_left (fun f w => overlay w.1 w.2 f) ws g a.
Proof.
  revert f g. induction ws as [|w ws IH]; intros f g Hfg Ha; simpl; [by apply Hfg|].
  apply IH; [|done]. intros. by apply overlay_ext, Hfg.
Qed.

(** *** [Memory] *)

Definition Memory_wf (m : Memory) : Prop := zlen (m_data m) <= 2 ^ 32.

#[export] Instance Memory_service : MemoryService Memory := {|
  svc_size := Memory_Size; svc_read := Memory_Read; svc_write := Memory_Write; svc_batch := Memory_WriteBatch;
  svc_zero := Memory_Zero |}.

Lemma Memory_checkRange_form m address n : Memory_checkRange m address n = range_check (Memory_Size m) address n.
Proof. apply range_check_form. Qed.

Lemma fold_splice_bytes ws data :
  Forall (fun w => 0 <= w.1 /\ in_range (zlen data) w.1 (zlen w.2) = true) ws ->
  let data' := fold_left (fun data '(address, source) => splice data (Z.to_nat address) source) ws data in
  length data' = length data /\
  forall a, 0 <= a -> byte_of data' a = fold_left (fun f w => overlay w.1 w.2 f) ws (byte_of data) a.
Proof.
  revert data.
  induction ws as [|[s src] ws IH]; intros data Hw; cbn [fold_left]; [done|].
  apply Forall_cons in Hw as [[Hs Hr%in_range_spec] Hw]. cbn [fst snd] in *.
  assert (length (splice data (Z.to_nat s) src) = length data) as Hl.
  { apply splice_length. unfold zlen in *. lia. }
  destruct (IH (splice data (Z.to_nat s) src)) as [Hl' Hb]; [by unfold zlen in *; rewrite Hl|].
  split; [by rewrite Hl'|]. intros a Ha. rewrite Hb by done. apply fold_overlay_ext; [|done].
  intros. apply byte_of_splice; lia.
Qed.

#[export, refine] Instance Memory_laws : MemoryLaws Memory := {|
  svc_wf := Memory_wf; svc_byte m a := byte_of (m_data m) a |}.
Proof.
  - intros m Hm. split; [apply zlen_nonneg|exact Hm].
  - intros m address n Hm Ha Hn. simpl. unfold Memory_Read. rewrite Memory_checkRange_form. unfold range_check.
    destruct (in_range _ _ _) eqn:E; [|done]. cbn [result_bind]. f_equal. apply in_range_spec in E.
    apply slice_bytes; [done..|]. unfold Memory_Size in E. lia.
  - intros m address src Hm Ha. simpl. unfold Memory_Write. rewrite Memory_checkRange_form. unfold range_check.
    destruct (in_range _ _ _) eqn:E; [|done]. apply in_range_spec in E. unfold Memory_Size in *. cbn [fst snd m_data].
    assert (length (splice (m_data m) (Z.to_nat address) src) = length (m_data m)) as Hl
      by (apply splice_length; unfold zlen in *; lia).
    split_and!; [done| | |].
    + unfold Memory_wf, zlen in *; cbn [m_data]. by rewrite Hl.
    + unfold zlen; cbn [m_data]. by rewrite Hl.
    + intros. apply byte_of_splice; [done|lia|done].
  - intros m addresses sources Hm Ha Hlen. cbn [svc_batch svc_size Memory_service]. unfold Memory_WriteBatch.
    rewrite Hlen, Nat.eqb_refl. cbn [negb].
    rewrite (batch_check_ext (Memory_checkRange m) (range_check (Memory_Size m))) by apply Memory_checkRange_form.
    destruct (batch_check _ _ _) as [u|e] eqn:E; [|done]. destruct u. cbn [fst snd is_ok].
    pose proof (batch_check_range (Memory_Size m) [] (zip addresses sources)) as Hr. rewrite E in Hr. specialize (Hr eq_refl).
    destruct (fold_splice_bytes (zip addresses sources) (m_data m)) as [Hl Hb].
    { apply Forall_forall. intros w Hw. rewrite Forall_forall in Hr. split; [|by apply Hr].
      destruct w as [a s]. apply elem_of_zip_l in Hw. rewrite Forall_forall in Ha. by apply Ha. }
    split_and!; [done| | |exact Hb].
    + unfold Memory_wf, zlen in *; cbn [m_data]. by rewrite Hl.
    + unfold Memory_Size, zlen; cbn [m_data]. by rewrite Hl.
  - intros m address n Hm Ha Hn. simpl. unfold Memory_Zero. rewrite Memory_checkRange_form. unfold range_check.
    destruct (in_range _ _ _) eqn:E; [|done]. apply in_range_spec in E. unfold Memory_Size in *. cbn [fst snd m_data].
    assert (zlen (replicate (Z.to_nat n) 0) = n) as Hz by (unfold zlen; rewrite length_replicate; lia).
    assert (length (splice (m_data m) (Z.to_nat address) (replicate (Z.to_nat n) 0)) = length (m_data m)) as Hl
      by (apply splice_length; unfold zlen in *; rewrite length_replicate; lia).
    split_and!; [done| | |].
    + unfold Memory_wf, zlen in *; cbn [m_data]. by rewrite Hl.
    + unfold zlen; cbn [m_data]. by rewrite Hl.
    + intros. apply byte_of_splice; [done|lia|done].
Defined.

(** *** [Sparse] *)

Record Sparse_wf (m : Sparse) : Prop := {
  spw_capacity : 0 <= sp_capacity m <= 2 ^ 32;
  spw_pageSize : exists k, 0 <= k /\ sp_pageSize m = 2 ^ k;
  spw_pages : forall i page, sp_pages m !! i = Some page -> zlen page = sp_pageSize m
}.

(** The byte at [a]: in its page when the page is allocated, the fill otherwise. *)
Definition sparse_byte (m : Sparse) (a : Z) : Z :=
  match sp_pages m !! (a / sp_pageSize m) with
  | Some page => byte_of page (a mod sp_pageSize m)
  | None => qget (sp_fill m) (a .& 3)
  end.

(** A positive number with no bit in common with its predecessor is a power of two. *)
Lemma pow2_test p : 0 < p -> p .& (p - 1) = 0 -> exists k, 0 <= k /\ p = 2 ^ k.
Proof.
  intros Hp Hl. exists (Z.log2 p). split; [apply Z.log2_nonneg|].
  destruct (Z.log2_spec p Hp) as [H1 H2]. set (k := Z.log2 p) in *. assert (0 <= k) by apply Z.log2_nonneg.
  destruct (Z.eq_dec p (2 ^ k)) as [|Hne]; [done|]. exfalso.
  assert (forall y, 2 ^ k <= y < 2 ^ Z.succ k -> Z.testbit y k = true) as Hbit.
  { intros y Hy. rewrite Z.pow_succ_r in Hy by lia. apply Z.testbit_true; [lia|].
    assert (y / 2 ^ k = 1) as ->; [|done]. symmetry. apply Z.div_unique with (y - 2 ^ k); lia. }
  assert (Z.testbit (p .& (p - 1)) k = true) as Hk by (rewrite Z.land_spec, !Hbit by lia; done).
  by rewrite Hl, Z.testbit_0_l in Hk.
Qed.

Lemma page_offset ps k address : ps = 2 ^ k -> 0 <= k -> address .& (ps - 1) = address mod ps.
Proof. intros -> Hk. rewrite <- (Z.land_ones address k) by done. f_equal. rewrite Z.ones_equiv. lia. Qed.

Lemma same_page ps a x : 0 < ps -> a <= x < a + (ps - a mod ps) -> x / ps = a / ps /\ x mod ps = a mod ps + (x - a).
Proof.
  intros Hp Hx. pose proof (Z.mod_pos_bound a ps Hp).
  assert (x / ps = a / ps) as E.
  { symmetry. apply Z.div_unique with (a mod ps + (x - a)); [lia|]. pose proof (Z.div_mod a ps ltac:(lia)). lia. }
  split; [done|]. rewrite !Z.mod_eq by lia. rewrite E. lia.
Qed.

(** The bytes of one page starting at [address]. *)
Lemma page_bytes m address count :
  Sparse_wf m -> 0 <= address -> 0 <= count <= sp_pageSize m - address mod sp_pageSize m ->
  match sp_pages m !! (address / sp_pageSize m) with
  | Some page => slice page (Z.to_nat (address mod sp_pageSize m)) (Z.to_nat count)
  | None => fill_bytes m address count
  end = map (sparse_byte m) (zrange address count).
Proof.
  intros [_ (k & Hk & Hps) Hpages] Ha Hc. set (ps := sp_pageSize m) in *. assert (0 < ps) by lia.
  pose proof (Z.mod_pos_bound address ps ltac:(lia)).
  destruct (sp_pages m !! (address / ps)) as [page|] eqn:E.
  - specialize (Hpages _ _ E). rewrite slice_bytes by lia.
    unfold zrange. rewrite !map_map. apply map_ext_in. intros i [_ Hi]%in_seq.
    destruct (same_page ps address (address + Z.of_nat i)) as [E1 E2]; [lia..|].
    unfold sparse_byte. fold ps. rewrite E1, E, E2. f_equal. lia.
  - unfold fill_bytes, zrange. rewrite map_map. apply map_ext_in. intros i [_ Hi]%in_seq.
    destruct (same_page ps address (address + Z.of_nat i)) as [E1 _]; [lia..|].
    unfold sparse_byte. fold ps. by rewrite E1, E.
Qed.

Lemma readLoop_bytes fuel m address remaining :
  Sparse_wf m -> 0 <= address -> 0 <= remaining <= Z.of_nat fuel -> address + remaining <= 2 ^ 32 ->
  readLoop fuel m address remaining = map (sparse_byte m) (zrange address remaining).
Proof.
  intros Hm. pose proof (spw_pageSize m Hm) as (k & Hk & Hps).
  revert address remaining. induction fuel as [|fuel IH]; intros address remaining Ha Hr Hend; cbn [readLoop].
  - by rewrite zrange_nil by lia.
  - destruct (Z.eqb_spec remaining 0); [by rewrite zrange_nil by lia|]. cbv zeta.
    rewrite (page_offset _ _ _ Hps Hk). set (ps := sp_pageSize m) in *. assert (0 < ps) by lia.
    pose proof (Z.mod_pos_bound address ps ltac:(lia)).
    set (count := Z.min remaining (ps - address mod ps)). assert (1 <= count <= remaining) by lia.
    unfold ps at 1 2. rewrite page_bytes by (done || fold ps; lia).
    replace remaining with (count + (remaining - count)) at 2 by lia. rewrite zrange_app, map_app by lia. f_equal.
    destruct (decide (remaining = count)) as [Er|].
    { replace (remaining - count) with 0 by lia. rewrite zrange_nil by lia. by destruct fuel. }
    rewrite u32_id by (unfold is_u32; lia). apply IH; lia.
Qed.

Definition page_fill (m : Sparse) (i : Z) : list Z := fill_bytes m (i * sp_pageSize m) (sp_pageSize m).

Lemma pageLocked_form m i :
  pageLocked m i =
  (default (page_fill m i) (sp_pages m !! i),
   match sp_pages m !! i with Some _ => m | None => set_sp_pages (<[i := page_fill m i]> (sp_pages m)) m end).
Proof. unfold pageLocked. by destruct (sp_pages m !! i). Qed.

Lemma page_fill_length m i : 0 <= sp_pageSize m -> zlen (page_fill m i) = sp_pageSize m.
Proof. intros H. unfold page_fill, fill_bytes, zlen. rewrite length_map, length_seq. lia. Qed.

(** One turn of the write loop: the page's new contents. *)
Definition put_page (m : Sparse) (i : Z) (page : list Z) : Sparse := set_sp_pages (<[i := page]> (sp_pages m)) m.

Lemma writeLoop_turn m address chunk :
  Sparse_wf m -> 0 <= address -> zlen chunk <= sp_pageSize m - address mod sp_pageSize m ->
  let i := address / sp_pageSize m in
  let page := splice (default (page_fill m i) (sp_pages m !! i)) (Z.to_nat (address mod sp_pageSize m)) chunk in
  Sparse_wf (put_page m i page) /\
  forall a, 0 <= a -> sparse_byte (put_page m i page) a = overlay address chunk (sparse_byte m) a.
Proof.
  intros [Hcap (k & Hk & Hps) Hpages] Ha Hc i page. set (ps := sp_pageSize m) in *. assert (0 < ps) by lia.
  pose proof (Z.mod_pos_bound address ps ltac:(lia)) as Hmod.
  set (old := default (page_fill m i) (sp_pages m !! i)) in *.
  assert (zlen old = ps) as Hold.
  { subst old. destruct (sp_pages m !! i) eqn:E; simpl; [by eapply Hpages|]. apply page_fill_length. lia. }
  assert (forall a, 0 <= a -> a / ps = i -> byte_of old (a mod ps) = sparse_byte m a) as Hbyte.
  { intros a Ha' Hi. unfold sparse_byte. fold ps. rewrite Hi. subst old. destruct (sp_pages m !! i) as [pg|] eqn:E; simpl; [done|].
    unfold page_fill, fill_bytes, byte_of. fold ps. pose proof (Z.mod_pos_bound a ps ltac:(lia)).
    rewrite list_lookup_fmap, lookup_seq_lt by lia. simpl. do 2 f_equal.
    pose proof (Z.div_mod a ps ltac:(lia)). rewrite Hi in *. lia. }
  split.
  - split; cbn; [done|by exists k|]. intros j pg. destruct (decide (j = i)) as [->|].
    + rewrite lookup_insert_eq. intros [= <-]. unfold page, zlen in *. rewrite splice_length by lia. lia.
    + rewrite lookup_insert_ne by done. apply Hpages.
  - intros a Ha'. unfold sparse_byte at 1. cbn [put_page set_sp_pages sp_pages sp_pageSize sp_fill]. fold ps.
    destruct (decide (a / ps = i)) as [Hi|Hi].
    + rewrite Hi, lookup_insert_eq. pose proof (Z.mod_pos_bound a ps ltac:(lia)).
      unfold page. rewrite byte_of_splice by lia. unfold overlay. rewrite (Hbyte a) by done.
      assert (a = i * ps + a mod ps) by (pose proof (Z.div_mod a ps ltac:(lia)); rewrite Hi in *; lia).
      assert (address = i * ps + address mod ps) by (pose proof (Z.div_mod address ps ltac:(lia)); subst i; lia).
      destruct (Z.leb_spec address a), (Z.leb_spec (address mod ps) (a mod ps)); cbn [andb]; try lia.
      destruct (Z.ltb_spec a (address + zlen chunk)), (Z.ltb_spec (a mod ps) (address mod ps + zlen chunk)); try lia.
      f_equal. lia.
    + rewrite lookup_insert_ne by done. unfold overlay.
      destruct (Z.leb_spec address a), (Z.ltb_spec a (address + zlen chunk)); cbn [andb]; try done.
      exfalso. apply Hi. apply (same_page ps address a); lia.
Qed.

Lemma overlay_nil address f a : overlay address [] f a = f a.
Proof.
  unfold overlay, zlen. cbn [length]. destruct (Z.leb_spec address a), (Z.ltb_spec a (address + Z.of_nat 0)); cbn [andb]; lia || done.
Qed.

Lemma overlay_split address src c f a :
  0 <= c <= zlen src ->
  overlay (address + c) (drop (Z.to_nat c) src) (overlay address (take (Z.to_nat c) src) f) a = overlay address src f a.
Proof.
  intros Hc. unfold overlay, zlen in *. rewrite length_drop, length_take.
  destruct (Z.leb_spec address a), (Z.ltb_spec a (address + Z.of_nat (length src))); cbn [andb].
  - destruct (Z.leb_spec (address + c) a); cbn [andb].
    + destruct (Z.ltb_spec a (address + c + Z.of_nat (length src - Z.to_nat c))); [|lia].
      unfold byte_of. rewrite lookup_drop. do 2 f_equal. lia.
    + destruct (Z.ltb_spec a (address + Z.of_nat (Z.to_nat c `min` length src))); [|lia].
      unfold byte_of. by rewrite lookup_take_lt by lia.
  - destruct (Z.leb_spec (address + c) a), (Z.ltb_spec a (address + c + Z.of_nat (length src - Z.to_nat c)));
      cbn [andb]; try lia; by destruct (Z.ltb_spec a (address + Z.of_nat (Z.to_nat c `min` length src))); try lia.
  - destruct (Z.leb_spec (address + c) a); [lia|done].
  - destruct (Z.leb_spec (address + c) a); [lia|done].
Qed.

Lemma put_page_idem m i p p' : put_page (put_page m i p) i p' = put_page m i p'.
Proof. unfold put_page, set_sp_pages; simpl. by rewrite insert_insert_eq. Qed.

(** One turn of [writeLoop] with its page lookup resolved. *)
Lemma writeLoop_S fuel m address source :
  Sparse_wf m -> source <> [] ->
  let ps := sp_pageSize m in
  let i := address / ps in
  let count := Z.min (zlen source) (ps - address mod ps) in
  writeLoop (S fuel) m address source =
  writeLoop fuel
    (put_page m i (splice (default (page_fill m i) (sp_pages m !! i)) (Z.to_nat (address mod ps)) (take (Z.to_nat count) source)))
    (u32 (address + count)) (drop (Z.to_nat count) source).
Proof.
  intros Hm Hs. destruct (spw_pageSize m Hm) as (k & Hk & Hps). cbv zeta. cbn [writeLoop].
  destruct (Z.eqb_spec (zlen source) 0) as [E|_]; [by destruct source|]. rewrite (page_offset _ _ _ Hps Hk), pageLocked_form.
  f_equal. destruct (sp_pages m !! (address / sp_pageSize m)) as [pg|] eqn:E; simpl; [done|].
  by rewrite <- (put_page_idem m _ (page_fill m (address / sp_pageSize m))).
Qed.

Lemma writeLoop_bytes fuel m address source :
  Sparse_wf m -> 0 <= address -> (length source <= fuel)%nat -> address + zlen source <= 2 ^ 32 ->
  let m' := writeLoop fuel m address source in
  Sparse_wf m' /\ sp_capacity m' = sp_capacity m /\ sp_fill m' = sp_fill m /\
  forall a, 0 <= a -> sparse_byte m' a = overlay address source (sparse_byte m) a.
Proof.
  revert m address source. induction fuel as [|fuel IH]; intros m address source Hm Ha Hl Hend; cbv zeta.
  - destruct source; [|simpl in Hl; lia]. split_and!; try done. intros. by rewrite overlay_nil.
  - destruct (decide (source = [])) as [->|Hne].
    { simpl. split_and!; try done. intros. by rewrite overlay_nil. }
    rewrite writeLoop_S by done. set (ps := sp_pageSize m). set (count := Z.min _ _).
    destruct (spw_pageSize m Hm) as (k & Hk & Hps). fold ps in Hps. assert (0 < ps) by lia.
    pose proof (Z.mod_pos_bound address ps ltac:(lia)).
    assert (1 <= zlen source) by (unfold zlen; destruct source; [done|simpl; lia]).
    assert (1 <= count <= zlen source) by lia.
    destruct (writeLoop_turn m address (take (Z.to_nat count) source) Hm Ha) as [Hm1 Hb1].
    { unfold zlen in *. rewrite length_take. fold ps. lia. }
    fold ps in Hm1, Hb1. set (m1 := put_page _ _ _) in *.
    destruct (decide (drop (Z.to_nat count) source = [])) as [Hd|Hd].
    { rewrite Hd. assert (writeLoop fuel m1 (u32 (address + count)) [] = m1) as -> by (by destruct fuel).
      split_and!; try done. intros a Ha'. rewrite Hb1 by done.
      rewrite <- (take_drop (Z.to_nat count) source) at 2. by rewrite Hd, app_nil_r. }
    assert (count < zlen source).
    { destruct (Z.le_gt_cases (zlen source) count); [|done]. exfalso. apply Hd, drop_ge. unfold zlen in *. lia. }
    destruct (IH m1 (u32 (address + count)) (drop (Z.to_nat count) source)) as (Hm' & Hc' & Hf' & Hb'); try done.
    + apply u32_range.
    + rewrite length_drop. unfold zlen in *. lia.
    + unfold zlen in *. rewrite length_drop, u32_id by (unfold is_u32; lia). lia.
    + split_and!; [done|by rewrite Hc'|by rewrite Hf'|]. intros a Ha'. rewrite Hb' by done.
      rewrite u32_id by (unfold is_u32; lia). rewrite <- (overlay_split address source count) by lia.
      by apply overlay_ext, Hb1.
Qed.

#[export] Instance Sparse_service : MemoryService Sparse := {|
  svc_size := Sparse_Size; svc_read := Sparse_Read; svc_write := Sparse_Write; svc_batch := Sparse_WriteBatch;
  svc_zero := Sparse_Zero |}.

Lemma Sparse_checkRange_form m address n : Sparse_checkRange m address n = range_check (Sparse_Size m) address n.
Proof. apply range_check_form. Qed.

Lemma fold_writeLocked_bytes ws m :
  Sparse_wf m -> Forall (fun w => 0 <= w.1 /\ in_range (sp_capacity m) w.1 (zlen w.2) = true) ws ->
  let m' := fold_left (fun m '(address, source) => writeLocked m address source) ws m in
  Sparse_wf m' /\ sp_capacity m' = sp_capacity m /\
  forall a, 0 <= a -> sparse_byte m' a = fold_left (fun f w => overlay w.1 w.2 f) ws (sparse_byte m) a.
Proof.
  revert m.
  induction ws as [|[s src] ws IH]; intros m Hm Hw; cbn [fold_left]; [done|].
  apply Forall_cons in Hw as [[Hs Hr%in_range_spec] Hw]. cbn [fst snd] in *. pose proof (spw_capacity m Hm).
  destruct (writeLoop_bytes (length src) m s src Hm Hs) as (Hm1 & Hc1 & _ & Hb1); [done|lia|].
  fold (writeLocked m s src) in *. destruct (IH _ Hm1) as (Hm' & Hc' & Hb'); [by rewrite Hc1|].
  split_and!; [done|by rewrite Hc'|]. intros a Ha. rewrite Hb' by done. by apply fold_overlay_ext.
Qed.

Lemma overlay_zeros address c n f a :
  0 <= c <= n ->
  overlay (address + c) (replicate (Z.to_nat (n - c)) 0) (overlay address (replicate (Z.to_nat c) 0) f) a =
  overlay address (replicate (Z.to_nat n) 0) f a.
Proof.
  intros Hc. rewrite <- (overlay_split address (replicate (Z.to_nat n) 0) c)
    by (unfold zlen; rewrite length_replicate; lia).
  rewrite drop_replicate, take_replicate.
  replace (Z.to_nat n - Z.to_nat c)%nat with (Z.to_nat (n - c)) by lia.
  by replace (Z.to_nat c `min` Z.to_nat n)%nat with (Z.to_nat c) by lia.
Qed.

Lemma zeroLoop_bytes turns m address n :
  Sparse_wf m -> 0 <= address -> 0 <= n <= 4096 * Z.of_nat turns -> address + n <= 2 ^ 32 ->
  let m' := zeroLoop turns m address n in
  Sparse_wf m' /\ sp_capacity m' = sp_capacity m /\
  forall a, 0 <= a -> sparse_byte m' a = overlay address (replicate (Z.to_nat n) 0) (sparse_byte m) a.
Proof.
  revert m address n. induction turns as [|turns IH]; intros m address n Hm Ha Hn Hend; cbv zeta; cbn [zeroLoop].
  - replace n with 0 by lia. split_and!; [done..|]. intros. by rewrite overlay_nil.
  - destruct (Z.eqb_spec n 0) as [->|Hn0]; [split_and!; [done..|]; intros; by rewrite overlay_nil|].
    set (c := Z.min n 4096).
    destruct (writeLoop_bytes (length (replicate (Z.to_nat c) 0)) m address (replicate (Z.to_nat c) 0) Hm Ha)
      as (Hm1 & Hc1 & _ & Hb1); [done|unfold zlen; rewrite length_replicate; lia|].
    fold (writeLocked m address (replicate (Z.to_nat c) 0)) in *. set (m1 := writeLocked _ _ _) in *.
    destruct (decide (n = c)) as [En|En].
    { replace (n - c) with 0 by lia. rewrite En.
      assert (zeroLoop turns m1 (u32 (address + c)) 0 = m1) as -> by (by destruct turns). done. }
    rewrite u32_id by (unfold is_u32; lia).
    destruct (IH m1 (address + c) (n - c)) as (Hm' & Hc' & Hb'); [done|lia..|].
    split_and!; [done|by rewrite Hc'|]. intros a Ha'. rewrite Hb' by done.
    rewrite <- (overlay_zeros address c n) by lia. by apply overlay_ext, Hb1.
Qed.

#[export, refine] Instance Sparse_laws : MemoryLaws Sparse := {| svc_wf := Sparse_wf; svc_byte := sparse_byte |}.
Proof.
  - intros m Hm. apply (spw_capacity m Hm).
  - intros m address n Hm Ha Hn. simpl. unfold Sparse_Read. rewrite Sparse_checkRange_form. unfold range_check.
    destruct (in_range _ _ _) eqn:E; [|done]. cbn [result_bind]. f_equal. apply in_range_spec in E.
    pose proof (spw_capacity m Hm). unfold Sparse_Size in *. apply readLoop_bytes; [done|lia..].
  - intros m address src Hm Ha. simpl. unfold Sparse_Write. rewrite Sparse_checkRange_form. unfold range_check.
    destruct (in_range _ _ _) eqn:E; [|done]. apply in_range_spec in E. pose proof (spw_capacity m Hm).
    unfold Sparse_Size in *. cbn [fst snd].
    destruct (writeLoop_bytes (length src) m address src Hm Ha) as (Hm1 & Hc1 & _ & Hb1); [done|lia|]. done.
  - intros m addresses sources Hm Ha Hlen. cbn [svc_batch svc_size Sparse_service]. unfold Sparse_WriteBatch.
    rewrite Hlen, Nat.eqb_refl. cbn [negb].
    rewrite (batch_check_ext (Sparse_checkRange m) (range_check (Sparse_Size m))) by apply Sparse_checkRange_form.
    destruct (batch_check _ _ _) as [u|e] eqn:E; [|done]. destruct u. cbn [fst snd is_ok].
    pose proof (batch_check_range (Sparse_Size m) [] (zip addresses sources)) as Hr. rewrite E in Hr. specialize (Hr eq_refl).
    destruct (fold_writeLocked_bytes (zip addresses sources) m Hm) as (Hm' & Hc & Hb).
    { apply Forall_forall. intros w Hw. rewrite Forall_forall in Hr. split; [|by apply Hr].
      destruct w as [a s]. apply elem_of_zip_l in Hw. rewrite Forall_forall in Ha. by apply Ha. }
    done.
  - intros m address n Hm Ha Hn. simpl. unfold Sparse_Zero. rewrite Sparse_checkRange_form. unfold range_check.
    destruct (in_range _ _ _) eqn:E; [|done]. apply in_range_spec in E. pose proof (spw_capacity m Hm).
    unfold Sparse_Size in *. cbn [fst snd].
    destruct (zeroLoop_bytes (Z.to_nat ((n + 4095) / 4096)) m address n Hm Ha) as (Hm1 & Hc1 & Hb1); [|lia|done].
    Z.div_mod_to_equations; lia.
Defined.

(** ** Two memories with the same bytes cannot be told apart *)

(** The calls a client makes and what it sees of them. *)
Inductive memory_call :=
| CallRead (address n : Z)
| CallWrite (address : Z) (src : list Z)
| CallBatch (addresses : list Z) (sources : list (list Z))
| CallZero (address n : Z).

Definition call_ok (c : memory_call) : Prop :=
  match c with
  | CallRead a n | CallZero a n => 0 <= a /\ 0 <= n
  | CallWrite a _ => 0 <= a
  | CallBatch addresses sources => Forall (fun a => 0 <= a) addresses /\ length addresses = length sources
  end.

Section Clients.
Context {M : Type} `{MemoryService M}.

Definition call (m : M) (c : memory_call) : M * result (list Z) :=
  match c with
  | CallRead a n => (m, svc_read m a n)
  | CallWrite a src => let '(m', r) := svc_write m a src in (m', let? _ := r in Ok [])
  | CallBatch aa ss => let '(m', r) := svc_batch m aa ss in (m', let? _ := r in Ok [])
  | CallZero a n => let '(m', r) := svc_zero m a n in (m', let? _ := r in Ok [])
  end.

Fixpoint calls (m : M) (cs : list memory_call) : list (result (list Z)) :=
  match cs with
  | [] => []
  | c :: cs => let '(m', r) := call m c in r :: calls m' cs
  end.
End Clients.

Section Bisimulation.
Context {M N : Type} `{MemoryLaws M} `{MemoryLaws N}.

Record bisim (m : M) (n : N) : Prop := {
  bis_left : svc_wf m;
  bis_right : svc_wf n;
  bis_size : svc_size m = svc_size n;
  bis_bytes : forall a, 0 <= a < svc_size m -> svc_byte m a = svc_byte n a
}.

Lemma overlay_agree c src a (f g : Z -> Z) lo hi :
  (forall a, lo <= a < hi -> f a = g a) -> lo <= a < hi -> overlay c src f a = overlay c src g a.
Proof. intros Hfg Ha. by apply overlay_ext, Hfg. Qed.

Lemma fold_overlay_agree (ws : list (Z * list Z)) (f g : Z -> Z) lo hi a :
  (forall a, lo <= a < hi -> f a = g a) -> lo <= a < hi ->
  fold_left (fun f w => overlay w.1 w.2 f) ws f a = fold_left (fun f w => overlay w.1 w.2 f) ws g a.
Proof.
  revert f g. induction ws as [|w ws IH]; intros f g Hfg Ha; simpl; [by apply Hfg|].
  apply IH; [|done]. intros. by eapply overlay_agree.
Qed.

Lemma call_bisim m n c :
  bisim m n -> call_ok c -> (call m c).2 = (call n c).2 /\ bisim (call m c).1 (call n c).1.
Proof.
  intros [Hm Hn Hs Hb] Hc. destruct c as [a k|a src|aa ss|a k]; simpl in *.
  - destruct Hc as [Ha Hk]. split; [|by split].
    rewrite !svc_read_law, <- Hs by done. unfold range_check. destruct (in_range _ _ _) eqn:E; [|done]. simpl. f_equal.
    apply in_range_spec in E. apply map_zrange_ext. intros. apply Hb. lia.
  - pose proof (svc_write_law m a src Hm Hc) as (E1 & W1 & S1 & B1).
    pose proof (svc_write_law n a src Hn Hc) as (E2 & W2 & S2 & B2). rewrite <- Hs in E2, B2.
    destruct (svc_write m a src) as [m' r1], (svc_write n a src) as [n' r2]; simpl in *. subst r1 r2.
    split; [done|]. destruct (in_range _ _ _); [|by subst]. split; [done|done|congruence|].
    intros b Hbr. rewrite B1, B2 by lia. apply (overlay_agree _ _ _ _ _ 0 (svc_size m)); [done|lia].
  - destruct Hc as [Hc Hl]. pose proof (svc_batch_law m aa ss Hm Hc Hl) as (E1 & W1 & S1 & B1).
    pose proof (svc_batch_law n aa ss Hn Hc Hl) as (E2 & W2 & S2 & B2). rewrite <- Hs in E2, B2.
    destruct (svc_batch m aa ss) as [m' r1], (svc_batch n aa ss) as [n' r2]; simpl in *. subst r1 r2.
    split; [done|]. destruct (is_ok _); [|by subst]. split; [done|done|congruence|].
    intros b Hbr. rewrite B1, B2 by lia. apply (fold_overlay_agree _ _ _ 0 (svc_size m)); [done|lia].
  - destruct Hc as [Ha Hk]. pose proof (svc_zero_law m a k Hm Ha Hk) as (E1 & W1 & S1 & B1).
    pose proof (svc_zero_law n a k Hn Ha Hk) as (E2 & W2 & S2 & B2). rewrite <- Hs in E2, B2.
    destruct (svc_zero m a k) as [m' r1], (svc_zero n a k) as [n' r2]; simpl in *. subst r1 r2.
    split; [done|]. destruct (in_range _ _ _); [|by subst]. split; [done|done|congruence|].
    intros b Hbr. rewrite B1, B2 by lia. apply (overlay_agree _ _ _ _ _ 0 (svc_size m)); [done|lia].
Qed.

Lemma calls_bisim m n cs : bisim m n -> Forall call_ok cs -> calls m cs = calls n cs.
Proof.
  revert m n. induction cs as [|c cs IH]; intros m n Hb Hc; simpl; [done|]. apply Forall_cons in Hc as [Hc Hcs].
  destruct (call_bisim m n c Hb Hc) as [Hr Hb']. destruct (call m c), (call n c); simpl in *. by rewrite Hr, (IH _ _ Hb').
Qed.
End Bisimulation.

(** The flat image of the fill pattern. *)
Definition fill_image (capacity fillWord : Z) : Memory :=
  mkMemory (map (fun a => u8 (fillWord >> (8 * (a mod 4)))) (zrange 0 capacity)).

Lemma NewSparse_bisim capacity pageSize fillWord s :
  0 <= capacity -> 0 <= pageSize < 2 ^ 32 -> NewSparse capacity pageSize fillWord = Ok s ->
  bisim s (fill_image capacity fillWord).
Proof.
  intros Hc Hp. unfold NewSparse.
  destruct (Z.eqb_spec capacity 0); [done|]. destruct (Z.ltb_spec addressSpaceSize capacity) as [|Hcap]; [done|].
  destruct (Z.eqb_spec pageSize 0); [done|]. destruct (Z.eqb_spec (pageSize .& u32 (pageSize - 1)) 0) as [Hl|]; [|done].
  destruct (Z.ltb_spec capacity pageSize); [done|]. cbn [orb negb]. intros <-%Ok_inj.
  rewrite u32_id in Hl by (unfold is_u32; lia). destruct (pow2_test pageSize ltac:(lia) Hl) as (k & Hk & Hps).
  change addressSpaceSize with (2 ^ 32) in Hcap.
  assert (zlen (m_data (fill_image capacity fillWord)) = capacity) as Hsz
    by (unfold fill_image, zlen; cbn [m_data]; rewrite length_map, zrange_length; lia).
  split; cbn -[fill_image].
  - split; cbn; [lia|by exists k|]. intros i page Hi. by rewrite lookup_empty in Hi.
  - unfold Memory_wf. lia.
  - symmetry. exact Hsz.
  - intros a Ha. unfold Sparse_Size in Ha; cbn [sp_capacity] in Ha. unfold sparse_byte; cbn -[qget qmake].
    rewrite lookup_empty. unfold byte_of, fill_image. cbn [m_data]. rewrite list_lookup_fmap, lookup_zrange by lia. simpl.
    change 3 with (Z.ones 2). rewrite Z.land_ones by lia. change (2 ^ 2) with 4.
    pose proof (Z.mod_pos_bound a 4 ltac:(lia)). rewrite qget_qmake by (apply idx4_range; lia).
    by rewrite Z2Nat.id by lia.
Qed.

(** C29: the page-backed memory is a faithful implementation of a flat one: for every
    capacity, page size and fill word that [NewSparse] accepts, any sequence of
    reads, writes, atomic batches and clears returns exactly what the contiguous
    [Memory] holding the fill pattern returns, errors included. *)
Theorem sparse_refines_memory capacity pageSize fillWord s cs :
  0 <= capacity -> 0 <= pageSize < 2 ^ 32 -> NewSparse capacity pageSize fillWord = Ok s -> Forall call_ok cs ->
  calls s cs = calls (fill_image capacity fillWord) cs.
Proof. intros Hc Hp Hs. apply calls_bisim. by eapply NewSparse_bisim. Qed.

Example sparse_refines_memory_witness :
  exists s, NewSparse 64 16 0xbaadf00d = Ok s /\
  calls s [CallWrite 14 [1; 2; 3; 4]; CallRead 12 8; CallRead 60 8] =
  [Ok []; Ok [0x0d; 0xf0; 1; 2; 3; 4; 0xad; 0xba]; Err (BoundsError 60 8 64)].
Proof.
  eexists. split; [reflexivity|].
  rewrite (sparse_refines_memory 64 16 0xbaadf00d); [vm_compute; reflexivity|lia|lia|reflexivity|].
  repeat constructor; simpl; lia.
Defined.

(** ** Atomic batches *)

Definition write_end (w : Z * list Z) : Z := w.1 + zlen w.2.
(** The source's overlap test. *)
Definition clash (v w : Z * list Z) : Prop := v.1 < write_end w /\ w.1 < write_end v.
Definition covers (w : Z * list Z) (a : Z) : Prop := w.1 <= a < write_end w.

Lemma covers_clash v w a : covers v a -> covers w a -> clash v w.
Proof. unfold covers, clash. lia. Qed.

Lemma overlap_index_none prev start end_ :
  overlap_index prev start end_ = None <-> forall o, o ∈ prev -> ~ (start < o.2 /\ o.1 < end_).
Proof.
  unfold overlap_index. rewrite fmap_None, list_find_None, Forall_forall.
  setoid_rewrite andb_true_iff. setoid_rewrite Z.ltb_lt. done.
Qed.

(** The batch check accepts exactly the batches whose writes are all in range and
    pairwise free of overlap. *)
Lemma batch_check_spec capacity prev ws :
  0 <= capacity <= 2 ^ 32 -> Forall (fun w => 0 <= w.1) ws ->
  is_ok (batch_check (range_check capacity) (map (fun w => (w.1, write_end w)) prev) ws) = true <->
  Forall (fun w => in_range capacity w.1 (zlen w.2) = true) ws /\
  (forall p w, p ∈ prev -> w ∈ ws -> ~ clash p w) /\ ForallOrdPairs (fun p w => ~ clash p w) ws.
Proof.
  intros Hc. revert prev. induction ws as [|w ws IH]; intros prev Hn; simpl.
  { split; [intros _|done]. split_and!; [constructor| |constructor]. intros p w _ Hw. by apply elem_of_nil in Hw. }
  apply Forall_cons in Hn as [Hw Hn]. destruct w as [a s]. simpl in Hw. rewrite Forall_cons. cbn [fst snd].
  unfold range_check at 1. destruct (in_range capacity a (zlen s)) eqn:E; cbn [result_bind]; [|by split; [|intros [[]]]].
  apply in_range_spec in E. rewrite u64_id by (pose proof (zlen_nonneg s); unfold is_u64; lia).
  destruct (overlap_index _ _ _) as [k|] eqn:Eo; cbn [is_ok].
  - split; [done|]. intros (_ & Hp & _).
    assert (overlap_index (map (fun w => (w.1, write_end w)) prev) a (a + zlen s) = None) as E'; [|congruence].
    apply overlap_index_none. intros o (p & <- & Hin)%list_elem_of_In%in_map_iff [H1 H2]. simpl in *.
    apply (Hp p (a, s)); [by apply list_elem_of_In|apply list_elem_of_here|]. unfold clash, write_end in *; simpl; lia.
  - pose proof (proj1 (overlap_index_none _ _ _) Eo) as Hno.
    change ([(a, a + zlen s)]) with (map (fun w => (w.1, write_end w)) [(a, s)]). rewrite <- map_app, (IH _ Hn).
    assert (forall p, p ∈ prev -> ~ clash p (a, s)) as Hpa.
    { intros p Hp [H1 H2]. apply (Hno (p.1, write_end p)).
      - apply list_elem_of_In, in_map_iff. exists p. split; [done|by apply list_elem_of_In].
      - unfold write_end in *; simpl in *. lia. }
    split.
    + intros (Hr & Hp & Ho). split_and!; [done|done| |].
      * intros p w Hin [->|Hw']%elem_of_cons; [by apply Hpa|]. apply Hp; [set_solver|done].
      * constructor; [|done]. apply List.Forall_forall. intros w Hw'. apply Hp; [set_solver|by apply list_elem_of_In].
    + intros ([_ Hr] & Hp & Ho). inversion_clear Ho as [|? ? Hf Ho']. split_and!; [done| |done].
      intros p w [Hin|Hin]%elem_of_app Hw'; [apply Hp; set_solver|].
      apply list_elem_of_singleton in Hin as ->. rewrite List.Forall_forall in Hf. apply Hf. by apply list_elem_of_In.
Qed.

Lemma overlay_outside w f a : ~ covers w a -> overlay w.1 w.2 f a = f a.
Proof.
  unfold covers, write_end, overlay. intros H.
  destruct (Z.leb_spec w.1 a), (Z.ltb_spec a (w.1 + zlen w.2)); cbn [andb]; try done; lia.
Qed.

Lemma overlay_inside w f a : covers w a -> overlay w.1 w.2 f a = byte_of w.2 (a - w.1).
Proof.
  unfold covers, write_end, overlay. intros H. by destruct (Z.leb_spec w.1 a), (Z.ltb_spec a (w.1 + zlen w.2)); try lia.
Qed.

Lemma fold_overlay_outside ws f a :
  (forall w, w ∈ ws -> ~ covers w a) -> fold_left (fun f w => overlay w.1 w.2 f) ws f a = f a.
Proof.
  revert f. induction ws as [|w ws IH]; intros f Hw; simpl; [done|].
  rewrite IH by set_solver. apply overlay_outside. set_solver.
Qed.

Lemma fold_overlay_inside ws f w a :
  ForallOrdPairs (fun p w => ~ clash p w) ws -> w ∈ ws -> covers w a ->
  fold_left (fun f w => overlay w.1 w.2 f) ws f a = byte_of w.2 (a - w.1).
Proof.
  intros Ho. revert f. induction Ho as [|v ws Hv Ho IH]; intros f Hw Hc; [by apply elem_of_nil in Hw|].
  rewrite List.Forall_forall in Hv. cbn [fold_left]. apply elem_of_cons in Hw as [->|Hw]; [|by apply IH].
  rewrite fold_overlay_outside; [by apply overlay_inside|].
  intros u Hu Hcu. apply (Hv u); [by apply list_elem_of_In|]. by eapply covers_clash.
Qed.

Section Batch.
Context {M : Type} `{MemoryLaws M}.

(** The batch law in terms of the writes. *)
Lemma batch_effect m addresses sources :
  svc_wf m -> Forall (fun a => 0 <= a) addresses -> length addresses = length sources ->
  let ws := zip addresses sources in
  let m' := (svc_batch m addresses sources).1 in
  let good := Forall (fun w => in_range (svc_size m) w.1 (zlen w.2) = true) ws /\ ForallOrdPairs (fun p w => ~ clash p w) ws in
  ((svc_batch m addresses sources).2 = Ok tt <-> good) /\
  (good -> svc_size m' = svc_size m /\
   (forall w a, w ∈ ws -> covers w a -> svc_byte m' a = byte_of w.2 (a - w.1)) /\
   (forall a, 0 <= a -> (forall w, w ∈ ws -> ~ covers w a) -> svc_byte m' a = svc_byte m a)) /\
  (~ good -> m' = m).
Proof.
  intros Hm Ha Hl. cbv zeta. pose proof (svc_batch_law m addresses sources Hm Ha Hl) as (Hr & _ & Hs & Hb).
  assert (Forall (fun w => 0 <= w.1) (zip addresses sources)) as Hz.
  { apply Forall_forall. intros [a s] Hw. apply elem_of_zip_l in Hw. rewrite Forall_forall in Ha. by apply Ha. }
  pose proof (batch_check_spec (svc_size m) [] _ (svc_size_bound m Hm) Hz) as Hspec. cbn [map] in Hspec.
  assert (is_ok (batch_check (range_check (svc_size m)) [] (zip addresses sources)) = true <->
    Forall (fun w => in_range (svc_size m) w.1 (zlen w.2) = true) (zip addresses sources) /\
    ForallOrdPairs (fun p w => ~ clash p w) (zip addresses sources)) as Hgood.
  { rewrite Hspec. split; [naive_solver|]. intros [? ?]. split_and!; try done. intros p w Hp. by apply elem_of_nil in Hp. }
  rewrite Hr. split; [|split].
  - rewrite <- Hgood. destruct (batch_check _ _ _) as [[]|]; by split.
  - intros Hg. pose proof (proj2 Hgood Hg) as Hok. rewrite Hok in Hb. split_and!; [done| |].
    + intros w a Hw Hc. rewrite Forall_forall in Hz. specialize (Hz _ Hw).
      rewrite Hb by (unfold covers in Hc; lia). apply fold_overlay_inside; [apply Hg|done..].
    + intros a Ha' Hn. rewrite Hb by done. by apply fold_overlay_outside.
  - intros Hg. destruct (is_ok _); [|done]. exfalso. by apply Hg, Hgood.
Qed.

(** An atomic batch, on any memory: it is accepted exactly when every write is in
    range and no two overlap; then every byte covered by a write holds that
    write's data and every other byte is unchanged, whatever the order of the
    entries; a refused batch leaves the memory as it was. *)
Theorem WriteBatch_atomic m addresses sources :
  svc_wf m -> Forall (fun a => 0 <= a) addresses -> length addresses = length sources ->
  let ws := zip addresses sources in
  let m' := (svc_batch m addresses sources).1 in
  let good := Forall (fun w => in_range (svc_size m) w.1 (zlen w.2) = true) ws /\ ForallOrdPairs (fun p w => ~ clash p w) ws in
  ((svc_batch m addresses sources).2 = Ok tt <-> good) /\
  (good -> svc_size m' = svc_size m /\
   (forall w a, w ∈ ws -> covers w a -> svc_byte m' a = byte_of w.2 (a - w.1)) /\
   (forall a, 0 <= a -> (forall w, w ∈ ws -> ~ covers w a) -> svc_byte m' a = svc_byte m a)) /\
  (~ good -> m' = m).
Proof. apply batch_effect. Qed.
End Batch.

Example WriteBatch_atomic_witness :
  let m := mkMemory [0; 0; 0; 0; 0; 0] in
  svc_wf m /\ (svc_batch m [3; 0] [[7; 8]; [9]]).2 = Ok tt /\ svc_byte (svc_batch m [3; 0] [[7; 8]; [9]]).1 4 = 8.
Proof.
  intros m. assert (svc_wf m) as Hwf by by vm_compute. split; [done|]. split; [reflexivity|].
  destruct (WriteBatch_atomic m [3; 0] [[7; 8]; [9]] Hwf) as (Hok & Hgood & _); [by repeat constructor|reflexivity|].
  destruct (Hgood (proj1 Hok eq_refl)) as (_ & Hin & _).
  rewrite (Hin (3, [7; 8]) 4); [reflexivity|apply list_elem_of_here|by vm_compute].
Defined.

(** ** Little-endian loads and stores *)

Lemma Uint_PutUint n value : 0 <= value < 2 ^ (8 * Z.of_nat n) -> Uint (PutUint n value) = value.
Proof.
  revert value. induction n as [|n IH]; intros value Hv; [simpl in *; lia|].
  unfold PutUint. rewrite <- cons_seq. cbn [map Uint].
  rewrite <- seq_shift, map_map.
  rewrite (map_ext _ (fun i => u8 ((value >> 8) >> (8 * Z.of_nat i)))).
  2:{ intros i. rewrite Z.shiftr_shiftr by lia. do 2 f_equal. lia. }
  change (map _ (seq 0 n)) with (PutUint n (value >> 8)). rewrite IH.
  - apply Z.bits_inj'. intros i Hi. unfold u8. rewrite Z.lor_spec, Z.shiftl_spec, testbit_mod_pow2, Z.shiftr_spec by lia.
    destruct (Z.ltb_spec i 8); cbn [andb].
    + rewrite (Z.testbit_neg_r _ (i - 8)), orb_false_r by lia. f_equal. lia.
    + rewrite Z.shiftr_spec by lia. cbn [orb]. f_equal. lia.
  - rewrite Z.shiftr_div_pow2 by lia. split; [apply Z.div_pos; lia|]. apply Z.div_lt_upper_bound; [lia|].
    rewrite <- Z.pow_add_r by lia. replace (8 + 8 * Z.of_nat n) with (8 * Z.of_nat (S n)) by lia. lia.
Qed.

Lemma PutUint_length n value : zlen (PutUint n value) = Z.of_nat n.
Proof. unfold PutUint, zlen. by rewrite length_map, length_seq. Qed.

Lemma read_after_write m address src :
  Memory_wf m -> 0 <= address -> in_range (Memory_Size m) address (zlen src) = true ->
  Memory_Read (Memory_Write m address src).1 address (zlen src) = Ok src.
Proof.
  intros Hm Ha Hr. pose proof (svc_write_law m address src Hm Ha) as (_ & Hw & Hs & Hb). cbn [svc_size Memory_service] in Hb. rewrite Hr in Hb.
  pose proof (svc_read_law _ address (zlen src) Hw Ha (zlen_nonneg src)) as Hread.
  cbn [svc_read svc_write svc_size Memory_service] in Hread, Hs. rewrite Hread, Hs. unfold range_check. rewrite Hr. cbn [result_bind]. f_equal.
  apply list_eq. intros i. rewrite list_lookup_fmap. unfold zlen in *.
  destruct (decide (i < length src)%nat) as [Hi|Hi].
  - rewrite lookup_zrange by lia. cbn [fmap option_fmap option_map].
    etransitivity; [apply f_equal, Hb; lia|].
    rewrite (overlay_inside (address, src)) by (unfold covers, write_end, zlen; simpl; lia). unfold byte_of; simpl.
    replace (Z.to_nat (address + Z.of_nat i - address)) with i by lia.
    by destruct (lookup_lt_is_Some_2 src i Hi) as [x ->].
  - rewrite !lookup_ge_None_2; [done|lia|rewrite zrange_length; lia].
Qed.

Lemma read_disjoint m address src other n :
  Memory_wf m -> 0 <= address -> 0 <= other -> 0 <= n -> other + n <= address \/ address + zlen src <= other ->
  Memory_Read (Memory_Write m address src).1 other n = Memory_Read m other n.
Proof.
  intros Hm Ha Ho Hn Hd. pose proof (svc_write_law m address src Hm Ha) as (_ & Hw & Hs & Hb).
  pose proof (svc_read_law _ other n Hw Ho Hn) as H1. pose proof (svc_read_law m other n Hm Ho Hn) as H2.
  cbn [svc_read svc_write svc_size Memory_service] in *. rewrite H1, H2, Hs.
  destruct (range_check (Memory_Size m) other n) as [u|e]; [|done]. cbn [result_bind]. f_equal. apply map_zrange_ext. intros x Hx.
  destruct (in_range _ address (zlen src)); [|by rewrite Hb].
  etransitivity; [apply Hb; lia|]. apply (overlay_outside (address, src)). unfold covers, write_end; simpl. lia.
Qed.

(** A stored byte, half-word or word is what the next load of that width at that
    address returns, and no load of bytes outside it changes. *)
Theorem load_store_roundtrip m address value :
  Memory_wf m -> 0 <= address ->
  (in_range (Memory_Size m) address 1 = true -> is_u8 value ->
   Load8 (Store8 m address value).1 address = Ok value) /\
  (in_range (Memory_Size m) address 2 = true -> is_u16 value ->
   Load16 (Store16 m address value).1 address = Ok value) /\
  (in_range (Memory_Size m) address 4 = true -> is_u32 value ->
   Load32 (Store32 m address value).1 address = Ok value) /\
  (forall other, 0 <= other -> other + 4 <= address \/ address + 4 <= other ->
   Load32 (Store32 m address value).1 other = Load32 m other).
Proof.
  intros Hm Ha. unfold Load8, Load16, Load32, Store8, Store16, Store32. split_and!.
  - intros Hr Hv. pose proof (read_after_write m address [value] Hm Ha Hr) as H. change (zlen [value]) with 1 in H.
    rewrite H. cbn [result_bind Uint].
    by rewrite Z.shiftl_0_l, Z.lor_0_r.
  - intros Hr Hv. pose proof (read_after_write m address (PutUint 2 value) Hm Ha) as H.
    rewrite PutUint_length in H. change (Z.of_nat 2) with 2 in H. rewrite (H Hr). cbn [result_bind]. by rewrite Uint_PutUint.
  - intros Hr Hv. pose proof (read_after_write m address (PutUint 4 value) Hm Ha) as H.
    rewrite PutUint_length in H. change (Z.of_nat 4) with 4 in H. rewrite (H Hr). cbn [result_bind]. by rewrite Uint_PutUint.
  - intros other Ho Hd. by rewrite read_disjoint by (rewrite ?PutUint_length; lia || done).
Qed.

Example load_store_roundtrip_witness :
  let m := mkMemory (replicate 16 0) in
  Memory_wf m /\ Load32 (Store32 m 5 0xdeadbeef).1 5 = Ok 0xdeadbeef.
Proof.
  intros m. assert (Memory_wf m) as Hwf by by vm_compute. split; [done|].
  apply (load_store_roundtrip m 5 0xdeadbeef); [done|lia|reflexivity|by vm_compute].
Defined.
