(* ===== verification/WarpState.v ===== *)
(** * Lane and warp architectural state (src/emu/state/state.go)

    [WarpState] is the sole writable owner of one warp: PC, lane mask, lifecycle,
    FCSR, trap CSRs, the divergence stack and the register files.  Methods are
    modelled on a non-nil receiver and return the new object; a Go array of 32
    registers or of 3 divergence records is a list of that length, which
    [warp_wf], the well-formedness invariant, records. *)

From S2P Require Import Prelude IsaTypes Catalog Decode Integer System.

#[local] Open Scope Z_scope.
#[local] Open Scope go_scope.

Definition FrozenRegisterCount : Z := 32.
Definition FrozenDivergenceDepth : Z := FrozenLaneCount - 1.

Record Topology := mkTopology {
  top_LaneCount : Z;
  top_WarpCount : Z;
  top_CoreCount : Z;
  top_RegisterCount : Z;
  top_DivergenceDepth : Z
}.

Definition FrozenTopology : Topology :=
  mkTopology FrozenLaneCount FrozenWarpCount FrozenCoreCount FrozenRegisterCount FrozenDivergenceDepth.

Inductive WarpLifecycle := WarpInactive | WarpRunning | WarpLifecycleOther (n : Z).

Record LaneInitial := mkLaneInitial { li_ID : Z; li_GPR : list Z; li_FPR : list Z }.

Record TrapCSRState := mkTrapCSRState {
  tc_MStatus : Z;
  tc_MTVec : Z;
  tc_MScratch : Z;
  tc_MEPC : Z;
  tc_MCause : Z;
  tc_MTVal : Z
}.

Record DivergenceRecordInitial := mkDivergenceRecordInitial {
  dri_Pointer : Z;
  dri_OriginalMask : LaneMask;
  dri_NextPC : Z;
  dri_ElseVisited : bool
}.

Record DivergenceInitial := mkDivergenceInitial {
  di_WritePointer : Z;
  di_Records : list DivergenceRecordInitial
}.

Record WarpInitial := mkWarpInitial {
  wi_Topology : Topology;
  wi_WarpID : Z;
  wi_PC : Z;
  wi_ActiveMask : LaneMask;
  wi_Lifecycle : WarpLifecycle;
  wi_SavedThreadMask : LaneMask;
  wi_FCSR : Z;
  wi_TrapCSRs : TrapCSRState;
  wi_Divergence : DivergenceInitial;
  wi_Lanes : list LaneInitial
}.

Record laneState := mkLaneState { gpr : list Z; fpr : list Z }.

Record divergenceRecord := mkDivergenceRecord {
  dr_valid : bool;
  dr_originalMask : LaneMask;
  dr_nextPC : Z;
  dr_elseVisited : bool
}.

(** The zero value [divergenceRecord{}]. *)
Definition no_record : divergenceRecord := mkDivergenceRecord false 0 0 false.

Record divergenceState := mkDivergenceState {
  ds_writePointer : Z;
  ds_records : list divergenceRecord
}.

Record WarpState := mkWarpState {
  w_id : Z;
  w_pc : Z;
  w_activeMask : LaneMask;
  w_lifecycle : WarpLifecycle;
  w_savedThreadMask : LaneMask;
  w_fcsr : Z;
  w_trapCSRs : TrapCSRState;
  w_divergence : divergenceState;
  w_lanes : quad laneState
}.

Definition set_pc (v : Z) (w : WarpState) : WarpState :=
  mkWarpState (w_id w) v (w_activeMask w) (w_lifecycle w) (w_savedThreadMask w) (w_fcsr w) (w_trapCSRs w) (w_divergence w) (w_lanes w).
Definition set_mask (m : LaneMask) (l : WarpLifecycle) (w : WarpState) : WarpState :=
  mkWarpState (w_id w) (w_pc w) m l (w_savedThreadMask w) (w_fcsr w) (w_trapCSRs w) (w_divergence w) (w_lanes w).
Definition set_savedThreadMask (m : LaneMask) (w : WarpState) : WarpState :=
  mkWarpState (w_id w) (w_pc w) (w_activeMask w) (w_lifecycle w) m (w_fcsr w) (w_trapCSRs w) (w_divergence w) (w_lanes w).
Definition set_fcsr (v : Z) (w : WarpState) : WarpState :=
  mkWarpState (w_id w) (w_pc w) (w_activeMask w) (w_lifecycle w) (w_savedThreadMask w) v (w_trapCSRs w) (w_divergence w) (w_lanes w).
Definition set_trapCSRs (v : TrapCSRState) (w : WarpState) : WarpState :=
  mkWarpState (w_id w) (w_pc w) (w_activeMask w) (w_lifecycle w) (w_savedThreadMask w) (w_fcsr w) v (w_divergence w) (w_lanes w).
Definition set_divergence (v : divergenceState) (w : WarpState) : WarpState :=
  mkWarpState (w_id w) (w_pc w) (w_activeMask w) (w_lifecycle w) (w_savedThreadMask w) (w_fcsr w) (w_trapCSRs w) v (w_lanes w).
Definition set_lanes (v : quad laneState) (w : WarpState) : WarpState :=
  mkWarpState (w_id w) (w_pc w) (w_activeMask w) (w_lifecycle w) (w_savedThreadMask w) (w_fcsr w) (w_trapCSRs w) (w_divergence w) v.

#[export] Instance WarpLifecycle_eq_dec : EqDecision WarpLifecycle. Proof. solve_decision. Defined.
#[export] Instance Topology_eq_dec : EqDecision Topology. Proof. solve_decision. Defined.
#[export] Instance TrapCSRState_eq_dec : EqDecision TrapCSRState. Proof. solve_decision. Defined.
#[export] Instance laneState_eq_dec : EqDecision laneState. Proof. solve_decision. Defined.
#[export] Instance divergenceRecord_eq_dec : EqDecision divergenceRecord. Proof. solve_decision. Defined.
#[export] Instance divergenceState_eq_dec : EqDecision divergenceState. Proof. solve_decision. Defined.
#[export] Instance WarpState_eq_dec : EqDecision WarpState. Proof. solve_decision. Defined.

(** ** Validation *)

Definition validateLifecycle (lifecycle : WarpLifecycle) (mask : LaneMask) : result unit :=
  match lifecycle with
  | WarpInactive => if mask <>? 0 then Err (Errorf "state: inactive warp has nonzero active mask") else Ok tt
  | WarpRunning => if mask =? 0 then Err (Errorf "state: running warp has an empty active mask") else Ok tt
  | WarpLifecycleOther _ => Err (Errorf "state: unknown warp lifecycle")
  end.

Definition record_at (records : list divergenceRecord) (pointer : Z) : divergenceRecord :=
  default no_record (records !! Z.to_nat pointer).
Definition set_record (records : list divergenceRecord) (pointer : Z) (r : divergenceRecord) : list divergenceRecord :=
  <[Z.to_nat pointer := r]> records.

(** One iteration of the record loop of [makeDivergence]. *)
Definition makeDivergenceRecord (initial : DivergenceInitial) (records : list divergenceRecord)
    (record : DivergenceRecordInitial) : result (list divergenceRecord) :=
  check negb ((dri_Pointer record >=? di_WritePointer initial) || (dri_Pointer record >=? FrozenDivergenceDepth) ||
              dr_valid (record_at records (dri_Pointer record)))
    else Errorf "state: divergence record pointer is out of the live prefix or duplicated" in
  check negb (negb (LaneMask_Valid (dri_OriginalMask record)) || (dri_OriginalMask record =? 0))
    else Errorf "state: divergence record has invalid original mask" in
  check negb (dri_NextPC record .& 3 <>? 0)
    else Errorf "state: divergence record PC is not four-byte aligned" in
  Ok (set_record records (dri_Pointer record)
        (mkDivergenceRecord true (dri_OriginalMask record) (dri_NextPC record) (dri_ElseVisited record))).

Definition makeDivergence (initial : DivergenceInitial) : result divergenceState :=
  check negb (di_WritePointer initial >? FrozenDivergenceDepth)
    else Errorf "state: divergence write pointer exceeds full pointer" in
  check Z.of_nat (length (di_Records initial)) =? di_WritePointer initial
    else Errorf "state: divergence pointer requires as many live records" in
  let? records := foldM (makeDivergenceRecord initial) (replicate 3 no_record) (di_Records initial) in
  check forallb (fun pointer => dr_valid (record_at records (Z.of_nat pointer))) (seq 0 (Z.to_nat (di_WritePointer initial)))
    else Errorf "state: divergence live prefix is missing a record" in
  Ok (mkDivergenceState (di_WritePointer initial) records).

(** One iteration of the lane loop of [NewWarp]: the lanes seen and written so far. *)
Definition newWarpLane (acc : quad bool * quad laneState) (lane : LaneInitial) : result (quad bool * quad laneState) :=
  let '(seen, lanes) := acc in
  check negb ((li_ID lane >=? FrozenLaneCount) || qget seen (li_ID lane))
    else Errorf "state: lane id is out of range or duplicated" in
  check default 0 (li_GPR lane !! 0%nat) =? 0 else Errorf "state: lane initializes integer x0 to nonzero value" in
  Ok (qset seen (li_ID lane) true, qset lanes (li_ID lane) (mkLaneState (li_GPR lane) (li_FPR lane))).

Definition NewWarp (initial : WarpInitial) : result WarpState :=
  check wi_Topology initial ==. FrozenTopology else Errorf "state: topology does not match frozen topology" in
  check negb (wi_WarpID initial >=? FrozenWarpCount) else Errorf "state: warp id exceeds frozen warp count" in
  check negb (wi_PC initial .& 3 <>? 0) else Errorf "state: PC is not four-byte aligned" in
  check negb (negb (LaneMask_Valid (wi_ActiveMask initial)) || negb (LaneMask_Valid (wi_SavedThreadMask initial)))
    else Errorf "state: lane mask exceeds frozen lane count" in
  let? _ := validateLifecycle (wi_Lifecycle initial) (wi_ActiveMask initial) in
  check negb (wi_FCSR initial .&^ 0xff <>? 0) else Errorf "state: FCSR exceeds the frozen eight-bit storage" in
  check Z.of_nat (length (wi_Lanes initial)) =? FrozenLaneCount else Errorf "state: lane initializer count" in
  let? divergence := makeDivergence (wi_Divergence initial) in
  let zero_lane := mkLaneState (replicate 32 0) (replicate 32 0) in
  let? (_, lanes) := foldM newWarpLane (qfill false, qfill zero_lane) (wi_Lanes initial) in
  Ok (mkWarpState (wi_WarpID initial) (wi_PC initial) (wi_ActiveMask initial) (wi_Lifecycle initial)
        (wi_SavedThreadMask initial) (u8 (wi_FCSR initial)) (wi_TrapCSRs initial) divergence lanes).

Definition validateRegister (register : Register) : result unit :=
  check negb (reg_Index register >=? FrozenRegisterCount)
    else Errorf "state: register index exceeds architectural register count" in
  check (reg_File register ==. Integer) || (reg_File register ==. Float)
    else Errorf "state: unknown register namespace" in
  Ok tt.

(** ** Registers *)

Definition reg_get (file : list Z) (index : Z) : Z := default 0 (file !! Z.to_nat index).
Definition reg_set (file : list Z) (index value : Z) : list Z := <[Z.to_nat index := value]> file.

Definition set_gpr (index value : Z) (l : laneState) : laneState := mkLaneState (reg_set (gpr l) index value) (fpr l).
Definition set_fpr (index value : Z) (l : laneState) : laneState := mkLaneState (gpr l) (reg_set (fpr l) index value).

(** The lane array after [f] was applied to the lanes of [mask]. *)
Definition update_lanes (mask : LaneMask) (f : Z -> laneState -> laneState) (lanes : quad laneState) : quad laneState :=
  fold4 (fun lanes lane => if negb (LaneMask_Active mask lane) then lanes
                           else qset lanes lane (f lane (qget lanes lane))) lanes.

(** [readRegister] (the unexported one) *)
Definition read_register (lanes : quad laneState) (register : Register) : LaneValues :=
  qmake (fun lane =>
    if reg_File register ==. Integer then
      (if reg_Index register <>? 0 then reg_get (gpr (qget lanes lane)) (reg_Index register) else 0)
    else reg_get (fpr (qget lanes lane)) (reg_Index register)).

Definition ReadRegister (w : WarpState) (register : Register) : result LaneValues :=
  let? _ := validateRegister register in Ok (read_register (w_lanes w) register).

Definition WriteRegister (w : WarpState) (register : Register) (mask : LaneMask) (values : LaneValues) :
    WarpState * result unit :=
  match validateRegister register with
  | Err e => (w, Err e)
  | Ok _ =>
      if negb (LaneMask_Valid mask) then (w, Err (Errorf "state: register write mask exceeds frozen lanes"))
      else if (reg_File register ==. Integer) && (reg_Index register =? 0) then (w, Ok tt)
      else
        let put lane := if reg_File register ==. Integer then set_gpr (reg_Index register) (qget values lane)
                        else set_fpr (reg_Index register) (qget values lane) in
        (set_lanes (update_lanes mask put (w_lanes w)) w, Ok tt)
  end.

(** ** Setters *)

Definition SetPC (w : WarpState) (pc : Z) : WarpState * result unit :=
  if pc .& 3 <>? 0 then (w, Err (Errorf "state: PC is not four-byte aligned")) else (set_pc pc w, Ok tt).

Definition SetActiveMask (w : WarpState) (mask : LaneMask) (lifecycle : WarpLifecycle) : WarpState * result unit :=
  if negb (LaneMask_Valid mask) then (w, Err (Errorf "state: active mask exceeds frozen lanes"))
  else match validateLifecycle lifecycle mask with
       | Err e => (w, Err e)
       | Ok _ => (set_mask mask lifecycle w, Ok tt)
       end.

Definition SetSavedThreadMask (w : WarpState) (mask : LaneMask) : WarpState * result unit :=
  if negb (LaneMask_Valid mask) then (w, Err (Errorf "state: saved thread mask exceeds frozen lanes"))
  else (set_savedThreadMask mask w, Ok tt).

Definition SetFCSR (w : WarpState) (value : Z) : WarpState * result unit :=
  if value .&^ 0xff <>? 0 then (w, Err (Errorf "state: FCSR exceeds the frozen eight-bit storage"))
  else (set_fcsr (u8 value) w, Ok tt).

Definition SetTrapCSRs (w : WarpState) (value : TrapCSRState) : WarpState := set_trapCSRs value w.

Definition SetDivergence (w : WarpState) (initial : DivergenceInitial) : WarpState * result unit :=
  match makeDivergence initial with
  | Err e => (w, Err e)
  | Ok value => (set_divergence value w, Ok tt)
  end.

(** ** The well-formedness invariant *)

Definition pc_ok (pc : Z) : Prop := is_u32 pc /\ pc mod 4 = 0.

Definition file_ok (file : list Z) : Prop := length file = 32%nat /\ Forall is_u32 file.

Record lane_wf (l : laneState) : Prop := {
  lw_gpr : file_ok (gpr l);
  lw_fpr : file_ok (fpr l);
  lw_x0 : reg_get (gpr l) 0 = 0
}.

Record record_wf (r : divergenceRecord) : Prop := {
  rw_mask : mask_ok (dr_originalMask r);
  rw_nonempty : dr_originalMask r <> 0;
  rw_pc : pc_ok (dr_nextPC r)
}.

(** The live records are exactly the rows below the write pointer. *)
Record div_wf (ds : divergenceState) : Prop := {
  dw_pointer : 0 <= ds_writePointer ds <= 3;
  dw_length : length (ds_records ds) = 3%nat;
  dw_live : forall i, 0 <= i < ds_writePointer ds ->
    dr_valid (record_at (ds_records ds) i) = true /\ record_wf (record_at (ds_records ds) i);
  dw_free : forall i, ds_writePointer ds <= i < 3 -> record_at (ds_records ds) i = no_record
}.

Record trap_wf (t : TrapCSRState) : Prop := {
  tw_mstatus : is_u32 (tc_MStatus t);
  tw_mtvec : is_u32 (tc_MTVec t);
  tw_mscratch : is_u32 (tc_MScratch t);
  tw_mepc : is_u32 (tc_MEPC t);
  tw_mcause : is_u32 (tc_MCause t);
  tw_mtval : is_u32 (tc_MTVal t)
}.

(** A running warp has lanes, an inactive one has none. *)
Definition lifecycle_ok (l : WarpLifecycle) (mask : LaneMask) : Prop :=
  (l = WarpRunning /\ mask <> 0) \/ (l = WarpInactive /\ mask = 0).

Record warp_wf (w : WarpState) : Prop := {
  wf_id : 0 <= w_id w < 4;
  wf_pc : pc_ok (w_pc w);
  wf_mask : mask_ok (w_activeMask w);
  wf_lifecycle : lifecycle_ok (w_lifecycle w) (w_activeMask w);
  wf_saved : mask_ok (w_savedThreadMask w);
  wf_fcsr : is_u8 (w_fcsr w);
  wf_trap : trap_wf (w_trapCSRs w);
  wf_div : div_wf (w_divergence w);
  wf_lanes : qforall lane_wf (w_lanes w)
}.

(** The range facts Go's types give a [WarpInitial]. *)
Record initial_typed (i : WarpInitial) : Prop := {
  it_id : is_u8 (wi_WarpID i);
  it_pc : is_u32 (wi_PC i);
  it_mask : is_u8 (wi_ActiveMask i);
  it_saved : is_u8 (wi_SavedThreadMask i);
  it_fcsr : is_u32 (wi_FCSR i);
  it_trap : trap_wf (wi_TrapCSRs i);
  it_pointer : is_u8 (di_WritePointer (wi_Divergence i));
  it_records : Forall (fun r => is_u8 (dri_Pointer r) /\ is_u8 (dri_OriginalMask r) /\ is_u32 (dri_NextPC r))
                 (di_Records (wi_Divergence i));
  it_lanes : Forall (fun l => is_u8 (li_ID l) /\ file_ok (li_GPR l) /\ file_ok (li_FPR l)) (wi_Lanes i)
}.

Lemma pc_aligned pc : is_u32 pc -> pc .& 3 = 0 -> pc_ok pc.
Proof. intros H1 H2. split; [done|]. by rewrite land_3 in H2. Qed.

Lemma record_at_set records p q r :
  (Z.to_nat p < length records)%nat -> 0 <= p -> 0 <= q ->
  record_at (set_record records p r) q = if p =? q then r else record_at records q.
Proof.
  intros Hl Hp Hq. unfold record_at, set_record. destruct (Z.eqb_spec p q) as [->|Hne].
  - by rewrite list_lookup_insert_eq.
  - by rewrite list_lookup_insert_ne by lia.
Qed.

Lemma set_record_length records p r : length (set_record records p r) = length records.
Proof. apply length_insert. Qed.

(** The records built so far by [makeDivergence]: zero rows and checked rows. *)
Definition records_inv (wp : Z) (records : list divergenceRecord) : Prop :=
  length records = 3%nat /\
  forall i, 0 <= i -> if dr_valid (record_at records i) then i < wp /\ record_wf (record_at records i)
                      else record_at records i = no_record.

Lemma makeDivergenceRecord_inv initial records r records' :
  di_WritePointer initial <= 3 -> is_u8 (dri_Pointer r) -> is_u8 (dri_OriginalMask r) -> is_u32 (dri_NextPC r) ->
  records_inv (di_WritePointer initial) records -> makeDivergenceRecord initial records r = Ok records' ->
  records_inv (di_WritePointer initial) records'.
Proof.
  intros Hwp Hp Hm Hpc [Hl Hi] H. unfold makeDivergenceRecord in H. change FrozenDivergenceDepth with 3 in H.
  destruct (Z.leb_spec (di_WritePointer initial) (dri_Pointer r)); [done|]. destruct (Z.leb_spec 3 (dri_Pointer r)); [done|].
  destruct (dr_valid (record_at records _)); [done|]. cbn [orb negb] in H.
  destruct (LaneMask_Valid (dri_OriginalMask r)) eqn:Ev; [|done]. cbn [orb negb] in H.
  destruct (Z.eqb_spec (dri_OriginalMask r) 0); [done|]. cbn [orb negb] in H.
  destruct (Z.eqb_spec (dri_NextPC r .& 3) 0); [|done]. cbn [negb] in H. apply Ok_inj in H as <-.
  unfold is_u8 in *. split; [by rewrite set_record_length|]. intros i Hi0.
  rewrite record_at_set by lia. destruct (Z.eqb_spec (dri_Pointer r) i) as [<-|]; [|by apply Hi].
  simpl. split; [lia|]. split; cbn; [|done|by apply pc_aligned]. apply LaneMask_Valid_spec; [lia|done].
Qed.

Lemma records_inv_zero wp : records_inv wp (replicate 3 no_record).
Proof.
  split; [done|]. intros i Hi. assert (record_at (replicate 3 no_record) i = no_record) as ->; [|done].
  unfold record_at. destruct (replicate 3 no_record !! Z.to_nat i) eqn:E; [|done].
  by apply lookup_replicate_1 in E as [-> _].
Qed.

Lemma makeDivergence_wf initial ds :
  is_u8 (di_WritePointer initial) ->
  Forall (fun r => is_u8 (dri_Pointer r) /\ is_u8 (dri_OriginalMask r) /\ is_u32 (dri_NextPC r)) (di_Records initial) ->
  makeDivergence initial = Ok ds -> div_wf ds /\ ds_writePointer ds = di_WritePointer initial.
Proof.
  intros Hwp Ht H. unfold makeDivergence in H. change FrozenDivergenceDepth with 3 in H.
  destruct (Z.ltb_spec 3 (di_WritePointer initial)); [done|]. cbn [negb] in H. unfold is_u8 in Hwp.
  destruct (_ =? di_WritePointer initial); [|done]. apply result_bind_ok in H as (records & Hf & H).
  assert (records_inv (di_WritePointer initial) records) as [Hl Hi].
  { eapply foldM_inv; [apply records_inv_zero| |exact Hf].
    intros s r s' Hr Hs Hstep. rewrite Forall_forall in Ht. destruct (Ht r Hr) as (? & ? & ?).
    eapply makeDivergenceRecord_inv; eauto. }
  destruct (forallb _ _) eqn:Hall; [|done]. apply Ok_inj in H as <-. split; [|done].
  rewrite forallb_forall in Hall. split; cbn; [lia|done| |].
  - intros i Hr. assert (dr_valid (record_at records i) = true) as Hv.
    { replace i with (Z.of_nat (Z.to_nat i)) by lia. apply Hall, in_seq. lia. }
    specialize (Hi i ltac:(lia)). rewrite Hv in Hi. tauto.
  - intros i Hr. specialize (Hi i ltac:(lia)). destruct (dr_valid (record_at records i)); [lia|done].
Qed.

Lemma newWarpLane_wf acc l acc' :
  is_u8 (li_ID l) -> file_ok (li_GPR l) -> file_ok (li_FPR l) ->
  qforall lane_wf acc.2 -> newWarpLane acc l = Ok acc' -> qforall lane_wf acc'.2.
Proof.
  intros Hid Hg Hf Hacc H. destruct acc as [seen lanes]. unfold newWarpLane in H.
  destruct (_ || _); [done|]. cbn [negb] in H. destruct (Z.eqb_spec (default 0 (li_GPR l !! 0%nat)) 0); [|done].
  apply Ok_inj in H as <-. cbn [snd]. apply qforall_qset; [done|]. by split.
Qed.

Lemma zero_file_ok : file_ok (replicate 32 0).
Proof. split; [done|]. apply Forall_replicate, is_u32_0. Qed.

Lemma validateLifecycle_ok l m u : validateLifecycle l m = Ok u -> lifecycle_ok l m.
Proof.
  destruct l; simpl; [| |done]; destruct (Z.eqb_spec m 0); simpl; try done; intros _; [by right|by left].
Qed.

Lemma NewWarp_wf_ok initial w : initial_typed initial -> NewWarp initial = Ok w -> warp_wf w.
Proof.
  intros [Hid Hpc Hm Hs Hf Ht Hp Hr Hl] H. unfold NewWarp, FrozenWarpCount in H.
  destruct (_ ==. _); [|done]. destruct (Z.leb_spec 4 (wi_WarpID initial)); [done|]. cbn [negb] in H.
  destruct (Z.eqb_spec (wi_PC initial .& 3) 0); [|done]. cbn [negb] in H.
  destruct (LaneMask_Valid (wi_ActiveMask initial)) eqn:Em; [|done].
  destruct (LaneMask_Valid (wi_SavedThreadMask initial)) eqn:Es; [|done]. cbn [negb orb] in H.
  apply result_bind_ok in H as ([] & Hlc%validateLifecycle_ok & H).
  destruct (_ <>? 0); [done|]. cbn [negb] in H. destruct (_ =? FrozenLaneCount); [|done].
  apply result_bind_ok in H as (ds & Hds & H). apply result_bind_ok in H as ([seen lanes] & Hfold & H).
  apply Ok_inj in H as <-. destruct (makeDivergence_wf _ _ Hp Hr Hds) as [Hdw _]. unfold is_u8 in Hid, Hm, Hs.
  split; cbn; try done.
  - lia.
  - by apply pc_aligned.
  - apply LaneMask_Valid_spec; [lia|done].
  - apply LaneMask_Valid_spec; [lia|done].
  - apply u8_range.
  - apply (foldM_inv newWarpLane (fun acc => qforall lane_wf acc.2) (wi_Lanes initial)
             (qfill false, qfill (mkLaneState (replicate 32 0) (replicate 32 0))) (seen, lanes)); [| |exact Hfold].
    + apply qforall_qfill. split; [apply zero_file_ok..|done].
    + intros s x s' Hx Hps Hstep. rewrite Forall_forall in Hl. destruct (Hl x Hx) as (? & ? & ?).
      by eapply newWarpLane_wf.
Qed.

(** ** Registers and setters *)

Lemma reg_get_set file i j v :
  length file = 32%nat -> 0 <= i < 32 -> 0 <= j ->
  reg_get (reg_set file i v) j = if i =? j then v else reg_get file j.
Proof.
  intros Hl Hi Hj. unfold reg_get, reg_set. destruct (Z.eqb_spec i j) as [->|Hne].
  - by rewrite list_lookup_insert_eq by lia.
  - by rewrite list_lookup_insert_ne by lia.
Qed.

Lemma file_ok_set file i v : file_ok file -> is_u32 v -> file_ok (reg_set file i v).
Proof. intros [Hl Hf] Hv. split; [by unfold reg_set; rewrite length_insert|]. by apply Forall_insert. Qed.

Lemma reg_get_ok file i : file_ok file -> is_u32 (reg_get file i).
Proof.
  intros [_ Hf]. unfold reg_get. destruct (file !! Z.to_nat i) eqn:E; simpl; [|apply is_u32_0].
  by eapply Forall_lookup_1.
Qed.

Lemma update_lanes_get mask f lanes lane :
  idx4 lane ->
  qget (update_lanes mask f lanes) lane =
  if LaneMask_Active mask lane then f lane (qget lanes lane) else qget lanes lane.
Proof.
  intros Hl. unfold update_lanes, fold4.
  destruct (LaneMask_Active mask 0) eqn:E0, (LaneMask_Active mask 1) eqn:E1, (LaneMask_Active mask 2) eqn:E2,
    (LaneMask_Active mask 3) eqn:E3; destruct Hl as [-> | [-> | [-> | ->]]]; rewrite ?E0, ?E1, ?E2, ?E3; done.
Qed.

Lemma qforall_idx {A} (P : A -> Prop) q : (forall i, idx4 i -> P (qget q i)) -> qforall P q.
Proof. intros H. repeat split; [apply (H 0)|apply (H 1)|apply (H 2)|apply (H 3)]; unfold idx4; lia. Qed.

Lemma update_lanes_wf mask f lanes :
  qforall lane_wf lanes -> (forall i l, idx4 i -> lane_wf l -> lane_wf (f i l)) ->
  qforall lane_wf (update_lanes mask f lanes).
Proof.
  intros Hl Hf. apply qforall_idx. intros i Hi. rewrite update_lanes_get by done. rewrite qforall_get in Hl.
  case_match; [apply Hf; [done|]|]; apply Hl.
Qed.

Lemma set_gpr_wf i v l : lane_wf l -> is_u32 v -> 0 <= i < 32 -> i <> 0 -> lane_wf (set_gpr i v l).
Proof.
  intros [Hg Hf H0] Hv Hi Hne. split; cbn; [by apply file_ok_set|done|]. rewrite reg_get_set by (apply Hg || lia).
  by destruct (Z.eqb_spec i 0).
Qed.

Lemma set_fpr_wf i v l : lane_wf l -> is_u32 v -> lane_wf (set_fpr i v l).
Proof. intros [Hg Hf H0] Hv. split; cbn; [done|by apply file_ok_set|done]. Qed.

Lemma validateRegister_ok r : reg_ok r -> validateRegister r = Ok tt.
Proof.
  intros [Hf Hi]. unfold validateRegister, FrozenRegisterCount. destruct (Z.leb_spec 32 (reg_Index r)); [lia|]. cbn [negb].
  by destruct Hf as [-> | ->].
Qed.

Lemma validateRegister_inv r u : is_u8 (reg_Index r) -> validateRegister r = Ok u -> reg_ok r.
Proof.
  unfold validateRegister, FrozenRegisterCount, is_u8. intros Hu.
  destruct (Z.leb_spec 32 (reg_Index r)); [done|]. cbn [negb].
  destruct (_ || _) eqn:E; [|done]. intros _. split; [|lia].
  apply orb_true_iff in E. by rewrite !bool_decide_eq_true in E.
Qed.

Lemma read_register_ok lanes r : qforall lane_wf lanes -> qforall is_u32 (read_register lanes r).
Proof.
  intros Hl. unfold read_register. apply qforall_qmake. intros i Hi. rewrite qforall_get in Hl.
  repeat case_match; try apply is_u32_0; apply reg_get_ok, Hl.
Qed.

Ltac split_wf := split; cbn; try done.

Lemma set_pc_wf pc w : warp_wf w -> pc_ok pc -> warp_wf (set_pc pc w).
Proof. intros [] ?. split_wf. Qed.
Lemma set_mask_wf m l w : warp_wf w -> mask_ok m -> lifecycle_ok l m -> warp_wf (set_mask m l w).
Proof. intros [] ??. split_wf. Qed.
Lemma set_saved_wf m w : warp_wf w -> mask_ok m -> warp_wf (set_savedThreadMask m w).
Proof. intros [] ?. split_wf. Qed.
Lemma set_fcsr_wf v w : warp_wf w -> is_u8 v -> warp_wf (set_fcsr v w).
Proof. intros [] ?. split_wf. Qed.
Lemma set_trapCSRs_wf v w : warp_wf w -> trap_wf v -> warp_wf (set_trapCSRs v w).
Proof. intros [] ?. split_wf. Qed.
Lemma set_divergence_wf v w : warp_wf w -> div_wf v -> warp_wf (set_divergence v w).
Proof. intros [] ?. split_wf. Qed.
Lemma set_lanes_wf v w : warp_wf w -> qforall lane_wf v -> warp_wf (set_lanes v w).
Proof. intros [] ?. split_wf. Qed.

Create HintDb warp.
#[export] Hint Resolve set_pc_wf set_mask_wf set_saved_wf set_fcsr_wf set_trapCSRs_wf set_divergence_wf set_lanes_wf : warp.

Lemma WriteRegister_wf w r mask values :
  warp_wf w -> reg_ok r -> qforall is_u32 values -> warp_wf (WriteRegister w r mask values).1.
Proof.
  intros Hw Hr Hv. unfold WriteRegister. rewrite validateRegister_ok by done.
  destruct (LaneMask_Valid mask); [|done]. cbn [negb]. destruct (_ && _) eqn:E; [done|]. cbn [fst].
  apply set_lanes_wf; [done|]. apply update_lanes_wf; [apply Hw|]. intros i l Hi Hl. rewrite qforall_get in Hv.
  destruct Hr as [Hf Hidx]. destruct (reg_File r ==. Integer); [|by apply set_fpr_wf].
  apply set_gpr_wf; try done. cbn [andb] in E. by apply Z.eqb_neq in E.
Qed.

(** Construction establishes the well-formedness invariant of a warp (PC alignment,
    lifecycle against the lane mask, zero x0, live divergence prefix, register
    widths) and every setter and the register write preserve it, refusing what
    would break it. *)
Theorem warp_state_invariant :
  (forall initial w, initial_typed initial -> NewWarp initial = Ok w -> warp_wf w) /\
  (forall w pc, warp_wf w -> is_u32 pc -> warp_wf (SetPC w pc).1) /\
  (forall w m l, warp_wf w -> is_u8 m -> warp_wf (SetActiveMask w m l).1) /\
  (forall w m, warp_wf w -> is_u8 m -> warp_wf (SetSavedThreadMask w m).1) /\
  (forall w v, warp_wf w -> warp_wf (SetFCSR w v).1) /\
  (forall w t, warp_wf w -> trap_wf t -> warp_wf (SetTrapCSRs w t)) /\
  (forall w i, warp_wf w -> is_u8 (di_WritePointer i) ->
   Forall (fun r => is_u8 (dri_Pointer r) /\ is_u8 (dri_OriginalMask r) /\ is_u32 (dri_NextPC r)) (di_Records i) ->
   warp_wf (SetDivergence w i).1) /\
  (forall w r m v, warp_wf w -> reg_ok r -> qforall is_u32 v -> warp_wf (WriteRegister w r m v).1).
Proof.
  split_and!.
  - apply NewWarp_wf_ok.
  - intros w pc Hw Hp. unfold SetPC. destruct (Z.eqb_spec (pc .& 3) 0); cbn; [|done]. apply set_pc_wf; [done|]. by apply pc_aligned.
  - intros w m l Hw Hm. unfold SetActiveMask. destruct (LaneMask_Valid m) eqn:E; cbn; [|done].
    destruct (validateLifecycle l m) as [u|] eqn:El; cbn; [|done]. unfold is_u8 in Hm.
    apply set_mask_wf; [done| |by eapply validateLifecycle_ok]. apply LaneMask_Valid_spec; [lia|done].
  - intros w m Hw Hm. unfold SetSavedThreadMask. destruct (LaneMask_Valid m) eqn:E; cbn; [|done]. unfold is_u8 in Hm.
    apply set_saved_wf; [done|]. apply LaneMask_Valid_spec; [lia|done].
  - intros w v Hw. unfold SetFCSR. destruct (_ <>? 0); cbn; [done|]. apply set_fcsr_wf; [done|apply u8_range].
  - intros. by apply set_trapCSRs_wf.
  - intros w i Hw Hp Hr. unfold SetDivergence. destruct (makeDivergence i) eqn:E; cbn; [|done].
    apply set_divergence_wf; [done|]. by eapply makeDivergence_wf in E as [? _].
  - intros. by apply WriteRegister_wf.
Qed.

(** A register write puts the given values in exactly the lanes of its mask of
    exactly the named register: reading that register back gives them, every other
    register and every other lane is unchanged, and integer x0 always reads zero. *)
Theorem register_write_read w r mask values :
  warp_wf w -> reg_ok r -> mask_ok mask ->
  let w' := (WriteRegister w r mask values).1 in
  (WriteRegister w r mask values).2 = Ok tt /\
  (forall q lane, reg_ok q -> idx4 lane ->
   qget (read_register (w_lanes w') q) lane =
   if bool_decide (q = r) && LaneMask_Active mask lane && negb (bool_decide (r = mkRegister Integer 0))
   then qget values lane else qget (read_register (w_lanes w) q) lane) /\
  (forall lane, idx4 lane -> qget (read_register (w_lanes w') (mkRegister Integer 0)) lane = 0).
Proof.
  intros Hw Hr Hm. cbv zeta. unfold WriteRegister. rewrite validateRegister_ok by done.
  rewrite (proj2 (LaneMask_Valid_spec mask (proj1 Hm)) Hm). cbn [negb].
  assert ((reg_File r ==. Integer) && (reg_Index r =? 0) = bool_decide (r = mkRegister Integer 0)) as ->.
  { destruct r as [f i]; simpl. apply eq_true_iff_eq. rewrite andb_true_iff, !bool_decide_eq_true, Z.eqb_eq. naive_solver. }
  split; [by case_match|]. split; [|intros lane Hl; unfold read_register; by rewrite qget_qmake].
  intros q lane Hq Hl. case_bool_decide as E0; cbn [negb fst]; [by rewrite andb_false_r|]. rewrite andb_true_r.
  unfold read_register. rewrite !qget_qmake by done. cbn [w_lanes set_lanes]. rewrite update_lanes_get by done.
  pose proof (wf_lanes w Hw) as Hlw. rewrite qforall_get in Hlw. destruct (Hlw lane) as [[Hg _] [Hf _] _].
  destruct (LaneMask_Active mask lane) eqn:Ea; [rewrite andb_true_r|by rewrite andb_false_r].
  destruct q as [qf qi], r as [rf ri]; destruct Hq as [Hqf Hqi], Hr as [Hrf Hri]; cbn [reg_File reg_Index] in *.
  assert (bool_decide (Float = Integer) = false) as EF by done. assert (bool_decide (Integer = Integer) = true) as EI by done.
  destruct Hqf as [-> | ->], Hrf as [-> | ->]; rewrite ?EF, ?EI; cbn [set_gpr set_fpr gpr fpr]; rewrite ?reg_get_set by lia.
  - destruct (Z.eqb_spec ri qi) as [->|]; [|by rewrite bool_decide_false by congruence].
    rewrite bool_decide_true by done. destruct (Z.eqb_spec qi 0); [by subst|done].
  - by rewrite bool_decide_false by congruence.
  - by rewrite bool_decide_false by congruence.
  - destruct (Z.eqb_spec ri qi) as [->|]; [by rewrite bool_decide_true|by rewrite bool_decide_false by congruence].
Qed.

(** A concrete warp: four running lanes at the reset PC, one live divergence record. *)
Definition example_initial : WarpInitial :=
  mkWarpInitial FrozenTopology 1 0x80000000 15 WarpRunning 0 0 (mkTrapCSRState 0 0 0 0 0 0)
    (mkDivergenceInitial 1 [mkDivergenceRecordInitial 0 15 0x80000010 false])
    (map (fun i => mkLaneInitial i (replicate 32 0) (replicate 32 0)) [0; 1; 2; 3]).

Lemma example_initial_typed : initial_typed example_initial.
Proof.
  split; cbn [example_initial wi_WarpID wi_PC wi_ActiveMask wi_SavedThreadMask wi_FCSR wi_TrapCSRs wi_Divergence
    di_WritePointer di_Records wi_Lanes].
  1-5, 7: by vm_compute.
  - by split; vm_compute.
  - by repeat constructor.
  - apply Forall_forall. intros l (i & <- & Hi)%list_elem_of_In%in_map_iff. split; [|split; apply zero_file_ok].
    simpl in Hi. unfold is_u8. cbn [li_ID]. naive_solver lia.
Qed.

Definition example_warp : WarpState :=
  mkWarpState 1 0x80000000 15 WarpRunning 0 0 (mkTrapCSRState 0 0 0 0 0 0)
    (mkDivergenceState 1 [mkDivergenceRecord true 15 0x80000010 false; no_record; no_record])
    (qfill (mkLaneState (replicate 32 0) (replicate 32 0))).

Example warp_state_invariant_witness : NewWarp example_initial = Ok example_warp /\ warp_wf example_warp.
Proof.
  split; [vm_compute; reflexivity|].
  apply (proj1 warp_state_invariant example_initial); [apply example_initial_typed|vm_compute; reflexivity].
Defined.

Lemma example_warp_wf : warp_wf example_warp.
Proof. apply (NewWarp_wf_ok example_initial); [apply example_initial_typed|vm_compute; reflexivity]. Qed.

Example register_write_read_witness :
  warp_wf example_warp /\
  qget (read_register (w_lanes (WriteRegister example_warp (mkRegister Float 7) 4 (qfill 9)).1) (mkRegister Float 7)) 2 = 9.
Proof.
  split; [apply example_warp_wf|].
  destruct (register_write_read example_warp (mkRegister Float 7) 4 (qfill 9)) as (_ & H & _);
    [apply example_warp_wf|split; [by right|by vm_compute]|by vm_compute|].
  rewrite H; [reflexivity|split; [by right|by vm_compute]|by right; right; left].
Defined.
