(* ===== verification/Apply.v ===== *)
(** * Validated, atomic application of instruction effects (src/emu/state/apply.go)

    [StageEffects] validates a whole effect bundle against the canonical warp and
    builds a detached candidate; the commit operations replace the canonical
    state with it.  An [EffectStage] holds a pointer to its owner: the operations
    here take the owner's current contents [owner] and return the new contents, so
    that staleness ([*s.owner != s.before]) is visible.  An external owner's
    callback is a function on the owner's contents and its own state, which it may
    both change.  Deep copies ([cloneEffects], [clonePointer]) are the identity on
    values. *)

From S2P Require Import Prelude IsaTypes Catalog Decode Integer System Custom WarpState.

#[local] Open Scope Z_scope.
#[local] Open Scope go_scope.

Definition effectError {A} (field problem : string) : result A := Err (EffectValidationError field problem).

(** ** Register writes and flags *)

(** The bit mask of the bytes selected by a byte mask. *)
Definition byte_bits (byteMask : Z) : Z :=
  fold4 (fun bits b => if byteMask .& (1 << b) <>? 0 then bits .| u32 (255 << (8 * b)) else bits) 0.

Definition merge_bits (bits old value : Z) : Z := (old .&^ bits) .| (value .& bits).

(** One iteration of the loop of [stageRegisterWrites]; [seen] are the destinations so far. *)
Definition stageRegisterWrite (acc : list Register * WarpState) (write : RegisterWriteEffect) :
    result (list Register * WarpState) :=
  let '(seen, candidate) := acc in
  let destination := rw_Destination write in
  match validateRegister destination with
  | Err _ => effectError "register-write" "invalid destination"
  | Ok _ =>
      check negb (rw_ByteMask write .&^ 15 <>? 0)
        else EffectValidationError "register-write" "byte mask exceeds one word" in
      let byteMask := if rw_ByteMask write =? 0 then 15 else rw_ByteMask write in
      let bits := byte_bits byteMask in
      check LaneMask_Valid (rw_Mask write)
        else EffectValidationError "register-write" "mask exceeds frozen lanes" in
      check negb (bool_decide (destination ∈ seen))
        else EffectValidationError "register-write" "duplicate destination" in
      let seen := destination :: seen in
      if (reg_File destination ==. Integer) && (reg_Index destination =? 0) then Ok (seen, candidate)
      else
        let put lane l :=
          if reg_File destination ==. Integer
          then set_gpr (reg_Index destination)
                 (merge_bits bits (reg_get (gpr l) (reg_Index destination)) (qget (rw_Values write) lane)) l
          else set_fpr (reg_Index destination)
                 (merge_bits bits (reg_get (fpr l) (reg_Index destination)) (qget (rw_Values write) lane)) l in
        Ok (seen, set_lanes (update_lanes (rw_Mask write) put (w_lanes candidate)) candidate)
  end.

Definition stageRegisterWrites (candidate : WarpState) (writes : list RegisterWriteEffect) : result WarpState :=
  let? (_, candidate) := foldM stageRegisterWrite ([], candidate) writes in Ok candidate.

Definition stageFFlags (candidate : WarpState) (effect : option FFlagsEffect) : result WarpState :=
  match effect with
  | None => Ok candidate
  | Some e =>
      check negb (ff_Accumulate e .&^ 0x1f <>? 0)
        else EffectValidationError "fflags" "accumulation exceeds five implemented bits" in
      Ok (set_fcsr (w_fcsr candidate .| ff_Accumulate e) candidate)
  end.

(** ** CSRs *)

Definition csrEntry_lookup (address : Z) : option CSREntry := findCSR address.

Definition csrValue (w : WarpState) (address : Z) : option Z :=
  if address =? 0x001 then Some (w_fcsr w .& 0x1f)
  else if address =? 0x002 then Some ((w_fcsr w >> 5) .& 7)
  else if address =? 0x003 then Some (w_fcsr w)
  else if address =? 0x300 then Some (tc_MStatus (w_trapCSRs w))
  else if address =? 0x305 then Some (tc_MTVec (w_trapCSRs w))
  else if address =? 0x340 then Some (tc_MScratch (w_trapCSRs w))
  else if address =? 0x341 then Some (tc_MEPC (w_trapCSRs w))
  else if address =? 0x342 then Some (tc_MCause (w_trapCSRs w))
  else if address =? 0x343 then Some (tc_MTVal (w_trapCSRs w))
  else None.

Definition csrReadValue (w : WarpState) (address : Z) : option Z :=
  match csrValue w address with
  | Some v => Some v
  | None =>
      if address =? 0xcc1 then Some (w_id w)
      else if address =? 0xcc4 then Some (w_activeMask w)
      else None
  end.

Definition setCSRValue (w : WarpState) (address value : Z) : WarpState :=
  let t := w_trapCSRs w in
  if address =? 0x001 then set_fcsr ((w_fcsr w .&^ 0x1f) .| u8 value) w
  else if address =? 0x002 then set_fcsr ((w_fcsr w .& 0x1f) .| u8 (u32 (value << 5))) w
  else if address =? 0x003 then set_fcsr (u8 value) w
  else if address =? 0x300 then
    set_trapCSRs (mkTrapCSRState value (tc_MTVec t) (tc_MScratch t) (tc_MEPC t) (tc_MCause t) (tc_MTVal t)) w
  else if address =? 0x305 then
    set_trapCSRs (mkTrapCSRState (tc_MStatus t) value (tc_MScratch t) (tc_MEPC t) (tc_MCause t) (tc_MTVal t)) w
  else if address =? 0x340 then
    set_trapCSRs (mkTrapCSRState (tc_MStatus t) (tc_MTVec t) value (tc_MEPC t) (tc_MCause t) (tc_MTVal t)) w
  else if address =? 0x341 then
    set_trapCSRs (mkTrapCSRState (tc_MStatus t) (tc_MTVec t) (tc_MScratch t) value (tc_MCause t) (tc_MTVal t)) w
  else if address =? 0x342 then
    set_trapCSRs (mkTrapCSRState (tc_MStatus t) (tc_MTVec t) (tc_MScratch t) (tc_MEPC t) value (tc_MTVal t)) w
  else if address =? 0x343 then
    set_trapCSRs (mkTrapCSRState (tc_MStatus t) (tc_MTVec t) (tc_MScratch t) (tc_MEPC t) (tc_MCause t) value) w
  else w.

Definition validateCSRRead (w : WarpState) (read : CSRReadEffect) : result unit :=
  match csrEntry_lookup (cr_Address read) with
  | None => effectError "csr-read" "unknown address"
  | Some entry =>
      check cr_Scope read ==. csr_Scope entry else EffectValidationError "csr-read" "scope" in
      match csrReadValue w (cr_Address read) with
      | Some value =>
          check forallb (fun got => got =? value) (qlist (cr_Values read))
            else EffectValidationError "csr-read" "stale value" in Ok tt
      | None => Ok tt
      end
  end.

Definition validateCSRReads (w : WarpState) (reads : list CSRReadEffect) : result unit :=
  foldM (fun _ read => validateCSRRead w read) tt reads.

(** A write the warp owns: warp storage, or an ignored constant. *)
Definition local_csr_write (write : CSRWriteEffect) : bool :=
  (cw_Scope write ==. CSRScopeWarp) || ((cw_Scope write ==. CSRScopeConstant) && cw_Ignored write).

(** One iteration of [localCSRWrites]: the local writes, the addresses seen, the number
    of writes to the FCSR aliases. *)
Definition localCSRWrite (w : WarpState) (acc : list CSRWriteEffect * list Z * Z) (write : CSRWriteEffect) :
    result (list CSRWriteEffect * list Z * Z) :=
  let '(local, seen, fcsrWrites) := acc in
  match csrEntry_lookup (cw_Address write) with
  | None => effectError "csr-write" "unknown address"
  | Some entry =>
      check cw_WarpID write =? w_id w else EffectValidationError "csr-write" "targets another warp" in
      check (cw_Scope write ==. csr_Scope entry) && (cw_WriteMask write =? csr_WriteMask entry)
            && Bool.eqb (cw_Ignored write) (csr_WriteIgnored entry)
        else EffectValidationError "csr-write" "metadata does not match catalog" in
      check csr_Writable entry || csr_WriteIgnored entry
        else EffectValidationError "csr-write" "writes read-only address" in
      check negb (cw_Value write .&^ cw_WriteMask write <>? 0)
        else EffectValidationError "csr-write" "value exceeds write mask" in
      check negb (bool_decide (cw_Address write ∈ seen))
        else EffectValidationError "csr-write" "duplicate address" in
      let seen := cw_Address write :: seen in
      let alias := (cw_Address write >=? 0x001) && (cw_Address write <=? 0x003) in
      let fcsrWrites := if alias then fcsrWrites + 1 else fcsrWrites in
      check negb (alias && (fcsrWrites >? 1))
        else EffectValidationError "csr-write" "multiple software writes alias the same FCSR storage" in
      Ok (if local_csr_write write then local ++ [write] else local, seen, fcsrWrites)
  end.

Definition localCSRWrites (w : WarpState) (writes : list CSRWriteEffect) : result (list CSRWriteEffect) :=
  let? (local, _, _) := foldM (localCSRWrite w) ([], [], 0) writes in Ok local.

Definition stageCSRWrite (before candidate : WarpState) (write : CSRWriteEffect) : result WarpState :=
  match csrValue before (cw_Address write) with
  | None =>
      check negb (negb (cw_Ignored write) || (cw_OldValue write <>? 0) || (cw_Value write <>? 0))
        else EffectValidationError "csr-write" "ignored write is not a zero no-op" in
      Ok candidate
  | Some old =>
      check cw_OldValue write =? old else EffectValidationError "csr-write" "stale old value" in
      Ok (setCSRValue candidate (cw_Address write) (cw_Value write))
  end.

Definition stageCSRWrites (before candidate : WarpState) (writes : list CSRWriteEffect) : result WarpState :=
  foldM (stageCSRWrite before) candidate writes.

(** ** Divergence *)

Definition lifecycleFor (active : bool) : WarpLifecycle := if active then WarpRunning else WarpInactive.

Definition stageSplit (before candidate : WarpState) (effect : DivergenceEffect) (mask : option WarpMaskEffect)
    (control : ControlEffect) : result WarpState :=
  let wp := ds_writePointer (w_divergence before) in
  check (de_StackPointer effect =? wp) && (de_OriginalMask effect =? w_activeMask before)
    else EffectValidationError "divergence" "SPLIT pointer/mask is stale" in
  check negb (de_MarkElseVisited effect || de_Pop effect || negb (Bool.eqb (de_Push effect) (de_Divergent effect)))
    else EffectValidationError "divergence" "SPLIT action flags are contradictory" in
  check negb ((ce_Reason control !=. PCSequential) || (de_ReconvergencePC effect <>? u32 (w_pc before + 4)) ||
              (de_ExecuteMask effect .& de_DeferredMask effect <>? 0) ||
              (de_ExecuteMask effect .| de_DeferredMask effect <>? de_OriginalMask effect))
    else EffectValidationError "divergence" "SPLIT control, PC, or mask partition is inconsistent" in
  if negb (de_Divergent effect) then
    check negb (match mask with Some _ => true | None => false end ||
                ((de_ExecuteMask effect <>? 0) && (de_DeferredMask effect <>? 0)))
      else EffectValidationError "divergence" "uniform SPLIT cannot replace the active mask" in
    Ok candidate
  else
    check negb ((wp >=? FrozenDivergenceDepth) || (de_ReconvergencePC effect .& 3 <>? 0) ||
                (de_ExecuteMask effect =? 0) || (de_DeferredMask effect =? 0) ||
                (de_ExecuteMask effect .& de_DeferredMask effect <>? 0))
      else EffectValidationError "divergence" "SPLIT push has invalid capacity, PC, or mask partition" in
    match mask with
    | Some m =>
        check (wm_Reason m ==. WarpMaskSplit) && (wm_Mask m =? de_ExecuteMask effect) && wm_Active m
          else EffectValidationError "divergence" "SPLIT mask effect does not match execute mask" in
        let ds := w_divergence candidate in
        let records := set_record (ds_records ds) wp
          (mkDivergenceRecord true (de_OriginalMask effect) (de_ReconvergencePC effect) false) in
        Ok (set_mask (wm_Mask m) WarpRunning
             (set_divergence (mkDivergenceState (u8 (ds_writePointer ds + 1)) records) candidate))
    | None => effectError "divergence" "SPLIT mask effect does not match execute mask"
    end.

Definition stageJoin (before candidate : WarpState) (effect : DivergenceEffect) (mask : option WarpMaskEffect)
    (control : ControlEffect) : result WarpState :=
  let wp := ds_writePointer (w_divergence before) in
  check negb (de_Push effect || (Bool.eqb (de_MarkElseVisited effect) (de_Pop effect) && de_Divergent effect))
    else EffectValidationError "divergence" "JOIN action flags are contradictory" in
  if negb (de_Divergent effect) then
    check negb ((de_StackPointer effect <>? wp) || (de_OriginalMask effect <>? w_activeMask before) ||
                (de_ExecuteMask effect <>? 0) || (de_DeferredMask effect <>? 0) || (de_ReconvergencePC effect <>? 0) ||
                de_MarkElseVisited effect || de_Pop effect ||
                match mask with Some _ => true | None => false end || (ce_Reason control !=. PCSequential))
      else EffectValidationError "divergence" "non-divergent JOIN metadata is inconsistent" in
    Ok candidate
  else
    check negb (de_StackPointer effect >=? FrozenDivergenceDepth)
      else EffectValidationError "divergence" "JOIN pointer has no record row" in
    let record := record_at (ds_records (w_divergence before)) (de_StackPointer effect) in
    check negb (negb (dr_valid record) || (de_OriginalMask effect <>? dr_originalMask record) ||
                (de_ReconvergencePC effect <>? dr_nextPC record))
      else EffectValidationError "divergence" "JOIN record view is stale" in
    match mask with
    | Some m =>
        check (wm_Reason m ==. WarpMaskJoin) && (wm_Mask m =? de_ExecuteMask effect)
              && Bool.eqb (wm_Active m) (de_ExecuteMask effect <>? 0)
          else EffectValidationError "divergence" "JOIN mask effect does not match execute mask" in
        let ds := w_divergence candidate in
        let? candidate :=
          (if de_MarkElseVisited effect then
             let want := dr_originalMask record .&^ w_activeMask before in
             check negb (dr_elseVisited record || (de_ExecuteMask effect <>? want) || (de_ExecuteMask effect =? 0) ||
                         (ce_Reason control !=. PCReconverge) || (ce_NextPC control <>? dr_nextPC record))
               else EffectValidationError "divergence" "JOIN mark-else transition is invalid" in
             let row := record_at (ds_records ds) (de_StackPointer effect) in
             Ok (set_divergence
                  (mkDivergenceState (ds_writePointer ds)
                     (set_record (ds_records ds) (de_StackPointer effect)
                        (mkDivergenceRecord (dr_valid row) (dr_originalMask row) (dr_nextPC row) true))) candidate)
           else
             check negb (negb (dr_elseVisited record) || (u8 (de_StackPointer effect + 1) <>? wp) ||
                         (de_ExecuteMask effect <>? dr_originalMask record) || (ce_Reason control !=. PCSequential))
               else EffectValidationError "divergence" "JOIN pop transition is invalid" in
             Ok (set_divergence
                  (mkDivergenceState (u8 (ds_writePointer ds - 1))
                     (set_record (ds_records ds) (de_StackPointer effect) no_record)) candidate)) in
        Ok (set_mask (wm_Mask m) (lifecycleFor (wm_Active m)) candidate)
    | None => effectError "divergence" "JOIN mask effect does not match execute mask"
    end.

Definition stageDivergence (before candidate : WarpState) (effect : option DivergenceEffect)
    (mask : option WarpMaskEffect) (control : option ControlEffect) : result WarpState :=
  match effect with
  | None => Ok candidate
  | Some e =>
      check de_WarpID e =? w_id before else EffectValidationError "divergence" "targets another warp" in
      check negb ((de_StackPointer e >? FrozenDivergenceDepth) || negb (LaneMask_Valid (de_OriginalMask e)) ||
                  negb (LaneMask_Valid (de_ExecuteMask e)) || negb (LaneMask_Valid (de_DeferredMask e)))
        else EffectValidationError "divergence" "pointer or lane mask exceeds frozen capacity" in
      check match de_Action e with DivergenceActionOther _ => false | _ => true end
        else EffectValidationError "divergence" "unknown action" in
      match control with
      | None => effectError "divergence" "missing control effect"
      | Some c =>
          match de_Action e with
          | DivergenceSplit => stageSplit before candidate e mask c
          | DivergenceJoin => stageJoin before candidate e mask c
          | DivergenceActionOther _ => Ok candidate
          end
      end
  end.

(** ** Traps and control *)

(** The [want] map is consumed write by write. *)
Definition trapEntryWrite (warpID : Z) (want : option (gmap Z Z)) (write : CSRWriteEffect) : option (gmap Z Z) :=
  want ← want;
  value ← (want : gmap Z Z) !! cw_Address write;
  if (cw_Scope write !=. CSRScopeWarp) || (cw_WarpID write <>? warpID) || (cw_Value write <>? value)
  then None else Some (delete (cw_Address write) want).

Definition trapEntryWritesMatch (writes : list CSRWriteEffect) (warpID : Z) (trap : TrapEffect) : bool :=
  if negb (length writes =? 3)%nat then false
  else
    match fold_left (trapEntryWrite warpID) writes
            (Some {[ 0x341 := te_EPC trap; 0x342 := te_Cause trap; 0x343 := 0 ]}) with
    | Some want => bool_decide (want = ∅)
    | None => false
    end.

Definition stageTrap (before candidate : WarpState) (trap : option TrapEffect) (control : option ControlEffect)
    (writes : list CSRWriteEffect) : result WarpState :=
  match trap with
  | None =>
      check negb (match control with
                  | Some c => (ce_Reason c ==. PCTrap) || (ce_Reason c ==. PCTrapReturn)
                  | None => false
                  end)
        else EffectValidationError "trap" "trap control is missing its trap effect" in
      Ok candidate
  | Some t =>
      match control with
      | None => effectError "trap" "mask exceeds frozen lanes or control is missing"
      | Some c =>
          check LaneMask_Valid (te_SaveThreadMask t) && LaneMask_Valid (te_RestoreThreadMask t)
            else EffectValidationError "trap" "mask exceeds frozen lanes or control is missing" in
          match te_Kind t with
          | TrapEnter =>
              let expectedVector := tc_MTVec (w_trapCSRs before) .&^ 3 in
              check negb ((ce_Reason c !=. PCTrap) || (te_EPC t <>? w_pc before) ||
                          (te_Vector t <>? expectedVector) || (ce_NextPC c <>? expectedVector) ||
                          (ce_Target c <>? expectedVector) || (te_SaveThreadMask t <>? w_activeMask before) ||
                          (te_SaveThreadMask t =? 0) || te_RestoresThreadMask t || (te_RestoreThreadMask t <>? 0))
                else EffectValidationError "trap" "entry PC/vector/mask metadata is inconsistent" in
              check trapEntryWritesMatch writes (w_id before) t
                else EffectValidationError "trap" "entry requires exact MEPC/MCAUSE/MTVAL writes" in
              Ok (set_savedThreadMask (te_SaveThreadMask t) candidate)
          | TrapReturn =>
              check negb ((ce_Reason c !=. PCTrapReturn) || (te_EPC t <>? tc_MEPC (w_trapCSRs before)) ||
                          (ce_NextPC c <>? te_EPC t .&^ 3) || (te_SaveThreadMask t <>? 0) ||
                          negb (length writes =? 0)%nat)
                else EffectValidationError "trap" "return PC/CSR metadata is inconsistent" in
              if te_RestoresThreadMask t then
                check negb ((te_RestoreThreadMask t =? 0) || (te_RestoreThreadMask t <>? w_savedThreadMask before))
                  else EffectValidationError "trap" "return restore mask is stale or empty" in
                Ok (set_mask (te_RestoreThreadMask t) WarpRunning candidate)
              else
                check negb ((te_RestoreThreadMask t <>? 0) || (w_savedThreadMask before <>? 0))
                  else EffectValidationError "trap" "return omitted a nonzero saved mask" in
                Ok candidate
          | TrapKindOther _ => effectError "trap" "unknown kind"
          end
      end
  end.

Definition choosePC (taken : bool) (target sequential : Z) : Z := if taken then target else sequential.

Definition validateControl (before : WarpState) (control : option ControlEffect) : result unit :=
  match control with
  | None => Ok tt
  | Some c =>
      check negb ((ce_CurrentPC c <>? w_pc before) || (ce_NextPC c .& 3 <>? 0))
        else EffectValidationError "control" "current PC is stale or next PC is misaligned" in
      let decisionActive := (ce_DecisionLane c <? FrozenLaneCount) && LaneMask_Active (w_activeMask before) (ce_DecisionLane c) in
      let landed := ce_Taken c && (ce_NextPC c =? ce_Target c) && (ce_Target c .& 3 =? 0) in
      match ce_Reason c with
      | PCSequential =>
          check negb (ce_Taken c || (ce_NextPC c <>? u32 (ce_CurrentPC c + 4)))
            else EffectValidationError "control" "sequential relationship is inconsistent" in Ok tt
      | PCBranch =>
          check negb (negb decisionActive ||
                      (ce_NextPC c <>? choosePC (ce_Taken c) (ce_Target c) (u32 (ce_CurrentPC c + 4))) ||
                      (ce_Taken c && (ce_Target c .& 3 <>? 0)))
            else EffectValidationError "control" "branch decision lane or target relationship is inconsistent" in Ok tt
      | PCJump =>
          check decisionActive && landed
            else EffectValidationError "control" "jump decision lane or target relationship is inconsistent" in Ok tt
      | PCTrap | PCTrapReturn =>
          check landed else EffectValidationError "control" "trap target relationship is inconsistent" in Ok tt
      | PCReconverge =>
          check decisionActive && landed
            else EffectValidationError "control" "reconvergence target relationship is inconsistent" in Ok tt
      | PCReasonOther _ => effectError "control" "unknown reason"
      end
  end.

Definition warpMaskOf (before : WarpState) (masks : list WarpMaskEffect) : result (option WarpMaskEffect) :=
  match masks with
  | [] => Ok None
  | [m] =>
      check wm_WarpID m =? w_id before else EffectValidationError "warp-mask" "targets another warp" in
      check LaneMask_Valid (wm_Mask m) && Bool.eqb (wm_Active m) (wm_Mask m <>? 0)
        else EffectValidationError "warp-mask" "mask and active are inconsistent" in
      check match wm_Reason m with WarpMaskReasonOther _ => false | _ => true end
        else EffectValidationError "warp-mask" "unknown reason" in
      Ok (Some m)
  | _ => effectError "warp-mask" "bundle contains several replacements"
  end.

Definition stageControlMaskDivergenceTrap (before candidate : WarpState) (effects : InstructionEffects) : result WarpState :=
  let? mask := warpMaskOf before (WarpMasks effects) in
  check negb (match Trap effects with Some _ => true | None => false end &&
              (match Divergence effects with Some _ => true | None => false end ||
               match mask with Some _ => true | None => false end ||
               negb (length (RegisterWrites effects) =? 0)%nat ||
               match FFlagsOf effects with Some _ => true | None => false end))
    else EffectValidationError "bundle" "trap cannot coexist with register, FFLAGS, warp-mask, or divergence mutation" in
  let? candidate := stageDivergence before candidate (Divergence effects) mask (Control effects) in
  let? candidate :=
    match Divergence effects, mask with
    | None, Some m =>
        check (wm_Reason m ==. WarpMaskTMC) || (wm_Reason m ==. WarpMaskPredicate)
          else EffectValidationError "warp-mask" "split/join reason requires a divergence effect" in
        check match Control effects with Some c => ce_Reason c ==. PCSequential | None => false end
          else EffectValidationError "warp-mask" "TMC/PRED replacement requires sequential control" in
        Ok (set_mask (wm_Mask m) (lifecycleFor (wm_Active m)) candidate)
    | _, _ => Ok candidate
    end in
  check negb (match Divergence effects, Control effects with
              | None, Some c => ce_Reason c ==. PCReconverge
              | _, _ => false
              end)
    else EffectValidationError "control" "reconvergence requires a divergence transition" in
  let? candidate := stageTrap before candidate (Trap effects) (Control effects) (CSRWrites effects) in
  let? _ := validateControl before (Control effects) in
  Ok (match Control effects with Some c => set_pc (ce_NextPC c) candidate | None => candidate end).

(** ** Staging *)

Definition hasLocalMutation (effects : InstructionEffects) : bool :=
  negb (length (RegisterWrites effects) =? 0)%nat ||
  match Control effects with Some _ => true | None => false end ||
  match FFlagsOf effects with Some _ => true | None => false end ||
  match Trap effects with Some _ => true | None => false end ||
  negb (length (WarpMasks effects) =? 0)%nat ||
  match Divergence effects with Some _ => true | None => false end ||
  existsb local_csr_write (CSRWrites effects).

Definition forwardedEffects (effects : InstructionEffects) : InstructionEffects :=
  mkInstructionEffects [] None (MemoryRequests effects) (Ordering effects) None (CSRReads effects)
    (List.filter (fun write => negb (local_csr_write write)) (CSRWrites effects)) None [] (WarpSpawn effects) None
    (WarpDrains effects) (Barriers effects) (PackedLoads effects) (Faults effects).

Definition requiresExternal (forwarded : InstructionEffects) : bool :=
  negb (length (MemoryRequests forwarded) =? 0)%nat ||
  match Ordering forwarded with Some _ => true | None => false end ||
  negb (length (CSRWrites forwarded) =? 0)%nat ||
  match WarpSpawn forwarded with Some _ => true | None => false end ||
  negb (length (WarpDrains forwarded) =? 0)%nat || negb (length (Barriers forwarded) =? 0)%nat ||
  negb (length (PackedLoads forwarded) =? 0)%nat || negb (length (Faults forwarded) =? 0)%nat.

Definition drain_ok (w : WarpState) (d : WarpDrainEffect) : bool :=
  (wd_WarpID d =? w_id w) && match wd_Kind d with WarpDrainKindOther _ => false | _ => true end.

Definition barrier_ok (w : WarpState) (b : BarrierEffect) : bool :=
  (be_WarpID b =? w_id w) && negb (be_AddressWarp b >=? FrozenWarpCount) && negb (be_ID b >=? FrozenBarrierCount) &&
  match be_Kind b with BarrierNone | BarrierKindOther _ => false | _ => true end.

Definition fault_ok (f : FaultEffect) : bool :=
  match fe_Kind f with FaultNone | FaultKindOther _ => false | _ => true end && negb (fe_Lane f >=? FrozenLaneCount).

Definition spawn_ok (w : WarpState) (s : WarpSpawnEffect) : bool :=
  (ws_SourceWarp s =? w_id w) && WarpMask_Valid (ws_Targets s) && LaneMask_Valid (ws_InitialLaneMask s) &&
  (ws_TargetPC s .& 3 =? 0).

Definition classifyAndValidateForwarded (w : WarpState) (effects : InstructionEffects) : result (InstructionEffects * bool) :=
  let forwarded := forwardedEffects effects in
  check forallb (fun r => negb (mr_Lane r >=? FrozenLaneCount)) (MemoryRequests effects)
    else EffectValidationError "memory-request" "lane exceeds frozen lanes" in
  check match Ordering effects with
        | Some o => negb ((oe_Predecessor o .&^ 0xf <>? 0) || (oe_Successor o .&^ 0xf <>? 0))
        | None => true
        end
    else EffectValidationError "ordering" "I/O/R/W mask exceeds four bits" in
  check match WarpSpawn effects with Some s => spawn_ok w s | None => true end
    else EffectValidationError "warp-spawn" "source, target mask, lane mask, or PC exceeds frozen topology" in
  check forallb (drain_ok w) (WarpDrains effects)
    else EffectValidationError "warp-drain" "wrong warp or unknown kind" in
  check forallb (barrier_ok w) (Barriers effects)
    else EffectValidationError "barrier" "exceeds frozen identity or kind" in
  check forallb (fun r => negb (pr_Lane r >=? FrozenLaneCount)) (PackedLoads effects)
    else EffectValidationError "packed-load" "lane exceeds frozen lanes" in
  check forallb fault_ok (Faults effects) else EffectValidationError "fault" "invalid kind or lane" in
  Ok (forwarded, requiresExternal forwarded).

Record EffectStage := mkEffectStage {
  es_before : WarpState;
  es_after : WarpState;
  es_forwarded : InstructionEffects;
  es_requiresExternal : bool;
  es_committed : bool
}.

Definition StageEffects (w : WarpState) (effects : InstructionEffects) : result EffectStage :=
  let? (forwarded, requires) := classifyAndValidateForwarded w effects in
  check negb (negb (length (Faults effects) =? 0)%nat && hasLocalMutation effects)
    else EffectValidationError "bundle" "fault routing cannot coexist with original local mutation" in
  let? candidate := stageRegisterWrites w (RegisterWrites effects) in
  let? candidate := stageFFlags candidate (FFlagsOf effects) in
  let? _ := validateCSRReads w (CSRReads effects) in
  let? local := localCSRWrites w (CSRWrites effects) in
  let? candidate := stageCSRWrites w candidate local in
  let? candidate := stageControlMaskDivergenceTrap w candidate effects in
  Ok (mkEffectStage w candidate forwarded requires false).

Definition RequiresExternalSuccess (s : EffectStage) : bool := es_requiresExternal s.
Definition ForwardedEffects (s : EffectStage) : InstructionEffects := es_forwarded s.

Definition mark_committed (s : EffectStage) : EffectStage :=
  mkEffectStage (es_before s) (es_after s) (es_forwarded s) (es_requiresExternal s) true.

(** [commit]: the owner's contents, the stage and the result. *)
Definition commit (owner : WarpState) (s : EffectStage) : WarpState * EffectStage * result unit :=
  if es_committed s then (owner, s, Err (Errorf "state: effect stage was already committed"))
  else if owner !=. es_before s then
    (owner, s, Err (Errorf "state: effect stage is stale because canonical state changed"))
  else (es_after s, mark_committed s, Ok tt).

Definition Commit (owner : WarpState) (s : EffectStage) : WarpState * EffectStage * result unit :=
  if es_requiresExternal s then (owner, s, Err (Errorf "state: effect stage requires external owner success"))
  else commit owner s.

Definition CommitAfterExternal (owner : WarpState) (s : EffectStage) : WarpState * EffectStage * result unit :=
  if negb (es_requiresExternal s) then (owner, s, Err (Errorf "state: effect stage has no external prerequisite"))
  else commit owner s.

(** An external owner with state [X]: its callback may change both. *)
Definition external (X : Type) : Type := WarpState * X -> WarpState * X * result unit.

Definition CommitWithExternal {X} (owner : WarpState) (x : X) (s : EffectStage) (apply : external X) :
    WarpState * X * EffectStage * result unit :=
  if es_requiresExternal s then
    (owner, x, s, Err (Errorf "state: coordinated commit requires a local-only effect stage"))
  else if es_committed s then (owner, x, s, Err (Errorf "state: effect stage was already committed"))
  else if owner !=. es_before s then
    (owner, x, s, Err (Errorf "state: effect stage is stale because canonical state changed"))
  else
    match apply (owner, x) with
    | (_, x', Err e) => (es_before s, x', s, Err e)
    | (_, x', Ok _) => (es_after s, x', mark_committed s, Ok tt)
    end.

Definition CommitForwardedWithExternal {X} (owner : WarpState) (x : X) (s : EffectStage) (apply : external X) :
    WarpState * X * EffectStage * result unit :=
  if negb (es_requiresExternal s) then
    (owner, x, s, Err (Errorf "state: coordinated forwarded commit requires an external prerequisite"))
  else if es_committed s then (owner, x, s, Err (Errorf "state: effect stage was already committed"))
  else if owner !=. es_before s then
    (owner, x, s, Err (Errorf "state: effect stage is stale because canonical state changed"))
  else
    match apply (owner, x) with
    | (owner', x', Err e) => (owner', x', s, Err e)
    | (_, x', Ok _) => (es_after s, x', mark_committed s, Ok tt)
    end.

Record ApplyResult := mkApplyResult {
  ar_Committed : bool;
  ar_AwaitingExternal : bool;
  ar_Forwarded : InstructionEffects;
  ar_Pending : option EffectStage
}.

Definition ApplyEffects (w : WarpState) (effects : InstructionEffects) : WarpState * result ApplyResult :=
  match StageEffects w effects with
  | Err e => (w, Err e)
  | Ok stage =>
      let forwarded := ForwardedEffects stage in
      if RequiresExternalSuccess stage then (w, Ok (mkApplyResult false true forwarded (Some stage)))
      else
        match Commit w stage with
        | (w', _, Err e) => (w', Err e)
        | (w', _, Ok _) => (w', Ok (mkApplyResult true false forwarded None))
        end
  end.

(** ** Typed effects: the range facts of the Go field types *)

Record write_typed (e : RegisterWriteEffect) : Prop := {
  wt_bytes : is_u8 (rw_ByteMask e);
  wt_index : is_u8 (reg_Index (rw_Destination e));
  wt_mask : is_u8 (rw_Mask e);
  wt_values : qforall is_u32 (rw_Values e)
}.

Record control_typed (c : ControlEffect) : Prop := {
  ct_next : is_u32 (ce_NextPC c);
  ct_lane : is_u8 (ce_DecisionLane c)
}.

Record div_typed (e : DivergenceEffect) : Prop := {
  dt_pointer : is_u8 (de_StackPointer e);
  dt_original : is_u8 (de_OriginalMask e);
  dt_execute : is_u8 (de_ExecuteMask e);
  dt_deferred : is_u8 (de_DeferredMask e);
  dt_pc : is_u32 (de_ReconvergencePC e)
}.

Record barrier_typed (e : BarrierEffect) : Prop := {
  bt_warp : is_u8 (be_WarpID e);
  bt_count : is_u8 (be_ParticipantCount e);
  bt_expect : is_u8 (be_ExpectCount e)
}.

Record effects_typed (e : InstructionEffects) : Prop := {
  et_writes : Forall write_typed (RegisterWrites e);
  et_requests : Forall (fun r => is_u8 (mr_Lane r) /\ is_u32 (mr_Address r)) (MemoryRequests e);
  et_control : forall c, Control e = Some c -> control_typed c;
  et_flags : forall f, FFlagsOf e = Some f -> is_u8 (ff_Accumulate f);
  et_csr : Forall (fun c => is_u16 (cw_Address c) /\ is_u32 (cw_Value c)) (CSRWrites e);
  et_trap : forall t, Trap e = Some t -> is_u8 (te_SaveThreadMask t) /\ is_u8 (te_RestoreThreadMask t);
  et_masks : Forall (fun m => is_u8 (wm_Mask m)) (WarpMasks e);
  et_div : forall d, Divergence e = Some d -> div_typed d;
  et_spawn : forall s, WarpSpawn e = Some s -> is_u32 (ws_TargetPC s);
  et_barriers : Forall barrier_typed (Barriers e)
}.
