(* ===== verification/ApplyInvariant.v ===== *)
(** * The warp invariant is preserved by every accepted effect bundle

    Whatever bundle is submitted (not only what the evaluators produce), staging it
    on a well-formed warp gives a well-formed candidate; commits are at most once,
    refuse a stale stage, and undo a failed external operation. *)

From S2P Require Import Prelude IsaTypes Catalog Decode Integer System Custom WarpState Apply.

#[local] Open Scope Z_scope.
#[local] Open Scope go_scope.

(** ** Byte-masked register writes *)

Lemma byte_bits_ok m : is_u32 (byte_bits m).
Proof. unfold byte_bits, fold4. repeat case_match; by vm_compute. Qed.

Lemma merge_bits_ok bits old v : is_u32 bits -> is_u32 old -> is_u32 (merge_bits bits old v).
Proof. intros. unfold merge_bits. auto with words. Qed.

(** The lanes after one register write, as a function of the old lanes. *)
Definition write_lanes (write : RegisterWriteEffect) (lanes : quad laneState) : quad laneState :=
  let r := rw_Destination write in
  let bits := byte_bits (if rw_ByteMask write =? 0 then 15 else rw_ByteMask write) in
  if (reg_File r ==. Integer) && (reg_Index r =? 0) then lanes
  else update_lanes (rw_Mask write) (fun lane l =>
    if reg_File r ==. Integer
    then set_gpr (reg_Index r) (merge_bits bits (reg_get (gpr l) (reg_Index r)) (qget (rw_Values write) lane)) l
    else set_fpr (reg_Index r) (merge_bits bits (reg_get (fpr l) (reg_Index r)) (qget (rw_Values write) lane)) l) lanes.

Lemma set_lanes_lanes w : set_lanes (w_lanes w) w = w. Proof. by destruct w. Qed.

Lemma stageRegisterWrite_form acc write acc' :
  stageRegisterWrite acc write = Ok acc' ->
  validateRegister (rw_Destination write) = Ok tt /\ LaneMask_Valid (rw_Mask write) = true /\
  rw_Destination write ∉ acc.1 /\
  acc' = (rw_Destination write :: acc.1, set_lanes (write_lanes write (w_lanes acc.2)) acc.2).
Proof.
  destruct acc as [seen c]. unfold stageRegisterWrite, write_lanes. cbn [fst snd].
  destruct (validateRegister (rw_Destination write)) as [[]|]; [|done].
  destruct (rw_ByteMask write .&^ 15 <>? 0); [done|]. cbn [negb].
  destruct (LaneMask_Valid (rw_Mask write)); [|done].
  destruct (bool_decide (rw_Destination write ∈ seen)) eqn:E; [done|]. cbn [negb]. apply bool_decide_eq_false in E.
  destruct ((reg_File _ ==. Integer) && _); intros <-%Ok_inj; split_and!; try done. by rewrite set_lanes_lanes.
Qed.

Lemma write_lanes_wf write lanes :
  write_typed write -> reg_ok (rw_Destination write) -> qforall lane_wf lanes -> qforall lane_wf (write_lanes write lanes).
Proof.
  intros [_ _ _ Hv] [Hf Hi] Hl. unfold write_lanes. destruct (_ && _) eqn:E; [done|].
  apply update_lanes_wf; [done|]. intros i l Hidx Hw. rewrite qforall_get in Hv.
  destruct (reg_File (rw_Destination write) ==. Integer).
  - apply set_gpr_wf; [done| |done|by apply Z.eqb_neq].
    apply merge_bits_ok; [apply byte_bits_ok|apply reg_get_ok, Hw].
  - apply set_fpr_wf; [done|]. apply merge_bits_ok; [apply byte_bits_ok|apply reg_get_ok, Hw].
Qed.

Lemma stageRegisterWrites_wf w writes w' :
  warp_wf w -> Forall write_typed writes -> stageRegisterWrites w writes = Ok w' ->
  exists lanes, w' = set_lanes lanes w /\ qforall lane_wf lanes.
Proof.
  intros Hw Ht H. unfold stageRegisterWrites in H. apply result_bind_ok in H as ([seen c] & Hf & <-%Ok_inj).
  apply (foldM_inv stageRegisterWrite (fun acc => exists lanes, acc.2 = set_lanes lanes w /\ qforall lane_wf lanes)
           writes ([], w) (seen, c)); [| |exact Hf].
  - exists (w_lanes w). split; [by rewrite set_lanes_lanes|apply Hw].
  - intros acc x acc' Hx (lanes & E & Hl) Hstep. apply stageRegisterWrite_form in Hstep as (Hv & _ & _ & ->). cbn [snd].
    rewrite Forall_forall in Ht. specialize (Ht x Hx). rewrite E.
    exists (write_lanes x lanes). split; [done|]. apply write_lanes_wf; [done| |done].
    eapply validateRegister_inv; [apply Ht|exact Hv].
Qed.

(** ** The staged candidate

    [staged before c]: the candidate is well formed and still has the owner's
    divergence stack and mask, which only the last phase changes. *)
Record staged (before c : WarpState) : Prop := {
  st_wf : warp_wf c;
  st_div : w_divergence c = w_divergence before;
  st_mask : w_activeMask c = w_activeMask before
}.

Lemma stageFFlags_staged before c f c' :
  (forall e, f = Some e -> is_u8 (ff_Accumulate e)) -> staged before c -> stageFFlags c f = Ok c' -> staged before c'.
Proof.
  intros Ht [Hw Hd Hm] H. unfold stageFFlags in H. destruct f as [e|]; [|by apply Ok_inj in H as <-].
  destruct (_ <>? 0); [done|]. cbn [negb] in H. apply Ok_inj in H as <-. split; [|done..].
  apply set_fcsr_wf; [done|]. apply (lor_bounded 8); [lia|apply Hw|by apply Ht].
Qed.

Lemma setCSRValue_staged before c a v : is_u32 v -> staged before c -> staged before (setCSRValue c a v).
Proof.
  intros Hv [Hw Hd Hm]. destruct (wf_trap c Hw). pose proof (wf_fcsr c Hw).
  assert (is_u8 ((w_fcsr c .&^ 0x1f) .| u8 v)) by (apply (lor_bounded 8); [lia|by apply (ldiff_bounded 8)|apply u8_range]).
  assert (is_u8 ((w_fcsr c .& 0x1f) .| u8 (u32 (v << 5))))
    by (apply (lor_bounded 8); [lia| |apply u8_range]; rewrite Z.land_comm; by apply (land_bounded 8)).
  unfold setCSRValue; cbv zeta.
  repeat (match goal with |- context [if ?b then _ else _] => destruct b end; [split; [|done..];
    first [apply set_fcsr_wf; [done|]; first [done | apply u8_range] | apply set_trapCSRs_wf; [done|]; by split]|]).
  by split.
Qed.

Lemma stageCSRWrites_staged before c writes c' :
  Forall (fun x => is_u32 (cw_Value x)) writes -> staged before c -> stageCSRWrites before c writes = Ok c' -> staged before c'.
Proof.
  intros Ht Hs H. unfold stageCSRWrites in H. eapply (foldM_inv _ (staged before)); [exact Hs| |exact H].
  intros s x s' Hx Hst Hstep. unfold stageCSRWrite in Hstep. destruct (csrValue before _).
  - destruct (_ =? _); [|done]. apply Ok_inj in Hstep as <-. apply setCSRValue_staged; [|done].
    rewrite Forall_forall in Ht. by apply Ht.
  - destruct (_ || _); [done|]. by apply Ok_inj in Hstep as <-.
Qed.

(** The local writes are among the submitted ones. *)
Lemma localCSRWrites_incl w writes local : localCSRWrites w writes = Ok local -> forall x, x ∈ local -> x ∈ writes.
Proof.
  unfold localCSRWrites. intros H. apply result_bind_ok in H as ([[l sn] n] & Hf & <-%Ok_inj).
  apply (foldM_inv (localCSRWrite w) (fun acc => forall x, x ∈ acc.1.1 -> x ∈ writes) writes ([], [], 0) (l, sn, n)); [| |exact Hf].
  - intros x Hx. by apply elem_of_nil in Hx.
  - intros [[l0 sn0] n0] y acc' Hy Hp Hstep. unfold localCSRWrite in Hstep.
    destruct (csrEntry_lookup _); [|done]. repeat (case_if_in Hstep; [|done]). apply Ok_inj in Hstep as <-. cbn [fst] in *.
    intros x. destruct (local_csr_write y); [|apply Hp]. rewrite elem_of_app, list_elem_of_singleton. intros [?| ->]; [by apply Hp|done].
Qed.

(** ** Divergence *)

Lemma live_record ds p : div_wf ds -> 0 <= p < 3 -> dr_valid (record_at (ds_records ds) p) = true -> p < ds_writePointer ds.
Proof.
  intros [_ _ _ Hf] Hp Hv. destruct (Z.le_gt_cases (ds_writePointer ds) p); [|done].
  rewrite Hf in Hv by lia. done.
Qed.

Lemma push_wf ds m pc :
  div_wf ds -> ds_writePointer ds < 3 -> mask_ok m -> m <> 0 -> pc_ok pc ->
  div_wf (mkDivergenceState (u8 (ds_writePointer ds + 1))
            (set_record (ds_records ds) (ds_writePointer ds) (mkDivergenceRecord true m pc false))).
Proof.
  intros [Hp Hl Hlive Hfree] Hlt Hm Hne Hpc. rewrite u8_id by (unfold is_u8; lia).
  split; cbn; [lia|by rewrite set_record_length| |]; intros i Hi; rewrite record_at_set by lia.
  - destruct (Z.eqb_spec (ds_writePointer ds) i); [done|]. apply Hlive. lia.
  - destruct (Z.eqb_spec (ds_writePointer ds) i); [lia|]. apply Hfree. lia.
Qed.

Lemma pop_wf ds : div_wf ds -> 0 < ds_writePointer ds ->
  div_wf (mkDivergenceState (u8 (ds_writePointer ds - 1)) (set_record (ds_records ds) (ds_writePointer ds - 1) no_record)).
Proof.
  intros [Hp Hl Hlive Hfree] Hlt. rewrite u8_id by (unfold is_u8; lia).
  split; cbn; [lia|by rewrite set_record_length| |]; intros i Hi; rewrite record_at_set by lia.
  - destruct (Z.eqb_spec (ds_writePointer ds - 1) i); [lia|]. apply Hlive. lia.
  - destruct (Z.eqb_spec (ds_writePointer ds - 1) i); [done|]. apply Hfree. lia.
Qed.

Lemma mark_wf ds p : div_wf ds -> 0 <= p < ds_writePointer ds ->
  let row := record_at (ds_records ds) p in
  div_wf (mkDivergenceState (ds_writePointer ds)
            (set_record (ds_records ds) p (mkDivergenceRecord (dr_valid row) (dr_originalMask row) (dr_nextPC row) true))).
Proof.
  intros [Hp Hl Hlive Hfree] Hlt row. split; cbn; [lia|by rewrite set_record_length| |]; intros i Hi; rewrite record_at_set by lia.
  - destruct (Z.eqb_spec p i) as [<-|]; [|apply Hlive; lia]. destruct (Hlive p Hlt) as [Hv [? ? ?]]. done.
  - destruct (Z.eqb_spec p i); [lia|]. apply Hfree. lia.
Qed.

Lemma lifecycleFor_ok m : lifecycle_ok (lifecycleFor (m <>? 0)) m.
Proof. unfold lifecycle_ok. destruct (Z.eqb_spec m 0); simpl; auto. Qed.

(** A validated mask replacement. *)
Definition mask_effect_ok (m : WarpMaskEffect) : Prop := mask_ok (wm_Mask m) /\ wm_Active m = (wm_Mask m <>? 0).

Lemma warpMaskOf_ok before masks mask :
  Forall (fun m => is_u8 (wm_Mask m)) masks -> warpMaskOf before masks = Ok mask ->
  forall m, mask = Some m -> mask_effect_ok m.
Proof.
  intros Ht H m ->. destruct masks as [|m' [|]]; simpl in H; try done. apply Forall_cons in Ht as [Hu _].
  destruct (_ =? _); [|done]. destruct (LaneMask_Valid (wm_Mask m')) eqn:Ev; [|done].
  destruct (Bool.eqb _ _) eqn:Ea; [|done]. cbn [andb] in H. case_if_in H; [|done]. apply Ok_inj in H as [= ->].
  split; [|by apply eqb_prop]. apply LaneMask_Valid_spec; [unfold is_u8 in Hu; lia|done].
Qed.

(** Split a successful guard [if a || b || .. then Err else ..] into its false parts. *)
Ltac guard_false :=
  repeat match goal with
  | H : _ || _ = false |- _ => apply orb_false_iff in H as [? ?]
  | H : negb _ = false |- _ => apply negb_false_iff in H
  | H : (_ =? _) = true |- _ => apply Z.eqb_eq in H
  | H : (_ =? _) = false |- _ => apply Z.eqb_neq in H
  | H : (_ <=? _) = false |- _ => apply Z.leb_gt in H
  | H : (_ <? _) = false |- _ => apply Z.ltb_ge in H
  | H : _ && _ = true |- _ => apply andb_true_iff in H as [? ?]
  | H : bool_decide _ = true |- _ => apply bool_decide_eq_true in H
  end.

(** Take the surviving branch of each [check] in [H]. *)
Ltac take_checks H :=
  repeat match type of H with
  | (if negb ?b then _ else Err _) = Ok _ => destruct b eqn:?; [done|]; cbn [negb] in H
  | (if ?b then _ else Err _) = Ok _ => destruct b eqn:?; [|done]
  end.

Lemma stageSplit_wf before c e mask control c' :
  warp_wf before -> staged before c -> div_typed e -> (forall m, mask = Some m -> mask_effect_ok m) ->
  mask_ok (de_OriginalMask e) -> stageSplit before c e mask control = Ok c' -> warp_wf c'.
Proof.
  intros Hb [Hw Hd Hm] [] Hmask Ho H. unfold stageSplit in H. cbv zeta in H. change FrozenDivergenceDepth with 3 in H.
  take_checks H. destruct (de_Divergent e); cbn [negb] in H; take_checks H; [|by apply Ok_inj in H as <-].
  destruct mask as [m|]; [|done]. destruct (Hmask m eq_refl) as [Hmo Hma]. take_checks H. apply Ok_inj in H as <-. guard_false.
  apply set_mask_wf; [|done|left; split; [done|congruence]].
  apply set_divergence_wf; [done|]. rewrite Hd.
  apply push_wf; [apply Hb|lia|done| |by apply pc_aligned].
  intros E0. assert (de_ExecuteMask e .| de_DeferredMask e = 0) as E1 by congruence. apply Z.lor_eq_0_iff in E1. tauto.
Qed.

Lemma stageJoin_wf before c e mask control c' :
  warp_wf before -> staged before c -> div_typed e -> (forall m, mask = Some m -> mask_effect_ok m) ->
  stageJoin before c e mask control = Ok c' -> warp_wf c'.
Proof.
  intros Hb [Hw Hd Hm] [Hsp _ _ _ _] Hmask H. unfold stageJoin in H. cbv zeta in H. change FrozenDivergenceDepth with 3 in H.
  take_checks H. destruct (de_Divergent e); cbn [negb] in H; take_checks H; [|by apply Ok_inj in H as <-].
  destruct mask as [m|]; [|done]. destruct (Hmask m eq_refl) as [Hmo Hma]. take_checks H. guard_false.
  pose proof (live_record _ (de_StackPointer e) (wf_div before Hb) ltac:(unfold is_u8 in Hsp; lia) ltac:(assumption)) as Hlt.
  pose proof (wf_div before Hb) as Hdw. unfold is_u8 in Hsp.
  apply result_bind_ok in H as (c1 & Hc1 & <-%Ok_inj).
  apply set_mask_wf; [|done|rewrite Hma; apply lifecycleFor_ok].
  destruct (de_MarkElseVisited e); take_checks Hc1; apply Ok_inj in Hc1 as <-; apply set_divergence_wf; try done; rewrite Hd.
  - apply mark_wf; [done|lia].
  - guard_false. pose proof (dw_pointer _ Hdw). rewrite (u8_id (de_StackPointer e + 1)) in * by (unfold is_u8; lia).
    replace (de_StackPointer e) with (ds_writePointer (w_divergence before) - 1) by lia. apply pop_wf; [done|lia].
Qed.

Lemma stageDivergence_wf before c e mask control c' :
  warp_wf before -> staged before c -> (forall d, e = Some d -> div_typed d) ->
  (forall m, mask = Some m -> mask_effect_ok m) ->
  stageDivergence before c e mask control = Ok c' -> warp_wf c'.
Proof.
  intros Hb Hs Ht Hmask H. unfold stageDivergence in H. destruct e as [d|]; [|apply Ok_inj in H as <-; apply Hs].
  specialize (Ht d eq_refl). take_checks H. destruct control as [k|]; [|done]. guard_false.
  assert (mask_ok (de_OriginalMask d)) by (apply LaneMask_Valid_spec; [apply (dt_original d Ht)|done]).
  destruct (de_Action d); [eapply stageSplit_wf|eapply stageJoin_wf|apply Ok_inj in H as <-; apply Hs]; eauto.
Qed.

Lemma stageTrap_wf before c trap control writes c' :
  warp_wf c -> (forall t, trap = Some t -> is_u8 (te_SaveThreadMask t) /\ is_u8 (te_RestoreThreadMask t)) ->
  stageTrap before c trap control writes = Ok c' -> warp_wf c'.
Proof.
  intros Hw Ht H. unfold stageTrap in H. destruct trap as [t|]; [|take_checks H; by apply Ok_inj in H as <-].
  destruct (Ht t eq_refl) as [Hs Hr]. destruct control as [k|]; [|done]. take_checks H. guard_false.
  assert (mask_ok (te_SaveThreadMask t)) by (apply LaneMask_Valid_spec; [apply Hs|done]).
  assert (mask_ok (te_RestoreThreadMask t)) by (apply LaneMask_Valid_spec; [apply Hr|done]).
  destruct (te_Kind t); [| |done]; take_checks H.
  - apply Ok_inj in H as <-. by apply set_saved_wf.
  - destruct (te_RestoresThreadMask t); take_checks H; apply Ok_inj in H as <-; [|done]. guard_false.
    apply set_mask_wf; [done|done|by left].
Qed.

Lemma validateControl_pc before control u c :
  validateControl before control = Ok u -> control = Some c -> ce_NextPC c .& 3 = 0 /\ ce_CurrentPC c = w_pc before.
Proof.
  intros H ->. unfold validateControl in H. destruct (_ || _) eqn:E; [done|]. clear H. guard_false. split; [done|lia].
Qed.

Lemma stageControl_wf before c effects c' :
  warp_wf before -> staged before c -> effects_typed effects ->
  stageControlMaskDivergenceTrap before c effects = Ok c' -> warp_wf c'.
Proof.
  intros Hb Hs [_ _ Hct _ _ Htt Hmt Hdt] H. unfold stageControlMaskDivergenceTrap in H.
  apply result_bind_ok in H as (mask & Hmask & H). pose proof (warpMaskOf_ok _ _ _ Hmt Hmask) as Hmo. take_checks H.
  apply result_bind_ok in H as (c1 & H1 & H). apply stageDivergence_wf in H1 as Hw1; [|done..].
  apply result_bind_ok in H as (c2 & H2 & H).
  assert (warp_wf c2) as Hw2.
  { destruct (Divergence effects), mask as [m|]; try (by apply Ok_inj in H2 as <-).
    destruct (Hmo m eq_refl) as [Hm Ha]. take_checks H2. apply Ok_inj in H2 as <-.
    apply set_mask_wf; [done|done|]. rewrite Ha. apply lifecycleFor_ok. }
  take_checks H. apply result_bind_ok in H as (c3 & H3 & H). apply stageTrap_wf in H3 as Hw3; [|done..].
  apply result_bind_ok in H as (u & Hv & H). apply Ok_inj in H as <-.
  destruct (Control effects) as [k|] eqn:Ek; [|done]. apply set_pc_wf; [done|].
  destruct (validateControl_pc _ _ _ k Hv eq_refl) as [Hal _]. apply pc_aligned; [|done]. by apply (ct_next k), Hct.
Qed.

(** The bundle's staging, phase by phase. *)
Lemma StageEffects_inv w effects s :
  StageEffects w effects = Ok s ->
  es_before s = w /\ es_committed s = false /\ es_forwarded s = forwardedEffects effects /\
  es_requiresExternal s = requiresExternal (forwardedEffects effects) /\
  exists c1 c2 local c3,
    stageRegisterWrites w (RegisterWrites effects) = Ok c1 /\ stageFFlags c1 (FFlagsOf effects) = Ok c2 /\
    validateCSRReads w (CSRReads effects) = Ok tt /\ localCSRWrites w (CSRWrites effects) = Ok local /\
    stageCSRWrites w c2 local = Ok c3 /\ stageControlMaskDivergenceTrap w c3 effects = Ok (es_after s).
Proof.
  unfold StageEffects. intros H. apply result_bind_ok in H as ([fw rq] & Hc & H).
  assert (fw = forwardedEffects effects /\ rq = requiresExternal (forwardedEffects effects)) as [-> ->].
  { unfold classifyAndValidateForwarded in Hc. cbv zeta in Hc. take_checks Hc. by apply Ok_inj in Hc as [= <- <-]. }
  take_checks H. apply result_bind_ok in H as (c1 & H1 & H). apply result_bind_ok in H as (c2 & H2 & H).
  apply result_bind_ok in H as ([] & H3 & H). apply result_bind_ok in H as (local & H4 & H).
  apply result_bind_ok in H as (c3 & H5 & H). apply result_bind_ok in H as (c4 & H6 & <-%Ok_inj).
  split_and!; [done..|]. exists c1, c2, local, c3. split_and!; done.
Qed.

(** A staged candidate of typed effects is well formed. *)
Lemma StageEffects_after_wf w effects s :
  warp_wf w -> effects_typed effects -> StageEffects w effects = Ok s -> warp_wf (es_after s) /\ es_before s = w.
Proof.
  intros Hw Ht H. apply StageEffects_inv in H as (Hb & _ & _ & _ & c1 & c2 & local & c3 & H1 & H2 & _ & H4 & H5 & H6).
  split; [|done]. apply stageRegisterWrites_wf in H1 as (lanes & -> & Hl); [|done|apply Ht].
  assert (staged w (set_lanes lanes w)) as Hs1 by (split; [by apply set_lanes_wf|done..]).
  eapply stageFFlags_staged in H2 as Hs2; [|by apply Ht|done].
  eapply stageCSRWrites_staged in H5 as Hs3; [|apply Forall_forall; intros x Hx|done].
  - by eapply stageControl_wf.
  - pose proof (et_csr _ Ht) as Hc. rewrite Forall_forall in Hc. eapply Hc, localCSRWrites_incl; eauto.
Qed.

Lemma ApplyEffects_wf w effects : warp_wf w -> effects_typed effects -> warp_wf (ApplyEffects w effects).1.
Proof.
  intros Hw Ht. unfold ApplyEffects. destruct (StageEffects w effects) as [s|] eqn:E; [|done].
  destruct (StageEffects_after_wf w effects s Hw Ht E) as [Ha Hb]. unfold RequiresExternalSuccess.
  destruct (es_requiresExternal s) eqn:Er; [done|].
  unfold Commit, commit. rewrite Er, Hb. destruct (es_committed s); [done|]. by rewrite bool_decide_true.
Qed.

(** On a well-formed warp, every effect bundle that staging accepts (whatever
    produced it) yields a well-formed candidate; staging itself changes nothing,
    and applying a bundle either leaves the warp untouched or moves it to that
    well-formed candidate. *)
Theorem StageEffects_preserves_wf w effects :
  warp_wf w -> effects_typed effects ->
  (forall s, StageEffects w effects = Ok s -> warp_wf (es_after s) /\ es_before s = w) /\
  warp_wf (ApplyEffects w effects).1.
Proof. intros Hw Ht. split; [intros s; by apply StageEffects_after_wf|by apply ApplyEffects_wf]. Qed.

(** The effects of "addi x5, x0, 9" on the example warp. *)
Definition addi_effects : InstructionEffects :=
  with_RegisterWrites [mkRegisterWriteEffect 0 (mkRegister Integer 5) 15 (qfill 9)]
    (with_Control (sequentialControl 0x80000000) no_effects).

Lemma addi_effects_typed : effects_typed addi_effects.
Proof.
  split; cbn [addi_effects RegisterWrites MemoryRequests Control FFlagsOf CSRWrites Trap WarpMasks Divergence with_RegisterWrites with_Control
    no_effects]; try done.
  - apply Forall_singleton. split; cbn; [by vm_compute..|]. by apply qforall_qfill.
  - intros c [= <-]. by split; vm_compute.
Qed.

Example StageEffects_preserves_wf_witness :
  warp_wf example_warp /\ effects_typed addi_effects /\
  warp_wf (ApplyEffects example_warp addi_effects).1 /\ w_pc (ApplyEffects example_warp addi_effects).1 = 0x80000004.
Proof.
  split; [apply example_warp_wf|]. split; [apply addi_effects_typed|]. split; [|vm_compute; reflexivity].
  apply (StageEffects_preserves_wf example_warp addi_effects); [apply example_warp_wf|apply addi_effects_typed].
Defined.

(** C38: the commit protocol, on every path.  A fresh stage commits exactly once, to its
    candidate, through the entry points of its kind; those of the other kind refuse it.
    When the external operation of a local stage fails, the owner gets its exact
    pre-apply contents back, whatever the operation did to it; when that of a forwarded
    stage fails, the candidate is not installed and the owner is as the operation left
    it, so an operation that leaves it alone can be retried; in both cases the error is
    the operation's and the stage stays uncommitted.  A stage whose owner has changed
    since staging, or that was committed, is refused by every entry point without
    calling the external operation and without any change. *)
Theorem commit_protocol {X} w effects s (apply : external X) :
  StageEffects w effects = Ok s ->
  (forall x owner' x' e, apply (w, x) = (owner', x', Err e) ->
     if es_requiresExternal s then
       CommitForwardedWithExternal w x s apply = (owner', x', s, Err e) /\
       (owner' = w -> CommitAfterExternal owner' s = (es_after s, mark_committed s, Ok tt))
     else CommitWithExternal w x s apply = (w, x', s, Err e) /\ Commit w s = (es_after s, mark_committed s, Ok tt)) /\
  (forall x owner' x' u, apply (w, x) = (owner', x', Ok u) ->
     if es_requiresExternal s then CommitForwardedWithExternal w x s apply = (es_after s, x', mark_committed s, Ok tt)
     else CommitWithExternal w x s apply = (es_after s, x', mark_committed s, Ok tt)) /\
  (if es_requiresExternal s then CommitAfterExternal w s else Commit w s) = (es_after s, mark_committed s, Ok tt) /\
  (forall x, exists e1 e2, if es_requiresExternal s
     then Commit w s = (w, s, Err e1) /\ CommitWithExternal w x s apply = (w, x, s, Err e2)
     else CommitAfterExternal w s = (w, s, Err e1) /\ CommitForwardedWithExternal w x s apply = (w, x, s, Err e2)) /\
  (forall owner x t, (owner <> w /\ t = s) \/ t = mark_committed s ->
   exists e1 e2 e3 e4, Commit owner t = (owner, t, Err e1) /\ CommitAfterExternal owner t = (owner, t, Err e2) /\
   CommitWithExternal owner x t apply = (owner, x, t, Err e3) /\
   CommitForwardedWithExternal owner x t apply = (owner, x, t, Err e4)).
Proof.
  intros H. apply StageEffects_inv in H as (Hb & Hc & _).
  unfold Commit, CommitAfterExternal, CommitWithExternal, CommitForwardedWithExternal, commit. split; [|split; [|split; [|split]]].
  - intros x owner' x' e E. rewrite Hc, Hb, bool_decide_true by done. destruct (es_requiresExternal s); cbn [negb]; rewrite E; (split; [done|]); [|done].
    intros ->. by rewrite bool_decide_true.
  - intros x owner' x' u E. rewrite Hc, Hb, bool_decide_true by done. destruct (es_requiresExternal s); cbn [negb]; by rewrite E.
  - rewrite Hc, Hb, bool_decide_true by done. by destruct (es_requiresExternal s).
  - intros x. destruct (es_requiresExternal s); cbn [negb]; by do 2 eexists.
  - intros owner x t [[Hne ->]| ->].
    + rewrite Hc, Hb, bool_decide_false by done. cbn [negb]. destruct (es_requiresExternal s); cbn [negb]; eauto 10.
    + cbn [mark_committed es_requiresExternal es_committed]. destruct (es_requiresExternal s); cbn [negb]; eauto 10.
Qed.

(** An arrival at a barrier, forwarded before it commits. *)
Definition barrier_effects : InstructionEffects :=
  with_Barriers [mkBarrierEffect 1 0 0 BarrierSync false true false false false false 0 2 1 false false] (with_Control (sequentialControl 0x80000000) no_effects).

(** The callback moves the warp and counts its calls; it fails when [fails]. *)
Definition moving_call (fails : bool) : external Z :=
  fun '(w, n) => (set_pc 0x80001000 w, n + 1, if fails then Err (Errorf "refused") else Ok tt).

Example commit_protocol_witness :
  (exists s, StageEffects example_warp addi_effects = Ok s /\
     CommitWithExternal example_warp 0 s (moving_call true) = (example_warp, 1, s, Err (Errorf "refused")) /\
     exists e, Commit (es_after s) s = (es_after s, s, Err e)) /\
  exists s, StageEffects example_warp barrier_effects = Ok s /\
     CommitForwardedWithExternal example_warp 0 s (moving_call true) = (set_pc 0x80001000 example_warp, 1, s, Err (Errorf "refused")) /\
     CommitForwardedWithExternal example_warp 0 s (moving_call false) = (es_after s, 1, mark_committed s, Ok tt).
Proof.
  split.
  - destruct (StageEffects example_warp addi_effects) as [s|] eqn:E; [|vm_compute in E; discriminate]. exists s. split; [done|].
    destruct (commit_protocol example_warp addi_effects s (moving_call true) E) as (He & _ & _ & _ & H).
    assert (es_requiresExternal s = false) as Hr by (vm_compute in E; by apply Ok_inj in E as <-). specialize (He 0 _ _ _ eq_refl). rewrite Hr in He. split; [apply He|].
    destruct (H (es_after s) 0 s) as (e & _ & _ & _ & Hs & _); [|by exists e]. left. split; [|done]. vm_compute in E. apply Ok_inj in E as <-. by vm_compute.
  - destruct (StageEffects example_warp barrier_effects) as [s|] eqn:E; [|vm_compute in E; discriminate]. exists s. split; [done|].
    assert (es_requiresExternal s = true) as Hr by (vm_compute in E; by apply Ok_inj in E as <-). split.
    + pose proof (proj1 (commit_protocol example_warp barrier_effects s (moving_call true) E) 0 _ _ _ eq_refl) as He. rewrite Hr in He. apply He.
    + pose proof (proj1 (proj2 (commit_protocol example_warp barrier_effects s (moving_call false) E)) 0 _ _ _ eq_refl) as He. rewrite Hr in He. exact He.
Defined.
