(* ===== verification/View.v ===== *)
(** * Snapshots, operand capture and evaluator routing
    (src/emu/state/view.go, integration.go, instruction_context.go, operands.go)

    A [WarpSnapshot] has the fields of a [WarpState] and is a value copy of it.
    The builders assemble the evaluators' inputs from a snapshot and the context
    owned elsewhere; [Evaluate] routes a decoded instruction to its evaluator;
    [OperandCapture] samples source operands one bank read at a time; and
    [ExecuteSingle] is the decode/view/evaluate/apply boundary. *)

From S2P Require Import Prelude IsaTypes Catalog Decode Integer System Custom Softfloat Float WarpState Apply.

#[local] Open Scope Z_scope.
#[local] Open Scope go_scope.

(** ** view.go *)

(** [[4][8]bool]: the rows are lists of eight. *)
Definition BarrierPhaseView : Type := quad (list bool).

Record ReadContext := mkReadContext {
  rc_CoreID : Z;
  rc_ActiveWarps : Z;
  rc_CTA : CTAView;
  rc_Counters : CounterView;
  rc_Bounds : option AddressBounds;
  rc_BarrierPhase : bool;
  rc_BarrierPhases : option BarrierPhaseView;
  rc_PendingPriorWork : bool;
  rc_PendingLSU : bool
}.

Definition WarpSnapshot : Type := WarpState.
Definition Snapshot (w : WarpState) : result WarpSnapshot := Ok w.

(** [WarpSnapshot.ReadRegister] *)
Definition Snapshot_ReadRegister (s : WarpSnapshot) (register : Register) : result LaneValues :=
  let? _ := validateRegister register in
  Ok (qmake (fun lane =>
    if reg_File register ==. Integer then
      (if reg_Index register <>? 0 then reg_get (gpr (qget (w_lanes s) lane)) (reg_Index register) else 0)
    else reg_get (fpr (qget (w_lanes s) lane)) (reg_Index register))).

Record DivergenceRecordSnapshot := mkDivergenceRecordSnapshot {
  drs_Valid : bool;
  drs_Pointer : Z;
  drs_OriginalMask : LaneMask;
  drs_NextPC : Z;
  drs_ElseVisited : bool
}.

(** [WarpSnapshot.DivergenceRecord] *)
Definition Snapshot_DivergenceRecord (s : WarpSnapshot) (pointer : Z) : result DivergenceRecordSnapshot :=
  check negb (pointer >=? FrozenDivergenceDepth)
    else Errorf "state: divergence record pointer exceeds record capacity" in
  let record := record_at (ds_records (w_divergence s)) pointer in
  Ok (mkDivergenceRecordSnapshot (dr_valid record) pointer (dr_originalMask record) (dr_nextPC record) (dr_elseVisited record)).

(** A [[3]LaneValues]: the values read so far, zero beyond. *)
Definition source (sources : list LaneValues) (i : nat) : LaneValues := default (qfill 0) (sources !! i).

Definition sourceValues (s : WarpSnapshot) (d : Decoded) : result (list LaneValues) :=
  check negb (3 <? length (d_Sources d))%nat else Errorf "state: decoded instruction has too many sources" in
  foldM (fun values register => let? v := Snapshot_ReadRegister s register in Ok (values ++ [v])) [] (d_Sources d).

Definition validateContext (context : ReadContext) : result (option AddressBounds) :=
  check negb (rc_CoreID context >=? FrozenCoreCount) else Errorf "state: core id exceeds frozen core count" in
  check negb (rc_ActiveWarps context .&^ AllWarps <>? 0) else Errorf "state: active warp mask exceeds frozen warps" in
  check negb ((ctr_Cycle (rc_Counters context) >=? 1 << FrozenCounterBits) ||
              (ctr_Instret (rc_Counters context) >=? 1 << FrozenCounterBits))
    else Errorf "state: counter view exceeds frozen width" in
  match rc_Bounds context with
  | None => Ok None
  | Some b =>
      check negb (u64 (ab_Base b + ab_Size b) >? 1 << 32)
        else Errorf "state: address bounds exceed the 32-bit address space" in
      Ok (Some b)
  end.

Definition roundingMode (raw : Z) : RoundingMode :=
  if raw =? 0 then RNE
  else if raw =? 1 then RTZ
  else if raw =? 2 then RDN
  else if raw =? 3 then RUP
  else if raw =? 4 then RMM
  else RoundingNone.

Definition highestActive (mask : LaneMask) : Z :=
  if LaneMask_Active mask 3 then 3
  else if LaneMask_Active mask 2 then 2
  else if LaneMask_Active mask 1 then 1
  else 0.

Definition Snapshot_IntegerInput (s : WarpSnapshot) (d : Decoded) (context : ReadContext) : result IntegerInput :=
  let? sources := sourceValues s d in
  let? bounds := validateContext context in
  Ok (mkIntegerInput (w_pc s) (w_activeMask s) (source sources 0) (source sources 1) bounds).

Definition Snapshot_FloatInput (s : WarpSnapshot) (d : Decoded) (context : ReadContext) : result FloatInput :=
  let? sources := sourceValues s d in
  let? bounds := validateContext context in
  Ok (mkFloatInput (w_pc s) (w_activeMask s) (source sources 0) (source sources 1) (source sources 2)
        (roundingMode ((w_fcsr s >> 5) .& 7)) bounds).

Definition csr_view (s : WarpSnapshot) (context : ReadContext) : CSRView :=
  {| cv_WarpID := w_id s; cv_CoreID := rc_CoreID context; cv_ActiveWarps := rc_ActiveWarps context;
     cv_ThreadMask := w_activeMask s; cv_SavedThreadMask := w_savedThreadMask s;
     cv_FCSR := w_fcsr s; cv_MStatus := tc_MStatus (w_trapCSRs s); cv_MTVec := tc_MTVec (w_trapCSRs s);
     cv_MScratch := tc_MScratch (w_trapCSRs s); cv_MEPC := tc_MEPC (w_trapCSRs s);
     cv_MCause := tc_MCause (w_trapCSRs s); cv_MTVal := tc_MTVal (w_trapCSRs s);
     cv_CTA := rc_CTA context; cv_Counters := rc_Counters context |}.

Definition Snapshot_SystemInput (s : WarpSnapshot) (d : Decoded) (context : ReadContext) : result SystemInput :=
  let? sources := sourceValues s d in
  let? _ := validateContext context in
  Ok (mkSystemInput (w_pc s) (w_activeMask s) (source sources 0) (csr_view s context)).

Definition no_record_view : DivergenceRecordView := mkDivergenceRecordView false 0 0 0 false.

Definition divergence_view (s : WarpSnapshot) (d : Decoded) (sources : list LaneValues) : DivergenceView :=
  let record :=
    if d_Control d ==. ControlJoin then
      let lane := highestActive (w_activeMask s) in
      let pointer := u8 (qget (source sources 0) lane .& 3) in
      if pointer <? FrozenDivergenceDepth then
        let record := record_at (ds_records (w_divergence s)) pointer in
        mkDivergenceRecordView (dr_valid record) pointer (dr_originalMask record) (dr_nextPC record) (dr_elseVisited record)
      else no_record_view
    else no_record_view in
  mkDivergenceView (ds_writePointer (w_divergence s)) record.

Definition customInputWithSources (s : WarpSnapshot) (d : Decoded) (context : ReadContext) (sources : list LaneValues) :
    result CustomInput :=
  let? bounds := validateContext context in
  let barrierPhase :=
    match rc_BarrierPhases context with
    | Some phases =>
        if d_Barrier d !=. BarrierNone then
          let lane := highestActive (w_activeMask s) in
          let addressWarp := u8 (qget (source sources 0) lane) .& (FrozenWarpCount - 1) in
          let barrierID := u8 (qget (source sources 0) lane >> 8) .& 7 in
          default false (qget phases addressWarp !! Z.to_nat barrierID)
        else rc_BarrierPhase context
    | None => rc_BarrierPhase context
    end in
  Ok {| ci_PC := w_pc s; ci_ActiveMask := w_activeMask s;
        ci_RS1 := source sources 0; ci_RS2 := source sources 1; ci_RS3 := source sources 2;
        ci_WarpID := w_id s; ci_MScratch := tc_MScratch (w_trapCSRs s); ci_Divergence := divergence_view s d sources;
        ci_BarrierPhase := barrierPhase; ci_PendingPriorWork := rc_PendingPriorWork context;
        ci_PendingLSU := rc_PendingLSU context; ci_Bounds := bounds |}.

Definition Snapshot_CustomInput (s : WarpSnapshot) (d : Decoded) (context : ReadContext) : result CustomInput :=
  let? sources := sourceValues s d in customInputWithSources s d context sources.

(** ** instruction_context.go *)

Record InstructionContext := mkInstructionContext { ic_WarpID : Z; ic_PC : Z; ic_Mask : LaneMask }.

Definition WithInstructionContext (s : WarpSnapshot) (context : InstructionContext) : result WarpSnapshot :=
  check negb ((ic_WarpID context <>? w_id s) || (ic_PC context .& 3 <>? 0) || negb (LaneMask_Valid (ic_Mask context)) ||
              (ic_Mask context =? 0))
    else Errorf "invalid latched instruction context" in
  Ok (set_mask (ic_Mask context) WarpRunning (set_pc (ic_PC context) s)).

(** ** integration.go *)

Section Evaluate.
Context `{SoftFloatLib}.

Definition evaluateOperands (s : WarpSnapshot) (d : Decoded) (context : ReadContext) (sources : list LaneValues) :
    result InstructionEffects :=
  let category := d_Category d in
  if (category == CategoryRV32I) || (category == CategoryRV32M) || (category == CategoryZicond) || (category == CategoryFence) then
    let? input := Snapshot_IntegerInput s d context in
    EvaluateInteger d (mkIntegerInput (ii_PC input) (ii_ActiveMask input) (source sources 0) (source sources 1) (ii_Bounds input))
  else if category == CategoryRV32F then
    let? input := Snapshot_FloatInput s d context in
    EvaluateFloat d (mkFloatInput (fi_PC input) (fi_ActiveMask input) (source sources 0) (source sources 1) (source sources 2)
                       (fi_FRM input) (fi_Bounds input))
  else if category == CategorySystem then
    let? input := Snapshot_SystemInput s d context in
    EvaluateSystem d (mkSystemInput (si_PC input) (si_ActiveMask input) (source sources 0) (si_CSR input))
  else if category == CategoryCustom then
    let? input := customInputWithSources s d context sources in
    EvaluateCustom d input
  else Err (Errorf "state: decoded instruction has unsupported category").

Definition Evaluate (s : WarpSnapshot) (d : Decoded) (context : ReadContext) : result InstructionEffects :=
  let? sources := sourceValues s d in evaluateOperands s d context sources.

Record SingleInstructionResult := mkSingleInstructionResult {
  sr_Decoded : Decoded;
  sr_Effects : InstructionEffects;
  sr_Apply : ApplyResult
}.

Definition ExecuteSingle (w : WarpState) (word : Z) (context : ReadContext) : WarpState * result SingleInstructionResult :=
  match (let? d := Decode word in
         let? snapshot := Snapshot w in
         let? effects := Evaluate snapshot d context in Ok (d, effects)) with
  | Err e => (w, Err e)
  | Ok (d, effects) =>
      let '(w', r) := ApplyEffects w effects in
      (w', let? a := r in Ok (mkSingleInstructionResult d effects a))
  end.

(** [WarpSnapshot.CompleteMemory] *)
Definition Snapshot_CompleteMemory (s : WarpSnapshot) (d : Decoded) (expected : LaneMask) (responses : list MemoryResponse) :
    result InstructionEffects :=
  if d_Category d == CategoryRV32F then CompleteFloatMemory d (w_pc s) expected responses
  else CompleteMemory d (w_pc s) expected responses.

Definition CompleteMemoryAndApply (w : WarpState) (d : Decoded) (expected : LaneMask) (responses : list MemoryResponse) :
    WarpState * result SingleInstructionResult :=
  match Snapshot_CompleteMemory w d expected responses with
  | Err e => (w, Err e)
  | Ok effects =>
      let '(w', r) := ApplyEffects w effects in
      (w', let? a := r in Ok (mkSingleInstructionResult d effects a))
  end.

Definition Snapshot_CompletePackedLoad (s : WarpSnapshot) (d : Decoded) (expected : LaneMask)
    (responses : list PackedLoadResponse) : result InstructionEffects :=
  CompletePackedLoad d (w_pc s) expected responses.

Definition Snapshot_CompletePackedLoadPart (s : WarpSnapshot) (d : Decoded) (expected : LaneMask) (element : Z)
    (responses : list PackedLoadResponse) : result InstructionEffects :=
  CompletePackedLoadPart d (w_pc s) expected element responses.

(** ** operands.go *)

Record OperandCapture := mkOperandCapture {
  oc_latched : bool;
  oc_snapshot : WarpSnapshot;
  oc_decoded : Decoded;
  oc_context : ReadContext;
  oc_values : list LaneValues;
  oc_read : Z
}.

(** The loop that marks the x0 positions as read. *)
Definition x0_positions (sources : list Register) : Z :=
  fold_left (fun mask '(i, r) => if (reg_File r ==. Integer) && (reg_Index r =? 0) then mask .| u8 (1 << Z.of_nat i) else mask)
    (imap pair sources) 0.

Definition NewOperandCapture (snapshot : WarpSnapshot) (word : Z) (context : ReadContext) : result OperandCapture :=
  let? d := Decode word in
  let? bounds := validateContext context in
  let context := mkReadContext (rc_CoreID context) (rc_ActiveWarps context) (rc_CTA context) (rc_Counters context) bounds
    (rc_BarrierPhase context) (rc_BarrierPhases context) (rc_PendingPriorWork context) (rc_PendingLSU context) in
  Ok (mkOperandCapture false snapshot d context [qfill 0; qfill 0; qfill 0] (x0_positions (d_Sources d))).

Definition NewLatchedOperandCapture (snapshot : WarpSnapshot) (word : Z) (context : ReadContext)
    (instruction : InstructionContext) : result OperandCapture :=
  let? view := WithInstructionContext snapshot instruction in
  let? c := NewOperandCapture view word context in
  Ok (mkOperandCapture true (oc_snapshot c) (oc_decoded c) (oc_context c) (oc_values c) (oc_read c)).

(** [uint8((1 << len(c.decoded.Sources)) - 1)] *)
Definition all_positions (c : OperandCapture) : Z := u8 ((1 << Z.of_nat (length (d_Sources (oc_decoded c)))) - 1).

Definition Complete (c : OperandCapture) : bool := oc_read c =? all_positions c.

(** The latched view of a later snapshot. *)
Definition capture_view (c : OperandCapture) (snapshot : WarpSnapshot) : result WarpSnapshot :=
  if oc_latched c
  then WithInstructionContext snapshot
         (mkInstructionContext (w_id (oc_snapshot c)) (w_pc (oc_snapshot c)) (w_activeMask (oc_snapshot c)))
  else Ok snapshot.

Definition same_context (c : OperandCapture) (snapshot : WarpSnapshot) : bool :=
  (w_id snapshot =? w_id (oc_snapshot c)) && (w_pc snapshot =? w_pc (oc_snapshot c)) &&
  (w_activeMask snapshot =? w_activeMask (oc_snapshot c)).

(** [OperandCapture.Read]: nothing changes on an error. *)
Definition Capture_Read (c : OperandCapture) (snapshot : WarpSnapshot) (positions : Z) : OperandCapture * result unit :=
  let attempt :=
    let? snapshot := capture_view c snapshot in
    check same_context c snapshot else Errorf "operand context changed before read" in
    check negb ((positions .&^ all_positions c <>? 0) || (positions .& oc_read c <>? 0))
      else Errorf "invalid or duplicate operand read" in
    foldM (fun values '(i, r) =>
             if positions .& u8 (1 << Z.of_nat i) <>? 0 then
               let? v := Snapshot_ReadRegister snapshot r in Ok (<[i := v]> values)
             else Ok values)
      (oc_values c) (imap pair (d_Sources (oc_decoded c))) in
  match attempt with
  | Err e => (c, Err e)
  | Ok values =>
      (mkOperandCapture (oc_latched c) (oc_snapshot c) (oc_decoded c) (oc_context c) values (oc_read c .| positions), Ok tt)
  end.

Definition EvaluateAt (c : OperandCapture) (contextSnapshot : WarpSnapshot) (context : ReadContext) : result InstructionEffects :=
  let? contextSnapshot := capture_view c contextSnapshot in
  check Complete c else Errorf "operands are incomplete" in
  check same_context c contextSnapshot else Errorf "execution context does not match captured instruction" in
  evaluateOperands contextSnapshot (oc_decoded c) context (oc_values c).

Definition Capture_Evaluate (c : OperandCapture) : result InstructionEffects := EvaluateAt c (oc_snapshot c) (oc_context c).

(** ** Reading the sources *)

Lemma Snapshot_ReadRegister_ok s r : reg_ok r -> Snapshot_ReadRegister s r = Ok (read_register (w_lanes s) r).
Proof. intros Hr. unfold Snapshot_ReadRegister. by rewrite validateRegister_ok. Qed.

Lemma sourceValues_ok s d :
  (length (d_Sources d) <= 3)%nat -> Forall reg_ok (d_Sources d) ->
  sourceValues s d = Ok (map (read_register (w_lanes s)) (d_Sources d)).
Proof.
  intros Hl Hr. unfold sourceValues. destruct (Nat.ltb_spec 3 (length (d_Sources d))); [lia|]. cbn [negb].
  enough (forall acc, foldM (fun values register => let? v := Snapshot_ReadRegister s register in Ok (values ++ [v])) acc (d_Sources d) =
    Ok (acc ++ map (read_register (w_lanes s)) (d_Sources d))) as ->; [done|].
  induction Hr as [|r rs Hr Hrs IH]; intros acc; cbn [foldM map]; [by rewrite app_nil_r|].
  rewrite Snapshot_ReadRegister_ok by done. cbn [result_bind]. rewrite IH by (simpl in *; lia). by rewrite <- app_assoc.
Qed.

Lemma validateContext_bounds context b : validateContext context = Ok b -> b = rc_Bounds context.
Proof.
  unfold validateContext. repeat (case_match; try done). all: by intros [= <-].
Qed.

Lemma evaluateOperands_ext s d context vs vs' :
  (forall i, (i < 3)%nat -> source vs i = source vs' i) -> evaluateOperands s d context vs = evaluateOperands s d context vs'.
Proof.
  intros E. unfold evaluateOperands, customInputWithSources, divergence_view.
  rewrite (E 0%nat), (E 1%nat), (E 2%nat) by lia. done.
Qed.

(** A sequence of bank reads, each from the snapshot of its cycle. *)
Fixpoint capture_reads (c : OperandCapture) (reads : list (WarpSnapshot * Z)) : result OperandCapture :=
  match reads with
  | [] => Ok c
  | (s, positions) :: rest =>
      match Capture_Read c s positions with
      | (_, Err e) => Err e
      | (c', Ok _) => capture_reads c' rest
      end
  end.

(** The values captured so far: the register of every position read, zero elsewhere. *)
Definition captured (s : WarpSnapshot) (c : OperandCapture) : Prop :=
  length (oc_values c) = 3%nat /\
  forall i, (i < 3)%nat -> source (oc_values c) i =
    match d_Sources (oc_decoded c) !! i with
    | Some r => if Z.testbit (oc_read c) (Z.of_nat i) then read_register (w_lanes s) r else qfill 0
    | None => qfill 0
    end.

Lemma bit_test m i : (i < 3)%nat -> (m .& u8 (1 << Z.of_nat i) <>? 0) = Z.testbit m (Z.of_nat i).
Proof.
  intros Hi. rewrite u8_id; [by apply land_pow2_testbit; lia|].
  rewrite Z.shiftl_1_l. destruct i as [|[|[|i]]]; [by vm_compute..|lia].
Qed.

Lemma source_insert i j (v : LaneValues) vs :
  (i < length vs)%nat -> source (<[i := v]> vs) j = if decide (i = j) then v else source vs j.
Proof.
  intros Hi. unfold source. case_decide as E; [subst; by rewrite list_lookup_insert_eq|by rewrite list_lookup_insert_ne].
Qed.

(** The read loop of [Capture_Read], position by position. *)
Lemma read_loop_spec snap positions regs k vs :
  Forall reg_ok regs -> (k + length regs <= 3)%nat -> length vs = 3%nat ->
  exists vs', foldM (fun values '(i, r) =>
      if positions .& u8 (1 << Z.of_nat i) <>? 0 then let? v := Snapshot_ReadRegister snap r in Ok (<[i := v]> values)
      else Ok values) vs (imap (fun i r => (k + i, r)%nat) regs) = Ok vs' /\ length vs' = 3%nat /\
  forall j, source vs' j =
    match regs !! (j - k)%nat with
    | Some r => if decide (k <= j)%nat then (if Z.testbit positions (Z.of_nat j) then read_register (w_lanes snap) r else source vs j)
                else source vs j
    | None => source vs j
    end.
Proof.
  intros Hr. revert k vs. induction Hr as [|r regs Hr Hrs IH]; intros k vs Hk Hl; cbn [imap foldM].
  - exists vs. split_and!; [done..|]. intros j. by rewrite lookup_nil.
  - simpl in Hk. rewrite Nat.add_0_r, bit_test by lia.
    assert (imap (fun i r => (k + i, r)%nat) (r :: regs) = (k, r) :: imap (fun i r => (S k + i, r)%nat) regs) as Himap.
    { simpl. rewrite Nat.add_0_r. f_equal. apply imap_ext. intros. simpl. f_equal. lia. }
    simpl in Himap. injection Himap as _ Himap.
    set (vs1 := if Z.testbit positions (Z.of_nat k) then <[k := read_register (w_lanes snap) r]> vs else vs).
    destruct (IH (S k) vs1) as (vs' & Hf & Hl' & Hs); [lia|subst vs1; case_match; [by rewrite length_insert|done]|].
    exists vs'. split_and!; [|done|].
    + replace (imap ((fun i r0 => (k + i, r0)%nat) ∘ S) regs) with (imap (fun i r0 => (S k + i, r0)%nat) regs)
        by (symmetry; apply imap_ext; intros; simpl; f_equal; lia).
      subst vs1. destruct (Z.testbit positions (Z.of_nat k)); [|done]. by rewrite Snapshot_ReadRegister_ok.
    + intros j. rewrite Hs. destruct (decide (j = k)) as [->|Hne].
      * rewrite Nat.sub_diag. replace (k - S k)%nat with 0%nat by lia. simpl.
        rewrite (decide_True (P := (k <= k)%nat)) by lia. transitivity (source vs1 k).
        { destruct (regs !! 0%nat); [by rewrite decide_False by lia|done]. }
        subst vs1. destruct (Z.testbit positions (Z.of_nat k)); [|done]. by rewrite source_insert, decide_True by (done || lia).
      * assert (source vs1 j = source vs j) as ->.
        { subst vs1. destruct (Z.testbit positions (Z.of_nat k)); [|done]. by rewrite source_insert, decide_False by (done || lia). }
        destruct (decide (k <= j)%nat).
        -- replace (j - k)%nat with (S (j - S k)) by lia. simpl. case_match; [|done]. by rewrite decide_True by lia.
        -- replace (j - k)%nat with 0%nat by lia. replace (j - S k)%nat with 0%nat by lia. simpl.
           case_match; [by rewrite decide_False by lia|done].
Qed.

Lemma x0_positions_spec regs i r :
  (length regs <= 3)%nat -> regs !! i = Some r -> Z.testbit (x0_positions regs) (Z.of_nat i) = true ->
  reg_File r = Integer /\ reg_Index r = 0.
Proof.
  intros Hl Hi Hb. set (z r := (reg_File r ==. Integer) && (reg_Index r =? 0)).
  enough (z r = true) as Hz by (apply andb_true_iff in Hz as [?%bool_decide_eq_true ?%Z.eqb_eq]; done).
  destruct regs as [|r0 [|r1 [|r2 [|]]]]; simpl in Hl; try lia; [done|..];
    unfold x0_positions in Hb; cbn [imap fold_left compose] in Hb;
    [change ((reg_File r0 ==. Integer) && (reg_Index r0 =? 0)) with (z r0) in Hb
    |change ((reg_File r0 ==. Integer) && (reg_Index r0 =? 0)) with (z r0) in Hb;
     change ((reg_File r1 ==. Integer) && (reg_Index r1 =? 0)) with (z r1) in Hb
    |change ((reg_File r0 ==. Integer) && (reg_Index r0 =? 0)) with (z r0) in Hb;
     change ((reg_File r1 ==. Integer) && (reg_Index r1 =? 0)) with (z r1) in Hb;
     change ((reg_File r2 ==. Integer) && (reg_Index r2 =? 0)) with (z r2) in Hb];
    clearbody z; destruct i as [|[|[|i]]]; simpl in Hi; try discriminate Hi; injection Hi as ->;
    destruct (z r) eqn:Ez; try done; exfalso; revert Hb; rewrite ?Ez;
    repeat match goal with |- context [z ?x] => destruct (z x) end; by vm_compute.
Qed.

Lemma NewOperandCapture_captured s word context c :
  is_u32 word -> NewOperandCapture s word context = Ok c ->
  captured s c /\ oc_latched c = false /\ oc_snapshot c = s /\ oc_context c = context /\
  Decode word = Ok (oc_decoded c) /\ is_ok (validateContext context) = true /\ 0 <= oc_read c.
Proof.
  intros Hw Hx0. unfold NewOperandCapture in Hx0. apply result_bind_ok in Hx0 as (d & Hd & Hx0).
  apply result_bind_ok in Hx0 as (b & Hb & <-%Ok_inj).
  destruct (decode_registers word d Hd) as (Hl & _ & Hr & _).
  split_and!; [| done | done | | done | by rewrite Hb | ].
  - split; [done|]. cbn [oc_values oc_decoded oc_read]. intros i Hi.
    assert (source [qfill 0; qfill 0; qfill 0] i = qfill 0) as -> by (by destruct i as [|[|[|]]]).
    destruct (d_Sources d !! i) as [r|] eqn:E; [|done]. destruct (Z.testbit _ _) eqn:Et; [|done].
    destruct (x0_positions_spec _ _ _ Hl E Et) as [Ef Ei]. unfold read_register. by rewrite Ef, Ei.
  - apply validateContext_bounds in Hb as ->. by destruct context.
  - cbn [oc_read]. unfold x0_positions.
    enough (forall l a, 0 <= a -> 0 <= fold_left (fun mask '(i, r) =>
      if (reg_File r ==. Integer) && (reg_Index r =? 0) then mask .| u8 (1 << Z.of_nat i) else mask) l a) as Hn by by apply Hn.
    induction l as [|[i r] l IH]; intros a Ha; simpl; [done|]. apply IH. case_match; [|done].
    apply Z.lor_nonneg. split; [done|apply u8_range].
Qed.

Lemma Capture_Read_captured s c snap positions c' u :
  (length (d_Sources (oc_decoded c)) <= 3)%nat -> Forall reg_ok (d_Sources (oc_decoded c)) -> oc_latched c = false ->
  (forall r, r ∈ d_Sources (oc_decoded c) -> read_register (w_lanes snap) r = read_register (w_lanes s) r) ->
  captured s c -> Capture_Read c snap positions = (c', Ok u) ->
  captured s c' /\ oc_latched c' = false /\ oc_snapshot c' = oc_snapshot c /\ oc_context c' = oc_context c /\
  oc_decoded c' = oc_decoded c.
Proof.
  intros Hl Hr Hlat Hsame [Hvl Hv] Hx0. unfold Capture_Read, capture_view in Hx0. rewrite Hlat in Hx0. cbn [result_bind] in Hx0.
  destruct (same_context c snap); [|done]. destruct (_ || _) eqn:Eg; [done|]. cbn [negb] in Hx0.
  apply orb_false_iff in Eg as [_ Ed%negb_false_iff%Z.eqb_eq].
  destruct (read_loop_spec snap positions (d_Sources (oc_decoded c)) 0 (oc_values c) Hr Hl Hvl) as (vs & Hf & Hlv & Hs).
  change (imap (fun i r => ((0 + i)%nat, r)) (d_Sources (oc_decoded c))) with (imap pair (d_Sources (oc_decoded c))) in Hf.
  rewrite Hf in Hx0. injection Hx0 as <- _. split_and!; try done. split; [done|]. cbn [oc_values oc_decoded oc_read].
  intros i Hi. rewrite Hs, Nat.sub_0_r, Z.lor_spec. specialize (Hv i Hi).
  destruct (d_Sources (oc_decoded c) !! i) as [r|] eqn:E; [|done]. rewrite decide_True by lia.
  destruct (Z.testbit positions (Z.of_nat i)) eqn:Ep; rewrite ?orb_true_r, ?orb_false_r; [|done].
  apply Hsame. by eapply list_elem_of_lookup_2.
Qed.

Lemma capture_reads_captured s c reads c' :
  (length (d_Sources (oc_decoded c)) <= 3)%nat -> Forall reg_ok (d_Sources (oc_decoded c)) -> oc_latched c = false ->
  (forall snap p r, (snap, p) ∈ reads -> r ∈ d_Sources (oc_decoded c) ->
   read_register (w_lanes snap) r = read_register (w_lanes s) r) ->
  captured s c -> capture_reads c reads = Ok c' ->
  captured s c' /\ oc_latched c' = false /\ oc_snapshot c' = oc_snapshot c /\ oc_context c' = oc_context c /\
  oc_decoded c' = oc_decoded c.
Proof.
  revert c. induction reads as [|[snap p] reads IH]; intros c Hl Hr Hlat Hsame Hc Hx0; cbn [capture_reads] in Hx0.
  - by apply Ok_inj in Hx0 as <-.
  - destruct (Capture_Read c snap p) as [c1 [u|]] eqn:E; [|done].
    destruct (Capture_Read_captured s c snap p c1 u Hl Hr Hlat) as (Hc1 & Hl1 & Hs1 & Hx1 & Hd1);
      [intros; eapply Hsame; [apply list_elem_of_here|done]|done|done|].
    destruct (IH c1) as (? & ? & Hs2 & Hx2 & Hd2); rewrite ?Hd1; try done.
    + intros snap' p' r Hin. eapply Hsame. by apply list_elem_of_further.
    + by rewrite Hs2, Hx2, Hd2.
Qed.

Lemma all_bits_set m n i : (n <= 3)%nat -> (i < n)%nat -> m = u8 ((1 << Z.of_nat n) - 1) -> Z.testbit m (Z.of_nat i) = true.
Proof. intros Hn Hi ->. destruct n as [|[|[|[|]]]], i as [|[|[|]]]; lia || done. Qed.

(** Pipelined operand capture is atomic evaluation: when every source position of
    an instruction has been sampled, in any number of bank reads and in any order,
    from snapshots in which its source registers still have their values, the
    captured instruction evaluates to exactly what [Evaluate] gives on the original
    snapshot. *)
Theorem capture_evaluates_atomically s word context c reads c' :
  is_u32 word -> NewOperandCapture s word context = Ok c ->
  (forall snap p r, (snap, p) ∈ reads -> r ∈ d_Sources (oc_decoded c) ->
   read_register (w_lanes snap) r = read_register (w_lanes s) r) ->
  capture_reads c reads = Ok c' -> Complete c' = true ->
  exists d, Decode word = Ok d /\ Capture_Evaluate c' = Evaluate s d context.
Proof.
  intros Hw Hnew Hsame Hreads Hcomplete.
  destruct (NewOperandCapture_captured s word context c Hw Hnew) as (Hc & Hlat & Hs & Hx & Hd & Hv & _).
  destruct (decode_registers word _ Hd) as (Hl & _ & Hr & _).
  destruct (capture_reads_captured s c reads c' Hl Hr Hlat Hsame Hc Hreads) as ([_ Hc'] & Hlat' & Hs' & Hx' & Hd').
  exists (oc_decoded c). split; [done|].
  unfold Capture_Evaluate, EvaluateAt, capture_view. rewrite Hlat', Hs', Hs, Hx', Hx, Hcomplete. cbn [result_bind].
  unfold same_context. rewrite Hs', Hs, !Z.eqb_refl. cbn [andb].
  unfold Evaluate. rewrite sourceValues_ok by done. cbn [result_bind]. rewrite Hd'. apply evaluateOperands_ext.
  intros i Hi. rewrite (Hc' i Hi). unfold source. rewrite Hd', list_lookup_fmap.
  destruct (d_Sources (oc_decoded c) !! i) as [r|] eqn:E; simpl; [|done].
  apply lookup_lt_Some in E as Hlt. unfold Complete, all_positions in Hcomplete. apply Z.eqb_eq in Hcomplete.
  rewrite Hd' in Hcomplete. by rewrite (all_bits_set _ _ _ Hl Hlt Hcomplete).
Qed.
End Evaluate.

Definition example_context : ReadContext :=
  mkReadContext 0 2 (mkCTAView 0 0 0 (qfill 0, qfill 0, qfill 0) (0, 0, 0) (0, 0, 0) (0, 0, 0) 0 (0, 0, 0) 0 0 (0, 0, 0) 0 0)
    (mkCounterView 0 0) None false None false false.

Example capture_evaluates_atomically_witness :
  exists c c', NewOperandCapture example_warp 0x00628033 example_context = Ok c /\
  capture_reads c [(example_warp, 2); (example_warp, 1)] = Ok c' /\ Complete c' = true /\
  exists d, Decode 0x00628033 = Ok d /\ Capture_Evaluate c' = Evaluate example_warp d example_context.
Proof.
  destruct (NewOperandCapture example_warp 0x00628033 example_context) as [c|] eqn:E; [|vm_compute in E; discriminate].
  destruct (capture_reads c [(example_warp, 2); (example_warp, 1)]) as [c'|] eqn:E';
    [|vm_compute in E; apply Ok_inj in E as <-; vm_compute in E'; discriminate].
  assert (Complete c' = true) as Hc
    by (vm_compute in E; apply Ok_inj in E as <-; vm_compute in E'; apply Ok_inj in E' as <-; reflexivity).
  exists c, c'. split_and!; [done..|].
  apply (capture_evaluates_atomically example_warp 0x00628033 example_context c [(example_warp, 2); (example_warp, 1)] c');
    [by vm_compute|done| |done|done].
  clear. intros snap p r [[= -> ->]|[[= -> ->]|Hin%not_elem_of_nil]%elem_of_cons]%elem_of_cons; done.
Defined.
