(* ===== verification/EvaluateTyped.v ===== *)
(** * The evaluators produce effects of the declared widths

    Every effect field an evaluator fills from a well-formed snapshot stays within
    the width of its Go type, so single-instruction execution keeps the warp
    invariant whatever word is executed. *)

From S2P Require Import Prelude IsaTypes Catalog Decode Integer System Custom Softfloat Float WarpState Apply ApplyInvariant View.

#[local] Open Scope Z_scope.
#[local] Open Scope go_scope.

(** ** Building typed bundles *)

Create HintDb typed.

Lemma typed_none : effects_typed no_effects.
Proof. split; cbn; done || constructor. Qed.

Lemma typed_with_Control c e : (forall k, c = Some k -> control_typed k) -> effects_typed e -> effects_typed (with_Control c e).
Proof. intros Hc []. by split. Qed.
Lemma typed_with_MemoryRequests rs e : Forall (fun r => is_u8 (mr_Lane r) /\ is_u32 (mr_Address r)) rs -> effects_typed e -> effects_typed (with_MemoryRequests rs e).
Proof. intros Hr []. by split. Qed.
Lemma typed_with_Ordering o e : effects_typed e -> effects_typed (with_Ordering o e).
Proof. intros []. by split. Qed.
Lemma typed_with_FFlagsOf f e : is_u8 f -> effects_typed e -> effects_typed (with_FFlagsOf (Some (mkFFlagsEffect f)) e).
Proof. intros Hf []. split; try done. by intros x [= <-]. Qed.
Lemma typed_with_CSRReads r e : effects_typed e -> effects_typed (with_CSRReads r e).
Proof. intros []. by split. Qed.
Lemma typed_with_CSRWrites ws e :
  Forall (fun c => is_u16 (cw_Address c) /\ is_u32 (cw_Value c)) ws -> effects_typed e -> effects_typed (with_CSRWrites ws e).
Proof. intros Hw []. by split. Qed.
Lemma typed_with_Trap t e :
  is_u8 (te_SaveThreadMask t) -> is_u8 (te_RestoreThreadMask t) -> effects_typed e -> effects_typed (with_Trap (Some t) e).
Proof. intros Hs Hr []. split; try done. by intros x [= <-]. Qed.
Lemma typed_with_WarpMasks m e : is_u8 (wm_Mask m) -> effects_typed e -> effects_typed (with_WarpMasks [m] e).
Proof. intros Hm []. split; try done. by apply Forall_singleton. Qed.
Lemma typed_with_WarpSpawn s e : is_u32 (ws_TargetPC s) -> effects_typed e -> effects_typed (with_WarpSpawn (Some s) e).
Proof. intros Hs []. split; try done. by intros x [= <-]. Qed.
Lemma typed_with_Divergence d e : div_typed d -> effects_typed e -> effects_typed (with_Divergence (Some d) e).
Proof. intros Hd []. split; try done. by intros x [= <-]. Qed.
Lemma typed_with_WarpDrains d e : effects_typed e -> effects_typed (with_WarpDrains d e).
Proof. intros []. by split. Qed.
Lemma typed_with_Barriers b e : barrier_typed b -> effects_typed e -> effects_typed (with_Barriers [b] e).
Proof. intros Hb []. split; try done. by apply Forall_singleton. Qed.
Lemma typed_with_PackedLoads p e : effects_typed e -> effects_typed (with_PackedLoads p e).
Proof. intros []. by split. Qed.
Lemma typed_with_Faults f e : effects_typed e -> effects_typed (with_Faults f e).
Proof. intros []. by split. Qed.

Lemma typed_sequential pc e : effects_typed e -> effects_typed (with_Control (sequentialControl pc) e).
Proof. apply typed_with_Control. intros k [= <-]. split; [apply u32_range|by vm_compute]. Qed.

Lemma mask_u8 m : mask_ok m -> is_u8 m.
Proof. unfold mask_ok, is_u8. lia. Qed.

Lemma typed_append e d m v :
  Forall reg_ok (d_Destinations d) -> mask_ok m -> qforall is_u32 v -> effects_typed e ->
  effects_typed (appendRegisterWrite e d m v).
Proof.
  intros Hd Hm Hv He. unfold appendRegisterWrite. destruct (m =? 0); [done|].
  destruct (d_Destinations d) as [|r rs]; [done|]. destruct (_ && _); [done|]. apply Forall_cons in Hd as [[_ Hr] _].
  destruct He. split; try done. cbn [with_RegisterWrites RegisterWrites]. apply Forall_app. split; [done|].
  apply Forall_singleton. split; cbn; [by vm_compute|unfold is_u8; lia|by apply mask_u8|done].
Qed.

#[export] Hint Resolve typed_none typed_sequential typed_with_MemoryRequests typed_with_Ordering typed_with_FFlagsOf
  typed_with_CSRReads typed_with_Trap typed_with_WarpMasks typed_with_WarpSpawn typed_with_Divergence typed_with_WarpDrains
  typed_with_Barriers typed_with_PackedLoads typed_with_Faults typed_append mask_u8 qforall_qfill u32_range u8_range : typed.

(** ** Evaluator by evaluator *)

Lemma highestActiveLane_some m lane : highestActiveLane m = Some lane -> idx4 lane /\ LaneMask_Active m lane = true.
Proof. unfold highestActiveLane, idx4. repeat case_match; naive_solver. Qed.

Lemma rv32_alu_u32 name pc a b imm v : rv32_alu name pc a b imm = Some v -> is_u32 v.
Proof.
  unfold rv32_alu. cbv zeta. intros H.
  repeat (case_if_in H; [injection H as <-; first [apply Z.mod_pos_bound; lia | case_match; by vm_compute]|]). done.
Qed.

Lemma evaluateALULane_u32 name pc a b imm :
  is_u32 pc -> is_u32 a -> is_u32 b -> is_u32 (default 0 (evaluateALULane name pc a b (u32 imm))).
Proof.
  intros Hp Ha Hb. rewrite <- (u32_i32 imm), evaluateALULane_rv32 by (done || apply i32_range).
  destruct (rv32_alu _ _ _ _ _) eqn:E; simpl; [by eapply rv32_alu_u32|apply is_u32_0].
Qed.

(** Peel the [check]s and case distinctions of an evaluator that returned effects. *)
Ltac evaluated H :=
  repeat match type of H with
  | (if ?b then _ else Err _) = Ok _ => destruct b eqn:?; [|done]
  | (if negb ?b then _ else Err _) = Ok _ => destruct b eqn:?; [done|]
  | (if ?b then Err _ else _) = Ok _ => destruct b eqn:?; [done|]
  | (if ?b then _ else _) = Ok _ => destruct b eqn:?
  | evalError _ _ = Ok _ => done
  end.

Lemma evaluateMemory_lanes d input :
  Forall (fun r => is_u8 (mr_Lane r) /\ is_u32 (mr_Address r)) (fold4 (evaluateMemoryLane d input) ([], [])).1.
Proof.
  assert (forall acc lane, idx4 lane -> Forall (fun r => is_u8 (mr_Lane r) /\ is_u32 (mr_Address r)) acc.1 ->
    Forall (fun r => is_u8 (mr_Lane r) /\ is_u32 (mr_Address r)) (evaluateMemoryLane d input acc lane).1) as Hstep.
  { intros [rs fs] lane Hl Hr. unfold evaluateMemoryLane. cbv zeta.
    repeat (match goal with |- context [if ?b then _ else _] => destruct b end; try done); cbn [fst] in *;
      (apply Forall_app; split; [done|]; apply Forall_singleton; cbn [mr_Lane mr_Address]; split; [unfold is_u8, idx4 in *; lia|apply u32_range]). }
  unfold fold4. repeat apply Hstep; unfold idx4; auto; by apply Forall_nil_2.
Qed.

Lemma evaluateMemory_typed d input e : evaluateMemory d input = Ok e -> effects_typed e.
Proof.
  unfold evaluateMemory. intros H. cbv zeta in H. destruct (_ && _); [done|].
  pose proof (evaluateMemory_lanes d input) as Hl.
  destruct (fold4 _ _) as [rs [|f fs]]; apply Ok_inj in H as <-; auto with typed.
Qed.

Lemma evaluateControl_typed d input e :
  Forall reg_ok (d_Destinations d) -> mask_ok (ii_ActiveMask input) -> qforall is_u32 (ii_RS1 input) ->
  evaluateControl d input = Ok e -> effects_typed e.
Proof.
  intros Hd Hm H1 H. unfold evaluateControl in H. destruct (highestActiveLane _) as [lane|] eqn:El; [|done].
  apply highestActiveLane_some in El as [Hl _]. assert (is_u8 lane) by (unfold is_u8, idx4 in *; lia).
  cbv zeta in H. destruct (_ ==. ControlJump).
  - destruct (_ <>? 0) in H; apply Ok_inj in H as <-; [auto with typed|].
    apply typed_with_Control; [|auto 6 with typed]. intros k [= <-]. split; [|done]. cbn.
    destruct (_ == "jal"); auto with words.
  - destruct (branchTaken _ _ _) as [t|]; [|done]. destruct (_ && _) in H; apply Ok_inj in H as <-; [auto with typed|].
    apply typed_with_Control; [|auto with typed]. intros k [= <-]. split; [|done]. cbn. destruct t; auto with words.
Qed.

Lemma EvaluateInteger_typed d input e :
  Forall reg_ok (d_Destinations d) -> is_u32 (ii_PC input) -> mask_ok (ii_ActiveMask input) ->
  qforall is_u32 (ii_RS1 input) -> qforall is_u32 (ii_RS2 input) ->
  EvaluateInteger d input = Ok e -> effects_typed e.
Proof.
  intros Hd Hp Hm H1 H2 H. unfold EvaluateInteger in H. evaluated H.
  - apply Ok_inj in H as <-. auto with typed.
  - by eapply evaluateMemory_typed.
  - by eapply evaluateControl_typed.
  - unfold evaluateALULanes in H. cbv zeta in H. case_if_in H; [done|]. apply Ok_inj in H as <-.
    apply typed_append; [done..| |auto with typed]. apply qforall_qmake. intros i Hi. rewrite qforall_get in H1, H2.
    destruct (LaneMask_Active (ii_ActiveMask input) i); [by apply evaluateALULane_u32|apply is_u32_0].
Qed.

(** ** System instructions *)

Definition triple_u32 (t : Z * Z * Z) : Prop := is_u32 (dim_x t) /\ is_u32 (dim_y t) /\ is_u32 (dim_z t).

(** The Go field types of the context and CSR views. *)
Record cta_typed (c : CTAView) : Prop := {
  xt_id : is_u32 (cta_ID c);
  xt_rank : is_u32 (cta_Rank c);
  xt_size : is_u32 (cta_Size c);
  xt_x : qforall is_u32 (fst (fst (cta_ThreadCoordinates c)));
  xt_y : qforall is_u32 (snd (fst (cta_ThreadCoordinates c)));
  xt_z : qforall is_u32 (snd (cta_ThreadCoordinates c));
  xt_block : triple_u32 (cta_BlockID c);
  xt_blockdim : triple_u32 (cta_BlockDimensions c);
  xt_grid : triple_u32 (cta_GridDimensions c);
  xt_local : is_u32 (cta_LocalMemoryAddress c);
  xt_cluster : is_u32 (cta_ClusterSize c);
  xt_entry : is_u32 (cta_Entry c)
}.

Record view_typed (v : CSRView) : Prop := {
  vt_warp : is_u8 (cv_WarpID v);
  vt_core : is_u8 (cv_CoreID v);
  vt_warps : is_u8 (cv_ActiveWarps v);
  vt_threads : is_u8 (cv_ThreadMask v);
  vt_saved : is_u8 (cv_SavedThreadMask v);
  vt_fcsr : is_u32 (cv_FCSR v);
  vt_mstatus : is_u32 (cv_MStatus v);
  vt_mtvec : is_u32 (cv_MTVec v);
  vt_mscratch : is_u32 (cv_MScratch v);
  vt_mepc : is_u32 (cv_MEPC v);
  vt_mcause : is_u32 (cv_MCause v);
  vt_mtval : is_u32 (cv_MTVal v);
  vt_cta : cta_typed (cv_CTA v)
}.

Lemma u8_u32 x : is_u8 x -> is_u32 x.
Proof. unfold is_u8, is_u32. lia. Qed.

Lemma readCSR_u32 kind v : view_typed v -> qforall is_u32 (readCSR kind v).
Proof.
  intros [? ? ? ? ? ? ? ? ? ? ? ? [? ? ? ? ? ? [? [? ?]] [? [? ?]] [? [? ?]] ? ? ?]].
  assert (forall c : Z, is_u32 (u32 (c >> 32) .& ((1 << (FrozenCounterBits - 32)) - 1))) by (intros; apply is_u32_land; by vm_compute).
  destruct kind; cbn [readCSR]; unfold filledValues; try apply qforall_qfill;
    first [ match goal with Hx : ?P |- ?P => exact Hx end
          | match goal with Hx : is_u8 ?x |- is_u32 ?x => exact (u8_u32 x Hx) end
          | match goal with Hx : forall c : Z, _ |- is_u32 (u32 (_ >> 32) .& _) => apply Hx end
          | match goal with |- is_u32 (u32 _) => apply u32_range end
          | match goal with |- is_u32 (_ .& _) => apply is_u32_land; by vm_compute end
          | match goal with |- is_u32 _ => by vm_compute end
          | apply qforall_qmake; intros i Hi; cbn beta ].
  - unfold idx4, is_u32 in *. lia.
  - apply u32_range.
Qed.

Definition csr_row_u16 (e : CSREntry) : bool := (0 <=? csr_Address e) && (csr_Address e <? 2 ^ 16) && (0 <=? csr_WriteMask e) && (csr_WriteMask e <? 2 ^ 32).

Lemma csr_rows_u16 : forallb csr_row_u16 csrCatalog = true.
Proof. vm_compute. reflexivity. Qed.

Lemma findCSR_typed address entry : findCSR address = Some entry -> is_u16 (csr_Address entry) /\ is_u32 (csr_WriteMask entry).
Proof.
  intros [Hin _]%findCSR_some. pose proof (forallb_elem _ _ csr_rows_u16 _ Hin) as H. unfold csr_row_u16 in H.
  rewrite !andb_true_iff, !Z.leb_le, !Z.ltb_lt in H. unfold is_u16, is_u32. lia.
Qed.

Lemma evaluateCSR_typed d input e :
  Forall reg_ok (d_Destinations d) -> mask_ok (si_ActiveMask input) -> view_typed (si_CSR input) ->
  evaluateCSR d input = Ok e -> effects_typed e.
Proof.
  intros Hd Hm Hv H. unfold evaluateCSR in H. destruct (findCSR _) as [entry|] eqn:Ef; [|done].
  apply findCSR_typed in Ef as [Ha Hw]. cbv zeta in H. pose proof (readCSR_u32 (csr_Value entry) _ Hv) as Hr.
  case_if_in H; [done|]. case_if_in H; apply Ok_inj in H as <-; [auto 6 with typed|].
  apply typed_with_CSRWrites; [|auto 6 with typed]. apply Forall_singleton. split; [done|]. cbn [cw_Value].
  destruct (csr_Writable entry); [by apply is_u32_land|apply is_u32_0].
Qed.

Lemma evaluateTrapSystem_typed d input e :
  is_u32 (si_PC input) -> view_typed (si_CSR input) -> evaluateTrapSystem d input = Ok e -> effects_typed e.
Proof.
  intros Hp [] H. unfold evaluateTrapSystem in H. cbv zeta in H. evaluated H; apply Ok_inj in H as <-.
  - apply typed_with_Trap; [done|by vm_compute|]. apply typed_with_CSRWrites.
    + repeat apply Forall_cons_2; try apply Forall_nil_2; (split; [by vm_compute|]); [done| |by vm_compute].
      cbn [trapCSRWrite cw_Value]. case_match; by vm_compute.
    + apply typed_with_Control; [|auto with typed]. intros k [= <-]. split; [cbn; auto with words|by vm_compute].
  - apply typed_with_Trap; [by vm_compute|done|].
    apply typed_with_Control; [|auto with typed]. intros k [= <-]. split; [cbn; auto with words|by vm_compute].
Qed.

Lemma EvaluateSystem_typed d input e :
  Forall reg_ok (d_Destinations d) -> is_u32 (si_PC input) -> mask_ok (si_ActiveMask input) -> view_typed (si_CSR input) ->
  EvaluateSystem d input = Ok e -> effects_typed e.
Proof.
  intros Hd Hp Hm Hv H. unfold EvaluateSystem in H. evaluated H;
    [by eapply evaluateCSR_typed|by eapply evaluateTrapSystem_typed].
Qed.

(** ** Custom instructions *)

Lemma voteMasks_u8 input : is_u8 (voteMasks input).1 /\ is_u8 (voteMasks input).2.
Proof.
  apply (fold4_inv (fun acc => is_u8 acc.1 /\ is_u8 acc.2)); [by vm_compute|]. intros [t f] lane [? ?]. cbv beta iota.
  destruct (negb _); [done|]. destruct (_ <>? 0); split; cbn; auto with words.
Qed.

Lemma boolWord_u32 b : is_u32 (boolWord b).
Proof. destruct b; by vm_compute. Qed.

Lemma evaluateCrossLane_typed d input e :
  Forall reg_ok (d_Destinations d) -> mask_ok (ci_ActiveMask input) ->
  qforall is_u32 (ci_RS1 input) -> qforall is_u32 (ci_RS2 input) -> qforall is_u32 (ci_RS3 input) ->
  evaluateCrossLane d input = Ok e -> effects_typed e.
Proof.
  intros Hd Hm H1 H2 H3 H. rewrite qforall_get in H1, H2, H3. unfold evaluateCrossLane in H. cbv zeta in H. evaluated H.
  - pose proof (voteMasks_u8 input) as Hv. destruct (voteMasks input) as [t f]. apply Ok_inj in H as <-.
    apply typed_append; [done..| |auto with typed]. apply qforall_qfill. unfold voteValue.
    repeat (case_match; [apply boolWord_u32 || apply u8_u32, Hv|]). apply is_u32_0.
  - apply Ok_inj in H as <-. apply typed_append; [done..| |auto with typed]. apply qforall_qmake. intros i _.
    repeat case_match; auto using is_u32_0.
  - apply Ok_inj in H as <-. apply typed_append; [done|by apply mask_ok_ldiff| |auto with typed].
    apply qforall_qmake. intros i _. cbv zeta. repeat (match goal with |- is_u32 (if ?b then _ else _) => destruct b end); auto using is_u32_0.
Qed.

(** The divergence view of a custom input, as the snapshot builds it. *)
Record custom_typed (input : CustomInput) : Prop := {
  kt_warp : is_u8 (ci_WarpID input);
  kt_pc : is_u32 (ci_PC input);
  kt_mask : mask_ok (ci_ActiveMask input);
  kt_rs1 : qforall is_u32 (ci_RS1 input);
  kt_rs2 : qforall is_u32 (ci_RS2 input);
  kt_rs3 : qforall is_u32 (ci_RS3 input);
  kt_pointer : 0 <= dv_WritePointer (ci_Divergence input) < 4;
  kt_record : mask_ok (drv_OriginalMask (dv_Record (ci_Divergence input)));
  kt_nextpc : is_u32 (drv_NextPC (dv_Record (ci_Divergence input)))
}.

Lemma splitEffects_typed d input e :
  Forall reg_ok (d_Destinations d) -> custom_typed input -> splitEffects d input = Ok e -> effects_typed e.
Proof.
  intros Hd [] H. unfold splitEffects in H. cbv zeta in H. evaluated H.
  destruct (select_lanes_spec (lane_condition d input)) as [Ht _]. set (t := select_lanes _) in *.
  assert (mask_ok (ci_ActiveMask input .&^ t)) by by apply mask_ok_ldiff.
  assert (is_u8 (dv_WritePointer (ci_Divergence input))) by (unfold is_u8; lia).
  destruct (popCount t >? _); apply Ok_inj in H as <-; apply typed_append; try done;
    try (apply qforall_qfill; by apply u8_u32);
    (assert (forall a b, mask_ok a -> mask_ok b -> div_typed (mkDivergenceEffect DivergenceSplit (ci_WarpID input)
       (dv_WritePointer (ci_Divergence input)) ((t <>? 0) && (ci_ActiveMask input .&^ t <>? 0)) (ci_ActiveMask input) a b
       (u32 (ci_PC input + 4)) ((t <>? 0) && (ci_ActiveMask input .&^ t <>? 0)) false false))
      by (intros a b Ha Hb; split; cbn; auto using mask_u8 with words));
    destruct (_ && _); auto 7 with typed.
Qed.

Lemma joinEffects_typed d input lane e :
  custom_typed input -> idx4 lane -> joinEffects d input lane = Ok e -> effects_typed e.
Proof.
  intros [] Hl H. unfold joinEffects in H. cbv zeta in H.
  assert (forall a b p x y z, mask_ok a -> mask_ok b -> is_u32 p ->
    div_typed (mkDivergenceEffect DivergenceJoin (ci_WarpID input) (u8 (qget (ci_RS1 input) lane .& 3)) x a b 0 p false y z))
    by (intros; split; cbn; auto using mask_u8 with words; by vm_compute).
  assert (mask_ok 0) by by vm_compute. assert (is_u32 0) by apply is_u32_0. evaluated H; apply Ok_inj in H as <-; auto 7 with typed.
  apply typed_with_Divergence; [auto using mask_ok_ldiff|]. apply typed_with_WarpMasks; [apply mask_u8; by apply mask_ok_ldiff|].
  apply typed_with_Control; [|auto with typed]. intros k [= <-]. split; [done|]. cbn. unfold is_u8, idx4 in *. lia.
Qed.

Lemma default_highest m : idx4 (default 0 (highestActiveLane m)).
Proof. unfold highestActiveLane, idx4. repeat case_match; simpl; naive_solver. Qed.

Lemma evaluateWarpControl_typed d input e :
  Forall reg_ok (d_Destinations d) -> custom_typed input -> evaluateWarpControl d input = Ok e -> effects_typed e.
Proof.
  intros Hd Hi H. unfold evaluateWarpControl in H. cbv zeta in H.
  destruct (select_lanes_spec (lane_condition d input)) as [Hsel _].
  assert (forall x, is_u8 (x .& AllLanes)) by (intros x; apply mask_u8; by apply mask_ok_land).
  evaluated H; try (apply Ok_inj in H as <-); auto 7 with typed.
  - apply typed_with_WarpMasks; [|auto with typed]. cbn [wm_Mask]. auto.
  - apply typed_with_WarpMasks; [|auto with typed]. cbn [wm_Mask]. destruct (select_lanes _ =? 0); auto with typed.
  - apply typed_with_WarpSpawn; [|auto with typed]. cbn [ws_TargetPC]. apply (proj1 (qforall_get _ _)), Hi.
  - by eapply splitEffects_typed.
  - by eapply joinEffects_typed; [| |exact H]; [|apply default_highest].
  - unfold barrierEffects. cbv zeta. destruct Hi. destruct (ci_PendingLSU input); [auto with typed|].
    match goal with |- context [with_Barriers [?b] _] => assert (barrier_typed b) as Hb end.
    { split; cbn [be_WarpID be_ParticipantCount be_ExpectCount]; [done|auto with typed|]. destruct (_ && _); [|by vm_compute]. destruct (_ =? 0); [by vm_compute|auto with typed]. }
    match type of Hb with barrier_typed ?b => set (barrier := b) in * end. clearbody barrier.
    destruct (_ ==. BarrierArrive); auto 7 using boolWord_u32 with typed.
  - destruct (ci_PendingPriorWork input); [apply typed_with_Control; [done|] |]; auto 7 with typed.
Qed.

Lemma EvaluateCustom_typed d input e :
  Forall reg_ok (d_Destinations d) -> custom_typed input -> EvaluateCustom d input = Ok e -> effects_typed e.
Proof.
  intros Hd Hi H. unfold EvaluateCustom in H. cbv zeta in H. destruct Hi eqn:Ei. clear Ei. evaluated H.
  all: try by eapply evaluateCrossLane_typed.
  all: try by eapply evaluateWarpControl_typed.
  all: unfold evaluatePackedLoad in H; evaluated H; destruct (fold4 _ _) as [ls [|f fs]]; apply Ok_inj in H as <-; auto with typed.
Qed.

(** ** Floating point *)

Section Float.
Context {L : SoftFloatLib} {HL : SoftFloatLaws L}.

Lemma EvaluateFloat_guard d input e : EvaluateFloat d input = Ok e -> bounds_ok (fi_Bounds input) = true /\ d_Category d = CategoryRV32F.
Proof.
  intros H. unfold EvaluateFloat, bounds_ok in *. destruct (LaneMask_Valid _); [|done].
  destruct (match fi_Bounds input with Some b => AddressBounds_valid b | None => true end); [|done].
  split; [done|]. destruct (String.eqb_spec (d_Category d) CategoryRV32F); [done|by cbn [andb] in H].
Qed.

Lemma EvaluateFloat_typed word d input e :
  Decode word = Ok d -> mask_ok (fi_ActiveMask input) -> qforall is_u32 (fi_RS1 input) -> qforall is_u32 (fi_RS2 input) ->
  EvaluateFloat d input = Ok e -> effects_typed e.
Proof.
  intros Hdec Hm H1 H2 H. destruct (decode_registers word d Hdec) as (_ & _ & _ & Hd).
  destruct (EvaluateFloat_guard d input e H) as [Hb Hc].
  destruct (EvaluateFloat_cases word d input Hdec Hc Hm Hb H1 H2) as [(_ & _ & E)|[(values & flags & Hv & Hf & E)|(_ & _ & E)]];
    rewrite E in H; [by eapply evaluateMemory_typed| |done].
  apply Ok_inj in H as <-. assert (is_u8 flags) by (unfold is_u8, flags_ok in *; lia).
  destruct (_ <>? 0); auto 7 with typed.
Qed.
End Float.

(** ** Completions *)

Definition response_typed (r : MemoryResponse) : Prop := is_u8 (mr_Lane (mp_Request r)) /\ is_u32 (mp_Data r).

Lemma extendLoad_u32 v w s : is_u32 v -> is_u32 (extendLoad v w s).
Proof. intros Hv. unfold extendLoad. repeat case_match; auto with words; apply is_u32_land; by vm_compute. Qed.

Lemma lane_bit_ok lane : idx4 lane -> mask_ok (1 << lane).
Proof. by intros [-> | [-> | [-> | ->]]]. Qed.

Lemma CompleteMemory_typed d pc expected rs e :
  Forall reg_ok (d_Destinations d) -> Forall response_typed rs -> CompleteMemory d pc expected rs = Ok e -> effects_typed e.
Proof.
  intros Hd Hr H. unfold CompleteMemory in H. evaluated H. apply result_bind_ok in H as (st & Hf & H).
  assert (qforall is_u32 (co_values st) /\ mask_ok (co_mask st)) as [Hv Hm].
  { apply (foldM_inv (completeResponse d) (fun s => qforall is_u32 (co_values s) /\ mask_ok (co_mask s)) rs
             (mkCompletion (qfill 0) 0 0 []) st); [by split; [apply qforall_qfill, is_u32_0|vm_compute]| |exact Hf].
    intros s r s' Hin [Hs1 Hs2] Hstep. rewrite Forall_forall in Hr. destruct (Hr r Hin) as [Hl Hdata].
    destruct (completeResponse_form d s r) as [[Eg E]|[_ [? E]]]; rewrite E in Hstep; [|done]. apply Ok_inj in Hstep as <-.
    unfold lane_free in Eg. apply andb_true_iff in Eg as [[Hlt%Z.ltb_lt _]%andb_true_iff _].
    assert (idx4 (mr_Lane (mp_Request r))) by (apply idx4_range; unfold is_u8 in Hl; lia).
    unfold response_apply. cbn [co_values co_mask]. destruct (_ && _); split; try done.
    - apply qforall_qset; [done|]. by apply extendLoad_u32.
    - apply mask_ok_lor; [done|by apply lane_bit_ok]. }
  cbv zeta in H. evaluated H. destruct (co_faults st); [|apply Ok_inj in H as <-; auto with typed].
  destruct (_ ==. MemoryLoad); apply Ok_inj in H as <-; auto with typed.
Qed.

Lemma packed_values_u32 d rs st :
  foldM (packResponse d) (mkPacking (qfill (qfill false)) (qfill 0) []) rs = Ok st -> qforall is_u32 (pk_values st).
Proof.
  intros Hf. eapply (foldM_inv _ (fun s => qforall is_u32 (pk_values s))); [|clear Hf|exact Hf].
  - by apply qforall_qfill, is_u32_0.
  - intros s r s' _ Hs Hstep. unfold packResponse in Hstep. cbv zeta in Hstep. evaluated Hstep; apply Ok_inj in Hstep as <-; [done|].
    cbn [pk_values]. apply qforall_qset; [done|]. rewrite qforall_get in Hs. auto with words.
Qed.

Lemma typed_part e mask :
  is_u8 mask -> effects_typed e ->
  effects_typed (with_RegisterWrites (map (set_rw_ByteMask mask) (RegisterWrites e)) e).
Proof.
  intros Hm []. split; try done. cbn [with_RegisterWrites RegisterWrites]. apply Forall_map.
  eapply Forall_impl; [exact et_writes|]. intros x []. by split.
Qed.

Lemma completePackedLoad_typed d pc expected rs part e :
  Forall reg_ok (d_Destinations d) -> 0 <= expected -> completePackedLoad d pc expected rs part = Ok e -> effects_typed e.
Proof.
  intros Hd Hx H. unfold completePackedLoad in H. evaluated H.
  match goal with Hv : LaneMask_Valid expected = true |- _ => apply LaneMask_Valid_spec in Hv; [|done] end.
  apply result_bind_ok in H as (st & Hf%packed_values_u32 & H). evaluated H. cbv zeta in H.
  destruct (pk_faults st); [|apply Ok_inj in H as <-; auto with typed].
  destruct part; apply Ok_inj in H as <-; [|auto with typed].
  apply typed_part; [apply u8_range|]. apply typed_with_Control; [done|auto with typed].
Qed.

(** ** Snapshots give typed inputs *)

Record context_typed (c : ReadContext) : Prop := {
  rt_core : is_u8 (rc_CoreID c);
  rt_warps : is_u8 (rc_ActiveWarps c);
  rt_cta : cta_typed (rc_CTA c)
}.

Lemma csr_view_typed s c : warp_wf s -> context_typed c -> view_typed (csr_view s c).
Proof.
  intros Hw [? ? ?]. destruct (wf_trap s Hw). pose proof (wf_id s Hw).
  split; cbn; try assumption; try (apply mask_u8, Hw); [unfold is_u8; lia|apply u8_u32, Hw].
Qed.

Lemma source_u32 s d i : warp_wf s -> qforall is_u32 (source (map (read_register (w_lanes s)) (d_Sources d)) i).
Proof.
  intros Hw. unfold source. rewrite list_lookup_fmap. destruct (d_Sources d !! i); simpl.
  - apply read_register_ok, Hw.
  - by apply qforall_qfill, is_u32_0.
Qed.

Lemma record_at_ok ds p : div_wf ds -> 0 <= p < 3 ->
  mask_ok (dr_originalMask (record_at (ds_records ds) p)) /\ is_u32 (dr_nextPC (record_at (ds_records ds) p)).
Proof.
  intros [Hp _ Hlive Hfree] Hr. destruct (Z.le_gt_cases (ds_writePointer ds) p).
  - rewrite Hfree by lia. by vm_compute.
  - destruct (Hlive p) as [_ [? ? [? ?]]]; [lia|done].
Qed.

Lemma divergence_view_ok s d sources :
  warp_wf s ->
  let v := divergence_view s d sources in
  0 <= dv_WritePointer v < 4 /\ mask_ok (drv_OriginalMask (dv_Record v)) /\ is_u32 (drv_NextPC (dv_Record v)).
Proof.
  intros Hw v. subst v. unfold divergence_view. cbn [dv_WritePointer dv_Record]. pose proof (dw_pointer _ (wf_div s Hw)).
  split; [lia|]. destruct (_ ==. ControlJoin); [|by vm_compute]. cbv zeta.
  set (p := u8 _). assert (is_u8 p) by apply u8_range. unfold is_u8 in *. change FrozenDivergenceDepth with 3.
  destruct (Z.ltb_spec p 3); [|by vm_compute]. apply record_at_ok; [apply Hw|lia].
Qed.

Section Evaluate.
Context {L : SoftFloatLib} {HL : SoftFloatLaws L}.

Lemma Evaluate_typed s word d context e :
  warp_wf s -> context_typed context -> Decode word = Ok d -> Evaluate s d context = Ok e -> effects_typed e.
Proof.
  intros Hw Hc Hd H. destruct (decode_registers word d Hd) as (Hl & _ & Hr & Hdst).
  pose proof (fun i => source_u32 s d i Hw) as Hs. destruct (wf_pc s Hw) as [Hpc _]. pose proof (wf_mask s Hw).
  unfold Evaluate in H. rewrite sourceValues_ok in H by done. cbn [result_bind] in H. unfold evaluateOperands in H. cbv zeta in H.
  unfold Snapshot_IntegerInput, Snapshot_FloatInput, Snapshot_SystemInput, customInputWithSources in H.
  rewrite !sourceValues_ok in H by done. cbn [result_bind] in H. destruct (validateContext context) as [b|]; cbn [result_bind] in H;
    [|by repeat case_if_in H].
  evaluated H.
  - eapply EvaluateInteger_typed; [..|exact H]; try done; apply Hs.
  - eapply EvaluateFloat_typed; [..|exact H]; try done; apply Hs.
  - eapply EvaluateSystem_typed; [..|exact H]; try done. by apply csr_view_typed.
  - destruct (divergence_view_ok s d (map (read_register (w_lanes s)) (d_Sources d)) Hw) as (? & ? & ?).
    eapply EvaluateCustom_typed; [..|exact H]; try done. pose proof (wf_id s Hw). split; try done; try apply Hs. cbn. unfold is_u8. lia.
Qed.

(** C35: single-instruction execution keeps the warp invariant: on a well-formed warp
    whatever 32-bit word is executed, and whatever typed responses complete a
    memory instruction, whole or in packed parts, the warp stays well formed; an
    error leaves it exactly as it was. *)
Theorem ExecuteSingle_preserves_wf w word context :
  warp_wf w -> context_typed context ->
  warp_wf (ExecuteSingle w word context).1 /\
  (forall err, (ExecuteSingle w word context).2 = Err err -> (ExecuteSingle w word context).1 = w) /\
  (forall d, Decode word = Ok d ->
   (forall expected rs, Forall response_typed rs -> warp_wf (CompleteMemoryAndApply w d expected rs).1) /\
   (forall expected rs part e, is_u8 expected -> completePackedLoad d (w_pc w) expected rs part = Ok e ->
    warp_wf (ApplyEffects w e).1)).
Proof.
  intros Hw Hc. split_and!.
  - unfold ExecuteSingle, Snapshot. destruct (Decode word) as [d|] eqn:Hd; cbn [result_bind]; [|done].
    destruct (Evaluate w d context) as [e|] eqn:E; cbn [result_bind]; [|done].
    generalize (ApplyEffects_wf w e Hw (Evaluate_typed _ _ _ _ _ Hw Hc Hd E)). by destruct (ApplyEffects w e).
  - intros err. unfold ExecuteSingle, Snapshot. destruct (Decode word) as [d|]; cbn [result_bind]; [|done].
    destruct (Evaluate w d context) as [e|] eqn:E; cbn [result_bind]; [|done].
    unfold ApplyEffects, Commit, commit, RequiresExternalSuccess. destruct (StageEffects w e) as [st|] eqn:Es; [|done].
    apply StageEffects_inv in Es as (Hb & Hcm & _). destruct (es_requiresExternal st); [done|].
    by rewrite Hcm, Hb, bool_decide_true.
  - intros d Hd. destruct (decode_registers word d Hd) as (_ & _ & _ & Hdst). split.
    + intros expected rs Hrs. unfold CompleteMemoryAndApply.
      destruct (Snapshot_CompleteMemory w d expected rs) as [e|] eqn:E; [|done].
      assert (effects_typed e) as He.
      { unfold Snapshot_CompleteMemory, CompleteFloatMemory in E.
        case_if_in E; evaluated E; (eapply CompleteMemory_typed; [exact Hdst|exact Hrs|exact E]). }
      generalize (ApplyEffects_wf w e Hw He). by destruct (ApplyEffects w e).
    + intros expected rs part e Hx He. apply ApplyEffects_wf; [done|].
      eapply completePackedLoad_typed; [done|apply Hx|exact He].
Qed.
End Evaluate.

Lemma example_context_typed : context_typed example_context.
Proof. split; [by vm_compute..|]. split; try (by vm_compute); by split_and!; vm_compute. Qed.

Example ExecuteSingle_preserves_wf_witness :
  warp_wf example_warp /\ context_typed example_context /\
  warp_wf (ExecuteSingle example_warp 0x00a00293 example_context).1 /\
  read_register (w_lanes (ExecuteSingle example_warp 0x00a00293 example_context).1) (mkRegister Integer 5) = qfill 10.
Proof.
  split_and!; [apply example_warp_wf|apply example_context_typed| |vm_compute; reflexivity].
  apply (ExecuteSingle_preserves_wf example_warp 0x00a00293 example_context); [apply example_warp_wf|apply example_context_typed].
Defined.
