(* ===== verification/Agreement.v ===== *)
(** * The evaluators and the warp owner agree

    The evaluators (src/isa) compute effects from a snapshot; the owner
    (src/emu/state/apply.go) revalidates a bundle from scratch before committing
    it.  This file shows that the two sides implement the same contract: what an
    evaluator produces from a running, well-formed warp is accepted by the owner,
    with exactly the exceptions listed in [owner_refuses]. *)

From S2P Require Import Prelude IsaTypes Catalog Decode Integer System Custom Softfloat Float.
From S2P Require Import WarpState Apply ApplyInvariant View EvaluateTyped.

#[local] Open Scope Z_scope.
#[local] Open Scope go_scope.

Create HintDb agree.

(** ** Staging reduces to its last phase *)

Definition writes_ok (ws : list RegisterWriteEffect) : Prop :=
  ws = [] \/ exists r m v, ws = [mkRegisterWriteEffect 0 r m v] /\ reg_ok r /\ mask_ok m.

Lemma mask_valid m : mask_ok m -> LaneMask_Valid m = true.
Proof. intros Hm. by apply LaneMask_Valid_spec; [apply Hm|]. Qed.

Lemma writes_ok_staged w ws : writes_ok ws -> exists c, stageRegisterWrites w ws = Ok c.
Proof.
  intros [->|(r & m & v & -> & Hr & Hm)]; [by eexists|].
  unfold stageRegisterWrites. cbn [foldM stageRegisterWrite rw_Destination rw_ByteMask rw_Mask rw_Values].
  rewrite validateRegister_ok, mask_valid by done. change (0 .&^ 15 <>? 0) with false. cbn [negb].
  rewrite bool_decide_false by by apply not_elem_of_nil. cbn [negb].
  destruct (_ && _); eexists; reflexivity.
Qed.

(** A register append only fills the empty list of writes. *)
Lemma append_form e d m v :
  RegisterWrites e = [] -> Forall reg_ok (d_Destinations d) -> mask_ok m ->
  exists ws, appendRegisterWrite e d m v = with_RegisterWrites ws e /\ writes_ok ws.
Proof.
  intros He Hd Hm. unfold appendRegisterWrite.
  assert (with_RegisterWrites [] e = e) as Ee by (destruct e; cbn in *; by subst).
  destruct (m =? 0); [exists []; split; [done|by left]|].
  destruct (d_Destinations d) as [|r rs]; [exists []; split; [done|by left]|].
  apply Forall_cons in Hd as [Hr _]. destruct (_ && _); [exists []; split; [done|by left]|].
  rewrite He. cbn [app]. eexists. split; [done|]. right. by exists r, m, v.
Qed.

(** The CSR part of a bundle passes against the owner. *)
Definition csr_ok (w : WarpState) (e : InstructionEffects) : Prop :=
  validateCSRReads w (CSRReads e) = Ok tt /\
  exists local, localCSRWrites w (CSRWrites e) = Ok local /\ forall c, exists c', stageCSRWrites w c local = Ok c'.

Lemma csr_ok_none w e : CSRReads e = [] -> CSRWrites e = [] -> csr_ok w e.
Proof. intros Hr Hs. unfold csr_ok. rewrite Hr, Hs. split; [done|]. exists []. split; [done|]. by eexists. Qed.

Lemma StageEffects_reduce w e :
  is_ok (classifyAndValidateForwarded w e) = true ->
  (Faults e = [] \/ hasLocalMutation e = false) ->
  writes_ok (RegisterWrites e) ->
  (forall f, FFlagsOf e = Some f -> ff_Accumulate f .&^ 0x1f = 0) ->
  csr_ok w e ->
  exists c, is_ok (StageEffects w e) = is_ok (stageControlMaskDivergenceTrap w c e).
Proof.
  intros Hc Hf Hw Hfl [Hr (local & Hl & Hs)]. unfold StageEffects.
  destruct (classifyAndValidateForwarded w e) as [[fw rq]|]; [|done]. cbn [result_bind].
  assert (negb (length (Faults e) =? 0)%nat && hasLocalMutation e = false) as -> by (destruct Hf as [-> | ->]; [done|apply andb_false_r]).
  cbn [negb]. destruct (writes_ok_staged w _ Hw) as [c1 ->]. cbn [result_bind].
  assert (exists c2, stageFFlags c1 (FFlagsOf e) = Ok c2) as [c2 ->].
  { unfold stageFFlags. destruct (FFlagsOf e) as [f|]; [|by eexists]. rewrite (Hfl f eq_refl). by eexists. }
  cbn [result_bind]. rewrite Hr, Hl. cbn [result_bind]. destruct (Hs c2) as [c3 ->]. cbn [result_bind].
  exists c3. by destruct (stageControlMaskDivergenceTrap w c3 e).
Qed.

(** ** The control phase *)

Lemma next_pc_aligned pc : pc_ok pc -> u32 (pc + 4) .& 3 = 0.
Proof.
  intros [Hu Ha]. rewrite land_3. unfold u32. rewrite <- (Z.mod_mod_divide _ (2 ^ 32) 4) by (by exists (2 ^ 30)).
  rewrite Z.mod_mod_divide by (by exists (2 ^ 30)). Z.div_mod_to_equations; lia.
Qed.

Lemma pc_low_bits pc : pc_ok pc -> pc .& 3 = 0.
Proof. intros [_ Ha]. by rewrite land_3. Qed.

Lemma clear_low_bits x : (x .&^ 3) .& 3 = 0.
Proof. apply Z.bits_inj'. intros i Hi. rewrite Z.land_spec, Z.ldiff_spec, Z.testbit_0_l. by destruct (Z.testbit x i), (Z.testbit 3 i). Qed.

Lemma validate_sequential w : pc_ok (w_pc w) -> validateControl w (sequentialControl (w_pc w)) = Ok tt.
Proof.
  intros Hp. unfold validateControl, sequentialControl. cbn [ce_CurrentPC ce_NextPC ce_Reason ce_Taken ce_Target ce_DecisionLane].
  by rewrite next_pc_aligned, !Z.eqb_refl.
Qed.

(** Bundles without mask, divergence and trap. *)
Lemma stage_plain w c e k :
  WarpMasks e = [] -> Trap e = None -> Divergence e = None -> Control e = Some k ->
  ce_Reason k ∈ [PCSequential; PCBranch; PCJump] ->
  is_ok (stageControlMaskDivergenceTrap w c e) = is_ok (validateControl w (Some k)).
Proof.
  intros Hm Ht Hd Hk Hr. unfold stageControlMaskDivergenceTrap, stageTrap. rewrite Hm, Ht, Hd, Hk. cbn [warpMaskOf result_bind andb negb stageDivergence].
  rewrite !bool_decide_false by (intros E; rewrite E in Hr; set_solver). cbn [negb orb result_bind].
  by destruct (validateControl w (Some k)).
Qed.

Lemma stage_empty w c e :
  WarpMasks e = [] -> Trap e = None -> Divergence e = None -> Control e = None ->
  is_ok (stageControlMaskDivergenceTrap w c e) = true.
Proof.
  intros Hm Ht Hd Hk. unfold stageControlMaskDivergenceTrap, stageTrap. rewrite Hm, Ht, Hd, Hk. done.
Qed.

Lemma stage_sequential w c e :
  pc_ok (w_pc w) -> WarpMasks e = [] -> Trap e = None -> Divergence e = None -> Control e = sequentialControl (w_pc w) ->
  is_ok (stageControlMaskDivergenceTrap w c e) = true.
Proof.
  intros Hp Hm Ht Hd Hk. rewrite (stage_plain w c e _ Hm Ht Hd Hk) by set_solver.
  pose proof (validate_sequential w Hp) as E. unfold sequentialControl in E. by rewrite E.
Qed.

(** ** Integer instructions *)

Lemma forallb_map {A B} (f : B -> bool) (g : A -> B) xs : forallb f (map g xs) = forallb (fun x => f (g x)) xs.
Proof. induction xs as [|x xs IH]; [done|]. cbn [map forallb]. by rewrite IH. Qed.

Lemma forallb_Forall {A} (f : A -> bool) xs : Forall (fun x => f x = true) xs -> forallb f xs = true.
Proof. induction 1 as [|x xs Hx Hxs IH]; [done|]. cbn. by rewrite Hx, IH. Qed.

Lemma lane_small lane : idx4 lane -> negb (lane >=? FrozenLaneCount) = true.
Proof. by intros [-> | [-> | [-> | ->]]]. Qed.

(** Accept a bundle whose fields compute: discharge the side conditions of
    [StageEffects_reduce] and leave the control phase. *)
Ltac stage_by tac :=
  match goal with |- is_ok (StageEffects ?w ?e) = _ =>
    let c := fresh "c" in
    destruct (StageEffects_reduce w e) as [c ->];
    [ tac | first [by left | by right] | try done; try (by left) | try (by intros ? [=]) | try (by apply csr_ok_none) | ] end.

Lemma memory_accepts w d input e :
  mem_width (ms_Bytes (d_Memory d)) -> evaluateMemory d input = Ok e -> is_ok (StageEffects w e) = true.
Proof.
  intros Hb. rewrite evaluateMemory_form by done. cbv zeta. destruct (active_lanes_ok (ii_ActiveMask input)) as [_ Hl].
  destruct (List.filter _ _) as [|f fs] eqn:Ef; cbv iota; intros <-%Ok_inj.
  - stage_by idtac; [|by apply stage_empty].
    unfold classifyAndValidateForwarded. cbn [with_MemoryRequests no_effects MemoryRequests Ordering WarpSpawn WarpDrains Barriers PackedLoads Faults].
    rewrite forallb_map, forallb_Forall; [done|]. eapply Forall_impl; [exact Hl|]. intros x Hx. by apply lane_small.
  - rewrite <- Ef. clear Ef. stage_by idtac; [|by apply stage_empty].
    unfold classifyAndValidateForwarded. cbn [with_Faults no_effects MemoryRequests Ordering WarpSpawn WarpDrains Barriers PackedLoads Faults forallb].
    rewrite forallb_map, forallb_Forall; [done|]. apply Forall_forall. intros x [Hx _]%list_elem_of_In%filter_In.
    apply list_elem_of_In in Hx. rewrite Forall_forall in Hl. specialize (Hl x Hx).
    unfold fault_ok, lane_fault. cbv zeta. repeat case_match; cbn [fe_Kind fe_Lane] in *; simplify_eq; by apply lane_small.
Qed.

Lemma decision_active w lane :
  mask_ok (w_activeMask w) -> highestActiveLane (w_activeMask w) = Some lane ->
  (lane <? FrozenLaneCount) && LaneMask_Active (w_activeMask w) lane = true.
Proof. intros Hm [Hl ->]%highestActiveLane_some. rewrite andb_true_r. by destruct Hl as [-> | [-> | [-> | ->]]]. Qed.

Lemma control_accepts w d input e :
  warp_wf w -> ii_PC input = w_pc w -> ii_ActiveMask input = w_activeMask w -> Forall reg_ok (d_Destinations d) ->
  evaluateControl d input = Ok e -> is_ok (StageEffects w e) = true.
Proof.
  intros Hw Hp Hm Hd H. pose proof (wf_pc w Hw) as Hpc. unfold evaluateControl in H. rewrite Hp, Hm in H.
  destruct (highestActiveLane _) as [lane|] eqn:El; [|done].
  pose proof (decision_active w lane (wf_mask w Hw) El) as Hact. apply highestActiveLane_some in El as [Hl _].
  assert (forall target, is_ok (StageEffects w (with_Faults
    [mkFaultEffect FaultInstructionAddressMisaligned FaultReasonAlignment lane target 4] no_effects)) = true) as Hfault.
  { intros target. stage_by idtac; [|by apply stage_empty].
    unfold classifyAndValidateForwarded. cbn [with_Faults no_effects MemoryRequests Ordering WarpSpawn WarpDrains Barriers PackedLoads
      Faults forallb]. unfold fault_ok. cbn [fe_Kind fe_Lane]. by rewrite (lane_small lane Hl). }
  cbv zeta in H. destruct (_ ==. ControlJump).
  - set (target := if d_Name d == "jal" then _ else _) in *. destruct (target .& 3 <>? 0) eqn:Et; apply Ok_inj in H as <-; [apply Hfault|].
    apply negb_false_iff, Z.eqb_eq in Et.
    destruct (append_form no_effects d (w_activeMask w) (filledValues (u32 (w_pc w + 4)))) as (ws & -> & Hws); [done..|apply Hw|].
    stage_by done. erewrite stage_plain; [|done..|cbn; set_solver].
    unfold validateControl. cbn [ce_CurrentPC ce_NextPC ce_Reason ce_Taken ce_Target ce_DecisionLane].
    by rewrite Et, Hact, !Z.eqb_refl.
  - destruct (branchTaken _ _ _) as [t|]; [|done]. set (target := u32 (w_pc w + u32 (d_Immediate d))) in *.
    destruct (t && (target .& 3 <>? 0)) eqn:Et; apply Ok_inj in H as <-; [apply Hfault|].
    stage_by done. erewrite stage_plain; [|done..|cbn; set_solver].
    unfold validateControl, choosePC. cbn [ce_CurrentPC ce_NextPC ce_Reason ce_Taken ce_Target ce_DecisionLane].
    rewrite Hact, Et, !Z.eqb_refl. cbn [negb orb].
    destruct t; cbn [andb] in Et; [apply negb_false_iff in Et; by rewrite Et|by rewrite next_pc_aligned].
Qed.

Lemma sequential_accepts w e ws :
  warp_wf w -> writes_ok ws -> e = with_RegisterWrites ws (with_Control (sequentialControl (w_pc w)) no_effects) ->
  is_ok (StageEffects w e) = true.
Proof. intros Hw Hws ->. stage_by done. apply stage_sequential; try done. apply Hw. Qed.

Definition integer_row_known (e : Entry) : bool :=
  (ms_Kind (e_Memory e) ==. MemoryNone) || (ms_Kind (e_Memory e) ==. MemoryFence) ||
  (ms_Bytes (e_Memory e) =? 1) || (ms_Bytes (e_Memory e) =? 2) || (ms_Bytes (e_Memory e) =? 4).

Lemma catalog_integer_known : forallb integer_row_known catalog = true.
Proof. vm_compute. reflexivity. Qed.

Lemma decoded_width word d :
  Decode word = Ok d -> ms_Kind (d_Memory d) <> MemoryNone -> ms_Kind (d_Memory d) <> MemoryFence -> mem_width (ms_Bytes (d_Memory d)).
Proof.
  intros [row Hrow]%decode_from Hn Hf. pose proof (decoded_row _ _ _ _ catalog_integer_known Hrow) as H.
  unfold integer_row_known in H. rewrite <- (df_memory _ _ _ Hrow) in H.
  rewrite !bool_decide_false in H by done. cbn [orb] in H. rewrite !orb_true_iff, !Z.eqb_eq in H. unfold mem_width. tauto.
Qed.

Lemma nibble_fits x k : (x >> k) .& 0xf .&^ 0xf = 0.
Proof. apply Z.bits_inj'. intros i Hi. rewrite Z.ldiff_spec, Z.land_spec, Z.testbit_0_l. by destruct (Z.testbit _ i), (Z.testbit 15 i). Qed.

Lemma integer_accepts word w d input e :
  Decode word = Ok d -> warp_wf w -> ii_PC input = w_pc w -> ii_ActiveMask input = w_activeMask w ->
  EvaluateInteger d input = Ok e -> is_ok (StageEffects w e) = true.
Proof.
  intros Hdec Hw Hp Hm H. destruct (decode_registers word d Hdec) as (_ & _ & _ & Hd). unfold EvaluateInteger in H. evaluated H.
  - apply Ok_inj in H as <-. rewrite Hp. stage_by idtac; [|apply stage_sequential; try done; apply Hw].
    unfold classifyAndValidateForwarded. cbn [with_Control with_Ordering no_effects MemoryRequests Ordering WarpSpawn WarpDrains
      Barriers PackedLoads Faults forallb oe_Predecessor oe_Successor]. by rewrite !nibble_fits.
  - eapply memory_accepts; [|exact H]. eapply decoded_width; [exact Hdec|..].
    all: intros E; rewrite E in *; done.
  - by eapply control_accepts.
  - destruct (evaluateALULanes d input) as [values ok]. destruct (negb ok); [done|]. apply Ok_inj in H as <-.
    destruct (append_form (with_Control (sequentialControl (ii_PC input)) no_effects) d (ii_ActiveMask input) values)
      as (ws & -> & Hws); [done|done|rewrite Hm; apply Hw|]. rewrite Hp. by eapply sequential_accepts.
Qed.

(** ** CSRs: the view the evaluator reads is the storage the owner checks *)

(** Which rows the owner stores; every other writable row is an ignored zero. *)
Definition csr_storage_row (e : CSREntry) : bool :=
  let stored := existsb (Z.eqb (csr_Address e)) [0x001; 0x002; 0x003; 0x300; 0x305; 0x340; 0x341; 0x342; 0x343] in
  stored || (negb (csr_Writable e) && (negb (csr_WriteIgnored e) || match csr_Value e with csrValueZero => true | _ => false end)).

Lemma csr_storage_rows : forallb csr_storage_row csrCatalog = true.
Proof. vm_compute. reflexivity. Qed.

Lemma land_255 x : is_u8 x -> x .& 0xff = x.
Proof. intros Hx. change 0xff with (Z.ones 8). rewrite Z.land_ones by lia. by apply Z.mod_small. Qed.

(** What the row of a checked address reads. *)
Definition owner_kind (address : Z) : option CSRValueKind :=
  if address =? 0x001 then Some csrValueFFlags
  else if address =? 0x002 then Some csrValueFRM
  else if address =? 0x003 then Some csrValueFCSR
  else if address =? 0x300 then Some csrValueMStatus
  else if address =? 0x305 then Some csrValueMTVec
  else if address =? 0x340 then Some csrValueMScratch
  else if address =? 0x341 then Some csrValueMEPC
  else if address =? 0x342 then Some csrValueMCause
  else if address =? 0x343 then Some csrValueMTVal
  else if address =? 0xcc1 then Some csrValueWarpID
  else if address =? 0xcc4 then Some csrValueActiveThreads
  else None.

Lemma owner_kind_rows entry : entry ∈ csrCatalog -> from_option (eq (csr_Value entry)) True (owner_kind (csr_Address entry)).
Proof.
  revert entry. apply Forall_forall. unfold csrCatalog.
  repeat (apply Forall_cons_2; [exact eq_refl || exact I|]). apply Forall_nil_2.
Qed.

(** A row the owner can check reads, in every lane, the value the owner holds. *)
Lemma readCSR_owner w context entry v :
  warp_wf w -> entry ∈ csrCatalog -> csrReadValue w (csr_Address entry) = Some v ->
  readCSR (csr_Value entry) (csr_view w context) = qfill v.
Proof.
  intros Hw Hin. pose proof (land_255 _ (wf_fcsr w Hw)) as Hf. apply owner_kind_rows in Hin.
  unfold csrReadValue, csrValue, owner_kind in *.
  repeat (match type of Hin with context [?a =? ?b] => destruct (a =? b) end;
    [cbn in Hin; rewrite Hin; intros [= <-]; cbn; first [reflexivity | unfold filledValues; by rewrite Hf]|]).
  done.
Qed.

Lemma csrValue_read w a v : csrValue w a = Some v -> csrReadValue w a = Some v.
Proof. unfold csrReadValue. by intros ->. Qed.

Lemma csrValue_none w entry :
  entry ∈ csrCatalog -> csrValue w (csr_Address entry) = None -> csr_Writable entry || csr_WriteIgnored entry = true ->
  csr_WriteIgnored entry = true /\ csr_Writable entry = false /\ csr_Value entry = csrValueZero.
Proof.
  intros Hin Hn Hwr. pose proof (forallb_elem _ _ csr_storage_rows _ Hin) as H. unfold csr_storage_row in H.
  destruct (existsb _ _) eqn:E; cbn [orb] in H.
  - exfalso. apply existsb_exists in E as (a & Ha & Ea%Z.eqb_eq).
    rewrite Ea in Hn. repeat (destruct Ha as [<-|Ha]; [cbn in Hn; discriminate|]). done.
  - destruct (csr_Writable entry), (csr_WriteIgnored entry), (csr_Value entry); try done.
Qed.

Lemma land_ldiff x m : (x .& m) .&^ m = 0.
Proof. apply Z.bits_inj'. intros i Hi. rewrite Z.ldiff_spec, Z.land_spec, Z.testbit_0_l. by destruct (Z.testbit x i), (Z.testbit m i). Qed.

(** One software CSR write built from the owner's view is staged. *)
Lemma csr_write_staged w context entry value :
  warp_wf w -> entry ∈ csrCatalog -> csr_Writable entry || csr_WriteIgnored entry = true ->
  let write := mkCSRWriteEffect (csr_Address entry) (csr_Scope entry) (w_id w)
    (qget (readCSR (csr_Value entry) (csr_view w context)) 0)
    (if csr_Writable entry then value .& csr_WriteMask entry else 0) (csr_WriteMask entry) (csr_WriteIgnored entry) in
  exists local, localCSRWrites w [write] = Ok local /\ forall c, exists c', stageCSRWrites w c local = Ok c'.
Proof.
  intros Hw Hin Hwr write. unfold localCSRWrites, csrEntry_lookup. cbn [foldM].
  assert (localCSRWrite w ([], [], 0) write = Ok (if local_csr_write write then [write] else [], [csr_Address entry],
    if (csr_Address entry >=? 1) && (csr_Address entry <=? 3) then 1 else 0)) as ->.
  { unfold localCSRWrite, csrEntry_lookup. subst write. cbn [cw_Address cw_Scope cw_WarpID cw_Value cw_WriteMask cw_Ignored].
    rewrite findCSR_unique by done. rewrite !Z.eqb_refl, bool_decide_true, eqb_reflx, Hwr by done. cbn [andb].
    assert ((if csr_Writable entry then value .& csr_WriteMask entry else 0) .&^ csr_WriteMask entry = 0) as ->
      by (case_match; [apply land_ldiff|apply Z.ldiff_0_l]).
    cbn [negb Z.eqb]. rewrite bool_decide_false by by apply not_elem_of_nil. cbn [negb].
    by destruct ((csr_Address entry >=? 1) && _). }
  cbn [result_bind]. eexists. split; [reflexivity|]. intros c. destruct (local_csr_write write); [|by exists c].
  unfold stageCSRWrites. cbn [foldM]. unfold stageCSRWrite. subst write. cbn [cw_Address cw_Value cw_OldValue cw_Ignored].
  destruct (csrValue w (csr_Address entry)) as [old|] eqn:Eo.
  - rewrite (readCSR_owner w context entry old) by (done || by apply csrValue_read). rewrite qget_qfill, Z.eqb_refl. by eexists.
  - destruct (csrValue_none w entry Hin Eo Hwr) as (-> & -> & ->). by eexists.
Qed.

Lemma csr_accepts w context d input e :
  warp_wf w -> Forall reg_ok (d_Destinations d) -> si_PC input = w_pc w -> si_ActiveMask input = w_activeMask w ->
  si_CSR input = csr_view w context -> evaluateCSR d input = Ok e -> is_ok (StageEffects w e) = true.
Proof.
  intros Hw Hd Hp Hm Hv H. unfold evaluateCSR in H. rewrite Hv, Hp, Hm in H.
  destruct (findCSR _) as [entry|] eqn:Ef; [|done]. apply findCSR_some in Ef as [Hin Ha]. cbv zeta in H.
  case_if_in H; [done|]. rename Heqb into Hwr.
  set (reads := [mkCSRReadEffect _ _ _]) in H.
  destruct (append_form (with_CSRReads reads (with_Control (sequentialControl (w_pc w)) no_effects)) d (w_activeMask w)
    (readCSR (csr_Value entry) (csr_view w context))) as (ws & E & Hws); [done..|apply Hw|]. rewrite E in H.
  assert (validateCSRReads w reads = Ok tt) as Hr.
  { unfold validateCSRReads, validateCSRRead, csrEntry_lookup. subst reads. cbn [foldM cr_Address cr_Scope cr_Values].
    rewrite findCSR_unique, bool_decide_true by done.
    destruct (csrReadValue w (csr_Address entry)) as [v|] eqn:Ev; [|done].
    rewrite (readCSR_owner w context entry v) by done. cbn. by rewrite Z.eqb_refl. }
  case_if_in H; apply Ok_inj in H as <-.
  - stage_by done; [|apply stage_sequential; try done; apply Hw].
    split; [done|]. exists []. split; [done|]. by eexists.
  - apply negb_false_iff in Heqb. rewrite Heqb in Hwr. cbn [andb] in Hwr. rewrite <- negb_orb in Hwr. apply negb_false_iff in Hwr.
    stage_by done; [|apply stage_sequential; try done; apply Hw]. split; [done|]. by apply csr_write_staged.
Qed.

(** ** Traps *)

Lemma u32_fits x : is_u32 x -> x .&^ 0xffffffff = 0.
Proof.
  intros Hx. change 0xffffffff with (Z.ones 32). rewrite Z.ldiff_ones_r by lia.
  rewrite Z.shiftr_div_pow2, Z.div_small by (exact Hx || lia). done.
Qed.

Lemma trapEntryWrite_hit id (want : gmap Z Z) a old v :
  want !! a = Some v -> trapEntryWrite id (Some want) (trapCSRWrite a id old v) = Some (delete a want).
Proof.
  intros E. unfold trapEntryWrite, trapCSRWrite. cbn [cw_Address cw_Scope cw_WarpID cw_Value].
  cbn [mbind option_bind]. rewrite E. cbn [mbind option_bind]. by rewrite bool_decide_true, !Z.eqb_refl.
Qed.

Lemma trap_writes_match epc cause id old1 old2 old3 vector mask :
  trapEntryWritesMatch [trapCSRWrite 0x341 id old1 epc; trapCSRWrite 0x342 id old2 cause; trapCSRWrite 0x343 id old3 0] id
    (mkTrapEffect TrapEnter cause epc vector mask 0 false) = true.
Proof.
  unfold trapEntryWritesMatch. cbn [length Nat.eqb negb fold_left te_EPC te_Cause].
  rewrite !trapEntryWrite_hit by reflexivity. apply bool_decide_true. reflexivity.
Qed.

Lemma trap_accepts w context d input e :
  warp_wf w -> si_PC input = w_pc w -> si_ActiveMask input = w_activeMask w -> si_CSR input = csr_view w context ->
  evaluateTrapSystem d input = Ok e -> is_ok (StageEffects w e) = true.
Proof.
  intros Hw Hp Hm Hv H. unfold evaluateTrapSystem in H. rewrite Hv, Hp, Hm in H. cbv zeta in H.
  cbn [csr_view cv_ThreadMask cv_MTVec cv_WarpID cv_MEPC cv_MCause cv_MTVal cv_SavedThreadMask] in H.
  pose proof (mask_valid _ (wf_mask w Hw)) as Hvm. pose proof (mask_valid _ (wf_saved w Hw)) as Hvs.
  destruct (_ || _); [|destruct (_ || _); [|done]]; case_if_in H; try done; apply Ok_inj in H as <-.
  - apply orb_false_iff in Heqb as [Hne _]. set (cause := if d_Name d == "ebreak" then _ else _).
    assert (is_u32 cause) as Hc by (subst cause; case_match; by vm_compute). stage_by done.
    + split; [done|]. exists [trapCSRWrite 0x341 (w_id w) (tc_MEPC (w_trapCSRs w)) (w_pc w);
        trapCSRWrite 0x342 (w_id w) (tc_MCause (w_trapCSRs w)) cause; trapCSRWrite 0x343 (w_id w) (tc_MTVal (w_trapCSRs w)) 0].
      cbn [with_Trap with_CSRWrites with_Control no_effects CSRWrites]. split.
      * unfold localCSRWrites, localCSRWrite, csrEntry_lookup. cbn [foldM trapCSRWrite cw_Address cw_WarpID cw_Scope cw_WriteMask cw_Ignored cw_Value].
        destruct (findCSR 0x341) as [r1|] eqn:F1; [|by vm_compute in F1]. vm_compute in F1. injection F1 as <-.
        destruct (findCSR 0x342) as [r2|] eqn:F2; [|by vm_compute in F2]. vm_compute in F2. injection F2 as <-.
        destruct (findCSR 0x343) as [r3|] eqn:F3; [|by vm_compute in F3]. vm_compute in F3. injection F3 as <-.
        cbn [csr_Scope csr_WriteMask csr_WriteIgnored csr_Writable]. rewrite !Z.eqb_refl, !u32_fits by (done || apply Hw || by vm_compute).
        reflexivity.
      * intros c0. unfold stageCSRWrites. cbn [foldM]. unfold stageCSRWrite.
        cbn [trapCSRWrite cw_Address cw_OldValue cw_Value]. unfold csrValue. cbn [Z.eqb Pos.eqb]. rewrite !Z.eqb_refl. cbn [result_bind]. by eexists.
    + unfold stageControlMaskDivergenceTrap, stageTrap. cbn [with_Trap with_CSRWrites with_Control no_effects WarpMasks Trap Divergence
        RegisterWrites FFlagsOf Control CSRWrites warpMaskOf result_bind stageDivergence te_Kind te_SaveThreadMask te_RestoreThreadMask
        te_EPC te_Vector te_RestoresThreadMask ce_Reason ce_NextPC ce_Target andb orb negb length Nat.eqb].
      rewrite Hvm, trap_writes_match, !Z.eqb_refl, Hne. cbn. rewrite clear_low_bits, !Z.eqb_refl. done.
  - stage_by done. unfold stageControlMaskDivergenceTrap, stageTrap. cbn [with_Trap with_CSRWrites with_Control no_effects WarpMasks Trap
      Divergence RegisterWrites FFlagsOf Control CSRWrites warpMaskOf result_bind stageDivergence te_Kind te_SaveThreadMask
      te_RestoreThreadMask te_EPC te_Vector te_RestoresThreadMask ce_Reason ce_NextPC ce_Target andb orb negb length Nat.eqb].
    rewrite Hvs, !Z.eqb_refl. destruct (w_savedThreadMask w =? 0) eqn:Es; cbn; rewrite ?Es, ?clear_low_bits, ?Z.eqb_refl; cbn; rewrite ?Z.eqb_refl; done.
Qed.

Lemma system_accepts word w context d input e :
  Decode word = Ok d -> warp_wf w -> si_PC input = w_pc w -> si_ActiveMask input = w_activeMask w -> si_CSR input = csr_view w context ->
  EvaluateSystem d input = Ok e -> is_ok (StageEffects w e) = true.
Proof.
  intros Hdec Hw Hp Hm Hv H. destruct (decode_registers word d Hdec) as (_ & _ & _ & Hd). unfold EvaluateSystem in H. evaluated H;
    [by eapply csr_accepts|by eapply trap_accepts].
Qed.

(** ** Floating point *)

Lemma float_accepts {L : SoftFloatLib} {HL : SoftFloatLaws L} word w d input e :
  Decode word = Ok d -> warp_wf w -> fi_PC input = w_pc w -> fi_ActiveMask input = w_activeMask w ->
  qforall is_u32 (fi_RS1 input) -> qforall is_u32 (fi_RS2 input) ->
  EvaluateFloat d input = Ok e -> is_ok (StageEffects w e) = true.
Proof.
  intros Hdec Hw Hp Hm H1 H2 H. destruct (EvaluateFloat_guard d input e H) as [Hb Hc]. destruct (decode_registers word d Hdec) as (_ & _ & _ & Hd).
  destruct (EvaluateFloat_cases word d input) as [(_ & Hwd & E)|[(values & flags & _ & Hf & E)|(_ & _ & E)]];
    try done; [rewrite Hm; apply Hw|..]; rewrite E in H; [by eapply memory_accepts| |done].
  apply Ok_inj in H as <-. rewrite Hp, Hm.
  destruct (append_form (with_Control (sequentialControl (w_pc w)) no_effects) d (w_activeMask w) values)
    as (ws & -> & Hws); [done|done|apply Hw|].
  destruct (_ <>? 0); [|by eapply sequential_accepts].
  stage_by done; [|apply stage_sequential; try done; apply Hw].
  intros f [= <-]. cbn [ff_Accumulate]. change 0x1f with (Z.ones 5). rewrite Z.ldiff_ones_r, Z.shiftr_div_pow2, Z.div_small by (exact Hf || lia).
  done.
Qed.

(** ** Custom instructions *)

Lemma stage_mask w c e m :
  warp_wf w -> Trap e = None -> Divergence e = None -> WarpMasks e = [m] -> Control e = sequentialControl (w_pc w) ->
  wm_WarpID m = w_id w -> mask_ok (wm_Mask m) -> wm_Active m = (wm_Mask m <>? 0) -> wm_Reason m ∈ [WarpMaskTMC; WarpMaskPredicate] ->
  is_ok (stageControlMaskDivergenceTrap w c e) = true.
Proof.
  intros Hw Ht Hd Hm Hc Hid Hmo Ha Hr. pose proof (validate_sequential w (wf_pc w Hw)) as Hv.
  destruct m as [id reason mask active]; cbn [wm_WarpID wm_Reason wm_Mask wm_Active] in *.
  unfold stageControlMaskDivergenceTrap, stageTrap, stageDivergence, warpMaskOf. rewrite Ht, Hd, Hm, Hc.
  cbn [wm_WarpID wm_Reason wm_Mask wm_Active]. rewrite Hid, Ha, mask_valid, Z.eqb_refl, eqb_reflx by done.
  cbn [andb]. assert (reason = WarpMaskTMC \/ reason = WarpMaskPredicate) as [-> | ->] by set_solver.
  all: unfold sequentialControl in *; cbn -[validateControl u32]; by rewrite Hv.
Qed.

Lemma spawnTargets_valid count id : WarpMask_Valid (spawnTargets count id) = true.
Proof.
  destruct (select_lanes_spec (fun warp => (warp <? count) && (warp <>? id))) as [Hs _].
  apply mask_valid in Hs. exact Hs.
Qed.

Definition barrier_row_known (e : Entry) : bool :=
  negb ((e_Name e == "bar") || (e_Name e == "bar.arrive") || (e_Name e == "bar.wait")) ||
  match e_Barrier e with BarrierNone | BarrierKindOther _ => false | _ => true end.

Lemma catalog_barriers_known : forallb barrier_row_known catalog = true.
Proof. vm_compute. reflexivity. Qed.

(** The input the snapshot builds for a custom instruction. *)
Record from_warp (w : WarpState) (input : CustomInput) : Prop := {
  fw_pc : ci_PC input = w_pc w;
  fw_mask : ci_ActiveMask input = w_activeMask w;
  fw_id : ci_WarpID input = w_id w;
  fw_pointer : dv_WritePointer (ci_Divergence input) = ds_writePointer (w_divergence w)
}.

Lemma crosslane_accepts w d input e :
  warp_wf w -> from_warp w input -> Forall reg_ok (d_Destinations d) -> evaluateCrossLane d input = Ok e ->
  is_ok (StageEffects w e) = true.
Proof.
  intros Hw [Hp Hm _ _] Hd H. unfold evaluateCrossLane in H. rewrite Hp, Hm in H. cbv zeta in H. pose proof (wf_mask w Hw).
  assert (forall m v, mask_ok m -> is_ok (StageEffects w
    (appendRegisterWrite (with_Control (sequentialControl (w_pc w)) no_effects) d m v)) = true) as Ha.
  { intros m v Hmo. destruct (append_form (with_Control (sequentialControl (w_pc w)) no_effects) d m v) as (ws & -> & Hws);
      [done..|]. by eapply sequential_accepts. }
  evaluated H; [destruct (voteMasks input)|..]; apply Ok_inj in H as <-; apply Ha; [done..|by apply mask_ok_ldiff].
Qed.

Lemma packed_accepts w d input e : evaluatePackedLoad d input = Ok e -> is_ok (StageEffects w e) = true.
Proof.
  intros H. unfold evaluatePackedLoad in H. evaluated H.
  assert (Forall (fun r => idx4 (pr_Lane r)) (fold4 (packedLane d input) ([], [])).1 /\
          Forall (fun f => fault_ok f = true) (fold4 (packedLane d input) ([], [])).2) as [Hl Hf].
  { assert (forall acc lane, idx4 lane ->
      Forall (fun r => idx4 (pr_Lane r)) acc.1 /\ Forall (fun f => fault_ok f = true) acc.2 ->
      Forall (fun r => idx4 (pr_Lane r)) (packedLane d input acc lane).1 /\
      Forall (fun f => fault_ok f = true) (packedLane d input acc lane).2) as Hstep.
    { intros acc lane Hi. unfold packedLane. destruct (LaneMask_Active (ci_ActiveMask input) lane); cbn [negb]; [|tauto]. generalize (upto (ms_Packed (d_Memory d))) as es.
      intros es. revert acc. induction es as [|el es IH]; intros acc Hacc; [done|]. cbn [fold_left]. apply IH.
      destruct acc as [ls fs], Hacc as [Ha Hb]. cbn [fst snd] in *. unfold packedElement. cbv zeta.
      assert (forall k r a, k = FaultLoadAddressMisaligned \/ k = FaultLoadAccess ->
        fault_ok (mkFaultEffect k r lane a (ms_Bytes (d_Memory d))) = true)
        by (intros k r a Hk; unfold fault_ok; cbn [fe_Kind fe_Lane]; rewrite (lane_small lane Hi); by destruct Hk as [-> | ->]).
      repeat case_match; cbn [fst snd]; split; try done; apply Forall_app; (split; [done|]); apply Forall_singleton; auto. }
    unfold fold4. repeat apply Hstep; unfold idx4; auto. }
  destruct (fold4 _ _) as [ls [|f fs]]; cbn [fst snd] in *; apply Ok_inj in H as <-.
  - stage_by idtac; [|by apply stage_empty].
    unfold classifyAndValidateForwarded. cbn [with_PackedLoads no_effects MemoryRequests Ordering WarpSpawn WarpDrains Barriers
      PackedLoads Faults forallb]. rewrite forallb_Forall; [done|]. eapply Forall_impl; [exact Hl|]. intros x Hx. by apply lane_small.
  - stage_by idtac; [|by apply stage_empty].
    unfold classifyAndValidateForwarded. cbn [with_Faults no_effects MemoryRequests Ordering WarpSpawn WarpDrains Barriers
      PackedLoads Faults]. rewrite (forallb_Forall fault_ok); done.
Qed.

(** The bundles the evaluators build for a divergence transition. *)
Definition divergence_bundle (ws : list RegisterWriteEffect) (k : ControlEffect) (masks : list WarpMaskEffect) (e : DivergenceEffect) :
    InstructionEffects :=
  with_RegisterWrites ws (with_WarpMasks masks (with_Divergence (Some e) (with_Control (Some k) no_effects))).

Lemma bundle_reduce w ws k masks e : writes_ok ws ->
  exists c, is_ok (StageEffects w (divergence_bundle ws k masks e)) =
            is_ok (stageControlMaskDivergenceTrap w c (divergence_bundle ws k masks e)).
Proof. intros Hws. apply StageEffects_reduce; [done|by left|done|by intros ? [=]|by apply csr_ok_none]. Qed.

Definition owner_mask (w : WarpState) (m : WarpMaskEffect) : Prop :=
  wm_WarpID m = w_id w /\ mask_ok (wm_Mask m) /\ wm_Active m = (wm_Mask m <>? 0) /\
  (wm_Reason m = WarpMaskSplit \/ wm_Reason m = WarpMaskJoin).

(** The mask of a bundle as the owner extracts it. *)
Lemma warpMaskOf_owner w m : owner_mask w m -> warpMaskOf w [m] = Ok (Some m).
Proof.
  intros (Hid & Hm & Ha & Hr). unfold warpMaskOf. rewrite Hid, Ha, mask_valid, Z.eqb_refl, eqb_reflx by done.
  by destruct Hr as [-> | ->].
Qed.

(** The last phase on such a bundle is the divergence transition and the control check. *)
Lemma bundle_phase w c ws k masks mask e :
  warpMaskOf w masks = Ok mask -> ce_Reason k = PCSequential \/ ce_Reason k = PCReconverge ->
  is_ok (stageControlMaskDivergenceTrap w c (divergence_bundle ws k masks e)) =
  is_ok (stageDivergence w c (Some e) mask (Some k)) && is_ok (validateControl w (Some k)).
Proof.
  intros Hm Hk. unfold stageControlMaskDivergenceTrap, divergence_bundle.
  cbn [with_RegisterWrites with_WarpMasks with_Divergence with_Control no_effects WarpMasks Trap Divergence Control RegisterWrites
    FFlagsOf CSRWrites]. rewrite Hm. cbn [result_bind andb negb].
  destruct (stageDivergence w c (Some e) mask (Some k)) as [c1|]; [|done]. cbn [result_bind is_ok andb].
  unfold stageTrap. destruct mask; cbn [result_bind]; destruct Hk as [-> | ->]; cbn -[validateControl];
    by destruct (validateControl w (Some k)).
Qed.

Lemma stageSplit_accepts w c e k mask :
  pc_ok (w_pc w) -> div_wf (w_divergence w) -> ce_Reason k = PCSequential ->
  de_StackPointer e = ds_writePointer (w_divergence w) -> de_OriginalMask e = w_activeMask w ->
  de_MarkElseVisited e = false -> de_Pop e = false -> de_Push e = de_Divergent e ->
  de_ReconvergencePC e = u32 (w_pc w + 4) -> de_ExecuteMask e .& de_DeferredMask e = 0 ->
  de_ExecuteMask e .| de_DeferredMask e = w_activeMask w ->
  de_Divergent e = (de_ExecuteMask e <>? 0) && (de_DeferredMask e <>? 0) ->
  mask = (if de_Divergent e then Some (mkWarpMaskEffect (w_id w) WarpMaskSplit (de_ExecuteMask e) true) else None) ->
  is_ok (stageSplit w c e mask k) = negb (de_Divergent e && (ds_writePointer (w_divergence w) =? 3)).
Proof.
  intros Hp Hd Hk Hsp Ho Hme Hpo Hpu Hrp Hdis Hun Hdv ->. pose proof (dw_pointer _ Hd) as Hwp.
  unfold stageSplit. rewrite Hsp, Ho, Hme, Hpo, Hpu, Hrp, Hdis, Hun, Hk, !Z.eqb_refl, eqb_reflx.
  rewrite bool_decide_true by done. cbn [andb orb negb].
  destruct (de_Divergent e); cbn [negb andb].
  - symmetry in Hdv. apply andb_true_iff in Hdv as [H1%negb_true_iff H2%negb_true_iff].
    rewrite next_pc_aligned, H1, H2 by done. cbn [Z.eqb negb orb]. rewrite !orb_false_r. change FrozenDivergenceDepth with 3.
    destruct (Z.eqb_spec (ds_writePointer (w_divergence w)) 3) as [->|Hne]; [done|].
    destruct (Z.leb_spec 3 (ds_writePointer (w_divergence w))); [lia|]. cbn [negb wm_Reason wm_Mask wm_Active].
    rewrite Z.eqb_refl. done.
  - rewrite <- Hdv. done.
Qed.

(** The record a JOIN names may be taken. *)
Definition join_taken (w : WarpState) (p : Z) : bool :=
  let r := record_at (ds_records (w_divergence w)) p in
  if dr_elseVisited r then p + 1 =? ds_writePointer (w_divergence w) else negb (dr_originalMask r .&^ w_activeMask w =? 0).

Lemma split_accepts w d input e :
  warp_wf w -> from_warp w input -> Forall reg_ok (d_Destinations d) -> splitEffects d input = Ok e ->
  let t := select_lanes (lane_condition d input) in
  is_ok (StageEffects w e) =
  negb ((t <>? 0) && (w_activeMask w .&^ t <>? 0) && (ds_writePointer (w_divergence w) =? 3)).
Proof.
  intros Hw [Hp Hm Hid Hwp] Hd H t. unfold splitEffects in H. rewrite Hp, Hm, Hid, Hwp in H. cbv zeta in H. fold t in H. evaluated H.
  destruct (select_lanes_spec (lane_condition d input)) as [Ht _]. fold t in Ht.
  pose proof (select_lanes_within d input) as Hsub. rewrite Hm in Hsub. specialize (Hsub (wf_mask w Hw)). fold t in Hsub.
  destruct (split_halves (w_activeMask w) t (wf_mask w Hw) Ht Hsub) as (Hun & Hdis & _).
  set (el := w_activeMask w .&^ t) in *. assert (mask_ok el) as Hel by (apply mask_ok_ldiff, Hw).
  assert (exists x y, (if popCount t >? popCount el then (el, t) else (t, el)) = (x, y) /\ mask_ok x /\ mask_ok y /\ x .| y = w_activeMask w /\
    x .& y = 0 /\ (x <>? 0) && (y <>? 0) = (t <>? 0) && (el <>? 0)) as (x & y & E & Hx & Hy & Hxy & Hxy0 & Hdv).
  { destruct (_ >? _); do 2 eexists; (split; [reflexivity|]); split_and!; try done; [by rewrite Z.lor_comm|by rewrite Z.land_comm|apply andb_comm]. }
  rewrite E in H. set (dv := (t <>? 0) && (el <>? 0)) in *.
  set (de := mkDivergenceEffect _ _ _ _ _ _ _ _ _ _ _) in H.
  set (k := mkControlEffect PCSequential (w_pc w) (u32 (w_pc w + 4)) 0 false 0).
  set (masks := if dv then [mkWarpMaskEffect (w_id w) WarpMaskSplit x true] else []).
  destruct (append_form (with_WarpMasks masks (with_Divergence (Some de) (with_Control (Some k) no_effects))) d (w_activeMask w)
    (filledValues (ds_writePointer (w_divergence w)))) as (ws & Ea & Hws); [done|done|apply Hw|].
  assert (e = divergence_bundle ws k masks de) as ->.
  { apply Ok_inj in H as <-. unfold divergence_bundle. rewrite <- Ea. subst masks. by destruct dv. }
  destruct (bundle_reduce w ws k masks de Hws) as [c ->].
  rewrite (bundle_phase w c ws k masks (if dv then Some (mkWarpMaskEffect (w_id w) WarpMaskSplit x true) else None)); [| |by left].
  - assert (validateControl w (Some k) = Ok tt) as -> by (apply validate_sequential, Hw). cbn [is_ok]. rewrite andb_true_r.
    unfold stageDivergence. subst de. cbn [de_WarpID de_StackPointer de_OriginalMask de_ExecuteMask de_DeferredMask de_Action].
    rewrite Z.eqb_refl, !mask_valid by (done || apply Hw). pose proof (dw_pointer _ (wf_div w Hw)).
    change FrozenDivergenceDepth with 3. destruct (Z.ltb_spec 3 (ds_writePointer (w_divergence w))); [lia|]. cbn [negb orb].
    rewrite stageSplit_accepts; try done; apply Hw.
  - subst masks. destruct dv eqn:Ed; [|done]. apply warpMaskOf_owner. repeat split; try apply Hx; [|by left]. cbn [wm_Active wm_Mask].
    apply andb_true_iff in Hdv as [-> _]. done.
Qed.

(** The record view JOIN is given. *)
Definition join_view (w : WarpState) (p : Z) : DivergenceRecordView :=
  if p <? 3 then
    let r := record_at (ds_records (w_divergence w)) p in
    mkDivergenceRecordView (dr_valid r) p (dr_originalMask r) (dr_nextPC r) (dr_elseVisited r)
  else no_record_view.

Definition sequential_k (w : WarpState) : ControlEffect := mkControlEffect PCSequential (w_pc w) (u32 (w_pc w + 4)) 0 false 0.
Definition join_effect (w : WarpState) (p : Z) (divergent : bool) (original execute pc : Z) (mark pop : bool) : DivergenceEffect :=
  mkDivergenceEffect DivergenceJoin (w_id w) p divergent original execute 0 pc false mark pop.
Definition join_mask (w : WarpState) (execute : LaneMask) : WarpMaskEffect :=
  mkWarpMaskEffect (w_id w) WarpMaskJoin execute (execute <>? 0).

(** Unfold a JOIN bundle down to the owner's guards. *)
Ltac join_guards :=
  unfold stageDivergence, stageJoin, join_effect, join_mask;
  cbn [de_WarpID de_StackPointer de_OriginalMask de_ExecuteMask de_DeferredMask de_Action
    de_Push de_MarkElseVisited de_Pop de_Divergent de_ReconvergencePC wm_Reason wm_Mask wm_Active];
  change FrozenDivergenceDepth with 3.

Lemma join_uniform_accepts w : warp_wf w ->
  is_ok (StageEffects w (divergence_bundle [] (sequential_k w) []
    (join_effect w (ds_writePointer (w_divergence w)) false (w_activeMask w) 0 0 false false))) = true.
Proof.
  intros Hw. pose proof (dw_pointer _ (wf_div w Hw)).
  match goal with |- is_ok (StageEffects w (divergence_bundle _ _ _ ?de)) = _ => destruct (bundle_reduce w [] (sequential_k w) [] de) as [c ->] end;
    [by left|]. rewrite (bundle_phase w c [] (sequential_k w) [] None) by (done || by left).
  change (Some (sequential_k w)) with (sequentialControl (w_pc w)) at 2. rewrite (validate_sequential w (wf_pc w Hw)). cbn [is_ok].
  rewrite andb_true_r. join_guards. rewrite !Z.eqb_refl, !mask_valid by first [apply Hw | by vm_compute].
  destruct (Z.ltb_spec 3 (ds_writePointer (w_divergence w))); [lia|]. done.
Qed.

Lemma join_pop_accepts w p : warp_wf w -> 0 <= p < ds_writePointer (w_divergence w) ->
  let r := record_at (ds_records (w_divergence w)) p in dr_elseVisited r = true ->
  is_ok (StageEffects w (divergence_bundle [] (sequential_k w) [join_mask w (dr_originalMask r)]
    (join_effect w p true (dr_originalMask r) (dr_originalMask r) (dr_nextPC r) false true))) =
  (p + 1 =? ds_writePointer (w_divergence w)).
Proof.
  intros Hw Hp r Hvis. pose proof (dw_pointer _ (wf_div w Hw)). destruct (dw_live _ (wf_div w Hw) p Hp) as [Hval [Hmo _ _]].
  fold r in Hval, Hmo. match goal with |- is_ok (StageEffects w (divergence_bundle _ ?k ?m ?de)) = _ =>
    destruct (bundle_reduce w [] k m de) as [c ->]; [by left|]; rewrite (bundle_phase w c [] k m (Some (join_mask w (dr_originalMask r)))) end;
    [|by apply warpMaskOf_owner; repeat split; try apply Hmo; right|by left].
  change (Some (sequential_k w)) with (sequentialControl (w_pc w)) at 2. rewrite (validate_sequential w (wf_pc w Hw)). cbn [is_ok].
  rewrite andb_true_r. join_guards. fold r.
  rewrite Hval, Hvis, !Z.eqb_refl, !mask_valid, eqb_reflx, (u8_id (p + 1)) by first [done | by vm_compute | unfold is_u8; lia].
  destruct (Z.ltb_spec 3 p); [lia|]. destruct (Z.leb_spec 3 p); [lia|]. cbn. by destruct (p + 1 =? ds_writePointer (w_divergence w)).
Qed.

Lemma join_mark_accepts w p lane : warp_wf w -> highestActiveLane (w_activeMask w) = Some lane ->
  0 <= p < ds_writePointer (w_divergence w) ->
  let r := record_at (ds_records (w_divergence w)) p in let x := dr_originalMask r .&^ w_activeMask w in dr_elseVisited r = false ->
  is_ok (StageEffects w (divergence_bundle [] (mkControlEffect PCReconverge (w_pc w) (dr_nextPC r) (dr_nextPC r) true lane)
    [join_mask w x] (join_effect w p true (dr_originalMask r) x (dr_nextPC r) true false))) = negb (x =? 0).
Proof.
  intros Hw Hlane Hp r x Hvis. pose proof (dw_pointer _ (wf_div w Hw)). pose proof (decision_active w lane (wf_mask w Hw) Hlane) as Hact.
  destruct (dw_live _ (wf_div w Hw) p Hp) as [Hval [Hmo _ Hpc]]. fold r in Hval, Hmo, Hpc.
  assert (mask_ok x) as Hx by by apply mask_ok_ldiff.
  match goal with |- is_ok (StageEffects w (divergence_bundle _ ?k ?m ?de)) = _ =>
    destruct (bundle_reduce w [] k m de) as [c ->]; [by left|]; rewrite (bundle_phase w c [] k m (Some (join_mask w x)));
      [assert (validateControl w (Some k) = Ok tt) as ->| |] end;
    [|cbn [is_ok]; rewrite andb_true_r|by apply warpMaskOf_owner; repeat split; try apply Hx; right|by right].
  - unfold validateControl. cbn [ce_CurrentPC ce_NextPC ce_Reason ce_Taken ce_Target ce_DecisionLane].
    by rewrite Hact, (pc_low_bits _ Hpc), !Z.eqb_refl.
  - join_guards. fold r. fold x. rewrite Hval, Hvis, !Z.eqb_refl, !mask_valid, eqb_reflx by first [done | by vm_compute].
    destruct (Z.ltb_spec 3 p); [lia|]. destruct (Z.leb_spec 3 p); [lia|]. cbn. destruct (x =? 0); cbn; [done|]. by rewrite ?Z.eqb_refl.
Qed.

Lemma join_accepts w d input lane e :
  warp_wf w -> from_warp w input -> highestActiveLane (w_activeMask w) = Some lane ->
  let p := qget (ci_RS1 input) lane .& 3 in
  dv_Record (ci_Divergence input) = join_view w p -> joinEffects d input lane = Ok e ->
  is_ok (StageEffects w e) = (p =? ds_writePointer (w_divergence w)) || join_taken w p.
Proof.
  intros Hw [Hp Hm Hid Hwp] Hlane p Hrec H. assert (0 <= p < 4) as Hp4 by (by apply (land_bounded 2)).
  unfold joinEffects in H. rewrite Hp, Hm, Hid, Hwp, Hrec in H. cbv zeta in H. fold p in H. rewrite (u8_id p) in H by (unfold is_u8; lia).
  destruct (Z.eqb_spec p (ds_writePointer (w_divergence w))) as [Epw|Hne]; cbn [orb].
  - apply Ok_inj in H as <-. rewrite Epw. exact (join_uniform_accepts w Hw).
  - evaluated H; match goal with Hg : negb (_ || _ || _) = true |- _ => apply negb_true_iff, orb_false_iff in Hg as [[Hval _]%orb_false_iff _] end;
      unfold join_view in *; destruct (Z.ltb_spec p 3) as [Hp3|]; try done; cbn [drv_Valid drv_Pointer drv_OriginalMask drv_ElseVisited drv_NextPC] in *;
      apply negb_false_iff in Hval; pose proof (live_record _ p (wf_div w Hw) ltac:(lia) Hval) as Hlt;
      unfold join_taken; cbv zeta; apply Ok_inj in H as <-.
    + match goal with Hv : dr_elseVisited _ = true |- _ => rewrite Hv; exact (join_pop_accepts w p Hw ltac:(lia) Hv) end.
    + match goal with Hv : dr_elseVisited _ = false |- _ => rewrite Hv; exact (join_mark_accepts w p lane Hw Hlane ltac:(lia) Hv) end.
Qed.

(** ** What the owner refuses

    A spawn to a misaligned PC, a divergent SPLIT with the stack full, and a JOIN
    that would pop a record below the top or mark an else path without lanes. *)
Definition owner_refuses (w : WarpState) (d : Decoded) : bool :=
  let lane := default 0 (highestActiveLane (w_activeMask w)) in
  let rs i := source (map (read_register (w_lanes w)) (d_Sources d)) i in
  let wp := ds_writePointer (w_divergence w) in
  if d_Name d == "wspawn" then qget (rs 1%nat) lane .& 3 <>? 0
  else if d_Name d == "split" then
    let t := select_lanes (fun lane => LaneMask_Active (w_activeMask w) lane &&
                                       negb (Bool.eqb (qget (rs 0%nat) lane .& 1 <>? 0) (d_ConditionNegated d))) in
    (t <>? 0) && (w_activeMask w .&^ t <>? 0) && (wp =? 3)
  else if d_Name d == "join" then
    let p := qget (rs 0%nat) lane .& 3 in negb ((p =? wp) || join_taken w p)
  else false.

Lemma highest_none m : mask_ok m -> highestActiveLane m = None -> m = 0.
Proof.
  intros Hm H. apply mask_ext; [done|by vm_compute|]. unfold highestActiveLane in H. repeat (case_if_in H; [done|]).
  intros lane [-> | [-> | [-> | ->]]]; done.
Qed.

Lemma barrier_accepts word w d input lane :
  Decode word = Ok d -> warp_wf w -> from_warp w input ->
  (d_Name d == "bar") || (d_Name d == "bar.arrive") || (d_Name d == "bar.wait") = true ->
  is_ok (StageEffects w (barrierEffects d input lane)) = true.
Proof.
  intros Hdec Hw [Hp Hm Hid _] Hn. destruct (decode_registers word d Hdec) as (_ & _ & _ & Hd). apply decode_from in Hdec as [row Hrow].
  pose proof (decoded_row _ _ _ _ catalog_barriers_known Hrow) as Hb. unfold barrier_row_known in Hb.
  rewrite <- (df_name _ _ _ Hrow), <- (df_barrier _ _ _ Hrow), Hn in Hb. cbn [negb orb] in Hb.
  unfold barrierEffects. rewrite Hp, Hm, Hid. cbv zeta. destruct (ci_PendingLSU input).
  { stage_by idtac; [|by apply stage_empty]. unfold classifyAndValidateForwarded. cbn. unfold drain_ok. cbn. by rewrite Z.eqb_refl. }
  set (b := mkBarrierEffect _ _ _ _ _ _ _ _ _ _ _ _ _ _ _).
  assert (barrier_ok w b = true) as Hbo.
  { unfold barrier_ok. subst b. cbn [be_WarpID be_AddressWarp be_ID be_Kind]. rewrite Z.eqb_refl.
    pose proof (land_bounded 2 (qget (ci_RS1 input) lane) 3 ltac:(lia) ltac:(lia)).
    pose proof (land_bounded 3 (qget (ci_RS1 input) lane >> 8) 7 ltac:(lia) ltac:(lia)).
    rewrite !u8_id by (unfold is_u8; lia). unfold FrozenWarpCount, FrozenBarrierCount.
    destruct (Z.leb_spec 4 (qget (ci_RS1 input) lane .& 3)); [lia|].
    destruct (Z.leb_spec 8 ((qget (ci_RS1 input) lane >> 8) .& 7)); [lia|]. exact Hb. }
  set (base := with_Barriers [b] _).
  assert (forall ws, writes_ok ws -> is_ok (StageEffects w (with_RegisterWrites ws base)) = true) as Ha.
  { intros ws Hws. stage_by idtac; [|apply stage_sequential; try done; apply Hw]. unfold classifyAndValidateForwarded, base.
    cbn [with_RegisterWrites with_Barriers with_WarpDrains with_Control no_effects MemoryRequests Ordering WarpSpawn WarpDrains Barriers
      PackedLoads Faults forallb]. rewrite Hbo. unfold drain_ok. cbn. by rewrite Z.eqb_refl. }
  destruct (_ ==. BarrierArrive); [|by apply (Ha []); left].
  destruct (append_form base d (w_activeMask w) (filledValues (boolWord (ci_BarrierPhase input)))) as (ws & -> & Hws);
    [done|done|apply Hw|]. by apply Ha.
Qed.

Lemma warp_control_accepts word w d input e :
  Decode word = Ok d -> warp_wf w -> w_activeMask w <> 0 -> from_warp w input ->
  (forall i, (i < 3)%nat -> nth i [ci_RS1 input; ci_RS2 input; ci_RS3 input] (qfill 0) = source (map (read_register (w_lanes w)) (d_Sources d)) i) ->
  (d_Name d = "join" -> forall lane, highestActiveLane (w_activeMask w) = Some lane ->
   dv_Record (ci_Divergence input) = join_view w (qget (ci_RS1 input) lane .& 3)) ->
  evaluateWarpControl d input = Ok e -> is_ok (StageEffects w e) = negb (owner_refuses w d).
Proof.
  intros Hdec Hw Hne Hfrom Hsrc Hjoin H. destruct (decode_registers word d Hdec) as (_ & _ & _ & Hd). pose proof Hfrom as [Hp Hm Hid _].
  pose proof (Hsrc 0%nat ltac:(lia)) as S0. pose proof (Hsrc 1%nat ltac:(lia)) as S1. cbn [nth] in S0, S1.
  destruct (highestActiveLane (w_activeMask w)) as [lane|] eqn:El; [|by destruct Hne; apply highest_none; [apply Hw|]].
  unfold owner_refuses. rewrite El, <- S0, <- S1. unfold evaluateWarpControl in H. rewrite Hp, Hm, Hid, El in H. unfold default, id in *. cbv zeta in *.
  destruct (select_lanes_spec (lane_condition d input)) as [Hsel _].
  destruct (String.eqb_spec (d_Name d) "tmc") as [En|_].
  { rewrite En. apply Ok_inj in H as <-. cbn [String.eqb Ascii.eqb Bool.eqb negb].
    stage_by done. eapply stage_mask; try done; cbn; [by apply mask_ok_land|set_solver]. }
  destruct (String.eqb_spec (d_Name d) "pred") as [En|_].
  { rewrite En. apply Ok_inj in H as <-. cbn [String.eqb Ascii.eqb Bool.eqb negb].
    stage_by done. eapply stage_mask; try done; cbn; [case_match; [by apply mask_ok_land|done]|set_solver]. }
  destruct (String.eqb_spec (d_Name d) "wspawn") as [En|_].
  { apply Ok_inj in H as <-. rewrite negb_involutive. destruct (qget (ci_RS2 input) lane .& 3 =? 0) eqn:Et.
    - stage_by idtac; [|apply stage_sequential; try done; apply Hw]. unfold classifyAndValidateForwarded, spawn_ok. cbn.
      by rewrite Z.eqb_refl, spawnTargets_valid, Et.
    - unfold StageEffects, classifyAndValidateForwarded, spawn_ok. cbn. by rewrite Et, andb_false_r. }
  destruct (String.eqb_spec (d_Name d) "split") as [En|_].
  { rewrite (split_accepts w d input e Hw Hfrom Hd H). unfold lane_condition. by rewrite Hm. }
  destruct (String.eqb_spec (d_Name d) "join") as [En|_].
  { rewrite negb_involutive. by eapply join_accepts; [| |exact El|by apply Hjoin|exact H]. }
  destruct (_ || (d_Name d == "bar.wait")) eqn:Eb; [apply Ok_inj in H as <-; by eapply barrier_accepts|].
  destruct (d_Name d == "wsync"); [|done]. apply Ok_inj in H as <-.
  destruct (ci_PendingPriorWork input); (stage_by idtac; [unfold classifyAndValidateForwarded, drain_ok; cbn; by rewrite Z.eqb_refl|]).
  - by apply stage_empty.
  - apply stage_sequential; try done. apply Hw.
Qed.

Lemma highestActive_lane m lane : highestActiveLane m = Some lane -> highestActive m = lane.
Proof. unfold highestActiveLane, highestActive. repeat case_match; naive_solver. Qed.

Definition join_row_known (e : Entry) : bool := negb (e_Name e == "join") || (e_Control e ==. ControlJoin).
Lemma catalog_join_known : forallb join_row_known catalog = true.
Proof. vm_compute. reflexivity. Qed.

Lemma divergence_view_join word w d sources lane :
  Decode word = Ok d -> d_Name d = "join" -> highestActiveLane (w_activeMask w) = Some lane ->
  dv_Record (divergence_view w d sources) = join_view w (qget (source sources 0) lane .& 3).
Proof.
  intros [row Hrow]%decode_from Hn Hl. pose proof (decoded_row _ _ _ _ catalog_join_known Hrow) as Hj. unfold join_row_known in Hj.
  rewrite <- (df_name _ _ _ Hrow), <- (df_control _ _ _ Hrow), Hn in Hj. cbn [String.eqb Ascii.eqb Bool.eqb negb orb] in Hj.
  unfold divergence_view, join_view. rewrite Hj, (highestActive_lane _ _ Hl). cbn [dv_Record]. cbv zeta.
  pose proof (land_bounded 2 (qget (source sources 0) lane) 3 ltac:(lia) ltac:(lia)).
  by rewrite (u8_id (_ .& 3)) by (unfold is_u8; lia).
Qed.

Lemma owner_refuses_custom w d : is_crosslane (d_Name d) = true \/ (d_Name d == "vx_packlb_f") || (d_Name d == "vx_packlh_f") = true ->
  owner_refuses w d = false.
Proof.
  intros Hn. unfold owner_refuses. cbv zeta.
  destruct (String.eqb_spec (d_Name d) "wspawn") as [E|_]; [rewrite E in Hn; by destruct Hn|].
  destruct (String.eqb_spec (d_Name d) "split") as [E|_]; [rewrite E in Hn; by destruct Hn|].
  destruct (String.eqb_spec (d_Name d) "join") as [E|_]; [rewrite E in Hn; by destruct Hn|]. done.
Qed.

Definition refusable_row_custom (e : Entry) : bool :=
  negb ((e_Name e == "wspawn") || (e_Name e == "split") || (e_Name e == "join")) || (e_Category e == CategoryCustom).
Lemma catalog_refusable_custom : forallb refusable_row_custom catalog = true.
Proof. vm_compute. reflexivity. Qed.

Lemma owner_refuses_other word w d : Decode word = Ok d -> d_Category d <> CategoryCustom -> owner_refuses w d = false.
Proof.
  intros [row Hrow]%decode_from Hc. pose proof (decoded_row _ _ _ _ catalog_refusable_custom Hrow) as H. unfold refusable_row_custom in H.
  rewrite <- (df_name _ _ _ Hrow), <- (df_category _ _ _ Hrow) in H. apply String.eqb_neq in Hc. rewrite Hc, orb_false_r in H.
  apply negb_true_iff, orb_false_iff in H as [[H1 H2]%orb_false_iff H3]. unfold owner_refuses. by rewrite H1, H2, H3.
Qed.

Section Agreement.
Context {L : SoftFloatLib} {HL : SoftFloatLaws L}.

Lemma custom_accepts word w d input e :
  Decode word = Ok d -> warp_wf w -> w_activeMask w <> 0 -> from_warp w input ->
  ci_RS1 input = source (map (read_register (w_lanes w)) (d_Sources d)) 0 ->
  ci_RS2 input = source (map (read_register (w_lanes w)) (d_Sources d)) 1 ->
  ci_RS3 input = source (map (read_register (w_lanes w)) (d_Sources d)) 2 ->
  ci_Divergence input = divergence_view w d (map (read_register (w_lanes w)) (d_Sources d)) ->
  EvaluateCustom d input = Ok e -> is_ok (StageEffects w e) = negb (owner_refuses w d).
Proof.
  intros Hdec Hw Hne Hfrom S0 S1 S2 Hdv H. destruct (decode_registers word d Hdec) as (_ & _ & _ & Hd).
  unfold EvaluateCustom in H. cbv zeta in H. evaluated H.
  1: rewrite owner_refuses_custom; [by eapply crosslane_accepts|left; unfold is_crosslane; cbn [existsb]; by rewrite orb_false_r, !orb_assoc].
  1: rewrite owner_refuses_custom; [by eapply packed_accepts|by right].
  all: eapply warp_control_accepts; [done..| | |exact H];
    [intros [|[|[|]]] Hi; try lia; done|intros Hn lane Hl; rewrite Hdv, S0; by eapply divergence_view_join].
Qed.

(** C21: the evaluators and the owner agree: on a well-formed running warp, the
    effects evaluated for a decoded word pass the owner's independent validation,
    except exactly for a spawn to a misaligned PC, a divergent SPLIT on a full
    divergence stack, and a JOIN of a record that is not on top or has no deferred
    lanes left. *)
Theorem evaluator_owner_agreement w word d context e :
  warp_wf w -> w_activeMask w <> 0 -> Decode word = Ok d -> Evaluate w d context = Ok e ->
  is_ok (StageEffects w e) = negb (owner_refuses w d).
Proof.
  intros Hw Hne Hdec H. destruct (decode_registers word d Hdec) as (Hl & _ & Hr & _).
  pose proof (fun i => source_u32 w d i Hw) as Hs.
  unfold Evaluate in H. rewrite sourceValues_ok in H by done. cbn [result_bind] in H. unfold evaluateOperands in H. cbv zeta in H.
  unfold Snapshot_IntegerInput, Snapshot_FloatInput, Snapshot_SystemInput, customInputWithSources in H.
  rewrite !sourceValues_ok in H by done. cbn [result_bind] in H. destruct (validateContext context) as [b|]; cbn [result_bind] in H;
    [|by repeat case_if_in H].
  evaluated H.
  - rewrite (owner_refuses_other word); [by eapply integer_accepts; [..|exact H]|done|]. intros E. rewrite E in *. done.
  - rewrite (owner_refuses_other word); [by eapply float_accepts; [..|exact H]; try done; apply Hs|done|]. intros E. rewrite E in *. done.
  - rewrite (owner_refuses_other word); [by eapply system_accepts; [..|exact H]|done|]. intros E. rewrite E in *. done.
  - by eapply custom_accepts; [..|exact H].
Qed.
End Agreement.

(** "wspawn" with a misaligned target and "addi" on the example warp. *)
Example evaluator_owner_agreement_witness :
  warp_wf example_warp /\ w_activeMask example_warp <> 0 /\
  exists d e, Decode 0x00a00293 = Ok d /\ Evaluate example_warp d example_context = Ok e /\ is_ok (StageEffects example_warp e) = true.
Proof.
  split; [apply example_warp_wf|]. split; [done|].
  destruct (Decode 0x00a00293) as [d|] eqn:Ed; [|vm_compute in Ed; discriminate].
  destruct (Evaluate example_warp d example_context) as [e|] eqn:Ee;
    [|vm_compute in Ed; apply Ok_inj in Ed as <-; vm_compute in Ee; discriminate].
  exists d, e. split_and!; [done..|].
  rewrite (evaluator_owner_agreement example_warp 0x00a00293 d example_context e);
    [|apply example_warp_wf|done|done|done]. vm_compute in Ed. apply Ok_inj in Ed as <-. reflexivity.
Defined.
