(* ===== verification/WarpExec.v ===== *)
(** * The warp executor (src/emu/warp/warp.go, run.go)

    [Step] executes one instruction through fetch, decode, view, evaluate, stage
    and commit; loads and stores are completed against the byte owner, deferred
    effects are left to the core.  [Run] repeats it under a budget.

    The services the executor is built with act on their own state [X] (the byte
    owner), shared between the instruction source and the data memory when both
    are the same object.  They do not change the warp's canonical state.  [errors.Join]
    is the list of the joined errors. *)

From S2P Require Import Prelude IsaTypes Catalog Decode Integer System Custom Softfloat Float Memory WarpState Apply View.

#[local] Open Scope Z_scope.
#[local] Open Scope go_scope.

(** ** Services *)

(** [MemoryService], with the optional [WriteBatch] of [AtomicMemoryService] and the
    optional [BoundWarpID]. *)
Record DataService (X : Type) := mkDataService {
  dsv_Read : X -> Z -> Z -> result (list Z);
  dsv_Write : X -> Z -> list Z -> X * result unit;
  dsv_WriteBatch : option (X -> list Z -> list (list Z) -> X * result unit);
  dsv_BoundWarpID : option Z
}.
Arguments mkDataService {X}.
Arguments dsv_Read {X}.
Arguments dsv_Write {X}.
Arguments dsv_WriteBatch {X}.
Arguments dsv_BoundWarpID {X}.

(** [InstructionSource]; [is_memory] is its [MemoryService] face, if it has one. *)
Record InstructionSource (X : Type) := mkInstructionSource {
  is_Read : X -> Z -> Z -> result (list Z);
  is_memory : option (DataService X)
}.
Arguments mkInstructionSource {X}.
Arguments is_Read {X}.
Arguments is_memory {X}.

Record Warp (X : Type) := mkWarp {
  wx_instructions : InstructionSource X;
  wx_memory : option (DataService X)
}.
Arguments mkWarp {X}.
Arguments wx_instructions {X}.
Arguments wx_memory {X}.

Section Construct.
Context {X : Type}.

Definition validateBoundMemory (owner : WarpState) (memory : DataService X) : result unit :=
  match dsv_BoundWarpID memory with
  | None => Ok tt
  | Some bound =>
      check bound =? w_id owner else Errorf "warp: memory is bound to another warp" in Ok tt
  end.

Definition New (owner : WarpState) (instructions : InstructionSource X) : result (Warp X) :=
  match is_memory instructions with
  | Some memory => let? _ := validateBoundMemory owner memory in Ok (mkWarp instructions (Some memory))
  | None => Ok (mkWarp instructions None)
  end.

Definition NewWithMemory (owner : WarpState) (memory : DataService X) : result (Warp X) :=
  New owner (mkInstructionSource (dsv_Read memory) (Some memory)).

Definition NewWithServices (owner : WarpState) (instructions : InstructionSource X) (memory : DataService X) : result (Warp X) :=
  let? w := New owner instructions in
  let? _ := validateBoundMemory owner memory in
  Ok (mkWarp (wx_instructions w) (Some memory)).
End Construct.

(** ** Outcomes *)

Inductive Outcome := OutcomeRetired | OutcomeTrap | OutcomeFault | OutcomeDeferred | OutcomeFinished.

(** The executor's [FaultKind]. *)
Inductive StepFaultKind :=
| FaultState | FaultExecutionMode | FaultInstructionAlignment | FaultInstructionAccess | FaultIllegalInstruction
| FaultView | FaultEvaluation | FaultEffectValidation | FaultCommit | FaultArchitectural.

Record Fault := mkFault {
  fl_Kind : StepFaultKind;
  fl_PC : Z;
  fl_Cause : list error;
  fl_Architectural : list FaultEffect
}.

(** [Result]; [r_Fault] is both [Fault] and [Err], which are set together. *)
Record Result := mkResult {
  r_Outcome : Outcome;
  r_WarpID : Z;
  r_PC : Z;
  r_ActiveMask : LaneMask;
  r_Lifecycle : WarpLifecycle;
  r_DivergencePointer : Z;
  r_Raw : option Z;
  r_Decoded : option Decoded;
  r_IssuedEffects : option InstructionEffects;
  r_Effects : option InstructionEffects;
  r_NextPC : Z;
  r_NextActiveMask : LaneMask;
  r_NextLifecycle : WarpLifecycle;
  r_NextDivergencePointer : Z;
  r_Fault : option Fault
}.

Definition start_result (w : WarpState) : Result :=
  mkResult OutcomeRetired (w_id w) (w_pc w) (w_activeMask w) (w_lifecycle w) (ds_writePointer (w_divergence w))
    None None None None (w_pc w) (w_activeMask w) (w_lifecycle w) (ds_writePointer (w_divergence w)) None.

Definition set_outcome (o : Outcome) (r : Result) : Result :=
  mkResult o (r_WarpID r) (r_PC r) (r_ActiveMask r) (r_Lifecycle r) (r_DivergencePointer r) (r_Raw r) (r_Decoded r)
    (r_IssuedEffects r) (r_Effects r) (r_NextPC r) (r_NextActiveMask r) (r_NextLifecycle r) (r_NextDivergencePointer r) (r_Fault r).
Definition set_raw (raw : Z) (r : Result) : Result :=
  mkResult (r_Outcome r) (r_WarpID r) (r_PC r) (r_ActiveMask r) (r_Lifecycle r) (r_DivergencePointer r) (Some raw) (r_Decoded r)
    (r_IssuedEffects r) (r_Effects r) (r_NextPC r) (r_NextActiveMask r) (r_NextLifecycle r) (r_NextDivergencePointer r) (r_Fault r).
Definition set_decoded (d : Decoded) (r : Result) : Result :=
  mkResult (r_Outcome r) (r_WarpID r) (r_PC r) (r_ActiveMask r) (r_Lifecycle r) (r_DivergencePointer r) (r_Raw r) (Some d)
    (r_IssuedEffects r) (r_Effects r) (r_NextPC r) (r_NextActiveMask r) (r_NextLifecycle r) (r_NextDivergencePointer r) (r_Fault r).
Definition set_issued (e : InstructionEffects) (r : Result) : Result :=
  mkResult (r_Outcome r) (r_WarpID r) (r_PC r) (r_ActiveMask r) (r_Lifecycle r) (r_DivergencePointer r) (r_Raw r) (r_Decoded r)
    (Some e) (Some e) (r_NextPC r) (r_NextActiveMask r) (r_NextLifecycle r) (r_NextDivergencePointer r) (r_Fault r).
Definition set_effects (e : InstructionEffects) (r : Result) : Result :=
  mkResult (r_Outcome r) (r_WarpID r) (r_PC r) (r_ActiveMask r) (r_Lifecycle r) (r_DivergencePointer r) (r_Raw r) (r_Decoded r)
    (r_IssuedEffects r) (Some e) (r_NextPC r) (r_NextActiveMask r) (r_NextLifecycle r) (r_NextDivergencePointer r) (r_Fault r).
Definition set_fault (f : Fault) (r : Result) : Result :=
  mkResult OutcomeFault (r_WarpID r) (r_PC r) (r_ActiveMask r) (r_Lifecycle r) (r_DivergencePointer r) (r_Raw r) (r_Decoded r)
    (r_IssuedEffects r) (r_Effects r) (r_NextPC r) (r_NextActiveMask r) (r_NextLifecycle r) (r_NextDivergencePointer r) (Some f).

(** The deferred observation of the owner at the return boundary. *)
Definition observe (w : WarpState) (r : Result) : Result :=
  mkResult (r_Outcome r) (r_WarpID r) (r_PC r) (r_ActiveMask r) (r_Lifecycle r) (r_DivergencePointer r) (r_Raw r) (r_Decoded r)
    (r_IssuedEffects r) (r_Effects r) (w_pc w) (w_activeMask w) (w_lifecycle w) (ds_writePointer (w_divergence w)) (r_Fault r).

Definition stepError (result : Result) (kind : StepFaultKind) (cause : error) : Result :=
  set_fault (mkFault kind (r_PC result) [cause] []) result.

Definition architecturalFault (result : Result) (faults : list FaultEffect) (cause : list error) : Result :=
  set_fault (mkFault FaultArchitectural (r_PC result) cause faults) result.

Definition hasUnresolvedExternal (e : InstructionEffects) : bool :=
  negb (length (MemoryRequests e) =? 0)%nat || negb (length (CSRWrites e) =? 0)%nat ||
  match WarpSpawn e with Some _ => true | None => false end ||
  negb (length (WarpDrains e) =? 0)%nat || negb (length (Barriers e) =? 0)%nat ||
  negb (length (PackedLoads e) =? 0)%nat || negb (length (Faults e) =? 0)%nat.

(** [errors.As] for the evaluator's two error types. *)
Definition evaluation_kind (e : error) : StepFaultKind :=
  match e with EvaluationError _ _ | CSRAccessError _ _ _ => FaultEvaluation | _ => FaultView end.

(** ** Data accesses *)

Record storeTransaction := mkStoreTransaction {
  stx_request : MemoryRequest;
  stx_address : Z;
  stx_after : list Z
}.

Definition legal_width (width : Z) : bool := (width =? 1) || (width =? 2) || (width =? 4).

(** The bytes of [after]: [after[index] = byte(value >> (8 * index))]. *)
Definition store_bytes (value width : Z) : list Z :=
  map (fun index => u8 (value >> (8 * Z.of_nat index))) (seq 0 (Z.to_nat width)).

(** [value |= uint32(b) << (8 * index)] over the bytes read. *)
Definition load_value (bytes : list Z) : Z :=
  fold_left (fun value '(index, b) => value .| u32 (b << (8 * Z.of_nat index))) (imap pair bytes) 0.

Section Access.
Context {X : Type} (memory : DataService X).

Definition readMemory (x : X) (address width : Z) : result Z :=
  check legal_width width else Errorf "warp: unsupported memory width" in
  let? bytes := dsv_Read memory x address width in
  Ok (load_value bytes).

Definition prepareStore (x : X) (request : MemoryRequest) : result storeTransaction :=
  check legal_width (mr_Width request) else Errorf "warp: unsupported store width" in
  let offset := u32 (mr_Address request - mr_AlignedAddress request) in
  let wantMask := u8 (u8 (u16 (u16 (1 << mr_Width request) - 1)) << offset) in
  check negb ((u32 (offset + mr_Width request) >? 4) || (mr_ByteMask request <>? wantMask))
    else Errorf "warp: store byte mask does not match address and width" in
  let? _ := dsv_Read memory x (mr_Address request) (mr_Width request) in
  let value := mr_StoreData request >> u32 (8 * offset) in
  Ok (mkStoreTransaction request (mr_Address request) (store_bytes value (mr_Width request))).

Definition writeStores (x : X) (stores : list storeTransaction) : X * result unit :=
  match stores with
  | [s] => dsv_Write memory x (stx_address s) (stx_after s)
  | _ =>
      match dsv_WriteBatch memory with
      | None => (x, Err (Errorf "warp: memory service lacks atomic multi-address store support"))
      | Some batch => batch x (map stx_address stores) (map stx_after stores)
      end
  end.

Definition memoryFaultResponse (request : MemoryRequest) : MemoryResponse :=
  mkMemoryResponse request 0 (if mr_Kind request ==. MemoryStore then FaultStoreAccess else FaultLoadAccess)
    FaultReasonMemoryService.

(** The request loop of [completeMemory]: the responses, the prepared stores and the
    joined service errors. *)
Definition serveRequest (x : X) (acc : list MemoryResponse * list storeTransaction * list error) (request : MemoryRequest) :
    list MemoryResponse * list storeTransaction * list error :=
  let '(responses, stores, serviceErr) := acc in
  if mr_Kind request ==. MemoryStore then
    match prepareStore x request with
    | Err e => (responses ++ [memoryFaultResponse request], stores, serviceErr ++ [e])
    | Ok transaction =>
        (responses ++ [mkMemoryResponse request 0 FaultNone FaultReasonNone], stores ++ [transaction], serviceErr)
    end
  else
    match readMemory x (mr_Address request) (mr_Width request) with
    | Err e => (responses ++ [memoryFaultResponse request], stores, serviceErr ++ [e])
    | Ok data => (responses ++ [mkMemoryResponse request data FaultNone FaultReasonNone], stores, serviceErr)
    end.

(** After a failed owner write: every lane gets the store-access fault. *)
Definition failedStore (snapshot : WarpSnapshot) (w : WarpState) (result : Result) (d : Decoded) (requests : list MemoryRequest) (expected : LaneMask)
    (cause : error) : Result :=
  let failedResponses := map (fun r => mkMemoryResponse r 0 FaultStoreAccess FaultReasonMemoryService) requests in
  let faults := map (fun r => mkFaultEffect FaultStoreAccess FaultReasonMemoryService (mr_Lane r) (mr_Address r) (mr_Width r)) requests in
  match Snapshot_CompleteMemory snapshot d expected failedResponses with
  | Err e => architecturalFault result faults [cause; e]
  | Ok failed =>
      let result := set_effects failed result in
      match StageEffects w failed with
      | Err e => stepError result FaultEffectValidation e
      | Ok _ => architecturalFault result (Faults failed) [cause]
      end
  end.

(** [completeMemory]: [w] is the canonical state, still equal to the snapshot. *)
Definition completeMemory (w : WarpState) (x : X) (result : Result) (d : Decoded) (requests : list MemoryRequest)
    (expected : LaneMask) : WarpState * X * Result :=
  let '(responses, stores, serviceErr) := fold_left (serveRequest x) requests ([], [], []) in
  match Snapshot_CompleteMemory w d expected responses with
  | Err e => (w, x, stepError (set_effects no_effects result) FaultEvaluation e)
  | Ok completed =>
      let result := set_effects completed result in
      match StageEffects w completed with
      | Err e => (w, x, stepError result FaultEffectValidation e)
      | Ok stage =>
          if negb (length (Faults completed) =? 0)%nat then (w, x, architecturalFault result (Faults completed) serviceErr)
          else if negb (length stores =? 0)%nat then
            let apply : external (X * bool) :=
              fun '(owner, (x, _)) => let '(x', r) := writeStores x stores in (owner, (x', true), r) in
            match CommitWithExternal w (x, false) stage apply with
            | (w', (x', writeCalled), _, Err e) =>
                if writeCalled then (w', x', failedStore w w' result d requests expected e)
                else (w', x', stepError result FaultCommit e)
            | (w', (x', _), _, Ok _) => (w', x', set_outcome OutcomeRetired result)
            end
          else
            match Commit w stage with
            | (w', _, Err e) => (w', x, stepError result FaultCommit e)
            | (w', _, Ok _) => (w', x, set_outcome OutcomeRetired result)
            end
      end
  end.

Definition servePacked (x : X) (acc : list PackedLoadResponse * list error) (request : PackedLoadRequest) :
    list PackedLoadResponse * list error :=
  let '(responses, serviceErr) := acc in
  match readMemory x (pr_Address request) (pr_Width request) with
  | Err e => (responses ++ [mkPackedLoadResponse request 0 FaultLoadAccess FaultReasonMemoryService], [e])
  | Ok data => (responses ++ [mkPackedLoadResponse request data FaultNone FaultReasonNone], serviceErr)
  end.

(** The executor's [completePackedLoad]. *)
Definition Warp_completePackedLoad (w : WarpState) (x : X) (result : Result) (d : Decoded) (requests : list PackedLoadRequest)
    (expected : LaneMask) : WarpState * X * Result :=
  let '(responses, serviceErr) := fold_left (servePacked x) requests ([], []) in
  match Snapshot_CompletePackedLoad w d expected responses with
  | Err e => (w, x, stepError (set_effects no_effects result) FaultEvaluation e)
  | Ok completed =>
      let result := set_effects completed result in
      match StageEffects w completed with
      | Err e => (w, x, stepError result FaultEffectValidation e)
      | Ok stage =>
          if negb (length (Faults completed) =? 0)%nat then (w, x, architecturalFault result (Faults completed) serviceErr)
          else
            match Commit w stage with
            | (w', _, Err e) => (w', x, stepError result FaultCommit e)
            | (w', _, Ok _) => (w', x, set_outcome OutcomeRetired result)
            end
      end
  end.
End Access.

(** ** Step *)

Section Step.
Context `{SoftFloatLib} {X : Type} (services : Warp X).

(** The commit of a stage that the executor owns alone. *)
Definition commitLocal (w : WarpState) (x : X) (result : Result) (stage : EffectStage) (effects : InstructionEffects) :
    WarpState * X * Result :=
  match Commit w stage with
  | (w', _, Err e) => (w', x, stepError result FaultCommit e)
  | (w', _, Ok _) =>
      (w', x, set_outcome (match Trap effects with Some _ => OutcomeTrap | None => OutcomeRetired end) result)
  end.

(** Everything after a successful evaluation. *)
Definition stepEffects (w : WarpState) (x : X) (result : Result) (d : Decoded) (effects : InstructionEffects) :
    WarpState * X * Result :=
  match StageEffects w effects with
  | Err e => (w, x, stepError result FaultEffectValidation e)
  | Ok stage =>
      if negb (length (Faults effects) =? 0)%nat then (w, x, architecturalFault result (Faults effects) [])
      else if negb (length (MemoryRequests effects) =? 0)%nat then
        match wx_memory services with
        | None => (w, x, set_outcome OutcomeDeferred result)
        | Some memory => completeMemory memory w x result d (MemoryRequests effects) (w_activeMask w)
        end
      else if negb (length (PackedLoads effects) =? 0)%nat then
        match wx_memory services with
        | None => (w, x, set_outcome OutcomeDeferred result)
        | Some memory => Warp_completePackedLoad memory w x result d (PackedLoads effects) (w_activeMask w)
        end
      else if match Ordering effects with Some _ => true | None => false end && RequiresExternalSuccess stage then
        if match wx_memory services with None => true | Some _ => false end || hasUnresolvedExternal effects
        then (w, x, set_outcome OutcomeDeferred result)
        else
          match CommitAfterExternal w stage with
          | (w', _, Err e) => (w', x, stepError result FaultCommit e)
          | (w', _, Ok _) => (w', x, set_outcome OutcomeRetired result)
          end
      else if RequiresExternalSuccess stage then (w, x, set_outcome OutcomeDeferred result)
      else commitLocal w x result stage effects
  end.

Definition stepInstruction (w : WarpState) (x : X) (result : Result) (raw : Z) (context : ReadContext) : WarpState * X * Result :=
  match Decode raw with
  | Err e => (w, x, stepError result FaultIllegalInstruction e)
  | Ok d =>
      let result := set_decoded d result in
      match Evaluate w d context with
      | Err e => (w, x, stepError (set_issued no_effects result) (evaluation_kind e) e)
      | Ok effects => stepEffects w x (set_issued effects result) d effects
      end
  end.

Definition stepBody (w : WarpState) (x : X) (context : ReadContext) : WarpState * X * Result :=
  let result := start_result w in
  if w_lifecycle w ==. WarpInactive then (w, x, set_outcome OutcomeFinished result)
  else if negb (LaneMask_Valid (w_activeMask w)) || (w_activeMask w =? 0) then
    (w, x, stepError result FaultState (Errorf "warp: running warp has invalid active mask"))
  else if w_pc w .& 3 <>? 0 then
    (w, x, stepError result FaultInstructionAlignment (Errorf "warp: instruction PC is not four-byte aligned"))
  else
    match is_Read (wx_instructions services) x (w_pc w) 4 with
    | Err e => (w, x, stepError result FaultInstructionAccess e)
    | Ok bytes => let raw := Uint bytes in stepInstruction w x (set_raw raw result) raw context
    end.

Definition Step (w : WarpState) (x : X) (context : ReadContext) : WarpState * X * Result :=
  let '(w', x', result) := stepBody w x context in (w', x', observe w' result).

(** ** Run (run.go) *)

Record TraceRecord := mkTraceRecord { tr_Step : Z; tr_Result : Result }.

Inductive RunOutcome := RunBudgetExceeded | RunFault | RunTrap | RunDeferred | RunFinished.

(** The step's fault, or the typed budget error. *)
Inductive RunError := StepError (fault : Fault) | BudgetExceededError (budget : Z).

Record RunResult := mkRunResult {
  rr_Outcome : RunOutcome;
  rr_Attempts : Z;
  rr_Retired : Z;
  rr_Last : option Result;
  rr_Err : option RunError
}.

Definition stop_outcome (o : Outcome) : RunOutcome :=
  match o with
  | OutcomeTrap => RunTrap
  | OutcomeDeferred => RunDeferred
  | OutcomeFinished => RunFinished
  | _ => RunFault
  end.

(** The loop of [Run]; [turns] is the budget still unused, so the guard
    [Attempts < StepBudget] fails exactly when it is zero. *)
Fixpoint runLoop (budget : Z) (turns : nat) (context : Z -> ReadContext) (w : WarpState) (x : X) (attempts retired : Z) (last : option Result)
    (trace : list TraceRecord) : WarpState * X * RunResult * list TraceRecord :=
  match turns with
  | O => (w, x, mkRunResult RunBudgetExceeded attempts retired last (Some (BudgetExceededError budget)), trace)
  | S turns =>
      let '(w', x', step) := Step w x (context attempts) in
      let trace := trace ++ [mkTraceRecord attempts step] in
      match r_Outcome step with
      | OutcomeRetired => runLoop budget turns context w' x' (attempts + 1) (retired + 1) (Some step) trace
      | o => (w', x', mkRunResult (stop_outcome o) (attempts + 1) retired (Some step) (StepError <$> r_Fault step), trace)
      end
  end.

Definition Run (budget : Z) (context : Z -> ReadContext) (w : WarpState) (x : X) : WarpState * X * RunResult * list TraceRecord :=
  runLoop budget (Z.to_nat budget) context w x 0 0 None [].
End Step.
