(* ===== verification/WarpCorrect.v ===== *)
(** * Properties of the warp executor

    [Step] is atomic (anything but a retired instruction or a trap leaves the warp
    and the byte owner exactly as they were), keeps the warp invariant, and fails
    only at the boundaries its contract names; [Run] is iterated [Step]. *)

From S2P Require Import Prelude IsaTypes Catalog Decode Integer System Custom Softfloat Float.
From S2P Require Import Memory WarpState Apply ApplyInvariant View EvaluateTyped Agreement WarpExec.

#[local] Open Scope Z_scope.
#[local] Open Scope go_scope.

(** ** What the executor relies on

    The contract of [MemoryService] in warp.go: a failed write, single or batched,
    leaves the owner unchanged.  [I] is the owner's own invariant; the executor's
    writes are at 32-bit addresses and at most a word long. *)
Definition access_typed (a : Z) (src : list Z) : Prop := is_u32 a /\ zlen src <= 4.

Class ServiceContract {X} (I : X -> Prop) (s : DataService X) : Prop := {
  sc_write : forall x a src x' e, I x -> access_typed a src -> dsv_Write s x a src = (x', Err e) -> x' = x;
  sc_batch : forall f x addresses sources x' e, I x -> Forall2 access_typed addresses sources ->
    dsv_WriteBatch s = Some f -> f x addresses sources = (x', Err e) -> x' = x
}.

(** A byte memory as the executor's service. *)
Definition memory_service {M} `{MemoryService M} : DataService M := mkDataService svc_read svc_write (Some svc_batch) None.
Definition memory_warp {M} `{MemoryService M} : Warp M := mkWarp (mkInstructionSource svc_read (Some memory_service)) (Some memory_service).

(** ** Atomicity *)

Definition store_typed (t : storeTransaction) : Prop := access_typed (stx_address t) (stx_after t).

Lemma stores_typed stores : Forall store_typed stores -> Forall2 access_typed (map stx_address stores) (map stx_after stores).
Proof. induction 1; cbn; by constructor. Qed.

Lemma writeStores_atomic {X} I (s : DataService X) `{!ServiceContract I s} x stores x' e :
  I x -> Forall store_typed stores -> writeStores s x stores = (x', Err e) -> x' = x.
Proof.
  unfold writeStores. intros Hx Ha H. pose proof (stores_typed stores Ha) as Hm.
  destruct stores as [|t [|u us]].
  2: { apply Forall_cons in Ha as [Ha _]. by eapply sc_write. }
  all: destruct (dsv_WriteBatch s) as [f|] eqn:Ef; [by eapply sc_batch|by injection H as <- _].
Qed.

(** The commits of a fresh stage on its own warp. *)
Lemma Commit_fresh w e st : StageEffects w e = Ok st ->
  Commit w st = if es_requiresExternal st then (w, st, Err (Errorf "state: effect stage requires external owner success"))
                else (es_after st, mark_committed st, Ok tt).
Proof.
  intros (Hb & Hc & _)%StageEffects_inv. unfold Commit, commit. destruct (es_requiresExternal st); [done|].
  by rewrite Hc, Hb, bool_decide_true.
Qed.

Lemma CommitAfterExternal_fresh w e st : StageEffects w e = Ok st -> es_requiresExternal st = true ->
  CommitAfterExternal w st = (es_after st, mark_committed st, Ok tt).
Proof.
  intros (Hb & Hc & _)%StageEffects_inv Hr. unfold CommitAfterExternal, commit. rewrite Hr, Hc, Hb. cbn [negb].
  by rewrite bool_decide_true.
Qed.

Lemma CommitWithExternal_fresh {Y} w e st (y : Y) apply : StageEffects w e = Ok st ->
  CommitWithExternal w y st apply =
  if es_requiresExternal st then (w, y, st, Err (Errorf "state: coordinated commit requires a local-only effect stage"))
  else match apply (w, y) with
       | (_, y', Err e) => (w, y', st, Err e)
       | (_, y', Ok _) => (es_after st, y', mark_committed st, Ok tt)
       end.
Proof.
  intros (Hb & Hc & _)%StageEffects_inv. unfold CommitWithExternal. destruct (es_requiresExternal st); [done|].
  rewrite Hc, Hb, bool_decide_true by done. done.
Qed.

(** How a boundary of [Step] may leave: unchanged with any outcome, or committed. *)
Definition left_alone {X} (w : WarpState) (x : X) (out : WarpState * X * Result) : Prop := out.1.1 = w /\ out.1.2 = x.
Definition progressed (r : Result) : Prop := r_Outcome r = OutcomeRetired \/ r_Outcome r = OutcomeTrap.

Lemma failedStore_outcome s w r d rs m e : r_Outcome (failedStore s w r d rs m e) = OutcomeFault.
Proof. unfold failedStore. cbv zeta. repeat case_match; done. Qed.

(** ** What the request loop collects *)

Lemma load_value_u32 bytes : is_u32 (load_value bytes).
Proof.
  unfold load_value. generalize (imap pair bytes) as l.
  enough (forall l a, is_u32 a -> is_u32 (fold_left (fun value '(index, b) => value .| u32 (b << (8 * Z.of_nat index))) l a)) as Hl
    by (intros l; apply Hl, is_u32_0).
  induction l as [|[i b] l IH]; intros a Ha; [done|]. cbn [fold_left]. apply IH. auto with words.
Qed.

Definition request_typed (r : MemoryRequest) : Prop := is_u8 (mr_Lane r) /\ is_u32 (mr_Address r).

Lemma readMemory_u32 {X} (s : DataService X) x a width v : readMemory s x a width = Ok v -> is_u32 v.
Proof.
  unfold readMemory. destruct (legal_width width); [|done]. intros (bytes & _ & <-%Ok_inj)%result_bind_ok. apply load_value_u32.
Qed.

Lemma prepareStore_inv {X} (s : DataService X) x r t : prepareStore s x r = Ok t ->
  legal_width (mr_Width r) = true /\ t = mkStoreTransaction r (mr_Address r)
        (store_bytes (mr_StoreData r >> u32 (8 * u32 (mr_Address r - mr_AlignedAddress r))) (mr_Width r)).
Proof.
  unfold prepareStore. cbv zeta. destruct (legal_width _); [|done]. destruct (negb _); [|done].
  by intros (bytes & _ & <-%Ok_inj)%result_bind_ok.
Qed.

Lemma serve_typed {X} (s : DataService X) x rs acc :
  Forall request_typed rs ->
  Forall response_typed acc.1.1 -> Forall store_typed acc.1.2 ->
  let out := fold_left (serveRequest s x) rs acc in
  Forall response_typed out.1.1 /\ Forall store_typed out.1.2.
Proof.
  intros Hrs. revert acc. induction Hrs as [|r rs [Hl Ha] _ IH]; intros [[resp stores] errs] Hresp Hst; [done|]. cbn [fold_left].
  apply IH; unfold serveRequest; cbn [fst snd] in *.
  - destruct (_ ==. MemoryStore); [destruct (prepareStore s x r)|destruct (readMemory s x _ _) as [v|] eqn:Er]; apply Forall_app;
      (split; [done|]); apply Forall_singleton; (split; [done|]); try apply is_u32_0. by eapply readMemory_u32.
  - destruct (_ ==. MemoryStore); [destruct (prepareStore s x r) as [t|] eqn:Ep|destruct (readMemory s x _ _)]; try done.
    apply Forall_app. split; [done|]. apply Forall_singleton. apply prepareStore_inv in Ep as [Hw ->].
    split; [apply Ha|]. cbn. unfold store_bytes, zlen. rewrite length_map, length_seq. unfold legal_width in Hw.
    rewrite !orb_true_iff, !Z.eqb_eq in Hw. lia.
Qed.

Section Atomic.
Context {X : Type}.

Lemma completeMemory_atomic I (memory : DataService X) `{!ServiceContract I memory} w x r d rs m :
  I x -> Forall request_typed rs ->
  let out := completeMemory memory w x r d rs m in left_alone w x out /\ r_Outcome out.2 = OutcomeFault \/ r_Outcome out.2 = OutcomeRetired.
Proof.
  intros Hx Hrs. destruct (serve_typed memory x rs ([], [], [])) as [_ Hst]; try done. unfold completeMemory.
  destruct (fold_left _ _ _) as [[responses stores] errs]. cbn [fst snd] in Hst. cbv zeta.
  destruct (Snapshot_CompleteMemory w d m responses) as [completed|]; [|by left].
  destruct (StageEffects w completed) as [st|] eqn:Es; [|by left].
  destruct (negb (length (Faults completed) =? 0)%nat); [by left|].
  destruct (negb (length stores =? 0)%nat).
  - rewrite (CommitWithExternal_fresh _ _ _ _ _ Es). destruct (es_requiresExternal st); [by left|].
    destruct (writeStores memory x stores) as [x' [u|e]] eqn:Ew; [by right|]. cbn. left. split; [|apply failedStore_outcome].
    split; [done|]. by eapply (writeStores_atomic I memory).
  - rewrite (Commit_fresh _ _ _ Es). destruct (es_requiresExternal st); [by left|by right].
Qed.

Lemma packed_atomic (memory : DataService X) w x r d rs m :
  let out := Warp_completePackedLoad memory w x r d rs m in
  out.1.2 = x /\ (left_alone w x out /\ r_Outcome out.2 = OutcomeFault \/ r_Outcome out.2 = OutcomeRetired).
Proof.
  unfold Warp_completePackedLoad. destruct (fold_left _ _ _) as [responses errs]. cbv zeta.
  destruct (Snapshot_CompletePackedLoad w d m responses) as [completed|]; [|by split; [|left]].
  destruct (StageEffects w completed) as [st|] eqn:Es; [|by split; [|left]].
  destruct (negb (length (Faults completed) =? 0)%nat); [by split; [|left]|].
  rewrite (Commit_fresh _ _ _ Es). destruct (es_requiresExternal st); (split; [done|]); [by left|by right].
Qed.

Context `{SoftFloatLib} (services : Warp X).

Lemma stepEffects_atomic I w x r d e :
  (forall memory, wx_memory services = Some memory -> ServiceContract I memory) -> I x -> Forall request_typed (MemoryRequests e) ->
  let out := stepEffects services w x r d e in
  left_alone w x out /\ ~ progressed out.2 \/ progressed out.2.
Proof.
  intros Hsc Hx Hrs. unfold stepEffects. destruct (StageEffects w e) as [st|] eqn:Es; [|by left; split; [|intros [[=]|[=]]]].
  destruct (negb (length (Faults e) =? 0)%nat); [by left; split; [|intros [[=]|[=]]]|].
  destruct (negb (length (MemoryRequests e) =? 0)%nat).
  { destruct (wx_memory services) as [memory|]; [|by left; split; [|intros [[=]|[=]]]]. specialize (Hsc memory eq_refl).
    destruct (completeMemory_atomic I memory w x r d (MemoryRequests e) (w_activeMask w) Hx Hrs) as [[? Ho]|Ho]; [left|by right; left].
    split; [done|]. unfold progressed. rewrite Ho. by intros [[=]|[=]]. }
  destruct (negb (length (PackedLoads e) =? 0)%nat).
  { destruct (wx_memory services) as [memory|]; [|by left; split; [|intros [[=]|[=]]]].
    destruct (packed_atomic memory w x r d (PackedLoads e) (w_activeMask w)) as [_ [[? Ho]|Ho]]; [left|by right; left].
    split; [done|]. unfold progressed. rewrite Ho. by intros [[=]|[=]]. }
  destruct (_ && _) eqn:Eo.
  { apply andb_true_iff in Eo as [_ Hr]. destruct (_ || _); [by left; split; [|intros [[=]|[=]]]|].
    rewrite (CommitAfterExternal_fresh _ _ _ Es Hr). by right; left. }
  destruct (RequiresExternalSuccess st) eqn:Er; [by left; split; [|intros [[=]|[=]]]|].
  unfold commitLocal. rewrite (Commit_fresh _ _ _ Es). unfold RequiresExternalSuccess in Er. rewrite Er.
  right. cbn. unfold progressed. destruct (Trap e); [by right|by left].
Qed.
End Atomic.

(** The two memories of the repository meet the contract. *)
Lemma memory_service_contract {M} `{MemoryService M} :
  (forall m a src m' e, svc_write m a src = (m', Err e) -> m' = m) ->
  (forall m addresses sources m' e, svc_batch m addresses sources = (m', Err e) -> m' = m) ->
  ServiceContract (fun _ => True) (memory_service (M := M)).
Proof. intros Hw Hb. split; [intros x a src x' e _ _; apply Hw|]. intros f x addresses sources x' e _ _ [= <-]. apply Hb. Qed.

#[export] Instance Memory_contract : ServiceContract (fun _ => True) (memory_service (M := Memory)).
Proof.
  apply memory_service_contract; cbn.
  - intros m a src m' e. unfold Memory_Write. repeat case_match; naive_solver.
  - intros m addresses sources m' e. unfold Memory_WriteBatch. repeat case_match; naive_solver.
Qed.

#[export] Instance Sparse_contract : ServiceContract (fun _ => True) (memory_service (M := Sparse)).
Proof.
  apply memory_service_contract; cbn.
  - intros m a src m' e. unfold Sparse_Write. repeat case_match; naive_solver.
  - intros m addresses sources m' e. unfold Sparse_WriteBatch. repeat case_match; naive_solver.
Qed.

Section Theorems.
Context {L : SoftFloatLib} {HL : SoftFloatLaws L}.

Lemma stepBody_atomic {X} I (services : Warp X) w x context :
  (forall memory, wx_memory services = Some memory -> ServiceContract I memory) -> warp_wf w -> context_typed context -> I x ->
  let out := stepBody services w x context in left_alone w x out /\ ~ progressed out.2 \/ progressed out.2.
Proof.
  intros Hsc Hw Hc Hx. unfold stepBody. destruct (w_lifecycle w ==. WarpInactive); [by left; split; [|intros [[=]|[=]]]|].
  destruct (_ || _); [by left; split; [|intros [[=]|[=]]]|]. destruct (_ <>? 0); [by left; split; [|intros [[=]|[=]]]|].
  destruct (is_Read _ _ _ _) as [bytes|]; [|by left; split; [|intros [[=]|[=]]]]. cbv zeta. unfold stepInstruction.
  destruct (Decode (Uint bytes)) as [d|] eqn:Ed; [|by left; split; [|intros [[=]|[=]]]]. cbv zeta.
  destruct (Evaluate w d context) as [e|] eqn:Ee; [|by left; split; [|intros [[=]|[=]]]].
  apply (stepEffects_atomic services I); [done|done|]. apply (Evaluate_typed _ _ _ _ _ Hw Hc Ed Ee).
Qed.

Lemma Step_unchanged {X} I (services : Warp X) w x context w' x' r :
  (forall memory, wx_memory services = Some memory -> ServiceContract I memory) -> warp_wf w -> context_typed context -> I x ->
  Step services w x context = (w', x', r) -> r_Outcome r <> OutcomeRetired -> r_Outcome r <> OutcomeTrap -> w' = w /\ x' = x.
Proof.
  intros Hsc Hw Hc Hx H Hr Ht. pose proof (stepBody_atomic I services w x context Hsc Hw Hc Hx) as Hb. unfold Step in H.
  destruct (stepBody services w x context) as [[w0 x0] r0]. injection H as <- <- <-. cbn in *.
  destruct Hb as [[[<- <-] _]|[Ho|Ho]]; [done|by destruct (Hr Ho)|by destruct (Ht Ho)].
Qed.

(** C20: [Step] of a well-formed warp is all-or-nothing over any byte owner that keeps
    its contract: when the instruction neither retires nor traps (a fault of any kind, a deferred
    effect, a finished warp) the warp state and the byte owner are exactly as
    before. *)
Theorem Step_atomic {X} I (services : Warp X) w x context w' x' r :
  (forall memory, wx_memory services = Some memory -> ServiceContract I memory) -> warp_wf w -> context_typed context -> I x ->
  Step services w x context = (w', x', r) ->
  r_Outcome r <> OutcomeRetired -> r_Outcome r <> OutcomeTrap -> w' = w /\ x' = x.
Proof.
  intros Hsc Hw Hc Hx H Hr Ht. by eapply (Step_unchanged I services).
Qed.

(** ** The invariant *)

(** The byte owner's own invariant [I] is kept by its writes. *)
Record service_keeps {X} (s : DataService X) (I : X -> Prop) : Prop := {
  sk_write : forall x a src, I x -> access_typed a src -> I (dsv_Write s x a src).1;
  sk_batch : forall f x addresses sources, dsv_WriteBatch s = Some f -> I x -> Forall2 access_typed addresses sources ->
    I (f x addresses sources).1
}.

Lemma writeStores_keeps {X} (s : DataService X) I x stores :
  service_keeps s I -> I x -> Forall store_typed stores -> I (writeStores s x stores).1.
Proof.
  intros [Hw Hb] Hx Hs. unfold writeStores.
  assert (I (match dsv_WriteBatch s with
    | Some batch => batch x (map stx_address stores) (map stx_after stores)
    | None => (x, Err (Errorf "warp: memory service lacks atomic multi-address store support")) end).1) as Hm.
  { destruct (dsv_WriteBatch s) as [f|] eqn:Ef; [|done]. apply Hb; [done|done|by apply stores_typed]. }
  destruct stores as [|t [|u us]]; [exact Hm| |exact Hm]. apply Hw; [done|]. by apply Forall_cons in Hs as [Hs _].
Qed.

Lemma Snapshot_CompleteMemory_typed w d m rs e :
  Forall reg_ok (d_Destinations d) -> Forall response_typed rs -> Snapshot_CompleteMemory w d m rs = Ok e -> effects_typed e.
Proof.
  intros Hd Hrs E. unfold Snapshot_CompleteMemory, CompleteFloatMemory in E.
  case_if_in E; evaluated E; (eapply CompleteMemory_typed; [exact Hd|exact Hrs|exact E]).
Qed.

Lemma completeMemory_wf {X} (s : DataService X) I w x r d rs :
  service_keeps s I -> I x -> warp_wf w -> Forall reg_ok (d_Destinations d) -> Forall request_typed rs ->
  let out := completeMemory s w x r d rs (w_activeMask w) in warp_wf out.1.1 /\ I out.1.2.
Proof.
  intros Hk Hx Hw Hd Hrs. destruct (serve_typed s x rs ([], [], [])) as [Hresp Hst]; try done. unfold completeMemory.
  destruct (fold_left _ _ _) as [[responses stores] errs]. cbn [fst snd] in Hresp, Hst. cbv zeta.
  destruct (Snapshot_CompleteMemory w d (w_activeMask w) responses) as [completed|] eqn:Ec; [|done].
  pose proof (Snapshot_CompleteMemory_typed _ _ _ _ _ Hd Hresp Ec) as Ht.
  destruct (StageEffects w completed) as [st|] eqn:Es; [|done]. destruct (StageEffects_after_wf _ _ _ Hw Ht Es) as [Ha _].
  destruct (negb (length (Faults completed) =? 0)%nat); [done|]. destruct (negb (length stores =? 0)%nat).
  - rewrite (CommitWithExternal_fresh _ _ _ _ _ Es). destruct (es_requiresExternal st); [done|].
    pose proof (writeStores_keeps s I x stores Hk Hx Hst). by destruct (writeStores s x stores) as [x' [u|e]].
  - rewrite (Commit_fresh _ _ _ Es). by destruct (es_requiresExternal st).
Qed.

Lemma packed_wf {X} (s : DataService X) w x r d rs :
  warp_wf w -> Forall reg_ok (d_Destinations d) ->
  let out := Warp_completePackedLoad s w x r d rs (w_activeMask w) in warp_wf out.1.1 /\ out.1.2 = x.
Proof.
  intros Hw Hd. unfold Warp_completePackedLoad. destruct (fold_left _ _ _) as [responses errs]. cbv zeta.
  destruct (Snapshot_CompletePackedLoad w d (w_activeMask w) responses) as [completed|] eqn:Ec; [|done].
  apply completePackedLoad_typed in Ec; [|done|apply (wf_mask w Hw)].
  destruct (StageEffects w completed) as [st|] eqn:Es; [|done]. destruct (StageEffects_after_wf _ _ _ Hw Ec Es) as [Ha _].
  destruct (negb (length (Faults completed) =? 0)%nat); [done|].
  rewrite (Commit_fresh _ _ _ Es). by destruct (es_requiresExternal st).
Qed.

Lemma stepBody_wf {X} (services : Warp X) I w x context :
  (forall memory, wx_memory services = Some memory -> service_keeps memory I) ->
  warp_wf w -> context_typed context -> I x ->
  let out := stepBody services w x context in warp_wf out.1.1 /\ I out.1.2.
Proof.
  intros Hk Hw Hc Hx. unfold stepBody. destruct (w_lifecycle w ==. WarpInactive); [done|].
  destruct (_ || _); [done|]. destruct (_ <>? 0); [done|].
  destruct (is_Read _ _ _ _) as [bytes|]; [|done]. cbv zeta. unfold stepInstruction.
  destruct (Decode (Uint bytes)) as [d|] eqn:Ed; [|done]. cbv zeta. destruct (decode_registers _ _ Ed) as (_ & _ & _ & Hd).
  destruct (Evaluate w d context) as [e|] eqn:Ee; [|done]. pose proof (Evaluate_typed _ _ _ _ _ Hw Hc Ed Ee) as Ht.
  unfold stepEffects. destruct (StageEffects w e) as [st|] eqn:Es; [|done]. destruct (StageEffects_after_wf _ _ _ Hw Ht Es) as [Ha _].
  destruct (negb (length (Faults e) =? 0)%nat); [done|].
  destruct (negb (length (MemoryRequests e) =? 0)%nat).
  { destruct (wx_memory services) as [memory|]; [|done]. apply completeMemory_wf; try done; [by apply Hk|apply Ht]. }
  destruct (negb (length (PackedLoads e) =? 0)%nat).
  { destruct (wx_memory services) as [memory|]; [|done].
    match goal with |- warp_wf (Warp_completePackedLoad _ _ _ ?r _ _ _).1.1 /\ _ =>
      destruct (packed_wf memory w x r d (PackedLoads e) Hw Hd) as [Hp Hq] end. by rewrite Hq. }
  destruct (_ && _) eqn:Eo.
  { apply andb_true_iff in Eo as [_ Hr]. destruct (_ || _); [done|]. by rewrite (CommitAfterExternal_fresh _ _ _ Es Hr). }
  destruct (RequiresExternalSuccess st); [done|]. unfold commitLocal. rewrite (Commit_fresh _ _ _ Es).
  by destruct (es_requiresExternal st).
Qed.

Lemma memory_keeps {M} `{MemoryLaws M} n : service_keeps (memory_service (M := M)) (fun m => svc_wf m /\ svc_size m = n).
Proof.
  split; cbn.
  - intros m a src [Hm <-] [[Ha _] _]. destruct (svc_write_law m a src Hm Ha) as (_ & ? & ? & _). done.
  - intros f m addresses sources [= <-] [Hm <-] Ht.
    assert (Forall (fun a => 0 <= a) addresses) as Ha by (clear -Ht; induction Ht as [|? ? ? ? [[? _] _]]; by constructor).
    pose proof (Forall2_length _ _ _ Ht) as Hl. destruct (svc_batch_law m addresses sources Hm Ha Hl) as (_ & ? & ? & _). done.
Qed.

Lemma Step_wf {M} `{MemoryLaws M} w m context :
  warp_wf w -> svc_wf m -> context_typed context ->
  let out := Step memory_warp w m context in warp_wf out.1.1 /\ svc_wf out.1.2 /\ svc_size out.1.2 = svc_size m.
Proof.
  intros Hw Hm Hc. destruct (stepBody_wf memory_warp (fun x => svc_wf x /\ svc_size x = svc_size m) w m context) as (? & ? & ?); try done.
  - intros memory [= <-]. apply memory_keeps.
  - unfold Step. by destruct (stepBody memory_warp w m context) as [[w' x'] r].
Qed.

End Theorems.

(** A program whose first word is a store to a bad address: "sw x0, -4(x0)". *)
Definition example_memory : Memory := mkMemory (PutUint 4 0xfe002e23 ++ PutUint 4 0x00a00293 ++ PutUint 4 0x00500023).
Definition example_start : WarpState := set_pc 0 example_warp.

Lemma example_start_wf : warp_wf example_start.
Proof. apply set_pc_wf; [apply example_warp_wf|by split; vm_compute]. Qed.
Example Step_atomic_witness :
  exists r, Step memory_warp example_start example_memory example_context = (example_start, example_memory, r) /\
  r_Outcome r = OutcomeFault.
Proof.
  destruct (Step memory_warp example_start example_memory example_context) as [[w' x'] r] eqn:E.
  assert (r_Outcome r = OutcomeFault) as Ho.
  { pose proof E as E0. vm_compute in E0. injection E0 as _ _ <-. reflexivity. }
  exists r. split; [|done].
  destruct (Step_atomic (fun _ => True) memory_warp example_start example_memory example_context w' x' r) as [-> ->];
    [intros memory [= <-]; apply Memory_contract| | |done|exact E|by rewrite Ho|by rewrite Ho|done].
  - apply example_start_wf.
  - apply example_context_typed.
Defined.

(** ** What a step leaves alone
    Staging never changes a warp's identity, and only mask, divergence and trap effects
    change its lanes or lifecycle.  A step replaces its owner by a staged image or not
    at all, and a deferred step carries the effects the evaluator produced. *)

(** ** Staging *)

(** An observation that the local phases of staging do not change. *)
Class Framed {A} (f : WarpState -> A) : Prop := {
  fr_lanes : forall l w, f (set_lanes l w) = f w;
  fr_fcsr : forall v w, f (set_fcsr v w) = f w;
  fr_trap : forall t w, f (set_trapCSRs t w) = f w;
  fr_saved : forall m w, f (set_savedThreadMask m w) = f w;
  fr_div : forall d w, f (set_divergence d w) = f w;
  fr_pc : forall pc w, f (set_pc pc w) = f w
}.

#[export] Instance w_id_framed : Framed w_id. Proof. by split. Qed.
#[export] Instance w_lifecycle_framed : Framed w_lifecycle. Proof. by split. Qed.
#[export] Instance w_activeMask_framed : Framed w_activeMask. Proof. by split. Qed.

(** No phase replaces the lane mask. *)
Definition mask_quiet (e : InstructionEffects) : Prop := WarpMasks e = [] /\ Divergence e = None /\ Trap e = None.

Section Frame.
Context {A} (f : WarpState -> A) `{!Framed f}.

Lemma setCSRValue_frame c a v : f (setCSRValue c a v) = f c.
Proof. unfold setCSRValue. cbv zeta. repeat case_match; by rewrite ?fr_fcsr, ?fr_trap. Qed.

Lemma stageCSRWrites_frame before c writes c' : stageCSRWrites before c writes = Ok c' -> f c' = f c.
Proof.
  intros H. unfold stageCSRWrites in H. eapply (foldM_inv _ (fun x => f x = f c)); [done| |exact H].
  intros s x s' Hx Hs Hstep. unfold stageCSRWrite in Hstep. destruct (csrValue before _).
  - destruct (_ =? _); [|done]. apply Ok_inj in Hstep as <-. by rewrite setCSRValue_frame.
  - destruct (_ || _); [done|]. by apply Ok_inj in Hstep as <-.
Qed.

Lemma stageFFlags_frame c e c' : stageFFlags c e = Ok c' -> f c' = f c.
Proof.
  unfold stageFFlags. destruct e as [x|]; [|by intros <-%Ok_inj]. destruct (_ <>? 0); [done|]. cbn [negb]. intros <-%Ok_inj. apply fr_fcsr.
Qed.

(** [set_mask] is only reached by mask, divergence and trap effects. *)
Lemma stageControl_frame before c e c' :
  (forall m l w, f (set_mask m l w) = f w) \/ mask_quiet e -> stageControlMaskDivergenceTrap before c e = Ok c' -> f c' = f c.
Proof.
  intros Hm H. unfold stageControlMaskDivergenceTrap in H. apply result_bind_ok in H as (mask & Hmask & H). take_checks H.
  apply result_bind_ok in H as (c1 & H1 & H). apply result_bind_ok in H as (c2 & H2 & H). take_checks H.
  apply result_bind_ok in H as (c3 & H3 & H). apply result_bind_ok in H as (u & _ & <-%Ok_inj).
  assert (f c3 = f c) as E3; [|destruct (Control e); [by rewrite fr_pc|done]].
  destruct Hm as [Hm|(Ew & Ed & Et)].
  - assert (f c1 = f c) as E1.
    { unfold stageDivergence in H1. destruct (Divergence e) as [d|]; [|by apply Ok_inj in H1 as <-]. take_checks H1.
      destruct (Control e) as [k|]; [|done]. destruct (de_Action d); [| |by apply Ok_inj in H1 as <-].
      - unfold stageSplit in H1. cbv zeta in H1. take_checks H1. destruct (negb (de_Divergent d)); take_checks H1; [by apply Ok_inj in H1 as <-|].
        destruct mask; [|done]. take_checks H1. apply Ok_inj in H1 as <-. by rewrite Hm, fr_div.
      - unfold stageJoin in H1. cbv zeta in H1. take_checks H1. destruct (negb (de_Divergent d)); take_checks H1; [by apply Ok_inj in H1 as <-|].
        destruct mask; [|done]. take_checks H1. apply result_bind_ok in H1 as (c4 & H4 & <-%Ok_inj). rewrite Hm.
        destruct (de_MarkElseVisited d); take_checks H4; apply Ok_inj in H4 as <-; apply fr_div. }
    assert (f c2 = f c1) as E2.
    { destruct (Divergence e), mask; try (by apply Ok_inj in H2 as <-). take_checks H2. apply Ok_inj in H2 as <-. apply Hm. }
    assert (f c3 = f c2) as E3; [|by rewrite E3, E2, E1].
    unfold stageTrap in H3. destruct (Trap e) as [t|]; [|take_checks H3; by apply Ok_inj in H3 as <-].
    destruct (Control e); [|done]. take_checks H3. destruct (te_Kind t); [| |done]; take_checks H3; [apply Ok_inj in H3 as <-; apply fr_saved|].
    destruct (te_RestoresThreadMask t); take_checks H3; apply Ok_inj in H3 as <-; [apply Hm|done].
  - rewrite Ed in H1, H2. rewrite Et in H3. rewrite Ew in Hmask. cbn in Hmask. apply Ok_inj in Hmask as <-. cbn in H1, H2.
    apply Ok_inj in H1 as <-. apply Ok_inj in H2 as <-. unfold stageTrap in H3. take_checks H3. by apply Ok_inj in H3 as <-.
Qed.

Lemma StageEffects_frame w e st :
  warp_wf w -> effects_typed e -> (forall m l w, f (set_mask m l w) = f w) \/ mask_quiet e -> StageEffects w e = Ok st -> f (es_after st) = f w.
Proof.
  intros Hw Ht Hm H. apply StageEffects_inv in H as (_ & _ & _ & _ & c1 & c2 & local & c3 & H1 & H2 & _ & _ & H5 & H6).
  apply stageRegisterWrites_wf in H1 as (lanes & -> & _); [|done|apply Ht].
  by rewrite (stageControl_frame _ _ _ _ Hm H6), (stageCSRWrites_frame _ _ _ _ H5), (stageFFlags_frame _ _ _ H2), fr_lanes.
Qed.
End Frame.

Lemma StageEffects_id w e st : warp_wf w -> effects_typed e -> StageEffects w e = Ok st -> w_id (es_after st) = w_id w.
Proof. intros Hw Ht H. apply (StageEffects_frame w_id w e st Hw Ht); [by left|done]. Qed.

Lemma StageEffects_lanes w e st : warp_wf w -> effects_typed e -> mask_quiet e -> StageEffects w e = Ok st ->
  w_lifecycle (es_after st) = w_lifecycle w /\ w_activeMask (es_after st) = w_activeMask w.
Proof. intros Hw Ht Hq H. split; eapply StageEffects_frame; try done; try apply _; by right. Qed.

(** ** Steps *)

Section Steps.
Context {L : SoftFloatLib} {HL : SoftFloatLaws L} {X : Type} (services : Warp X).

(** The owner after a boundary of [Step]: as before, or a staged image. *)
Definition moved (w w' : WarpState) : Prop := w' = w \/ exists e st, effects_typed e /\ StageEffects w e = Ok st /\ w' = es_after st.

Lemma commit_moved w e st : effects_typed e -> StageEffects w e = Ok st -> moved w w /\ moved w (es_after st).
Proof. intros Ht Hs. split; [by left|right; by exists e, st]. Qed.

Lemma completeMemory_moved (s : DataService X) w x r d rs m :
  Forall reg_ok (d_Destinations d) -> Forall request_typed rs -> moved w (completeMemory s w x r d rs m).1.1.
Proof.
  intros Hd Hrs. destruct (serve_typed s x rs ([], [], [])) as [Hresp _]; try done. unfold completeMemory.
  destruct (fold_left _ _ _) as [[responses stores] errs]. cbn [fst snd] in Hresp. cbv zeta.
  destruct (Snapshot_CompleteMemory w d m responses) as [completed|] eqn:Ec; [|by left].
  pose proof (Snapshot_CompleteMemory_typed _ _ _ _ _ Hd Hresp Ec) as Ht.
  destruct (StageEffects w completed) as [st|] eqn:Es; [|by left]. destruct (commit_moved w completed st Ht Es) as [H0 H1].
  destruct (negb (length (Faults completed) =? 0)%nat); [done|]. destruct (negb (length stores =? 0)%nat).
  - rewrite (CommitWithExternal_fresh _ _ _ _ _ Es). destruct (es_requiresExternal st); [done|]. by destruct (writeStores s x stores) as [x' [u|e]].
  - rewrite (Commit_fresh _ _ _ Es). by destruct (es_requiresExternal st).
Qed.

Lemma packed_moved (s : DataService X) w x r d rs m :
  mask_ok m -> Forall reg_ok (d_Destinations d) -> moved w (Warp_completePackedLoad s w x r d rs m).1.1.
Proof.
  intros Hm Hd. unfold Warp_completePackedLoad. destruct (fold_left _ _ _) as [responses errs]. cbv zeta.
  destruct (Snapshot_CompletePackedLoad w d m responses) as [completed|] eqn:Ec; [|by left].
  apply completePackedLoad_typed in Ec; [|done|apply Hm].
  destruct (StageEffects w completed) as [st|] eqn:Es; [|by left]. destruct (commit_moved w completed st Ec Es) as [H0 H1].
  destruct (negb (length (Faults completed) =? 0)%nat); [done|]. rewrite (Commit_fresh _ _ _ Es). by destruct (es_requiresExternal st).
Qed.

Lemma stepBody_moved w x context : warp_wf w -> context_typed context -> moved w (stepBody services w x context).1.1.
Proof.
  intros Hw Hc. unfold stepBody. destruct (w_lifecycle w ==. WarpInactive); [by left|].
  destruct (_ || _); [by left|]. destruct (_ <>? 0); [by left|].
  destruct (is_Read _ _ _ _) as [bytes|]; [|by left]. cbv zeta. unfold stepInstruction.
  destruct (Decode (Uint bytes)) as [d|] eqn:Ed; [|by left]. cbv zeta. destruct (decode_registers _ _ Ed) as (_ & _ & _ & Hd).
  destruct (Evaluate w d context) as [e|] eqn:Ee; [|by left]. pose proof (Evaluate_typed _ _ _ _ _ Hw Hc Ed Ee) as Ht.
  unfold stepEffects. destruct (StageEffects w e) as [st|] eqn:Es; [|by left]. destruct (commit_moved w e st Ht Es) as [H0 H1].
  destruct (negb (length (Faults e) =? 0)%nat); [done|].
  destruct (negb (length (MemoryRequests e) =? 0)%nat).
  { destruct (wx_memory services) as [memory|]; [|done]. apply completeMemory_moved; [done|apply Ht]. }
  destruct (negb (length (PackedLoads e) =? 0)%nat).
  { destruct (wx_memory services) as [memory|]; [|done]. apply packed_moved; [apply (wf_mask w Hw)|done]. }
  destruct (_ && _) eqn:Eo.
  { apply andb_true_iff in Eo as [_ Hr]. destruct (_ || _); [done|]. by rewrite (CommitAfterExternal_fresh _ _ _ Es Hr). }
  destruct (RequiresExternalSuccess st); [done|]. unfold commitLocal. rewrite (Commit_fresh _ _ _ Es). by destruct (es_requiresExternal st).
Qed.

Lemma moved_id w w' : warp_wf w -> moved w w' -> w_id w' = w_id w.
Proof. intros Hw [->|(e & st & Ht & Hs & ->)]; [done|by apply (StageEffects_id w e)]. Qed.

(** What a deferred step carries: the evaluated effects, not yet applied. *)
Record deferred (w : WarpState) (context : ReadContext) (r : Result) (d : Decoded) (e : InstructionEffects) (st : EffectStage) : Prop := {
  df_decoded : r_Decoded r = Some d;
  df_effects : r_Effects r = Some e;
  df_issued : r_IssuedEffects r = Some e;
  df_word : exists raw, Decode raw = Ok d;
  df_evaluated : Evaluate w d context = Ok e;
  df_stage : StageEffects w e = Ok st;
  df_typed : effects_typed e
}.

Lemma completeMemory_outcome (s : DataService X) w x r d rs m :
  r_Outcome (completeMemory s w x r d rs m).2 = OutcomeFault \/ r_Outcome (completeMemory s w x r d rs m).2 = OutcomeRetired.
Proof.
  unfold completeMemory. destruct (fold_left _ _ _) as [[responses stores] errs]. cbv zeta.
  destruct (Snapshot_CompleteMemory _ _ _ _); [|by left]. destruct (StageEffects w _) as [st|] eqn:Es; [|by left].
  destruct (negb _); [by left|]. destruct (negb _).
  - rewrite (CommitWithExternal_fresh _ _ _ _ _ Es). destruct (es_requiresExternal st); [by left|].
    destruct (writeStores s x stores) as [x' [u|e]]; [by right|]. left. apply failedStore_outcome.
  - rewrite (Commit_fresh _ _ _ Es). destruct (es_requiresExternal st); [by left|by right].
Qed.

Lemma stepBody_deferred w x context : warp_wf w -> context_typed context -> r_Outcome (stepBody services w x context).2 = OutcomeDeferred ->
  exists d e st, deferred w context (stepBody services w x context).2 d e st.
Proof.
  intros Hw Hc. unfold stepBody. destruct (w_lifecycle w ==. WarpInactive); [done|].
  destruct (_ || _); [done|]. destruct (_ <>? 0); [done|].
  destruct (is_Read _ _ _ _) as [bytes|]; [|done]. cbv zeta. unfold stepInstruction.
  destruct (Decode (Uint bytes)) as [d|] eqn:Ed; [|done]. cbv zeta.
  destruct (Evaluate w d context) as [e|] eqn:Ee; [|done]. pose proof (Evaluate_typed _ _ _ _ _ Hw Hc Ed Ee) as Ht.
  unfold stepEffects. destruct (StageEffects w e) as [st|] eqn:Es; [|done].
  assert (forall r, r_Decoded r = Some d -> r_Effects r = Some e -> r_IssuedEffects r = Some e -> exists d e st, deferred w context r d e st) as Hd
    by (intros r H1 H2 H3; exists d, e, st; split; try done; by exists (Uint bytes)).
  destruct (negb (length (Faults e) =? 0)%nat); [done|].
  destruct (negb (length (MemoryRequests e) =? 0)%nat).
  { destruct (wx_memory services) as [memory|]; [|intros _; by apply Hd].
    match goal with |- r_Outcome (completeMemory ?s ?w ?x ?r ?d ?rs ?m).2 = _ -> _ => destruct (completeMemory_outcome s w x r d rs m) as [->| ->] end; done. }
  destruct (negb (length (PackedLoads e) =? 0)%nat).
  { destruct (wx_memory services) as [memory|]; [|intros _; by apply Hd].
    match goal with |- r_Outcome (Warp_completePackedLoad ?s ?w ?x ?r ?d ?rs ?m).2 = _ -> _ =>
      destruct (packed_atomic s w x r d rs m) as [_ [[_ ->]| ->]] end; done. }
  destruct (_ && _) eqn:Eo.
  { apply andb_true_iff in Eo as [_ Hr]. destruct (_ || _); [intros _; by apply Hd|]. by rewrite (CommitAfterExternal_fresh _ _ _ Es Hr). }
  destruct (RequiresExternalSuccess st) eqn:Er; [intros _; by apply Hd|]. unfold commitLocal. rewrite (Commit_fresh _ _ _ Es).
  unfold RequiresExternalSuccess in Er. rewrite Er. cbn. by destruct (Trap e).
Qed.
End Steps.
