(* ===== verification/WarpMemory.v ===== *)
(** * Loads and stores through the executor

    [Step] on a load or store, over any byte memory: the lanes' requests, the
    memory owner's answers, the completion and the commit compose to the
    architectural effect. *)

From S2P Require Import Prelude IsaTypes Catalog Decode Integer System Custom Softfloat Float.
From S2P Require Import Memory WarpState Apply ApplyInvariant View EvaluateTyped Agreement WarpExec WarpCorrect.

#[local] Open Scope Z_scope.
#[local] Open Scope go_scope.

(** ** Staging a completed instruction *)

(** The warp after the register write of an instruction, if it has one. *)
Definition write_back (w : WarpState) (d : Decoded) (mask : LaneMask) (values : LaneValues) : WarpState :=
  match d_Destinations d with
  | [] => w
  | r :: _ => (WriteRegister w r mask values).1
  end.

Lemma byte_bits_all : byte_bits 15 = 0xffffffff. Proof. reflexivity. Qed.

Lemma merge_whole old v : is_u32 old -> is_u32 v -> merge_bits (byte_bits 15) old v = v.
Proof.
  intros Ho Hv. unfold merge_bits. rewrite byte_bits_all, u32_fits, Z.lor_0_l by done.
  change 0xffffffff with (Z.ones 32). rewrite Z.land_ones by lia. by apply Z.mod_small.
Qed.

(** A whole-word register write effect is [WriteRegister]. *)
Lemma write_lanes_whole w r mask values :
  warp_wf w -> reg_ok r -> mask_ok mask -> qforall is_u32 values ->
  set_lanes (write_lanes (mkRegisterWriteEffect 0 r mask values) (w_lanes w)) w = (WriteRegister w r mask values).1.
Proof.
  intros Hw Hr Hm Hv. unfold WriteRegister, write_lanes. cbn [rw_Destination rw_ByteMask rw_Mask rw_Values].
  rewrite validateRegister_ok, mask_valid by done. cbn [negb Z.eqb]. destruct (_ && _); cbn [fst]; [apply set_lanes_lanes|].
  f_equal. apply quad_ext. intros i Hi. rewrite !update_lanes_get by done. destruct (LaneMask_Active mask i); [|done].
  pose proof (wf_lanes w Hw) as Hl. rewrite qforall_get in Hl. rewrite qforall_get in Hv. destruct (Hl i) as [Hg Hf _].
  destruct (reg_File r ==. Integer); f_equal; (rewrite merge_whole; [done|by apply reg_get_ok|done]).
Qed.

Lemma write_back_zero w d values : Forall reg_ok (d_Destinations d) -> write_back w d 0 values = w.
Proof.
  intros Hd. unfold write_back. destruct (d_Destinations d) as [|r rs]; [done|]. apply Forall_cons in Hd as [Hr _].
  unfold WriteRegister. rewrite validateRegister_ok by done. cbn [negb]. change (LaneMask_Valid 0) with true. cbn [negb].
  destruct (_ && _); [done|]. cbn [fst].
  by destruct w.
Qed.

Lemma append_faults k e d mask values : Faults (with_Control k (appendRegisterWrite e d mask values)) = Faults e.
Proof. unfold appendRegisterWrite. by repeat case_match. Qed.

(** The commit of "write the result, advance the PC". *)
Lemma stage_append w d mask values :
  warp_wf w -> Forall reg_ok (d_Destinations d) -> mask_ok mask -> qforall is_u32 values ->
  exists st, StageEffects w (with_Control (sequentialControl (w_pc w)) (appendRegisterWrite no_effects d mask values)) = Ok st /\
  es_after st = set_pc (u32 (w_pc w + 4)) (write_back w d mask values) /\ es_requiresExternal st = false.
Proof.
  intros Hw Hd Hm Hv. pose proof (validate_sequential w (wf_pc w Hw)) as Hseq.
  assert (forall ws c, stageRegisterWrites w ws = Ok c ->
    exists st, StageEffects w (with_Control (sequentialControl (w_pc w)) (with_RegisterWrites ws no_effects)) = Ok st /\
    es_after st = set_pc (u32 (w_pc w + 4)) c /\ es_requiresExternal st = false) as Hplain.
  { intros ws c Hc. unfold StageEffects. cbn -[stageRegisterWrites validateControl u32]. rewrite Hc. cbn -[validateControl u32].
    unfold sequentialControl in *. cbn -[validateControl u32]. rewrite Hseq. cbn [result_bind]. eexists. split; [reflexivity|]. done. }
  unfold appendRegisterWrite, write_back. destruct (Z.eqb_spec mask 0) as [->|Hne].
  { pose proof (write_back_zero w d values Hd) as E. unfold write_back in E. rewrite E. by apply (Hplain [] w). }
  destruct (d_Destinations d) as [|r rs]; [by apply (Hplain [] w)|]. apply Forall_cons in Hd as [Hr _].
  destruct ((reg_File r ==. Integer) && (reg_Index r =? 0)) eqn:Ex.
  - unfold WriteRegister. rewrite validateRegister_ok, mask_valid, Ex by done. by apply (Hplain [] w).
  - apply Hplain. unfold stageRegisterWrites. cbn [app no_effects RegisterWrites foldM stageRegisterWrite rw_Destination rw_ByteMask rw_Mask rw_Values].
    rewrite <- write_lanes_whole by done. unfold write_lanes. cbn [rw_Destination rw_ByteMask rw_Mask rw_Values].
    rewrite validateRegister_ok, mask_valid, Ex by done. change (0 .&^ 15 <>? 0) with false. cbn [negb].
    rewrite bool_decide_false by by apply not_elem_of_nil. done.
Qed.

(** ** The requests of a load or store *)

Definition memory_input (w : WarpState) (d : Decoded) (context : ReadContext) : IntegerInput :=
  let rs i := source (map (read_register (w_lanes w)) (d_Sources d)) i in
  mkIntegerInput (w_pc w) (w_activeMask w) (rs 0%nat) (rs 1%nat) (rc_Bounds context).

Definition memory_kind (d : Decoded) : Prop := ms_Kind (d_Memory d) = MemoryLoad \/ ms_Kind (d_Memory d) = MemoryStore.

(** Scalar accesses are integer or floating; the packed loads are custom. *)
Definition memory_row_known (e : Entry) : bool :=
  (ms_Kind (e_Memory e) ==. MemoryNone) || (ms_Kind (e_Memory e) ==. MemoryFence) || (e_Category e == CategoryRV32I) ||
  (e_Category e == CategoryRV32F) || (e_Category e == CategoryCustom).
Lemma catalog_memory_known : forallb memory_row_known catalog = true.
Proof. vm_compute. reflexivity. Qed.

Lemma memory_category word d :
  Decode word = Ok d -> memory_kind d -> d_Category d <> CategoryCustom -> d_Category d = CategoryRV32I \/ d_Category d = CategoryRV32F.
Proof.
  intros [row Hrow]%decode_from Hk Hc. pose proof (decoded_row _ _ _ _ catalog_memory_known Hrow) as H. unfold memory_row_known in H.
  rewrite <- (df_memory _ _ _ Hrow), <- (df_category _ _ _ Hrow) in H. apply String.eqb_neq in Hc. rewrite Hc, orb_false_r in H.
  assert ((ms_Kind (d_Memory d) ==. MemoryNone) || (ms_Kind (d_Memory d) ==. MemoryFence) = false) as E by (by destruct Hk as [-> | ->]).
  rewrite E in H. cbn [orb] in H. by apply orb_true_iff in H as [?%String.eqb_eq|?%String.eqb_eq]; [left|right].
Qed.

(** The bytes of an access, accumulated as the executor does. *)
Lemma bytes_value bytes : Forall is_u8 bytes -> (length bytes <= 4)%nat ->
  load_value bytes = Uint bytes /\ 0 <= Uint bytes < 2 ^ (8 * Z.of_nat (length bytes)).
Proof.
  intros Hb Hl. split.
  - unfold load_value. destruct bytes as [|a [|b [|c [|d [|]]]]]; cbn in Hl; try lia; [done|..];
      repeat match goal with Hx : Forall _ (_ :: _) |- _ => apply Forall_cons in Hx as [? Hx] end; unfold is_u8 in *;
      cbn [imap fold_left Uint Nat.add compose Z.of_nat Pos.of_succ_nat Pos.succ]; cbn [Z.mul Pos.mul Pos.add];
      rewrite ?(u32_id (_ << _)) by (unfold is_u32; rewrite Z.shiftl_mul_pow2 by lia; lia);
      rewrite ?Z.shiftl_lor, ?Z.shiftl_shiftl, ?Z.shiftl_0_r, ?Z.shiftl_0_l, ?Z.lor_0_r, ?Z.lor_0_l, ?Z.lor_assoc by lia; done.
  - clear Hl. induction Hb as [|x l Hx Hb IH]; [done|]. cbn [Uint length]. unfold is_u8 in Hx. apply lor_bounded; [lia|..].
    + split; [lia|]. eapply Z.lt_le_trans; [apply Hx|]. change 256 with (2 ^ 8). apply Z.pow_le_mono_r; lia.
    + rewrite Z.shiftl_mul_pow2 by lia. replace (8 * Z.of_nat (S (length l))) with (8 * Z.of_nat (length l) + 8) by lia. rewrite Z.pow_add_r by lia. nia.
Qed.

Section MemorySteps.
Context {L : SoftFloatLib} {HL : SoftFloatLaws L}.

Lemma Evaluate_memory w word d context :
  warp_wf w -> Decode word = Ok d -> memory_kind d -> d_Category d <> CategoryCustom ->
  validateContext context = Ok (rc_Bounds context) -> bounds_ok (rc_Bounds context) = true ->
  Evaluate w d context = evaluateMemory d (memory_input w d context).
Proof.
  intros Hw Hdec Hk Hc Hv Hb. destruct (decode_registers word d Hdec) as (Hl & _ & Hr & _).
  pose proof (mask_valid _ (wf_mask w Hw)) as Hm.
  unfold Evaluate, evaluateOperands. rewrite sourceValues_ok by done. cbn [result_bind]. cbv zeta.
  unfold Snapshot_IntegerInput, Snapshot_FloatInput. rewrite !sourceValues_ok by done. rewrite Hv. cbn [result_bind].
  assert (ms_Kind (d_Memory d) ==. MemoryFence = false /\
    (ms_Kind (d_Memory d) ==. MemoryLoad) || (ms_Kind (d_Memory d) ==. MemoryStore) = true /\
    ms_Kind (d_Memory d) ==. MemoryNone = false) as (E1 & E2 & E3) by (by destruct Hk as [-> | ->]).
  destruct (memory_category word d Hdec Hk Hc) as [E|E]; rewrite E; cbn [String.eqb Ascii.eqb Bool.eqb orb].
  - unfold EvaluateInteger, integerMilestoneInstruction. cbn [ii_ActiveMask ii_Bounds]. rewrite Hm, E, E1, E2. unfold bounds_ok in Hb. by rewrite Hb.
  - unfold EvaluateFloat. cbn [fi_ActiveMask fi_Bounds fi_PC fi_RS1 fi_RS2]. rewrite Hm, E, E3. unfold bounds_ok in Hb. rewrite Hb.
    apply decode_from in Hdec as [row Hrow]. pose proof (decoded_row _ _ _ _ catalog_float_known Hrow) as H. unfold float_row_known in H.
    rewrite <- (df_name _ _ _ Hrow), <- (df_category _ _ _ Hrow), <- (df_memory _ _ _ Hrow), <- (df_format _ _ _ Hrow), E, E3 in H.
    cbn [String.eqb Ascii.eqb Bool.eqb negb orb] in H. apply andb_true_iff in H as [-> [[Hf Hn]%andb_true_iff _]%andb_true_iff].
    rewrite Hf, <- negb_orb, Hn. done.
Qed.

Context {M : Type} `{HM : MemoryLaws M}.

(** ** The owner's answers *)

(** The bytes of memory an access of a lane covers. *)
Definition memory_bytes (m : M) (address width : Z) : list Z := map (svc_byte m) (zrange address width).

Lemma readMemory_law m address width :
  svc_wf m -> 0 <= address -> mem_width width ->
  readMemory memory_service m address width =
  let? _ := range_check (svc_size m) address width in Ok (load_value (memory_bytes m address width)).
Proof.
  intros Hm Ha Hw. unfold readMemory, legal_width, memory_bytes. cbn [memory_service dsv_Read].
  rewrite svc_read_law by (done || destruct Hw as [-> | [-> | ->]]; lia).
  assert ((width =? 1) || (width =? 2) || (width =? 4) = true) as -> by (by destruct Hw as [-> | [-> | ->]]).
  by destruct (range_check _ _ _).
Qed.

(** The bytes a lane's store data puts back in order. *)
Lemma store_bytes_code v off width :
  0 <= off -> mem_width width -> off + width <= 4 -> 0 <= v ->
  store_bytes ((v * 2 ^ (8 * off)) mod 2 ^ 32 >> u32 (8 * off)) width = PutUint (Z.to_nat width) v.
Proof.
  intros Ho Hw Hs Hv. unfold store_bytes, PutUint. apply map_ext_in. intros i Hi%in_seq.
  assert (0 <= off < 4) as Hr by (destruct Hw as [-> | [-> | ->]]; lia). rewrite u32_id by (unfold is_u32; lia).
  rewrite <- Z.shiftl_mul_pow2 by lia. unfold u8. apply Z.bits_inj'. intros j Hj.
  rewrite !testbit_mod_pow2, !Z.shiftr_spec, testbit_mod_pow2, Z.shiftl_spec by lia.
  destruct (Z.ltb_spec j 8); [|done]. cbn [andb]. destruct (Z.ltb_spec (j + 8 * Z.of_nat i + 8 * off) 32); [cbn [andb]; f_equal; lia|].
  exfalso. lia.
Qed.

Lemma lane_address_range d input l : is_u32 (lane_address d input l).
Proof. unfold lane_address, is_u32. apply Z.mod_pos_bound. lia. Qed.

Lemma prepareStore_law m d input l :
  svc_wf m -> mem_width (ms_Bytes (d_Memory d)) -> ms_Kind (d_Memory d) = MemoryStore -> is_u32 (qget (ii_RS2 input) l) ->
  lane_faulty d input l = false ->
  prepareStore memory_service m (lane_request d input l) =
  let? _ := range_check (svc_size m) (lane_address d input l) (ms_Bytes (d_Memory d)) in
  Ok (mkStoreTransaction (lane_request d input l) (lane_address d input l)
        (PutUint (Z.to_nat (ms_Bytes (d_Memory d))) (qget (ii_RS2 input) l))).
Proof.
  intros Hm Hw Hk Hv Hf. unfold lane_faulty in Hf. cbv zeta in Hf. apply negb_false_iff, andb_true_iff in Hf as [Hal%Z.eqb_eq _].
  destruct (aligned_offset _ _ Hw Hal) as [Ho1 Ho2]. pose proof (lane_address_range d input l) as Hr. unfold is_u32 in Hr.
  pose proof (Z.mod_pos_bound (lane_address d input l) 4 ltac:(lia)) as Hb.
  unfold prepareStore, legal_width. cbn [lane_request mr_Width mr_Address mr_AlignedAddress mr_ByteMask mr_StoreData].
  assert ((ms_Bytes (d_Memory d) =? 1) || (ms_Bytes (d_Memory d) =? 2) || (ms_Bytes (d_Memory d) =? 4) = true) as ->
    by (by destruct Hw as [-> | [-> | ->]]).
  assert (u32 (lane_address d input l - lane_address d input l / 4 * 4) = lane_address d input l mod 4) as ->
    by (rewrite u32_id by (unfold is_u32; Z.div_mod_to_equations; lia); Z.div_mod_to_equations; lia).
  rewrite (u32_id (_ + _)) by (unfold is_u32; destruct Hw as [-> | [-> | ->]]; lia).
  pose proof (byteMask_code _ _ Hw Ho1 Ho2) as Hbm. rewrite (u8_id (_ mod 4)) in Hbm by (unfold is_u8; lia). rewrite Hbm, Z.eqb_refl.
  destruct (Z.ltb_spec 4 (lane_address d input l mod 4 + ms_Bytes (d_Memory d))); [lia|]. cbn [negb orb memory_service dsv_Read].
  rewrite svc_read_law by (done || lia || destruct Hw as [-> | [-> | ->]]; lia).
  rewrite Hk. rewrite bool_decide_true by done. rewrite store_bytes_code by (done || apply Hv).
  by destruct (range_check _ _ _).
Qed.

Definition served (m : M) (d : Decoded) (input : IntegerInput) (l : Z) : bool :=
  in_range (svc_size m) (lane_address d input l) (ms_Bytes (d_Memory d)).

(** What the owner answers one lane. *)
Definition lane_answer (m : M) (d : Decoded) (input : IntegerInput) (l : Z) : MemoryResponse :=
  if served m d input l then
    mkMemoryResponse (lane_request d input l)
      (if ms_Kind (d_Memory d) ==. MemoryStore then 0 else load_value (memory_bytes m (lane_address d input l) (ms_Bytes (d_Memory d))))
      FaultNone FaultReasonNone
  else memoryFaultResponse (lane_request d input l).

Definition lane_store (d : Decoded) (input : IntegerInput) (l : Z) : storeTransaction :=
  mkStoreTransaction (lane_request d input l) (lane_address d input l)
    (PutUint (Z.to_nat (ms_Bytes (d_Memory d))) (qget (ii_RS2 input) l)).

Lemma serve_form m d input ls R S E :
  svc_wf m -> mem_width (ms_Bytes (d_Memory d)) -> memory_kind d -> qforall is_u32 (ii_RS2 input) ->
  Forall (fun l => lane_faulty d input l = false) ls ->
  exists errs, fold_left (serveRequest memory_service m) (map (lane_request d input) ls) (R, S, E) =
  (R ++ map (lane_answer m d input) ls,
   S ++ (if ms_Kind (d_Memory d) ==. MemoryStore then map (lane_store d input) (List.filter (served m d input) ls) else []), errs).
Proof.
  intros Hm Hw Hk Hv Hf. revert R S E. induction Hf as [|l ls Hl Hf IH]; intros R S E; cbn [map fold_left].
  { exists E. rewrite app_nil_r. case_match; by rewrite ?app_nil_r. }
  pose proof (proj1 (lane_address_range d input l)) as Ha. rewrite qforall_get in Hv.
  assert (exists E', serveRequest memory_service m (R, S, E) (lane_request d input l) =
    (R ++ [lane_answer m d input l],
     S ++ (if (ms_Kind (d_Memory d) ==. MemoryStore) && served m d input l then [lane_store d input l] else []), E')) as [E' ->].
  { unfold serveRequest, lane_answer, served. cbn [lane_request mr_Kind]. destruct (ms_Kind (d_Memory d) ==. MemoryStore) eqn:Ek.
    - apply bool_decide_eq_true in Ek. rewrite (prepareStore_law m d input l) by (done || apply Hv). unfold range_check.
      destruct (in_range _ _ _); cbn; eexists; [reflexivity|]. by rewrite app_nil_r.
    - cbn [mr_Address mr_Width]. rewrite readMemory_law by done. unfold range_check.
      destruct (in_range _ _ _); cbn; eexists; by rewrite app_nil_r. }
  destruct (IH (R ++ [lane_answer m d input l])
    (S ++ (if (ms_Kind (d_Memory d) ==. MemoryStore) && served m d input l then [lane_store d input l] else [])) E') as [errs ->].
  exists errs. rewrite <- !app_assoc. cbn [app List.filter]. destruct (ms_Kind (d_Memory d) ==. MemoryStore); cbn [andb]; [|done].
  by destruct (served m d input l).
Qed.

Lemma lane_answers_ok m d input mask : memory_kind d -> answers d (lane_answer m d input) (active_lanes mask).
Proof.
  intros Hk l _. unfold lane_answer. destruct (served m d input l); [split; [done|apply lane_request_ok]|].
  split; [done|]. unfold memoryFaultResponse. rewrite lane_request_ok. cbn [lane_request mr_Kind]. by destruct Hk as [-> | ->].
Qed.

(** The access fault of a lane outside memory. *)
Definition access_fault (d : Decoded) (input : IntegerInput) (l : Z) : FaultEffect :=
  mkFaultEffect (if ms_Kind (d_Memory d) ==. MemoryStore then FaultStoreAccess else FaultLoadAccess) FaultReasonMemoryService l
    (lane_address d input l) (ms_Bytes (d_Memory d)).

Lemma lane_answer_faults m d input ls :
  answer_faults (lane_answer m d input) ls = map (access_fault d input) (List.filter (fun l => negb (served m d input l)) ls).
Proof.
  unfold answer_faults. induction ls as [|l ls IH]; [done|]. cbn [List.filter].
  assert ((mp_Fault (lane_answer m d input l) !=. FaultNone) = negb (served m d input l)) as ->.
  { unfold lane_answer. destruct (served m d input l); [done|]. cbn. by case_match. }
  destruct (served m d input l) eqn:Es; cbn [negb map]; [exact IH|]. rewrite IH. f_equal. unfold lane_answer. by rewrite Es.
Qed.

Lemma Snapshot_CompleteMemory_form w word d mask rs :
  Decode word = Ok d -> memory_kind d -> d_Category d <> CategoryCustom ->
  Snapshot_CompleteMemory w d mask rs = CompleteMemory d (w_pc w) mask rs.
Proof.
  intros Hdec Hk Hc. unfold Snapshot_CompleteMemory. destruct (memory_category word d Hdec Hk Hc) as [E|E]; rewrite E; [done|].
  cbn [String.eqb Ascii.eqb Bool.eqb]. unfold CompleteFloatMemory. rewrite E.
  apply decode_from in Hdec as [row Hrow]. pose proof (decoded_row _ _ _ _ catalog_float_known Hrow) as Hx. unfold float_row_known in Hx.
  rewrite <- (df_name _ _ _ Hrow), <- (df_category _ _ _ Hrow), <- (df_memory _ _ _ Hrow), <- (df_format _ _ _ Hrow), E in Hx.
  assert (ms_Kind (d_Memory d) ==. MemoryNone = false) as E3 by (by destruct Hk as [-> | ->]). rewrite E3 in Hx.
  cbn [String.eqb Ascii.eqb Bool.eqb negb orb] in Hx. by apply andb_true_iff in Hx as [_ [[-> _]%andb_true_iff _]%andb_true_iff].
Qed.

Lemma stage_faults w fs : forallb fault_ok fs = true -> exists st, StageEffects w (with_Faults fs no_effects) = Ok st.
Proof.
  intros Hf. assert (is_ok (StageEffects w (with_Faults fs no_effects)) = true) as Hx.
  { stage_by idtac; [|by apply stage_empty]. unfold classifyAndValidateForwarded.
    cbn [with_Faults no_effects MemoryRequests Ordering WarpSpawn WarpDrains Barriers PackedLoads Faults forallb]. by rewrite Hf. }
  destruct (StageEffects w (with_Faults fs no_effects)) as [st|]; [by eexists|done].
Qed.

Lemma access_faults_ok d input ls : Forall idx4 ls -> Forall (fun l => fault_ok (access_fault d input l) = true) ls.
Proof.
  intros Hi. eapply Forall_impl; [exact Hi|]. intros l Hl%lane_small. unfold fault_ok, access_fault. cbn [fe_Kind fe_Lane].
  by destruct (ms_Kind (d_Memory d) ==. MemoryStore).
Qed.

(** Writing the prepared stores of a memory: accepted exactly when no two of them
    overlap, and then every byte is as its store says. *)
Definition store_write (t : storeTransaction) : Z * list Z := (stx_address t, stx_after t).

Lemma zip_stores stores : zip (map stx_address stores) (map stx_after stores) = map store_write stores.
Proof. induction stores as [|t ts IH]; [done|]. cbn. by rewrite IH. Qed.

Lemma writeStores_law m stores :
  svc_wf m -> Forall (fun t => 0 <= stx_address t) stores -> Forall (fun t => in_range (svc_size m) (stx_address t) (zlen (stx_after t)) = true) stores ->
  stores <> [] ->
  let out := writeStores memory_service m stores in let ws := map store_write stores in
  (ForallOrdPairs (fun p w => ~ clash p w) ws -> out.2 = Ok tt /\
   (forall w a, w ∈ ws -> covers w a -> svc_byte out.1 a = byte_of w.2 (a - w.1)) /\
   (forall a, 0 <= a -> (forall w, w ∈ ws -> ~ covers w a) -> svc_byte out.1 a = svc_byte m a)) /\
  (~ ForallOrdPairs (fun p w => ~ clash p w) ws -> exists e, out = (m, Err e)).
Proof.
  intros Hm Ha Hr Hne. destruct stores as [|t [|u us]]; [done|..].
  - apply Forall_cons in Ha as [Ha _]. apply Forall_cons in Hr as [Hr _]. cbn [writeStores memory_service dsv_Write map].
    destruct (svc_write_law m (stx_address t) (stx_after t) Hm Ha) as (Ho & _ & _ & Hb). rewrite Hr in Hb. unfold range_check in Ho. rewrite Hr in Ho.
    split; [|intros []; repeat constructor]. intros _. split; [done|]. split.
    + intros w a Hw Hc. apply list_elem_of_singleton in Hw as ->. unfold covers, write_end, store_write in Hc. cbn [fst snd] in *. rewrite Hb by lia. unfold overlay.
      destruct (Z.leb_spec (stx_address t) a), (Z.ltb_spec a (stx_address t + zlen (stx_after t))); [done|lia..].
    + intros a Hp Hn. rewrite Hb by done. apply (overlay_outside (store_write t)). apply Hn. by apply list_elem_of_singleton.
  - set (stores := t :: u :: us) in *. change (writeStores memory_service m stores) with (svc_batch m (map stx_address stores) (map stx_after stores)).
    destruct (batch_effect m (map stx_address stores) (map stx_after stores) Hm) as (Hok & Hgood & Hbad); [by apply Forall_map|by rewrite !length_map|].
    rewrite zip_stores in Hok, Hgood, Hbad. assert (Forall (fun w : Z * list Z => in_range (svc_size m) w.1 (zlen w.2) = true) (map store_write stores)) as Hin
      by (by apply Forall_map). split.
    + intros Hp. destruct (Hgood (conj Hin Hp)) as (_ & ? & ?). split_and!; [|done|done]. by apply Hok.
    + intros Hp. assert (~ (Forall (fun w : Z * list Z => in_range (svc_size m) w.1 (zlen w.2) = true) (map store_write stores) /\
        ForallOrdPairs (fun p w => ~ clash p w) (map store_write stores))) as Hn by tauto.
      specialize (Hbad Hn). destruct (svc_batch m _ _) as [m' [[]|e]]; cbn [fst snd] in *; [by destruct (Hn (proj1 Hok eq_refl))|]. subst m'. by eexists.
Qed.

(** Aligned accesses of one width overlap exactly when they are the same. *)
Lemma aligned_clash a b n v w : (0 < n)%nat -> a mod Z.of_nat n = 0 -> b mod Z.of_nat n = 0 ->
  clash (a, PutUint n v) (b, PutUint n w) <-> a = b.
Proof.
  intros Hn Ha Hb. unfold clash, write_end. cbn [fst snd]. rewrite !PutUint_length.
  split; [|intros ->; lia]. intros [H1 H2]. apply Z.div_exact in Ha, Hb; [|lia..].
  rewrite Ha, Hb in *. set (p := a / Z.of_nat n) in *. set (q := b / Z.of_nat n) in *. clearbody p q.
  assert (p < q + 1) by nia. assert (q < p + 1) by nia. f_equal. lia.
Qed.

Lemma pairs_distinct {A B} (f : A -> B) (P : B -> B -> Prop) (g : A -> Z) ls :
  (forall x y, x ∈ ls -> y ∈ ls -> P (f x) (f y) <-> g x = g y) ->
  ForallOrdPairs (fun p w => ~ P p w) (map f ls) <-> NoDup (map g ls).
Proof.
  induction ls as [|x ls IH]; intros Hp; cbn [map]; [split; constructor|].
  assert (ForallOrdPairs (fun p w => ~ P p w) (map f ls) <-> NoDup (map g ls)) as IH'
    by (apply IH; intros y z Hy Hz; apply Hp; by apply list_elem_of_further).
  rewrite NoDup_cons, <- IH'. split.
  - intros Hf. inversion Hf as [|? ? Hx Hr]; subst. split; [|done]. intros (y & Hy & Hin)%list_elem_of_fmap.
    rewrite List.Forall_forall in Hx. apply (Hx (f y)); [apply in_map; by apply list_elem_of_In|].
    apply Hp; [apply list_elem_of_here|by apply list_elem_of_further|done].
  - intros [Hx Hr]. constructor; [|done]. apply List.Forall_forall. intros z (y & <- & Hy%list_elem_of_In)%in_map_iff Hc. apply Hx.
    apply list_elem_of_fmap. exists y. split; [|done]. apply Hp; [apply list_elem_of_here|by apply list_elem_of_further|done].
Qed.

(** ** One memory instruction *)

Lemma validateContext_inv context b : validateContext context = Ok b -> b = rc_Bounds context /\ bounds_ok (rc_Bounds context) = true.
Proof.
  unfold validateContext. destruct (negb _); [|done]. destruct (negb _); [|done]. destruct (negb _); [|done].
  destruct (rc_Bounds context) as [bb|]; [|by intros <-%Ok_inj]. destruct (Z.ltb_spec (1 << 32) (u64 (ab_Base bb + ab_Size bb))) as [|Hle]; [done|].
  intros <-%Ok_inj. split; [done|]. cbn. unfold AddressBounds_valid. by apply Z.leb_le.
Qed.

Lemma filter_nil_Forall {A} (f : A -> bool) xs : List.filter f xs = [] -> Forall (fun x => f x = false) xs.
Proof. induction xs as [|x xs IH]; [done|]. cbn. destruct (f x) eqn:E; [done|]. intros Hx. constructor; [done|by apply IH]. Qed.

(** The warp is about to execute the load or store [d]. *)
Record at_memory (w : WarpState) (m : M) (context : ReadContext) (d : Decoded) : Prop := {
  am_warp : warp_wf w;
  am_memory : svc_wf m;
  am_running : w_activeMask w <> 0;
  am_fetch : exists bytes, svc_read m (w_pc w) 4 = Ok bytes /\ Decode (Uint bytes) = Ok d;
  am_kind : memory_kind d;
  am_scalar : d_Category d <> CategoryCustom;
  am_context : is_ok (validateContext context) = true
}.

Section At.
Context (w : WarpState) (m : M) (context : ReadContext) (d : Decoded) (Hat : at_memory w m context d).
Let input := memory_input w d context.
Let active := active_lanes (w_activeMask w).

Lemma am_width : mem_width (ms_Bytes (d_Memory d)).
Proof. destruct (am_fetch _ _ _ _ Hat) as (bytes & _ & Hd). eapply decoded_width; [exact Hd|..]; by destruct (am_kind _ _ _ _ Hat) as [-> | ->]. Qed.

Lemma am_values : qforall is_u32 (ii_RS2 input).
Proof. apply source_u32, Hat. Qed.

(** Fetch, decode and evaluation reach the effects of the access. *)
Lemma stepBody_memory : exists r e,
  evaluateMemory d input = Ok e /\ r_PC r = w_pc w /\
  stepBody memory_warp w m context = stepEffects memory_warp w m r d e.
Proof.
  destruct (am_fetch _ _ _ _ Hat) as (bytes & Hr & Hd). pose proof (am_warp _ _ _ _ Hat) as Hw.
  destruct (validateContext context) as [b|] eqn:Ev; [|by pose proof (am_context _ _ _ _ Hat) as Hx; rewrite Ev in Hx].
  destruct (validateContext_inv _ _ Ev) as [-> Hb].
  pose proof (Evaluate_memory w _ d context Hw Hd (am_kind _ _ _ _ Hat) (am_scalar _ _ _ _ Hat) Ev Hb) as He. fold input in He.
  pose proof (evaluateMemory_form d input am_width) as Hf. cbv zeta in Hf.
  do 2 eexists. split; [exact Hf|]. rewrite Hf in He. unfold stepBody.
  destruct (wf_lifecycle w Hw) as [[-> Hne]|[_ E]]; [|by destruct (am_running _ _ _ _ Hat)].
  rewrite (mask_valid _ (wf_mask w Hw)), (proj2 (Z.eqb_neq _ _) Hne), (pc_low_bits _ (wf_pc w Hw)). cbn [negb orb Z.eqb memory_warp wx_instructions is_Read].
  rewrite Hr. cbv zeta. unfold stepInstruction. rewrite Hd, He. split; [|reflexivity]. done.
Qed.

(** A lane the evaluator rejects: no access is made. *)
Lemma stepBody_rejected f fs : List.filter (lane_faulty d input) active = f :: fs ->
  exists r, stepBody memory_warp w m context = (w, m, r) /\
  r_Fault r = Some (mkFault FaultArchitectural (w_pc w) [] (map (lane_fault d input) (f :: fs))).
Proof.
  intros Hf. destruct stepBody_memory as (r & e & He & Hpc & ->). pose proof (memory_accepts w d input e am_width He) as Hs.
  rewrite evaluateMemory_form in He by apply am_width. cbv zeta in He. fold active in He. cbn [input memory_input ii_ActiveMask] in He.
  fold active in He. rewrite Hf in He. apply Ok_inj in He as <-. unfold stepEffects. destruct (StageEffects _ _); [|done].
  cbn [with_Faults Faults length map Nat.eqb negb]. eexists. split; [reflexivity|]. cbn. by rewrite Hpc.
Qed.

Lemma active_nonempty : active <> [].
Proof.
  intros Ea. apply (am_running _ _ _ _ Hat). pose proof (wf_mask w (am_warp _ _ _ _ Hat)) as Hm. apply mask_cases in Hm.
  unfold active, active_lanes in Ea. revert Ea. repeat (apply elem_of_cons in Hm as [->|Hm]; [done|]). by apply elem_of_nil in Hm.
Qed.

(** Otherwise the owner is asked. *)
Lemma stepBody_asks : List.filter (lane_faulty d input) active = [] ->
  exists r, r_PC r = w_pc w /\ stepBody memory_warp w m context =
  completeMemory memory_service w m r d (map (lane_request d input) active) (w_activeMask w).
Proof.
  intros Hf. destruct stepBody_memory as (r & e & He & Hpc & ->). pose proof (memory_accepts w d input e am_width He) as Hs.
  rewrite evaluateMemory_form in He by apply am_width. cbv zeta in He. cbn [input memory_input ii_ActiveMask] in He.
  fold active in He. rewrite Hf in He. apply Ok_inj in He as <-. exists r. split; [done|]. unfold stepEffects. destruct (StageEffects _ _); [|done].
  cbn [with_MemoryRequests no_effects Faults MemoryRequests length Nat.eqb negb memory_warp wx_memory]. rewrite length_map.
  destruct active as [|l ls] eqn:Ea; [by destruct active_nonempty|done].
Qed.

(** What [completeMemory] sees once every lane has been answered. *)
Lemma completeMemory_answered : List.filter (lane_faulty d input) active = [] ->
  exists errs, let faults := map (access_fault d input) (List.filter (fun l => negb (served m d input l)) active) in
  let completed := match faults with
    | [] => with_Control (sequentialControl (w_pc w))
        (if ms_Kind (d_Memory d) ==. MemoryLoad
         then appendRegisterWrite no_effects d (w_activeMask w)
                (qmake (fun lane => if LaneMask_Active (w_activeMask w) lane
                   then extendLoad (mp_Data (lane_answer m d input lane)) (ms_Bytes (d_Memory d)) (ms_Signed (d_Memory d)) else 0))
         else no_effects)
    | _ => with_Faults faults no_effects end in
  fold_left (serveRequest memory_service m) (map (lane_request d input) active) ([], [], []) =
    (map (lane_answer m d input) active,
     if ms_Kind (d_Memory d) ==. MemoryStore then map (lane_store d input) (List.filter (served m d input) active) else [], errs) /\
  Snapshot_CompleteMemory w d (w_activeMask w) (map (lane_answer m d input) active) = Ok completed.
Proof.
  intros Hf. pose proof (am_warp _ _ _ _ Hat) as Hw. destruct (am_fetch _ _ _ _ Hat) as (bytes & _ & Hd).
  destruct (serve_form m d input active [] [] [] (am_memory _ _ _ _ Hat) am_width (am_kind _ _ _ _ Hat) am_values (filter_nil_Forall _ _ Hf)) as [errs Hs].
  exists errs. cbv zeta. split; [exact Hs|].
  rewrite (Snapshot_CompleteMemory_form w _ d _ _ Hd (am_kind _ _ _ _ Hat) (am_scalar _ _ _ _ Hat)). subst active.
  rewrite CompleteMemory_answers; [|apply Hat|apply Hw|apply lane_answers_ok, Hat]. rewrite lane_answer_faults.
  set (faults := map _ _). by destruct faults.
Qed.

Lemma served_all : List.filter (fun l => negb (served m d input l)) active = [] -> List.filter (served m d input) active = active.
Proof. intros Hn. apply filter_negb_nil in Hn. rewrite <- Hn at 2. apply filter_ext. intros l. by rewrite negb_involutive. Qed.

(** A lane outside memory: every unserved lane faults and nothing changes. *)
Lemma stepBody_unserved f fs :
  List.filter (lane_faulty d input) active = [] -> List.filter (fun l => negb (served m d input l)) active = f :: fs ->
  exists r errs, stepBody memory_warp w m context = (w, m, r) /\
  r_Fault r = Some (mkFault FaultArchitectural (w_pc w) errs (map (access_fault d input) (f :: fs))).
Proof.
  intros Hf Hn. destruct (stepBody_asks Hf) as (r & Hpc & ->). destruct (completeMemory_answered Hf) as (errs & Hs & Hc). cbv zeta in Hs, Hc.
  unfold completeMemory. rewrite Hs, Hc. rewrite Hn. cbn [map]. cbv zeta.
  edestruct (stage_faults w (map (access_fault d input) (f :: fs))) as [st Hst].
  { rewrite <- Hn. rewrite forallb_map, forallb_Forall; [done|]. apply access_faults_ok, Forall_forall.
    intros l [Hl _]%list_elem_of_In%filter_In. apply list_elem_of_In in Hl. destruct (active_lanes_ok (w_activeMask w)) as [_ Ha].
    rewrite Forall_forall in Ha. by apply Ha. }
  cbn [map] in Hst. rewrite Hst. cbn [with_Faults Faults length Nat.eqb negb].
  do 2 eexists. split; [reflexivity|]. cbn. by rewrite Hpc.
Qed.

(** A load of served lanes writes the extended data back. *)
Lemma stepBody_load :
  ms_Kind (d_Memory d) = MemoryLoad ->
  List.filter (lane_faulty d input) active = [] -> List.filter (fun l => negb (served m d input l)) active = [] ->
  exists r, r_Outcome r = OutcomeRetired /\
  stepBody memory_warp w m context =
  (set_pc (u32 (w_pc w + 4)) (write_back w d (w_activeMask w)
     (qmake (fun l => if LaneMask_Active (w_activeMask w) l
        then extendLoad (load_value (memory_bytes m (lane_address d input l) (ms_Bytes (d_Memory d)))) (ms_Bytes (d_Memory d)) (ms_Signed (d_Memory d))
        else 0))), m, r).
Proof.
  intros Hk Hf Hn. destruct (stepBody_asks Hf) as (r & Hpc & ->). destruct (completeMemory_answered Hf) as (errs & Hs & Hc). cbv zeta in Hs, Hc.
  unfold completeMemory. rewrite Hs, Hc, Hn, Hk. cbn [map]. cbv zeta. rewrite bool_decide_true by done.
  assert (qmake (fun l => if LaneMask_Active (w_activeMask w) l
       then extendLoad (mp_Data (lane_answer m d input l)) (ms_Bytes (d_Memory d)) (ms_Signed (d_Memory d)) else 0) =
     qmake (fun l => if LaneMask_Active (w_activeMask w) l
       then extendLoad (load_value (memory_bytes m (lane_address d input l) (ms_Bytes (d_Memory d)))) (ms_Bytes (d_Memory d)) (ms_Signed (d_Memory d))
       else 0)) as ->.
  { apply quad_ext. intros l Hl. rewrite !qget_qmake by done. destruct (LaneMask_Active _ l) eqn:Ea; [|done]. do 2 f_equal.
    unfold lane_answer. rewrite Hk, bool_decide_false by done. destruct (served m d input l) eqn:Es; [done|]. exfalso.
    apply filter_nil_Forall in Hn. rewrite Forall_forall in Hn. specialize (Hn l). rewrite Es in Hn. discriminate Hn.
    apply list_elem_of_In, filter_In. split; [|done]. unfold lanes. destruct Hl as [-> | [-> | [-> | ->]]]; cbn; tauto. }
  destruct (am_fetch _ _ _ _ Hat) as (bytes & _ & Hd). destruct (decode_registers _ _ Hd) as (_ & _ & _ & Hds).
  edestruct (stage_append w d (w_activeMask w)) as (st & Hst & Ha & Hx); [apply Hat|done|apply Hat| |].
  2: { rewrite Hst. rewrite (Commit_fresh _ _ _ Hst), Hx, Ha.
       rewrite append_faults. rewrite bool_decide_false by done. cbn [length Nat.eqb negb].
       eexists. split; [|reflexivity]. done. }
  apply qforall_qmake. intros l _. destruct (LaneMask_Active _ l); [apply extendLoad_u32, load_value_u32|apply is_u32_0].
Qed.

Lemma stage_sequential_none : exists st, StageEffects w (with_Control (sequentialControl (w_pc w)) no_effects) = Ok st /\
  es_after st = set_pc (u32 (w_pc w + 4)) w /\ es_requiresExternal st = false.
Proof.
  pose proof (am_warp _ _ _ _ Hat) as Hw. destruct (am_fetch _ _ _ _ Hat) as (bytes & _ & Hd). destruct (decode_registers _ _ Hd) as (_ & _ & _ & Hds).
  destruct (stage_append w d 0 (qfill 0)) as (st & Hst & Ha & Hx); [done|done|by vm_compute|by apply qforall_qfill, is_u32_0|].
  rewrite write_back_zero in Ha by done. by exists st.
Qed.

Lemma active_store_range :
  List.filter (fun l => negb (served m d input l)) active = [] ->
  Forall (fun t => 0 <= stx_address t) (map (lane_store d input) active) /\
  Forall (fun t => in_range (svc_size m) (stx_address t) (zlen (stx_after t)) = true) (map (lane_store d input) active).
Proof.
  intros Hn%filter_nil_Forall. split; apply Forall_map.
  - apply Forall_forall. intros l _. apply lane_address_range.
  - eapply Forall_impl; [exact Hn|]. intros l Hl%negb_false_iff. cbn. rewrite PutUint_length. unfold served in Hl.
    pose proof am_width. rewrite Z2Nat.id by (destruct am_width as [-> | [-> | ->]]; lia). exact Hl.
Qed.

Lemma stores_distinct :
  List.filter (lane_faulty d input) active = [] ->
  ForallOrdPairs (fun p w => ~ clash p w) (map store_write (map (lane_store d input) active)) <-> NoDup (map (lane_address d input) active).
Proof.
  intros Hf%filter_nil_Forall. rewrite map_map. apply pairs_distinct. rewrite Forall_forall in Hf.
  assert (forall l, l ∈ active -> lane_address d input l mod Z.of_nat (Z.to_nat (ms_Bytes (d_Memory d))) = 0) as Hal.
  { intros l Hl. specialize (Hf l Hl). unfold lane_faulty in Hf. cbv zeta in Hf. apply negb_false_iff, andb_true_iff in Hf as [Hal%Z.eqb_eq _].
    by rewrite Z2Nat.id by (destruct am_width as [-> | [-> | ->]]; lia). }
  intros x y Hx Hy. apply aligned_clash; [destruct am_width as [-> | [-> | ->]]; lia|by apply Hal..].
Qed.

Lemma failedStore_all r e :
  ms_Kind (d_Memory d) = MemoryStore ->
  r_Fault (failedStore w w r d (map (lane_request d input) active) (w_activeMask w) e) =
  Some (mkFault FaultArchitectural (r_PC r) [e] (map (access_fault d input) active)).
Proof.
  intros Hk. unfold failedStore. rewrite !map_map. cbv zeta. destruct (am_fetch _ _ _ _ Hat) as (bytes & _ & Hd).
  rewrite (Snapshot_CompleteMemory_form w _ d _ _ Hd (am_kind _ _ _ _ Hat) (am_scalar _ _ _ _ Hat)).
  rewrite CompleteMemory_answers; [|apply Hat|apply Hat|].
  2: { intros l _. split; [done|]. rewrite lane_request_ok, Hk. done. }
  assert (answer_faults (fun l => mkMemoryResponse (lane_request d input l) 0 FaultStoreAccess FaultReasonMemoryService) active =
    map (access_fault d input) active) as E.
  { unfold answer_faults, access_fault. rewrite Hk. generalize active. intros ls. induction ls as [|l ls IH]; [done|].
    cbn [List.filter mp_Fault]. rewrite bool_decide_false by done. cbn [negb map]. f_equal. exact IH. }
  fold active. rewrite E. destruct active as [|l ls] eqn:Ea.
  { by destruct active_nonempty. }
  rewrite <- Ea. destruct (stage_faults w (map (access_fault d input) active)) as [st Hst].
  { rewrite forallb_map, forallb_Forall; [done|]. apply access_faults_ok. by apply active_lanes_ok. }
  rewrite Ea in *. cbn [map] in *. rewrite Hst. done.
Qed.

(** A store of served lanes: committed when the lanes' addresses differ, otherwise
    every lane faults and nothing changes. *)
Lemma stepBody_store :
  ms_Kind (d_Memory d) = MemoryStore ->
  List.filter (lane_faulty d input) active = [] -> List.filter (fun l => negb (served m d input l)) active = [] ->
  (NoDup (map (lane_address d input) active) -> exists m' r, r_Outcome r = OutcomeRetired /\
     stepBody memory_warp w m context = (set_pc (u32 (w_pc w + 4)) w, m', r) /\
     (forall v a, v ∈ map store_write (map (lane_store d input) active) -> covers v a -> svc_byte m' a = byte_of v.2 (a - v.1)) /\
     (forall a, 0 <= a -> (forall v, v ∈ map store_write (map (lane_store d input) active) -> ~ covers v a) -> svc_byte m' a = svc_byte m a)) /\
  (~ NoDup (map (lane_address d input) active) -> exists r e, stepBody memory_warp w m context = (w, m, r) /\
     r_Fault r = Some (mkFault FaultArchitectural (w_pc w) [e] (map (access_fault d input) active))).
Proof.
  intros Hk Hf Hn. destruct (stepBody_asks Hf) as (r & Hpc & ->). destruct (completeMemory_answered Hf) as (errs & Hs & Hc). cbv zeta in Hs, Hc.
  destruct stage_sequential_none as (st & Hst & Ha & Hx). destruct (active_store_range Hn) as [Hr1 Hr2].
  destruct (writeStores_law m (map (lane_store d input) active) (am_memory _ _ _ _ Hat) Hr1 Hr2) as [Hgood Hbad].
  { intros E. by apply map_eq_nil, active_nonempty in E. }
  rewrite (stores_distinct Hf) in Hgood, Hbad.
  unfold completeMemory. rewrite Hs, Hc, Hn, (served_all Hn), Hk. cbn [map]. cbv zeta.
  change (MemoryStore ==. MemoryStore) with true. change (MemoryStore ==. MemoryLoad) with false. cbv iota. rewrite Hst, length_map.
  destruct (length active) as [|n] eqn:El; [by apply nil_length_inv, active_nonempty in El|]. cbn [with_Control no_effects Faults length Nat.eqb negb].
  rewrite (CommitWithExternal_fresh _ _ _ _ _ Hst), Hx. split.
  - intros (Ho & Hin & Hout)%Hgood. destruct (writeStores _ _ _) as [m' res]. cbn [fst snd] in *. subst res.
    eexists m', _. split; [|split; [by rewrite Ha|done]]. done.
  - intros [e E]%Hbad. rewrite E. do 2 eexists. split; [reflexivity|]. rewrite failedStore_all by done. cbn. by rewrite Hpc.
Qed.
End At.

(** ** The architectural effect *)

(** The value of the little-endian bytes at an address, extended to the register. *)
Definition load_reference (m : M) (address width : Z) (sgn : bool) : Z :=
  let v := Uint (memory_bytes m address width) in if sgn then signed (8 * width) v mod 2 ^ 32 else v.

Lemma load_reference_code m address width sgn :
  (forall a, is_u8 (svc_byte m a)) -> mem_width width ->
  extendLoad (load_value (memory_bytes m address width)) width sgn = load_reference m address width sgn.
Proof.
  intros Hb Hw. unfold load_reference. cbv zeta.
  assert (load_value (memory_bytes m address width) = Uint (memory_bytes m address width) /\
    0 <= Uint (memory_bytes m address width) < 2 ^ (8 * width)) as [-> Hv].
  { pose proof (bytes_value (memory_bytes m address width)) as Hx.
    assert (Z.of_nat (length (memory_bytes m address width)) = width) as Hl
      by (unfold memory_bytes, zrange; rewrite !length_map, length_seq; destruct Hw as [-> | [-> | ->]]; lia).
    rewrite Hl in Hx. apply Hx; [apply Forall_map, Forall_forall; intros a _; apply Hb|destruct Hw as [-> | [-> | ->]]; lia]. }
  unfold extendLoad. destruct Hw as [-> | [-> | ->]]; cbn [Z.eqb Pos.eqb]; (destruct sgn; [|]); try done.
  - change 255 with (Z.ones 8). rewrite Z.land_ones by lia. by apply Z.mod_small.
  - change 65535 with (Z.ones 16). rewrite Z.land_ones by lia. by apply Z.mod_small.
  - symmetry. etransitivity; [apply (signed_mod 32); lia|]. by apply Z.mod_small.
Qed.

Lemma Step_body (w : WarpState) (m : M) context w' m' r :
  stepBody memory_warp w m context = (w', m', r) -> Step memory_warp w m context = (w', m', observe w' r).
Proof. intros E. unfold Step. by rewrite E. Qed.

(** The three ways a load or store of a running warp ends: a lane is rejected before
    any access, a lane is outside the owner, or every lane is served ([done_]). *)
Definition access_outcome (w : WarpState) (m : M) (context : ReadContext) (d : Decoded) (out : WarpState * M * Result) (done_ : Prop) : Prop :=
  let input := memory_input w d context in
  let active := active_lanes (w_activeMask w) in
  match List.filter (lane_faulty d input) active, List.filter (fun l => negb (served m d input l)) active with
  | [], [] => done_
  | [], unserved => out.1 = (w, m) /\ exists errs, r_Fault out.2 = Some (mkFault FaultArchitectural (w_pc w) errs (map (access_fault d input) unserved))
  | faulty, _ => out.1 = (w, m) /\ r_Fault out.2 = Some (mkFault FaultArchitectural (w_pc w) [] (map (lane_fault d input) faulty))
  end.

Lemma access_cases w m context d (P : WarpState * M * Result -> Prop) :
  at_memory w m context d ->
  let input := memory_input w d context in
  let active := active_lanes (w_activeMask w) in
  (List.filter (lane_faulty d input) active = [] -> List.filter (fun l => negb (served m d input l)) active = [] ->
   P (Step memory_warp w m context)) ->
  let out := Step memory_warp w m context in access_outcome w m context d out (P out).
Proof.
  intros Hat input active HP. unfold access_outcome. cbv zeta. fold input. fold active.
  destruct (List.filter (lane_faulty d input) active) as [|f fs] eqn:Ef.
  - destruct (List.filter (fun l => negb (served m d input l)) active) as [|u us] eqn:Eu; [by apply HP|].
    destruct (stepBody_unserved w m context d Hat u us Ef Eu) as (r & errs & Hb & Hr). rewrite (Step_body _ _ _ _ _ _ Hb). split; [done|]. by exists errs.
  - destruct (stepBody_rejected w m context d Hat f fs Ef) as (r & Hb & Hr). by rewrite (Step_body _ _ _ _ _ _ Hb).
Qed.

(** C26: a load executed by [Step], from fetch to commit, over any byte memory: the
    bytes at every active lane's address, little-endian and sign- or zero-extended,
    are written to exactly the active lanes of the destination and the PC advances;
    if some active lane is misaligned, out of the window or outside memory the step
    faults with precisely the offending lanes and nothing changes. *)
Theorem Step_load w m context d :
  at_memory w m context d -> (forall a, is_u8 (svc_byte m a)) -> ms_Kind (d_Memory d) = MemoryLoad ->
  let input := memory_input w d context in
  let out := Step memory_warp w m context in
  access_outcome w m context d out
    (r_Outcome out.2 = OutcomeRetired /\
     out.1 = (set_pc (u32 (w_pc w + 4)) (write_back w d (w_activeMask w)
       (qmake (fun l => if LaneMask_Active (w_activeMask w) l
          then load_reference m (lane_address d input l) (ms_Bytes (d_Memory d)) (ms_Signed (d_Memory d)) else 0))), m)).
Proof.
  intros Hat Hb Hk. apply (access_cases w m context d (fun out => r_Outcome out.2 = OutcomeRetired /\ out.1 = _)); [done|].
  intros Hf Hn. destruct (stepBody_load w m context d Hat Hk Hf Hn) as (r & Ho & E). rewrite (Step_body _ _ _ _ _ _ E). split; [done|].
  cbn [fst]. do 3 f_equal. apply quad_ext. intros l Hl. rewrite !qget_qmake by done. destruct (LaneMask_Active _ l); [|done].
  apply load_reference_code; [done|]. by eapply am_width.
Qed.

(** C27: a store executed by [Step] over any byte memory: when the active lanes store
    to different addresses, each of their bytes is the byte of the lane's operand,
    every other byte of memory is unchanged and the PC advances; when two active
    lanes store to the same address the owner refuses the batch, every active lane
    faults, and neither memory nor the warp changes; a misaligned or out-of-range
    lane faults likewise. *)
Theorem Step_store w m context d :
  at_memory w m context d -> ms_Kind (d_Memory d) = MemoryStore ->
  let input := memory_input w d context in
  let active := active_lanes (w_activeMask w) in
  let width := ms_Bytes (d_Memory d) in
  let out := Step memory_warp w m context in
  access_outcome w m context d out
    (if bool_decide (NoDup (map (lane_address d input) active)) then
       r_Outcome out.2 = OutcomeRetired /\ out.1.1 = set_pc (u32 (w_pc w + 4)) w /\
       (forall l i, l ∈ active -> 0 <= i < width ->
        svc_byte out.1.2 (lane_address d input l + i) = qget (ii_RS2 input) l / 2 ^ (8 * i) mod 2 ^ 8) /\
       (forall a, 0 <= a -> (forall l, l ∈ active -> ~ lane_address d input l <= a < lane_address d input l + width) ->
        svc_byte out.1.2 a = svc_byte m a)
     else out.1 = (w, m) /\ exists e, r_Fault out.2 = Some (mkFault FaultArchitectural (w_pc w) [e] (map (access_fault d input) active))).
Proof.
  intros Hat Hk input active width.
  apply (access_cases w m context d (fun out => if bool_decide (NoDup (map (lane_address d input) active)) then _ else _)); [done|].
  intros Hf Hn. destruct (stepBody_store w m context d Hat Hk Hf Hn) as [Hgood Hbad]. pose proof (am_width w m context d Hat) as Hw. fold width in Hw.
  fold input in Hgood, Hbad. fold active in Hgood, Hbad.
  destruct (bool_decide_reflect (NoDup (map (lane_address d input) active))) as [Hd|Hd].
  - destruct (Hgood Hd) as (m' & r & Ho & E & Hin & Hout). rewrite (Step_body _ _ _ _ _ _ E). split_and!; [done|done|..]; cbn [fst snd].
    + intros l i Hl Hi. rewrite (Hin (store_write (lane_store d input l))); unfold store_write, lane_store, covers, write_end; cbn [stx_address stx_after fst snd].
      * fold width. replace (_ + i - _) with i by lia. unfold byte_of, PutUint. rewrite list_lookup_fmap.
        rewrite lookup_seq_lt by (destruct Hw as [-> | [-> | ->]]; lia). cbn. unfold u8. rewrite Z2Nat.id by lia. by rewrite Z.shiftr_div_pow2 by lia.
      * rewrite map_map. apply list_elem_of_fmap. by exists l.
      * rewrite PutUint_length. fold width. rewrite Z2Nat.id by (destruct Hw as [-> | [-> | ->]]; lia). lia.
    + intros a Ha Hc. apply Hout; [done|]. intros v. rewrite map_map. intros (l & -> & Hl)%list_elem_of_fmap.
      unfold store_write, lane_store, covers, write_end; cbn [stx_address stx_after fst snd]. rewrite PutUint_length. fold width.
      rewrite Z2Nat.id by (destruct Hw as [-> | [-> | ->]]; lia). by apply Hc.
  - destruct (Hbad Hd) as (r & e & E & Hr). rewrite (Step_body _ _ _ _ _ _ E). split; [done|]. by exists e.
Qed.
End MemorySteps.

(** "lb x6, 4(x0)" and "sb x0, 4(x0)" on lane 2, with 0x85 at address 4. *)
Definition lane_start : WarpState := set_mask 4 WarpRunning example_start.
Definition load_image : Memory := mkMemory (PutUint 4 0x00400303 ++ [0x85; 7; 0; 0]).
Definition store_image : Memory := mkMemory (PutUint 4 0x00000223 ++ [0x85; 7; 0; 0]).

Lemma lane_start_wf : warp_wf lane_start.
Proof.
  apply set_mask_wf; [apply set_pc_wf; [apply example_warp_wf|by split; vm_compute]|by vm_compute|by left].
Qed.

Lemma load_image_bytes a : is_u8 (svc_byte load_image a).
Proof.
  cbn [svc_byte Memory_laws]. unfold byte_of. destruct (_ !! Z.to_nat a) as [v|] eqn:E; [|by vm_compute].
  apply list_elem_of_lookup_2 in E. revert v E. apply Forall_forall. unfold load_image. cbn [m_data]. repeat constructor; by vm_compute.
Qed.

(** Evaluate the case analysis of [access_outcome] on a concrete step. *)
Ltac evaluate_cases H :=
  repeat lazymatch type of H with
  | match ?x with _ => _ end => let v := eval vm_compute in x in change x with v in H; cbv iota in H
  end.

Example Step_load_witness :
  exists r, Step memory_warp lane_start load_image example_context =
    (set_pc 4 (WriteRegister lane_start (mkRegister Integer 6) 4 (Quad 0 0 0xffffff85 0)).1, load_image, r) /\ r_Outcome r = OutcomeRetired.
Proof.
  destruct (Decode 0x00400303) as [d|] eqn:Ed; [|vm_compute in Ed; discriminate]. pose proof Ed as Ed'. vm_compute in Ed'. apply Ok_inj in Ed'.
  assert (at_memory lane_start load_image example_context d) as Hat
    by (split; [apply lane_start_wf|by vm_compute|done|exists (PutUint 4 0x00400303); by split|subst d; by left|by subst d|reflexivity]).
  pose proof (Step_load lane_start load_image example_context d Hat load_image_bytes ltac:(by subst d)) as H. clear Hat. subst d.
  cbv zeta in H. unfold access_outcome in H. cbv zeta in H. evaluate_cases H. destruct H as [Ho E].
  destruct (Step memory_warp lane_start load_image example_context) as [[w' m'] r]. exists r. split; [|exact Ho].
  cbn [fst] in E. injection E as -> ->. vm_compute. reflexivity.
Defined.

Example Step_store_witness :
  exists r m', Step memory_warp lane_start store_image example_context = (set_pc 4 lane_start, m', r) /\
  r_Outcome r = OutcomeRetired /\ svc_byte m' 4 = 0 /\ svc_byte m' 5 = 7.
Proof.
  destruct (Decode 0x00000223) as [d|] eqn:Ed; [|vm_compute in Ed; discriminate]. pose proof Ed as Ed'. vm_compute in Ed'. apply Ok_inj in Ed'.
  assert (at_memory lane_start store_image example_context d) as Hat
    by (split; [apply lane_start_wf|by vm_compute|done|exists (PutUint 4 0x00000223); by split|subst d; by right|by subst d|reflexivity]).
  pose proof (Step_store lane_start store_image example_context d Hat ltac:(by subst d)) as H. clear Hat. subst d.
  cbv zeta in H. unfold access_outcome in H. cbv zeta in H. evaluate_cases H. destruct H as (Ho & Hw & Hin & Hout).
  destruct (Step memory_warp lane_start store_image example_context) as [[w' m'] r]. cbn [fst snd] in *. exists r, m'. split_and!.
  - by rewrite Hw.
  - done.
  - specialize (Hin 2 0). apply Hin; [by vm_compute; constructor|by vm_compute].
  - rewrite Hout; [reflexivity|lia|]. intros l Hl. vm_compute in Hl. apply list_elem_of_singleton in Hl as ->. vm_compute. intros [_ Hx]. discriminate Hx.
Defined.
