(* ===== verification/WarpRun.v ===== *)
(** * Bounded execution of a warp

    [Run] terminates within its budget, keeps the invariants, and is iterated
    [Step]: the abstract machine [retiring] takes the retired steps one by one, and
    the run stops at the first step that does not retire. *)

From S2P Require Import Prelude IsaTypes Catalog Decode Integer System Custom Softfloat Float.
From S2P Require Import Memory WarpState Apply ApplyInvariant View EvaluateTyped Agreement WarpExec WarpCorrect.

#[local] Open Scope Z_scope.
#[local] Open Scope go_scope.

Section Run.
Context {L : SoftFloatLib} {X : Type} (services : Warp X) (context : Z -> ReadContext).

(** [n] retired steps from attempt [k] on, with what they recorded. *)
Inductive retiring : Z -> WarpState * X -> nat -> list TraceRecord -> WarpState * X -> Prop :=
| retiring_here k s : retiring k s 0 [] s
| retiring_step k w x w' x' r n trace s :
    Step services w x (context k) = (w', x', r) -> r_Outcome r = OutcomeRetired ->
    retiring (k + 1) (w', x') n trace s ->
    retiring k (w, x) (S n) (mkTraceRecord k r :: trace) s.

(** How the loop may end from attempt [k] with [turns] left. *)
Definition run_ends (budget : Z) (turns : nat) (k retired : Z) (w : WarpState) (x : X) (last : option Result) (trace : list TraceRecord)
    (out : WarpState * X * RunResult * list TraceRecord) : Prop :=
  exists n mid steps, retiring k (w, x) n steps mid /\
  ((n = turns /\ out = (mid.1, mid.2,
      mkRunResult RunBudgetExceeded (k + Z.of_nat n) (retired + Z.of_nat n)
        (match List.rev steps with [] => last | t :: _ => Some (tr_Result t) end) (Some (BudgetExceededError budget)), trace ++ steps)) \/
   ((n < turns)%nat /\ exists w' x' r, Step services mid.1 mid.2 (context (k + Z.of_nat n)) = (w', x', r) /\ r_Outcome r <> OutcomeRetired /\
    out = (w', x', mkRunResult (stop_outcome (r_Outcome r)) (k + Z.of_nat n + 1) (retired + Z.of_nat n) (Some r) (StepError <$> r_Fault r),
           trace ++ steps ++ [mkTraceRecord (k + Z.of_nat n) r]))).

Lemma runLoop_ends budget turns w x k retired last trace :
  run_ends budget turns k retired w x last trace (runLoop services budget turns context w x k retired last trace).
Proof.
  revert w x k retired last trace. induction turns as [|turns IH]; intros w x k retired last trace; cbn [runLoop].
  - exists 0%nat, (w, x), []. split; [constructor|]. left. split; [done|]. cbn. by rewrite !Z.add_0_r, app_nil_r.
  - destruct (Step services w x (context k)) as [[w' x'] r] eqn:Es.
    assert (r_Outcome r <> OutcomeRetired ->
      run_ends budget (S turns) k retired w x last trace
        (w', x', mkRunResult (stop_outcome (r_Outcome r)) (k + 1) retired (Some r) (StepError <$> r_Fault r), trace ++ [mkTraceRecord k r])) as Hstop.
    { intros Hr. exists 0%nat, (w, x), []. split; [constructor|]. right. split; [lia|]. exists w', x', r. cbn [fst snd Z.of_nat app].
      rewrite !Z.add_0_r. done. }
    destruct (r_Outcome r) eqn:Eo; try (by apply Hstop). clear Hstop.
    destruct (IH w' x' (k + 1) (retired + 1) (Some r) (trace ++ [mkTraceRecord k r])) as (n & mid & steps & Hm & Hout).
    exists (S n), mid, (mkTraceRecord k r :: steps). split; [by econstructor|].
    replace (k + Z.of_nat (S n)) with (k + 1 + Z.of_nat n) by lia. replace (retired + Z.of_nat (S n)) with (retired + 1 + Z.of_nat n) by lia.
    destruct Hout as [[-> ->]|(Hlt & w2 & x2 & r2 & Hs & Hr & ->)]; [left|right].
    + split; [done|]. rewrite <- app_assoc. cbn [app List.rev]. do 3 f_equal. by destruct (List.rev steps).
    + split; [lia|]. exists w2, x2, r2. split_and!; [done|done|]. by rewrite <- app_assoc.
Qed.

(** C19: [Run] is a terminating refinement of iterated [Step].  It makes at most
    [budget] attempts, each recorded in order; it stops at the first step that does
    not retire, with that step's outcome and error, and otherwise exhausts the budget
    with the typed budget error, every attempt having retired. *)
Theorem Run_refines budget w x :
  0 <= budget ->
  exists n mid steps, retiring 0 (w, x) n steps mid /\
  let out := Run services budget context w x in
  ((Z.of_nat n = budget /\ out.1.1 = mid /\ out.2 = steps /\
    rr_Outcome out.1.2 = RunBudgetExceeded /\ rr_Attempts out.1.2 = budget /\ rr_Retired out.1.2 = budget /\
    rr_Err out.1.2 = Some (BudgetExceededError budget)) \/
   (Z.of_nat n < budget /\ exists r, Step services mid.1 mid.2 (context (Z.of_nat n)) = (out.1.1.1, out.1.1.2, r) /\
    r_Outcome r <> OutcomeRetired /\ out.2 = steps ++ [mkTraceRecord (Z.of_nat n) r] /\
    out.1.2 = mkRunResult (stop_outcome (r_Outcome r)) (Z.of_nat n + 1) (Z.of_nat n) (Some r) (StepError <$> r_Fault r))).
Proof.
  intros Hb. destruct (runLoop_ends budget (Z.to_nat budget) w x 0 0 None []) as (n & mid & steps & Hm & Hout).
  exists n, mid, steps. split; [done|]. unfold Run. cbv zeta.
  destruct Hout as [[-> ->]|(Hlt & w' & x' & r & Hs & Hr & ->)]; [left|right]; cbn [fst snd rr_Outcome rr_Attempts rr_Retired rr_Err app].
  - destruct mid. rewrite !Z2Nat.id by done. done.
  - split; [lia|]. exists r. done.
Qed.

(** Runs compose: a run of [a + b] is a run of [a], continued when its budget was
    exhausted. *)
Lemma runLoop_app budget budget' turns turns' w x k retired last trace :
  runLoop services budget (turns + turns') context w x k retired last trace =
  match runLoop services budget' turns context w x k retired last trace with
  | (w', x', mkRunResult RunBudgetExceeded attempts retired' last' _, trace') =>
      runLoop services budget turns' context w' x' attempts retired' last' trace'
  | out => out
  end.
Proof.
  revert w x k retired last trace. induction turns as [|turns IH]; intros w x k retired last trace; cbn [Nat.add runLoop]; [done|].
  destruct (Step services w x (context k)) as [[w' x'] r]. destruct (r_Outcome r) eqn:Eo; cbn [stop_outcome]; [apply IH|done..].
Qed.
End Run.

Section RunMemory.
Context {L : SoftFloatLib} {HL : SoftFloatLaws L} {M : Type} `{HM : MemoryLaws M}.

Lemma retiring_wf context k w m n steps s :
  (forall k, context_typed (context k)) -> warp_wf w -> svc_wf m ->
  retiring (memory_warp (M := M)) context k (w, m) n steps s -> warp_wf s.1 /\ svc_wf s.2 /\ svc_size s.2 = svc_size m.
Proof.
  intros Hc Hw Hm Hr. remember (w, m) as s0 eqn:E0. revert w m Hw Hm E0.
  induction Hr as [k s|k w x w' x' r n trace s Hs Ho Hrest IH]; intros w0 m0 Hw Hm E0; [by subst s|]. injection E0 as -> ->.
  destruct (Step_wf w0 m0 (context k) Hw Hm (Hc k)) as (Hw' & Hm' & Hz). rewrite Hs in *. cbn [fst snd] in *.
  destruct (IH w' x' Hw' Hm' eq_refl) as (? & ? & ?). split_and!; [done|done|]. by rewrite <- Hz.
Qed.

(** Whatever program is in memory, a bounded run of a well-formed warp ends in
    a well-formed warp and memory of the same size. *)
Theorem Run_preserves_wf budget context w m :
  0 <= budget -> (forall k, context_typed (context k)) -> warp_wf w -> svc_wf m ->
  let out := Run memory_warp budget context w m in
  warp_wf out.1.1.1 /\ svc_wf out.1.1.2 /\ svc_size out.1.1.2 = svc_size m.
Proof.
  intros Hb Hc Hw Hm. destruct (runLoop_ends memory_warp context budget (Z.to_nat budget) w m 0 0 None []) as (n & mid & steps & Hr & Hout).
  apply retiring_wf in Hr as (Hw' & Hm' & Hz); [|done..]. unfold Run. cbv zeta.
  destruct Hout as [[-> ->]|(_ & w' & x' & r & Hs & _ & ->)]; cbn [fst snd]; [done|].
  destruct (Step_wf mid.1 mid.2 (context (0 + Z.of_nat n)) Hw' Hm' (Hc _)) as (? & ? & ?). rewrite Hs in *. cbn [fst snd] in *.
  split_and!; [done|done|]. by rewrite <- Hz.
Qed.
End RunMemory.

(** Four no-ops and a word that does not decode. *)
Definition run_image : Memory := mkMemory (PutUint 4 0x00000013 ++ PutUint 4 0x00100293 ++ PutUint 4 0).

Example Run_refines_witness :
  exists n mid steps, retiring memory_warp (fun _ => example_context) 0 (example_start, run_image) n steps mid /\ n = 2%nat /\
  rr_Outcome (Run memory_warp 5 (fun _ => example_context) example_start run_image).1.2 = RunFault.
Proof.
  destruct (Run_refines memory_warp (fun _ => example_context) 5 example_start run_image ltac:(lia)) as (n & mid & steps & Hr & Hout).
  exists n, mid, steps. split; [done|]. split; [|vm_compute; reflexivity].
  assert (rr_Retired (Run memory_warp 5 (fun _ => example_context) example_start run_image).1.2 = 2) as E by (vm_compute; reflexivity).
  cbv zeta in Hout. destruct Hout as [(_ & _ & _ & _ & _ & H & _)|(_ & r & _ & _ & _ & H)]; rewrite H in E; cbn in E; [discriminate|lia].
Defined.

Example Run_preserves_wf_witness : warp_wf (Run memory_warp 5 (fun _ => example_context) example_start run_image).1.1.1.
Proof.
  apply (Run_preserves_wf 5 (fun _ => example_context) example_start run_image); [lia| | |by vm_compute].
  - intros _. apply example_context_typed.
  - apply example_start_wf.
Defined.
