(* ===== verification/Cta.v ===== *)
(** * The CTA owner (src/emu/core/cta.go)

    [CTAManager] is the one writable owner of the resident CTAs: their metadata and
    membership, the warp-to-CTA table, the local-memory descriptors and the physical
    local-memory bytes.  The barrier coordinator of a manager is reached only through
    it and keeps a pointer back to it, so its records are a field of the manager
    here ([None] is the nil coordinator).

    A Go map is a [gmap]; where the code iterates one, [map_to_list] gives the order
    and the results are shown not to depend on it.  Locks only serialise.  A [[3]uint32]
    is a triple and [for axis := range 3] a fold over [axes]. *)

From S2P Require Import Prelude IsaTypes Integer System Memory WarpExec.

#[local] Open Scope Z_scope.
#[local] Open Scope go_scope.

Definition frozenMemoryBlockSize : Z := 64.

Definition ErrLocalMemoryRange : error := Errorf "core: local-memory access outside CTA allocation".
Definition ErrMemoryCrossing : error := Errorf "core: access crosses the frozen local-memory window".
Definition ErrCTAResourcesUnavailable : error := Errorf "core: CTA resources temporarily unavailable".

Definition triple : Type := Z * Z * Z.
Definition axis3 {A} (t : A * A * A) (axis : Z) : A :=
  if axis =? 0 then t.1.1 else if axis =? 1 then t.1.2 else t.2.
Definition axes : list Z := [0; 1; 2].

(** ** Data *)

Record CTAConfig := mkCTAConfig {
  cc_ID : Z;
  cc_WarpIDs : list Z;
  cc_StartupPC : Z;
  cc_BlockID : triple;
  cc_BlockDimensions : triple;
  cc_GridDimensions : triple;
  cc_BlockSize : Z;
  cc_WarpStep : triple;
  cc_Entry : Z;
  cc_ParameterAddress : Z;
  cc_LocalMemorySize : Z;
  cc_ClusterDimensions : triple;
  cc_ClusterSize : Z;
  cc_IsFirstOfCluster : bool
}.

Record LocalMemoryAllocation := mkLocalMemoryAllocation { la_Address : Z; la_Size : Z }.

Record WarpMembership := mkWarpMembership {
  wmb_WarpID : Z;
  wmb_Rank : Z;
  wmb_ActiveMask : LaneMask;
  wmb_ThreadCoordinates : LaneValues * LaneValues * LaneValues;
  wmb_Finished : bool
}.

Record CTASnapshot := mkCTASnapshot {
  cs_Config : CTAConfig;
  cs_LocalMemory : LocalMemoryAllocation;
  cs_Members : list WarpMembership
}.

Record ctaState := mkCtaState {
  ct_config : CTAConfig;
  ct_members : list WarpMembership;
  ct_allocation : LocalMemoryAllocation;
  ct_backingOffset : Z
}.

Record warpCTAKey := mkWarpCTAKey { wk_ctaID : Z; wk_rank : Z }.

Record BarrierKey := mkBarrierKey { bk_CTAID : Z; bk_AddressWarp : Z; bk_ID : Z }.

Record barrierRecord := mkBarrierRecord {
  br_arrivals : WarpMask;
  br_waiters : WarpMask;
  br_participantCount : Z;
  br_events : Z;
  br_phase : bool;
  br_arrivalsComplete : bool
}.

#[export] Instance BarrierKey_eq_dec : EqDecision BarrierKey. Proof. solve_decision. Defined.
#[export] Instance barrierRecord_eq_dec : EqDecision barrierRecord. Proof. solve_decision. Defined.
#[export] Instance warpCTAKey_eq_dec : EqDecision warpCTAKey. Proof. solve_decision. Defined.
#[export] Instance LocalMemoryAllocation_eq_dec : EqDecision LocalMemoryAllocation. Proof. solve_decision. Defined.
#[export] Instance WarpMembership_eq_dec : EqDecision WarpMembership. Proof. solve_decision. Defined.
#[export] Instance CTAConfig_eq_dec : EqDecision CTAConfig. Proof. solve_decision. Defined.
#[export] Instance ctaState_eq_dec : EqDecision ctaState. Proof. solve_decision. Defined.
#[export] Instance BarrierKey_countable : Countable BarrierKey.
Proof.
  apply (inj_countable' (fun k => (bk_CTAID k, bk_AddressWarp k, bk_ID k)) (fun '(a, b, c) => mkBarrierKey a b c)). by intros [].
Defined.

Record CTAManager := mkCTAManager {
  cm_ctas : gmap Z ctaState;
  cm_byWarp : quad (option warpCTAKey);
  cm_localMem : list Z;
  cm_sealed : bool;
  cm_dynamic : bool;
  cm_epoch : Z;
  cm_barriers : option (gmap BarrierKey barrierRecord)
}.

Definition set_ctas (v : gmap Z ctaState) (m : CTAManager) : CTAManager :=
  mkCTAManager v (cm_byWarp m) (cm_localMem m) (cm_sealed m) (cm_dynamic m) (cm_epoch m) (cm_barriers m).
Definition set_byWarp (v : quad (option warpCTAKey)) (m : CTAManager) : CTAManager :=
  mkCTAManager (cm_ctas m) v (cm_localMem m) (cm_sealed m) (cm_dynamic m) (cm_epoch m) (cm_barriers m).
Definition set_localMem (v : list Z) (m : CTAManager) : CTAManager :=
  mkCTAManager (cm_ctas m) (cm_byWarp m) v (cm_sealed m) (cm_dynamic m) (cm_epoch m) (cm_barriers m).
Definition set_sealed (v : bool) (m : CTAManager) : CTAManager :=
  mkCTAManager (cm_ctas m) (cm_byWarp m) (cm_localMem m) v (cm_dynamic m) (cm_epoch m) (cm_barriers m).
Definition set_barriers (v : option (gmap BarrierKey barrierRecord)) (m : CTAManager) : CTAManager :=
  mkCTAManager (cm_ctas m) (cm_byWarp m) (cm_localMem m) (cm_sealed m) (cm_dynamic m) (cm_epoch m) v.
Definition bump_epoch (m : CTAManager) : CTAManager :=
  mkCTAManager (cm_ctas m) (cm_byWarp m) (cm_localMem m) (cm_sealed m) (cm_dynamic m) (u64 (cm_epoch m + 1)) (cm_barriers m).

Definition NewCTAManager : CTAManager :=
  mkCTAManager ∅ (qfill None) (replicate (Z.to_nat FrozenLocalMemSize) 0) false false 0 None.
Definition NewDynamicCTAManager : CTAManager :=
  mkCTAManager ∅ (qfill None) (replicate (Z.to_nat FrozenLocalMemSize) 0) false true 0 None.

(** ** Configuration *)

Definition alignUp (value alignment : Z) : Z :=
  if value =? 0 then 0 else u32 (u32 (value + alignment) - 1) .&^ u32 (alignment - 1).

Definition threadCoordinates (rank : Z) (dimensions : triple) : LaneValues * LaneValues * LaneValues :=
  let linear lane := u32 (u32 (rank * FrozenLaneCount) + lane) in
  (qmake (fun lane => linear lane mod axis3 dimensions 0),
   qmake (fun lane => linear lane / axis3 dimensions 0 mod axis3 dimensions 1),
   qmake (fun lane => linear lane / axis3 dimensions 0 / axis3 dimensions 1)).

Definition advanceLaneCoordinate (previous dimensions : triple) : triple :=
  let bdx := axis3 dimensions 0 .& 15 in
  let bdy := axis3 dimensions 1 .& 15 in
  let nextX := u32 (axis3 previous 0 + 1) in
  let wrapX := nextX >=? bdx in
  let nextX := if wrapX then u32 (nextX - bdx) else nextX in
  let nextY := axis3 previous 1 in
  let nextY := if wrapX then u32 (nextY + 1) else nextY in
  let wrapY := wrapX && (nextY >=? bdy) in
  let nextY := if wrapY then u32 (nextY - bdy) else nextY in
  let nextZ := axis3 previous 2 in
  let nextZ := if wrapY then u32 (nextZ + 1) else nextZ in
  (nextX .& 15, nextY .& 15, nextZ .& 15).

Definition warpStepCoordinates (base dimensions : triple) : LaneValues * LaneValues * LaneValues :=
  let c0 := base in
  let c1 := advanceLaneCoordinate c0 dimensions in
  let c2 := advanceLaneCoordinate c1 dimensions in
  let c3 := advanceLaneCoordinate c2 dimensions in
  let lanes_of axis := Quad (axis3 c0 axis) (axis3 c1 axis) (axis3 c2 axis) (axis3 c3 axis) in
  (lanes_of 0, lanes_of 1, lanes_of 2).

Definition advanceWarpBase (previous dimensions step : triple) : triple :=
  let bdx := axis3 dimensions 0 .& 15 in
  let bdy := axis3 dimensions 1 .& 15 in
  let nextX := u32 (axis3 previous 0 + axis3 step 0) in
  let wrapX := nextX >=? bdx in
  let nextX := if wrapX then u32 (nextX - bdx) else nextX in
  let nextY := u32 (axis3 previous 1 + axis3 step 1) in
  let nextY := if wrapX then u32 (nextY + 1) else nextY in
  let wrapY := nextY >=? bdy in
  let nextY := if wrapY then u32 (nextY - bdy) else nextY in
  let nextZ := u32 (axis3 previous 2 + axis3 step 2) in
  let nextZ := if wrapY then u32 (nextZ + 1) else nextZ in
  (nextX .& 15, nextY .& 15, nextZ .& 15).

(** The per-axis loop: the validated dimensions and the thread count. *)
Definition configAxis (config : CTAConfig) (legacy : bool) (threads axis : Z) : result Z :=
  check negb ((axis3 (cc_BlockDimensions config) axis =? 0) || (axis3 (cc_GridDimensions config) axis =? 0))
    else Errorf "core: CTA has zero block/grid dimension" in
  check negb (axis3 (cc_BlockID config) axis >=? axis3 (cc_GridDimensions config) axis)
    else Errorf "core: CTA block id exceeds grid" in
  check negb (negb legacy && (axis3 (cc_BlockDimensions config) axis >? 31))
    else Errorf "core: CTA block dimension exceeds frozen field" in
  check negb (negb legacy && (axis3 (cc_WarpStep config) axis >? 15))
    else Errorf "core: CTA warp step exceeds frozen field" in
  let threads := u64 (threads * axis3 (cc_BlockDimensions config) axis) in
  check negb (legacy && (threads >? FrozenWarpCount * FrozenLaneCount))
    else Errorf "core: CTA block exceeds frozen core capacity" in
  Ok threads.

Definition clusterAxis (dimensions : triple) (product axis : Z) : result Z :=
  let dimension := axis3 dimensions axis in
  check negb ((dimension =? 0) || (dimension >? 7)) else Errorf "core: CTA cluster dimension is invalid" in
  Ok (u64 (product * dimension)).

(** The member loop: [seen] and the warp base are threaded through the ranks. *)
Definition member_mask (blockSize rank : Z) : LaneMask :=
  let remaining := u32 (blockSize - u32 (rank * FrozenLaneCount)) in
  if remaining <? FrozenLaneCount then u8 (u32 (u32 (1 << remaining) - 1)) else AllLanes.

Fixpoint configMembers (config : CTAConfig) (legacy : bool) (rank : Z) (seen : list Z) (warpBase : triple) (warpIDs : list Z) :
    result (list WarpMembership) :=
  match warpIDs with
  | [] => Ok []
  | warpID :: rest =>
      check negb (warpID >=? FrozenWarpCount) else Errorf "core: CTA member warp exceeds frozen topology" in
      check negb (bool_decide (warpID ∈ seen)) else Errorf "core: CTA repeats member warp" in
      let coordinates := if legacy then threadCoordinates (u32 rank) (cc_BlockDimensions config)
                         else warpStepCoordinates warpBase (cc_BlockDimensions config) in
      let member := mkWarpMembership warpID (u32 rank) (member_mask (cc_BlockSize config) (u32 rank)) coordinates false in
      let warpBase := if legacy then warpBase else advanceWarpBase warpBase (cc_BlockDimensions config) (cc_WarpStep config) in
      let? members := configMembers config legacy (rank + 1) (warpID :: seen) warpBase rest in
      Ok (member :: members)
  end.

Definition with_sizes (blockSize : Z) (cluster : triple) (localSize : Z) (c : CTAConfig) : CTAConfig :=
  mkCTAConfig (cc_ID c) (cc_WarpIDs c) (cc_StartupPC c) (cc_BlockID c) (cc_BlockDimensions c) (cc_GridDimensions c) blockSize
    (cc_WarpStep c) (cc_Entry c) (cc_ParameterAddress c) localSize cluster (cc_ClusterSize c) (cc_IsFirstOfCluster c).

Definition validateCTAConfig (config : CTAConfig) : result ctaState :=
  check negb (cc_ID config >=? FrozenWarpCount) else Errorf "core: CTA id exceeds frozen resident slots" in
  check negb ((length (cc_WarpIDs config) =? 0)%nat || (zlen (cc_WarpIDs config) >? FrozenWarpCount))
    else Errorf "core: CTA has invalid member count" in
  check cc_Entry config .& 3 =? 0 else Errorf "core: CTA entry is not four-byte aligned" in
  check cc_StartupPC config .& 3 =? 0 else Errorf "core: CTA startup PC is not four-byte aligned" in
  check negb ((cc_ClusterSize config =? 0) || (cc_ClusterSize config >? FrozenWarpCount)) else Errorf "core: CTA cluster size is invalid" in
  let legacy := cc_BlockSize config =? 0 in
  let? threads := foldM (configAxis config legacy) 1 axes in
  let? sized :=
    (if legacy then Ok (u32 threads, (1, 1, 1))
     else
       check negb (cc_BlockSize config >? FrozenWarpCount * FrozenLaneCount) else Errorf "core: CTA block size exceeds frozen core capacity" in
       let? clusterProduct := foldM (clusterAxis (cc_ClusterDimensions config)) 1 axes in
       check clusterProduct =? cc_ClusterSize config else Errorf "core: CTA cluster dimensions do not produce the cluster size" in
       Ok (cc_BlockSize config, cc_ClusterDimensions config)) in
  let '(blockSize, cluster) := sized in
  let requiredWarps := u64 (u64 (blockSize + FrozenLaneCount) - 1) / FrozenLaneCount in
  check requiredWarps =? zlen (cc_WarpIDs config) else Errorf "core: CTA dimensions require another number of warps" in
  check negb (cc_LocalMemorySize config >? FrozenLocalMemSize) else Errorf "core: CTA LMEM size exceeds frozen size" in
  let aligned := alignUp (cc_LocalMemorySize config) frozenMemoryBlockSize in
  check negb (aligned >? FrozenLocalMemSize) else Errorf "core: CTA aligned LMEM size exceeds frozen size" in
  let config := with_sizes blockSize cluster aligned config in
  let? members := configMembers config legacy 0 [] (0, 0, 0) (cc_WarpIDs config) in
  Ok (mkCtaState config members (mkLocalMemoryAllocation 0 0) 0).

(** ** Local-memory placement *)

(** [allocationInterval] as (start, end). *)
Definition allocationInterval : Type := Z * Z.

Definition resident_interval (c : ctaState) : allocationInterval :=
  (ct_backingOffset c, u32 (ct_backingOffset c + la_Size (ct_allocation c))).

Definition allocationIntervalsLocked (m : CTAManager) : list allocationInterval :=
  map (fun kc => resident_interval kc.2) (map_to_list (cm_ctas m)).

(** [sort.Slice] by start; the order of equal starts is left open by Go and is shown
    not to matter. *)
Fixpoint insert_interval (i : allocationInterval) (l : list allocationInterval) : list allocationInterval :=
  match l with
  | [] => [i]
  | j :: rest => if i.1 <=? j.1 then i :: l else j :: insert_interval i rest
  end.
Definition sort_intervals (l : list allocationInterval) : list allocationInterval := foldr insert_interval [] l.

(** The first-fit loop over the sorted intervals. *)
Fixpoint firstFit (size backingOffset : Z) (intervals : list allocationInterval) : Z :=
  match intervals with
  | [] => backingOffset
  | occupied :: rest =>
      if u64 (backingOffset + size) <=? occupied.1 then backingOffset
      else firstFit size (if occupied.2 >? backingOffset then occupied.2 else backingOffset) rest
  end.

Definition allocateFromIntervals (size : Z) (intervals : list allocationInterval) : result (LocalMemoryAllocation * Z) :=
  let backingOffset := firstFit size 0 (sort_intervals intervals) in
  check negb (u64 (backingOffset + size) >? FrozenLocalMemSize) else Errorf "core: no LMEM allocation remains" in
  Ok (mkLocalMemoryAllocation FrozenLocalMemBase size, backingOffset).

Definition allocateLocked (m : CTAManager) (size : Z) : result (LocalMemoryAllocation * Z) :=
  allocateFromIntervals size (allocationIntervalsLocked m).

(** ** Admission *)

Definition snapshotCTA (c : ctaState) : CTASnapshot := mkCTASnapshot (ct_config c) (ct_allocation c) (ct_members c).

Definition place (allocation : LocalMemoryAllocation) (backingOffset : Z) (c : ctaState) : ctaState :=
  mkCtaState (ct_config c) (ct_members c) allocation backingOffset.

(** [m.ctas[id] = candidate] and the warp table entries of its members. *)
Definition install (c : ctaState) (m : CTAManager) : CTAManager :=
  let id := cc_ID (ct_config c) in
  set_byWarp (fold_left (fun t member => qset t (wmb_WarpID member) (Some (mkWarpCTAKey id (wmb_Rank member)))) (ct_members c) (cm_byWarp m))
    (set_ctas (<[id := c]> (cm_ctas m)) m).

Definition member_free (m : CTAManager) (member : WarpMembership) : bool :=
  match qget (cm_byWarp m) (wmb_WarpID member) with None => true | Some _ => false end.

Definition CTAManager_Admit (m : CTAManager) (config : CTAConfig) : CTAManager * result CTASnapshot :=
  match validateCTAConfig config with
  | Err e => (m, Err e)
  | Ok candidate =>
      if cm_dynamic m then (m, Err (Errorf "core: dynamic CTA admission must be coordinated by Core"))
      else if cm_sealed m then (m, Err (Errorf "core: CTA manager is already attached and sealed"))
      else if bool_decide (is_Some (cm_ctas m !! cc_ID config)) then (m, Err (Errorf "core: CTA id is already resident"))
      else if negb (forallb (member_free m) (ct_members candidate)) then (m, Err (Errorf "core: warp already belongs to a CTA"))
      else
        match allocateLocked m (cc_LocalMemorySize (ct_config candidate)) with
        | Err e => (m, Err e)
        | Ok (allocation, backingOffset) =>
            let candidate := place allocation backingOffset candidate in
            (bump_epoch (install candidate m), Ok (snapshotCTA candidate))
        end
  end.

Definition seal (m : CTAManager) : CTAManager * result unit :=
  if (size (cm_ctas m) =? 0)%nat && negb (cm_dynamic m) then (m, Err (Errorf "core: cannot attach an empty CTA manager"))
  else (set_sealed true m, Ok tt).

Record ctaAdmissionStage := mkCtaAdmissionStage { as_epoch : Z; as_candidates : list ctaState }.

(** The member checks of one staged CTA; [staged] is [stagedWarps]. *)
Definition stageMember (m : CTAManager) (staged : WarpMask) (member : WarpMembership) : result WarpMask :=
  check member_free m member else ErrCTAResourcesUnavailable in
  check negb (WarpMask_Active staged (wmb_WarpID member)) else Errorf "core: dynamic CTA cluster repeats warp" in
  Ok (u8 (staged .| u8 (1 << wmb_WarpID member))).

Definition with_slot (id : Z) (warpIDs : list Z) (c : CTAConfig) : CTAConfig :=
  mkCTAConfig id warpIDs (cc_StartupPC c) (cc_BlockID c) (cc_BlockDimensions c) (cc_GridDimensions c) (cc_BlockSize c)
    (cc_WarpStep c) (cc_Entry c) (cc_ParameterAddress c) (cc_LocalMemorySize c) (cc_ClusterDimensions c) (cc_ClusterSize c)
    (cc_IsFirstOfCluster c).

(** One CTA of the cluster, given its free slot and its warps. *)
Definition stageCandidate (m : CTAManager) (acc : list ctaState * WarpMask * list allocationInterval) (entry : CTAConfig * list Z * Z) :
    result (list ctaState * WarpMask * list allocationInterval) :=
  let '(candidates, staged, intervals) := acc in
  let '(config, warpIDs, id) := entry in
  let? candidate := validateCTAConfig (with_slot id warpIDs config) in
  let? staged := foldM (stageMember m) staged (ct_members candidate) in
  match allocateFromIntervals (cc_LocalMemorySize (ct_config candidate)) intervals with
  | Err _ => Err ErrCTAResourcesUnavailable
  | Ok (allocation, backingOffset) =>
      Ok (candidates ++ [place allocation backingOffset candidate], staged,
          intervals ++ [(backingOffset, u32 (backingOffset + la_Size allocation))])
  end.

Definition freeCTAIDs (m : CTAManager) : list Z := List.filter (fun id => bool_decide (cm_ctas m !! id = None)) [0; 1; 2; 3].

Definition stageDynamicAdmissions (m : CTAManager) (configs : list CTAConfig) (warpIDs : list (list Z)) : result ctaAdmissionStage :=
  check negb ((length configs =? 0)%nat || negb (length configs =? length warpIDs)%nat)
    else Errorf "core: dynamic CTA cluster configs and warp sets differ" in
  check cm_dynamic m && cm_sealed m && bool_decide (is_Some (cm_barriers m))
    else Errorf "core: CTA manager is not attached for dynamic admission" in
  check negb (length (freeCTAIDs m) <? length configs)%nat else ErrCTAResourcesUnavailable in
  let? acc := foldM (stageCandidate m) ([], 0, allocationIntervalsLocked m) (zip (zip configs warpIDs) (freeCTAIDs m)) in
  Ok (mkCtaAdmissionStage (cm_epoch m) acc.1.1).

Definition candidate_free (m : CTAManager) (_ : unit) (c : ctaState) : result unit :=
  check bool_decide (cm_ctas m !! cc_ID (ct_config c) = None) else Errorf "core: CTA slot became occupied" in
  check forallb (member_free m) (ct_members c) else Errorf "core: warp became occupied" in
  Ok tt.

(** [ctaAdmissionStage.commit]: [external] is the canonical WarpState transition on
    its own state [Y]. *)
Definition admission_commit {Y} (m : CTAManager) (s : ctaAdmissionStage) (external : Y -> Y * result unit) (y : Y) :
    CTAManager * Y * result unit :=
  if (length (as_candidates s) =? 0)%nat then (m, y, Err (Errorf "core: nil dynamic CTA admission stage"))
  else if negb (cm_dynamic m) || negb (cm_sealed m) || (cm_epoch m <>? as_epoch s)
  then (m, y, Err (Errorf "core: dynamic CTA admission stage is stale"))
  else
    match foldM (candidate_free m) tt (as_candidates s) with
    | Err e => (m, y, Err e)
    | Ok _ =>
        match external y with
        | (y', Err e) => (m, y', Err e)
        | (y', Ok _) => (bump_epoch (fold_left (fun m c => install c m) (as_candidates s) m), y', Ok tt)
        end
    end.

(** ** Reclaim *)

Definition record_pending (r : barrierRecord) : bool :=
  (br_arrivals r <>? 0) || (br_waiters r <>? 0) || (br_participantCount r <>? 0) || (br_events r <>? 0) || br_arrivalsComplete r.

(** [pendingCTA] on the coordinator's records. *)
Definition pendingCTA (records : gmap BarrierKey barrierRecord) (ctaID : Z) : bool :=
  existsb (fun kr => (bk_CTAID kr.1 =? ctaID) && record_pending kr.2) (map_to_list records).

Definition drop_records (ctaID : Z) (records : gmap BarrierKey barrierRecord) : gmap BarrierKey barrierRecord :=
  filter (fun kr : BarrierKey * barrierRecord => bk_CTAID kr.1 <> ctaID) records.

Definition unbind (members : list WarpMembership) (t : quad (option warpCTAKey)) : quad (option warpCTAKey) :=
  fold_left (fun t member => qset t (wmb_WarpID member) None) members t.

Definition member_consistent (m : CTAManager) (ctaID : Z) (member : WarpMembership) : bool :=
  bool_decide (qget (cm_byWarp m) (wmb_WarpID member) = Some (mkWarpCTAKey ctaID (wmb_Rank member))).

Definition remove_cta (ctaID : Z) (members : list WarpMembership) (records : gmap BarrierKey barrierRecord) (m : CTAManager) : CTAManager :=
  bump_epoch (set_barriers (Some (drop_records ctaID records))
    (set_ctas (delete ctaID (cm_ctas m)) (set_byWarp (unbind members (cm_byWarp m)) m))).

Definition commitDynamicReclaim {Y} (m : CTAManager) (ctaID : Z) (external : list WarpMembership -> Y -> Y) (y : Y) :
    CTAManager * Y * result unit :=
  if negb (cm_dynamic m) || negb (cm_sealed m) then (m, y, Err (Errorf "core: CTA manager is not attached for dynamic reclaim"))
  else
    match cm_barriers m with
    | None => (m, y, Err (Errorf "core: CTA manager is not attached for dynamic reclaim"))
    | Some records =>
        match cm_ctas m !! ctaID with
        | None => (m, y, Err (Errorf "core: CTA is not resident"))
        | Some cta =>
            if pendingCTA records ctaID then (m, y, Err (Errorf "core: CTA retains pending barrier state"))
            else if negb (forallb (member_consistent m ctaID) (ct_members cta)) then (m, y, Err (Errorf "core: CTA membership changed before reclaim"))
            else (remove_cta ctaID (ct_members cta) records m, external (ct_members cta) y, Ok tt)
        end
    end.

(** ** Observations *)

Definition HasWarp (m : CTAManager) (warpID : Z) : bool :=
  if warpID >=? FrozenWarpCount then false else bool_decide (is_Some (qget (cm_byWarp m) warpID)).

Definition CTAManager_Snapshot (m : CTAManager) (ctaID : Z) : result CTASnapshot :=
  match cm_ctas m !! ctaID with
  | None => Err (Errorf "core: CTA is not resident")
  | Some cta => Ok (snapshotCTA cta)
  end.

(** The Core scheduler's lifecycle of a slot and why it is blocked (core.go). *)
Inductive SlotLifecycle := SlotInactive | SlotRunnable | SlotBlocked | SlotFinished.
Inductive BlockReason :=
| BlockNone | BlockExplicit | BlockPendingWork | BlockWarpSpawn | BlockBarrier | BlockExternalOwner | BlockFault.

#[export] Instance SlotLifecycle_eq_dec : EqDecision SlotLifecycle. Proof. solve_decision. Defined.
#[export] Instance BlockReason_eq_dec : EqDecision BlockReason. Proof. solve_decision. Defined.

Record ctaSchedulerView := mkCtaSchedulerView { csv_lifecycle : SlotLifecycle; csv_blockReason : BlockReason }.

Record CTACompletionMember := mkCTACompletionMember {
  cpm_WarpID : Z;
  cpm_OwnerFinished : bool;
  cpm_Lifecycle : SlotLifecycle;
  cpm_BlockReason : BlockReason
}.

Record CTACompletionSnapshot := mkCTACompletionSnapshot {
  cps_CTAID : Z;
  cps_Complete : bool;
  cps_PendingBarrier : bool;
  cps_BlockedMembers : WarpMask;
  cps_Members : list CTACompletionMember
}.

Definition cta_completion (m : CTAManager) (ctaID : Z) (scheduler : quad ctaSchedulerView) : result CTACompletionSnapshot :=
  match cm_ctas m !! ctaID with
  | None => Err (Errorf "core: CTA is not resident")
  | Some cta =>
      let members := ct_members cta in
      let view member := qget scheduler (wmb_WarpID member) in
      let allFinished := negb (length members =? 0)%nat &&
        forallb (fun member => wmb_Finished member && (csv_lifecycle (view member) ==. SlotFinished)) members in
      let blocked := fold_left (fun mask member =>
        if csv_lifecycle (view member) ==. SlotBlocked then u8 (mask .| u8 (1 << wmb_WarpID member)) else mask) members 0 in
      let pending := match cm_barriers m with Some records => pendingCTA records ctaID | None => false end in
      Ok (mkCTACompletionSnapshot ctaID (allFinished && (blocked =? 0) && negb pending) pending blocked
            (map (fun member => mkCTACompletionMember (wmb_WarpID member) (wmb_Finished member) (csv_lifecycle (view member))
                    (csv_blockReason (view member))) members))
  end.

Definition ViewForWarp (m : CTAManager) (warpID : Z) : result CTAView :=
  check negb (warpID >=? FrozenWarpCount) else Errorf "core: invalid CTA lookup warp" in
  match qget (cm_byWarp m) warpID with
  | None => Err (Errorf "core: warp has no CTA membership")
  | Some key =>
      match cm_ctas m !! wk_ctaID key with
      | None => Err (Errorf "core: warp CTA membership is inconsistent")
      | Some cta =>
          match List.find (fun c => (wmb_Rank c =? wk_rank key) && (wmb_WarpID c =? warpID)) (ct_members cta) with
          | None => Err (Errorf "core: warp CTA membership is inconsistent")
          | Some member =>
              let config := ct_config cta in
              Ok {| cta_ID := cc_ID config; cta_Rank := wmb_Rank member;
                    cta_Size := u32 (u32 (cc_BlockSize config + FrozenLaneCount) - 1) / FrozenLaneCount;
                    cta_ThreadCoordinates := wmb_ThreadCoordinates member; cta_BlockID := cc_BlockID config;
                    cta_BlockDimensions := cc_BlockDimensions config; cta_GridDimensions := cc_GridDimensions config;
                    cta_BlockSize := cc_BlockSize config; cta_WarpStep := cc_WarpStep config;
                    cta_ParameterAddress := cc_ParameterAddress config; cta_LocalMemoryAddress := la_Address (ct_allocation cta);
                    cta_ClusterDimensions := cc_ClusterDimensions config; cta_ClusterSize := cc_ClusterSize config;
                    cta_Entry := cc_Entry config |}
          end
      end
  end.

Definition members_mask (members : list WarpMembership) : WarpMask :=
  fold_left (fun mask member => u8 (mask .| u8 (1 << wmb_WarpID member))) members 0.

Definition ValidateSpawn (m : CTAManager) (sourceID : Z) (targets : WarpMask) : result unit :=
  check negb ((sourceID >=? FrozenWarpCount) || negb (WarpMask_Valid targets)) else Errorf "invalid source or target mask" in
  match qget (cm_byWarp m) sourceID with
  | None => Err (Errorf "source warp has no CTA")
  | Some source =>
      match cm_ctas m !! wk_ctaID source with
      | None => Err (GoPanic "nil pointer dereference")
      | Some cta =>
          check u8 (targets .| u8 (1 << sourceID)) =? members_mask (ct_members cta)
            else Errorf "source/target mask does not equal CTA membership" in
          check forallb (fun targetID =>
              (targets .& u8 (1 << targetID) =? 0) ||
              match qget (cm_byWarp m) targetID with Some target => wk_ctaID target =? wk_ctaID source | None => false end) [0; 1; 2; 3]
            else Errorf "target warp does not belong to source CTA" in
          Ok tt
      end
  end.

Definition finish_member (member : WarpMembership) : WarpMembership :=
  mkWarpMembership (wmb_WarpID member) (wmb_Rank member) (wmb_ActiveMask member) (wmb_ThreadCoordinates member) true.

Definition with_members (members : list WarpMembership) (c : ctaState) : ctaState :=
  mkCtaState (ct_config c) members (ct_allocation c) (ct_backingOffset c).

Definition observeWarpFinished (m : CTAManager) (warpID : Z) : CTAManager * result unit :=
  if warpID >=? FrozenWarpCount then (m, Err (Errorf "core: invalid finished warp"))
  else
    match qget (cm_byWarp m) warpID with
    | None => (m, Err (Errorf "core: finished warp has no CTA membership"))
    | Some key =>
        match cm_ctas m !! wk_ctaID key with
        | None => (m, Err (Errorf "core: finished warp has inconsistent CTA membership"))
        | Some cta =>
            match ct_members cta !! Z.to_nat (wk_rank key) with
            | Some member =>
                if wmb_WarpID member =? warpID then
                  (set_ctas (<[wk_ctaID key := with_members (<[Z.to_nat (wk_rank key) := finish_member member]> (ct_members cta)) cta]> (cm_ctas m)) m,
                   Ok tt)
                else (m, Err (Errorf "core: finished warp has inconsistent CTA membership"))
            | None => (m, Err (Errorf "core: finished warp has inconsistent CTA membership"))
            end
        end
    end.

(** ** Local memory *)

Inductive memoryRoute := routeGlobal | routeLocal.

Definition classifyMemoryRange (address length : Z) : result memoryRoute :=
  let start := address in
  let end_ := u64 (address + length) in
  check negb (end_ >? 1 << 32) else ErrMemoryCrossing in
  let localStart := FrozenLocalMemBase in
  let localEnd := u64 (localStart + FrozenLocalMemSize) in
  if length =? 0 then Ok (if (start >=? localStart) && (start <? localEnd) then routeLocal else routeGlobal)
  else
    let overlaps := (start <? localEnd) && (localStart <? end_) in
    let inside := (start >=? localStart) && (end_ <=? localEnd) in
    check negb (overlaps && negb inside) else ErrMemoryCrossing in
    Ok (if inside then routeLocal else routeGlobal).

Definition localRangeLocked (m : CTAManager) (warpID address length : Z) : result Z :=
  check negb (warpID >=? FrozenWarpCount) else ErrLocalMemoryRange in
  match qget (cm_byWarp m) warpID with
  | None => Err ErrLocalMemoryRange
  | Some key =>
      match cm_ctas m !! wk_ctaID key with
      | None => Err (GoPanic "nil pointer dereference")
      | Some cta =>
          let start := address in
          let end_ := u64 (start + length) in
          let allocStart := la_Address (ct_allocation cta) in
          let allocEnd := u64 (allocStart + la_Size (ct_allocation cta)) in
          check negb ((start <? allocStart) || (end_ >? allocEnd) || ((length <>? 0) && (start =? allocEnd))) else ErrLocalMemoryRange in
          Ok (u32 (u32 (ct_backingOffset cta + address) - la_Address (ct_allocation cta)))
      end
  end.

(** The slice [m.localMem[offset:offset+n]], which panics outside the array. *)
Definition local_slice (m : CTAManager) (offset n : Z) : result (list Z) :=
  check (offset <=? u32 (offset + n)) && (u32 (offset + n) <=? FrozenLocalMemSize) else GoPanic "slice bounds out of range" in
  Ok (slice (cm_localMem m) (Z.to_nat offset) (Z.to_nat n)).

(** [copy(m.localMem[offset:offset+n], source)] *)
Definition local_copy (m : CTAManager) (offset : Z) (source : list Z) : result CTAManager :=
  check (offset <=? u32 (offset + zlen source)) && (u32 (offset + zlen source) <=? FrozenLocalMemSize)
    else GoPanic "slice bounds out of range" in
  Ok (set_localMem (splice (cm_localMem m) (Z.to_nat offset) source) m).

Definition readLocal (m : CTAManager) (warpID address n : Z) : result (list Z) :=
  let? offset := localRangeLocked m warpID address n in local_slice m offset n.

Definition writeLocal (m : CTAManager) (warpID address : Z) (source : list Z) : CTAManager * result unit :=
  match (let? offset := localRangeLocked m warpID address (zlen source) in local_copy m offset source) with
  | Ok m' => (m', Ok tt)
  | Err e => (m, Err e)
  end.

(** The validation loop: the offsets, in order. *)
Fixpoint localOffsets (m : CTAManager) (warpID : Z) (previous : list (Z * Z)) (writes : list (Z * list Z)) : result (list Z) :=
  match writes with
  | [] => Ok []
  | (address, source) :: rest =>
      let? offset := localRangeLocked m warpID address (zlen source) in
      let start := address in
      let end_ := u64 (address + zlen source) in
      check bool_decide (overlap_index previous start end_ = None) else Errorf "core: overlapping local-memory batch entries" in
      let? offsets := localOffsets m warpID (previous ++ [(start, end_)]) rest in
      Ok (offset :: offsets)
  end.

(** The infallible copies. *)
Definition copyAll (m : CTAManager) (copies : list (Z * list Z)) : result CTAManager :=
  foldM (fun m c => local_copy m c.1 c.2) m copies.

(** [writeLocalWithExternal]: [external] is the all-or-error global batch. *)
Definition writeLocalWithExternal {Y} (m : CTAManager) (y : Y) (warpID : Z) (addresses : list Z) (sources : list (list Z))
    (external : option (Y -> Y * result unit)) : CTAManager * Y * result unit :=
  match localOffsets m warpID [] (zip addresses sources) with
  | Err e => (m, y, Err e)
  | Ok offsets =>
      let '(y', r) := match external with Some f => f y | None => (y, Ok tt) end in
      match r with
      | Err e => (m, y', Err e)
      | Ok _ =>
          match copyAll m (zip offsets sources) with
          | Ok m' => (m', y', Ok tt)
          | Err e => (m, y', Err e)
          end
      end
  end.

(** ** The CTA memory route

    [CTAMemory] for one warp, over the manager and a global byte owner [X]. *)
Section Route.
Context {X : Type} (global : DataService X) (warpID : Z).

Definition CTAMemory_Read (s : CTAManager * X) (address n : Z) : result (list Z) :=
  let? route := classifyMemoryRange address n in
  match route with
  | routeGlobal => dsv_Read global s.2 address n
  | routeLocal => readLocal s.1 warpID address n
  end.

Definition CTAMemory_Write (s : CTAManager * X) (address : Z) (source : list Z) : (CTAManager * X) * result unit :=
  match classifyMemoryRange address (zlen source) with
  | Err e => (s, Err e)
  | Ok routeGlobal => let '(x, r) := dsv_Write global s.2 address source in ((s.1, x), r)
  | Ok routeLocal => let '(m, r) := writeLocal s.1 warpID address source in ((m, s.2), r)
  end.

(** The routing loop of [WriteBatch]: the local and the global entries. *)
Definition routeEntry (acc : list (Z * list Z) * list (Z * list Z)) (entry : Z * list Z) :
    result (list (Z * list Z) * list (Z * list Z)) :=
  let? route := classifyMemoryRange entry.1 (zlen entry.2) in
  Ok (match route with routeLocal => (acc.1 ++ [entry], acc.2) | routeGlobal => (acc.1, acc.2 ++ [entry]) end).

Definition CTAMemory_WriteBatch (s : CTAManager * X) (addresses : list Z) (sources : list (list Z)) : (CTAManager * X) * result unit :=
  if negb (length addresses =? length sources)%nat then (s, Err (Errorf "core: atomic batch addresses and sources differ"))
  else
    match foldM routeEntry ([], []) (zip addresses sources) with
    | Err e => (s, Err e)
    | Ok (local, remote) =>
        if (length remote =? 0)%nat then
          let '(m, x, r) := writeLocalWithExternal s.1 s.2 warpID addresses sources None in ((m, x), r)
        else
          match dsv_WriteBatch global with
          | None => (s, Err (Errorf "core: global memory lacks atomic batch support"))
          | Some batch =>
              if (length local =? 0)%nat then let '(x, r) := batch s.2 (map fst remote) (map snd remote) in ((s.1, x), r)
              else
                let '(m, x, r) := writeLocalWithExternal s.1 s.2 warpID (map fst local) (map snd local)
                  (Some (fun x => batch x (map fst remote) (map snd remote))) in
                ((m, x), r)
          end
    end.

Definition CTAMemory : DataService (CTAManager * X) :=
  mkDataService CTAMemory_Read CTAMemory_Write (Some CTAMemory_WriteBatch) (Some warpID).
End Route.

Definition NewCTAMemory {X} (warpID : Z) (global : DataService X) : result (DataService (CTAManager * X)) :=
  check negb (warpID >=? FrozenWarpCount) else Errorf "core: CTA memory warp exceeds frozen topology" in
  Ok (CTAMemory global warpID).
