(* ===== verification/CtaInvariant.v ===== *)
(** * The CTA owner's invariant

    The warp table and the members of the resident CTAs describe the same
    membership, every resident block of local memory is inside the physical array
    and no two blocks overlap; every operation that changes residency keeps this. *)

From S2P Require Import Prelude IsaTypes Integer System Memory WarpExec Cta.

#[local] Open Scope Z_scope.
#[local] Open Scope go_scope.

(** ** First-fit placement of CTA local memory
    The allocator returns the lowest free offset, fails only when no offset is free,
    and does not depend on the order in which Go iterates the resident CTAs or sorts
    intervals with equal starts. *)

(** An interval the allocator placed: inside the physical local memory, and at its
    start when empty. *)
Definition interval_ok (i : allocationInterval) : Prop :=
  0 <= i.1 /\ i.1 <= i.2 /\ i.2 <= FrozenLocalMemSize /\ (i.1 = i.2 -> i.1 = 0).

(** A block of [size] bytes at [o] does not touch the interval (an empty block or an
    empty interval touches nothing). *)
Definition apart (o size : Z) (i : allocationInterval) : Prop := size = 0 \/ i.1 = i.2 \/ o + size <= i.1 \/ i.2 <= o.

(** [o] is free for [size] bytes. *)
Definition fits (size : Z) (intervals : list allocationInterval) (o : Z) : Prop :=
  0 <= o /\ o + size <= FrozenLocalMemSize /\ Forall (apart o size) intervals.

Definition sorted_starts (l : list allocationInterval) : Prop := ForallOrdPairs (fun i j => i.1 <= j.1) l.

Lemma insert_interval_perm i l : insert_interval i l ≡ₚ i :: l.
Proof.
  induction l as [|j l IH]; [done|]. cbn. destruct (i.1 <=? j.1); [done|]. rewrite IH. apply Permutation_swap.
Qed.

Lemma sort_intervals_perm l : sort_intervals l ≡ₚ l.
Proof. induction l as [|i l IH]; [done|]. cbn. by rewrite insert_interval_perm, IH. Qed.

Lemma insert_interval_sorted i l : sorted_starts l -> sorted_starts (insert_interval i l).
Proof.
  induction 1 as [|j l Hj Hl IH]; cbn; [by repeat constructor|]. destruct (Z.leb_spec i.1 j.1).
  - constructor; [|by constructor]. constructor; [done|]. rewrite List.Forall_forall in Hj |- *. intros k Hk. specialize (Hj k Hk). lia.
  - constructor; [|done]. rewrite List.Forall_forall in Hj |- *. intros k Hk%list_elem_of_In. rewrite insert_interval_perm in Hk.
    apply elem_of_cons in Hk as [->|Hk]; [lia|]. by apply Hj, list_elem_of_In.
Qed.

Lemma sort_intervals_sorted l : sorted_starts (sort_intervals l).
Proof. induction l as [|i l IH]; [constructor|]. by apply insert_interval_sorted. Qed.

Lemma Forall_perm {A} (P : A -> Prop) l l' : l ≡ₚ l' -> Forall P l -> Forall P l'.
Proof. intros Hp. by rewrite Hp. Qed.

(** The loop invariant: from an offset below every free one, the scan ends at the
    lowest offset that is apart from all the remaining intervals. *)
Lemma firstFit_spec size b l :
  0 <= size <= FrozenLocalMemSize -> 0 <= b <= FrozenLocalMemSize -> Forall interval_ok l -> sorted_starts l ->
  let r := firstFit size b l in
  b <= r <= FrozenLocalMemSize /\ Forall (apart r size) l /\
  (forall o, 0 < size -> b <= o -> Forall (apart o size) l -> r <= o).
Proof.
  intros Hs Hb Hok Hsort. revert b Hb. induction Hsort as [|i l Hi Hl IH]; intros b Hb; cbn [firstFit].
  { split_and!; [lia|lia|constructor|]. by intros. }
  apply Forall_cons in Hok as [(Hi0 & Hi1 & Hi2 & Hi3) Hok]. unfold FrozenLocalMemSize in *. change (1 << 14) with 16384 in *.
  unfold u64. rewrite (Z.mod_small (b + size)) by lia. destruct (Z.leb_spec (b + size) i.1) as [Hle|Hgt].
  - split_and!; [lia|lia| |by intros]. constructor; [right; right; by left|].
    apply Forall_forall. intros j Hj. rewrite List.Forall_forall in Hi. specialize (Hi j (proj1 (list_elem_of_In _ _) Hj)). cbn in Hi. right; right; left. lia.
  - assert (exists b', (if i.2 >? b then i.2 else b) = b' /\ b' = Z.max b i.2) as (b' & -> & Hb')
      by (eexists; split; [reflexivity|]; destruct (Z.ltb_spec b i.2); lia).
    destruct (IH Hok b' ltac:(lia)) as (Hr & Hap & Hmin). split_and!; [lia|lia| |].
    + constructor; [|done]. right; right; right. lia.
    + intros o Hpos Ho Hf. apply Forall_cons in Hf as [Hoi Hf]. apply Hmin; [done| |done]. destruct Hoi as [?|[?|[?|?]]]; lia.
Qed.

Lemma firstFit_zero l : Forall interval_ok l -> firstFit 0 0 l = 0.
Proof.
  destruct l as [|i l]; [done|]. intros [(Hi & _) _]%Forall_cons. cbn [firstFit]. unfold u64. rewrite Z.mod_small by lia.
  by destruct (Z.leb_spec (0 + 0) i.1); [|lia].
Qed.

(** The scan over two sorted arrangements of the same intervals. *)
Lemma firstFit_order size l l' :
  0 <= size <= FrozenLocalMemSize -> Forall interval_ok l -> sorted_starts l -> sorted_starts l' -> l ≡ₚ l' ->
  firstFit size 0 l = firstFit size 0 l'.
Proof.
  intros Hs Hok Hl Hl' Hp. assert (Forall interval_ok l') as Hok' by (by rewrite <- Hp).
  destruct (Z.eq_dec size 0) as [->|Hne]; [by rewrite !firstFit_zero|].
  destruct (firstFit_spec size 0 l) as (Hr & Ha & Hm); [done|by vm_compute|done|done|].
  destruct (firstFit_spec size 0 l') as (Hr' & Ha' & Hm'); [done|by vm_compute|done|done|].
  apply Z.le_antisymm; [apply Hm|apply Hm']; try lia; [by rewrite Hp|by rewrite <- Hp].
Qed.

(** The allocator on any list of placed intervals, in any order. *)
Lemma allocate_spec size intervals :
  0 <= size <= FrozenLocalMemSize -> Forall interval_ok intervals ->
  match allocateFromIntervals size intervals with
  | Ok (allocation, o) =>
      allocation = mkLocalMemoryAllocation FrozenLocalMemBase size /\ fits size intervals o /\ (size = 0 -> o = 0) /\
      (forall o', 0 < size -> fits size intervals o' -> o <= o')
  | Err _ => forall o, ~ fits size intervals o
  end.
Proof.
  intros Hs Hok. pose proof (sort_intervals_perm intervals) as Hp.
  destruct (firstFit_spec size 0 (sort_intervals intervals)) as (Hr & Ha & Hm);
    [done|by vm_compute|by rewrite Hp|apply sort_intervals_sorted|].
  pose proof (firstFit_zero (sort_intervals intervals)) as Hz.
  unfold allocateFromIntervals. set (r := firstFit size 0 (sort_intervals intervals)) in *.
  assert (u64 (r + size) = r + size) as E by (unfold u64; rewrite Z.mod_small; [done|]; unfold FrozenLocalMemSize in *; change (1 << 14) with 16384 in *; lia).
  rewrite E. destruct (Z.ltb_spec FrozenLocalMemSize (r + size)) as [Hgt|Hle]; cbn [negb].
  - intros o (Ho & Hle & Hf). assert (0 < size) by (destruct (Z.eq_dec size 0); lia).
    specialize (Hm o ltac:(lia) ltac:(lia)). rewrite Hp in Hm. specialize (Hm Hf). lia.
  - split; [done|]. rewrite Hp in Ha. split_and!; [split_and!; [lia|lia|done]|by intros ->; apply Hz; rewrite Hp|].
    intros o' Hpos (? & ? & Hf). apply Hm; [done|lia|by rewrite Hp].
Qed.

(** CTA local memory is placed first-fit: the allocator returns the lowest
    offset at which the block fits between the resident blocks and inside the 16 KiB
    array, it fails only when no such offset exists, and the answer does not depend
    on the iteration order of the resident CTAs nor on how intervals with equal
    starts are sorted. *)
Theorem first_fit size intervals :
  0 <= size <= FrozenLocalMemSize -> Forall interval_ok intervals ->
  match allocateFromIntervals size intervals with
  | Ok (allocation, o) =>
      allocation = mkLocalMemoryAllocation FrozenLocalMemBase size /\ fits size intervals o /\
      (forall o', 0 < size -> fits size intervals o' -> o <= o')
  | Err _ => forall o, ~ fits size intervals o
  end /\
  (forall intervals', intervals' ≡ₚ intervals -> allocateFromIntervals size intervals' = allocateFromIntervals size intervals) /\
  (forall sorted, sorted ≡ₚ intervals -> sorted_starts sorted -> firstFit size 0 sorted = firstFit size 0 (sort_intervals intervals)).
Proof.
  intros Hs Hok. split_and!.
  - pose proof (allocate_spec size intervals Hs Hok) as H. destruct (allocateFromIntervals size intervals) as [[a o]|]; [|done]. naive_solver.
  - intros l Hp. unfold allocateFromIntervals. erewrite firstFit_order; [done|done| |apply sort_intervals_sorted..|].
    + by rewrite sort_intervals_perm, Hp.
    + by rewrite !sort_intervals_perm.
  - intros l Hp Hl. apply firstFit_order; [done|by rewrite Hp|done|apply sort_intervals_sorted|]. by rewrite sort_intervals_perm.
Qed.

Example first_fit_witness :
  allocateFromIntervals 128 [(192, 256); (0, 64)] = Ok (mkLocalMemoryAllocation FrozenLocalMemBase 128, 64) /\
  fits 128 [(192, 256); (0, 64)] 64.
Proof.
  assert (allocateFromIntervals 128 [(192, 256); (0, 64)] = Ok (mkLocalMemoryAllocation FrozenLocalMemBase 128, 64)) as E by reflexivity.
  split; [exact E|]. destruct (first_fit 128 [(192, 256); (0, 64)]) as [H _]; [by vm_compute|by repeat constructor; vm_compute|].
  rewrite E in H. apply H.
Defined.


(** ** The invariant *)

Definition end_of (c : ctaState) : Z := ct_backingOffset c + la_Size (ct_allocation c).

(** The members of CTA [id], against the warp table. *)
Definition members_ok (t : quad (option warpCTAKey)) (id : Z) (ms : list WarpMembership) : Prop :=
  NoDup (map wmb_WarpID ms) /\
  Forall (fun mem => idx4 (wmb_WarpID mem) /\ qget t (wmb_WarpID mem) = Some (mkWarpCTAKey id (wmb_Rank mem))) ms.

(** A block of local memory: inside the array, seen through the window. *)
Definition block_ok (c : ctaState) : Prop :=
  0 <= ct_backingOffset c /\ 0 <= la_Size (ct_allocation c) /\ end_of c <= FrozenLocalMemSize /\
  FrozenLocalMemBase <= la_Address (ct_allocation c) /\
  la_Address (ct_allocation c) + la_Size (ct_allocation c) <= FrozenLocalMemBase + FrozenLocalMemSize.

Definition blocks_apart (c c' : ctaState) : Prop :=
  apart (ct_backingOffset c) (la_Size (ct_allocation c)) (ct_backingOffset c', end_of c').

Record cta_wf (m : CTAManager) : Prop := {
  cw_id : forall id c, cm_ctas m !! id = Some c -> cc_ID (ct_config c) = id /\ 0 <= id < 4;
  cw_members : forall id c, cm_ctas m !! id = Some c -> members_ok (cm_byWarp m) id (ct_members c);
  cw_table : forall w key, idx4 w -> qget (cm_byWarp m) w = Some key ->
    exists c mem, cm_ctas m !! wk_ctaID key = Some c /\ mem ∈ ct_members c /\ wmb_WarpID mem = w;
  cw_block : forall id c, cm_ctas m !! id = Some c -> block_ok c;
  cw_apart : forall id id' c c', id <> id' -> cm_ctas m !! id = Some c -> cm_ctas m !! id' = Some c' -> blocks_apart c c';
  cw_bytes : zlen (cm_localMem m) = FrozenLocalMemSize
}.

(** The placements of the allocator: an empty block sits at offset 0. *)
Definition packed (m : CTAManager) : Prop :=
  forall id c, cm_ctas m !! id = Some c -> la_Size (ct_allocation c) = 0 -> ct_backingOffset c = 0.

(** ** The warp table *)

Definition bind_members (id : Z) (ms : list WarpMembership) (t : quad (option warpCTAKey)) : quad (option warpCTAKey) :=
  fold_left (fun t member => qset t (wmb_WarpID member) (Some (mkWarpCTAKey id (wmb_Rank member)))) ms t.

Lemma bind_out id ms t w : Forall (fun mem => idx4 (wmb_WarpID mem)) ms -> idx4 w -> w ∉ map wmb_WarpID ms ->
  qget (bind_members id ms t) w = qget t w.
Proof.
  intros Hi Hw. unfold bind_members. revert t. induction Hi as [|x ms Hx Hi IH]; intros t Hn; [done|].
  cbn in Hn. apply not_elem_of_cons in Hn as [Hne Hn]. cbn [fold_left]. rewrite IH by done. by apply qget_qset_ne.
Qed.

Lemma bind_in id ms t mem : NoDup (map wmb_WarpID ms) -> Forall (fun mem => idx4 (wmb_WarpID mem)) ms -> mem ∈ ms ->
  qget (bind_members id ms t) (wmb_WarpID mem) = Some (mkWarpCTAKey id (wmb_Rank mem)).
Proof.
  intros Hd Hi. revert t Hd. induction Hi as [|x ms Hx Hi IH]; intros t Hd Hin; [by apply elem_of_nil in Hin|].
  cbn in Hd. apply NoDup_cons in Hd as [Hn Hd]. unfold bind_members in *. cbn [fold_left].
  apply elem_of_cons in Hin as [->|Hin]; [|by apply IH].
  etransitivity; [by apply (bind_out id ms)|]. by apply qget_qset_eq.
Qed.

Lemma unbind_out ms t w : Forall (fun mem => idx4 (wmb_WarpID mem)) ms -> idx4 w -> w ∉ map wmb_WarpID ms -> qget (unbind ms t) w = qget t w.
Proof.
  intros Hi Hw. unfold unbind. revert t. induction Hi as [|x ms Hx Hi IH]; intros t Hn; [done|].
  cbn in Hn. apply not_elem_of_cons in Hn as [Hne Hn]. cbn [fold_left]. rewrite IH by done. by apply qget_qset_ne.
Qed.

Lemma unbind_none ms t w : Forall (fun mem => idx4 (wmb_WarpID mem)) ms -> idx4 w -> qget t w = None -> qget (unbind ms t) w = None.
Proof.
  intros Hi Hw. unfold unbind. revert t. induction Hi as [|x ms Hx Hi IH]; intros t Hn; [done|].
  cbn [fold_left]. apply IH. destruct (Z.eq_dec w (wmb_WarpID x)) as [->|]; [by apply qget_qset_eq|by rewrite qget_qset_ne].
Qed.

Lemma unbind_in ms t w : Forall (fun mem => idx4 (wmb_WarpID mem)) ms -> w ∈ map wmb_WarpID ms -> qget (unbind ms t) w = None.
Proof.
  intros Hi. revert t. induction Hi as [|x ms Hx Hi IH]; intros t Hin; [by apply elem_of_nil in Hin|].
  cbn in Hin. unfold unbind in *. cbn [fold_left]. apply elem_of_cons in Hin as [->|Hin]; [|by apply IH].
  apply (unbind_none ms); [done|done|]. by apply qget_qset_eq.
Qed.

Lemma members_ok_idx t id ms : members_ok t id ms -> Forall (fun mem => idx4 (wmb_WarpID mem)) ms.
Proof. intros [_ H]. eapply Forall_impl; [exact H|]. by intros ? []. Qed.

(** A warp belongs to one CTA. *)
Lemma table_unique m id c mem : cta_wf m -> cm_ctas m !! id = Some c -> mem ∈ ct_members c ->
  idx4 (wmb_WarpID mem) /\ qget (cm_byWarp m) (wmb_WarpID mem) = Some (mkWarpCTAKey id (wmb_Rank mem)).
Proof. intros Hw Hc Hm. destruct (cw_members m Hw id c Hc) as [_ Hf]. rewrite Forall_forall in Hf. by apply Hf. Qed.

(** ** Installing and removing a CTA *)

(** A candidate that may become resident. *)
Record installable (m : CTAManager) (c : ctaState) : Prop := {
  in_id : 0 <= cc_ID (ct_config c) < 4;
  in_slot : cm_ctas m !! cc_ID (ct_config c) = None;
  in_distinct : NoDup (map wmb_WarpID (ct_members c));
  in_free : Forall (fun mem => idx4 (wmb_WarpID mem) /\ qget (cm_byWarp m) (wmb_WarpID mem) = None) (ct_members c);
  in_block : block_ok c;
  in_apart : forall id c', cm_ctas m !! id = Some c' -> blocks_apart c c'
}.

Lemma blocks_apart_sym c c' : blocks_apart c c' -> blocks_apart c' c.
Proof. unfold blocks_apart, apart, end_of. cbn [fst snd]. lia. Qed.

Lemma install_wf m c : cta_wf m -> installable m c -> cta_wf (install c m).
Proof.
  intros Hw Hc. set (id := cc_ID (ct_config c)).
  assert (Forall (fun mem => idx4 (wmb_WarpID mem)) (ct_members c)) as Hidx
    by (eapply Forall_impl; [apply (in_free m c Hc)|]; by intros ? []).
  assert (forall w, idx4 w -> w ∈ map wmb_WarpID (ct_members c) -> qget (cm_byWarp m) w = None) as Hfree.
  { intros w _ (mem & -> & Hm)%list_elem_of_fmap. pose proof (in_free m c Hc) as Hf. rewrite Forall_forall in Hf. by apply Hf. }
  split; cbn [install set_byWarp set_ctas cm_ctas cm_byWarp cm_localMem]; fold id; fold (bind_members id (ct_members c) (cm_byWarp m)).
  - intros id' c' [[<- <-]|[_ H]]%lookup_insert_Some; [split; [done|apply Hc]|by apply (cw_id m Hw)].
  - intros id' c' [[<- <-]|[Hne H]]%lookup_insert_Some.
    + split; [apply Hc|]. apply Forall_forall. intros mem Hm. split; [rewrite Forall_forall in Hidx; by apply Hidx|].
      apply bind_in; [apply Hc|done|done].
    + destruct (cw_members m Hw id' c' H) as [Hd Hf]. split; [done|]. apply Forall_forall. intros mem Hm. rewrite Forall_forall in Hf.
      destruct (Hf mem Hm) as [Hi Hq]. split; [done|]. rewrite bind_out; [done..|]. intros Hin. by rewrite (Hfree _ Hi Hin) in Hq.
  - intros w key Hi Hq. destruct (decide (w ∈ map wmb_WarpID (ct_members c))) as [Hin|Hout].
    + apply list_elem_of_fmap in Hin as (mem & -> & Hm). rewrite bind_in in Hq by (done || apply Hc). injection Hq as <-.
      exists c, mem. cbn. by rewrite lookup_insert_eq.
    + rewrite bind_out in Hq by done. destruct (cw_table m Hw w key Hi Hq) as (c' & mem & Hc' & Hm & Hid). exists c', mem. split_and!; [|done..].
      rewrite lookup_insert_ne; [done|]. intros E. pose proof (in_slot m c Hc) as Hs. fold id in Hs. congruence.
  - intros id' c' [[<- <-]|[_ H]]%lookup_insert_Some; [apply Hc|by apply (cw_block m Hw id')].
  - intros i j c1 c2 Hne [[<- <-]|[_ H1]]%lookup_insert_Some [[<- <-]|[_ H2]]%lookup_insert_Some; [done|..].
    + by apply (in_apart m c Hc j).
    + apply blocks_apart_sym. by apply (in_apart m c Hc i).
    + by apply (cw_apart m Hw i j).
  - apply Hw.
Qed.

Lemma remove_wf m id c records : cta_wf m -> cm_ctas m !! id = Some c -> cta_wf (remove_cta id (ct_members c) records m).
Proof.
  intros Hw Hc. pose proof (members_ok_idx _ _ _ (cw_members m Hw id c Hc)) as Hidx.
  split; cbn [remove_cta bump_epoch set_barriers set_byWarp set_ctas cm_ctas cm_byWarp cm_localMem].
  - intros i c' [_ H]%lookup_delete_Some. by apply (cw_id m Hw).
  - intros i c' [Hne H]%lookup_delete_Some. destruct (cw_members m Hw i c' H) as [Hd Hf]. split; [done|]. apply Forall_forall. intros mem Hm.
    rewrite Forall_forall in Hf. destruct (Hf mem Hm) as [Hi Hq]. split; [done|]. rewrite unbind_out; [done..|].
    intros (mem' & E & Hm')%list_elem_of_fmap. destruct (table_unique m id c mem' Hw Hc Hm') as [_ Hq']. rewrite <- E, Hq in Hq'. by injection Hq'.
  - intros w key Hi Hq. destruct (decide (w ∈ map wmb_WarpID (ct_members c))) as [Hin|Hout]; [by rewrite unbind_in in Hq|].
    rewrite unbind_out in Hq by done. destruct (cw_table m Hw w key Hi Hq) as (c' & mem & Hc' & Hm & Hid). exists c', mem. split_and!; [|done..].
    rewrite lookup_delete_ne; [done|]. intros E. rewrite <- E, Hc in Hc'. injection Hc' as <-. apply Hout. apply list_elem_of_fmap. by exists mem.
  - intros i c' [_ H]%lookup_delete_Some. by apply (cw_block m Hw i).
  - intros i j c1 c2 Hne [_ H1]%lookup_delete_Some [_ H2]%lookup_delete_Some. by apply (cw_apart m Hw i j).
  - apply Hw.
Qed.

(** ** Validated configurations *)

(** Pass a check that must have succeeded. *)
Ltac pass_check :=
  match goal with
  | |- (if ?b then _ else Err _) = Ok _ -> _ => destruct b eqn:?; [|discriminate]
  | H : (if ?b then _ else Err _) = Ok _ |- _ => destruct b eqn:?; [|discriminate H]
  end.

(** The unsigned fields of a configuration. *)
Record config_typed (c : CTAConfig) : Prop := {
  ctd_id : 0 <= cc_ID c;
  ctd_warps : Forall (fun w => 0 <= w) (cc_WarpIDs c);
  ctd_size : 0 <= cc_LocalMemorySize c
}.

Lemma configMembers_inv config legacy rank seen base ids ms :
  configMembers config legacy rank seen base ids = Ok ms ->
  map wmb_WarpID ms = ids /\ Forall (fun w => w < 4) ids /\ NoDup ids /\ Forall (fun w => w ∉ seen) ids /\
  map wmb_Rank ms = map (fun i => u32 (rank + Z.of_nat i)) (seq 0 (length ids)) /\ Forall (fun mem => wmb_Finished mem = false) ms.
Proof.
  revert rank seen base ms. induction ids as [|w ids IH]; intros rank seen base ms H; cbn [configMembers] in H.
  { apply Ok_inj in H as <-. split_and!; try constructor. }
  destruct (Z.leb_spec FrozenWarpCount w) as [|Hw]; [done|]. cbn [negb] in H.
  destruct (bool_decide_reflect (w ∈ seen)) as [|Hs]; [done|]. cbn [negb] in H.
  apply result_bind_ok in H as (ms' & (Hm & Hlt & Hd & Hseen & Hr & Hfin)%IH & <-%Ok_inj).
  rewrite Forall_forall in Hseen. split_and!.
  - cbn. by rewrite Hm.
  - by constructor.
  - constructor; [|done]. intros Hin. by apply (Hseen w Hin), list_elem_of_here.
  - constructor; [done|]. apply Forall_forall. intros x Hx Hin. by apply (Hseen x Hx), list_elem_of_further.
  - cbn [map length seq wmb_Rank]. rewrite Hr, <- seq_shift, map_map. f_equal; [f_equal; lia|]. apply map_ext. intros i. f_equal. lia.
  - by constructor.
Qed.

Lemma alignUp_block v : 0 <= v <= FrozenLocalMemSize -> v <= alignUp v 64 /\ alignUp v 64 mod 64 = 0.
Proof.
  intros Hv. unfold FrozenLocalMemSize in Hv. change (1 << 14) with 16384 in Hv. unfold alignUp. destruct (Z.eqb_spec v 0) as [->|Hne]; [done|].
  rewrite (u32_id (v + 64)), !u32_id by (unfold is_u32; lia). change (64 - 1) with (Z.ones 6). rewrite Z.ldiff_ones_r by lia.
  rewrite Z.shiftl_mul_pow2, Z.shiftr_div_pow2 by lia. change (2 ^ 6) with 64. rewrite Z.mod_mul by lia. split; [|done]. Z.div_mod_to_equations. lia.
Qed.

Record validated (config : CTAConfig) (c : ctaState) : Prop := {
  va_id : cc_ID (ct_config c) = cc_ID config /\ cc_ID config < 4;
  va_warps : map wmb_WarpID (ct_members c) = cc_WarpIDs config;
  va_distinct : NoDup (cc_WarpIDs config) /\ Forall (fun w => w < 4) (cc_WarpIDs config) /\ cc_WarpIDs config <> [];
  va_ranks : map wmb_Rank (ct_members c) = map Z.of_nat (seq 0 (length (ct_members c)));
  va_finished : Forall (fun mem => wmb_Finished mem = false) (ct_members c);
  va_size : cc_LocalMemorySize (ct_config c) = alignUp (cc_LocalMemorySize config) 64 /\
    cc_LocalMemorySize config <= FrozenLocalMemSize /\ cc_LocalMemorySize (ct_config c) <= FrozenLocalMemSize
}.

Lemma validate_inv config c : validateCTAConfig config = Ok c -> validated config c.
Proof.
  unfold validateCTAConfig. destruct (Z.leb_spec FrozenWarpCount (cc_ID config)) as [|Hid]; [done|]. cbn [negb].
  destruct (negb _) eqn:Hlen; [|done]. do 3 pass_check. cbv zeta. intros H. apply result_bind_ok in H as (threads & _ & H).
  apply result_bind_ok in H as ([blockSize cluster] & _ & H). pass_check.
  destruct (Z.ltb_spec FrozenLocalMemSize (cc_LocalMemorySize config)) as [|Hls]; [done|]. cbn [negb] in H.
  destruct (Z.ltb_spec FrozenLocalMemSize (alignUp (cc_LocalMemorySize config) frozenMemoryBlockSize)) as [|Hal]; [done|]. cbn [negb] in H.
  apply result_bind_ok in H as (ms & Hms & <-%Ok_inj). apply configMembers_inv in Hms as (Hm & Hlt & Hd & _ & Hr & Hf). cbn [with_sizes cc_WarpIDs] in *.
  apply negb_true_iff, orb_false_iff in Hlen as [Hne Hlen]. split; cbn [ct_config ct_members with_sizes cc_ID cc_LocalMemorySize].
  - done.
  - done.
  - split_and!; [done|done|]. intros E. by rewrite E in Hne.
  - rewrite Hr. rewrite <- Hm, length_map. apply map_ext_in. intros i Hi%in_seq. apply u32_id. unfold is_u32. apply Z.ltb_ge in Hlen.
    unfold zlen in Hlen. rewrite <- Hm, length_map in Hlen. change FrozenWarpCount with 4 in Hlen. lia.
  - done.
  - done.
Qed.

(** ** Admission *)

Lemma lmem_size : FrozenLocalMemSize = 16384. Proof. reflexivity. Qed.
Lemma lmem_base : FrozenLocalMemBase = 0xffff0000. Proof. reflexivity. Qed.

Lemma resident_interval_block c : block_ok c -> resident_interval c = (ct_backingOffset c, end_of c).
Proof.
  intros (? & ? & He & _). unfold resident_interval, end_of in *. rewrite lmem_size in He. by rewrite u32_id by (unfold is_u32; lia).
Qed.

Lemma interval_elem m i : i ∈ allocationIntervalsLocked m <-> exists id c, cm_ctas m !! id = Some c /\ i = resident_interval c.
Proof.
  unfold allocationIntervalsLocked. rewrite list_elem_of_fmap. split.
  - intros ([id c] & -> & H%elem_of_map_to_list). by exists id, c.
  - intros (id & c & H & ->). exists (id, c). split; [done|by apply elem_of_map_to_list].
Qed.

Lemma intervals_ok m : cta_wf m -> packed m -> Forall interval_ok (allocationIntervalsLocked m).
Proof.
  intros Hw Hp. apply Forall_forall. intros i (id & c & Hc & ->)%interval_elem. pose proof (cw_block m Hw id c Hc) as Hb.
  rewrite resident_interval_block by done. destruct Hb as (? & ? & ? & _). unfold interval_ok, end_of in *. cbn. split_and!; try lia.
  intros E. apply (Hp id c Hc). lia.
Qed.

Lemma placed_block config c0 intervals allocation o :
  config_typed config -> validated config c0 -> Forall interval_ok intervals ->
  allocateFromIntervals (cc_LocalMemorySize (ct_config c0)) intervals = Ok (allocation, o) ->
  let c := place allocation o c0 in
  block_ok c /\ Forall (apart o (la_Size (ct_allocation c))) intervals /\ (la_Size (ct_allocation c) = 0 -> o = 0) /\
  interval_ok (resident_interval c).
Proof.
  intros Ht Hv Hok Ha. destruct (va_size _ _ Hv) as (Hs & Hle & Hle'). pose proof (ctd_size _ Ht) as H0.
  destruct (alignUp_block (cc_LocalMemorySize config)) as [Hup _]; [lia|].
  pose proof (allocate_spec (cc_LocalMemorySize (ct_config c0)) intervals ltac:(lia) Hok) as H. rewrite Ha in H.
  destruct H as (-> & (Ho & Hend & Hap) & Hz & _). cbn [place ct_allocation la_Size ct_backingOffset la_Address].
  assert (block_ok (place (mkLocalMemoryAllocation FrozenLocalMemBase (cc_LocalMemorySize (ct_config c0))) o c0)) as Hb
    by (unfold block_ok, end_of; cbn [place ct_allocation la_Size ct_backingOffset la_Address]; rewrite ?lmem_size, ?lmem_base in *; lia).
  split_and!; [done|done|done|]. rewrite resident_interval_block by done. unfold interval_ok, end_of.
  cbn [place ct_allocation la_Size ct_backingOffset fst snd]. split_and!; lia.
Qed.

Lemma place_installable m config c0 allocation o :
  cta_wf m -> packed m -> config_typed config -> validated config c0 ->
  allocateFromIntervals (cc_LocalMemorySize (ct_config c0)) (allocationIntervalsLocked m) = Ok (allocation, o) ->
  cm_ctas m !! cc_ID config = None -> forallb (member_free m) (ct_members c0) = true ->
  installable m (place allocation o c0).
Proof.
  intros Hw Hp Ht Hv Ha Hslot Hfree. destruct (placed_block config c0 _ allocation o Ht Hv (intervals_ok m Hw Hp) Ha) as (Hb & Hap & _ & _).
  destruct (va_id _ _ Hv) as [Hid Hlt]. destruct (va_distinct _ _ Hv) as (Hd & Hw4 & _). rewrite <- (va_warps _ _ Hv) in Hd, Hw4.
  pose proof (ctd_warps _ Ht) as Hnn. rewrite <- (va_warps _ _ Hv) in Hnn. pose proof (ctd_id _ Ht).
  split; cbn [place ct_config ct_members]; [lia|by rewrite Hid|done| |done|].
  - apply Forall_forall. intros mem Hm. rewrite Forall_forall in Hw4. rewrite Forall_forall in Hnn.
    assert (wmb_WarpID mem ∈ map wmb_WarpID (ct_members c0)) as Hin by (apply list_elem_of_fmap; by exists mem). split.
    + apply idx4_range. split; [exact (Hnn _ Hin)|exact (Hw4 _ Hin)].
    + pose proof (forallb_elem _ _ Hfree mem Hm) as Hx. unfold member_free in Hx. by destruct (qget _ _).
  - intros id c' Hc'. unfold blocks_apart. rewrite <- resident_interval_block by by apply (cw_block m Hw id).
    rewrite Forall_forall in Hap. apply Hap. apply interval_elem. by exists id, c'.
Qed.

Lemma packed_install m c : packed m -> (la_Size (ct_allocation c) = 0 -> ct_backingOffset c = 0) -> packed (install c m).
Proof.
  intros Hp Hc id c' H. cbn [install set_byWarp set_ctas cm_ctas] in H. apply lookup_insert_Some in H as [[<- <-]|[_ H]]; [done|by apply (Hp id)].
Qed.

Lemma bump_wf m : cta_wf m -> cta_wf (bump_epoch m).
Proof. intros []. by split. Qed.

Lemma Admit_wf m config :
  cta_wf m -> packed m -> config_typed config -> cta_wf (CTAManager_Admit m config).1 /\ packed (CTAManager_Admit m config).1.
Proof.
  intros Hw Hp Ht. unfold CTAManager_Admit. destruct (validateCTAConfig config) as [c0|] eqn:Ev; [|done]. apply validate_inv in Ev as Hv.
  destruct (cm_dynamic m); [done|]. destruct (cm_sealed m); [done|].
  destruct (bool_decide_reflect (is_Some (cm_ctas m !! cc_ID config))) as [|Hs]; [done|]. apply eq_None_not_Some in Hs.
  destruct (forallb (member_free m) (ct_members c0)) eqn:Ef; [|done]. cbn [negb]. unfold allocateLocked.
  destruct (allocateFromIntervals _ _) as [[allocation o]|] eqn:Ea; [|done]. cbn [fst].
  pose proof (place_installable m config c0 allocation o Hw Hp Ht Hv Ea Hs Ef) as Hi.
  destruct (placed_block config c0 _ allocation o Ht Hv (intervals_ok m Hw Hp) Ea) as (_ & _ & Hz & _).
  split; [by apply bump_wf, install_wf|]. apply (packed_install m (place allocation o c0) Hp Hz).
Qed.

(** Candidates of one cluster do not compete. *)
Definition compatible (c c' : ctaState) : Prop :=
  cc_ID (ct_config c) <> cc_ID (ct_config c') /\
  (forall mem mem', mem ∈ ct_members c -> mem' ∈ ct_members c' -> wmb_WarpID mem <> wmb_WarpID mem') /\ blocks_apart c c'.

Record cluster_ok (m : CTAManager) (cs : list ctaState) : Prop := {
  ck_each : Forall (installable m) cs;
  ck_pairs : ForallOrdPairs compatible cs;
  ck_packed : Forall (fun c => la_Size (ct_allocation c) = 0 -> ct_backingOffset c = 0) cs
}.

Lemma install_next m c c' : installable m c -> installable m c' -> compatible c c' -> installable (install c m) c'.
Proof.
  intros Hc Hc' (Hid & Hwarp & Hap). destruct Hc' as [Hi Hs Hd Hf Hb Ha]. split; try done; cbn [install set_byWarp set_ctas cm_ctas cm_byWarp].
  - by rewrite lookup_insert_ne.
  - apply Forall_forall. intros mem Hm. rewrite Forall_forall in Hf. destruct (Hf mem Hm) as [Hx Hq]. split; [done|].
    rewrite <- Hq. apply bind_out; [|done|].
    + eapply Forall_impl; [apply (in_free m c Hc)|]. by intros ? [].
    + intros (mem' & E & Hm')%list_elem_of_fmap. by apply (Hwarp mem' mem).
  - intros id c2 [[<- <-]|[_ H]]%lookup_insert_Some; [by apply blocks_apart_sym|by apply (Ha id)].
Qed.

Lemma install_all_wf m cs : cta_wf m -> packed m -> cluster_ok m cs ->
  let m' := fold_left (fun m c => install c m) cs m in cta_wf m' /\ packed m'.
Proof.
  revert m. induction cs as [|c cs IH]; intros m Hw Hp [He Hpr Hk]; [done|]. cbn [fold_left].
  apply Forall_cons in He as [Hc He]. apply Forall_cons in Hk as [Hz Hk]. inversion Hpr as [|? ? Hcomp Hpr']; subst.
  apply IH; [by apply install_wf|by apply packed_install|]. split; [|done|done]. apply Forall_forall. intros c' Hc'.
  rewrite Forall_forall in He. rewrite List.Forall_forall in Hcomp. apply install_next; [done|by apply He|]. by apply Hcomp, list_elem_of_In.
Qed.

(** ** Staged clusters *)

Lemma WarpMask_Active_testbit mask w : idx4 w -> WarpMask_Active mask w = Z.testbit mask w.
Proof.
  intros Hw%idx4_range. unfold WarpMask_Active. change FrozenWarpCount with 4. destruct (Z.ltb_spec w 4); [|lia]. cbn [andb].
  apply land_pow2_testbit. lia.
Qed.

Lemma set_warp_bit mask k w : idx4 k -> idx4 w ->
  WarpMask_Active (u8 (mask .| u8 (1 << k))) w = WarpMask_Active mask w || (k =? w).
Proof.
  intros Hk Hw. rewrite !WarpMask_Active_testbit by done. apply idx4_range in Hk, Hw. unfold u8.
  rewrite testbit_mod_pow2, Z.lor_spec, testbit_mod_pow2, Z.shiftl_1_l, Z.pow2_bits_eqb by lia.
  destruct (Z.ltb_spec w 8); [|lia]. by cbn [andb].
Qed.

Lemma ForallOrdPairs_snoc {A} (R : A -> A -> Prop) l x : ForallOrdPairs R l -> Forall (fun y => R y x) l -> ForallOrdPairs R (l ++ [x]).
Proof.
  induction 1 as [|y l Hy Hl IH]; intros Hx; [by repeat constructor|]. apply Forall_cons in Hx as [Hyx Hx]. cbn. constructor; [|by apply IH].
  apply List.Forall_app. split; [done|]. by constructor.
Qed.

Lemma stageMembers_inv m ms s s' :
  Forall (fun mem => idx4 (wmb_WarpID mem)) ms -> foldM (stageMember m) s ms = Ok s' ->
  forallb (member_free m) ms = true /\
  Forall (fun mem => WarpMask_Active s (wmb_WarpID mem) = false /\ WarpMask_Active s' (wmb_WarpID mem) = true) ms /\
  (forall w, idx4 w -> WarpMask_Active s w = true -> WarpMask_Active s' w = true).
Proof.
  intros Hi. revert s. induction Hi as [|x ms Hx Hi IH]; intros s H; cbn [foldM] in H.
  { apply Ok_inj in H as <-. split_and!; [done|constructor|done]. }
  apply result_bind_ok in H as (s1 & H1 & H). unfold stageMember in H1. destruct (member_free m x) eqn:Ef; [|done].
  destruct (WarpMask_Active s (wmb_WarpID x)) eqn:Ea; [done|]. cbn [negb] in H1. apply Ok_inj in H1 as <-.
  destruct (IH _ H) as (Hf & Hact & Hmono). split_and!.
  - cbn. by rewrite Ef, Hf.
  - constructor; [split; [done|]; apply Hmono; [done|]; rewrite set_warp_bit by done; by rewrite Z.eqb_refl, orb_true_r|].
    apply Forall_forall. intros mem Hm. rewrite Forall_forall in Hact. rewrite Forall_forall in Hi. destruct (Hact mem Hm) as [Ha Hb]. split; [|done].
    rewrite set_warp_bit in Ha by (done || by apply Hi). by apply orb_false_iff in Ha as [? _].
  - intros w Hw Ha. apply Hmono; [done|]. rewrite set_warp_bit by done. by rewrite Ha.
Qed.

(** The state of the staging loop. *)
Record staging (m : CTAManager) (used : list Z) (acc : list ctaState * WarpMask * list allocationInterval) : Prop := {
  sg_cluster : cluster_ok m acc.1.1;
  sg_intervals : acc.2 ≡ₚ allocationIntervalsLocked m ++ map resident_interval acc.1.1;
  sg_ok : Forall interval_ok acc.2;
  sg_warps : forall c mem, c ∈ acc.1.1 -> mem ∈ ct_members c -> WarpMask_Active acc.1.2 (wmb_WarpID mem) = true;
  sg_ids : forall c, c ∈ acc.1.1 -> cc_ID (ct_config c) ∈ used
}.

Lemma stageCandidate_ok m used acc config warpIDs id acc' :
  cta_wf m -> packed m -> staging m used acc -> config_typed (with_slot id warpIDs config) -> cm_ctas m !! id = None -> id ∉ used ->
  stageCandidate m acc (config, warpIDs, id) = Ok acc' -> staging m (id :: used) acc'.
Proof.
  intros Hw Hp Hs Ht Hfree Hnew H. destruct acc as [[cs staged] intervals]. unfold stageCandidate in H.
  apply result_bind_ok in H as (c0 & Hv%validate_inv & H). apply result_bind_ok in H as (staged' & Hst & H).
  destruct (allocateFromIntervals _ _) as [[allocation o]|] eqn:Ea; [|done]. apply Ok_inj in H as <-.
  destruct Hs as [Hk Hi Hok Hws Hids]. cbn [fst snd] in *. set (c := place allocation o c0).
  assert (Forall (fun mem => idx4 (wmb_WarpID mem)) (ct_members c0)) as Hidx.
  { destruct (va_distinct _ _ Hv) as (_ & Hlt & _). pose proof (ctd_warps _ Ht) as Hnn. rewrite <- (va_warps _ _ Hv) in Hlt, Hnn.
    apply Forall_forall. intros mem Hm. rewrite Forall_forall in Hlt. rewrite Forall_forall in Hnn.
    assert (wmb_WarpID mem ∈ map wmb_WarpID (ct_members c0)) as Hin by (apply list_elem_of_fmap; by exists mem).
    apply idx4_range. split; [exact (Hnn _ Hin)|exact (Hlt _ Hin)]. }
  destruct (stageMembers_inv m (ct_members c0) staged staged' Hidx Hst) as (Hmf & Hact & Hmono). rewrite Forall_forall in Hact.
  destruct (placed_block _ c0 intervals allocation o Ht Hv Hok Ea) as (Hb & Hap & Hz & Hio). fold c in Hb, Hap, Hz, Hio.
  pose proof Hap as Hap'. rewrite Hi, Forall_app in Hap'. destruct Hap' as [Hm1 Hm2]. rewrite Forall_forall in Hm1. rewrite Forall_forall in Hm2.
  assert (installable m c) as Hc.
  { destruct (va_id _ _ Hv) as [Eid Hlt]. destruct (va_distinct _ _ Hv) as (Hd & _ & _). rewrite <- (va_warps _ _ Hv) in Hd. pose proof (ctd_id _ Ht).
    split; cbn [c place ct_config ct_members]; [lia|by rewrite Eid|done| |done|].
    - apply Forall_forall. intros mem Hm. rewrite Forall_forall in Hidx. split; [by apply Hidx|].
      pose proof (forallb_elem _ _ Hmf mem Hm) as Hx. unfold member_free in Hx. by destruct (qget _ _).
    - intros i c' Hc'. unfold blocks_apart. rewrite <- resident_interval_block by by apply (cw_block m Hw i).
      apply Hm1, interval_elem. by exists i, c'. }
  split; cbn [fst snd].
  - destruct Hk as [He Hpr Hpk]. split; [by apply Forall_app; split; [|constructor]| |by apply Forall_app; split; [|constructor]].
    apply ForallOrdPairs_snoc; [done|]. apply Forall_forall. intros c' Hc'. split_and!.
    + intros E. apply Hnew. destruct (va_id _ _ Hv) as [Eid _]. cbn in Eid, E. rewrite Eid in E. rewrite <- E. by apply Hids.
    + intros mem mem' Hm Hm' E. pose proof (Hws c' mem Hc' Hm) as Hx. destruct (Hact mem' Hm') as [Hy _]. congruence.
    + apply blocks_apart_sym. unfold blocks_apart. rewrite <- resident_interval_block by (rewrite Forall_forall in He; by apply He).
      apply Hm2, list_elem_of_fmap. by exists c'.
  - rewrite map_app, app_assoc, <- Hi. done.
  - apply Forall_app. split; [done|]. by constructor.
  - intros c' mem [Hc'|E%list_elem_of_singleton]%elem_of_app Hm; [|subst c'; by apply Hact].
    apply Hmono; [|by apply (Hws c')]. destruct Hk as [He _ _]. rewrite Forall_forall in He. pose proof (in_free _ _ (He c' Hc')) as Hf.
    rewrite Forall_forall in Hf. by apply Hf.
  - intros c' [Hc'|Ec%list_elem_of_singleton]%elem_of_app; [by apply list_elem_of_further, Hids|]. rewrite Ec.
    destruct (va_id _ _ Hv) as [E _]. cbn [c place ct_config]. rewrite E. apply list_elem_of_here.
Qed.

Lemma stageAll_ok m entries used acc acc' :
  cta_wf m -> packed m -> staging m used acc ->
  Forall (fun e => config_typed (with_slot e.2 e.1.2 e.1.1) /\ cm_ctas m !! e.2 = None /\ e.2 ∉ used) entries -> NoDup (map snd entries) ->
  foldM (stageCandidate m) acc entries = Ok acc' -> cluster_ok m acc'.1.1.
Proof.
  intros Hw Hp. revert used acc. induction entries as [|[[config warpIDs] id] entries IH]; intros used acc Hs He Hd H; cbn [foldM] in H.
  { apply Ok_inj in H as <-. apply Hs. }
  apply Forall_cons in He as [(Ht & Hf & Hn) He]. cbn in Hd. apply NoDup_cons in Hd as [Hid Hd].
  apply result_bind_ok in H as (acc1 & H1 & H). eapply (IH (id :: used)); [|..|exact Hd|exact H].
  - by eapply stageCandidate_ok.
  - apply Forall_forall. intros e Hin. rewrite Forall_forall in He. destruct (He e Hin) as (? & ? & ?). split_and!; [done|done|].
    intros [E|?]%elem_of_cons; [|done]. apply Hid. apply list_elem_of_fmap. by exists e.
Qed.

Lemma zip_snd_incl {A B} (l : list A) (k : list B) : exists k', k = map snd (zip l k) ++ k' \/ (length k < length l)%nat.
Proof.
  revert k. induction l as [|a l IH]; intros [|b k]; cbn; [exists []|exists (b :: k)|exists []; right; lia|].
  1, 2: by left.
  destruct (IH k) as (k' & [E|Hl]); exists k'; [left; by rewrite <- E|right; lia].
Qed.

Lemma freeCTAIDs_ok m : NoDup (freeCTAIDs m) /\ Forall (fun id => cm_ctas m !! id = None /\ 0 <= id) (freeCTAIDs m).
Proof.
  unfold freeCTAIDs. split.
  - apply NoDup_ListNoDup, List.NoDup_filter, NoDup_ListNoDup. repeat constructor; set_solver by lia.
  - apply Forall_forall. intros id [Hin Hb]%list_elem_of_In%filter_In. apply bool_decide_eq_true in Hb. split; [done|]. cbn in Hin. naive_solver lia.
Qed.

Lemma stageDynamicAdmissions_ok m configs warpIDs s :
  cta_wf m -> packed m -> Forall (fun c => 0 <= cc_LocalMemorySize c) configs -> Forall (Forall (fun w => 0 <= w)) warpIDs ->
  stageDynamicAdmissions m configs warpIDs = Ok s -> cluster_ok m (as_candidates s) /\ as_epoch s = cm_epoch m.
Proof.
  intros Hw Hp Hc Hws H. unfold stageDynamicAdmissions in H. do 3 pass_check.
  apply result_bind_ok in H as (acc & Hacc & <-%Ok_inj). cbn [as_candidates as_epoch]. split; [|done].
  destruct (freeCTAIDs_ok m) as [Hd Hf]. rewrite Forall_forall in Hf.
  eapply (stageAll_ok m _ []); [done|done| | |
    |exact Hacc].
  - split; cbn [fst snd]; [by split; constructor|by rewrite app_nil_r|by apply intervals_ok|by intros ? ? ?%elem_of_nil|by intros ? ?%elem_of_nil].
  - apply Forall_forall. intros [[config ws] id] Hin. cbn [fst snd]. pose proof (elem_of_zip_r _ _ _ _ Hin) as Hid. pose proof (elem_of_zip_l _ _ _ _ Hin) as Hin'.
    pose proof (elem_of_zip_l _ _ _ _ Hin') as Hcfg. pose proof (elem_of_zip_r _ _ _ _ Hin') as Hwid.
    destruct (Hf id Hid) as [Hn H0]. rewrite Forall_forall in Hc. rewrite Forall_forall in Hws.
    split_and!; [split; cbn; [done|by apply Hws|by apply Hc]|done|by apply not_elem_of_nil].
  - destruct (zip_snd_incl (zip configs warpIDs) (freeCTAIDs m)) as (k' & [E|Hl]).
    + rewrite E in Hd. by apply NoDup_app in Hd as (? & _ & _).
    + exfalso. apply negb_true_iff, Nat.ltb_ge in Heqb1. apply negb_true_iff, orb_false_iff in Heqb as [_ Hlen].
      apply negb_false_iff, Nat.eqb_eq in Hlen. rewrite length_zip_with in Hl. lia.
Qed.

(** ** The other operations *)

Lemma observeWarpFinished_wf m warpID :
  cta_wf m -> packed m -> cta_wf (observeWarpFinished m warpID).1 /\ packed (observeWarpFinished m warpID).1.
Proof.
  intros Hw Hp. unfold observeWarpFinished. destruct (_ >=? _); [done|]. destruct (qget _ _) as [key|]; [|done].
  destruct (cm_ctas m !! wk_ctaID key) as [cta|] eqn:Ec; [|done]. destruct (ct_members cta !! _) as [mem|] eqn:Em; [|done].
  destruct (_ =? _); [|done]. cbn [fst].
  set (ms := <[Z.to_nat (wk_rank key) := finish_member mem]> (ct_members cta)).
  assert (map wmb_WarpID ms = map wmb_WarpID (ct_members cta) /\ map wmb_Rank ms = map wmb_Rank (ct_members cta)) as [E1 E2].
  { unfold ms. rewrite !list_fmap_insert. split; apply list_insert_id; by rewrite list_lookup_fmap, Em. }
  assert (forall x, x ∈ ms -> exists y, y ∈ ct_members cta /\ wmb_WarpID x = wmb_WarpID y /\ wmb_Rank x = wmb_Rank y) as Hold.
  { intros x (i & Hx)%list_elem_of_lookup. unfold ms in Hx. destruct (decide (i = Z.to_nat (wk_rank key))) as [->|Hne].
    - rewrite list_lookup_insert_eq in Hx by by eapply lookup_lt_Some. injection Hx as <-. exists mem. split; [by eapply list_elem_of_lookup_2|done].
    - rewrite list_lookup_insert_ne in Hx by done. exists x. split; [by eapply list_elem_of_lookup_2|done]. }
  assert (forall x, x ∈ ct_members cta -> exists y, y ∈ ms /\ wmb_WarpID y = wmb_WarpID x) as Hnew.
  { intros x Hx. assert (wmb_WarpID x ∈ map wmb_WarpID ms) as Hin by (rewrite E1; apply list_elem_of_fmap; by exists x).
    apply list_elem_of_fmap in Hin as (y & E & Hy). by exists y. }
  split.
  - split; cbn [set_ctas cm_ctas cm_byWarp cm_localMem].
    + intros id c [[<- <-]|[_ H]]%lookup_insert_Some; [cbn; by apply (cw_id m Hw)|by apply (cw_id m Hw)].
    + intros id c [[<- <-]|[_ H]]%lookup_insert_Some; [|by apply (cw_members m Hw)]. cbn [with_members ct_members].
      destruct (cw_members m Hw _ _ Ec) as [Hd Hf]. split; [by rewrite E1|]. apply Forall_forall. intros x Hx.
      destruct (Hold x Hx) as (y & Hy & -> & ->). rewrite Forall_forall in Hf. by apply Hf.
    + intros w k Hi Hq. destruct (cw_table m Hw w k Hi Hq) as (c & x & Hc & Hx & <-).
      destruct (Z.eq_dec (wk_ctaID k) (wk_ctaID key)) as [E|Hne].
      * rewrite E, Ec in Hc. injection Hc as <-. destruct (Hnew x Hx) as (y & Hy & Ey). exists (with_members ms cta), y. rewrite E, lookup_insert_eq. done.
      * exists c, x. rewrite lookup_insert_ne by congruence. done.
    + intros id c [[<- <-]|[_ H]]%lookup_insert_Some; [apply (cw_block m Hw _ _ Ec)|by apply (cw_block m Hw id)].
    + intros i j c1 c2 Hne [[<- <-]|[_ H1]]%lookup_insert_Some [[<- <-]|[_ H2]]%lookup_insert_Some; [done|..].
      * apply (cw_apart m Hw _ j cta c2 Hne Ec H2).
      * apply (cw_apart m Hw i _ c1 cta Hne H1 Ec).
      * by apply (cw_apart m Hw i j).
    + apply Hw.
  - intros id c H. cbn [set_ctas cm_ctas] in H. apply lookup_insert_Some in H as [[<- <-]|[_ H]]; [apply (Hp _ _ Ec)|by apply (Hp id)].
Qed.

Lemma NewCTAManager_wf dynamic :
  let m := mkCTAManager ∅ (qfill None) (replicate (Z.to_nat FrozenLocalMemSize) 0) false dynamic 0 None in cta_wf m /\ packed m.
Proof.
  split; [|intros id c; cbn; by rewrite lookup_empty]. split; cbn [cm_ctas cm_byWarp cm_localMem].
  - intros id c. by rewrite lookup_empty.
  - intros id c. by rewrite lookup_empty.
  - intros w key _. by rewrite qget_qfill.
  - intros id c. by rewrite lookup_empty.
  - intros i j c c' _. by rewrite lookup_empty.
  - unfold zlen. rewrite length_replicate. rewrite lmem_size. lia.
Qed.

Lemma admission_commit_wf {Y} m configs warpIDs s (external : Y -> Y * result unit) y :
  cta_wf m -> packed m -> Forall (fun c => 0 <= cc_LocalMemorySize c) configs -> Forall (Forall (fun w => 0 <= w)) warpIDs ->
  stageDynamicAdmissions m configs warpIDs = Ok s ->
  let m' := (admission_commit m s external y).1.1 in cta_wf m' /\ packed m'.
Proof.
  intros Hw Hp Hc Hws Hs. destruct (stageDynamicAdmissions_ok m configs warpIDs s Hw Hp Hc Hws Hs) as [Hk _]. unfold admission_commit.
  destruct (_ =? 0)%nat; [done|]. destruct (_ || _); [done|]. destruct (foldM _ _ _); [|done]. destruct (external y) as [y' [u|e]]; [|done].
  cbn [fst]. destruct (install_all_wf m (as_candidates s) Hw Hp Hk). split; [by apply bump_wf|done].
Qed.

Lemma reclaim_wf {Y} m id (external : list WarpMembership -> Y -> Y) y :
  cta_wf m -> packed m -> let m' := (commitDynamicReclaim m id external y).1.1 in cta_wf m' /\ packed m'.
Proof.
  intros Hw Hp. unfold commitDynamicReclaim. destruct (_ || _); [done|]. destruct (cm_barriers m) as [records|]; [|done].
  destruct (cm_ctas m !! id) as [c|] eqn:Ec; [|done]. destruct (pendingCTA _ _); [done|]. destruct (negb _); [done|]. cbn [fst].
  split; [by apply remove_wf|]. intros i c' H. cbn in H. apply lookup_delete_Some in H as [_ H]. by apply (Hp i).
Qed.

(** C31: the CTA owner's invariant: the warp table and the members of the resident
    CTAs always describe the same membership (no warp in two CTAs, none dangling)
    and the local-memory blocks are inside the array and pairwise disjoint.  It holds
    of a new manager and is kept by static admission, sealing, the observation of a
    finished warp, the commit of a staged cluster whatever the external launch does,
    and reclaim. *)
Theorem cta_manager_invariant :
  (cta_wf NewCTAManager /\ packed NewCTAManager) /\ (cta_wf NewDynamicCTAManager /\ packed NewDynamicCTAManager) /\
  forall m, cta_wf m -> packed m ->
  (forall config, config_typed config -> cta_wf (CTAManager_Admit m config).1 /\ packed (CTAManager_Admit m config).1) /\
  (cta_wf (seal m).1 /\ packed (seal m).1) /\
  (forall warpID, cta_wf (observeWarpFinished m warpID).1 /\ packed (observeWarpFinished m warpID).1) /\
  (forall configs warpIDs s Y (external : Y -> Y * result unit) y,
     Forall (fun c => 0 <= cc_LocalMemorySize c) configs -> Forall (Forall (fun w => 0 <= w)) warpIDs ->
     stageDynamicAdmissions m configs warpIDs = Ok s ->
     cta_wf (admission_commit m s external y).1.1 /\ packed (admission_commit m s external y).1.1) /\
  (forall ctaID Y (external : list WarpMembership -> Y -> Y) y,
     cta_wf (commitDynamicReclaim m ctaID external y).1.1 /\ packed (commitDynamicReclaim m ctaID external y).1.1).
Proof.
  split_and!; [apply (NewCTAManager_wf false)..|apply (NewCTAManager_wf true)|apply (NewCTAManager_wf true)|].
  intros m Hw Hp. split_and!.
  - intros config Ht. by apply Admit_wf.
  - unfold seal. destruct (_ && _); [done|]. cbn. destruct Hw. by split.
  - unfold seal. by destruct (_ && _).
  - intros warpID. by apply observeWarpFinished_wf.
  - intros configs warpIDs s Y external y Hc Hws Hs. by eapply admission_commit_wf.
  - intros id Y external y. by apply reclaim_wf.
Qed.

(** Two CTAs: warp 1 with 128 bytes of local memory, warps 2 and 3 with 64. *)
Definition example_cta (id : Z) (warps : list Z) (dimension size : Z) : CTAConfig :=
  mkCTAConfig id warps 0x80000000 (0, 0, 0) (dimension, 1, 1) (4, 1, 1) 0 (0, 0, 0) 0x80000100 0 size (1, 1, 1) 1 true.
Definition example_manager : CTAManager :=
  (CTAManager_Admit (CTAManager_Admit NewCTAManager (example_cta 0 [1] 4 100)).1 (example_cta 1 [2; 3] 6 64)).1.

Lemma example_cta_typed id warps d n : 0 <= id -> Forall (fun w => 0 <= w) warps -> 0 <= n -> config_typed (example_cta id warps d n).
Proof. by split. Qed.

Lemma example_manager_wf : cta_wf example_manager /\ packed example_manager.
Proof.
  destruct (Admit_wf NewCTAManager (example_cta 0 [1] 4 100)) as [H1 H2];
    [apply (NewCTAManager_wf false)..|by apply example_cta_typed; [|repeat constructor|]|].
  unfold example_manager. apply Admit_wf; [done|done|]. by apply example_cta_typed; [|repeat constructor|].
Qed.

Example cta_manager_invariant_witness :
  cta_wf (observeWarpFinished example_manager 2).1 /\ size (cm_ctas example_manager) = 2%nat.
Proof.
  split; [|vm_compute; reflexivity].
  destruct cta_manager_invariant as (_ & _ & H). destruct (H example_manager) as (_ & _ & Ho & _); [apply example_manager_wf..|]. apply Ho.
Defined.
