(* ===== verification/CtaThreads.v ===== *)
(** * The threads of a CTA

    Admission gives every member warp its lane mask and thread coordinates, either by
    division (legacy) or by the incremental hardware counters.  Both number the
    threads of the block in the same way, and every thread is run by one lane. *)

From S2P Require Import Prelude IsaTypes Integer System Memory WarpExec Cta CtaInvariant.

#[local] Open Scope Z_scope.
#[local] Open Scope go_scope.

(** The counter of the dispatcher after [n] warps. *)
Fixpoint warp_base (dimensions step : triple) (n : nat) : triple :=
  match n with O => (0, 0, 0) | S n => advanceWarpBase (warp_base dimensions step n) dimensions step end.

(** Position [t] of the block, as a coordinate triple. *)
Definition thread_at (dimensions : triple) (t : Z) : triple :=
  (t mod axis3 dimensions 0, t / axis3 dimensions 0 mod axis3 dimensions 1, t / axis3 dimensions 0 / axis3 dimensions 1).

(** The step of four threads in that numbering. *)
Definition canonical_step (dimensions : triple) : triple := thread_at dimensions 4.

Definition coordinates_at (q : LaneValues * LaneValues * LaneValues) (lane : Z) : triple :=
  (qget (q.1.1) lane, qget (q.1.2) lane, qget q.2 lane).

Definition small_dims : list Z := map Z.of_nat (seq 1 15).

Definition step_agrees (d0 d1 d2 : Z) (rank : nat) (lane : Z) : bool :=
  bool_decide (coordinates_at (warpStepCoordinates (warp_base (d0, d1, d2) (canonical_step (d0, d1, d2)) rank) (d0, d1, d2)) lane =
               thread_at (d0, d1, d2) (Z.of_nat rank * 4 + lane)).

(** Every dimension of up to 15 threads, checked by computation. *)
Lemma step_agrees_all d2 :
  forallb (fun d0 => forallb (fun d1 => forallb (fun rank => forallb (step_agrees d0 d1 d2 rank) [0; 1; 2; 3]) (seq 0 4)) small_dims) small_dims = true.
Proof. vm_compute. reflexivity. Qed.

Lemma small_dims_elem d : 1 <= d <= 15 -> In d small_dims.
Proof. intros H. apply in_map_iff. exists (Z.to_nat d). rewrite in_seq. lia. Qed.

Lemma warp_step_coordinates d0 d1 d2 rank lane :
  1 <= d0 <= 15 -> 1 <= d1 <= 15 -> (rank < 4)%nat -> idx4 lane ->
  coordinates_at (warpStepCoordinates (warp_base (d0, d1, d2) (canonical_step (d0, d1, d2)) rank) (d0, d1, d2)) lane =
  thread_at (d0, d1, d2) (Z.of_nat rank * 4 + lane).
Proof.
  intros H0 H1 Hr Hl. pose proof (step_agrees_all d2) as H. rewrite forallb_forall in H. specialize (H d0 (small_dims_elem d0 H0)).
  rewrite forallb_forall in H. specialize (H d1 (small_dims_elem d1 H1)). rewrite forallb_forall in H.
  specialize (H rank ltac:(apply in_seq; lia)). rewrite forallb_forall in H.
  specialize (H lane ltac:(destruct Hl as [-> | [-> | [-> | ->]]]; cbn; tauto)). unfold step_agrees in H. by apply bool_decide_eq_true in H.
Qed.

Lemma thread_coordinates rank dimensions lane : 0 <= rank < 4 -> idx4 lane ->
  coordinates_at (threadCoordinates rank dimensions) lane = thread_at dimensions (rank * 4 + lane).
Proof.
  intros Hr Hl. unfold coordinates_at, threadCoordinates. cbn [fst snd]. rewrite !qget_qmake by done. apply idx4_range in Hl.
  change FrozenLaneCount with 4. by rewrite (u32_id (rank * 4)), u32_id by (unfold is_u32; lia).
Qed.

(** The members of an accepted configuration, rank by rank. *)
Lemma configMembers_coordinates config legacy rank seen base ids ms i mem :
  configMembers config legacy (Z.of_nat rank) seen base ids = Ok ms -> (rank + length ids <= 4)%nat ->
  base = (if legacy then (0, 0, 0) else warp_base (cc_BlockDimensions config) (cc_WarpStep config) rank) ->
  ms !! i = Some mem ->
  wmb_Rank mem = Z.of_nat (rank + i) /\ wmb_ActiveMask mem = member_mask (cc_BlockSize config) (Z.of_nat (rank + i)) /\
  wmb_ThreadCoordinates mem =
    (if legacy then threadCoordinates (Z.of_nat (rank + i)) (cc_BlockDimensions config)
     else warpStepCoordinates (warp_base (cc_BlockDimensions config) (cc_WarpStep config) (rank + i)) (cc_BlockDimensions config)).
Proof.
  revert rank seen base ms i. induction ids as [|w ids IH]; intros rank seen base ms i H Hlen Hb Hm; cbn [configMembers length] in *.
  { apply Ok_inj in H as <-. by rewrite lookup_nil in Hm. }
  pass_check. pass_check. rewrite (u32_id (Z.of_nat rank)) in H by (unfold is_u32; lia).
  apply result_bind_ok in H as (ms' & H & <-%Ok_inj). destruct i as [|i]; cbn in Hm.
  - injection Hm as <-. rewrite Nat.add_0_r. cbn. subst base. by destruct legacy.
  - replace (Z.of_nat rank + 1) with (Z.of_nat (S rank)) in H by lia. replace (rank + S i)%nat with (S rank + i)%nat by lia.
    eapply IH; [exact H|lia| |exact Hm]. subst base. by destruct legacy.
Qed.

Lemma mask_lanes n : 0 <= n <= 4 -> forall lane, idx4 lane -> LaneMask_Active (u8 (u32 (u32 (1 << n) - 1))) lane = (lane <? n).
Proof. intros Hn. assert (n = 0 \/ n = 1 \/ n = 2 \/ n = 3 \/ n = 4) as Hc by lia. intros lane Hl.
  destruct Hc as [-> | [-> | [-> | [-> | ->]]]]; destruct Hl as [-> | [-> | [-> | ->]]]; reflexivity.
Qed.

Lemma member_mask_spec blockSize rank lane :
  0 <= blockSize <= 16 -> 0 <= rank -> rank * 4 < blockSize -> idx4 lane ->
  LaneMask_Active (member_mask blockSize rank) lane = (rank * 4 + lane <? blockSize).
Proof.
  intros Hb Hr Hlt Hl. unfold member_mask. change FrozenLaneCount with 4. rewrite (u32_id (rank * 4)), u32_id by (unfold is_u32; lia).
  destruct (Z.ltb_spec (blockSize - rank * 4) 4) as [Hs|Hs].
  - rewrite mask_lanes by (done || lia). apply idx4_range in Hl. destruct (Z.ltb_spec lane (blockSize - rank * 4)), (Z.ltb_spec (rank * 4 + lane) blockSize); lia.
  - assert (LaneMask_Active AllLanes lane = true) as -> by (by destruct Hl as [-> | [-> | [-> | ->]]]).
    apply idx4_range in Hl. symmetry. apply Z.ltb_lt. lia.
Qed.

Lemma configAxis_inv config legacy t axis t' : configAxis config legacy t axis = Ok t' ->
  axis3 (cc_BlockDimensions config) axis <> 0 /\ t' = u64 (t * axis3 (cc_BlockDimensions config) axis) /\ (legacy = true -> t' <= 16).
Proof.
  unfold configAxis. pass_check. do 4 pass_check. intros <-%Ok_inj. apply negb_true_iff, orb_false_iff in Heqb as [?%Z.eqb_neq _]. split_and!; [done|done|].
  intros ->. apply negb_true_iff, Z.ltb_ge in Heqb3. exact Heqb3.
Qed.

(** What [validateCTAConfig] settles about the block. *)
Lemma validate_block config c :
  validateCTAConfig config = Ok c -> 0 <= cc_BlockSize config -> Forall (fun axis => 0 <= axis3 (cc_BlockDimensions config) axis < 2 ^ 32) axes ->
  let legacy := cc_BlockSize config =? 0 in
  let B := cc_BlockSize (ct_config c) in
  configMembers (ct_config c) legacy 0 [] (0, 0, 0) (cc_WarpIDs config) = Ok (ct_members c) /\
  cc_BlockDimensions (ct_config c) = cc_BlockDimensions config /\ cc_WarpStep (ct_config c) = cc_WarpStep config /\
  0 < B <= 16 /\ zlen (cc_WarpIDs config) = (B + 3) / 4 /\
  (cc_BlockSize config <> 0 -> B = cc_BlockSize config) /\
  (cc_BlockSize config = 0 -> B = axis3 (cc_BlockDimensions config) 0 * axis3 (cc_BlockDimensions config) 1 * axis3 (cc_BlockDimensions config) 2).
Proof.
  intros H Hb Hd. unfold validateCTAConfig in H. do 5 pass_check. cbv zeta in H. apply result_bind_ok in H as (threads & Hth & H).
  apply result_bind_ok in H as ([B cluster] & Hs & H). do 3 pass_check. apply result_bind_ok in H as (ms & Hms & <-%Ok_inj).
  cbn [ct_config ct_members with_sizes cc_BlockSize cc_BlockDimensions cc_WarpStep cc_WarpIDs] in *. cbv zeta.
  apply Forall_cons in Hd as [D0 Hd]. apply Forall_cons in Hd as [D1 Hd]. apply Forall_cons in Hd as [D2 _].
  assert ((cc_BlockSize config <> 0 -> B = cc_BlockSize config) /\ 0 < B <= 16 /\
    (cc_BlockSize config = 0 -> B = axis3 (cc_BlockDimensions config) 0 * axis3 (cc_BlockDimensions config) 1 * axis3 (cc_BlockDimensions config) 2)) as (E1 & HB & E2).
  { destruct (Z.eqb_spec (cc_BlockSize config) 0) as [E|E].
    - apply Ok_inj in Hs as [= <- <-]. unfold axes in Hth. cbn [foldM] in Hth.
      apply result_bind_ok in Hth as (t0 & (N0 & T0 & L0)%configAxis_inv & Hth). apply result_bind_ok in Hth as (t1 & (N1 & T1 & L1)%configAxis_inv & Hth).
      apply result_bind_ok in Hth as (t2 & (N2 & T2 & L2)%configAxis_inv & <-%Ok_inj).
      specialize (L0 eq_refl). specialize (L1 eq_refl). specialize (L2 eq_refl).
      set (a := axis3 (cc_BlockDimensions config) 0) in *. set (b := axis3 (cc_BlockDimensions config) 1) in *.
      set (cz := axis3 (cc_BlockDimensions config) 2) in *. clearbody a b cz. unfold u64 in *. rewrite (Z.mod_small (1 * a)) in T0 by lia.
      rewrite (Z.mod_small (t0 * b)) in T1 by nia. rewrite (Z.mod_small (t1 * cz)) in T2 by nia.
      unfold u32. rewrite Z.mod_small by nia. subst t0 t1 t2. split_and!; [done|nia|lia|intros _; ring].
    - cbn [negb] in Hs. destruct (Z.ltb_spec (FrozenWarpCount * FrozenLaneCount) (cc_BlockSize config)) as [|Hle]; [done|]. cbn [negb] in Hs.
      apply result_bind_ok in Hs as (cp & _ & Hs). pass_check. apply Ok_inj in Hs as [= <- <-].
      change (FrozenWarpCount * FrozenLaneCount) with 16 in Hle. split_and!; [done|lia|lia|done]. }
  match goal with Hx : (_ / _ =? _) = true |- _ => apply Z.eqb_eq in Hx; rename Hx into Hreq end.
  change FrozenLaneCount with 4 in Hreq. unfold u64 in Hreq. rewrite !Z.mod_small in Hreq by (try rewrite Z.mod_small; lia).
  split_and!; try done; try lia. rewrite <- Hreq. f_equal. lia.
Qed.

Lemma dimension_positive config c axis d :
  validateCTAConfig config = Ok c -> axis = 0 \/ axis = 1 -> 0 <= axis3 (cc_BlockDimensions config) axis ->
  axis3 (cc_BlockDimensions config) axis = d -> 1 <= d.
Proof.
  intros H Hax H0 <-. unfold validateCTAConfig in H. do 5 pass_check. cbv zeta in H. apply result_bind_ok in H as (threads & Hth & _).
  unfold axes in Hth. cbn [foldM] in Hth. apply result_bind_ok in Hth as (t0 & (N0 & _)%configAxis_inv & Hth).
  apply result_bind_ok in Hth as (t1 & (N1 & _)%configAxis_inv & _). destruct Hax as [-> | ->]; lia.
Qed.

(** Admission partitions the threads of a block: thread [t] of the block is run
    by lane [t mod 4] of the one member warp of rank [t / 4], a lane is active
    exactly when its thread exists, and its coordinates are the division of [t] by
    the block dimensions; the incremental counters of the dispatcher agree with that
    for every block whose dimensions fit their four-bit fields and whose warp step is
    the step of four threads.  Validation accepts more: of a dimension of sixteen or
    more the counters keep the low four bits, as the hardware does, and such a block is
    outside this theorem. *)
Theorem cta_threads config c :
  validateCTAConfig config = Ok c -> 0 <= cc_BlockSize config ->
  Forall (fun axis => 0 <= axis3 (cc_BlockDimensions config) axis < 2 ^ 32) axes ->
  (cc_BlockSize config <> 0 -> axis3 (cc_BlockDimensions config) 0 <= 15 /\ axis3 (cc_BlockDimensions config) 1 <= 15 /\
     cc_WarpStep config = canonical_step (cc_BlockDimensions config)) ->
  let B := cc_BlockSize (ct_config c) in
  (forall mem lane, mem ∈ ct_members c -> idx4 lane ->
     let t := wmb_Rank mem * 4 + lane in
     LaneMask_Active (wmb_ActiveMask mem) lane = (t <? B) /\
     coordinates_at (wmb_ThreadCoordinates mem) lane = thread_at (cc_BlockDimensions config) t) /\
  (forall t, 0 <= t < B -> exists mem, mem ∈ ct_members c /\ wmb_Rank mem = t / 4 /\
     forall mem', mem' ∈ ct_members c -> wmb_Rank mem' = t / 4 -> mem' = mem).
Proof.
  intros Hv Hb Hd Hstep. destruct (validate_block config c Hv Hb Hd) as (Hm & Ed & Es & HB & Hlen & E1 & E2). cbv zeta.
  set (B := cc_BlockSize (ct_config c)) in *. pose proof (validate_inv _ _ Hv) as Hval.
  assert (length (ct_members c) = length (cc_WarpIDs config)) as El by (rewrite <- (va_warps _ _ Hval); by rewrite length_map).
  assert (forall i mem, ct_members c !! i = Some mem -> (i < 4)%nat /\ Z.of_nat i * 4 < B /\ wmb_Rank mem = Z.of_nat i /\
    wmb_ActiveMask mem = member_mask B (Z.of_nat i) /\
    forall lane, idx4 lane -> coordinates_at (wmb_ThreadCoordinates mem) lane = thread_at (cc_BlockDimensions config) (Z.of_nat i * 4 + lane)) as Hat.
  { intros i mem Hi. pose proof (lookup_lt_Some _ _ _ Hi) as Hlt. unfold zlen in Hlen.
    assert ((i < 4)%nat /\ Z.of_nat i * 4 < B) as [H4 HiB] by (Z.div_mod_to_equations; lia).
    assert ((length (cc_WarpIDs config) <= 4)%nat) as H44 by (Z.div_mod_to_equations; lia).
    destruct (configMembers_coordinates (ct_config c) (cc_BlockSize config =? 0) 0 [] (0, 0, 0) (cc_WarpIDs config) (ct_members c) i mem Hm)
      as (Hr & Hk & Hc); [lia|by destruct (_ =? 0)|done|].
    split_and!; [done|done|done|done|]. intros lane Hl. rewrite Hc, Ed, Es. destruct (Z.eqb_spec (cc_BlockSize config) 0) as [E|E].
    - apply thread_coordinates; [lia|done].
    - destruct (Hstep E) as (S0 & S1 & ->). destruct (cc_BlockDimensions config) as [[d0 d1] d2] eqn:Edim. cbn [axis3 fst snd Z.eqb] in *.
      apply warp_step_coordinates; [|..|lia|done].
      + split; [|done]. apply (dimension_positive config c 0); [done|by left| |by rewrite Edim]. by apply Forall_cons in Hd as [[? _] _]; rewrite Edim.
      + split; [|done]. apply (dimension_positive config c 1); [done|by right| |by rewrite Edim].
        apply Forall_cons in Hd as [_ Hd]. by apply Forall_cons in Hd as [[? _] _]; rewrite Edim. }
  split.
  - intros mem lane (i & Hi)%list_elem_of_lookup Hl. destruct (Hat i mem Hi) as (H4 & HiB & -> & -> & Hc). split; [|by apply Hc].
    apply member_mask_spec; [lia|lia|done|done].
  - intros t Ht. assert ((Z.to_nat (t / 4) < length (ct_members c))%nat) as Hlt by (rewrite El; unfold zlen in Hlen; Z.div_mod_to_equations; lia).
    destruct (lookup_lt_is_Some_2 _ _ Hlt) as [mem Hmem]. destruct (Hat _ _ Hmem) as (_ & _ & Hr & _). exists mem. split_and!.
    + by eapply list_elem_of_lookup_2.
    + rewrite Hr. rewrite Z2Nat.id; [done|]. apply Z.div_pos; lia.
    + intros mem' (i & Hi)%list_elem_of_lookup Hr'. destruct (Hat _ _ Hi) as (_ & _ & Hri & _). rewrite Hri in Hr'.
      replace i with (Z.to_nat (t / 4)) in Hi by lia. congruence.
Qed.

(** A 3x2 block on warps 0 and 1. *)
Definition block_config : CTAConfig :=
  mkCTAConfig 0 [0; 1] 0 (0, 0, 0) (3, 2, 1) (2, 1, 1) 6 (1, 1, 0) 0 0 64 (1, 1, 1) 1 true.

Example cta_threads_witness :
  exists c, validateCTAConfig block_config = Ok c /\
  forall mem, mem ∈ ct_members c -> wmb_Rank mem = 1 -> coordinates_at (wmb_ThreadCoordinates mem) 1 = (2, 1, 0).
Proof.
  destruct (validateCTAConfig block_config) as [c|] eqn:E; [|vm_compute in E; discriminate E]. exists c. split; [done|].
  destruct (cta_threads block_config c E) as [H _]; [by vm_compute|by repeat constructor; vm_compute|by intros _|].
  intros mem Hm Hr. destruct (H mem 1 Hm ltac:(by right; left)) as [_ Hc]. rewrite Hc, Hr. reflexivity.
Defined.
