(* ===== verification/CtaMemory.v ===== *)
(** * Local memory through CTA membership

    The local window of a warp is its CTA's block of the physical array: accesses
    inside the block reach it, accesses outside are refused, no slice is ever out of
    range, CTAs cannot observe each other, and the route meets the executor's memory
    contract, so [Step] is atomic over local and global memory together. *)

From S2P Require Import Prelude IsaTypes Integer System Softfloat Memory WarpState View EvaluateTyped WarpExec WarpCorrect.
From S2P Require Import Cta CtaInvariant.

#[local] Open Scope Z_scope.
#[local] Open Scope go_scope.

(** ** Ranges *)

(** The CTA of a warp. *)
Definition cta_of (m : CTAManager) (w : Z) : option ctaState :=
  match qget (cm_byWarp m) w with Some key => cm_ctas m !! wk_ctaID key | None => None end.

Definition in_window (c : ctaState) (a n : Z) : bool :=
  (la_Address (ct_allocation c) <=? a) && (a + n <=? la_Address (ct_allocation c) + la_Size (ct_allocation c)).

(** Where an address of the window is in the physical array. *)
Definition physical (c : ctaState) (a : Z) : Z := ct_backingOffset c + (a - la_Address (ct_allocation c)).

Lemma cta_of_ok m w c : cta_wf m -> cta_of m w = Some c -> block_ok c.
Proof. intros Hw. unfold cta_of. destruct (qget _ _) as [key|]; [|done]. apply (cw_block m Hw). Qed.

(** The range test shared by the warp's route and by pinned leases. *)
Lemma window_check c a n : block_ok c -> 0 <= a < 2 ^ 32 -> 0 <= n < 2 ^ 32 ->
  let limit := u64 (la_Address (ct_allocation c) + la_Size (ct_allocation c)) in
  negb ((a <? la_Address (ct_allocation c)) || (u64 (a + n) >? limit) || ((n <>? 0) && (a =? limit))) = in_window c a n.
Proof.
  intros (B0 & B1 & B2 & B3 & B4) Ha Hn. unfold end_of in B2. rewrite lmem_size in B2, B4. rewrite lmem_base in B3, B4.
  unfold u64. cbv zeta. rewrite !Z.mod_small by lia. unfold in_window. lia.
Qed.

Lemma window_offset c a n : block_ok c -> 0 <= a < 2 ^ 32 -> 0 <= n -> in_window c a n = true ->
  u32 (u32 (ct_backingOffset c + a) - la_Address (ct_allocation c)) = physical c a.
Proof.
  intros (B0 & B1 & B2 & B3 & B4) Ha Hn Hin. unfold end_of in B2. rewrite lmem_size in B2, B4. rewrite lmem_base in B3, B4.
  unfold in_window in Hin. apply andb_true_iff in Hin as [H1%Z.leb_le H2%Z.leb_le].
  unfold physical. rewrite !u32_id by (unfold is_u32; try rewrite u32_id; unfold is_u32; lia). lia.
Qed.

Lemma localRange_law m w a n :
  cta_wf m -> idx4 w -> 0 <= a < 2 ^ 32 -> 0 <= n < 2 ^ 32 ->
  localRangeLocked m w a n =
  match cta_of m w with
  | Some c => if in_window c a n then Ok (physical c a) else Err ErrLocalMemoryRange
  | None => Err ErrLocalMemoryRange
  end.
Proof.
  intros Hw Hi Ha Hn. unfold localRangeLocked, cta_of. pose proof (proj1 (idx4_range w) Hi). change FrozenWarpCount with 4.
  destruct (Z.leb_spec 4 w); [lia|]. cbn [negb]. destruct (qget (cm_byWarp m) w) as [key|] eqn:Ek; [|done].
  destruct (cw_table m Hw w key Hi Ek) as (c & mem & Hc & _ & _). rewrite Hc. pose proof (cw_block m Hw _ _ Hc) as Hb.
  cbv zeta. rewrite window_check by done. destruct (in_window c a n) eqn:Ein; [|done]. by rewrite (window_offset c a n) by (done || lia).
Qed.

Lemma physical_range m w c a n :
  cta_wf m -> cta_of m w = Some c -> in_window c a n = true -> 0 <= n ->
  0 <= physical c a /\ ct_backingOffset c <= physical c a /\ physical c a + n <= end_of c /\ end_of c <= FrozenLocalMemSize.
Proof.
  intros Hw Hc Hin Hn. destruct (cta_of_ok m w c Hw Hc) as (B0 & B1 & B2 & B3 & B4). unfold in_window in Hin.
  apply andb_true_iff in Hin as [H1%Z.leb_le H2%Z.leb_le]. unfold physical, end_of in *. lia.
Qed.

(** ** Reads and writes *)

Definition lmem (m : CTAManager) (i : Z) : Z := byte_of (cm_localMem m) i.

Lemma window_slice m c a n : cta_wf m -> block_ok c -> in_window c a n = true -> 0 <= n ->
  local_slice m (physical c a) n = Ok (map (fun i => lmem m (physical c i)) (zrange a n)).
Proof.
  intros Hw (B0 & B1 & B2 & _) Hin Hn. unfold in_window in Hin. apply andb_true_iff in Hin as [H1%Z.leb_le H2%Z.leb_le].
  unfold end_of in B2. rewrite lmem_size in B2. unfold local_slice.
  assert (0 <= physical c a /\ physical c a + n <= 16384) as [P0 P1] by (unfold physical; lia).
  rewrite u32_id by (unfold is_u32; lia). rewrite lmem_size.
  destruct (Z.leb_spec (physical c a) (physical c a + n)); [|lia]. destruct (Z.leb_spec (physical c a + n) 16384); [|lia]. cbn [andb]. f_equal.
  rewrite slice_bytes by (try lia; rewrite (cw_bytes m Hw), lmem_size; lia). unfold zrange. rewrite !map_map. apply map_ext. intros i.
  unfold lmem. f_equal. unfold physical. lia.
Qed.

Lemma readLocal_law m w a n :
  cta_wf m -> idx4 w -> 0 <= a < 2 ^ 32 -> 0 <= n < 2 ^ 32 ->
  readLocal m w a n =
  match cta_of m w with
  | Some c => if in_window c a n then Ok (map (fun i => lmem m (physical c i)) (zrange a n)) else Err ErrLocalMemoryRange
  | None => Err ErrLocalMemoryRange
  end.
Proof.
  intros Hw Hi Ha Hn. unfold readLocal. rewrite localRange_law by done. destruct (cta_of m w) as [c|] eqn:Ec; [|done].
  destruct (in_window c a n) eqn:Ein; [|done]. cbn [result_bind]. apply window_slice; [done|by eapply cta_of_ok|done|lia].
Qed.

Lemma local_copy_law m offset src :
  cta_wf m -> 0 <= offset -> offset + zlen src <= FrozenLocalMemSize ->
  exists m', local_copy m offset src = Ok m' /\ m' = set_localMem (cm_localMem m') m /\ zlen (cm_localMem m') = FrozenLocalMemSize /\
  forall i, 0 <= i -> lmem m' i = overlay offset src (lmem m) i.
Proof.
  intros Hw H0 H1. pose proof (zlen_nonneg src) as Hz. unfold local_copy. rewrite lmem_size in *. rewrite u32_id by (unfold is_u32; lia).
  destruct (Z.leb_spec offset (offset + zlen src)); [|lia]. destruct (Z.leb_spec (offset + zlen src) 16384); [|lia]. cbn [andb].
  pose proof (cw_bytes m Hw) as Hb. rewrite lmem_size in Hb. eexists. split; [reflexivity|]. split; [done|]. cbn [set_localMem cm_localMem]. split.
  - unfold zlen in *. rewrite splice_length; lia.
  - intros i Hi. unfold lmem. cbn [set_localMem cm_localMem]. apply byte_of_splice; lia.
Qed.

Lemma set_localMem_wf m bytes : cta_wf m -> zlen bytes = FrozenLocalMemSize -> cta_wf (set_localMem bytes m).
Proof. intros [] Hb. by split. Qed.

Lemma writeLocal_law m w a src :
  cta_wf m -> idx4 w -> 0 <= a < 2 ^ 32 -> zlen src < 2 ^ 32 ->
  match cta_of m w with
  | Some c =>
      if in_window c a (zlen src) then
        exists m', writeLocal m w a src = (m', Ok tt) /\ m' = set_localMem (cm_localMem m') m /\ zlen (cm_localMem m') = FrozenLocalMemSize /\
        forall i, 0 <= i -> lmem m' i = overlay (physical c a) src (lmem m) i
      else writeLocal m w a src = (m, Err ErrLocalMemoryRange)
  | None => writeLocal m w a src = (m, Err ErrLocalMemoryRange)
  end.
Proof.
  intros Hw Hi Ha Hn. pose proof (zlen_nonneg src) as Hz. unfold writeLocal. rewrite localRange_law by done.
  destruct (cta_of m w) as [c|] eqn:Ec; [|done]. destruct (in_window c a (zlen src)) eqn:Ein; [|done].
  destruct (physical_range m w c a (zlen src) Hw Ec Ein Hz) as (P0 & P1 & P2 & P3). cbn [result_bind].
  destruct (local_copy_law m (physical c a) src Hw P0) as (m' & -> & Hm & Hl & Hb); [lia|]. by exists m'.
Qed.

(** Bytes of another CTA are elsewhere. *)
Lemma blocks_disjoint m w w' c c' i : cta_wf m -> idx4 w -> idx4 w' -> cta_of m w = Some c -> cta_of m w' = Some c' -> c <> c' ->
  ct_backingOffset c <= i < end_of c -> ~ ct_backingOffset c' <= i < end_of c'.
Proof.
  intros Hw Hi Hi' Hc Hc' Hne Hin Hin'. unfold cta_of in *.
  destruct (qget (cm_byWarp m) w) as [k|]; [|done]. destruct (qget (cm_byWarp m) w') as [k'|]; [|done].
  destruct (Z.eq_dec (wk_ctaID k) (wk_ctaID k')) as [E|Hk]; [rewrite E in Hc; congruence|].
  pose proof (cw_apart m Hw _ _ c c' Hk Hc Hc') as Hap. unfold blocks_apart, apart, end_of in *. cbn [fst snd] in Hap. lia.
Qed.

(** ** Isolation *)

Lemma cta_of_localMem bytes m w : cta_of (set_localMem bytes m) w = cta_of m w. Proof. done. Qed.

Lemma overlay_block offset src f i : ~ offset <= i < offset + zlen src -> overlay offset src f i = f i.
Proof. intros H. unfold overlay. destruct (Z.leb_spec offset i), (Z.ltb_spec i (offset + zlen src)); try done. lia. Qed.

(** What a read sees of a manager that differs by one write of [src] at [o]. *)
Lemma readLocal_ext m m' w a n :
  cta_wf m -> cta_wf m' -> m' = set_localMem (cm_localMem m') m -> idx4 w -> 0 <= a < 2 ^ 32 -> 0 <= n < 2 ^ 32 ->
  (forall c i, cta_of m w = Some c -> in_window c a n = true -> a <= i < a + n -> lmem m' (physical c i) = lmem m (physical c i)) ->
  readLocal m' w a n = readLocal m w a n.
Proof.
  intros Hw Hw' E Hi Ha Hn Hb. rewrite !readLocal_law by done. rewrite E, cta_of_localMem. rewrite <- E.
  destruct (cta_of m w) as [c|] eqn:Ec; [|done]. destruct (in_window c a n) eqn:Ein; [|done]. f_equal.
  apply map_ext_in. intros i Hin%list_elem_of_In%elem_of_zrange. by apply Hb.
Qed.

(** C32: local memory is private to its CTA.  A write through a warp is invisible to
    every warp of another CTA; to the warps of the same CTA the next read of the
    range returns what was written and reads elsewhere are unchanged; a write outside
    the block changes nothing, and no access ever leaves the physical array. *)
Theorem local_memory_isolation m w a src :
  cta_wf m -> idx4 w -> 0 <= a < 2 ^ 32 -> zlen src < 2 ^ 32 ->
  let m' := (writeLocal m w a src).1 in
  cta_wf m' /\
  (forall w' a' n, idx4 w' -> 0 <= a' < 2 ^ 32 -> 0 <= n < 2 ^ 32 -> cta_of m w' <> cta_of m w -> readLocal m' w' a' n = readLocal m w' a' n) /\
  match (writeLocal m w a src).2 with
  | Ok _ => forall w', idx4 w' -> cta_of m w' = cta_of m w ->
      readLocal m' w' a (zlen src) = Ok src /\
      (forall a' n, 0 <= a' < 2 ^ 32 -> 0 <= n < 2 ^ 32 -> a' + n <= a \/ a + zlen src <= a' -> readLocal m' w' a' n = readLocal m w' a' n)
  | Err e => m' = m /\ e = ErrLocalMemoryRange
  end.
Proof.
  intros Hw Hi Ha Hn. pose proof (zlen_nonneg src) as Hz. pose proof (writeLocal_law m w a src Hw Hi Ha Hn) as H.
  destruct (cta_of m w) as [c|] eqn:Ec; [|by rewrite H]. destruct (in_window c a (zlen src)) eqn:Ein; [|by rewrite H].
  destruct H as (m' & -> & E & Hl & Hb). cbn [fst snd]. destruct (physical_range m w c a (zlen src) Hw Ec Ein Hz) as (P0 & P1 & P2 & P3).
  assert (cta_wf m') as Hw' by (rewrite E; by apply set_localMem_wf). split; [done|]. split.
  - intros w' a' n Hi' Ha' Hn' Hne. apply readLocal_ext; [done..|]. intros c' i Hc' Hin' Hr.
    destruct (physical_range m w' c' i 1 Hw Hc') as (Q0 & Q1 & Q2 & _);
      [unfold in_window in *; apply andb_true_iff in Hin' as [?%Z.leb_le ?%Z.leb_le]; apply andb_true_iff; rewrite !Z.leb_le; lia|lia|].
    rewrite Hb by done. apply overlay_block. intros Hov.
    apply (blocks_disjoint m w w' c c' (physical c' i) Hw Hi Hi' Ec Hc'); [congruence|lia|lia].
  - intros w' Hi' Hs. split.
    + rewrite readLocal_law by (done || lia). rewrite E, cta_of_localMem, <- E, Hs, Ein. f_equal. apply list_eq. intros k.
      rewrite list_lookup_fmap. destruct (decide (k < length src)%nat) as [Hk|Hk].
      * rewrite lookup_zrange by (unfold zlen; lia). cbn. rewrite Hb by (unfold physical in *; lia). unfold overlay, physical in *. unfold zlen in *.
        destruct (Z.leb_spec (ct_backingOffset c + (a - la_Address (ct_allocation c))) (ct_backingOffset c + (a + Z.of_nat k - la_Address (ct_allocation c)))); [|lia].
        destruct (Z.ltb_spec (ct_backingOffset c + (a + Z.of_nat k - la_Address (ct_allocation c)))
          (ct_backingOffset c + (a - la_Address (ct_allocation c)) + Z.of_nat (length src))); [|lia]. cbn [andb].
        replace (_ - _) with (Z.of_nat k) by lia. unfold byte_of. rewrite Nat2Z.id.
        by destruct (lookup_lt_is_Some_2 src k Hk) as [x ->].
      * rewrite (lookup_ge_None_2 (zrange _ _)) by (rewrite zrange_length; unfold zlen; lia). by rewrite lookup_ge_None_2 by lia.
    + intros a' n Ha' Hn' Hd. apply readLocal_ext; [done..|]. intros c' i Hc' Hin' Hr. rewrite Hs in Hc'. injection Hc' as <-.
      assert (0 <= physical c i) by (unfold in_window in Hin'; apply andb_true_iff in Hin' as [?%Z.leb_le _];
        destruct (cta_of_ok m w c Hw Ec) as (? & _); unfold physical; lia).
      rewrite Hb by done. apply overlay_block. unfold physical in *. lia.
Qed.

(** ** The route as a memory service *)

Lemma localOffsets_inv m w previous writes offsets :
  cta_wf m -> idx4 w -> Forall (fun e => access_typed e.1 e.2) writes -> localOffsets m w previous writes = Ok offsets ->
  Forall2 (fun o e => 0 <= o /\ o + zlen e.2 <= FrozenLocalMemSize) offsets writes.
Proof.
  intros Hw Hi Ht. revert previous offsets. induction Ht as [|[a src] ws [Ha Hl] Ht IH]; intros previous offsets H; cbn [localOffsets] in H.
  { by apply Ok_inj in H as <-. }
  cbn [fst snd] in *. pose proof (zlen_nonneg src) as Hz. rewrite localRange_law in H by (done || lia).
  destruct (cta_of m w) as [c|] eqn:Ec; [|done]. destruct (in_window c a (zlen src)) eqn:Ein; [|done]. cbn [result_bind] in H. pass_check.
  apply result_bind_ok in H as (rest & Hr & <-%Ok_inj). destruct (physical_range m w c a (zlen src) Hw Ec Ein Hz) as (P0 & P1 & P2 & P3).
  constructor; [cbn; lia|by eapply IH].
Qed.

Lemma copyAll_ok m copies :
  cta_wf m -> Forall (fun e => 0 <= e.1 /\ e.1 + zlen e.2 <= FrozenLocalMemSize) copies ->
  exists m', copyAll m copies = Ok m' /\ cta_wf m' /\ m' = set_localMem (cm_localMem m') m.
Proof.
  intros Hw Hc. unfold copyAll. revert m Hw. induction Hc as [|[o src] cs [H0 H1] Hc IH]; intros m Hw; cbn [foldM].
  { exists m. split_and!; [done|done|]. by destruct m. }
  cbn [fst snd] in *. destruct (local_copy_law m o src Hw H0 H1) as (m1 & -> & E & Hl & _). cbn [result_bind].
  assert (cta_wf m1) as Hw1 by (rewrite E; by apply set_localMem_wf).
  destruct (IH m1 Hw1) as (m' & -> & Hw' & E'). exists m'. split_and!; [done|done|]. rewrite E', E. by destruct m.
Qed.

Lemma access_typed_zip addresses sources : Forall2 access_typed addresses sources ->
  Forall (fun e => access_typed e.1 e.2) (zip addresses sources).
Proof. induction 1; by constructor. Qed.

Lemma zip_sources offsets (writes : list (Z * list Z)) P :
  Forall2 (fun o e => P o e.2) offsets writes -> Forall (fun e : Z * list Z => P e.1 e.2) (zip offsets (map snd writes)).
Proof. induction 1; cbn; by constructor. Qed.

Lemma writeLocalWithExternal_law {Y} m (y : Y) w addresses sources external :
  cta_wf m -> idx4 w -> Forall2 access_typed addresses sources ->
  let out := writeLocalWithExternal m y w addresses sources external in
  cta_wf out.1.1 /\ out.1.1 = set_localMem (cm_localMem out.1.1) m /\
  (out.1.2 = y \/ exists f, external = Some f /\ out.1.2 = (f y).1) /\
  (forall e, out.2 = Err e -> out.1.1 = m /\ (out.1.2 = y \/ exists f, external = Some f /\ f y = (out.1.2, Err e))).
Proof.
  intros Hw Hi Ht. unfold writeLocalWithExternal. destruct (localOffsets _ _ _ _) as [offsets|e] eqn:Eo;
    [|cbn; split_and!; [done|by destruct m|by left|intros ? _; split; [done|by left]]].
  assert (map snd (zip addresses sources) = sources) as Es by (clear -Ht; induction Ht; cbn; [done|by f_equal]).
  apply localOffsets_inv in Eo; [|done|done|by clear -Ht; induction Ht; constructor].
  apply (zip_sources _ _ (fun o s => 0 <= o /\ o + zlen s <= FrozenLocalMemSize)) in Eo. rewrite Es in Eo.
  destruct (copyAll_ok m (zip offsets sources) Hw Eo) as (m' & Hm' & Hw' & E').
  destruct external as [f|]; [destruct (f y) as [y' [[]|e]] eqn:Ef|]; rewrite ?Hm'; cbn [fst snd]; split_and!; try done;
    try (by left); try (right; exists f; by rewrite Ef); try (by destruct m); try (intros e' [= <-]; split; [done|right; by exists f]).
Qed.

Lemma contract_weaken {X} (I J : X -> Prop) s : (forall x, J x -> I x) -> ServiceContract I s -> ServiceContract J s.
Proof. intros Hj [Hw Hb]. split; [intros; eapply Hw; eauto|intros; eapply Hb; eauto]. Qed.

Section RouteContract.
Context {X : Type} (I : X -> Prop) (global : DataService X) (w : Z) (base : CTAManager).
Hypothesis Hwarp : idx4 w.

(** The owner's invariant on both sides of the route; the manager differs from [base]
    in its local bytes only. *)
Definition route_inv (s : CTAManager * X) : Prop := (cta_wf s.1 /\ s.1 = set_localMem (cm_localMem s.1) base) /\ I s.2.

Lemma same_membership m m' : m = set_localMem (cm_localMem m) base -> m' = set_localMem (cm_localMem m') m ->
  m' = set_localMem (cm_localMem m') base.
Proof. intros E ->. by rewrite E. Qed.

Lemma routes_typed addresses sources l r :
  Forall2 access_typed addresses sources -> foldM routeEntry ([], []) (zip addresses sources) = Ok (l, r) ->
  Forall2 access_typed (map fst l) (map snd l) /\ Forall2 access_typed (map fst r) (map snd r).
Proof.
  intros Ht H. pose proof (access_typed_zip _ _ Ht) as Hz.
  rewrite Forall_forall in Hz.
  apply (foldM_inv _ (fun acc => Forall2 access_typed (map fst acc.1) (map snd acc.1) /\ Forall2 access_typed (map fst acc.2) (map snd acc.2))) in H;
    [done|done|]. intros [l0 r0] [a s] acc' Hin [Hl Hr] E. unfold routeEntry in E. cbn [fst snd] in *.
  apply result_bind_ok in E as (route & _ & <-%Ok_inj). specialize (Hz _ Hin). cbn in Hz.
  destruct route; cbn [fst snd]; rewrite !map_app; split; try done; apply Forall2_app; try done; (apply Forall2_cons; split; [done|apply Forall2_nil_2]).
Qed.

Lemma CTAMemory_WriteBatch_law `{!ServiceContract I global} s addresses sources :
  route_inv s -> Forall2 access_typed addresses sources -> (service_keeps global I -> route_inv (CTAMemory_WriteBatch global w s addresses sources).1) /\
  (forall e, (CTAMemory_WriteBatch global w s addresses sources).2 = Err e -> (CTAMemory_WriteBatch global w s addresses sources).1 = s).
Proof.
  intros [[Hm Hbase] Hx] Ht. destruct s as [m x]. cbn [fst snd] in *. unfold CTAMemory_WriteBatch. rewrite (Forall2_length _ _ _ Ht), Nat.eqb_refl. cbn [negb].
  destruct (foldM routeEntry _ _) as [[l r]|] eqn:Er; [|by split]. destruct (routes_typed _ _ _ _ Ht Er) as [Hl Hr]. cbn [fst snd].
  destruct (length r =? 0)%nat.
  { destruct (writeLocalWithExternal_law m x w addresses sources None Hm Hwarp Ht) as (Hw' & Hs' & Hy & He).
    destruct (writeLocalWithExternal _ _ _ _ _ _) as [[m' x'] res]. cbn [fst snd] in *. pose proof (same_membership _ _ Hbase Hs') as Hb'.
    assert (x' = x) as -> by (by destruct Hy as [?|(f & [=] & _)]). split; [done|]. intros e E. by destruct (He e E) as [-> _]. }
  destruct (dsv_WriteBatch global) as [batch|] eqn:Eb; [|by split]. destruct (length l =? 0)%nat.
  { destruct (batch x (map fst r) (map snd r)) as [x' res] eqn:Ex. cbn [fst snd]. split.
    - intros Hk. split; [done|]. pose proof (sk_batch global I Hk batch x (map fst r) (map snd r) Eb Hx Hr) as Hx'. by rewrite Ex in Hx'.
    - intros e ->. f_equal. by eapply (sc_batch batch). }
  destruct (writeLocalWithExternal_law m x w (map fst l) (map snd l) (Some (fun x => batch x (map fst r) (map snd r))) Hm Hwarp Hl) as (Hw' & Hs' & Hy & He).
  destruct (writeLocalWithExternal _ _ _ _ _ _) as [[m' x'] res]. cbn [fst snd] in *. pose proof (same_membership _ _ Hbase Hs') as Hb'. split.
  - intros Hk. split; [done|]. cbn. destruct Hy as [->|(f & [= <-] & ->)]; [done|]. by apply (sk_batch global I Hk batch).
  - intros e E. destruct (He e E) as [-> [->|(f & [= <-] & Ef)]]; [done|]. f_equal. by eapply (sc_batch batch).
Qed.

Lemma CTAMemory_Write_law `{!ServiceContract I global} s a src :
  route_inv s -> access_typed a src -> (service_keeps global I -> route_inv (CTAMemory_Write global w s a src).1) /\
  (forall e, (CTAMemory_Write global w s a src).2 = Err e -> (CTAMemory_Write global w s a src).1 = s).
Proof.
  intros [[Hm Hbase] Hx] [Ha Hl]. destruct s as [m x]. cbn [fst snd] in *. unfold CTAMemory_Write.
  destruct (classifyMemoryRange a (zlen src)) as [[|]|]; [..|by split]; cbn [fst snd].
  - destruct (dsv_Write global x a src) as [x' res] eqn:Ex. cbn [fst snd]. split.
    + intros Hk. split; [done|]. pose proof (sk_write global I Hk x a src Hx (conj Ha Hl)) as Hx'. by rewrite Ex in Hx'.
    + intros e ->. f_equal. by eapply sc_write.
  - pose proof (writeLocal_law m w a src Hm Hwarp Ha ltac:(lia)) as Hwl.
    assert (forall m' res, writeLocal m w a src = (m', res) -> (cta_wf m' /\ m' = set_localMem (cm_localMem m') base) /\ (forall e, res = Err e -> m' = m)) as Hk.
    { intros m' res E. destruct (cta_of m w) as [c|]; [destruct (in_window c a (zlen src))|].
      - destruct Hwl as (m1 & E1 & Em & Hb & _). rewrite E in E1. injection E1 as -> ->. split; [|done]. split; [rewrite Em; by apply set_localMem_wf|].
        by apply (same_membership m).
      - rewrite Hwl in E. by injection E as <- _.
      - rewrite Hwl in E. by injection E as <- _. }
    destruct (writeLocal m w a src) as [m' res]. destruct (Hk m' res eq_refl) as [Hw' He]. cbn [fst snd]. split; [done|]. intros e E. by rewrite (He e E).
Qed.

#[export] Instance CTAMemory_contract `{!ServiceContract I global} : ServiceContract route_inv (CTAMemory global w).
Proof.
  split; cbn.
  - intros s a src s' e Hs Ht E. destruct (CTAMemory_Write_law s a src Hs Ht) as [_ He]. rewrite E in He. by apply (He e).
  - intros f s addresses sources s' e Hs Ht [= <-] E. destruct (CTAMemory_WriteBatch_law s addresses sources Hs Ht) as [_ He]. rewrite E in He.
    by apply (He e).
Qed.

Lemma CTAMemory_keeps `{!ServiceContract I global} : service_keeps global I -> service_keeps (CTAMemory global w) route_inv.
Proof.
  intros Hk. split; cbn.
  - intros s a src Hs Ht. by apply CTAMemory_Write_law.
  - intros f s addresses sources [= <-] Hs Ht. by apply CTAMemory_WriteBatch_law.
Qed.
End RouteContract.

Section RoutedStep.
Context {L : SoftFloatLib} {HL : SoftFloatLaws L}.

(** A warp whose data accesses are routed through its CTA executes atomically
    over both owners: a SIMT store may mix local and global lanes, and yet a step
    that neither retires nor traps leaves the warp, the CTA manager (membership and
    local bytes) and the global memory exactly as they were; every step keeps all
    three invariants and never changes the membership. *)
Theorem routed_step_atomic {X} (I : X -> Prop) (global : DataService X) (code : InstructionSource (CTAManager * X)) id w m x context w' m' x' r :
  idx4 id -> ServiceContract I global -> service_keeps global I ->
  warp_wf w -> context_typed context -> cta_wf m -> I x ->
  Step (mkWarp code (Some (CTAMemory global id))) w (m, x) context = (w', (m', x'), r) ->
  (warp_wf w' /\ cta_wf m' /\ m' = set_localMem (cm_localMem m') m /\ I x') /\
  (r_Outcome r <> OutcomeRetired -> r_Outcome r <> OutcomeTrap -> w' = w /\ m' = m /\ x' = x).
Proof.
  intros Hid Hc Hk Hw Hctx Hm Hx E. set (services := mkWarp code (Some (CTAMemory global id))) in *.
  assert (route_inv I m (m, x)) as Hinv by (split; [split; [done|by destruct m]|done]). split.
  - destruct (stepBody_wf services (route_inv I m) w (m, x) context) as (? & [? ?] & ?); try done.
    + intros memory [= <-]. by apply CTAMemory_keeps.
    + unfold Step in E. destruct (stepBody services w (m, x) context) as [[w1 s1] r1]. injection E as <- -> _. done.
  - intros Hr Ht. destruct (Step_unchanged (route_inv I m) services w (m, x) context w' (m', x') r) as [-> [= -> ->]]; try done.
    intros memory [= <-]. by apply CTAMemory_contract.
Qed.
End RoutedStep.

Example local_memory_isolation_witness :
  let m' := (writeLocal example_manager 1 0xffff0000 [7; 8]).1 in
  readLocal m' 1 0xffff0000 2 = Ok [7; 8] /\ readLocal m' 2 0xffff0000 2 = readLocal example_manager 2 0xffff0000 2.
Proof.
  intros m'. assert (cta_of example_manager 2 <> cta_of example_manager 1) as Hne
    by (intros E; apply (f_equal (fmap (fun c => cc_ID (ct_config c)))) in E; vm_compute in E; discriminate E).
  assert ((writeLocal example_manager 1 0xffff0000 [7; 8]).2 = Ok tt) as Hok by (vm_compute; reflexivity).
  destruct (local_memory_isolation example_manager 1 0xffff0000 [7; 8]) as (_ & Hother & Hsame);
    [apply example_manager_wf|by right; left|lia|done|]. rewrite Hok in Hsame. split.
  - apply (Hsame 1); [by right; left|done].
  - apply Hother; [by right; right; left|lia|lia|exact Hne].
Defined.

(** A step of warp 1 of the example CTA, fetching from a memory image. *)
Definition image_source : InstructionSource (CTAManager * Memory) :=
  mkInstructionSource (fun s a n => Memory_Read s.2 a n) None.

Example routed_step_atomic_witness :
  exists w' m' x' r, Step (mkWarp image_source (Some (CTAMemory memory_service 1))) example_start (example_manager, example_memory) example_context =
    (w', (m', x'), r) /\ warp_wf w' /\ cta_wf m'.
Proof.
  destruct (Step (mkWarp image_source (Some (CTAMemory memory_service 1))) example_start (example_manager, example_memory) example_context)
    as [[w' [m' x']] r] eqn:E. exists w', m', x', r. split; [reflexivity|].
  destruct (routed_step_atomic (fun m => svc_wf m /\ svc_size m = svc_size example_memory) memory_service image_source 1 example_start
    example_manager example_memory example_context w' m' x' r) as [(Hw & Hm & _) _].
  - by right; left.
  - apply (contract_weaken (fun _ => True)); [done|apply Memory_contract].
  - apply memory_keeps.
  - apply example_start_wf.
  - apply example_context_typed.
  - apply example_manager_wf.
  - split; [vm_compute; discriminate|reflexivity].
  - exact E.
  - exact (conj Hw Hm).
Defined.
