(* ===== verification/Barrier.v ===== *)
(** * The barrier coordinator (src/emu/core/barrier.go)

    The coordinator owns one record per (CTA, address warp, barrier id).  A request is
    staged against the canonical record, checked again at commit, and reports which
    warps the scheduler must block or release.  The records are the [cm_barriers]
    field of the CTA manager; a missing record reads as the zero record. *)

From S2P Require Import Prelude IsaTypes Integer System Memory WarpExec Cta.

#[local] Open Scope Z_scope.
#[local] Open Scope go_scope.

Definition frozenBarrierCount : Z := 8.
Definition frozenMaxBarEvents : Z := 32.

Record BarrierSnapshot := mkBarrierSnapshot {
  bs_Key : BarrierKey;
  bs_Arrivals : WarpMask;
  bs_Waiters : WarpMask;
  bs_ParticipantCount : Z;
  bs_Events : Z;
  bs_Phase : bool;
  bs_ArrivalsComplete : bool
}.

Record BarrierResult := mkBarrierResult { bres_Key : BarrierKey; bres_Block : bool; bres_Releases : WarpMask }.

Record BarrierStage := mkBarrierStage {
  bst_key : BarrierKey;
  bst_before : barrierRecord;
  bst_beforeValid : bool;
  bst_after : barrierRecord;
  bst_result : BarrierResult;
  bst_committed : bool
}.

#[export] Instance BarrierSnapshot_eq_dec : EqDecision BarrierSnapshot. Proof. solve_decision. Defined.
#[export] Instance BarrierResult_eq_dec : EqDecision BarrierResult. Proof. solve_decision. Defined.

Definition no_barrier : barrierRecord := mkBarrierRecord 0 0 0 0 false false.
Definition no_key : BarrierKey := mkBarrierKey 0 0 0.
Definition no_snapshot : BarrierSnapshot := mkBarrierSnapshot no_key 0 0 0 0 false false.

Definition record_of (records : gmap BarrierKey barrierRecord) (key : BarrierKey) : barrierRecord := default no_barrier (records !! key).

(** The map of the coordinator, which exists once a manager is attached. *)
Definition records_of (m : CTAManager) : gmap BarrierKey barrierRecord := default ∅ (cm_barriers m).

Definition NewBarrierCoordinator (m : CTAManager) : CTAManager * result unit :=
  if (size (cm_ctas m) =? 0)%nat && negb (cm_dynamic m) then (m, Err (Errorf "core: cannot bind barriers to an empty CTA manager"))
  else
    let m := set_sealed true m in
    match cm_barriers m with
    | Some _ => (m, Ok tt)
    | None => (set_barriers (Some ∅) m, Ok tt)
    end.

Definition barriers_empty (m : CTAManager) : bool :=
  match cm_barriers m with None => false | Some records => (size records =? 0)%nat end.

(** [barrierView]: the phases and records of a CTA's address warps, indexed by warp and barrier id. *)
Record barrierView := mkBarrierView {
  bv_ctaID : Z;
  bv_phases : quad (list bool);
  bv_records : quad (list BarrierSnapshot)
}.

Definition snapshotBarrier (key : BarrierKey) (r : barrierRecord) : BarrierSnapshot :=
  mkBarrierSnapshot key (br_arrivals r) (br_waiters r) (br_participantCount r) (br_events r) (br_phase r) (br_arrivalsComplete r).

Definition maskCount (mask : WarpMask) : Z := fold4 (fun count id => if WarpMask_Active mask id then count + 1 else count) 0.

Definition validateKey (m : CTAManager) (key : BarrierKey) : result unit :=
  check negb ((bk_AddressWarp key >=? FrozenWarpCount) || (bk_ID key >=? frozenBarrierCount)) else Errorf "core: barrier key exceeds frozen topology" in
  let? cta := CTAManager_Snapshot m (bk_CTAID key) in
  check existsb (fun member => wmb_WarpID member =? bk_AddressWarp key) (cs_Members cta)
    else Errorf "core: barrier AddressWarp is not a member of the CTA" in
  Ok tt.

Definition keyForEffect (m : CTAManager) (effect : BarrierEffect) : result (BarrierKey * Z) :=
  check negb ((be_WarpID effect >=? FrozenWarpCount) || (be_AddressWarp effect >=? FrozenWarpCount) || (be_ID effect >=? frozenBarrierCount))
    else Errorf "core: barrier address exceeds frozen topology" in
  check negb (be_Global effect) else Errorf "core: global barrier is unsupported" in
  check negb (negb (be_DrainLSU effect) || (negb (be_ReleaseByCoordinator effect) && be_Wait effect))
    else Errorf "core: barrier drain/release metadata is invalid" in
  match ViewForWarp m (be_WarpID effect) with
  | Err _ => Err (Errorf "core: barrier source membership")
  | Ok source =>
      match ViewForWarp m (be_AddressWarp effect) with
      | Err _ => Err (Errorf "core: barrier AddressWarp is not in source CTA")
      | Ok address =>
          check cta_ID address =? cta_ID source else Errorf "core: barrier AddressWarp is not in source CTA" in
          Ok (mkBarrierKey (cta_ID source) (be_AddressWarp effect) (be_ID effect), u8 (cta_Size source))
      end
  end.

(** [size-minus-one]: [uint8((uint32(count)-1)&0x1f)] *)
Definition size_field (count : Z) : Z := u8 (u32 (count - 1) .& 0x1f).

(** The record once its arrivals and events are complete. *)
Definition open_record (r : barrierRecord) : barrierRecord :=
  mkBarrierRecord 0 0 0 (br_events r) (negb (br_phase r)) false.

Definition stageEvent (key : BarrierKey) (effect : BarrierEffect) (r : barrierRecord) : result (barrierRecord * BarrierResult) :=
  check negb ((be_Kind effect !=. BarrierArrive) || be_Arrive effect || be_Wait effect || be_Sync effect ||
      be_ReleaseByCoordinator effect || negb (be_Phase effect) || (be_ExpectCount effect =? 0) ||
      (be_ExpectCount effect >? frozenMaxBarEvents) ||
      ((be_ExpectCount effect <? frozenMaxBarEvents) && (be_ParticipantCount effect <>? be_ExpectCount effect)) ||
      ((be_ExpectCount effect =? frozenMaxBarEvents) && (be_ParticipantCount effect <>? 0)) ||
      (be_SizeMinusOne effect <>? size_field (be_ParticipantCount effect)))
    else Errorf "core: malformed barrier expect-event request" in
  check negb (u16 (br_events r + be_ExpectCount effect) >? frozenMaxBarEvents) else Errorf "core: barrier event count overflow" in
  Ok (mkBarrierRecord (br_arrivals r) (br_waiters r) (br_participantCount r) (u8 (br_events r + be_ExpectCount effect)) (br_phase r) (br_arrivalsComplete r),
      mkBarrierResult key false 0).

Definition stageWait (key : BarrierKey) (effect : BarrierEffect) (r : barrierRecord) : result (barrierRecord * BarrierResult) :=
  check negb (be_Arrive effect || negb (be_Wait effect) || be_Sync effect || negb (Bool.eqb (be_ReleaseByCoordinator effect) (be_Wait effect)) ||
      (be_ExpectCount effect <>? 0) || negb (Bool.eqb (be_Phase effect) (be_ParticipantCount effect .& 1 <>? 0)) ||
      (be_SizeMinusOne effect <>? size_field (be_ParticipantCount effect)))
    else Errorf "core: malformed barrier wait request" in
  if Bool.eqb (be_Phase effect) (br_phase r) then
    let bit := u8 (1 << be_WarpID effect) in
    check br_waiters r .& bit =? 0 else Errorf "core: warp already waits on barrier" in
    Ok (mkBarrierRecord (br_arrivals r) (br_waiters r .| bit) (br_participantCount r) (br_events r) (br_phase r) (br_arrivalsComplete r),
        mkBarrierResult key true 0)
  else Ok (r, mkBarrierResult key false 0).

Definition stageArrival (key : BarrierKey) (memberCount : Z) (effect : BarrierEffect) (r : barrierRecord) : result (barrierRecord * BarrierResult) :=
  check negb (negb (be_Arrive effect) || ((be_Kind effect !=. BarrierArrive) && (be_Kind effect !=. BarrierSync)) ||
      negb (Bool.eqb (be_Sync effect) (be_Kind effect ==. BarrierSync)) || negb (Bool.eqb (be_Wait effect) (be_Sync effect)) ||
      negb (Bool.eqb (be_ReleaseByCoordinator effect) (be_Wait effect)) || (be_ExpectCount effect <>? 0))
    else Errorf "core: malformed barrier arrival request" in
  let count := be_ParticipantCount effect in
  check negb ((count =? 0) || (count >? memberCount) || (be_SizeMinusOne effect <>? u8 (count - 1)))
    else Errorf "core: barrier participant count is invalid for CTA size" in
  check Bool.eqb (be_Phase effect) (count .& 1 <>? 0) else Errorf "core: barrier phase does not match the participant operand" in
  check negb (br_arrivalsComplete r) else Errorf "core: barrier arrivals already complete while events remain" in
  check negb ((br_participantCount r <>? 0) && (br_participantCount r <>? count)) else Errorf "core: barrier participant count changed" in
  let bit := u8 (1 << be_WarpID effect) in
  check br_arrivals r .& bit =? 0 else Errorf "core: duplicate arrival" in
  let arrivals := br_arrivals r .| bit in
  let waiters := if be_Sync effect then br_waiters r .| bit else br_waiters r in
  let block := be_Sync effect in
  if u8 (maskCount arrivals) =? count then
    let complete := mkBarrierRecord arrivals waiters count (br_events r) (br_phase r) true in
    if br_events r =? 0 then Ok (open_record complete, mkBarrierResult key false waiters)
    else Ok (complete, mkBarrierResult key block 0)
  else Ok (mkBarrierRecord arrivals waiters count (br_events r) (br_phase r) (br_arrivalsComplete r), mkBarrierResult key block 0).

(** [stage]; [expected] is the record seen in the phase view, if any. *)
Definition stage_barrier (m : CTAManager) (effect : BarrierEffect) (expected : option BarrierSnapshot) : result BarrierStage :=
  let? keyed := keyForEffect m effect in
  let '(key, memberCount) := keyed in
  let before := record_of (records_of m) key in
  let valid := bool_decide (is_Some (records_of m !! key)) in
  check match expected with
        | Some e => bool_decide (key = bs_Key e) && bool_decide (snapshotBarrier key before = e)
        | None => true
        end else Errorf "core: barrier effect is stale because canonical state changed since phase view" in
  let? out := (if be_Event effect then stageEvent key effect before
               else if be_Kind effect ==. BarrierWait then stageWait key effect before
               else stageArrival key memberCount effect before) in
  Ok (mkBarrierStage key before valid out.1 out.2 false).

Definition Barrier_Stage (m : CTAManager) (effect : BarrierEffect) : result BarrierStage := stage_barrier m effect None.

Definition stageFromView (m : CTAManager) (effect : BarrierEffect) (view : barrierView) : result BarrierStage :=
  check negb ((be_AddressWarp effect >=? FrozenWarpCount) || (be_ID effect >=? frozenBarrierCount))
    else Errorf "core: barrier address exceeds frozen topology" in
  let expected := default no_snapshot (qget (bv_records view) (be_AddressWarp effect) !! Z.to_nat (be_ID effect)) in
  stage_barrier m effect (Some expected).

Definition StageEventCompletion (m : CTAManager) (key : BarrierKey) : result BarrierStage :=
  let? _ := validateKey m key in
  match records_of m !! key with
  | None => Err (Errorf "core: barrier event count underflow")
  | Some before =>
      check br_events before <>? 0 else Errorf "core: barrier event count underflow" in
      let after := mkBarrierRecord (br_arrivals before) (br_waiters before) (br_participantCount before) (u8 (br_events before - 1))
                     (br_phase before) (br_arrivalsComplete before) in
      if (br_events after =? 0) && br_arrivalsComplete after
      then Ok (mkBarrierStage key before true (open_record after) (mkBarrierResult key false (br_waiters after)) false)
      else Ok (mkBarrierStage key before true after (mkBarrierResult key false 0) false)
  end.

(** [BarrierStage.Commit]: the manager, and the stage marked committed. *)
Definition Barrier_Commit (m : CTAManager) (s : BarrierStage) : CTAManager * BarrierStage * result unit :=
  if bst_committed s then (m, s, Err (Errorf "core: barrier stage was already committed"))
  else
    let current := records_of m !! bst_key s in
    let fresh := if bst_beforeValid s then bool_decide (current = Some (bst_before s)) else bool_decide (current = None) in
    if negb fresh then (m, s, Err (Errorf "core: barrier stage is stale because canonical state changed"))
    else (set_barriers (Some (<[bst_key s := bst_after s]> (records_of m))) m,
          mkBarrierStage (bst_key s) (bst_before s) (bst_beforeValid s) (bst_after s) (bst_result s) true, Ok tt).

Definition Barrier_Snapshot (m : CTAManager) (key : BarrierKey) : result BarrierSnapshot :=
  let? _ := validateKey m key in Ok (snapshotBarrier key (record_of (records_of m) key)).

Definition barrier_view (m : CTAManager) (ctaID : Z) : result barrierView :=
  let? cta := CTAManager_Snapshot m ctaID in
  let ids := map Z.of_nat (seq 0 (Z.to_nat frozenBarrierCount)) in
  let rec member id := snapshotBarrier (mkBarrierKey ctaID member id) (record_of (records_of m) (mkBarrierKey ctaID member id)) in
  let is_member id := existsb (fun member => wmb_WarpID member =? id) (cs_Members cta) in
  Ok (mkBarrierView ctaID
        (qmake (fun w => if is_member w then map (fun id => bs_Phase (rec w id)) ids else map (fun _ => false) ids))
        (qmake (fun w => if is_member w then map (rec w) ids else map (fun _ => no_snapshot) ids))).

Definition PhaseView (m : CTAManager) (ctaID : Z) : result (quad (list bool)) := let? view := barrier_view m ctaID in Ok (bv_phases view).
