(* ===== verification/BarrierSpec.v ===== *)
(** * Barriers as rendezvous

    The bit-mask records of the coordinator implement an abstract barrier: a
    generation counter, the sets of arrived and of waiting warps, the number of
    participants and the outstanding events.  The barrier opens exactly when all
    participants have arrived and no event is outstanding; opening releases all
    waiters and starts the next generation. *)

From S2P Require Import Prelude IsaTypes Integer System Memory WarpExec Cta CtaInvariant Barrier.

#[local] Open Scope Z_scope.
#[local] Open Scope go_scope.

(** ** The abstract barrier *)

Record barrier := mkBarrier {
  b_generation : nat;
  b_arrived : gset Z;
  b_waiting : gset Z;
  b_participants : option Z;
  b_events : Z
}.

(** What the scheduler is told: does the source block, and who is released. *)
Definition verdict : Type := bool * gset Z.

Definition b_full (b : barrier) : bool :=
  match b_participants b with Some n => Z.of_nat (size (b_arrived b)) =? n | None => false end.

Definition b_open (b : barrier) : barrier := mkBarrier (S (b_generation b)) ∅ ∅ None (b_events b).

(** Open when full and quiet. *)
Definition b_settle (b : barrier) (block : bool) : barrier * verdict :=
  if b_full b && (b_events b =? 0) then (b_open b, (false, b_waiting b)) else (b, (block, ∅)).

Definition b_arrive (sync : bool) (count w : Z) (b : barrier) : barrier * verdict :=
  b_settle (mkBarrier (b_generation b) (b_arrived b ∪ {[w]}) (if sync then b_waiting b ∪ {[w]} else b_waiting b) (Some count) (b_events b)) sync.

(** A waiter names the phase of the generation it waits for. *)
Definition b_wait (phase : bool) (w : Z) (b : barrier) : barrier * verdict :=
  if Bool.eqb phase (Nat.odd (b_generation b))
  then (mkBarrier (b_generation b) (b_arrived b) (b_waiting b ∪ {[w]}) (b_participants b) (b_events b), (true, ∅))
  else (b, (false, ∅)).

Definition b_expect (n : Z) (b : barrier) : barrier * verdict :=
  (mkBarrier (b_generation b) (b_arrived b) (b_waiting b) (b_participants b) (b_events b + n), (false, ∅)).

Definition b_complete (b : barrier) : barrier * verdict :=
  b_settle (mkBarrier (b_generation b) (b_arrived b) (b_waiting b) (b_participants b) (b_events b - 1)) false.

(** ** Masks as sets *)

Definition warp_set (mask : WarpMask) : gset Z := list_to_set (List.filter (WarpMask_Active mask) [0; 1; 2; 3]).
Definition warp_mask (mask : WarpMask) : Prop := 0 <= mask < 16.

Lemma elem_of_warp_set mask w : w ∈ warp_set mask <-> idx4 w /\ WarpMask_Active mask w = true.
Proof.
  unfold warp_set. rewrite elem_of_list_to_set, list_elem_of_In, filter_In. cbn. unfold idx4. naive_solver.
Qed.

Lemma warp_bit_small w : idx4 w -> warp_mask (u8 (1 << w)) /\ u8 (1 << w) = 2 ^ w.
Proof. by intros [-> | [-> | [-> | ->]]]. Qed.

Lemma lor_warp_mask a b : warp_mask a -> warp_mask b -> warp_mask (a .| b).
Proof. unfold warp_mask. intros. apply (lor_bounded 4); lia. Qed.

Lemma warp_set_bit mask w : warp_mask mask -> idx4 w -> warp_set (mask .| u8 (1 << w)) = warp_set mask ∪ {[w]}.
Proof.
  intros Hm Hw. apply set_eq. intros x. rewrite elem_of_union, elem_of_singleton, !elem_of_warp_set.
  destruct (decide (idx4 x)) as [Hx|Hx]; [|split; [tauto|intros [?|?]; subst; tauto]].
  assert (WarpMask_Active (mask .| u8 (1 << w)) x = WarpMask_Active mask x || (w =? x)) as ->.
  { rewrite <- set_warp_bit by done. f_equal. symmetry. destruct (warp_bit_small w Hw) as [Hb _].
    pose proof (lor_warp_mask _ _ Hm Hb) as Hl. unfold u8 at 1. apply Z.mod_small. unfold warp_mask in Hl. lia. }
  rewrite orb_true_iff, Z.eqb_eq. naive_solver.
Qed.

Lemma warp_set_absent mask w : idx4 w -> mask .& u8 (1 << w) = 0 <-> w ∉ warp_set mask.
Proof.
  intros Hw. rewrite elem_of_warp_set, WarpMask_Active_testbit by done. destruct (warp_bit_small w Hw) as [_ ->]. apply idx4_range in Hw as Hr.
  rewrite <- Z.shiftl_1_l. pose proof (land_pow2_testbit mask w ltac:(lia)) as E. rewrite <- E.
  destruct (Z.eqb_spec (mask .& (1 << w)) 0); naive_solver.
Qed.

Lemma warp_masks mask : warp_mask mask -> In mask (map Z.of_nat (seq 0 16)).
Proof. intros H. unfold warp_mask in H. apply in_map_iff. exists (Z.to_nat mask). rewrite in_seq. lia. Qed.

Lemma maskCount_sizes : forallb (fun mask => maskCount mask =? Z.of_nat (size (warp_set mask))) (map Z.of_nat (seq 0 16)) = true.
Proof. vm_compute. reflexivity. Qed.

Lemma maskCount_size mask : warp_mask mask -> maskCount mask = Z.of_nat (size (warp_set mask)).
Proof. intros H%warp_masks. pose proof maskCount_sizes as Hs. rewrite forallb_forall in Hs. by apply Z.eqb_eq, Hs. Qed.

Lemma maskCount_range mask : 0 <= maskCount mask <= 4.
Proof. unfold maskCount, fold4. repeat case_match; lia. Qed.

(** ** Refinement *)

Record record_wf (r : barrierRecord) : Prop := {
  rw_arrivals : warp_mask (br_arrivals r);
  rw_waiters : warp_mask (br_waiters r);
  rw_count : 0 <= br_participantCount r < 256;
  rw_events : 0 <= br_events r <= frozenMaxBarEvents;
  rw_idle : br_participantCount r = 0 -> br_arrivals r = 0 /\ br_arrivalsComplete r = false;
  rw_busy : br_participantCount r <> 0 ->
    maskCount (br_arrivals r) <= br_participantCount r /\
    br_arrivalsComplete r = (maskCount (br_arrivals r) =? br_participantCount r);
  rw_quiet : br_arrivalsComplete r = true -> 0 < br_events r
}.

(** The abstract barrier of a record in generation [g]. *)
Definition abs (g : nat) (r : barrierRecord) : barrier :=
  mkBarrier g (warp_set (br_arrivals r)) (warp_set (br_waiters r))
    (if br_participantCount r =? 0 then None else Some (br_participantCount r)) (br_events r).

Definition in_phase (g : nat) (r : barrierRecord) : Prop := br_phase r = Nat.odd g.

Definition told (res : BarrierResult) : verdict := (bres_Block res, warp_set (bres_Releases res)).

Lemma no_barrier_wf : record_wf no_barrier.
Proof. by split. Qed.

Lemma open_wf r : 0 <= br_events r <= frozenMaxBarEvents -> record_wf (open_record r).
Proof. intros H. by split. Qed.

Lemma abs_open g r : abs (S g) (open_record r) = b_open (abs g r).
Proof. reflexivity. Qed.

Lemma in_phase_open g r : in_phase g r -> in_phase (S g) (open_record r).
Proof. unfold in_phase. intros E. cbn [open_record br_phase]. by rewrite E, Nat.odd_succ, <- Nat.negb_odd. Qed.

(** [u8] of a count. *)
Lemma u8_count mask : u8 (maskCount mask) = maskCount mask.
Proof. pose proof (maskCount_range mask). unfold u8. apply Z.mod_small. lia. Qed.

Lemma stageArrival_refines key members e r r' res g :
  record_wf r -> in_phase g r -> idx4 (be_WarpID e) -> 0 <= be_ParticipantCount e < 256 ->
  stageArrival key members e r = Ok (r', res) ->
  record_wf r' /\ bres_Key res = key /\
  exists g', in_phase g' r' /\
  b_arrive (be_Sync e) (be_ParticipantCount e) (be_WarpID e) (abs g r) = (abs g' r', told res).
Proof.
  intros Hr Hg Hw Hc H. unfold stageArrival in H. pass_check. cbv zeta in H. do 5 pass_check.
  set (count := be_ParticipantCount e) in *. set (w := be_WarpID e) in *.
  apply negb_true_iff, orb_false_iff in Heqb0 as [[Hz%Z.eqb_neq _]%orb_false_iff _].
  apply Z.eqb_eq in Heqb4. apply negb_true_iff in Heqb2. apply negb_true_iff in Heqb3.
  destruct (warp_bit_small w Hw) as [Hbit _]. pose proof (lor_warp_mask _ _ (rw_arrivals r Hr) Hbit) as Harr.
  assert (warp_mask (if be_Sync e then br_waiters r .| u8 (1 << w) else br_waiters r)) as Hwait
    by (destruct (be_Sync e); [apply lor_warp_mask; [apply Hr|done]|apply Hr]).
  assert (warp_set (if be_Sync e then br_waiters r .| u8 (1 << w) else br_waiters r) =
    (if be_Sync e then warp_set (br_waiters r) ∪ {[w]} else warp_set (br_waiters r))) as Ews
    by (destruct (be_Sync e); [apply warp_set_bit; [apply Hr|done]|done]).
  pose proof (warp_set_bit _ _ (rw_arrivals r Hr) Hw) as Eas. pose proof (maskCount_size _ Harr) as Ecount.
  unfold b_arrive, b_settle, b_full. cbn [abs b_generation b_arrived b_waiting b_participants b_events]. rewrite <- Eas, <- Ews, <- Ecount.
  rewrite u8_count in H. set (arrivals := br_arrivals r .| u8 (1 << w)) in *. set (waiters := if be_Sync e then _ else br_waiters r) in *.
  destruct (Z.eqb_spec (maskCount arrivals) count) as [E|E].
  - destruct (Z.eqb_spec (br_events r) 0) as [Ez|Ez]; apply Ok_inj in H as [= <- <-].
    + split; [by apply open_wf; rewrite Ez|]. split; [done|]. exists (S g). split; [by apply in_phase_open|].
      cbn. unfold abs, told. cbn. by rewrite Ez.
    + split; [|split; [done|exists g; split; [done|]]].
      * pose proof (rw_events r Hr). split; cbn; try done; [|lia]. intros _. by rewrite E, Z.eqb_refl.
      * cbn. unfold abs, told. cbn. by rewrite (proj2 (Z.eqb_neq _ _) Hz).
  - apply Ok_inj in H as [= <- <-]. split; [|split; [done|exists g; split; [done|]]].
    + split; cbn; try done; [apply Hr|..].
      * intros _. rewrite Heqb2, (proj2 (Z.eqb_neq _ _) E). split; [|done].
        assert (maskCount arrivals <= maskCount (br_arrivals r) + 1) as Hle.
        { rewrite (maskCount_size _ (rw_arrivals r Hr)), Ecount, Eas.
          pose proof (size_union_alt (warp_set (br_arrivals r)) {[w]}). assert (size (({[w]} : gset Z) ∖ warp_set (br_arrivals r)) <= 1)%nat
            by (transitivity (size ({[w]} : gset Z)); [apply subseteq_size; set_solver|by rewrite size_singleton]). lia. }
        destruct (Z.eq_dec (br_participantCount r) 0) as [E0|E0].
        -- destruct (rw_idle r Hr E0) as [Ea _]. rewrite Ea in Hle. change (maskCount 0) with 0 in Hle. lia.
        -- destruct (rw_busy r Hr E0) as [Hlt Hcm]. rewrite Heqb2 in Hcm. symmetry in Hcm. apply Z.eqb_neq in Hcm.
           rewrite (proj2 (Z.eqb_neq _ _) E0) in Heqb3. cbn [negb andb] in Heqb3. apply negb_false_iff, Z.eqb_eq in Heqb3. lia.
      * by rewrite Heqb2.
    + cbn. unfold abs, told. cbn. by rewrite (proj2 (Z.eqb_neq _ _) Hz).
Qed.

Lemma stageWait_refines key e r r' res g :
  record_wf r -> in_phase g r -> idx4 (be_WarpID e) -> stageWait key e r = Ok (r', res) ->
  record_wf r' /\ bres_Key res = key /\ in_phase g r' /\ b_wait (be_Phase e) (be_WarpID e) (abs g r) = (abs g r', told res).
Proof.
  intros Hr Hg Hw H. unfold stageWait in H. pass_check. unfold b_wait. cbn [abs b_generation]. rewrite <- Hg.
  destruct (Bool.eqb (be_Phase e) (br_phase r)); [|by apply Ok_inj in H as [= <- <-]].
  cbv zeta in H. pass_check. apply Ok_inj in H as [= <- <-]. destruct (warp_bit_small (be_WarpID e) Hw) as [Hbit _].
  split; [|split_and!; [done|done|]].
  - destruct Hr. split; cbn; try done. by apply lor_warp_mask.
  - unfold abs, told. cbn [br_arrivals br_waiters br_participantCount br_events bres_Block bres_Releases b_arrived b_waiting b_participants b_events].
    rewrite warp_set_bit by (done || apply Hr). done.
Qed.

Lemma stageEvent_refines key e r r' res g :
  record_wf r -> in_phase g r -> 0 <= be_ExpectCount e < 256 -> stageEvent key e r = Ok (r', res) ->
  record_wf r' /\ bres_Key res = key /\ in_phase g r' /\ b_expect (be_ExpectCount e) (abs g r) = (abs g r', told res).
Proof.
  intros Hr Hg Hc H. unfold stageEvent in H. do 2 pass_check. apply Ok_inj in H as [= <- <-]. pose proof (rw_events r Hr) as He.
  apply negb_true_iff, Z.ltb_ge in Heqb0. unfold frozenMaxBarEvents in *. unfold u16 in Heqb0. rewrite Z.mod_small in Heqb0 by lia.
  unfold u8. rewrite Z.mod_small by lia. split; [|done]. destruct Hr. split; cbn; try done; [unfold frozenMaxBarEvents; lia|]. intros Hcm. specialize (rw_quiet0 Hcm). lia.
Qed.

(** A txbar completion. *)
Lemma completion_refines m key s g :
  (forall r, records_of m !! key = Some r -> record_wf r) -> in_phase g (bst_before s) -> StageEventCompletion m key = Ok s ->
  record_wf (bst_after s) /\ bst_key s = key /\
  exists g', in_phase g' (bst_after s) /\ b_complete (abs g (bst_before s)) = (abs g' (bst_after s), told (bst_result s)).
Proof.
  intros Hw Hg H. unfold StageEventCompletion in H. apply result_bind_ok in H as (u & _ & H).
  destruct (records_of m !! key) as [r|] eqn:Er; [|done]. specialize (Hw r eq_refl). pass_check. apply negb_true_iff, Z.eqb_neq in Heqb.
  pose proof (rw_events r Hw) as He. unfold frozenMaxBarEvents in He. cbn [br_events br_arrivalsComplete br_waiters] in H.
  unfold u8 in H. rewrite (Z.mod_small (br_events r - 1)) in H by lia.
  set (q := mkBarrierRecord _ _ _ _ _ _) in H. unfold b_complete, b_settle, b_full. cbn [abs b_generation b_arrived b_waiting b_participants b_events].
  assert ((match (if br_participantCount r =? 0 then None else Some (br_participantCount r)) with
    | Some n => Z.of_nat (size (warp_set (br_arrivals r))) =? n | None => false end) = br_arrivalsComplete r) as Efull.
  { destruct (Z.eqb_spec (br_participantCount r) 0) as [E|E]; [by destruct (rw_idle r Hw E) as [_ ->]|].
    destruct (rw_busy r Hw E) as [_ ->]. by rewrite (maskCount_size _ (rw_arrivals r Hw)). }
  destruct (Z.eqb_spec (br_events r - 1) 0) as [Ez|Ez]; cbn [andb] in H.
  - destruct (br_arrivalsComplete r) eqn:Ec; apply Ok_inj in H as <-; cbn [bst_before bst_after bst_key bst_result] in *.
    + split; [apply open_wf; cbn; unfold frozenMaxBarEvents; lia|]. split; [done|]. exists (S g). split; [by apply in_phase_open|]. rewrite Efull, Ez. cbn. unfold abs, told. cbn. by rewrite Ez.
    + split; [|split; [done|exists g; split; [done|]]].
      * destruct Hw. split; cbn; try done; try (unfold frozenMaxBarEvents; lia). intros E0. rewrite <- Ec. by apply rw_busy0.
      * rewrite Efull. cbn. done.
  - apply Ok_inj in H as <-; cbn [bst_before bst_after bst_key bst_result] in *.
    split; [|split; [done|exists g; split; [done|]]].
    + destruct Hw. split; cbn; try done; [unfold frozenMaxBarEvents; lia|]. intros _. lia.
    + rewrite Efull. rewrite (proj2 (Z.eqb_neq _ _) Ez), andb_false_r. done.
Qed.

(** ** The coordinator *)

Definition records_wf (m : CTAManager) : Prop := forall key r, records_of m !! key = Some r -> record_wf r.

Record effect_typed (e : BarrierEffect) : Prop := {
  ef_warp : 0 <= be_WarpID e;
  ef_count : 0 <= be_ParticipantCount e < 256;
  ef_expect : 0 <= be_ExpectCount e < 256
}.

(** The abstract request of an instruction's effect. *)
Definition b_request (e : BarrierEffect) (b : barrier) : barrier * verdict :=
  if be_Event e then b_expect (be_ExpectCount e) b
  else if be_Kind e ==. BarrierWait then b_wait (be_Phase e) (be_WarpID e) b
  else b_arrive (be_Sync e) (be_ParticipantCount e) (be_WarpID e) b.

Lemma record_of_wf m key : records_wf m -> record_wf (record_of (records_of m) key).
Proof. intros Hw. unfold record_of. destruct (_ !! key) eqn:E; [by eapply Hw|apply no_barrier_wf]. Qed.

Lemma keyForEffect_inv m e key members : keyForEffect m e = Ok (key, members) -> be_WarpID e < 4.
Proof. unfold keyForEffect. intros H. pass_check. apply negb_true_iff, orb_false_iff in Heqb as [[Hw _]%orb_false_iff _]. by apply Z.leb_gt in Hw. Qed.

(** What a staged request is. *)
Record staged_request (m : CTAManager) (e : BarrierEffect) (s : BarrierStage) : Prop := {
  sr_key : exists members, keyForEffect m e = Ok (bst_key s, members);
  sr_before : bst_before s = record_of (records_of m) (bst_key s);
  sr_valid : bst_beforeValid s = bool_decide (is_Some (records_of m !! bst_key s));
  sr_pending : bst_committed s = false;
  sr_wf : record_wf (bst_after s);
  sr_result : bres_Key (bst_result s) = bst_key s
}.

Lemma stage_barrier_refines m e expected s g :
  records_wf m -> effect_typed e -> in_phase g (bst_before s) -> stage_barrier m e expected = Ok s ->
  staged_request m e s /\
  exists g', in_phase g' (bst_after s) /\ b_request e (abs g (bst_before s)) = (abs g' (bst_after s), told (bst_result s)).
Proof.
  intros Hw [Hwarp Hcount Hexp] Hg H. unfold stage_barrier in H. apply result_bind_ok in H as ([key members] & Hk & H). cbv zeta in H. pass_check.
  apply result_bind_ok in H as ([after res] & Ho & <-%Ok_inj). cbn [bst_before bst_after bst_result bst_key bst_committed bst_beforeValid fst snd] in *.
  assert (idx4 (be_WarpID e)) as Hi by (apply idx4_range; split; [done|by eapply keyForEffect_inv]).
  pose proof (record_of_wf m key Hw) as Hr. unfold b_request. destruct (be_Event e); [|destruct (be_Kind e ==. BarrierWait)].
  - destruct (stageEvent_refines _ _ _ _ _ _ Hr Hg Hexp Ho) as (? & ? & ? & ?). split; [by split; try (by eexists)|by exists g].
  - destruct (stageWait_refines _ _ _ _ _ _ Hr Hg Hi Ho) as (? & ? & ? & ?). split; [by split; try (by eexists)|by exists g].
  - destruct (stageArrival_refines _ _ _ _ _ _ _ Hr Hg Hi Hcount Ho) as (? & ? & ?). split; [by split; try (by eexists)|done].
Qed.

(** Committing a stage against the record it was staged on. *)
Lemma commit_fresh m s :
  bst_committed s = false -> bst_before s = record_of (records_of m) (bst_key s) ->
  bst_beforeValid s = bool_decide (is_Some (records_of m !! bst_key s)) ->
  Barrier_Commit m s =
  (set_barriers (Some (<[bst_key s := bst_after s]> (records_of m))) m,
   mkBarrierStage (bst_key s) (bst_before s) (bst_beforeValid s) (bst_after s) (bst_result s) true, Ok tt).
Proof.
  intros Hc Hb Hv. unfold Barrier_Commit. rewrite Hc. cbv zeta. rewrite Hv, Hb. unfold record_of.
  destruct (records_of m !! bst_key s) as [r|]; cbn; [by rewrite bool_decide_true|done].
Qed.

Lemma commit_stale m s : bst_committed s = true \/
  (if bst_beforeValid s then records_of m !! bst_key s <> Some (bst_before s) else records_of m !! bst_key s <> None) ->
  exists e, Barrier_Commit m s = (m, s, Err e).
Proof.
  unfold Barrier_Commit. destruct (bst_committed s); [by eexists|]. intros [[=]|H]. cbv zeta.
  destruct (bst_beforeValid s); rewrite bool_decide_false by done; by eexists.
Qed.

Lemma insert_records_wf m key r : records_wf m -> record_wf r -> records_wf (set_barriers (Some (<[key := r]> (records_of m))) m).
Proof. intros Hw Hr k q. cbn. intros [[<- <-]|[_ H]]%lookup_insert_Some; [done|by apply (Hw k)]. Qed.

Lemma in_some_phase r : exists g, in_phase g r.
Proof. unfold in_phase. destruct (br_phase r); [by exists 1%nat|by exists 0%nat]. Qed.

(** C22: the coordinator refines the abstract barrier.  A request that stages commits
    at once against the unchanged record, touches only that record, keeps every
    record well formed, and moves the record, blocks the source and releases warps
    exactly as the abstract barrier does; likewise an event completion.  A stage is
    refused, changing nothing, once it was committed or its record has moved. *)
Theorem barrier_refines m :
  records_wf m ->
  (forall e s, effect_typed e -> Barrier_Stage m e = Ok s ->
     let m' := (Barrier_Commit m s).1.1 in
     (Barrier_Commit m s).2 = Ok tt /\ records_wf m' /\
     m' = set_barriers (Some (<[bst_key s := bst_after s]> (records_of m))) m /\
     forall g, in_phase g (record_of (records_of m) (bst_key s)) -> exists g', in_phase g' (record_of (records_of m') (bst_key s)) /\
     b_request e (abs g (record_of (records_of m) (bst_key s))) = (abs g' (record_of (records_of m') (bst_key s)), told (bst_result s))) /\
  (forall key s, StageEventCompletion m key = Ok s ->
     let m' := (Barrier_Commit m s).1.1 in
     (Barrier_Commit m s).2 = Ok tt /\ records_wf m' /\
     m' = set_barriers (Some (<[key := bst_after s]> (records_of m))) m /\
     forall g, in_phase g (record_of (records_of m) key) -> exists g', in_phase g' (record_of (records_of m') key) /\
     b_complete (abs g (record_of (records_of m) key)) = (abs g' (record_of (records_of m') key), told (bst_result s))) /\
  (forall s, bst_committed s = true \/
     (if bst_beforeValid s then records_of m !! bst_key s <> Some (bst_before s) else records_of m !! bst_key s <> None) ->
     exists e, Barrier_Commit m s = (m, s, Err e)).
Proof.
  intros Hw. split_and!.
  - intros e s Ht Hs. cbv zeta. destruct (in_some_phase (bst_before s)) as [g0 Hg0].
    destruct (stage_barrier_refines m e None s g0 Hw Ht Hg0 Hs) as [[Hk Hb Hv Hp Hr Hres] _].
    rewrite (commit_fresh m s Hp Hb Hv). cbn [fst snd]. split_and!; [done|by apply insert_records_wf|done|]. intros g Hg. rewrite <- Hb in *.
    destruct (stage_barrier_refines m e None s g Hw Ht Hg Hs) as [_ (g' & Hg' & E)]. exists g'.
    unfold record_of at 1 2. cbn. rewrite lookup_insert_eq. done.
  - intros key s Hs. cbv zeta. destruct (in_some_phase (bst_before s)) as [g0 Hg0].
    destruct (completion_refines m key s g0 (Hw key) Hg0 Hs) as (Hr & Hkey & _).
    assert (bst_committed s = false /\ bst_before s = record_of (records_of m) (bst_key s) /\
      bst_beforeValid s = bool_decide (is_Some (records_of m !! bst_key s))) as (Hp & Hb & Hv).
    { unfold StageEventCompletion in Hs. apply result_bind_ok in Hs as (u & _ & Hs). unfold record_of.
      destruct (records_of m !! key) as [r|] eqn:Er; [|done]. pass_check. cbv zeta in Hs.
      destruct (_ && _); apply Ok_inj in Hs as <-; cbn; by rewrite Er. }
    rewrite (commit_fresh m s Hp Hb Hv). cbn [fst snd]. rewrite Hkey in *. split_and!; [done|by apply insert_records_wf|done|]. intros g Hg. rewrite <- Hb in *.
    destruct (completion_refines m key s g (Hw key) Hg Hs) as (_ & _ & g' & Hg' & E). exists g'.
    unfold record_of at 1 2. cbn. rewrite lookup_insert_eq. done.
  - intros s H. by apply commit_stale.
Qed.

(** ** Rendezvous *)

(** Stage and commit requests one after the other. *)
Fixpoint barrier_requests (m : CTAManager) (es : list BarrierEffect) : result (CTAManager * list BarrierResult) :=
  match es with
  | [] => Ok (m, [])
  | e :: es =>
      let? s := Barrier_Stage m e in
      match Barrier_Commit m s with
      | (_, _, Err err) => Err err
      | (m', _, Ok _) => let? out := barrier_requests m' es in Ok (out.1, bst_result s :: out.2)
      end
  end.

(** The "bar" request of one of [n] participants. *)
Record sync_request (m : CTAManager) (key : BarrierKey) (n : Z) (e : BarrierEffect) : Prop := {
  sy_key : exists members, keyForEffect m e = Ok (key, members) /\ n <= members;
  sy_event : be_Event e = false;
  sy_kind : be_Kind e = BarrierSync;
  sy_flags : be_Sync e = true /\ be_Arrive e = true /\ be_Wait e = true /\ be_ReleaseByCoordinator e = true;
  sy_expect : be_ExpectCount e = 0;
  sy_count : be_ParticipantCount e = n /\ be_SizeMinusOne e = u8 (n - 1) /\ be_Phase e = (n .& 1 <>? 0);
  sy_warp : 0 <= be_WarpID e
}.

Definition idle (r : barrierRecord) : Prop := br_arrivals r = 0 /\ br_waiters r = 0 /\ br_participantCount r = 0 /\ br_events r = 0.

(** The record after the warps [A], fewer than [n], have synchronised. *)
Definition gathering (n : Z) (A : gset Z) (r : barrierRecord) : Prop :=
  warp_set (br_arrivals r) = A /\ warp_set (br_waiters r) = A /\ br_events r = 0 /\ br_arrivalsComplete r = false /\
  (br_participantCount r = 0 \/ br_participantCount r = n).

Lemma empty_mask mask : warp_mask mask -> warp_set mask = ∅ -> mask = 0.
Proof.
  intros Hm He. assert (forall w, idx4 w -> Z.testbit mask w = false) as Hb.
  { intros w Hw. rewrite <- WarpMask_Active_testbit by done. destruct (WarpMask_Active mask w) eqn:E; [|done].
    assert (w ∈ warp_set mask) as Hin by (by apply elem_of_warp_set). rewrite He in Hin. set_solver. }
  apply Z.bits_inj'. intros i Hi. rewrite Z.bits_0. destruct (Z.lt_ge_cases i 4).
  - apply Hb, idx4_range. lia.
  - apply (testbit_above 4); unfold warp_mask in Hm; lia.
Qed.

Lemma sync_accepted m key n e r :
  sync_request m key n e -> record_wf r -> 0 < n -> gathering n (warp_set (br_arrivals r)) r -> be_WarpID e ∉ warp_set (br_arrivals r) ->
  idx4 (be_WarpID e) -> exists members, keyForEffect m e = Ok (key, members) /\ is_ok (stageArrival key members e r) = true.
Proof.
  intros [(members & Hk & Hm) He Hkind (Hs & Ha & Hwt & Hrel) Hexp (Hc & Hsz & Hph) Hwp] Hr Hn (_ & _ & Hev & Hcm & Hpc) Hnin Hi. exists members. split; [done|].
  apply warp_set_absent in Hnin; [|done]. unfold stageArrival. rewrite Hs, Ha, Hwt, Hrel, Hexp, Hkind, Hc, Hsz, Hph, Hcm, Hnin. cbn [negb orb Bool.eqb].
  change (BarrierSync !=. BarrierArrive) with true. change (BarrierSync !=. BarrierSync) with false. change (BarrierSync ==. BarrierSync) with true.
  cbn [negb orb andb Bool.eqb Z.eqb]. rewrite (proj2 (Z.eqb_neq n 0)), (proj2 (Z.ltb_ge members n)), !Z.eqb_refl by lia. cbn [negb orb]. rewrite eqb_reflx.
  assert ((br_participantCount r <>? 0) && (br_participantCount r <>? n) = false) as ->
    by (destruct Hpc as [-> | ->]; [done|by rewrite Z.eqb_refl, andb_false_r]).
  cbn [negb]. by repeat case_match.
Qed.

Lemma keyForEffect_records m v e : keyForEffect (set_barriers v m) e = keyForEffect m e. Proof. reflexivity. Qed.

Lemma sync_request_records m v key n e : sync_request m key n e -> sync_request (set_barriers v m) key n e.
Proof. by intros []. Qed.

(** One participant, before the last or the last. *)
Lemma sync_one m key n e A :
  records_wf m -> sync_request m key n e -> 0 < n < 256 -> be_WarpID e ∉ A -> gathering n A (record_of (records_of m) key) ->
  exists s m', Barrier_Stage m e = Ok s /\ (exists s', Barrier_Commit m s = (m', s', Ok tt)) /\ records_wf m' /\
  (exists v, m' = set_barriers v m) /\
  let before := record_of (records_of m) key in let after := record_of (records_of m') key in
  if Z.of_nat (size (A ∪ {[be_WarpID e]})) =? n
  then bres_Block (bst_result s) = false /\ warp_set (bres_Releases (bst_result s)) = A ∪ {[be_WarpID e]} /\
       idle after /\ br_phase after = negb (br_phase before)
  else bres_Block (bst_result s) = true /\ warp_set (bres_Releases (bst_result s)) = ∅ /\
       gathering n (A ∪ {[be_WarpID e]}) after /\ br_phase after = br_phase before.
Proof.
  intros Hw Hsy Hn Hnin Hga. set (before := record_of (records_of m) key) in *. pose proof (record_of_wf m key Hw) as Hr. fold before in Hr.
  destruct (sy_key _ _ _ _ Hsy) as (mem0 & Hk0 & _). assert (idx4 (be_WarpID e)) as Hi
    by (apply idx4_range; split; [apply Hsy|by eapply keyForEffect_inv]).
  pose proof Hga as (HA & HW & HE & HC & HP). subst A.
  destruct (sync_accepted m key n e before Hsy Hr ltac:(lia) Hga Hnin Hi) as (members & Hk & Hok).
  assert (exists s, Barrier_Stage m e = Ok s /\ bst_key s = key /\ bst_before s = before) as (s & Hs & Hkey & Hb).
  { unfold Barrier_Stage, stage_barrier. rewrite Hk. cbn [result_bind]. cbv zeta. rewrite (sy_event _ _ _ _ Hsy), (sy_kind _ _ _ _ Hsy).
    change (BarrierSync ==. BarrierWait) with false. fold before. destruct (stageArrival key members e before); [by eexists|done]. }
  destruct (in_some_phase before) as [g Hg]. destruct Hsy as [_ He Hkind (Hsync & _) Hexp (Hc & _) Hwp].
  assert (effect_typed e) as Ht by (split; lia). rewrite <- Hb in Hg.
  destruct (stage_barrier_refines m e None s g Hw Ht Hg Hs) as [[_ Hbf Hv Hp Hrw Hres] (g' & Hg' & E)].
  exists s, (set_barriers (Some (<[bst_key s := bst_after s]> (records_of m))) m). split; [done|]. split; [eexists; by apply commit_fresh|].
  split; [by apply insert_records_wf|]. split; [by eexists|]. cbv zeta.
  assert (record_of (records_of (set_barriers (Some (<[bst_key s := bst_after s]> (records_of m))) m)) key = bst_after s) as ->
    by (unfold record_of; cbn; by rewrite Hkey, lookup_insert_eq).
  unfold b_request in E. rewrite He, Hkind, Hsync, Hc, Hb in E. change (BarrierSync ==. BarrierWait) with false in E.
  unfold b_arrive, b_settle, b_full in E. cbn [abs b_generation b_arrived b_waiting b_participants b_events] in E. rewrite HW, HE in E. rewrite Hb in Hg.
  change (0 =? 0) with true in E. rewrite andb_true_r in E. unfold in_phase in Hg, Hg'.
  destruct (Z.of_nat (size (warp_set (br_arrivals before) ∪ {[be_WarpID e]})) =? n) eqn:Efull; injection E; clear E.
  - cbn [b_generation b_arrived b_waiting b_participants b_events b_open]. intros E1 E2 E3 E4 E5 E6 E7. split_and!; [done|done| |].
    + unfold idle. split_and!; [by apply empty_mask; [apply Hrw|]|by apply empty_mask; [apply Hrw|]| |done].
      revert E4. by destruct (Z.eqb_spec (br_participantCount (bst_after s)) 0).
    + rewrite Hg', Hg, <- E7. by rewrite Nat.odd_succ, <- Nat.negb_odd.
  - intros E1 E2 E3 E4 E5 E6 E7. split_and!; [done|done| |by rewrite Hg', Hg, E7]. unfold gathering. split_and!; [done|done|done| |].
    + destruct (br_arrivalsComplete (bst_after s)) eqn:Ec; [|done]. pose proof (rw_quiet _ Hrw Ec). lia.
    + revert E4. destruct (br_participantCount (bst_after s) =? 0); [done|]. intros [= ->]. by right.
Qed.

Definition blocked (r : BarrierResult) : Prop := bres_Block r = true /\ warp_set (bres_Releases r) = ∅.

Lemma gather_all key n es : 0 < n < 256 -> forall m A,
  records_wf m -> Forall (sync_request m key n) es -> NoDup (map be_WarpID es) -> (forall e, e ∈ es -> be_WarpID e ∉ A) ->
  gathering n A (record_of (records_of m) key) -> Z.of_nat (size A) + zlen es = n -> es <> [] ->
  exists m' rs last, barrier_requests m es = Ok (m', rs ++ [last]) /\ records_wf m' /\ Forall blocked rs /\
  bres_Block last = false /\ warp_set (bres_Releases last) = A ∪ list_to_set (map be_WarpID es) /\
  idle (record_of (records_of m') key) /\ br_phase (record_of (records_of m') key) = negb (br_phase (record_of (records_of m) key)).
Proof.
  intros Hn. induction es as [|e es IH]; intros m A Hw Hs Hd Hnin Hg Hsz Hne; [done|]. clear Hne.
  apply Forall_cons in Hs as [He Hs]. cbn in Hd. apply NoDup_cons in Hd as [Hew Hd].
  assert (be_WarpID e ∉ A) as HeA by (apply Hnin, list_elem_of_here).
  destruct (sync_one m key n e A Hw He Hn HeA Hg) as (s & m' & Hst & [s' Hcm] & Hw' & [v Hm'] & Hout). cbv zeta in Hout.
  cbn [barrier_requests]. rewrite Hst. cbn [result_bind]. rewrite Hcm.
  assert (size (A ∪ {[be_WarpID e]}) = S (size A)) as Hsize
    by (rewrite size_union, size_singleton by set_solver; lia).
  rewrite Hsize in Hout. unfold zlen in Hsz. cbn [length] in Hsz. destruct (Z.eqb_spec (Z.of_nat (S (size A))) n) as [E|E].
  - destruct es as [|e2 es]; [|cbn [length] in Hsz; lia]. cbn [barrier_requests result_bind fst snd].
    destruct Hout as (H1 & H2 & H3 & H4). exists m', [], (bst_result s). split_and!; try done. rewrite H2. cbn. set_solver.
  - destruct Hout as (H1 & H2 & H3 & H4). assert (es <> []) as Hne by (intros ->; cbn in Hsz; lia).
    destruct (IH m' (A ∪ {[be_WarpID e]})) as (m2 & rs & last & Hr & Hw2 & Hb & Hl1 & Hl2 & Hi & Hp); try done.
    + eapply Forall_impl; [exact Hs|]. intros x Hx. rewrite Hm'. by apply sync_request_records.
    + intros x Hx. apply not_elem_of_union. split; [by apply Hnin, list_elem_of_further|]. intros E'%elem_of_singleton. apply Hew. rewrite <- E'.
      apply list_elem_of_fmap. by exists x.
    + rewrite Hsize. unfold zlen. lia.
    + rewrite Hr. cbn [result_bind fst snd]. exists m2, (bst_result s :: rs), last. split_and!; try done.
      * by constructor.
      * rewrite Hl2. cbn. set_solver.
      * by rewrite Hp, H4.
Qed.

(** C23: the rendezvous completes.  From an idle record, when [n] different warps
    of the CTA issue their "bar" with participant count [n], in any order, every
    request is accepted; all but the last block with nobody released; the last does
    not block and releases exactly the [n] warps; the barrier is then idle in the
    opposite phase, ready for the next generation. *)
Theorem barrier_rendezvous m key n es :
  records_wf m -> 0 < n < 256 -> zlen es = n -> Forall (sync_request m key n) es -> NoDup (map be_WarpID es) ->
  idle (record_of (records_of m) key) ->
  exists m' rs last, barrier_requests m es = Ok (m', rs ++ [last]) /\ records_wf m' /\ Forall blocked rs /\
  bres_Block last = false /\ warp_set (bres_Releases last) = list_to_set (map be_WarpID es) /\
  idle (record_of (records_of m') key) /\ br_phase (record_of (records_of m') key) = negb (br_phase (record_of (records_of m) key)).
Proof.
  intros Hw Hn Hl Hs Hd (Ha & Hwt & Hp & He).
  destruct (gather_all key n es Hn m ∅ Hw Hs Hd) as (m' & rs & last & H1 & H2 & H3 & H4 & H5 & H6).
  - intros e _. apply not_elem_of_empty.
  - pose proof (record_of_wf m key Hw) as Hr. destruct (rw_idle _ Hr Hp) as [_ Hc]. unfold gathering. rewrite Ha, Hwt. split_and!; try done. by left.
  - by rewrite size_empty.
  - intros ->. change (0 = n) in Hl. lia.
  - exists m', rs, last. split_and!; try done; [|by destruct H6..]. rewrite H5. set_solver.
Qed.

(** Warps 2 and 3 of the example CTA meet at barrier 0 of warp 2. *)
Definition bar_effect (w : Z) : BarrierEffect :=
  mkBarrierEffect w 2 0 BarrierSync false true true true true false 0 2 1 false true.
Definition barrier_manager : CTAManager := (NewBarrierCoordinator example_manager).1.

Lemma barrier_manager_records : records_wf barrier_manager /\ records_of barrier_manager = ∅.
Proof.
  assert (records_of barrier_manager = ∅) as E by (vm_compute; reflexivity). split; [|exact E]. intros key r. by rewrite E, lookup_empty.
Qed.

Lemma bar_effect_sync w : w = 2 \/ w = 3 -> sync_request barrier_manager (mkBarrierKey 1 2 0) 2 (bar_effect w).
Proof.
  intros Hw. split; try done.
  - exists 2. split; [|lia]. destruct Hw as [-> | ->]; vm_compute; reflexivity.
  - destruct Hw as [-> | ->]; cbn; lia.
Qed.

Example barrier_rendezvous_witness :
  exists m' rs last, barrier_requests barrier_manager [bar_effect 3; bar_effect 2] = Ok (m', rs ++ [last]) /\
  warp_set (bres_Releases last) = list_to_set [3; 2].
Proof.
  destruct barrier_manager_records as [Hw E].
  destruct (barrier_rendezvous barrier_manager (mkBarrierKey 1 2 0) 2 [bar_effect 3; bar_effect 2]) as (m' & rs & last & H1 & _ & _ & _ & H2 & _).
  - exact Hw.
  - lia.
  - reflexivity.
  - constructor; [by apply bar_effect_sync; right|]. constructor; [by apply bar_effect_sync; left|]. constructor.
  - apply (bool_decide_unpack _). vm_compute. exact I.
  - unfold record_of. rewrite E, lookup_empty. by repeat split.
  - exists m', rs, last. exact (conj H1 H2).
Defined.

Example barrier_refines_witness :
  exists s, Barrier_Stage barrier_manager (bar_effect 3) = Ok s /\ (Barrier_Commit barrier_manager s).2 = Ok tt /\
  records_wf (Barrier_Commit barrier_manager s).1.1.
Proof.
  destruct barrier_manager_records as [Hw _]. destruct (Barrier_Stage barrier_manager (bar_effect 3)) as [s|] eqn:E; [|vm_compute in E; discriminate E].
  exists s. split; [reflexivity|]. destruct (barrier_refines barrier_manager Hw) as [H _].
  destruct (H (bar_effect 3) s) as (H1 & H2 & _); [by split; cbn; lia|exact E|]. exact (conj H1 H2).
Defined.
