(* ===== verification/Residency.v ===== *)
(** * Residency without a core (src/emu/core/residency.go, local_lease.go)

    [ResidencyMemory] drives the same CTA manager with explicit placements: CTAs are
    admitted or reserved at an offset, and physical warps are bound to their ranks
    and detached one at a time.  A lease pins a local block for requests that are
    already addressed. *)

From S2P Require Import Prelude IsaTypes Integer System Memory WarpExec WarpCorrect Cta CtaInvariant CtaMemory Barrier.

#[local] Open Scope Z_scope.
#[local] Open Scope go_scope.

Record ResidencyMemory := mkResidencyMemory {
  rm_manager : CTAManager;
  rm_templates : gmap Z (list WarpMembership);
  rm_boundRanks : gmap Z WarpMask
}.

Definition NewResidencyMemory : ResidencyMemory := mkResidencyMemory (set_barriers (Some ∅) NewCTAManager) ∅ ∅.

Definition BarrierPending (r : ResidencyMemory) (id : Z) : bool := pendingCTA (records_of (rm_manager r)) id.

(** The overlap test of [admit]. *)
Definition collides (offset size : Z) (old : ctaState) : bool :=
  (size <>? 0) && (la_Size (ct_allocation old) <>? 0) && (offset <? u32 (ct_backingOffset old + la_Size (ct_allocation old))) &&
  (ct_backingOffset old <? u32 (offset + size)).

Definition residency_admit (r : ResidencyMemory) (config : CTAConfig) (offset : Z) (incremental : bool) : ResidencyMemory * result CTASnapshot :=
  match validateCTAConfig config with
  | Err e => (r, Err e)
  | Ok candidate =>
      let size := cc_LocalMemorySize (ct_config candidate) in
      let m := rm_manager r in
      if (cc_ID config >=? FrozenWarpCount) || (offset mod 64 <>? 0) || (u64 (offset + size) >? FrozenLocalMemSize)
      then (r, Err (Errorf "invalid physical CTA placement"))
      else
        let templates := ct_members candidate in
        let candidate := with_members (if incremental then [] else ct_members candidate) candidate in
        if bool_decide (is_Some (cm_ctas m !! cc_ID config)) then (r, Err ErrCTAResourcesUnavailable)
        else if negb (forallb (member_free m) (ct_members candidate)) then (r, Err ErrCTAResourcesUnavailable)
        else if existsb (fun kc => collides offset size kc.2) (map_to_list (cm_ctas m)) then (r, Err ErrCTAResourcesUnavailable)
        else
          let candidate := place (mkLocalMemoryAllocation (u32 (FrozenLocalMemBase + offset)) size) offset candidate in
          (mkResidencyMemory (bump_epoch (install candidate m)) (<[cc_ID config := templates]> (rm_templates r))
             (if incremental then rm_boundRanks r else <[cc_ID config := u8 ((1 << zlen templates) - 1)]> (rm_boundRanks r)),
           Ok (snapshotCTA candidate))
  end.

Definition Residency_Admit (r : ResidencyMemory) (config : CTAConfig) (offset : Z) := residency_admit r config offset false.
Definition Reserve (r : ResidencyMemory) (config : CTAConfig) (offset : Z) := residency_admit r config offset true.

Definition Release (r : ResidencyMemory) (id : Z) : ResidencyMemory * result unit :=
  let m := rm_manager r in
  if pendingCTA (records_of m) id then (r, Err (Errorf "CTA retains barrier state"))
  else
    match cm_ctas m !! id with
    | None => (r, Err (Errorf "CTA slot is not resident"))
    | Some c =>
        (mkResidencyMemory (remove_cta id (ct_members c) (records_of m) m) (delete id (rm_templates r)) (delete id (rm_boundRanks r)), Ok tt)
    end.

Definition rename_member (warpID : Z) (t : WarpMembership) : WarpMembership :=
  mkWarpMembership warpID (wmb_Rank t) (wmb_ActiveMask t) (wmb_ThreadCoordinates t) (wmb_Finished t).

Definition set_cta (id : Z) (c : ctaState) (w : Z) (key : option warpCTAKey) (m : CTAManager) : CTAManager :=
  bump_epoch (set_byWarp (qset (cm_byWarp m) w key) (set_ctas (<[id := c]> (cm_ctas m)) m)).

Definition BindWarp (r : ResidencyMemory) (id rank wid : Z) : ResidencyMemory * result CTASnapshot :=
  let m := rm_manager r in
  let templates := default [] (rm_templates r !! id) in
  match cm_ctas m !! id with
  | None => (r, Err ErrCTAResourcesUnavailable)
  | Some c =>
      if (wid >=? FrozenWarpCount) || (rank >=? zlen templates) then (r, Err ErrCTAResourcesUnavailable)
      else if bool_decide (is_Some (qget (cm_byWarp m) wid)) || (default 0 (rm_boundRanks r !! id) .& u8 (1 << rank) <>? 0)
      then (r, Err ErrCTAResourcesUnavailable)
      else if existsb (fun member => wmb_Rank member =? rank) (ct_members c) then (r, Err (Errorf "duplicate logical Warp rank"))
      else
        match templates !! Z.to_nat rank with
        | None => (r, Err (GoPanic "index out of range"))
        | Some t =>
            let c := with_members (ct_members c ++ [rename_member wid t]) c in
            (mkResidencyMemory (set_cta id c wid (Some (mkWarpCTAKey id rank)) m) (rm_templates r)
               (<[id := default 0 (rm_boundRanks r !! id) .| u8 (1 << rank)]> (rm_boundRanks r)), Ok (snapshotCTA c))
        end
  end.

(** The members without the first one of warp [wid]. *)
Fixpoint drop_member (wid : Z) (ms : list WarpMembership) : option (list WarpMembership) :=
  match ms with
  | [] => None
  | member :: rest => if wmb_WarpID member =? wid then Some rest else (fun l => member :: l) <$> drop_member wid rest
  end.

Definition DetachWarp (r : ResidencyMemory) (wid : Z) : ResidencyMemory * result CTASnapshot :=
  let m := rm_manager r in
  if wid >=? FrozenWarpCount then (r, Err (Errorf "Warp is not bound"))
  else
    match qget (cm_byWarp m) wid with
    | None => (r, Err (Errorf "Warp is not bound"))
    | Some key =>
        if BarrierPending r (wk_ctaID key) then (r, Err (Errorf "Warp retains barrier ownership"))
        else
          match cm_ctas m !! wk_ctaID key with
          | None => (r, Err (GoPanic "nil pointer dereference"))
          | Some c =>
              match drop_member wid (ct_members c) with
              | None => (r, Err (Errorf "inconsistent Warp binding"))
              | Some rest =>
                  let c := with_members rest c in
                  (mkResidencyMemory (set_cta (wk_ctaID key) c wid None m) (rm_templates r) (rm_boundRanks r), Ok (snapshotCTA c))
              end
          end
    end.

(** ** Leases (local_lease.go) *)

Record localLease := mkLocalLease { ll_allocation : LocalMemoryAllocation; ll_offset : Z }.

Definition PinLocal (m : CTAManager) (wid : Z) : result localLease :=
  check negb (wid >=? 4) else Errorf "cannot pin unbound local route" in
  match qget (cm_byWarp m) wid with
  | None => Err (Errorf "cannot pin unbound local route")
  | Some key =>
      match cm_ctas m !! wk_ctaID key with
      | None => Err (GoPanic "nil pointer dereference")
      | Some c => Ok (mkLocalLease (ct_allocation c) (ct_backingOffset c))
      end
  end.

Definition position (l : localLease) (address size : Z) : result Z :=
  let start := address in
  let end_ := u64 (address + size) in
  let base := la_Address (ll_allocation l) in
  let limit := u64 (la_Address (ll_allocation l) + la_Size (ll_allocation l)) in
  check negb ((start <? base) || (end_ >? limit) || ((size <>? 0) && (start =? limit))) else ErrLocalMemoryRange in
  Ok (u32 (u32 (ll_offset l + address) - la_Address (ll_allocation l))).

Definition lease_Read (m : CTAManager) (l : localLease) (address n : Z) : result (list Z) :=
  let? p := position l address n in local_slice m p n.

(** The validation loop of the lease's [WriteBatch]: the overlap test has no wrap, its
    ends are [uint64] sums of 32-bit values. *)
Fixpoint leasePositions (l : localLease) (previous : list (Z * Z)) (writes : list (Z * list Z)) : result (list Z) :=
  match writes with
  | [] => Ok []
  | (address, source) :: rest =>
      let? p := position l address (zlen source) in
      let end_ := u64 (address + zlen source) in
      check negb (existsb (fun o => (address <? o.2) && (o.1 <? end_)) previous) else Errorf "overlapping local lease writes" in
      let? ps := leasePositions l (previous ++ [(address, end_)]) rest in
      Ok (p :: ps)
  end.

Definition lease_WriteBatch (m : CTAManager) (l : localLease) (addresses : list Z) (sources : list (list Z)) : CTAManager * result unit :=
  if negb (length addresses =? length sources)%nat then (m, Err (Errorf "invalid local lease batch"))
  else
    match leasePositions l [] (zip addresses sources) with
    | Err e => (m, Err e)
    | Ok ps => match copyAll m (zip ps sources) with Ok m' => (m', Ok tt) | Err e => (m, Err e) end
    end.

Definition lease_Write (m : CTAManager) (l : localLease) (address : Z) (source : list Z) : CTAManager * result unit :=
  lease_WriteBatch m l [address] [source].

(** ** The invariant *)

Record residency_wf (r : ResidencyMemory) : Prop := {
  rs_manager : cta_wf (rm_manager r);
  rs_templates : forall id ts i t, rm_templates r !! id = Some ts -> ts !! i = Some t -> wmb_Rank t = Z.of_nat i
}.

Lemma NewResidencyMemory_wf : residency_wf NewResidencyMemory.
Proof.
  split; [|intros id ts i t; cbn; by rewrite lookup_empty]. destruct (NewCTAManager_wf false) as [[] _]. by split.
Qed.

Lemma collides_apart offset size old : block_ok old -> 0 <= offset -> 0 <= size -> offset + size <= FrozenLocalMemSize ->
  collides offset size old = false -> apart offset size (ct_backingOffset old, end_of old).
Proof.
  intros (B0 & B1 & B2 & _) H0 H1 H2. unfold collides, apart, end_of in *. rewrite lmem_size in *. rewrite !u32_id by (unfold is_u32; lia).
  destruct (Z.eqb_spec size 0); [by left|]. destruct (Z.eqb_spec (la_Size (ct_allocation old)) 0); [right; left; cbn; lia|]. cbn [negb andb].
  destruct (Z.ltb_spec offset (ct_backingOffset old + la_Size (ct_allocation old))); [|right; right; right; cbn; lia]. cbn [andb].
  intros Hx%Z.ltb_ge. right; right; left. cbn. lia.
Qed.

Lemma residency_admit_wf r config offset incremental :
  residency_wf r -> config_typed config -> 0 <= offset < 2 ^ 32 -> residency_wf (residency_admit r config offset incremental).1.
Proof.
  intros [Hw Ht] Htyped Hoff. unfold residency_admit. destruct (validateCTAConfig config) as [c0|] eqn:Ev; [|by split]. apply validate_inv in Ev as Hv. cbv zeta.
  destruct (_ || _) eqn:Eg; [by split|]. apply orb_false_iff in Eg as [[_ _]%orb_false_iff Esz%Z.ltb_ge].
  destruct (bool_decide_reflect (is_Some (cm_ctas (rm_manager r) !! cc_ID config))) as [|Hs]; [by split|]. apply eq_None_not_Some in Hs.
  destruct (negb (forallb _ _)) eqn:Ef; [by split|]. apply negb_false_iff in Ef. destruct (existsb _ _) eqn:Ec; [by split|].
  cbn [fst rm_manager]. destruct (va_id _ _ Hv) as [Eid Hlt]. destruct (va_size _ _ Hv) as (Es & Hle & Hle'). pose proof (ctd_size _ Htyped).
  destruct (alignUp_block (cc_LocalMemorySize config)) as [Hup _]; [lia|]. rewrite lmem_size in *.
  set (size := cc_LocalMemorySize (ct_config c0)) in *. unfold u64 in Esz. rewrite Z.mod_small in Esz by lia.
  split; cbn [rm_manager rm_templates].
  - apply bump_wf, install_wf; [done|]. split; cbn [place with_members ct_config ct_members ct_allocation ct_backingOffset].
    + rewrite Eid. split; [apply Htyped|done].
    + by rewrite Eid.
    + destruct incremental; [constructor|]. rewrite (va_warps _ _ Hv). apply (va_distinct _ _ Hv).
    + destruct (va_distinct _ _ Hv) as (_ & Hw4 & _). pose proof (ctd_warps _ Htyped) as Hnn. rewrite <- (va_warps _ _ Hv) in Hw4, Hnn.
      apply Forall_forall. intros mem Hm. pose proof (forallb_elem _ _ Ef mem Hm) as Hx. unfold member_free in Hx. cbn [with_members ct_members] in Hm.
      destruct incremental; [by apply elem_of_nil in Hm|].
      assert (wmb_WarpID mem ∈ map wmb_WarpID (ct_members c0)) as Hin by (apply list_elem_of_fmap; by exists mem).
      rewrite Forall_forall in Hw4. rewrite Forall_forall in Hnn. split; [apply idx4_range; split; [exact (Hnn _ Hin)|exact (Hw4 _ Hin)]|].
      by destruct (qget _ _).
    + unfold block_ok, end_of. cbn [place with_members ct_config ct_members ct_allocation ct_backingOffset la_Size la_Address]. rewrite lmem_size, lmem_base, u32_id by (unfold is_u32; lia). lia.
    + intros id c' Hc'. unfold blocks_apart. cbn [place with_members ct_config ct_members ct_allocation ct_backingOffset la_Size la_Address].
      apply collides_apart; [by apply (cw_block _ Hw id)|lia|lia|rewrite lmem_size; lia|].
      destruct (collides offset size c') eqn:Ex; [|done]. rewrite <- Ec. symmetry. apply existsb_exists. exists (id, c'). split; [|done].
      by apply list_elem_of_In, elem_of_map_to_list.
  - intros id ts i t [[<- <-]|[_ Hold]]%lookup_insert_Some Hi; [|by eapply Ht].
    pose proof (va_ranks _ _ Hv) as Hr. apply (f_equal (.!! i)) in Hr. rewrite !list_lookup_fmap, Hi in Hr. cbn in Hr.
    rewrite lookup_seq_lt in Hr by by eapply lookup_lt_Some. by injection Hr.
Qed.

(** Changing the members of a resident CTA together with the warp table. *)
Lemma rebind_wf m id c ms w key : cta_wf m -> cm_ctas m !! id = Some c -> idx4 w ->
  members_ok (qset (cm_byWarp m) w key) id ms ->
  (forall k, qget (cm_byWarp m) w = Some k -> wk_ctaID k = id) ->
  (forall k, key = Some k -> wk_ctaID k = id /\ w ∈ map wmb_WarpID ms) ->
  (forall x, x ∈ ct_members c -> wmb_WarpID x <> w -> x ∈ ms) ->
  cta_wf (set_cta id (with_members ms c) w key m).
Proof.
  intros Hw Hc Hi Hms Hold Hnew Hkeep. assert (forall i c', i <> id -> cm_ctas m !! i = Some c' ->
    Forall (fun mem => wmb_WarpID mem <> w) (ct_members c')) as Hother.
  { intros i c' Hne Hc'. apply Forall_forall. intros x Hx E. destruct (table_unique m i c' x Hw Hc' Hx) as [_ Hq]. rewrite E in Hq.
    by apply Hold in Hq. }
  split; cbn [set_cta bump_epoch set_byWarp set_ctas cm_ctas cm_byWarp cm_localMem].
  - intros i c' [[<- <-]|[_ H]]%lookup_insert_Some; [exact (cw_id m Hw _ _ Hc)|by apply (cw_id m Hw)].
  - intros i c' [[<- <-]|[Hne H]]%lookup_insert_Some; [done|]. destruct (cw_members m Hw i c' H) as [Hd Hf]. split; [done|].
    apply Forall_forall. intros x Hx. rewrite Forall_forall in Hf. destruct (Hf x Hx) as [Hxi Hq]. split; [done|].
    pose proof (Hother i c' (not_eq_sym Hne) H) as Ho. rewrite Forall_forall in Ho. rewrite qget_qset_ne; [done..|]. apply not_eq_sym. by apply Ho.
  - intros v k Hv Hq. destruct (Z.eq_dec v w) as [->|Hne].
    + rewrite qget_qset_eq in Hq by done. apply Hnew in Hq as [<- (x & E & Hx)%list_elem_of_fmap].
      exists (with_members ms c), x. by rewrite lookup_insert_eq.
    + rewrite qget_qset_ne in Hq by done. destruct (cw_table m Hw v k Hv Hq) as (c' & x & Hc' & Hx & <-).
      destruct (Z.eq_dec (wk_ctaID k) id) as [E|Hk].
      * rewrite E, Hc in Hc'. injection Hc' as <-. exists (with_members ms c), x. rewrite E, lookup_insert_eq. split_and!; [done| |done]. by apply Hkeep.
      * exists c', x. rewrite lookup_insert_ne by congruence. done.
  - intros i c' [[<- <-]|[_ H]]%lookup_insert_Some; [apply (cw_block m Hw _ _ Hc)|by apply (cw_block m Hw i)].
  - intros i j c1 c2 Hne [[<- <-]|[_ H1]]%lookup_insert_Some [[<- <-]|[_ H2]]%lookup_insert_Some; [done|..].
    + apply (cw_apart m Hw _ j c c2 Hne Hc H2).
    + apply (cw_apart m Hw i _ c1 c Hne H1 Hc).
    + by apply (cw_apart m Hw i j).
  - apply Hw.
Qed.

Lemma Release_wf r id : residency_wf r -> residency_wf (Release r id).1.
Proof.
  intros [Hw Ht]. unfold Release. destruct (pendingCTA _ _); [by split|]. destruct (cm_ctas (rm_manager r) !! id) as [c|] eqn:Ec; [|by split].
  split; cbn; [by apply remove_wf|]. intros i ts j t [_ H]%lookup_delete_Some. by eapply Ht.
Qed.

Lemma BindWarp_wf r id rank wid : residency_wf r -> 0 <= rank -> 0 <= wid -> residency_wf (BindWarp r id rank wid).1.
Proof.
  intros [Hw Ht] H0 Hwid. unfold BindWarp. cbv zeta. destruct (cm_ctas (rm_manager r) !! id) as [c|] eqn:Ec; [|by split].
  destruct (_ || _) eqn:Eg; [by split|]. apply orb_false_iff in Eg as [Hlt _]. destruct (_ || _) eqn:Eb; [by split|].
  apply orb_false_iff in Eb as [Efree _]. destruct (existsb _ _) eqn:Ed; [by split|]. destruct (_ !! Z.to_nat rank) as [t|] eqn:El; [|by split].
  assert (idx4 wid) as Hi by (apply idx4_range; apply Z.leb_gt in Hlt; done).
  assert (wmb_Rank t = rank) as Er.
  { destruct (rm_templates r !! id) as [ts|] eqn:Ets; [|done]. cbn in El. rewrite (Ht _ _ _ _ Ets El). lia. }
  apply bool_decide_eq_false, eq_None_not_Some in Efree. destruct (cw_members _ Hw id c Ec) as [Hd Hf].
  assert (Forall (fun mem => wmb_WarpID mem <> wid) (ct_members c)) as Hn.
  { eapply Forall_impl; [exact Hf|]. intros x [_ Hq] E. congruence. }
  split; cbn [fst rm_manager rm_templates]; [|done]. apply rebind_wf; [done|done|done| | | |].
  - split.
    + rewrite map_app. apply NoDup_app. split_and!; [done| |apply NoDup_singleton].
      intros w (x & -> & Hx)%list_elem_of_fmap Hy%list_elem_of_singleton. rewrite Forall_forall in Hn. by apply (Hn x).
    + apply Forall_app. split; [|constructor; [|done]].
      * apply Forall_forall. intros x Hx. rewrite Forall_forall in Hf, Hn. destruct (Hf x Hx) as [Hxi Hq]. split; [done|].
        rewrite qget_qset_ne; [done..|]. apply not_eq_sym. by apply Hn.
      * split; [done|]. cbn. rewrite qget_qset_eq by done. by rewrite Er.
  - intros k. by rewrite Efree.
  - intros k [= <-]. split; [done|]. rewrite map_app. apply elem_of_app. right. by left.
  - intros x Hx _. apply elem_of_app. by left.
Qed.

Lemma drop_member_elem wid ms rest : drop_member wid ms = Some rest ->
  exists before x after, ms = before ++ x :: after /\ rest = before ++ after /\ wmb_WarpID x = wid.
Proof.
  revert rest. induction ms as [|x ms IH]; intros rest; cbn; [done|]. destruct (Z.eqb_spec (wmb_WarpID x) wid) as [E|].
  - intros [= <-]. by exists [], x, ms.
  - destruct (drop_member wid ms) as [l|]; [|done]. intros [= <-]. destruct (IH l eq_refl) as (b & y & a & -> & -> & Ey). by exists (x :: b), y, a.
Qed.

Lemma DetachWarp_wf r wid : residency_wf r -> 0 <= wid -> residency_wf (DetachWarp r wid).1.
Proof.
  intros [Hw Ht] Hwid. unfold DetachWarp. cbv zeta. destruct (_ >=? _) eqn:Hlt; [by split|]. destruct (qget _ wid) as [key|] eqn:Ek; [|by split].
  assert (idx4 wid) as Hi by (apply idx4_range; apply Z.leb_gt in Hlt; done).
  destruct (BarrierPending _ _); [by split|]. destruct (cm_ctas _ !! _) as [c|] eqn:Ec; [|by split].
  destruct (drop_member _ _) as [rest|] eqn:Ed; [|by split]. apply drop_member_elem in Ed as (b & x & a & E & -> & Ex).
  destruct (cw_members _ Hw _ _ Ec) as [Hd Hf]. rewrite E in Hd. rewrite map_app in Hd. apply NoDup_app in Hd as (Hb & Hba & Hxa). cbn in Hxa.
  apply NoDup_cons in Hxa as [Hx Ha]. assert (wid ∉ map wmb_WarpID (b ++ a)) as Hn.
  { rewrite map_app, <- Ex. intros [H|H]%elem_of_app; [|done]. apply (Hba _ H). cbn. by left. }
  split; cbn [fst rm_manager rm_templates]; [|done]. apply rebind_wf; [done|done|done| | | |].
  - split.
    + rewrite map_app. apply NoDup_app. split_and!; [done| |done]. intros w Hwb Hwa. apply (Hba w Hwb). cbn. by right.
    + apply Forall_forall. intros y Hy. rewrite Forall_forall in Hf. assert (y ∈ ct_members c) as Hyc.
      { rewrite E. apply elem_of_app in Hy as [?|?]; apply elem_of_app; [by left|]. right. by apply list_elem_of_further. }
      destruct (Hf y Hyc) as [Hyi Hq]. split; [done|]. rewrite qget_qset_ne; [done..|]. intros Ey. apply Hn. rewrite Ey. apply list_elem_of_fmap. by exists y.
  - intros k. rewrite Ek. by intros [= <-].
  - done.
  - intros y Hy Hne. rewrite E in Hy. apply elem_of_app in Hy as [?|[->|?]%elem_of_cons]; apply elem_of_app; [by left|done|by right].
Qed.

(** ** Every reachable residency *)

(** One call on the owner; a refused call is a step as well. *)
Inductive residency_step : ResidencyMemory -> ResidencyMemory -> Prop :=
| step_admit r config offset : config_typed config -> 0 <= offset < 2 ^ 32 -> residency_step r (Residency_Admit r config offset).1
| step_reserve r config offset : config_typed config -> 0 <= offset < 2 ^ 32 -> residency_step r (Reserve r config offset).1
| step_release r id : residency_step r (Release r id).1
| step_bind r id rank wid : 0 <= rank -> 0 <= wid -> residency_step r (BindWarp r id rank wid).1
| step_detach r wid : 0 <= wid -> residency_step r (DetachWarp r wid).1.

Lemma residency_step_wf r r' : residency_step r r' -> residency_wf r -> residency_wf r'.
Proof.
  destruct 1; intros Hw; [by apply residency_admit_wf|by apply residency_admit_wf|by apply Release_wf|by apply BindWarp_wf|by apply DetachWarp_wf].
Qed.

(** The blocks of two resident CTAs of a well-formed owner share no byte, and a warp
    is a member of the CTA its table entry names. *)
Definition residency_sound (m : CTAManager) : Prop :=
  (forall i j c c' p, i <> j -> cm_ctas m !! i = Some c -> cm_ctas m !! j = Some c' ->
     ct_backingOffset c <= p < end_of c -> ~ ct_backingOffset c' <= p < end_of c') /\
  (forall w id rank, idx4 w -> (qget (cm_byWarp m) w = Some (mkWarpCTAKey id rank) <->
     exists c mem, cm_ctas m !! id = Some c /\ mem ∈ ct_members c /\ wmb_WarpID mem = w /\ wmb_Rank mem = rank)).

Lemma cta_wf_sound m : cta_wf m -> residency_sound m.
Proof.
  intros Hw. split.
  - intros i j c c' p Hne Hc Hc'. pose proof (cw_apart m Hw i j c c' Hne Hc Hc') as Ha. unfold blocks_apart, apart, end_of in *. cbn in Ha. lia.
  - intros w id rank Hi. split.
    + intros Hq. destruct (cw_table m Hw w _ Hi Hq) as (c & mem & Hc & Hm & E). exists c, mem. split_and!; [done..|].
      destruct (table_unique m _ c mem Hw Hc Hm) as [_ Hq']. rewrite E, Hq in Hq'. by injection Hq'.
    + intros (c & mem & Hc & Hm & <- & <-). by destruct (table_unique m id c mem Hw Hc Hm).
Qed.

(** In every residency reachable from the empty one by admitting, reserving,
    binding, detaching and releasing in any order (calls that are refused included),
    the resident blocks of local memory are pairwise disjoint and the warp table is
    exactly the membership of the resident CTAs. *)
Theorem residency_reachable r : rtc residency_step NewResidencyMemory r -> residency_wf r /\ residency_sound (rm_manager r).
Proof.
  intros H. assert (residency_wf r) as Hw.
  { assert (residency_wf NewResidencyMemory) as H0 by apply NewResidencyMemory_wf. revert H0.
    induction H as [|a b c Hs _ IH]; intros Ha; [done|]. apply IH. by eapply residency_step_wf. }
  split; [done|]. apply cta_wf_sound, Hw.
Qed.

(** ** Leases *)

Definition pins (l : localLease) (c : ctaState) : Prop := ll_allocation l = ct_allocation c /\ ll_offset l = ct_backingOffset c.

Lemma PinLocal_ok m w l : cta_wf m -> idx4 w -> PinLocal m w = Ok l -> exists c, cta_of m w = Some c /\ pins l c.
Proof.
  intros Hw Hi. unfold PinLocal, cta_of. destruct (negb _); [|done]. destruct (qget _ _) as [key|]; [|done].
  destruct (cm_ctas m !! _) as [c|]; [|done]. intros <-%Ok_inj. by exists c.
Qed.

Lemma position_law l c a n : block_ok c -> pins l c -> 0 <= a < 2 ^ 32 -> 0 <= n < 2 ^ 32 ->
  position l a n = if in_window c a n then Ok (physical c a) else Err ErrLocalMemoryRange.
Proof.
  intros Hb [Ea Eo] Ha Hn. unfold position. rewrite Ea, Eo. cbv zeta. rewrite window_check by done.
  destruct (in_window c a n) eqn:Ein; [|done]. by rewrite (window_offset c a n) by (done || lia).
Qed.

Lemma lease_Read_law m l c a n : cta_wf m -> block_ok c -> pins l c -> 0 <= a < 2 ^ 32 -> 0 <= n < 2 ^ 32 ->
  lease_Read m l a n =
  if in_window c a n then Ok (map (fun i => lmem m (physical c i)) (zrange a n)) else Err ErrLocalMemoryRange.
Proof.
  intros Hw Hb Hp Ha Hn. unfold lease_Read. rewrite (position_law l c) by done. destruct (in_window c a n) eqn:Ein; [|done].
  cbn [result_bind]. apply window_slice; [done..|lia].
Qed.

(** A request of the lease: a 32-bit address and fewer than 2^32 bytes. *)
Definition lease_typed (a : Z) (src : list Z) : Prop := 0 <= a < 2 ^ 32 /\ zlen src < 2 ^ 32.

Lemma lease_typed_zip addresses sources : Forall2 lease_typed addresses sources ->
  Forall (fun e => lease_typed e.1 e.2) (zip addresses sources).
Proof. induction 1; by constructor. Qed.

(** The positions of an accepted batch are inside the pinned block. *)
Lemma leasePositions_inv l c previous writes ps :
  block_ok c -> pins l c -> Forall (fun e => lease_typed e.1 e.2) writes -> leasePositions l previous writes = Ok ps ->
  Forall2 (fun p e => ct_backingOffset c <= p /\ p + zlen e.2 <= end_of c) ps writes.
Proof.
  intros Hb Hp Ht. revert previous ps. induction Ht as [|[a src] ws [Ha Hl] Ht IH]; intros previous ps H; cbn [leasePositions] in H.
  { by apply Ok_inj in H as <-. }
  cbn [fst snd] in *. pose proof (zlen_nonneg src) as Hz. rewrite (position_law l c) in H by (done || lia).
  destruct (in_window c a (zlen src)) eqn:Ein; [|done]. cbn [result_bind] in H. pass_check.
  apply result_bind_ok in H as (rest & Hr & <-%Ok_inj). constructor; [|by eapply IH]. cbn [snd].
  apply andb_true_iff in Ein as [H1%Z.leb_le H2%Z.leb_le]. unfold physical, end_of. lia.
Qed.

Lemma copyAll_frame m m' copies lo hi :
  cta_wf m -> 0 <= lo -> hi <= FrozenLocalMemSize -> Forall (fun e => lo <= e.1 /\ e.1 + zlen e.2 <= hi) copies -> copyAll m copies = Ok m' ->
  forall i, 0 <= i -> ~ lo <= i < hi -> lmem m' i = lmem m i.
Proof.
  intros Hw Hlo Hhi Hc. unfold copyAll. revert m Hw. induction Hc as [|[o src] cs [H0 H1] Hc IH]; intros m Hw H i Hi Hout; cbn [foldM] in H.
  { by apply Ok_inj in H as <-. }
  cbn [fst snd] in *. destruct (local_copy_law m o src Hw) as (m1 & Em & E & Hl & Hb); [lia|lia|]. rewrite Em in H. cbn [result_bind] in H.
  assert (cta_wf m1) as Hw1 by (rewrite E; by apply set_localMem_wf).
  rewrite (IH m1 Hw1 H i Hi Hout), Hb by done. apply overlay_block. lia.
Qed.

Lemma lease_WriteBatch_law m l c addresses sources :
  cta_wf m -> block_ok c -> pins l c -> Forall2 lease_typed addresses sources ->
  let out := lease_WriteBatch m l addresses sources in
  cta_wf out.1 /\ (forall w, cta_of out.1 w = cta_of m w) /\
  (forall i, 0 <= i -> ~ ct_backingOffset c <= i < end_of c -> lmem out.1 i = lmem m i) /\
  (forall e, out.2 = Err e -> out.1 = m).
Proof.
  intros Hw Hb Hp Ht. unfold lease_WriteBatch. destruct (negb _); [done|]. destruct (leasePositions _ _ _) as [ps|e] eqn:Ep; [|done].
  apply (leasePositions_inv l c) in Ep; [|done|done|by apply lease_typed_zip]. destruct Hb as (B0 & B1 & B2 & B3).
  assert (Forall (fun e => ct_backingOffset c <= e.1 /\ e.1 + zlen e.2 <= end_of c) (zip ps sources)) as Hc.
  { replace sources with (map snd (zip addresses sources)) by (apply snd_zip; by rewrite (Forall2_length _ _ _ Ht)).
    by apply (zip_sources ps (zip addresses sources) (fun p s => ct_backingOffset c <= p /\ p + zlen s <= end_of c)). }
  destruct (copyAll_ok m (zip ps sources) Hw) as (m' & E & Hw' & Em); [eapply Forall_impl; [exact Hc|]; cbn; intros x ?; lia|].
  rewrite E. cbn [fst snd]. split_and!; [done|intros w; by rewrite Em| |done].
  by eapply copyAll_frame.
Qed.

(** A pinned lease keeps serving the block it was taken on.  In any later state
    of the owner (the warp may have been detached and bound to another CTA) a read of
    the window returns the bytes of the pinned block, every other read is refused; a
    batch changes bytes of that block only, changes nothing when it is refused and
    leaves the membership alone; and while a warp is bound to the block the lease
    reads exactly what the warp's own route reads. *)
Theorem pinned_lease m w l :
  cta_wf m -> idx4 w -> PinLocal m w = Ok l ->
  exists c, cta_of m w = Some c /\
  forall m', cta_wf m' ->
  (forall a n, 0 <= a < 2 ^ 32 -> 0 <= n < 2 ^ 32 ->
     lease_Read m' l a n =
       (if in_window c a n then Ok (map (fun i => lmem m' (physical c i)) (zrange a n)) else Err ErrLocalMemoryRange) /\
     forall w' c', idx4 w' -> cta_of m' w' = Some c' -> ct_allocation c' = ct_allocation c -> ct_backingOffset c' = ct_backingOffset c ->
       lease_Read m' l a n = readLocal m' w' a n) /\
  (forall addresses sources, Forall2 lease_typed addresses sources ->
     let out := lease_WriteBatch m' l addresses sources in
     cta_wf out.1 /\ (forall v, cta_of out.1 v = cta_of m' v) /\
     (forall i, 0 <= i -> ~ ct_backingOffset c <= i < end_of c -> lmem out.1 i = lmem m' i) /\
     (forall e, out.2 = Err e -> out.1 = m')).
Proof.
  intros Hw Hi Hl. destruct (PinLocal_ok m w l Hw Hi Hl) as (c & Hc & Hp). exists c. split; [done|]. pose proof (cta_of_ok m w c Hw Hc) as Hb.
  intros m' Hw'. split; [|intros addresses sources Ht; by apply lease_WriteBatch_law].
  intros a n Ha Hn. split; [by apply lease_Read_law|]. intros w' c' Hi' Hc' Ea Eo. rewrite (lease_Read_law m' l c) by done.
  rewrite readLocal_law by done. rewrite Hc'. unfold in_window. rewrite Ea. destruct (_ && _); [|done]. f_equal. apply map_ext. intros i.
  unfold physical. by rewrite Ea, Eo.
Qed.

(** ** Instances *)

Definition example_residency_1 : ResidencyMemory := (Residency_Admit NewResidencyMemory (example_cta 0 [1] 4 100) 0).1.
Definition example_residency_2 : ResidencyMemory := (Reserve example_residency_1 (example_cta 1 [2; 3] 6 64) 128).1.
Definition example_residency : ResidencyMemory := (BindWarp example_residency_2 1 0 3).1.

Lemma example_residency_reachable : rtc residency_step NewResidencyMemory example_residency.
Proof.
  apply (rtc_l _ _ example_residency_1); [apply step_admit; [by apply example_cta_typed; [|repeat constructor|]|lia]|].
  apply (rtc_l _ _ example_residency_2); [apply step_reserve; [by apply example_cta_typed; [|repeat constructor|]|lia]|].
  apply rtc_once. apply step_bind; lia.
Qed.

Lemma example_residency_wf : residency_wf example_residency.
Proof.
  apply BindWarp_wf; [|lia|lia]. apply residency_admit_wf; [|by apply example_cta_typed; [|repeat constructor|]|lia].
  apply residency_admit_wf; [apply NewResidencyMemory_wf|by apply example_cta_typed; [|repeat constructor|]|lia].
Qed.

Example residency_reachable_witness :
  residency_sound (rm_manager example_residency) /\ qget (cm_byWarp (rm_manager example_residency)) 3 = Some (mkWarpCTAKey 1 0).
Proof. split; [apply residency_reachable; exact example_residency_reachable|vm_compute; reflexivity]. Defined.

(** The lease pinned through warp 3 still reads the old bytes after the warp is gone. *)
Example pinned_lease_witness :
  let m := rm_manager example_residency in
  let m' := rm_manager (DetachWarp example_residency 3).1 in
  exists l, PinLocal m 3 = Ok l /\ qget (cm_byWarp m') 3 = None /\ lease_Read m' l (FrozenLocalMemBase + 128) 2 = Ok [0; 0].
Proof.
  intros m m'. destruct (PinLocal m 3) as [l|] eqn:E; [|vm_compute in E; discriminate E]. exists l. split; [reflexivity|]. split; [vm_compute; reflexivity|].
  pose proof example_residency_wf as Hr.
  destruct (pinned_lease m 3 l) as (c & Hc & H); [apply Hr|by right; right; right|exact E|].
  destruct (H m') as [Hread _]; [apply DetachWarp_wf; [exact Hr|lia]|].
  destruct (Hread (FrozenLocalMemBase + 128) 2) as [-> _]; [vm_compute; split; [discriminate|reflexivity]|lia|].
  vm_compute in Hc. injection Hc as <-. vm_compute. reflexivity.
Defined.
