(* ===== verification/Launch.v ===== *)
(** * Launching warps (src/emu/state/launch.go, spawn.go)

    Two transactions change several canonical owners at once: a CTA launch and a
    WSPAWN.  Each is staged against detached copies and committed only when no owner
    has moved since.  An owner pointer is an integer and the store [owners] holds
    what each points to, so two targets that name one owner alias here as they do in
    the code; [None] is the nil pointer. *)

From S2P Require Import Prelude IsaTypes Integer System WarpState Apply.

#[local] Open Scope Z_scope.
#[local] Open Scope go_scope.

Notation owners := (gmap Z WarpState).

Definition FrozenCTAReentryBytes : Z := 20.

Definition set_mscratch (v : Z) (w : WarpState) : WarpState :=
  let t := w_trapCSRs w in
  set_trapCSRs (mkTrapCSRState (tc_MStatus t) (tc_MTVec t) v (tc_MEPC t) (tc_MCause t) (tc_MTVal t)) w.

(** The running image a launch or a spawn installs: PC, lanes and [mscratch]. *)
Definition activated (pc : Z) (mask : LaneMask) (mscratch : Z) (w : WarpState) : WarpState :=
  set_mscratch mscratch (set_mask mask WarpRunning (set_pc pc w)).

(** ** Prepared replacements *)

(** [warpSpawnCandidate]; the launch candidate carries a result as well. *)
Record candidate := mkCandidate { cd_owner : Z; cd_before : WarpState; cd_after : WarpState }.

Definition fresh (h : owners) (c : candidate) : bool := bool_decide (h !! cd_owner c = Some (cd_before c)).

Definition installed (cs : list candidate) (h : owners) : owners := fold_left (fun h c => <[cd_owner c := cd_after c]> h) cs h.

(** ** CTA launch *)

Record WarpLaunchTarget := mkWarpLaunchTarget {
  lt_WarpID : Z;
  lt_Owner : option Z;
  lt_StartupPC : Z;
  lt_ActiveMask : LaneMask;
  lt_ParameterAddress : Z;
  lt_FirstUse : bool
}.

Record WarpLaunchResult := mkWarpLaunchResult {
  lr_WarpID : Z;
  lr_PC : Z;
  lr_ActiveMask : LaneMask;
  lr_FirstUse : bool
}.

Record WarpLaunchStage := mkWarpLaunchStage {
  ls_targets : list (candidate * WarpLaunchResult);
  ls_committed : bool
}.

Definition launch_pc (t : WarpLaunchTarget) (w : WarpState) : Z :=
  if lt_FirstUse t then lt_StartupPC t else u32 (w_pc w - FrozenCTAReentryBytes).

(** The ids and owners seen so far, and the candidates. *)
Notation launchState := (list Z * list Z * list (candidate * WarpLaunchResult))%type.

Definition launchTarget (h : owners) (acc : launchState) (t : WarpLaunchTarget) : result launchState :=
  let '(seenIDs, seenOwners, cs) := acc in
  match (if lt_WarpID t >=? FrozenWarpCount then None else lt_Owner t) with
  | None => Err (Errorf "state: CTA launch target has invalid warp or owner")
  | Some p =>
      match h !! p with
      | None => Err (GoPanic "invalid memory address")
      | Some w =>
          check w_id w =? lt_WarpID t else Errorf "state: CTA launch target references another warp" in
          check negb (bool_decide (lt_WarpID t ∈ seenIDs)) else Errorf "state: CTA launch repeats warp id" in
          check negb (bool_decide (p ∈ seenOwners)) else Errorf "state: CTA launch repeats a canonical owner" in
          check lt_StartupPC t .& 3 =? 0 else Errorf "state: CTA startup PC is not four-byte aligned" in
          check negb (negb (LaneMask_Valid (lt_ActiveMask t)) || (lt_ActiveMask t =? 0))
            else Errorf "state: CTA launch warp has invalid active mask" in
          check negb ((w_lifecycle w !=. WarpInactive) || (w_activeMask w <>? 0))
            else Errorf "state: CTA launch warp is not canonically inactive" in
          let pc := launch_pc t w in
          Ok (lt_WarpID t :: seenIDs, p :: seenOwners,
              cs ++ [(mkCandidate p w (activated pc (lt_ActiveMask t) (lt_ParameterAddress t) w),
                      mkWarpLaunchResult (lt_WarpID t) pc (lt_ActiveMask t) (lt_FirstUse t))])
      end
  end.

Definition StageWarpLaunch (h : owners) (targets : list WarpLaunchTarget) : result WarpLaunchStage :=
  check negb ((length targets =? 0)%nat || (Z.of_nat (length targets) >? FrozenWarpCount))
    else Errorf "state: CTA launch has invalid target count" in
  let? acc := foldM (launchTarget h) ([], [], []) targets in
  Ok (mkWarpLaunchStage acc.2 false).

Definition Results (s : WarpLaunchStage) : list WarpLaunchResult := map snd (ls_targets s).

Definition Launch_Commit (h : owners) (s : WarpLaunchStage) : owners * WarpLaunchStage * result unit :=
  if (length (ls_targets s) =? 0)%nat then (h, s, Err (Errorf "state: nil CTA launch stage"))
  else if ls_committed s then (h, s, Err (Errorf "state: CTA launch stage was already committed"))
  else if negb (forallb (fresh h) (map fst (ls_targets s))) then
    (h, s, Err (Errorf "state: CTA launch stage is stale because warp state changed"))
  else (installed (map fst (ls_targets s)) h, mkWarpLaunchStage (ls_targets s) true, Ok tt).

(** ** WSPAWN *)

Record WarpSpawnTarget := mkWarpSpawnTarget {
  st_WarpID : Z;
  st_Owner : option Z;
  st_Expected : WarpState
}.

(** The source stage belongs to the owner [sp_sourceOwner]; marking the transaction
    committed marks the source stage too. *)
Record WarpSpawnStage := mkWarpSpawnStage {
  sp_sourceOwner : Z;
  sp_source : EffectStage;
  sp_targets : list candidate;
  sp_committed : bool
}.

Definition hasForwardedExceptSpawn (e : InstructionEffects) : bool :=
  negb (length (MemoryRequests e) =? 0)%nat || match Ordering e with Some _ => true | None => false end ||
  negb (length (CSRReads e) =? 0)%nat || negb (length (CSRWrites e) =? 0)%nat || negb (length (WarpDrains e) =? 0)%nat ||
  negb (length (Barriers e) =? 0)%nat || negb (length (PackedLoads e) =? 0)%nat || negb (length (Faults e) =? 0)%nat.

(** The target mask of a count: every other warp below it. *)
Definition expectedTargets (count sourceID : Z) : WarpMask :=
  fold4 (fun mask id => if (id <? count) && (id <>? sourceID) then mask .| u8 (1 << id) else mask) 0.

Definition validateFrozenSpawn (sourceID : Z) (s : WarpSpawnEffect) : result unit :=
  check negb ((ws_SourceWarp s <>? sourceID) || (sourceID >=? FrozenWarpCount)) else Errorf "state: WSPAWN source id is inconsistent" in
  check negb (negb (WarpMask_Valid (ws_Targets s)) || (ws_Targets s .& u8 (1 << sourceID) <>? 0))
    else Errorf "state: WSPAWN target mask is invalid or contains source" in
  check negb (ws_RequestedCount s >? 7) else Errorf "state: WSPAWN requested count exceeds its three-bit encoding" in
  check ws_Targets s =? expectedTargets (ws_RequestedCount s) sourceID else Errorf "state: WSPAWN target mask does not match count/source" in
  check negb ((ws_TargetPC s .& 3 <>? 0) || (ws_InitialLaneMask s <>? 1) || negb (ws_CopyMScratch s) ||
      negb (ws_RequiresSingleActiveWarp s) || negb (ws_ReleaseSourceAfterApply s))
    else Errorf "state: WSPAWN PC, lane0 mask, mscratch copy, or gate contract is invalid" in
  Ok tt.

Definition selected (targets : WarpMask) (id : Z) : bool := targets .& u8 (1 << id) <>? 0.

Definition target_count (targets : WarpMask) : Z := fold4 (fun n id => if selected targets id then n + 1 else n) 0.

Notation spawnState := (list Z * list Z * list candidate)%type.

Definition spawnTarget (h : owners) (spawn : WarpSpawnEffect) (acc : spawnState) (t : WarpSpawnTarget) : result spawnState :=
  let '(seenIDs, seenOwners, cs) := acc in
  check negb ((st_WarpID t >=? FrozenWarpCount) || negb (selected (ws_Targets spawn) (st_WarpID t)))
    else Errorf "state: WSPAWN target is not selected" in
  match st_Owner t with
  | None => Err (Errorf "state: nil WSPAWN target owner")
  | Some p =>
      check negb (bool_decide (st_WarpID t ∈ seenIDs)) else Errorf "state: duplicate WSPAWN target id" in
      check negb (bool_decide (p ∈ seenOwners)) else Errorf "state: duplicate WSPAWN target owner" in
      match h !! p with
      | None => Err (GoPanic "invalid memory address")
      | Some w =>
          check w_id w =? st_WarpID t else Errorf "state: WSPAWN target references another warp" in
          check negb ((w !=. st_Expected t) || (w_id (st_Expected t) <>? st_WarpID t))
            else Errorf "state: WSPAWN target changed since source issue" in
          check negb ((w_lifecycle w !=. WarpInactive) || (w_activeMask w <>? 0)) else Errorf "state: WSPAWN target is not inactive" in
          Ok (st_WarpID t :: seenIDs, p :: seenOwners,
              cs ++ [mkCandidate p w (activated (ws_TargetPC spawn) (ws_InitialLaneMask spawn) (ws_MScratch spawn) w)])
      end
  end.

(** [stageWarpSpawn]: [so] is the owner of the source stage. *)
Definition stageWarpSpawn (h : owners) (so : Z) (source : EffectStage) (targets : list WarpSpawnTarget) (instructionPC : option Z) :
    result WarpSpawnStage :=
  check negb (es_committed source) else Errorf "state: WSPAWN source stage was already committed" in
  check es_requiresExternal source else Errorf "state: WSPAWN source stage has no external prerequisite" in
  check bool_decide (h !! so = Some (es_before source)) else Errorf "state: WSPAWN source stage is stale because canonical state changed" in
  match WarpSpawn (es_forwarded source), hasForwardedExceptSpawn (es_forwarded source) with
  | Some spawn, false =>
      let before := es_before source in
      let? _ := validateFrozenSpawn (w_id before) spawn in
      check negb ((w_lifecycle before !=. WarpRunning) || (w_activeMask before =? 0) || (ws_MScratch spawn <>? tc_MScratch (w_trapCSRs before)))
        else Errorf "state: WSPAWN source lifecycle, mask, or mscratch view is stale" in
      let pc := match instructionPC with Some pc => u32 (pc + 4) | None => u32 (w_pc before + 4) end in
      check negb (es_after source !=. set_pc pc before)
        else Errorf "state: WSPAWN source candidate contains non-sequential or extra local mutation" in
      check Z.of_nat (length targets) =? target_count (ws_Targets spawn) else Errorf "state: WSPAWN got the wrong number of targets" in
      let? acc := foldM (spawnTarget h spawn) ([], [so], []) targets in
      check forallb (fun id => negb (selected (ws_Targets spawn) id) || bool_decide (id ∈ acc.1.1)) [0; 1; 2; 3]
        else Errorf "state: WSPAWN target set is missing a warp" in
      Ok (mkWarpSpawnStage so source acc.2 false)
  | _, _ => Err (Errorf "state: WSPAWN stage requires exactly one forwarded spawn effect")
  end.

Definition StageWarpSpawn (h : owners) (so : Z) (source : EffectStage) (targets : list WarpSpawnTarget) : result WarpSpawnStage :=
  stageWarpSpawn h so source targets None.

Definition Spawn_Commit (h : owners) (s : WarpSpawnStage) : owners * WarpSpawnStage * result unit :=
  if sp_committed s || es_committed (sp_source s) then (h, s, Err (Errorf "state: WSPAWN stage was already committed"))
  else if negb (bool_decide (h !! sp_sourceOwner s = Some (es_before (sp_source s)))) then
    (h, s, Err (Errorf "state: WSPAWN source stage is stale because canonical state changed"))
  else if negb (forallb (fresh h) (sp_targets s)) then
    (h, s, Err (Errorf "state: WSPAWN target stage is stale because canonical state changed"))
  else (installed (sp_targets s) (<[sp_sourceOwner s := es_after (sp_source s)]> h),
        mkWarpSpawnStage (sp_sourceOwner s) (mark_committed (sp_source s)) (sp_targets s) true, Ok tt).
