(* ===== verification/LaunchSpec.v ===== *)
(** * Launch and spawn are transactions

    Staging accepts exactly the launchable target lists; a commit installs every
    prepared image or none, at most once, and refuses owners that have moved. *)

From S2P Require Import Prelude IsaTypes Integer System WarpState Apply Launch.

#[local] Open Scope Z_scope.
#[local] Open Scope go_scope.

(** ** Installing candidates *)

Definition owners_wf (h : owners) : Prop := forall p w, h !! p = Some w -> warp_wf w.

Lemma installed_out cs h p : p ∉ map cd_owner cs -> installed cs h !! p = h !! p.
Proof.
  unfold installed. revert h. induction cs as [|c cs IH]; intros h Hp; cbn [fold_left]; [done|]. cbn in Hp.
  apply not_elem_of_cons in Hp as [Hne Hp]. rewrite IH by done. by rewrite lookup_insert_ne.
Qed.

Lemma installed_in cs h c : NoDup (map cd_owner cs) -> c ∈ cs -> installed cs h !! cd_owner c = Some (cd_after c).
Proof.
  unfold installed. revert h. induction cs as [|c' cs IH]; intros h Hd Hc; [by apply elem_of_nil in Hc|]. cbn in Hd.
  apply NoDup_cons in Hd as [Hn Hd]. cbn [fold_left]. apply elem_of_cons in Hc as [->|Hc]; [|by apply IH].
  etransitivity; [by apply (installed_out cs)|]. apply lookup_insert_eq.
Qed.

Lemma installed_wf cs h : owners_wf h -> Forall (fun c => warp_wf (cd_after c)) cs -> owners_wf (installed cs h).
Proof.
  unfold installed. intros Hw Hc. revert h Hw. induction Hc as [|c cs H0 Hc IH]; intros h Hw; cbn [fold_left]; [done|]. apply IH.
  intros p w [[_ <-]|[_ H]]%lookup_insert_Some; [done|by apply (Hw p)].
Qed.

Lemma fresh_all h cs : forallb (fresh h) cs = true <-> Forall (fun c => h !! cd_owner c = Some (cd_before c)) cs.
Proof.
  rewrite Forall_forall. unfold fresh. split.
  - intros H c Hc. pose proof (forallb_elem _ _ H c Hc) as Hx. by apply bool_decide_eq_true in Hx.
  - intros H. apply forallb_forall. intros c Hc%list_elem_of_In. apply bool_decide_eq_true_2. by apply H.
Qed.

Lemma activated_wf pc mask mscratch w : warp_wf w -> pc_ok pc -> mask_ok mask -> mask <> 0 -> is_u32 mscratch ->
  warp_wf (activated pc mask mscratch w).
Proof.
  intros Hw Hpc Hm Hne Hs. split; cbn; try apply Hw; try done; [by left|]. by destruct (wf_trap w Hw).
Qed.

(** ** Loops that refuse repeated ids and owners *)
Section SeenFold.
Context {T C : Type} (idof : T -> Z) (own : C -> Z) (ok : T -> C -> Prop).
Context (step : list Z * list Z * list C -> T -> result (list Z * list Z * list C)).
Context (step_ok : forall si so cs t acc, step (si, so, cs) t = Ok acc <->
  exists z, ok t z /\ idof t ∉ si /\ own z ∉ so /\ acc = (idof t :: si, own z :: so, cs ++ [z])).

Lemma seen_fold si so cs ts acc :
  foldM step (si, so, cs) ts = Ok acc <->
  exists zs, Forall2 ok ts zs /\ NoDup (map idof ts) /\ Forall (fun id => id ∉ si) (map idof ts) /\
    NoDup (map own zs) /\ Forall (fun p => p ∉ so) (map own zs) /\
    acc = (rev (map idof ts) ++ si, rev (map own zs) ++ so, cs ++ zs).
Proof.
  revert si so cs. induction ts as [|t ts IH]; intros si so cs; cbn [foldM].
  { split; [intros <-%Ok_inj; exists []; split_and!; [constructor..|by rewrite app_nil_r]|].
    intros (zs & Hz%Forall2_nil_inv_l & _ & _ & _ & _ & ->). by rewrite Hz, app_nil_r. }
  split.
  - intros (a & Ha & Hr)%result_bind_ok. apply step_ok in Ha as (z & Hz & Hi & Ho & ->). apply IH in Hr as (zs & Hzs & Hd & Hs & Hdo & Hso & ->).
    rewrite Forall_forall in Hs. rewrite Forall_forall in Hso. exists (z :: zs). cbn [map rev]. rewrite !NoDup_cons, !Forall_cons, !Forall_forall, <- !app_assoc.
    split_and!; try done; try (by constructor).
    + intros Hin. apply (Hs _ Hin). by left.
    + intros x Hx Hy. apply (Hs _ Hx). by right.
    + intros Hin. apply (Hso _ Hin). by left.
    + intros x Hx Hy. apply (Hso _ Hx). by right.
  - intros (zs & Hzs & Hd & Hs & Hdo & Hso & ->). inversion Hzs as [|? z ? zs' Hz Hzs' E1 E2]; subst. cbn [map] in *.
    apply NoDup_cons in Hd as [Hn Hd], Hdo as [Hno Hdo]. apply Forall_cons in Hs as [Hi Hs], Hso as [Ho Hso].
    rewrite (proj2 (step_ok si so cs t (idof t :: si, own z :: so, cs ++ [z]))) by (by exists z). cbn [result_bind].
    apply IH. exists zs'. cbn [rev]. rewrite <- !app_assoc. rewrite Forall_forall in Hs. rewrite Forall_forall in Hso.
    split_and!; [done|done| |done| |done]; apply Forall_forall; intros x Hx [->|Hy]%elem_of_cons; try done; [by apply (Hs x)|by apply (Hso x)].
Qed.
End SeenFold.

(** ** CTA launch *)

(** What staging finds for one target: the owner it names and the image prepared for it. *)
Record launch_staged (h : owners) (t : WarpLaunchTarget) (z : candidate * WarpLaunchResult) : Prop := {
  lo_owner : lt_Owner t = Some (cd_owner z.1);
  lo_before : h !! cd_owner z.1 = Some (cd_before z.1);
  lo_id : w_id (cd_before z.1) = lt_WarpID t;
  lo_range : lt_WarpID t < 4;
  lo_pc : lt_StartupPC t .& 3 = 0;
  lo_mask : LaneMask_Valid (lt_ActiveMask t) = true;
  lo_nonzero : lt_ActiveMask t <> 0;
  lo_inactive : w_lifecycle (cd_before z.1) = WarpInactive;
  lo_lanes : w_activeMask (cd_before z.1) = 0;
  lo_after : cd_after z.1 = activated (launch_pc t (cd_before z.1)) (lt_ActiveMask t) (lt_ParameterAddress t) (cd_before z.1);
  lo_result : z.2 = mkWarpLaunchResult (lt_WarpID t) (launch_pc t (cd_before z.1)) (lt_ActiveMask t) (lt_FirstUse t)
}.

Lemma launchTarget_ok h si so cs t acc :
  launchTarget h (si, so, cs) t = Ok acc <->
  exists z, launch_staged h t z /\ lt_WarpID t ∉ si /\ cd_owner z.1 ∉ so /\ acc = (lt_WarpID t :: si, cd_owner z.1 :: so, cs ++ [z]).
Proof.
  unfold launchTarget. change FrozenWarpCount with 4. split.
  - destruct (Z.leb_spec 4 (lt_WarpID t)); [done|]. destruct (lt_Owner t) as [p|] eqn:Ep; [|done]. destruct (h !! p) as [w|] eqn:Ew; [|done].
    destruct (Z.eqb_spec (w_id w) (lt_WarpID t)); [|done]. destruct (bool_decide_reflect (lt_WarpID t ∈ si)); [done|].
    destruct (bool_decide_reflect (p ∈ so)); [done|]. cbn [negb]. destruct (Z.eqb_spec (lt_StartupPC t .& 3) 0); [|done].
    destruct (LaneMask_Valid (lt_ActiveMask t)) eqn:Em; [|done]. destruct (Z.eqb_spec (lt_ActiveMask t) 0); [done|]. cbn [negb orb].
    destruct (decide (w_lifecycle w = WarpInactive)) as [El|]; [|by rewrite bool_decide_eq_false_2].
    rewrite bool_decide_eq_true_2 by done. destruct (Z.eqb_spec (w_activeMask w) 0) as [E0|]; [|done]. cbn [negb orb].
    intros <-%Ok_inj. exists (mkCandidate p w (activated (launch_pc t w) (lt_ActiveMask t) (lt_ParameterAddress t) w),
      mkWarpLaunchResult (lt_WarpID t) (launch_pc t w) (lt_ActiveMask t) (lt_FirstUse t)). by split.
  - intros ([[p w after] r] & [Eo Eb Ei Er Epc Em E0 El Ela Eaf Ers] & Hsi & Hso & ->). cbn [fst snd cd_owner cd_before cd_after] in *.
    destruct (Z.leb_spec 4 (lt_WarpID t)); [lia|]. rewrite Eo, Eb, Ei, Z.eqb_refl, Epc, Em, El, Ela.
    rewrite (bool_decide_eq_false_2 (lt_WarpID t ∈ si)), (bool_decide_eq_false_2 (p ∈ so)) by done.
    rewrite bool_decide_eq_true_2 by done. rewrite Eaf, Ers.
    destruct (Z.eqb_spec (lt_ActiveMask t) 0); [done|]. by cbn.
Qed.

(** The target lists a launch accepts: one to four distinct warps with distinct
    inactive owners, aligned startup PCs and nonempty lane masks. *)
Definition launchable (h : owners) (targets : list WarpLaunchTarget) (zs : list (candidate * WarpLaunchResult)) : Prop :=
  (1 <= length targets <= 4)%nat /\ Forall2 (launch_staged h) targets zs /\
  NoDup (map lt_WarpID targets) /\ NoDup (map (fun z => cd_owner z.1) zs).

Lemma StageWarpLaunch_ok h targets s :
  StageWarpLaunch h targets = Ok s <-> exists zs, launchable h targets zs /\ s = mkWarpLaunchStage zs false.
Proof.
  unfold StageWarpLaunch, launchable. change FrozenWarpCount with 4. split.
  - destruct (Nat.eqb_spec (length targets) 0); [done|]. destruct (Z.ltb_spec 4 (Z.of_nat (length targets))); [done|]. cbn [orb negb].
    intros (acc & Ha & <-%Ok_inj)%result_bind_ok. apply (seen_fold _ _ _ _ (launchTarget_ok h)) in Ha as (zs & Hz & Hd & _ & Ho & _ & ->). exists zs. split_and!; try done; lia.
  - intros (zs & (Hl & Hz & Hd & Ho) & ->). destruct (Nat.eqb_spec (length targets) 0); [lia|].
    destruct (Z.ltb_spec 4 (Z.of_nat (length targets))); [lia|]. cbn [orb negb].
    rewrite (proj2 (seen_fold _ _ _ _ (launchTarget_ok h) [] [] [] targets (rev (map lt_WarpID targets) ++ [], rev (map (fun z => cd_owner z.1) zs) ++ [], [] ++ zs))); [done|].
    exists zs. split_and!; try done; apply Forall_forall; intros x _; apply not_elem_of_nil.
Qed.

(** The prepared candidates install what each target asks for. *)
Lemma launch_installed h targets zs : launchable h targets zs ->
  let h' := installed (map fst zs) h in
  (forall t, t ∈ targets -> exists p w, lt_Owner t = Some p /\ h !! p = Some w /\
     h' !! p = Some (activated (launch_pc t w) (lt_ActiveMask t) (lt_ParameterAddress t) w)) /\
  (forall p, (forall t, t ∈ targets -> lt_Owner t <> Some p) -> h' !! p = h !! p).
Proof.
  intros (_ & Hz & _ & Ho). cbv zeta. split.
  - intros t (i & Ht)%list_elem_of_lookup. destruct (Forall2_lookup_l _ _ _ _ _ Hz Ht) as (z & Hzi & Hok). exists (cd_owner z.1), (cd_before z.1).
    split_and!; [apply Hok|apply Hok|]. rewrite installed_in; [by rewrite (lo_after _ _ _ Hok)|by rewrite map_map|].
    apply list_elem_of_fmap. exists z. split; [done|]. by eapply list_elem_of_lookup_2.
  - intros p Hp. apply installed_out. rewrite map_map. intros (z & -> & (i & Hi)%list_elem_of_lookup)%list_elem_of_fmap.
    destruct (Forall2_lookup_r _ _ _ _ _ Hz Hi) as (t & Ht & Hok). apply (Hp t); [by eapply list_elem_of_lookup_2|apply Hok].
Qed.

Lemma launch_fresh h targets zs : launchable h targets zs -> forallb (fresh h) (map fst zs) = true.
Proof.
  intros (_ & Hz & _ & _). apply fresh_all, Forall_map. induction Hz as [|t z ts zs Hok Hz IH]; constructor; [apply Hok|done].
Qed.

(** A moved owner makes a prepared candidate stale. *)
Lemma stale_candidate h h1 cs c : forallb (fresh h) cs = true -> c ∈ cs -> h1 !! cd_owner c <> h !! cd_owner c -> forallb (fresh h1) cs = false.
Proof.
  intros Hf Hc Hne. apply not_true_is_false. rewrite fresh_all in Hf |- *. rewrite !Forall_forall in *. intros H1. apply Hne.
  by rewrite (H1 c Hc), (Hf c Hc).
Qed.

Record launch_typed (t : WarpLaunchTarget) : Prop := {
  ltt_id : 0 <= lt_WarpID t;
  ltt_pc : is_u32 (lt_StartupPC t);
  ltt_mask : is_u8 (lt_ActiveMask t);
  ltt_param : is_u32 (lt_ParameterAddress t)
}.

Lemma launch_pc_ok t w : is_u32 (lt_StartupPC t) -> lt_StartupPC t .& 3 = 0 -> pc_ok (w_pc w) -> pc_ok (launch_pc t w).
Proof.
  intros Ht Ha [Hp Hm]. unfold launch_pc. destruct (lt_FirstUse t).
  - split; [done|]. change 3 with (Z.ones 2) in Ha. rewrite Z.land_ones in Ha by lia. exact Ha.
  - split; [apply u32_range|]. unfold u32, FrozenCTAReentryBytes.
    rewrite <- Znumtheory.Zmod_div_mod; [|lia|lia|by exists (2 ^ 30)]. rewrite Zminus_mod, Hm. reflexivity.
Qed.

Lemma launch_wf h targets zs : owners_wf h -> Forall launch_typed targets -> launchable h targets zs -> owners_wf (installed (map fst zs) h).
Proof.
  intros Hw Ht (_ & Hz & _ & _). apply installed_wf; [done|]. apply Forall_map. revert Ht. induction Hz as [|t z ts zs Hok Hz IH]; intros Ht; [constructor|].
  apply Forall_cons in Ht as [[] Ht]. constructor; [|by apply IH]. cbn. rewrite (lo_after _ _ _ Hok).
  pose proof (Hw _ _ (lo_before _ _ _ Hok)) as Hwb. apply activated_wf; [done| | |apply Hok|done].
  - apply launch_pc_ok; [done|apply Hok|apply Hwb].
  - apply LaneMask_Valid_spec; [unfold is_u8 in *; lia|apply Hok].
Qed.

(** A CTA launch is a transaction over the canonical owners.  Staging accepts a
    target list exactly when it names one to four distinct warps whose owners are
    distinct and inactive, with aligned startup PCs and nonempty lane masks; the
    commit then activates all of them, at the startup PC on first use and twenty
    bytes before the finished PC on reuse, and touches no other owner.  It happens at
    most once, and if any target has changed since staging nothing happens at all. *)
Theorem launch_transaction h targets :
  match StageWarpLaunch h targets with
  | Err _ => forall zs, ~ launchable h targets zs
  | Ok s =>
      launchable h targets (ls_targets s) /\
      exists h' s', Launch_Commit h s = (h', s', Ok tt) /\
        (forall t, t ∈ targets -> exists p w, lt_Owner t = Some p /\ h !! p = Some w /\
           h' !! p = Some (activated (launch_pc t w) (lt_ActiveMask t) (lt_ParameterAddress t) w)) /\
        (forall p, (forall t, t ∈ targets -> lt_Owner t <> Some p) -> h' !! p = h !! p) /\
        (owners_wf h -> Forall launch_typed targets -> owners_wf h') /\
        (forall h1, exists e, Launch_Commit h1 s' = (h1, s', Err e)) /\
        (forall h1 t p, t ∈ targets -> lt_Owner t = Some p -> h1 !! p <> h !! p -> exists e, Launch_Commit h1 s = (h1, s, Err e))
  end.
Proof.
  destruct (StageWarpLaunch h targets) as [s|e] eqn:E.
  2: { intros zs Hz. rewrite (proj2 (StageWarpLaunch_ok h targets (mkWarpLaunchStage zs false))) in E by (by exists zs). done. }
  apply StageWarpLaunch_ok in E as (zs & Hl & ->). cbn [ls_targets]. split; [done|].
  pose proof (launch_fresh h targets zs Hl) as Hf. pose proof (launch_installed h targets zs Hl) as [Hin Hout].
  assert (length zs <> 0)%nat as Hn by (destruct Hl as (H1 & Hz & _); rewrite <- (Forall2_length _ _ _ Hz); lia).
  eexists _, _. unfold Launch_Commit. cbn [ls_targets ls_committed]. destruct (Nat.eqb_spec (length zs) 0); [done|]. rewrite Hf.
  split_and!; [reflexivity|exact Hin|exact Hout|intros Hw Ht; by eapply launch_wf| |].
  - intros h1. cbn. destruct (Nat.eqb_spec (length zs) 0); [done|]. by eexists.
  - intros h1 t p (i & Ht)%list_elem_of_lookup Hp Hne. destruct Hl as (_ & Hz & _). destruct (Forall2_lookup_l _ _ _ _ _ Hz Ht) as (z & Hzi & Hok).
    rewrite (stale_candidate h h1 (map fst zs) z.1); [by eexists|done|apply list_elem_of_fmap; exists z; split; [done|by eapply list_elem_of_lookup_2]|].
    rewrite (lo_owner _ _ _ Hok) in Hp. by injection Hp as ->.
Qed.

(** ** WSPAWN *)

Record spawn_staged (h : owners) (spawn : WarpSpawnEffect) (t : WarpSpawnTarget) (c : candidate) : Prop := {
  so_range : st_WarpID t < 4;
  so_selected : selected (ws_Targets spawn) (st_WarpID t) = true;
  so_owner : st_Owner t = Some (cd_owner c);
  so_before : h !! cd_owner c = Some (cd_before c);
  so_id : w_id (cd_before c) = st_WarpID t;
  so_expected : st_Expected t = cd_before c;
  so_inactive : w_lifecycle (cd_before c) = WarpInactive;
  so_lanes : w_activeMask (cd_before c) = 0;
  so_after : cd_after c = activated (ws_TargetPC spawn) (ws_InitialLaneMask spawn) (ws_MScratch spawn) (cd_before c)
}.

Lemma spawnTarget_ok h spawn si so cs t acc :
  spawnTarget h spawn (si, so, cs) t = Ok acc <->
  exists c, spawn_staged h spawn t c /\ st_WarpID t ∉ si /\ cd_owner c ∉ so /\ acc = (st_WarpID t :: si, cd_owner c :: so, cs ++ [c]).
Proof.
  unfold spawnTarget. change FrozenWarpCount with 4. split.
  - destruct (Z.leb_spec 4 (st_WarpID t)); [done|]. destruct (selected _ _) eqn:Es; [|done]. cbn [negb orb].
    destruct (st_Owner t) as [p|] eqn:Ep; [|done]. destruct (bool_decide_reflect (st_WarpID t ∈ si)); [done|].
    destruct (bool_decide_reflect (p ∈ so)); [done|]. cbn [negb]. destruct (h !! p) as [w|] eqn:Ew; [|done].
    destruct (Z.eqb_spec (w_id w) (st_WarpID t)) as [Ei|]; [|done].
    destruct (bool_decide_reflect (w = st_Expected t)) as [Ee|]; [|done]. rewrite <- Ee, Ei, Z.eqb_refl. cbn [negb orb].
    destruct (decide (w_lifecycle w = WarpInactive)) as [El|]; [|by rewrite bool_decide_eq_false_2].
    rewrite bool_decide_eq_true_2 by done. destruct (Z.eqb_spec (w_activeMask w) 0) as [E0|]; [|done]. cbn [negb orb].
    intros <-%Ok_inj. exists (mkCandidate p w (activated (ws_TargetPC spawn) (ws_InitialLaneMask spawn) (ws_MScratch spawn) w)). by split.
  - intros ([p w after] & [Er Es Eo Eb Ei Ee El Ela Eaf] & Hsi & Hso & ->). cbn [cd_owner cd_before cd_after] in *.
    destruct (Z.leb_spec 4 (st_WarpID t)); [lia|]. rewrite Es, Eo. cbn [negb orb].
    rewrite (bool_decide_eq_false_2 (st_WarpID t ∈ si)), (bool_decide_eq_false_2 (p ∈ so)) by done. cbn [negb]. rewrite Eb, Ei, Z.eqb_refl, Ee, El, Ela.
    rewrite !bool_decide_eq_true_2 by done. rewrite Ei, Z.eqb_refl, Eaf. by cbn.
Qed.

(** The targets staging accepts: exactly the selected warps, each once, with distinct
    inactive owners other than the source, unchanged since the caller looked. *)
Definition spawnable (h : owners) (so : Z) (spawn : WarpSpawnEffect) (targets : list WarpSpawnTarget) (cs : list candidate) : Prop :=
  Forall2 (spawn_staged h spawn) targets cs /\ NoDup (map st_WarpID targets) /\ NoDup (so :: map cd_owner cs) /\
  (forall id, 0 <= id < 4 -> selected (ws_Targets spawn) id = true -> id ∈ map st_WarpID targets) /\
  Z.of_nat (length targets) = target_count (ws_Targets spawn).

(** The source stage of an accepted spawn: a fresh stage forwarding the spawn only and
    changing nothing of its running owner but the PC. *)
Record spawn_source (h : owners) (so : Z) (source : EffectStage) (spawn : WarpSpawnEffect) (pc : Z) : Prop := {
  ss_fresh : es_committed source = false;
  ss_external : es_requiresExternal source = true;
  ss_owner : h !! so = Some (es_before source);
  ss_spawn : WarpSpawn (es_forwarded source) = Some spawn;
  ss_only : hasForwardedExceptSpawn (es_forwarded source) = false;
  ss_valid : validateFrozenSpawn (w_id (es_before source)) spawn = Ok tt;
  ss_running : w_lifecycle (es_before source) = WarpRunning;
  ss_lanes : w_activeMask (es_before source) <> 0;
  ss_mscratch : ws_MScratch spawn = tc_MScratch (w_trapCSRs (es_before source));
  ss_after : es_after source = set_pc pc (es_before source)
}.

Definition spawn_pc (instructionPC : option Z) (before : WarpState) : Z :=
  match instructionPC with Some pc => u32 (pc + 4) | None => u32 (w_pc before + 4) end.

Lemma stageWarpSpawn_ok h so source targets instructionPC s :
  stageWarpSpawn h so source targets instructionPC = Ok s <->
  exists spawn cs, spawn_source h so source spawn (spawn_pc instructionPC (es_before source)) /\
    spawnable h so spawn targets cs /\ s = mkWarpSpawnStage so source cs false.
Proof.
  unfold stageWarpSpawn. fold (spawn_pc instructionPC (es_before source)). split.
  - destruct (es_committed source) eqn:E1; [done|]. destruct (es_requiresExternal source) eqn:E2; [|done]. cbn [negb].
    destruct (bool_decide_reflect (h !! so = Some (es_before source))) as [E3|]; [|done].
    destruct (WarpSpawn (es_forwarded source)) as [spawn|] eqn:E4; [|done]. destruct (hasForwardedExceptSpawn _) eqn:E5; [done|].
    intros ([] & E6 & H)%result_bind_ok. revert H. destruct (decide (w_lifecycle (es_before source) = WarpRunning)) as [E7|];
      [|by rewrite bool_decide_eq_false_2]. rewrite bool_decide_eq_true_2 by done. destruct (Z.eqb_spec (w_activeMask (es_before source)) 0) as [|E8]; [done|].
    destruct (Z.eqb_spec (ws_MScratch spawn) (tc_MScratch (w_trapCSRs (es_before source)))) as [E9|]; [|done]. cbn [negb orb].
    destruct (bool_decide_reflect (es_after source = set_pc (spawn_pc instructionPC (es_before source)) (es_before source))) as [E10|]; [|done]. cbn [negb].
    destruct (Z.eqb_spec (Z.of_nat (length targets)) (target_count (ws_Targets spawn))) as [E11|]; [|done].
    intros (acc & Ha & H)%result_bind_ok. apply (seen_fold _ _ _ _ (spawnTarget_ok h spawn)) in Ha as (cs & Hc & Hd & _ & Hdo & Hso & ->).
    destruct (forallb _ _) eqn:E12 in H; [|done]. apply Ok_inj in H as <-. exists spawn, cs. split; [by split|]. split; [|done]. split_and!; try done.
    + apply NoDup_cons. split; [|done]. intros Hin. rewrite Forall_forall in Hso. apply (Hso so Hin). by left.
    + intros id Hid Hs. pose proof (forallb_elem _ _ E12 id) as Hx. cbv beta in Hx. rewrite Hs in Hx. cbn [negb orb fst] in Hx.
      assert (id ∈ [0; 1; 2; 3]) as Hin by (assert (id = 0 \/ id = 1 \/ id = 2 \/ id = 3) as [-> | [-> | [-> | ->]]] by lia; set_solver).
      specialize (Hx Hin). apply bool_decide_eq_true in Hx. rewrite app_nil_r in Hx. by apply list_elem_of_In, in_rev, list_elem_of_In in Hx.
  - intros (spawn & cs & [E1 E2 E3 E4 E5 E6 E7 E8 E9 E10] & (Hc & Hd & Hdo & Hall & Hl) & ->). rewrite E1, E2, E4, E5, E6, E7. cbn [negb result_bind].
    rewrite !bool_decide_eq_true_2 by done. rewrite E9, Hl, !Z.eqb_refl. destruct (Z.eqb_spec (w_activeMask (es_before source)) 0); [done|]. cbn [negb orb].
    apply NoDup_cons in Hdo as [Hn Hdo].
    rewrite (proj2 (seen_fold _ _ _ _ (spawnTarget_ok h spawn) [] [so] [] targets (rev (map st_WarpID targets) ++ [], rev (map cd_owner cs) ++ [so], [] ++ cs))).
    2: { exists cs. split_and!; try done; apply Forall_forall; intros x Hx; [apply not_elem_of_nil|]. by intros ->%list_elem_of_singleton. }
    cbn [result_bind fst snd app]. replace (forallb _ _) with true; [done|]. symmetry. apply forallb_forall. intros id Hid.
    destruct (selected _ id) eqn:Es; [|done]. cbn [negb orb]. apply bool_decide_eq_true_2. rewrite app_nil_r. apply list_elem_of_In, in_rev.
    rewrite rev_involutive. apply list_elem_of_In. apply Hall; [|done]. cbn in Hid. lia.
Qed.

Lemma validateFrozenSpawn_ok id s : validateFrozenSpawn id s = Ok tt <->
  ws_SourceWarp s = id /\ id < 4 /\ WarpMask_Valid (ws_Targets s) = true /\ selected (ws_Targets s) id = false /\
  ws_RequestedCount s <= 7 /\ ws_Targets s = expectedTargets (ws_RequestedCount s) id /\
  ws_TargetPC s .& 3 = 0 /\ ws_InitialLaneMask s = 1 /\ ws_CopyMScratch s = true /\ ws_RequiresSingleActiveWarp s = true /\
  ws_ReleaseSourceAfterApply s = true.
Proof.
  unfold validateFrozenSpawn, selected. change FrozenWarpCount with 4. split.
  - destruct (Z.eqb_spec (ws_SourceWarp s) id); [|done]. destruct (Z.leb_spec 4 id); [done|]. cbn [negb orb].
    destruct (WarpMask_Valid _); [|done]. destruct (Z.eqb_spec (ws_Targets s .& u8 (1 << id)) 0); [|done]. cbn [negb orb].
    destruct (Z.ltb_spec 7 (ws_RequestedCount s)); [done|]. destruct (Z.eqb_spec (ws_Targets s) (expectedTargets (ws_RequestedCount s) id)); [|done].
    destruct (Z.eqb_spec (ws_TargetPC s .& 3) 0); [|done]. destruct (Z.eqb_spec (ws_InitialLaneMask s) 1); [|done]. cbn [negb orb].
    destruct (ws_CopyMScratch s); [|done]. destruct (ws_RequiresSingleActiveWarp s); [|done]. destruct (ws_ReleaseSourceAfterApply s); [|done].
    intros _. by split_and!.
  - intros (E1 & E2 & E3 & E4 & E5 & E6 & E7 & E8 & E9 & E10 & E11). rewrite <- E6, E1, E3, E7, E8, E9, E10, E11, !Z.eqb_refl.
    apply negb_false_iff in E4. rewrite E4. destruct (Z.leb_spec 4 id); [lia|]. by destruct (Z.ltb_spec 7 (ws_RequestedCount s)); [lia|].
Qed.

Lemma spawn_installed h so source spawn pc targets cs : spawn_source h so source spawn pc -> spawnable h so spawn targets cs ->
  let h' := installed cs (<[so := es_after source]> h) in
  h' !! so = Some (set_pc pc (es_before source)) /\
  (forall id, 0 <= id < 4 -> selected (ws_Targets spawn) id = true -> exists p w, h !! p = Some w /\ w_id w = id /\ p ∈ map cd_owner cs /\
     h' !! p = Some (activated (ws_TargetPC spawn) 1 (ws_MScratch spawn) w)) /\
  (forall p, p <> so -> p ∉ map cd_owner cs -> h' !! p = h !! p).
Proof.
  intros Hs (Hc & Hd & [Hn Hdo]%NoDup_cons & Hall & _). cbv zeta. split_and!.
  - rewrite installed_out by done. rewrite lookup_insert_eq. by rewrite (ss_after _ _ _ _ _ Hs).
  - intros id Hid Hsel. pose proof (Hall id Hid Hsel) as (t & -> & (i & Ht)%list_elem_of_lookup)%list_elem_of_fmap.
    destruct (Forall2_lookup_l _ _ _ _ _ Hc Ht) as (c & Hci & Hok). apply list_elem_of_lookup_2 in Hci.
    exists (cd_owner c), (cd_before c). split_and!; [apply Hok|apply Hok|by apply list_elem_of_fmap_2|].
    rewrite installed_in by done. rewrite (so_after _ _ _ _ Hok). f_equal. pose proof (ss_valid _ _ _ _ _ Hs) as Hv.
    apply validateFrozenSpawn_ok in Hv as (_ & _ & _ & _ & _ & _ & _ & -> & _). done.
  - intros p Hne Hp. rewrite installed_out by done. by rewrite lookup_insert_ne.
Qed.

Lemma spawn_fresh h so source spawn pc targets cs : spawn_source h so source spawn pc -> spawnable h so spawn targets cs ->
  forallb (fresh h) cs = true.
Proof. intros _ (Hc & _). apply fresh_all. induction Hc as [|t c ts cs Hok Hc IH]; constructor; [apply Hok|done]. Qed.

Lemma spawn_wf h so source spawn pc targets cs : spawn_source h so source spawn pc -> spawnable h so spawn targets cs ->
  owners_wf h -> pc_ok pc -> is_u32 (ws_TargetPC spawn) -> owners_wf (installed cs (<[so := es_after source]> h)).
Proof.
  intros Hs (Hc & _) Hw Hpc Ht. pose proof (ss_valid _ _ _ _ _ Hs) as Hv. apply validateFrozenSpawn_ok in Hv as (_ & _ & _ & _ & _ & _ & Ha & Hm & _).
  pose proof (Hw _ _ (ss_owner _ _ _ _ _ Hs)) as Hwb. apply installed_wf.
  - intros p w [[_ <-]|[_ H]]%lookup_insert_Some; [|by apply (Hw p)]. rewrite (ss_after _ _ _ _ _ Hs). by destruct Hwb; split.
  - apply Forall_forall. intros c (i & Hi)%list_elem_of_lookup. destruct (Forall2_lookup_r _ _ _ _ _ Hc Hi) as (t & _ & Hok).
    rewrite (so_after _ _ _ _ Hok), Hm. apply activated_wf; [by apply (Hw _ _ (so_before _ _ _ _ Hok))| |by vm_compute|done|].
    + split; [done|]. change 3 with (Z.ones 2) in Ha. by rewrite Z.land_ones in Ha by lia.
    + rewrite (ss_mscratch _ _ _ _ _ Hs). apply Hwb.
Qed.

(** C33: WSPAWN is a transaction over its source and its targets.  Staging accepts
    exactly a fresh source stage that forwards a valid spawn and does nothing else but
    advance the PC, with every selected warp given once by an inactive owner that has
    not changed since the instruction was issued.  The commit advances the source and
    starts every selected warp at the target PC on lane 0 with the source's
    [mscratch], leaving the rest of their state and all other owners alone; it happens
    at most once, and not at all if the source or a target has moved. *)
Theorem spawn_transaction h so source targets :
  match StageWarpSpawn h so source targets with
  | Err _ => forall spawn cs, ~ (spawn_source h so source spawn (u32 (w_pc (es_before source) + 4)) /\ spawnable h so spawn targets cs)
  | Ok s => exists spawn cs,
      spawn_source h so source spawn (u32 (w_pc (es_before source) + 4)) /\ spawnable h so spawn targets cs /\
      exists h' s', Spawn_Commit h s = (h', s', Ok tt) /\
        h' !! so = Some (set_pc (u32 (w_pc (es_before source) + 4)) (es_before source)) /\
        (forall id, 0 <= id < 4 -> selected (ws_Targets spawn) id = true -> exists p w, h !! p = Some w /\ w_id w = id /\ p ∈ map cd_owner cs /\
           h' !! p = Some (activated (ws_TargetPC spawn) 1 (ws_MScratch spawn) w)) /\
        (forall p, p <> so -> p ∉ map cd_owner cs -> h' !! p = h !! p) /\
        (owners_wf h -> is_u32 (ws_TargetPC spawn) -> owners_wf h') /\
        (forall h1, exists e, Spawn_Commit h1 s' = (h1, s', Err e)) /\
        (forall h1 p, p = so \/ p ∈ map cd_owner cs -> h1 !! p <> h !! p -> exists e, Spawn_Commit h1 s = (h1, s, Err e))
  end.
Proof.
  destruct (StageWarpSpawn h so source targets) as [s|e] eqn:E; unfold StageWarpSpawn in E.
  2: { intros spawn cs [Hs Hc]. rewrite (proj2 (stageWarpSpawn_ok h so source targets None (mkWarpSpawnStage so source cs false))) in E; [done|].
       by exists spawn, cs. }
  apply stageWarpSpawn_ok in E as (spawn & cs & Hs & Hc & ->). cbn [spawn_pc] in Hs. exists spawn, cs. split; [done|]. split; [done|].
  pose proof (spawn_fresh _ _ _ _ _ _ _ Hs Hc) as Hf. pose proof (spawn_installed _ _ _ _ _ _ _ Hs Hc) as (H1 & H2 & H3).
  eexists _, _. unfold Spawn_Commit. cbn [sp_committed sp_source sp_sourceOwner sp_targets]. rewrite (ss_fresh _ _ _ _ _ Hs). cbn [orb].
  rewrite (bool_decide_eq_true_2 (h !! so = Some (es_before source))) by apply Hs. rewrite Hf. cbn [negb].
  split_and!; [reflexivity|exact H1|exact H2|exact H3| | |].
  - intros Hw Ht. eapply spawn_wf; try done. pose proof (Hw _ _ (ss_owner _ _ _ _ _ Hs)) as [_ [_ Hpc] _ _ _ _ _ _ _]. split; [apply u32_range|].
    unfold u32. rewrite <- Znumtheory.Zmod_div_mod; [|lia|lia|by exists (2 ^ 30)]. by rewrite Zplus_mod, Hpc.
  - intros h1. by eexists.
  - intros h1 p [->|(c & -> & Hin)%list_elem_of_fmap] Hne.
    + rewrite bool_decide_eq_false_2; [by eexists|]. intros E. apply Hne. by rewrite E, (ss_owner _ _ _ _ _ Hs).
    + destruct (negb (bool_decide (h1 !! so = _))); [by eexists|]. rewrite (stale_candidate h h1 cs c) by done. by eexists.
Qed.

(** ** Instances *)

(** A warp of the example state, asleep. *)
Definition sleeping (id : Z) : WarpState :=
  let w := set_mask 0 WarpInactive example_warp in
  mkWarpState id (w_pc w) (w_activeMask w) (w_lifecycle w) (w_savedThreadMask w) (w_fcsr w) (w_trapCSRs w) (w_divergence w) (w_lanes w).

Definition example_owners : owners := <[0 := sleeping 0]> (<[1 := sleeping 1]> ∅).

Definition example_launch : list WarpLaunchTarget :=
  [mkWarpLaunchTarget 1 (Some 1) 256 15 4096 true; mkWarpLaunchTarget 0 (Some 0) 256 3 4096 false].

Example launch_transaction_witness :
  exists s h' s', StageWarpLaunch example_owners example_launch = Ok s /\ Launch_Commit example_owners s = (h', s', Ok tt) /\
  option_map w_pc (h' !! 0) = Some (u32 (w_pc (sleeping 0) - 20)) /\ option_map w_pc (h' !! 1) = Some 256.
Proof.
  pose proof (launch_transaction example_owners example_launch) as H.
  destruct (StageWarpLaunch example_owners example_launch) as [s|e] eqn:E; [|vm_compute in E; discriminate E].
  destruct H as (_ & h' & s' & Hc & Hin & _). exists s, h', s'. split; [reflexivity|]. split; [exact Hc|]. split.
  - destruct (Hin (mkWarpLaunchTarget 0 (Some 0) 256 3 4096 false)) as (p & w & Hp & Hw & E1); [by right; left|].
    injection Hp as <-. rewrite E1. vm_compute in Hw. injection Hw as <-. reflexivity.
  - destruct (Hin (mkWarpLaunchTarget 1 (Some 1) 256 15 4096 true)) as (p & w & Hp & _ & E1); [by left|].
    injection Hp as <-. rewrite E1. reflexivity.
Defined.

(** The spawn of one warp by warp 2, whose owner is 2. *)
Definition example_spawner : WarpState :=
  let w := set_mask 1 WarpRunning example_warp in
  mkWarpState 2 (w_pc w) (w_activeMask w) (w_lifecycle w) (w_savedThreadMask w) (w_fcsr w) (w_trapCSRs w) (w_divergence w) (w_lanes w).

Definition example_spawn : WarpSpawnEffect :=
  mkWarpSpawnEffect 2 2 3 512 1 true (tc_MScratch (w_trapCSRs example_spawner)) true true.

Definition example_source : EffectStage :=
  mkEffectStage example_spawner (set_pc (u32 (w_pc example_spawner + 4)) example_spawner) (with_WarpSpawn (Some example_spawn) no_effects) true false.

Definition example_spawn_owners : owners := <[2 := example_spawner]> example_owners.

Example spawn_transaction_witness :
  exists s h' s', StageWarpSpawn example_spawn_owners 2 example_source [mkWarpSpawnTarget 0 (Some 0) (sleeping 0); mkWarpSpawnTarget 1 (Some 1) (sleeping 1)] = Ok s /\
  Spawn_Commit example_spawn_owners s = (h', s', Ok tt) /\ option_map w_pc (h' !! 2) = Some (u32 (w_pc example_spawner + 4)).
Proof.
  pose proof (spawn_transaction example_spawn_owners 2 example_source
    [mkWarpSpawnTarget 0 (Some 0) (sleeping 0); mkWarpSpawnTarget 1 (Some 1) (sleeping 1)]) as H.
  destruct (StageWarpSpawn _ _ _ _) as [s|e] eqn:E; [|vm_compute in E; discriminate E].
  destruct H as (spawn & cs & _ & _ & h' & s' & Hc & Hpc & _). exists s, h', s'. split; [reflexivity|]. split; [exact Hc|]. rewrite Hpc. reflexivity.
Defined.
