(* ===== verification/CtaTyped.v ===== *)
(** * What every resident CTA carries

    The members of a CTA are listed by rank and its fields have the widths of their Go
    types, so every view and every observation of a bound warp succeeds. *)

From S2P Require Import Prelude IsaTypes Integer System Memory View EvaluateTyped WarpExec Cta CtaInvariant.

#[local] Open Scope Z_scope.
#[local] Open Scope go_scope.

Record config_u32 (c : CTAConfig) : Prop := {
  cu_block : triple_u32 (cc_BlockID c);
  cu_dims : triple_u32 (cc_BlockDimensions c);
  cu_grid : triple_u32 (cc_GridDimensions c);
  cu_cluster : is_u32 (cc_ClusterSize c);
  cu_entry : is_u32 (cc_Entry c);
  cu_startup : is_u32 (cc_StartupPC c);
  cu_param : is_u32 (cc_ParameterAddress c)
}.

Record member_typed (mem : WarpMembership) : Prop := {
  mt_rank : is_u32 (wmb_Rank mem);
  mt_mask : is_u8 (wmb_ActiveMask mem);
  mt_x : qforall is_u32 (wmb_ThreadCoordinates mem).1.1;
  mt_y : qforall is_u32 (wmb_ThreadCoordinates mem).1.2;
  mt_z : qforall is_u32 (wmb_ThreadCoordinates mem).2
}.

Record resident_typed (c : ctaState) : Prop := {
  rt_config : config_u32 (ct_config c);
  rt_ranked : map wmb_Rank (ct_members c) = map Z.of_nat (seq 0 (length (ct_members c)));
  rt_members : Forall member_typed (ct_members c)
}.

Definition residents (m : CTAManager) : Prop := forall id c, cm_ctas m !! id = Some c -> resident_typed c.

(** ** Configurations *)

Lemma u32_le a b : is_u32 b -> 0 <= a <= b -> is_u32 a.
Proof. unfold is_u32. lia. Qed.

Lemma div_u32 a b : is_u32 a -> 0 <= b -> is_u32 (a / b).
Proof.
  intros Ha Hb. destruct (Z.eq_dec b 0) as [->|]; [rewrite Zdiv_0_r; apply is_u32_0|]. apply (u32_le _ a Ha).
  unfold is_u32 in Ha. split; [apply Z.div_pos; lia|]. apply Z.div_le_upper_bound; [lia|]. nia.
Qed.

Lemma mod_u32 a b : is_u32 a -> is_u32 b -> is_u32 (a mod b).
Proof.
  intros Ha Hb. destruct (Z.eq_dec b 0) as [->|]; [by rewrite Zmod_0_r|]. unfold is_u32 in *. pose proof (Z.mod_pos_bound a b). lia.
Qed.

Lemma axis3_u32 t axis : triple_u32 t -> is_u32 (axis3 t axis).
Proof. intros (H0 & H1 & H2). unfold axis3. by repeat case_match. Qed.

Lemma threadCoordinates_typed rank dims : triple_u32 dims ->
  let q := threadCoordinates rank dims in qforall is_u32 q.1.1 /\ qforall is_u32 q.1.2 /\ qforall is_u32 q.2.
Proof.
  intros Hd. pose proof (axis3_u32 dims 0 Hd) as H0. pose proof (axis3_u32 dims 1 Hd) as H1.
  unfold threadCoordinates. cbn [fst snd]. split_and!; apply qforall_qmake; intros lane _.
  - apply mod_u32; [apply u32_range|done].
  - apply mod_u32; [|done]. apply div_u32; [apply u32_range|apply H0].
  - apply div_u32; [|apply H1]. apply div_u32; [apply u32_range|apply H0].
Qed.

Lemma nibble_u32 a : 0 <= a -> is_u32 (a .& 15).
Proof. intros Ha. change 15 with (Z.ones 4). rewrite Z.land_ones by lia. unfold is_u32. pose proof (Z.mod_pos_bound a (2 ^ 4)). lia. Qed.

Lemma wrapped_nonneg (b : bool) a c : 0 <= a -> 0 <= (if b then u32 (a - c) else a).
Proof. intros Ha. destruct b; [apply u32_range|done]. Qed.


Lemma carried_nonneg (b : bool) a : 0 <= a -> 0 <= (if b then u32 (a + 1) else a).
Proof. intros Ha. destruct b; [apply u32_range|done]. Qed.

Lemma advanceLaneCoordinate_typed p dims : triple_u32 p -> triple_u32 (advanceLaneCoordinate p dims).
Proof.
  intros Hp. pose proof (axis3_u32 p 1 Hp) as [H1 _]. pose proof (axis3_u32 p 2 Hp) as [H2 _]. unfold advanceLaneCoordinate. cbv zeta. split_and!; cbn [dim_x dim_y dim_z fst snd]; apply nibble_u32.
  - apply wrapped_nonneg, u32_range.
  - apply wrapped_nonneg, carried_nonneg, H1.
  - apply carried_nonneg, H2.
Qed.

Lemma advanceWarpBase_typed p dims step : triple_u32 (advanceWarpBase p dims step).
Proof.
  unfold advanceWarpBase. cbv zeta. split_and!; cbn [dim_x dim_y dim_z fst snd]; apply nibble_u32.
  - apply wrapped_nonneg, u32_range.
  - apply wrapped_nonneg, carried_nonneg, u32_range.
  - apply carried_nonneg, u32_range.
Qed.

Lemma warpStepCoordinates_typed base dims : triple_u32 base ->
  let q := warpStepCoordinates base dims in qforall is_u32 q.1.1 /\ qforall is_u32 q.1.2 /\ qforall is_u32 q.2.
Proof.
  intros H0. pose proof (advanceLaneCoordinate_typed base dims H0) as H1. pose proof (advanceLaneCoordinate_typed _ dims H1) as H2.
  pose proof (advanceLaneCoordinate_typed _ dims H2) as H3. unfold warpStepCoordinates. cbv zeta. cbn [fst snd].
  split_and!; repeat split; by apply axis3_u32.
Qed.

Lemma member_mask_u8 n rank : is_u8 (member_mask n rank).
Proof. unfold member_mask. cbv zeta. destruct (_ <? _); [apply u8_range|by vm_compute]. Qed.

Lemma configMembers_typed config legacy rank seen base ids ms :
  triple_u32 (cc_BlockDimensions config) -> triple_u32 base -> configMembers config legacy rank seen base ids = Ok ms -> Forall member_typed ms.
Proof.
  intros Hd. revert rank seen base ms. induction ids as [|w ids IH]; intros rank seen base ms Hb H; cbn [configMembers] in H; [by apply Ok_inj in H as <-|].
  do 2 pass_check. cbv zeta in H. apply result_bind_ok in H as (ms' & Hms & <-%Ok_inj).
  constructor; [|eapply IH; [|exact Hms]; destruct legacy; [done|apply advanceWarpBase_typed]].
  destruct (threadCoordinates_typed (u32 rank) (cc_BlockDimensions config) Hd) as (? & ? & ?).
  destruct (warpStepCoordinates_typed base (cc_BlockDimensions config) Hb) as (? & ? & ?).
  split; cbn; [apply u32_range|apply member_mask_u8|..]; by destruct legacy.
Qed.

Lemma validate_resident config c : config_u32 config -> validateCTAConfig config = Ok c -> resident_typed c.
Proof.
  intros Hc H. pose proof (va_ranks _ _ (validate_inv config c H)) as Hr. unfold validateCTAConfig in H. do 5 pass_check. cbv zeta in H.
  apply result_bind_ok in H as (threads & _ & H). apply result_bind_ok in H as ([blockSize cluster] & _ & H). do 3 pass_check.
  apply result_bind_ok in H as (ms & Hms & <-%Ok_inj). split; [by destruct Hc; split|done|]. cbn [ct_members].
  eapply configMembers_typed; [|  |exact Hms]; [apply Hc|by vm_compute].
Qed.

(** ** Operations *)

Lemma place_resident a o c : resident_typed c -> resident_typed (place a o c).
Proof. intros []. by split. Qed.

Lemma install_residents m c : residents m -> resident_typed c -> residents (install c m).
Proof. intros Hr Hc i c'. cbn [install set_byWarp set_ctas cm_ctas]. intros [[_ <-]|[_ H]]%lookup_insert_Some; [done|by apply (Hr i)]. Qed.

Lemma install_all_residents cs m : residents m -> Forall resident_typed cs -> residents (fold_left (fun m c => install c m) cs m).
Proof. intros Hr Hc. revert m Hr. induction Hc; intros m Hr; cbn [fold_left]; [done|]. apply IHHc. by apply install_residents. Qed.

Lemma with_slot_u32 id ws c : config_u32 c -> config_u32 (with_slot id ws c).
Proof. intros []. by split. Qed.

Lemma stageCandidate_resident m acc entry acc' :
  config_u32 entry.1.1 -> Forall resident_typed acc.1.1 -> stageCandidate m acc entry = Ok acc' -> Forall resident_typed acc'.1.1.
Proof.
  destruct acc as [[candidates staged] intervals], entry as [[config ws] id]. cbn [fst snd]. intros Hu Ha H. unfold stageCandidate in H.
  apply result_bind_ok in H as (c & Hc & H). apply result_bind_ok in H as (st & _ & H). destruct (allocateFromIntervals _ _) as [[a o]|]; [|done].
  apply Ok_inj in H as <-. cbn [fst]. apply Forall_app. split; [done|]. constructor; [|done]. apply place_resident. eapply validate_resident; [|exact Hc].
  by apply with_slot_u32.
Qed.

Lemma staged_residents m configs warpIDs s :
  Forall config_u32 configs -> stageDynamicAdmissions m configs warpIDs = Ok s -> Forall resident_typed (as_candidates s).
Proof.
  intros Hc H. unfold stageDynamicAdmissions in H. do 3 pass_check. apply result_bind_ok in H as (acc & Hacc & <-%Ok_inj). cbn [as_candidates].
  refine (foldM_inv _ (fun acc => Forall resident_typed acc.1.1) _ _ _ _ _ Hacc); [constructor|].
  intros s x s' Hx Hs Hstep. eapply stageCandidate_resident; [|exact Hs|exact Hstep]. rewrite Forall_forall in Hc. apply Hc.
  destruct x as [[config ws] id]. by eapply elem_of_zip_l, elem_of_zip_l.
Qed.

(** ** Views *)


Lemma ranked_lookup c (rank : Z) mem : resident_typed c -> mem ∈ ct_members c -> wmb_Rank mem = rank ->
  ct_members c !! Z.to_nat rank = Some mem /\ 0 <= rank < Z.of_nat (length (ct_members c)).
Proof.
  intros Hr (i & Hi)%list_elem_of_lookup <-. pose proof (rt_ranked c Hr) as E. apply (f_equal (.!! i)) in E. rewrite !list_lookup_fmap, Hi in E. cbn in E.
  pose proof (lookup_lt_Some _ _ _ Hi) as Hlt. rewrite lookup_seq_lt in E by done. injection E as ->. rewrite Nat2Z.id. split; [done|lia].
Qed.

(** The CTA and the member of a bound warp. *)
Lemma bound_member m w : cta_wf m -> residents m -> idx4 w -> HasWarp m w = true ->
  exists key c mem, qget (cm_byWarp m) w = Some key /\ cm_ctas m !! wk_ctaID key = Some c /\ mem ∈ ct_members c /\
    wmb_WarpID mem = w /\ wmb_Rank mem = wk_rank key /\ ct_members c !! Z.to_nat (wk_rank key) = Some mem /\
    0 <= wk_rank key < Z.of_nat (length (ct_members c)).
Proof.
  intros Hw Hr Hi H. unfold HasWarp in H. destruct (_ >=? _); [done|]. apply bool_decide_eq_true in H as [key Hk].
  destruct (cw_table m Hw w key Hi Hk) as (c & mem & Hc & Hm & E). exists key, c, mem.
  destruct (table_unique m _ c mem Hw Hc Hm) as [_ Hq]. rewrite E, Hk in Hq. injection Hq as Hq.
  assert (wmb_Rank mem = wk_rank key) as Erank by (by rewrite Hq).
  destruct (ranked_lookup c (wk_rank key) mem (Hr _ _ Hc) Hm Erank) as [Hl Hrange]. done.
Qed.

Lemma find_member {A} (p : A -> bool) l x : x ∈ l -> p x = true -> exists y, List.find p l = Some y /\ y ∈ l /\ p y = true.
Proof.
  intros Hx Hp. destruct (List.find p l) as [y|] eqn:E.
  - apply find_some in E as [Hin Hpy]. exists y. by rewrite list_elem_of_In.
  - apply list_elem_of_In in Hx. pose proof (find_none _ _ E x Hx) as Hn. congruence.
Qed.

Lemma ViewForWarp_bound m w : cta_wf m -> residents m -> idx4 w -> HasWarp m w = true ->
  exists key v, qget (cm_byWarp m) w = Some key /\ ViewForWarp m w = Ok v /\ cta_ID v = wk_ctaID key /\ is_Some (cm_ctas m !! wk_ctaID key).
Proof.
  intros Hw Hr Hi H. destruct (bound_member m w Hw Hr Hi H) as (key & c & mem & Hk & Hc & Hm & Ew & Er & _).
  exists key. unfold ViewForWarp. rewrite Hk, Hc. apply idx4_range in Hi. change FrozenWarpCount with 4. destruct (Z.leb_spec 4 w); [lia|]. cbn [negb].
  destruct (find_member (fun c => (wmb_Rank c =? wk_rank key) && (wmb_WarpID c =? w)) (ct_members c) mem Hm) as (y & -> & _);
    [by rewrite Er, Ew, !Z.eqb_refl|]. destruct (cw_id m Hw _ _ Hc) as [Eid _]. eexists. split_and!; [done|done| |by eexists]. done.
Qed.

Lemma ViewForWarp_typed m w v : cta_wf m -> residents m -> ViewForWarp m w = Ok v -> cta_typed v.
Proof.
  intros Hw Hr H. unfold ViewForWarp in H. pass_check. destruct (qget _ _) as [key|]; [|done]. destruct (cm_ctas m !! _) as [c|] eqn:Ec; [|done].
  destruct (List.find _ _) as [mem|] eqn:Ef; [|done]. apply Ok_inj in H as <-. apply find_some in Ef as [Hin _]. apply list_elem_of_In in Hin.
  destruct (Hr _ _ Ec) as [[] _ Hf]. rewrite Forall_forall in Hf. destruct (Hf mem Hin). destruct (cw_id m Hw _ _ Ec) as [Eid Hrange].
  destruct (cw_block m Hw _ _ Ec) as (B0 & B1 & B2 & B3 & B4). rewrite lmem_base in B3, B4. rewrite lmem_size in B4.
  assert (is_u32 (la_Address (ct_allocation c))) as Hla.
  { destruct (Z.eq_dec (la_Address (ct_allocation c)) (2 ^ 32)) as [E|]; [|unfold is_u32; lia]. unfold is_u32. rewrite E in B4. lia. }
  split; cbn; try done; [unfold is_u32; lia|]. apply div_u32; [apply u32_range|done].
Qed.
