(* ===== verification/Core.v ===== *)
(** * The core scheduler (src/emu/core/core.go)

    Four slots, each holding an executor and its canonical owner, scheduled round
    robin.  The core's own state is the slots, the cursor and the attachment of a CTA
    manager; the objects it points to (the owners, the CTA manager with its barrier
    records, the global byte owner) are fields of [Core] as well, since every
    operation may change them.

    Only one CTA manager exists here: [co_attached] says whether [c.ctas] and
    [c.barriers] point to it or are nil.  A data service is a route of that manager,
    another service, or none.  Pointers given to the operations are not nil. *)

From stdpp Require Import sorting.
From S2P Require Import Prelude IsaTypes Catalog Decode Integer System Custom Softfloat Float Memory WarpState Apply View WarpExec.
From S2P Require Import Cta Barrier Launch.

#[local] Open Scope Z_scope.
#[local] Open Scope go_scope.

(** ** Data *)

Inductive DataMemory (G : Type) :=
| NoMemory
| OtherMemory (service : DataService (CTAManager * G))
| Routed (warpID : Z) (global : DataService G).
Arguments NoMemory {G}.
Arguments OtherMemory {G}.
Arguments Routed {G}.

Record Executor (G : Type) := mkExecutor {
  ex_owner : Z;
  ex_instructions : InstructionSource (CTAManager * G);
  ex_memory : DataMemory G
}.
Arguments mkExecutor {G}.
Arguments ex_owner {G}.
Arguments ex_instructions {G}.
Arguments ex_memory {G}.

Record slot (G : Type) := mkSlot {
  sl_owner : Z;
  sl_executor : Executor G;
  sl_lifecycle : SlotLifecycle;
  sl_blockReason : BlockReason;
  sl_participated : bool;
  sl_barrierKey : BarrierKey;
  sl_barrierWait : bool;
  sl_barrierDrain : bool
}.
Arguments mkSlot {G}.
Arguments sl_owner {G}.
Arguments sl_executor {G}.
Arguments sl_lifecycle {G}.
Arguments sl_blockReason {G}.
Arguments sl_participated {G}.
Arguments sl_barrierKey {G}.
Arguments sl_barrierWait {G}.
Arguments sl_barrierDrain {G}.

Record SlotSnapshot := mkSlotSnapshot {
  sn_WarpID : Z;
  sn_Lifecycle : SlotLifecycle;
  sn_BlockReason : BlockReason;
  sn_Participated : bool;
  sn_InitializedForKernel : bool;
  sn_ArchitecturalState : WarpLifecycle;
  sn_ArchitecturalLaneMask : LaneMask;
  sn_BarrierKey : option BarrierKey;
  sn_BarrierDraining : bool
}.

Record Core (G : Type) := mkCore {
  co_slots : quad (slot G);
  co_next : Z;
  co_pendingWork : option (Z -> result bool);
  co_attached : bool;
  co_initialized : quad bool;
  co_owners : owners;
  co_ctas : CTAManager;
  co_global : G
}.
Arguments mkCore {G}.
Arguments co_slots {G}.
Arguments co_next {G}.
Arguments co_pendingWork {G}.
Arguments co_attached {G}.
Arguments co_initialized {G}.
Arguments co_owners {G}.
Arguments co_ctas {G}.
Arguments co_global {G}.

(** [BarrierTransition] and [StepResult]. *)
Record BarrierTransition := mkBarrierTransition {
  bt_Draining : bool;
  bt_Accepted : bool;
  bt_Request : option BarrierEffect;
  bt_Key : BarrierKey;
  bt_Before : BarrierSnapshot;
  bt_After : BarrierSnapshot;
  bt_Blocked : bool;
  bt_Released : WarpMask
}.

Inductive StepOutcome := StepIdle | StepExecuted.

Record StepResult := mkStepResult {
  sr_Outcome : StepOutcome;
  sr_WarpID : Z;
  sr_Lifecycle : SlotLifecycle;
  sr_PreviousBlockReason : BlockReason;
  sr_WarpResult : option Result;
  sr_NextLifecycle : SlotLifecycle;
  sr_BlockReason : BlockReason;
  sr_CTAID : option Z;
  sr_Barrier : option BarrierTransition;
  sr_CTACompletion : option CTACompletionSnapshot
}.

Definition ids : list Z := [0; 1; 2; 3].

Section Updates.
Context {G : Type}.

Definition set_slots (v : quad (slot G)) (c : Core G) : Core G :=
  mkCore v (co_next c) (co_pendingWork c) (co_attached c) (co_initialized c) (co_owners c) (co_ctas c) (co_global c).
Definition set_next (v : Z) (c : Core G) : Core G :=
  mkCore (co_slots c) v (co_pendingWork c) (co_attached c) (co_initialized c) (co_owners c) (co_ctas c) (co_global c).
Definition set_attached (v : bool) (c : Core G) : Core G :=
  mkCore (co_slots c) (co_next c) (co_pendingWork c) v (co_initialized c) (co_owners c) (co_ctas c) (co_global c).
Definition set_initialized (v : quad bool) (c : Core G) : Core G :=
  mkCore (co_slots c) (co_next c) (co_pendingWork c) (co_attached c) v (co_owners c) (co_ctas c) (co_global c).
Definition set_owners (v : owners) (c : Core G) : Core G :=
  mkCore (co_slots c) (co_next c) (co_pendingWork c) (co_attached c) (co_initialized c) v (co_ctas c) (co_global c).
Definition set_manager (v : CTAManager) (c : Core G) : Core G :=
  mkCore (co_slots c) (co_next c) (co_pendingWork c) (co_attached c) (co_initialized c) (co_owners c) v (co_global c).
Definition set_global (v : G) (c : Core G) : Core G :=
  mkCore (co_slots c) (co_next c) (co_pendingWork c) (co_attached c) (co_initialized c) (co_owners c) (co_ctas c) v.
Definition set_pendingWork (v : option (Z -> result bool)) (c : Core G) : Core G :=
  mkCore (co_slots c) (co_next c) v (co_attached c) (co_initialized c) (co_owners c) (co_ctas c) (co_global c).

Definition slot_at (c : Core G) (id : Z) : slot G := qget (co_slots c) id.
Definition update_slot (id : Z) (f : slot G -> slot G) (c : Core G) : Core G := set_slots (qset (co_slots c) id (f (slot_at c id))) c.

(** The lifecycle, the block reason and the barrier metadata of a slot, which the code
    always assigns together; [schedule] clears the metadata. *)
Definition reschedule (l : SlotLifecycle) (r : BlockReason) (key : BarrierKey) (wait drain : bool) (s : slot G) : slot G :=
  mkSlot (sl_owner s) (sl_executor s) l r (sl_participated s) key wait drain.
Definition schedule (l : SlotLifecycle) (r : BlockReason) : slot G -> slot G := reschedule l r no_key false false.
(** Lifecycle and reason alone. *)
Definition relabel (l : SlotLifecycle) (r : BlockReason) (s : slot G) : slot G :=
  reschedule l r (sl_barrierKey s) (sl_barrierWait s) (sl_barrierDrain s) s.
Definition set_participated (v : bool) (s : slot G) : slot G :=
  mkSlot (sl_owner s) (sl_executor s) (sl_lifecycle s) (sl_blockReason s) v (sl_barrierKey s) (sl_barrierWait s) (sl_barrierDrain s).

(** Reading an owner through its pointer. *)
Definition deref (c : Core G) (p : Z) : result WarpState :=
  match co_owners c !! p with Some w => Ok w | None => Err (GoPanic "invalid memory address") end.

Definition data_service (m : DataMemory G) : option (DataService (CTAManager * G)) :=
  match m with
  | NoMemory => None
  | OtherMemory service => Some service
  | Routed warpID global => Some (CTAMemory global warpID)
  end.

Definition services (e : Executor G) : Warp (CTAManager * G) := mkWarp (ex_instructions e) (data_service (ex_memory e)).
End Updates.

Definition validBlockReason (r : BlockReason) : bool := match r with BlockNone => false | _ => true end.

(** ** Validation *)
Section Validation.
Context {G : Type}.

Definition key_clear (s : slot G) : bool := negb (sl_barrierWait s || sl_barrierDrain s || (sl_barrierKey s !=. no_key)).

(** The slot's lifecycle against the canonical state. *)
Definition lifecycle_consistent (s : slot G) (w : WarpState) : bool :=
  match sl_lifecycle s with
  | SlotInactive => negb (sl_participated s) && (sl_blockReason s ==. BlockNone) && (w_lifecycle w ==. WarpInactive) && (w_activeMask w =? 0)
  | SlotRunnable => sl_participated s && (sl_blockReason s ==. BlockNone) && (w_lifecycle w ==. WarpRunning) && (w_activeMask w <>? 0)
  | SlotBlocked => sl_participated s && validBlockReason (sl_blockReason s) && (w_lifecycle w ==. WarpRunning) && (w_activeMask w <>? 0)
  | SlotFinished => sl_participated s && (sl_blockReason s ==. BlockNone) && (w_lifecycle w ==. WarpInactive) && (w_activeMask w =? 0)
  end.

(** A slot that waits is a waiter of the record it names. *)
Definition wait_recorded (c : Core G) (warpID : Z) (s : slot G) : result unit :=
  if sl_barrierWait s then
    check co_attached c else Errorf "core: warp waits without a barrier coordinator" in
    match Barrier_Snapshot (co_ctas c) (sl_barrierKey s) with
    | Err _ => Err (Errorf "core: scheduler wait is absent from canonical barrier record")
    | Ok record => check WarpMask_Active (bs_Waiters record) warpID else Errorf "core: scheduler wait is absent from canonical barrier record" in Ok tt
    end
  else Ok tt.

Definition validateSlot (c : Core G) (warpID : Z) : result unit :=
  let s := slot_at c warpID in
  check ex_owner (sl_executor s) =? sl_owner s else Errorf "core: slot does not reference one canonical executor/owner pair" in
  let? w := deref c (sl_owner s) in
  check w_id w =? warpID else Errorf "core: slot references another canonical warp" in
  check negb (co_attached c && sl_participated s && negb (HasWarp (co_ctas c) warpID)) else Errorf "core: participated warp has no CTA membership" in
  check negb ((sl_blockReason s !=. BlockBarrier) && negb (key_clear s)) else Errorf "core: warp retains barrier metadata outside a barrier block" in
  check negb (sl_barrierWait s && sl_barrierDrain s) else Errorf "core: warp cannot wait on a record while draining LSU" in
  let? _ := wait_recorded c warpID s in
  check lifecycle_consistent s w else Errorf "core: warp is inconsistent with canonical state" in
  Ok tt.

Definition route_ok (c : Core G) (warpID : Z) : result unit :=
  if negb (cm_dynamic (co_ctas c)) && negb (HasWarp (co_ctas c) warpID) then Ok tt
  else
    match ex_memory (sl_executor (slot_at c warpID)) with
    | Routed id _ => check id =? warpID else Errorf "core: memory route references a different warp or CTA manager" in Ok tt
    | _ => Err (Errorf "core: CTA member warp has no CTA memory route")
    end.

Definition validateCTAMemoryRoutes (c : Core G) : result unit := foldM (fun _ id => route_ok c id) tt ids.

Definition validate (c : Core G) : result unit :=
  let? _ := foldM (fun _ id => validateSlot c id) tt ids in
  if co_attached c then validateCTAMemoryRoutes c else Ok tt.

(** ** Construction and attachment *)

(** One position of the constructor loop: the slots filled so far. *)
Definition placeExecutor (h : owners) (slots : quad (option (slot G))) (executor : option (Executor G)) : result (quad (option (slot G))) :=
  match executor with
  | None => Err (Errorf "core: nil warp executor")
  | Some e =>
      match h !! ex_owner e with
      | None => Err (GoPanic "invalid memory address")
      | Some w =>
          check negb (w_id w >=? FrozenWarpCount) else Errorf "core: warp id exceeds frozen count" in
          match qget slots (w_id w) with
          | Some _ => Err (Errorf "core: duplicate warp id")
          | None =>
              let running := w_lifecycle w ==. WarpRunning in
              Ok (qset slots (w_id w)
                    (Some (mkSlot (ex_owner e) e (if running then SlotRunnable else SlotInactive) BlockNone running no_key false false)))
          end
      end
  end.

Definition Core_New (h : owners) (m : CTAManager) (g : G) (executors : list (option (Executor G))) : result (Core G) :=
  check (length executors =? 4)%nat else Errorf "core: wrong number of warp slots" in
  let? slots := foldM (placeExecutor h) (qfill None) executors in
  match slots with
  | Quad (Some s0) (Some s1) (Some s2) (Some s3) =>
      let c := mkCore (Quad s0 s1 s2 s3) 0 None false (qfill false) h m g in
      let? _ := validate c in Ok c
  | _ => Err (Errorf "core: missing warp id")
  end.

Definition SetPendingWorkProvider (c : Core G) (provider : option (Z -> result bool)) : Core G * result unit :=
  match validate c with Err e => (c, Err e) | Ok _ => (set_pendingWork provider c, Ok tt) end.

(** The last loop of the attachment: finished slots are reported to the CTA owner. *)
Fixpoint observeFinished (c : Core G) (ws : list Z) : Core G * result unit :=
  match ws with
  | [] => (c, Ok tt)
  | id :: rest =>
      if sl_lifecycle (slot_at c id) ==. SlotFinished then
        match observeWarpFinished (co_ctas c) id with
        | (m, Err e) => (set_attached false (set_manager m c), Err e)
        | (m, Ok _) => observeFinished (set_manager m c) rest
        end
      else observeFinished c rest
  end.

Definition SetCTAManager (c : Core G) : Core G * result unit :=
  match validate c with
  | Err e => (c, Err e)
  | Ok _ =>
      if co_attached c then (c, validate c)
      else if negb (forallb (fun id => negb (sl_participated (slot_at c id)) || HasWarp (co_ctas c) id) ids)
      then (c, Err (Errorf "core: participated warp has no CTA membership"))
      else
        match validateCTAMemoryRoutes c with
        | Err e => (c, Err e)
        | Ok _ =>
            match seal (co_ctas c) with
            | (m, Err e) => (set_manager m c, Err e)
            | (m, Ok _) =>
                match NewBarrierCoordinator m with
                | (m, Err e) => (set_manager m c, Err e)
                | (m, Ok _) =>
                    let c := set_manager m c in
                    if negb (barriers_empty m) then (c, Err (Errorf "core: cannot attach CTA manager with preexisting barrier state"))
                    else
                      match observeFinished (set_attached true c) ids with
                      | (c, Err e) => (c, Err e)
                      | (c, Ok _) => (c, validate c)
                      end
                end
            end
        end
  end.

Definition NewWithCTAManager (h : owners) (m : CTAManager) (g : G) (executors : list (option (Executor G))) : result (Core G) :=
  let? c := Core_New h m g executors in
  let '(c, r) := SetCTAManager c in
  let? _ := r in Ok c.

(** ** Slots *)

Definition slotFor (c : Core G) (warpID : Z) : result (slot G) :=
  let? _ := validate c in
  check negb (warpID >=? FrozenWarpCount) else Errorf "core: warp id exceeds frozen count" in
  Ok (slot_at c warpID).

Definition snapshotSlot (c : Core G) (warpID : Z) : result SlotSnapshot :=
  let s := slot_at c warpID in
  let? w := deref c (sl_owner s) in
  Ok (mkSlotSnapshot warpID (sl_lifecycle s) (sl_blockReason s) (sl_participated s) (qget (co_initialized c) warpID)
        (w_lifecycle w) (w_activeMask w) (if sl_barrierWait s then Some (sl_barrierKey s) else None) (sl_barrierDrain s)).

Definition Slot (c : Core G) (warpID : Z) : result SlotSnapshot :=
  let? _ := validate c in
  check negb (warpID >=? FrozenWarpCount) else Errorf "core: warp id exceeds frozen count" in
  snapshotSlot c warpID.

Definition Slots (c : Core G) : result (list SlotSnapshot) :=
  let? _ := validate c in
  foldM (fun acc id => let? s := snapshotSlot c id in Ok (acc ++ [s])) [] ids.

Definition Block (c : Core G) (warpID : Z) (reason : BlockReason) : Core G * result unit :=
  if negb (validBlockReason reason) then (c, Err (Errorf "core: invalid block reason"))
  else if reason ==. BlockBarrier then (c, Err (Errorf "core: barrier blocks are owned by barrier coordination"))
  else
    match slotFor c warpID with
    | Err e => (c, Err e)
    | Ok s =>
        if sl_lifecycle s !=. SlotRunnable then (c, Err (Errorf "core: cannot block warp"))
        else let c := update_slot warpID (schedule SlotBlocked reason) c in (c, validateSlot c warpID)
    end.

Definition Resume (c : Core G) (warpID : Z) : Core G * result unit :=
  match slotFor c warpID with
  | Err e => (c, Err e)
  | Ok s =>
      if sl_lifecycle s !=. SlotBlocked then (c, Err (Errorf "core: cannot resume warp"))
      else if sl_blockReason s ==. BlockBarrier then (c, Err (Errorf "core: barrier-blocked warp can only resume through barrier coordination"))
      else let c := update_slot warpID (schedule SlotRunnable BlockNone) c in (c, validateSlot c warpID)
  end.

Definition Activate (c : Core G) (warpID : Z) : Core G * result unit :=
  if warpID >=? FrozenWarpCount then (c, Err (Errorf "core: invalid warp id"))
  else
    match validate c with
    | Err e => (c, Err e)
    | Ok _ =>
        let s := slot_at c warpID in
        if co_attached c && negb (HasWarp (co_ctas c) warpID) then (c, Err (Errorf "core: cannot activate warp without CTA membership"))
        else if (sl_lifecycle s !=. SlotInactive) || sl_participated s then (c, Err (Errorf "core: cannot activate warp"))
        else
          match deref c (sl_owner s) with
          | Err e => (c, Err e)
          | Ok w =>
              if (w_lifecycle w !=. WarpRunning) || (w_activeMask w =? 0) then (c, Err (Errorf "core: warp canonical state is not active"))
              else
                let c := update_slot warpID (fun s => set_participated true (schedule SlotRunnable BlockNone s)) c in
                (c, validateSlot c warpID)
          end
    end.
End Validation.

(** ** Dynamic CTAs *)
Section Dynamic.
Context {G : Type}.

(** The first free slots for one CTA, given the warps already taken. *)
Definition pickWarps (c : Core G) (selected : WarpMask) (required : Z) : list Z * WarpMask :=
  fold_left (fun acc id =>
    if (Z.of_nat (length acc.1) <? required) && negb (WarpMask_Active acc.2 id) && (sl_lifecycle (slot_at c id) ==. SlotInactive) &&
       negb (sl_participated (slot_at c id))
    then (acc.1 ++ [id], acc.2 .| u8 (1 << id)) else acc) ids ([], selected).

(** The context a cluster member shares with the first one. *)
Definition same_launch (config first : CTAConfig) : bool :=
  (cc_StartupPC config =? cc_StartupPC first) && bool_decide (cc_BlockDimensions config = cc_BlockDimensions first) &&
  bool_decide (cc_GridDimensions config = cc_GridDimensions first) && (cc_BlockSize config =? cc_BlockSize first) &&
  bool_decide (cc_WarpStep config = cc_WarpStep first) && (cc_Entry config =? cc_Entry first) &&
  (cc_ParameterAddress config =? cc_ParameterAddress first) && (cc_LocalMemorySize config =? cc_LocalMemorySize first).

Definition cluster_offset (rank : Z) (dims : triple) : triple :=
  (rank mod axis3 dims 0, rank / axis3 dims 0 mod axis3 dims 1, rank / u32 (axis3 dims 0 * axis3 dims 1)).

Definition axis_origin (config first : CTAConfig) (rank : Z) (dims : triple) (_ : unit) (axis : Z) : result unit :=
  let offset := axis3 (cluster_offset rank dims) axis in
  check negb (axis3 (cc_BlockID config) axis <? offset) else Errorf "core: block id precedes its cluster offset" in
  check axis3 (cc_BlockID config) axis - offset =? axis3 (cc_BlockID first) axis - axis3 (cluster_offset 0 dims) axis
    else Errorf "core: CTA does not share cluster origin" in
  Ok tt.

Definition required_warps (config : CTAConfig) : Z := u32 (u32 (cc_BlockSize config + FrozenLaneCount) - 1) / FrozenLaneCount.

(** One CTA of the cluster: its checks and its warps. *)
Definition clusterMember (c : Core G) (first : CTAConfig) (acc : list (list Z) * WarpMask) (entry : Z * CTAConfig) :
    result (list (list Z) * WarpMask) :=
  let '(rank, config) := entry in
  check (length (cc_WarpIDs config) =? 0)%nat else Errorf "core: dynamic CTA admission selects WarpIDs" in
  check (cc_ClusterSize config =? cc_ClusterSize first) && bool_decide (cc_ClusterDimensions config = cc_ClusterDimensions first) &&
    Bool.eqb (cc_IsFirstOfCluster config) (rank =? 0) else Errorf "core: CTA does not preserve complete cluster order/context" in
  check same_launch config first else Errorf "core: CTA differs from its cluster launch context" in
  let? _ := foldM (axis_origin config first rank (cc_ClusterDimensions first)) tt axes in
  check negb ((cc_BlockSize config =? 0) || (cc_BlockSize config >? FrozenWarpCount * FrozenLaneCount)) else Errorf "core: dynamic CTA block size is invalid" in
  let '(warps, selected) := pickWarps c acc.2 (required_warps config) in
  check Z.of_nat (length warps) =? required_warps config else ErrCTAResourcesUnavailable in
  Ok (acc.1 ++ [warps], selected).

Definition cluster_axis (dims : triple) (product axis : Z) : result Z :=
  check negb ((axis3 dims axis =? 0) || (axis3 dims axis >? 7)) else Errorf "core: cluster dimension is invalid" in
  Ok (u32 (product * axis3 dims axis)).

(** The selection of the warps of a whole cluster. *)
Definition selectCluster (c : Core G) (configs : list CTAConfig) : result (list (list Z)) :=
  match configs with
  | [] => Err (Errorf "core: dynamic CTA cluster size is invalid")
  | first :: _ =>
      check negb (Z.of_nat (length configs) >? FrozenWarpCount) else Errorf "core: dynamic CTA cluster size is invalid" in
      check cc_ClusterSize first =? u32 (Z.of_nat (length configs)) else Errorf "core: complete cluster requires another number of configs" in
      let? product := foldM (cluster_axis (cc_ClusterDimensions first)) 1 axes in
      check product =? cc_ClusterSize first else Errorf "core: cluster dimensions produce another number of CTAs" in
      let? acc := foldM (clusterMember c first) ([], 0) (imap (fun i config => (Z.of_nat i, config)) configs) in
      Ok acc.1
  end.

(** The launch targets of the staged candidates, in order. *)
Definition launch_targets (c : Core G) (candidates : list ctaState) : list WarpLaunchTarget :=
  flat_map (fun candidate =>
    map (fun member => mkWarpLaunchTarget (wmb_WarpID member) (Some (sl_owner (slot_at c (wmb_WarpID member)))) (cc_StartupPC (ct_config candidate))
           (wmb_ActiveMask member) (cc_ParameterAddress (ct_config candidate)) (negb (qget (co_initialized c) (wmb_WarpID member))))
      (ct_members candidate)) candidates.

(** The scheduler check of the commit callback. *)
Definition slot_unused (s : slot G) : bool :=
  (sl_lifecycle s ==. SlotInactive) && negb (sl_participated s) && (sl_blockReason s ==. BlockNone) && key_clear s.

Definition launch_external (c : Core G) (candidates : list ctaState) (stage : WarpLaunchStage) (h : owners) : owners * result unit :=
  if forallb (fun candidate => forallb (fun member => slot_unused (slot_at c (wmb_WarpID member))) (ct_members candidate)) candidates
  then let '(h, _, r) := Launch_Commit h stage in (h, r)
  else (h, Err (Errorf "core: warp scheduler slot changed before CTA admission")).

(** The infallible scheduler assignments after the commit. *)
Definition start_member (c : Core G) (member : WarpMembership) : Core G :=
  let id := wmb_WarpID member in
  let c := update_slot id (fun s => set_participated true (schedule SlotRunnable BlockNone s)) c in
  set_initialized (qset (co_initialized c) id true) c.

Definition AdmitCTACluster (c : Core G) (configs : list CTAConfig) : Core G * result (list CTASnapshot) :=
  match
    let? _ := validate c in
    check co_attached c && cm_dynamic (co_ctas c) else Errorf "core: dynamic CTA admission requires a dynamic CTA manager" in
    let? warpIDs := selectCluster c configs in
    let? admission := stageDynamicAdmissions (co_ctas c) configs warpIDs in
    let? launch := StageWarpLaunch (co_owners c) (launch_targets c (as_candidates admission)) in
    Ok (admission, launch)
  with
  | Err e => (c, Err e)
  | Ok (admission, launch) =>
      match admission_commit (co_ctas c) admission (launch_external c (as_candidates admission) launch) (co_owners c) with
      | (m, h, Err e) => (set_owners h (set_manager m c), Err e)
      | (m, h, Ok _) =>
          (fold_left start_member (flat_map ct_members (as_candidates admission)) (set_owners h (set_manager m c)),
           Ok (map snapshotCTA (as_candidates admission)))
      end
  end.

Definition AdmitCTA (c : Core G) (config : CTAConfig) : Core G * result CTASnapshot :=
  match AdmitCTACluster c [config] with
  | (c, Err e) => (c, Err e)
  | (c, Ok (s :: _)) => (c, Ok s)
  | (c, Ok []) => (c, Err (GoPanic "index out of range"))
  end.

(** ** Completion *)

(** [residentIDs] of the CTA owner: the ids in increasing order. *)
Definition residentIDs (m : CTAManager) : list Z := merge_sort Z.le (map fst (map_to_list (cm_ctas m))).

Definition CTACompletion (c : Core G) (ctaID : Z) : result CTACompletionSnapshot :=
  let? _ := validate c in
  check co_attached c else Errorf "core: no CTA manager is attached" in
  cta_completion (co_ctas c) ctaID (qmake (fun id => mkCtaSchedulerView (sl_lifecycle (slot_at c id)) (sl_blockReason (slot_at c id)))).

Definition CTACompletions (c : Core G) : result (list CTACompletionSnapshot) :=
  let? _ := validate c in
  if co_attached c then
    foldM (fun acc id => let? completion := CTACompletion c id in Ok (acc ++ [completion])) [] (residentIDs (co_ctas c))
  else Ok [].

Definition Complete (c : Core G) : result bool :=
  let? _ := validate c in
  if co_attached c then
    let? completions := CTACompletions c in
    Ok (negb (length completions =? 0)%nat && forallb cps_Complete completions)
  else
    let participants := List.filter (fun id => sl_participated (slot_at c id)) ids in
    Ok (forallb (fun id => sl_lifecycle (slot_at c id) ==. SlotFinished) participants && negb (length participants =? 0)%nat).

(** The pending-work check of a reclaim. *)
Definition no_pending_work (c : Core G) (_ : unit) (member : WarpMembership) : result unit :=
  match co_pendingWork c with
  | None => Ok tt
  | Some provider =>
      match provider (wmb_WarpID member) with
      | Err _ => Err (Errorf "core: pending-work view for reclaim warp")
      | Ok pending => check negb pending else Errorf "core: CTA warp retains pending functional work" in Ok tt
      end
  end.

Definition retire_member (slots : quad (slot G)) (member : WarpMembership) : quad (slot G) :=
  let id := wmb_WarpID member in qset slots id (set_participated false (schedule SlotInactive BlockNone (qget slots id))).

Definition ReclaimCTA (c : Core G) (ctaID : Z) : Core G * result CTASnapshot :=
  match
    let? _ := validate c in
    check co_attached c && cm_dynamic (co_ctas c) else Errorf "core: dynamic CTA reclaim requires a dynamic CTA manager" in
    let? snapshot := CTAManager_Snapshot (co_ctas c) ctaID in
    let? completion := CTACompletion c ctaID in
    check cps_Complete completion else Errorf "core: CTA is not normally complete" in
    let? _ := foldM (no_pending_work c) tt (cs_Members snapshot) in
    Ok snapshot
  with
  | Err e => (c, Err e)
  | Ok snapshot =>
      match commitDynamicReclaim (co_ctas c) ctaID (fun members slots => fold_left retire_member members slots) (co_slots c) with
      | (m, slots, Err e) => (set_slots slots (set_manager m c), Err e)
      | (m, slots, Ok _) => (set_slots slots (set_manager m c), Ok snapshot)
      end
  end.
End Dynamic.
