(* ===== verification/CoreStep.v ===== *)
(** * Core.Step and Core.Run (src/emu/core/core.go, run.go)

    One step selects a runnable warp round robin, executes one instruction with the
    core-derived context and then coordinates what the executor deferred: WSPAWN,
    WSYNC and the barriers.  Each coordination first collects everything that can fail
    and only then changes the owners and the slots. *)

From S2P Require Import Prelude IsaTypes Catalog Decode Integer System Custom Softfloat Float Memory WarpState Apply View WarpExec.
From S2P Require Import Cta Barrier Launch Core.

#[local] Open Scope Z_scope.
#[local] Open Scope go_scope.

#[export] Instance WarpDrainEffect_eq_dec : EqDecision WarpDrainEffect. Proof. solve_decision. Defined.

Definition is_none {A} (o : option A) : bool := match o with None => true | Some _ => false end.
Definition empty {A} (l : list A) : bool := (length l =? 0)%nat.

(** ** Views *)
Section Views.
Context {G : Type}.

Definition activeWarpMask (c : Core G) : result WarpMask :=
  foldM (fun mask id => let? w := deref c (sl_owner (slot_at c id)) in
    Ok (if w_lifecycle w ==. WarpRunning then mask .| u8 (1 << id) else mask)) 0 ids.

Definition ownerSnapshots (c : Core G) : result (quad WarpState) :=
  let? w0 := deref c (sl_owner (slot_at c 0)) in
  let? w1 := deref c (sl_owner (slot_at c 1)) in
  let? w2 := deref c (sl_owner (slot_at c 2)) in
  let? w3 := deref c (sl_owner (slot_at c 3)) in
  Ok (Quad w0 w1 w2 w3).

Definition selectRunnable (c : Core G) : option Z :=
  List.find (fun id => sl_lifecycle (slot_at c id) ==. SlotRunnable) (map (fun offset => u8 (co_next c + offset) mod FrozenWarpCount) ids).

(** The functional wait of one slot, re-evaluated. *)
Definition refreshSlot (context : ReadContext) (active : WarpMask) (c : Core G) (id : Z) : Core G * result unit :=
  let s := slot_at c id in
  let wake := update_slot id (schedule SlotRunnable BlockNone) c in
  if sl_lifecycle s !=. SlotBlocked then (c, Ok tt)
  else
    match sl_blockReason s with
    | BlockWarpSpawn => (if active =? u8 (1 << id) then wake else c, Ok tt)
    | BlockPendingWork =>
        match (match co_pendingWork c with Some provider => provider id | None => Ok (rc_PendingPriorWork context) end) with
        | Err _ => (c, Err (Errorf "core: pending-work view"))
        | Ok pending => (if pending then c else wake, Ok tt)
        end
    | BlockBarrier => (if sl_barrierDrain s && negb (rc_PendingLSU context) then wake else c, Ok tt)
    | _ => (c, Ok tt)
    end.

Fixpoint refreshSlots (context : ReadContext) (active : WarpMask) (c : Core G) (ws : list Z) : Core G * result unit :=
  match ws with
  | [] => (c, Ok tt)
  | id :: rest =>
      match refreshSlot context active c id with
      | (c, Err e) => (c, Err e)
      | (c, Ok _) => refreshSlots context active c rest
      end
  end.

Definition refreshFunctionalWaits (c : Core G) (context : ReadContext) : Core G * result unit :=
  match activeWarpMask c with
  | Err e => (c, Err e)
  | Ok active =>
      match refreshSlots context active c ids with
      | (c, Err e) => (c, Err e)
      | (c, Ok _) => (c, validate c)
      end
  end.

(** The owner's state at the return of a completed deferred instruction. *)
Definition completeDeferredResult (c : Core G) (owner : Z) (r : Result) : Result :=
  match deref c owner with
  | Err _ => r
  | Ok w =>
      observe w (mkResult OutcomeRetired (r_WarpID r) (r_PC r) (r_ActiveMask r) (r_Lifecycle r) (r_DivergencePointer r) (r_Raw r) (r_Decoded r)
        (r_IssuedEffects r) (r_Effects r) (r_NextPC r) (r_NextActiveMask r) (r_NextLifecycle r) (r_NextDivergencePointer r) None)
  end.

(** ** WSPAWN *)

Definition validateWarpSpawnEffect (sourceID : Z) (s : WarpSpawnEffect) : result unit :=
  check negb ((ws_SourceWarp s <>? sourceID) || (sourceID >=? FrozenWarpCount) || negb (WarpMask_Valid (ws_Targets s)) ||
      selected (ws_Targets s) sourceID || (ws_TargetPC s .& 3 <>? 0) || (ws_InitialLaneMask s <>? 1) || negb (ws_CopyMScratch s) ||
      negb (ws_RequiresSingleActiveWarp s) || negb (ws_ReleaseSourceAfterApply s))
    else Errorf "core: invalid frozen WSPAWN source/target/PC/mask/copy/gate fields" in
  check ws_Targets s =? expectedTargets (ws_RequestedCount s) sourceID else Errorf "core: WSPAWN targets do not match count/source" in
  Ok tt.

Definition coreTarget (c : Core G) (spawn : WarpSpawnEffect) (before : quad WarpState) (targets : list WarpSpawnTarget) (id : Z) :
    result (list WarpSpawnTarget) :=
  if negb (selected (ws_Targets spawn) id) then Ok targets
  else
    let s := slot_at c id in
    check negb ((sl_lifecycle s !=. SlotInactive) || sl_participated s) else Errorf "core: WSPAWN target warp is not an unused inactive slot" in
    Ok (targets ++ [mkWarpSpawnTarget id (Some (sl_owner s)) (qget before id)]).

(** Every check of [coordinateWarpSpawn]: [None] when other warps are still active. *)
Definition spawnPlan (c : Core G) (sourceID : Z) (active : WarpMask) (before : quad WarpState) (r : Result) :
    result (option (WarpSpawnStage * list WarpSpawnTarget)) :=
  match r_Effects r with
  | None => Err (Errorf "core: WSPAWN deferred without a spawn effect")
  | Some effects =>
      match WarpSpawn effects with
      | None => Err (Errorf "core: WSPAWN deferred without a spawn effect")
      | Some spawn =>
          let? _ := validateWarpSpawnEffect sourceID spawn in
          let? _ := (if co_attached c then ValidateSpawn (co_ctas c) sourceID (ws_Targets spawn) else Ok tt) in
          if active <>? u8 (1 << sourceID) then Ok None
          else
            let? targets := foldM (coreTarget c spawn before) [] ids in
            let owner := sl_owner (slot_at c sourceID) in
            let? source := deref c owner in
            check source ==. qget before sourceID else Errorf "core: WSPAWN source warp changed since instruction issue" in
            check tc_MScratch (w_trapCSRs source) =? ws_MScratch spawn else Errorf "core: WSPAWN mscratch view is stale" in
            let? stage := StageEffects source effects in
            let? transaction := StageWarpSpawn (co_owners c) owner stage targets in
            Ok (Some (transaction, targets))
      end
  end.

Definition coordinateWarpSpawn (c : Core G) (sourceID : Z) (active : WarpMask) (before : quad WarpState) (r : Result) : Core G * Result * result unit :=
  match spawnPlan c sourceID active before r with
  | Err e => (c, r, Err e)
  | Ok None => (update_slot sourceID (schedule SlotBlocked BlockWarpSpawn) c, r, Ok tt)
  | Ok (Some (transaction, targets)) =>
      match Spawn_Commit (co_owners c) transaction with
      | (h, _, Err e) => (set_owners h c, r, Err e)
      | (h, _, Ok _) =>
          let c := set_owners h c in
          let c := fold_left (fun c t => update_slot (st_WarpID t) (fun s => set_participated true (schedule SlotRunnable BlockNone s)) c) targets c in
          let c := update_slot sourceID (schedule SlotRunnable BlockNone) c in
          (c, completeDeferredResult c (sl_owner (slot_at c sourceID)) r, validate c)
      end
  end.

(** ** WSYNC *)

(** Everything but the control, drain and barrier fields is empty. *)
Definition only_coordination (e : InstructionEffects) : bool :=
  is_none (WarpSpawn e) && empty (RegisterWrites e) && empty (MemoryRequests e) && is_none (Ordering e) && is_none (FFlagsOf e) &&
  empty (CSRReads e) && empty (CSRWrites e) && is_none (Trap e) && empty (WarpMasks e) && is_none (Divergence e) &&
  empty (PackedLoads e) && empty (Faults e).

(** The forwarded group of a coordinated stage. *)
Definition forwarded_only (barriers : nat) (e : InstructionEffects) : bool :=
  is_none (WarpSpawn e) && (length (WarpDrains e) =? 1)%nat && (length (Barriers e) =? barriers)%nat && empty (MemoryRequests e) &&
  empty (PackedLoads e) && empty (CSRWrites e) && empty (CSRReads e) && is_none (Ordering e) && empty (Faults e).

(** The checks of [coordinateWarpSync]: [None] while prior work is pending. *)
Definition syncPlan (c : Core G) (sourceID : Z) (pending : bool) (r : Result) : result (option (WarpState * EffectStage)) :=
  match r_Effects r with
  | None => Err (Errorf "core: WSYNC deferred without exactly one drain effect")
  | Some effects =>
      match WarpDrains effects with
      | [drain] =>
          check (wd_WarpID drain =? sourceID) && (wd_Kind drain ==. DrainPriorInstructions) && Bool.eqb (wd_Wait drain) pending &&
              wd_ReleaseAfterDrain drain && empty (Barriers effects) && only_coordination effects &&
              Bool.eqb (is_none (Control effects)) pending
            else Errorf "core: WSYNC drain effect violates the functional contract" in
          if pending then Ok None
          else
            let? w := deref c (sl_owner (slot_at c sourceID)) in
            let? stage := StageEffects w effects in
            check forwarded_only 0 (ForwardedEffects stage) else Errorf "core: WSYNC has unexpected forwarded effects" in
            Ok (Some (w, stage))
      | _ => Err (Errorf "core: WSYNC deferred without exactly one drain effect")
      end
  end.

Definition coordinateWarpSync (c : Core G) (sourceID : Z) (pending : bool) (r : Result) : Core G * Result * result unit :=
  match syncPlan c sourceID pending r with
  | Err e => (c, r, Err e)
  | Ok None => (update_slot sourceID (schedule SlotBlocked BlockPendingWork) c, r, Ok tt)
  | Ok (Some (w, stage)) =>
      let owner := sl_owner (slot_at c sourceID) in
      match CommitAfterExternal w stage with
      | (w', _, Err e) => (set_owners (<[owner := w']> (co_owners c)) c, r, Err e)
      | (w', _, Ok _) =>
          let c := set_owners (<[owner := w']> (co_owners c)) c in
          let c := update_slot sourceID (schedule SlotRunnable BlockNone) c in
          (c, completeDeferredResult c owner r, Ok tt)
      end
  end.

(** ** Barriers *)

Definition wantKind (name : string) : BarrierKind :=
  if name == "bar" then BarrierSync else if name == "bar.arrive" then BarrierArrive else if name == "bar.wait" then BarrierWait else BarrierNone.

Definition waits_on (c : Core G) (key : BarrierKey) (id : Z) : bool :=
  let s := slot_at c id in
  (sl_lifecycle s ==. SlotBlocked) && (sl_blockReason s ==. BlockBarrier) && sl_barrierWait s && bool_decide (sl_barrierKey s = key).

Definition validateBarrierReleases (c : Core G) (sourceID : Z) (b : BarrierResult) : result unit :=
  check WarpMask_Valid (bres_Releases b) else Errorf "core: barrier release mask exceeds frozen warps" in
  check forallb (fun id => negb (WarpMask_Active (bres_Releases b) id) || (id =? sourceID) || waits_on c (bres_Key b) id) ids
    else Errorf "core: barrier release warp is not waiting on the matching key" in
  Ok tt.

Definition applyBarrierReleases (c : Core G) (sourceID : Z) (b : BarrierResult) : Core G :=
  fold_left (fun c id =>
    if negb (WarpMask_Active (bres_Releases b) id) || (id =? sourceID) then c else update_slot id (schedule SlotRunnable BlockNone) c) ids c.

(** The checks of an accepted barrier request. *)
Definition barrierPlan (c : Core G) (sourceID : Z) (issued : WarpState) (view : barrierView) (name : string) (effects : InstructionEffects) :
    result (BarrierEffect * EffectStage * BarrierStage) :=
  match Barriers effects with
  | [effect] =>
      check bool_decide (WarpDrains effects = [mkWarpDrainEffect sourceID DrainLSU false false]) && negb (is_none (Control effects)) &&
          is_none (WarpSpawn effects) && empty (MemoryRequests effects) && is_none (Ordering effects) && is_none (FFlagsOf effects) &&
          empty (CSRReads effects) && empty (CSRWrites effects) && is_none (Trap effects) && empty (WarpMasks effects) &&
          is_none (Divergence effects) && empty (PackedLoads effects) && empty (Faults effects)
        else Errorf "core: accepted barrier effect violates the frozen contract" in
      check (be_WarpID effect =? sourceID) && (be_Kind effect ==. wantKind name) else Errorf "core: barrier effect source/kind does not match issued instruction" in
      let? w := deref c (sl_owner (slot_at c sourceID)) in
      check w ==. issued else Errorf "core: barrier source warp changed since instruction issue" in
      let? stage := StageEffects w effects in
      check forwarded_only 1 (ForwardedEffects stage) else Errorf "core: barrier has unexpected forwarded effects" in
      let? request := stageFromView (co_ctas c) effect view in
      let? _ := validateBarrierReleases c sourceID (bst_result request) in
      Ok (effect, stage, request)
  | _ => Err (Errorf "core: accepted barrier effect violates the frozen contract")
  end.

Definition no_transition (draining : bool) : BarrierTransition := mkBarrierTransition draining false None no_key no_snapshot no_snapshot false 0.

(** The core, the result and the transition. *)
Definition coordinateBarrier (c : Core G) (sourceID : Z) (issued : WarpState) (view : barrierView) (pendingLSU : bool) (r : Result) :
    Core G * Result * option BarrierTransition * result unit :=
  match r_Decoded r, r_Effects r with
  | Some d, Some effects =>
      if pendingLSU then
        if bool_decide (WarpDrains effects = [mkWarpDrainEffect sourceID DrainLSU true false]) && is_none (Control effects) &&
           empty (Barriers effects) && only_coordination effects
        then (update_slot sourceID (reschedule SlotBlocked BlockBarrier no_key false true) c, r, Some (no_transition true), Ok tt)
        else (c, r, None, Err (Errorf "core: pending-LSU barrier effect violates the drain contract"))
      else
        match barrierPlan c sourceID issued view (d_Name d) effects with
        | Err e => (c, r, None, Err e)
        | Ok (effect, stage, request) =>
            let owner := sl_owner (slot_at c sourceID) in
            let apply : external CTAManager := fun '(w, m) => let '(m', _, res) := Barrier_Commit m request in (w, m', res) in
            match CommitForwardedWithExternal issued (co_ctas c) stage apply with
            | (w, m, _, Err e) => (set_manager m (set_owners (<[owner := w]> (co_owners c)) c), r, None, Err e)
            | (w, m, _, Ok _) =>
                let b := bst_result request in
                let c := set_manager m (set_owners (<[owner := w]> (co_owners c)) c) in
                let before := default no_snapshot (qget (bv_records view) (be_AddressWarp effect) !! Z.to_nat (be_ID effect)) in
                let transition := mkBarrierTransition false true (Some effect) (bres_Key b) before (snapshotBarrier (bres_Key b) (bst_after request))
                                    (bres_Block b) (bres_Releases b) in
                let c := applyBarrierReleases c sourceID b in
                let c := if bres_Block b then update_slot sourceID (reschedule SlotBlocked BlockBarrier (bres_Key b) true false) c
                         else update_slot sourceID (schedule SlotRunnable BlockNone) c in
                (c, completeDeferredResult c owner r, Some transition, Ok tt)
            end
        end
  | _, _ => (c, r, None, Err (Errorf "core: barrier deferred without decoded effects"))
  end.

Definition CompleteBarrierEvent (c : Core G) (key : BarrierKey) : Core G * result unit :=
  match
    let? _ := validate c in
    check co_attached c else Errorf "core: no barrier coordinator is attached" in
    let? stage := StageEventCompletion (co_ctas c) key in
    let? _ := validateBarrierReleases c FrozenWarpCount (bst_result stage) in
    Ok stage
  with
  | Err e => (c, Err e)
  | Ok stage =>
      match Barrier_Commit (co_ctas c) stage with
      | (m, _, Err e) => (set_manager m c, Err e)
      | (m, _, Ok _) => (applyBarrierReleases (set_manager m c) FrozenWarpCount (bst_result stage), Ok tt)
      end
  end.

Definition Core_Barrier (c : Core G) (key : BarrierKey) : result BarrierSnapshot :=
  let? _ := validate c in
  check co_attached c else Errorf "core: no barrier coordinator is attached" in
  Barrier_Snapshot (co_ctas c) key.

(** ** Step *)

Definition deferredReason (r : Result) : BlockReason :=
  let reason (o : option InstructionEffects) (other : BlockReason) :=
    match o with
    | None => other
    | Some e =>
        if negb (is_none (WarpSpawn e)) then BlockWarpSpawn else if negb (empty (Barriers e)) then BlockBarrier
        else if negb (empty (WarpDrains e)) then BlockPendingWork else other
    end in
  reason (r_Effects r) (reason (r_IssuedEffects r) BlockExternalOwner).

Definition idle_step : StepResult := mkStepResult StepIdle 0 SlotInactive BlockNone None SlotInactive BlockNone None None None.

Definition stepResult (c : Core G) (id : Z) (before : slot G) (r : Result) (transition : option BarrierTransition) : StepResult :=
  let s := slot_at c id in
  let cta := if co_attached c then match ViewForWarp (co_ctas c) id with Ok view => Some (cta_ID view) | Err _ => None end else None in
  let completion := match cta with
    | Some ctaID => match CTACompletion c ctaID with Ok completion => Some completion | Err _ => None end
    | None => None
    end in
  mkStepResult StepExecuted id (sl_lifecycle before) (sl_blockReason before) (Some r) (sl_lifecycle s) (sl_blockReason s) cta transition completion.

(** What the selected warp may observe: the context, the active warps, the owners'
    images and the barrier view of its CTA. *)
Definition stepContext (c : Core G) (id : Z) (context : ReadContext) : result (ReadContext * WarpMask * quad WarpState * option barrierView) :=
  let? active := activeWarpMask c in
  let? before := ownerSnapshots c in
  let? seen :=
    (if co_attached c then
       let? cta := ViewForWarp (co_ctas c) id in
       let? view := barrier_view (co_ctas c) (cta_ID cta) in
       Ok (cta, Some (bv_phases view), Some view)
     else Ok (rc_CTA context, rc_BarrierPhases context, None)) in
  let? pending := match co_pendingWork c with Some provider => provider id | None => Ok (rc_PendingPriorWork context) end in
  Ok (mkReadContext 0 (u8 active) seen.1.1 (rc_Counters context) (rc_Bounds context) (rc_BarrierPhase context) seen.1.2 pending (rc_PendingLSU context),
      active, before, seen.2).

(** The coordination of a deferred result; on an error the slot of the selected warp
    is set as the code's error branch does. *)
Definition coordinate (c : Core G) (id : Z) (context : ReadContext) (active : WarpMask) (before : quad WarpState) (view : option barrierView)
    (old : slot G) (r : Result) : Core G * Result * option BarrierTransition * result unit :=
  match r_Outcome r, r_Decoded r with
  | OutcomeDeferred, Some d =>
      if d_Name d == "wspawn" then
        match coordinateWarpSpawn c id active before r with
        | (c, r, Err e) => (update_slot id (schedule SlotBlocked BlockFault) c, r, None, Err e)
        | (c, r, Ok _) => (c, r, None, Ok tt)
        end
      else if d_Name d == "wsync" then
        match coordinateWarpSync c id (rc_PendingPriorWork context) r with
        | (c, r, Err e) => (update_slot id (schedule SlotBlocked BlockFault) c, r, None, Err e)
        | (c, r, Ok _) => (c, r, None, Ok tt)
        end
      else if (d_Name d == "bar") || (d_Name d == "bar.arrive") || (d_Name d == "bar.wait") then
        match view with
        | None => (update_slot id (relabel SlotBlocked BlockBarrier) c, r, None, Ok tt)
        | Some view =>
            match coordinateBarrier c id (qget before id) view (rc_PendingLSU context) r with
            | (c, r, t, Err e) =>
                (update_slot id (reschedule (sl_lifecycle old) (sl_blockReason old) (sl_barrierKey old) (sl_barrierWait old) (sl_barrierDrain old)) c, r, t, Err e)
            | (c, r, t, Ok _) => (c, r, t, Ok tt)
            end
        end
      else (c, r, None, Ok tt)
  | _, _ => (c, r, None, Ok tt)
  end.

(** The scheduler transition of the selected slot after the coordination. *)
Definition settle (c : Core G) (id : Z) (r : Result) : Core G * result unit :=
  if r_NextLifecycle r ==. WarpInactive then
    let c := update_slot id (schedule SlotFinished BlockNone) c in
    if co_attached c then
      match observeWarpFinished (co_ctas c) id with
      | (m, Err e) => (update_slot id (schedule SlotBlocked BlockFault) (set_manager m c), Err e)
      | (m, Ok _) => (set_manager m c, Ok tt)
      end
    else (c, Ok tt)
  else
    match r_Outcome r with
    | OutcomeDeferred =>
        (if sl_lifecycle (slot_at c id) !=. SlotBlocked then update_slot id (relabel SlotBlocked (deferredReason r)) c else c, Ok tt)
    | OutcomeFault => (update_slot id (schedule SlotBlocked BlockFault) c, Ok tt)
    | _ => (c, Ok tt)
    end.
End Views.

Section Step.
Context `{SoftFloatLib} {G : Type}.

(** The executor's instruction on the shared objects. *)
Definition execute (c : Core G) (id : Z) (w : WarpState) (context : ReadContext) : Core G * Result :=
  let s := slot_at c id in
  let '(w', (m, g), r) := Step (services (sl_executor s)) w (co_ctas c, co_global c) context in
  (set_owners (<[sl_owner s := w']> (co_owners c)) (set_manager m (set_global g c)), r).

(** The selected warp's part of [Step]. *)
Definition stepWarp (c : Core G) (id : Z) (context : ReadContext) : Core G * StepResult * result unit :=
  match stepContext c id context with
  | Err e => (c, idle_step, Err e)
  | Ok (context, active, before, view) =>
      let c := set_next ((id + 1) mod FrozenWarpCount) c in
      let old := slot_at c id in
      let '(c, r) := execute c id (qget before id) context in
      match coordinate c id context active before view old r with
      | (c, r, transition, Err e) => (c, stepResult c id old r transition, Err e)
      | (c, r, transition, Ok _) =>
          match settle c id r with
          | (c, Err e) => (c, stepResult c id old r transition, Err e)
          | (c, Ok _) =>
              match validateSlot c id with
              | Err e => (c, idle_step, Err e)
              | Ok _ => (c, stepResult c id old r transition, Ok tt)
              end
          end
      end
  end.

Definition Core_Step (c : Core G) (context : ReadContext) : Core G * StepResult * result unit :=
  match validate c with
  | Err e => (c, idle_step, Err e)
  | Ok _ =>
      match refreshFunctionalWaits c context with
      | (c, Err e) => (c, idle_step, Err e)
      | (c, Ok _) =>
          match selectRunnable c with
          | None => (c, idle_step, Ok tt)
          | Some id => stepWarp c id context
          end
      end
  end.

(** ** Run (run.go) *)

Inductive CoreRunOutcome := RunComplete | CoreRunBudgetExceeded | RunBlocked | CoreRunDeferred | CoreRunTrap | CoreRunFault.

(** The typed errors of a run; [WarpFault] is the selected warp's own. *)
Inductive CoreRunError :=
| CoreError (e : error)
| CoreBudgetExceededError (budget : Z)
| NoRunnableError
| DeferredError (warpID : Z) (reason : BlockReason)
| WarpFault (fault : option Fault).

Record CoreRunResult := mkCoreRunResult {
  crr_Outcome : CoreRunOutcome;
  crr_Attempts : Z;
  crr_Retired : Z;
  crr_Last : option StepResult;
  crr_Err : option CoreRunError;
  crr_CTACompletions : list CTACompletionSnapshot
}.

Record CoreTraceRecord := mkCoreTraceRecord { ctr_CoreStep : Z; ctr_Step : StepResult }.

(** The deferred function of [Run]: the completions of the final state, if any. *)
Definition run_result (c : Core G) (outcome : CoreRunOutcome) (attempts retired : Z) (last : option StepResult) (err : option CoreRunError) : CoreRunResult :=
  mkCoreRunResult outcome attempts retired last err (match CTACompletions c with Ok l => l | Err _ => [] end).

(** The loop; [turns] is the budget still unused. *)
Fixpoint coreRunLoop (budget : Z) (turns : nat) (context : Z -> ReadContext) (c : Core G) (attempts retired : Z) (last : option StepResult)
    (trace : list CoreTraceRecord) : Core G * CoreRunResult * list CoreTraceRecord :=
  match turns with
  | O => (c, run_result c CoreRunBudgetExceeded attempts retired last (Some (CoreBudgetExceededError budget)), trace)
  | S turns =>
      let '(c, step, err) := Core_Step c (context attempts) in
      match sr_Outcome step with
      | StepIdle =>
          match err with
          | Err e => (c, run_result c CoreRunFault attempts retired last (Some (CoreError e)), trace)
          | Ok _ =>
              match Complete c with
              | Err e => (c, run_result c CoreRunFault attempts retired last (Some (CoreError e)), trace)
              | Ok true => (c, run_result c RunComplete attempts retired last None, trace)
              | Ok false => (c, run_result c RunBlocked attempts retired last (Some NoRunnableError), trace)
              end
          end
      | StepExecuted =>
          let trace := trace ++ [mkCoreTraceRecord attempts step] in
          let stop outcome retired e := (c, run_result c outcome (attempts + 1) retired (Some step) e, trace) in
          match err with
          | Err e => stop CoreRunFault retired (Some (CoreError e))
          | Ok _ =>
              match sr_WarpResult step with
              | None => stop CoreRunFault retired (Some (CoreError (Errorf "core: selected warp returned unexpected outcome")))
              | Some r =>
                  match r_Outcome r with
                  | OutcomeRetired =>
                      match Complete c with
                      | Err e => stop CoreRunFault (retired + 1) (Some (CoreError e))
                      | Ok true => stop RunComplete (retired + 1) None
                      | Ok false => coreRunLoop budget turns context c (attempts + 1) (retired + 1) (Some step) trace
                      end
                  | OutcomeDeferred => stop CoreRunDeferred retired (Some (DeferredError (sr_WarpID step) (sr_BlockReason step)))
                  | OutcomeTrap => stop CoreRunTrap retired (Some (WarpFault (r_Fault r)))
                  | OutcomeFault => stop CoreRunFault retired (Some (WarpFault (r_Fault r)))
                  | OutcomeFinished => stop CoreRunFault retired (Some (CoreError (Errorf "core: selected warp returned unexpected outcome")))
                  end
              end
          end
      end
  end.

Definition Core_Run (budget : Z) (context : Z -> ReadContext) (c : Core G) : Core G * CoreRunResult * list CoreTraceRecord :=
  match Complete c with
  | Err e => (c, run_result c CoreRunFault 0 0 None (Some (CoreError e)), [])
  | Ok true => (c, run_result c RunComplete 0 0 None None, [])
  | Ok false => coreRunLoop budget (Z.to_nat budget) context c 0 0 None []
  end.
End Step.
