(* ===== verification/Scheduling.v ===== *)
(** * Scheduling properties of the core

    The round-robin selection starves no runnable warp, and a bounded run of the core
    is iterated [Core_Step], ending within its budget. *)

From S2P Require Import Prelude IsaTypes Catalog Decode Integer System Custom Softfloat Float Memory WarpState Apply View EvaluateTyped WarpExec WarpCorrect.
From S2P Require Import Cta Barrier Launch Core CoreStep.

#[local] Open Scope Z_scope.
#[local] Open Scope go_scope.

(** ** The cursor *)
Section Cursor.
Context {G : Type}.

Lemma next_update id f (c : Core G) : co_next (update_slot id f c) = co_next c.
Proof. done. Qed.

Lemma next_fold {A} (f : Core G -> A -> Core G) xs c : (forall c x, co_next (f c x) = co_next c) -> co_next (fold_left f xs c) = co_next c.
Proof. intros Hf. revert c. induction xs as [|x xs IH]; intros c; cbn [fold_left]; [done|]. by rewrite IH. Qed.

Lemma next_refreshSlot context active (c : Core G) id : co_next (refreshSlot context active c id).1 = co_next c.
Proof. unfold refreshSlot. by repeat case_match. Qed.

Lemma next_refresh (c : Core G) context : co_next (refreshFunctionalWaits c context).1 = co_next c.
Proof.
  assert (forall active ws (c0 : Core G), co_next (refreshSlots context active c0 ws).1 = co_next c0) as Hloop.
  { intros active ws. induction ws as [|id ws IH]; intros c0; cbn [refreshSlots]; [done|].
    pose proof (next_refreshSlot context active c0 id) as Hn. destruct (refreshSlot context active c0 id) as [c1 [[]|e]]; [by rewrite IH|done]. }
  unfold refreshFunctionalWaits. destruct (activeWarpMask c) as [active|e]; [|done]. pose proof (Hloop active ids c) as Hn.
  by destruct (refreshSlots context active c ids) as [c1 [[]|e]].
Qed.

Lemma next_spawn (c : Core G) id active before r : co_next (coordinateWarpSpawn c id active before r).1.1 = co_next c.
Proof.
  unfold coordinateWarpSpawn. destruct (spawnPlan c id active before r) as [[[s ts]|]|e]; [|done..].
  destruct (Spawn_Commit (co_owners c) s) as [[h o] [[]|e]]; [|done]. cbn [fst]. rewrite next_update. by rewrite next_fold.
Qed.

Lemma next_sync (c : Core G) id pending r : co_next (coordinateWarpSync c id pending r).1.1 = co_next c.
Proof.
  unfold coordinateWarpSync. destruct (syncPlan c id pending r) as [[[w s]|]|e]; [|done..].
  by destruct (CommitAfterExternal w s) as [[w' o] [[]|e]].
Qed.

Lemma next_releases (c : Core G) id b : co_next (applyBarrierReleases c id b) = co_next c.
Proof. unfold applyBarrierReleases. apply next_fold. intros c' x. by case_match. Qed.

Lemma next_barrier (c : Core G) id w view lsu r : co_next (coordinateBarrier c id w view lsu r).1.1.1 = co_next c.
Proof.
  unfold coordinateBarrier. destruct (r_Decoded r) as [d|], (r_Effects r) as [e|]; try done. destruct lsu; [by case_match|].
  destruct (barrierPlan c id w view (d_Name d) e) as [[[effect s] request]|x]; [|done]. cbv zeta.
  destruct (CommitForwardedWithExternal _ _ _ _) as [[[w' m] o] [[]|x]]; [|done]. cbn [fst].
  by destruct (bres_Block (bst_result request)); rewrite next_update, next_releases.
Qed.

Lemma next_coordinate (c : Core G) id context active before view old r :
  co_next (coordinate c id context active before view old r).1.1.1 = co_next c.
Proof.
  unfold coordinate. destruct (r_Outcome r), (r_Decoded r) as [d|]; try done. destruct (d_Name d == "wspawn").
  { pose proof (next_spawn c id active before r) as Hn. by destruct (coordinateWarpSpawn c id active before r) as [[c' r'] [[]|e]]. }
  destruct (d_Name d == "wsync").
  { pose proof (next_sync c id (rc_PendingPriorWork context) r) as Hn. by destruct (coordinateWarpSync _ _ _ _) as [[c' r'] [[]|e]]. }
  destruct (_ || _ || _); [|done]. destruct view as [view|]; [|done].
  pose proof (next_barrier c id (qget before id) view (rc_PendingLSU context) r) as Hn.
  by destruct (coordinateBarrier _ _ _ _ _ _) as [[[c' r'] t] [[]|e]].
Qed.

Lemma next_settle (c : Core G) id r : co_next (settle c id r).1 = co_next c.
Proof.
  unfold settle. destruct (r_NextLifecycle r ==. WarpInactive).
  - destruct (co_attached _); [|done]. by destruct (observeWarpFinished _ _) as [m [[]|e]].
  - destruct (r_Outcome r); try done. by case_match.
Qed.
End Cursor.

(** ** Round robin *)
Section RoundRobin.
Context `{SoftFloatLib} {G : Type}.

Definition is_runnable (c : Core G) (j : Z) : Prop := sl_lifecycle (slot_at c j) = SlotRunnable.

(** How many positions after the cursor a warp comes. *)
Definition distance (c : Core G) (j : Z) : Z := (j - co_next c) mod 4.

Lemma ids_in j : idx4 j <-> In j ids.
Proof. unfold idx4, ids; cbn. intuition lia. Qed.

Lemma select_runnable (c : Core G) id : selectRunnable c = Some id -> idx4 id /\ is_runnable c id.
Proof.
  intros Hs. apply List.find_some in Hs as [Hin Hr]. split; [|by apply bool_decide_eq_true in Hr].
  apply in_map_iff in Hin as (o & <- & _). apply idx4_range. apply Z.mod_pos_bound. reflexivity.
Qed.

Definition position (c : Core G) (o : Z) : Z := u8 (co_next c + o) mod FrozenWarpCount.

Lemma position_distance (c : Core G) o : 0 <= co_next c < 4 -> 0 <= o < 4 -> distance c (position c o) = o.
Proof.
  intros Hn Ho. unfold distance, position, FrozenWarpCount. rewrite u8_id by (unfold is_u8; lia).
  pose proof (Z.mod_pos_bound (co_next c + o) 4). rewrite Zminus_mod_idemp_l. rewrite Z.mod_small; lia.
Qed.

Lemma distance_position (c : Core G) j : 0 <= co_next c < 4 -> 0 <= j < 4 -> position c (distance c j) = j.
Proof.
  intros Hn Hj. unfold distance, position, FrozenWarpCount. pose proof (Z.mod_pos_bound (j - co_next c) 4).
  rewrite u8_id by (unfold is_u8; lia). rewrite Zplus_mod_idemp_r. rewrite Z.mod_small; lia.
Qed.

(** The selection takes the first runnable warp from the cursor on. *)
Lemma select_first (c : Core G) j : 0 <= co_next c < 4 -> idx4 j -> is_runnable c j ->
  exists id, selectRunnable c = Some id /\ distance c id <= distance c j.
Proof.
  intros Hn Hj Hr. apply idx4_range in Hj. set (d := distance c j). assert (0 <= d < 4) as Hd by (apply Z.mod_pos_bound; lia).
  assert ((sl_lifecycle (slot_at c (position c d)) ==. SlotRunnable) = true) as Hp
    by (unfold d; rewrite distance_position by lia; by apply bool_decide_eq_true_2).
  unfold selectRunnable. change (fun offset => u8 (co_next c + offset) mod FrozenWarpCount) with (position c).
  pose proof (position_distance c 0 Hn ltac:(lia)) as H0. pose proof (position_distance c 1 Hn ltac:(lia)) as H1.
  pose proof (position_distance c 2 Hn ltac:(lia)) as H2. pose proof (position_distance c 3 Hn ltac:(lia)) as H3.
  cbn [map List.find ids]. assert (d = 0 \/ d = 1 \/ d = 2 \/ d = 3) as Hcases by lia.
  destruct Hcases as [E|[E|[E|E]]]; rewrite E in *; repeat case_match; try congruence; eexists; (split; [done|lia]).
Qed.

(** Refreshing the functional waits only wakes. *)
Lemma refreshSlot_runnable context active (c : Core G) id j : idx4 id -> idx4 j -> is_runnable c j -> is_runnable (refreshSlot context active c id).1 j.
Proof.
  intros Hi Hj Hr. unfold refreshSlot.
  assert (is_runnable (update_slot id (schedule SlotRunnable BlockNone) c) j) as Hw.
  { unfold is_runnable, slot_at, update_slot, set_slots. cbn [co_slots]. destruct (Z.eq_dec id j) as [->|Hne].
    - by rewrite qget_qset_eq.
    - by rewrite qget_qset_ne. }
  by repeat case_match.
Qed.

Lemma refresh_runnable (c : Core G) context j : idx4 j -> is_runnable c j -> is_runnable (refreshFunctionalWaits c context).1 j.
Proof.
  intros Hj. assert (forall active ws (c0 : Core G), Forall idx4 ws -> is_runnable c0 j -> is_runnable (refreshSlots context active c0 ws).1 j) as Hloop.
  { intros active ws. induction ws as [|id ws IH]; intros c0 Hws Hr; cbn [refreshSlots]; [done|]. apply Forall_cons in Hws as [Hid Hws].
    pose proof (refreshSlot_runnable context active c0 id j Hid Hj Hr) as Hn.
    destruct (refreshSlot context active c0 id) as [c1 [[]|e]]; [by apply IH|done]. }
  intros Hr. unfold refreshFunctionalWaits. destruct (activeWarpMask c) as [active|e]; [|done].
  assert (Forall idx4 ids) as Hids by (apply List.Forall_forall; intros x; apply ids_in).
  pose proof (Hloop active ids c Hids Hr) as Hn. by destruct (refreshSlots context active c ids) as [c1 [[]|e]].
Qed.

(** A step that executes a warp moves the cursor past it. *)
Lemma stepWarp_next (c : Core G) id context :
  let out := stepWarp c id context in sr_Outcome out.1.2 = StepExecuted -> sr_WarpID out.1.2 = id /\ co_next out.1.1 = (id + 1) mod 4.
Proof.
  cbv zeta. unfold stepWarp. destruct (stepContext c id context) as [[[[context' active] before] view]|e]; [|done]. cbv zeta.
  destruct (execute _ id (qget before id) context') as [c1 r] eqn:Ee.
  assert (co_next c1 = (id + 1) mod 4) as H1.
  { unfold execute in Ee. destruct (Step _ _ _ _) as [[w' [m g]] r0]. by injection Ee as <- _. }
  pose proof (next_coordinate c1 id context' active before view (slot_at (set_next ((id + 1) mod FrozenWarpCount) c) id) r) as H2.
  destruct (coordinate _ _ _ _ _ _ _ _) as [[[c2 r2] t] [[]|e]]; cbn [fst snd] in *; [|split; [done|congruence]].
  pose proof (next_settle c2 id r2) as H3. destruct (settle c2 id r2) as [c3 [[]|e]]; cbn [fst snd] in *; [|split; [done|congruence]].
  destruct (validateSlot c3 id) as [[]|e]; [|done]. split; [done|]. cbn [fst]. congruence.
Qed.

Lemma cursor_distance n j id : 0 <= n < 4 -> 0 <= j < 4 -> 0 <= id < 4 -> id <> j -> (id - n) mod 4 <= (j - n) mod 4 ->
  (j - (id + 1) mod 4) mod 4 < (j - n) mod 4.
Proof. intros. Z.div_mod_to_equations. lia. Qed.

Lemma step_progress (c : Core G) context j :
  0 <= co_next c < 4 -> idx4 j -> is_runnable c j ->
  let out := Core_Step c context in
  sr_Outcome out.1.2 = StepExecuted -> 0 <= co_next out.1.1 < 4 /\ (sr_WarpID out.1.2 = j \/ distance out.1.1 j < distance c j).
Proof.
  intros Hn Hj Hr. cbv zeta. unfold Core_Step. destruct (validate c) as [[]|e]; [|done].
  pose proof (next_refresh c context) as H1. pose proof (refresh_runnable c context j Hj Hr) as H2.
  destruct (refreshFunctionalWaits c context) as [c1 [[]|e]]; [|done]. cbn [fst] in H1, H2.
  destruct (select_first c1 j) as (id & Es & Hd); [by rewrite H1|done..|]. rewrite Es. destruct (select_runnable c1 id Es) as [Hi _]. intros Ho.
  destruct (stepWarp_next c1 id context Ho) as [Hid Hnext]. rewrite Hid, Hnext. split; [by apply Z.mod_pos_bound|].
  destruct (Z.eq_dec id j) as [|Hne]; [by left|right]. unfold distance in *. rewrite Hnext, <- H1.
  apply idx4_range in Hj, Hi. apply cursor_distance; lia.
Qed.

(** The steps of the core under a list of contexts, each with the core it started from. *)
Fixpoint core_steps (c : Core G) (contexts : list ReadContext) : list (Core G * StepResult) :=
  match contexts with
  | [] => []
  | context :: rest => let out := Core_Step c context in (c, out.1.2) :: core_steps out.1.1 rest
  end.

Lemma steps_select contexts (c : Core G) j :
  0 <= co_next c < 4 -> idx4 j -> distance c j < Z.of_nat (length contexts) ->
  Forall (fun s => is_runnable s.1 j /\ sr_Outcome s.2 = StepExecuted) (core_steps c contexts) ->
  Exists (fun s => sr_WarpID s.2 = j) (core_steps c contexts).
Proof.
  revert c. induction contexts as [|context rest IH]; intros c Hn Hj Hd Hall; cbn [core_steps length] in *.
  - pose proof (Z.mod_pos_bound (j - co_next c) 4). unfold distance in Hd. lia.
  - apply Forall_cons in Hall as [[Hr Ho] Hall]. destruct (step_progress c context j Hn Hj Hr Ho) as [Hn' [Hid|Hlt]]; [by left|].
    right. apply IH; [done|done|lia|done].
Qed.
End RoundRobin.

(** The scheduler is fair.  Among four successive steps that each execute a warp,
    a warp that is runnable before every one of them is executed by one of them,
    whatever the other warps do and whatever the instructions are. *)
Theorem round_robin `{SoftFloatLib} {G : Type} (c : Core G) (j : Z) (contexts : list ReadContext) :
  0 <= co_next c < 4 -> idx4 j -> length contexts = 4%nat ->
  Forall (fun s => is_runnable s.1 j /\ sr_Outcome s.2 = StepExecuted) (core_steps c contexts) ->
  Exists (fun s => sr_WarpID s.2 = j) (core_steps c contexts).
Proof.
  intros Hn Hj Hlen Hall. apply steps_select; [done..| |done]. rewrite Hlen.
  pose proof (Z.mod_pos_bound (j - co_next c) 4). unfold distance. lia.
Qed.

(** ** Bounded runs *)
Section CoreRun.
Context `{SoftFloatLib} {G : Type} (context : Z -> ReadContext).

Definition retires (step : StepResult) : Prop :=
  sr_Outcome step = StepExecuted /\ exists r, sr_WarpResult step = Some r /\ r_Outcome r = OutcomeRetired.

(** One attempt after which the run goes on: an instruction retired and the core is not
    complete. *)
Definition goes_on (k : Z) (c : Core G) (step : StepResult) (c' : Core G) : Prop :=
  Core_Step c (context k) = (c', step, Ok tt) /\ retires step /\ Complete c' = Ok false.

Inductive core_retiring : Z -> Core G -> nat -> list CoreTraceRecord -> Core G -> Prop :=
| core_here k c : core_retiring k c 0 [] c
| core_more k c step c' n trace c'' :
    goes_on k c step c' -> core_retiring (k + 1) c' n trace c'' -> core_retiring k c (S n) (mkCoreTraceRecord k step :: trace) c''.

(** Why a run ends after an attempt: the outcome, the typed error, and how many
    instructions the attempt retired. *)
Inductive stops (c' : Core G) (step : StepResult) : result unit -> CoreRunOutcome -> option CoreRunError -> Z -> Prop :=
| stop_error e : stops c' step (Err e) CoreRunFault (Some (CoreError e)) 0
| stop_idle_error e : sr_Outcome step = StepIdle -> Complete c' = Err e -> stops c' step (Ok tt) CoreRunFault (Some (CoreError e)) 0
| stop_idle_complete : sr_Outcome step = StepIdle -> Complete c' = Ok true -> stops c' step (Ok tt) RunComplete None 0
| stop_blocked : sr_Outcome step = StepIdle -> Complete c' = Ok false -> stops c' step (Ok tt) RunBlocked (Some NoRunnableError) 0
| stop_complete : retires step -> Complete c' = Ok true -> stops c' step (Ok tt) RunComplete None 1
| stop_complete_error e : retires step -> Complete c' = Err e -> stops c' step (Ok tt) CoreRunFault (Some (CoreError e)) 1
| stop_deferred r : sr_Outcome step = StepExecuted -> sr_WarpResult step = Some r -> r_Outcome r = OutcomeDeferred ->
    stops c' step (Ok tt) CoreRunDeferred (Some (DeferredError (sr_WarpID step) (sr_BlockReason step))) 0
| stop_trap r : sr_Outcome step = StepExecuted -> sr_WarpResult step = Some r -> r_Outcome r = OutcomeTrap ->
    stops c' step (Ok tt) CoreRunTrap (Some (WarpFault (r_Fault r))) 0
| stop_fault r : sr_Outcome step = StepExecuted -> sr_WarpResult step = Some r -> r_Outcome r = OutcomeFault ->
    stops c' step (Ok tt) CoreRunFault (Some (WarpFault (r_Fault r))) 0
| stop_unexpected : sr_Outcome step = StepExecuted ->
    (sr_WarpResult step = None \/ exists r, sr_WarpResult step = Some r /\ r_Outcome r = OutcomeFinished) ->
    stops c' step (Ok tt) CoreRunFault (Some (CoreError (Errorf "core: selected warp returned unexpected outcome"))) 0.

(** The record and the attempt count of the last attempt. *)
Definition recorded (k : Z) (step : StepResult) : list CoreTraceRecord :=
  match sr_Outcome step with StepExecuted => [mkCoreTraceRecord k step] | StepIdle => [] end.

Definition last_step (step : StepResult) (steps : list CoreTraceRecord) (last : option StepResult) : option StepResult :=
  match sr_Outcome step with
  | StepExecuted => Some step
  | StepIdle => match List.rev steps with [] => last | t :: _ => Some (ctr_Step t) end
  end.

Definition core_run_ends (budget : Z) (turns : nat) (k retired : Z) (c : Core G) (last : option StepResult) (trace : list CoreTraceRecord)
    (out : Core G * CoreRunResult * list CoreTraceRecord) : Prop :=
  exists n mid steps, core_retiring k c n steps mid /\
  ((n = turns /\ out = (mid, run_result mid CoreRunBudgetExceeded (k + Z.of_nat n) (retired + Z.of_nat n)
      (match List.rev steps with [] => last | t :: _ => Some (ctr_Step t) end) (Some (CoreBudgetExceededError budget)), trace ++ steps)) \/
   ((n < turns)%nat /\ exists c' step err outcome e extra,
    Core_Step mid (context (k + Z.of_nat n)) = (c', step, err) /\ stops c' step err outcome e extra /\
    let more := recorded (k + Z.of_nat n) step in
    out = (c', run_result c' outcome (k + Z.of_nat n + Z.of_nat (length more)) (retired + Z.of_nat n + extra) (last_step step steps last) e,
           trace ++ steps ++ more))).

Lemma core_run_stop budget turns k retired c last trace c' step err outcome e extra :
  Core_Step c (context k) = (c', step, err) -> stops c' step err outcome e extra ->
  core_run_ends budget (S turns) k retired c last trace
    (c', run_result c' outcome (k + Z.of_nat (length (recorded k step))) (retired + extra) (last_step step [] last) e, trace ++ recorded k step).
Proof.
  intros Hs Hstop. exists 0%nat, c, []. split; [constructor|]. right. split; [lia|]. exists c', step, err, outcome, e, extra.
  cbn [Z.of_nat]. rewrite !Z.add_0_r. done.
Qed.

Lemma core_run_more budget turns k retired c last trace c' step out :
  goes_on k c step c' ->
  core_run_ends budget turns (k + 1) (retired + 1) c' (Some step) (trace ++ [mkCoreTraceRecord k step]) out ->
  core_run_ends budget (S turns) k retired c last trace out.
Proof.
  intros Hgo (n & mid & steps & Hm & Hout). exists (S n), mid, (mkCoreTraceRecord k step :: steps). split; [by econstructor|].
  replace (k + Z.of_nat (S n)) with (k + 1 + Z.of_nat n) by lia. replace (retired + Z.of_nat (S n)) with (retired + 1 + Z.of_nat n) by lia.
  assert (forall l0, match List.rev (mkCoreTraceRecord k step :: steps) with [] => l0 | t :: _ => Some (ctr_Step t) end =
    match List.rev steps with [] => Some step | t :: _ => Some (ctr_Step t) end) as Hlast by (intros; cbn [List.rev]; by destruct (List.rev steps)).
  destruct Hout as [[-> ->]|(Hlt & c2 & s2 & err & o & e & x & Hs & Hstop & ->)]; [left|right].
  - split; [done|]. by rewrite <- app_assoc, Hlast.
  - split; [lia|]. exists c2, s2, err, o, e, x. split_and!; [done|done|]. cbv zeta. unfold last_step. by rewrite <- app_assoc, Hlast.
Qed.

Lemma coreRunLoop_ends budget turns c k retired last trace :
  core_run_ends budget turns k retired c last trace (coreRunLoop budget turns context c k retired last trace).
Proof.
  revert c k retired last trace. induction turns as [|turns IH]; intros c k retired last trace; cbn [coreRunLoop].
  { exists 0%nat, c, []. split; [constructor|]. left. split; [done|]. cbn. by rewrite !Z.add_0_r, app_nil_r. }
  destruct (Core_Step c (context k)) as [[c' step] err] eqn:Es.
  assert (forall o e x out, stops c' step err o e x ->
    out = (c', run_result c' o (k + Z.of_nat (length (recorded k step))) (retired + x) (last_step step [] last) e, trace ++ recorded k step) ->
    core_run_ends budget (S turns) k retired c last trace out) as Hstop by (intros o e x out Hst ->; by eapply core_run_stop).
  cbv zeta in *. unfold recorded, last_step in Hstop. destruct (sr_Outcome step) eqn:Eo; cbn [length List.rev Z.of_nat app] in Hstop.
  - rewrite Z.add_0_r, app_nil_r in Hstop. destruct err as [[]|e].
    + destruct (Complete c') as [[]|e] eqn:Ec; (eapply Hstop; [by constructor|by rewrite Z.add_0_r]).
    + eapply Hstop; [constructor|by rewrite Z.add_0_r].
  - destruct err as [[]|e]; [|eapply Hstop; [constructor|by rewrite Z.add_0_r]].
    destruct (sr_WarpResult step) as [r|] eqn:Er; [|eapply Hstop; [apply stop_unexpected; auto|by rewrite Z.add_0_r]].
    assert (r_Outcome r = OutcomeRetired -> retires step) as Hret by (intros Hr; split; eauto).
    destruct (r_Outcome r) eqn:Eout.
    + destruct (Complete c') as [[]|e] eqn:Ec.
      * eapply Hstop; [apply stop_complete; auto|done].
      * eapply core_run_more; [split; [done|split; [by auto|done]]|]. apply IH.
      * eapply Hstop; [eapply stop_complete_error; eauto|done].
    + eapply Hstop; [eapply stop_trap; eauto|by rewrite Z.add_0_r].
    + eapply Hstop; [eapply stop_fault; eauto|by rewrite Z.add_0_r].
    + eapply Hstop; [eapply stop_deferred; eauto|by rewrite Z.add_0_r].
    + eapply Hstop; [eapply stop_unexpected; eauto|by rewrite Z.add_0_r].
Qed.

Lemma retiring_length k c n steps mid : core_retiring k c n steps mid -> length steps = n.
Proof. induction 1 as [|k c step c' n trace c'' _ _ IH]; [done|]. cbn [length]. by rewrite IH. Qed.
End CoreRun.

(** A run of the core terminates within its budget and is iterated [Core_Step].
    It takes the retiring steps one by one, each recorded with its number; it stops at
    the first attempt that does not retire an instruction or completes the core, with
    the outcome and the error that attempt determines, and otherwise exhausts the
    budget, every attempt having retired, with the typed budget error. *)
Theorem Core_Run_refines `{SoftFloatLib} {G : Type} budget context (c : Core G) :
  0 <= budget -> Complete c = Ok false ->
  exists n mid steps, core_retiring context 0 c n steps mid /\ length steps = n /\
  let '(c', result, trace) := Core_Run budget context c in
  ((Z.of_nat n = budget /\ c' = mid /\ trace = steps /\ crr_Outcome result = CoreRunBudgetExceeded /\
    crr_Attempts result = budget /\ crr_Retired result = budget /\ crr_Err result = Some (CoreBudgetExceededError budget)) \/
   (Z.of_nat n < budget /\ exists step err extra, Core_Step mid (context (Z.of_nat n)) = (c', step, err) /\
    stops c' step err (crr_Outcome result) (crr_Err result) extra /\ trace = steps ++ recorded (Z.of_nat n) step /\
    crr_Attempts result = Z.of_nat (length trace) /\ crr_Retired result = Z.of_nat n + extra)).
Proof.
  intros Hb Hc. destruct (coreRunLoop_ends context budget (Z.to_nat budget) c 0 0 None []) as (n & mid & steps & Hm & Hout).
  exists n, mid, steps. split; [done|]. pose proof (retiring_length _ _ _ _ _ _ Hm) as Hlen. split; [done|].
  unfold Core_Run. rewrite Hc. destruct Hout as [[-> ->]|(Hlt & c' & step & err & o & e & x & Hs & Hstop & ->)]; [left|right].
  - rewrite Z2Nat.id by done. done.
  - split; [lia|]. exists step, err, x. split_and!; [done..| |done]. cbn [app crr_Attempts run_result]. rewrite length_app, Hlen. lia.
Qed.

(** ** A concrete core

    Four warps on one image of two no-ops and a word that does not decode; warps 1 and
    2 run. *)

Definition image_core_source : InstructionSource (CTAManager * Memory) := mkInstructionSource (fun s a n => Memory_Read s.2 a n) None.

Definition resting (id : Z) (mask : Z) : WarpState :=
  let w := set_mask mask (if mask =? 0 then WarpInactive else WarpRunning) example_start in
  mkWarpState id (w_pc w) (w_activeMask w) (w_lifecycle w) (w_savedThreadMask w) (w_fcsr w) (w_trapCSRs w) (w_divergence w) (w_lanes w).

Definition four_owners : owners := <[0 := resting 0 0]> (<[1 := resting 1 15]> (<[2 := resting 2 3]> (<[3 := resting 3 0]> ∅))).

Definition no_op_image : Memory := mkMemory (PutUint 4 0x00000013 ++ PutUint 4 0x00000013 ++ PutUint 4 0).

Definition example_executors : list (option (Executor Memory)) :=
  map (fun id => Some (mkExecutor id image_core_source (OtherMemory (mkDataService (fun s a n => Memory_Read s.2 a n)
    (fun s a l => let '(m, r) := Memory_Write s.2 a l in ((s.1, m), r)) None None)))) [3; 1; 0; 2].

Definition example_core : Core Memory :=
  match Core_New four_owners NewCTAManager no_op_image example_executors with
  | Ok c => c
  | Err _ => mkCore (qfill (mkSlot 0 (mkExecutor 0 image_core_source NoMemory) SlotInactive BlockNone false no_key false false))
               0 None false (qfill false) four_owners NewCTAManager no_op_image
  end.

Example round_robin_witness :
  Exists (fun s => sr_WarpID s.2 = 2) (core_steps example_core (repeat example_context 4)).
Proof.
  apply (round_robin example_core 2 (repeat example_context 4)); [by vm_compute|by right; right; left|done|].
  cbn [core_steps repeat]. repeat (constructor; [by split; vm_compute|]). constructor.
Defined.

Example Core_Run_refines_witness :
  exists n mid steps, core_retiring (fun _ => example_context) 0 example_core n steps mid /\ n = 4%nat.
Proof.
  destruct (Core_Run_refines 10 (fun _ => example_context) example_core) as (n & mid & steps & Hm & Hlen & H); [done|by vm_compute|].
  exists n, mid, steps. split; [done|].
  destruct (Core_Run 10 (fun _ => example_context) example_core) as [[c' result] trace] eqn:E.
  assert (crr_Retired result = 4) as Hr by (replace result with (Core_Run 10 (fun _ => example_context) example_core).1.2 by (by rewrite E); vm_compute; reflexivity).
  assert (length trace = 5%nat) as Ht by (replace trace with (Core_Run 10 (fun _ => example_context) example_core).2 by (by rewrite E); vm_compute; reflexivity).
  destruct H as [(_ & _ & _ & _ & _ & Hx & _)|(_ & step & err & extra & _ & Hs & -> & _ & Hx)]; [rewrite Hr in Hx; discriminate Hx|].
  rewrite length_app, Hlen in Ht. assert (length (recorded (Z.of_nat n) step) <= 1)%nat by (unfold recorded; destruct (sr_Outcome step); cbn; lia).
  assert (0 <= extra) by (by inversion Hs). lia.
Defined.
