(* ===== verification/Admission.v ===== *)
(** * Dynamic admission and reclaim of the core as transactions

    [AdmitCTACluster] touches three owners (the CTA table, the warp states and the
    scheduler slots) and [ReclaimCTA] two.  Either everything happens or nothing does. *)

From S2P Require Import Prelude IsaTypes Catalog Decode Integer System Custom Softfloat Float Memory WarpState Apply ApplyInvariant View EvaluateTyped WarpExec WarpCorrect.
From S2P Require Import Cta CtaInvariant CtaTyped Barrier Launch LaunchSpec Core.

#[local] Open Scope Z_scope.
#[local] Open Scope go_scope.

(** ** Selection and staging *)

Section Selection.
Context {G : Type}.
Implicit Type c : Core G.

Lemma ids_idx4 j : j ∈ ids <-> idx4 j.
Proof. unfold ids, idx4. rewrite !elem_of_cons, elem_of_nil. intuition. Qed.

Lemma pickWarps_idx c taken required : Forall idx4 (pickWarps c taken required).1.
Proof.
  assert (forall ws acc, Forall idx4 ws -> Forall idx4 acc.1 ->
    Forall idx4 (fold_left (fun acc id => if (Z.of_nat (length acc.1) <? required) && negb (WarpMask_Active acc.2 id) &&
      (sl_lifecycle (slot_at c id) ==. SlotInactive) && negb (sl_participated (slot_at c id)) then (acc.1 ++ [id], acc.2 .| u8 (1 << id)) else acc) ws acc).1) as H.
  { intros ws. induction ws as [|w ws IH]; intros acc Hws Ha; cbn [fold_left]; [done|]. apply Forall_cons in Hws as [Hw Hws]. apply IH; [done|].
    case_match; [|done]. cbn [fst]. apply Forall_app. by split; [|constructor]. }
  apply H; [|constructor]. apply Forall_forall. intros j. apply ids_idx4.
Qed.

Lemma selectCluster_idx c configs ws : selectCluster c configs = Ok ws -> Forall (Forall idx4) ws.
Proof.
  unfold selectCluster. destruct configs as [|first rest]; [done|]. intros H. do 2 pass_check. apply result_bind_ok in H as (product & _ & H). pass_check.
  apply result_bind_ok in H as (acc & Hacc & <-%Ok_inj).
  refine (foldM_inv _ (fun acc => Forall (Forall idx4) acc.1) _ _ _ _ _ Hacc); [constructor|].
  intros s [rank config] s' _ Hs Hstep. unfold clusterMember in Hstep. do 3 pass_check. apply result_bind_ok in Hstep as (? & _ & Hstep). pass_check.
  pose proof (pickWarps_idx c s.2 (required_warps config)) as Hp. destruct (pickWarps c s.2 (required_warps config)) as [warps selected]. pass_check.
  apply Ok_inj in Hstep as <-. cbn [fst] in *. apply Forall_app. by split; [|constructor].
Qed.
End Selection.

(** The staged CTA of one entry (its configuration, its warps and its slot id). *)
Definition staged_from (entry : CTAConfig * list Z * Z) (c : ctaState) : Prop :=
  exists c0 a o, validateCTAConfig (with_slot entry.2 entry.1.2 entry.1.1) = Ok c0 /\ c = place a o c0.

Lemma stageCandidate_from m entries acc acc' :
  foldM (stageCandidate m) acc entries = Ok acc' -> exists cs, acc'.1.1 = acc.1.1 ++ cs /\ Forall2 staged_from entries cs.
Proof.
  revert acc. induction entries as [|entry entries IH]; intros acc H; cbn [foldM] in H.
  { apply Ok_inj in H as <-. exists []. by rewrite app_nil_r. }
  apply result_bind_ok in H as (mid & Hmid & H). apply IH in H as (cs & Hcs & Hf). destruct acc as [[candidates staged] intervals], entry as [[config ws] id].
  unfold stageCandidate in Hmid. apply result_bind_ok in Hmid as (c & Hc & Hmid). apply result_bind_ok in Hmid as (st & _ & Hmid).
  destruct (allocateFromIntervals _ _) as [[a o]|]; [|done]. apply Ok_inj in Hmid as <-. cbn [fst] in *. exists (place a o c :: cs).
  rewrite Hcs, <- app_assoc. split; [done|]. constructor; [|done]. by exists c, a, o.
Qed.

Lemma staged_entries m configs warpIDs s : stageDynamicAdmissions m configs warpIDs = Ok s ->
  Forall2 staged_from (zip (zip configs warpIDs) (freeCTAIDs m)) (as_candidates s) /\ length warpIDs = length configs /\
  length (as_candidates s) = length configs.
Proof.
  intros H. unfold stageDynamicAdmissions in H. destruct (Nat.eqb_spec (length configs) (length warpIDs)) as [El|]; [|by rewrite orb_true_r in H].
  do 2 pass_check. destruct (Nat.ltb_spec (length (freeCTAIDs m)) (length configs)); [done|]. cbn [negb] in H.
  apply result_bind_ok in H as (acc & Hacc & <-%Ok_inj). apply stageCandidate_from in Hacc as (cs & E & Hf). cbn in E. cbn [as_candidates]. rewrite E.
  split; [done|]. split; [done|]. rewrite <- (Forall2_length _ _ _ Hf), !length_zip. lia.
Qed.

Lemma staged_members m configs warpIDs s : stageDynamicAdmissions m configs warpIDs = Ok s -> Forall (Forall idx4) warpIDs ->
  Forall (fun c => Forall (fun mem => idx4 (wmb_WarpID mem)) (ct_members c)) (as_candidates s).
Proof.
  intros (Hf & _ & _)%staged_entries Hw. apply Forall_forall. intros c (i & Hc)%list_elem_of_lookup.
  destruct (Forall2_lookup_r _ _ _ _ _ Hf Hc) as ([[config ws] id] & He & c0 & a & o & Hv & ->). apply list_elem_of_lookup_2 in He.
  apply elem_of_zip_l, elem_of_zip_r in He. rewrite Forall_forall in Hw. pose proof (Hw ws He) as Hws. apply validate_inv, va_warps in Hv.
  cbn [fst snd] in Hv. change (cc_WarpIDs _) with ws in Hv. rewrite <- Hv in Hws. cbn [place ct_members]. by apply (proj1 (List.Forall_map wmb_WarpID idx4 (ct_members c0))) in Hws.
Qed.

(** ** Starting the admitted warps *)

Section Start.
Context {G : Type}.
Implicit Type c : Core G.

Definition started (s : slot G) : slot G := set_participated true (schedule SlotRunnable BlockNone s).

Lemma slot_at_update c id f j : idx4 id -> idx4 j -> slot_at (update_slot id f c) j = if j =? id then f (slot_at c id) else slot_at c j.
Proof.
  intros Hi Hj. unfold slot_at, update_slot, set_slots. cbn [co_slots]. destruct (Z.eqb_spec j id) as [->|Hne]; [by rewrite qget_qset_eq|].
  rewrite qget_qset_ne by (by try apply not_eq_sym). done.
Qed.

Lemma started_twice s : started (started s) = started s.
Proof. done. Qed.

(** What starting a list of members changes. *)
Lemma start_members members c : Forall (fun mem => idx4 (wmb_WarpID mem)) members ->
  let c' := fold_left start_member members c in
  (forall j, idx4 j -> slot_at c' j = if bool_decide (j ∈ map wmb_WarpID members) then started (slot_at c j) else slot_at c j) /\
  (forall j, idx4 j -> qget (co_initialized c') j = bool_decide (j ∈ map wmb_WarpID members) || qget (co_initialized c) j) /\
  co_next c' = co_next c /\ co_pendingWork c' = co_pendingWork c /\ co_attached c' = co_attached c /\
  co_owners c' = co_owners c /\ co_ctas c' = co_ctas c /\ co_global c' = co_global c.
Proof.
  cbv zeta. revert c. induction members as [|mem members IH]; intros c Hm; cbn [fold_left map]; [done|].
  apply Forall_cons in Hm as [Hi Hm]. destruct (IH (start_member c mem) Hm) as (Hs & Hn & -> & -> & -> & -> & -> & ->). split_and!; [..|done]; try done.
  - intros j Hj. rewrite (Hs j Hj). change (slot_at (start_member c mem) j) with (slot_at (update_slot (wmb_WarpID mem) started c) j).
    rewrite slot_at_update by done. rewrite (bool_decide_ext (j ∈ wmb_WarpID mem :: _) (j = wmb_WarpID mem \/ j ∈ map wmb_WarpID members)) by apply elem_of_cons.
    rewrite bool_decide_or. destruct (Z.eqb_spec j (wmb_WarpID mem)) as [->|Hne].
    + rewrite (bool_decide_eq_true_2 (wmb_WarpID mem = wmb_WarpID mem)) by done. cbn [orb]. by case_bool_decide.
    + by rewrite (bool_decide_eq_false_2 (j = _)) by done.
  - intros j Hj. rewrite (Hn j Hj). cbn [start_member set_initialized co_initialized update_slot set_slots].
    rewrite (bool_decide_ext (j ∈ wmb_WarpID mem :: _) (j = wmb_WarpID mem \/ j ∈ map wmb_WarpID members)) by apply elem_of_cons. rewrite bool_decide_or.
    destruct (Z.eq_dec j (wmb_WarpID mem)) as [->|Hne].
    + rewrite qget_qset_eq by done. rewrite (bool_decide_eq_true_2 (wmb_WarpID mem = wmb_WarpID mem)) by done. by rewrite orb_true_r.
    + rewrite qget_qset_ne by (by try apply not_eq_sym). by rewrite (bool_decide_eq_false_2 (j = _)) by done.
Qed.
End Start.

(** ** Admission *)

Section Transactions.
Context {G : Type}.
Implicit Type c : Core G.

Definition belongs (candidates : list ctaState) (config : CTAConfig) (mem : WarpMembership) : Prop :=
  exists candidate, candidate ∈ candidates /\ mem ∈ ct_members candidate /\ ct_config candidate = config.

(** What a successful admission of some CTAs does to the core. *)
Record admitted c (candidates : list ctaState) (c' : Core G) : Prop := {
  ad_slot : forall config mem, belongs candidates config mem ->
    let id := wmb_WarpID mem in
    idx4 id /\ slot_unused (slot_at c id) = true /\ slot_at c' id = started (slot_at c id) /\ qget (co_initialized c') id = true;
  ad_owner : forall config mem, belongs candidates config mem ->
    let id := wmb_WarpID mem in
    wmb_ActiveMask mem <> 0 /\
    exists w, co_owners c !! sl_owner (slot_at c id) = Some w /\ w_id w = id /\ w_lifecycle w = WarpInactive /\
      co_owners c' !! sl_owner (slot_at c id) =
        Some (activated (if qget (co_initialized c) id then u32 (w_pc w - FrozenCTAReentryBytes) else cc_StartupPC config)
                (wmb_ActiveMask mem) (cc_ParameterAddress config) w);
  ad_other_slots : forall j, idx4 j -> (forall config mem, belongs candidates config mem -> wmb_WarpID mem <> j) ->
    slot_at c' j = slot_at c j /\ qget (co_initialized c') j = qget (co_initialized c) j;
  ad_other_owners : forall p, (forall config mem, belongs candidates config mem -> sl_owner (slot_at c (wmb_WarpID mem)) <> p) ->
    co_owners c' !! p = co_owners c !! p;
  ad_launched : exists zs, launchable (co_owners c) (launch_targets c candidates) zs /\ co_owners c' = installed (map fst zs) (co_owners c);
  ad_manager : co_ctas c' = bump_epoch (fold_left (fun m candidate => install candidate m) candidates (co_ctas c));
  ad_rest : co_next c' = co_next c /\ co_pendingWork c' = co_pendingWork c /\ co_attached c' = co_attached c /\ co_global c' = co_global c
}.

Definition cta_target c (candidate : ctaState) (mem : WarpMembership) : WarpLaunchTarget :=
  mkWarpLaunchTarget (wmb_WarpID mem) (Some (sl_owner (slot_at c (wmb_WarpID mem)))) (cc_StartupPC (ct_config candidate))
    (wmb_ActiveMask mem) (cc_ParameterAddress (ct_config candidate)) (negb (qget (co_initialized c) (wmb_WarpID mem))).

Lemma launch_targets_elem c candidates t :
  t ∈ launch_targets c candidates <-> exists candidate mem, candidate ∈ candidates /\ mem ∈ ct_members candidate /\ t = cta_target c candidate mem.
Proof.
  unfold launch_targets. rewrite list_elem_of_In, in_flat_map. split.
  - intros (candidate & Hc & (mem & <- & Hm)%in_map_iff). exists candidate, mem. by rewrite !list_elem_of_In.
  - intros (candidate & mem & Hc & Hm & ->). rewrite list_elem_of_In in Hc. rewrite list_elem_of_In in Hm. exists candidate. split; [done|]. by apply (in_map (cta_target c candidate)).
Qed.

Lemma members_elem candidates j : j ∈ map wmb_WarpID (flat_map ct_members candidates) <-> exists config mem, belongs candidates config mem /\ wmb_WarpID mem = j.
Proof.
  rewrite list_elem_of_In, in_map_iff. split.
  - intros (mem & <- & (candidate & Hc & Hm)%in_flat_map). exists (ct_config candidate), mem. split; [|done]. exists candidate. by rewrite !list_elem_of_In.
  - intros (config & mem & (candidate & Hc & Hm & _) & <-). exists mem. split; [done|]. apply in_flat_map. exists candidate. by rewrite <- !list_elem_of_In.
Qed.

Lemma launch_external_ok c candidates stage h h' : launch_external c candidates stage h = (h', Ok tt) ->
  (forall config mem, belongs candidates config mem -> slot_unused (slot_at c (wmb_WarpID mem)) = true) /\
  exists s', Launch_Commit h stage = (h', s', Ok tt).
Proof.
  unfold launch_external. destruct (forallb _ _) eqn:Hf; [|done]. destruct (Launch_Commit h stage) as [[h1 s'] r]. intros [= -> ->]. split; [|by eexists].
  intros config mem (candidate & Hc & Hm & _). pose proof (forallb_elem _ _ Hf candidate Hc) as Hi. by apply (forallb_elem _ _ Hi mem Hm).
Qed.

Lemma launch_external_err c candidates stage h h' e : launch_external c candidates stage h = (h', Err e) -> h' = h.
Proof.
  unfold launch_external. destruct (forallb _ _); [|by intros [= <-]]. unfold Launch_Commit. repeat case_match; intros; by simplify_eq.
Qed.

Lemma admission_started c candidates launch h' : Forall (fun candidate => Forall (fun mem => idx4 (wmb_WarpID mem)) (ct_members candidate)) candidates ->
  StageWarpLaunch (co_owners c) (launch_targets c candidates) = Ok launch ->
  launch_external c candidates launch (co_owners c) = (h', Ok tt) ->
  admitted c candidates (fold_left start_member (flat_map ct_members candidates)
    (set_owners h' (set_manager (bump_epoch (fold_left (fun m candidate => install candidate m) candidates (co_ctas c))) c))).
Proof.
  intros Hidx (zs & Hl & ->)%StageWarpLaunch_ok (Hunused & s' & Hcommit)%launch_external_ok.
  assert (h' = installed (map fst zs) (co_owners c)) as ->.
  { unfold Launch_Commit in Hcommit. cbn [ls_targets ls_committed] in Hcommit. repeat case_match; by simplify_eq. }
  destruct (launch_installed _ _ _ Hl) as [Hin Hout].
  assert (forall config mem, belongs candidates config mem -> idx4 (wmb_WarpID mem)) as Hid.
  { intros config mem (candidate & Hc & Hm & _). rewrite Forall_forall in Hidx. pose proof (Hidx _ Hc) as Hf. rewrite Forall_forall in Hf. by apply Hf. }
  assert (Forall (fun mem => idx4 (wmb_WarpID mem)) (flat_map ct_members candidates)) as Hall.
  { apply Forall_forall. intros mem (candidate & Hc & Hm)%list_elem_of_In%in_flat_map. apply (Hid (ct_config candidate)). exists candidate. by rewrite !list_elem_of_In. }
  destruct (start_members _ (set_owners (installed (map fst zs) (co_owners c)) (set_manager (bump_epoch
    (fold_left (fun m candidate => install candidate m) candidates (co_ctas c))) c)) Hall) as (Hslot & Hinit & Hrest).
  assert (forall config mem, belongs candidates config mem -> bool_decide (wmb_WarpID mem ∈ map wmb_WarpID (flat_map ct_members candidates)) = true) as Hb
    by (intros config mem Hm; apply bool_decide_eq_true_2, members_elem; eauto).
  destruct Hrest as (E1 & E2 & E3 & E4 & E5 & E6). split; try done.
  - intros config mem Hm id. pose proof (Hid _ _ Hm) as Hi. split_and!; [done|by eapply Hunused| |].
    + rewrite (Hslot id Hi). unfold id. by rewrite (Hb _ _ Hm).
    + rewrite (Hinit id Hi). unfold id. by rewrite (Hb _ _ Hm).
  - intros config mem (candidate & Hc & Hm & <-) id. subst id. destruct (Hin (cta_target c candidate mem)) as (p & w & Hp & Hw & Ha);
      [apply launch_targets_elem; eauto|]. cbn in Hp. injection Hp as <-.
    assert (w_id w = wmb_WarpID mem /\ w_lifecycle w = WarpInactive /\ wmb_ActiveMask mem <> 0) as (Ewid & Ewl & Hmask).
    { destruct Hl as (_ & Hz & _ & _). assert (cta_target c candidate mem ∈ launch_targets c candidates) as (i & Ht)%list_elem_of_lookup by (apply launch_targets_elem; eauto).
      destruct (Forall2_lookup_l _ _ _ _ _ Hz Ht) as (z & _ & [Ho Hb0 Hi0 _ _ _ Hnz Hin0 _ _ _]). injection Ho as Ho. rewrite <- Ho in Hb0.
      cbn [cta_target lt_WarpID] in Hi0. rewrite Hw in Hb0. injection Hb0 as ->. done. }
    split; [done|]. exists w. rewrite E4. cbn [set_owners co_owners]. split_and!; [done..|]. rewrite Ha. cbn [cta_target launch_pc lt_FirstUse lt_StartupPC lt_ActiveMask lt_ParameterAddress]. unfold launch_pc.
    cbn [cta_target lt_FirstUse lt_StartupPC]. by destruct (qget (co_initialized c) (wmb_WarpID mem)).
  - intros j Hj Hn. assert (bool_decide (j ∈ map wmb_WarpID (flat_map ct_members candidates)) = false) as Hbj
      by (apply bool_decide_eq_false_2; intros (config & mem & Hm & E)%members_elem; by apply (Hn _ _ Hm)).
    by rewrite (Hslot j Hj), (Hinit j Hj), Hbj.
  - intros p Hp. rewrite E4. cbn [set_owners co_owners]. apply Hout. intros t (candidate & mem & Hc & Hm & ->)%launch_targets_elem [= E].
    apply (Hp (ct_config candidate) mem); [by exists candidate|done].
  - by exists zs.
Qed.

(** ** Reclaim *)

(** The slot a reclaimed warp leaves behind. *)
Definition retired (s : slot G) : slot G := set_participated false (schedule SlotInactive BlockNone s).

Lemma retire_members members (slots : quad (slot G)) j : Forall (fun mem => idx4 (wmb_WarpID mem)) members -> idx4 j ->
  qget (fold_left retire_member members slots) j = if bool_decide (j ∈ map wmb_WarpID members) then retired (qget slots j) else qget slots j.
Proof.
  intros Hm Hj. revert slots. induction Hm as [|mem members Hi Hm IH]; intros slots; cbn [fold_left map]; [done|]. rewrite IH.
  rewrite (bool_decide_ext (j ∈ wmb_WarpID mem :: _) (j = wmb_WarpID mem \/ j ∈ map wmb_WarpID members)) by apply elem_of_cons. rewrite bool_decide_or.
  unfold retire_member. destruct (Z.eq_dec j (wmb_WarpID mem)) as [->|Hne].
  - rewrite qget_qset_eq by done. rewrite (bool_decide_eq_true_2 (wmb_WarpID mem = wmb_WarpID mem)) by done. by case_bool_decide.
  - rewrite qget_qset_ne by (by try apply not_eq_sym). by rewrite (bool_decide_eq_false_2 (j = _)) by done.
Qed.

Lemma slots_eta c : set_slots (co_slots c) c = c. Proof. by destruct c. Qed.
Lemma manager_eta c : set_manager (co_ctas c) c = c. Proof. by destruct c. Qed.
Lemma owners_eta c : set_owners (co_owners c) c = c. Proof. by destruct c. Qed.
End Transactions.

Lemma candidates_free m candidates u : foldM (candidate_free m) u candidates = Ok tt ->
  Forall (fun candidate => cm_ctas m !! cc_ID (ct_config candidate) = None) candidates.
Proof.
  revert u. induction candidates as [|candidate candidates IH]; intros u H; cbn [foldM] in H; [constructor|].
  apply result_bind_ok in H as ([] & Hc & H). constructor; [|by apply (IH tt)]. unfold candidate_free in Hc.
  by destruct (bool_decide_reflect (cm_ctas m !! cc_ID (ct_config candidate) = None)).
Qed.

Lemma AdmitCTACluster_cases {G : Type} (c : Core G) (configs : list CTAConfig) :
  match AdmitCTACluster c configs with
  | (c', Err _) => c' = c
  | (c', Ok snapshots) =>
      exists warps admission, selectCluster c configs = Ok warps /\ stageDynamicAdmissions (co_ctas c) configs warps = Ok admission /\
        co_attached c = true /\ cm_dynamic (co_ctas c) = true /\ length (as_candidates admission) = length configs /\
        Forall (fun candidate => cm_ctas (co_ctas c) !! cc_ID (ct_config candidate) = None) (as_candidates admission) /\ snapshots = map snapshotCTA (as_candidates admission) /\
        admitted c (as_candidates admission) c'
  end.
Proof.
  unfold AdmitCTACluster. destruct (let? _ := validate c in _) as [[admission launch]|e] eqn:E; [|done].
  apply result_bind_ok in E as ([] & _ & E). destruct (co_attached c) eqn:Ea; [|done]. destruct (cm_dynamic (co_ctas c)) eqn:Ed; [|done].
  cbn [andb] in E. apply result_bind_ok in E as (warps & Hsel & E).
  apply result_bind_ok in E as (adm & Hadm & E). apply result_bind_ok in E as (l & Hl & E). injection (Ok_inj _ _ E) as -> ->.
  unfold admission_commit. destruct (_ =? 0)%nat; [by rewrite manager_eta, owners_eta|]. destruct (negb (cm_dynamic _) || _ || _); [by rewrite manager_eta, owners_eta|].
  destruct (foldM (candidate_free (co_ctas c)) tt (as_candidates admission)) as [[]|e] eqn:Efree; [|by rewrite manager_eta, owners_eta].
  destruct (launch_external c (as_candidates admission) launch (co_owners c)) as [h' [[]|e]] eqn:Ex.
  - exists warps, admission. split_and!; [done..|by eapply staged_entries|by eapply candidates_free|done|].
    apply (admission_started c (as_candidates admission) launch h'); [|done|done]. eapply staged_members; [exact Hadm|]. by eapply selectCluster_idx.
  - rewrite manager_eta. apply launch_external_err in Ex as ->. apply owners_eta.
Qed.

Lemma ReclaimCTA_cases {G : Type} (c : Core G) (id : Z) :
  cta_wf (co_ctas c) ->
  match ReclaimCTA c id with
  | (c', Err _) => c' = c
  | (c', Ok snapshot) =>
      exists cta records completion, co_attached c = true /\ cm_dynamic (co_ctas c) = true /\ cm_ctas (co_ctas c) !! id = Some cta /\ cm_barriers (co_ctas c) = Some records /\
        CTAManager_Snapshot (co_ctas c) id = Ok snapshot /\ CTACompletion c id = Ok completion /\ cps_Complete completion = true /\
        pendingCTA records id = false /\
        c' = set_slots (co_slots c') (set_manager (remove_cta id (ct_members cta) records (co_ctas c)) c) /\
        forall j, idx4 j -> slot_at c' j = if bool_decide (j ∈ map wmb_WarpID (ct_members cta)) then retired (slot_at c j) else slot_at c j
  end.
Proof.
  intros Hw. unfold ReclaimCTA. destruct (let? _ := validate c in _) as [snapshot|e] eqn:E; [|done].
  apply result_bind_ok in E as ([] & _ & E). destruct (co_attached c) eqn:Ea; [|done]. destruct (cm_dynamic (co_ctas c)) eqn:Ed; [|done].
  cbn [andb] in E. apply result_bind_ok in E as (s & Hs & E). apply result_bind_ok in E as (completion & Hc & E).
  pass_check. apply result_bind_ok in E as ([] & _ & <-%Ok_inj). unfold commitDynamicReclaim.
  destruct (negb _ || negb _); [by rewrite manager_eta, slots_eta|]. destruct (cm_barriers (co_ctas c)) as [records|]; [|by rewrite manager_eta, slots_eta].
  destruct (cm_ctas (co_ctas c) !! id) as [cta|] eqn:Ec; [|by rewrite manager_eta, slots_eta].
  destruct (pendingCTA records id) eqn:Ep; [by rewrite manager_eta, slots_eta|]. destruct (negb (forallb _ _)); [by rewrite manager_eta, slots_eta|].
  exists cta, records, completion. split_and!; try done. intros j Hj. unfold slot_at. cbn [set_slots set_manager co_slots].
  apply retire_members; [|done]. eapply members_ok_idx. by eapply cw_members.
Qed.
