(* ===== verification/CoreInvariant.v ===== *)
(** * The invariant of the core

    What the slots, the owners, the CTA table and the barrier records say about each
    other.  Its centre is the agreement of the scheduler with the coordinator: a slot
    waits on a key exactly when the record of that key lists its warp as a waiter, so
    no wakeup is lost and none is spurious. *)

From S2P Require Import Prelude IsaTypes Catalog Decode Integer System Custom Softfloat Float Memory WarpState Apply ApplyInvariant View EvaluateTyped WarpExec WarpCorrect.
From S2P Require Import Cta CtaInvariant CtaTyped CtaMemory Barrier BarrierSpec Launch LaunchSpec Core CoreStep Scheduling Admission.

#[local] Open Scope Z_scope.
#[local] Open Scope go_scope.

(** ** Keys and memberships *)

Definition key_valid (m : CTAManager) (key : BarrierKey) : Prop :=
  bk_AddressWarp key < 4 /\ bk_ID key < 8 /\
  exists c mem, cm_ctas m !! bk_CTAID key = Some c /\ mem ∈ ct_members c /\ wmb_WarpID mem = bk_AddressWarp key.

Lemma validateKey_ok m key : validateKey m key = Ok tt <-> key_valid m key.
Proof.
  unfold validateKey, key_valid, CTAManager_Snapshot. change FrozenWarpCount with 4. change frozenBarrierCount with 8.
  destruct (Z.leb_spec 4 (bk_AddressWarp key)), (Z.leb_spec 8 (bk_ID key)); cbn [orb negb]; try (split; [done|intros (? & ? & _); lia]).
  destruct (cm_ctas m !! bk_CTAID key) as [c|]; cbn [result_bind].
  2: { split; [done|]. intros (_ & _ & c & mem & [=] & _). }
  destruct (existsb _ _) eqn:E.
  - split; [|done]. intros _. split_and!; [done..|]. apply existsb_exists in E as (mem & Hm & Heq%Z.eqb_eq).
    exists c, mem. split_and!; [done|by apply list_elem_of_In|done].
  - split; [done|]. intros (_ & _ & c' & mem & [= <-] & Hm & Heq). assert (existsb (fun member => wmb_WarpID member =? bk_AddressWarp key) (cs_Members (snapshotCTA c)) = true) as Hx.
    { apply existsb_exists. exists mem. split; [by apply list_elem_of_In|by apply Z.eqb_eq]. }
    by rewrite E in Hx.
Qed.

Lemma records_some m records : cm_barriers m = Some records -> records_of m = records.
Proof. unfold records_of. by intros ->. Qed.

Lemma HasWarp_spec m w : idx4 w -> HasWarp m w = true <-> is_Some (qget (cm_byWarp m) w).
Proof.
  intros Hw%idx4_range. unfold HasWarp. change FrozenWarpCount with 4. destruct (Z.leb_spec 4 w); [lia|]. apply bool_decide_eq_true.
Qed.

(** ** The invariant *)
Section Invariant.
Context {G : Type} (I : G -> Prop).
Implicit Type c : Core G.

(** The data services the executors may have: they keep the byte owners' invariant and
    touch nothing of the CTA manager but the local bytes. *)
Definition memory_sound (memory : DataMemory G) : Prop :=
  match memory with
  | NoMemory => True
  | OtherMemory s => forall base, ServiceContract (route_inv I base) s /\ service_keeps s (route_inv I base)
  | Routed warpID g => idx4 warpID /\ ServiceContract I g /\ service_keeps g I
  end.

Definition waits (s : slot G) (key : BarrierKey) : Prop := sl_barrierWait s = true /\ sl_barrierKey s = key.

Definition listed (m : CTAManager) (key : BarrierKey) (j : Z) : bool := WarpMask_Active (br_waiters (record_of (records_of m) key)) j.

Record slot_wf c (j : Z) : Prop := {
  sw_pair : ex_owner (sl_executor (slot_at c j)) = sl_owner (slot_at c j);
  sw_memory : memory_sound (ex_memory (sl_executor (slot_at c j)));
  sw_owner : exists w, co_owners c !! sl_owner (slot_at c j) = Some w /\ w_id w = j /\ lifecycle_consistent (slot_at c j) w = true;
  sw_member : co_attached c = true -> sl_participated (slot_at c j) = true -> HasWarp (co_ctas c) j = true;
  sw_clear : sl_blockReason (slot_at c j) <> BlockBarrier -> key_clear (slot_at c j) = true;
  sw_drain : sl_barrierWait (slot_at c j) = true -> sl_barrierDrain (slot_at c j) = false;
  sw_attached : sl_barrierWait (slot_at c j) = true -> co_attached c = true;
  sw_waits : co_attached c = true -> forall key, waits (slot_at c j) key <-> listed (co_ctas c) key j = true;
  sw_key : sl_barrierWait (slot_at c j) = true -> key_valid (co_ctas c) (sl_barrierKey (slot_at c j))
}.

Record core_wf c : Prop := {
  cr_slots : forall j, idx4 j -> slot_wf c j;
  cr_next : 0 <= co_next c < 4;
  cr_owners : owners_wf (co_owners c);
  cr_ctas : cta_wf (co_ctas c) /\ packed (co_ctas c) /\ residents (co_ctas c);
  cr_records : records_wf (co_ctas c);
  cr_routes : co_attached c = true -> forall j, idx4 j -> route_ok c j = Ok tt;
  cr_global : I (co_global c)
}.

(** ** Validation succeeds *)

Lemma ids_all (P : Z -> Prop) : (forall j, idx4 j -> P j) -> P 0 /\ P 1 /\ P 2 /\ P 3.
Proof. unfold idx4. intros H. split_and!; apply H; tauto. Qed.

Lemma validateSlot_ok c j : slot_wf c j -> validateSlot c j = Ok tt.
Proof.
  intros [Hp _ (w & Hw & Hid & Hl) Hm Hc Hd Ha Hwt Hk]. unfold validateSlot, deref. rewrite Hp, Z.eqb_refl, Hw. cbn [result_bind]. rewrite Hid, Z.eqb_refl, Hl.
  destruct (co_attached c && sl_participated (slot_at c j) && negb (HasWarp (co_ctas c) j)) eqn:E1.
  { apply andb_true_iff in E1 as [[E1 E2]%andb_true_iff E3]. rewrite (Hm E1 E2) in E3. done. }
  destruct ((sl_blockReason (slot_at c j) !=. BlockBarrier) && negb (key_clear (slot_at c j))) eqn:E2.
  { apply andb_true_iff in E2 as [E2 E3]. rewrite Hc in E3; [done|]. by apply negb_true_iff, bool_decide_eq_false_1 in E2. }
  destruct (sl_barrierWait (slot_at c j) && sl_barrierDrain (slot_at c j)) eqn:E3.
  { apply andb_true_iff in E3 as [E3 E4]. by rewrite (Hd E3) in E4. }
  cbn [negb]. unfold wait_recorded. destruct (sl_barrierWait (slot_at c j)) eqn:Ew; [|done]. rewrite (Ha eq_refl).
  assert (listed (co_ctas c) (sl_barrierKey (slot_at c j)) j = true) as Hx by (apply Hwt; [by apply Ha|by split]).
  unfold Barrier_Snapshot. rewrite (proj2 (validateKey_ok _ _) (Hk eq_refl)). cbn [result_bind bs_Waiters snapshotBarrier].
  unfold listed in Hx. by rewrite Hx.
Qed.

Lemma validate_ok c : core_wf c -> validate c = Ok tt.
Proof.
  intros Hc. destruct (ids_all _ (fun j Hj => validateSlot_ok c j (cr_slots c Hc j Hj))) as (H0 & H1 & H2 & H3).
  unfold validate, ids. cbn [foldM]. rewrite H0, H1, H2, H3. cbn [result_bind]. destruct (co_attached c) eqn:Ea; [|done].
  destruct (ids_all _ (cr_routes c Hc Ea)) as (R0 & R1 & R2 & R3). unfold validateCTAMemoryRoutes, ids. cbn [foldM]. by rewrite R0, R1, R2, R3.
Qed.

(** ** Moving one slot *)

(** A slot is as before when nothing it refers to changed. *)
Lemma slot_wf_frame c c' j :
  slot_wf c j -> slot_at c' j = slot_at c j -> co_attached c' = co_attached c ->
  co_owners c' !! sl_owner (slot_at c j) = co_owners c !! sl_owner (slot_at c j) ->
  (HasWarp (co_ctas c) j = true -> HasWarp (co_ctas c') j = true) ->
  (forall key, listed (co_ctas c') key j = listed (co_ctas c) key j) ->
  (sl_barrierWait (slot_at c j) = true -> key_valid (co_ctas c) (sl_barrierKey (slot_at c j)) -> key_valid (co_ctas c') (sl_barrierKey (slot_at c j))) ->
  slot_wf c' j.
Proof.
  intros [Hp Hmem Ho Hm Hc Hd Ha Hw Hk] Es Ea Eo Hh Hl Hv. split; rewrite ?Es, ?Ea, ?Eo; auto.
  intros H key. by rewrite Hl, Hw.
Qed.

(** The scheduler part of a slot replaced: its owner, executor and the manager stay. *)
Lemma slot_wf_schedule c j l r p (s' := fun s : slot G => set_participated p (schedule l r s)) :
  idx4 j -> slot_wf c j -> sl_barrierWait (slot_at c j) = false ->
  (forall w, co_owners c !! sl_owner (slot_at c j) = Some w -> w_id w = j -> lifecycle_consistent (s' (slot_at c j)) w = true) ->
  (co_attached c = true -> p = true -> HasWarp (co_ctas c) j = true) ->
  slot_wf (update_slot j s' c) j.
Proof.
  intros Hj [Hp Hmem (w & Hw & Hid & _) Hm Hc Hd Ha Hwt Hk] Hnw Hlc Hhas. subst s'. cbv beta in *. split; rewrite ?slot_at_update, ?Z.eqb_refl by done; try done.
  - exists w. split_and!; [done|done|by apply Hlc].
  - intros Hat key. cbn [update_slot set_slots co_ctas]. rewrite <- (Hwt Hat key). unfold waits. rewrite Hnw. cbn. intuition discriminate.
Qed.

Lemma update_other c j f k : idx4 j -> idx4 k -> j <> k -> slot_wf c k -> slot_wf (update_slot j f c) k.
Proof.
  intros Hj Hk Hne Hs. apply (slot_wf_frame c); try done. rewrite slot_at_update by done. by destruct (Z.eqb_spec k j); [subst|].
Qed.

Lemma route_update c j f k : idx4 j -> idx4 k -> (forall s, sl_executor (f s) = sl_executor s) -> route_ok (update_slot j f c) k = route_ok c k.
Proof.
  intros Hj Hk Hf. unfold route_ok. rewrite slot_at_update by done. destruct (Z.eqb_spec k j) as [->|]; [|done]. by rewrite Hf.
Qed.

(** One slot rescheduled, everything else untouched. *)
Lemma core_wf_update c j f : core_wf c -> idx4 j -> (forall s, sl_executor (f s) = sl_executor s) ->
  slot_wf (update_slot j f c) j -> core_wf (update_slot j f c).
Proof.
  intros [Hs Hn Ho Hc Hr Hrt Hg] Hj Hf Hsj. split; try done.
  - intros k Hk. destruct (Z.eq_dec j k) as [->|Hne]; [done|]. by apply update_other; [| | |apply Hs].
  - intros Ha k Hk. rewrite route_update by done. by apply Hrt.
Qed.

Lemma not_waiting c j : slot_wf c j -> sl_blockReason (slot_at c j) <> BlockBarrier -> sl_barrierWait (slot_at c j) = false.
Proof. intros Hs Hr. pose proof (sw_clear c j Hs Hr) as Hk. unfold key_clear in Hk. by destruct (sl_barrierWait (slot_at c j)). Qed.

Ltac lifecycle_cases :=
  repeat match goal with
  | H : _ && _ = true |- _ => apply andb_true_iff in H as [? H]
  | H : bool_decide _ = true |- _ => apply bool_decide_eq_true in H
  | H : negb _ = true |- _ => apply negb_true_iff in H
  end.

Lemma consistent_runnable (s : slot G) w : sl_lifecycle s = SlotRunnable -> lifecycle_consistent s w = true ->
  sl_participated s = true /\ sl_blockReason s = BlockNone /\ w_lifecycle w = WarpRunning /\ (w_activeMask w <>? 0) = true.
Proof.
  unfold lifecycle_consistent. intros ->. rewrite !andb_true_iff. intros [[[H1 H2%bool_decide_eq_true] H3%bool_decide_eq_true] H4]. done.
Qed.

Lemma consistent_blocked (s : slot G) w : sl_lifecycle s = SlotBlocked -> lifecycle_consistent s w = true ->
  sl_participated s = true /\ w_lifecycle w = WarpRunning /\ (w_activeMask w <>? 0) = true.
Proof.
  unfold lifecycle_consistent. intros ->. rewrite !andb_true_iff. intros [[[H1 _] H3%bool_decide_eq_true] H4]. done.
Qed.

(** A participating, running warp may be made runnable or blocked for a valid reason. *)
Lemma schedule_wf c j l r :
  core_wf c -> idx4 j -> sl_barrierWait (slot_at c j) = false ->
  sl_lifecycle (slot_at c j) = SlotRunnable \/ sl_lifecycle (slot_at c j) = SlotBlocked ->
  (l = SlotRunnable /\ r = BlockNone) \/ (l = SlotBlocked /\ validBlockReason r = true) ->
  core_wf (update_slot j (schedule l r) c).
Proof.
  intros Hc Hj Hnw Hl Hr. pose proof (cr_slots c Hc j Hj) as Hs. destruct (sw_owner c j Hs) as (w & Hw & Hid & Hlc).
  assert (sl_participated (slot_at c j) = true /\ w_lifecycle w = WarpRunning /\ (w_activeMask w <>? 0) = true) as (Hp & Hrun & Hmask).
  { destruct Hl as [Hl|Hl]; [destruct (consistent_runnable _ _ Hl Hlc) as (? & _ & ? & ?)|destruct (consistent_blocked _ _ Hl Hlc) as (? & ? & ?)]; done. }
  apply core_wf_update; [done..|].
  assert (schedule l r (slot_at c j) = set_participated true (schedule l r (slot_at c j))) as Heq.
  { unfold schedule, reschedule, set_participated. cbn. by rewrite Hp. }
  assert (update_slot j (schedule l r) c = update_slot j (fun s => set_participated true (schedule l r s)) c) as ->
    by (unfold update_slot; by rewrite Heq).
  apply slot_wf_schedule; try done.
  - intros w' Hw' _. rewrite Hw in Hw'. injection Hw' as <-. unfold lifecycle_consistent. cbn.
    destruct Hr as [[-> ->]|[-> Hr]]; rewrite ?Hr, Hrun, Hmask; [by rewrite !bool_decide_eq_true_2|by rewrite bool_decide_eq_true_2].
  - intros Ha _. by apply (sw_member c j Hs).
Qed.

(** ** Block, Resume and Activate *)

Lemma slotFor_ok c id s : core_wf c -> 0 <= id -> slotFor c id = Ok s -> idx4 id /\ s = slot_at c id.
Proof.
  intros Hc Hid H. unfold slotFor in H. rewrite (validate_ok c Hc) in H. cbn [result_bind] in H. change FrozenWarpCount with 4 in H.
  destruct (Z.leb_spec 4 id); [done|]. apply Ok_inj in H as <-. split; [apply idx4_range; lia|done].
Qed.

Lemma Block_wf c id reason : core_wf c -> 0 <= id -> core_wf (Block c id reason).1.
Proof.
  intros Hc Hid. unfold Block. destruct (validBlockReason reason) eqn:Hv; [|done]. destruct (reason ==. BlockBarrier); [done|]. cbn [negb].
  destruct (slotFor c id) as [s|] eqn:E; [|done]. destruct (slotFor_ok c id s Hc Hid E) as [Hi ->].
  destruct (bool_decide_reflect (sl_lifecycle (slot_at c id) = SlotRunnable)) as [Hl|]; [|done]. cbn [negb fst].
  destruct (sw_owner c id (cr_slots c Hc id Hi)) as (w & _ & _ & Hlc). destruct (consistent_runnable _ _ Hl Hlc) as (_ & Hr & _).
  apply schedule_wf; auto. apply (not_waiting c id); [by apply cr_slots|by rewrite Hr].
Qed.

Lemma Resume_wf c id : core_wf c -> 0 <= id -> core_wf (Resume c id).1.
Proof.
  intros Hc Hid. unfold Resume. destruct (slotFor c id) as [s|] eqn:E; [|done]. destruct (slotFor_ok c id s Hc Hid E) as [Hi ->].
  destruct (bool_decide_reflect (sl_lifecycle (slot_at c id) = SlotBlocked)) as [Hl|]; [|done]. cbn [negb].
  destruct (bool_decide_reflect (sl_blockReason (slot_at c id) = BlockBarrier)) as [|Hr]; [done|]. cbn [fst].
  apply schedule_wf; auto. apply (not_waiting c id); [by apply cr_slots|done].
Qed.

End Invariant.

Lemma validate_slots {G} (c : Core G) : validate c = Ok tt -> forall j, idx4 j -> validateSlot c j = Ok tt.
Proof.
  unfold validate, ids. cbn [foldM]. intros H. apply result_bind_ok in H as ([] & H & _).
  apply result_bind_ok in H as ([] & H0 & H). apply result_bind_ok in H as ([] & H1 & H). apply result_bind_ok in H as ([] & H2 & H).
  apply result_bind_ok in H as ([] & H3 & _). by intros j [-> | [-> | [-> | ->]]].
Qed.

Lemma validateSlot_consistent {G} (c : Core G) j : validateSlot c j = Ok tt ->
  exists w, co_owners c !! sl_owner (slot_at c j) = Some w /\ w_id w = j /\ lifecycle_consistent (slot_at c j) w = true.
Proof.
  unfold validateSlot, deref. intros H. pass_check. destruct (co_owners c !! sl_owner (slot_at c j)) as [w|]; [|done]. cbn [result_bind] in H.
  destruct (Z.eqb_spec (w_id w) j) as [Hid|]; [|done]. do 3 pass_check. apply result_bind_ok in H as (u & _ & H).
  destruct (lifecycle_consistent _ w) eqn:El; [|done]. by exists w.
Qed.

Lemma Activate_refuses {G} (c : Core G) id : 0 <= id -> exists e, Activate c id = (c, Err e).
Proof.
  intros Hid. unfold Activate. change FrozenWarpCount with 4. destruct (Z.leb_spec 4 id); [by eexists|]. assert (idx4 id) as Hi by (apply idx4_range; lia).
  destruct (validate c) as [[]|e] eqn:Hv; [|by eexists]. destruct (co_attached c && _); [by eexists|].
  destruct (bool_decide_reflect (sl_lifecycle (slot_at c id) = SlotInactive)) as [Hl|]; [|by eexists].
  destruct (sl_participated (slot_at c id)); [by eexists|]. cbn [negb orb].
  destruct (validateSlot_consistent c id (validate_slots c Hv id Hi)) as (w & Hw & _ & Hlc). unfold deref. rewrite Hw.
  unfold lifecycle_consistent in Hlc. rewrite Hl, !andb_true_iff in Hlc. destruct Hlc as [[_ Hi0%bool_decide_eq_true] _]. rewrite Hi0. by eexists.
Qed.

(** C40: [Core.Activate] never admits a warp.  It is meant for a slot the caller has
    initialised outside the core: the slot inactive, the canonical warp running with
    a nonzero mask.  But its own validation first requires the canonical warp of an
    inactive slot to be inactive, so every call is refused and changes nothing. *)
Theorem Activate_never {G : Type} (c : Core G) (id : Z) : 0 <= id -> exists e, Activate c id = (c, Err e).
Proof. apply Activate_refuses. Qed.

(** A core as the caller of [Activate] would prepare it: warp 0 already running. *)
Definition prepared_owners : owners := <[0 := resting 0 15]> (<[1 := resting 1 15]> (<[2 := resting 2 3]> (<[3 := resting 3 0]> ∅))).

Example Activate_never_witness :
  (forall id, 0 <= id -> exists e, Activate (set_owners prepared_owners (update_slot 0 (fun s => set_participated false (schedule SlotInactive BlockNone s)) example_core)) id
     = (set_owners prepared_owners (update_slot 0 (fun s => set_participated false (schedule SlotInactive BlockNone s)) example_core), Err e)) /\
  sl_lifecycle (slot_at example_core 0) = SlotInactive.
Proof.
  split; [|by vm_compute]. intros id Hid.
  exact (Activate_never (set_owners prepared_owners (update_slot 0 (fun s => set_participated false (schedule SlotInactive BlockNone s)) example_core)) id Hid).
Defined.

(** ** Dynamic CTAs keep the core's invariant
    Admission, reclaim and attachment: the operations that change which warps
    participate and which CTAs are resident. *)

(** ** Installing CTAs *)

Notation members_idx candidate := (Forall (fun mem => idx4 (wmb_WarpID mem)) (ct_members candidate)).
Notation install_all cs m := (fold_left (fun m candidate => install candidate m) cs m).

Lemma bind_some id ms t w : Forall (fun mem => idx4 (wmb_WarpID mem)) ms -> idx4 w -> w ∈ map wmb_WarpID ms \/ is_Some (qget t w) ->
  is_Some (qget (bind_members id ms t) w).
Proof.
  intros Hm Hw. unfold bind_members. revert t. induction Hm as [|x ms Hx Hm IH]; intros t Hin; cbn [fold_left map] in *.
  { by destruct Hin as [Hin%elem_of_nil|]. }
  apply IH. destruct (Z.eq_dec w (wmb_WarpID x)) as [->|Hne]; [right; rewrite qget_qset_eq by done; by eexists|].
  rewrite qget_qset_ne by (by try apply not_eq_sym). rewrite elem_of_cons in Hin. naive_solver.
Qed.

Lemma install_all_table cs m w : Forall (fun candidate => members_idx candidate) cs -> idx4 w ->
  is_Some (qget (cm_byWarp m) w) \/ (exists candidate mem, candidate ∈ cs /\ mem ∈ ct_members candidate /\ wmb_WarpID mem = w) ->
  is_Some (qget (cm_byWarp (install_all cs m)) w).
Proof.
  intros Hi Hw. revert m. induction Hi as [|candidate cs Hc Hi IH]; intros m H; cbn [fold_left].
  { by destruct H as [|(x & mem & Hx%elem_of_nil & _)]. }
  apply IH. destruct H as [H|(x & mem & [->|Hx]%elem_of_cons & Hmem & E)]; [left..|right; eauto].
  - apply bind_some; auto.
  - apply bind_some; [done..|]. left. apply list_elem_of_fmap. by exists mem.
Qed.

Lemma install_all_lookup cs m id c : Forall (fun candidate => cm_ctas m !! cc_ID (ct_config candidate) = None) cs ->
  cm_ctas m !! id = Some c -> cm_ctas (install_all cs m) !! id = Some c.
Proof.
  intros Hf Hc. assert (forall m', cm_ctas m' !! id = Some c -> cm_ctas (install_all cs m') !! id = Some c) as H; [|by apply H].
  clear -Hf Hc. induction Hf as [|candidate cs Hn Hf IH]; intros m' Hm'; cbn [fold_left]; [done|]. apply IH.
  cbn [install set_byWarp set_ctas cm_ctas]. rewrite lookup_insert_ne; [done|]. intros E. rewrite E in Hn. by rewrite Hn in Hc.
Qed.

Lemma install_all_rest cs m : let m' := install_all cs m in
  cm_barriers m' = cm_barriers m /\ cm_dynamic m' = cm_dynamic m /\ cm_sealed m' = cm_sealed m /\ cm_localMem m' = cm_localMem m.
Proof. cbv zeta. revert m. induction cs as [|candidate cs IH]; intros m; cbn [fold_left]; [done|]. by destruct (IH (install candidate m)) as (-> & -> & -> & ->). Qed.

Lemma key_valid_extend m m' key : (forall id c, cm_ctas m !! id = Some c -> cm_ctas m' !! id = Some c) -> key_valid m key -> key_valid m' key.
Proof. intros H (H1 & H2 & c & mem & Hc & Hm & E). split_and!; [done..|]. exists c, mem. split_and!; [by apply H|done..]. Qed.

(** ** Admission *)
Section Dynamic.
Context {G : Type} (I : G -> Prop).
Implicit Type c : Core G.

Notation slot_ok := (slot_wf I).
Notation core_ok := (core_wf I).

(** The configurations Go's types allow. *)
Definition config_ok (config : CTAConfig) : Prop := config_u32 config /\ 0 <= cc_LocalMemorySize config.

Lemma unused_not_waiting (s : slot G) : slot_unused s = true -> sl_barrierWait s = false.
Proof. unfold slot_unused, key_clear. rewrite !andb_true_iff. intros [_ H%negb_true_iff]. rewrite !orb_false_iff in H. tauto. Qed.

Lemma admitted_wf c configs warps admission c' :
  core_ok c -> Forall config_ok configs -> co_attached c = true -> cm_dynamic (co_ctas c) = true ->
  selectCluster c configs = Ok warps -> stageDynamicAdmissions (co_ctas c) configs warps = Ok admission ->
  Forall (fun candidate => cm_ctas (co_ctas c) !! cc_ID (ct_config candidate) = None) (as_candidates admission) ->
  admitted c (as_candidates admission) c' -> core_ok c'.
Proof.
  intros Hc Hcfg Hat Hdyn Hsel Hstage Hfree Had. set (cs := as_candidates admission) in *.
  pose proof (selectCluster_idx c configs warps Hsel) as Hidx. pose proof (staged_members _ _ _ _ Hstage Hidx) as Hmem. fold cs in Hmem.
  destruct (cr_ctas I c Hc) as (Hcta & Hpack & Hres). destruct (install_all_rest cs (co_ctas c)) as (Eb & Edyn & Es & El).
  assert (forall key j, listed (co_ctas c') key j = listed (co_ctas c) key j) as Hlisted.
  { intros key j. rewrite (ad_manager _ _ _ Had). unfold listed, records_of, bump_epoch. cbn [cm_barriers]. by rewrite Eb. }
  assert (forall key, key_valid (co_ctas c) key -> key_valid (co_ctas c') key) as Hkey.
  { intros key. apply key_valid_extend. intros id x Hx. rewrite (ad_manager _ _ _ Had). cbn [bump_epoch cm_ctas]. by apply install_all_lookup. }
  assert (forall j, idx4 j -> HasWarp (co_ctas c) j = true \/ (exists candidate mem, candidate ∈ cs /\ mem ∈ ct_members candidate /\ wmb_WarpID mem = j) ->
    HasWarp (co_ctas c') j = true) as Hhas.
  { intros j Hj H. apply HasWarp_spec; [done|]. rewrite (ad_manager _ _ _ Had). cbn [bump_epoch cm_byWarp]. apply install_all_table; [done..|].
    destruct H as [H%HasWarp_spec|H]; auto. }
  destruct (ad_rest _ _ _ Had) as (En & Ep & Ea & Eg).
  assert (forall j, idx4 j -> (exists config mem, belongs cs config mem /\ wmb_WarpID mem = j) \/ (forall config mem, belongs cs config mem -> wmb_WarpID mem <> j)) as Hdec.
  { intros j Hj. destruct (decide (j ∈ map wmb_WarpID (flat_map ct_members cs))) as [H|H]; [left; by apply members_elem|right].
    intros config mem Hm E. apply H, members_elem. eauto. }
  split.
  - intros j Hj. pose proof (cr_slots I c Hc j Hj) as Hs. destruct (Hdec j Hj) as [(config & mem & Hm & <-)|Hn].
    + destruct (ad_slot _ _ _ Had config mem Hm) as (_ & Hu & Esl & _). destruct (ad_owner _ _ _ Had config mem Hm) as (Hnz & w & Hw & Hwid & _ & Hw').
      pose proof (unused_not_waiting _ Hu) as Hnw. destruct Hs as [H1 H2 H3 H4 H5 H6 H7 H8 H9]. split; rewrite ?Esl; try done.
      * eexists. split; [exact Hw'|]. split; [done|]. unfold lifecycle_consistent. cbn. by destruct (Z.eqb_spec (wmb_ActiveMask mem) 0).
      * intros _ _. apply Hhas; [done|]. right. destruct Hm as (candidate & Hx & Hy & _). eauto.
      * intros _ key. rewrite Hlisted, <- (H8 Hat key). unfold waits. rewrite Hnw. cbn. intuition discriminate.
    + destruct (ad_other_slots _ _ _ Had j Hj Hn) as [Esl _]. apply (slot_wf_frame I c); auto. apply (ad_other_owners _ _ _ Had).
      intros config mem Hm E. destruct (ad_owner _ _ _ Had config mem Hm) as (_ & w & Hw & Hwid & _).
      destruct (sw_owner I c j Hs) as (w' & Hw' & Hwid' & _). rewrite <- E, Hw in Hw'. injection Hw' as <-. apply (Hn config mem Hm). congruence.
  - rewrite En. apply (cr_next I c Hc).
  - destruct (ad_launched _ _ _ Had) as (zs & Hl & ->). eapply launch_wf; [apply (cr_owners I c Hc)| |exact Hl].
    apply Forall_forall. intros t (candidate & mem & Hx & Hy & ->)%launch_targets_elem.
    assert (resident_typed candidate) as [Hu _ Hmt].
    { assert (Forall resident_typed cs) as Hr by (eapply staged_residents; [|exact Hstage]; eapply Forall_impl; [exact Hcfg|]; by intros ? []).
      rewrite Forall_forall in Hr. by apply Hr. }
    rewrite Forall_forall in Hmem. pose proof (Hmem candidate Hx) as Hci. rewrite Forall_forall in Hci. pose proof (Hci mem Hy) as Hi%idx4_range.
    rewrite Forall_forall in Hmt. split; cbn; [lia|apply Hu|apply (Hmt mem Hy)|apply Hu].
  - rewrite (ad_manager _ _ _ Had).
    destruct (install_all_wf (co_ctas c) cs Hcta Hpack) as [Hw' Hp'].
    { eapply stageDynamicAdmissions_ok; [exact Hcta|exact Hpack| | |exact Hstage].
      - eapply Forall_impl; [exact Hcfg|]. by intros ? [].
      - eapply Forall_impl; [exact Hidx|]. intros l Hl. eapply Forall_impl; [exact Hl|]. intros w Hw%idx4_range. lia. }
    split_and!; [by apply bump_wf|done|]. apply (install_all_residents cs (co_ctas c)); [done|].
    eapply staged_residents; [|exact Hstage]. eapply Forall_impl; [exact Hcfg|]. by intros ? [].
  - intros key r Hr. apply (cr_records I c Hc key). rewrite (ad_manager _ _ _ Had) in Hr. unfold records_of in *. cbn [bump_epoch cm_barriers] in Hr. by rewrite Eb in Hr.
  - intros _ j Hj. pose proof (cr_routes I c Hc Hat j Hj) as Hr. unfold route_ok in *. rewrite Hdyn in Hr. cbn [negb andb] in Hr.
    rewrite (ad_manager _ _ _ Had). cbn [bump_epoch cm_dynamic]. rewrite Edyn, Hdyn. cbn [negb andb].
    assert (sl_executor (slot_at c' j) = sl_executor (slot_at c j)) as ->; [|done]. destruct (Hdec j Hj) as [(config & mem & Hm & <-)|Hn].
    + by destruct (ad_slot _ _ _ Had config mem Hm) as (_ & _ & -> & _).
    + by destruct (ad_other_slots _ _ _ Had j Hj Hn) as [-> _].
  - rewrite Eg. apply (cr_global I c Hc).
Qed.

Lemma AdmitCTACluster_wf c configs : core_ok c -> Forall config_ok configs -> core_ok (AdmitCTACluster c configs).1.
Proof.
  intros Hc Hcfg. pose proof (AdmitCTACluster_cases c configs) as H. destruct (AdmitCTACluster c configs) as [c' [snapshots|e]]; cbn [fst]; [|by subst].
  destruct H as (warps & admission & Hsel & Hst & Ha & Hd & _ & Hf & _ & Had). by eapply admitted_wf.
Qed.

(** ** Reclaim *)

(** In a complete CTA every member's slot has finished. *)
Lemma complete_finished c id completion cta : CTACompletion c id = Ok completion -> cps_Complete completion = true ->
  cm_ctas (co_ctas c) !! id = Some cta -> Forall (fun mem => idx4 (wmb_WarpID mem)) (ct_members cta) ->
  forall mem, mem ∈ ct_members cta -> sl_lifecycle (slot_at c (wmb_WarpID mem)) = SlotFinished.
Proof.
  unfold CTACompletion. intros H Hd Hc Hi mem Hm. apply result_bind_ok in H as (u & _ & H). pass_check. unfold cta_completion in H. rewrite Hc in H.
  apply Ok_inj in H as <-. cbn [cps_Complete] in Hd. rewrite !andb_true_iff in Hd. destruct Hd as [[[_ Hf] _] _].
  pose proof (forallb_elem _ _ Hf mem Hm) as Hx. cbv beta in Hx. apply andb_true_iff in Hx as [_ Hx%bool_decide_eq_true].
  rewrite Forall_forall in Hi. by rewrite qget_qmake in Hx by (by apply Hi).
Qed.

Lemma pending_listed records id key j : pendingCTA records id = false -> bk_CTAID key = id ->
  WarpMask_Active (br_waiters (record_of records key)) j = false.
Proof.
  intros Hp Hk. unfold record_of. destruct (records !! key) as [r|] eqn:Er; simpl; [|unfold WarpMask_Active, no_barrier; cbn [br_waiters]; by rewrite Z.land_0_l, andb_false_r].
  apply not_true_iff_false. intros Ha. apply not_true_iff_false in Hp. apply Hp. apply existsb_exists. exists (key, r).
  split; [by apply list_elem_of_In, elem_of_map_to_list|]. cbn [fst snd]. rewrite Hk, Z.eqb_refl. cbn [andb]. unfold record_pending.
  destruct (Z.eqb_spec (br_waiters r) 0) as [E|]; [|by rewrite orb_true_r]. unfold WarpMask_Active in Ha. cbn in Ha. by rewrite E, Z.land_0_l, andb_false_r in Ha.
Qed.

Lemma drop_record id records key : record_of (drop_records id records) key = if bk_CTAID key =? id then no_barrier else record_of records key.
Proof.
  unfold record_of, drop_records. destruct (Z.eqb_spec (bk_CTAID key) id) as [E|E].
  - destruct (filter _ records !! key) as [r|] eqn:Er; [|done]. apply map_lookup_filter_Some in Er as [_ Hn]. done.
  - f_equal. destruct (records !! key) as [r|] eqn:Er.
    + by apply map_lookup_filter_Some.
    + apply map_lookup_filter_None. by left.
Qed.

Lemma ReclaimCTA_wf c id : core_ok c -> core_ok (ReclaimCTA c id).1.
Proof.
  intros Hc. destruct (cr_ctas I c Hc) as (Hcta & Hpack & Hres). pose proof (ReclaimCTA_cases c id Hcta) as H.
  destruct (ReclaimCTA c id) as [c' [snapshot|e]]; cbn [fst]; [|by subst].
  destruct H as (cta & records & completion & Hat & Hdyn & Hlook & Hrec & _ & Hcomp & Hdone & Hpend & Hc' & Hslots).
  pose proof (members_ok_idx _ _ _ (cw_members _ Hcta id cta Hlook)) as Hidx. pose proof (complete_finished c id completion cta Hcomp Hdone Hlook Hidx) as Hfin.
  assert (co_ctas c' = remove_cta id (ct_members cta) records (co_ctas c)) as Em by (by rewrite Hc').
  assert (co_owners c' = co_owners c) as Eo by (by rewrite Hc'). assert (co_attached c' = co_attached c) as Ea by (by rewrite Hc').
  assert (forall key j, listed (co_ctas c') key j = listed (co_ctas c) key j) as Hlisted.
  { intros key j. unfold listed. rewrite Em, (records_some _ _ Hrec), (records_some _ (drop_records id records)), drop_record by done.
    destruct (Z.eqb_spec (bk_CTAID key) id) as [E|E]; [|done]. rewrite (pending_listed records id key j Hpend E).
    unfold WarpMask_Active, no_barrier. cbn [br_waiters]. by rewrite Z.land_0_l, andb_false_r. }
  split.
  - intros j Hj. pose proof (cr_slots I c Hc j Hj) as Hs. pose proof (Hslots j Hj) as Esl. destruct (decide (j ∈ map wmb_WarpID (ct_members cta))) as [Hin|Hn].
    + rewrite bool_decide_eq_true_2 in Esl by done. apply list_elem_of_fmap in Hin as (mem & -> & Hmem). pose proof (Hfin mem Hmem) as Hl.
      destruct (sw_owner I c _ Hs) as (w & Hw & Hwid & Hlc). unfold lifecycle_consistent in Hlc. rewrite Hl, !andb_true_iff in Hlc.
      destruct Hlc as [[[_ Hr%bool_decide_eq_true] Hwl] Hwm]. assert (sl_blockReason (slot_at c (wmb_WarpID mem)) <> BlockBarrier) as Hnb by (by rewrite Hr).
      pose proof (not_waiting I c _ Hs Hnb) as Hnw. destruct Hs as [H1 H2 H3 H4 H5 H6 H7 H8 H9]. split; rewrite ?Esl; try done.
      * exists w. rewrite Eo. split_and!; [done|done|]. unfold lifecycle_consistent. cbn. by rewrite Hwl, Hwm.
      * intros _ key. rewrite Hlisted, <- (H8 Hat key). unfold waits. rewrite Hnw. cbn. intuition discriminate.
    + rewrite bool_decide_eq_false_2 in Esl by done. apply (slot_wf_frame I c); try done.
      * by rewrite Eo.
      * intros Hh%HasWarp_spec; [|done]. apply HasWarp_spec; [done|]. rewrite Em. cbn [remove_cta bump_epoch set_barriers set_ctas set_byWarp cm_byWarp].
        by rewrite unbind_out.
      * intros Hwt (K1 & K2 & x & mem & Hx & Hmem & E). split_and!; [done..|]. exists x, mem. split_and!; [|done..].
        rewrite Em. cbn [remove_cta bump_epoch set_barriers set_ctas set_byWarp cm_ctas]. rewrite lookup_delete_ne; [done|]. intros Eid.
        assert (listed (co_ctas c) (sl_barrierKey (slot_at c j)) j = true) as Hli by (by apply (sw_waits I c j Hs)).
        unfold listed in Hli. rewrite (records_some _ _ Hrec) in Hli. by rewrite (pending_listed records id _ j Hpend) in Hli.
  - rewrite Hc'. apply (cr_next I c Hc).
  - rewrite Eo. apply (cr_owners I c Hc).
  - rewrite Em. split_and!; [by apply remove_wf| |].
    + intros i x Hx. apply (Hpack i). cbn [remove_cta bump_epoch set_barriers set_ctas set_byWarp cm_ctas] in Hx. by apply lookup_delete_Some in Hx as [_ Hx].
    + intros i x Hx. apply (Hres i). cbn [remove_cta bump_epoch set_barriers set_ctas set_byWarp cm_ctas] in Hx. by apply lookup_delete_Some in Hx as [_ Hx].
  - intros key r. rewrite Em, (records_some _ (drop_records id records)) by done.
    intros [Hr _]%map_lookup_filter_Some. apply (cr_records I c Hc key). by rewrite (records_some _ _ Hrec).
  - intros _ j Hj. pose proof (cr_routes I c Hc Hat j Hj) as Hr. unfold route_ok in *. rewrite Hdyn in Hr. cbn [negb andb] in Hr.
    rewrite Em. cbn [remove_cta bump_epoch set_barriers set_ctas set_byWarp cm_dynamic]. rewrite Hdyn. cbn [negb andb].
    assert (sl_executor (slot_at c' j) = sl_executor (slot_at c j)) as ->; [|done]. rewrite (Hslots j Hj). by destruct (bool_decide (j ∈ map wmb_WarpID (ct_members cta))).
  - rewrite Hc'. apply (cr_global I c Hc).
Qed.
End Dynamic.
