(* ===== verification/CoreBarrier.v ===== *)
(** * The scheduler and the barrier coordinator

    A committed barrier transition changes one record and the slots of the warps it
    blocks and releases; together they keep the core's invariant, and the release
    check of the core never refuses one. *)

From S2P Require Import Prelude IsaTypes Catalog Decode Integer System Custom Softfloat Float Memory WarpState Apply ApplyInvariant View EvaluateTyped WarpExec WarpCorrect.
From S2P Require Import Cta CtaInvariant CtaTyped CtaMemory Barrier BarrierSpec Launch LaunchSpec Core CoreStep Scheduling Admission CoreInvariant.

#[local] Open Scope Z_scope.
#[local] Open Scope go_scope.

(** ** Waiters of a record *)

(** How a transition for [source] moves the waiters: the released ones leave, the
    source joins when it must block; only waiters and the source are released. *)
Record waiters_move (source : Z) (before after : WarpMask) (res : BarrierResult) : Prop := {
  wm_after : forall j, idx4 j ->
    WarpMask_Active after j = (WarpMask_Active before j && negb (WarpMask_Active (bres_Releases res) j)) || (bres_Block res && (j =? source));
  wm_released : forall j, idx4 j -> WarpMask_Active (bres_Releases res) j = true -> WarpMask_Active before j = true \/ j = source;
  wm_valid : WarpMask_Valid (bres_Releases res) = true
}.

(** The same on the abstract barrier. *)
Definition waiting_move (b b' : barrier) (block : bool) (released : gset Z) (source : Z) : Prop :=
  b_waiting b' = (b_waiting b ∖ released) ∪ (if block then ({[source]} : gset Z) else ∅) /\ released ⊆ b_waiting b ∪ {[source]}.

Lemma settle_moves b w (sync : bool) :
  let b0 := mkBarrier (b_generation b) (b_arrived b) (if sync then b_waiting b ∪ ({[w]} : gset Z) else b_waiting b) (b_participants b) (b_events b) in
  let out := b_settle b0 sync in waiting_move b out.1 out.2.1 out.2.2 w.
Proof.
  cbv zeta. unfold b_settle, waiting_move, b_full. destruct (_ && _); cbn [fst snd b_open b_waiting]; destruct sync; set_solver.
Qed.

Lemma b_request_moves e b : let out := b_request e b in waiting_move b out.1 out.2.1 out.2.2 (be_WarpID e).
Proof.
  cbv zeta. unfold b_request. destruct (be_Event e); [unfold waiting_move, b_expect; cbn; set_solver|]. destruct (_ ==. BarrierWait).
  - unfold b_wait, waiting_move. destruct (Bool.eqb _ _); cbn; set_solver.
  - exact (settle_moves (mkBarrier (b_generation b) (b_arrived b ∪ {[be_WarpID e]}) (b_waiting b) (Some (be_ParticipantCount e)) (b_events b))
      (be_WarpID e) (be_Sync e)).
Qed.

Lemma b_complete_moves b source : let out := b_complete b in waiting_move b out.1 out.2.1 out.2.2 source.
Proof. exact (settle_moves (mkBarrier (b_generation b) (b_arrived b) (b_waiting b) (b_participants b) (b_events b - 1)) source false). Qed.

Lemma active_set mask j : idx4 j -> WarpMask_Active mask j = bool_decide (j ∈ warp_set mask).
Proof.
  intros Hj. destruct (WarpMask_Active mask j) eqn:E; symmetry.
  - apply bool_decide_eq_true_2. by apply elem_of_warp_set.
  - apply bool_decide_eq_false_2. intros [_ H]%elem_of_warp_set. congruence.
Qed.

Lemma refined_moves source g g' r r' res : WarpMask_Valid (bres_Releases res) = true ->
  waiting_move (abs g r) (abs g' r') (told res).1 (told res).2 source -> waiters_move source (br_waiters r) (br_waiters r') res.
Proof.
  intros Hv [Hw Hr]. unfold told in *. cbn [abs b_waiting fst snd] in *. split; [..|done].
  - intros j Hj. rewrite !active_set, Hw by done. apply Bool.eq_iff_eq_true.
    rewrite orb_true_iff, !andb_true_iff, negb_true_iff, !bool_decide_eq_true, bool_decide_eq_false, Z.eqb_eq.
    rewrite elem_of_union, elem_of_difference. destruct (bres_Block res); set_solver.
  - intros j Hj. rewrite !active_set by done. rewrite !bool_decide_eq_true. set_solver.
Qed.

Lemma warp_mask_valid mask : warp_mask mask -> WarpMask_Valid mask = true.
Proof. intros H%warp_masks. revert mask H. apply List.Forall_forall. repeat constructor. Qed.

(** The released mask of a staged result is one of the record's masks. *)
Lemma releases_valid key members e r r' res : record_wf r -> idx4 (be_WarpID e) ->
  (if be_Event e then stageEvent key e r else if be_Kind e ==. BarrierWait then stageWait key e r else stageArrival key members e r) = Ok (r', res) ->
  WarpMask_Valid (bres_Releases res) = true.
Proof.
  intros Hr Hi H. destruct (warp_bit_small _ Hi) as [Hbit _]. pose proof (rw_waiters r Hr) as Hw. destruct (be_Event e); [|destruct (_ ==. BarrierWait)].
  - unfold stageEvent in H. do 2 pass_check. by apply Ok_inj in H as [= _ <-].
  - unfold stageWait in H. pass_check. destruct (Bool.eqb (be_Phase e) (br_phase r)); [|by apply Ok_inj in H as [= _ <-]]. cbv zeta in H. pass_check. by apply Ok_inj in H as [= _ <-].
  - unfold stageArrival in H. pass_check. cbv zeta in H. do 5 pass_check.
    destruct (u8 (maskCount (br_arrivals r .| u8 (1 << be_WarpID e))) =? be_ParticipantCount e); [destruct (br_events r =? 0)|]; apply Ok_inj in H as [= _ <-]; try done.
    cbn. apply warp_mask_valid. destruct (be_Sync e); [by apply lor_warp_mask|done].
Qed.

Lemma request_effect e : barrier_typed e -> effect_typed e.
Proof. intros [[H1 _] H2 H3]. by split. Qed.

(** A staged request: what it was staged on and how it moves the waiters. *)
Lemma stage_moves m e expected s : records_wf m -> barrier_typed e -> stage_barrier m e expected = Ok s ->
  staged_request m e s /\ waiters_move (be_WarpID e) (br_waiters (bst_before s)) (br_waiters (bst_after s)) (bst_result s).
Proof.
  intros Hw He%request_effect H. destruct (in_some_phase (bst_before s)) as [g Hg]. destruct (stage_barrier_refines m e expected s g Hw He Hg H) as (Hs & g' & Hg' & Hb).
  split; [done|]. apply (refined_moves _ g g').
  - unfold stage_barrier in H. apply result_bind_ok in H as ([key members] & Hk & H). cbv zeta in H. pass_check.
    apply result_bind_ok in H as ([after res] & Ho & <-%Ok_inj). cbn [bst_result snd].
    assert (idx4 (be_WarpID e)) as Hi by (apply idx4_range; split; [apply He|by eapply keyForEffect_inv]).
    eapply releases_valid; [by apply (record_of_wf m key)|exact Hi|exact Ho].
  - pose proof (b_request_moves e (abs g (bst_before s))) as Hm. by rewrite Hb in Hm.
Qed.

Lemma completion_moves m key s source : records_wf m -> StageEventCompletion m key = Ok s ->
  bst_key s = key /\ record_wf (bst_after s) /\ bres_Key (bst_result s) = key /\ bres_Block (bst_result s) = false /\
  waiters_move source (br_waiters (bst_before s)) (br_waiters (bst_after s)) (bst_result s) /\
  bst_committed s = false /\ bst_before s = record_of (records_of m) key /\ bst_beforeValid s = bool_decide (is_Some (records_of m !! key)).
Proof.
  intros Hw H. destruct (in_some_phase (bst_before s)) as [g Hg].
  destruct (completion_refines m key s g (fun r => Hw key r) Hg H) as (Hwf & Hk & g' & Hg' & Hb).
  pose proof (b_complete_moves (abs g (bst_before s)) source) as Hm. rewrite Hb in Hm. cbn [fst snd] in Hm.
  unfold StageEventCompletion in H. apply result_bind_ok in H as (u & _ & H). destruct (records_of m !! key) as [r|] eqn:Er; [|done]. pose proof (Hw key r Er) as Hr.
  pass_check. cbv zeta in H.
  assert (record_of (records_of m) key = r) as Erec by (unfold record_of; by rewrite Er).
  destruct (_ && _); apply Ok_inj in H as <-; cbn [bst_key bst_before bst_after bst_result bst_committed bst_beforeValid bres_Key bres_Block] in *.
  - split_and!; try done. apply (refined_moves _ g g'); [|done]. cbn. apply warp_mask_valid, Hr.
  - split_and!; try done. by apply (refined_moves _ g g').
Qed.

(** ** Releases *)
Section Releases.
Context {G : Type} (I : G -> Prop).
Implicit Type c : Core G.

Notation slot_ok := (slot_wf I).
Notation core_ok := (core_wf I).

Definition woken (source : Z) (res : BarrierResult) (j : Z) : bool := WarpMask_Active (bres_Releases res) j && negb (j =? source).

Lemma releases_slots c source res j : idx4 j ->
  slot_at (applyBarrierReleases c source res) j = (if woken source res j then schedule SlotRunnable BlockNone (slot_at c j) else slot_at c j).
Proof.
  assert (forall ws c, NoDup ws -> Forall idx4 ws -> idx4 j ->
    slot_at (fold_left (fun c id => if negb (WarpMask_Active (bres_Releases res) id) || (id =? source) then c else update_slot id (schedule SlotRunnable BlockNone) c) ws c) j =
    if bool_decide (j ∈ ws) && woken source res j then schedule SlotRunnable BlockNone (slot_at c j) else slot_at c j) as Hloop.
  { intros ws. induction ws as [|id ws IH]; intros c0 Hd Hi Hj; cbn [fold_left]; [done|].
    apply NoDup_cons in Hd as [Hn Hd]. apply Forall_cons in Hi as [Hid Hi]. rewrite IH by done.
    assert (negb (WarpMask_Active (bres_Releases res) id) || (id =? source) = negb (woken source res id)) as ->
      by (unfold woken; by destruct (WarpMask_Active _ _), (id =? source)).
    rewrite (bool_decide_ext (j ∈ id :: ws) (j = id \/ j ∈ ws)) by apply elem_of_cons. rewrite bool_decide_or.
    destruct (Z.eq_dec j id) as [->|Hne].
    - rewrite (bool_decide_eq_true_2 (id = id)), (bool_decide_eq_false_2 (id ∈ ws)) by done. cbn [orb andb].
      destruct (woken source res id); cbn [negb]; [|done]. by rewrite slot_at_update, Z.eqb_refl.
    - rewrite (bool_decide_eq_false_2 (j = id)) by done. cbn [orb].
      assert (slot_at (if negb (woken source res id) then c0 else update_slot id (schedule SlotRunnable BlockNone) c0) j = slot_at c0 j) as ->; [|done].
      destruct (woken source res id); cbn [negb]; [|done]. rewrite slot_at_update by done. by destruct (Z.eqb_spec j id). }
  intros Hj. unfold applyBarrierReleases. rewrite Hloop; [|by repeat constructor; set_solver by lia|by apply Forall_forall; intros x; apply ids_idx4|done].
  by rewrite bool_decide_eq_true_2 by by apply ids_idx4.
Qed.

Lemma releases_rest c source res : let c' := applyBarrierReleases c source res in
  co_next c' = co_next c /\ co_attached c' = co_attached c /\ co_owners c' = co_owners c /\ co_ctas c' = co_ctas c /\ co_global c' = co_global c.
Proof.
  cbv zeta. unfold applyBarrierReleases. generalize ids as ws. intros ws. revert c. induction ws as [|id ws IH]; intros c; cbn [fold_left]; [done|].
  destruct (IH (if negb (WarpMask_Active (bres_Releases res) id) || (id =? source) then c else update_slot id (schedule SlotRunnable BlockNone) c))
    as (-> & -> & -> & -> & ->). by case_match.
Qed.

(** A waiting slot is blocked on a barrier. *)
Lemma waiting_blocked c j : slot_ok c j -> sl_barrierWait (slot_at c j) = true ->
  sl_lifecycle (slot_at c j) = SlotBlocked /\ sl_blockReason (slot_at c j) = BlockBarrier /\ sl_participated (slot_at c j) = true.
Proof.
  intros Hs Hw. assert (sl_blockReason (slot_at c j) = BlockBarrier) as Hr.
  { destruct (decide (sl_blockReason (slot_at c j) = BlockBarrier)) as [|Hn]; [done|]. pose proof (not_waiting I c j Hs Hn). congruence. }
  destruct (sw_owner I c j Hs) as (w & _ & _ & Hlc). unfold lifecycle_consistent in Hlc. rewrite Hr in Hlc.
  destruct (sl_lifecycle (slot_at c j)) eqn:El; rewrite !andb_true_iff in Hlc; destruct Hlc as [[[Hp Hx] _] _]; try done.
Qed.

Lemma listed_waits c j key : slot_ok c j -> co_attached c = true -> listed (co_ctas c) key j = true -> waits_on c key j = true.
Proof.
  intros Hs Ha Hl. apply (sw_waits I c j Hs Ha) in Hl as [Hw Hk]. destruct (waiting_blocked c j Hs Hw) as (El & Er & _).
  unfold waits_on. rewrite El, Er, Hw, Hk. by rewrite !bool_decide_eq_true_2.
Qed.

(** The coordinator only releases warps the scheduler holds: the release check of the
    core accepts every staged transition. *)
Lemma validateBarrierReleases_ok c source key after res :
  core_ok c -> co_attached c = true -> bres_Key res = key ->
  waiters_move source (br_waiters (record_of (records_of (co_ctas c)) key)) after res -> validateBarrierReleases c source res = Ok tt.
Proof.
  intros Hc Ha Hk Hm. unfold validateBarrierReleases. rewrite (wm_valid _ _ _ _ Hm).
  assert (forallb (fun id => negb (WarpMask_Active (bres_Releases res) id) || (id =? source) || waits_on c (bres_Key res) id) ids = true) as ->; [|done].
  apply forallb_forall. intros id Hid%list_elem_of_In%ids_idx4. destruct (WarpMask_Active (bres_Releases res) id) eqn:Er; [|done]. cbn [negb orb].
  destruct (Z.eqb_spec id source) as [|Hne]; [done|]. cbn [orb]. rewrite Hk. apply listed_waits; [by apply Hc|done|].
  by destruct (wm_released _ _ _ _ Hm id Hid Er).
Qed.

(** The manager with one record replaced. *)
Definition with_record (key : BarrierKey) (r : barrierRecord) (m : CTAManager) : CTAManager := set_barriers (Some (<[key := r]> (records_of m))) m.

Lemma with_record_of key r m k : record_of (records_of (with_record key r m)) k = if bool_decide (k = key) then r else record_of (records_of m) k.
Proof.
  unfold record_of. change (records_of (with_record key r m)) with (<[key := r]> (records_of m)). destruct (bool_decide_reflect (k = key)) as [->|Hne].
  - by rewrite lookup_insert_eq.
  - by rewrite lookup_insert_ne.
Qed.

(** The slots other than the source after a transition. *)
Lemma released_slot c source key after res j :
  core_ok c -> co_attached c = true -> idx4 j -> j <> source -> bres_Key res = key ->
  waiters_move source (br_waiters (record_of (records_of (co_ctas c)) key)) (br_waiters after) res ->
  slot_ok (applyBarrierReleases (set_manager (with_record key after (co_ctas c)) c) source res) j.
Proof.
  intros Hc Ha Hj Hne Hk Hm. set (m' := with_record key after (co_ctas c)). set (c1 := set_manager m' c). set (c2 := applyBarrierReleases c1 source res).
  pose proof (cr_slots I c Hc j Hj) as Hs. destruct (releases_rest c1 source res) as (_ & Ea & Eo & Em & _). fold c2 in Ea, Eo, Em.
  pose proof (releases_slots c1 source res j Hj) as Esl. fold c2 in Esl. change (slot_at c1 j) with (slot_at c j) in Esl.
  assert (forall k, listed m' k j = if bool_decide (k = key) then WarpMask_Active (br_waiters after) j else listed (co_ctas c) k j) as Hl.
  { intros k. unfold listed. unfold m'. rewrite with_record_of. by destruct (bool_decide (k = key)). }
  assert (WarpMask_Active (br_waiters after) j = listed (co_ctas c) key j && negb (WarpMask_Active (bres_Releases res) j)) as Haft.
  { rewrite (wm_after _ _ _ _ Hm j Hj). destruct (Z.eqb_spec j source); [done|]. by rewrite andb_false_r, orb_false_r. }
  destruct (woken source res j) eqn:Ew; unfold woken in Ew.
  - apply andb_true_iff in Ew as [Erel _].
    assert (listed (co_ctas c) key j = true) as Hlist by (by destruct (wm_released _ _ _ _ Hm j Hj Erel)).
    pose proof (proj2 (sw_waits I c j Hs Ha key) Hlist) as [Hw Hwk]. destruct (waiting_blocked c j Hs Hw) as (El & Er & Hp).
    destruct Hs as [H1 H2 (w & Hw1 & Hw2 & Hw3) H4 H5 H6 H7 H8 H9]. unfold lifecycle_consistent in Hw3. rewrite El, !andb_true_iff in Hw3.
    destruct Hw3 as [[_ Hrun] Hmask]. split; rewrite ?Esl, ?Ea, ?Eo, ?Em; try done.
    + exists w. split_and!; [done|done|]. unfold lifecycle_consistent. cbn. by rewrite Hp, Hrun, Hmask.
    + intros _ k. cbn. change (co_ctas c1) with m'. rewrite Hl. unfold waits. cbn. split; [by intros [[=] _]|].
      destruct (bool_decide_reflect (k = key)) as [->|Hkne]; [by rewrite Haft, Erel, andb_false_r|].
      intros [_ Hx]%(H8 Ha k). congruence.
  - apply (slot_wf_frame I c); [done|done|done|by rewrite Eo|by rewrite Em| |].
    + intros k. rewrite Em. change (co_ctas c1) with m'. rewrite Hl. destruct (bool_decide_reflect (k = key)) as [->|]; [|done]. rewrite Haft.
      destruct (WarpMask_Active (bres_Releases res) j); [|by rewrite andb_true_r]. by destruct (Z.eqb_spec j source).
    + intros _. by rewrite Em.
Qed.

Lemma routes_frame c c' : (forall j, idx4 j -> sl_executor (slot_at c' j) = sl_executor (slot_at c j)) ->
  cm_dynamic (co_ctas c') = cm_dynamic (co_ctas c) -> cm_byWarp (co_ctas c') = cm_byWarp (co_ctas c) ->
  forall j, idx4 j -> route_ok c' j = route_ok c j.
Proof. intros He Hd Hb j Hj. unfold route_ok, HasWarp. by rewrite He, Hd, Hb. Qed.

Lemma released_executor c source res j : idx4 j -> sl_executor (slot_at (applyBarrierReleases c source res) j) = sl_executor (slot_at c j).
Proof. intros Hj. rewrite releases_slots by done. by destruct (woken source res j). Qed.

(** An event completion keeps the invariant. *)
Lemma CompleteBarrierEvent_wf c key : core_ok c -> core_ok (CompleteBarrierEvent c key).1.
Proof.
  intros Hc. unfold CompleteBarrierEvent. rewrite (validate_ok I c Hc). cbn [result_bind]. destruct (co_attached c) eqn:Ha; [|done].
  destruct (StageEventCompletion (co_ctas c) key) as [s|e] eqn:Es; [|done]. cbn [result_bind].
  destruct (completion_moves _ key s FrozenWarpCount (cr_records I c Hc) Es) as (Ek & Hwf & Eres & _ & Hm & Hcm & Hb & Hv).
  rewrite Hb in Hm. rewrite (validateBarrierReleases_ok c FrozenWarpCount key _ _ Hc Ha Eres Hm). cbn [result_bind].
  rewrite commit_fresh by (by rewrite ?Ek). cbn [fst]. rewrite Ek.
  change (set_barriers (Some (<[key:=bst_after s]> (records_of (co_ctas c)))) (co_ctas c)) with (with_record key (bst_after s) (co_ctas c)).
  set (c1 := set_manager (with_record key (bst_after s) (co_ctas c)) c).
  destruct (releases_rest c1 FrozenWarpCount (bst_result s)) as (En & Ea & Eo & Em & Eg). split.
  - intros j Hj. apply released_slot; try done. apply idx4_range in Hj. unfold FrozenWarpCount. lia.
  - rewrite En. apply (cr_next I c Hc).
  - rewrite Eo. apply (cr_owners I c Hc).
  - rewrite Em. destruct (cr_ctas I c Hc) as ([] & Hp & Hr). by split_and!.
  - rewrite Em. apply insert_records_wf; [apply (cr_records I c Hc)|done].
  - intros _ j Hj. rewrite (routes_frame c); [by apply (cr_routes I c Hc)|intros k Hk; by rewrite released_executor|by rewrite Em..|done].
  - rewrite Eg. apply (cr_global I c Hc).
Qed.
End Releases.
