(* ===== verification/CoreCoordinate.v ===== *)
(** * Coordinated instructions keep the core's invariant

    WSPAWN, WSYNC and the barriers: what the core does once the executor has deferred
    one of them.  In each case the source keeps running or blocks for the stated
    reason, and every slot, owner and record still agrees. *)

From S2P Require Import Prelude IsaTypes Catalog Decode Integer System Custom Softfloat Float Memory WarpState Apply ApplyInvariant View EvaluateTyped WarpExec WarpCorrect.
From S2P Require Import Cta CtaInvariant CtaTyped CtaMemory Barrier BarrierSpec Launch LaunchSpec Core CoreStep Scheduling Admission CoreInvariant CoreBarrier.

#[local] Open Scope Z_scope.
#[local] Open Scope go_scope.

Section Coordinate.
Context {G : Type} (I : G -> Prop).
Implicit Type c : Core G.

Notation slot_ok := (slot_wf I).
Notation core_ok := (core_wf I).

(** ** The source's owner *)

Definition running (w : WarpState) : Prop := w_lifecycle w = WarpRunning /\ w_activeMask w <> 0.

Lemma running_consistent (s : slot G) w w' : running w -> running w' -> lifecycle_consistent s w = lifecycle_consistent s w'.
Proof.
  intros [E1 E2%Z.eqb_neq] [E3 E4%Z.eqb_neq]. unfold lifecycle_consistent. by rewrite E1, E3, E2, E4.
Qed.

Lemma owner_distinct c i j : core_ok c -> idx4 i -> idx4 j -> sl_owner (slot_at c i) = sl_owner (slot_at c j) -> i = j.
Proof.
  intros Hc Hi Hj E. destruct (sw_owner I c i (cr_slots I c Hc i Hi)) as (w & Hw & Hwi & _).
  destruct (sw_owner I c j (cr_slots I c Hc j Hj)) as (w' & Hw' & Hwj & _). rewrite E, Hw' in Hw. injection Hw as ->. congruence.
Qed.

(** Replacing one owner by another image of the same warp. *)
Lemma owner_wf c j w' : core_ok c -> idx4 j -> warp_wf w' -> w_id w' = j -> lifecycle_consistent (slot_at c j) w' = true ->
  core_ok (set_owners (<[sl_owner (slot_at c j) := w']> (co_owners c)) c).
Proof.
  intros Hc Hj Hw Hid Hlc. pose proof Hc as [Hs Hn Ho Hm Hr Hrt Hg]. split; try done.
  - intros k Hk. destruct (Z.eq_dec k j) as [->|Hne].
    + destruct (Hs j Hj) as [H1 H2 _ H4 H5 H6 H7 H8 H9]. split; try done. exists w'. split_and!; try done. cbn. by rewrite lookup_insert_eq.
    + apply (slot_wf_frame I c); [by apply Hs|done|done| |done..]. cbn. rewrite lookup_insert_ne; [done|]. intros E. apply Hne.
      symmetry. by apply (owner_distinct c).
  - intros p w. cbn. intros [[_ <-]|[_ H]]%lookup_insert_Some; [done|by apply (Ho p)].
Qed.

(** The source of a coordinated instruction: a runnable slot and its running owner. *)
Record source_at c id w r e : Prop := {
  sa_core : core_ok c;
  sa_id : idx4 id;
  sa_runnable : sl_lifecycle (slot_at c id) = SlotRunnable;
  sa_owner : co_owners c !! sl_owner (slot_at c id) = Some w;
  sa_effects : r_Effects r = Some e;
  sa_typed : effects_typed e;
  sa_next : r_NextLifecycle r = WarpRunning;
  sa_outcome : r_Outcome r = OutcomeDeferred
}.

Lemma source_facts c id w r e : source_at c id w r e ->
  warp_wf w /\ w_id w = id /\ running w /\ sl_participated (slot_at c id) = true /\ sl_barrierWait (slot_at c id) = false /\
  lifecycle_consistent (slot_at c id) w = true.
Proof.
  intros [Hc Hid Hrun Hw _ _ _ _]. pose proof (cr_slots I c Hc id Hid) as Hs. destruct (sw_owner I c id Hs) as (w' & Hw' & Hwid & Hlc).
  rewrite Hw in Hw'. injection Hw' as <-. destruct (consistent_runnable _ _ Hrun Hlc) as (Hp & Hr & Hwl & Hwm%negb_true_iff%Z.eqb_neq).
  split_and!; try done; [by apply (cr_owners I c Hc _ _ Hw)|]. apply (not_waiting I c id Hs). by rewrite Hr.
Qed.

(** The source blocks, or becomes runnable again. *)
Lemma source_schedule c id w r e l reason : source_at c id w r e ->
  (l = SlotRunnable /\ reason = BlockNone) \/ (l = SlotBlocked /\ validBlockReason reason = true) -> core_ok (update_slot id (schedule l reason) c).
Proof.
  intros Hsrc Hl. destruct (source_facts c id w r e Hsrc) as (_ & _ & _ & _ & Hnw & _). destruct Hsrc. apply schedule_wf; auto.
Qed.

(** The source's owner moves to a staged image that leaves its lanes alone. *)
Lemma source_moves c id w r e st : source_at c id w r e -> mask_quiet e -> StageEffects w e = Ok st ->
  let c' := set_owners (<[sl_owner (slot_at c id) := es_after st]> (co_owners c)) c in
  core_ok c' /\ w_lifecycle (es_after st) = WarpRunning /\ source_at c' id (es_after st) r e.
Proof.
  intros Hsrc Hq Hst. destruct (source_facts c id w r e Hsrc) as (Hw & Hwid & [Hwl Hwm] & Hp & Hnw & Hlc). destruct Hsrc as [Hc Hid Hrun Ho He Ht Hn Hdo].
  destruct (StageEffects_lanes w e st Hw Ht Hq Hst) as [El Em]. destruct (StageEffects_after_wf w e st Hw Ht Hst) as [Hawf _].
  pose proof (StageEffects_id w e st Hw Ht Hst) as Eid. cbv zeta.
  assert (core_ok (set_owners (<[sl_owner (slot_at c id) := es_after st]> (co_owners c)) c)) as Hc0.
  { apply owner_wf; [done|done|done|congruence|]. rewrite (running_consistent _ _ w); [done|by split; [rewrite El|rewrite Em]|by split]. }
  split; [done|]. split; [by rewrite El|]. split; try done. cbn. by rewrite lookup_insert_eq.
Qed.

(** ** Barriers *)

(** A barrier request of a runnable warp, committed and scheduled. *)
Lemma transition_wf c source key after res :
  core_ok c -> co_attached c = true -> idx4 source -> sl_lifecycle (slot_at c source) = SlotRunnable ->
  key_valid (co_ctas c) key -> bres_Key res = key -> record_wf after ->
  waiters_move source (br_waiters (record_of (records_of (co_ctas c)) key)) (br_waiters after) res ->
  let c1 := applyBarrierReleases (set_manager (with_record key after (co_ctas c)) c) source res in
  core_ok (if bres_Block res then update_slot source (reschedule SlotBlocked BlockBarrier key true false) c1
           else update_slot source (schedule SlotRunnable BlockNone) c1).
Proof.
  intros Hc Ha Hsrc Hrun Hkey Hrk Hwf Hm. cbv zeta. set (m' := with_record key after (co_ctas c)). set (c1 := applyBarrierReleases (set_manager m' c) source res).
  destruct (releases_rest (set_manager m' c) source res) as (En & Ea & Eo & Em & Eg). fold c1 in En, Ea, Eo, Em, Eg.
  pose proof (releases_slots (set_manager m' c) source res source Hsrc) as Esl. fold c1 in Esl. unfold woken in Esl. rewrite Z.eqb_refl, andb_false_r in Esl.
  change (slot_at (set_manager m' c) source) with (slot_at c source) in Esl.
  pose proof (cr_slots I c Hc source Hsrc) as Hs. destruct (sw_owner I c source Hs) as (w & Hw & Hwid & Hlc).
  destruct (consistent_runnable _ _ Hrun Hlc) as (Hp & Hr & Hwl & Hwm). assert (sl_blockReason (slot_at c source) <> BlockBarrier) as Hnb by (by rewrite Hr).
  pose proof (not_waiting I c source Hs Hnb) as Hnw.
  assert (forall k, listed (co_ctas c) k source = false) as Hnl.
  { intros k. apply not_true_iff_false. intros [Hx _]%(sw_waits I c source Hs Ha). congruence. }
  assert (forall k, listed m' k source = bool_decide (k = key) && bres_Block res) as Hl.
  { intros k. unfold listed, m'. rewrite with_record_of. destruct (bool_decide_reflect (k = key)) as [->|]; [|apply Hnl].
    rewrite (wm_after _ _ _ _ Hm source Hsrc), Z.eqb_refl. unfold listed in Hnl. by rewrite Hnl, andb_true_r. }
  set (f := if bres_Block res then reschedule SlotBlocked BlockBarrier key true false else schedule (G := G) SlotRunnable BlockNone).
  assert ((if bres_Block res then update_slot source (reschedule SlotBlocked BlockBarrier key true false) c1
           else update_slot source (schedule SlotRunnable BlockNone) c1) = update_slot source f c1) as -> by (unfold f; by destruct (bres_Block res)).
  split.
  - intros j Hj. destruct (Z.eq_dec j source) as [->|Hne].
    + destruct Hs as [H1 H2 _ H4 H5 H6 H7 H8 H9]. split; rewrite ?slot_at_update, ?Z.eqb_refl, ?Esl by done; cbn [update_slot set_slots co_attached co_owners co_ctas]; rewrite ?Ea, ?Eo, ?Em; subst f; cbn [set_manager co_ctas co_attached co_owners] in *.
      * by destruct (bres_Block res).
      * by destruct (bres_Block res).
      * exists w. split_and!; [by destruct (bres_Block res)|done|]. unfold lifecycle_consistent.
        destruct (bres_Block res); cbn; rewrite Hp, Hwl, Hwm; by rewrite bool_decide_eq_true_2.
      * intros _ _. by apply H4.
      * by destruct (bres_Block res).
      * by destruct (bres_Block res).
      * by destruct (bres_Block res).
      * intros _ k. rewrite Hl. unfold waits. destruct (bres_Block res); cbn; rewrite ?andb_true_r, ?andb_false_r; [|intuition discriminate].
        rewrite bool_decide_eq_true. intuition congruence.
      * destruct (bres_Block res); [|done]. cbn. intros _. exact Hkey.
    + apply update_other; [done|done|by apply not_eq_sym|]. by apply released_slot.
  - change (0 <= co_next c1 < 4). rewrite En. apply (cr_next I c Hc).
  - change (owners_wf (co_owners c1)). rewrite Eo. apply (cr_owners I c Hc).
  - change (cta_wf (co_ctas c1) /\ packed (co_ctas c1) /\ residents (co_ctas c1)). rewrite Em. destruct (cr_ctas I c Hc) as ([] & ? & ?). by split_and!.
  - change (records_wf (co_ctas c1)). rewrite Em. apply insert_records_wf; [apply (cr_records I c Hc)|done].
  - intros _ j Hj. rewrite route_update by (done || by unfold f; destruct (bres_Block res)).
    rewrite (routes_frame c); [by apply (cr_routes I c Hc)|intros k Hk; unfold c1; by rewrite released_executor|by rewrite Em..|done].
  - change (I (co_global c1)). rewrite Eg. apply (cr_global I c Hc).
Qed.

(** The key of an accepted request names a resident CTA and one of its warps. *)
Lemma keyForEffect_valid m e key members : cta_wf m -> keyForEffect m e = Ok (key, members) -> key_valid m key.
Proof.
  intros Hw H. unfold keyForEffect in H. change FrozenWarpCount with 4 in H. change frozenBarrierCount with 8 in H.
  destruct (Z.leb_spec 4 (be_WarpID e)); [done|]. destruct (Z.leb_spec 4 (be_AddressWarp e)); [done|]. destruct (Z.leb_spec 8 (be_ID e)); [done|]. cbn [orb negb] in H.
  do 2 pass_check. destruct (ViewForWarp m (be_WarpID e)) as [source|]; [|done].
  destruct (ViewForWarp m (be_AddressWarp e)) as [address|] eqn:Ev; [|done]. destruct (Z.eqb_spec (cta_ID address) (cta_ID source)) as [E|]; [|done].
  apply Ok_inj in H as [= <- _]. split_and!; cbn; [lia|lia|]. unfold ViewForWarp in Ev. pass_check. destruct (qget _ _) as [k|]; [|done].
  destruct (cm_ctas m !! wk_ctaID k) as [c|] eqn:Ec; [|done]. destruct (List.find _ _) as [mem|] eqn:Ef; [|done]. apply Ok_inj in Ev as <-. cbn in E.
  apply find_some in Ef as [Hin [_ Hx%Z.eqb_eq]%andb_true_iff]. destruct (cw_id m Hw _ _ Ec) as [Eid _]. exists c, mem. rewrite <- E, Eid.
  split_and!; [done|by apply list_elem_of_In|done].
Qed.

Lemma owners_same c p w : co_owners c !! p = Some w -> set_owners (<[p := w]> (co_owners c)) c = c.
Proof. intros H. rewrite insert_id by done. by destruct c. Qed.

Lemma forwarded_stage w e st owner (m m' : CTAManager) apply : StageEffects w e = Ok st -> owner = w -> es_requiresExternal st = true ->
  apply (w, m) = (w, m', Ok tt) -> CommitForwardedWithExternal owner m st apply = (es_after st, m', mark_committed st, Ok tt).
Proof.
  intros (Hb & Hc & _)%StageEffects_inv -> Hr Ha. unfold CommitForwardedWithExternal. rewrite Hr, Hc, Hb. cbn [negb]. by rewrite bool_decide_true, Ha.
Qed.

(** A coordinated instruction has retired, or its warp is blocked. *)
Definition coordinated c' id (r' : Result) : Prop :=
  r_NextLifecycle r' = WarpRunning /\ (sl_lifecycle (slot_at c' id) = SlotBlocked /\ r_Outcome r' = OutcomeDeferred \/ r_Outcome r' = OutcomeRetired).

Lemma complete_running c' id c p w r : co_owners c !! p = Some w -> w_lifecycle w = WarpRunning ->
  coordinated c' id (completeDeferredResult c p r).
Proof. unfold completeDeferredResult, deref, coordinated. intros -> H. auto. Qed.

Lemma blocked_coordinated c id f r : idx4 id -> (forall s, sl_lifecycle (f s) = SlotBlocked) -> r_NextLifecycle r = WarpRunning ->
  r_Outcome r = OutcomeDeferred -> coordinated (update_slot id f c) id r.
Proof. intros Hid Hf Hr Ho. split; [done|]. left. split; [|done]. rewrite slot_at_update, Z.eqb_refl by done. apply Hf. Qed.

Lemma empty_nil {A} (l : list A) : empty l = true -> l = [].
Proof. by destruct l. Qed.

(** A barrier that must wait for the LSU blocks its warp without a record. *)
Lemma drain_wf c id w r e : source_at c id w r e -> core_ok (update_slot id (reschedule SlotBlocked BlockBarrier no_key false true) c).
Proof.
  intros Hsrc. destruct (source_facts c id w r e Hsrc) as (_ & Hwid & [Hwl Hwm%Z.eqb_neq] & Hp & Hnw & _). destruct Hsrc as [Hc Hid _ Hw _ _ _ _].
  apply core_wf_update; [done..|]. destruct (cr_slots I c Hc id Hid) as [H1 H2 _ H4 H5 H6 H7 H8 H9].
  split; rewrite ?slot_at_update, ?Z.eqb_refl by done; try done; [|].
  - exists w. split_and!; [done|done|]. unfold lifecycle_consistent. cbn. by rewrite Hp, Hwl, Hwm.
  - intros Ha k. rewrite <- (H8 Ha k). unfold waits. rewrite Hnw. cbn. intuition discriminate.
Qed.

(** What an accepted barrier request rests on. *)
Lemma barrierPlan_inv c id w view name e effect stage request :
  co_owners c !! sl_owner (slot_at c id) = Some w -> barrierPlan c id w view name e = Ok (effect, stage, request) ->
  mask_quiet e /\ Barriers e = [effect] /\ be_WarpID effect = id /\ StageEffects w e = Ok stage /\
  (exists expected, stage_barrier (co_ctas c) effect (Some expected) = Ok request).
Proof.
  intros Hw H. unfold barrierPlan in H. destruct (Barriers e) as [|x [|y l]]; try done. unfold deref in H. rewrite Hw in H.
  match type of H with (if ?b then _ else _) = _ => destruct b eqn:Hq; [|done] end. rewrite !andb_true_iff in Hq.
  destruct Hq as [[[[[[[[[[[[_ _] _] _] _] _] _] _] Ht] Hm%empty_nil] Hd] _] _].
  match type of H with (if ?b then _ else _) = _ => destruct b eqn:Hid; [|done] end. apply andb_true_iff in Hid as [Hid%Z.eqb_eq _]. cbn [result_bind] in H.
  pass_check. apply result_bind_ok in H as (st & Hst & H). pass_check. apply result_bind_ok in H as (rq & Hrq & H).
  apply result_bind_ok in H as (u & _ & [= <- <- <-]%Ok_inj). unfold stageFromView in Hrq. pass_check. cbv zeta in Hrq.
  split_and!; try done; [|by eexists]. split_and!; [done|by destruct (Divergence e)|by destruct (Trap e)].
Qed.

Lemma coordinateBarrier_wf c id w view lsu r d e :
  source_at c id w r e -> co_attached c = true -> r_Decoded r = Some d ->
  match coordinateBarrier c id w view lsu r with
  | (c', r', _, Ok _) => core_ok c' /\ coordinated c' id r'
  | (c', _, _, Err _) => c' = c
  end.
Proof.
  intros Hsrc Ha Hd. destruct (source_facts c id w r e Hsrc) as (Hww & Hwid & [Hwl Hwm] & Hp & Hnw & Hlc).
  pose proof Hsrc as [Hc Hid Hrun Hw He Ht Hnext Hdef]. unfold coordinateBarrier. rewrite Hd, He. destruct lsu.
  { destruct (_ && _); [|done]. split; [by apply (drain_wf c id w r e)|by apply blocked_coordinated]. }
  destruct (barrierPlan c id w view (d_Name d) e) as [[[effect stage] request]|x] eqn:Epl; [|done].
  destruct (barrierPlan_inv c id w view (d_Name d) e effect stage request Hw Epl) as (Hq & Heff & Hsid & Hst & expected & Hrq).
  pose proof (et_barriers e Ht) as Hbt. rewrite Heff in Hbt. apply Forall_cons in Hbt as [Hbt _].
  destruct (stage_moves _ effect (Some expected) request (cr_records I c Hc) Hbt Hrq) as ([[members Hkey] Hb Hv Hpend Hwf Hres] & Hm).
  destruct (cr_ctas I c Hc) as (Hcta & _ & _). pose proof (keyForEffect_valid _ _ _ _ Hcta Hkey) as Hkv.
  set (m' := with_record (bst_key request) (bst_after request) (co_ctas c)).
  cbv zeta. set (apply := fun '(w0, m0) => let '(m1, _, res) := Barrier_Commit m0 request in (w0, m1, res)).
  assert (apply (w, co_ctas c) = (w, m', Ok tt)) as Happ by (unfold apply; by rewrite (commit_fresh (co_ctas c) request Hpend Hb Hv)).
  destruct (es_requiresExternal stage) eqn:Ereq.
  2: { unfold CommitForwardedWithExternal. rewrite Ereq. cbn [negb]. rewrite owners_same by done. by apply manager_eta. }
  rewrite (forwarded_stage w e stage w (co_ctas c) m' apply Hst eq_refl Ereq Happ).
  destruct (source_moves c id w r e stage Hsrc Hq Hst) as (Hc0 & El & _).
  set (c0 := set_owners (<[sl_owner (slot_at c id) := es_after stage]> (co_owners c)) c) in *. rewrite Hsid, Hb in Hm.
  pose proof (transition_wf c0 id (bst_key request) (bst_after request) (bst_result request) Hc0 Ha Hid Hrun Hkv Hres Hwf Hm) as Hfin. cbv zeta in Hfin.
  rewrite Hres. split; [exact Hfin|]. destruct (releases_rest (set_manager m' c0) id (bst_result request)) as (_ & _ & Eo & _ & _).
  assert (forall c1 f, co_owners c1 = co_owners c0 -> co_owners (update_slot id f c1) !! sl_owner (slot_at c id) = Some (es_after stage)) as Hlook
    by (intros c1 f E; cbn; rewrite E; cbn; by rewrite lookup_insert_eq).
  eapply complete_running; [|exact El]. by destruct (bres_Block (bst_result request)); apply Hlook.
Qed.

(** ** WSYNC *)

Lemma only_coordination_quiet e : only_coordination e = true -> mask_quiet e.
Proof.
  unfold only_coordination. rewrite !andb_true_iff. intros [[[[[_ Ht] Hm%empty_nil] Hd] _] _]. split_and!; [done|by destruct (Divergence e)|by destruct (Trap e)].
Qed.

Lemma syncPlan_inv c id w pending r e w' st : source_at c id w r e -> syncPlan c id pending r = Ok (Some (w', st)) ->
  w' = w /\ mask_quiet e /\ StageEffects w e = Ok st.
Proof.
  intros Hsrc H. unfold syncPlan in H. rewrite (sa_effects _ _ _ _ _ Hsrc) in H. destruct (WarpDrains e) as [|x [|y l]]; try done.
  match type of H with (if ?b then _ else _) = _ => destruct b eqn:Hq; [|done] end. rewrite !andb_true_iff in Hq. destruct Hq as [[_ Hq] _].
  destruct pending; [done|]. unfold deref in H. rewrite (sa_owner _ _ _ _ _ Hsrc) in H. cbn [result_bind] in H.
  apply result_bind_ok in H as (st' & Hst & H). pass_check. apply Ok_inj in H as [= <- <-]. split_and!; [done|by apply only_coordination_quiet|done].
Qed.

Lemma coordinateWarpSync_wf c id w pending r e : source_at c id w r e ->
  match coordinateWarpSync c id pending r with
  | (c', r', Ok _) => core_ok c' /\ coordinated c' id r'
  | (c', _, Err _) => c' = c
  end.
Proof.
  intros Hsrc. unfold coordinateWarpSync. destruct (syncPlan c id pending r) as [[[w' st]|]|x] eqn:Epl; [| |done].
  - destruct (syncPlan_inv c id w pending r e w' st Hsrc Epl) as (-> & Hq & Hst). unfold CommitAfterExternal.
    destruct (es_requiresExternal st) eqn:Er; cbn [negb].
    2: { apply owners_same, Hsrc. }
    pose proof (CommitAfterExternal_fresh w e st Hst Er) as Hcommit. unfold CommitAfterExternal in Hcommit. rewrite Er in Hcommit. cbn [negb] in Hcommit. rewrite Hcommit.
    destruct (source_moves c id w r e st Hsrc Hq Hst) as (Hc0 & El & Hsrc0). split.
    + by apply (source_schedule _ id (es_after st) r e); [|left].
    + eapply complete_running; [|exact El]. cbn. by rewrite lookup_insert_eq.
  - split; [apply (source_schedule c id w r e); [done|by right]|apply blocked_coordinated; [apply Hsrc|done|apply Hsrc|apply Hsrc]].
Qed.

(** ** WSPAWN *)

Lemma fold_update_slots {A} (idof : A -> Z) f (xs : list A) c : (forall s, f (f s) = f s) -> Forall (fun x => idx4 (idof x)) xs ->
  let c' := fold_left (fun c x => update_slot (idof x) f c) xs c in
  (forall j, idx4 j -> slot_at c' j = if bool_decide (j ∈ map idof xs) then f (slot_at c j) else slot_at c j) /\
  co_next c' = co_next c /\ co_attached c' = co_attached c /\ co_owners c' = co_owners c /\ co_ctas c' = co_ctas c /\ co_global c' = co_global c.
Proof.
  intros Hf Hx. cbv zeta. revert c. induction Hx as [|x xs Hx Hxs IH]; intros c; cbn [fold_left map]; [done|].
  destruct (IH (update_slot (idof x) f c)) as (Hs & -> & -> & -> & -> & ->). split; [|done]. intros j Hj. rewrite (Hs j Hj), slot_at_update by done.
  rewrite (bool_decide_ext (j ∈ idof x :: _) (j = idof x \/ j ∈ map idof xs)) by apply elem_of_cons. rewrite bool_decide_or.
  destruct (Z.eqb_spec j (idof x)) as [->|Hne].
  - rewrite (bool_decide_eq_true_2 (idof x = idof x)) by done. cbn [orb]. case_bool_decide; [apply Hf|done].
  - by rewrite (bool_decide_eq_false_2 (j = _)) by done.
Qed.

(** The targets the core passes to the staging: unused slots with their owners. *)
Lemma coreTargets_inv c spawn before ws acc targets : Forall idx4 ws -> foldM (coreTarget c spawn before) acc ws = Ok targets ->
  Forall (fun t => idx4 (st_WarpID t) /\ selected (ws_Targets spawn) (st_WarpID t) = true /\ st_Owner t = Some (sl_owner (slot_at c (st_WarpID t))) /\
    sl_lifecycle (slot_at c (st_WarpID t)) = SlotInactive) acc ->
  Forall (fun t => idx4 (st_WarpID t) /\ selected (ws_Targets spawn) (st_WarpID t) = true /\ st_Owner t = Some (sl_owner (slot_at c (st_WarpID t))) /\
    sl_lifecycle (slot_at c (st_WarpID t)) = SlotInactive) targets.
Proof.
  intros Hws H Ha. refine (foldM_inv _ _ _ _ _ Ha _ H). intros ts id ts' Hid Hts Hstep. unfold coreTarget in Hstep.
  rewrite Forall_forall in Hws. pose proof (Hws id Hid) as Hi. destruct (selected (ws_Targets spawn) id) eqn:Es; cbn [negb] in Hstep; [|by apply Ok_inj in Hstep as <-].
  destruct (bool_decide_reflect (sl_lifecycle (slot_at c id) = SlotInactive)) as [Hl|]; [|done]. pass_check. apply Ok_inj in Hstep as <-.
  apply Forall_app. split; [done|]. by constructor; [|constructor].
Qed.

Record spawn_planned c id w e spawn st targets cs : Prop := {
  sn_spawn : WarpSpawn e = Some spawn;
  sn_stage : StageEffects w e = Ok st;
  sn_targets : Forall (fun t => idx4 (st_WarpID t) /\ selected (ws_Targets spawn) (st_WarpID t) = true /\
    st_Owner t = Some (sl_owner (slot_at c (st_WarpID t))) /\ sl_lifecycle (slot_at c (st_WarpID t)) = SlotInactive) targets;
  sn_member : co_attached c = true -> forall j, idx4 j -> selected (ws_Targets spawn) j = true -> HasWarp (co_ctas c) j = true;
  sn_source : spawn_source (co_owners c) (sl_owner (slot_at c id)) st spawn (u32 (w_pc w + 4));
  sn_cands : spawnable (co_owners c) (sl_owner (slot_at c id)) spawn targets cs
}.

Lemma ValidateSpawn_members m sourceID targets j : ValidateSpawn m sourceID targets = Ok tt -> idx4 j -> selected targets j = true -> HasWarp m j = true.
Proof.
  intros H Hj Hsel. unfold ValidateSpawn in H. pass_check. destruct (qget (cm_byWarp m) sourceID) as [source|]; [|done].
  destruct (cm_ctas m !! wk_ctaID source) as [cta|]; [|done]. pass_check. destruct (forallb _ _) eqn:Hf; [|done].
  pose proof (forallb_elem _ _ Hf j) as Hx. cbv beta in Hx. unfold selected in Hsel. apply negb_true_iff in Hsel.
  apply HasWarp_spec; [done|]. destruct (qget (cm_byWarp m) j) as [target|]; [by eexists|]. exfalso.
  rewrite orb_false_r in Hx. rewrite Hx in Hsel; [done|]. by apply ids_idx4.
Qed.

Lemma spawnPlan_inv c id w active before r e transaction targets : source_at c id w r e ->
  spawnPlan c id active before r = Ok (Some (transaction, targets)) ->
  exists spawn st cs, spawn_planned c id w e spawn st targets cs /\ transaction = mkWarpSpawnStage (sl_owner (slot_at c id)) st cs false.
Proof.
  intros Hsrc H. unfold spawnPlan in H. rewrite (sa_effects _ _ _ _ _ Hsrc) in H. destruct (WarpSpawn e) as [spawn|] eqn:Espawn; [|done].
  apply result_bind_ok in H as (u & _ & H). apply result_bind_ok in H as ([] & Hv & H). destruct (active <>? _); [done|].
  apply result_bind_ok in H as (ts & Hts & H). cbv zeta in H. unfold deref in H. rewrite (sa_owner _ _ _ _ _ Hsrc) in H. cbn [result_bind] in H.
  do 2 pass_check. apply result_bind_ok in H as (st & Hst & H). apply result_bind_ok in H as (tr & Htr & [= <- <-]%Ok_inj).
  unfold StageWarpSpawn in Htr. apply stageWarpSpawn_ok in Htr as (spawn' & cs & Hs & Hc & ->). cbn [spawn_pc] in Hs.
  pose proof (StageEffects_inv _ _ _ Hst) as (Eb & _ & Ef & _).
  assert (spawn' = spawn) as -> by (pose proof (ss_spawn _ _ _ _ _ Hs) as E; rewrite Ef in E; cbn in E; rewrite Espawn in E; by injection E).
  exists spawn, st, cs. split; [|done]. split; try done; [| |by rewrite <- Eb].
  - eapply coreTargets_inv; [|exact Hts|constructor]. apply Forall_forall. intros x. apply ids_idx4.
  - intros Ha j Hj Hsel. rewrite Ha in Hv. by eapply ValidateSpawn_members.
Qed.

(** The owners the staging found are the slots' own. *)
Lemma planned_owners c id w e spawn st targets cs : spawn_planned c id w e spawn st targets cs ->
  (forall t, t ∈ targets -> exists wt, co_owners c !! sl_owner (slot_at c (st_WarpID t)) = Some wt /\
     installed cs (<[sl_owner (slot_at c id) := es_after st]> (co_owners c)) !! sl_owner (slot_at c (st_WarpID t)) =
       Some (activated (ws_TargetPC spawn) 1 (ws_MScratch spawn) wt)) /\
  (forall p, p ∈ map cd_owner cs -> exists t, t ∈ targets /\ p = sl_owner (slot_at c (st_WarpID t))).
Proof.
  intros [_ _ Htg _ Hss (Hf2 & _ & [_ Hd]%NoDup_cons & _)]. rewrite Forall_forall in Htg.
  assert (forall t cd, t ∈ targets -> spawn_staged (co_owners c) spawn t cd -> cd_owner cd = sl_owner (slot_at c (st_WarpID t))) as Hown.
  { intros t cd Hin Hst. destruct (Htg t Hin) as (_ & _ & Hto & _). rewrite (so_owner _ _ _ _ Hst) in Hto. by injection Hto. }
  split.
  - intros t Hin. apply list_elem_of_lookup in Hin as Hi. destruct Hi as (i & Hi). destruct (Forall2_lookup_l _ _ _ _ _ Hf2 Hi) as (cd & Hcd & Hst).
    exists (cd_before cd). rewrite <- (Hown t cd Hin Hst). split; [apply Hst|]. rewrite installed_in; [|done|by eapply list_elem_of_lookup_2].
    rewrite (so_after _ _ _ _ Hst). pose proof (ss_valid _ _ _ _ _ Hss) as Hv. apply validateFrozenSpawn_ok in Hv as (_ & _ & _ & _ & _ & _ & _ & -> & _). done.
  - intros p (cd & -> & (i & Hi)%list_elem_of_lookup)%list_elem_of_fmap. destruct (Forall2_lookup_r _ _ _ _ _ Hf2 Hi) as (t & Ht & Hst).
    apply list_elem_of_lookup_2 in Ht. exists t. split; [done|]. by apply Hown.
Qed.

Lemma spawned_wf c id w r e spawn st targets cs : source_at c id w r e -> spawn_planned c id w e spawn st targets cs ->
  let h := installed cs (<[sl_owner (slot_at c id) := es_after st]> (co_owners c)) in
  let c1 := fold_left (fun c t => update_slot (st_WarpID t) (started (G := G)) c) targets (set_owners h c) in
  core_ok (update_slot id (schedule SlotRunnable BlockNone) c1) /\
  co_owners c1 !! sl_owner (slot_at c id) = Some (set_pc (u32 (w_pc w + 4)) w) /\ sl_owner (slot_at c1 id) = sl_owner (slot_at c id).
Proof.
  intros Hsrc Hpl. destruct (source_facts c id w r e Hsrc) as (Hw & Hwid & [Hwl Hwm] & Hp & Hnw & Hlc). destruct Hsrc as [Hc Hid Hrun Ho He Ht Hn Hdo].
  destruct (planned_owners _ _ _ _ _ _ _ _ Hpl) as [Htown Hcown]. destruct Hpl as [Espawn Hst Htg Hmem Hss Hcand]. pose proof (StageEffects_inv _ _ _ Hst) as (Eb & _).
  destruct (spawn_installed _ _ _ _ _ _ _ Hss Hcand) as (Hsource & _ & Hother). rewrite Eb in Hsource. cbv zeta.
  set (h := installed cs (<[sl_owner (slot_at c id) := es_after st]> (co_owners c))) in *.
  assert (Forall (fun t => idx4 (st_WarpID t)) targets) as Hti by (eapply Forall_impl; [exact Htg|]; by intros ? []).
  destruct (fold_update_slots st_WarpID (started (G := G)) targets (set_owners h c) (fun s => eq_refl) Hti) as (Hsl & En & Ea & Eo & Em & Eg).
  set (c1 := fold_left _ targets (set_owners h c)) in *. cbn [set_owners co_next co_attached co_owners co_ctas co_global] in En, Ea, Eo, Em, Eg.
  rewrite Forall_forall in Htg.
  assert (id ∉ map st_WarpID targets) as Hidn by (intros (t & -> & Hin)%list_elem_of_fmap; destruct (Htg t Hin) as (_ & _ & _ & E); congruence).
  split; [|split; [by rewrite Eo|rewrite (Hsl id Hid); by destruct (bool_decide _)]]. split.
  - intros j Hj. pose proof (cr_slots I c Hc j Hj) as Hs. destruct (Z.eq_dec j id) as [->|Hne]; [|apply update_other; [done|done|by apply not_eq_sym|]].
    + pose proof (Hsl id Hid) as E. rewrite bool_decide_eq_false_2 in E by done. change (slot_at (set_owners h c) id) with (slot_at c id) in E.
      destruct Hs as [H1 H2 _ H4 H5 H6 H7 H8 H9]. split; rewrite ?slot_at_update, ?Z.eqb_refl, ?E by done;
        cbn [update_slot set_slots co_attached co_owners co_ctas]; rewrite ?Ea, ?Eo, ?Em; try done.
      * eexists. split; [exact Hsource|]. split; [done|]. unfold lifecycle_consistent. cbn. rewrite Hp, Hwl. by apply Z.eqb_neq in Hwm as ->.
      * intros Ha k. rewrite <- (H8 Ha k). unfold waits. rewrite Hnw. cbn. intuition discriminate.
    + pose proof (Hsl j Hj) as E. change (slot_at (set_owners h c) j) with (slot_at c j) in E. destruct (decide (j ∈ map st_WarpID targets)) as [Hin|Hnin].
      * rewrite bool_decide_eq_true_2 in E by done. apply list_elem_of_fmap in Hin as (t & -> & Hin). destruct (Htg t Hin) as (_ & Hsel & _ & Hl).
        destruct (Htown t Hin) as (wt & Hwt & Hwt'). destruct (sw_owner I c _ Hs) as (wj & Hwj & Hwjid & Hlcj). rewrite Hwt in Hwj. injection Hwj as ->.
        unfold lifecycle_consistent in Hlcj. rewrite Hl, !andb_true_iff in Hlcj. destruct Hlcj as [[[_ Hrs%bool_decide_eq_true] _] _].
        assert (sl_blockReason (slot_at c (st_WarpID t)) <> BlockBarrier) as Hnb by (by rewrite Hrs). pose proof (not_waiting I c _ Hs Hnb) as Hnwt.
        destruct Hs as [H1 H2 _ H4 H5 H6 H7 H8 H9]. split; rewrite ?E; rewrite ?Ea, ?Eo, ?Em; try done.
        -- eexists. split; [exact Hwt'|]. by split.
        -- intros Hat _. by apply Hmem.
        -- intros Hat k. rewrite <- (H8 Hat k). unfold waits. rewrite Hnwt. cbn. intuition discriminate.
      * rewrite bool_decide_eq_false_2 in E by done. apply (slot_wf_frame I c); [done|done|done| |by rewrite Em|by rewrite Em|by rewrite Em].
        rewrite Eo. apply Hother; [intros E'; by apply Hne, (owner_distinct c)|]. intros (t & Hin & E')%Hcown. apply Hnin.
        assert (j = st_WarpID t) as -> by (apply (owner_distinct c); [done|done|by apply (Htg t Hin)|done]). by apply list_elem_of_fmap_2.
  - change (0 <= co_next c1 < 4). rewrite En. apply (cr_next I c Hc).
  - change (owners_wf (co_owners c1)). rewrite Eo. eapply spawn_wf; [exact Hss|exact Hcand|apply (cr_owners I c Hc)| |by apply (et_spawn e Ht)].
    destruct (wf_pc w Hw) as [_ Hpc]. split; [apply u32_range|]. unfold u32. rewrite <- Znumtheory.Zmod_div_mod; [|lia|lia|by exists (2 ^ 30)]. by rewrite Zplus_mod, Hpc.
  - change (cta_wf (co_ctas c1) /\ packed (co_ctas c1) /\ residents (co_ctas c1)). rewrite Em. apply (cr_ctas I c Hc).
  - change (records_wf (co_ctas c1)). rewrite Em. apply (cr_records I c Hc).
  - intros Hat j Hj. rewrite route_update by done. rewrite (routes_frame c); [apply (cr_routes I c Hc); [by rewrite <- Ea|done]| |by rewrite Em..|done].
    intros k Hk. rewrite (Hsl k Hk). by destruct (bool_decide _).
  - change (I (co_global c1)). rewrite Eg. apply (cr_global I c Hc).
Qed.

Lemma coordinateWarpSpawn_wf c id w active before r e : source_at c id w r e ->
  match coordinateWarpSpawn c id active before r with
  | (c', r', Ok _) => core_ok c' /\ coordinated c' id r'
  | (c', _, Err _) => c' = c
  end.
Proof.
  intros Hsrc. unfold coordinateWarpSpawn. destruct (spawnPlan c id active before r) as [[[transaction targets]|]|x] eqn:Epl; [| |done].
  - destruct (spawnPlan_inv c id w active before r e transaction targets Hsrc Epl) as (spawn & st & cs & Hpl & ->).
    destruct (spawned_wf c id w r e spawn st targets cs Hsrc Hpl) as (Hc' & Hlook & Hown). destruct (source_facts c id w r e Hsrc) as (_ & _ & [Hwl _] & _).
    pose proof (sn_source _ _ _ _ _ _ _ _ Hpl) as Hss. pose proof (sn_cands _ _ _ _ _ _ _ _ Hpl) as Hcand.
    unfold Spawn_Commit. cbn [sp_committed sp_source sp_sourceOwner sp_targets]. rewrite (ss_fresh _ _ _ _ _ Hss). cbn [orb].
    rewrite (bool_decide_eq_true_2 (co_owners c !! _ = Some (es_before st))) by apply Hss. rewrite (spawn_fresh _ _ _ _ _ _ _ Hss Hcand). cbn [negb]. cbv zeta.
    set (c1 := fold_left _ targets _). change (fold_left _ targets _) with c1 in Hc', Hlook, Hown. rewrite (validate_ok I _ Hc'). split; [done|].
    assert (sl_owner (slot_at (update_slot id (schedule SlotRunnable BlockNone) c1) id) = sl_owner (slot_at c id)) as Eown.
    { rewrite slot_at_update, Z.eqb_refl by apply Hsrc. exact Hown. }
    rewrite Eown. eapply complete_running; [exact Hlook|exact Hwl].
  - split; [apply (source_schedule c id w r e); [done|by right]|apply blocked_coordinated; [apply Hsrc|done|apply Hsrc|apply Hsrc]].
Qed.
End Coordinate.
