(* ===== verification/CoreStepInvariant.v ===== *)
(** * Every step keeps the core's invariant

    Whatever program the warps run, whatever the pending-work provider answers and
    however the instruction ends, [Core_Step] leads from a consistent core to a
    consistent core. *)

From S2P Require Import Prelude IsaTypes Catalog Decode Integer System Custom Softfloat Float Memory WarpState Apply ApplyInvariant View EvaluateTyped WarpExec WarpCorrect.
From S2P Require Import Cta CtaInvariant CtaTyped CtaMemory Barrier BarrierSpec Launch LaunchSpec Core CoreStep Scheduling Admission CoreInvariant CoreBarrier CoreCoordinate.

#[local] Open Scope Z_scope.
#[local] Open Scope go_scope.

(** ** A finished warp and its CTA *)

Lemma with_members_ids ms k mem : ms !! k = Some mem -> map wmb_WarpID (<[k := finish_member mem]> ms) = map wmb_WarpID ms.
Proof. intros H. rewrite list_fmap_insert. apply list_insert_id. by rewrite list_lookup_fmap, H. Qed.

(** What observing a bound warp's end changes: one member is marked finished. *)
Lemma observe_bound m w : cta_wf m -> residents m -> idx4 w -> HasWarp m w = true ->
  exists id k c mem, cm_ctas m !! id = Some c /\ ct_members c !! k = Some mem /\
    observeWarpFinished m w = (set_ctas (<[id := with_members (<[k := finish_member mem]> (ct_members c)) c]> (cm_ctas m)) m, Ok tt).
Proof.
  intros Hw Hr Hi Hh. destruct (bound_member m w Hw Hr Hi Hh) as (key & c & mem & Hk & Hc & Hm & Hid & Hrank & Hl & _).
  exists (wk_ctaID key), (Z.to_nat (wk_rank key)), c, mem. split_and!; [done|done|]. unfold observeWarpFinished. apply idx4_range in Hi.
  change FrozenWarpCount with 4. destruct (Z.leb_spec 4 w); [lia|]. by rewrite Hk, Hc, Hl, Hid, Z.eqb_refl.
Qed.

Lemma finished_keys m id k c mem key : cm_ctas m !! id = Some c -> ct_members c !! k = Some mem ->
  key_valid m key -> key_valid (set_ctas (<[id := with_members (<[k := finish_member mem]> (ct_members c)) c]> (cm_ctas m)) m) key.
Proof.
  intros Hc Hk (H1 & H2 & x & y & Hx & Hy & E). split_and!; [done..|]. cbn [set_ctas cm_ctas]. destruct (Z.eq_dec (bk_CTAID key) id) as [E1|Hne].
  - rewrite E1 in Hx |- *. rewrite lookup_insert_eq. rewrite Hc in Hx. injection Hx as <-.
    assert (wmb_WarpID y ∈ map wmb_WarpID (<[k := finish_member mem]> (ct_members c))) as (z & Ez & Hz)%list_elem_of_fmap.
    { rewrite with_members_ids by done. by apply list_elem_of_fmap_2. }
    exists (with_members (<[k := finish_member mem]> (ct_members c)) c), z. split_and!; [done|done|congruence].
  - rewrite lookup_insert_ne by done. by exists x, y.
Qed.

Lemma finished_residents m id k c mem : residents m -> cm_ctas m !! id = Some c -> ct_members c !! k = Some mem ->
  residents (set_ctas (<[id := with_members (<[k := finish_member mem]> (ct_members c)) c]> (cm_ctas m)) m).
Proof.
  intros Hr Hc Hk i x. cbn [set_ctas cm_ctas]. intros [[_ <-]|[_ Hx]]%lookup_insert_Some; [|by apply (Hr i)].
  destruct (Hr id c Hc) as [H1 H2 H3]. split; cbn [with_members ct_config ct_members]; [done| |].
  - rewrite length_insert, <- H2, list_fmap_insert. apply list_insert_id. by rewrite list_lookup_fmap, Hk.
  - apply Forall_insert; [done|]. rewrite Forall_forall in H3. destruct (H3 mem) as []; [by eapply list_elem_of_lookup_2|]. by split.
Qed.

Section StepInvariant.
Context {G : Type} (I : G -> Prop).
Implicit Type c : Core G.

Notation slot_ok := (slot_wf I).
Notation core_ok := (core_wf I).

Lemma global_wf c g : core_ok c -> I g -> core_ok (set_global g c).
Proof. intros Hc Hg. split; try apply Hc; try done. intros j Hj. by apply (slot_wf_frame I c); [apply Hc|..]. Qed.

Lemma next_wf c n : core_ok c -> 0 <= n < 4 -> core_ok (set_next n c).
Proof. intros Hc Hn. split; try apply Hc; try done. intros j Hj. by apply (slot_wf_frame I c); [apply Hc|..]. Qed.

(** Replacing the manager by one that says the same of every slot. *)
Lemma manager_wf c m' : core_ok c ->
  cta_wf m' /\ packed m' /\ residents m' -> records_of m' = records_of (co_ctas c) ->
  cm_byWarp m' = cm_byWarp (co_ctas c) -> cm_dynamic m' = cm_dynamic (co_ctas c) ->
  (forall key, key_valid (co_ctas c) key -> key_valid m' key) -> core_ok (set_manager m' c).
Proof.
  intros Hc Hm Er Eb Ed Hk. split; try apply Hc; try done.
  - intros j Hj. apply (slot_wf_frame I c); [by apply Hc|done..| | |].
    + unfold HasWarp. cbn. by rewrite Eb.
    + intros key. unfold listed. cbn. by rewrite Er.
    + intros _. apply Hk.
  - intros key r. cbn. rewrite Er. apply (cr_records I c Hc).
  - intros Ha j Hj. rewrite (routes_frame c); [by apply (cr_routes I c Hc)|done..].
Qed.

Lemma observe_wf c id : core_ok c -> idx4 id -> HasWarp (co_ctas c) id = true ->
  (observeWarpFinished (co_ctas c) id).2 = Ok tt /\ core_ok (set_manager (observeWarpFinished (co_ctas c) id).1 c).
Proof.
  intros Hc Hid Hh. destruct (cr_ctas I c Hc) as (Hcta & Hp & Hr). destruct (observeWarpFinished_wf (co_ctas c) id Hcta Hp) as [Hcta' Hp'].
  destruct (observe_bound _ id Hcta Hr Hid Hh) as (i & k & x & mem & Hx & Hk & E). rewrite E in *. cbn [fst snd] in *. split; [done|].
  apply manager_wf; try done.
  - split_and!; [done..|]. by apply finished_residents.
  - intros key. by apply finished_keys.
Qed.

(** ** The waits the core refreshes *)

Lemma wake_wf c id : core_ok c -> idx4 id -> sl_lifecycle (slot_at c id) = SlotBlocked -> sl_barrierWait (slot_at c id) = false ->
  core_ok (update_slot id (schedule SlotRunnable BlockNone) c).
Proof. intros. apply schedule_wf; auto. Qed.

Lemma refreshSlot_wf context active c id : core_ok c -> idx4 id -> core_ok (refreshSlot context active c id).1.
Proof.
  intros Hc Hid. unfold refreshSlot. destruct (bool_decide_reflect (sl_lifecycle (slot_at c id) = SlotBlocked)) as [Hl|]; [|done]. cbn [negb]. cbv zeta.
  pose proof (cr_slots I c Hc id Hid) as Hs.
  destruct (sl_blockReason (slot_at c id)) eqn:Er; try done.
  - destruct (match co_pendingWork c with Some _ => _ | None => _ end) as [[]|]; try done. cbn. apply wake_wf; try done.
    apply (not_waiting I c id Hs). by rewrite Er.
  - destruct (active =? _); [|done]. cbn. apply wake_wf; try done. apply (not_waiting I c id Hs). by rewrite Er.
  - destruct (sl_barrierDrain (slot_at c id)) eqn:Ed; [|done]. destruct (negb (rc_PendingLSU context)); [|done]. cbn. apply wake_wf; try done.
    apply not_true_iff_false. intros Hw. pose proof (sw_drain I c id Hs Hw). congruence.
Qed.

Lemma refresh_wf c context : core_ok c -> core_ok (refreshFunctionalWaits c context).1.
Proof.
  intros Hc. assert (forall active ws c0, Forall idx4 ws -> core_ok c0 -> core_ok (refreshSlots context active c0 ws).1) as Hloop.
  { intros active ws. induction ws as [|id ws IH]; intros c0 Hws Hc0; cbn [refreshSlots]; [done|]. apply Forall_cons in Hws as [Hid Hws].
    pose proof (refreshSlot_wf context active c0 id Hc0 Hid) as Hn. destruct (refreshSlot context active c0 id) as [c1 [[]|e]]; [by apply IH|done]. }
  unfold refreshFunctionalWaits. destruct (activeWarpMask c) as [active|e]; [|done].
  assert (Forall idx4 ids) as Hids by (apply Forall_forall; intros x; apply ids_idx4). pose proof (Hloop active ids c Hids Hc) as Hn.
  by destruct (refreshSlots context active c ids) as [c1 [[]|e]].
Qed.

(** ** The instruction *)
Context {L : SoftFloatLib} {HL : SoftFloatLaws L}.

Lemma data_sound memory base s : memory_sound I memory -> data_service memory = Some s ->
  ServiceContract (route_inv I base) s /\ service_keeps s (route_inv I base).
Proof.
  destruct memory as [|other|warpID g]; cbn; [done|by intros Hs [= <-]|]. intros (Hid & Hct & Hk) [= <-].
  split; [by apply CTAMemory_contract|by apply CTAMemory_keeps].
Qed.

(** How the executor leaves the core: unchanged when the instruction neither retired
    nor trapped, otherwise with a new image of the warp, other local bytes and
    another global state. *)
Inductive executed c id : Core G -> Result -> Prop :=
| executed_nothing r :
    r_NextLifecycle r = WarpRunning -> r_Outcome r <> OutcomeRetired -> r_Outcome r <> OutcomeTrap ->
    (r_Outcome r = OutcomeDeferred -> exists d e, r_Decoded r = Some d /\ r_Effects r = Some e /\ effects_typed e) ->
    executed c id c r
| executed_moved r w' m' g' :
    r_Outcome r = OutcomeRetired \/ r_Outcome r = OutcomeTrap -> r_NextLifecycle r = w_lifecycle w' ->
    warp_wf w' -> w_id w' = id -> core_ok (set_manager m' (set_global g' c)) ->
    executed c id (set_owners (<[sl_owner (slot_at c id) := w']> (co_owners c)) (set_manager m' (set_global g' c))) r.

Lemma execute_cases c id w context : core_ok c -> idx4 id -> sl_lifecycle (slot_at c id) = SlotRunnable ->
  co_owners c !! sl_owner (slot_at c id) = Some w -> context_typed context ->
  executed c id (execute c id w context).1 (execute c id w context).2.
Proof.
  intros Hc Hid Hrun Ho Hctx. pose proof (cr_slots I c Hc id Hid) as Hs. destruct (sw_owner I c id Hs) as (w0 & Hw0 & Hwid & Hlc).
  rewrite Ho in Hw0. injection Hw0 as <-. pose proof (cr_owners I c Hc _ _ Ho) as Hw. destruct (consistent_runnable _ _ Hrun Hlc) as (_ & _ & Hwl & _).
  destruct (cr_ctas I c Hc) as (Hcta & Hp & Hr). set (m := co_ctas c) in *. set (g := co_global c) in *.
  assert (route_inv I m (m, g)) as Hinv by (split; [split; [done|by destruct m]|apply (cr_global I c Hc)]).
  set (sv := services (sl_executor (slot_at c id))).
  assert (forall memory, wx_memory sv = Some memory -> ServiceContract (route_inv I m) memory /\ service_keeps memory (route_inv I m)) as Hsv
    by (intros memory; apply data_sound, Hs).
  pose proof (stepBody_wf sv (route_inv I m) w (m, g) context (fun memory Hm => proj2 (Hsv memory Hm)) Hw Hctx Hinv) as Hbody.
  pose proof (stepBody_moved sv w (m, g) context Hw Hctx) as Hmoved. apply moved_id in Hmoved; [|done].
  pose proof (stepBody_deferred sv w (m, g) context Hw Hctx) as Hdef.
  pose proof (Step_unchanged (route_inv I m) sv w (m, g) context) as Hsame. unfold execute. fold sv. fold m. fold g. unfold Step in *.
  destruct (stepBody sv w (m, g) context) as [[w' [m' g']] r]. cbn [fst snd] in *. destruct Hbody as [Hw' [[Hcta' Em'] Hg']]. cbn [fst snd] in *.
  specialize (Hsame w' (m', g') (observe w' r) (fun memory Hm => proj1 (Hsv memory Hm)) Hw Hctx Hinv eq_refl). change (r_Outcome (observe w' r)) with (r_Outcome r) in Hsame.
  assert ((r_Outcome r = OutcomeRetired \/ r_Outcome r = OutcomeTrap) \/ (r_Outcome r <> OutcomeRetired /\ r_Outcome r <> OutcomeTrap)) as [Hout|[Hnr Hnt]]
    by (destruct (r_Outcome r); auto; by right).
  - apply executed_moved; [done|done|done|congruence|].
    pose proof (global_wf c g' Hc Hg') as Hcg.
    apply manager_wf; [done| | | | |]; cbn [set_global co_ctas]; fold m; rewrite Em'; try done.
    split_and!; [by rewrite <- Em'|exact Hp|exact Hr].
  - destruct (Hsame Hnr Hnt) as [-> [= -> ->]].
    assert (set_owners (<[sl_owner (slot_at c id) := w]> (co_owners c)) (set_manager m (set_global g c)) = c) as ->.
    { rewrite insert_id by done. unfold m, g. by destruct c. }
    apply executed_nothing; [done|done|done|]. intros Hd. destruct (Hdef Hd) as (d & e & st & [H1 H2 _ _ _ _ H7]). by exists d, e.
Qed.

(** ** Coordination and settlement *)

Lemma relabel_clear l r (s : slot G) : key_clear s = true -> relabel l r s = schedule l r s.
Proof.
  unfold key_clear, relabel, schedule, reschedule. intros H%negb_true_iff. rewrite !orb_false_iff in H. destruct H as [[-> ->] Hk%negb_false_iff%bool_decide_eq_true].
  by rewrite Hk.
Qed.

Lemma relabel_update l r c id : idx4 id -> key_clear (slot_at c id) = true -> update_slot id (relabel l r) c = update_slot id (schedule l r) c.
Proof. intros Hid Hk. unfold update_slot. by rewrite relabel_clear. Qed.

Lemma runnable_clear c id : core_ok c -> idx4 id -> sl_lifecycle (slot_at c id) = SlotRunnable -> key_clear (slot_at c id) = true.
Proof.
  intros Hc Hid Hrun. pose proof (cr_slots I c Hc id Hid) as Hs. destruct (sw_owner I c id Hs) as (w & _ & _ & Hlc).
  destruct (consistent_runnable _ _ Hrun Hlc) as (_ & Hr & _). apply (sw_clear I c id Hs). by rewrite Hr.
Qed.

Lemma runnable_schedule c id l r : core_ok c -> idx4 id -> sl_lifecycle (slot_at c id) = SlotRunnable ->
  (l = SlotRunnable /\ r = BlockNone) \/ (l = SlotBlocked /\ validBlockReason r = true) -> core_ok (update_slot id (schedule l r) c).
Proof.
  intros Hc Hid Hrun Hl. pose proof (runnable_clear c id Hc Hid Hrun) as Hk. apply schedule_wf; auto. unfold key_clear in Hk.
  by destruct (sl_barrierWait (slot_at c id)).
Qed.

Lemma update_same c id f : idx4 id -> f (slot_at c id) = slot_at c id -> update_slot id f c = c.
Proof.
  intros Hid Hf. unfold update_slot. rewrite Hf. assert (qset (co_slots c) id (slot_at c id) = co_slots c) as ->; [|by destruct c].
  apply quad_ext. intros j Hj. destruct (Z.eq_dec j id) as [->|]; [by rewrite qget_qset_eq|by rewrite qget_qset_ne by (by try apply not_eq_sym)].
Qed.

(** The coordination of a deferred instruction from a consistent core. *)
Lemma coordinate_wf c id w context active before view r :
  core_ok c -> idx4 id -> sl_lifecycle (slot_at c id) = SlotRunnable -> co_owners c !! sl_owner (slot_at c id) = Some w -> qget before id = w ->
  (forall v, view = Some v -> co_attached c = true) -> r_NextLifecycle r = WarpRunning ->
  (r_Outcome r = OutcomeDeferred -> exists d e, r_Decoded r = Some d /\ r_Effects r = Some e /\ effects_typed e) ->
  match coordinate c id context active before view (slot_at c id) r with
  | (c', r', _, Ok _) => core_ok c' /\ ((c' = c /\ r' = r) \/ coordinated c' id r')
  | (c', _, _, Err _) => core_ok c'
  end.
Proof.
  intros Hc Hid Hrun Ho Hb Hview Hnext Hdef. unfold coordinate. destruct (r_Outcome r) eqn:Hd; try (by split; [|left]). destruct (Hdef eq_refl) as (d & e & Hdec & He & Ht). rewrite Hdec.
  assert (source_at I c id w r e) as Hsrc by done.
  destruct (d_Name d == "wspawn").
  { pose proof (coordinateWarpSpawn_wf I c id w active before r e Hsrc) as H. destruct (coordinateWarpSpawn c id active before r) as [[c' r'] [[]|x]]; [naive_solver|].
    subst c'. apply runnable_schedule; auto. }
  destruct (d_Name d == "wsync").
  { pose proof (coordinateWarpSync_wf I c id w (rc_PendingPriorWork context) r e Hsrc) as H. destruct (coordinateWarpSync _ _ _ _) as [[c' r'] [[]|x]]; [naive_solver|].
    subst c'. apply runnable_schedule; auto. }
  destruct (_ || _ || _) eqn:Ebar; [|split; auto]. destruct view as [view|].
  - rewrite Hb. pose proof (coordinateBarrier_wf I c id w view (rc_PendingLSU context) r d e Hsrc (Hview view eq_refl) Hdec) as H.
    destruct (coordinateBarrier _ _ _ _ _ _) as [[[c' r'] t] [[]|x]]; [naive_solver|]. subst c'. by rewrite update_same by (done || by destruct (slot_at c id)).
  - rewrite relabel_update by (done || by apply runnable_clear). split; [by apply runnable_schedule; auto|]. right. by apply blocked_coordinated.
Qed.

(** Settling a warp that still runs. *)
Lemma settle_running c id r : core_ok c -> idx4 id -> r_NextLifecycle r = WarpRunning ->
  sl_lifecycle (slot_at c id) = SlotRunnable \/ coordinated c id r -> core_ok (settle c id r).1.
Proof.
  intros Hc Hid Hnext Hl. unfold settle. rewrite Hnext. rewrite bool_decide_eq_false_2 by done. destruct Hl as [Hl|[_ [[Hl ->]| ->]]]; [|by rewrite Hl, bool_decide_eq_true_2|done].
  destruct (r_Outcome r); try done; cbn [fst]; [apply runnable_schedule; auto|]. rewrite Hl. rewrite bool_decide_eq_false_2 by done. cbn [negb].
  rewrite relabel_update by (done || by apply runnable_clear). apply runnable_schedule; auto. right. split; [done|].
  unfold deferredReason. destruct (r_Effects r) as [e|], (r_IssuedEffects r) as [e'|]; repeat case_match; done.
Qed.

(** Settling a warp that has finished: its slot and its CTA learn of it. *)
Lemma settle_finished c id w' r : core_ok c -> idx4 id -> sl_lifecycle (slot_at c id) = SlotRunnable ->
  warp_wf w' -> w_id w' = id -> w_lifecycle w' = WarpInactive -> r_NextLifecycle r = WarpInactive ->
  core_ok (settle (set_owners (<[sl_owner (slot_at c id) := w']> (co_owners c)) c) id r).1.
Proof.
  intros Hc Hid Hrun Hw' Hid' Hwl Hnext. unfold settle. rewrite Hnext, bool_decide_eq_true_2 by done. cbv zeta.
  set (c0 := set_owners (<[sl_owner (slot_at c id) := w']> (co_owners c)) c). set (c1 := update_slot id (schedule SlotFinished BlockNone) c0).
  pose proof (cr_slots I c Hc id Hid) as Hs. destruct (sw_owner I c id Hs) as (w & Hw & Hwid & Hlc).
  destruct (consistent_runnable _ _ Hrun Hlc) as (Hp & Hr & _ & _). pose proof (runnable_clear c id Hc Hid Hrun) as Hk.
  assert (sl_barrierWait (slot_at c id) = false) as Hnw by (unfold key_clear in Hk; by destruct (sl_barrierWait (slot_at c id))).
  assert (core_ok c1) as Hc1.
  { pose proof Hc as [Hslots Hn Ho Hm Hrec Hrt Hg]. split; try done.
    - intros j Hj. destruct (Z.eq_dec j id) as [->|Hne].
      + destruct Hs as [H1 H2 _ H4 H5 H6 H7 H8 H9]. split; unfold c1; rewrite ?slot_at_update, ?Z.eqb_refl by done; try done.
        * exists w'. split; [cbn; by rewrite lookup_insert_eq|]. split; [done|]. unfold lifecycle_consistent. cbn. rewrite Hwl. change (slot_at c0 id) with (slot_at c id). rewrite Hp.
          destruct (wf_lifecycle w' Hw') as [[E ?]|[? ?]]; [congruence|]. by apply Z.eqb_eq.
        * intros Ha k. change (co_ctas (update_slot id (schedule SlotFinished BlockNone) c0)) with (co_ctas c). rewrite <- (H8 Ha k). unfold waits. rewrite Hnw. cbn. intuition discriminate.
      + apply update_other; [done|done|by apply not_eq_sym|]. apply (slot_wf_frame I c); [by apply Hslots|done|done| |done..]. cbn. rewrite lookup_insert_ne; [done|].
        intros E. apply Hne. symmetry. by apply (owner_distinct I c).
    - intros p x. cbn. intros [[_ <-]|[_ H]]%lookup_insert_Some; [done|by apply (Ho p)].
    - intros Ha j Hj. unfold c1. rewrite route_update by done. by apply Hrt. }
  destruct (co_attached c1) eqn:Ha; [|done]. assert (HasWarp (co_ctas c1) id = true) as Hh by (by apply (sw_member I c id Hs)).
  destruct (observe_wf c1 id Hc1 Hid Hh) as [E Hc2]. destruct (observeWarpFinished (co_ctas c1) id) as [m' [[]|x]]; done.
Qed.

(** ** Steps *)

Lemma stepContext_inv c id context context' active before view : core_ok c -> idx4 id -> context_typed context ->
  stepContext c id context = Ok (context', active, before, view) ->
  context_typed context' /\ co_owners c !! sl_owner (slot_at c id) = Some (qget before id) /\ (forall v, view = Some v -> co_attached c = true).
Proof.
  intros Hc Hid Hctx H. unfold stepContext in H. apply result_bind_ok in H as (mask & _ & H). apply result_bind_ok in H as (q & Hq & H).
  apply result_bind_ok in H as (seen & Hseen & H). apply result_bind_ok in H as (pending & _ & [= <- <- <- <-]%Ok_inj). split_and!.
  - split; [by vm_compute|apply u8_range|]. cbn [rc_CTA]. destruct (co_attached c); [|apply Ok_inj in Hseen as <-; apply Hctx].
    apply result_bind_ok in Hseen as (cta & Hv & Hseen). apply result_bind_ok in Hseen as (v & _ & <-%Ok_inj). cbn [fst].
    destruct (cr_ctas I c Hc) as (Hcta & _ & Hr). by eapply ViewForWarp_typed.
  - unfold ownerSnapshots, deref in Hq. destruct (co_owners c !! sl_owner (slot_at c 0)) as [w0|] eqn:E0; [|done].
    destruct (co_owners c !! sl_owner (slot_at c 1)) as [w1|] eqn:E1; [|done]. destruct (co_owners c !! sl_owner (slot_at c 2)) as [w2|] eqn:E2; [|done].
    destruct (co_owners c !! sl_owner (slot_at c 3)) as [w3|] eqn:E3; [|done]. apply Ok_inj in Hq as <-. by destruct Hid as [-> | [-> | [-> | ->]]].
  - intros v Hv. destruct (co_attached c); [done|]. apply Ok_inj in Hseen as <-. done.
Qed.

Lemma stepWarp_wf c id context : core_ok c -> idx4 id -> sl_lifecycle (slot_at c id) = SlotRunnable -> context_typed context ->
  core_ok (stepWarp c id context).1.1.
Proof.
  intros Hc Hid Hrun Hctx. unfold stepWarp. destruct (stepContext c id context) as [[[[context' active] before] view]|e] eqn:Ectx; [|done].
  destruct (stepContext_inv c id context context' active before view Hc Hid Hctx Ectx) as (Hctx' & Ho & Hview). cbv zeta.
  set (c0 := set_next ((id + 1) mod FrozenWarpCount) c). assert (core_ok c0) as Hc0 by (apply next_wf; [done|by apply Z.mod_pos_bound]).
  pose proof (execute_cases c0 id (qget before id) context' Hc0 Hid Hrun Ho Hctx') as Hex.
  destruct (execute c0 id (qget before id) context') as [c1 r]. cbn [fst snd] in Hex.
  assert (forall c' r' t, core_ok (settle c' id r').1 -> core_ok (match settle c' id r' with
    | (c2, Err e) => (c2, stepResult c2 id (slot_at c0 id) r' t, Err e)
    | (c2, Ok _) => match validateSlot c2 id with Err e => (c2, idle_step, Err e) | Ok _ => (c2, stepResult c2 id (slot_at c0 id) r' t, Ok tt) end
    end).1.1) as Hfin.
  { intros c' r' t Hst. destruct (settle c' id r') as [c2 [[]|e]]; [|done]. by destruct (validateSlot c2 id). }
  destruct Hex as [r Hnext Hnr Hnt Hdef|r w' m' g' Hout Hnext Hw' Hid' Hc1].
  - pose proof (coordinate_wf c0 id _ context' active before view r Hc0 Hid Hrun Ho eq_refl Hview Hnext Hdef) as Hco.
    destruct (coordinate c0 id context' active before view (slot_at c0 id) r) as [[[c2 r2] t] [[]|e]]; [|done]. destruct Hco as [Hc2 Hco].
    apply Hfin. destruct Hco as [[-> ->]|Hco]; [by apply settle_running; auto|]. apply settle_running; [done|done|by destruct Hco|by right].
  - assert (forall c' v old, coordinate c' id context' active before v old r = (c', r, None, Ok tt)) as Hco
      by (intros c' v old; unfold coordinate; by destruct Hout as [-> | ->]).
    rewrite Hco. apply Hfin. set (c2 := set_manager m' (set_global g' c0)) in *.
    change (set_owners (<[sl_owner (slot_at c0 id) := w']> (co_owners c0)) c2) with (set_owners (<[sl_owner (slot_at c2 id) := w']> (co_owners c2)) c2).
    destruct (wf_lifecycle w' Hw') as [[Hwl Hm]|[Hwl Hm]].
    + assert (core_ok (set_owners (<[sl_owner (slot_at c2 id) := w']> (co_owners c2)) c2)) as Hc3.
      { apply owner_wf; try done. pose proof (cr_slots I c2 Hc1 id Hid) as Hs. destruct (sw_owner I c2 id Hs) as (w & Hw & _ & Hlc).
        destruct (consistent_runnable _ _ Hrun Hlc) as (_ & _ & H1 & H2%negb_true_iff%Z.eqb_neq). by rewrite (running_consistent _ _ w). }
      apply settle_running; [done|done|by rewrite Hnext|by left].
    + apply settle_finished; try done. by rewrite Hnext.
Qed.

Lemma Core_Step_wf c context : core_ok c -> context_typed context -> core_ok (Core_Step c context).1.1.
Proof.
  intros Hc Hctx. unfold Core_Step. rewrite (validate_ok I c Hc). pose proof (refresh_wf c context Hc) as H1.
  destruct (refreshFunctionalWaits c context) as [c1 [[]|e]]; [|done]. destruct (selectRunnable c1) as [id|] eqn:Es; [|done].
  destruct (select_runnable c1 id Es) as [Hid Hr]. by apply stepWarp_wf.
Qed.
End StepInvariant.
