(* ===== verification/CoreReach.v ===== *)
(** * Every reachable core is consistent

    Construction and attachment establish the invariant, every operation of the core
    keeps it, and a consistent core passes the code's own validation. *)

From S2P Require Import Prelude IsaTypes Catalog Decode Integer System Custom Softfloat Float Memory WarpState Apply ApplyInvariant View EvaluateTyped WarpExec WarpCorrect.
From S2P Require Import Cta CtaInvariant CtaTyped CtaMemory Barrier BarrierSpec Launch LaunchSpec Core CoreStep Scheduling Admission CoreInvariant CoreBarrier CoreCoordinate CoreStepInvariant.

#[local] Open Scope Z_scope.
#[local] Open Scope go_scope.

Section Reach.
Context {G : Type} (I : G -> Prop).
Implicit Type c : Core G.

Notation core_ok := (core_wf I).

(** ** Construction *)

Definition fresh_slot (s : slot G) : Prop :=
  memory_sound I (ex_memory (sl_executor s)) /\ ex_owner (sl_executor s) = sl_owner s /\ sl_barrierKey s = no_key /\
  sl_barrierWait s = false /\ sl_barrierDrain s = false.

Definition sound_executor (executor : option (Executor G)) : Prop := forall e, executor = Some e -> memory_sound I (ex_memory e).

Lemma placeExecutor_fresh h executors slots slots' : Forall sound_executor executors ->
  (forall j s, idx4 j -> qget slots j = Some s -> fresh_slot s) -> foldM (placeExecutor h) slots executors = Ok slots' -> owners_wf h ->
  forall j s, idx4 j -> qget slots' j = Some s -> fresh_slot s.
Proof.
  intros He Hs H Hw. refine (foldM_inv _ (fun slots => forall j s, idx4 j -> qget slots j = Some s -> fresh_slot s) _ _ _ Hs _ H).
  intros q executor q' Hin Hq Hstep. rewrite Forall_forall in He. pose proof (He executor Hin) as Hx. unfold placeExecutor in Hstep.
  destruct executor as [e|]; [|done]. destruct (h !! ex_owner e) as [w|] eqn:Ew; [|done]. change FrozenWarpCount with 4 in Hstep.
  destruct (Z.leb_spec 4 (w_id w)); [done|]. cbn [negb] in Hstep. destruct (qget q (w_id w)); [done|]. cbv zeta in Hstep. apply Ok_inj in Hstep as <-.
  assert (idx4 (w_id w)) as Hi by (pose proof (wf_id w (Hw _ _ Ew)); apply idx4_range; lia).
  intros j s Hj. destruct (Z.eq_dec (w_id w) j) as [<-|Hne]; [|rewrite qget_qset_ne by done; by apply Hq].
  rewrite qget_qset_eq by done. intros [= <-]. split_and!; try done. by apply Hx.
Qed.

Lemma Core_New_wf h m g executors c : owners_wf h -> cta_wf m -> packed m -> residents m -> records_wf m -> I g -> Forall sound_executor executors ->
  Core_New h m g executors = Ok c -> core_ok c /\ co_attached c = false.
Proof.
  intros Hh Hm Hp Hr Hrec Hg He H. unfold Core_New in H. pass_check. apply result_bind_ok in H as (slots & Hs & H).
  destruct slots as [[s0|] [s1|] [s2|] [s3|]]; try done. apply result_bind_ok in H as ([] & Hv & <-%Ok_inj). split; [|done].
  assert (forall j s, idx4 j -> qget (Quad (Some s0) (Some s1) (Some s2) (Some s3)) j = Some s -> fresh_slot s) as Hf
    by (eapply placeExecutor_fresh; [exact He| |exact Hs|exact Hh]; intros j s _; by rewrite qget_qfill).
  set (c := mkCore _ _ _ _ _ _ _ _) in *. split; try done.
  intros j Hj. destruct (validateSlot_consistent c j (validate_slots c Hv j Hj)) as (w & Hw & Hwid & Hlc).
  assert (fresh_slot (slot_at c j)) as (F1 & F2 & F3 & F4 & F5) by (apply (Hf j); [done|by destruct Hj as [-> | [-> | [-> | ->]]]]).
  split; try done; try (intros; congruence); [by exists w|]. intros _. unfold key_clear. rewrite F3, F4, F5. by rewrite bool_decide_eq_true_2.
Qed.

(** ** Attachment *)

Lemma validate_routes c : validateCTAMemoryRoutes c = Ok tt -> forall j, idx4 j -> route_ok c j = Ok tt.
Proof.
  unfold validateCTAMemoryRoutes, ids. cbn [foldM]. intros H. apply result_bind_ok in H as ([] & H0 & H). apply result_bind_ok in H as ([] & H1 & H).
  apply result_bind_ok in H as ([] & H2 & H). apply result_bind_ok in H as ([] & H3 & _). by intros j [-> | [-> | [-> | ->]]].
Qed.

Lemma attach_wf c m' : core_ok c -> co_attached c = false -> core_ok (set_manager m' c) -> m' = set_barriers (cm_barriers m') (set_sealed (cm_sealed m') (co_ctas c)) ->
  barriers_empty m' = true -> (forall j, idx4 j -> sl_participated (slot_at c j) = true -> HasWarp (co_ctas c) j = true) ->
  (forall j, idx4 j -> route_ok c j = Ok tt) -> core_ok (set_attached true (set_manager m' c)).
Proof.
  intros Hc Hna Hc1 Em Hempty Hmem Hroutes. assert (cm_barriers m' = Some ∅) as Hb.
  { unfold barriers_empty in Hempty. destruct (cm_barriers m') as [records|]; [|done]. apply Nat.eqb_eq, map_size_empty_inv in Hempty. by subst. }
  assert (cm_byWarp m' = cm_byWarp (co_ctas c) /\ cm_dynamic m' = cm_dynamic (co_ctas c)) as [Eb Ed] by (by rewrite Em).
  split; try apply Hc1.
  - intros j Hj. pose proof (cr_slots I c Hc j Hj) as Hs. pose proof (cr_slots I _ Hc1 j Hj) as [H1 H2 H3 H4 H5 H6 H7 H8 H9].
    assert (sl_barrierWait (slot_at c j) = false) as Hnw by (apply not_true_iff_false; intros Hw; pose proof (sw_attached I c j Hs Hw); congruence).
    split; try done.
    + intros _ Hpart. unfold HasWarp. cbn. rewrite Eb. by apply (Hmem j).
    + intros _ key. unfold waits, listed. change (slot_at (set_attached true (set_manager m' c)) j) with (slot_at c j). rewrite Hnw.
      change (co_ctas (set_attached true (set_manager m' c))) with m'. rewrite (records_some _ _ Hb). unfold record_of. rewrite lookup_empty. cbn.
      unfold WarpMask_Active. rewrite Z.land_0_l, andb_false_r. intuition discriminate.
  - intros _ j Hj. rewrite <- (Hroutes j Hj). unfold route_ok, HasWarp. cbn. by rewrite Eb, Ed.
Qed.

Lemma observeFinished_wf ws c : core_ok c -> co_attached c = true -> Forall idx4 ws ->
  core_ok (observeFinished c ws).1 /\ (observeFinished c ws).2 = Ok tt.
Proof.
  revert c. induction ws as [|id ws IH]; intros c Hc Ha Hws; cbn [observeFinished]; [done|]. apply Forall_cons in Hws as [Hid Hws].
  destruct (bool_decide_reflect (sl_lifecycle (slot_at c id) = SlotFinished)) as [Hl|]; [|by apply IH].
  pose proof (cr_slots I c Hc id Hid) as Hs. destruct (sw_owner I c id Hs) as (w & _ & _ & Hlc). unfold lifecycle_consistent in Hlc. rewrite Hl, !andb_true_iff in Hlc.
  destruct Hlc as [[[Hp _] _] _]. destruct (observe_wf I c id Hc Hid (sw_member I c id Hs Ha Hp)) as [E Hc'].
  destruct (observeWarpFinished (co_ctas c) id) as [m' [[]|e]]; [|done]. by apply IH.
Qed.

Lemma SetCTAManager_wf c : core_ok c -> core_ok (SetCTAManager c).1.
Proof.
  intros Hc. unfold SetCTAManager. rewrite (validate_ok I c Hc). destruct (co_attached c) eqn:Ha; [done|]. destruct (forallb _ ids) eqn:Hf; [|done]. cbn [negb].
  destruct (validateCTAMemoryRoutes c) as [[]|] eqn:Hr; [|done]. unfold seal. destruct (_ && _); [by rewrite manager_eta|].
  assert (forall b s, records_of (set_barriers b (set_sealed s (co_ctas c))) = records_of (co_ctas c) -> core_ok (set_manager (set_barriers b (set_sealed s (co_ctas c))) c)) as Hman.
  { intros b s E. destruct (cr_ctas I c Hc) as ([] & Hp & Hres). apply manager_wf; done. }
  unfold NewBarrierCoordinator. destruct (_ && _); [by apply (Hman (cm_barriers (co_ctas c)) true)|].
  assert (forall b, core_ok (set_manager (set_barriers b (set_sealed true (co_ctas c))) c) ->
    let m := set_barriers b (set_sealed true (co_ctas c)) in
    core_ok (if negb (barriers_empty m) then (set_manager m c, Err (Errorf "core: cannot attach CTA manager with preexisting barrier state"))
      else match observeFinished (set_attached true (set_manager m c)) ids with
        | (c, Err e) => (c, Err e) | (c, Ok _) => (c, validate c) end).1) as Hfin.
  { intros b Hb. cbv zeta. destruct (barriers_empty _) eqn:Hempty; [|done]. cbn [negb].
    assert (core_ok (set_attached true (set_manager (set_barriers b (set_sealed true (co_ctas c))) c))) as Hc1.
    { apply attach_wf; try done; [|by apply validate_routes]. intros j Hj Hp. pose proof (forallb_elem _ _ Hf j) as Hx. cbv beta in Hx.
      rewrite Hp in Hx. apply Hx. by apply ids_idx4. }
    destruct (observeFinished_wf ids _ Hc1 eq_refl) as [Hc2 E]; [apply Forall_forall; intros x; apply ids_idx4|].
    by destruct (observeFinished _ ids) as [c2 [[]|e]]. }
  change (cm_barriers (set_sealed true (set_sealed true (co_ctas c)))) with (cm_barriers (co_ctas c)).
  destruct (cm_barriers (co_ctas c)) as [records|] eqn:Hb.
  - assert (set_sealed true (set_sealed true (co_ctas c)) = set_barriers (Some records) (set_sealed true (co_ctas c))) as -> by (by rewrite <- Hb).
    apply (Hfin (Some records)). apply Hman. by rewrite (records_some (co_ctas c) records).
  - apply (Hfin (Some ∅)). apply Hman. unfold records_of. by rewrite Hb.
Qed.

(** ** Reachable cores *)
Context {L : SoftFloatLib} {HL : SoftFloatLaws L}.

Lemma pendingWork_wf c provider : core_ok c -> core_ok (SetPendingWorkProvider c provider).1.
Proof.
  intros Hc. unfold SetPendingWorkProvider. rewrite (validate_ok I c Hc). cbn. split; try apply Hc.
  intros j Hj. by apply (slot_wf_frame I c); [apply Hc|..].
Qed.

(** The operations of a core, with arguments of their Go types. *)
Inductive core_op c : Core G -> Prop :=
| op_step context : context_typed context -> core_op c (Core_Step c context).1.1
| op_block id reason : 0 <= id -> core_op c (Block c id reason).1
| op_resume id : 0 <= id -> core_op c (Resume c id).1
| op_activate id : 0 <= id -> core_op c (Activate c id).1
| op_provider provider : core_op c (SetPendingWorkProvider c provider).1
| op_attach : core_op c (SetCTAManager c).1
| op_admit configs : Forall config_ok configs -> core_op c (AdmitCTACluster c configs).1
| op_reclaim id : core_op c (ReclaimCTA c id).1
| op_event key : core_op c (CompleteBarrierEvent c key).1.

Lemma core_op_wf c c' : core_ok c -> core_op c c' -> core_ok c'.
Proof.
  intros Hc [context Hctx|id reason Hid|id Hid|id Hid|provider| |configs Hcfg|id|key].
  - by apply Core_Step_wf.
  - by apply Block_wf.
  - by apply Resume_wf.
  - by destruct (Activate_refuses c id Hid) as [e ->].
  - by apply pendingWork_wf.
  - by apply SetCTAManager_wf.
  - by apply AdmitCTACluster_wf.
  - by apply ReclaimCTA_wf.
  - by apply CompleteBarrierEvent_wf.
Qed.

Lemma core_ops_wf c c' : core_ok c -> rtc core_op c c' -> core_ok c'.
Proof. intros Hc. induction 1 as [|c c1 c' Hop _ IH]; [done|]. by apply IH, (core_op_wf c). Qed.
End Reach.

(** C3: every reachable core is consistent.  From construction on, whatever sequence
    of steps, blocks, resumes, admissions, reclaims, attachments and barrier events
    the host issues and whatever programs the warps run: the core passes its own
    validation, so no operation ever fails for an inconsistency; and once a CTA
    manager is attached, the scheduler holds a warp on a barrier key exactly when
    the coordinator's record of that key lists the warp as a waiter, so no wakeup is
    lost and none is spurious. *)
Theorem core_reachable {G : Type} {L : SoftFloatLib} {HL : SoftFloatLaws L} (I : G -> Prop) h m g executors (c0 c : Core G) :
  owners_wf h -> cta_wf m -> packed m -> residents m -> records_wf m -> I g -> Forall (sound_executor I) executors ->
  Core_New h m g executors = Ok c0 -> rtc core_op c0 c ->
  validate c = Ok tt /\ core_wf I c /\
  (co_attached c = true -> forall j key, idx4 j ->
     (sl_barrierWait (slot_at c j) = true /\ sl_barrierKey (slot_at c j) = key <->
      WarpMask_Active (br_waiters (record_of (records_of (co_ctas c)) key)) j = true)).
Proof.
  intros Hh Hm Hp Hr Hrec Hg He Hnew Hops. destruct (Core_New_wf I h m g executors c0) as [Hc0 _]; try done.
  pose proof (core_ops_wf I c0 c Hc0 Hops) as Hc. split; [by apply (validate_ok I)|]. split; [done|].
  intros Ha j key Hj. by apply (sw_waits I c j (cr_slots I c Hc j Hj)).
Qed.

(** ** Two warps meet at a barrier

    A dynamic core with four sleeping warps and routed memories.  The image sets the
    barrier address and the participant count, waits at the barrier, and ends its
    warp with [tmc x0]. *)
Definition barrier_image : Memory :=
  mkMemory (PutUint 4 0x00000293 ++ PutUint 4 0x00200313 ++ PutUint 4 0x0062c00b ++ PutUint 4 0x0000000b).

Definition routed_executors : list (option (Executor Memory)) :=
  map (fun id => Some (mkExecutor id image_core_source (Routed id memory_service))) ids.

Definition sleeping_owners : owners := <[0 := resting 0 0]> (<[1 := resting 1 0]> (<[2 := resting 2 0]> (<[3 := resting 3 0]> ∅))).

Definition dynamic_core : Core Memory :=
  match Core_New sleeping_owners NewDynamicCTAManager barrier_image routed_executors with Ok c => c | Err _ => example_core end.

Definition two_warp_config : CTAConfig :=
  mkCTAConfig 0 [] 0 (0, 0, 0) (8, 1, 1) (4, 1, 1) 8 (4, 0, 0) 0 4096 100 (1, 1, 1) 1 true.

Definition admitted_core : Core Memory := (AdmitCTACluster (SetCTAManager dynamic_core).1 [two_warp_config]).1.

Fixpoint stepped (n : nat) (c : Core Memory) : Core Memory :=
  match n with O => c | S n => stepped n (Core_Step c example_context).1.1 end.

Definition image_inv (m : Memory) : Prop := svc_wf m /\ svc_size m = svc_size barrier_image.

Lemma stepped_ops n c : rtc core_op c (stepped n c).
Proof. revert c. induction n as [|n IH]; intros c; cbn [stepped]; [done|]. eapply rtc_l; [apply (op_step c example_context), example_context_typed|apply IH]. Qed.

Lemma sleeping_owners_wf : owners_wf sleeping_owners.
Proof.
  assert (forall id, 0 <= id < 4 -> warp_wf (resting id 0)) as Hr.
  { intros id Hid. destruct example_start_wf as [_ H2 _ _ H5 H6 H7 H8 H9]. split; try done. by right. }
  intros p w. unfold sleeping_owners. intros H. repeat (apply lookup_insert_Some in H as [[_ <-]|[_ H]]; [by apply Hr|]). by rewrite lookup_empty in H.
Qed.

Lemma routed_executors_sound : Forall (sound_executor image_inv) routed_executors.
Proof.
  unfold routed_executors, ids. repeat constructor; intros e [= <-]; cbn [ex_memory memory_sound]; (split; [unfold idx4; tauto|]);
    (split; [apply (contract_weaken (fun _ => True)); [done|apply Memory_contract]|apply memory_keeps]).
Qed.

Lemma dynamic_core_new : Core_New sleeping_owners NewDynamicCTAManager barrier_image routed_executors = Ok dynamic_core.
Proof.
  unfold dynamic_core. assert (is_ok (Core_New sleeping_owners NewDynamicCTAManager barrier_image routed_executors) = true) as E by (vm_compute; reflexivity).
  revert E. by destruct (Core_New sleeping_owners NewDynamicCTAManager barrier_image routed_executors).
Qed.

Lemma two_warp_config_ok : Forall config_ok [two_warp_config].
Proof. constructor; [|constructor]. split; [|cbn; lia]. split; unfold triple_u32, is_u32; cbn; lia. Qed.

Lemma admitted_core_ops : rtc core_op dynamic_core admitted_core.
Proof.
  exact (rtc_l _ _ _ _ (op_attach dynamic_core) (rtc_once _ _ (op_admit (SetCTAManager dynamic_core).1 [two_warp_config] two_warp_config_ok))).
Qed.

Lemma dynamic_core_wf : core_wf image_inv dynamic_core.
Proof.
  destruct (Core_New_wf image_inv sleeping_owners NewDynamicCTAManager barrier_image routed_executors dynamic_core) as [Hc _]; [..|exact Hc].
  - apply sleeping_owners_wf.
  - apply (NewCTAManager_wf true).
  - apply (NewCTAManager_wf true).
  - intros id x. cbn. by rewrite lookup_empty.
  - intros key r. cbn. by rewrite lookup_empty.
  - by split; vm_compute.
  - apply routed_executors_sound.
  - apply dynamic_core_new.
Qed.

(** After five steps warp 0 waits for warp 1, and the record lists it. *)
Example core_reachable_witness :
  validate (stepped 5 admitted_core) = Ok tt /\ sl_barrierKey (slot_at (stepped 5 admitted_core) 0) = mkBarrierKey 0 0 0 /\
  WarpMask_Active (br_waiters (record_of (records_of (co_ctas (stepped 5 admitted_core))) (mkBarrierKey 0 0 0))) 0 = true.
Proof.
  destruct (core_reachable image_inv sleeping_owners NewDynamicCTAManager barrier_image routed_executors dynamic_core (stepped 5 admitted_core))
    as (Hv & _ & Hk).
  - apply sleeping_owners_wf.
  - apply (NewCTAManager_wf true).
  - apply (NewCTAManager_wf true).
  - intros id x. cbn. by rewrite lookup_empty.
  - intros key r. cbn. by rewrite lookup_empty.
  - by split; vm_compute.
  - apply routed_executors_sound.
  - apply dynamic_core_new.
  - transitivity admitted_core; [apply admitted_core_ops|apply stepped_ops].
  - split; [exact Hv|]. assert (sl_barrierKey (slot_at (stepped 5 admitted_core) 0) = mkBarrierKey 0 0 0) as E by (vm_compute; reflexivity).
    assert (co_attached (stepped 5 admitted_core) = true) as Ha by (vm_compute; reflexivity).
    assert (sl_barrierWait (slot_at (stepped 5 admitted_core) 0) = true) as Hw by (vm_compute; reflexivity).
    exact (conj E (proj1 (Hk Ha 0 (mkBarrierKey 0 0 0) (or_introl eq_refl)) (conj Hw E))).
Defined.

(** ** Admission and reclaim as transactions *)

(** C28: admitting a cluster of CTAs is one transaction over the CTA table, the warp
    states and the scheduler.  An error leaves the core exactly as it was.  Success
    admits every configuration: each member warp had an unused slot and an inactive
    owner, is now runnable, participating and marked initialised, and its owner starts
    at the startup PC, or twenty bytes before where it last stopped when the slot was
    used before in this kernel; no other slot and no other owner moves. *)
Theorem admission_transaction {G : Type} (c : Core G) (configs : list CTAConfig) :
  match AdmitCTACluster c configs with
  | (c', Err _) => c' = c
  | (c', Ok snapshots) =>
      exists warps admission, selectCluster c configs = Ok warps /\ stageDynamicAdmissions (co_ctas c) configs warps = Ok admission /\
        co_attached c = true /\ cm_dynamic (co_ctas c) = true /\ length (as_candidates admission) = length configs /\
        Forall (fun candidate => cm_ctas (co_ctas c) !! cc_ID (ct_config candidate) = None) (as_candidates admission) /\ snapshots = map snapshotCTA (as_candidates admission) /\
        admitted c (as_candidates admission) c'
  end.
Proof. apply AdmitCTACluster_cases. Qed.

(** Reclaiming a CTA is one transaction over the CTA table and the scheduler.  An
    error leaves the core as it was, and it succeeds only for a resident CTA of a
    dynamic manager that is complete and without pending barrier state; then the CTA
    is removed, exactly its members' slots become inactive and unused, and no owner
    and no slot of another CTA changes. *)
Theorem reclaim_transaction {G : Type} (c : Core G) (id : Z) :
  cta_wf (co_ctas c) ->
  match ReclaimCTA c id with
  | (c', Err _) => c' = c
  | (c', Ok snapshot) =>
      exists cta records completion, co_attached c = true /\ cm_dynamic (co_ctas c) = true /\ cm_ctas (co_ctas c) !! id = Some cta /\ cm_barriers (co_ctas c) = Some records /\
        CTAManager_Snapshot (co_ctas c) id = Ok snapshot /\ CTACompletion c id = Ok completion /\ cps_Complete completion = true /\
        pendingCTA records id = false /\
        c' = set_slots (co_slots c') (set_manager (remove_cta id (ct_members cta) records (co_ctas c)) c) /\
        forall j, idx4 j -> slot_at c' j = if bool_decide (j ∈ map wmb_WarpID (ct_members cta)) then retired (slot_at c j) else slot_at c j
  end.
Proof. apply ReclaimCTA_cases. Qed.

(** Both warps have finished after eight steps, and the CTA can be reclaimed. *)
Example reclaim_transaction_witness :
  (ReclaimCTA (stepped 5 admitted_core) 0).1 = stepped 5 admitted_core /\
  exists c' snapshot, ReclaimCTA (stepped 8 admitted_core) 0 = (c', Ok snapshot) /\ slot_at c' 1 = retired (slot_at (stepped 8 admitted_core) 1).
Proof.
  assert (forall n, cta_wf (co_ctas (stepped n admitted_core))) as Hw.
  { intros n. assert (core_wf image_inv (stepped n admitted_core)) as Hc; [|apply (cr_ctas image_inv _ Hc)].
    apply (core_ops_wf image_inv dynamic_core); [apply dynamic_core_wf|]. transitivity admitted_core; [apply admitted_core_ops|apply stepped_ops]. }
  pose proof (reclaim_transaction (stepped 5 admitted_core) 0 (Hw 5%nat)) as H5. pose proof (reclaim_transaction (stepped 8 admitted_core) 0 (Hw 8%nat)) as H8.
  assert (is_ok (ReclaimCTA (stepped 5 admitted_core) 0).2 = false) as E5 by (vm_compute; reflexivity).
  assert (is_ok (ReclaimCTA (stepped 8 admitted_core) 0).2 = true) as E8 by (vm_compute; reflexivity).
  assert (bool_decide (1 ∈ map wmb_WarpID (match cm_ctas (co_ctas (stepped 8 admitted_core)) !! 0 with Some cta => ct_members cta | None => [] end)) = true) as Em
    by (vm_compute; reflexivity).
  split; [destruct (ReclaimCTA (stepped 5 admitted_core) 0) as [c' [s|e]]; [discriminate E5|exact H5]|].
  destruct (ReclaimCTA (stepped 8 admitted_core) 0) as [c' [s|e]]; [|discriminate E8]. exists c', s. split; [exact eq_refl|].
  destruct H8 as (cta & records & completion & _ & _ & Hl & _ & _ & _ & _ & _ & _ & Hs). rewrite Hl in Em. rewrite (Hs 1 (or_intror (or_introl eq_refl))). by rewrite Em.
Defined.
