(* ===== verification/Delivery.v ===== *)
(** * Incremental delivery of instruction effects (src/emu/state/delivery.go, effect_stream.go)

    A timing pipeline makes the parts of an instruction visible at different times:
    an [EffectDelivery] keeps the immutable bundle and the receipts of the groups
    already delivered, and an [EffectStream] keeps the frontier behind which an old
    control event no longer moves the PC.  Owners, streams and deliveries are
    shared objects, so they live in a store [Visibility] and are named by integer
    keys; a key without an object is the nil pointer.  The external callback of a
    delivery is another component: it may touch its own state and the owner's
    contents, not the receipts. *)

From S2P Require Import Prelude IsaTypes Catalog Decode Integer System Custom WarpState Apply Softfloat Float Memory View Launch.

#[local] Open Scope Z_scope.
#[local] Open Scope go_scope.

(** ** Events, streams and deliveries *)

Inductive VisibilityEvent :=
| WritebackEvent
| ControlEvent
| CSREvent
| FFlagsEvent
| MemoryEvent
| FaultEvent
| VisibilityEventOther (n : Z).

#[export] Instance VisibilityEvent_eq_dec : EqDecision VisibilityEvent.
Proof. solve_decision. Defined.

Record EffectStream := mkEffectStream {
  sm_owner : Z;
  sm_controlOrder : Z;
  sm_activationOrder : Z
}.

(** [delivered [visibilityEventCount]bool] *)
Record receipts := mkReceipts {
  rc_writeback : bool;
  rc_control : bool;
  rc_csr : bool;
  rc_fflags : bool;
  rc_memory : bool;
  rc_fault : bool
}.

Definition no_receipts : receipts := mkReceipts false false false false false false.

(** [delivered[event]]; [None] beyond the array. *)
Definition receipt (r : receipts) (event : VisibilityEvent) : option bool :=
  match event with
  | WritebackEvent => Some (rc_writeback r)
  | ControlEvent => Some (rc_control r)
  | CSREvent => Some (rc_csr r)
  | FFlagsEvent => Some (rc_fflags r)
  | MemoryEvent => Some (rc_memory r)
  | FaultEvent => Some (rc_fault r)
  | VisibilityEventOther _ => None
  end.

(** [delivered[event] = b] *)
Definition set_receipt (event : VisibilityEvent) (b : bool) (r : receipts) : receipts :=
  match event with
  | WritebackEvent => mkReceipts b (rc_control r) (rc_csr r) (rc_fflags r) (rc_memory r) (rc_fault r)
  | ControlEvent => mkReceipts (rc_writeback r) b (rc_csr r) (rc_fflags r) (rc_memory r) (rc_fault r)
  | CSREvent => mkReceipts (rc_writeback r) (rc_control r) b (rc_fflags r) (rc_memory r) (rc_fault r)
  | FFlagsEvent => mkReceipts (rc_writeback r) (rc_control r) (rc_csr r) b (rc_memory r) (rc_fault r)
  | MemoryEvent => mkReceipts (rc_writeback r) (rc_control r) (rc_csr r) (rc_fflags r) b (rc_fault r)
  | FaultEvent => mkReceipts (rc_writeback r) (rc_control r) (rc_csr r) (rc_fflags r) (rc_memory r) b
  | VisibilityEventOther _ => r
  end.

Record EffectDelivery := mkEffectDelivery {
  ed_stream : option Z;
  ed_order : Z;
  ed_instruction : InstructionContext;
  ed_owner : Z;
  ed_effects : InstructionEffects;
  ed_delivered : receipts;
  ed_writes : LaneMask;
  ed_cancelled : bool
}.

Definition with_receipts (r : receipts) (d : EffectDelivery) : EffectDelivery :=
  mkEffectDelivery (ed_stream d) (ed_order d) (ed_instruction d) (ed_owner d) (ed_effects d) r (ed_writes d) (ed_cancelled d).
Definition with_writes (m : LaneMask) (d : EffectDelivery) : EffectDelivery :=
  mkEffectDelivery (ed_stream d) (ed_order d) (ed_instruction d) (ed_owner d) (ed_effects d) (ed_delivered d) m (ed_cancelled d).
Definition mark (event : VisibilityEvent) (d : EffectDelivery) : EffectDelivery :=
  with_receipts (set_receipt event true (ed_delivered d)) d.

Record Visibility := mkVisibility {
  vz_owners : owners;
  vz_streams : gmap Z EffectStream;
  vz_deliveries : gmap Z EffectDelivery
}.

Definition set_vz_owners (h : owners) (v : Visibility) : Visibility := mkVisibility h (vz_streams v) (vz_deliveries v).
Definition set_vz_streams (s : gmap Z EffectStream) (v : Visibility) : Visibility := mkVisibility (vz_owners v) s (vz_deliveries v).
Definition set_vz_deliveries (d : gmap Z EffectDelivery) (v : Visibility) : Visibility := mkVisibility (vz_owners v) (vz_streams v) d.

Definition put_delivery (p : Z) (d : EffectDelivery) (v : Visibility) : Visibility := set_vz_deliveries (<[p := d]> (vz_deliveries v)) v.
Definition put_owner (p : Z) (w : WarpState) (v : Visibility) : Visibility := set_vz_owners (<[p := w]> (vz_owners v)) v.

(** ** Streams (effect_stream.go) *)

Definition NewEffectStream (owner : option Z) : result EffectStream :=
  match owner with
  | None => Err (Errorf "nil effect stream owner")
  | Some o => Ok (mkEffectStream o 0 0)
  end.

Definition ControlOrder (s : EffectStream) : Z := sm_controlOrder s.

Definition RecordActivation (through : Z) (s : EffectStream) : EffectStream :=
  mkEffectStream (sm_owner s)
    (if through >? sm_controlOrder s then through else sm_controlOrder s)
    (if through >? sm_activationOrder s then through else sm_activationOrder s).

(** The stage is built from the live owner; PC, mask and lifecycle of the latched
    context are put back unless the bundle writes them. *)
Definition stageInstructionEffects (w : WarpState) (context : InstructionContext) (effects : InstructionEffects) : result EffectStage :=
  let? logical := WithInstructionContext w context in
  let? stage := StageEffects logical effects in
  let after := es_after stage in
  let after := match Control effects with None => set_pc (w_pc w) after | Some _ => after end in
  let after :=
    match WarpMasks effects, Divergence effects, Trap effects with
    | [], None, None => set_mask (w_activeMask w) (w_lifecycle w) after
    | _, _, _ => after
    end in
  Ok (mkEffectStage w after (es_forwarded stage) (es_requiresExternal stage) (es_committed stage)).

Definition NewDelivery (h : owners) (p : Z) (s : EffectStream) (order : Z) (context : InstructionContext) (effects : InstructionEffects) :
    result EffectDelivery :=
  check order <>? 0 else Errorf "invalid effect stream identity" in
  match h !! sm_owner s with
  | None => Err (GoPanic "invalid memory address")
  | Some w =>
      let? _ := stageInstructionEffects w context effects in
      Ok (mkEffectDelivery (Some p) order context (sm_owner s) effects no_receipts 0 false)
  end.

Definition asynchronousArrival (part : InstructionEffects) : bool :=
  match Control part, Barriers part, WarpDrains part with
  | Some c, [b], [drain] =>
      (ce_Reason c ==. PCSequential) &&
      (be_Kind b ==. BarrierArrive) && negb (be_Sync b) && negb (be_Wait b) && negb (be_ReleaseByCoordinator b) && be_DrainLSU b &&
      negb (Bool.eqb (be_Arrive b) (be_Event b)) && (wd_Kind drain ==. DrainLSU) && negb (wd_Wait drain) && negb (wd_ReleaseAfterDrain drain)
  | _, _, _ => false
  end.

Definition stageStreamControl (w : WarpState) (s : EffectStream) (d : EffectDelivery) (part : InstructionEffects) : result EffectStage :=
  if ed_order d <=? sm_controlOrder s then
    let lateArrive := (ed_order d >? sm_activationOrder s) && asynchronousArrival part in
    check negb (match Control part with Some c => ce_Reason c !=. PCSequential | None => false end ||
                match Trap part with Some _ => true | None => false end ||
                negb (length (WarpMasks part) =? 0)%nat ||
                match Divergence part with Some _ => true | None => false end ||
                match WarpSpawn part with Some _ => true | None => false end ||
                (negb lateArrive && (negb (length (WarpDrains part) =? 0)%nat || negb (length (Barriers part) =? 0)%nat)))
      else Errorf "stale nonsequential control delivery" in
    StageEffects w (with_Control None part)
  else stageInstructionEffects w (ed_instruction d) part.

(** ** Deliveries (delivery.go) *)

Definition NewEffectDelivery (h : owners) (o : Z) (effects : InstructionEffects) : result EffectDelivery :=
  match h !! o with
  | None => Err (GoPanic "invalid memory address")
  | Some w =>
      let? _ := StageEffects w effects in
      Ok (mkEffectDelivery None 0 (mkInstructionContext 0 0 0) o effects no_receipts 0 false)
  end.

Definition Cancel (d : EffectDelivery) : EffectDelivery :=
  mkEffectDelivery (ed_stream d) (ed_order d) (ed_instruction d) (ed_owner d) (ed_effects d) (ed_delivered d) (ed_writes d) true.
Definition Delivered (d : EffectDelivery) (event : VisibilityEvent) : bool := default false (receipt (ed_delivered d) event).
Definition WrittenLanes (d : EffectDelivery) : LaneMask := ed_writes d.

(** The lanes of a bundle's register writes, and the writes cut down to some lanes. *)
Definition covered_lanes (writes : list RegisterWriteEffect) : LaneMask := fold_left (fun m w => m .| rw_Mask w) writes 0.

Definition set_rw_Mask (m : LaneMask) (w : RegisterWriteEffect) : RegisterWriteEffect :=
  mkRegisterWriteEffect (rw_ByteMask w) (rw_Destination w) m (rw_Values w).

Definition select_writes (lanes : LaneMask) (writes : list RegisterWriteEffect) : list RegisterWriteEffect :=
  List.filter (fun w => rw_Mask w <>? 0) (map (fun w => set_rw_Mask (rw_Mask w .& lanes) w) writes).

(** The group of effects that control visibility covers. *)
Definition control_part (e : InstructionEffects) : InstructionEffects :=
  mkInstructionEffects [] (Control e) [] None None [] (match Trap e with Some _ => CSRWrites e | None => [] end) (Trap e)
    (WarpMasks e) (WarpSpawn e) (Divergence e) (WarpDrains e) (Barriers e) [] [].

(** The switch of [Deliver]. *)
Definition visible_part (d : EffectDelivery) (event : VisibilityEvent) (lanes : LaneMask) : result InstructionEffects :=
  let e := ed_effects d in
  match event with
  | WritebackEvent =>
      let expected := covered_lanes (RegisterWrites e) in
      check negb (negb (LaneMask_Valid lanes) || (lanes .&^ expected <>? 0) || (lanes .& ed_writes d <>? 0) || ((expected <>? 0) && (lanes =? 0)))
        else Errorf "invalid or repeated writeback coverage" in
      Ok (with_RegisterWrites (select_writes lanes (RegisterWrites e)) no_effects)
  | ControlEvent => Ok (control_part e)
  | CSREvent =>
      check match Trap e with Some _ => false | None => true end else Errorf "trap CSR writes belong to control event" in
      Ok (with_CSRWrites (CSRWrites e) (with_CSRReads (CSRReads e) no_effects))
  | FFlagsEvent => Ok (with_FFlagsOf (FFlagsOf e) no_effects)
  | MemoryEvent => Ok (with_Ordering (Ordering e) (with_PackedLoads (PackedLoads e) (with_MemoryRequests (MemoryRequests e) no_effects)))
  | FaultEvent => Ok (with_Faults (Faults e) no_effects)
  | VisibilityEventOther _ => Ok no_effects
  end.

(** A control event of a stream is staged against the latched context. *)
Definition stage_visible (v : Visibility) (d : EffectDelivery) (event : VisibilityEvent) (part : InstructionEffects) : result (WarpState * EffectStage) :=
  match vz_owners v !! ed_owner d with
  | None => Err (GoPanic "invalid memory address")
  | Some w =>
      let? stage :=
        match ed_stream d, event with
        | Some p, ControlEvent =>
            match vz_streams v !! p with
            | None => Err (GoPanic "invalid memory address")
            | Some s => stageStreamControl w s d part
            end
        | _, _ => StageEffects w part
        end in
      Ok (w, stage)
  end.

(** The stream's frontier after a control event. *)
Definition advance_frontier (d : EffectDelivery) (streams : gmap Z EffectStream) : gmap Z EffectStream :=
  match ed_stream d with
  | None => streams
  | Some p => alter (fun s => mkEffectStream (sm_owner s) (if ed_order d >? sm_controlOrder s then ed_order d else sm_controlOrder s) (sm_activationOrder s)) p streams
  end.

Section Deliver.
Context {X : Type}.

Notation callback := (option (InstructionEffects -> external X)).

(** The commit of a visibility group: forwarded groups go through the callback, local
    groups must not have one. *)
Definition commit_visible (w : WarpState) (x : X) (stage : EffectStage) (f : callback) : WarpState * X * result unit :=
  if RequiresExternalSuccess stage then
    match f with
    | None => (w, x, Err (Errorf "visibility event requires external owner"))
    | Some f => let '(w, x, _, r) := CommitForwardedWithExternal w x stage (f (ForwardedEffects stage)) in (w, x, r)
    end
  else
    match f with
    | Some _ => (w, x, Err (Errorf "local event cannot invoke an external owner"))
    | None => let '(w, _, r) := Commit w stage in (w, x, r)
    end.

(** The receipt of an event that committed. *)
Definition record_receipt (event : VisibilityEvent) (lanes : LaneMask) (d : EffectDelivery) : EffectDelivery :=
  if event ==. WritebackEvent then
    let writes := ed_writes d .| lanes in
    let d := with_writes writes d in
    with_receipts (set_receipt WritebackEvent (writes =? covered_lanes (RegisterWrites (ed_effects d))) (ed_delivered d)) d
  else mark event d.

Definition Deliver (v : Visibility) (x : X) (p : Z) (event : VisibilityEvent) (lanes : LaneMask) (f : callback) : Visibility * X * result unit :=
  match vz_deliveries v !! p with
  | None => (v, x, Err (Errorf "inactive effect delivery"))
  | Some d =>
      if ed_cancelled d then (v, x, Err (Errorf "inactive effect delivery"))
      else if negb (bool_decide (receipt (ed_delivered d) event = Some false)) then (v, x, Err (Errorf "unknown or repeated visibility event"))
      else if (event !=. WritebackEvent) && (lanes <>? 0) then (v, x, Err (Errorf "lane subset only valid for writeback"))
      else
        match (let? part := visible_part d event lanes in stage_visible v d event part) with
        | Err e => (v, x, Err e)
        | Ok (w, stage) =>
            match commit_visible w x stage f with
            | (w', x', Err e) => (put_owner (ed_owner d) w' v, x', Err e)
            | (w', x', Ok _) =>
                let v := put_owner (ed_owner d) w' v in
                let v :=
                  match event, Control (ed_effects d) with
                  | ControlEvent, Some _ => set_vz_streams (advance_frontier d (vz_streams v)) v
                  | _, _ => v
                  end in
                (put_delivery p (record_receipt event lanes d) v, x', Ok tt)
            end
        end
  end.

(** ** Joint CSR delivery *)

(** The trap's own fields of a control candidate, over a CSR candidate. *)
Definition merge_trap (t : TrapEffect) (control csr : WarpState) : WarpState :=
  let csr := set_pc (w_pc control) csr in
  match te_Kind t with
  | TrapEnter =>
      let from := w_trapCSRs control in let to := w_trapCSRs csr in
      set_savedThreadMask (w_savedThreadMask control)
        (set_trapCSRs (mkTrapCSRState (tc_MStatus to) (tc_MTVec to) (tc_MScratch to) (tc_MEPC from) (tc_MCause from) (tc_MTVal from)) csr)
  | _ => if te_RestoresThreadMask t then set_mask (w_activeMask control) (w_lifecycle control) csr else csr
  end.

(** The flags receipt that joins a CSR delivery [p] owned by [o]: [nil] joins nothing. *)
Definition joined_flags (v : Visibility) (p o : Z) (flags : option Z) : result (option FFlagsEffect) :=
  match flags with
  | None => Ok None
  | Some q =>
      match vz_deliveries v !! q with
      | None => Err (GoPanic "invalid memory address")
      | Some fd =>
          check negb ((q =? p) || (ed_owner fd <>? o) || ed_cancelled fd || rc_fflags (ed_delivered fd)) else Errorf "invalid combined flags receipt" in
          Ok (FFlagsOf (ed_effects fd))
      end
  end.

(** The trap receipt that joins it, merged into the CSR stage. *)
Definition joined_trap (v : Visibility) (w : WarpState) (p o : Z) (flags trap : option Z) (stage : EffectStage) : result EffectStage :=
  match trap with
  | None => Ok stage
  | Some q =>
      match vz_deliveries v !! q with
      | None => Err (GoPanic "invalid memory address")
      | Some td =>
          match Trap (ed_effects td), (q =? p) || bool_decide (flags = Some q) || (ed_owner td <>? o) || ed_cancelled td || rc_control (ed_delivered td) with
          | Some t, false =>
              let e := ed_effects td in
              let control := mkInstructionEffects [] (Control e) [] None None [] (CSRWrites e) (Trap e) [] None None [] [] [] [] in
              let? controlStage :=
                match ed_stream td with
                | Some s => match vz_streams v !! s with Some s => stageStreamControl w s td control | None => Err (GoPanic "invalid memory address") end
                | None => StageEffects w control
                end in
              check negb (RequiresExternalSuccess controlStage) else Errorf "trap control unexpectedly forwards external effects" in
              Ok (mkEffectStage (es_before stage) (merge_trap t (es_after controlStage) (es_after stage)) (es_forwarded stage)
                    (es_requiresExternal stage) (es_committed stage))
          | _, _ => Err (Errorf "invalid combined trap receipt")
          end
      end
  end.

(** Everything [deliverCSRJoint] checks before it commits. *)
Definition jointPlan (v : Visibility) (p : Z) (flags trap : option Z) : result (EffectDelivery * WarpState * EffectStage) :=
  match vz_deliveries v !! p with
  | None => Err (Errorf "invalid or repeated combined CSR delivery")
  | Some d =>
      check negb (ed_cancelled d || rc_csr (ed_delivered d) || match Trap (ed_effects d) with Some _ => true | None => false end)
        else Errorf "invalid or repeated combined CSR delivery" in
      let? ff := joined_flags v p (ed_owner d) flags in
      match vz_owners v !! ed_owner d with
      | None => Err (GoPanic "invalid memory address")
      | Some w =>
          let part := with_FFlagsOf ff (with_CSRWrites (CSRWrites (ed_effects d)) (with_CSRReads (CSRReads (ed_effects d)) no_effects)) in
          let? stage := StageEffects w part in
          let? stage := joined_trap v w p (ed_owner d) flags trap stage in
          Ok (d, w, stage)
      end
  end.

Definition mark_at (p : Z) (event : VisibilityEvent) (v : Visibility) : Visibility := set_vz_deliveries (alter (mark event) p (vz_deliveries v)) v.

Definition deliverCSRJoint (v : Visibility) (x : X) (p : Z) (flags trap : option Z) (f : callback) : Visibility * X * result unit :=
  match jointPlan v p flags trap with
  | Err e => (v, x, Err e)
  | Ok (d, w, stage) =>
      match commit_visible w x stage f with
      | (w', x', Err e) => (put_owner (ed_owner d) w' v, x', Err e)
      | (w', x', Ok _) =>
          let v := mark_at p CSREvent (put_owner (ed_owner d) w' v) in
          let v := match flags with Some q => mark_at q FFlagsEvent v | None => v end in
          let v :=
            match trap with
            | Some q =>
                match vz_deliveries v !! q with
                | Some td => set_vz_streams (advance_frontier td (vz_streams v)) (mark_at q ControlEvent v)
                | None => v
                end
            | None => v
            end in
          (v, x', Ok tt)
      end
  end.

Definition DeliverCSRWithFlags (v : Visibility) (x : X) (p : Z) (flags : option Z) (f : callback) : Visibility * X * result unit :=
  match flags with
  | None => (v, x, Err (Errorf "missing combined flags delivery"))
  | Some _ => deliverCSRJoint v x p flags None f
  end.

Definition DeliverCSRWithTrap (v : Visibility) (x : X) (p : Z) (trap flags : option Z) (f : callback) : Visibility * X * result unit :=
  match trap with
  | None => (v, x, Err (Errorf "missing combined trap delivery"))
  | Some _ => deliverCSRJoint v x p flags trap f
  end.
End Deliver.

(** ** WSPAWN delivery *)

Definition set_ws_MScratch (m : Z) (s : WarpSpawnEffect) : WarpSpawnEffect :=
  mkWarpSpawnEffect (ws_SourceWarp s) (ws_RequestedCount s) (ws_Targets s) (ws_TargetPC s) (ws_InitialLaneMask s) (ws_CopyMScratch s) m
    (ws_RequiresSingleActiveWarp s) (ws_ReleaseSourceAfterApply s).

(** [targets[n].Expected = targets[n].Owner.Snapshot()] *)
Definition refreshTarget (h : owners) (acc : list WarpSpawnTarget) (t : WarpSpawnTarget) : result (list WarpSpawnTarget) :=
  match st_Owner t with
  | None => Err (Errorf "nil activation target")
  | Some p => match h !! p with Some w => Ok (acc ++ [mkWarpSpawnTarget (st_WarpID t) (Some p) w]) | None => Err (GoPanic "invalid memory address") end
  end.

(** The control context of a stream's spawn is still the owner's. *)
Definition spawn_context_ok (d : EffectDelivery) (w : WarpState) (streams : gmap Z EffectStream) (activation : bool) : bool :=
  match ed_stream d with
  | None => true
  | Some p =>
      match streams !! p with
      | None => false
      | Some s => negb ((ed_order d <=? sm_controlOrder s) || (negb activation && (w_pc w <>? ic_PC (ed_instruction d))) ||
                        (w_activeMask w <>? ic_Mask (ed_instruction d)))
      end
  end.

(** The staged source, its instruction PC and the targets.  At an activation the
    staging error is overwritten by the snapshots of the targets, and the transaction
    then refuses the missing stage. *)
Definition spawnSource (v : Visibility) (d : EffectDelivery) (w : WarpState) (targets : list WarpSpawnTarget) (activation : bool) :
    result (EffectStage * list WarpSpawnTarget * option Z) :=
  let part := control_part (ed_effects d) in
  match activation, ed_stream d with
  | true, Some _ =>
      let part := with_WarpSpawn (set_ws_MScratch (tc_MScratch (w_trapCSRs w)) <$> WarpSpawn part) part in
      let staged := stageInstructionEffects w (ed_instruction d) part in
      let? live := foldM (refreshTarget (vz_owners v)) [] targets in
      match staged, live with
      | Ok source, _ => Ok (source, live, Some (ic_PC (ed_instruction d)))
      | Err e, [] => Err e
      | Err _, _ => Err (Errorf "state: nil WSPAWN source stage")
      end
  | _, _ => let? source := StageEffects w part in Ok (source, targets, None)
  end.

Definition deliverWarpSpawn (v : Visibility) (p : Z) (targets : list WarpSpawnTarget) (activation : bool) : Visibility * result unit :=
  match vz_deliveries v !! p with
  | None => (v, Err (Errorf "inactive, repeated or non-spawn control delivery"))
  | Some d =>
      match vz_owners v !! ed_owner d with
      | None => (v, Err (GoPanic "invalid memory address"))
      | Some w =>
          if negb (spawn_context_ok d w (vz_streams v) activation) then (v, Err (Errorf "stale concurrent spawn control context"))
          else if ed_cancelled d || rc_control (ed_delivered d) || match WarpSpawn (ed_effects d) with Some _ => false | None => true end then
            (v, Err (Errorf "inactive, repeated or non-spawn control delivery"))
          else
            match
              let? src := spawnSource v d w targets activation in
              let '(source, targets, pc) := src in stageWarpSpawn (vz_owners v) (ed_owner d) source targets pc
            with
            | Err e => (v, Err e)
            | Ok transaction =>
                match Spawn_Commit (vz_owners v) transaction with
                | (_, _, Err e) => (v, Err e)
                | (h, _, Ok _) =>
                    let v := put_delivery p (mark ControlEvent d) (set_vz_owners h v) in
                    let streams :=
                      match ed_stream d with
                      | None => vz_streams v
                      | Some s => alter (fun s => mkEffectStream (sm_owner s) (ed_order d) (sm_activationOrder s)) s (vz_streams v)
                      end in
                    (set_vz_streams streams v, Ok tt)
                end
            end
      end
  end.

Definition DeliverWarpSpawn (v : Visibility) (p : Z) (targets : list WarpSpawnTarget) : Visibility * result unit := deliverWarpSpawn v p targets false.

Definition DeliverWarpSpawnAtActivation (v : Visibility) (p : Z) (targets : list WarpSpawnTarget) : Visibility * result unit :=
  deliverWarpSpawn v p targets true.
