(* ===== verification/DeliverySpec.v ===== *)
(** * Delivering a bundle in parts

    The groups of an accepted bundle can be delivered in any order and the register
    lanes in any partition: the owner ends as the atomic commit would leave it.  A
    group is delivered once; a control group that arrives behind the frontier of its
    stream moves nothing. *)

From S2P Require Import Prelude IsaTypes Catalog Decode Integer System Custom WarpState Apply ApplyInvariant Softfloat Float Memory View Launch Delivery.

#[local] Open Scope Z_scope.
#[local] Open Scope go_scope.

(** ** Register writes, lane by lane *)

(** One write on one lane. *)
Definition lane_write (write : RegisterWriteEffect) (lane : Z) (l : laneState) : laneState :=
  let r := rw_Destination write in
  let bits := byte_bits (if rw_ByteMask write =? 0 then 15 else rw_ByteMask write) in
  if (reg_File r ==. Integer) && (reg_Index r =? 0) then l
  else if reg_File r ==. Integer then set_gpr (reg_Index r) (merge_bits bits (reg_get (gpr l) (reg_Index r)) (qget (rw_Values write) lane)) l
  else set_fpr (reg_Index r) (merge_bits bits (reg_get (fpr l) (reg_Index r)) (qget (rw_Values write) lane)) l.

Lemma write_lanes_get write lanes lane : idx4 lane ->
  qget (write_lanes write lanes) lane = if LaneMask_Active (rw_Mask write) lane then lane_write write lane (qget lanes lane) else qget lanes lane.
Proof.
  intros Hl. unfold write_lanes, lane_write. destruct ((reg_File _ ==. Integer) && _) eqn:E; [by destruct (LaneMask_Active _ _)|].
  rewrite update_lanes_get by done. by destruct (LaneMask_Active _ _).
Qed.

Definition lane_image (writes : list RegisterWriteEffect) (lane : Z) (l : laneState) : laneState :=
  fold_left (fun l w => if LaneMask_Active (rw_Mask w) lane then lane_write w lane l else l) writes l.

Definition all_lanes (writes : list RegisterWriteEffect) (lanes : quad laneState) : quad laneState :=
  fold_left (fun lanes w => write_lanes w lanes) writes lanes.

Lemma all_lanes_get writes lanes lane : idx4 lane -> qget (all_lanes writes lanes) lane = lane_image writes lane (qget lanes lane).
Proof.
  intros Hl. revert lanes. induction writes as [|w ws IH]; intros lanes; [done|]. cbn. unfold all_lanes in IH. rewrite IH. unfold lane_image. cbn.
  by rewrite write_lanes_get.
Qed.

Lemma Active_land m n lane : idx4 lane -> LaneMask_Active (m .& n) lane = LaneMask_Active m lane && LaneMask_Active n lane.
Proof. intros H%idx4_range. by rewrite !LaneMask_Active_testbit, Z.land_spec by done. Qed.
Lemma Active_lor m n lane : idx4 lane -> LaneMask_Active (m .| n) lane = LaneMask_Active m lane || LaneMask_Active n lane.
Proof. intros H%idx4_range. by rewrite !LaneMask_Active_testbit, Z.lor_spec by done. Qed.
Lemma Active_0 lane : LaneMask_Active 0 lane = false.
Proof. unfold LaneMask_Active. by rewrite Z.land_0_l, andb_false_r. Qed.

Lemma select_writes_cons m w writes : select_writes m (w :: writes) =
  if rw_Mask w .& m =? 0 then select_writes m writes else set_rw_Mask (rw_Mask w .& m) w :: select_writes m writes.
Proof. unfold select_writes. cbn. by destruct (rw_Mask w .& m =? 0). Qed.

Lemma lane_image_cons w writes lane l : lane_image (w :: writes) lane l =
  lane_image writes lane (if LaneMask_Active (rw_Mask w) lane then lane_write w lane l else l).
Proof. done. Qed.

Lemma lane_image_select m writes lane l : idx4 lane ->
  lane_image (select_writes m writes) lane l = if LaneMask_Active m lane then lane_image writes lane l else l.
Proof.
  intros Hl. revert l. induction writes as [|w ws IH]; intros l; [by destruct (LaneMask_Active m lane)|]. rewrite select_writes_cons, lane_image_cons.
  pose proof (Active_land (rw_Mask w) m lane Hl) as E. destruct (Z.eqb_spec (rw_Mask w .& m) 0) as [H0|_].
  - rewrite IH. rewrite H0, Active_0 in E. by destruct (LaneMask_Active m lane), (LaneMask_Active (rw_Mask w) lane).
  - rewrite lane_image_cons, IH. change (rw_Mask (set_rw_Mask (rw_Mask w .& m) w)) with (rw_Mask w .& m). rewrite E.
    by destruct (LaneMask_Active m lane), (LaneMask_Active (rw_Mask w) lane).
Qed.

Lemma fold_lor_active writes m lane : idx4 lane ->
  LaneMask_Active (fold_left (fun m w => m .| rw_Mask w) writes m) lane = LaneMask_Active m lane || existsb (fun w => LaneMask_Active (rw_Mask w) lane) writes.
Proof.
  intros Hl. revert m. induction writes as [|w ws IH]; intros m; cbn; [by rewrite orb_false_r|]. by rewrite IH, Active_lor, orb_assoc by done.
Qed.

Lemma lane_image_uncovered writes lane l : idx4 lane -> LaneMask_Active (covered_lanes writes) lane = false -> lane_image writes lane l = l.
Proof.
  intros Hl. unfold covered_lanes. rewrite fold_lor_active, Active_0 by done. cbn. unfold lane_image.
  induction writes as [|w ws IH]; cbn; [done|]. intros [-> H]%orb_false_iff. by apply IH.
Qed.

(** The lanes [done] of a bundle's writes over [lanes]. *)
Definition lanes_after (writes : list RegisterWriteEffect) (done : LaneMask) (lanes : quad laneState) : quad laneState :=
  qmake (fun lane => if LaneMask_Active done lane then lane_image writes lane (qget lanes lane) else qget lanes lane).

Lemma lanes_after_none writes lanes : lanes_after writes 0 lanes = lanes.
Proof. apply quad_ext. intros i Hi. unfold lanes_after. by rewrite qget_qmake, Active_0. Qed.

Lemma lanes_after_all writes lanes : lanes_after writes (covered_lanes writes) lanes = all_lanes writes lanes.
Proof.
  apply quad_ext. intros i Hi. unfold lanes_after. rewrite qget_qmake, all_lanes_get by done.
  destruct (LaneMask_Active _ i) eqn:E; [done|]. by rewrite lane_image_uncovered.
Qed.

Lemma lanes_after_more writes done m lanes : done .& m = 0 ->
  all_lanes (select_writes m writes) (lanes_after writes done lanes) = lanes_after writes (done .| m) lanes.
Proof.
  intros Hd. apply quad_ext. intros i Hi. rewrite all_lanes_get, lane_image_select by done. unfold lanes_after. rewrite !qget_qmake, Active_lor by done.
  assert (LaneMask_Active done i && LaneMask_Active m i = false) as E by by rewrite <- Active_land, Hd, Active_0.
  by destruct (LaneMask_Active done i), (LaneMask_Active m i).
Qed.

(** [stageRegisterWrites] accepts exactly valid writes of distinct destinations. *)
Definition write_ok (w : RegisterWriteEffect) : Prop :=
  validateRegister (rw_Destination w) = Ok tt /\ rw_ByteMask w .&^ 15 = 0 /\ LaneMask_Valid (rw_Mask w) = true.

Lemma stageRegisterWrite_ok seen c w : write_ok w -> rw_Destination w ∉ seen ->
  stageRegisterWrite (seen, c) w = Ok (rw_Destination w :: seen, set_lanes (write_lanes w (w_lanes c)) c).
Proof.
  intros (Hv & Hb & Hm) Hd. unfold stageRegisterWrite, write_lanes. rewrite Hv, Hb, Hm, bool_decide_eq_false_2 by done. cbn [negb Z.eqb].
  destruct ((reg_File _ ==. Integer) && _); [|done]. by rewrite set_lanes_lanes.
Qed.

Lemma stageRegisterWrite_inv seen c w acc : stageRegisterWrite (seen, c) w = Ok acc -> write_ok w /\ rw_Destination w ∉ seen.
Proof.
  intros H. pose proof (stageRegisterWrite_form _ _ _ H) as (Hv & Hm & Hd & _). split; [|done]. split; [done|]. split; [|done].
  unfold stageRegisterWrite in H. rewrite Hv in H. destruct (Z.eqb_spec (rw_ByteMask w .&^ 15) 0); [done|]. done.
Qed.

Lemma writes_fold seen c writes : Forall write_ok writes -> NoDup (map rw_Destination writes) -> (forall d, d ∈ map rw_Destination writes -> d ∉ seen) ->
  exists seen', foldM stageRegisterWrite (seen, c) writes = Ok (seen', set_lanes (all_lanes writes (w_lanes c)) c).
Proof.
  revert seen c. induction writes as [|w ws IH]; intros seen c Hok Hnd Hs; cbn [foldM].
  - exists seen. change (all_lanes [] (w_lanes c)) with (w_lanes c). by rewrite set_lanes_lanes.
  - apply Forall_cons in Hok as [Hw Hok]. apply NoDup_cons in Hnd as [Hn Hnd].
    rewrite stageRegisterWrite_ok; [cbn [result_bind]|done|by apply Hs, list_elem_of_here].
    destruct (IH (rw_Destination w :: seen) (set_lanes (write_lanes w (w_lanes c)) c) Hok Hnd) as [seen' ->]; [|by exists seen'].
    intros d Hd [->|Hin]%elem_of_cons; [done|]. by apply (Hs d); [apply list_elem_of_further|].
Qed.

Lemma writes_fold_inv seen c writes acc : foldM stageRegisterWrite (seen, c) writes = Ok acc ->
  Forall write_ok writes /\ NoDup (map rw_Destination writes) /\ (forall d, d ∈ map rw_Destination writes -> d ∉ seen).
Proof.
  revert seen c. induction writes as [|w ws IH]; intros seen c H; cbn [foldM map] in *; [split_and!; [constructor|constructor|by intros d Hd%elem_of_nil]|].
  apply result_bind_ok in H as (acc1 & H1 & H). apply stageRegisterWrite_inv in H1 as Hw. destruct Hw as [Hw Hd].
  apply stageRegisterWrite_form in H1 as (_ & _ & _ & ->). cbn [fst snd] in H. apply IH in H as (Hok & Hnd & Hs).
  split_and!; [by constructor| |].
  - constructor; [|done]. intros Hin. apply (Hs _ Hin), list_elem_of_here.
  - intros d [->|Hin]%elem_of_cons; [done|]. intros Hx. by apply (Hs d Hin), list_elem_of_further.
Qed.

Lemma stageRegisterWrites_iff c writes c' : stageRegisterWrites c writes = Ok c' <->
  Forall write_ok writes /\ NoDup (map rw_Destination writes) /\ c' = set_lanes (all_lanes writes (w_lanes c)) c.
Proof.
  unfold stageRegisterWrites. split.
  - intros H. apply result_bind_ok in H as ([sn c1] & H & <-%Ok_inj). apply writes_fold_inv in H as Hi. destruct Hi as (Hok & Hnd & Hs).
    split_and!; [done..|]. destruct (writes_fold [] c writes Hok Hnd Hs) as [seen' E]. rewrite E in H. by apply Ok_inj in H as [= _ <-].
  - intros (Hok & Hnd & ->). destruct (writes_fold [] c writes Hok Hnd) as [seen' ->]; [|done]. by intros d _ Hd%elem_of_nil.
Qed.

Lemma select_dest m writes d : d ∈ map rw_Destination (select_writes m writes) -> d ∈ map rw_Destination writes.
Proof.
  induction writes as [|w ws IH]; [done|]. rewrite select_writes_cons. cbn [map]. destruct (_ =? 0); cbn [map].
  - intros H. by apply list_elem_of_further, IH.
  - intros [->|H]%elem_of_cons; [apply list_elem_of_here|by apply list_elem_of_further, IH].
Qed.

Lemma select_writes_ok m writes : LaneMask_Valid m = true -> Forall write_ok writes -> NoDup (map rw_Destination writes) ->
  Forall write_ok (select_writes m writes) /\ NoDup (map rw_Destination (select_writes m writes)).
Proof.
  intros Hm. induction writes as [|w ws IH]; intros Hok Hnd; [by split; constructor|]. rewrite select_writes_cons.
  apply Forall_cons in Hok as [(Hv & Hb & Hw) Hok]. apply NoDup_cons in Hnd as [Hn Hnd]. destruct IH as [IH1 IH2]; [done..|].
  destruct (_ =? 0); [done|]. split.
  - constructor; [|done]. split_and!; [done|done|]. unfold LaneMask_Valid in *. apply Z.eqb_eq in Hw, Hm. apply Z.eqb_eq.
    cbn. rewrite Z.ldiff_land, <- Z.land_assoc, <- Z.ldiff_land, Hm. apply Z.land_0_r.
  - cbn. constructor; [|done]. intros Hin. by apply Hn, (select_dest m).
Qed.

(** ** What control effects read and write

    They read and write the front of the warp: PC, mask, lifecycle, saved mask and
    divergence stack; a trap reads the trap CSRs as well. *)
Definition graft (front rest : WarpState) : WarpState :=
  mkWarpState (w_id rest) (w_pc front) (w_activeMask front) (w_lifecycle front) (w_savedThreadMask front) (w_fcsr rest) (w_trapCSRs rest)
    (w_divergence front) (w_lanes rest).

Lemma graft_self w : graft w w = w. Proof. by destruct w. Qed.

Ltac frame_cases := repeat (reflexivity || (match goal with |- context [if ?b then _ else _] => destruct b | |- context [match ?x with _ => _ end] => destruct x end; cbn)).

Lemma stageSplit_frame b b' c c' e m k :
  stageSplit (graft b b') (graft c c') e m k = let? r := stageSplit b c e m k in Ok (graft r c').
Proof. unfold stageSplit. cbn. frame_cases. Qed.

Lemma stageJoin_frame b b' c c' e m k :
  stageJoin (graft b b') (graft c c') e m k = let? r := stageJoin b c e m k in Ok (graft r c').
Proof. unfold stageJoin. cbn. frame_cases. Qed.

Lemma stageDivergence_frame b b' c c' e m k : w_id b' = w_id b ->
  stageDivergence (graft b b') (graft c c') e m k = let? r := stageDivergence b c e m k in Ok (graft r c').
Proof.
  intros Hid. unfold stageDivergence. destruct e as [e|]; [|done]. cbn [graft w_id]. rewrite Hid. destruct (_ =? _); [|done].
  destruct (negb (_ || _)); [|done]. destruct (de_Action e), k; try done; [apply stageSplit_frame|apply stageJoin_frame].
Qed.

Lemma stageTrap_frame b b' c c' t k writes : w_id b' = w_id b -> (t <> None -> w_trapCSRs b' = w_trapCSRs b) ->
  stageTrap (graft b b') (graft c c') t k writes = let? r := stageTrap b c t k writes in Ok (graft r c').
Proof.
  intros Hid Ht. unfold stageTrap. destruct t as [t|]; [|by frame_cases]. cbn [graft w_id w_trapCSRs w_pc w_activeMask w_savedThreadMask].
  rewrite Hid, Ht by done. destruct k as [k|]; [|done]. destruct (LaneMask_Valid _ && _); [|done]. destruct (te_Kind t); [| |done]; frame_cases.
Qed.

Lemma validateControl_frame b b' k : validateControl (graft b b') k = validateControl b k.
Proof. done. Qed.

Lemma warpMaskOf_frame b b' masks : w_id b' = w_id b -> warpMaskOf (graft b b') masks = warpMaskOf b masks.
Proof. intros Hid. unfold warpMaskOf. destruct masks as [|m [|]]; [done| |done]. cbn [graft w_id]. by rewrite Hid. Qed.

Lemma trap_alone (t d m r f : bool) : negb (t && (d || m || r || f)) = true -> negb (t && (d || m || false || false)) = true.
Proof. by destruct t, d, m. Qed.

(** The control group of a bundle staged over any registers and CSRs. *)
Lemma local_stageControl_frame b b' c c' e r :
  w_id b' = w_id b -> (Trap e <> None -> w_trapCSRs b' = w_trapCSRs b) ->
  stageControlMaskDivergenceTrap b c e = Ok r ->
  stageControlMaskDivergenceTrap (graft b b') (graft c c') (control_part e) = Ok (graft r c').
Proof.
  intros Hid Ht H. unfold stageControlMaskDivergenceTrap in *. rewrite warpMaskOf_frame by done.
  cbn [control_part WarpMasks Trap Divergence Control RegisterWrites FFlagsOf CSRWrites].
  apply result_bind_ok in H as (mask & -> & H). cbn [result_bind].
  destruct (negb _) eqn:Ec in H; [|done]. apply trap_alone in Ec. change (negb (length [] =? 0)%nat) with false. rewrite Ec. clear Ec.
  apply result_bind_ok in H as (c1 & H1 & H). rewrite stageDivergence_frame, H1 by done. cbn [result_bind].
  apply result_bind_ok in H as (c2 & H2 & H).
  match goal with |- result_bind ?x _ = _ => assert (x = Ok (graft c2 c')) as -> end.
  { destruct (Divergence e), mask as [m|]; try (by apply Ok_inj in H2 as <-). destruct (_ || _); [|done]. destruct (match Control e with Some _ => _ | None => _ end); [|done].
    by apply Ok_inj in H2 as <-. }
  cbn [result_bind]. destruct (negb _) in H |- *; [|done]. apply result_bind_ok in H as (c3 & H3 & H).
  assert (match Trap e with Some _ => CSRWrites e | None => [] end = CSRWrites e \/ Trap e = None) as [->|Et] by (destruct (Trap e); auto).
  - rewrite stageTrap_frame, H3 by done. cbn [result_bind]. rewrite validateControl_frame. apply result_bind_ok in H as ([] & -> & <-%Ok_inj). by destruct (Control e).
  - rewrite stageTrap_frame by done. rewrite Et in H3 |- *. unfold stageTrap in H3 |- *. rewrite H3. cbn [result_bind]. rewrite validateControl_frame.
    apply result_bind_ok in H as ([] & -> & <-%Ok_inj). by destruct (Control e).
Qed.

Lemma graft_step (r c c' : WarpState) (x : result WarpState) : x = (let? r := x in Ok (graft r c)) -> x = Ok r -> r = graft r c.
Proof. intros E H. rewrite H in E. cbn in E. by apply Ok_inj in E. Qed.

(** Control effects leave everything but the front as it was. *)
Lemma stageControl_rest b c e r : stageControlMaskDivergenceTrap b c e = Ok r -> r = graft r c.
Proof.
  intros H. unfold stageControlMaskDivergenceTrap in H. apply result_bind_ok in H as (mask & _ & H). destruct (negb _) in H; [|done].
  apply result_bind_ok in H as (c1 & H1 & H). apply result_bind_ok in H as (c2 & H2 & H). destruct (negb _) in H; [|done].
  apply result_bind_ok in H as (c3 & H3 & H). apply result_bind_ok in H as ([] & _ & <-%Ok_inj).
  assert (c1 = graft c1 c) as E1.
  { apply (graft_step _ _ c _) with (2 := H1). rewrite <- (stageDivergence_frame b b c c) by done. by rewrite !graft_self. }
  assert (c3 = graft c3 c2) as E3.
  { apply (graft_step _ _ c _) with (2 := H3). rewrite <- (stageTrap_frame b b c2 c2) by done. by rewrite !graft_self. }
  assert (c2 = graft c2 c) as E2.
  { destruct (Divergence e), mask as [m|]; try (by apply Ok_inj in H2 as <-). destruct (_ || _); [|done].
    destruct (match Control e with Some _ => _ | None => _ end); [|done]. apply Ok_inj in H2 as <-. by rewrite E1. }
  rewrite E3, E2. by destruct (Control e).
Qed.

(** ** What CSR effects read and write *)

Definition csrs (from rest : WarpState) : WarpState := set_fcsr (w_fcsr from) (set_trapCSRs (w_trapCSRs from) rest).

Lemma csrs_self w : csrs w w = w. Proof. by destruct w. Qed.

Lemma local_setCSRValue_frame c c' a v : setCSRValue (csrs c c') a v = csrs (setCSRValue c a v) c'.
Proof. unfold setCSRValue. cbn. repeat (match goal with |- context [if ?b then _ else _] => destruct b end; [done|]). done. Qed.

Lemma csrValue_frame b b' a : csrValue (csrs b b') a = csrValue b a. Proof. done. Qed.

Lemma local_stageCSRWrites_frame b b' c c' writes :
  stageCSRWrites (csrs b b') (csrs c c') writes = let? r := stageCSRWrites b c writes in Ok (csrs r c').
Proof.
  unfold stageCSRWrites. revert c. induction writes as [|x xs IH]; intros c; [done|]. cbn [foldM]. unfold stageCSRWrite at 1 3. rewrite csrValue_frame.
  destruct (csrValue b (cw_Address x)); [destruct (_ =? _)|destruct (negb _)]; cbn [result_bind]; [|done|apply IH|done].
  by rewrite local_setCSRValue_frame.
Qed.

Lemma stageCSRWrites_rest b c writes r : stageCSRWrites b c writes = Ok r -> r = csrs r c.
Proof.
  intros H. pose proof (local_stageCSRWrites_frame b b c c writes) as E. rewrite !csrs_self, H in E. cbn in E. by apply Ok_inj in E.
Qed.

Lemma localCSRWrites_frame w w' writes : w_id w' = w_id w -> localCSRWrites w' writes = localCSRWrites w writes.
Proof.
  intros Hid. unfold localCSRWrites. f_equal. generalize (@nil CSRWriteEffect, @nil Z, 0).
  induction writes as [|x xs IH]; intros acc; [done|]. cbn [foldM].
  assert (localCSRWrite w' acc x = localCSRWrite w acc x) as -> by (unfold localCSRWrite; destruct acc as [[? ?] ?]; by rewrite Hid).
  destruct (localCSRWrite w acc x); [apply IH|done].
Qed.

Lemma validateCSRReads_frame w w' reads : w_id w' = w_id w -> w_fcsr w' = w_fcsr w -> w_trapCSRs w' = w_trapCSRs w -> w_activeMask w' = w_activeMask w ->
  validateCSRReads w' reads = validateCSRReads w reads.
Proof.
  intros H1 H2 H3 H4. unfold validateCSRReads. generalize tt. induction reads as [|x xs IH]; intros u; [done|]. cbn [foldM].
  assert (validateCSRRead w' x = validateCSRRead w x) as -> by (unfold validateCSRRead, csrReadValue, csrValue; by rewrite H1, H2, H3, H4).
  destruct (validateCSRRead w x); [apply IH|done].
Qed.

(** ** Bundles without an external part *)

Record local_only (e : InstructionEffects) : Prop := {
  ln_requests : MemoryRequests e = [];
  ln_ordering : Ordering e = None;
  ln_csr : List.filter (fun write => negb (local_csr_write write)) (CSRWrites e) = [];
  ln_spawn : WarpSpawn e = None;
  ln_drains : WarpDrains e = [];
  ln_barriers : Barriers e = [];
  ln_packed : PackedLoads e = [];
  ln_faults : Faults e = []
}.

Lemma local_only_spec e : requiresExternal (forwardedEffects e) = false <-> local_only e.
Proof.
  unfold requiresExternal, forwardedEffects. cbn. split.
  - intros H. repeat (apply orb_false_iff in H as [H ?]). split;
      first [by destruct (Ordering e) | by destruct (WarpSpawn e) | apply length_zero_iff_nil; destruct (Nat.eqb_spec (length _) 0); done | idtac].
    all: match goal with H : negb (length ?l =? 0)%nat = false |- ?l = [] => destruct l; done end.
  - intros [-> -> -> -> -> -> -> ->]. done.
Qed.

Lemma StageEffects_local w e c1 c2 local c3 c4 : local_only e ->
  stageRegisterWrites w (RegisterWrites e) = Ok c1 -> stageFFlags c1 (FFlagsOf e) = Ok c2 -> validateCSRReads w (CSRReads e) = Ok tt ->
  localCSRWrites w (CSRWrites e) = Ok local -> stageCSRWrites w c2 local = Ok c3 -> stageControlMaskDivergenceTrap w c3 e = Ok c4 ->
  StageEffects w e = Ok (mkEffectStage w c4 (forwardedEffects e) false false).
Proof.
  intros Hl H1 H2 H3 H4 H5 H6. pose proof (proj2 (local_only_spec e) Hl) as Hr. destruct Hl as [L1 L2 L3 L4 L5 L6 L7 L8].
  unfold StageEffects, classifyAndValidateForwarded. cbv zeta. rewrite Hr, L1, L2, L4, L5, L6, L7, L8. cbn [forallb result_bind length Nat.eqb negb andb].
  by rewrite H1; cbn [result_bind]; rewrite H2; cbn [result_bind]; rewrite H3; cbn [result_bind]; rewrite H4; cbn [result_bind]; rewrite H5; cbn [result_bind]; rewrite H6.
Qed.

(** A bundle whose groups do not read each other: no CSR access beside the
    floating-point flags, and no CSR read beside a change of the lane mask. *)
Definition separable (e : InstructionEffects) : Prop :=
  (FFlagsOf e = None \/ CSRWrites e = [] /\ CSRReads e = []) /\ (CSRReads e = [] \/ WarpMasks e = [] /\ Divergence e = None /\ Trap e = None).

Definition csr_receipt (e : InstructionEffects) (r : receipts) : bool := match Trap e with Some _ => rc_control r | None => rc_csr r end.

(** The owner with some groups and lanes of a bundle delivered; [after] is the
    candidate of the whole bundle. *)
Definition visible (e : InstructionEffects) (w after : WarpState) (lanes : LaneMask) (r : receipts) : WarpState :=
  let front := if rc_control r then after else w in
  let csr := if csr_receipt e r then after else w in
  let flags := if match FFlagsOf e with Some _ => rc_fflags r | None => csr_receipt e r end then after else w in
  set_fcsr (w_fcsr flags) (set_trapCSRs (w_trapCSRs csr) (graft front (set_lanes (lanes_after (RegisterWrites e) lanes (w_lanes w)) w))).

Section Parts.
Context (w : WarpState) (e : InstructionEffects) (s : EffectStage).
Hypothesis (Hs : StageEffects w e = Ok s) (Hx : es_requiresExternal s = false) (Hsep : separable e).

Lemma bundle_local : local_only e.
Proof. apply StageEffects_inv in Hs as (_ & _ & _ & Hr & _). apply local_only_spec. by rewrite <- Hr. Qed.

Record bundle_facts (local : list CSRWriteEffect) (c : WarpState) : Prop := {
  bf_writes : Forall write_ok (RegisterWrites e);
  bf_dest : NoDup (map rw_Destination (RegisterWrites e));
  bf_flags : forall f, FFlagsOf e = Some f -> ff_Accumulate f .&^ 0x1f = 0;
  bf_reads : validateCSRReads w (CSRReads e) = Ok tt;
  bf_local : localCSRWrites w (CSRWrites e) = Ok local;
  bf_csr : stageCSRWrites w w local = Ok c;
  bf_trap : w_trapCSRs (es_after s) = w_trapCSRs c;
  bf_fcsr : w_fcsr (es_after s) = match FFlagsOf e with Some f => w_fcsr w .| ff_Accumulate f | None => w_fcsr c end;
  bf_lanes : w_lanes (es_after s) = all_lanes (RegisterWrites e) (w_lanes w);
  bf_id : w_id (es_after s) = w_id w;
  bf_control : exists rest, stageControlMaskDivergenceTrap w (graft w rest) e = Ok (es_after s)
}.

Lemma bundle_facts_hold : exists local c, bundle_facts local c.
Proof.
  apply StageEffects_inv in Hs as (_ & _ & _ & _ & c1 & c2 & local & c3 & H1 & H2 & H3 & H4 & H5 & H6).
  apply stageRegisterWrites_iff in H1 as (Hw & Hd & ->).
  assert (exists fc, c2 = set_fcsr fc (set_lanes (all_lanes (RegisterWrites e) (w_lanes w)) w) /\
     match FFlagsOf e with Some f => fc = w_fcsr w .| ff_Accumulate f /\ ff_Accumulate f .&^ 0x1f = 0 | None => fc = w_fcsr w end) as (fc & -> & Hfc).
  { unfold stageFFlags in H2. destruct (FFlagsOf e) as [f|].
    - destruct (Z.eqb_spec (ff_Accumulate f .&^ 0x1f) 0); [|done]. apply Ok_inj in H2 as <-. by eexists.
    - apply Ok_inj in H2 as <-. exists (w_fcsr w). split; [by destruct w|done]. }
  assert (exists c, stageCSRWrites w w local = Ok c /\ w_trapCSRs c3 = w_trapCSRs c /\ w_fcsr c3 = (match FFlagsOf e with Some f => fc | None => w_fcsr c end)
     /\ c3 = csrs c3 (set_lanes (all_lanes (RegisterWrites e) (w_lanes w)) w)) as (c & Hc & Ht & Hf & Hc3).
  { destruct Hsep as [[Hn|[Hn _]] _].
    - rewrite Hn in Hfc |- *. subst fc. pose proof (local_stageCSRWrites_frame w w w (set_lanes (all_lanes (RegisterWrites e) (w_lanes w)) w) local) as E.
      rewrite csrs_self in E. replace (csrs w (set_lanes _ w)) with (set_fcsr (w_fcsr w) (set_lanes (all_lanes (RegisterWrites e) (w_lanes w)) w)) in E by by destruct w.
      rewrite H5 in E. destruct (stageCSRWrites w w local) as [c|]; [|done]. cbn in E. apply Ok_inj in E as ->. by exists c.
    - rewrite Hn in H4. apply Ok_inj in H4 as <-. apply Ok_inj in H5 as <-. exists w. split_and!; [done|done| |done]. destruct (FFlagsOf e); [done|]. by subst. }
  exists local, c. pose proof (stageControl_rest _ _ _ _ H6) as E. split; try done.
  - intros f Ef. rewrite Ef in Hfc. apply Hfc.
  - rewrite E. exact Ht.
  - rewrite E. cbn. rewrite Hf. destruct (FFlagsOf e); [apply Hfc|done].
  - rewrite E. cbn. by rewrite Hc3.
  - rewrite E. cbn. by rewrite Hc3.
  - exists c3. replace (graft w c3) with c3 by (rewrite Hc3; by destruct w). done.
Qed.

Notation at_ := (visible e w (es_after s)).

Lemma StageEffects_nothing v : StageEffects v no_effects = Ok (mkEffectStage v v (forwardedEffects no_effects) false false).
Proof. done. Qed.

Lemma writeback_step lanes m r : LaneMask_Valid m = true -> lanes .& m = 0 ->
  let part := with_RegisterWrites (select_writes m (RegisterWrites e)) no_effects in
  StageEffects (at_ lanes r) part = Ok (mkEffectStage (at_ lanes r) (at_ (lanes .| m) r) (forwardedEffects part) false false).
Proof.
  intros Hm Hd part. destruct bundle_facts_hold as (local & c & F). destruct (select_writes_ok m (RegisterWrites e) Hm (bf_writes _ _ F) (bf_dest _ _ F)) as [Hok Hnd].
  assert (set_lanes (all_lanes (select_writes m (RegisterWrites e)) (w_lanes (at_ lanes r))) (at_ lanes r) = at_ (lanes .| m) r) as E.
  { unfold visible at 1 2. cbn. by rewrite lanes_after_more. }
  eapply StageEffects_local with (local := []); [by split| |done..].
  rewrite <- E. by apply stageRegisterWrites_iff.
Qed.

Lemma fflags_step lanes r : rc_fflags r = false ->
  let part := with_FFlagsOf (FFlagsOf e) no_effects in
  StageEffects (at_ lanes r) part = Ok (mkEffectStage (at_ lanes r) (at_ lanes (set_receipt FFlagsEvent true r)) (forwardedEffects part) false false).
Proof.
  intros Hr part. destruct bundle_facts_hold as (local & c & F). subst part. destruct (FFlagsOf e) as [f|] eqn:Ef.
  - assert (set_fcsr (w_fcsr (at_ lanes r) .| ff_Accumulate f) (at_ lanes r) = at_ lanes (set_receipt FFlagsEvent true r)) as E.
    { unfold visible. cbn. rewrite Ef, Hr. pose proof (bf_fcsr _ _ F) as Hf. rewrite Ef in Hf. cbn. by rewrite Hf. }
    rewrite <- E. eapply StageEffects_local with (local := []); [by split|done| |done..].
    unfold stageFFlags. cbn [with_FFlagsOf FFlagsOf]. by rewrite (bf_flags _ _ F f Ef).
  - replace (at_ lanes (set_receipt FFlagsEvent true r)) with (at_ lanes r); [apply StageEffects_nothing|]. unfold visible. by rewrite Ef.
Qed.

(** The CSR writes staged where nothing has touched the CSRs yet. *)
Lemma csr_stage v local c : w_fcsr v = w_fcsr w -> w_trapCSRs v = w_trapCSRs w -> stageCSRWrites w w local = Ok c -> stageCSRWrites v v local = Ok (csrs c v).
Proof.
  intros H1 H2 H. assert (csrs w v = v) as E by (unfold csrs; rewrite <- H1, <- H2; by destruct v).
  pose proof (local_stageCSRWrites_frame w v w v local) as Hf. by rewrite E, H in Hf.
Qed.

Lemma quiet_mask : WarpMasks e = [] -> Divergence e = None -> Trap e = None -> w_activeMask (es_after s) = w_activeMask w.
Proof.
  intros H1 H2 H3. destruct bundle_facts_hold as (local & c & F). destruct (bf_control _ _ F) as [rest H].
  unfold stageControlMaskDivergenceTrap in H. rewrite H1, H2, H3 in H. cbn [warpMaskOf result_bind andb negb stageDivergence] in H.
  destruct (negb _) in H; [|done]. apply result_bind_ok in H as (c3 & H4 & H). unfold stageTrap in H4. destruct (negb _) in H4; [|done]. apply Ok_inj in H4 as <-.
  apply result_bind_ok in H as ([] & _ & <-%Ok_inj). by destruct (Control e).
Qed.

Lemma csr_step lanes r : rc_csr r = false -> Trap e = None ->
  let part := with_CSRWrites (CSRWrites e) (with_CSRReads (CSRReads e) no_effects) in
  StageEffects (at_ lanes r) part = Ok (mkEffectStage (at_ lanes r) (at_ lanes (set_receipt CSREvent true r)) (forwardedEffects part) false false).
Proof.
  intros Hr Ht part. destruct bundle_facts_hold as (local & c & F). destruct Hsep as [Hfl Hrd].
  assert (csr_receipt e r = false) as Hcr by (unfold csr_receipt; by rewrite Ht).
  assert (w_trapCSRs (at_ lanes r) = w_trapCSRs w) as Htv by (unfold visible; cbn; by rewrite Hcr).
  destruct (FFlagsOf e) as [f|] eqn:Ef.
  - destruct Hfl as [|[E1 E2]]; [done|]. pose proof (bf_local _ _ F) as Hl. rewrite E1 in Hl. apply Ok_inj in Hl as <-. pose proof (bf_csr _ _ F) as Hc. apply Ok_inj in Hc as <-.
    subst part. rewrite E1, E2. replace (at_ lanes (set_receipt CSREvent true r)) with (at_ lanes r); [apply StageEffects_nothing|].
    unfold visible. rewrite Hcr, Ef. unfold csr_receipt. rewrite Ht. cbn. by rewrite (bf_trap _ _ F).
  - assert (w_fcsr (at_ lanes r) = w_fcsr w) as Hfv by (unfold visible; cbn; by rewrite Ef, Hcr).
    assert (csrs c (at_ lanes r) = at_ lanes (set_receipt CSREvent true r)) as E.
    { unfold visible. rewrite Ef. unfold csr_receipt. rewrite Ht. pose proof (bf_fcsr _ _ F) as Hf. rewrite Ef in Hf. cbn. by rewrite (bf_trap _ _ F), Hf. }
    rewrite <- E. eapply StageEffects_local with (local := local) (c3 := csrs c (at_ lanes r)); [|done|done| | | |done].
    + split; try done. cbn. apply bundle_local.
    + change (CSRReads part) with (CSRReads e). destruct Hrd as [->|(H1 & H2 & _)]; [done|]. rewrite (validateCSRReads_frame w); [apply F|done|done|done|].
      unfold visible. cbn. destruct (rc_control r); [by apply quiet_mask|done].
    + change (CSRWrites part) with (CSRWrites e). rewrite (localCSRWrites_frame w) by done. apply F.
    + apply csr_stage; [done|done|apply F].
Qed.

Lemma trap_alone_bundle : Trap e <> None -> FFlagsOf e = None /\ RegisterWrites e = [].
Proof.
  intros Ht. destruct bundle_facts_hold as (local & c & F). destruct (bf_control _ _ F) as [rest H]. unfold stageControlMaskDivergenceTrap in H.
  apply result_bind_ok in H as (mask & _ & H). destruct (Trap e); [|done]. destruct (Divergence e), mask, (RegisterWrites e), (FFlagsOf e); done.
Qed.

(** The control group over the untouched front. *)
Lemma control_at b c : w_id b = w_id w -> (Trap e <> None -> w_trapCSRs b = w_trapCSRs w) ->
  stageControlMaskDivergenceTrap (graft w b) (graft w c) (control_part e) = Ok (graft (es_after s) c).
Proof.
  intros Hid Ht. destruct bundle_facts_hold as (local & c0 & F). destruct (bf_control _ _ F) as [rest Hc].
  exact (local_stageControl_frame w b (graft w rest) c e (es_after s) Hid Ht Hc).
Qed.

Lemma control_step lanes r : rc_control r = false ->
  StageEffects (at_ lanes r) (control_part e) =
  Ok (mkEffectStage (at_ lanes r) (at_ lanes (set_receipt ControlEvent true r)) (forwardedEffects (control_part e)) false false).
Proof.
  intros Hr. destruct bundle_facts_hold as (local & c & F). pose proof (bundle_local) as Hl.
  assert (at_ lanes r = graft w (at_ lanes r)) as Ev by (unfold visible; rewrite Hr; by destruct w).
  destruct (Trap e) as [t|] eqn:Et.
  - assert (Trap e <> None) as Hne by by rewrite Et. destruct (trap_alone_bundle Hne) as [Ef _].
    assert (w_fcsr (at_ lanes r) = w_fcsr w /\ w_trapCSRs (at_ lanes r) = w_trapCSRs w) as [Hf Htr].
    { unfold visible. cbn. rewrite Ef. unfold csr_receipt. by rewrite Et, Hr. }
    eapply StageEffects_local with (local := local) (c3 := csrs c (at_ lanes r)); [|done|done|done| | |].
    + destruct Hl. split; try done. cbn. by rewrite Et.
    + cbn [control_part CSRWrites]. rewrite Et, (localCSRWrites_frame w) by done. apply F.
    + apply csr_stage; [done|done|apply F].
    + rewrite Ev at 1. replace (csrs c (at_ lanes r)) with (graft w (csrs c (at_ lanes r))) by (rewrite Ev at 2; by destruct w).
      rewrite (control_at (at_ lanes r) (csrs c (at_ lanes r)) eq_refl (fun _ => Htr)). f_equal. unfold visible. rewrite Ef. unfold csr_receipt. rewrite Et. cbn.
      rewrite (bf_trap _ _ F). pose proof (bf_fcsr _ _ F) as H. rewrite Ef in H. by rewrite H.
  - eapply StageEffects_local with (local := []) (c3 := at_ lanes r); [|done|done|done| |done|].
    + destruct Hl. split; try done. cbn. by rewrite Et.
    + cbn. by rewrite Et.
    + rewrite Ev at 1 2. rewrite (control_at (at_ lanes r) (at_ lanes r)); [|done|by rewrite Et].
      f_equal. unfold visible. unfold csr_receipt. by rewrite Et.
Qed.
End Parts.

(** ** Deliveries of a local bundle *)

Definition fresh_delivery (o : Z) (e : InstructionEffects) : EffectDelivery :=
  mkEffectDelivery None 0 (mkInstructionContext 0 0 0) o e no_receipts 0 false.

(** The calls a delivery still accepts. *)
Definition deliverable (d : EffectDelivery) (event : VisibilityEvent) (lanes : LaneMask) : Prop :=
  receipt (ed_delivered d) event = Some false /\ (event = CSREvent -> Trap (ed_effects d) = None) /\
  if decide (event = WritebackEvent) then
    LaneMask_Valid lanes = true /\ lanes .&^ covered_lanes (RegisterWrites (ed_effects d)) = 0 /\ lanes .& ed_writes d = 0 /\
    (covered_lanes (RegisterWrites (ed_effects d)) <> 0 -> lanes <> 0)
  else lanes = 0.

#[local] Instance deliverable_dec d event lanes : Decision (deliverable d event lanes).
Proof. unfold deliverable. apply and_dec; [apply _|apply and_dec; [apply _|case_decide; apply _]]. Defined.

(** Every group of the bundle has its receipt. *)
Definition delivered_all (d : EffectDelivery) : Prop :=
  let r := ed_delivered d in
  rc_writeback r = true /\ rc_control r = true /\ rc_fflags r = true /\ (Trap (ed_effects d) = None -> rc_csr r = true).

(** A sequence of deliveries that all succeed. *)
Fixpoint deliver_all (v : Visibility) (p : Z) (calls : list (VisibilityEvent * LaneMask)) : option Visibility :=
  match calls with
  | [] => Some v
  | (event, lanes) :: calls =>
      match Deliver v tt p event lanes None with
      | (v, _, Ok _) => deliver_all v p calls
      | (_, _, Err _) => None
      end
  end.

Section Sequence.
Context (v0 : Visibility) (p o : Z) (w : WarpState) (e : InstructionEffects) (s : EffectStage).
Hypothesis (Hs : StageEffects w e = Ok s) (Hx : es_requiresExternal s = false) (Hsep : separable e).

(** The store after some deliveries. *)
Definition progressed (d : EffectDelivery) : Visibility :=
  mkVisibility (<[o := visible e w (es_after s) (ed_writes d) (ed_delivered d)]> (vz_owners v0)) (vz_streams v0) (<[p := d]> (vz_deliveries v0)).

Record in_progress (d : EffectDelivery) : Prop := {
  ip_stream : ed_stream d = None;
  ip_owner : ed_owner d = o;
  ip_effects : ed_effects d = e;
  ip_live : ed_cancelled d = false;
  ip_written : rc_writeback (ed_delivered d) = (ed_writes d =? covered_lanes (RegisterWrites e)) \/ rc_writeback (ed_delivered d) = false
}.

Lemma record_in_progress d event lanes : in_progress d -> in_progress (record_receipt event lanes d).
Proof.
  intros [H1 H2 H3 H4 H5]. unfold record_receipt. destruct (event ==. WritebackEvent) eqn:E; split; try done; cbn.
  - left. by rewrite H3.
  - apply bool_decide_eq_false in E. by destruct event.
Qed.

Lemma stage_part d event lanes : in_progress d -> deliverable d event lanes -> exists part,
  visible_part d event lanes = Ok part /\
  stage_visible (progressed d) d event part =
    Ok (visible e w (es_after s) (ed_writes d) (ed_delivered d),
        mkEffectStage (visible e w (es_after s) (ed_writes d) (ed_delivered d))
          (visible e w (es_after s) (ed_writes (record_receipt event lanes d)) (ed_delivered (record_receipt event lanes d))) (forwardedEffects part) false false).
Proof.
  intros [H1 H2 H3 H4 H5] (Hr & Ht & Hl). pose proof (bundle_local w e s Hs Hx) as [L1 L2 _ _ _ _ L7 L8].
  assert (forall part stage, StageEffects (visible e w (es_after s) (ed_writes d) (ed_delivered d)) part = Ok stage ->
     stage_visible (progressed d) d event part = Ok (visible e w (es_after s) (ed_writes d) (ed_delivered d), stage)) as Hstage.
  { intros part stage E. unfold stage_visible. rewrite H2, H1. cbn. by rewrite lookup_insert_eq, E. }
  rewrite H3 in Ht. destruct event; cbn [visible_part receipt] in *; rewrite ?H3; try (injection Hr as Hr).
  - rewrite decide_True in Hl by done. rewrite H3 in Hl. destruct Hl as (Hv & Hc & Hd & Hn). rewrite Hv, Hc, Hd. cbn [negb orb Z.eqb].
    destruct (Z.eqb_spec (covered_lanes (RegisterWrites e)) 0) as [E|E]; cbn [negb andb].
    + eexists. split; [done|]. apply Hstage. rewrite Z.land_comm in Hd. by rewrite (writeback_step w e s) by done.
    + destruct (Z.eqb_spec lanes 0); [by destruct (Hn E)|]. eexists. split; [done|]. apply Hstage. rewrite Z.land_comm in Hd.
      by rewrite (writeback_step w e s) by done.
  - eexists. split; [done|]. apply Hstage. by rewrite (control_step w e s) by done.
  - rewrite Ht by done. eexists. split; [done|]. apply Hstage. by rewrite (csr_step w e s) by auto.
  - eexists. split; [done|]. apply Hstage. by rewrite (fflags_step w e s) by done.
  - eexists. split; [done|]. apply Hstage. by rewrite L1, L2, L7.
  - eexists. split; [done|]. apply Hstage. by rewrite L8.
  - done.
Qed.

Lemma deliver_step d event lanes : in_progress d -> deliverable d event lanes ->
  Deliver (progressed d) tt p event lanes None = (progressed (record_receipt event lanes d), tt, Ok tt).
Proof.
  intros Hd Hok. destruct (stage_part d event lanes Hd Hok) as (part & Hp & Hst). destruct Hd as [H1 H2 H3 H4 H5]. destruct Hok as (Hr & _ & Hl).
  unfold Deliver. cbn [progressed vz_deliveries]. rewrite lookup_insert_eq, H4, bool_decide_eq_true_2 by done. cbn [negb].
  assert ((event !=. WritebackEvent) && (lanes <>? 0) = false) as ->.
  { case_decide as E; [subst; by rewrite bool_decide_true|]. subst. apply andb_false_r. }
  rewrite Hp. cbn [result_bind]. rewrite Hst. unfold commit_visible, Commit, commit. cbn [RequiresExternalSuccess es_requiresExternal es_committed es_before es_after].
  rewrite bool_decide_true by done. cbn [negb]. rewrite H2.
  assert (forall d', put_delivery p d' (put_owner o (visible e w (es_after s) (ed_writes d') (ed_delivered d')) (progressed d)) = progressed d') as Hput.
  { intros d'. unfold put_delivery, put_owner, progressed, set_vz_deliveries, set_vz_owners. cbn. by rewrite !insert_insert_eq. }
  destruct event; try (by rewrite Hput).
  destruct (Control (ed_effects d)); [|by rewrite Hput]. unfold advance_frontier. rewrite H1. by rewrite <- (Hput (record_receipt ControlEvent lanes d)).
Qed.

Lemma deliver_refused d event lanes : in_progress d -> ~ deliverable d event lanes ->
  exists er, Deliver (progressed d) tt p event lanes None = (progressed d, tt, Err er).
Proof.
  intros [H1 H2 H3 H4 H5] Hno. unfold Deliver. cbn [progressed vz_deliveries]. rewrite lookup_insert_eq, H4.
  case_bool_decide as Hr; cbn [negb]; [|by eexists]. destruct ((event !=. WritebackEvent) && (lanes <>? 0)) eqn:Hl; [by eexists|].
  destruct (visible_part d event lanes) as [part|] eqn:Hp; [|by eexists]. exfalso. apply Hno. split; [done|]. split.
  - intros ->. cbn in Hp. rewrite H3 in Hp |- *. by destruct (Trap e).
  - case_decide as E.
    + subst event. cbn in Hp. rewrite H3 in Hp |- *. destruct (_ || _) eqn:Hg; [done|]. repeat (apply orb_false_iff in Hg as [Hg ?]).
      apply negb_false_iff in Hg. split; [done|]. split; [lia|]. split; [lia|]. intros Hc ->. destruct (Z.eqb_spec (covered_lanes (RegisterWrites e)) 0); done.
    + rewrite bool_decide_false in Hl by done. destruct (Z.eqb_spec lanes 0); done.
Qed.

Lemma deliver_all_progress d calls v' : in_progress d -> deliver_all (progressed d) p calls = Some v' -> exists d', v' = progressed d' /\ in_progress d'.
Proof.
  revert d. induction calls as [|[event lanes] calls IH]; intros d Hd H; cbn [deliver_all] in H; [injection H as <-; by exists d|].
  destruct (decide (deliverable d event lanes)) as [Hok|Hno].
  - rewrite deliver_step in H by done. by apply IH in H; [|apply record_in_progress].
  - destruct (deliver_refused d event lanes Hd Hno) as [er E]. by rewrite E in H.
Qed.

Lemma visible_all d : in_progress d -> delivered_all d -> visible e w (es_after s) (ed_writes d) (ed_delivered d) = es_after s.
Proof.
  intros [H1 H2 H3 H4 H5] (D1 & D2 & D3 & D4). rewrite H3 in D4. destruct (bundle_facts_hold w e s) as (local & c & F); [done..|].
  assert (csr_receipt e (ed_delivered d) = true) as Hcr by (unfold csr_receipt; destruct (Trap e); auto).
  assert (ed_writes d = covered_lanes (RegisterWrites e)) as Hw.
  { rewrite D1 in H5. destruct H5 as [H5|]; [|done]. symmetry in H5. by apply Z.eqb_eq in H5. }
  unfold visible. rewrite D2, D3, Hcr, Hw, lanes_after_all, <- (bf_lanes _ _ _ _ _ F).
  pose proof (bf_id _ _ _ _ _ F) as Hid. destruct (FFlagsOf e); destruct (es_after s); cbn in *; by subst.
Qed.
End Sequence.

Lemma visible_start e w s : es_before s = w -> visible e w (es_after s) 0 no_receipts = w.
Proof. intros _. unfold visible, csr_receipt. cbn. rewrite lanes_after_none. destruct w, (Trap e), (FFlagsOf e); done. Qed.

Lemma fresh_progress v p o w e s : vz_owners v !! o = Some w -> StageEffects w e = Ok s -> vz_deliveries v !! p = Some (fresh_delivery o e) ->
  v = progressed v p o w e s (fresh_delivery o e).
Proof.
  intros Hw Hs Hd. apply StageEffects_inv in Hs as (Hb & _). unfold progressed. cbn [fresh_delivery ed_writes ed_delivered].
  rewrite (visible_start e w s Hb), !insert_id by done. by destruct v.
Qed.

(** C34: delivering a bundle in parts is the atomic commit.  Take a bundle the owner
    accepts, with no external part and no group that reads another.  Whatever the
    order of the events and however the register lanes are split over writebacks,
    when every group has been delivered the owner is the candidate of the whole
    bundle and no other owner has moved.  On the way nothing gets stuck: a group
    without a receipt, or a fresh subset of the written lanes, is always accepted;
    and every other call is refused and changes nothing. *)
Theorem delivery_confluent (v v' : Visibility) (p o : Z) (w : WarpState) (e : InstructionEffects) (s : EffectStage) calls :
  vz_owners v !! o = Some w -> StageEffects w e = Ok s -> es_requiresExternal s = false -> separable e ->
  vz_deliveries v !! p = Some (fresh_delivery o e) -> deliver_all v p calls = Some v' ->
  exists d, vz_deliveries v' !! p = Some d /\ ed_effects d = e /\
    (delivered_all d -> vz_owners v' = <[o := es_after s]> (vz_owners v)) /\
    forall event lanes,
      (deliverable d event lanes -> exists v'', Deliver v' tt p event lanes None = (v'', tt, Ok tt) /\ vz_deliveries v'' !! p = Some (record_receipt event lanes d)) /\
      (~ deliverable d event lanes -> exists er, Deliver v' tt p event lanes None = (v', tt, Err er)).
Proof.
  intros Hw Hs Hx Hsep Hd Hall. rewrite (fresh_progress v p o w e s Hw Hs Hd) in Hall.
  apply (deliver_all_progress v p o w e s Hs Hx Hsep) in Hall as (d & -> & Hp); [|by split; try done; right].
  exists d. cbn [progressed vz_deliveries vz_owners]. rewrite lookup_insert_eq. split; [done|]. split; [apply Hp|]. split.
  - intros Ha. by rewrite (visible_all o w e s Hs Hsep d Hp Ha).
  - intros event lanes. split; intros Hok.
    + eexists. split; [by apply deliver_step|]. cbn. by rewrite lookup_insert_eq.
    + by apply (deliver_refused v p o w e s).
Qed.

(** Four lanes written back in two halves around the control event. *)
Definition addi_calls : list (VisibilityEvent * LaneMask) :=
  [(WritebackEvent, 5); (FFlagsEvent, 0); (ControlEvent, 0); (WritebackEvent, 10); (CSREvent, 0)].

Definition addi_store : Visibility := mkVisibility {[ 0 := example_warp ]} ∅ {[ 7 := fresh_delivery 0 addi_effects ]}.

Definition addi_delivered : EffectDelivery :=
  mkEffectDelivery None 0 (mkInstructionContext 0 0 0) 0 addi_effects (mkReceipts true true true true false false) 15 false.

Example delivery_confluent_witness :
  exists v' d, deliver_all addi_store 7 addi_calls = Some v' /\ vz_deliveries v' !! 7 = Some d /\ delivered_all d /\
    vz_owners v' = <[0 := (ApplyEffects example_warp addi_effects).1]> (vz_owners addi_store).
Proof.
  assert ((v ← deliver_all addi_store 7 addi_calls; vz_deliveries v !! 7) = Some addi_delivered) as Hd by (vm_compute; reflexivity).
  destruct (deliver_all addi_store 7 addi_calls) as [v'|] eqn:Ev; [|discriminate Hd]. cbn [mbind option_bind] in Hd.
  assert (match StageEffects example_warp addi_effects with
          | Ok s => bool_decide (es_requiresExternal s = false /\ es_after s = (ApplyEffects example_warp addi_effects).1) | Err _ => false end = true) as Hb
    by (vm_compute; reflexivity).
  destruct (StageEffects example_warp addi_effects) as [s|] eqn:Es; [|discriminate Hb]. apply bool_decide_eq_true in Hb as [Hx Ha].
  destruct (delivery_confluent addi_store v' 7 0 example_warp addi_effects s addi_calls) as (d & Hd' & _ & Hall & _).
  - apply lookup_singleton_eq.
  - exact Es.
  - exact Hx.
  - split; left; reflexivity.
  - apply lookup_singleton_eq.
  - exact Ev.
  - exists v', addi_delivered. assert (d = addi_delivered) as -> by (rewrite Hd in Hd'; congruence).
    assert (delivered_all addi_delivered) as Hdone by (split; [|split; [|split]]; reflexivity).
    split; [reflexivity|]. split; [exact Hd|]. split; [exact Hdone|]. rewrite (Hall Hdone), Ha. reflexivity.
Defined.

(** ** The control frontier of a stream *)

Lemma commit_visible_ok {X} w (x : X) stage f w' x' : commit_visible w x stage f = (w', x', Ok tt) -> w' = es_after stage.
Proof.
  unfold commit_visible, CommitForwardedWithExternal, Commit, commit, RequiresExternalSuccess. destruct (es_requiresExternal stage); cbn [negb].
  - destruct f as [f|]; [|done]. destruct (es_committed stage); [done|]. destruct (w !=. es_before stage); [done|].
    destruct (f (ForwardedEffects stage) (w, x)) as [[w1 x1] [[]|er]]; [|done]. by intros [= <- <-].
  - destruct f as [f|]; [done|]. destruct (es_committed stage); [done|]. destruct (w !=. es_before stage); [done|]. by intros [= <- <-].
Qed.

(** A control group with neither control nor trap, mask and divergence effects. *)
Lemma StageEffects_forward w e s : RegisterWrites e = [] -> FFlagsOf e = None -> CSRWrites e = [] -> Control e = None -> Trap e = None ->
  WarpMasks e = [] -> Divergence e = None -> StageEffects w e = Ok s -> es_after s = w.
Proof.
  intros H1 H2 H3 H4 H5 H6 H7 H. apply StageEffects_inv in H as (_ & _ & _ & _ & c1 & c2 & local & c3 & E1 & E2 & _ & E4 & E5 & E6).
  rewrite H1 in E1. rewrite H2 in E2. rewrite H3 in E4. apply Ok_inj in E1 as <-. apply Ok_inj in E2 as <-. apply Ok_inj in E4 as <-. apply Ok_inj in E5 as <-.
  unfold stageControlMaskDivergenceTrap in E6. rewrite H4, H5, H6, H7 in E6. by apply Ok_inj in E6.
Qed.

Lemma stale_stage w st d e s : ed_order d <= sm_controlOrder st -> stageStreamControl w st d (control_part e) = Ok s -> es_after s = w.
Proof.
  intros Ho H. unfold stageStreamControl in H. destruct (Z.leb_spec (ed_order d) (sm_controlOrder st)); [|lia].
  destruct (negb _) eqn:Hg in H; [|done]. apply negb_true_iff in Hg. repeat (apply orb_false_iff in Hg as [Hg ?]). cbn [control_part Control Trap WarpMasks Divergence] in *.
  apply StageEffects_forward in H; [done|done|done| |done| | |]; cbn.
  - by destruct (Trap e).
  - by destruct (Trap e).
  - by destruct (WarpMasks e).
  - by destruct (Divergence e).
Qed.

(** What an in-order control group leaves alone, and where it puts the PC. *)
Lemma latched_stage w context e s : stageInstructionEffects w context (control_part e) = Ok s ->
  es_before s = w /\ w_id (es_after s) = w_id w /\ w_lanes (es_after s) = w_lanes w /\ w_fcsr (es_after s) = w_fcsr w \/ Trap e <> None.
Proof.
  intros H. destruct (Trap e) eqn:Et; [by right|left]. unfold stageInstructionEffects in H. apply result_bind_ok in H as (l & Hl & H).
  apply result_bind_ok in H as (s1 & H1 & <-%Ok_inj). unfold WithInstructionContext in Hl. destruct (negb _) in Hl; [|done]. apply Ok_inj in Hl as <-.
  apply StageEffects_inv in H1 as (_ & _ & _ & _ & c1 & c2 & local & c3 & E1 & E2 & _ & E4 & E5 & E6). cbn [control_part CSRWrites] in E4. rewrite Et in E4.
  apply Ok_inj in E1 as <-. apply Ok_inj in E2 as <-. apply Ok_inj in E4 as <-. apply Ok_inj in E5 as <-. apply stageControl_rest in E6.
  split; [done|]. cbn [control_part Control WarpMasks Divergence Trap es_after es_before]. rewrite Et, E6.
  destruct (Control e), (WarpMasks e), (Divergence e); done.
Qed.

Lemma latched_pc w context e s c : stageInstructionEffects w context (control_part e) = Ok s -> Control e = Some c -> w_pc (es_after s) = ce_NextPC c.
Proof.
  intros H Ec. unfold stageInstructionEffects in H. apply result_bind_ok in H as (l & _ & H).
  apply result_bind_ok in H as (s1 & H1 & <-%Ok_inj). apply StageEffects_inv in H1 as (_ & _ & _ & _ & c1 & c2 & local & c3 & _ & _ & _ & _ & _ & E6).
  cbn [control_part Control WarpMasks Divergence Trap es_after]. rewrite Ec.
  assert (w_pc (es_after s1) = ce_NextPC c) as E.
  { unfold stageControlMaskDivergenceTrap in E6. cbn [control_part Control] in E6. rewrite Ec in E6. apply result_bind_ok in E6 as (? & _ & E6).
    destruct (negb _) in E6; [|done]. apply result_bind_ok in E6 as (? & _ & E6). apply result_bind_ok in E6 as (? & _ & E6).
    destruct (negb _) in E6; [|done]. apply result_bind_ok in E6 as (? & _ & E6). apply result_bind_ok in E6 as (? & _ & E6). by apply Ok_inj in E6 as <-. }
  destruct (WarpMasks e), (Divergence e), (Trap e); exact E.
Qed.

(** The control frontier of a stream.  A control delivery of an instruction at or
    behind the frontier, whatever its callback does, moves no owner and no
    frontier: a late completion never rewinds the PC.  One beyond the frontier puts
    the PC where its own control effect says, leaves lanes and flags alone (unless it
    is a trap), and advances the frontier to its order. *)
Theorem control_frontier {X} (v v' : Visibility) (x x' : X) (p sp : Z) d st w f :
  vz_deliveries v !! p = Some d -> ed_stream d = Some sp -> vz_streams v !! sp = Some st -> vz_owners v !! ed_owner d = Some w ->
  Deliver v x p ControlEvent 0 f = (v', x', Ok tt) ->
  vz_deliveries v' !! p = Some (mark ControlEvent d) /\
  (ed_order d <= sm_controlOrder st -> vz_owners v' = vz_owners v /\ vz_streams v' !! sp = Some st) /\
  (sm_controlOrder st < ed_order d -> exists w', vz_owners v' = <[ed_owner d := w']> (vz_owners v) /\
     (Trap (ed_effects d) = None -> w_lanes w' = w_lanes w /\ w_fcsr w' = w_fcsr w) /\
     forall c, Control (ed_effects d) = Some c -> w_pc w' = ce_NextPC c /\
       exists st', vz_streams v' !! sp = Some st' /\ sm_controlOrder st' = ed_order d /\ sm_activationOrder st' = sm_activationOrder st).
Proof.
  intros Hd Hst Hsp Hw H. unfold Deliver in H. rewrite Hd in H. destruct (ed_cancelled d); [done|]. destruct (bool_decide _) eqn:Hr; [|done]. cbn [negb] in H.
  change ((ControlEvent !=. WritebackEvent) && (0 <>? 0)) with false in H. cbn [visible_part result_bind] in H. unfold stage_visible in H. rewrite Hw, Hst, Hsp in H.
  destruct (stageStreamControl w st d (control_part (ed_effects d))) as [stage|] eqn:Es; [|done]. cbn [result_bind] in H.
  destruct (commit_visible w x stage f) as [[w' x1] [[]|]] eqn:Ec; [|done]. apply commit_visible_ok in Ec as ->.
  assert (v' = put_delivery p (mark ControlEvent d) (set_vz_streams (match Control (ed_effects d) with Some _ => advance_frontier d (vz_streams v) | None => vz_streams v end)
    (put_owner (ed_owner d) (es_after stage) v))) as ->.
  { destruct (Control (ed_effects d)); injection H as <- _; done. }
  cbn [put_delivery set_vz_deliveries set_vz_streams put_owner set_vz_owners vz_owners vz_streams vz_deliveries]. split; [apply lookup_insert_eq|]. split.
  - intros Ho. rewrite (stale_stage w st d _ stage Ho Es), insert_id by done. split; [done|]. destruct (Control (ed_effects d)); [|done].
    unfold advance_frontier. rewrite Hst, lookup_alter_eq, Hsp. cbn. destruct (Z.ltb_spec (sm_controlOrder st) (ed_order d)); [lia|]. by destruct st.
  - intros Ho. unfold stageStreamControl in Es. destruct (Z.leb_spec (ed_order d) (sm_controlOrder st)); [lia|].
    exists (es_after stage). split; [done|]. split.
    + intros Ht. destruct (latched_stage _ _ _ _ Es) as [(_ & _ & -> & ->)|]; done.
    + intros c Hc. split; [by apply (latched_pc _ _ _ _ c Es)|]. rewrite Hc. unfold advance_frontier. rewrite Hst, lookup_alter_eq, Hsp. cbn.
      destruct (Z.ltb_spec (sm_controlOrder st) (ed_order d)); [|lia]. by eexists.
Qed.

(** Two instructions of one stream completing out of order: the younger moves the PC,
    the older no longer does. *)
Definition frontier_delivery (order : Z) (pc : Z) : EffectDelivery :=
  mkEffectDelivery (Some 3) order (mkInstructionContext 1 pc 15) 0 (with_Control (sequentialControl pc) no_effects) no_receipts 0 false.

Definition frontier_store : Visibility :=
  mkVisibility {[ 0 := example_warp ]} {[ 3 := mkEffectStream 0 0 0 ]}
    (<[1 := frontier_delivery 1 0x80000000]> {[ 2 := frontier_delivery 2 0x80000004 ]}).

Definition frontier_ahead : Visibility := (Deliver frontier_store tt 2 ControlEvent 0 None).1.1.

Example control_frontier_witness :
  (w_pc <$> vz_owners frontier_ahead !! 0) = Some 0x80000008 /\
  exists v, Deliver frontier_ahead tt 1 ControlEvent 0 None = (v, tt, Ok tt) /\ vz_owners v = vz_owners frontier_ahead.
Proof.
  split; [vm_compute; reflexivity|].
  assert (is_ok (Deliver frontier_ahead tt 1 ControlEvent 0 None).2 = true) as Hok by (vm_compute; reflexivity).
  destruct (Deliver frontier_ahead tt 1 ControlEvent 0 None) as [[v []] [[]|]] eqn:E; [|discriminate Hok]. exists v. split; [reflexivity|].
  assert (vz_owners frontier_ahead !! 0 = Some (set_pc 0x80000008 example_warp)) as Hw by (vm_compute; reflexivity).
  destruct (control_frontier frontier_ahead v tt tt 1 3 (frontier_delivery 1 0x80000000) (mkEffectStream 0 2 0) (set_pc 0x80000008 example_warp) None) as (_ & H & _).
  - vm_compute. reflexivity.
  - reflexivity.
  - vm_compute. reflexivity.
  - exact Hw.
  - exact E.
  - apply H. vm_compute. discriminate.
Defined.
