(* ===== verification/Grid.v ===== *)
(** * Kernel launch and grid generation (src/emu/device/launch.go)

    [ValidateLaunch] checks a launch and fills in its derived fields; a [GridWalker]
    then generates the CTAs of the grid one by one, cluster by cluster.  The derived
    table of the source is the list [derived_fields]; a Go [[3]uint32] is a triple. *)

From S2P Require Import Prelude IsaTypes Integer System Memory WarpExec Cta.

#[local] Open Scope Z_scope.
#[local] Open Scope go_scope.

Definition frozenBlockFieldMax : Z := 31.
Definition frozenWarpStepMax : Z := 15.
Definition frozenClusterDimMax : Z := 7.
Definition MaxUint32 : Z := 2 ^ 32 - 1.
Definition MaxUint64 : Z := 2 ^ 64 - 1.

(** Every launch error wraps [ErrInvalidLaunch]. *)
Definition invalid (problem : string) : error := Errorf (String.append "device: invalid kernel launch: " problem).

Record LaunchState := mkLaunchState {
  la_StartupPC : Z;
  la_KernelEntryPC : Z;
  la_ParameterAddress : Z;
  la_GridDimensions : triple;
  la_BlockDimensions : triple;
  la_BlockSize : Z;
  la_WarpStep : triple;
  la_LocalMemorySize : Z;
  la_ClusterDimensions : triple;
  la_BlockVolume : Z;
  la_WarpsPerCTA : Z;
  la_AlignedLocalMemorySize : Z;
  la_ClusterSize : Z;
  la_ClusterWarpDemand : Z;
  la_ClusterLocalMemorySize : Z;
  la_ResidentCTACapacity : Z;
  la_TotalCTAs : Z
}.

#[export] Instance LaunchState_eq_dec : EqDecision LaunchState. Proof. solve_decision. Defined.

Definition checkedMultiply (left right : Z) : result Z :=
  if (left <>? 0) && (right >? MaxUint64 / left) then Err (invalid "product overflows uint64") else Ok (u64 (left * right)).

(** The block loop: the running volume. *)
Definition blockAxis (input : LaunchState) (volume axis : Z) : result Z :=
  let dimension := axis3 (la_BlockDimensions input) axis in
  check negb ((dimension =? 0) || (dimension >? frozenBlockFieldMax)) else invalid "block dimension is outside the frozen 5-bit nonzero range" in
  let? volume := checkedMultiply volume dimension in
  check negb (axis3 (la_WarpStep input) axis >? frozenWarpStepMax) else invalid "warp step exceeds the frozen 4-bit field" in
  Ok volume.

(** The cluster loop: the running product. *)
Definition clusterDimension (input : LaunchState) (size axis : Z) : result Z :=
  let dimension := axis3 (la_ClusterDimensions input) axis in
  check negb ((dimension =? 0) || (dimension >? frozenClusterDimMax)) else invalid "cluster dimension is outside the frozen 3-bit nonzero range" in
  let? size := checkedMultiply size dimension in
  check negb (size >? FrozenWarpCount) else invalid "cluster product exceeds the co-resident CTA slots" in
  Ok size.

(** The grid loop: the running CTA count. *)
Definition gridAxis (input : LaunchState) (total axis : Z) : result Z :=
  let grid := axis3 (la_GridDimensions input) axis in
  check grid mod axis3 (la_ClusterDimensions input) axis =? 0 else invalid "grid dimension is not divisible by cluster dimension" in
  let? total := checkedMultiply total grid in
  check negb (total >? MaxUint32) else invalid "CTA count exceeds the frozen 32-bit counter" in
  Ok total.

Definition grid_empty (input : LaunchState) : bool := existsb (fun axis => axis3 (la_GridDimensions input) axis =? 0) axes.

(** The resident capacity of a core, by warps and by local memory. *)
Definition residentCapacity (warpsPerCTA alignedLocalMemory : Z) : Z :=
  let byWarps := FrozenWarpCount / warpsPerCTA in
  let byLocalMemory :=
    if alignedLocalMemory =? 0 then FrozenWarpCount
    else let n := FrozenLocalMemSize / alignedLocalMemory in if n >? FrozenWarpCount then FrozenWarpCount else n in
  Z.min byWarps byLocalMemory.

Definition with_derived (volume warps aligned size demand localDemand capacity total : Z) (l : LaunchState) : LaunchState :=
  mkLaunchState (la_StartupPC l) (la_KernelEntryPC l) (la_ParameterAddress l) (la_GridDimensions l) (la_BlockDimensions l) (la_BlockSize l)
    (la_WarpStep l) (la_LocalMemorySize l) (la_ClusterDimensions l) volume warps aligned size demand localDemand capacity total.

(** The [derived] table: provided and computed values. *)
Definition derived_fields (input normalized : LaunchState) : list (Z * Z) :=
  [(la_BlockVolume input, la_BlockVolume normalized);
   (la_WarpsPerCTA input, la_WarpsPerCTA normalized);
   (la_AlignedLocalMemorySize input, la_AlignedLocalMemorySize normalized);
   (la_ClusterSize input, la_ClusterSize normalized);
   (la_ClusterWarpDemand input, la_ClusterWarpDemand normalized);
   (la_ClusterLocalMemorySize input, la_ClusterLocalMemorySize normalized);
   (la_ResidentCTACapacity input, la_ResidentCTACapacity normalized);
   (la_TotalCTAs input, la_TotalCTAs normalized)].

Definition derived_ok (field : Z * Z) : bool := negb ((field.1 <>? 0) && (field.1 <>? field.2)).

Definition ValidateLaunch (input : LaunchState) : result LaunchState :=
  check la_StartupPC input .& 3 =? 0 else invalid "startup PC is not RV32 instruction aligned" in
  check la_KernelEntryPC input .& 3 =? 0 else invalid "kernel entry PC is not RV32 instruction aligned" in
  let? blockVolume := foldM (blockAxis input) 1 axes in
  check negb (blockVolume >? MaxUint32) else invalid "block-dimension product exceeds uint32" in
  check negb ((la_BlockSize input =? 0) || (la_BlockSize input >? FrozenWarpCount * FrozenLaneCount)) else invalid "block size is outside frozen core capacity" in
  let warpsPerCTA := u32 (u32 (la_BlockSize input + FrozenLaneCount) - 1) / FrozenLaneCount in
  check negb (la_LocalMemorySize input >? FrozenLocalMemSize) else invalid "local-memory size exceeds frozen capacity" in
  let alignedLocalMemory := alignUp (la_LocalMemorySize input) frozenMemoryBlockSize in
  check negb (alignedLocalMemory >? FrozenLocalMemSize) else invalid "64-byte-aligned local-memory size exceeds frozen capacity" in
  let? clusterSize := foldM (clusterDimension input) 1 axes in
  let? clusterWarpDemand := checkedMultiply clusterSize warpsPerCTA in
  check negb (clusterWarpDemand >? FrozenWarpCount) else invalid "cluster warp demand exceeds co-resident capacity" in
  let? clusterLocalMemory := checkedMultiply clusterSize alignedLocalMemory in
  check negb (clusterLocalMemory >? FrozenLocalMemSize) else invalid "cluster local-memory demand exceeds co-resident capacity" in
  let capacity := residentCapacity warpsPerCTA alignedLocalMemory in
  check negb (u32 clusterSize >? capacity) else invalid "cluster size exceeds co-resident capacity" in
  let? totalCTAs := if grid_empty input then Ok 0 else foldM (gridAxis input) 1 axes in
  let normalized := with_derived (u32 blockVolume) warpsPerCTA alignedLocalMemory (u32 clusterSize) (u32 clusterWarpDemand) (u32 clusterLocalMemory)
                      capacity (u32 totalCTAs) input in
  check forallb derived_ok (derived_fields input normalized) else invalid "derived value conflicts with computed value" in
  Ok normalized.

Definition NewLaunchState (input : LaunchState) : result LaunchState := ValidateLaunch input.

(** ** CTA generation *)

Record CTA := mkCTA {
  ca_ID : Z;
  ca_StartupPC : Z;
  ca_KernelEntryPC : Z;
  ca_ParameterAddress : Z;
  ca_BlockID : triple;
  ca_BlockDimensions : triple;
  ca_GridDimensions : triple;
  ca_BlockSize : Z;
  ca_WarpStep : triple;
  ca_AlignedLocalMemorySize : Z;
  ca_ClusterDimensions : triple;
  ca_ClusterSize : Z;
  ca_ClusterOrigin : triple;
  ca_IntraClusterOffset : triple;
  ca_ClusterRank : Z;
  ca_IsFirstOfCluster : bool
}.

Definition CoreConfig (c : CTA) : CTAConfig :=
  mkCTAConfig 0 [] (ca_StartupPC c) (ca_BlockID c) (ca_BlockDimensions c) (ca_GridDimensions c) (ca_BlockSize c) (ca_WarpStep c)
    (ca_KernelEntryPC c) (ca_ParameterAddress c) (ca_AlignedLocalMemorySize c) (ca_ClusterDimensions c) (ca_ClusterSize c) (ca_IsFirstOfCluster c).

Record GridWalker := mkGridWalker {
  gw_launch : LaunchState;
  gw_origin : triple;
  gw_intra : triple;
  gw_emitted : Z
}.

Definition NewGridWalker (input : LaunchState) : result GridWalker :=
  let? launch := ValidateLaunch input in Ok (mkGridWalker launch (0, 0, 0) (0, 0, 0) 0).

Definition Remaining (w : GridWalker) : Z :=
  if gw_emitted w >=? la_TotalCTAs (gw_launch w) then 0 else u32 (la_TotalCTAs (gw_launch w) - gw_emitted w).

Definition set_axis3 (t : triple) (axis v : Z) : triple :=
  if axis =? 0 then (v, t.1.2, t.2) else if axis =? 1 then (t.1.1, v, t.2) else (t.1.1, t.1.2, v).

(** One of the two carry loops of [advance]: each axis advances by its step and wraps at
    its limit; [true] when some axis did not wrap and the loop returned. *)
Fixpoint carry (step limit : triple) (t : triple) (over : list Z) : triple * bool :=
  match over with
  | [] => (t, false)
  | axis :: rest =>
      let t := set_axis3 t axis (u32 (axis3 t axis + axis3 step axis)) in
      if axis3 t axis <? axis3 limit axis then (t, true) else carry step limit (set_axis3 t axis 0) rest
  end.

Definition advance (w : GridWalker) : GridWalker :=
  let dims := la_ClusterDimensions (gw_launch w) in
  let '(intra, done) := carry (1, 1, 1) dims (gw_intra w) axes in
  if done then mkGridWalker (gw_launch w) (gw_origin w) intra (gw_emitted w)
  else mkGridWalker (gw_launch w) (carry dims (la_GridDimensions (gw_launch w)) (gw_origin w) axes).1 intra (gw_emitted w).

Definition cluster_rank (dims intra : triple) : Z :=
  u32 (axis3 intra 0 + u32 (axis3 dims 0 * u32 (axis3 intra 1 + u32 (axis3 dims 1 * axis3 intra 2)))).

(** The record [Next] emits. *)
Definition current_cta (w : GridWalker) : CTA :=
  let l := gw_launch w in
  let o := gw_origin w in let i := gw_intra w in
  let rank := cluster_rank (la_ClusterDimensions l) i in
  mkCTA (gw_emitted w) (la_StartupPC l) (la_KernelEntryPC l) (la_ParameterAddress l)
    (u32 (axis3 o 0 + axis3 i 0), u32 (axis3 o 1 + axis3 i 1), u32 (axis3 o 2 + axis3 i 2)) (la_BlockDimensions l) (la_GridDimensions l)
    (la_BlockSize l) (la_WarpStep l) (la_AlignedLocalMemorySize l) (la_ClusterDimensions l) (la_ClusterSize l) o i rank (rank =? 0).

Definition Next (w : GridWalker) : GridWalker * option CTA :=
  if gw_emitted w >=? la_TotalCTAs (gw_launch w) then (w, None)
  else (advance (mkGridWalker (gw_launch w) (gw_origin w) (gw_intra w) (u32 (gw_emitted w + 1))), Some (current_cta w)).
