(* ===== verification/GridSpec.v ===== *)
(** * Launch validation and the order of the grid

    [ValidateLaunch] accepts exactly the launches that satisfy the plain resource
    inequalities, and its result is normal: validating it again changes nothing.
    The walker of a validated launch enumerates the blocks of the grid, each exactly
    once, cluster by cluster. *)

From S2P Require Import Prelude IsaTypes Integer System Memory WarpExec Cta Grid.

#[local] Open Scope Z_scope.
#[local] Open Scope go_scope.

(** ** Validation *)

Definition triple3 (P : Z -> Prop) (t : triple) : Prop := P (axis3 t 0) /\ P (axis3 t 1) /\ P (axis3 t 2).
Definition volume (t : triple) : Z := axis3 t 0 * axis3 t 1 * axis3 t 2.

(** The Go field types of the fields validation reads. *)
Record input_typed (l : LaunchState) : Prop := {
  ly_startup : is_u32 (la_StartupPC l);
  ly_entry : is_u32 (la_KernelEntryPC l);
  ly_param : is_u32 (la_ParameterAddress l);
  ly_grid : triple3 is_u32 (la_GridDimensions l);
  ly_block : triple3 is_u32 (la_BlockDimensions l);
  ly_size : is_u32 (la_BlockSize l);
  ly_step : triple3 is_u32 (la_WarpStep l);
  ly_local : is_u32 (la_LocalMemorySize l);
  ly_cluster : triple3 is_u32 (la_ClusterDimensions l)
}.

(** Warps and local memory one CTA needs, as plain numbers. *)
Definition cta_warps (l : LaunchState) : Z := (la_BlockSize l + 3) / 4.
Definition cta_local (l : LaunchState) : Z := (la_LocalMemorySize l + 63) / 64 * 64.
Definition cta_count (l : LaunchState) : Z := volume (la_GridDimensions l).

(** What the hardware can run: field widths, alignment, one cluster resident at once. *)
Record launch_valid (l : LaunchState) : Prop := {
  lv_startup : la_StartupPC l mod 4 = 0;
  lv_entry : la_KernelEntryPC l mod 4 = 0;
  lv_block : triple3 (fun d => 1 <= d <= 31) (la_BlockDimensions l);
  lv_step : triple3 (fun d => d <= 15) (la_WarpStep l);
  lv_size : 1 <= la_BlockSize l <= 16;
  lv_local : la_LocalMemorySize l <= FrozenLocalMemSize;
  lv_cluster : triple3 (fun d => 1 <= d <= 7) (la_ClusterDimensions l);
  lv_cluster_size : volume (la_ClusterDimensions l) <= 4;
  lv_warps : volume (la_ClusterDimensions l) * cta_warps l <= 4;
  lv_memory : volume (la_ClusterDimensions l) * cta_local l <= FrozenLocalMemSize;
  lv_total : cta_count l < 2 ^ 32;
  lv_divides : cta_count l <> 0 -> forall axis, axis ∈ axes -> axis3 (la_GridDimensions l) axis mod axis3 (la_ClusterDimensions l) axis = 0
}.

Definition normalized (l : LaunchState) : LaunchState :=
  with_derived (volume (la_BlockDimensions l)) (cta_warps l) (cta_local l) (volume (la_ClusterDimensions l))
    (volume (la_ClusterDimensions l) * cta_warps l) (volume (la_ClusterDimensions l) * cta_local l)
    (residentCapacity (cta_warps l) (cta_local l)) (cta_count l) l.

Lemma foldM_axes {S} (f : S -> Z -> result S) s : foldM f s axes = (let? a := f s 0 in let? b := f a 1 in f b 2).
Proof. cbn. destruct (f s 0); [|done]. cbn. destruct (f _ 1); [|done]. cbn. by destruct (f _ 2). Qed.

Lemma checkedMultiply_small a b : 0 <= a < 2 ^ 32 -> 0 <= b < 2 ^ 32 -> checkedMultiply a b = Ok (a * b).
Proof.
  intros Ha Hb. unfold checkedMultiply, MaxUint64. assert (0 <= a * b < 2 ^ 64) as H by (change (2 ^ 64) with (2 ^ 32 * 2 ^ 32); nia).
  destruct (Z.eqb_spec a 0) as [->|Hn]; cbn [negb andb]; [by rewrite Z.mul_0_l|].
  destruct (Z.ltb_spec ((2 ^ 64 - 1) / a) b) as [Hl|_]; [|by rewrite u64_id].
  exfalso. apply Z.lt_le_pred in Hl. pose proof (Z.mul_succ_div_gt (2 ^ 64 - 1) a ltac:(lia)). nia.
Qed.

Lemma check_ok {A} (b : bool) e (k : result A) a : (check b else e in k) = Ok a <-> b = true /\ k = Ok a.
Proof. destruct b; naive_solver. Qed.

Lemma prefix_products a b c n : 0 <= a -> 0 <= b -> 0 <= c -> a * b * c <> 0 -> a * b * c < n -> 0 <= 1 * a < n /\ 0 <= 1 * a * b < n.
Proof.
  intros Ha Hb Hc Hn H. assert (0 < a /\ 0 < b /\ 0 < c) as (? & ? & ?) by (split_and!; nia). assert (0 < a * b) by nia.
  assert (a * b <= a * b * c) by nia. assert (a <= a * b) by nia. lia.
Qed.

Lemma volume_range n t : triple3 (fun d => 1 <= d <= n) t -> 1 <= volume t <= n * n * n.
Proof.
  unfold triple3, volume. intros (Ha & Hb & Hc). cbv beta in *. set (a := axis3 t 0) in *. set (b := axis3 t 1) in *. set (c := axis3 t 2) in *.
  assert (1 <= a * b <= n * n) by nia. nia.
Qed.

Section Validate.
Context (l : LaunchState) (Ht : input_typed l).

Lemma axis_u32 t axis : triple3 is_u32 t -> idx4 axis -> is_u32 (axis3 t axis).
Proof. intros (H0 & H1 & H2) [->|[->|[->| ->]]]; done. Qed.

Lemma blockAxis_ok v axis v' : idx4 axis -> 0 <= v < 2 ^ 32 ->
  blockAxis l v axis = Ok v' <-> 1 <= axis3 (la_BlockDimensions l) axis <= 31 /\ axis3 (la_WarpStep l) axis <= 15 /\ v' = v * axis3 (la_BlockDimensions l) axis.
Proof.
  intros Hi Hv. unfold blockAxis, frozenBlockFieldMax, frozenWarpStepMax. cbv zeta.
  pose proof (axis_u32 _ axis (ly_block l Ht) Hi) as Hd. unfold is_u32 in Hd.
  rewrite check_ok, checkedMultiply_small by done. cbn [result_bind]. rewrite check_ok. split.
  - intros (H1 & H2 & E%Ok_inj). apply negb_true_iff in H1, H2. repeat (apply orb_false_iff in H1 as [H1 ?]). split_and!; lia.
  - intros (H1 & H2 & ->). split_and!; [apply negb_true_iff, orb_false_iff; lia|apply negb_true_iff; lia|done].
Qed.

Lemma blockAxes_ok v : foldM (blockAxis l) 1 axes = Ok v <->
  triple3 (fun d => 1 <= d <= 31) (la_BlockDimensions l) /\ triple3 (fun d => d <= 15) (la_WarpStep l) /\ v = volume (la_BlockDimensions l).
Proof.
  rewrite foldM_axes. unfold triple3, volume. split.
  - intros H. apply result_bind_ok in H as (a & [H1 [H2 ->]]%blockAxis_ok & H); [|by left|lia].
    apply result_bind_ok in H as (b & [H3 [H4 ->]]%blockAxis_ok & H); [|by right; left|nia]. apply blockAxis_ok in H as (H5 & H6 & ->); [|by right; right; left|nia].
    split_and!; try done; lia.
  - intros ((H1 & H2 & H3) & (H4 & H5 & H6) & ->).
    assert (0 <= 1 * axis3 (la_BlockDimensions l) 0 < 2 ^ 32 /\ 0 <= 1 * axis3 (la_BlockDimensions l) 0 * axis3 (la_BlockDimensions l) 1 < 2 ^ 32) as [? ?] by (split; nia).
    rewrite (proj2 (blockAxis_ok 1 0 (1 * axis3 (la_BlockDimensions l) 0) ltac:(by left) ltac:(lia))) by (split; [done|split; [done|lia]]). cbn [result_bind].
    rewrite (proj2 (blockAxis_ok (1 * axis3 (la_BlockDimensions l) 0) 1 (1 * axis3 (la_BlockDimensions l) 0 * axis3 (la_BlockDimensions l) 1) ltac:(by right; left) ltac:(lia))) by (split; [done|split; [done|lia]]). cbn [result_bind].
    apply blockAxis_ok; [by right; right; left|lia|]. split; [done|split; [done|lia]].
Qed.

Lemma clusterDimension_ok v axis v' : idx4 axis -> 0 <= v < 2 ^ 32 ->
  clusterDimension l v axis = Ok v' <-> 1 <= axis3 (la_ClusterDimensions l) axis <= 7 /\ v' = v * axis3 (la_ClusterDimensions l) axis /\ v' <= 4.
Proof.
  intros Hi Hv. unfold clusterDimension, frozenClusterDimMax, FrozenWarpCount. cbv zeta.
  pose proof (axis_u32 _ axis (ly_cluster l Ht) Hi) as Hd. unfold is_u32 in Hd.
  rewrite check_ok, checkedMultiply_small by done. cbn [result_bind]. rewrite check_ok. split.
  - intros (H1 & H2 & E%Ok_inj). apply negb_true_iff in H1, H2. repeat (apply orb_false_iff in H1 as [H1 ?]). split_and!; lia.
  - intros (H1 & -> & H2). split_and!; [first [apply negb_true_iff, orb_false_iff; lia|lia]|apply negb_true_iff; lia|done].
Qed.

Lemma clusterDimensions_ok v : foldM (clusterDimension l) 1 axes = Ok v <->
  triple3 (fun d => 1 <= d <= 7) (la_ClusterDimensions l) /\ v = volume (la_ClusterDimensions l) /\ v <= 4.
Proof.
  rewrite foldM_axes. unfold triple3, volume. split.
  - intros H. apply result_bind_ok in H as (a & [H1 [-> H2]]%clusterDimension_ok & H); [|by left|lia].
    apply result_bind_ok in H as (b & [H3 [-> H4]]%clusterDimension_ok & H); [|by right; left|lia].
    apply clusterDimension_ok in H as (H5 & -> & H6); [|by right; right; left|lia]. split_and!; try done; lia.
  - intros ((H1 & H2 & H3) & -> & H4).
    assert (axis3 (la_ClusterDimensions l) 0 <= 4 /\ axis3 (la_ClusterDimensions l) 0 * axis3 (la_ClusterDimensions l) 1 <= 4) as [? ?] by (split; nia).
    assert (0 <= 1 * axis3 (la_ClusterDimensions l) 0 < 2 ^ 32 /\ 0 <= 1 * axis3 (la_ClusterDimensions l) 0 * axis3 (la_ClusterDimensions l) 1 < 2 ^ 32) as [? ?] by (split; nia).
    rewrite (proj2 (clusterDimension_ok 1 0 (1 * axis3 (la_ClusterDimensions l) 0) ltac:(by left) ltac:(lia))) by (split; [done|lia]). cbn [result_bind].
    rewrite (proj2 (clusterDimension_ok (1 * axis3 (la_ClusterDimensions l) 0) 1 (1 * axis3 (la_ClusterDimensions l) 0 * axis3 (la_ClusterDimensions l) 1) ltac:(by right; left) ltac:(lia))) by (split; [done|lia]). cbn [result_bind].
    apply clusterDimension_ok; [by right; right; left|lia|]. split; [done|lia].
Qed.

Lemma gridAxis_ok v axis v' : idx4 axis -> 0 <= v < 2 ^ 32 ->
  gridAxis l v axis = Ok v' <-> axis3 (la_GridDimensions l) axis mod axis3 (la_ClusterDimensions l) axis = 0 /\
    v' = v * axis3 (la_GridDimensions l) axis /\ v' < 2 ^ 32.
Proof.
  intros Hi Hv. unfold gridAxis, MaxUint32. cbv zeta. pose proof (axis_u32 _ axis (ly_grid l Ht) Hi) as Hd. unfold is_u32 in Hd.
  rewrite check_ok, checkedMultiply_small by done. cbn [result_bind]. rewrite check_ok. split.
  - intros (H1 & H2 & E%Ok_inj). apply negb_true_iff in H2. apply Z.eqb_eq in H1. split_and!; lia.
  - intros (H1 & -> & H2). split_and!; [by apply Z.eqb_eq|apply negb_true_iff; lia|done].
Qed.

Lemma cta_count_nonneg : 0 <= cta_count l.
Proof. destruct (ly_grid l Ht) as ([] & [] & []). unfold cta_count, volume. by repeat apply Z.mul_nonneg_nonneg. Qed.

Lemma grid_empty_spec : grid_empty l = false <-> cta_count l <> 0.
Proof.
  unfold grid_empty, cta_count, volume, axes. cbn [existsb]. split.
  - intros H. repeat (apply orb_false_iff in H as [? H]). nia.
  - intros H. repeat (apply orb_false_iff; split); [..|done]; apply Z.eqb_neq; nia.
Qed.

Lemma total_ok v : (if grid_empty l then Ok 0 else foldM (gridAxis l) 1 axes) = Ok v <->
  cta_count l < 2 ^ 32 /\ (cta_count l <> 0 -> forall axis, axis ∈ axes -> axis3 (la_GridDimensions l) axis mod axis3 (la_ClusterDimensions l) axis = 0) /\ v = cta_count l.
Proof.
  pose proof (ly_grid l Ht) as (G0 & G1 & G2). unfold is_u32 in *. pose proof grid_empty_spec as He. destruct (grid_empty l).
  - assert (cta_count l = 0) as -> by (destruct (Z.eq_dec (cta_count l) 0) as [|n]; [done|by apply He in n]). split.
    + intros <-%Ok_inj. done.
    + by intros (_ & _ & ->).
  - pose proof (proj1 He eq_refl) as Hn. rewrite foldM_axes. unfold cta_count, volume in *. split.
    + intros H. apply result_bind_ok in H as (a & [H1 [-> H2]]%gridAxis_ok & H); [|by left|lia].
      apply result_bind_ok in H as (b & [H3 [-> H4]]%gridAxis_ok & H); [|by right; left|lia].
      apply gridAxis_ok in H as (H5 & -> & H6); [|by right; right; left|lia]. split; [lia|]. split; [|lia].
      intros _ axis Ha. unfold axes in Ha. set_unfold in Ha. destruct Ha as [->|[->|[->|[]]]]; done.
    + intros (H1 & H2 & ->). specialize (H2 Hn).
      destruct (prefix_products _ _ _ (2 ^ 32) (proj1 G0) (proj1 G1) (proj1 G2) Hn H1).
    rewrite (proj2 (gridAxis_ok 1 0 (1 * axis3 (la_GridDimensions l) 0) ltac:(by left) ltac:(lia))) by (split_and!; [apply H2; set_solver|lia|lia]). cbn [result_bind].
    rewrite (proj2 (gridAxis_ok (1 * axis3 (la_GridDimensions l) 0) 1 (1 * axis3 (la_GridDimensions l) 0 * axis3 (la_GridDimensions l) 1) ltac:(by right; left) ltac:(lia))) by (split_and!; [apply H2; set_solver|lia|lia]). cbn [result_bind].
    apply gridAxis_ok; [by right; right; left|lia|]. split_and!; [apply H2; set_solver|lia|lia].
Qed.
Lemma warps_ok : 1 <= la_BlockSize l <= 16 -> u32 (u32 (la_BlockSize l + FrozenLaneCount) - 1) / FrozenLaneCount = cta_warps l /\ 1 <= cta_warps l <= 4.
Proof.
  intros Hb. unfold FrozenLaneCount, cta_warps. rewrite (u32_id (la_BlockSize l + 4)), u32_id by (unfold is_u32; lia).
  replace (la_BlockSize l + 4 - 1) with (la_BlockSize l + 3) by lia. split; [done|]. Z.div_mod_to_equations. lia.
Qed.

Lemma local_ok : la_LocalMemorySize l <= FrozenLocalMemSize -> alignUp (la_LocalMemorySize l) frozenMemoryBlockSize = cta_local l /\ 0 <= cta_local l <= FrozenLocalMemSize.
Proof.
  pose proof (ly_local l Ht) as Hu. unfold is_u32 in Hu. intros Hl. unfold cta_local, frozenMemoryBlockSize. unfold FrozenLocalMemSize in *. change (1 << 14) with 16384 in *.
  split; [|Z.div_mod_to_equations; lia]. unfold alignUp. destruct (Z.eqb_spec (la_LocalMemorySize l) 0) as [->|Hn]; [done|].
  rewrite (u32_id (la_LocalMemorySize l + 64)), !u32_id by (unfold is_u32; lia). change (64 - 1) with (Z.ones 6). rewrite Z.ldiff_ones_r by lia.
  rewrite Z.shiftl_mul_pow2, Z.shiftr_div_pow2 by lia. change (2 ^ 6) with 64. f_equal. f_equal. lia.
Qed.

(** One cluster that fits by warps and by local memory fits the capacity. *)
Lemma capacity_ok n warps local : 1 <= n <= 4 -> 1 <= warps -> 0 <= local -> n * warps <= 4 -> n * local <= FrozenLocalMemSize -> n <= residentCapacity warps local.
Proof.
  intros Hn Hw Hl H1 H2. unfold residentCapacity, FrozenWarpCount. cbv zeta. apply Z.min_glb; [apply Z.div_le_lower_bound; lia|].
  destruct (Z.eqb_spec local 0); [lia|]. assert (n <= FrozenLocalMemSize / local) by (apply Z.div_le_lower_bound; lia).
  destruct (_ >? _); lia.
Qed.

Lemma ValidateLaunch_iff r : ValidateLaunch l = Ok r <->
  launch_valid l /\ forallb derived_ok (derived_fields l (normalized l)) = true /\ r = normalized l.
Proof.
  assert (forall x, x .& 3 = x mod 4) as E3 by (intros x; change 3 with (Z.ones 2); by rewrite Z.land_ones).
  unfold ValidateLaunch, FrozenWarpCount. cbv zeta. rewrite !E3, !check_ok. split.
  - intros (H1 & H2 & H). apply Z.eqb_eq in H1, H2. apply result_bind_ok in H as (bv & (Hb & Hs & ->)%blockAxes_ok & H). rewrite !check_ok in H.
    destruct H as (H3 & H4 & H5 & H6 & H). unfold FrozenLaneCount in H4. apply negb_true_iff in H4. apply orb_false_iff in H4 as [H4 H4'].
    pose proof (ly_size l Ht) as Hu. unfold is_u32 in Hu. destruct warps_ok as [Ew Hw]; [lia|]. destruct local_ok as [El Hl]; [lia|]. rewrite Ew, El in H.
    apply result_bind_ok in H as (cs & (Hc & -> & Hc4)%clusterDimensions_ok & H).
    assert (1 <= volume (la_ClusterDimensions l)) as Hv1 by apply (volume_range _ _ Hc).
    pose proof (Z.mul_nonneg_nonneg (volume (la_ClusterDimensions l)) (cta_warps l) ltac:(lia) ltac:(lia)) as HN1.
    pose proof (Z.mul_nonneg_nonneg (volume (la_ClusterDimensions l)) (cta_local l) ltac:(lia) ltac:(lia)) as HN2.
    unfold FrozenLocalMemSize in Hl. change (1 << 14) with 16384 in Hl.
    rewrite checkedMultiply_small in H by lia. cbn [result_bind] in H. rewrite check_ok in H. destruct H as (H7 & H).
    rewrite checkedMultiply_small in H by lia. cbn [result_bind] in H. rewrite !check_ok in H. destruct H as (H8 & H9 & H).
    apply result_bind_ok in H as (total & (Hx & Hd & ->)%total_ok & H). rewrite check_ok in H. destruct H as (H10 & <-%Ok_inj).
    pose proof cta_count_nonneg as H0.
    assert (0 <= volume (la_BlockDimensions l) < 2 ^ 32) as Hbv by (pose proof (volume_range _ _ Hb); lia).
    unfold FrozenLocalMemSize in H8. change (1 << 14) with 16384 in H8.
    assert (u32 (volume (la_BlockDimensions l)) = volume (la_BlockDimensions l)) as U1 by (apply u32_id; exact Hbv).
    assert (u32 (volume (la_ClusterDimensions l)) = volume (la_ClusterDimensions l)) as U2 by (apply u32_id; unfold is_u32; lia).
    assert (u32 (volume (la_ClusterDimensions l) * cta_warps l) = volume (la_ClusterDimensions l) * cta_warps l) as U3 by (apply u32_id; unfold is_u32; lia).
    assert (u32 (volume (la_ClusterDimensions l) * cta_local l) = volume (la_ClusterDimensions l) * cta_local l) as U4 by (apply u32_id; unfold is_u32; lia).
    assert (u32 (cta_count l) = cta_count l) as U5 by (apply u32_id; unfold is_u32; lia).
    rewrite U1, U2, U3, U4, U5 in *.
    split; [|by split]. split; try done; try lia. unfold FrozenLocalMemSize. change (1 << 14) with 16384. lia.
  - intros (V & Hder & ->). destruct V as [V1 V2 V3 V4 V5 V6 V7 V8 V9 V10 V11 V12]. split; [lia|]. split; [lia|].
    rewrite (proj2 (blockAxes_ok _)) by (split_and!; [exact V3|exact V4|reflexivity]). cbn [result_bind]. rewrite check_ok.
    assert (0 <= volume (la_BlockDimensions l) < 2 ^ 32) as Hbv by (pose proof (volume_range _ _ V3); lia).
    split; [unfold MaxUint32; lia|]. rewrite check_ok. unfold FrozenLaneCount at 1. split; [apply negb_true_iff, orb_false_iff; lia|].
    destruct (warps_ok V5) as [-> Hw]. destruct (local_ok V6) as [-> Hl]. rewrite !check_ok. split; [lia|]. split; [lia|].
    assert (1 <= volume (la_ClusterDimensions l)) as Hv1 by apply (volume_range _ _ V7).
    pose proof (Z.mul_nonneg_nonneg (volume (la_ClusterDimensions l)) (cta_warps l) ltac:(lia) ltac:(lia)) as HN1.
    pose proof (Z.mul_nonneg_nonneg (volume (la_ClusterDimensions l)) (cta_local l) ltac:(lia) ltac:(lia)) as HN2.
    rewrite (proj2 (clusterDimensions_ok _)) by (split; [exact V7|split; [reflexivity|done]]). cbn [result_bind].
    pose proof (capacity_ok _ _ _ (conj Hv1 V8) (proj1 Hw) (proj1 Hl) V9 V10) as Hcap.
    unfold FrozenLocalMemSize in Hl, V10. change (1 << 14) with 16384 in *.
    rewrite checkedMultiply_small by lia. cbn [result_bind]. rewrite check_ok. split; [lia|].
    rewrite checkedMultiply_small by lia. cbn [result_bind]. rewrite !check_ok. split; [unfold FrozenLocalMemSize; change (1 << 14) with 16384; lia|].
    rewrite (u32_id (volume (la_ClusterDimensions l))) by (unfold is_u32; lia). split; [lia|].
    rewrite (proj2 (total_ok _)) by (split_and!; [exact V11|exact V12|reflexivity]). cbn [result_bind].
    pose proof cta_count_nonneg as H0.
    rewrite (u32_id (volume (la_BlockDimensions l))), (u32_id (volume (la_ClusterDimensions l) * cta_warps l)),
      (u32_id (volume (la_ClusterDimensions l) * cta_local l)), (u32_id (cta_count l)) by (unfold is_u32; lia).
    rewrite check_ok. by split.
Qed.
End Validate.

Lemma normalized_valid l : launch_valid l -> launch_valid (normalized l).
Proof. by intros []. Qed.
Lemma normalized_typed l : input_typed l -> input_typed (normalized l).
Proof. by intros []. Qed.

Lemma derived_ok_self fields : forallb derived_ok (map (fun x => (x, x)) fields) = true.
Proof. apply forallb_forall. intros p (x & <- & _)%in_map_iff. unfold derived_ok. cbn. by rewrite Z.eqb_refl, andb_false_r. Qed.

Lemma validated_again l : input_typed l -> launch_valid l -> ValidateLaunch (normalized l) = Ok (normalized l).
Proof.
  intros Ht V. apply (ValidateLaunch_iff _ (normalized_typed l Ht)). split; [by apply normalized_valid|]. split; [|done].
  apply (derived_ok_self [la_BlockVolume (normalized l); la_WarpsPerCTA (normalized l); la_AlignedLocalMemorySize (normalized l); la_ClusterSize (normalized l);
    la_ClusterWarpDemand (normalized l); la_ClusterLocalMemorySize (normalized l); la_ResidentCTACapacity (normalized l); la_TotalCTAs (normalized l)]).
Qed.

(** C16: launch validation.  A launch is accepted exactly when it satisfies the plain
    inequalities of the hardware, with no rounding or overflow in between, and no
    derived field it provides contradicts the computed one; the result carries the
    computed fields.  Validating a result again returns it unchanged, and one cluster
    of it fits the resident capacity. *)
Theorem validate_launch (l : LaunchState) :
  input_typed l ->
  (forall r, ValidateLaunch l = Ok r <->
     launch_valid l /\ forallb derived_ok (derived_fields l (normalized l)) = true /\ r = normalized l) /\
  (forall r, ValidateLaunch l = Ok r -> ValidateLaunch r = Ok r /\ 1 <= la_ClusterSize r <= la_ResidentCTACapacity r).
Proof.
  intros Ht. split; [intros r; by apply ValidateLaunch_iff|]. intros r (V & _ & ->)%(ValidateLaunch_iff l Ht). split.
  - by apply validated_again.
  - cbn. destruct V. pose proof (volume_range _ _ lv_cluster0) as [Hv _]. split; [done|].
    destruct (warps_ok l lv_size0) as [_ Hw]. destruct (local_ok l Ht lv_local0) as [_ Hl]. apply capacity_ok; lia.
Qed.

(** A 12 by 2 by 1 grid of one-warp blocks, in clusters of 2 by 2. *)
Definition example_input : LaunchState :=
  mkLaunchState 4096 8192 100 (12, 2, 1) (4, 1, 1) 4 (4, 0, 0) 100 (2, 2, 1) 0 0 0 0 0 0 0 0.

Lemma example_input_typed : input_typed example_input.
Proof. split; cbn; try (by vm_compute); repeat split; by vm_compute. Qed.

Example validate_launch_witness : exists r, ValidateLaunch example_input = Ok r /\ ValidateLaunch r = Ok r /\ la_TotalCTAs r = 24.
Proof.
  exists (normalized example_input). assert (ValidateLaunch example_input = Ok (normalized example_input)) as E by (vm_compute; reflexivity).
  split; [exact E|]. split; [|vm_compute; reflexivity]. exact (proj1 (proj2 (validate_launch example_input example_input_typed) _ E)).
Defined.

(** ** Mixed-radix counting *)

(** Three digits of given radices, and the number they spell. *)
Definition digits_ok (n d : triple) : Prop := 0 <= axis3 d 0 < axis3 n 0 /\ 0 <= axis3 d 1 < axis3 n 1 /\ 0 <= axis3 d 2 < axis3 n 2.
Definition spell (n d : triple) : Z := axis3 d 0 + axis3 n 0 * (axis3 d 1 + axis3 n 1 * axis3 d 2).
Definition scaled (s d : triple) : triple := (axis3 d 0 * axis3 s 0, axis3 d 1 * axis3 s 1, axis3 d 2 * axis3 s 2).

Lemma spell_range n d : digits_ok n d -> 0 <= spell n d < volume n.
Proof.
  unfold digits_ok, spell, volume. destruct n as [[n0 n1] n2], d as [[d0 d1] d2]. cbn. intros (H0 & H1 & H2).
  assert (0 <= d1 + n1 * d2 < n1 * n2) by nia. nia.
Qed.

Lemma spell_inj n d d' : digits_ok n d -> digits_ok n d' -> spell n d = spell n d' -> d = d'.
Proof.
  unfold digits_ok, spell. destruct n as [[n0 n1] n2], d as [[d0 d1] d2], d' as [[e0 e1] e2]. cbn. intros (H0 & H1 & H2) (G0 & G1 & G2) E.
  assert (d1 + n1 * d2 = e1 + n1 * e2 /\ d0 = e0) as [E1 ->].
  { apply (Z.div_mod_unique n0); [by left|by left|lia]. }
  assert (d2 = e2 /\ d1 = e1) as [-> ->] by (apply (Z.div_mod_unique n1); [by left|by left|lia]). done.
Qed.

(** The digits of a number. *)
Definition unspell (n : triple) (k : Z) : triple := (k mod axis3 n 0, k / axis3 n 0 mod axis3 n 1, k / axis3 n 0 / axis3 n 1).

Lemma unspell_ok n k : triple3 (fun x => 1 <= x) n -> 0 <= k < volume n -> digits_ok n (unspell n k) /\ spell n (unspell n k) = k.
Proof.
  unfold digits_ok, spell, volume, unspell, triple3. destruct n as [[n0 n1] n2]. cbn. intros (H0 & H1 & H2) Hk.
  pose proof (Z.mod_pos_bound k n0 ltac:(lia)). pose proof (Z.mod_pos_bound (k / n0) n1 ltac:(lia)).
  pose proof (Z.div_mod k n0 ltac:(lia)). pose proof (Z.div_mod (k / n0) n1 ltac:(lia)).
  assert (0 <= k / n0) by (apply Z.div_pos; lia). assert (0 <= k / n0 / n1) by (apply Z.div_pos; lia).
  assert (k / n0 < n1 * n2) by (apply Z.div_lt_upper_bound; nia). assert (k / n0 / n1 < n2) by (apply Z.div_lt_upper_bound; nia).
  split; [lia|]. nia.
Qed.

Lemma zero_digits n : triple3 (fun x => 1 <= x) n -> digits_ok n (0, 0, 0).
Proof. unfold triple3, digits_ok. destruct n as [[? ?] ?]. cbn. lia. Qed.
Lemma zero_spell n : spell n (0, 0, 0) = 0.
Proof. unfold spell. cbn. lia. Qed.

(** One turn of a carry loop counts up by one, or wraps to zero after the last number. *)
Lemma carry_counts s n d :
  triple3 (fun x => 1 <= x) s -> digits_ok n d -> (forall axis, idx4 axis -> axis3 n axis * axis3 s axis < 2 ^ 32) ->
  (exists d', carry s (scaled s n) (scaled s d) axes = (scaled s d', true) /\ digits_ok n d' /\ spell n d' = spell n d + 1) \/
  carry s (scaled s n) (scaled s d) axes = ((0, 0, 0), false) /\ spell n d + 1 = volume n.
Proof.
  unfold digits_ok, spell, volume, triple3, scaled. destruct n as [[n0 n1] n2], d as [[d0 d1] d2], s as [[s0 s1] s2]. cbn -[u32].
  intros (S0 & S1 & S2) (H0 & H1 & H2) Hb. pose proof (Hb 0 ltac:(by left)) as B0. pose proof (Hb 1 ltac:(by right; left)) as B1.
  pose proof (Hb 2 ltac:(by right; right; left)) as B2. cbn in B0, B1, B2.
  assert (u32 (d0 * s0 + s0) = (d0 + 1) * s0) as -> by (rewrite u32_id; [lia|unfold is_u32; nia]).
  assert (u32 (d1 * s1 + s1) = (d1 + 1) * s1) as -> by (rewrite u32_id; [lia|unfold is_u32; nia]).
  assert (u32 (d2 * s2 + s2) = (d2 + 1) * s2) as -> by (rewrite u32_id; [lia|unfold is_u32; nia]).
  destruct (Z.ltb_spec ((d0 + 1) * s0) (n0 * s0)) as [L0|L0].
  { left. exists (d0 + 1, d1, d2). cbn. split; [done|]. split; [split_and!; nia|lia]. }
  destruct (Z.ltb_spec ((d1 + 1) * s1) (n1 * s1)) as [L1|L1].
  { left. exists (0, d1 + 1, d2). cbn. split; [done|]. split; [split_and!; nia|nia]. }
  destruct (Z.ltb_spec ((d2 + 1) * s2) (n2 * s2)) as [L2|L2].
  { left. exists (0, 0, d2 + 1). cbn. split; [done|]. split; [split_and!; nia|nia]. }
  right. split; [done|]. assert (d0 + 1 = n0) as <- by nia. assert (d1 + 1 = n1) as <- by nia. assert (d2 + 1 = n2) as <- by nia. lia.
Qed.

(** ** The walk *)

Lemma triple_ext (t u : triple) : (forall axis, idx4 axis -> axis3 t axis = axis3 u axis) -> t = u.
Proof.
  intros H. pose proof (H 0 ltac:(by left)). pose proof (H 1 ltac:(by right; left)). pose proof (H 2 ltac:(by right; right; left)).
  destruct t as [[? ?] ?], u as [[? ?] ?]. cbn in *. congruence.
Qed.

Lemma scaled_one d : scaled (1, 1, 1) d = d.
Proof. unfold scaled. destruct d as [[? ?] ?]. cbn. by rewrite !Z.mul_1_r. Qed.

(** Emitting [n] CTAs in a row: the CTAs and the walker left. *)
Fixpoint walk (n : nat) (w : GridWalker) : list CTA * GridWalker :=
  match n with
  | O => ([], w)
  | S n => match Next w with
           | (w, Some c) => let '(cs, w) := walk n w in (c :: cs, w)
           | (w, None) => ([], w)
           end
  end.

Definition in_grid (l : LaunchState) (b : triple) : Prop := digits_ok (la_GridDimensions l) b.

Section Walk.
Context (l : LaunchState) (Ht : input_typed l) (V : launch_valid l) (Hn : cta_count l <> 0).

Notation D := (la_ClusterDimensions l).
Notation G := (la_GridDimensions l).
Notation L := (normalized l).
Notation S := (volume (la_ClusterDimensions l)).

(** Clusters along each axis. *)
Definition clusters : triple := (axis3 G 0 / axis3 D 0, axis3 G 1 / axis3 D 1, axis3 G 2 / axis3 D 2).

Lemma cluster_pos : triple3 (fun x => 1 <= x) D.
Proof. destruct (lv_cluster l V) as (? & ? & ?). split_and!; lia. Qed.

Lemma grid_pos : triple3 (fun x => 1 <= x) G.
Proof. destruct (ly_grid l Ht) as (? & ? & ?). unfold cta_count, volume, is_u32 in *. split_and!; nia. Qed.

Lemma grid_split axis : idx4 axis -> axis3 clusters axis * axis3 D axis = axis3 G axis /\ 1 <= axis3 clusters axis.
Proof.
  intros Hi. assert (axis3 clusters axis = axis3 G axis / axis3 D axis) as -> by (destruct Hi as [->|[->|[->| ->]]]; done).
  assert (axis3 G axis mod axis3 D axis = 0) as Hm.
  { destruct Hi as [->|[->|[->| ->]]]; [| | |change (axis3 G 3) with (axis3 G 2); change (axis3 D 3) with (axis3 D 2)]; apply (lv_divides l V Hn); unfold axes; set_solver. }
  assert (1 <= axis3 D axis) by (pose proof cluster_pos as (? & ? & ?); destruct Hi as [->|[->|[->| ->]]]; done).
  assert (1 <= axis3 G axis) by (pose proof grid_pos as (? & ? & ?); destruct Hi as [->|[->|[->| ->]]]; done).
  pose proof (Z.div_mod (axis3 G axis) (axis3 D axis) ltac:(lia)). nia.
Qed.

Lemma clusters_pos : triple3 (fun x => 1 <= x) clusters.
Proof. split_and!; apply grid_split; unfold idx4; auto. Qed.

Lemma scaled_clusters : scaled D clusters = G.
Proof.
  apply triple_ext. intros axis Hi. rewrite <- (proj1 (grid_split axis Hi)). destruct Hi as [->|[->|[->| ->]]]; done.
Qed.

Lemma total_split : cta_count l = volume clusters * S.
Proof.
  unfold cta_count, volume. rewrite <- (proj1 (grid_split 0 ltac:(by left))), <- (proj1 (grid_split 1 ltac:(by right; left))),
    <- (proj1 (grid_split 2 ltac:(by right; right; left))). lia.
Qed.

Lemma cluster_size_pos : 1 <= S <= 4.
Proof. split; [apply (volume_range 7), V|apply V]. Qed.

(** Where the walk is after [k] CTAs. *)
Definition offset_at (k : Z) : triple := unspell D (k mod S).
Definition cluster_at (k : Z) : triple := unspell clusters (k / S).
Definition walker_at (k : Z) : GridWalker := mkGridWalker L (scaled D (cluster_at k)) (offset_at k) k.
Definition cta_at (k : Z) : CTA := current_cta (walker_at k).
Definition exhausted : GridWalker := mkGridWalker L (0, 0, 0) (0, 0, 0) (cta_count l).

Lemma offset_ok k : digits_ok D (offset_at k) /\ spell D (offset_at k) = k mod S.
Proof. apply unspell_ok; [apply cluster_pos|]. apply Z.mod_pos_bound. pose proof cluster_size_pos. lia. Qed.

Lemma cluster_ok k : 0 <= k < cta_count l -> digits_ok clusters (cluster_at k) /\ spell clusters (cluster_at k) = k / S.
Proof.
  intros Hk. pose proof cluster_size_pos. rewrite total_split in Hk. apply unspell_ok; [apply clusters_pos|].
  split; [apply Z.div_pos; lia|apply Z.div_lt_upper_bound; lia].
Qed.

Lemma Next_at k : 0 <= k < cta_count l -> Next (walker_at k) = (if k + 1 <? cta_count l then walker_at (k + 1) else exhausted, Some (cta_at k)).
Proof.
  intros Hk. pose proof (lv_total l V) as Htot. pose proof cluster_size_pos as HS. pose proof total_split as Hsp.
  unfold Next. cbn [walker_at gw_emitted gw_launch normalized with_derived la_TotalCTAs]. destruct (Z.leb_spec (cta_count l) k); [lia|]. f_equal.
  rewrite (u32_id (k + 1)) by (unfold is_u32; lia). unfold advance. cbn [walker_at gw_launch gw_intra gw_origin gw_emitted normalized with_derived la_ClusterDimensions la_GridDimensions].
  destruct (offset_ok k) as [Ho Eo]. destruct (cluster_ok k Hk) as [Hc Ec].
  pose proof (carry_counts (1, 1, 1) D (offset_at k) ltac:(by repeat split) Ho) as Hcar. rewrite !scaled_one in Hcar.
  destruct Hcar as [(d & -> & Hd & Es)|(-> & Es)].
  { intros axis Hi. pose proof (lv_cluster l V) as (? & ? & ?). destruct Hi as [->|[->|[->| ->]]]; cbn [axis3 Z.eqb]; unfold axis3 in *; cbn in *; lia. }
  - rewrite scaled_one, Eo in *. pose proof (spell_range _ _ Hd) as Hr.
    assert ((k + 1) mod S = k mod S + 1 /\ (k + 1) / S = k / S) as [Em Ed].
    { pose proof (Z.div_mod k S ltac:(lia)). split; [symmetry; apply (Z.mod_unique_pos _ _ (k / S)); lia|symmetry; apply (Z.div_unique_pos _ _ _ (k mod S + 1)); lia]. }
    assert (k / S < volume clusters) by (apply Z.div_lt_upper_bound; lia).
    destruct (Z.ltb_spec (k + 1) (cta_count l)) as [_|Hge].
    + unfold walker_at, cluster_at, offset_at. rewrite Ed. f_equal. apply (spell_inj D); [done|apply (offset_ok (k + 1))|].
      rewrite Es. destruct (offset_ok (k + 1)) as [_ E]. unfold offset_at in E. by rewrite E.
    + exfalso. pose proof (Z.div_mod k S ltac:(lia)). nia.
  - rewrite Eo in Es.
    assert ((k + 1) mod S = 0 /\ (k + 1) / S = k / S + 1) as [Em Ed].
    { pose proof (Z.div_mod k S ltac:(lia)). split; [symmetry; apply (Z.mod_unique_pos _ _ (k / S + 1)); lia|symmetry; apply (Z.div_unique_pos _ _ _ 0); lia]. }
    assert (forall axis, idx4 axis -> axis3 clusters axis * axis3 D axis < 2 ^ 32) as Hb.
    { intros axis Hi. rewrite (proj1 (grid_split axis Hi)). apply (axis_u32 _ _ (ly_grid l Ht) Hi). }
    pose proof (carry_counts D clusters (cluster_at k) cluster_pos Hc Hb) as Hcar. rewrite scaled_clusters in Hcar.
    assert (unspell D 0 = (0, 0, 0)) as Hz.
    { apply (spell_inj D); [apply unspell_ok; [apply cluster_pos|lia]| |].
      - apply zero_digits, cluster_pos.
      - rewrite (proj2 (unspell_ok D 0 cluster_pos ltac:(lia))), zero_spell. done. }
    pose proof (Z.div_mod k S ltac:(lia)). destruct Hcar as [(d & -> & Hd & Ed')|(-> & Ed')]; cbn [fst].
    + rewrite Ec in Ed'. pose proof (spell_range _ _ Hd) as Hr. destruct (Z.ltb_spec (k + 1) (cta_count l)) as [Hlt|Hge].
      * unfold walker_at, offset_at. rewrite Em, Hz. f_equal. f_equal. apply (spell_inj clusters); [done|apply (cluster_ok (k + 1)); lia|].
        destruct (cluster_ok (k + 1) ltac:(lia)) as [_ ->]. lia.
      * exfalso. nia.
    + rewrite Ec in Ed'. destruct (Z.ltb_spec (k + 1) (cta_count l)) as [Hlt|Hge]; [exfalso; nia|]. unfold exhausted. f_equal. lia.
Qed.

(** The block of the [k]-th CTA, and the number of a block. *)
Lemma block_at k axis : 0 <= k < cta_count l -> idx4 axis ->
  axis3 (ca_BlockID (cta_at k)) axis = axis3 (cluster_at k) axis * axis3 D axis + axis3 (offset_at k) axis /\
  0 <= axis3 (cluster_at k) axis < axis3 clusters axis /\ 0 <= axis3 (offset_at k) axis < axis3 D axis.
Proof.
  intros Hk Hi. destruct (offset_ok k) as [(O0 & O1 & O2) _]. destruct (cluster_ok k Hk) as [(C0 & C1 & C2) _].
  assert (0 <= axis3 (cluster_at k) axis < axis3 clusters axis /\ 0 <= axis3 (offset_at k) axis < axis3 D axis) as [Hc Ho]
    by (destruct Hi as [->|[->|[->| ->]]]; done).
  split; [|done]. pose proof (grid_split axis Hi) as [Hg Hp]. pose proof (axis_u32 _ _ (ly_grid l Ht) Hi) as Hu. unfold is_u32 in Hu.
  transitivity (u32 (axis3 (cluster_at k) axis * axis3 D axis + axis3 (offset_at k) axis)); [by destruct Hi as [->|[->|[->| ->]]]|].
  apply u32_id. unfold is_u32. nia.
Qed.

Lemma block_in_grid k : 0 <= k < cta_count l -> in_grid l (ca_BlockID (cta_at k)).
Proof.
  intros Hk. unfold in_grid, digits_ok. assert (forall axis, idx4 axis -> 0 <= axis3 (ca_BlockID (cta_at k)) axis < axis3 G axis) as H.
  { intros axis Hi. destruct (block_at k axis Hk Hi) as (-> & Hc & Ho). pose proof (grid_split axis Hi) as [<- _]. nia. }
  split_and!; apply H; unfold idx4; auto.
Qed.

Definition block_index (b : triple) : Z :=
  spell clusters (axis3 b 0 / axis3 D 0, axis3 b 1 / axis3 D 1, axis3 b 2 / axis3 D 2) * S +
  spell D (axis3 b 0 mod axis3 D 0, axis3 b 1 mod axis3 D 1, axis3 b 2 mod axis3 D 2).

Lemma block_digits k axis : 0 <= k < cta_count l -> idx4 axis ->
  axis3 (ca_BlockID (cta_at k)) axis / axis3 D axis = axis3 (cluster_at k) axis /\ axis3 (ca_BlockID (cta_at k)) axis mod axis3 D axis = axis3 (offset_at k) axis.
Proof.
  intros Hk Hi. destruct (block_at k axis Hk Hi) as (E & Hc & Ho).
  split; symmetry; [apply (Z.div_unique_pos _ _ _ (axis3 (offset_at k) axis))|apply (Z.mod_unique_pos _ _ (axis3 (cluster_at k) axis))]; lia.
Qed.

Lemma block_index_at k : 0 <= k < cta_count l -> block_index (ca_BlockID (cta_at k)) = k.
Proof.
  intros Hk. unfold block_index.
  pose proof (block_digits k 0 Hk ltac:(by left)) as [-> ->]. pose proof (block_digits k 1 Hk ltac:(by right; left)) as [-> ->].
  pose proof (block_digits k 2 Hk ltac:(by right; right; left)) as [-> ->].
  assert (forall t : triple, (axis3 t 0, axis3 t 1, axis3 t 2) = t) as E by (by intros [[? ?] ?]). rewrite !E.
  destruct (offset_ok k) as [_ ->]. destruct (cluster_ok k Hk) as [_ ->]. pose proof cluster_size_pos. pose proof (Z.div_mod k S). lia.
Qed.

(** The digits of a block: its cluster and its offset in the cluster. *)
Definition cluster_of (b : triple) : triple := (axis3 b 0 / axis3 D 0, axis3 b 1 / axis3 D 1, axis3 b 2 / axis3 D 2).
Definition offset_of (b : triple) : triple := (axis3 b 0 mod axis3 D 0, axis3 b 1 mod axis3 D 1, axis3 b 2 mod axis3 D 2).

Lemma axis_pos axis : idx4 axis -> 1 <= axis3 D axis.
Proof. destruct cluster_pos as (? & ? & ?). by intros [->|[->|[->| ->]]]. Qed.

Lemma block_digits_ok b : in_grid l b -> digits_ok clusters (cluster_of b) /\ digits_ok D (offset_of b).
Proof.
  intros Hb. assert (forall axis, idx4 axis -> 0 <= axis3 b axis / axis3 D axis < axis3 clusters axis /\ 0 <= axis3 b axis mod axis3 D axis < axis3 D axis) as Hd.
  { intros axis Hi. pose proof (grid_split axis Hi) as [Hg Hp]. pose proof (axis_pos axis Hi).
    assert (0 <= axis3 b axis < axis3 G axis) as Hx by (destruct Hb as (? & ? & ?); destruct Hi as [->|[->|[->| ->]]]; done).
    split; [split; [apply Z.div_pos; lia|apply Z.div_lt_upper_bound; lia]|apply Z.mod_pos_bound; lia]. }
  split; split_and!; apply Hd; unfold idx4; auto.
Qed.

Lemma block_index_range b : in_grid l b -> 0 <= block_index b < cta_count l.
Proof.
  intros [H1 H2]%block_digits_ok. rewrite total_split. unfold block_index. pose proof cluster_size_pos.
  apply spell_range in H1, H2. unfold cluster_of, offset_of in *. nia.
Qed.

(** Blocks with one number are one block. *)
Lemma block_index_inj b b' : in_grid l b -> in_grid l b' -> block_index b = block_index b' -> b = b'.
Proof.
  intros [H1 H2]%block_digits_ok [H3 H4]%block_digits_ok E. unfold block_index in E. fold (cluster_of b) (cluster_of b') (offset_of b) (offset_of b') in E.
  pose proof (spell_range _ _ H2) as R2. pose proof (spell_range _ _ H4) as R4.
  destruct (Z.div_mod_unique S (spell clusters (cluster_of b)) (spell clusters (cluster_of b')) (spell D (offset_of b)) (spell D (offset_of b')))
    as [Eq Er]; [by left|by left|lia|].
  apply (spell_inj _ _ _ H1 H3) in Eq. apply (spell_inj _ _ _ H2 H4) in Er. injection Eq as Q0 Q1 Q2. injection Er as R0 R1 R2'.
  apply triple_ext. intros axis Hi. pose proof (axis_pos axis Hi).
  rewrite (Z.div_mod (axis3 b axis) (axis3 D axis)), (Z.div_mod (axis3 b' axis) (axis3 D axis)) by lia.
  destruct Hi as [->|[->|[->| ->]]]; [by rewrite Q0, R0|by rewrite Q1, R1|by rewrite Q2, R2'|].
  change (axis3 b 3) with (axis3 b 2). change (axis3 b' 3) with (axis3 b' 2). change (axis3 D 3) with (axis3 D 2). by rewrite Q2, R2'.
Qed.

(** The walk from the [k]-th CTA on. *)
Lemma walk_at n k : 0 <= k -> k + Z.of_nat n = cta_count l -> (0 < n)%nat -> walk n (walker_at k) = (map (fun i => cta_at (k + Z.of_nat i)) (seq 0 n), exhausted).
Proof.
  revert k. induction n as [|n IH]; intros k Hk He Hn0; [lia|]. cbn [walk]. rewrite Next_at by lia. destruct (Z.ltb_spec (k + 1) (cta_count l)) as [Hlt|Hge].
  - rewrite IH by lia. cbn [seq map]. rewrite Z.add_0_r. f_equal. f_equal. rewrite <- seq_shift, map_map. apply map_ext. intros i. f_equal. lia.
  - assert (n = 0%nat) as -> by lia. cbn. by rewrite Z.add_0_r.
Qed.

Lemma start_at : NewGridWalker l = (let? _ := ValidateLaunch l in Ok (walker_at 0)).
Proof.
  unfold NewGridWalker. destruct (ValidateLaunch l) as [r|e] eqn:E; [|done]. apply (ValidateLaunch_iff l Ht) in E as (_ & _ & ->). cbn [result_bind]. unfold walker_at.
  assert (forall n, triple3 (fun x => 1 <= x) n -> unspell n 0 = (0, 0, 0)) as Hz.
  { intros n Hn0. assert (1 <= volume n) by (destruct Hn0 as (? & ? & ?); unfold volume; nia). apply (spell_inj n); [apply unspell_ok; [done|lia]|by apply zero_digits|].
    rewrite (proj2 (unspell_ok n 0 Hn0 ltac:(lia))). by rewrite zero_spell. }
  unfold cluster_at, offset_at. pose proof cluster_size_pos. rewrite Z.div_0_l, Z.mod_0_l by lia. by rewrite (Hz _ clusters_pos), (Hz _ cluster_pos).
Qed.

Lemma Next_exhausted : Next exhausted = (exhausted, None).
Proof. unfold Next. cbn [exhausted gw_emitted gw_launch normalized with_derived la_TotalCTAs]. by rewrite Z.leb_refl. Qed.
End Walk.

(** The intermediate products of a rank stay below the cluster's volume. *)
Lemma rank_parts n d : digits_ok n d ->
  0 <= axis3 n 1 * axis3 d 2 < volume n /\ 0 <= axis3 d 1 + axis3 n 1 * axis3 d 2 < volume n /\
  0 <= axis3 n 0 * (axis3 d 1 + axis3 n 1 * axis3 d 2) < volume n.
Proof.
  intros H. pose proof (spell_range n d H) as R. revert H R. unfold digits_ok, spell, volume. destruct n as [[n0 n1] n2], d as [[d0 d1] d2]. cbn.
  intros (H0 & H1 & H2) R. assert (0 <= n1 * d2) by nia. assert (d1 + n1 * d2 <= n0 * (d1 + n1 * d2)) by nia. lia.
Qed.

Lemma cta_rank l : launch_valid l -> forall k, ca_ClusterRank (cta_at l k) = k mod volume (la_ClusterDimensions l).
Proof.
  intros V k. pose proof (offset_ok l V k) as [Ho <-]. pose proof (rank_parts _ _ Ho) as (P1 & P2 & P3). pose proof (spell_range _ _ Ho) as R.
  pose proof (cluster_size_pos l V) as HS. unfold cta_at, current_cta, cluster_rank. unfold spell in *.
  cbn [ca_ClusterRank walker_at gw_launch gw_intra normalized with_derived la_ClusterDimensions].
  rewrite (u32_id (axis3 (la_ClusterDimensions l) 1 * _)) by (unfold is_u32; lia). rewrite (u32_id (axis3 (offset_at l k) 1 + _)) by (unfold is_u32; lia).
  rewrite (u32_id (axis3 (la_ClusterDimensions l) 0 * _)) by (unfold is_u32; lia). by rewrite u32_id by (unfold is_u32; lia).
Qed.

(** The blocks of the generated CTAs: all blocks of the grid, each once. *)
Lemma grid_blocks l : input_typed l -> launch_valid l -> let ctas := map (fun i => cta_at l (0 + Z.of_nat i)) (seq 0 (Z.to_nat (cta_count l))) in
  NoDup (map ca_BlockID ctas) /\ forall b, b ∈ map ca_BlockID ctas <-> in_grid l b.
Proof.
  intros Ht V ctas. pose proof (cta_count_nonneg l Ht) as H0. destruct (Z.eq_dec (cta_count l) 0) as [Hz|Hn].
  { subst ctas. rewrite Hz. cbn. split; [constructor|]. intros b. split; [intros Hb; by apply elem_of_nil in Hb|].
    intros Hb. pose proof (spell_range _ _ Hb). unfold cta_count in Hz. lia. }
  assert (forall k c, ctas !! k = Some c <-> (0 <= Z.of_nat k < cta_count l /\ c = cta_at l (Z.of_nat k))) as Hl.
  { intros k c. subst ctas. rewrite list_lookup_fmap. destruct (decide (k < Z.to_nat (cta_count l))%nat) as [Hk|Hk].
    - rewrite lookup_seq_lt by done. cbn. split; [intros [= <-]; split; [lia|done]|by intros [_ ->]].
    - rewrite lookup_seq_ge by lia. cbn. split; [done|intros [? _]; lia]. }
  split.
  - apply NoDup_alt. intros i j b Hi Hj. rewrite list_lookup_fmap, fmap_Some in Hi, Hj. destruct Hi as (c & [Ri ->]%Hl & ->), Hj as (c' & [Rj ->]%Hl & E).
    apply (f_equal (block_index l)) in E. rewrite !(block_index_at l Ht V Hn) in E by done. lia.
  - intros b. split.
    + intros (c & -> & (k & [Rk ->]%Hl)%list_elem_of_lookup)%list_elem_of_fmap. by apply block_in_grid.
    + intros Hb. pose proof (block_index_range l Ht V Hn b Hb) as Hr. apply list_elem_of_fmap. exists (cta_at l (block_index l b)). split.
      * apply (block_index_inj l Ht V Hn); [done|by apply block_in_grid|]. by rewrite (block_index_at l Ht V Hn).
      * apply (list_elem_of_lookup_2 _ (Z.to_nat (block_index l b))), Hl. rewrite Z2Nat.id by lia. done.
Qed.

(** C15: the walker of a valid launch enumerates the grid.  It emits exactly as many
    CTAs as the grid has blocks and then stays exhausted; the blocks are all the
    blocks of the grid, each once.  The [k]-th CTA has id [k]; consecutive groups of
    one cluster share their origin, the ranks in a group count up from zero, and a
    block is its cluster's origin plus the offset its rank spells in the cluster. *)
Theorem grid_walk (l : LaunchState) w ctas w' :
  input_typed l -> NewGridWalker l = Ok w -> walk (Z.to_nat (cta_count l)) w = (ctas, w') ->
  let size := volume (la_ClusterDimensions l) in
  zlen ctas = cta_count l /\ Next w' = (w', None) /\
  NoDup (map ca_BlockID ctas) /\ (forall b, b ∈ map ca_BlockID ctas <-> in_grid l b) /\
  (forall k c, ctas !! k = Some c ->
     ca_ID c = Z.of_nat k /\ ca_ClusterRank c = Z.of_nat k mod size /\ ca_IsFirstOfCluster c = (Z.of_nat k mod size =? 0) /\
     digits_ok (la_ClusterDimensions l) (ca_IntraClusterOffset c) /\ spell (la_ClusterDimensions l) (ca_IntraClusterOffset c) = ca_ClusterRank c /\
     forall axis, idx4 axis -> axis3 (ca_BlockID c) axis = axis3 (ca_ClusterOrigin c) axis + axis3 (ca_IntraClusterOffset c) axis) /\
  (forall j k c c', ctas !! j = Some c -> ctas !! k = Some c' -> Z.of_nat j / size = Z.of_nat k / size -> ca_ClusterOrigin c = ca_ClusterOrigin c').
Proof.
  intros Ht Hw H size. pose proof (cta_count_nonneg l Ht) as H0.
  unfold NewGridWalker in Hw. apply result_bind_ok in Hw as (r & Hv & <-%Ok_inj). apply (ValidateLaunch_iff l Ht) in Hv as Hv'. destruct Hv' as (V & _ & ->).
  destruct (Z.eq_dec (cta_count l) 0) as [Hz|Hn].
  { destruct (grid_blocks l Ht V) as [Hnd Hin]. rewrite Hz in H, Hnd, Hin. injection H as <- <-. split_and!; try done.
    unfold Next. cbn [gw_emitted gw_launch normalized with_derived la_TotalCTAs]. by rewrite Hz. }
  pose proof (start_at l Ht V Hn) as Hs. unfold NewGridWalker in Hs. rewrite Hv in Hs. cbn [result_bind] in Hs. apply Ok_inj in Hs. rewrite Hs in H.
  rewrite (walk_at l Ht V Hn (Z.to_nat (cta_count l)) 0) in H by lia. injection H as <- <-.
  assert (forall k c, map (fun i => cta_at l (0 + Z.of_nat i)) (seq 0 (Z.to_nat (cta_count l))) !! k = Some c <-> (0 <= Z.of_nat k < cta_count l /\ c = cta_at l (Z.of_nat k))) as Hl.
  { intros k c. rewrite list_lookup_fmap. destruct (decide (k < Z.to_nat (cta_count l))%nat) as [Hk|Hk].
    - rewrite lookup_seq_lt by done. cbn. split; [intros [= <-]; split; [lia|done]|by intros [_ ->]].
    - rewrite lookup_seq_ge by lia. cbn. split; [done|intros [? _]; lia]. }
  split_and!.
  - unfold zlen. rewrite length_map, length_seq. lia.
  - by apply Next_exhausted.
  - by apply grid_blocks.
  - by apply grid_blocks.
  - intros k c [Rk ->]%Hl. pose proof (cta_rank l V (Z.of_nat k)) as Er. pose proof (offset_ok l V (Z.of_nat k)) as [Ho Es].
    split; [done|]. split; [done|]. split; [|split; [done|split; [by rewrite Er|]]].
    + change (ca_IsFirstOfCluster (cta_at l (Z.of_nat k))) with (ca_ClusterRank (cta_at l (Z.of_nat k)) =? 0). by rewrite Er.
    + intros axis Hi. destruct (block_at l Ht V Hn (Z.of_nat k) axis Rk Hi) as (-> & _). by destruct Hi as [->|[->|[->| ->]]].
  - intros j k c c' [Rj ->]%Hl [Rk ->]%Hl E. unfold cta_at, current_cta. cbn [ca_ClusterOrigin walker_at gw_origin]. unfold cluster_at. fold size. by rewrite E.
Qed.

Example grid_walk_witness :
  exists w ctas w', NewGridWalker example_input = Ok w /\ walk 24 w = (ctas, w') /\ NoDup (map ca_BlockID ctas) /\
    (ca_BlockID <$> ctas !! 5%nat) = Some (3, 0, 0).
Proof.
  assert (is_ok (NewGridWalker example_input) = true) as Hok by (vm_compute; reflexivity).
  destruct (NewGridWalker example_input) as [w|] eqn:Ew; [|discriminate Hok]. destruct (walk 24 w) as [ctas w'] eqn:E.
  destruct (grid_walk example_input w ctas w' example_input_typed Ew E) as (_ & _ & Hnd & _).
  exists w, ctas, w'. split; [exact Ew || reflexivity|]. split; [exact E|]. split; [exact Hnd|].
  assert (match NewGridWalker example_input with Ok w => ca_BlockID <$> (walk 24 w).1 !! 5%nat | Err _ => None end = Some (3, 0, 0)) as Hb by (vm_compute; reflexivity).
  by rewrite Ew, E in Hb.
Defined.
