(* ===== verification/CoreFrame.v ===== *)
(** * What an execution leaves alone

    Stepping a core and completing an event of a barrier move no CTA in or out: the
    attachment, the pending-work provider, the mode of the CTA owner and the ids of its
    residents stay.  Admission and reclaim are the only operations of a kernel that
    change them. *)

From S2P Require Import Prelude IsaTypes Catalog Decode Integer System Custom Softfloat Float Memory WarpState Apply ApplyInvariant View EvaluateTyped WarpExec WarpCorrect.
From S2P Require Import Cta CtaInvariant CtaTyped CtaMemory Barrier BarrierSpec Launch LaunchSpec Core CoreStep Scheduling Admission CoreInvariant CoreBarrier CoreCoordinate CoreStepInvariant.

#[local] Open Scope Z_scope.
#[local] Open Scope go_scope.

(** ** The relation *)

Record manager_frame (m m' : CTAManager) : Prop := {
  mf_dynamic : cm_dynamic m' = cm_dynamic m;
  mf_sealed : cm_sealed m' = cm_sealed m;
  mf_barriers : is_Some (cm_barriers m) -> is_Some (cm_barriers m');
  mf_residents : dom (cm_ctas m') = dom (cm_ctas m)
}.

#[export] Instance manager_frame_preorder : PreOrder manager_frame.
Proof.
  split; [by intros m; split|]. intros m1 m2 m3 [] []. split; [congruence|congruence|tauto|congruence].
Qed.

Create HintDb core_frame.

Section Frame.
Context {G : Type}.
Implicit Type c : Core G.

Record core_frame c c' : Prop := {
  cf_attached : co_attached c' = co_attached c;
  cf_pendingWork : co_pendingWork c' = co_pendingWork c;
  cf_manager : manager_frame (co_ctas c) (co_ctas c')
}.

#[export] Instance core_frame_preorder : PreOrder core_frame.
Proof. split; [by intros c; split|]. intros c1 c2 c3 [? ? ?] [? ? ?]. split; [congruence|congruence|by etrans]. Qed.

(** The updates that stay within the frame. *)
Lemma frame_update id f c : core_frame c (update_slot id f c).
Proof. by split. Qed.
Lemma frame_owners h c : core_frame c (set_owners h c).
Proof. by split. Qed.
Lemma frame_next n c : core_frame c (set_next n c).
Proof. by split. Qed.
Lemma frame_manager m c : manager_frame (co_ctas c) m -> core_frame c (set_manager m c).
Proof. by split. Qed.
Lemma frame_fold {A} (f : Core G -> A -> Core G) xs c : (forall c x, core_frame c (f c x)) -> core_frame c (fold_left f xs c).
Proof. intros Hf. revert c. induction xs as [|x xs IH]; intros c; cbn; [done|]. etrans; [apply Hf|apply IH]. Qed.

Lemma commit_frame m s : manager_frame m (Barrier_Commit m s).1.1.
Proof. unfold Barrier_Commit. destruct (bst_committed s); [done|]. cbv zeta. destruct (negb _); [done|]. split; by cbn. Qed.

Lemma finished_frame m w : manager_frame m (observeWarpFinished m w).1.
Proof.
  unfold observeWarpFinished. repeat case_match; try done. cbn [fst]. split; try done. cbn. rewrite dom_insert_L.
  assert (wk_ctaID w0 ∈ dom (cm_ctas m)) by (apply elem_of_dom; eauto). set_solver.
Qed.

#[local] Hint Resolve frame_update frame_owners frame_next frame_manager commit_frame finished_frame : core_frame.

(** ** Steps *)

Lemma refresh_frame context c : core_frame c (refreshFunctionalWaits c context).1.
Proof.
  assert (forall active ws c, core_frame c (refreshSlots context active c ws).1) as Hloop.
  { intros active ws. induction ws as [|id ws IH]; intros c0; cbn [refreshSlots]; [done|].
    assert (core_frame c0 (refreshSlot context active c0 id).1) as H1 by (unfold refreshSlot; repeat case_match; cbn; auto with core_frame; done).
    destruct (refreshSlot context active c0 id) as [c1 [[]|e]]; [|done]. etrans; [apply H1|apply IH]. }
  unfold refreshFunctionalWaits. destruct (activeWarpMask c) as [active|e]; [|done]. pose proof (Hloop active ids c) as H.
  by destruct (refreshSlots context active c ids) as [c1 [[]|e]].
Qed.

Lemma spawn_frame c id active before r : core_frame c (coordinateWarpSpawn c id active before r).1.1.
Proof.
  unfold coordinateWarpSpawn. destruct (spawnPlan c id active before r) as [[[transaction targets]|]|e]; [|apply frame_update|done].
  destruct (Spawn_Commit (co_owners c) transaction) as [[h s] [[]|e]]; [|apply frame_owners]. cbn [fst].
  etrans; [apply (frame_owners h)|]. etrans; [|apply frame_update]. apply frame_fold. intros. apply frame_update.
Qed.

Lemma sync_frame c id pending r : core_frame c (coordinateWarpSync c id pending r).1.1.
Proof.
  unfold coordinateWarpSync. destruct (syncPlan c id pending r) as [[[w stage]|]|e]; [|apply frame_update|done]. cbv zeta.
  destruct (CommitAfterExternal w stage) as [[w' s] [[]|e]]; [|apply frame_owners]. cbn [fst]. etrans; [apply frame_owners|apply frame_update].
Qed.

Lemma releases_frame c id b : core_frame c (applyBarrierReleases c id b).
Proof. apply frame_fold. intros c0 x. case_match; auto with core_frame. done. Qed.

Lemma barrier_frame c id w view lsu r : core_frame c (coordinateBarrier c id w view lsu r).1.1.1.
Proof.
  unfold coordinateBarrier. destruct (r_Decoded r) as [d|]; [|done]. destruct (r_Effects r) as [effects|]; [|done].
  destruct lsu; [case_match; [apply frame_update|done]|]. destruct (barrierPlan c id w view (d_Name d) effects) as [[[effect stage] request]|e]; [|done]. cbv zeta.
  assert (manager_frame (co_ctas c) (CommitForwardedWithExternal w (co_ctas c) stage
    (fun '(w, m) => let '(m', _, res) := Barrier_Commit m request in (w, m', res))).1.1.2) as Hm.
  { unfold CommitForwardedWithExternal. pose proof (commit_frame (co_ctas c) request) as Hb.
    destruct (Barrier_Commit (co_ctas c) request) as [[m' s] [[]|e]]; repeat case_match; try done; naive_solver. }
  destruct (CommitForwardedWithExternal w (co_ctas c) stage _) as [[[w' m] s] [[]|e]]; cbn [fst snd] in *.
  - assert (core_frame c (set_manager m (set_owners (<[sl_owner (slot_at c id) := w']> (co_owners c)) c))) as H1
      by (etrans; [apply frame_owners|]; by apply frame_manager).
    etrans; [apply H1|]. etrans; [apply releases_frame|]. case_match; apply frame_update.
  - etrans; [apply frame_owners|]. by apply frame_manager.
Qed.

Lemma coordinate_frame c id context active before view old r : core_frame c (coordinate c id context active before view old r).1.1.1.
Proof.
  unfold coordinate. destruct (r_Outcome r); try done. destruct (r_Decoded r) as [d|]; [|done].
  destruct (d_Name d == "wspawn").
  { pose proof (spawn_frame c id active before r) as H. destruct (coordinateWarpSpawn c id active before r) as [[c' r'] [[]|e]]; [done|]. etrans; [apply H|apply frame_update]. }
  destruct (d_Name d == "wsync").
  { pose proof (sync_frame c id (rc_PendingPriorWork context) r) as H. destruct (coordinateWarpSync _ _ _ _) as [[c' r'] [[]|e]]; [done|]. etrans; [apply H|apply frame_update]. }
  destruct (_ || _ || _); [|done]. destruct view as [view|]; [|apply frame_update].
  pose proof (barrier_frame c id (qget before id) view (rc_PendingLSU context) r) as H.
  destruct (coordinateBarrier _ _ _ _ _ _) as [[[c' r'] t] [[]|e]]; [done|]. etrans; [apply H|apply frame_update].
Qed.

Lemma settle_frame c id r : core_frame c (settle c id r).1.
Proof.
  unfold settle. case_match; [|repeat case_match; cbn; auto with core_frame; done]. cbv zeta.
  set (c1 := update_slot id (schedule SlotFinished BlockNone) c). destruct (co_attached c1); [|apply frame_update].
  pose proof (finished_frame (co_ctas c1) id) as H1. destruct (observeWarpFinished (co_ctas c1) id) as [m [[]|e]]; cbn [fst] in *.
  - etrans; [apply (frame_update id (schedule SlotFinished BlockNone))|by apply frame_manager].
  - etrans; [|apply frame_update]. etrans; [apply (frame_update id (schedule SlotFinished BlockNone))|by apply frame_manager].
Qed.

(** ** The outcome of a step *)

Lemma deferred_outcome c owner r : r_Outcome r <> OutcomeFinished -> r_Outcome (completeDeferredResult c owner r) <> OutcomeFinished.
Proof. unfold completeDeferredResult. by destruct (deref c owner). Qed.

Lemma coordinate_outcome c id context active before view old r : r_Outcome r <> OutcomeFinished ->
  r_Outcome (coordinate c id context active before view old r).1.1.2 <> OutcomeFinished.
Proof.
  intros Hr. unfold coordinate. destruct (r_Outcome r) eqn:Ho; try done; try (cbn; congruence). destruct (r_Decoded r) as [d|] eqn:Hd; [|cbn; congruence].
  assert (r_Outcome r <> OutcomeFinished) as Hr' by congruence.
  destruct (d_Name d == "wspawn").
  { unfold coordinateWarpSpawn. destruct (spawnPlan c id active before r) as [[[transaction targets]|]|e]; try done. destruct (Spawn_Commit _ _) as [[h s] [[]|e]]; [|done].
    cbn [fst snd]. repeat case_match; simplify_eq; cbn; by apply deferred_outcome. }
  destruct (d_Name d == "wsync").
  { unfold coordinateWarpSync. destruct (syncPlan _ _ _ _) as [[[w stage]|]|e]; try done. cbv zeta. destruct (CommitAfterExternal w stage) as [[w' s] [[]|e]]; [|done]. by apply deferred_outcome. }
  destruct (_ || _ || _); [|done]. destruct view as [view|]; [|done]. unfold coordinateBarrier. rewrite Hd. destruct (r_Effects r) as [effects|]; [|done].
  destruct (rc_PendingLSU context); [by destruct (_ && _)|]. destruct (barrierPlan _ _ _ _ _ _) as [[[effect stage] request]|e]; [|done]. cbv zeta.
  destruct (CommitForwardedWithExternal _ _ _ _) as [[[w' m] s] [[]|e]]; [|done]. by apply deferred_outcome.
Qed.

Lemma routed_memory_outcome {X} (memory : DataService X) w x r d requests expected : r_Outcome (completeMemory memory w x r d requests expected).2 <> OutcomeFinished.
Proof. unfold completeMemory, failedStore. repeat case_match; simplify_eq; done. Qed.

Lemma completePacked_outcome {X} (memory : DataService X) w x r d requests expected : r_Outcome (Warp_completePackedLoad memory w x r d requests expected).2 <> OutcomeFinished.
Proof. unfold Warp_completePackedLoad. repeat case_match; simplify_eq; done. Qed.

Lemma stepBody_outcome `{SoftFloatLib} {X} (sv : Warp X) w x context : w_lifecycle w = WarpRunning -> r_Outcome (stepBody sv w x context).2 <> OutcomeFinished.
Proof.
  intros Hl. unfold stepBody. rewrite Hl, bool_decide_eq_false_2 by done. cbv zeta. destruct (_ || _); [done|]. destruct (_ <>? 0); [done|].
  destruct (is_Read _ _ _ _) as [bytes|e]; [|done]. cbv zeta. unfold stepInstruction. destruct (Decode _) as [d|e]; [|done]. cbv zeta. destruct (Evaluate w d context) as [effects|e]; [|done].
  unfold stepEffects. destruct (StageEffects w effects) as [stage|e]; [|done]. destruct (negb (length (Faults effects) =? 0)%nat); [done|].
  destruct (negb (length (MemoryRequests effects) =? 0)%nat); [destruct (wx_memory sv); [apply routed_memory_outcome|done]|].
  destruct (negb (length (PackedLoads effects) =? 0)%nat); [destruct (wx_memory sv); [apply completePacked_outcome|done]|].
  unfold commitLocal. repeat case_match; simplify_eq; done.
Qed.

Context (I : G -> Prop) {L : SoftFloatLib} {HL : SoftFloatLaws L}.
Notation core_ok := (core_wf I).

Lemma execute_frame c id w context : core_ok c -> idx4 id -> co_owners c !! sl_owner (slot_at c id) = Some w -> context_typed context ->
  core_frame c (execute c id w context).1.
Proof.
  intros Hc Hid Ho Hctx. pose proof (cr_slots I c Hc id Hid) as Hs. pose proof (cr_owners I c Hc _ _ Ho) as Hw.
  destruct (cr_ctas I c Hc) as (Hcta & _ & _). set (m := co_ctas c) in *. set (g := co_global c) in *.
  assert (route_inv I m (m, g)) as Hinv by (split; [split; [done|by destruct m]|apply (cr_global I c Hc)]).
  set (sv := services (sl_executor (slot_at c id))).
  assert (forall memory, wx_memory sv = Some memory -> service_keeps memory (route_inv I m)) as Hsv
    by (intros memory Hm; eapply (data_sound I); [apply (sw_memory I c id Hs)|exact Hm]).
  pose proof (stepBody_wf sv (route_inv I m) w (m, g) context Hsv Hw Hctx Hinv) as [_ Hbody].
  unfold execute. fold sv m g. unfold Step. destruct (stepBody sv w (m, g) context) as [[w' [m' g']] r]. cbn [fst snd] in *. destruct Hbody as [[_ E] _]. cbn [fst snd] in E.
  split; try done. cbn. rewrite E. by split.
Qed.

Lemma stepWarp_frame c id context : core_ok c -> idx4 id -> context_typed context -> core_frame c (stepWarp c id context).1.1.
Proof.
  intros Hc Hid Hctx. unfold stepWarp. destruct (stepContext c id context) as [[[[context' active] before] view]|e] eqn:Ectx; [|done].
  destruct (stepContext_inv I c id context context' active before view Hc Hid Hctx Ectx) as (Hctx' & Ho & _). cbv zeta.
  set (c0 := set_next ((id + 1) mod FrozenWarpCount) c). assert (core_ok c0) as Hc0 by (apply next_wf; [done|by apply Z.mod_pos_bound]).
  pose proof (execute_frame c0 id (qget before id) context' Hc0 Hid Ho Hctx') as Hex. destruct (execute c0 id (qget before id) context') as [c1 r]. cbn [fst] in Hex.
  assert (core_frame c c1) as H1 by (etrans; [apply (frame_next ((id + 1) mod FrozenWarpCount))|exact Hex]).
  pose proof (coordinate_frame c1 id context' active before view (slot_at c0 id) r) as Hco.
  destruct (coordinate c1 id context' active before view (slot_at c0 id) r) as [[[c2 r2] t] [[]|e]]; cbn [fst snd] in *; [|by etrans].
  pose proof (settle_frame c2 id r2) as Hst. assert (core_frame c (settle c2 id r2).1) as H2 by (etrans; [apply H1|]; by etrans).
  destruct (settle c2 id r2) as [c3 [[]|e]]; [|done]. by destruct (validateSlot c3 id).
Qed.

Lemma Core_Step_frame c context : core_ok c -> context_typed context -> core_frame c (Core_Step c context).1.1.
Proof.
  intros Hc Hctx. unfold Core_Step. rewrite (validate_ok I c Hc). pose proof (refresh_frame context c) as H1. pose proof (refresh_wf I c context Hc) as H2.
  destruct (refreshFunctionalWaits c context) as [c1 [[]|e]]; [|done]. destruct (selectRunnable c1) as [id|] eqn:Es; [|done].
  destruct (select_runnable c1 id Es) as [Hid _]. etrans; [apply H1|]. by apply stepWarp_frame.
Qed.

(** An executed step reports an outcome other than an already finished warp. *)
Lemma Core_Step_result c context : core_ok c -> context_typed context -> let '(_, step, _) := Core_Step c context in
  sr_Outcome step = StepExecuted -> exists r, sr_WarpResult step = Some r /\ r_Outcome r <> OutcomeFinished.
Proof.
  intros Hc Hctx. unfold Core_Step. rewrite (validate_ok I c Hc). pose proof (refresh_wf I c context Hc) as H1.
  destruct (refreshFunctionalWaits c context) as [c1 [[]|e]]; cbn [fst] in H1; [|done]. destruct (selectRunnable c1) as [id|] eqn:Es; [|done].
  destruct (select_runnable c1 id Es) as [Hid Hrun]. unfold stepWarp. destruct (stepContext c1 id context) as [[[[context' active] before] view]|e] eqn:Ectx; [|done].
  destruct (stepContext_inv I c1 id context context' active before view H1 Hid Hctx Ectx) as (_ & Ho & _). cbv zeta.
  destruct (sw_owner I c1 id (cr_slots I c1 H1 id Hid)) as (w & Hw & _ & Hlc). rewrite Ho in Hw. injection Hw as Hw.
  destruct (consistent_runnable _ _ Hrun Hlc) as (_ & _ & Hwl & _). rewrite <- Hw in Hwl. set (c2 := set_next _ c1).
  assert (r_Outcome (execute c2 id (qget before id) context').2 <> OutcomeFinished) as Hr.
  { unfold execute, Step. pose proof (stepBody_outcome (services (sl_executor (slot_at c2 id))) (qget before id) (co_ctas c2, co_global c2) context' Hwl) as Hb.
    destruct (stepBody _ _ _ _) as [[w' [m g]] r]. exact Hb. }
  destruct (execute c2 id (qget before id) context') as [c3 r]. cbn [snd] in Hr.
  pose proof (coordinate_outcome c3 id context' active before view (slot_at c2 id) r Hr) as Hco.
  destruct (coordinate c3 id context' active before view (slot_at c2 id) r) as [[[c4 r'] t] [[]|e]]; cbn [fst snd] in Hco; [|by eexists].
  destruct (settle c4 id r') as [c5 [[]|e]]; [|by eexists]. destruct (validateSlot c5 id); [by eexists|done].
Qed.

Lemma event_frame c key : core_frame c (CompleteBarrierEvent c key).1.
Proof.
  unfold CompleteBarrierEvent. destruct (let? _ := validate c in _) as [stage|e]; [|done]. pose proof (commit_frame (co_ctas c) stage) as Hm.
  destruct (Barrier_Commit (co_ctas c) stage) as [[m s] [[]|e]]; cbn [fst] in *; [|by apply frame_manager]. etrans; [by apply (frame_manager m)|apply releases_frame].
Qed.

(** ** Admission and reclaim *)

Lemma admit_frame c configs : let '(c', r) := AdmitCTACluster c configs in
  co_attached c' = co_attached c /\ co_pendingWork c' = co_pendingWork c /\ cm_dynamic (co_ctas c') = cm_dynamic (co_ctas c) /\
  cm_sealed (co_ctas c') = cm_sealed (co_ctas c) /\ cm_barriers (co_ctas c') = cm_barriers (co_ctas c).
Proof.
  pose proof (AdmitCTACluster_cases c configs) as H. destruct (AdmitCTACluster c configs) as [c' [snapshots|e]]; [|by subst].
  destruct H as (warps & adm & _ & _ & _ & _ & _ & _ & _ & Had). destruct (ad_rest _ _ _ Had) as (_ & -> & -> & _). rewrite (ad_manager _ _ _ Had).
  destruct (install_all_rest (as_candidates adm) (co_ctas c)) as (E1 & E2 & E3 & _). done.
Qed.

Lemma reclaim_frame c id : core_ok c -> let '(c', r) := ReclaimCTA c id in
  co_attached c' = co_attached c /\ co_pendingWork c' = co_pendingWork c /\ cm_dynamic (co_ctas c') = cm_dynamic (co_ctas c) /\
  cm_sealed (co_ctas c') = cm_sealed (co_ctas c) /\ (is_Some (cm_barriers (co_ctas c)) -> is_Some (cm_barriers (co_ctas c'))) /\
  cm_ctas (co_ctas c') = if r then delete id (cm_ctas (co_ctas c)) else cm_ctas (co_ctas c).
Proof.
  intros Hc. destruct (cr_ctas I c Hc) as (Hcta & _ & _). pose proof (ReclaimCTA_cases c id Hcta) as H. destruct (ReclaimCTA c id) as [c' [s|e]]; [|by subst].
  destruct H as (cta & records & completion & _ & _ & _ & _ & _ & _ & _ & _ & -> & _). cbn. by split_and!.
Qed.
End Frame.
