(* ===== verification/ClusterAdmission.v ===== *)
(** * A validated cluster can be admitted

    The CTAs a grid walker generates for a validated launch pass every check of the
    admission: on a consistent core it succeeds or reports that warps, slots or local
    memory are taken, and on a core without residents it succeeds. *)

From S2P Require Import Prelude IsaTypes Integer System Custom Memory WarpState Apply ApplyInvariant View WarpExec WarpCorrect.
From S2P Require Import Cta CtaInvariant CtaThreads CtaTyped CtaMemory Barrier BarrierSpec Launch LaunchSpec Core Scheduling Admission CoreInvariant Grid GridSpec.

#[local] Open Scope Z_scope.
#[local] Open Scope go_scope.

(** ** The warps picked for one CTA *)
Section Pick.
Context {G : Type} (c : Core G).

Definition available (taken : WarpMask) (id : Z) : bool :=
  negb (WarpMask_Active taken id) && (sl_lifecycle (slot_at c id) ==. SlotInactive) && negb (sl_participated (slot_at c id)).

Definition free_warps (taken : WarpMask) : list Z := List.filter (available taken) ids.

Lemma mark_warp mask k j : idx4 k -> idx4 j -> WarpMask_Active (mask .| u8 (1 << k)) j = WarpMask_Active mask j || (k =? j).
Proof.
  intros Hk Hj. rewrite !WarpMask_Active_testbit by done. apply idx4_range in Hk, Hj. unfold u8.
  rewrite Z.lor_spec, testbit_mod_pow2, Z.shiftl_1_l, Z.pow2_bits_eqb by lia. destruct (Z.ltb_spec j 8); [|lia]. by cbn [andb].
Qed.

(** One turn of the selection loop, by the availability of the warp. *)
Definition pick (required : Z) (acc : list Z * WarpMask) (id : Z) : list Z * WarpMask :=
  if (Z.of_nat (length acc.1) <? required) && available acc.2 id then (acc.1 ++ [id], acc.2 .| u8 (1 << id)) else acc.

Lemma pickWarps_pick taken required : pickWarps c taken required = fold_left (pick required) ids ([], taken).
Proof.
  unfold pickWarps. generalize (@nil Z, taken). generalize ids. intros ws. induction ws as [|w ws IH]; intros acc; cbn [fold_left]; [done|]. rewrite IH. f_equal.
  unfold pick, available. by rewrite !andb_assoc.
Qed.

Lemma pick_loop required ws acc taken : NoDup ws -> Forall idx4 ws ->
  exists taken', let picked := take (Z.to_nat required - length acc) (List.filter (available taken) ws) in
  fold_left (pick required) ws (acc, taken) = (acc ++ picked, taken') /\
  forall j, idx4 j -> WarpMask_Active taken' j = WarpMask_Active taken j || bool_decide (j ∈ picked).
Proof.
  revert acc taken. induction ws as [|w ws IH]; intros acc taken Hd Hi; cbv zeta; cbn [fold_left List.filter].
  { exists taken. rewrite take_nil, app_nil_r. split; [done|]. intros j _. rewrite bool_decide_eq_false_2 by apply not_elem_of_nil. by rewrite orb_false_r. }
  apply NoDup_cons in Hd as [Hn Hd]. apply Forall_cons in Hi as [Hw Hi]. assert (pick required (acc, taken) w = if (Z.of_nat (length acc) <? required) && available taken w then (acc ++ [w], (taken .| u8 (1 << w)) : WarpMask) else (acc, taken)) as -> by done.
  destruct (available taken w) eqn:Ea.
  - destruct (Z.ltb_spec (Z.of_nat (length acc)) required) as [Hlt|Hge]; cbn [andb].
    + destruct (IH (acc ++ [w]) (taken .| u8 (1 << w)) Hd Hi) as (taken' & E & Ht).
      assert (List.filter (available (taken .| u8 (1 << w))) ws = List.filter (available taken) ws) as Ef.
      { apply filter_ext_in. intros x Hx. unfold available. rewrite mark_warp; [|done|rewrite Forall_forall in Hi; apply Hi; by apply list_elem_of_In].
        destruct (Z.eqb_spec w x) as [->|]; [exfalso; by apply Hn, list_elem_of_In|by rewrite orb_false_r]. }
      rewrite Ef, length_app in E, Ht. cbn [length] in E, Ht.
      destruct (Z.to_nat required - length acc)%nat as [|n] eqn:En; [lia|]. replace (Z.to_nat required - (length acc + 1))%nat with n in E, Ht by lia.
      exists taken'. rewrite E, <- app_assoc, firstn_cons. split; [done|]. intros j Hj. rewrite Ht, mark_warp by done.
      rewrite <- orb_assoc. f_equal. rewrite (bool_decide_ext (j ∈ w :: _) (j = w \/ j ∈ take n (List.filter (available taken) ws))) by apply elem_of_cons.
      rewrite bool_decide_or. f_equal. destruct (Z.eqb_spec w j); [symmetry; by apply bool_decide_eq_true_2|symmetry; apply bool_decide_eq_false_2; congruence].
    + assert (Z.to_nat required - length acc = 0)%nat as E0 by lia. destruct (IH acc taken Hd Hi) as (taken' & E & Ht). rewrite E0 in *. cbn [take] in *. by exists taken'.
  - rewrite andb_false_r. destruct (IH acc taken Hd Hi) as (taken' & E & Ht). exists taken'. by split.
Qed.

Lemma ids_NoDup : NoDup ids.
Proof. apply (bool_decide_unpack _). reflexivity. Qed.
Lemma ids_Forall : Forall idx4 ids.
Proof. apply Forall_forall. intros j. apply ids_idx4. Qed.

Lemma pickWarps_spec taken required : exists taken', let picked := take (Z.to_nat required) (free_warps taken) in
  pickWarps c taken required = (picked, taken') /\ forall j, idx4 j -> WarpMask_Active taken' j = WarpMask_Active taken j || bool_decide (j ∈ picked).
Proof.
  destruct (pick_loop required ids [] taken ids_NoDup ids_Forall) as (taken' & E & Ht). exists taken'. cbn [length] in *. rewrite Nat.sub_0_r in *. cbv zeta.
  by rewrite pickWarps_pick.
Qed.

(** The selection after some CTAs: [n] warps each, all different and unused. *)
Record selection (n : nat) (ws : list (list Z)) (taken : WarpMask) : Prop := {
  sc_sizes : Forall (fun l => length l = n) ws;
  sc_distinct : NoDup (concat ws);
  sc_unused : Forall (fun w => idx4 w /\ sl_lifecycle (slot_at c w) = SlotInactive /\ sl_participated (slot_at c w) = false) (concat ws);
  sc_taken : forall j, idx4 j -> WarpMask_Active taken j = bool_decide (j ∈ concat ws)
}.

Lemma selection_start n : selection n [] 0.
Proof. split; cbn; try constructor. intros j _. unfold WarpMask_Active. rewrite Z.land_0_l, andb_false_r. by rewrite bool_decide_eq_false_2 by apply not_elem_of_nil. Qed.

Lemma free_warps_elem taken j : j ∈ free_warps taken <-> idx4 j /\ WarpMask_Active taken j = false /\ sl_lifecycle (slot_at c j) = SlotInactive /\ sl_participated (slot_at c j) = false.
Proof.
  unfold free_warps, available. rewrite list_elem_of_In, filter_In, <- list_elem_of_In, ids_idx4, !andb_true_iff, !negb_true_iff, bool_decide_eq_true. tauto.
Qed.

Lemma selection_next n ws taken p taken' : selection n ws taken -> pickWarps c taken (Z.of_nat n) = (p, taken') -> length p = n -> selection n (ws ++ [p]) taken'.
Proof.
  intros [H1 H2 H3 H4] E Hl. destruct (pickWarps_spec taken (Z.of_nat n)) as (t & E' & Ht). rewrite E' in E. rewrite Nat2Z.id in E, Ht. injection E as E <-. rewrite E in Ht.
  assert (forall j, j ∈ p -> j ∈ free_warps taken) as Hp by (intros j Hj; rewrite <- E in Hj; by eapply elem_of_list_take_weaken || (eapply elem_of_subseteq; [|exact Hj]; apply list_subseteq_take) || (rewrite <- (take_drop n (free_warps taken)); apply elem_of_app; by left)).
  assert (NoDup p) as Hd.
  { rewrite <- E. assert (NoDup (free_warps taken)) as Hf by (apply NoDup_ListNoDup, List.NoDup_filter, NoDup_ListNoDup, ids_NoDup).
    rewrite <- (take_drop n (free_warps taken)) in Hf. by apply NoDup_app in Hf as (? & _). }
  split; rewrite ?concat_app; cbn [concat]; rewrite ?app_nil_r.
  - apply Forall_app. by split; [|constructor].
  - apply NoDup_app. split; [done|]. split; [|done]. intros x Hx Hin%Hp%free_warps_elem. destruct Hin as (Hi & Ha & _).
    rewrite H4 in Ha by done. by apply bool_decide_eq_false_1 in Ha.
  - apply Forall_app. split; [done|]. apply Forall_forall. intros x (Hi & _ & Hl' & Hpt)%Hp%free_warps_elem. done.
  - intros j Hj. rewrite Ht, H4 by done. rewrite (bool_decide_ext (j ∈ concat ws ++ p) (j ∈ concat ws \/ j ∈ p)) by apply elem_of_app. by rewrite bool_decide_or.
Qed.

(** When every slot is unused, the warps not selected yet are free. *)
Lemma free_count n ws taken : (forall j, idx4 j -> sl_lifecycle (slot_at c j) = SlotInactive /\ sl_participated (slot_at c j) = false) ->
  selection n ws taken -> (length (free_warps taken) + length ws * n = 4)%nat.
Proof.
  intros Hall [H1 H2 H3 H4]. assert (length (concat ws) = length ws * n)%nat as <-.
  { clear -H1. induction H1 as [|x xs Hx H IH]; cbn; [done|]. rewrite length_app. lia. }
  rewrite <- length_app. transitivity (length ids); [|done]. apply Permutation_length, NoDup_Permutation; [|apply ids_NoDup|].
  - apply NoDup_app. split_and!; [apply NoDup_ListNoDup, List.NoDup_filter, NoDup_ListNoDup, ids_NoDup| |done].
    intros x (Hi & Ha & _)%free_warps_elem Hx. rewrite H4 in Ha by done. by apply bool_decide_eq_false_1 in Ha.
  - intros x. rewrite elem_of_app, free_warps_elem, ids_idx4. split; [intros [[]|Hx]; [done|]; rewrite Forall_forall in H3; by apply H3|].
    intros Hx. destruct (decide (x ∈ concat ws)); [by right|left]. rewrite H4 by done. split_and!; [done|by apply bool_decide_eq_false_2|apply Hall, Hx|apply Hall, Hx].
Qed.
End Pick.

(** ** The configurations of a generated cluster *)
Section Cluster.
Context (l : LaunchState) (Ht : input_typed l) (V : launch_valid l) (Hn : cta_count l <> 0).
Context (k : Z) (Hk : 0 <= k) (Hstart : k mod volume (la_ClusterDimensions l) = 0) (Hend : k + volume (la_ClusterDimensions l) <= cta_count l).

Notation D := (la_ClusterDimensions l).
Notation S := (volume (la_ClusterDimensions l)).

Definition member_config (i : nat) : CTAConfig := CoreConfig (cta_at l (k + Z.of_nat i)).

Lemma in_cluster i : Z.of_nat i < S -> (k + Z.of_nat i) mod S = Z.of_nat i /\ (k + Z.of_nat i) / S = k / S /\ 0 <= k + Z.of_nat i < cta_count l.
Proof.
  intros Hi. pose proof (Z.div_mod k S ltac:(lia)). split_and!; [| |lia|lia].
  - symmetry. apply (Z.mod_unique_pos _ _ (k / S)); lia.
  - symmetry. apply (Z.div_unique_pos _ _ _ (Z.of_nat i)); lia.
Qed.

Lemma cluster_offset_unspell rank : 0 <= rank < S -> cluster_offset rank D = unspell D rank.
Proof.
  intros Hr. pose proof (cluster_pos l V) as (H0 & H1 & H2). pose proof (cluster_size_pos l V). unfold cluster_offset, unspell.
  assert (0 < axis3 D 0 * axis3 D 1 <= S) by (unfold volume in *; nia).
  rewrite u32_id by (unfold is_u32; lia). by rewrite Z.div_div by lia.
Qed.

Lemma required_ok i : required_warps (member_config i) = cta_warps l.
Proof. apply (warps_ok l), V. Qed.

Lemma rank_flag i : Z.of_nat i < S -> cc_IsFirstOfCluster (member_config i) = (Z.of_nat i =? 0).
Proof.
  intros Hi. change (cc_IsFirstOfCluster (member_config i)) with (ca_ClusterRank (cta_at l (k + Z.of_nat i)) =? 0).
  rewrite (cta_rank l V). by destruct (in_cluster i Hi) as (-> & _).
Qed.

(** Block ids relative to the cluster's origin. *)
Lemma block_offset i axis : Z.of_nat i < S -> idx4 axis ->
  axis3 (cc_BlockID (member_config i)) axis - axis3 (cluster_offset (Z.of_nat i) D) axis = axis3 (cluster_at l k) axis * axis3 D axis /\
  axis3 (cluster_offset (Z.of_nat i) D) axis <= axis3 (cc_BlockID (member_config i)) axis.
Proof.
  intros Hi Ha. destruct (in_cluster i Hi) as (Em & Ed & Hr). destruct (block_at l Ht V Hn _ axis Hr Ha) as (E & Hc & Ho).
  change (cc_BlockID (member_config i)) with (ca_BlockID (cta_at l (k + Z.of_nat i))). rewrite E. rewrite cluster_offset_unspell by lia.
  assert (offset_at l (k + Z.of_nat i) = unspell D (Z.of_nat i)) as Eo by (unfold offset_at; by rewrite Em). rewrite Eo in *.
  assert (cluster_at l (k + Z.of_nat i) = cluster_at l k) as Ec by (unfold cluster_at; by rewrite Ed). rewrite Ec in *.
  pose proof (axis_pos l V axis Ha). split; [lia|nia].
Qed.

Lemma origin_ok i : Z.of_nat i < S -> foldM (axis_origin (member_config i) (member_config 0) (Z.of_nat i) D) tt axes = Ok tt.
Proof.
  intros Hi. assert (forall axis, idx4 axis -> axis_origin (member_config i) (member_config 0) (Z.of_nat i) D tt axis = Ok tt) as H.
  { intros axis Ha. unfold axis_origin. cbv zeta. destruct (block_offset i axis Hi Ha) as [E Hle].
    destruct (block_offset 0 axis ltac:(lia) Ha) as [E0 _]. change (Z.of_nat 0) with 0 in E0. rewrite E, E0, Z.eqb_refl.
    destruct (Z.ltb_spec (axis3 (cc_BlockID (member_config i)) axis) (axis3 (cluster_offset (Z.of_nat i) D) axis)); [lia|done]. }
  unfold axes. cbn [foldM]. rewrite (H 0) by (by left). cbn [result_bind]. rewrite (H 1) by (by right; left). cbn [result_bind]. by rewrite (H 2) by (by right; right; left).
Qed.

Section Select.
Context {G : Type} (c : Core G).

Lemma clusterMember_ok acc i : Z.of_nat i < S ->
  clusterMember c (member_config 0) acc (Z.of_nat i, member_config i) =
  let '(p, taken) := pickWarps c acc.2 (cta_warps l) in
  check Z.of_nat (length p) =? cta_warps l else ErrCTAResourcesUnavailable in Ok (acc.1 ++ [p], taken).
Proof.
  intros Hi. unfold clusterMember. rewrite required_ok, rank_flag, Bool.eqb_reflx by done. change (cc_ClusterDimensions (member_config 0)) with D.
  rewrite origin_ok by done. change (cc_ClusterDimensions (member_config i)) with D. change (length (cc_WarpIDs (member_config i)) =? 0)%nat with true.
  change (cc_ClusterSize (member_config i)) with (cc_ClusterSize (member_config 0)). rewrite Z.eqb_refl, bool_decide_eq_true_2 by done. cbn [andb].
  assert (same_launch (member_config i) (member_config 0) = true) as ->.
  { unfold same_launch. rewrite !andb_true_iff. split_and!; (apply Z.eqb_refl || by apply bool_decide_eq_true_2). }
  cbn [result_bind]. pose proof (lv_size l V) as Hs. change (cc_BlockSize (member_config i)) with (la_BlockSize l).
  destruct (Z.eqb_spec (la_BlockSize l) 0); [lia|]. change (FrozenWarpCount * FrozenLaneCount) with 16. by destruct (Z.ltb_spec 16 (la_BlockSize l)); [lia|].
Qed.

Lemma cta_warps_pos : 1 <= cta_warps l <= 4.
Proof. apply (warps_ok l), V. Qed.

Lemma clusterMembers_ok n i ws taken : Z.of_nat (i + n) <= S -> length ws = i -> selection c (Z.to_nat (cta_warps l)) ws taken ->
  match foldM (clusterMember c (member_config 0)) (ws, taken) (map (fun i => (Z.of_nat i, member_config i)) (seq i n)) with
  | Ok (ws', taken') => length ws' = (i + n)%nat /\ selection c (Z.to_nat (cta_warps l)) ws' taken'
  | Err e => e = ErrCTAResourcesUnavailable /\ ~ forall j, idx4 j -> sl_lifecycle (slot_at c j) = SlotInactive /\ sl_participated (slot_at c j) = false
  end.
Proof.
  pose proof cta_warps_pos as Hw. revert i ws taken. induction n as [|n IH]; intros i ws taken Hi Hl Hs; cbn [seq map foldM]; [by rewrite Nat.add_0_r|].
  rewrite clusterMember_ok by lia. cbn [fst snd]. destruct (pickWarps_spec c taken (cta_warps l)) as (taken' & E & _). rewrite E.
  destruct (Z.eqb_spec (Z.of_nat (length (take (Z.to_nat (cta_warps l)) (free_warps c taken)))) (cta_warps l)) as [El|El]; cbn [result_bind].
  - specialize (IH (1 + i)%nat (ws ++ [take (Z.to_nat (cta_warps l)) (free_warps c taken)]) taken'). rewrite <- Nat.add_succ_comm. apply IH; [lia|rewrite length_app; cbn; lia|].
    eapply selection_next; [exact Hs| |lia]. by rewrite Z2Nat.id by lia.
  - split; [done|]. intros Hall. apply El. pose proof (free_count c _ _ _ Hall Hs) as Hf. rewrite length_take. pose proof (lv_warps l V). nia.
Qed.

(** The cluster's configurations pass every check of the selection. *)
Lemma select_cluster : match selectCluster c (map member_config (seq 0 (Z.to_nat S))) with
  | Ok ws => length ws = Z.to_nat S /\ exists taken, selection c (Z.to_nat (cta_warps l)) ws taken
  | Err e => e = ErrCTAResourcesUnavailable /\ ~ forall j, idx4 j -> sl_lifecycle (slot_at c j) = SlotInactive /\ sl_participated (slot_at c j) = false
  end.
Proof.
  pose proof (cluster_size_pos l V) as HS. unfold selectCluster. destruct (map member_config (seq 0 (Z.to_nat S))) as [|first rest] eqn:Ec.
  { apply (f_equal length) in Ec. rewrite length_map, length_seq in Ec. cbn in Ec. lia. }
  assert (first = member_config 0) as ->.
  { apply (f_equal (fun xs => xs !! 0%nat)) in Ec. rewrite list_lookup_fmap, lookup_seq_lt in Ec by lia. cbn in Ec. by injection Ec as <-. }
  rewrite <- Ec, length_map, length_seq, Z2Nat.id by lia. change FrozenWarpCount with 4. destruct (Z.ltb_spec 4 S); [lia|]. cbn [negb].
  change (cc_ClusterSize (member_config 0)) with S. rewrite u32_id by (unfold is_u32; lia). rewrite Z.eqb_refl. change (cc_ClusterDimensions (member_config 0)) with D.
  assert (foldM (cluster_axis D) 1 axes = Ok S) as ->.
  { pose proof (lv_cluster l V) as (D0 & D1 & D2). unfold axes. cbn [foldM]. unfold cluster_axis. unfold volume in *.
    assert (0 <= axis3 D 0 * axis3 D 1 <= 4) by nia.
    destruct (Z.eqb_spec (axis3 D 0) 0), (Z.ltb_spec 7 (axis3 D 0)); try lia. destruct (Z.eqb_spec (axis3 D 1) 0), (Z.ltb_spec 7 (axis3 D 1)); try lia.
    destruct (Z.eqb_spec (axis3 D 2) 0), (Z.ltb_spec 7 (axis3 D 2)); try lia. cbn [negb orb result_bind].
    rewrite Z.mul_1_l, (u32_id (axis3 D 0)) by (unfold is_u32; lia). rewrite (u32_id (axis3 D 0 * axis3 D 1)) by (unfold is_u32; lia).
    by rewrite u32_id by (unfold is_u32; lia). }
  cbn [result_bind]. rewrite Z.eqb_refl.
  assert (imap (fun i config => (Z.of_nat i, config)) (map member_config (seq 0 (Z.to_nat S))) = map (fun i => (Z.of_nat i, member_config i)) (seq 0 (Z.to_nat S))) as ->.
  { apply list_eq. intros i. rewrite list_lookup_imap, !list_lookup_fmap. destruct (decide (i < Z.to_nat S)%nat); [by rewrite lookup_seq_lt|by rewrite lookup_seq_ge by lia]. }
  pose proof (clusterMembers_ok (Z.to_nat S) 0 [] 0 ltac:(lia) eq_refl (selection_start c _)) as Hfold. destruct (foldM _ _ _) as [[ws taken]|e]; [|done].
  cbn [result_bind fst]. destruct Hfold as [H1 H2]. split; [done|by exists taken].
Qed.
End Select.

(** ** The staged CTAs *)

Lemma configMembers_total config legacy rank seen base ws : 0 <= rank -> rank + zlen ws <= 4 -> cc_BlockSize config = la_BlockSize l -> rank + zlen ws <= cta_warps l ->
  NoDup ws -> Forall (fun w => w < 4) ws -> Forall (fun w => w ∉ seen) ws ->
  exists ms, configMembers config legacy rank seen base ws = Ok ms /\ Forall (fun mem => LaneMask_Valid (wmb_ActiveMask mem) = true /\ wmb_ActiveMask mem <> 0) ms.
Proof.
  revert rank seen base. induction ws as [|w ws IH]; intros rank seen base Hr Hl Hb Hw Hd H4 Hs; cbn [configMembers]; [by exists []|].
  apply NoDup_cons in Hd as [Hnw Hd]. apply Forall_cons in H4 as [Hlt H4]. apply Forall_cons in Hs as [Hws Hs]. unfold zlen in *. cbn [length] in *.
  change FrozenWarpCount with 4. destruct (Z.leb_spec 4 w); [lia|]. rewrite (bool_decide_eq_false_2 (w ∈ seen)) by done. cbn [negb].
  destruct (IH (rank + 1) (w :: seen) (if legacy then base else advanceWarpBase base (cc_BlockDimensions config) (cc_WarpStep config))) as (ms & -> & Hms); try done; try lia.
  { apply Forall_forall. intros x Hx. rewrite Forall_forall in Hs. intros [->|?]%elem_of_cons; [done|by apply (Hs x)]. }
  cbn [result_bind]. eexists. split; [done|]. constructor; [|done]. cbn [wmb_ActiveMask]. rewrite (u32_id rank), Hb by (unfold is_u32; lia).
  pose proof (lv_size l V) as Hsz. assert (rank * 4 < la_BlockSize l) as Hlow by (unfold cta_warps in Hw; pose proof (Z.mul_div_le (la_BlockSize l + 3) 4 ltac:(lia)); lia).
  pose proof (fun lane => member_mask_spec (la_BlockSize l) rank lane ltac:(lia) Hr Hlow) as Hm. split.
  - unfold member_mask. change FrozenLaneCount with 4. rewrite (u32_id (rank * 4)), (u32_id (la_BlockSize l - rank * 4)) by (unfold is_u32; lia).
    destruct (Z.ltb_spec (la_BlockSize l - rank * 4) 4) as [Hc|]; [|done].
    assert (la_BlockSize l - rank * 4 = 1 \/ la_BlockSize l - rank * 4 = 2 \/ la_BlockSize l - rank * 4 = 3) as [-> | [-> | ->]] by lia; done.
  - intros E. specialize (Hm 0 ltac:(by left)). rewrite E in Hm. destruct (Z.ltb_spec (rank * 4 + 0) (la_BlockSize l)); [done|lia].
Qed.

Definition slot_for (i : nat) (ws : list Z) (id : Z) : Prop :=
  Z.of_nat i < S /\ 0 <= id < 4 /\ zlen ws = cta_warps l /\ NoDup ws /\ Forall idx4 ws.

Lemma local_aligned : 0 <= cta_local l <= FrozenLocalMemSize /\ alignUp (cta_local l) 64 = cta_local l.
Proof.
  destruct (local_ok l Ht (lv_local l V)) as [_ Hl]. split; [done|]. destruct (alignUp_block (cta_local l) Hl) as [H1 H2].
  assert (cta_local l mod 64 = 0) as Hm by (apply Z.mod_mul; lia). unfold alignUp in *. destruct (Z.eqb_spec (cta_local l) 0) as [->|Hnz]; [done|].
  rewrite lmem_size in Hl. rewrite (u32_id (cta_local l + 64)), !u32_id in * by (unfold is_u32; lia). change (64 - 1) with (Z.ones 6) in *. rewrite Z.ldiff_ones_r in * by lia.
  rewrite Z.shiftl_mul_pow2, Z.shiftr_div_pow2 in * by lia. change (2 ^ 6) with 64 in *. Z.div_mod_to_equations. lia.
Qed.

Lemma block_axes_ok i ws id : Z.of_nat i < S -> exists t, foldM (configAxis (with_slot id ws (member_config i)) false) 1 axes = Ok t.
Proof.
  intros Hi. destruct (in_cluster i Hi) as (_ & _ & Hr). set (config := with_slot id ws (member_config i)).
  assert (forall t axis, idx4 axis -> exists t', configAxis config false t axis = Ok t') as Haxis.
  { intros t axis Ha. pose proof (block_in_grid l Ht V Hn _ Hr) as Hb. pose proof (grid_pos l Ht Hn) as Hg. pose proof (lv_block l V) as Hbl. pose proof (lv_step l V) as Hst.
    assert (0 <= axis3 (cc_BlockID config) axis < axis3 (cc_GridDimensions config) axis /\ 1 <= axis3 (cc_GridDimensions config) axis /\
      1 <= axis3 (cc_BlockDimensions config) axis <= 31 /\ axis3 (cc_WarpStep config) axis <= 15) as (B1 & B2 & B3 & B4).
    { change (cc_BlockID config) with (ca_BlockID (cta_at l (k + Z.of_nat i))). change (cc_GridDimensions config) with (la_GridDimensions l).
      change (cc_BlockDimensions config) with (la_BlockDimensions l). change (cc_WarpStep config) with (la_WarpStep l).
      destruct Hb as (? & ? & ?), Hg as (? & ? & ?), Hbl as (? & ? & ?), Hst as (? & ? & ?). destruct Ha as [-> | [-> | [-> | ->]]]; done. }
    unfold configAxis. destruct (Z.eqb_spec (axis3 (cc_BlockDimensions config) axis) 0), (Z.eqb_spec (axis3 (cc_GridDimensions config) axis) 0); try lia.
    destruct (Z.leb_spec (axis3 (cc_GridDimensions config) axis) (axis3 (cc_BlockID config) axis)); [lia|]. cbn [negb orb andb].
    destruct (Z.ltb_spec 31 (axis3 (cc_BlockDimensions config) axis)), (Z.ltb_spec 15 (axis3 (cc_WarpStep config) axis)); try lia. by eexists. }
  unfold axes. cbn [foldM]. destruct (Haxis 1 0 ltac:(by left)) as [t0 ->]. cbn [result_bind]. destruct (Haxis t0 1 ltac:(by right; left)) as [t1 ->]. cbn [result_bind].
  destruct (Haxis t1 2 ltac:(by right; right; left)) as [t2 ->]. by eexists.
Qed.

Lemma cluster_product64 : foldM (clusterAxis D) 1 axes = Ok S.
Proof.
  pose proof (lv_cluster l V) as (D0 & D1 & D2). pose proof (cluster_size_pos l V) as HS. unfold axes. cbn [foldM]. unfold clusterAxis. unfold volume in *.
  assert (0 <= axis3 D 0 * axis3 D 1 <= 4) by nia.
  destruct (Z.eqb_spec (axis3 D 0) 0), (Z.ltb_spec 7 (axis3 D 0)); try lia. destruct (Z.eqb_spec (axis3 D 1) 0), (Z.ltb_spec 7 (axis3 D 1)); try lia.
  destruct (Z.eqb_spec (axis3 D 2) 0), (Z.ltb_spec 7 (axis3 D 2)); try lia. cbn [negb orb result_bind].
  rewrite Z.mul_1_l, (u64_id (axis3 D 0)) by (unfold is_u64; lia). rewrite (u64_id (axis3 D 0 * axis3 D 1)) by (unfold is_u64; lia). by rewrite u64_id by (unfold is_u64; lia).
Qed.

Lemma validate_member i ws id : slot_for i ws id ->
  exists c0, validateCTAConfig (with_slot id ws (member_config i)) = Ok c0 /\ cc_LocalMemorySize (ct_config c0) = cta_local l /\
    cc_StartupPC (ct_config c0) = la_StartupPC l /\ Forall (fun mem => LaneMask_Valid (wmb_ActiveMask mem) = true /\ wmb_ActiveMask mem <> 0) (ct_members c0).
Proof.
  intros (Hi & Hid & Hl & Hd & Hx). destruct (in_cluster i Hi) as (_ & _ & Hr). pose proof cta_warps_pos as Hw. pose proof (cluster_size_pos l V) as HS.
  pose proof (lv_size l V) as Hsz. destruct local_aligned as [Hloc Hal]. unfold validateCTAConfig. cbn [with_slot cc_ID cc_WarpIDs cc_Entry cc_StartupPC cc_ClusterSize cc_BlockSize].
  change FrozenWarpCount with 4. change FrozenLaneCount with 4. change (4 * 4) with 16.
  destruct (Z.leb_spec 4 id); [lia|]. cbn [negb].
  destruct ws as [|w0 ws0] eqn:Ews; [unfold zlen in Hl; cbn in Hl; lia|]. rewrite <- Ews in *. assert ((length ws =? 0)%nat = false) as -> by (by rewrite Ews).
  rewrite Hl. destruct (Z.ltb_spec 4 (cta_warps l)); [lia|]. cbn [orb negb].
  assert (forall x, x .& 3 = x mod 4) as E3 by (intros x; change 3 with (Z.ones 2); by rewrite Z.land_ones).
  change (cc_Entry (member_config i)) with (la_KernelEntryPC l). change (cc_StartupPC (member_config i)) with (la_StartupPC l). change (cc_ClusterSize (member_config i)) with S.
  change (cc_BlockSize (member_config i)) with (la_BlockSize l). rewrite !E3, (lv_entry l V), (lv_startup l V). cbn [Z.eqb].
  destruct (Z.eqb_spec S 0), (Z.ltb_spec 4 S); try lia. destruct (Z.eqb_spec (la_BlockSize l) 0); [lia|]. cbn [negb orb].
  set (config := with_slot id ws (member_config i)).
  destruct (block_axes_ok i ws id Hi) as [t Haxes]. fold config in Haxes. rewrite Haxes.
  cbn [result_bind]. destruct (Z.ltb_spec 16 (la_BlockSize l)); [lia|]. cbn [negb].
  change (cc_ClusterDimensions config) with D.
  rewrite cluster_product64.
  cbn [result_bind]. change (cc_ClusterSize config) with S. rewrite Z.eqb_refl. cbn [result_bind].
  rewrite (u64_id (la_BlockSize l + 4)), u64_id by (unfold is_u64; lia). replace (la_BlockSize l + 4 - 1) with (la_BlockSize l + 3) by lia. fold (cta_warps l). rewrite Z.eqb_refl.
  change (cc_LocalMemorySize config) with (cta_local l). destruct (Z.ltb_spec FrozenLocalMemSize (cta_local l)); [lia|]. cbn [negb].
  change frozenMemoryBlockSize with 64. rewrite Hal. destruct (Z.ltb_spec FrozenLocalMemSize (cta_local l)); [lia|]. cbn [negb].
  destruct (configMembers_total (with_sizes (la_BlockSize l) D (cta_local l) config) false 0 [] (0, 0, 0) ws) as (ms & Hms & Hmask); try done; try lia.
  { eapply Forall_impl; [exact Hx|]. intros w Hidx%idx4_range. lia. }
  { apply Forall_forall. intros x _. apply not_elem_of_nil. }
  change (cc_WarpIDs (with_sizes (la_BlockSize l) D (cta_local l) config)) with ws. rewrite Hms. cbn [result_bind]. eexists. split; [done|]. done.
Qed.
(** ** Staging the cluster *)

Lemma stageMembers_ok m staged ms : NoDup (map wmb_WarpID ms) -> Forall (fun mem => idx4 (wmb_WarpID mem)) ms ->
  Forall (fun mem => WarpMask_Active staged (wmb_WarpID mem) = false) ms ->
  match foldM (stageMember m) staged ms with
  | Ok staged' => forall j, idx4 j -> WarpMask_Active staged' j = WarpMask_Active staged j || bool_decide (j ∈ map wmb_WarpID ms)
  | Err e => e = ErrCTAResourcesUnavailable /\ exists mem, mem ∈ ms /\ member_free m mem = false
  end.
Proof.
  revert staged. induction ms as [|mem ms IH]; intros staged Hd Hi Ha; cbn [foldM map].
  { intros j _. rewrite bool_decide_eq_false_2 by apply not_elem_of_nil. by rewrite orb_false_r. }
  cbn [map] in Hd. apply NoDup_cons in Hd as [Hnm Hd]. apply Forall_cons in Hi as [Hidx Hi]. apply Forall_cons in Ha as [Hact Ha].
  unfold stageMember at 1. destruct (member_free m mem) eqn:Ef; cbn [result_bind]; [|split; [done|]; exists mem; split; [by left|done]]. rewrite Hact. cbn [negb result_bind].
  specialize (IH (u8 (staged .| u8 (1 << wmb_WarpID mem))) Hd Hi).
  assert (Forall (fun mem' => WarpMask_Active (u8 (staged .| u8 (1 << wmb_WarpID mem))) (wmb_WarpID mem') = false) ms) as Hrest.
  { apply Forall_forall. intros x Hx. rewrite Forall_forall in Hi, Ha. rewrite set_warp_bit by first [done|by apply Hi]. rewrite (Ha x Hx).
    destruct (Z.eqb_spec (wmb_WarpID mem) (wmb_WarpID x)) as [E|]; [|done]. exfalso. apply Hnm. rewrite E. by apply list_elem_of_fmap_2. }
  specialize (IH Hrest). destruct (foldM _ _ ms) as [staged'|e].
  - intros j Hj. rewrite IH, set_warp_bit, <- orb_assoc by done. f_equal.
    rewrite (bool_decide_ext (j ∈ wmb_WarpID mem :: _) (j = wmb_WarpID mem \/ j ∈ map wmb_WarpID ms)) by apply elem_of_cons. rewrite bool_decide_or. f_equal.
    destruct (Z.eqb_spec (wmb_WarpID mem) j); [symmetry; by apply bool_decide_eq_true_2|symmetry; apply bool_decide_eq_false_2; congruence].
  - destruct IH as [-> (x & Hx & Hf)]. split; [done|]. exists x. split; [by right|done].
Qed.

(** Room for [n] more blocks: no warp is bound and the blocks lie below some bound. *)
Definition roomy (m : CTAManager) (intervals : list allocationInterval) (n : nat) : Prop :=
  (forall w, idx4 w -> qget (cm_byWarp m) w = None) /\
  exists r, 0 <= r /\ Forall (fun i => i.2 <= r * cta_local l) intervals /\ (r + Z.of_nat n) * cta_local l <= FrozenLocalMemSize.

Lemma allocate_room intervals : Forall interval_ok intervals ->
  match allocateFromIntervals (cta_local l) intervals with
  | Ok (allocation, o) => interval_ok (o, u32 (o + la_Size allocation)) /\ la_Size allocation = cta_local l /\
      forall r, 0 <= r -> Forall (fun i => i.2 <= r * cta_local l) intervals -> (r + 1) * cta_local l <= FrozenLocalMemSize -> u32 (o + la_Size allocation) <= (r + 1) * cta_local l
  | Err _ => forall r, 0 <= r -> Forall (fun i => i.2 <= r * cta_local l) intervals -> ~ (r + 1) * cta_local l <= FrozenLocalMemSize
  end.
Proof.
  intros Hok. destruct local_aligned as [Hloc _]. pose proof (allocate_spec (cta_local l) intervals Hloc Hok) as H.
  assert (forall r, 0 <= r -> Forall (fun i => i.2 <= r * cta_local l) intervals -> (r + 1) * cta_local l <= FrozenLocalMemSize -> fits (cta_local l) intervals (r * cta_local l)) as Hfit.
  { intros r Hr Hb Hle. split; [nia|]. split; [lia|]. eapply Forall_impl; [exact Hb|]. intros i Hi. right. right. by right. }
  destruct (allocateFromIntervals (cta_local l) intervals) as [[allocation o]|e].
  - destruct H as (-> & (Ho & Hfin & _) & Hz & Hmin). cbn [la_Size]. rewrite lmem_size in *. rewrite u32_id by (unfold is_u32; lia).
    split; [unfold interval_ok; cbn; rewrite lmem_size; split_and!; lia|]. split; [done|]. intros r Hr Hb Hle.
    destruct (Z.eq_dec (cta_local l) 0) as [E|]; [specialize (Hz E); nia|]. specialize (Hmin (r * cta_local l) ltac:(lia) (Hfit r Hr Hb Hle)). lia.
  - intros r Hr Hb Hle. by apply (H (r * cta_local l)), Hfit.
Qed.

Definition entry_ok (e : CTAConfig * list Z * Z) : Prop := exists i, e.1.1 = member_config i /\ slot_for i e.1.2 e.2.

Lemma stage_entries m entries acc : Forall entry_ok entries -> NoDup (concat (map (fun e => e.1.2) entries)) ->
  Forall (fun w => WarpMask_Active acc.1.2 w = false) (concat (map (fun e => e.1.2) entries)) -> Forall interval_ok acc.2 ->
  match foldM (stageCandidate m) acc entries with
  | Ok _ => True
  | Err e => e = ErrCTAResourcesUnavailable /\ ~ roomy m acc.2 (length entries)
  end.
Proof.
  revert acc. induction entries as [|[[config ws] id] entries IH]; intros [[cs staged] intervals] He Hd Ha Hok; cbn [foldM map concat fst snd] in *; [done|].
  apply Forall_cons in He as [(i & E & Hslot) He]. cbn [fst snd] in *. subst config. apply NoDup_app in Hd as (Hdw & Hdis & Hd). apply Forall_app in Ha as [Haw Ha].
  destruct (validate_member i ws id Hslot) as (c0 & Hc0 & Hsize & _). unfold stageCandidate at 1. rewrite Hc0. cbn [result_bind].
  pose proof (va_warps _ _ (validate_inv _ _ Hc0)) as Ew. change (cc_WarpIDs _) with ws in Ew. destruct Hslot as (_ & _ & _ & _ & Hidx).
  pose proof (stageMembers_ok m staged (ct_members c0)) as Hst. rewrite Ew in Hst. specialize (Hst Hdw).
  rewrite <- Ew in Hidx, Haw. rewrite Forall_map in Hidx, Haw. specialize (Hst Hidx Haw).
  destruct (foldM (stageMember m) staged (ct_members c0)) as [staged'|e]; cbn [result_bind].
  2:{ destruct Hst as [-> (mem & Hm & Hf)]. split; [done|]. intros [Hfree _]. unfold member_free in Hf. rewrite Forall_forall in Hidx. by rewrite (Hfree _ (Hidx mem Hm)) in Hf. }
  rewrite Hsize. pose proof (allocate_room intervals Hok) as Hal. destruct (allocateFromIntervals (cta_local l) intervals) as [[allocation o]|e]; cbn [result_bind].
  2:{ split; [done|]. intros (_ & r & Hr & Hb & Hle). apply (Hal r Hr Hb). cbn [length] in Hle. destruct local_aligned as [Hloc _]. nia. }
  destruct Hal as (Hi & Hsz & Hroom). specialize (IH (cs ++ [place allocation o c0], staged', intervals ++ [(o, u32 (o + la_Size allocation))]) He Hd). cbn [fst snd] in IH.
  assert (Forall (fun w => WarpMask_Active staged' w = false) (concat (map (fun e => e.1.2) entries))) as Hnext.
  { apply Forall_forall. intros w Hw. rewrite Forall_forall in Ha. assert (idx4 w) as Hiw.
    { rewrite Forall_forall in He. apply list_elem_of_In, in_concat in Hw as (x & Hx & Hin%list_elem_of_In). apply list_elem_of_In, list_elem_of_fmap in Hx as (e & -> & Hx).
      destruct (He e Hx) as (? & _ & _ & _ & _ & _ & Hall). rewrite Forall_forall in Hall. by apply Hall. }
    rewrite Hst, (Ha w Hw) by done. apply bool_decide_eq_false_2. intros Hin. by apply (Hdis w). }
  specialize (IH Hnext). assert (Forall interval_ok (intervals ++ [(o, u32 (o + la_Size allocation))])) as Hok' by (apply Forall_app; split; [done|by constructor]).
  specialize (IH Hok'). destruct (foldM _ _ entries) as [acc'|e]; [done|]. destruct IH as [-> Hno]. split; [done|]. intros (Hfree & r & Hr & Hb & Hle). apply Hno. split; [done|].
  cbn [length] in Hle. destruct local_aligned as [Hloc _]. assert ((r + 1) * cta_local l <= FrozenLocalMemSize) as Hone by nia.
  exists (r + 1). split; [lia|]. split; [|lia]. apply Forall_app. split; [eapply Forall_impl; [exact Hb|]; cbn; intros; nia|]. constructor; [|done]. cbn. by apply Hroom.
Qed.
(** ** Launching and committing what was staged *)
Section Admit.
Context {G : Type} (I : G -> Prop) (c : Core G) (Hc : core_wf I c).

(** A slot outside every CTA is unused. *)
Lemma unused_slot j : idx4 j -> sl_participated (slot_at c j) = false -> sl_lifecycle (slot_at c j) = SlotInactive /\ slot_unused (slot_at c j) = true /\
  exists w, co_owners c !! sl_owner (slot_at c j) = Some w /\ w_id w = j /\ w_lifecycle w = WarpInactive /\ w_activeMask w = 0.
Proof.
  intros Hj Hp. pose proof (cr_slots I c Hc j Hj) as Hs. destruct (sw_owner I c j Hs) as (w & Hw & Hid & Hlc). unfold lifecycle_consistent in Hlc. rewrite Hp in Hlc.
  destruct (sl_lifecycle (slot_at c j)) eqn:El; rewrite ?andb_false_l in Hlc; try done. cbn [negb andb] in Hlc. rewrite !andb_true_iff in Hlc.
  destruct Hlc as [[Hr%bool_decide_eq_true Hl%bool_decide_eq_true] Hm%Z.eqb_eq]. split; [done|]. split; [|by exists w].
  unfold slot_unused. rewrite El, Hp, Hr. rewrite !bool_decide_eq_true_2 by done. cbn [negb andb]. apply (sw_clear I c j Hs). by rewrite Hr.
Qed.

Lemma no_residents_unused : cm_ctas (co_ctas c) = ∅ ->
  (forall w, idx4 w -> qget (cm_byWarp (co_ctas c)) w = None) /\
  (co_attached c = true -> forall j, idx4 j -> sl_lifecycle (slot_at c j) = SlotInactive /\ sl_participated (slot_at c j) = false).
Proof.
  intros E. destruct (cr_ctas I c Hc) as (Hcta & _ & _). assert (forall w, idx4 w -> qget (cm_byWarp (co_ctas c)) w = None) as Hfree.
  { intros w Hw. destruct (qget (cm_byWarp (co_ctas c)) w) as [key|] eqn:Ek; [|done]. destruct (cw_table _ Hcta w key Hw Ek) as (x & _ & Hx & _). by rewrite E, lookup_empty in Hx. }
  split; [done|]. intros Ha j Hj. assert (sl_participated (slot_at c j) = false) as Hp; [|by split; [apply unused_slot|]].
  apply not_true_iff_false. intros Hp. pose proof (sw_member I c j (cr_slots I c Hc j Hj) Ha Hp) as Hh. apply HasWarp_spec in Hh as [? Hx]; [|done]. by rewrite Hfree in Hx.
Qed.

(** Targets with unused slots, distinct warps, aligned startup PCs and nonempty masks launch. *)
Lemma launch_ready cs : (1 <= length (flat_map ct_members cs) <= 4)%nat -> NoDup (map wmb_WarpID (flat_map ct_members cs)) ->
  (forall x mem, x ∈ cs -> mem ∈ ct_members x -> idx4 (wmb_WarpID mem) /\ sl_participated (slot_at c (wmb_WarpID mem)) = false /\
     LaneMask_Valid (wmb_ActiveMask mem) = true /\ wmb_ActiveMask mem <> 0 /\ cc_StartupPC (ct_config x) .& 3 = 0) ->
  exists zs, launchable (co_owners c) (launch_targets c cs) zs.
Proof.
  intros Hlen Hd Hmem. set (h := co_owners c).
  assert (map lt_WarpID (launch_targets c cs) = map wmb_WarpID (flat_map ct_members cs)) as Eids.
  { unfold launch_targets. clear. induction cs as [|x cs IH]; cbn; [done|]. rewrite !map_app, IH, map_map. done. }
  assert (Forall (fun t => exists z, launch_staged h t z) (launch_targets c cs)) as Hz.
  { apply Forall_forall. intros t (x & mem & Hx & Hm & ->)%launch_targets_elem. destruct (Hmem x mem Hx Hm) as (Hi & Hp & Hv & Hnz & Hpc).
    destruct (unused_slot _ Hi Hp) as (_ & _ & w & Hw & Hid & Hl & Hm0).
    exists (mkCandidate (sl_owner (slot_at c (wmb_WarpID mem))) w (activated (launch_pc (cta_target c x mem) w) (wmb_ActiveMask mem) (cc_ParameterAddress (ct_config x)) w),
      mkWarpLaunchResult (wmb_WarpID mem) (launch_pc (cta_target c x mem) w) (wmb_ActiveMask mem) (lt_FirstUse (cta_target c x mem))).
    apply idx4_range in Hi. split; cbn; try done; lia. }
  apply Forall_exists_Forall2_l in Hz as (zs & Hzs) || (apply Forall_Exists_neg in Hz).
  exists zs. split; [by rewrite <- (length_map lt_WarpID), Eids, length_map|]. split; [done|]. split; [by rewrite Eids|].
  rewrite <- Eids in Hd. clear -Hzs Hd. induction Hzs as [|t z ts zs Hok Hzs IH]; cbn [map] in *; [constructor|]. apply NoDup_cons in Hd as [Hn Hd]. constructor; [|by apply IH].
  intros (z' & E & (i & Hi)%list_elem_of_lookup)%list_elem_of_fmap. destruct (Forall2_lookup_r _ _ _ _ _ Hzs Hi) as (t' & Ht' & Hok').
  apply Hn. apply list_elem_of_fmap. exists t'. split; [|by eapply list_elem_of_lookup_2]. rewrite <- (lo_id _ _ _ Hok), <- (lo_id _ _ _ Hok').
  pose proof (lo_before _ _ _ Hok) as B. rewrite E, (lo_before _ _ _ Hok') in B. by injection B as ->.
Qed.

Lemma candidates_ready m cs : Forall (installable m) cs -> foldM (candidate_free m) tt cs = Ok tt.
Proof.
  induction 1 as [|x cs Hx He IH]; cbn [foldM]; [done|]. unfold candidate_free at 1. rewrite bool_decide_eq_true_2 by apply Hx.
  assert (forallb (member_free m) (ct_members x) = true) as ->; [|done].
  apply forallb_forall. intros mem Hm%list_elem_of_In. pose proof (in_free _ _ Hx) as Hf. rewrite Forall_forall in Hf. unfold member_free. by destruct (Hf mem Hm) as [_ ->].
Qed.

Lemma commit_ready cs launch : CtaInvariant.cluster_ok (co_ctas c) cs -> cs <> [] -> cm_dynamic (co_ctas c) = true -> cm_sealed (co_ctas c) = true ->
  (forall x mem, x ∈ cs -> mem ∈ ct_members x -> idx4 (wmb_WarpID mem) /\ sl_participated (slot_at c (wmb_WarpID mem)) = false) ->
  StageWarpLaunch (co_owners c) (launch_targets c cs) = Ok launch ->
  (admission_commit (co_ctas c) (mkCtaAdmissionStage (cm_epoch (co_ctas c)) cs) (launch_external c cs launch) (co_owners c)).2 = Ok tt.
Proof.
  intros Hck Hne Hdyn Hsl Hmem (zs & Hl & ->)%StageWarpLaunch_ok. unfold admission_commit. cbn [as_candidates as_epoch]. rewrite Hdyn, Hsl, Z.eqb_refl.
  destruct (Nat.eqb_spec (length cs) 0) as [E|]; [by apply length_zero_iff_nil in E|]. cbn [negb orb]. rewrite (candidates_ready _ _ (ck_each _ _ Hck)).
  unfold launch_external.
  assert (forallb (fun candidate => forallb (fun member => slot_unused (slot_at c (wmb_WarpID member))) (ct_members candidate)) cs = true) as ->.
  { apply forallb_forall. intros x Hx%list_elem_of_In. apply forallb_forall. intros mem Hm%list_elem_of_In. destruct (Hmem x mem Hx Hm) as [Hi Hp]. by apply unused_slot. }
  unfold Launch_Commit. cbn [ls_targets ls_committed]. rewrite (launch_fresh _ _ _ Hl). destruct Hl as ((Hlen & _) & Hz & _). apply Forall2_length in Hz.
  destruct (Nat.eqb_spec (length zs) 0); [lia|]. done.
Qed.

(** The entries of the cluster, in order. *)
Lemma entry_at ws taken m i e : length ws = Z.to_nat S -> selection c (Z.to_nat (cta_warps l)) ws taken ->
  zip (zip (map member_config (seq 0 (Z.to_nat S))) ws) (freeCTAIDs m) !! i = Some e ->
  e.1.1 = member_config i /\ ws !! i = Some e.1.2 /\ slot_for i e.1.2 e.2.
Proof.
  intros Hl Hs He. destruct e as [[config w] id]. cbn [fst snd]. apply lookup_zip_Some in He as [He Hid]. cbn [fst snd] in *. apply lookup_zip_Some in He as [Hcfg Hw]. cbn [fst snd] in *.
  pose proof (lookup_lt_Some _ _ _ Hw) as Hlt. rewrite list_lookup_fmap, lookup_seq_lt in Hcfg by lia. cbn in Hcfg. injection Hcfg as <-. split; [done|]. split; [done|].
  pose proof (list_elem_of_lookup_2 _ _ _ Hw) as Hin. destruct Hs as [H1 H2 H3 _]. rewrite Forall_forall in H1. rewrite Forall_forall in H3. pose proof cta_warps_pos as Hp.
  assert (forall x, x ∈ w -> x ∈ concat ws) as Hsub by (intros x Hx; rewrite list_elem_of_In, in_concat; exists w; by rewrite <- !list_elem_of_In).
  split; [lia|]. split; [|split; [unfold zlen; rewrite (H1 w Hin); lia|split]].
  - destruct (freeCTAIDs_ok m) as [_ Hf]. rewrite Forall_forall in Hf. apply list_elem_of_lookup_2 in Hid. pose proof (Hf id Hid) as [_ H0]. split; [done|].
    apply list_elem_of_In, filter_In in Hid as [Hid _]. cbn in Hid. naive_solver lia.
  - apply list_elem_of_split in Hin as (w1 & w2 & ->). rewrite concat_app in H2. cbn [concat] in H2. apply NoDup_app in H2 as (_ & _ & H2). by apply NoDup_app in H2 as (? & _).
  - apply Forall_forall. intros x Hx. by apply H3, Hsub.
Qed.

Lemma warps_of cs : map wmb_WarpID (flat_map ct_members cs) = concat (map (fun x => map wmb_WarpID (ct_members x)) cs).
Proof. induction cs as [|x cs IH]; cbn; [done|]. by rewrite map_app, IH. Qed.

(** The staged CTAs of the cluster. *)
Lemma staged_cluster ws taken admission : length ws = Z.to_nat S -> selection c (Z.to_nat (cta_warps l)) ws taken ->
  stageDynamicAdmissions (co_ctas c) (map member_config (seq 0 (Z.to_nat S))) ws = Ok admission ->
  map wmb_WarpID (flat_map ct_members (as_candidates admission)) = concat ws /\ length (as_candidates admission) = Z.to_nat S /\
  forall x mem, x ∈ as_candidates admission -> mem ∈ ct_members x -> LaneMask_Valid (wmb_ActiveMask mem) = true /\ wmb_ActiveMask mem <> 0 /\ cc_StartupPC (ct_config x) .& 3 = 0.
Proof.
  intros Hl Hs (Hf & _ & Hlen)%staged_entries. rewrite length_map, length_seq in Hlen.
  assert (forall i x, as_candidates admission !! i = Some x -> exists a o c0 w, ws !! i = Some w /\ x = place a o c0 /\ map wmb_WarpID (ct_members c0) = w /\
    cc_StartupPC (ct_config c0) = la_StartupPC l /\ Forall (fun mem => LaneMask_Valid (wmb_ActiveMask mem) = true /\ wmb_ActiveMask mem <> 0) (ct_members c0)) as Hx.
  { intros i x Hx. destruct (Forall2_lookup_r _ _ _ _ _ Hf Hx) as (e & He & c0 & a & o & Hv & ->). destruct (entry_at ws taken _ i e Hl Hs He) as (Ecfg & Hw & Hslot).
    rewrite Ecfg in Hv. destruct (validate_member i _ _ Hslot) as (c0' & Hv' & _ & Hpc & Hm). rewrite Hv in Hv'. apply Ok_inj in Hv' as <-.
    exists a, o, c0, e.1.2. split_and!; try done. apply (va_warps _ _ (validate_inv _ _ Hv)). }
  split_and!; [|done|].
  - rewrite warps_of. f_equal. apply list_eq. intros i. rewrite list_lookup_fmap. destruct (as_candidates admission !! i) as [x|] eqn:Ex; cbn.
    + by destruct (Hx i x Ex) as (a & o & c0 & w & -> & -> & <- & _).
    + symmetry. apply lookup_ge_None. apply lookup_ge_None in Ex. lia.
  - intros x mem (i & Hi)%list_elem_of_lookup Hm. destruct (Hx i x Hi) as (a & o & c0 & w & _ & -> & _ & Hpc & Hmask). cbn [place ct_members ct_config] in *.
    rewrite Forall_forall in Hmask. destruct (Hmask mem Hm). split_and!; [done..|]. rewrite Hpc. change 3 with (Z.ones 2). rewrite Z.land_ones by lia. apply (lv_startup l V).
Qed.

(** Staging the cluster fails only for resources. *)
Lemma stage_cluster ws taken : length ws = Z.to_nat S -> selection c (Z.to_nat (cta_warps l)) ws taken ->
  cm_dynamic (co_ctas c) = true -> cm_sealed (co_ctas c) = true -> is_Some (cm_barriers (co_ctas c)) ->
  match stageDynamicAdmissions (co_ctas c) (map member_config (seq 0 (Z.to_nat S))) ws with
  | Ok _ => True
  | Err e => e = ErrCTAResourcesUnavailable /\ cm_ctas (co_ctas c) <> ∅
  end.
Proof.
  intros Hl Hs Hdyn Hsl Hb. pose proof (cluster_size_pos l V) as HS. destruct (cr_ctas I c Hc) as (Hcta & Hpack & _).
  unfold stageDynamicAdmissions. rewrite length_map, length_seq, Hl, Nat.eqb_refl, Hdyn, Hsl, bool_decide_eq_true_2 by done.
  destruct (Nat.eqb_spec (Z.to_nat S) 0); [lia|]. cbn [negb orb andb].
  destruct (Nat.ltb_spec (length (freeCTAIDs (co_ctas c))) (Z.to_nat S)) as [Hfew|Hroom]; cbn [negb].
  { split; [done|]. intros E. assert (freeCTAIDs (co_ctas c) = [0; 1; 2; 3]) as Ef by (unfold freeCTAIDs; rewrite E; reflexivity). rewrite Ef in Hfew. cbn in Hfew. lia. }
  set (entries := zip (zip (map member_config (seq 0 (Z.to_nat S))) ws) (freeCTAIDs (co_ctas c))).
  assert (length entries = Z.to_nat S) as Elen by (unfold entries; rewrite !length_zip, length_map, length_seq, Hl; lia).
  assert (map (fun e : CTAConfig * list Z * Z => e.1.2) entries = ws) as Ews.
  { apply list_eq. intros i. rewrite list_lookup_fmap. destruct (entries !! i) as [e|] eqn:Ee; cbn; [by destruct (entry_at ws taken _ i e Hl Hs Ee) as (_ & -> & _)|].
    symmetry. apply lookup_ge_None. apply lookup_ge_None in Ee. lia. }
  pose proof (stage_entries (co_ctas c) entries ([], 0, allocationIntervalsLocked (co_ctas c))) as H. rewrite Ews in H. cbn [fst snd] in H.
  assert (Forall entry_ok entries) as Hok.
  { apply Forall_forall. intros e (i & He)%list_elem_of_lookup. exists i. by destruct (entry_at ws taken _ i e Hl Hs He) as (? & _ & ?). }
  assert (Forall (fun w => WarpMask_Active 0 w = false) (concat ws)) as H0 by (apply Forall_forall; intros w _; unfold WarpMask_Active; by rewrite Z.land_0_l, andb_false_r).
  specialize (H Hok (sc_distinct _ _ _ _ Hs) H0 (intervals_ok _ Hcta Hpack)). destruct (foldM _ _ _) as [acc|e]; [done|]. destruct H as [-> Hno]. split; [done|].
  intros E. apply Hno. split; [by apply no_residents_unused|]. exists 0. split; [lia|]. split.
  - unfold allocationIntervalsLocked. rewrite E, map_to_list_empty. constructor.
  - rewrite Elen. rewrite Z2Nat.id by lia. rewrite Z.add_0_l. apply (lv_memory l V).
Qed.

(** The cluster is admitted, or there is no room for it now; on a core without residents it is admitted. *)
Lemma admit_cluster : co_attached c = true -> cm_dynamic (co_ctas c) = true -> cm_sealed (co_ctas c) = true -> is_Some (cm_barriers (co_ctas c)) ->
  match (AdmitCTACluster c (map member_config (seq 0 (Z.to_nat S)))).2 with
  | Ok _ => True
  | Err e => e = ErrCTAResourcesUnavailable /\ cm_ctas (co_ctas c) <> ∅
  end.
Proof.
  intros Ha Hdyn Hsl Hb. pose proof (cluster_size_pos l V) as HS. pose proof cta_warps_pos as HW. unfold AdmitCTACluster. rewrite (validate_ok I c Hc), Ha, Hdyn. cbn [result_bind andb].
  pose proof (select_cluster c) as Hsel. destruct (selectCluster c _) as [ws|e]; cbn [result_bind snd].
  2:{ destruct Hsel as [-> Hno]. split; [done|]. intros E. apply Hno. by apply no_residents_unused. }
  destruct Hsel as (Hl & taken & Hs). pose proof (stage_cluster ws taken Hl Hs Hdyn Hsl Hb) as Hst.
  destruct (stageDynamicAdmissions _ _ ws) as [[epoch cs]|e] eqn:Est; cbn [result_bind snd as_candidates]; [|done].
  destruct (staged_cluster ws taken _ Hl Hs Est) as (Ew & Hlen & Hmem). cbn [as_candidates] in *. destruct (cr_ctas I c Hc) as (Hcta & Hpack & _).
  assert (Forall (fun cfg => 0 <= cc_LocalMemorySize cfg) (map member_config (seq 0 (Z.to_nat S)))) as Hsz
    by (apply Forall_map, Forall_forall; intros i _; apply local_aligned).
  assert (Forall (Forall (fun w => 0 <= w)) ws) as Hnn.
  { apply Forall_forall. intros w Hw. apply Forall_forall. intros x Hx. pose proof (sc_unused _ _ _ _ Hs) as Hu. rewrite Forall_forall in Hu.
    assert (x ∈ concat ws) as Hin by (rewrite list_elem_of_In, in_concat; exists w; by rewrite <- !list_elem_of_In). destruct (Hu x Hin) as [Hi%idx4_range _]. lia. }
  destruct (stageDynamicAdmissions_ok _ _ _ _ Hcta Hpack Hsz Hnn Est) as [Hk' Hep]. cbn [as_candidates as_epoch] in *. subst epoch.
  assert (forall x mem, x ∈ cs -> mem ∈ ct_members x -> idx4 (wmb_WarpID mem) /\ sl_participated (slot_at c (wmb_WarpID mem)) = false) as Hun.
  { intros x mem Hx Hm. pose proof (sc_unused _ _ _ _ Hs) as Hu. rewrite Forall_forall in Hu. destruct (Hu (wmb_WarpID mem)) as (Hi & _ & Hp); [|done].
    rewrite <- Ew. apply list_elem_of_fmap_2. rewrite list_elem_of_In, in_flat_map. exists x. by rewrite <- !list_elem_of_In. }
  destruct (launch_ready cs) as (zs & Hlaunch).
  { rewrite <- (length_map wmb_WarpID), Ew. assert (length (concat ws) = length ws * Z.to_nat (cta_warps l))%nat as ->.
    { pose proof (sc_sizes _ _ _ _ Hs) as Hsizes. clear -Hsizes. induction Hsizes as [|x xs Hx H IH]; cbn; [done|]. rewrite length_app. lia. }
    pose proof (lv_warps l V). rewrite Hl. nia. }
  { rewrite Ew. apply Hs. }
  { intros x mem Hx Hm. destruct (Hun x mem Hx Hm), (Hmem x mem Hx Hm) as (? & ? & ?). done. }
  assert (StageWarpLaunch (co_owners c) (launch_targets c cs) = Ok (mkWarpLaunchStage zs false)) as Elaunch by (apply StageWarpLaunch_ok; by exists zs).
  rewrite Elaunch. cbn [result_bind]. pose proof (commit_ready cs _ Hk' ltac:(intros ->; cbn in Hlen; lia) Hdyn Hsl Hun Elaunch) as Hcommit.
  by destruct (admission_commit _ _ _ _) as [[m h] [[]|e]].
Qed.
End Admit.
End Cluster.
