(* ===== verification/Kernel.v ===== *)
(** * The kernel executor (src/emu/device/kernel.go)

    An executor keeps a validated launch and the caller's byte memory.  An execution
    owns one core with four warps, a grid walker, the generated cluster that waits for
    admission and the CTA of every resident slot; [Run] advances it to completion or to
    a typed stop.

    The trace sink is a list the run appends to; a nil context function is [None].  The
    state of the memory is the [co_global] field of the core.  A CTA record and a
    snapshot are values, so the copies [detachCTAEvent] makes are the values
    themselves. *)

From S2P Require Import Prelude IsaTypes Catalog Decode Integer System Custom Softfloat Float Memory WarpState Apply View WarpExec.
From S2P Require Import Cta Barrier Launch Core CoreStep Grid.

#[local] Open Scope Z_scope.
#[local] Open Scope go_scope.

(** ** Data *)

Inductive KernelOutcome := KernelComplete | KernelBudgetExceeded | KernelBlocked | KernelDeferred | KernelTrap | KernelFault.

(** The typed errors of a run; [KernelWarpError] is the selected warp's own. *)
Inductive KernelRunError :=
| KernelError (e : error)
| KernelBudgetExceededError (budget : Z)
| KernelBlockedError (residentCTAs pendingCluster : Z)
| KernelDeferredError (warpID : Z) (reason : BlockReason)
| KernelWarpError (fault : option Fault).

Inductive CTAEventKind := CTAGenerated | CTAAdmitted | CTACompleted.

(** [Resident] is [None] where the code's [ResidentValid] is false. *)
Record CTAEvent := mkCTAEvent { ev_Kind : CTAEventKind; ev_CTA : CTA; ev_Resident : option CTASnapshot }.

Inductive KernelTraceKind :=
| KernelTraceCTA (event : CTAEvent)
| KernelTraceCore (record : CoreTraceRecord).

Record KernelTraceRecord := mkKernelTraceRecord { kt_Sequence : Z; kt_Kind : KernelTraceKind }.

Record KernelRunOptions := mkKernelRunOptions { ko_StepBudget : Z; ko_Context : option (Z -> ReadContext) }.

Record KernelRunResult := mkKernelRunResult {
  kr_Outcome : KernelOutcome;
  kr_Complete : bool;
  kr_Attempts : Z;
  kr_Retired : Z;
  kr_Generated : Z;
  kr_Admitted : Z;
  kr_Completed : Z;
  kr_CTAEvents : list CTAEvent;
  kr_Last : option KernelTraceRecord;
  kr_LastCore : option StepResult;
  kr_Err : option KernelRunError
}.

(** The zero value a run starts from. *)
Definition no_result : KernelRunResult := mkKernelRunResult KernelComplete false 0 0 0 0 0 [] None None None.

(** [BackingMemory]; [bm_BoundWarpID] is the optional method the warp constructor asks
    every memory for. *)
Record BackingMemory (G : Type) := mkBackingMemory {
  bm_Read : G -> Z -> Z -> result (list Z);
  bm_Write : G -> Z -> list Z -> G * result unit;
  bm_WriteBatch : G -> list Z -> list (list Z) -> G * result unit;
  bm_BoundWarpID : option Z
}.
Arguments mkBackingMemory {G}.
Arguments bm_Read {G}.
Arguments bm_Write {G}.
Arguments bm_WriteBatch {G}.
Arguments bm_BoundWarpID {G}.

Record KernelExecutor (G : Type) := mkKernelExecutor { ke_launch : LaunchState; ke_memory : BackingMemory G }.
Arguments mkKernelExecutor {G}.
Arguments ke_launch {G}.
Arguments ke_memory {G}.

Record kernelRuntime (G : Type) := mkKernelRuntime {
  rt_core : Core G;
  rt_walker : GridWalker;
  rt_pending : list CTA;
  rt_resident : gmap Z CTA
}.
Arguments mkKernelRuntime {G}.
Arguments rt_core {G}.
Arguments rt_walker {G}.
Arguments rt_pending {G}.
Arguments rt_resident {G}.

Record KernelExecution (G : Type) := mkKernelExecution {
  kx_runtime : kernelRuntime G;
  kx_launch : LaunchState;
  kx_sequence : Z;
  kx_complete : bool
}.
Arguments mkKernelExecution {G}.
Arguments kx_runtime {G}.
Arguments kx_launch {G}.
Arguments kx_sequence {G}.
Arguments kx_complete {G}.

(** A run in progress: the execution, the named result and what the sink received. *)
Record session (G : Type) := mkSession { se_execution : KernelExecution G; se_result : KernelRunResult; se_trace : list KernelTraceRecord }.
Arguments mkSession {G}.
Arguments se_execution {G}.
Arguments se_result {G}.
Arguments se_trace {G}.

(** The result's counters and its last records. *)
Definition count_generated (r : KernelRunResult) : KernelRunResult :=
  mkKernelRunResult (kr_Outcome r) (kr_Complete r) (kr_Attempts r) (kr_Retired r) (u32 (kr_Generated r + 1)) (kr_Admitted r) (kr_Completed r)
    (kr_CTAEvents r) (kr_Last r) (kr_LastCore r) (kr_Err r).
Definition count_admitted (r : KernelRunResult) : KernelRunResult :=
  mkKernelRunResult (kr_Outcome r) (kr_Complete r) (kr_Attempts r) (kr_Retired r) (kr_Generated r) (u32 (kr_Admitted r + 1)) (kr_Completed r)
    (kr_CTAEvents r) (kr_Last r) (kr_LastCore r) (kr_Err r).
Definition count_completed (r : KernelRunResult) : KernelRunResult :=
  mkKernelRunResult (kr_Outcome r) (kr_Complete r) (kr_Attempts r) (kr_Retired r) (kr_Generated r) (kr_Admitted r) (u32 (kr_Completed r + 1))
    (kr_CTAEvents r) (kr_Last r) (kr_LastCore r) (kr_Err r).
Definition count_attempt (r : KernelRunResult) : KernelRunResult :=
  mkKernelRunResult (kr_Outcome r) (kr_Complete r) (u64 (kr_Attempts r + 1)) (kr_Retired r) (kr_Generated r) (kr_Admitted r) (kr_Completed r)
    (kr_CTAEvents r) (kr_Last r) (kr_LastCore r) (kr_Err r).
Definition count_retired (r : KernelRunResult) : KernelRunResult :=
  mkKernelRunResult (kr_Outcome r) (kr_Complete r) (kr_Attempts r) (u64 (kr_Retired r + 1)) (kr_Generated r) (kr_Admitted r) (kr_Completed r)
    (kr_CTAEvents r) (kr_Last r) (kr_LastCore r) (kr_Err r).
Definition add_event (event : CTAEvent) (record : KernelTraceRecord) (r : KernelRunResult) : KernelRunResult :=
  mkKernelRunResult (kr_Outcome r) (kr_Complete r) (kr_Attempts r) (kr_Retired r) (kr_Generated r) (kr_Admitted r) (kr_Completed r)
    (kr_CTAEvents r ++ [event]) (Some record) (kr_LastCore r) (kr_Err r).
Definition add_core (step : StepResult) (record : KernelTraceRecord) (r : KernelRunResult) : KernelRunResult :=
  mkKernelRunResult (kr_Outcome r) (kr_Complete r) (kr_Attempts r) (kr_Retired r) (kr_Generated r) (kr_Admitted r) (kr_Completed r)
    (kr_CTAEvents r) (Some record) (Some step) (kr_Err r).
Definition stop_with (outcome : KernelOutcome) (complete : bool) (err : option KernelRunError) (r : KernelRunResult) : KernelRunResult :=
  mkKernelRunResult outcome complete (kr_Attempts r) (kr_Retired r) (kr_Generated r) (kr_Admitted r) (kr_Completed r)
    (kr_CTAEvents r) (kr_Last r) (kr_LastCore r) err.

Definition zero_context : ReadContext :=
  mkReadContext 0 0
    (mkCTAView 0 0 0 (qfill 0, qfill 0, qfill 0) (0, 0, 0) (0, 0, 0) (0, 0, 0) 0 (0, 0, 0) 0 0 (0, 0, 0) 0 0)
    (mkCounterView 0 0) None false None false false.

Section Kernel.
Context {G : Type}.

Definition set_core (v : Core G) (r : kernelRuntime G) : kernelRuntime G := mkKernelRuntime v (rt_walker r) (rt_pending r) (rt_resident r).
Definition set_walker (v : GridWalker) (r : kernelRuntime G) : kernelRuntime G := mkKernelRuntime (rt_core r) v (rt_pending r) (rt_resident r).
Definition set_pending (v : list CTA) (r : kernelRuntime G) : kernelRuntime G := mkKernelRuntime (rt_core r) (rt_walker r) v (rt_resident r).
Definition set_resident (v : gmap Z CTA) (r : kernelRuntime G) : kernelRuntime G := mkKernelRuntime (rt_core r) (rt_walker r) (rt_pending r) v.

Definition runtime (s : session G) : kernelRuntime G := kx_runtime (se_execution s).
Definition set_runtime (v : kernelRuntime G) (s : session G) : session G :=
  mkSession (mkKernelExecution v (kx_launch (se_execution s)) (kx_sequence (se_execution s)) (kx_complete (se_execution s))) (se_result s) (se_trace s).
Definition set_result (f : KernelRunResult -> KernelRunResult) (s : session G) : session G := mkSession (se_execution s) (f (se_result s)) (se_trace s).

(** ** Construction *)

Definition NewKernelExecutor (input : LaunchState) (memory : option (BackingMemory G)) : result (KernelExecutor G) :=
  match memory with
  | None => Err (Errorf "device: kernel executor requires canonical atomic backing memory")
  | Some memory => let? launch := ValidateLaunch input in Ok (mkKernelExecutor launch memory)
  end.

(** The backing memory as the data service of a warp and as its instruction source; the
    state of a warp's services is the CTA manager's beside the memory's. *)
Definition backing_service (b : BackingMemory G) : DataService G := mkDataService (bm_Read b) (bm_Write b) (Some (bm_WriteBatch b)) (bm_BoundWarpID b).

Definition beside {A} (m : CTAManager) (p : G * A) : (CTAManager * G) * A := ((m, p.1), p.2).

Definition backing_source (b : BackingMemory G) : InstructionSource (CTAManager * G) :=
  mkInstructionSource (fun s address n => bm_Read b s.2 address n)
    (Some (mkDataService (fun s address n => bm_Read b s.2 address n) (fun s address source => beside s.1 (bm_Write b s.2 address source))
             (Some (fun s addresses sources => beside s.1 (bm_WriteBatch b s.2 addresses sources))) (bm_BoundWarpID b))).

Definition inactive_initial (startupPC id : Z) : WarpInitial :=
  mkWarpInitial FrozenTopology id startupPC 0 WarpInactive 0 0 (mkTrapCSRState 0 0 0 0 0 0) (mkDivergenceInitial 0 [])
    (map (fun lane => mkLaneInitial lane (replicate 32 0) (replicate 32 0)) [0; 1; 2; 3]).

(** One warp of the loop: its owner is the pointer [id]. *)
Definition newWarpExecutor (e : KernelExecutor G) (acc : owners * list (option (Executor G))) (id : Z) : result (owners * list (option (Executor G))) :=
  match NewWarp (inactive_initial (la_StartupPC (ke_launch e)) id) with
  | Err _ => Err (Errorf "device: initialize warp")
  | Ok owner =>
      match NewCTAMemory id (backing_service (ke_memory e)) with
      | Err _ => Err (Errorf "device: route warp memory")
      | Ok route =>
          match NewWithServices owner (backing_source (ke_memory e)) route with
          | Err _ => Err (Errorf "device: create warp executor")
          | Ok _ => Ok (<[id := owner]> acc.1, acc.2 ++ [Some (mkExecutor id (backing_source (ke_memory e)) (Routed id (backing_service (ke_memory e))))])
          end
      end
  end.

Definition newRuntime (e : KernelExecutor G) (g : G) : result (kernelRuntime G) :=
  let? acc := foldM (newWarpExecutor e) (∅, []) ids in
  match NewWithCTAManager acc.1 NewDynamicCTAManager g acc.2 with
  | Err _ => Err (Errorf "device: create dynamic core")
  | Ok core =>
      let? walker := NewGridWalker (ke_launch e) in
      Ok (mkKernelRuntime core walker [] ∅)
  end.

Definition NewExecution (e : KernelExecutor G) (g : G) : result (KernelExecution G) :=
  let? runtime := newRuntime e g in Ok (mkKernelExecution runtime (ke_launch e) 0 false).

Definition Kernel_CompleteBarrierEvent (e : KernelExecution G) (key : BarrierKey) : KernelExecution G * result unit :=
  if kx_complete e then (e, Err (Errorf "device: completed kernel execution has no pending barrier event"))
  else
    let '(core, r) := CompleteBarrierEvent (rt_core (kx_runtime e)) key in
    (mkKernelExecution (set_core core (kx_runtime e)) (kx_launch e) (kx_sequence e) (kx_complete e), r).

(** ** Observation *)

Definition next_sequence (e : KernelExecution G) : KernelExecution G :=
  mkKernelExecution (kx_runtime e) (kx_launch e) (u64 (kx_sequence e + 1)) (kx_complete e).

Definition emitEvent (event : CTAEvent) (s : session G) : session G :=
  let record := mkKernelTraceRecord (kx_sequence (se_execution s)) (KernelTraceCTA event) in
  mkSession (next_sequence (se_execution s)) (add_event event record (se_result s)) (se_trace s ++ [record]).

Definition emitCore (attempt : Z) (step : StepResult) (s : session G) : session G :=
  let record := mkKernelTraceRecord (kx_sequence (se_execution s)) (KernelTraceCore (mkCoreTraceRecord attempt step)) in
  mkSession (next_sequence (se_execution s)) (add_core step record (se_result s)) (se_trace s ++ [record]).

(** ** The parts of one turn *)

(** One complete CTA: its slot is reclaimed and its record leaves the runtime. *)
Definition reclaimOne (s : session G) (ctaID : Z) : session G * result unit :=
  match rt_resident (runtime s) !! ctaID with
  | None => (s, Err (Errorf "device: resident CTA slot has no generation record"))
  | Some cta =>
      match ReclaimCTA (rt_core (runtime s)) ctaID with
      | (core, Err _) => (set_runtime (set_core core (runtime s)) s, Err (Errorf "device: reclaim CTA slot"))
      | (core, Ok reclaimed) =>
          let s := set_runtime (set_resident (delete ctaID (rt_resident (runtime s))) (set_core core (runtime s))) s in
          (emitEvent (mkCTAEvent CTACompleted cta (Some reclaimed)) (set_result count_completed s), Ok tt)
      end
  end.

Fixpoint reclaimLoop (s : session G) (completions : list CTACompletionSnapshot) : session G * result unit :=
  match completions with
  | [] => (s, Ok tt)
  | completion :: rest =>
      if negb (cps_Complete completion) then reclaimLoop s rest
      else
        match reclaimOne s (cps_CTAID completion) with
        | (s, Err e) => (s, Err e)
        | (s, Ok _) => reclaimLoop s rest
        end
  end.

Definition reclaimCompleted (s : session G) : session G * result unit :=
  match CTACompletions (rt_core (runtime s)) with
  | Err e => (s, Err e)
  | Ok completions => reclaimLoop s completions
  end.

Definition slot_drained (slot : SlotSnapshot) : bool :=
  negb ((sn_Lifecycle slot !=. SlotInactive) || sn_Participated slot || (sn_BlockReason slot !=. BlockNone) ||
        (sn_ArchitecturalState slot !=. WarpInactive) || (sn_ArchitecturalLaneMask slot <>? 0) || negb (is_none (sn_BarrierKey slot)) || sn_BarrierDraining slot).

Definition kernel_complete (r : kernelRuntime G) : result bool :=
  if negb (Remaining (rt_walker r) =? 0) || negb (length (rt_pending r) =? 0)%nat || negb (size (rt_resident r) =? 0)%nat then Ok false
  else
    let? completions := CTACompletions (rt_core r) in
    check (length completions =? 0)%nat else Errorf "device: no resident mapping but Core retains CTAs" in
    let? slots := Slots (rt_core r) in
    check forallb slot_drained slots else Errorf "device: lower owner retains work in warp slot" in
    Ok true.

(** The generation of one cluster: [n] CTAs. *)
Fixpoint generateCluster (n : nat) (s : session G) : session G * result unit :=
  match n with
  | O => (s, Ok tt)
  | S n =>
      match Next (rt_walker (runtime s)) with
      | (walker, None) => (set_runtime (set_walker walker (runtime s)) s, Err (Errorf "device: grid walker ended inside a cluster"))
      | (walker, Some cta) =>
          let s := set_runtime (set_pending (rt_pending (runtime s) ++ [cta]) (set_walker walker (runtime s))) s in
          generateCluster n (emitEvent (mkCTAEvent CTAGenerated cta None) (set_result count_generated s))
      end
  end.

Definition generate (s : session G) : session G * result unit :=
  if (length (rt_pending (runtime s)) =? 0)%nat && (Remaining (rt_walker (runtime s)) <>? 0)
  then generateCluster (Z.to_nat (la_ClusterSize (kx_launch (se_execution s)))) s
  else (s, Ok tt).

(** The records of an admitted cluster. *)
Fixpoint recordAdmitted (s : session G) (admitted : list CTASnapshot) (pending : list CTA) : session G * result unit :=
  match admitted, pending with
  | [], _ => (s, Ok tt)
  | _ :: _, [] => (s, Err (GoPanic "index out of range"))
  | snapshot :: admitted, cta :: pending =>
      let s := set_runtime (set_resident (<[cc_ID (cs_Config snapshot) := cta]> (rt_resident (runtime s))) (runtime s)) s in
      recordAdmitted (emitEvent (mkCTAEvent CTAAdmitted cta (Some snapshot)) (set_result count_admitted s)) admitted pending
  end.

(** What the admission of the pending cluster does to the turn. *)
Inductive admission := NothingPending | ClusterEntered | NoRoom | AdmissionFault (e : error).

Definition admitPending (s : session G) : session G * admission :=
  match rt_pending (runtime s) with
  | [] => (s, NothingPending)
  | pending =>
      match AdmitCTACluster (rt_core (runtime s)) (map CoreConfig pending) with
      | (core, Ok admitted) =>
          match recordAdmitted (set_runtime (set_core core (runtime s)) s) admitted pending with
          | (s, Err e) => (s, AdmissionFault e)
          | (s, Ok _) => (set_runtime (set_pending [] (runtime s)) s, ClusterEntered)
          end
      | (core, Err e) =>
          let s := set_runtime (set_core core (runtime s)) s in
          if negb (bool_decide (e = ErrCTAResourcesUnavailable)) then (s, AdmissionFault e)
          else if (size (rt_resident (runtime s)) =? 0)%nat then (s, AdmissionFault (Errorf "device: validated cluster cannot be admitted to an empty core"))
          else (s, NoRoom)
      end
  end.

Definition finish (outcome : KernelOutcome) (err : option KernelRunError) (s : session G) : session G := set_result (stop_with outcome false err) s.
Definition fault (e : error) (s : session G) : session G := finish KernelFault (Some (KernelError e)) s.

Definition mark_complete (s : session G) : session G :=
  let e := se_execution s in
  mkSession (mkKernelExecution (kx_runtime e) (kx_launch e) (kx_sequence e) true) (stop_with KernelComplete true None (se_result s)) (se_trace s).

Context `{SoftFloatLib}.

(** The step of one turn: [true] when the loop goes on. *)
Definition stepCore (options : KernelRunOptions) (s : session G) : session G * bool :=
  let attempt := kr_Attempts (se_result s) in
  if attempt >=? ko_StepBudget options
  then (finish KernelBudgetExceeded (Some (KernelBudgetExceededError (ko_StepBudget options))) s, false)
  else
    let context := match ko_Context options with Some context => context attempt | None => zero_context end in
    let '(core, step, err) := Core_Step (rt_core (runtime s)) context in
    let s := set_runtime (set_core core (runtime s)) s in
    match sr_Outcome step with
    | StepIdle =>
        match err with
        | Err e => (fault e s, false)
        | Ok _ => (finish KernelBlocked (Some (KernelBlockedError (u32 (Z.of_nat (size (rt_resident (runtime s))))) (u32 (zlen (rt_pending (runtime s)))))) s, false)
        end
    | StepExecuted =>
        let s := emitCore attempt step (set_result count_attempt s) in
        match err with
        | Err e => (fault e s, false)
        | Ok _ =>
            match sr_WarpResult step with
            | None => (fault (Errorf "device: Core selected warp with unexpected outcome") s, false)
            | Some r =>
                match r_Outcome r with
                | OutcomeRetired => (set_result count_retired s, true)
                | OutcomeDeferred => (finish KernelDeferred (Some (KernelDeferredError (sr_WarpID step) (sr_BlockReason step))) s, false)
                | OutcomeTrap => (finish KernelTrap (Some (KernelWarpError (r_Fault r))) s, false)
                | OutcomeFault => (finish KernelFault (Some (KernelWarpError (r_Fault r))) s, false)
                | OutcomeFinished => (fault (Errorf "device: Core selected warp with unexpected outcome") s, false)
                end
            end
        end
    end.

(** One turn of the loop of [Run]: [true] when it goes on. *)
Definition turn (options : KernelRunOptions) (s : session G) : session G * bool :=
  match reclaimCompleted s with
  | (s, Err e) => (fault e s, false)
  | (s, Ok _) =>
      match kernel_complete (runtime s) with
      | Err e => (fault e s, false)
      | Ok true => (mark_complete s, false)
      | Ok false =>
          match generate s with
          | (s, Err e) => (fault e s, false)
          | (s, Ok _) =>
              match admitPending s with
              | (s, AdmissionFault e) => (fault e s, false)
              | (s, ClusterEntered) => (s, true)
              | (s, NothingPending) | (s, NoRoom) => stepCore options s
              end
          end
      end
  end.

Fixpoint runTurns (fuel : nat) (options : KernelRunOptions) (s : session G) : option (session G) :=
  match fuel with
  | O => None
  | S fuel => match turn options s with
              | (s, true) => runTurns fuel options s
              | (s, false) => Some s
              end
  end.

(** A turn that goes on either executed an instruction or admitted a generated cluster. *)
Definition turns_left (options : KernelRunOptions) (s : session G) : nat :=
  Z.to_nat (ko_StepBudget options - kr_Attempts (se_result s)) + Z.to_nat (Remaining (rt_walker (runtime s))) + length (rt_pending (runtime s)).

Definition Execution_Run (e : KernelExecution G) (options : KernelRunOptions) : option (session G) :=
  let s := mkSession e no_result [] in
  if kx_complete e then Some (mkSession e (stop_with KernelComplete true None no_result) [])
  else runTurns (S (turns_left options s)) options s.

Definition Executor_Run (e : KernelExecutor G) (g : G) (options : KernelRunOptions) : option (session G) + KernelRunResult :=
  match NewExecution e g with
  | Err error => inr (stop_with KernelFault false (Some (KernelError error)) no_result)
  | Ok execution => inl (Execution_Run execution options)
  end.
End Kernel.
