(* ===== verification/KernelSpec.v ===== *)
(** * Kernel executions run the grid

    An execution of a validated launch, across any number of runs and barrier events:
    every CTA of the grid is generated once and in order, admitted in whole clusters,
    and reclaimed; nothing is lost or duplicated, the bookkeeping of the executor
    never faults, and every run returns. *)

From stdpp Require Import sorting.
From S2P Require Import Prelude IsaTypes Catalog Decode Integer System Custom Softfloat Float Memory WarpState Apply ApplyInvariant View EvaluateTyped WarpExec WarpCorrect.
From S2P Require Import Cta CtaInvariant CtaTyped CtaMemory Barrier BarrierSpec Launch LaunchSpec Core CoreStep Scheduling Admission CoreInvariant CoreBarrier CoreCoordinate CoreStepInvariant CoreReach CoreFrame.
From S2P Require Import Grid GridSpec ClusterAdmission Kernel.

#[local] Open Scope Z_scope.
#[local] Open Scope go_scope.

(** ** Reclaiming complete CTAs *)
Section Reclaim.
Context {G : Type} (I : G -> Prop).
Implicit Type c : Core G.

(** A core of a kernel: dynamic, sealed, with a barrier table and no pending-work provider. *)
Record kernel_core c : Prop := {
  kc_wf : core_wf I c;
  kc_attached : co_attached c = true;
  kc_dynamic : cm_dynamic (co_ctas c) = true;
  kc_sealed : cm_sealed (co_ctas c) = true;
  kc_barriers : is_Some (cm_barriers (co_ctas c));
  kc_provider : co_pendingWork c = None
}.

Lemma pendingCTA_iff records id : pendingCTA records id = true <-> exists key r, records !! key = Some r /\ bk_CTAID key = id /\ record_pending r = true.
Proof.
  unfold pendingCTA. rewrite existsb_exists. split.
  - intros ([key r] & Hin%list_elem_of_In%elem_of_map_to_list & [E%Z.eqb_eq Hp]%andb_true_iff). by exists key, r.
  - intros (key & r & Hr & <- & Hp). exists (key, r). split; [by apply list_elem_of_In, elem_of_map_to_list|]. cbn. by rewrite Z.eqb_refl, Hp.
Qed.

Lemma pending_drop records a b : a <> b -> pendingCTA (drop_records a records) b = pendingCTA records b.
Proof.
  intros Hne. apply eq_true_iff_eq. rewrite !pendingCTA_iff. unfold drop_records. split; intros (key & r & Hr & E & Hp).
  - apply map_lookup_filter_Some in Hr as [Hr _]. by exists key, r.
  - exists key, r. split; [|done]. apply map_lookup_filter_Some. split; [done|]. cbn. congruence.
Qed.

(** A complete resident CTA can be reclaimed. *)
Lemma reclaim_complete c id cta completion : kernel_core c -> cm_ctas (co_ctas c) !! id = Some cta -> CTACompletion c id = Ok completion -> cps_Complete completion = true ->
  exists c', ReclaimCTA c id = (c', Ok (snapshotCTA cta)).
Proof.
  intros [Hc Ha Hd Hs [records Hb] Hp] Hl Hcomp Hdone. unfold ReclaimCTA. rewrite (validate_ok I c Hc), Ha, Hd. cbn [result_bind andb].
  unfold CTAManager_Snapshot. rewrite Hl. cbn [result_bind]. rewrite Hcomp. cbn [result_bind]. rewrite Hdone.
  assert (foldM (no_pending_work c) tt (cs_Members (snapshotCTA cta)) = Ok tt) as ->.
  { generalize (cs_Members (snapshotCTA cta)). intros ms. induction ms as [|m ms IH]; cbn [foldM]; [done|]. unfold no_pending_work at 1. by rewrite Hp. }
  cbn [result_bind]. unfold commitDynamicReclaim. rewrite Hd, Hs, Hb, Hl. cbn [negb orb].
  assert (pendingCTA records id = false) as ->.
  { unfold CTACompletion in Hcomp. rewrite (validate_ok I c Hc), Ha in Hcomp. cbn [result_bind] in Hcomp. unfold cta_completion in Hcomp. rewrite Hl, Hb in Hcomp.
    apply Ok_inj in Hcomp as <-. cbn [cps_Complete] in Hdone. rewrite !andb_true_iff in Hdone. by destruct Hdone as [_ Hn%negb_true_iff]. }
  destruct (cr_ctas I c Hc) as (Hcta & _ & _).
  assert (forallb (member_consistent (co_ctas c) id) (ct_members cta) = true) as ->.
  { apply forallb_forall. intros mem Hm%list_elem_of_In. destruct (cw_members _ Hcta id cta Hl) as [_ Hok]. rewrite Forall_forall in Hok.
    unfold member_consistent. apply bool_decide_eq_true_2. by apply Hok. }
  cbn [negb]. by eexists.
Qed.

Lemma fold_left_ext_in {A B} (f g : A -> B -> A) xs a : (forall a x, x ∈ xs -> f a x = g a x) -> fold_left f xs a = fold_left g xs a.
Proof.
  revert a. induction xs as [|x xs IH]; intros a H; cbn; [done|]. rewrite (H a x) by (by left). apply IH. intros a' y Hy. apply H. by right.
Qed.

Lemma cta_completion_ext m m' id cta views views' : cm_ctas m !! id = Some cta -> cm_ctas m' !! id = Some cta ->
  (forall mem, mem ∈ ct_members cta -> qget views (wmb_WarpID mem) = qget views' (wmb_WarpID mem)) ->
  match cm_barriers m with Some records => pendingCTA records id | None => false end = match cm_barriers m' with Some records => pendingCTA records id | None => false end ->
  cta_completion m id views = cta_completion m' id views'.
Proof.
  intros H1 H2 Hv Hp. unfold cta_completion. rewrite H1, H2, <- Hp. f_equal. f_equal.
  - f_equal. f_equal.
    + f_equal. apply eq_true_iff_eq. rewrite !forallb_forall. split; intros H mem Hm; specialize (H mem Hm); cbv beta in *;  (rewrite Hv in H || rewrite <- Hv in H); try done; by apply list_elem_of_In.
    + f_equal. apply fold_left_ext_in. intros mask mem Hm. by rewrite (Hv mem Hm).
  - apply fold_left_ext_in. intros mask mem Hm. by rewrite (Hv mem Hm).
  - apply map_ext_in. intros mem Hm%list_elem_of_In. by rewrite (Hv mem Hm).
Qed.

(** Reclaiming one CTA keeps the kernel's core and the completion of every other CTA. *)
Lemma reclaim_keeps c a snapshot c' : kernel_core c -> ReclaimCTA c a = (c', Ok snapshot) ->
  kernel_core c' /\ cm_ctas (co_ctas c') = delete a (cm_ctas (co_ctas c)) /\
  forall b, b <> a -> is_Some (cm_ctas (co_ctas c) !! b) -> CTACompletion c' b = CTACompletion c b.
Proof.
  intros [Hc Ha Hd Hs Hb Hp] E. pose proof (ReclaimCTA_wf I c a Hc) as Hc'. pose proof (reclaim_frame I c a Hc) as Hf. destruct (cr_ctas I c Hc) as (Hcta & _ & _).
  pose proof (ReclaimCTA_cases c a Hcta) as Hcases. rewrite E in Hc', Hf, Hcases. cbn [fst] in Hc'. destruct Hf as (F1 & F2 & F3 & F4 & F5 & F6).
  split; [split; [done|congruence|congruence|congruence|auto|congruence]|]. split; [done|]. intros b Hne [x Hx].
  destruct Hcases as (cta & records & completion & _ & _ & Hl & Hr & _ & _ & _ & _ & Ec' & Hslots).
  unfold CTACompletion. rewrite (validate_ok I c Hc), (validate_ok I c' Hc'), F1, Ha. cbn [result_bind].
  apply (cta_completion_ext _ _ b x); [by rewrite F6, lookup_delete_ne by done|done| |].
  - intros mem Hm. pose proof (members_ok_idx _ _ _ (cw_members _ Hcta b x Hx)) as Hidx. rewrite Forall_forall in Hidx. pose proof (Hidx mem Hm) as Hi.
    rewrite !qget_qmake by done. rewrite (Hslots _ Hi). rewrite bool_decide_eq_false_2; [done|].
    intros (mem' & E' & Hm')%list_elem_of_fmap. destruct (cw_members _ Hcta b x Hx) as [_ Hbk]. destruct (cw_members _ Hcta a cta Hl) as [_ Hak].
    rewrite Forall_forall in Hbk. rewrite Forall_forall in Hak. destruct (Hbk mem Hm) as [_ T1]. destruct (Hak mem' Hm') as [_ T2]. rewrite E', T2 in T1. by injection T1.
  - rewrite Ec', Hr. cbn [set_slots set_manager co_ctas remove_cta bump_epoch set_barriers cm_barriers]. by apply pending_drop.
Qed.

(** The completions of a kernel's core: one for each resident, in increasing order of the ids. *)
Lemma residentIDs_spec m : NoDup (residentIDs m) /\ forall id, id ∈ residentIDs m <-> is_Some (cm_ctas m !! id).
Proof.
  unfold residentIDs. pose proof (merge_sort_Permutation Z.le (map fst (map_to_list (cm_ctas m)))) as Hp. split.
  - rewrite Hp. apply NoDup_fst_map_to_list.
  - intros id. rewrite Hp, list_elem_of_fmap. split.
    + intros ([i x] & -> & Hx%elem_of_map_to_list). by exists x.
    + intros [x Hx]. exists (id, x). split; [done|by apply elem_of_map_to_list].
Qed.

Lemma CTACompletion_ok c id : kernel_core c -> is_Some (cm_ctas (co_ctas c) !! id) -> exists completion, CTACompletion c id = Ok completion /\ cps_CTAID completion = id.
Proof.
  intros [Hc Ha _ _ _ _] [cta Hl]. unfold CTACompletion, cta_completion. rewrite (validate_ok I c Hc), Ha, Hl. cbn [result_bind]. by eexists.
Qed.

Lemma CTACompletions_ok c : kernel_core c -> exists completions, CTACompletions c = Ok completions /\
  map cps_CTAID completions = residentIDs (co_ctas c) /\ Forall (fun completion => CTACompletion c (cps_CTAID completion) = Ok completion) completions.
Proof.
  intros Hk. pose proof Hk as [Hc Ha _ _ _ _]. unfold CTACompletions. rewrite (validate_ok I c Hc), Ha. cbn [result_bind].
  assert (forall xs acc, (forall id, id ∈ xs -> is_Some (cm_ctas (co_ctas c) !! id)) -> exists completions,
    foldM (fun acc id => let? completion := CTACompletion c id in Ok (acc ++ [completion])) acc xs = Ok (acc ++ completions) /\
    map cps_CTAID completions = xs /\ Forall (fun completion => CTACompletion c (cps_CTAID completion) = Ok completion) completions) as Hloop.
  { intros xs. induction xs as [|x xs IH]; intros acc Hx; cbn [foldM]; [exists []; by rewrite app_nil_r|].
    destruct (CTACompletion_ok c x Hk) as (completion & E & Eid); [apply Hx; by left|]. rewrite E. cbn [result_bind].
    destruct (IH (acc ++ [completion])) as (rest & -> & Em & Hf); [intros; apply Hx; by right|]. exists (completion :: rest). rewrite <- app_assoc. split; [done|].
    split; [cbn; congruence|]. constructor; [congruence|done]. }
  destruct (Hloop (residentIDs (co_ctas c)) []) as (completions & E & Em & Hf); [intros id; apply residentIDs_spec|]. by exists completions.
Qed.
End Reclaim.

(** ** The bookkeeping *)

(** The CTAs of the events of one kind, in order. *)
Definition ctas_of (kind : CTAEventKind) (events : list CTAEvent) : list CTA :=
  flat_map (fun event => match ev_Kind event, kind with
    | CTAGenerated, CTAGenerated | CTAAdmitted, CTAAdmitted | CTACompleted, CTACompleted => [ev_CTA event]
    | _, _ => []
    end) events.

Lemma ctas_of_app kind h h' : ctas_of kind (h ++ h') = ctas_of kind h ++ ctas_of kind h'.
Proof. apply flat_map_app. Qed.

(** One more event. *)
Definition of_kind (kind : CTAEventKind) (event : CTAEvent) : list CTA := ctas_of kind [event].

Lemma ctas_of_snoc kind h h' event : ctas_of kind (h ++ (h' ++ [event])) = ctas_of kind (h ++ h') ++ of_kind kind event.
Proof. by rewrite app_assoc, ctas_of_app. Qed.

Section Bookkeeping.
Context {G : Type} (I : G -> Prop) (l : LaunchState) (Ht : input_typed l) (V : launch_valid l).

Notation S := (volume (la_ClusterDimensions l)).

(** The CTAs [k], ..., [k + n - 1] of the grid. *)
Definition grid_ctas (k : Z) (n : nat) : list CTA := map (fun i => cta_at l (k + Z.of_nat i)) (seq 0 n).

(** The walker after [k] CTAs. *)
Definition walker_after (k : Z) : GridWalker := if k <? cta_count l then walker_at l k else exhausted l.

(** The pending cluster: nothing, or the last [S] generated CTAs. *)
Definition pending_ok (k : Z) (pending : list CTA) : Prop := pending = [] \/ S <= k /\ pending = grid_ctas (k - S) (Z.to_nat S).

(** The runtime after the events [h]: [k] CTAs of the grid are generated, a whole number
    of clusters; those generated are admitted or pending, those admitted completed or
    resident, and the executor knows exactly the residents of the core. *)
Record runtime_ok (r : kernelRuntime G) (h : list CTAEvent) (k : Z) : Prop := {
  ro_core : kernel_core I (rt_core r);
  ro_count : 0 <= k <= cta_count l;
  ro_clusters : k mod S = 0;
  ro_walker : rt_walker r = walker_after k;
  ro_pending : pending_ok k (rt_pending r);
  ro_generated : ctas_of CTAGenerated h = grid_ctas 0 (Z.to_nat k);
  ro_admitted : ctas_of CTAAdmitted h ++ rt_pending r = ctas_of CTAGenerated h;
  ro_completed : ctas_of CTACompleted h ++ map snd (map_to_list (rt_resident r)) ≡ₚ ctas_of CTAAdmitted h;
  ro_resident : dom (rt_resident r) = dom (cm_ctas (co_ctas (rt_core r)))
}.

Lemma grid_ctas_app k n n' : grid_ctas k (n + n') = grid_ctas k n ++ grid_ctas (k + Z.of_nat n) n'.
Proof.
  unfold grid_ctas. rewrite seq_app, map_app. f_equal. replace (seq (0 + n) n') with (map (Nat.add n) (seq 0 n')) by (etrans; [apply (fmap_add_seq n 0 n')|]; f_equal; lia).
  rewrite map_map. apply map_ext. intros i. f_equal. lia.
Qed.

Lemma clusters_left k : 0 <= k < cta_count l -> k mod S = 0 -> k + S <= cta_count l.
Proof.
  intros Hk Hm. pose proof (cluster_size_pos l V) as HS. pose proof (total_split l Ht V ltac:(lia)) as E. pose proof (Z.div_mod k S ltac:(lia)) as Ed. rewrite Hm, Z.add_0_r in Ed.
  assert (k / S < volume (clusters l)) by nia. nia.
Qed.

Lemma remaining_after k : 0 <= k <= cta_count l -> Remaining (walker_after k) = cta_count l - k.
Proof.
  intros Hk. pose proof (lv_total l V). unfold walker_after. destruct (Z.ltb_spec k (cta_count l)).
  - unfold Remaining. cbn [walker_at gw_emitted gw_launch normalized with_derived la_TotalCTAs]. destruct (Z.leb_spec (cta_count l) k); [lia|]. apply u32_id. unfold is_u32. lia.
  - unfold Remaining. cbn [exhausted gw_emitted gw_launch normalized with_derived la_TotalCTAs]. rewrite Z.leb_refl. lia.
Qed.

Lemma next_after k : 0 <= k < cta_count l -> Next (walker_after k) = (walker_after (k + 1), Some (cta_at l k)).
Proof.
  intros Hk. unfold walker_after at 1. destruct (Z.ltb_spec k (cta_count l)); [|lia]. rewrite (Next_at l Ht V) by lia. done.
Qed.

(** What no part of a turn but the step changes. *)
Definition same_run (s s' : session G) : Prop :=
  kr_Attempts (se_result s') = kr_Attempts (se_result s) /\ kx_launch (se_execution s') = kx_launch (se_execution s) /\
  kx_complete (se_execution s') = kx_complete (se_execution s) /\ kr_Complete (se_result s') = kr_Complete (se_result s).

Lemma same_run_trans s1 s2 s3 : same_run s1 s2 -> same_run s2 s3 -> same_run s1 s3.
Proof. unfold same_run. intros (? & ? & ? & ?) (? & ? & ? & ?). split_and!; congruence. Qed.

(** *** Reclaim *)

Lemma reclaimOne_ok s h k id completion : runtime_ok (runtime s) (h ++ kr_CTAEvents (se_result s)) k ->
  is_Some (cm_ctas (co_ctas (rt_core (runtime s))) !! id) -> CTACompletion (rt_core (runtime s)) id = Ok completion -> cps_Complete completion = true ->
  exists s', reclaimOne s id = (s', Ok tt) /\ runtime_ok (runtime s') (h ++ kr_CTAEvents (se_result s')) k /\
    rt_pending (runtime s') = rt_pending (runtime s) /\ same_run s s' /\
    (forall b, b <> id -> is_Some (cm_ctas (co_ctas (rt_core (runtime s))) !! b) ->
       is_Some (cm_ctas (co_ctas (rt_core (runtime s'))) !! b) /\ CTACompletion (rt_core (runtime s')) b = CTACompletion (rt_core (runtime s)) b).
Proof.
  intros Hr [cta Hl] Hcomp Hdone. unfold reclaimOne. assert (is_Some (rt_resident (runtime s) !! id)) as [x Hx].
  { apply elem_of_dom. rewrite (ro_resident _ _ _ Hr). by apply elem_of_dom_2 in Hl. }
  rewrite Hx. destruct (reclaim_complete I _ id cta completion (ro_core _ _ _ Hr) Hl Hcomp Hdone) as [c' E]. rewrite E.
  destruct (reclaim_keeps I _ id _ c' (ro_core _ _ _ Hr) E) as (Hk' & Em & Hkeep). eexists. split; [done|].
  cbn [emitEvent set_result se_result se_execution runtime kx_runtime next_sequence set_runtime set_core set_resident rt_core rt_walker rt_pending rt_resident add_event count_completed kr_CTAEvents kr_Attempts kx_launch kx_complete].
  split_and!; [|done..|].
  - destruct Hr as [R1 R2 R3 R4 R5 R6 R7 R8 R9]. split; cbn [rt_core rt_walker rt_pending rt_resident]; try done.
    + rewrite ctas_of_snoc. cbn. by rewrite app_nil_r.
    + rewrite !ctas_of_snoc. cbn. by rewrite !app_nil_r.
    + rewrite !ctas_of_snoc. cbn. rewrite app_nil_r, <- R8. rewrite <- (insert_delete_id _ _ _ Hx) at 2. rewrite map_to_list_insert by apply lookup_delete_eq.
      cbn. rewrite <- app_assoc. done.
    + cbn [set_resident set_core rt_resident rt_core]. rewrite dom_delete_L, Em, dom_delete_L, R9. done.
  - intros b Hne Hb. split; [|by apply Hkeep]. by rewrite Em, lookup_delete_ne.
Qed.

Lemma reclaimLoop_ok completions s h k : runtime_ok (runtime s) (h ++ kr_CTAEvents (se_result s)) k -> NoDup (map cps_CTAID completions) ->
  Forall (fun completion => is_Some (cm_ctas (co_ctas (rt_core (runtime s))) !! cps_CTAID completion) /\
    CTACompletion (rt_core (runtime s)) (cps_CTAID completion) = Ok completion) completions ->
  exists s', reclaimLoop s completions = (s', Ok tt) /\ runtime_ok (runtime s') (h ++ kr_CTAEvents (se_result s')) k /\
    rt_pending (runtime s') = rt_pending (runtime s) /\ same_run s s'.
Proof.
  revert s. induction completions as [|completion completions IH]; intros s Hr Hd Hc; cbn [reclaimLoop]; [by exists s|].
  cbn [map] in Hd. apply NoDup_cons in Hd as [Hn Hd]. apply Forall_cons in Hc as [[Hl Hcomp] Hc]. destruct (cps_Complete completion) eqn:Hdone; cbn [negb].
  2:{ by apply IH. }
  destruct (reclaimOne_ok s h k _ _ Hr Hl Hcomp Hdone) as (s1 & E & Hr1 & Hp1 & Hs1 & Hkeep). rewrite E.
  destruct (IH s1 Hr1 Hd) as (s2 & E2 & Hr2 & Hp2 & Hs2).
  { apply Forall_forall. intros x Hx. rewrite Forall_forall in Hc. destruct (Hc x Hx) as [Hlx Hcx].
    assert (cps_CTAID x <> cps_CTAID completion) as Hne by (intros Ex; apply Hn; rewrite <- Ex; by apply list_elem_of_fmap_2).
    destruct (Hkeep _ Hne Hlx) as [H1 H2]. split; [done|congruence]. }
  exists s2. split_and!; [done|done|congruence|by eapply same_run_trans].
Qed.

Lemma reclaimCompleted_ok s h k : runtime_ok (runtime s) (h ++ kr_CTAEvents (se_result s)) k ->
  exists s', reclaimCompleted s = (s', Ok tt) /\ runtime_ok (runtime s') (h ++ kr_CTAEvents (se_result s')) k /\
    rt_pending (runtime s') = rt_pending (runtime s) /\ same_run s s'.
Proof.
  intros Hr. destruct (CTACompletions_ok I _ (ro_core _ _ _ Hr)) as (completions & E & Em & Hf). unfold reclaimCompleted. rewrite E.
  destruct (residentIDs_spec (co_ctas (rt_core (runtime s)))) as [Hd Hids]. apply reclaimLoop_ok; [done|by rewrite Em|].
  apply Forall_forall. intros x Hx. rewrite Forall_forall in Hf. split; [|by apply Hf]. apply Hids. rewrite <- Em. by apply list_elem_of_fmap_2.
Qed.

(** *** Completion *)

Lemma drained c j : kernel_core I c -> cm_ctas (co_ctas c) = ∅ -> idx4 j -> exists slot, snapshotSlot c j = Ok slot /\ slot_drained slot = true.
Proof.
  intros [Hc Ha _ _ _ _] E Hj. destruct (no_residents_unused I c Hc E) as [_ Hun]. destruct (Hun Ha j Hj) as [_ Hp].
  destruct (unused_slot I c Hc j Hj Hp) as (Hl & Hu & w & Hw & _ & Hwl & Hm). unfold snapshotSlot, deref. rewrite Hw. cbn [result_bind]. eexists. split; [done|].
  unfold slot_drained. cbn [sn_Lifecycle sn_Participated sn_BlockReason sn_ArchitecturalState sn_ArchitecturalLaneMask sn_BarrierKey sn_BarrierDraining].
  rewrite Hl, Hp, Hwl, Hm. unfold slot_unused, key_clear in Hu. rewrite !andb_true_iff, negb_true_iff in Hu. destruct Hu as [[[_ _] Hr%bool_decide_eq_true] Hk%negb_true_iff].
  rewrite Hr. rewrite !orb_false_iff in Hk. destruct Hk as [[-> ->] _]. done.
Qed.

Lemma kernel_complete_ok r h k : runtime_ok r h k -> exists b, kernel_complete r = Ok b /\ (b = true <-> k = cta_count l /\ rt_pending r = [] /\ rt_resident r = ∅).
Proof.
  intros Hr. unfold kernel_complete. rewrite (ro_walker _ _ _ Hr), remaining_after by apply Hr.
  destruct (Z.eqb_spec (cta_count l - k) 0) as [Hk|Hk]; cbn [negb orb]; [|exists false; split; [done|]; split; [done|intros [? _]; lia]].
  destruct (Nat.eqb_spec (length (rt_pending r)) 0) as [Hp|Hp]; cbn [negb orb]; [|exists false; split; [done|]; split; [done|intros (_ & Hp' & _); by rewrite Hp' in Hp]].
  destruct (Nat.eqb_spec (size (rt_resident r)) 0) as [Hs|Hs]; cbn [negb]; [|exists false; split; [done|]; split; [done|intros (_ & _ & Hs'); by rewrite Hs' in Hs]].
  apply map_size_empty_iff in Hs. apply length_zero_iff_nil in Hp. pose proof (ro_resident _ _ _ Hr) as Hd. rewrite Hs, dom_empty_L in Hd. symmetry in Hd. apply dom_empty_iff_L in Hd.
  pose proof (ro_core _ _ _ Hr) as Hc. destruct (CTACompletions_ok I _ Hc) as (completions & E & Em & _). rewrite E. cbn [result_bind].
  assert (completions = []) as ->.
  { destruct completions as [|x completions]; [done|]. exfalso. destruct (residentIDs_spec (co_ctas (rt_core r))) as [_ Hids]. assert (cps_CTAID x ∈ residentIDs (co_ctas (rt_core r))) as Hx by (rewrite <- Em; by left).
    apply Hids in Hx as [y Hy]. by rewrite Hd, lookup_empty in Hy. }
  cbn [length Nat.eqb]. unfold Slots. rewrite (validate_ok I _ (kc_wf _ _ Hc)). cbn [result_bind]. unfold ids. cbn [foldM].
  destruct (drained _ 0 Hc Hd ltac:(by left)) as (s0 & -> & H0). destruct (drained _ 1 Hc Hd ltac:(by right; left)) as (s1 & -> & H1).
  destruct (drained _ 2 Hc Hd ltac:(by right; right; left)) as (s2 & -> & H2). destruct (drained _ 3 Hc Hd ltac:(by right; right; right)) as (s3 & -> & H3).
  cbn [result_bind app forallb]. rewrite H0, H1, H2, H3. cbn [andb]. exists true. split; [done|]. split; [|done]. intros _. split_and!; [lia|done|done].
Qed.

(** *** Generation *)

Lemma generateCluster_ok n s k : 0 <= k -> k + Z.of_nat n <= cta_count l -> rt_walker (runtime s) = walker_after k ->
  exists s', generateCluster n s = (s', Ok tt) /\ same_run s s' /\
    runtime s' = set_pending (rt_pending (runtime s) ++ grid_ctas k n) (set_walker (walker_after (k + Z.of_nat n)) (runtime s)) /\
    kr_CTAEvents (se_result s') = kr_CTAEvents (se_result s) ++ map (fun cta => mkCTAEvent CTAGenerated cta None) (grid_ctas k n).
Proof.
  revert s k. induction n as [|n IH]; intros s k Hk Hle Hw; cbn [generateCluster].
  { exists s. split; [done|]. split; [done|]. cbn. rewrite !app_nil_r, Z.add_0_r, <- Hw. split; [|done]. by destruct (runtime s). }
  rewrite Hw, next_after by lia.
  set (s1 := emitEvent _ _). destruct (IH s1 (k + 1)) as (s' & E & Hs & Hr & Hev); [lia|lia|done|].
  exists s'. split; [done|]. split; [eapply same_run_trans; [|exact Hs]; done|].
  assert (grid_ctas k (Datatypes.S n) = cta_at l k :: grid_ctas (k + 1) n) as ->.
  { change (Datatypes.S n) with (1 + n)%nat. rewrite grid_ctas_app. unfold grid_ctas at 1. cbn. by rewrite Z.add_0_r. }
  split.
  - rewrite Hr. replace (k + Z.of_nat (Datatypes.S n)) with (k + 1 + Z.of_nat n) by lia. cbn. by rewrite <- app_assoc.
  - rewrite Hev. cbn. by rewrite <- app_assoc.
Qed.

Lemma ctas_of_map kind kind' (f : CTA -> option CTASnapshot) xs :
  ctas_of kind (map (fun cta => mkCTAEvent kind' cta (f cta)) xs) = match kind', kind with
    | CTAGenerated, CTAGenerated | CTAAdmitted, CTAAdmitted | CTACompleted, CTACompleted => xs
    | _, _ => []
    end.
Proof. induction xs as [|x xs IH]; [by destruct kind', kind|]. cbn [map ctas_of flat_map] in *. unfold ctas_of in IH. rewrite IH. by destruct kind', kind. Qed.

(** CTAs generated or waiting: what a turn may still bring into the core. *)
Definition waiting (s : session G) : nat := Z.to_nat (Remaining (rt_walker (runtime s))) + length (rt_pending (runtime s)).

Lemma generate_ok s h k : runtime_ok (runtime s) (h ++ kr_CTAEvents (se_result s)) k -> kx_launch (se_execution s) = normalized l ->
  exists s' k', generate s = (s', Ok tt) /\ runtime_ok (runtime s') (h ++ kr_CTAEvents (se_result s')) k' /\ same_run s s' /\
    waiting s' = waiting s /\ (rt_pending (runtime s') = [] -> k' = cta_count l).
Proof.
  intros Hr Hl. unfold generate. pose proof (cluster_size_pos l V) as HS. pose proof (ro_count _ _ _ Hr) as Hk. rewrite (ro_walker _ _ _ Hr), (remaining_after k Hk).
  destruct (Nat.eqb_spec (length (rt_pending (runtime s))) 0) as [Hp|Hp]; cbn [andb].
  2:{ exists s, k. split_and!; try done. intros E. by rewrite E in Hp. }
  apply length_zero_iff_nil in Hp. destruct (Z.eqb_spec (cta_count l - k) 0) as [Hz|Hz]; cbn [negb].
  { exists s, k. split_and!; try done. intros _. lia. }
  rewrite Hl. change (la_ClusterSize (normalized l)) with S. pose proof (clusters_left k ltac:(lia) (ro_clusters _ _ _ Hr)) as Hleft.
  destruct (generateCluster_ok (Z.to_nat S) s k ltac:(lia) ltac:(lia) (ro_walker _ _ _ Hr)) as (s' & E & Hsame & Er & Ev). rewrite Z2Nat.id in Er by lia.
  exists s', (k + S). split; [done|]. rewrite Hp in Er. cbn [app] in Er. destruct Hr as [R1 R2 R3 R4 R5 R6 R7 R8 R9]. rewrite Hp, app_nil_r in R7. split_and!.
  - rewrite Er, Ev. split; cbn [set_pending set_walker rt_core rt_walker rt_pending rt_resident].
    + done.
    + lia.
    + rewrite Z.add_mod, R3, Z.mod_same by lia. done.
    + done.
    + right. split; [lia|]. f_equal. lia.
    + rewrite app_assoc, ctas_of_app, (ctas_of_map CTAGenerated CTAGenerated (fun _ => None)), R6.
      replace (Z.to_nat (k + S)) with (Z.to_nat k + Z.to_nat S)%nat by lia. rewrite grid_ctas_app. f_equal. f_equal. lia.
    + rewrite app_assoc, !ctas_of_app, !(ctas_of_map _ CTAGenerated (fun _ => None)), app_nil_r, <- !ctas_of_app, R7. done.
    + rewrite app_assoc, !(ctas_of_app _ (h ++ _)), !(ctas_of_map _ CTAGenerated (fun _ => None)), !app_nil_r. done.
    + done.
  - done.
  - unfold waiting. rewrite Er. cbn [set_pending set_walker rt_walker rt_pending]. rewrite R4, !remaining_after, Hp by lia. unfold grid_ctas. rewrite length_map, length_seq. cbn [length]. lia.
  - rewrite Er. cbn [set_pending rt_pending]. intros E0. apply (f_equal length) in E0. unfold grid_ctas in E0. rewrite length_map, length_seq in E0. cbn in E0. lia.
Qed.

(** *** Admission *)

Definition bind_residents (ids : list Z) (ctas : list CTA) (m : gmap Z CTA) : gmap Z CTA := fold_left (fun m p => <[p.1 := p.2]> m) (zip ids ctas) m.

Lemma recordAdmitted_ok snapshots ctas s : length snapshots = length ctas ->
  exists s' events, recordAdmitted s snapshots ctas = (s', Ok tt) /\ same_run s s' /\
    runtime s' = set_resident (bind_residents (map (fun x => cc_ID (cs_Config x)) snapshots) ctas (rt_resident (runtime s))) (runtime s) /\
    kr_CTAEvents (se_result s') = kr_CTAEvents (se_result s) ++ events /\
    ctas_of CTAAdmitted events = ctas /\ ctas_of CTAGenerated events = [] /\ ctas_of CTACompleted events = [].
Proof.
  revert ctas s. induction snapshots as [|x snapshots IH]; intros [|cta ctas] s Hl; cbn [recordAdmitted]; try (by cbn in Hl).
  { exists s, []. rewrite app_nil_r. split_and!; try done. cbn. by destruct (runtime s). }
  set (s1 := emitEvent _ _). destruct (IH ctas s1) as (s' & events & E & Hs & Er & Ev & H1 & H2 & H3); [by cbn in Hl; lia|].
  exists s', (mkCTAEvent CTAAdmitted cta (Some x) :: events). split; [done|]. split; [eapply same_run_trans; [|exact Hs]; done|]. split; [by rewrite Er|].
  split; [rewrite Ev; cbn; by rewrite <- app_assoc|]. exact (conj (f_equal (cons cta) H1) (conj H2 H3)).
Qed.

Lemma bind_residents_ok ids ctas (m : gmap Z CTA) : length ids = length ctas -> NoDup ids -> Forall (fun id => m !! id = None) ids ->
  map snd (map_to_list (bind_residents ids ctas m)) ≡ₚ ctas ++ map snd (map_to_list m) /\ dom (bind_residents ids ctas m) = dom m ∪ list_to_set ids.
Proof.
  revert ctas m. induction ids as [|id ids IH]; intros [|cta ctas] m Hl Hd Hf; try (by cbn in Hl); unfold bind_residents; cbn [zip zip_with fold_left].
  { split; [done|]. set_solver. }
  apply NoDup_cons in Hd as [Hn Hd]. apply Forall_cons in Hf as [Hid Hf]. cbn [fst snd]. destruct (IH ctas (<[id := cta]> m)) as [H1 H2]; [by cbn in Hl; lia|done| |].
  { apply Forall_forall. intros x Hx. rewrite Forall_forall in Hf. rewrite lookup_insert_ne; [by apply Hf|]. by intros ->. }
  unfold bind_residents in H1, H2. rewrite H1, H2, map_to_list_insert by done. cbn [map snd]. split; [by rewrite <- Permutation_middle|]. rewrite dom_insert_L. cbn. set_solver.
Qed.

Lemma install_dom cs m : dom (cm_ctas (fold_left (fun m x => install x m) cs m)) = dom (cm_ctas m) ∪ list_to_set (map (fun x => cc_ID (ct_config x)) cs).
Proof.
  revert m. induction cs as [|x cs IH]; intros m; cbn [fold_left map]; [set_solver|]. rewrite IH. cbn [install set_byWarp set_ctas cm_ctas]. rewrite dom_insert_L. cbn. set_solver.
Qed.

Lemma distinct_ids m cs : CtaInvariant.cluster_ok m cs -> NoDup (map (fun x => cc_ID (ct_config x)) cs).
Proof.
  intros [_ Hp _]. induction Hp as [|x cs Hx Hp IH]; cbn [map]; constructor; [|done]. intros (y & E & Hy)%list_elem_of_fmap.
  rewrite List.Forall_forall in Hx. apply list_elem_of_In in Hy. by destruct (Hx y Hy) as [Hne _].
Qed.

Lemma member_config_ok k i : is_u32 (la_ParameterAddress l) -> config_ok (member_config l k i).
Proof.
  intros Hp. pose proof (cluster_size_pos l V). split; [|apply (local_aligned l Ht V k)].
  split; cbn [member_config CoreConfig cc_BlockID cc_BlockDimensions cc_GridDimensions cc_ClusterSize cc_Entry cc_StartupPC cc_ParameterAddress].
  - unfold triple_u32, cta_at, current_cta. cbn. split_and!; apply u32_range.
  - destruct (ly_block l Ht) as (? & ? & ?). by unfold triple_u32.
  - destruct (ly_grid l Ht) as (? & ? & ?). by unfold triple_u32.
  - cbn. unfold is_u32. lia.
  - apply Ht.
  - apply Ht.
  - done.
Qed.

Lemma admitPending_ok s h k : runtime_ok (runtime s) (h ++ kr_CTAEvents (se_result s)) k ->
  match admitPending s with
  | (_, AdmissionFault _) => False
  | (s', NothingPending) => s' = s /\ rt_pending (runtime s) = []
  | (s', NoRoom) => runtime_ok (runtime s') (h ++ kr_CTAEvents (se_result s')) k /\ same_run s s' /\ waiting s' = waiting s
  | (s', ClusterEntered) => runtime_ok (runtime s') (h ++ kr_CTAEvents (se_result s')) k /\ same_run s s' /\ (waiting s' < waiting s)%nat
  end.
Proof.
  intros Hr. unfold admitPending. destruct (rt_pending (runtime s)) as [|cta0 pending0] eqn:Epend; [by split|]. rewrite <- Epend. pose proof (ro_pending _ _ _ Hr) as Hp.
  destruct Hp as [Hp|[Hk Hp]]; [by rewrite Epend in Hp|]. clear Epend cta0 pending0. pose proof (cluster_size_pos l V) as HS. pose proof (ro_count _ _ _ Hr) as Hcount.
  assert (map CoreConfig (rt_pending (runtime s)) = map (member_config l (k - S)) (seq 0 (Z.to_nat S))) as ->.
  { rewrite Hp. unfold grid_ctas. by rewrite map_map. }
  set (configs := map (member_config l (k - S)) (seq 0 (Z.to_nat S))). pose proof (ro_core _ _ _ Hr) as Hcore. pose proof Hcore as [Hc Ha Hd Hs Hb Hpr].
  assert ((k - S) mod S = 0) as Hstart by (rewrite Zminus_mod, (ro_clusters _ _ _ Hr), Z.mod_same by lia; done).
  pose proof (admit_cluster l Ht V ltac:(lia) (k - S) ltac:(lia) Hstart ltac:(lia) I (rt_core (runtime s)) Hc Ha Hd Hs Hb) as Hadmit. fold configs in Hadmit.
  pose proof (AdmitCTACluster_cases (rt_core (runtime s)) configs) as Hcases.
  assert (Forall config_ok configs) as Hok.
  { apply Forall_map, Forall_forall. intros i _. apply member_config_ok. apply (ly_param l Ht). }
  pose proof (AdmitCTACluster_wf I (rt_core (runtime s)) configs Hc Hok) as Hc'. pose proof (admit_frame (rt_core (runtime s)) configs) as Hf.
  destruct (AdmitCTACluster (rt_core (runtime s)) configs) as [c' [snapshots|e]]; cbn [fst snd] in *.
  2:{ subst c'. destruct Hadmit as [-> Hne]. rewrite bool_decide_eq_true_2 by done. cbn [negb].
      assert (set_runtime (set_core (rt_core (runtime s)) (runtime s)) s = s) as -> by (by destruct s as [[[] ? ? ?] ? ?]).
      destruct (Nat.eqb_spec (size (rt_resident (runtime s))) 0) as [E|E]; [|done]. apply map_size_empty_iff in E. pose proof (ro_resident _ _ _ Hr) as Hdom.
      rewrite E, dom_empty_L in Hdom. symmetry in Hdom. by apply dom_empty_iff_L in Hdom. }
  destruct Hcases as (warps & adm & Hsel & Hst & _ & _ & Hlen & Hfree & -> & Had). destruct Hf as (F1 & F2 & F3 & F4 & F5).
  set (cs := as_candidates adm) in *. assert (length cs = length (rt_pending (runtime s))) as Elen.
  { rewrite Hlen, Hp. unfold configs, grid_ctas. by rewrite !length_map. }
  set (s1 := set_runtime (set_core c' (runtime s)) s).
  destruct (recordAdmitted_ok (map snapshotCTA cs) (rt_pending (runtime s)) s1) as (s' & events & E & Hsame & Er & Ev & H1 & H2 & H3); [by rewrite length_map|].
  rewrite E. rewrite map_map in Er. change (map (fun x => cc_ID (cs_Config (snapshotCTA x))) cs) with (map (fun x => cc_ID (ct_config x)) cs) in Er.
  set (ids := map (fun x => cc_ID (ct_config x)) cs) in *.
  destruct (cr_ctas I _ Hc) as (Hcta & Hpack & _).
  assert (NoDup ids) as Hnd.
  { apply (distinct_ids (co_ctas (rt_core (runtime s)))). eapply stageDynamicAdmissions_ok; [exact Hcta|exact Hpack| | |exact Hst].
    - eapply Forall_impl; [exact Hok|]. by intros ? [].
    - eapply Forall_impl; [by eapply selectCluster_idx|]. intros ws Hws. eapply Forall_impl; [exact Hws|]. intros w Hw%idx4_range. lia. }
  assert (Forall (fun id => rt_resident (runtime s) !! id = None) ids) as Hnew.
  { apply Forall_map. eapply Forall_impl; [exact Hfree|]. intros x Hx. apply not_elem_of_dom. rewrite (ro_resident _ _ _ Hr). by apply not_elem_of_dom. }
  destruct (bind_residents_ok ids (rt_pending (runtime s)) (rt_resident (runtime s))) as [Hvals Hdom]; [by unfold ids; rewrite length_map|done|done|].
  destruct Hr as [R1 R2 R3 R4 R5 R6 R7 R8 R9]. split.
  - cbn [set_runtime runtime se_execution kx_runtime se_result]. rewrite Ev. fold (runtime s'). rewrite Er. change (kr_CTAEvents (se_result s1)) with (kr_CTAEvents (se_result s)).
    split; cbn [set_pending set_resident rt_core rt_walker rt_pending rt_resident].
    + change (kernel_core I c'). split; [done|congruence..|by rewrite F5|congruence].
    + done.
    + done.
    + done.
    + by left.
    + by rewrite app_assoc, ctas_of_app, H2, app_nil_r.
    + rewrite app_nil_r, app_assoc, !(ctas_of_app _ (h ++ _)), H1, H2, app_nil_r. done.
    + rewrite app_assoc, !(ctas_of_app _ (h ++ _)), H1, H3, app_nil_r. change (rt_resident (runtime s1)) with (rt_resident (runtime s)).
      rewrite Hvals, <- R8, <- app_assoc. apply Permutation_app_head, Permutation_app_comm.
    + change (rt_resident (runtime s1)) with (rt_resident (runtime s)). change (rt_core (runtime s1)) with c'. rewrite Hdom, (ad_manager _ _ _ Had). cbn [bump_epoch cm_ctas].
      by rewrite install_dom, R9.
  - split; [eapply same_run_trans; [|exact Hsame]; done|]. unfold waiting. cbn [set_runtime runtime se_execution kx_runtime]. fold (runtime s'). rewrite Er.
    cbn [set_pending set_resident rt_walker rt_pending length]. change (rt_walker (runtime s1)) with (rt_walker (runtime s)).
    rewrite Hp. unfold grid_ctas. rewrite length_map, length_seq. lia.
Qed.

(** *** Steps and turns *)
Context {L : SoftFloatLib} {HL : SoftFloatLaws L}.

(** The options Go's types allow. *)
Record options_typed (options : KernelRunOptions) : Prop := {
  op_budget : is_u64 (ko_StepBudget options);
  op_context : forall f n, ko_Context options = Some f -> context_typed (f n)
}.

(** The context of attempt [n]. *)
Definition attempt_context (options : KernelRunOptions) (n : Z) : ReadContext := match ko_Context options with Some context => context n | None => zero_context end.

(** The run ended in a step of the core, whose result and error satisfy [Q]; an idle
    step is not an attempt. *)
Definition last_step (options : KernelRunOptions) (s : session G) (Q : StepResult -> result unit -> Prop) : Prop :=
  exists c n, kernel_core I c /\ let '(c', step, err) := Core_Step c (attempt_context options n) in
    rt_core (runtime s) = c' /\ kr_Attempts (se_result s) = (match sr_Outcome step with StepExecuted => n + 1 | StepIdle => n end) /\ Q step err.

(** The step executed an instruction without an error of the core, and [P] holds of the
    result of its warp. *)
Definition executed_step (P : StepResult -> Result -> Prop) (step : StepResult) (err : result unit) : Prop :=
  err = Ok tt /\ sr_Outcome step = StepExecuted /\ exists r, sr_WarpResult step = Some r /\ P step r.

(** Why a run stopped, by its outcome, and the typed error it carries. *)
Definition stop_reason (options : KernelRunOptions) (s : session G) : Prop :=
  let stopped_with err := kr_Err (se_result s) = err in
  match kr_Outcome (se_result s) with
  | KernelComplete => stopped_with None
  | KernelBudgetExceeded => kr_Attempts (se_result s) = ko_StepBudget options /\ stopped_with (Some (KernelBudgetExceededError (ko_StepBudget options)))
  | KernelBlocked =>
      last_step options s (fun step err => sr_Outcome step = StepIdle /\ err = Ok tt) /\
      (forall j, idx4 j -> sl_lifecycle (slot_at (rt_core (runtime s)) j) <> SlotRunnable) /\
      stopped_with (Some (KernelBlockedError (u32 (Z.of_nat (size (rt_resident (runtime s))))) (u32 (zlen (rt_pending (runtime s))))))
  | KernelDeferred =>
      last_step options s (executed_step (fun step r => r_Outcome r = OutcomeDeferred /\ stopped_with (Some (KernelDeferredError (sr_WarpID step) (sr_BlockReason step)))))
  | KernelTrap => last_step options s (executed_step (fun step r => r_Outcome r = OutcomeTrap /\ stopped_with (Some (KernelWarpError (r_Fault r)))))
  | KernelFault =>
      last_step options s (fun step err => (exists e, err = Err e /\ stopped_with (Some (KernelError e))) \/
        executed_step (fun step r => r_Outcome r = OutcomeFault /\ stopped_with (Some (KernelWarpError (r_Fault r)))) step err)
  end.

(** A run that does not complete. *)
Definition stopped (options : KernelRunOptions) (s : session G) : Prop :=
  kx_complete (se_execution s) = false /\ kr_Complete (se_result s) = false /\ kr_Outcome (se_result s) <> KernelComplete /\ stop_reason options s.

Lemma zero_context_typed : context_typed zero_context.
Proof. split; [by vm_compute|by vm_compute|]. split; by vm_compute. Qed.

Lemma Core_Step_core c context : kernel_core I c -> context_typed context -> kernel_core I (Core_Step c context).1.1 /\ dom (cm_ctas (co_ctas (Core_Step c context).1.1)) = dom (cm_ctas (co_ctas c)).
Proof.
  intros [Hc Ha Hd Hs Hb Hp] Hctx. pose proof (Core_Step_wf I c context Hc Hctx) as Hc'. destruct (Core_Step_frame I c context Hc Hctx) as [F1 F2 [F3 F4 F5 F6]].
  split; [|done]. split; [done|congruence..| |congruence]. by apply F5.
Qed.

Lemma idle_no_runnable c context : core_wf I c -> context_typed context -> let '(c', step, err) := Core_Step c context in
  sr_Outcome step = StepIdle -> err = Ok tt -> forall j, idx4 j -> sl_lifecycle (slot_at c' j) <> SlotRunnable.
Proof.
  intros Hc Hctx. unfold Core_Step. rewrite (validate_ok I c Hc). destruct (refreshFunctionalWaits c context) as [c1 [[]|e]] eqn:Er; [|done].
  destruct (selectRunnable c1) as [id|] eqn:Es.
  - unfold stepWarp. destruct (stepContext c1 id context) as [[[[context' active] before] view]|e]; [|done]. destruct (execute _ _ _ _) as [c2 r].
    destruct (coordinate _ _ _ _ _ _ _ _) as [[[c3 r'] t] [[]|e]]; [|done]. destruct (settle c3 id r') as [c4 [[]|e]]; [|done]. by destruct (validateSlot c4 id).
  - intros _ _ j Hj Hrun. unfold selectRunnable in Es. apply (find_none _ _ ) with (x := j) in Es; [by rewrite Hrun, bool_decide_eq_true_2 in Es|].
    assert (core_wf I c1) as Hc1 by (pose proof (refresh_wf I c context Hc) as H; by rewrite Er in H). pose proof (cr_next I c1 Hc1) as Hn.
    apply in_map_iff. exists (distance c1 j). split; [apply (distance_position c1 j Hn); by apply idx4_range in Hj|]. apply ids_in. unfold distance. apply idx4_range. apply Z.mod_pos_bound. lia.
Qed.

Lemma stepCore_ok options s h k : runtime_ok (runtime s) (h ++ kr_CTAEvents (se_result s)) k -> options_typed options -> kx_complete (se_execution s) = false ->
  kr_Complete (se_result s) = false -> 0 <= kr_Attempts (se_result s) <= ko_StepBudget options ->
  let '(s', more) := stepCore options s in
  (runtime_ok (runtime s') (h ++ kr_CTAEvents (se_result s')) k /\ waiting s' = waiting s /\ kx_launch (se_execution s') = kx_launch (se_execution s) /\
   kx_complete (se_execution s') = false /\ kr_Complete (se_result s') = false /\ kr_Attempts (se_result s') <= ko_StepBudget options) /\
  if more then kr_Attempts (se_result s') = kr_Attempts (se_result s) + 1 else stopped options s'.
Proof.
  intros Hr [Hb Hctx] Hx Hkc Hat. unfold stepCore. destruct (Z.leb_spec (ko_StepBudget options) (kr_Attempts (se_result s))) as [Hge|Hlt].
  { split; [split_and!; try done; cbn; lia|]. split; [done|]. split; [done|]. split; [done|]. split; [cbn; lia|done]. }
  fold (attempt_context options (kr_Attempts (se_result s))). set (context := attempt_context options (kr_Attempts (se_result s))).
  assert (context_typed context) as Hct by (unfold context, attempt_context; destruct (ko_Context options) as [f|] eqn:Ef; [by apply (Hctx f)|apply zero_context_typed]).
  pose proof (ro_core _ _ _ Hr) as Hcore. pose proof (Core_Step_core _ context Hcore Hct) as [Hk' Hd']. pose proof (Core_Step_result I _ context (kc_wf I _ Hcore) Hct) as Hres.
  pose proof (idle_no_runnable _ context (kc_wf I _ Hcore) Hct) as Hidle.
  assert (exists r, r = Core_Step (rt_core (runtime s)) context) as [r Er] by eauto. rewrite <- Er in *.
  destruct r as [[core step] err]. cbn [fst] in Hk', Hd'.
  set (s1 := set_runtime (set_core core (runtime s)) s). set (s2 := emitCore (kr_Attempts (se_result s)) step (set_result count_attempt s1)).
  assert (runtime_ok (set_core core (runtime s)) (h ++ kr_CTAEvents (se_result s)) k) as Hr1 by (destruct Hr; split; try done; cbn; congruence).
  assert (kr_Attempts (se_result s2) = kr_Attempts (se_result s) + 1) as Ea by (cbn; apply u64_id; unfold is_u64 in *; lia).
  assert (forall s', runtime s' = set_core core (runtime s) -> kr_CTAEvents (se_result s') = kr_CTAEvents (se_result s) -> kx_launch (se_execution s') = kx_launch (se_execution s) ->
    kx_complete (se_execution s') = false -> kr_Complete (se_result s') = false -> kr_Attempts (se_result s') <= ko_StepBudget options ->
    runtime_ok (runtime s') (h ++ kr_CTAEvents (se_result s')) k /\ waiting s' = waiting s /\ kx_launch (se_execution s') = kx_launch (se_execution s) /\
    kx_complete (se_execution s') = false /\ kr_Complete (se_result s') = false /\ kr_Attempts (se_result s') <= ko_StepBudget options) as Hkeep.
  { intros s' E1 E2 E3 E4 E5 E6. unfold waiting. rewrite E1, E2. by split_and!. }
  assert (forall s' (Q : StepResult -> result unit -> Prop), rt_core (runtime s') = core -> Q step err ->
    kr_Attempts (se_result s') = (match sr_Outcome step with StepExecuted => kr_Attempts (se_result s) + 1 | StepIdle => kr_Attempts (se_result s) end) -> last_step options s' Q) as Hlast.
  { intros s' Q E1 E2 E3. exists (rt_core (runtime s)), (kr_Attempts (se_result s)). fold context. rewrite <- Er. by split_and!. }
  cbv zeta. destruct (sr_Outcome step) eqn:Eo.
  - destruct err as [[]|e]; (split; [apply Hkeep; try done; cbn; lia|]); (split; [done|]); (split; [done|]); (split; [done|]).
    + split; [by apply Hlast|]. split; [cbn; by apply Hidle|done].
    + apply Hlast; [done|left; by eexists|done].
  - destruct (Hres eq_refl) as (r & Ewr & Hnf). rewrite Ewr.
    destruct err as [[]|e].
    2: { split; [apply Hkeep; try done; rewrite ?Ea; cbn in *; lia|]. do 3 (split; [done|]). apply Hlast; [done|left; by eexists|exact Ea]. }
    destruct (r_Outcome r) eqn:Eout; try done; (split; [apply Hkeep; try done; cbn in *; lia|]); try done; do 3 (split; [done|]); cbn; (apply Hlast; [done| |exact Ea]).
    + split; [done|]. split; [done|]. by exists r.
    + right. split; [done|]. split; [done|]. by exists r.
    + split; [done|]. split; [done|]. by exists r.
Qed.

(** The state of a running session, between turns. *)
Record session_ok (options : KernelRunOptions) (h : list CTAEvent) (s : session G) : Prop := {
  so_runtime : exists k, runtime_ok (runtime s) (h ++ kr_CTAEvents (se_result s)) k;
  so_launch : kx_launch (se_execution s) = normalized l;
  so_running : kx_complete (se_execution s) = false /\ kr_Complete (se_result s) = false;
  so_attempts : 0 <= kr_Attempts (se_result s) <= ko_StepBudget options
}.

(** Everything is done: the whole grid is generated, nothing waits, nothing is resident. *)
Definition all_done (r : kernelRuntime G) (h : list CTAEvent) : Prop :=
  runtime_ok r h (cta_count l) /\ rt_pending r = [] /\ rt_resident r = ∅.

Definition completed_run (h : list CTAEvent) (s : session G) : Prop :=
  all_done (runtime s) (h ++ kr_CTAEvents (se_result s)) /\ kx_complete (se_execution s) = true /\
  kr_Outcome (se_result s) = KernelComplete /\ kr_Complete (se_result s) = true /\ kr_Err (se_result s) = None.

(** How a run ends. *)
Definition run_over (options : KernelRunOptions) (h : list CTAEvent) (s : session G) : Prop :=
  kx_launch (se_execution s) = normalized l /\ kr_Attempts (se_result s) <= ko_StepBudget options /\
  (completed_run h s \/ (exists k, runtime_ok (runtime s) (h ++ kr_CTAEvents (se_result s)) k) /\ stopped options s).

Lemma turn_ok options h s : session_ok options h s -> options_typed options ->
  let '(s', more) := turn options s in
  if more then session_ok options h s' /\ (turns_left options s' < turns_left options s)%nat else run_over options h s'.
Proof.
  intros [[k Hr] Hl [Hx Hkc] Hat] Hopt. unfold turn. destruct (reclaimCompleted_ok s h k Hr) as (s1 & E1 & Hr1 & Hp1 & (A1 & L1 & X1 & C1)). rewrite E1.
  assert (waiting s1 = waiting s) as W1.
  { unfold waiting. by rewrite Hp1, (ro_walker _ _ _ Hr), (ro_walker _ _ _ Hr1). }
  destruct (kernel_complete_ok (runtime s1) _ k Hr1) as (b & Eb & Hb). rewrite Eb. destruct b.
  { destruct (proj1 Hb eq_refl) as (-> & Hp & Hres). split; [cbn; congruence|]. split; [cbn; lia|]. left. by split_and!. }
  destruct (generate_ok s1 h k Hr1 ltac:(congruence)) as (s2 & k2 & E2 & Hr2 & (A2 & L2 & X2 & C2) & W2 & _). rewrite E2.
  assert (forall s3, runtime_ok (runtime s3) (h ++ kr_CTAEvents (se_result s3)) k2 -> same_run s2 s3 -> waiting s3 = waiting s2 ->
    let '(s', more) := stepCore options s3 in
    if more then session_ok options h s' /\ (turns_left options s' < turns_left options s)%nat else run_over options h s') as Hstep.
  { intros s3 Hr3 (A3 & L3 & X3 & C3) W3. pose proof (stepCore_ok options s3 h k2 Hr3 Hopt ltac:(congruence) ltac:(congruence) ltac:(lia)) as H.
    destruct (stepCore options s3) as [s' more]. destruct H as ((Hr' & W' & L' & X' & C' & A') & Hm). destruct more.
    - split; [|unfold turns_left; rewrite <- !Nat.add_assoc; fold (waiting s') (waiting s); lia]. split; [by exists k2|congruence|done|lia].
    - split; [congruence|]. split; [done|]. right. split; [by exists k2|done]. }
  pose proof (admitPending_ok s2 h k2 Hr2) as Hadm. destruct (admitPending s2) as [s3 []]; [| | |done].
  - destruct Hadm as [-> _]. by apply Hstep.
  - destruct Hadm as (Hr3 & (A3 & L3 & X3 & C3) & W3). split; [|unfold turns_left; rewrite <- !Nat.add_assoc; fold (waiting s3) (waiting s); lia].
    split; [by exists k2|congruence|split; congruence|lia].
  - destruct Hadm as (Hr3 & Hs3 & W3). by apply Hstep.
Qed.

Lemma runTurns_ok fuel options h s : session_ok options h s -> options_typed options -> (turns_left options s < fuel)%nat ->
  exists s', runTurns fuel options s = Some s' /\ run_over options h s'.
Proof.
  revert s. induction fuel as [|fuel IH]; intros s Hs Hopt Hf; [lia|]. cbn [runTurns]. pose proof (turn_ok options h s Hs Hopt) as H.
  destruct (turn options s) as [s' []]; [|by exists s']. destruct H as [Hs' Hlt]. apply IH; [done|done|lia].
Qed.

(** *** Executions *)

(** An execution after the events [h]. *)
Record execution_ok (e : KernelExecution G) (h : list CTAEvent) : Prop := {
  xo_launch : kx_launch e = normalized l;
  xo_runtime : exists k, runtime_ok (kx_runtime e) h k;
  xo_complete : kx_complete e = true -> all_done (kx_runtime e) h
}.

Lemma Execution_Run_ok e h options : execution_ok e h -> options_typed options ->
  exists s, Execution_Run e options = Some s /\ execution_ok (se_execution s) (h ++ kr_CTAEvents (se_result s)) /\ run_over options h s.
Proof.
  intros [Hl [k Hr] Hd] Hopt. unfold Execution_Run. destruct (kx_complete e) eqn:Ex.
  - eexists. split; [done|]. cbn [se_execution se_result stop_with no_result kr_CTAEvents]. rewrite app_nil_r. specialize (Hd eq_refl). split; [split; eauto|].
    split; [done|]. split; [cbn; apply Hopt|]. left. unfold completed_run. cbn [se_execution se_result stop_with no_result kr_CTAEvents runtime]. rewrite app_nil_r. by split_and!.
  - destruct (runTurns_ok (Datatypes.S (turns_left options (mkSession e no_result []))) options h (mkSession e no_result [])) as (s & E & Hover); [|done|lia|].
    { split; cbn; [exists k; by rewrite app_nil_r|done|done|]. split; [lia|apply Hopt]. }
    exists s. split; [exact E|]. split; [|done]. destruct Hover as (Hl' & _ & [Hc|[Hr' Hst]]).
    + destruct Hc as (Ha & _). split; [done| |done]. exists (cta_count l). apply Ha.
    + split; [done|done|]. destruct Hst as [Hf _]. by rewrite Hf.
Qed.

Lemma event_ok e h key : execution_ok e h -> execution_ok (Kernel_CompleteBarrierEvent e key).1 h.
Proof.
  intros [Hl [k Hr] Hd]. unfold Kernel_CompleteBarrierEvent. destruct (kx_complete e) eqn:Ex; [split; [done|by exists k|intros _; by apply Hd]|].
  pose proof (event_frame (rt_core (kx_runtime e)) key) as [F1 F2 [F3 F4 F5 F6]]. pose proof (ro_core _ _ _ Hr) as Hcore. destruct Hcore as [Hc Ha Hdy Hs Hb Hp].
  pose proof (CompleteBarrierEvent_wf I _ key Hc) as Hc'. destruct (CompleteBarrierEvent (rt_core (kx_runtime e)) key) as [core r]. cbn [fst] in *.
  split; cbn [kx_launch kx_runtime kx_complete]; [done| |by intros Hx; congruence]. exists k. destruct Hr. split; cbn; try done; [|congruence].
  split; [done|congruence..|by apply F5|congruence].
Qed.
End Bookkeeping.

(** ** A fresh execution *)

Definition fresh_warp (pc id : Z) : WarpState :=
  mkWarpState id pc 0 WarpInactive 0 0 (mkTrapCSRState 0 0 0 0 0 0) (mkDivergenceState 0 (replicate 3 no_record))
    (qfill (mkLaneState (replicate 32 0) (replicate 32 0))).

Lemma new_warp pc id : pc .& 3 = 0 -> idx4 id -> NewWarp (inactive_initial pc id) = Ok (fresh_warp pc id).
Proof.
  intros Hp Hi. unfold NewWarp. cbn [inactive_initial wi_Topology wi_WarpID wi_PC wi_ActiveMask wi_SavedThreadMask wi_Lifecycle wi_FCSR wi_Lanes wi_Divergence wi_TrapCSRs].
  rewrite bool_decide_eq_true_2 by done. rewrite Hp. assert (negb (id >=? FrozenWarpCount) = true) as -> by (destruct Hi as [-> | [-> | [-> | ->]]]; reflexivity).
  cbn [negb Z.eqb]. assert (makeDivergence (mkDivergenceInitial 0 []) = Ok (mkDivergenceState 0 (replicate 3 no_record))) as -> by (vm_compute; reflexivity).
  set (lanes := foldM newWarpLane _ _). assert (lanes = Ok (qfill true, qfill (mkLaneState (replicate 32 0) (replicate 32 0)))) as -> by (vm_compute; reflexivity).
  reflexivity.
Qed.

Lemma fresh_warp_wf pc id : pc_ok pc -> idx4 id -> warp_wf (fresh_warp pc id).
Proof.
  intros Hp Hi%idx4_range. split; cbn [fresh_warp w_id w_pc w_activeMask w_lifecycle w_savedThreadMask w_fcsr w_trapCSRs w_divergence w_lanes]; try done.
  - by right.
  - split; cbn; [lia|done|lia|]. intros i Hr. assert (i = 0 \/ i = 1 \/ i = 2) as [-> | [-> | ->]] by lia; done.
  - assert (lane_wf (mkLaneState (replicate 32 0) (replicate 32 0))) as Hl by (split; cbn [gpr fpr]; [apply zero_file_ok|apply zero_file_ok|done]).
    by apply qforall_qfill.
Qed.

(** The owners and executors of a fresh runtime. *)
Definition fresh_owners (pc : Z) : owners :=
  <[3 := fresh_warp pc 3]> (<[2 := fresh_warp pc 2]> (<[1 := fresh_warp pc 1]> (<[0 := fresh_warp pc 0]> ∅))).

Section Fresh.
Context {G : Type} (I : G -> Prop) (l : LaunchState) (Ht : input_typed l) (V : launch_valid l).
Context (mem : BackingMemory G) (Hbound : bm_BoundWarpID mem = None).
Context (Hct : ServiceContract I (backing_service mem)) (Hkeep : service_keeps (backing_service mem) I).

Notation e := (mkKernelExecutor (normalized l) mem).

Definition fresh_executor (id : Z) : Executor G := mkExecutor id (backing_source mem) (Routed id (backing_service mem)).

Lemma startup_aligned : la_StartupPC (normalized l) .& 3 = 0.
Proof. change 3 with (Z.ones 2). rewrite Z.land_ones by lia. apply (lv_startup l V). Qed.

Lemma new_executor acc id : idx4 id -> newWarpExecutor e acc id = Ok (<[id := fresh_warp (la_StartupPC l) id]> acc.1, acc.2 ++ [Some (fresh_executor id)]).
Proof.
  intros Hi. unfold newWarpExecutor. cbn [ke_launch ke_memory]. rewrite (new_warp _ _ startup_aligned Hi).
  unfold NewCTAMemory. assert (negb (id >=? FrozenWarpCount) = true) as -> by (destruct Hi as [-> | [-> | [-> | ->]]]; reflexivity).
  unfold NewWithServices, New. cbn [backing_source is_memory]. unfold validateBoundMemory. cbn [dsv_BoundWarpID]. rewrite Hbound. cbn [result_bind CTAMemory dsv_BoundWarpID].
  change (w_id (fresh_warp (la_StartupPC (normalized l)) id)) with id. rewrite Z.eqb_refl. done.
Qed.

Definition fresh_core (g : G) : Core G :=
  mkCore (Quad (mkSlot 0 (fresh_executor 0) SlotInactive BlockNone false no_key false false) (mkSlot 1 (fresh_executor 1) SlotInactive BlockNone false no_key false false)
            (mkSlot 2 (fresh_executor 2) SlotInactive BlockNone false no_key false false) (mkSlot 3 (fresh_executor 3) SlotInactive BlockNone false no_key false false))
    0 None true (qfill false) (fresh_owners (la_StartupPC l)) (set_barriers (Some ∅) (set_sealed true NewDynamicCTAManager)) g.

Lemma new_core g : NewWithCTAManager (fresh_owners (la_StartupPC l)) NewDynamicCTAManager g (map (fun id => Some (fresh_executor id)) ids) = Ok (fresh_core g).
Proof. reflexivity. Qed.

Lemma fresh_core_wf g : I g -> core_wf I (fresh_core g).
Proof.
  intros Hg. pose proof (new_core g) as H. unfold NewWithCTAManager in H. apply result_bind_ok in H as (c0 & H0 & H).
  destruct (Core_New_wf I (fresh_owners (la_StartupPC l)) NewDynamicCTAManager g (map (fun id => Some (fresh_executor id)) ids) c0) as [Hc0 _]; [..|exact H0|].
  - assert (forall id, idx4 id -> warp_wf (fresh_warp (la_StartupPC l) id)) as Hw.
    { intros id Hi. apply fresh_warp_wf; [|done]. split; [apply Ht|apply (lv_startup l V)]. }
    intros p w Hp. unfold fresh_owners in Hp. repeat (apply lookup_insert_Some in Hp as [[_ <-]|[_ Hp]]; [apply Hw; unfold idx4; auto|]). by rewrite lookup_empty in Hp.
  - apply (NewCTAManager_wf true).
  - apply (NewCTAManager_wf true).
  - intros id x. cbn. by rewrite lookup_empty.
  - intros key r. cbn. by rewrite lookup_empty.
  - exact Hg.
  - apply Forall_map, Forall_forall. intros id Hid%ids_idx4 ex [= <-]. done.
  - pose proof (SetCTAManager_wf I c0 Hc0) as Hc. destruct (SetCTAManager c0) as [c1 r]. apply result_bind_ok in H as (u & _ & <-%Ok_inj). exact Hc.
Qed.

Lemma fresh_walker : NewGridWalker (normalized l) = Ok (walker_after l 0).
Proof.
  unfold NewGridWalker. rewrite (validated_again l Ht V). cbn [result_bind]. f_equal. unfold walker_after. destruct (Z.ltb_spec 0 (cta_count l)) as [Hp|Hz].
  - pose proof (start_at (normalized l) (normalized_typed l Ht) (normalized_valid l V) ltac:(change (cta_count l <> 0); lia)) as H. unfold NewGridWalker in H. rewrite (validated_again l Ht V) in H.
    cbn [result_bind] in H. apply Ok_inj in H. rewrite H. reflexivity.
  - assert (cta_count l = 0) as E by (pose proof (cta_count_nonneg l Ht); lia). unfold exhausted. by rewrite E.
Qed.

(** The runtime of a validated launch can be built, and nothing has happened in it. *)
Lemma NewExecution_ok g : I g -> exists x, NewExecution e g = Ok x /\ execution_ok I l x [].
Proof.
  intros Hg. unfold NewExecution, newRuntime.
  assert (foldM (newWarpExecutor e) (∅, []) ids = Ok (fresh_owners (la_StartupPC l), map (fun id => Some (fresh_executor id)) ids)) as ->.
  { unfold ids. cbn [foldM]. rewrite (new_executor _ 0) by (by left). cbn [result_bind]. rewrite (new_executor _ 1) by (by right; left). cbn [result_bind].
    rewrite (new_executor _ 2) by (by right; right; left). cbn [result_bind]. by rewrite (new_executor _ 3) by (by right; right; right). }
  cbn [result_bind fst snd]. rewrite new_core. cbn [ke_launch]. rewrite fresh_walker. cbn [result_bind]. eexists. split; [done|].
  pose proof (cta_count_nonneg l Ht) as H0.
  split; cbn [kx_launch kx_runtime kx_complete]; [done| |done]. exists 0. split; cbn [rt_core rt_walker rt_pending rt_resident]; try done.
  - split; try done. by apply fresh_core_wf.
  - by left.
Qed.
End Fresh.

(** ** Kernels *)

(** What a host may do with an execution: run it, or complete an event of a barrier. *)
Inductive execution_step {G : Type} `{SoftFloatLib} : KernelExecution G * list CTAEvent -> KernelExecution G * list CTAEvent -> Prop :=
| step_run x h options s : options_typed options -> Execution_Run x options = Some s ->
    execution_step (x, h) (se_execution s, h ++ kr_CTAEvents (se_result s))
| step_event x h key : execution_step (x, h) ((Kernel_CompleteBarrierEvent x key).1, h).

Lemma executions_ok {G : Type} {L : SoftFloatLib} {HL : SoftFloatLaws L} (I : G -> Prop) l p q : input_typed l -> launch_valid l ->
  rtc execution_step p q -> execution_ok I l p.1 p.2 -> execution_ok I l q.1 q.2.
Proof.
  intros Ht V. induction 1 as [|p1 p2 p3 Hstep _ IH]; intros Hx; [done|]. apply IH. destruct Hstep as [x h options s Hopt Hrun|x h key]; cbn [fst snd] in *.
  - destruct (Execution_Run_ok I l Ht V x h options Hx Hopt) as (s' & E & Hx' & _). rewrite Hrun in E. by injection E as <-.
  - by apply event_ok.
Qed.

(** The memory behind a kernel honours its contract and keeps [I]. *)
Record backing_sound {G : Type} (I : G -> Prop) (mem : BackingMemory G) : Prop := {
  bs_unbound : bm_BoundWarpID mem = None;
  bs_contract : ServiceContract I (backing_service mem);
  bs_keeps : service_keeps (backing_service mem) I
}.

(** What validation leaves of the input in an executor. *)
Lemma executor_ok {G : Type} input (mem : BackingMemory G) e : input_typed input -> NewKernelExecutor input (Some mem) = Ok e ->
  launch_valid input /\ e = mkKernelExecutor (normalized input) mem.
Proof.
  intros Ht H. unfold NewKernelExecutor in H. apply result_bind_ok in H as (l & Hl & <-%Ok_inj). apply (ValidateLaunch_iff input Ht) in Hl as (V & _ & ->). done.
Qed.

(** C1: every CTA of the grid runs exactly once.  From a fresh execution, after any
    number of runs with any budgets and any completed barrier events, and whatever the
    warps execute: the CTAs generated are the first ones of the grid, in order; those
    generated are exactly those admitted followed by the pending cluster; those
    admitted are those completed and those resident; the executor's resident table has
    exactly the residents of the core.  When the execution is complete, the blocks of
    the completed CTAs are the blocks of the grid, each once, and nothing is left. *)
Theorem kernel_conservation {G : Type} {L : SoftFloatLib} {HL : SoftFloatLaws L} (I : G -> Prop) input mem e g (x0 x : KernelExecution G) h :
  input_typed input -> backing_sound I mem -> I g -> NewKernelExecutor input (Some mem) = Ok e -> NewExecution e g = Ok x0 ->
  rtc execution_step (x0, []) (x, h) ->
  let r := kx_runtime x in
  (exists k, ctas_of CTAGenerated h = grid_ctas input 0 k /\ Remaining (rt_walker r) = cta_count input - Z.of_nat k) /\
  ctas_of CTAAdmitted h ++ rt_pending r = ctas_of CTAGenerated h /\
  ctas_of CTACompleted h ++ map snd (map_to_list (rt_resident r)) ≡ₚ ctas_of CTAAdmitted h /\
  dom (rt_resident r) = dom (cm_ctas (co_ctas (rt_core r))) /\
  (kx_complete x = true -> rt_pending r = [] /\ rt_resident r = ∅ /\
     NoDup (map ca_BlockID (ctas_of CTACompleted h)) /\ forall b, b ∈ map ca_BlockID (ctas_of CTACompleted h) <-> in_grid input b).
Proof.
  intros Ht [Hb Hct Hkp] Hg He Hx0 Hsteps r. destruct (executor_ok input mem e Ht He) as [V ->].
  destruct (NewExecution_ok I input Ht V mem Hb Hct Hkp g Hg) as (x' & E & Hx). rewrite Hx0 in E. apply Ok_inj in E as <-.
  destruct (executions_ok I input _ _ Ht V Hsteps Hx) as [_ [k Hr] Hdone]. cbn [fst snd] in *. destruct Hr as [R1 R2 R3 R4 R5 R6 R7 R8 R9].
  split; [|split; [done|split; [done|split; [done|]]]].
  { exists (Z.to_nat k). split; [done|]. unfold r. rewrite R4, (remaining_after input V k R2). lia. }
  intros Hc. destruct (Hdone Hc) as ([_ _ _ _ _ D6 D7 D8 _] & Hp & Hres). split; [done|]. split; [done|].
  fold r in D7, D8, Hp, Hres. rewrite Hp, app_nil_r in D7. rewrite Hres, map_to_list_empty, app_nil_r in D8.
  destruct (grid_blocks input Ht V) as [Hnd Hin]. rewrite D7, D6 in D8. split.
  - rewrite D8. exact Hnd.
  - intros b. rewrite <- Hin. by rewrite D8.
Qed.

(** C2: a kernel starts and every run of it returns, with the reason it stopped.  For a
    validated launch the fresh execution can be built; then, in every state reached, a
    run with any budget ends, within its budget.  It is complete exactly when the
    execution is.  With the budget error it has made exactly its budget of attempts.
    It is blocked after an idle step of the core, with no warp runnable, and the error
    counts the resident CTAs and the pending cluster.  It is deferred, trapped or
    faulted by the result of the warp that the last step of the core executed, with
    that warp and reason or that warp's fault in the error, or faulted by the error of
    that step itself. *)
Theorem kernel_run_returns {G : Type} {L : SoftFloatLib} {HL : SoftFloatLaws L} (I : G -> Prop) input mem e (g : G) :
  input_typed input -> backing_sound I mem -> I g -> NewKernelExecutor input (Some mem) = Ok e ->
  exists x0, NewExecution e g = Ok x0 /\ forall x h options, rtc execution_step (x0, []) (x, h) -> options_typed options ->
  exists s, Execution_Run x options = Some s /\ kr_Attempts (se_result s) <= ko_StepBudget options /\
    (kr_Outcome (se_result s) = KernelComplete <-> kx_complete (se_execution s) = true) /\ stop_reason I options s.
Proof.
  intros Ht [Hb Hct Hkp] Hg He. destruct (executor_ok input mem e Ht He) as [V ->].
  destruct (NewExecution_ok I input Ht V mem Hb Hct Hkp g Hg) as (x0 & E & Hx). exists x0. split; [done|]. intros x h options Hsteps Hopt.
  pose proof (executions_ok I input _ _ Ht V Hsteps Hx) as Hxo. cbn [fst snd] in Hxo. destruct (Execution_Run_ok I input Ht V x h options Hxo Hopt) as (s & Es & _ & Hover).
  exists s. split; [done|]. destruct Hover as (_ & Ha & [(_ & Hc & Ho & _ & He')|[_ (Hf & _ & Hno & Hst)]]); split; [done| |done|].
  - unfold stop_reason. rewrite Ho. by split_and!.
  - by rewrite Hf.
Qed.

(** C18: the executor itself never faults.  In every reached state a run that ends with
    a fault does so because of an instruction: the last step of the core reported an
    error, or the selected warp faulted.  Generating, admitting and reclaiming CTAs
    and the final check of the lower owners never fail: a validated cluster is always
    admissible to an empty core, every reclaimed slot has its record, and no slot
    retains work at the end. *)
Theorem kernel_faults {G : Type} {L : SoftFloatLib} {HL : SoftFloatLaws L} (I : G -> Prop) input mem e g (x0 x : KernelExecution G) h options s :
  input_typed input -> backing_sound I mem -> I g -> NewKernelExecutor input (Some mem) = Ok e -> NewExecution e g = Ok x0 ->
  rtc execution_step (x0, []) (x, h) -> options_typed options -> Execution_Run x options = Some s -> kr_Outcome (se_result s) = KernelFault ->
  exists c context, core_wf I c /\ let '(c', step, err) := Core_Step c context in
    rt_core (runtime s) = c' /\
    ((exists error, err = Err error /\ kr_Err (se_result s) = Some (KernelError error)) \/
     exists r, sr_WarpResult step = Some r /\ r_Outcome r = OutcomeFault /\ kr_Err (se_result s) = Some (KernelWarpError (r_Fault r))).
Proof.
  intros Ht [Hb Hct Hkp] Hg He Hx0 Hsteps Hopt Hrun Hf. destruct (executor_ok input mem e Ht He) as [V ->].
  destruct (NewExecution_ok I input Ht V mem Hb Hct Hkp g Hg) as (x' & E & Hx). rewrite Hx0 in E. apply Ok_inj in E as <-.
  pose proof (executions_ok I input _ _ Ht V Hsteps Hx) as Hxo. cbn [fst snd] in Hxo. destruct (Execution_Run_ok I input Ht V x h options Hxo Hopt) as (s' & Es & _ & Hover).
  rewrite Hrun in Es. injection Es as <-. destruct Hover as (_ & _ & [(_ & _ & Ho & _)|[_ (_ & _ & _ & Hst)]]); [congruence|]. unfold stop_reason in Hst. rewrite Hf in Hst.
  destruct Hst as (c & n & Hc & Hst). exists c, (attempt_context options n). split; [apply Hc|]. destruct (Core_Step c (attempt_context options n)) as [[c' step] err].
  destruct Hst as (-> & _ & [Hs|(_ & _ & r & Hs)]); [by split; [|left]|]. split; [done|]. right. by exists r.
Qed.

(** ** A kernel of six CTAs

    Six one-warp blocks in clusters of two; each warp runs four [addi x0, x0, 0] and
    ends with [tmc x0].  A warp admitted to a used slot starts twenty bytes before
    where the slot stopped, so at the start of the image again. *)
Definition kernel_image : Memory := mkMemory (concat (map (PutUint 4) [0x13; 0x13; 0x13; 0x13; 0x13; 0x0000000b])).
Definition kernel_memory : BackingMemory Memory := mkBackingMemory svc_read svc_write svc_batch None.
Definition kernel_input : LaunchState := mkLaunchState 0 0 100 (6, 1, 1) (4, 1, 1) 4 (4, 0, 0) 0 (2, 1, 1) 0 0 0 0 0 0 0 0.
Definition kernel_executor : KernelExecutor Memory := mkKernelExecutor (normalized kernel_input) kernel_memory.

(** The same kernel over an image whose only instruction is illegal. *)
Definition illegal_image : Memory := mkMemory (PutUint 4 0).

Definition no_execution : KernelExecution Memory := mkKernelExecution (mkKernelRuntime example_core (exhausted kernel_input) [] ∅) kernel_input 0 false.
Definition kernel_start (image : Memory) : KernelExecution Memory := match NewExecution kernel_executor image with Ok x => x | Err _ => no_execution end.
Definition kernel_options (budget : Z) : KernelRunOptions := mkKernelRunOptions budget None.
Definition kernel_session (budget : Z) (x : KernelExecution Memory) : session Memory :=
  match Execution_Run x (kernel_options budget) with Some s => s | None => mkSession x no_result [] end.

(** The run stops for its budget after ten steps; a second run completes the kernel. *)
Definition kernel_first : session Memory := kernel_session 10 (kernel_start kernel_image).
Definition kernel_second : session Memory := kernel_session 50 (se_execution kernel_first).
Definition kernel_history : list CTAEvent := [] ++ kr_CTAEvents (se_result kernel_first).

Lemma kernel_input_typed : input_typed kernel_input.
Proof. split; cbn; try (by vm_compute); repeat split; by vm_compute. Qed.

Lemma kernel_new : NewKernelExecutor kernel_input (Some kernel_memory) = Ok kernel_executor.
Proof. assert (ValidateLaunch kernel_input = Ok (normalized kernel_input)) as E by (vm_compute; reflexivity). unfold NewKernelExecutor. by rewrite E. Qed.

Lemma kernel_options_typed budget : 0 <= budget < 2 ^ 64 -> options_typed (kernel_options budget).
Proof. by split. Qed.

Definition sized (size : Z) (m : Memory) : Prop := svc_wf m /\ svc_size m = size.

Lemma kernel_memory_sound size : backing_sound (sized size) kernel_memory.
Proof. split; [done|apply (contract_weaken (fun _ => True)); [done|apply Memory_contract]|apply memory_keeps]. Qed.

Lemma start_ok image : is_ok (NewExecution kernel_executor image) = true -> NewExecution kernel_executor image = Ok (kernel_start image).
Proof. unfold kernel_start. by destruct (NewExecution kernel_executor image). Qed.

Lemma session_ok_run budget x : match Execution_Run x (kernel_options budget) with Some _ => true | None => false end = true ->
  Execution_Run x (kernel_options budget) = Some (kernel_session budget x).
Proof. unfold kernel_session. by destruct (Execution_Run x (kernel_options budget)). Qed.

Lemma image_started : NewExecution kernel_executor kernel_image = Ok (kernel_start kernel_image).
Proof. apply start_ok. vm_compute; reflexivity. Qed.

Lemma illegal_started : NewExecution kernel_executor illegal_image = Ok (kernel_start illegal_image).
Proof. apply start_ok. vm_compute; reflexivity. Qed.

Lemma first_run : Execution_Run (kernel_start kernel_image) (kernel_options 10) = Some kernel_first.
Proof. apply session_ok_run. vm_compute; reflexivity. Qed.

Lemma second_run : Execution_Run (se_execution kernel_first) (kernel_options 50) = Some kernel_second.
Proof. apply session_ok_run. vm_compute; reflexivity. Qed.

Lemma illegal_run : Execution_Run (kernel_start illegal_image) (kernel_options 10) = Some (kernel_session 10 (kernel_start illegal_image)).
Proof. apply session_ok_run. vm_compute; reflexivity. Qed.

Lemma image_wf : sized 24 kernel_image. Proof. by split; vm_compute. Qed.
Lemma illegal_wf : sized 4 illegal_image. Proof. by split; vm_compute. Qed.

Lemma first_steps : rtc execution_step (kernel_start kernel_image, []) (se_execution kernel_first, kernel_history).
Proof. exact (rtc_once _ _ (step_run _ [] _ _ (kernel_options_typed 10 ltac:(lia)) first_run)). Qed.

Lemma second_steps : rtc execution_step (kernel_start kernel_image, []) (se_execution kernel_second, kernel_history ++ kr_CTAEvents (se_result kernel_second)).
Proof. exact (rtc_r _ _ _ first_steps (step_run _ kernel_history _ _ (kernel_options_typed 50 ltac:(lia)) second_run)). Qed.

(** After the first run no CTA is complete; after the second all six are. *)
Example kernel_conservation_witness :
  NoDup (map ca_BlockID (ctas_of CTACompleted (kernel_history ++ kr_CTAEvents (se_result kernel_second)))) /\
  (5, 0, 0) ∈ map ca_BlockID (ctas_of CTACompleted (kernel_history ++ kr_CTAEvents (se_result kernel_second))).
Proof.
  assert (kx_complete (se_execution kernel_second) = true) as Hc by (vm_compute; reflexivity).
  destruct (kernel_conservation (sized 24) kernel_input kernel_memory kernel_executor kernel_image _ _ _ kernel_input_typed (kernel_memory_sound 24) image_wf
    kernel_new image_started second_steps) as (_ & _ & _ & _ & Hd). destruct (Hd Hc) as (_ & _ & Hn & Hin). split; [exact Hn|]. apply Hin.
  split; [|split]; cbn; lia.
Defined.

Example kernel_run_returns_witness :
  exists s, Execution_Run (se_execution kernel_first) (kernel_options 50) = Some s /\ kr_Attempts (se_result s) <= 50 /\ kr_Outcome (se_result s) = KernelComplete.
Proof.
  destruct (kernel_run_returns (sized 24) kernel_input kernel_memory kernel_executor kernel_image kernel_input_typed (kernel_memory_sound 24) image_wf kernel_new)
    as (x0 & E0 & Hrun). pose proof (Ok_inj _ _ (eq_trans (eq_sym E0) image_started)) as ->.
  destruct (Hrun _ _ (kernel_options 50) first_steps (kernel_options_typed 50 ltac:(lia))) as (s & Es & Ha & Hc & _). exists s. split; [exact Es|]. split; [exact Ha|].
  apply Hc. assert (s = kernel_second) as -> by exact (f_equal (default kernel_second) (eq_trans (eq_sym Es) second_run)). vm_compute; reflexivity.
Defined.

(** The illegal instruction is the fault of the warp that executed it. *)
Example kernel_faults_witness :
  exists c context, core_wf (sized 4) c /\ rt_core (runtime (kernel_session 10 (kernel_start illegal_image))) = (Core_Step c context).1.1.
Proof.
  destruct (kernel_faults (sized 4) kernel_input kernel_memory kernel_executor illegal_image _ _ [] (kernel_options 10) (kernel_session 10 (kernel_start illegal_image))
    kernel_input_typed (kernel_memory_sound 4) illegal_wf kernel_new illegal_started (rtc_refl _ _) (kernel_options_typed 10 ltac:(lia)) illegal_run)
    as (c & context & Hc & Hs); [vm_compute; reflexivity|]. exists c, context. split; [exact Hc|]. destruct (Core_Step c context) as [[c' step] err]. exact (proj1 Hs).
Defined.
