(* ===== verification/TimingIR.v ===== *)
(** * The timing parameters (src/timing/ir.go, number.go, arbiter.go)

    Every size and policy of the timing model is read from one embedded YAML document.
    The YAML library is outside the repository: its parse of the document, as a tree of
    nodes and as the two structures the code unmarshals into, is the interface
    [TimingDocument]; the look-ups in the parsed document are the code's. *)

From S2P Require Import Prelude.

#[local] Open Scope Z_scope.
#[local] Open Scope go_scope.

(** ** Parsed documents *)

Record BufferSpec := mkBufferSpec { bs_ID : string; bs_Size : Z; bs_OutReg : Z }.

Record ArbiterSpec := mkArbiterSpec { ar_Inputs : Z; ar_Policy : string; ar_Sticky : bool }.

#[export] Instance BufferSpec_eq_dec : EqDecision BufferSpec. Proof. solve_decision. Defined.
#[export] Instance ArbiterSpec_eq_dec : EqDecision ArbiterSpec. Proof. solve_decision. Defined.

Definition no_buffer : BufferSpec := mkBufferSpec "" 0 0.
Definition no_arbiter : ArbiterSpec := mkArbiterSpec 0 "" false.

(** [yaml.Node] *)
Inductive NodeKind := DocumentNode | SequenceNode | MappingNode | ScalarNode | AliasNode.
Inductive Node := mkNode (nd_Kind : NodeKind) (nd_Tag nd_Value : string) (nd_Content : list Node).

Definition nd_Kind (n : Node) : NodeKind := match n with mkNode k _ _ _ => k end.
Definition nd_Tag (n : Node) : string := match n with mkNode _ t _ _ => t end.
Definition nd_Value (n : Node) : string := match n with mkNode _ _ v _ => v end.
Definition nd_Content (n : Node) : list Node := match n with mkNode _ _ _ c => c end.

(** One boundary of [bufferDocument], its parameters and the encoding table. *)
Record BufferBoundary := mkBufferBoundary {
  bb_ID : string;
  bb_Kind : string;
  bb_Size : option Z;
  bb_OutReg : option Z;
  bb_OutBuf : option Z;
  bb_Depth : option Z
}.

Record bufferDocument := mkBufferDocument {
  bd_Boundaries : list BufferBoundary;
  bd_Encoding : gmap Z (option Z * option Z)
}.

Record ArbiterBoundary := mkArbiterBoundary {
  ab_ID : string;
  ab_Inputs : option Z;
  ab_Policy : string;
  ab_Sticky : option Z;
  ab_Model : option Z
}.

(** What the YAML library makes of the embedded document. *)
Class TimingDocument := {
  doc_root : result Node;
  doc_Decode : Node -> result Z;
  doc_buffers : result bufferDocument;
  doc_arbiters : result (list ArbiterBoundary)
}.

(** ** Buffers (ir.go) *)

(** [b]'s parameters, before the range check. *)
Definition buffer_parameters (ir : bufferDocument) (b : BufferBoundary) : result (Z * Z) :=
  if bb_Kind b == "elastic" then
    match bb_Size b, bb_OutReg b with
    | Some size, Some outReg => Ok (size, outReg)
    | _, _ => Err (Errorf "missing SIZE/OUT_REG")
    end
  else if (bb_Kind b == "output_buffer_encoding") || (bb_Kind b == "internal_instance_parameters") then
    match bb_OutBuf b with
    | None => Err (Errorf "missing OUT_BUF")
    | Some code =>
        match bd_Encoding ir !! code with
        | Some (Some size, Some outReg) => Ok (size, outReg)
        | _ => Err (Errorf "unknown encoding")
        end
    end
  else if bb_Kind b == "pipe_buffer" then
    match bb_Depth b with
    | Some depth => if depth <>? 1 then Err (Errorf "unsupported pipe depth") else Ok (depth, 1)
    | None => Err (Errorf "unsupported pipe depth")
    end
  else Err (Errorf "not an elastic boundary").

Definition bufferFromIR (ir : bufferDocument) (id : string) : result BufferSpec :=
  match find (fun b => bb_ID b == id) (bd_Boundaries ir) with
  | None => Err (Errorf "unknown boundary")
  | Some b =>
      let? (size, outReg) := buffer_parameters ir b in
      if (size <? 0) || (outReg <? 0) || (outReg >? 1) || ((size >? 2) && (size .& (size - 1) <>? 0))
      then Err (Errorf "unsupported buffer parameters")
      else Ok (mkBufferSpec id size outReg)
  end.

(** ** Arbiters (arbiter.go) *)

Definition arbiterFromIR (boundaries : list ArbiterBoundary) (id : string) : result ArbiterSpec :=
  match find (fun b => ab_ID b == id) boundaries with
  | None => Err (Errorf "unknown arbitration boundary")
  | Some b =>
      match ab_Inputs b, ab_Sticky b with
      | Some inputs, Some sticky =>
          if (inputs <? 1) || ((sticky <>? 0) && (sticky <>? 1)) || ((sticky =? 1) && negb (ab_Policy b == "R")) ||
             (negb (ab_Policy b == "P") && negb (ab_Policy b == "R")) ||
             ((ab_Policy b == "R") && match ab_Model b with Some model => model <>? 1 | None => true end)
          then Err (Errorf "missing or unsupported arbitration profile")
          else Ok (mkArbiterSpec inputs (ab_Policy b) (sticky =? 1))
      | _, _ => Err (Errorf "missing or unsupported arbitration profile")
      end
  end.

(** ** Numbers (number.go) *)

(** The value of a key in a mapping's content, which alternates keys and values. *)
Fixpoint content_field (content : list Node) (key : string) : option Node :=
  match content with
  | k :: v :: rest => if nd_Value k == key then Some v else content_field rest key
  | _ => None
  end.

Definition node_field (n : option Node) (key : string) : option Node :=
  match n with
  | Some n => match nd_Kind n with MappingNode => content_field (nd_Content n) key | _ => None end
  | None => None
  end.

Definition item_named (id : string) (item : Node) : bool :=
  match node_field (Some item) "id" with Some name => nd_Value name == id | None => false end.

Section Document.
Context `{TimingDocument}.

Definition Buffer (id : string) : result BufferSpec := let? ir := doc_buffers in bufferFromIR ir id.

Definition Arbiter (id : string) : result ArbiterSpec := let? boundaries := doc_arbiters in arbiterFromIR boundaries id.

Definition numberFromRoot (root : Node) (collection id : string) (path : list string) : result Z :=
  match nd_Content root with
  | [top] =>
      let items := match node_field (Some top) collection with
                   | Some items => match nd_Kind items with SequenceNode => nd_Content items | _ => [] end
                   | None => []
                   end in
      match find (item_named id) items with
      | None => Err (Errorf "unknown ID")
      | Some item =>
          match fold_left node_field path (Some item) with
          | Some n => if negb (nd_Tag n == "!!int") then Err (Errorf "required integer missing or unknown") else doc_Decode n
          | None => Err (Errorf "required integer missing or unknown")
          end
      end
  | _ => Err (Errorf "invalid IR root")
  end.

Definition Number (collection id : string) (path : list string) : result Z :=
  let? root := doc_root in numberFromRoot root collection id path.
End Document.

(** ** What a buffer specification promises *)

Lemma bufferFromIR_bounds ir id s : bufferFromIR ir id = Ok s ->
  bs_ID s = id /\ 0 <= bs_Size s /\ 0 <= bs_OutReg s <= 1 /\ (2 < bs_Size s -> bs_Size s .& (bs_Size s - 1) = 0).
Proof.
  unfold bufferFromIR. destruct (find _ _) as [b|]; [|done]. intros H. apply result_bind_ok in H as ([size outReg] & _ & H). case_match eqn:E; [done|].
  apply Ok_inj in H as <-. rewrite !orb_false_iff, andb_false_iff, negb_false_iff, !Z.ltb_ge in E. cbn. destruct E as [[[E1 E2] E3] E4]. split_and!; [done|lia..|].
  intros Hs. destruct E4 as [E4|E4%Z.eqb_eq]; [lia|done].
Qed.
