(* ===== verification/Memsys.v ===== *)
(** * Values and queues of the timing memory system (src/timing/memsys)

    The requests and responses that travel between the parts of the memory system,
    the elastic queue every boundary is made of and the round-robin pick.

    An offer with a [Valid] flag is an option: an invalid offer carries nothing that is
    read.  A Go array of bytes is the list of its bytes. *)

From S2P Require Import Prelude Memory TimingIR.

#[local] Open Scope Z_scope.
#[local] Open Scope go_scope.

Definition SectorBytes : Z := 64.

(** ** External requests (backend.go) *)

Inductive Operation := OpRead | OpWrite | OpVisibility | OpOther (n : Z).

#[export] Instance Operation_eq_dec : EqDecision Operation. Proof. solve_decision. Defined.

(** [op > Visibility] *)
Definition known_operation (op : Operation) : bool := match op with OpOther _ => false | _ => true end.

Record Identity := mkIdentity {
  id_Kernel : Z;
  id_CTA : Z;
  id_WarpGeneration : Z;
  id_Token : Z;
  id_Epoch : Z;
  id_Subrequest : Z;
  id_Transaction : Z;
  id_Warp : Z
}.

#[export] Instance Identity_eq_dec : EqDecision Identity. Proof. solve_decision. Defined.

Definition no_identity : Identity := mkIdentity 0 0 0 0 0 0 0 0.

Definition with_transaction (t : Z) (i : Identity) : Identity :=
  mkIdentity (id_Kernel i) (id_CTA i) (id_WarpGeneration i) (id_Token i) (id_Epoch i) (id_Subrequest i) t (id_Warp i).

Definition belongs (kernel cta : Z) (i : Identity) : bool := (id_Kernel i =? kernel) && (id_CTA i =? cta).

Definition zero_sector : list Z := replicate 64 0.
Definition zero_word : list Z := replicate 8 0.

Record Request := mkRequest {
  rq_Identity : Identity;
  rq_Tag : Z;
  rq_Operation : Operation;
  rq_Address : Z;
  rq_ByteEnable : Z;
  rq_Data : list Z
}.

#[export] Instance Request_eq_dec : EqDecision Request. Proof. solve_decision. Defined.

Notation Offer := (option Request).

Record Response := mkResponse {
  rs_Identity : Identity;
  rs_Tag : Z;
  rs_Operation : Operation;
  rs_Data : list Z;
  rs_ByteEnable : Z;
  rs_AcceptedCycle : Z;
  rs_CompletedCycle : Z;
  rs_Sequence : Z;
  rs_Err : option error
}.

#[export] Instance Response_eq_dec : EqDecision Response. Proof. solve_decision. Defined.

(** An invalid reply carries no response. *)
Record Reply := mkReply { rp_Response : option Response; rp_Delivered : bool }.

#[export] Instance Reply_eq_dec : EqDecision Reply. Proof. solve_decision. Defined.

Definition no_reply : Reply := mkReply None false.

Record Edge := mkEdge { eg_Accepted : list bool; eg_Replies : list Reply }.

(** ** Word requests (cache_array.go) *)

Record WordRequest := mkWordRequest {
  wq_Identity : Identity;
  wq_Tag : Z;
  wq_Address : Z;
  wq_Write : bool;
  wq_NonCacheable : bool;
  wq_Flush : bool;
  wq_ByteEnable : Z;
  wq_Data : list Z
}.

#[export] Instance WordRequest_eq_dec : EqDecision WordRequest. Proof. solve_decision. Defined.

Definition no_word : WordRequest := mkWordRequest no_identity 0 0 false false false 0 zero_word.

Notation WordOffer := (option WordRequest).

Record WordResponse := mkWordResponse {
  wr_Identity : Identity;
  wr_Tag : Z;
  wr_Data : list Z;
  wr_ByteEnable : Z;
  wr_Err : option error
}.

#[export] Instance WordResponse_eq_dec : EqDecision WordResponse. Proof. solve_decision. Defined.

Definition no_word_response : WordResponse := mkWordResponse no_identity 0 zero_word 0 None.

(** ** The core side of a cache (cache.go) *)

(** An invalid reply carries no response; the checks still read its [Delivered]. *)
Record WordReply := mkWordReply { wy_Response : option WordResponse; wy_Delivered : bool }.

Definition no_word_reply : WordReply := mkWordReply None false.

Record StoreReceipt := mkStoreReceipt { st_Port : Z; st_Request : WordRequest; st_Err : option error }.

(** An invalid [FlushOffer] or [FlushReply] is [None]. *)
Record Flush := mkFlush { fl_Identity : Identity; fl_Tag : Z }.
Notation FlushOffer := (option Flush).

#[export] Instance Flush_eq_dec : EqDecision Flush. Proof. solve_decision. Defined.

Record FlushReply := mkFlushReply { fr_Flush : Flush; fr_Delivered : bool; fr_Err : option error }.

Record CacheEdge := mkCacheEdge {
  cg_Accepted : list bool;
  cg_Replies : list WordReply;
  cg_Stores : list StoreReceipt;
  cg_FlushAccepted : bool;
  cg_Flush : option FlushReply;
  cg_WritebackErrors : list Response
}.

(** ** Queues (cache.go) *)

Record cacheQueue (A : Type) := mkQueue { qu_spec : BufferSpec; qu_values : list A }.
Arguments mkQueue {A}.
Arguments qu_spec {A}.
Arguments qu_values {A}.

Definition empty_queue {A} (spec : BufferSpec) : cacheQueue A := mkQueue spec [].

Definition queue_ready {A} (q : cacheQueue A) (pop : bool) : bool :=
  (zlen (qu_values q) <? bs_Size (qu_spec q)) || ((bs_Size (qu_spec q) =? 1) && pop).

Definition queue_update {A} (pop : bool) (push : option A) (q : cacheQueue A) : cacheQueue A :=
  let values := if pop then tail (qu_values q) else qu_values q in
  mkQueue (qu_spec q) (values ++ match push with Some v => [v] | None => [] end).

Definition queue_head {A} (q : cacheQueue A) : option A := head (qu_values q).

Definition is_empty {A} (l : list A) : bool := match l with [] => true | _ => false end.

(** [pick(start, valid)]: the first set index from [start] on, cyclically. *)
Definition pick (start : Z) (valid : list bool) : option Z :=
  head (filter (fun i => default false (valid !! Z.to_nat i) = true)
    (map (fun offset => (start + Z.of_nat offset) mod zlen valid) (seq 0 (length valid)))).

(** A present value as a list. *)
Definition option_list {A} (x : option A) : list A := match x with Some a => [a] | None => [] end.

(** ** Laws of a queue *)

(** The queue never holds more than its capacity. *)
Definition queue_ok {A} (q : cacheQueue A) : Prop := zlen (qu_values q) <= bs_Size (qu_spec q).

Lemma queue_update_ok {A} (q : cacheQueue A) pop push : queue_ok q -> (pop = true -> qu_values q <> []) -> (push <> None -> queue_ready q pop = true) ->
  queue_ok (queue_update pop push q).
Proof.
  unfold queue_ok, queue_update, queue_ready, zlen. cbn [qu_spec qu_values]. intros Hq Hpop Hpush. rewrite length_app.
  assert (length (tail (qu_values q)) = (length (qu_values q) - 1)%nat) as Ht by (destruct (qu_values q); cbn; lia).
  destruct push as [v|]; cbn [length]; [|destruct pop; lia]. specialize (Hpush ltac:(done)). rewrite orb_true_iff, andb_true_iff, Z.ltb_lt, Z.eqb_eq in Hpush.
  destruct pop; [specialize (Hpop eq_refl); destruct (qu_values q); cbn [length tail] in *; [done|lia]|]. destruct Hpush as [|[_ [=]]]. lia.
Qed.

(** What is queued, then what enters, is what leaves, then what is queued after. *)
Lemma queue_update_turn {A} (q : cacheQueue A) (pop : bool) (push : option A) : qu_values q ++ option_list push = (if pop then option_list (queue_head q) else []) ++ qu_values (queue_update pop push q).
Proof. unfold queue_update, queue_head. cbn [qu_values]. by destruct pop, (qu_values q), push. Qed.

(** The pick finds a set index exactly when there is one, and no index cyclically
    between the start and the picked one is set. *)
Lemma pick_some start valid i : 0 <= start -> pick start valid = Some i ->
  0 <= i < zlen valid /\ valid !! Z.to_nat i = Some true /\
  exists k, 0 <= k < zlen valid /\ i = (start + k) mod zlen valid /\ forall j, 0 <= j < k -> valid !! Z.to_nat ((start + j) mod zlen valid) = Some false.
Proof.
  intros Hs H. unfold pick in H. set (n := zlen valid) in *.
  assert (forall m (len : nat), head (filter (fun i => default false (valid !! Z.to_nat i) = true) (map (fun offset => (start + Z.of_nat offset) mod n) (seq m len))) = Some i ->
    exists k, (m <= k < m + len)%nat /\ i = (start + Z.of_nat k) mod n /\ default false (valid !! Z.to_nat i) = true /\
      forall j, (m <= j < k)%nat -> default false (valid !! Z.to_nat ((start + Z.of_nat j) mod n)) = false) as Hloop.
  { intros m len. revert m. induction len as [|len IH]; intros m Hm; [done|]. cbn [seq map] in Hm. rewrite filter_cons in Hm. case_decide as Hd.
    - injection Hm as <-. exists m. split_and!; [lia|lia|done|done|lia].
    - destruct (IH (Datatypes.S m) Hm) as (k & Hk & E & Ht & Hj). exists k. split; [lia|]. split; [done|]. split; [done|]. intros j Hr.
      destruct (decide (j = m)) as [->|]; [by apply not_true_iff_false|apply Hj; lia]. }
  destruct (Hloop _ _ H) as (k & Hk & E & Ht & Hj). assert (0 < n) as Hn by (unfold n, zlen; lia).
  assert (forall x, 0 <= x mod n < n) as Hmod by (intros x; by apply Z.mod_pos_bound).
  assert (forall x, 0 <= x < n -> exists b, valid !! Z.to_nat x = Some b) as Hin by (intros x Hx; apply lookup_lt_is_Some; unfold n, zlen in Hx; lia).
  split; [by rewrite E|]. split; [destruct (Hin i) as [b Eb]; [by rewrite E|]; rewrite Eb in Ht |- *; cbn in Ht; by rewrite Ht|].
  exists (Z.of_nat k). split; [unfold n, zlen; lia|]. split; [done|]. intros j Hr. specialize (Hj (Z.to_nat j) ltac:(lia)). rewrite Z2Nat.id in Hj by lia.
  destruct (Hin ((start + j) mod n)) as [b Eb]; [done|]. rewrite Eb in Hj |- *. cbn in Hj. by rewrite Hj.
Qed.

Lemma pick_none start valid : 0 <= start -> pick start valid = None -> Forall (fun b => b = false) valid.
Proof.
  intros Hs H. unfold pick in H. apply Forall_lookup. intros j b Hj. destruct b; [|done]. exfalso. set (n := zlen valid) in *.
  assert (j < length valid)%nat as Hl by (by apply lookup_lt_Some in Hj). assert (0 < n) as Hn by (unfold n, zlen; lia).
  apply head_None in H. assert (Z.of_nat j ∈ filter (fun i => default false (valid !! Z.to_nat i) = true) (map (fun offset => (start + Z.of_nat offset) mod n) (seq 0 (length valid)))) as Hin.
  { apply list_elem_of_filter. rewrite Nat2Z.id, Hj. split; [done|]. apply list_elem_of_fmap. exists (Z.to_nat ((Z.of_nat j - start) mod n)).
    pose proof (Z.mod_pos_bound (Z.of_nat j - start) n Hn). split; [|apply elem_of_seq; unfold n, zlen in *; lia]. rewrite Z2Nat.id by lia. rewrite Zplus_mod_idemp_r.
    replace (start + (Z.of_nat j - start)) with (Z.of_nat j) by lia. rewrite Z.mod_small; [done|]. unfold n, zlen. lia. }
  rewrite H in Hin. by apply elem_of_nil in Hin.
Qed.

(** ** The numbers from 1 *)

Lemma zrange_1_NoDup k : NoDup (zrange 1 k).
Proof. unfold zrange. apply NoDup_fmap_2_strong; [intros x y _ _ ?; lia|apply NoDup_seq]. Qed.

Lemma zrange_1_S k : 0 <= k -> zrange 1 (k + 1) = zrange 1 k ++ [k + 1].
Proof. intros Hk. rewrite zrange_app by lia. f_equal. unfold zrange. change (Z.to_nat 1) with 1%nat. cbn [seq map]. f_equal. lia. Qed.

(** ** Enabled byte runs (src/timing/memsys: backend.go, local_memory.go)
    A masked store is cut into its runs of enabled bytes, written as one atomic batch.
    Both byte owners' clients use the same loop, over 64 and over 4 bytes. *)

Definition enabled (enable j : Z) : bool := enable .& (1 << j) <>? 0.

(** The inner loop: the first index from [j] on, up to [n], that is not enabled. *)
Fixpoint run_end (fuel : nat) (n enable j : Z) : Z :=
  match fuel with
  | O => j
  | S fuel => if (j <? n) && enabled enable j then run_end fuel n enable (j + 1) else j
  end.

(** The outer loop: the runs [start, end) from [j] on. *)
Fixpoint byte_runs (fuel : nat) (n enable j : Z) : list (Z * Z) :=
  match fuel with
  | O => []
  | S fuel =>
      if j <? n then
        if negb (enabled enable j) then byte_runs fuel n enable (j + 1)
        else let stop := run_end (Z.to_nat n) n enable j in (j, stop) :: byte_runs fuel n enable stop
      else []
  end.

(** The batch of a masked store: [n + 1] turns are enough, each moves [j] forward. *)
Definition run_writes (address n enable : Z) (data : list Z) : list (Z * list Z) :=
  map (fun '(start, stop) => (u32 (address + start), slice data (Z.to_nat start) (Z.to_nat (stop - start)))) (byte_runs (S (Z.to_nat n)) n enable 0).

(** ** What the runs are *)

Lemma run_enabled_bit enable j : 0 <= j -> enabled enable j = Z.testbit enable j.
Proof.
  intros Hj. unfold enabled. destruct (Z.testbit enable j) eqn:E; [apply negb_true_iff, Z.eqb_neq|apply negb_false_iff, Z.eqb_eq].
  - intros H. pose proof (f_equal (fun x => Z.testbit x j) H) as Hb. cbv beta in Hb. rewrite Z.land_spec, testbit_shiftl_at, E, Z.sub_diag, Z.bits_0 in Hb by done.
    cbn in Hb. destruct (Z.leb_spec 0 j); [done|lia].
  - apply Z.bits_inj'. intros i Hi. rewrite Z.land_spec, testbit_shiftl_at, Z.bits_0 by done. destruct (Z.eq_dec i j) as [->|Hne]; [by rewrite E|].
    assert (Z.testbit 1 (i - j) = false) as ->; [|by rewrite !andb_false_r]. destruct (Z.lt_ge_cases i j); [by apply Z.testbit_neg_r; lia|].
    change 1 with (2 ^ 0). apply Z.pow2_bits_false. lia.
Qed.

(** Disjoint runs in order that hold exactly the enabled bytes from [lo] on. *)
Fixpoint runs_from (lo n enable : Z) (runs : list (Z * Z)) : Prop :=
  match runs with
  | [] => forall i, lo <= i < n -> Z.testbit enable i = false
  | (start, stop) :: runs =>
      lo <= start < stop /\ stop <= n /\ (forall i, lo <= i < start -> Z.testbit enable i = false) /\ (forall i, start <= i < stop -> Z.testbit enable i = true) /\
      runs_from stop n enable runs
  end.

Lemma run_end_spec fuel n enable j : 0 <= j <= n -> n - j <= Z.of_nat fuel ->
  let stop := run_end fuel n enable j in j <= stop <= n /\ (forall i, j <= i < stop -> Z.testbit enable i = true) /\ (j < n -> Z.testbit enable j = true -> j < stop).
Proof.
  revert j. induction fuel as [|fuel IH]; intros j Hj Hf; cbn [run_end]; [split_and!; lia|]. destruct (Z.ltb_spec j n) as [Hlt|Hge]; cbn [andb]; [|split_and!; lia].
  rewrite run_enabled_bit by lia. destruct (Z.testbit enable j) eqn:E; [|split; [lia|]; split; [lia|done]]. destruct (IH (j + 1) ltac:(lia) ltac:(lia)) as (H1 & H2 & _). split; [lia|].
  split; [|lia]. intros i Hi. destruct (Z.eq_dec i j) as [->|]; [done|]. apply H2. lia.
Qed.

Lemma runs_from_down lo lo' n enable runs : lo' <= lo -> (forall i, lo' <= i < lo -> Z.testbit enable i = false) -> runs_from lo n enable runs -> runs_from lo' n enable runs.
Proof.
  intros Hl Hd. destruct runs as [|[start stop] runs]; cbn [runs_from].
  - intros H i Hi. destruct (Z.lt_ge_cases i lo); [apply Hd; lia|apply H; lia].
  - intros (H1 & H2 & H3 & H4 & H5). split_and!; try lia; try done. intros i Hi. destruct (Z.lt_ge_cases i lo); [apply Hd; lia|apply H3; lia].
Qed.

Lemma byte_runs_spec fuel n enable j : 0 <= j <= n -> n - j < Z.of_nat fuel -> runs_from j n enable (byte_runs fuel n enable j).
Proof.
  revert j. induction fuel as [|fuel IH]; intros j Hj Hf; [lia|]. cbn [byte_runs]. destruct (Z.ltb_spec j n) as [Hlt|Hge]; [|intros i Hi; lia].
  rewrite run_enabled_bit by lia. destruct (Z.testbit enable j) eqn:E; cbn [negb].
  - destruct (run_end_spec (Z.to_nat n) n enable j ltac:(lia) ltac:(lia)) as (H1 & H2 & H3). specialize (H3 Hlt E). cbn [runs_from]. split_and!; try lia; try done. apply IH; lia.
  - apply (runs_from_down (j + 1)); [lia| |apply IH; lia]. intros i Hi. replace i with j by lia. done.
Qed.

(** The byte map after a masked store. *)
Definition masked_store (address n enable : Z) (data : list Z) (f : Z -> Z) (a : Z) : Z :=
  if (address <=? a) && (a <? address + n) && Z.testbit enable (a - address) then byte_of data (a - address) else f a.

Lemma runs_store address n enable data runs lo f a : 0 <= lo -> n <= zlen data -> 0 <= address -> address + n <= 2 ^ 32 -> runs_from lo n enable runs ->
  fold_left (fun f w => overlay w.1 w.2 f) (map (fun '(start, stop) => (u32 (address + start), slice data (Z.to_nat start) (Z.to_nat (stop - start)))) runs) f a =
  if (address + lo <=? a) && (a <? address + n) && Z.testbit enable (a - address) then byte_of data (a - address) else f a.
Proof.
  intros Hlo Hd Ha Hn. revert lo f Hlo. induction runs as [|[start stop] runs IH]; intros lo f Hlo Hr; cbn [map fold_left runs_from] in *.
  - destruct (Z.leb_spec (address + lo) a), (Z.ltb_spec a (address + n)); cbn [andb]; try done. by rewrite Hr by lia.
  - destruct Hr as (H1 & H2 & H3 & H4 & H5). rewrite (IH stop) by (done || lia). cbn [fst snd]. rewrite u32_id by (unfold is_u32; lia).
    unfold overlay. assert (zlen (slice data (Z.to_nat start) (Z.to_nat (stop - start))) = stop - start) as El.
    { unfold zlen, slice in *. rewrite length_take, length_drop. lia. }
    rewrite El. replace (address + start + (stop - start)) with (address + stop) by lia.
    destruct (Z.leb_spec (address + stop) a), (Z.leb_spec (address + lo) a), (Z.ltb_spec a (address + n)), (Z.leb_spec (address + start) a), (Z.ltb_spec a (address + stop)); cbn [andb]; try lia; try done.
    + rewrite H4 by lia. rewrite slice_bytes by lia. unfold byte_of at 1. rewrite list_lookup_fmap, lookup_zrange by lia. cbn. f_equal. lia.
    + by rewrite H3 by lia.
Qed.

Lemma run_writes_store address n enable data f a : 0 <= n -> n <= zlen data -> 0 <= address -> address + n <= 2 ^ 32 ->
  fold_left (fun f w => overlay w.1 w.2 f) (run_writes address n enable data) f a = masked_store address n enable data f a.
Proof.
  intros Hn Hd Ha Hs. unfold run_writes. rewrite (runs_store address n enable data _ 0) by (done || (apply byte_runs_spec; lia)). by rewrite Z.add_0_r.
Qed.

(** The batch is accepted when the whole store is in range. *)
Lemma batch_check_runs capacity address n enable data runs lo previous : 0 <= lo -> n <= zlen data -> 0 <= address -> address + n <= 2 ^ 32 -> address + n <= capacity ->
  runs_from lo n enable runs -> Forall (fun w => w.2 <= address + lo) previous ->
  batch_check (range_check capacity) previous (map (fun '(start, stop) => (u32 (address + start), slice data (Z.to_nat start) (Z.to_nat (stop - start)))) runs) = Ok tt.
Proof.
  intros Hlo Hd Ha Hn Hc. revert lo previous Hlo. induction runs as [|[start stop] runs IH]; intros lo previous Hlo Hr Hp; cbn [map batch_check runs_from] in *; [done|].
  destruct Hr as (H1 & H2 & H3 & H4 & H5). rewrite u32_id by (unfold is_u32; lia).
  assert (zlen (slice data (Z.to_nat start) (Z.to_nat (stop - start))) = stop - start) as El by (unfold zlen, slice in *; rewrite length_take, length_drop; lia).
  rewrite El. unfold range_check at 1. rewrite (proj2 (in_range_spec _ _ _)) by lia. cbn [result_bind]. replace (address + start + (stop - start)) with (address + stop) by lia.
  rewrite u64_id by (unfold is_u64; lia). unfold overlap_index.
  assert (list_find (fun o => (address + start <? o.2) && (o.1 <? address + stop) = true) previous = None) as ->.
  { apply list_find_None. apply Forall_forall. intros w Hw. rewrite Forall_forall in Hp. specialize (Hp w Hw). destruct (Z.ltb_spec (address + start) w.2); [lia|done]. }
  cbn [fmap option_fmap option_map]. apply (IH stop); [lia|done|]. apply Forall_app. split; [|by repeat constructor]. eapply Forall_impl; [exact Hp|]. cbv beta. lia.
Qed.

Lemma run_writes_ok capacity address n enable data : 0 <= n -> n <= zlen data -> 0 <= address -> address + n <= 2 ^ 32 -> address + n <= capacity ->
  batch_check (range_check capacity) [] (run_writes address n enable data) = Ok tt.
Proof. intros Hn Hd Ha Hs Hc. unfold run_writes. apply (batch_check_runs _ _ n enable _ _ 0); try done; try lia. apply byte_runs_spec; lia. Qed.

Lemma run_writes_address address n enable data : Forall (fun w => 0 <= w.1) (run_writes address n enable data).
Proof. apply Forall_fmap, Forall_forall. intros [start stop] _. cbn. unfold u32. apply Z.mod_pos_bound. lia. Qed.
