(* ===== verification/CacheArray.v ===== *)
(** * The cache geometry and its data array (src/timing/memsys/cache_spec.go, cache_array.go)

    One bank's lines, tags, dirty bits and FIFO replacement pointers.  The geometry is
    read from the timing document once and satisfies [spec_wf]; under it every index of
    the arrays is in range (see CacheArraySpec), so the look-ups below never meet the
    default they fall back to where Go would panic. *)

From S2P Require Import Prelude Memory TimingIR Memsys.

#[local] Open Scope Z_scope.
#[local] Open Scope go_scope.

(** ** Geometry *)

Inductive CacheKind := InstructionCache | DataCache | CacheKindOther (s : string).

#[export] Instance CacheKind_eq_dec : EqDecision CacheKind. Proof. solve_decision. Defined.

Record CacheSpec := mkCacheSpec {
  sp_Kind : CacheKind;
  sp_Bytes : Z;
  sp_Banks : Z;
  sp_Ways : Z;
  sp_Sets : Z;
  sp_WordBytes : Z;
  sp_LineBytes : Z;
  sp_CorePorts : Z;
  sp_MemoryPorts : Z;
  sp_Latency : Z;
  sp_MSHR : Z;
  sp_Writeback : bool;
  sp_CoreResponse : BufferSpec;
  sp_MemoryRequest : BufferSpec;
  sp_MemoryResponse : BufferSpec;
  sp_OuterCoreResponse : BufferSpec;
  sp_OuterMemoryRequest : BufferSpec;
  sp_RefillCrossbar : BufferSpec;
  sp_CoreRequest : BufferSpec;
  sp_RequestArbitration : ArbiterSpec;
  sp_ResponseArbitration : ArbiterSpec;
  sp_NCRequestArbitration : ArbiterSpec;
  sp_NCResponseArbitration : ArbiterSpec
}.

Definition cache_prefix (kind : CacheKind) : string :=
  match kind with InstructionCache => "icache" | DataCache => "dcache" | CacheKindOther s => s end.

Definition is_data (kind : CacheKind) : bool := match kind with DataCache => true | _ => false end.

Section Frozen.
Context `{TimingDocument}.

Definition config (field : string) : result Z := Number "config" "cfg-memory" ["values"; field].

(** The closure [queue(suffix, field)]. *)
Definition bank_queue (prefix suffix field : string) : result BufferSpec :=
  let id := ("b-" +:+ prefix +:+ "-" +:+ suffix)%string in
  let? size := Number "boundaries" id ["rtl_parameters"; field] in
  let? outReg := Number "boundaries" id ["rtl_parameters"; "OUT_REG"] in
  Ok (mkBufferSpec id size outReg).

Definition encoded (prefix suffix : string) : result BufferSpec := Buffer ("b-" +:+ prefix +:+ "-" +:+ suffix)%string.
Definition arbitration (prefix suffix : string) : result ArbiterSpec := Arbiter ("b-" +:+ prefix +:+ "-" +:+ suffix)%string.

(** Go's integer remainder and quotient on [int]. *)
Definition go_rem (a b : Z) : result Z := check b <>? 0 else GoPanic "integer divide by zero" in Ok (Z.rem a b).
Definition go_quot (a b : Z) : result Z := check b <>? 0 else GoPanic "integer divide by zero" in Ok (Z.quot a b).

(** The topology checks, in their order; the replacement policy is only read when the
    comparisons before it hold, and its own failure then counts as zero. *)
Definition topology_ok (latency mshr corePorts memoryPorts banks wordBytes : Z) : bool :=
  (latency =? 2) && (mshr >? 0) && (corePorts =? banks) && (memoryPorts =? banks) && ((wordBytes =? 4) || (wordBytes =? 8)) &&
  (match config "replacement_enum_fifo" with Ok v => v | Err _ => 0 end =? 1).

Definition round_robin_profile (a : ArbiterSpec) : bool := (ar_Policy a == "R") && negb (ar_Sticky a).

Definition FrozenCacheSpec (kind : CacheKind) : result CacheSpec :=
  check negb (bool_decide (kind <> InstructionCache /\ kind <> DataCache)) else Errorf "unknown cache kind" in
  let prefix := cache_prefix kind in
  let? bytes := config (prefix +:+ "_size_bytes") in
  let? banks := config (prefix +:+ "_banks") in
  let? ways := config (prefix +:+ "_ways") in
  let? wordBytes := config (prefix +:+ "_word_bytes") in
  let? lineBytes := config "line_and_sector_bytes" in
  let? corePorts := config (prefix +:+ "_core_ports") in
  let? memoryPorts := config (prefix +:+ "_memory_ports") in
  let? latency := Number "resources" ("res-" +:+ prefix) ["rtl_parameters"; "LATENCY"] in
  let? mshr := Number "resources" ("res-" +:+ prefix) ["rtl_parameters"; "MSHR_SIZE"] in
  let? writeback := if is_data kind then config "dcache_writeback" else Ok 0 in
  let? coreResponse := bank_queue prefix "bank-crsq" "SIZE" in
  let? memoryRequest := bank_queue prefix "bank-mreq" "DEPTH" in
  let? memoryResponse := bank_queue prefix "memory-response-queue" "SIZE" in
  let? coreRequest := encoded prefix "core-request-bank-xbar" in
  let? outerCoreResponse := encoded prefix "outer-core-response" in
  let? outerMemoryRequest := encoded prefix "outer-memory-request" in
  let? refillCrossbar := encoded prefix "memory-response-xbar" in
  let? requestArbitration := arbitration prefix "core-request-bank-xbar" in
  let? responseArbitration := arbitration prefix "outer-core-response" in
  let? ncRequest := if is_data kind then arbitration "dcache" "nc-memory-request" else Ok no_arbiter in
  let? ncResponse := if is_data kind then arbitration "dcache" "nc-response" else Ok no_arbiter in
  check (lineBytes =? SectorBytes) && (bytes >? 0) && (banks >? 0) && (ways >? 0) else Errorf "unsupported cache geometry" in
  let way_bytes := i64 (i64 (banks * ways) * lineBytes) in
  let? rest := go_rem bytes way_bytes in
  check rest =? 0 else Errorf "unsupported cache geometry" in
  let? sets := go_quot bytes way_bytes in
  check topology_ok latency mshr corePorts memoryPorts banks wordBytes else Errorf "unsupported frozen cache pipeline/topology" in
  check (bs_Size coreRequest =? 0) && (ar_Inputs requestArbitration =? corePorts) && (ar_Inputs responseArbitration =? banks)
    else Errorf "unsupported cache request boundary" in
  check negb (is_data kind) || ((ar_Inputs ncRequest =? 2) && (ar_Inputs ncResponse =? 2)) else Errorf "unsupported cache bypass arbitration" in
  check forallb round_robin_profile ([requestArbitration; responseArbitration] ++ if is_data kind then [ncRequest; ncResponse] else [])
    else Errorf "unsupported cache arbitration policy" in
  Ok (mkCacheSpec kind bytes banks ways sets wordBytes lineBytes corePorts memoryPorts latency mshr (writeback <>? 0)
        coreResponse memoryRequest memoryResponse outerCoreResponse outerMemoryRequest refillCrossbar coreRequest
        requestArbitration responseArbitration ncRequest ncResponse).
End Frozen.

(** [bank, set, word, tag := s.DecodeAddress(address)] *)
Record decoded_address := mkDecodedAddress { da_bank : Z; da_set : Z; da_word : Z; da_tag : Z }.

Definition DecodeAddress (s : CacheSpec) (address : Z) : decoded_address :=
  let line := address / sp_LineBytes s in
  mkDecodedAddress (line mod sp_Banks s) (line / sp_Banks s mod sp_Sets s) (address mod sp_LineBytes s / sp_WordBytes s)
    (u32 (line / (sp_Banks s * sp_Sets s))).

Definition lineAddress (s : CacheSpec) (bank set tag : Z) : Z :=
  u32 (u64 (((tag * sp_Sets s + set) * sp_Banks s + bank) * sp_LineBytes s)).

(** ** The array *)

Record cacheLine := mkCacheLine { cl_valid : bool; cl_dirty : bool; cl_tag : Z; cl_data : list Z }.
Record eviction := mkEviction { ev_Valid : bool; ev_Address : Z; ev_Data : list Z }.

Definition no_line : cacheLine := mkCacheLine false false 0 zero_sector.
Definition no_eviction : eviction := mkEviction false 0 zero_sector.

Record cacheArray := mkCacheArray {
  ca_spec : CacheSpec;
  ca_bank : Z;
  ca_lines : list (list cacheLine);
  ca_fifo : list Z;
  ca_initialized : list bool
}.

Definition newCacheArray (s : CacheSpec) (bank : Z) : cacheArray :=
  mkCacheArray s bank (replicate (Z.to_nat (sp_Sets s)) (replicate (Z.to_nat (sp_Ways s)) no_line))
    (replicate (Z.to_nat (sp_Sets s)) 0) (replicate (Z.to_nat (sp_Sets s)) false).

Definition set_lines (a : cacheArray) (set : Z) : list cacheLine := default [] (ca_lines a !! Z.to_nat set).
Definition line_at (a : cacheArray) (set way : Z) : cacheLine := default no_line (set_lines a set !! Z.to_nat way).
Definition fifo_at (a : cacheArray) (set : Z) : Z := default 0 (ca_fifo a !! Z.to_nat set).
Definition initialized_at (a : cacheArray) (set : Z) : bool := default false (ca_initialized a !! Z.to_nat set).

(** [a.lines[set] = lines] and [a.lines[set][way] = line] *)
Definition put_set (set : Z) (lines : list cacheLine) (a : cacheArray) : cacheArray :=
  mkCacheArray (ca_spec a) (ca_bank a) (<[Z.to_nat set := lines]> (ca_lines a)) (ca_fifo a) (ca_initialized a).
Definition put_line (set way : Z) (line : cacheLine) (a : cacheArray) : cacheArray :=
  put_set set (<[Z.to_nat way := line]> (set_lines a set)) a.
Definition put_fifo (set way : Z) (a : cacheArray) : cacheArray :=
  mkCacheArray (ca_spec a) (ca_bank a) (ca_lines a) (<[Z.to_nat set := way]> (ca_fifo a)) (ca_initialized a).
Definition put_initialized (set : Z) (a : cacheArray) : cacheArray :=
  mkCacheArray (ca_spec a) (ca_bank a) (ca_lines a) (ca_fifo a) (<[Z.to_nat set := true]> (ca_initialized a)).

Definition initSet (set : Z) (a : cacheArray) : cacheArray :=
  put_initialized set (put_fifo set 0 (put_set set (map (fun _ => no_line) (set_lines a set)) a)).

Definition location (a : cacheArray) (address : Z) : result (Z * Z * Z) :=
  let d := DecodeAddress (ca_spec a) address in
  if (da_bank d <>? ca_bank a) || negb (initialized_at a (da_set d)) then Err (Errorf "wrong bank or uninitialized cache set")
  else Ok (da_set d, da_word d, da_tag d).

(** The first way of a set that holds a tag. *)
Fixpoint find_way (tag way : Z) (lines : list cacheLine) : option Z :=
  match lines with
  | [] => None
  | line :: rest => if cl_valid line && (cl_tag line =? tag) then Some way else find_way tag (way + 1) rest
  end.

(** [way, hit]: [None] is a miss. *)
Definition lookup_way (a : cacheArray) (address : Z) : result (option Z) :=
  let? (set, _, tag) := location a address in Ok (find_way tag 0 (set_lines a set)).

Definition full_enable (s : CacheSpec) : Z := u8 ((1 << sp_WordBytes s) - 1).

(** [line.data[word*W : (word+1)*W]] *)
Definition word_slice (s : CacheSpec) (word : Z) (data : list Z) : list Z :=
  slice data (Z.to_nat (word * sp_WordBytes s)) (Z.to_nat (sp_WordBytes s)).

(** The response and whether the word was resident. *)
Definition array_read (a : cacheArray) (r : WordRequest) : result (WordResponse * bool) :=
  let rsp data := mkWordResponse (wq_Identity r) (wq_Tag r) data (full_enable (ca_spec a)) None in
  let? way := lookup_way a (wq_Address r) in
  match way with
  | None => Ok (rsp zero_word, false)
  | Some way =>
      let? (set, word, _) := location a (wq_Address r) in
      Ok (rsp (splice zero_word 0 (word_slice (ca_spec a) word (cl_data (line_at a set way)))), true)
  end.

(** The enabled bytes of a word written over a line. *)
Definition write_enabled (s : CacheSpec) (word enable : Z) (source data : list Z) : list Z :=
  fold_left (fun data (i : nat) =>
    if enable .& (1 << Z.of_nat i) <>? 0 then <[Z.to_nat (word * sp_WordBytes s + Z.of_nat i) := default 0 (source !! i)]> data else data)
    (seq 0 (Z.to_nat (sp_WordBytes s))) data.

Definition array_write (a : cacheArray) (r : WordRequest) : cacheArray * result bool :=
  if negb (sp_Writeback (ca_spec a)) then (a, Err (Errorf "store to read-only cache"))
  else if wq_ByteEnable r >> sp_WordBytes (ca_spec a) <>? 0 then (a, Err (Errorf "cache byte enable outside word"))
  else
    match lookup_way a (wq_Address r) with
    | Err e => (a, Err e)
    | Ok None => (a, Ok false)
    | Ok (Some way) =>
        let d := DecodeAddress (ca_spec a) (wq_Address r) in
        let line := line_at a (da_set d) way in
        (put_line (da_set d) way
           (mkCacheLine (cl_valid line) true (cl_tag line) (write_enabled (ca_spec a) (da_word d) (wq_ByteEnable r) (wq_Data r) (cl_data line))) a, Ok true)
    end.

Definition victim (a : cacheArray) (set way : Z) : eviction :=
  let line := line_at a set way in
  mkEviction (cl_valid line && cl_dirty line) (lineAddress (ca_spec a) (ca_bank a) set (cl_tag line)) (cl_data line).

Definition array_fill (a : cacheArray) (address : Z) (data : list Z) : cacheArray * result eviction :=
  match location a address with
  | Err e => (a, Err e)
  | Ok (set, _, tag) =>
      match lookup_way a address with
      | Err e => (a, Err e)
      | Ok existing =>
          let way := default (fifo_at a set) existing in
          let old := victim a set way in
          let old := match existing with Some _ => mkEviction false (ev_Address old) (ev_Data old) | None => old end in
          (put_fifo set ((fifo_at a set + 1) mod sp_Ways (ca_spec a)) (put_line set way (mkCacheLine true false tag data) a), Ok old)
      end
  end.

Definition flushWay (set way : Z) (a : cacheArray) : cacheArray * eviction :=
  let line := line_at a set way in
  (put_line set way (mkCacheLine false false (cl_tag line) (cl_data line)) a, victim a set way).

Definition residentCounts (a : cacheArray) : Z * Z :=
  let lines := concat (ca_lines a) in
  (zlen (filter (fun line => cl_valid line = true) lines), zlen (filter (fun line => cl_dirty line = true) lines)).
