(* ===== verification/CacheArraySpec.v ===== *)
(** * The cache array is transparent

    Over a byte memory that receives its evictions, one bank's array behaves, for the
    reads and writes that hit, like the flat memory of the bank's addresses. *)

From S2P Require Import Prelude Memory TimingIR Memsys CacheArray.

#[local] Open Scope Z_scope.
#[local] Open Scope go_scope.

(** A geometry the constructor accepts, within the machine's integers. *)
Record spec_wf (s : CacheSpec) : Prop := {
  sw_line : sp_LineBytes s = 64;
  sw_banks : 0 < sp_Banks s;
  sw_ways : 0 < sp_Ways s;
  sw_sets : 0 < sp_Sets s;
  sw_word : sp_WordBytes s = 4 \/ sp_WordBytes s = 8
}.

Lemma FrozenCacheSpec_wf `{TimingDocument} kind s : FrozenCacheSpec kind = Ok s ->
  sp_Banks s * sp_Ways s * 64 < 2 ^ 63 -> spec_wf s /\ 0 < sp_MSHR s /\ sp_CorePorts s = sp_Banks s /\ sp_MemoryPorts s = sp_Banks s.
Proof.
  unfold FrozenCacheSpec, go_rem, go_quot. intros Hs Hsmall. case_match; [|done].
  repeat (apply result_bind_ok in Hs as (? & _ & Hs)). case_match eqn:Eg; [|done]. apply result_bind_ok in Hs as (rest & Hrest & Hs). case_match eqn:Er; [|done].
  apply result_bind_ok in Hs as (sets & Hsets & Hs). case_match eqn:Et; [|done]. do 3 (case_match; [|done]). apply Ok_inj in Hs as <-. cbn [sp_Banks sp_Ways] in Hsmall.
  rewrite !andb_true_iff in Eg. destruct Eg as [[[El%Z.eqb_eq Eby%Z.ltb_lt] Eba%Z.ltb_lt] Ew%Z.ltb_lt]. unfold SectorBytes in El. rewrite El in Hrest, Hsets.
  unfold topology_ok in Et. rewrite !andb_true_iff, orb_true_iff in Et. destruct Et as [[[[[_ Em%Z.ltb_lt] Ec%Z.eqb_eq] Emp%Z.eqb_eq] Ewb] _].
  assert (forall b w : Z, 0 < b -> 0 < w -> b * w * 64 < 2 ^ 63 -> i64 (i64 (b * w) * 64) = b * w * 64) as Hi.
  { intros b w Hb Hw Hx. assert (0 < b * w) by nia. unfold i64. rewrite (signed_small 64 (b * w)) by lia. apply (signed_small 64); lia. }
  rewrite Hi in Hrest, Hsets by done.
  match type of Hrest with context [?b =? 0] => assert ((b <>? 0) = true) as En by (apply negb_true_iff, Z.eqb_neq; nia); rewrite En in Hrest, Hsets end.
  apply Ok_inj in Hrest, Hsets. subst rest sets. apply Z.eqb_eq in Er. split_and!; try done.
  split; cbn; try done; [|rewrite !Z.eqb_eq in Ewb; done]. match goal with |- 0 < Z.quot ?a ?b => assert (0 < b) as Hb by nia; pose proof (Z.quot_rem' a b) as Eq; rewrite Er in Eq end. nia.
Qed.

(** ** Addresses *)
Section Geometry.
Context (s : CacheSpec) (W : spec_wf s).

Notation Sets := (sp_Sets s).
Notation Banks := (sp_Banks s).

(** The number of the line with a tag in a set of a bank. *)
Definition line_number (bank set tag : Z) : Z := (tag * Sets + set) * Banks + bank.

Lemma decode_parts x : is_u32 x -> let d := DecodeAddress s x in
  0 <= da_bank d < Banks /\ 0 <= da_set d < Sets /\ 0 <= da_tag d /\ line_number (da_bank d) (da_set d) (da_tag d) = x / 64.
Proof.
  intros Hx. destruct W as [El Hb Hw Hs _]. unfold DecodeAddress. rewrite El. cbn [da_bank da_set da_tag]. unfold is_u32 in Hx.
  assert (0 <= x / 64 < 2 ^ 26) as Hq by (split; [apply Z.div_pos; lia|apply Z.div_lt_upper_bound; lia]).
  assert (1 <= Banks * Sets) as H1 by nia. assert (0 <= x / 64 / (Banks * Sets)) as H0 by (apply Z.div_pos; lia).
  assert (x / 64 / (Banks * Sets) <= x / 64) as Hle by (apply Z.div_le_upper_bound; [lia|]; generalize dependent (x / 64); intros; nia).
  rewrite u32_id by (unfold is_u32; lia). split; [by apply Z.mod_pos_bound|]. split; [by apply Z.mod_pos_bound|]. split; [done|].
  unfold line_number. rewrite <- Z.div_div by lia. pose proof (Z.div_mod (x / 64) Banks ltac:(lia)) as E1. pose proof (Z.div_mod (x / 64 / Banks) Sets ltac:(lia)) as E2. nia.
Qed.

Lemma line_number_inj bank set tag bank' set' tag' : 0 <= bank < Banks -> 0 <= bank' < Banks -> 0 <= set < Sets -> 0 <= set' < Sets ->
  line_number bank set tag = line_number bank' set' tag' -> bank = bank' /\ set = set' /\ tag = tag'.
Proof.
  unfold line_number. intros Hb Hb' Hs Hs' E.
  assert (tag * Sets + set = tag' * Sets + set' /\ bank = bank') as [E1 Eb].
  { assert (forall q r, 0 <= r < Banks -> (q * Banks + r) / Banks = q) as Hd by (intros q r Hr; rewrite Z.add_comm, Z_div_plus_full, Z.div_small by lia; lia).
    pose proof (f_equal (fun z => z / Banks) E) as E'. cbv beta in E'. rewrite !Hd in E' by done. nia. }
  assert (forall q r, 0 <= r < Sets -> (q * Sets + r) / Sets = q) as Hd by (intros q r Hr; rewrite Z.add_comm, Z_div_plus_full, Z.div_small by lia; lia).
  pose proof (f_equal (fun z => z / Sets) E1) as E'. cbv beta in E'. rewrite !Hd in E' by done. nia.
Qed.

(** A line of the address space: its address, and what its bytes decode to. *)
Definition line_fits (bank set tag : Z) : Prop := 0 <= tag /\ line_number bank set tag < 2 ^ 26.

Lemma line_address bank set tag : 0 <= bank -> 0 <= set -> line_fits bank set tag -> lineAddress s bank set tag = 64 * line_number bank set tag.
Proof.
  intros Hb Hs [Ht Hf]. unfold lineAddress. rewrite (sw_line s W). destruct W. change ((tag * Sets + set) * Banks + bank) with (line_number bank set tag).
  assert (0 <= line_number bank set tag) by (unfold line_number; nia). rewrite u64_id, u32_id by (unfold is_u32, is_u64; lia). lia.
Qed.

Lemma decode_fits x : is_u32 x -> let d := DecodeAddress s x in line_fits (da_bank d) (da_set d) (da_tag d).
Proof.
  intros Hx. destruct (decode_parts x Hx) as (_ & _ & Ht & E). split; [done|]. rewrite E. unfold is_u32 in Hx. apply Z.div_lt_upper_bound; lia.
Qed.

(** The decoder inverts the line address. *)
Lemma decode_line bank set tag offset : 0 <= bank < Banks -> 0 <= set < Sets -> line_fits bank set tag -> 0 <= offset < 64 ->
  DecodeAddress s (lineAddress s bank set tag + offset) = mkDecodedAddress bank set (offset / sp_WordBytes s) tag.
Proof.
  intros Hb Hs Hf Ho. rewrite line_address by (lia || done). set (x := 64 * line_number bank set tag + offset). destruct Hf as [Ht Hf].
  assert (0 <= line_number bank set tag) as H0 by (destruct W; unfold line_number; nia). assert (x / 64 = line_number bank set tag) as Eq by (unfold x; rewrite Z.mul_comm, Z_div_plus_full_l, Z.div_small by lia; lia).
  assert (x mod 64 = offset) as Em by (unfold x; rewrite Z.mul_comm, Z.add_comm, Z_mod_plus_full; apply Z.mod_small; lia).
  destruct (decode_parts x) as (B1 & B2 & B3 & E); [unfold is_u32, x; lia|]. rewrite Eq in E. apply line_number_inj in E as (E1 & E2 & E3); try done.
  assert (da_word (DecodeAddress s x) = offset / sp_WordBytes s) as E4 by (unfold DecodeAddress; cbn; rewrite (sw_line s W); by rewrite Em).
  destruct (DecodeAddress s x). cbn in *. congruence.
Qed.

Lemma same_line x y : is_u32 x -> is_u32 y -> let d := DecodeAddress s x in let e := DecodeAddress s y in
  (da_bank d = da_bank e /\ da_set d = da_set e /\ da_tag d = da_tag e) <-> x / 64 = y / 64.
Proof.
  intros Hx Hy d e. destruct (decode_parts x Hx) as (B1 & S1 & _ & E1). destruct (decode_parts y Hy) as (B2 & S2 & _ & E2). fold d in B1, S1, E1. fold e in B2, S2, E2. split.
  - intros (Eb & Es & Et). rewrite <- E1, <- E2. congruence.
  - intros E. apply line_number_inj; [done..|]. congruence.
Qed.
End Geometry.

(** ** The array's invariant *)
Section Array.
Context (s : CacheSpec) (W : spec_wf s).

Notation Sets := (sp_Sets s).
Notation Ways := (sp_Ways s).
Implicit Type a : cacheArray.

(** A place of the array. *)
Definition place (set way : Z) : Prop := 0 <= set < Sets /\ 0 <= way < Ways.

Record array_wf a : Prop := {
  aw_spec : ca_spec a = s;
  aw_bank : 0 <= ca_bank a < sp_Banks s;
  aw_sets : zlen (ca_lines a) = Sets;
  aw_ways : forall set, 0 <= set < Sets -> zlen (set_lines a set) = Ways;
  aw_fifos : zlen (ca_fifo a) = Sets;
  aw_fifo : forall set, 0 <= set < Sets -> 0 <= fifo_at a set < Ways;
  aw_inits : zlen (ca_initialized a) = Sets;
  aw_data : forall set way, 0 <= set -> 0 <= way -> zlen (cl_data (line_at a set way)) = 64;
  aw_unique : forall set way way', place set way -> place set way' -> cl_valid (line_at a set way) = true -> cl_valid (line_at a set way') = true ->
    cl_tag (line_at a set way) = cl_tag (line_at a set way') -> way = way';
  aw_fits : forall set way, place set way -> cl_valid (line_at a set way) = true -> line_fits s (ca_bank a) set (cl_tag (line_at a set way));
  aw_scanned : forall set way, place set way -> cl_valid (line_at a set way) = true -> initialized_at a set = true
}.

Lemma line_at_out a set way : array_wf a -> 0 <= set -> 0 <= way -> ~ place set way -> line_at a set way = no_line.
Proof.
  intros Ha Hs Hw Hp. unfold line_at. assert (set_lines a set !! Z.to_nat way = None) as ->; [|done]. apply lookup_ge_None. destruct (Z.lt_ge_cases set Sets) as [H|H].
  - pose proof (aw_ways a Ha set ltac:(lia)) as Hl. unfold zlen in Hl. unfold place in Hp. lia.
  - unfold set_lines. assert (ca_lines a !! Z.to_nat set = None) as ->; [|cbn; lia]. apply lookup_ge_None. pose proof (aw_sets a Ha) as Hl. unfold zlen in Hl. lia.
Qed.

Lemma set_lines_put a set lines set' : 0 <= set < zlen (ca_lines a) -> 0 <= set' -> set_lines (put_set set lines a) set' = if set =? set' then lines else set_lines a set'.
Proof.
  unfold zlen. intros Hs Hs'. unfold set_lines, put_set. cbn [ca_lines]. destruct (Z.eqb_spec set set') as [<-|Hne]; [by rewrite list_lookup_insert_eq by lia|].
  by rewrite list_lookup_insert_ne by lia.
Qed.

Lemma line_at_put a set way line set' way' : array_wf a -> place set way -> 0 <= set' -> 0 <= way' ->
  line_at (put_line set way line a) set' way' = if (set =? set') && (way =? way') then line else line_at a set' way'.
Proof.
  intros Ha [Hs Hw] Hs' Hw'. unfold line_at at 1, put_line. rewrite set_lines_put by (rewrite ?(aw_sets a Ha); lia). pose proof (aw_ways a Ha set Hs) as Hl. unfold zlen in Hl.
  destruct (Z.eqb_spec set set') as [<-|]; [|done]. cbn [andb]. destruct (Z.eqb_spec way way') as [<-|]; [by rewrite list_lookup_insert_eq by lia|].
  by rewrite list_lookup_insert_ne by lia.
Qed.

(** ** Looking up *)

Lemma find_way_spec tag k lines : match find_way tag k lines with
  | Some w => exists i line, w = k + Z.of_nat i /\ lines !! i = Some line /\ cl_valid line = true /\ cl_tag line = tag
  | None => forall i line, lines !! i = Some line -> ~ (cl_valid line = true /\ cl_tag line = tag)
  end.
Proof.
  revert k. induction lines as [|line lines IH]; intros k; cbn [find_way]; [done|]. destruct (cl_valid line && (cl_tag line =? tag)) eqn:E.
  - apply andb_true_iff in E as [E1 E2%Z.eqb_eq]. exists O, line. split_and!; [lia|done..].
  - specialize (IH (k + 1)). destruct (find_way tag (k + 1) lines) as [w|].
    + destruct IH as (i & l & -> & Hl & Hv). exists (S i), l. split; [lia|]. by split.
    + intros [|i] l; [intros [= <-] [Hv Ht]|by apply IH]. rewrite Hv, Ht, Z.eqb_refl in E. done.
Qed.

(** The way that holds a tag in a set. *)
Definition way_of a set tag : option Z := find_way tag 0 (set_lines a set).

Lemma way_of_some a set tag way : array_wf a -> 0 <= set < Sets ->
  (way_of a set tag = Some way <-> place set way /\ cl_valid (line_at a set way) = true /\ cl_tag (line_at a set way) = tag).
Proof.
  intros Ha Hs. pose proof (find_way_spec tag 0 (set_lines a set)) as Hf. unfold way_of. pose proof (aw_ways a Ha set Hs) as Hl. unfold zlen in Hl. split.
  - intros E. rewrite E in Hf. destruct Hf as (i & line & -> & Hi & Hv & Ht). assert (line_at a set (0 + Z.of_nat i) = line) as ->.
    { unfold line_at. replace (Z.to_nat (0 + Z.of_nat i)) with i by lia. by rewrite Hi. }
    split; [|done]. apply lookup_lt_Some in Hi. unfold place. lia.
  - intros ([_ Hw] & Hv & Ht). assert (set_lines a set !! Z.to_nat way = Some (line_at a set way)) as Hi.
    { unfold line_at. destruct (lookup_lt_is_Some_2 (set_lines a set) (Z.to_nat way) ltac:(lia)) as [x ->]. done. }
    destruct (find_way tag 0 (set_lines a set)) as [w|]; [|by destruct (Hf _ _ Hi)]. destruct Hf as (i & line & -> & Hj & Hv' & Ht'). f_equal.
    assert (line_at a set (0 + Z.of_nat i) = line) as El by (unfold line_at; replace (Z.to_nat (0 + Z.of_nat i)) with i by lia; by rewrite Hj).
    apply lookup_lt_Some in Hj. apply (aw_unique a Ha set); rewrite ?El; try done; [unfold place; lia..|by rewrite Ht, Ht'].
Qed.

Lemma way_of_none a set tag way : array_wf a -> way_of a set tag = None -> place set way -> ~ (cl_valid (line_at a set way) = true /\ cl_tag (line_at a set way) = tag).
Proof. intros Ha Hn Hp Hv. pose proof (proj2 (way_of_some a set tag way Ha (proj1 Hp)) (conj Hp Hv)) as E. by rewrite Hn in E. Qed.

(** The location of an address of the bank, in a scanned set. *)
Lemma location_ok a x set word tag : array_wf a -> location a x = Ok (set, word, tag) ->
  let d := DecodeAddress s x in da_bank d = ca_bank a /\ set = da_set d /\ word = da_word d /\ tag = da_tag d /\ initialized_at a set = true.
Proof.
  intros Ha. unfold location. rewrite (aw_spec a Ha). case_match eqn:E; [done|]. apply orb_false_iff in E as [E1%negb_false_iff%Z.eqb_eq E2%negb_false_iff].
  intros H%Ok_inj. injection H as <- <- <-. by split_and!.
Qed.

Lemma lookup_way_ok a x o : array_wf a -> lookup_way a x = Ok o -> let d := DecodeAddress s x in
  da_bank d = ca_bank a /\ initialized_at a (da_set d) = true /\ o = way_of a (da_set d) (da_tag d).
Proof.
  intros Ha H. unfold lookup_way in H. apply result_bind_ok in H as ([[set word] tag] & El & H%Ok_inj). destruct (location_ok a x set word tag Ha El) as (Eb & -> & _ & -> & Ei).
  by split_and!.
Qed.

(** ** The bytes a client sees

    The byte at an address of the bank: the array's if its line is resident, the
    memory's otherwise. *)
Definition view a (m : Z -> Z) (x : Z) : Z :=
  let d := DecodeAddress s x in
  match way_of a (da_set d) (da_tag d) with
  | Some way => byte_of (cl_data (line_at a (da_set d) way)) (x mod 64)
  | None => m x
  end.

(** An eviction written to memory. *)
Definition write_back (old : eviction) (m : Z -> Z) : Z -> Z := if ev_Valid old then overlay (ev_Address old) (ev_Data old) m else m.

(** A resident line that is not dirty is the memory's. *)
Definition clean a (m : Z -> Z) : Prop := forall set way offset, place set way -> 0 <= offset < 64 ->
  cl_valid (line_at a set way) = true -> cl_dirty (line_at a set way) = false ->
  byte_of (cl_data (line_at a set way)) offset = m (lineAddress s (ca_bank a) set (cl_tag (line_at a set way)) + offset).

Definition in_bank (b x : Z) : Prop := is_u32 x /\ da_bank (DecodeAddress s x) = b.

(** Where an address of the bank lies in its line. *)
Lemma in_line b x : in_bank b x -> let d := DecodeAddress s x in x = lineAddress s b (da_set d) (da_tag d) + x mod 64 /\ 0 <= x mod 64 < 64 /\ 0 <= da_set d < Sets.
Proof.
  intros [Hx Hb] d. destruct (decode_parts s W x Hx) as (B1 & S1 & T1 & E). fold d in B1, S1, T1, E. subst b.
  fold d. rewrite (line_address s W) by (lia || by apply (decode_fits s W)). rewrite E. pose proof (Z.div_mod x 64 ltac:(lia)). pose proof (Z.mod_pos_bound x 64 ltac:(lia)). lia.
Qed.

Lemma overlay_line b set tag data m x : zlen data = 64 -> 0 <= b < sp_Banks s -> 0 <= set < Sets -> line_fits s b set tag -> in_bank b x ->
  overlay (lineAddress s b set tag) data m x = if bool_decide (da_set (DecodeAddress s x) = set /\ da_tag (DecodeAddress s x) = tag) then byte_of data (x mod 64) else m x.
Proof.
  intros Hd Hb Hs Hf Hx. destruct (in_line b x Hx) as (Ex & Ho & Hsx). unfold overlay. rewrite Hd. case_bool_decide as E.
  - destruct E as [<- <-]. set (base := lineAddress s b (da_set (DecodeAddress s x)) (da_tag (DecodeAddress s x))) in *. clearbody base.
    assert ((x >=? base) && (base + 64 >? x) = true) as -> by (rewrite andb_true_iff, Z.leb_le, Z.ltb_lt; lia). f_equal. lia.
  - destruct (_ && _) eqn:Er; [|done]. exfalso. apply E. rewrite andb_true_iff, Z.leb_le, Z.ltb_lt in Er.
    pose proof (decode_line s W b set tag (x - lineAddress s b set tag) Hb Hs Hf ltac:(lia)) as Ed. replace (lineAddress s b set tag + (x - lineAddress s b set tag)) with x in Ed by lia.
    by rewrite Ed.
Qed.
(** ** Changing one line *)

Lemma put_line_wf a set way line : array_wf a -> place set way -> zlen (cl_data line) = 64 ->
  (cl_valid line = true -> line_fits s (ca_bank a) set (cl_tag line) /\ initialized_at a set = true /\
     forall way', place set way' -> way' <> way -> cl_valid (line_at a set way') = true -> cl_tag (line_at a set way') <> cl_tag line) ->
  array_wf (put_line set way line a).
Proof.
  intros Ha Hp Hd Hv. pose proof Hp as [Hs Hw]. split; try apply Ha.
  - unfold put_line, put_set, zlen. cbn [ca_lines]. rewrite length_insert. apply (aw_sets a Ha).
  - intros set' Hs'. unfold put_line. rewrite set_lines_put by (rewrite ?(aw_sets a Ha); lia). destruct (Z.eqb_spec set set') as [<-|]; [|by apply (aw_ways a Ha)].
    unfold zlen. rewrite length_insert. by apply (aw_ways a Ha).
  - intros set' way' Hs' Hw'. rewrite (line_at_put a set way) by done. case_match; [done|]. by apply (aw_data a Ha).
  - intros set' way1 way2 [Hs1 H1] [_ H2]. rewrite !(line_at_put a set way) by (done || lia). destruct (Z.eqb_spec set set') as [<-|]; cbn [andb]; [|by apply (aw_unique a Ha)].
    destruct (Z.eqb_spec way way1) as [<-|N1], (Z.eqb_spec way way2) as [<-|N2]; try done.
    + intros V1 V2 E. destruct (Hv V1) as (_ & _ & Hu). by destruct (Hu way2 (conj Hs1 H2) ltac:(done) V2).
    + intros V1 V2 E. destruct (Hv V2) as (_ & _ & Hu). by destruct (Hu way1 (conj Hs1 H1) ltac:(done) V1).
    + by apply (aw_unique a Ha).
  - intros set' way' Hp' . rewrite (line_at_put a set way) by (done || apply Hp'). destruct (Z.eqb_spec set set') as [<-|]; cbn [andb]; [|by apply (aw_fits a Ha)].
    destruct (Z.eqb_spec way way') as [<-|]; [|by apply (aw_fits a Ha)]. intros V. by apply Hv.
  - intros set' way' Hp'. rewrite (line_at_put a set way) by (done || apply Hp'). change (initialized_at (put_line set way line a) set') with (initialized_at a set').
    destruct (Z.eqb_spec set set') as [<-|]; cbn [andb]; [|by apply (aw_scanned a Ha)]. destruct (Z.eqb_spec way way') as [<-|]; [|by apply (aw_scanned a Ha)]. intros V. by apply Hv.
Qed.

Lemma put_fifo_wf a set v : array_wf a -> 0 <= set < Sets -> 0 <= v < Ways -> array_wf (put_fifo set v a).
Proof.
  intros Ha Hs Hv. split; try apply Ha.
  - unfold put_fifo, zlen. cbn [ca_fifo]. rewrite length_insert. apply (aw_fifos a Ha).
  - intros set' Hs'. unfold fifo_at, put_fifo. cbn [ca_fifo]. pose proof (aw_fifos a Ha) as Hl. unfold zlen in Hl. destruct (Z.eq_dec set set') as [<-|].
    + by rewrite list_lookup_insert_eq by lia.
    + rewrite list_lookup_insert_ne by lia. by apply (aw_fifo a Ha).
Qed.

Lemma way_of_put a set way line set' tag' : array_wf a -> array_wf (put_line set way line a) -> place set way -> 0 <= set' < Sets ->
  way_of (put_line set way line a) set' tag' =
    if (set =? set') && bool_decide (cl_valid line = true /\ cl_tag line = tag') then Some way
    else match way_of a set' tag' with Some w => if (set =? set') && (way =? w) then None else Some w | None => None end.
Proof.
  intros Ha Ha' Hp Hs'. destruct (Z.eqb_spec set set') as [<-|Hne]; cbn [andb].
  - case_bool_decide as Hb.
    + apply (way_of_some _ _ _ way Ha' Hs'). split; [done|]. rewrite (line_at_put a set way) by (done || apply Hp). by rewrite !Z.eqb_refl.
    + destruct (way_of (put_line set way line a) set tag') as [w|] eqn:E.
      * apply (way_of_some _ _ _ w Ha' Hs') in E as (Pw & Vw & Tw). rewrite (line_at_put a set way) in Vw by (done || apply Pw). rewrite (line_at_put a set way) in Tw by (done || apply Pw).
        rewrite Z.eqb_refl in Vw, Tw. cbn [andb] in Vw, Tw. destruct (Z.eqb_spec way w) as [<-|]; [by destruct Hb|].
        rewrite (proj2 (way_of_some a set tag' w Ha Hs')) by done. by destruct (Z.eqb_spec way w).
      * destruct (way_of a set tag') as [w|] eqn:E'; [|done]. destruct (Z.eqb_spec way w); [done|]. exfalso. apply (way_of_some a set tag' w Ha Hs') in E' as (Pw & Vw & Tw).
        apply (way_of_none _ _ _ w Ha' E Pw). rewrite (line_at_put a set way) by (done || apply Pw). rewrite Z.eqb_refl. destruct (Z.eqb_spec way w); done.
  - destruct (way_of a set' tag') as [w|] eqn:E.
    + apply (way_of_some a set' tag' w Ha Hs') in E as (Pw & Vw & Tw). apply (way_of_some _ _ _ w Ha' Hs'). split; [done|]. rewrite (line_at_put a set way) by (done || apply Pw).
      by destruct (Z.eqb_spec set set').
    + destruct (way_of (put_line set way line a) set' tag') as [w|] eqn:E'; [|done]. exfalso. apply (way_of_some _ _ _ w Ha' Hs') in E' as (Pw & Vw & Tw). apply (way_of_none _ _ _ w Ha E Pw).
      rewrite (line_at_put a set way) in Vw by (done || apply Pw). rewrite (line_at_put a set way) in Tw by (done || apply Pw). by destruct (Z.eqb_spec set set').
Qed.

(** The view after one line changed. *)
Lemma view_put a m set way line x : array_wf a -> array_wf (put_line set way line a) -> place set way -> is_u32 x ->
  let d := DecodeAddress s x in
  view (put_line set way line a) m x =
    if (set =? da_set d) && bool_decide (cl_valid line = true /\ cl_tag line = da_tag d) then byte_of (cl_data line) (x mod 64)
    else match way_of a (da_set d) (da_tag d) with
         | Some w => if (set =? da_set d) && (way =? w) then m x else byte_of (cl_data (line_at a (da_set d) w)) (x mod 64)
         | None => m x
         end.
Proof.
  intros Ha Ha' Hp Hx d. destruct (decode_parts s W x Hx) as (_ & S1 & _). fold d in S1. unfold view. fold d. rewrite way_of_put by done.
  destruct ((set =? da_set d) && bool_decide _) eqn:E.
  - apply andb_true_iff in E as [E1%Z.eqb_eq _]. rewrite (line_at_put a set way) by (done || lia || apply Hp). rewrite E1, !Z.eqb_refl. done.
  - destruct (way_of a (da_set d) (da_tag d)) as [w|] eqn:Ew; [|done]. destruct ((set =? da_set d) && (way =? w)) eqn:E2; [done|].
    apply (way_of_some a _ _ _ Ha S1) in Ew as ([_ Pw] & _ & _). rewrite (line_at_put a set way) by (done || lia || apply Pw). by rewrite E2.
Qed.
(** ** Words *)

(** The word at an address of a byte map, padded to the eight bytes of a response. *)
Definition word_bytes (M : Z -> Z) (x : Z) : list Z :=
  map (fun i => M (x + Z.of_nat i)) (seq 0 (Z.to_nat (sp_WordBytes s))) ++ replicate (8 - Z.to_nat (sp_WordBytes s)) 0.

Definition aligned_word (x : Z) : Prop := is_u32 x /\ x mod sp_WordBytes s = 0.

(** The offset of a word in its line is a whole number of words. *)
Lemma word_index x : x mod sp_WordBytes s = 0 -> x mod 64 mod sp_WordBytes s = 0 /\ x mod 64 + sp_WordBytes s <= 64.
Proof.
  intros Ha. assert (x mod 64 mod sp_WordBytes s = 0) as E by (rewrite Z.mod_mod_divide; [done|destruct (sw_word s W) as [-> | ->]; [by exists 16|by exists 8]]).
  split; [done|]. pose proof (Z.mod_pos_bound x 64 ltac:(lia)). pose proof (Z.div_mod (x mod 64) (sp_WordBytes s)) as Ed. rewrite E in Ed.
  destruct (sw_word s W) as [Ew|Ew]; rewrite Ew in *; specialize (Ed ltac:(lia)); lia.
Qed.

Lemma word_in_line x i : aligned_word x -> 0 <= i < sp_WordBytes s ->
  is_u32 (x + i) /\ (x + i) / 64 = x / 64 /\ (x + i) mod 64 = x mod 64 + i /\ x mod 64 + sp_WordBytes s <= 64.
Proof.
  intros [Hx Ha] Hi. unfold is_u32 in *. pose proof (Z.div_mod x 64 ltac:(lia)) as E. pose proof (Z.mod_pos_bound x 64 ltac:(lia)) as B.
  destruct (word_index x Ha) as [_ Hl].
  assert ((x + i) / 64 = x / 64) as Eq by (symmetry; apply (Z.div_unique_pos _ _ _ (x mod 64 + i)); lia).
  assert ((x + i) mod 64 = x mod 64 + i) as Em by (symmetry; apply (Z.mod_unique_pos _ _ (x / 64)); lia). split_and!; lia.
Qed.

Lemma decode_word x i : aligned_word x -> 0 <= i < sp_WordBytes s -> let d := DecodeAddress s x in let e := DecodeAddress s (x + i) in
  da_bank e = da_bank d /\ da_set e = da_set d /\ da_tag e = da_tag d.
Proof.
  intros Ha Hi d e. destruct (word_in_line x i Ha Hi) as (Hu & Hq & _). apply (same_line s W (x + i) x Hu (proj1 Ha)). done.
Qed.

Lemma word_offset x : aligned_word x -> da_word (DecodeAddress s x) * sp_WordBytes s = x mod 64.
Proof.
  intros [_ Ha]. unfold DecodeAddress. cbn [da_word]. rewrite (sw_line s W). destruct (word_index x Ha) as [E _].
  pose proof (Z.div_mod (x mod 64) (sp_WordBytes s)) as Ed. destruct (sw_word s W) as [Ew|Ew]; rewrite Ew in *; lia.
Qed.

(** A read that hits returns the bytes the client sees. *)
Lemma read_hit a m r rsp : array_wf a -> aligned_word (wq_Address r) -> array_read a r = Ok (rsp, true) ->
  wr_Identity rsp = wq_Identity r /\ wr_Tag rsp = wq_Tag r /\ wr_Err rsp = None /\ wr_Data rsp = word_bytes (view a m) (wq_Address r).
Proof.
  intros Ha Hw H. unfold array_read in H. apply result_bind_ok in H as (o & Ho & H). destruct (lookup_way_ok a _ o Ha Ho) as (Eb & Ei & ->).
  destruct (way_of a _ _) as [way|] eqn:Ew; [|done]. apply result_bind_ok in H as ([[set word] tag] & El & H%Ok_inj). injection H as <-. cbn [wr_Identity wr_Tag wr_Err wr_Data].
  split_and!; [done..|]. destruct (location_ok a _ _ _ _ Ha El) as (_ & -> & -> & -> & _). set (x := wq_Address r) in *.
  destruct (decode_parts s W x (proj1 Hw)) as (_ & S1 & _). assert (0 < sp_WordBytes s <= 8) as HW by (destruct (sw_word s W); lia).
  destruct (word_in_line x 0 Hw ltac:(lia)) as (_ & _ & _ & Hfit). pose proof (Z.mod_pos_bound x 64 ltac:(lia)) as Hm.
  apply (way_of_some a _ _ _ Ha S1) in Ew as Hp. destruct Hp as ([_ Pw] & _ & _).
  assert (word_slice s (da_word (DecodeAddress s x)) (cl_data (line_at a (da_set (DecodeAddress s x)) way)) =
          map (fun i => view a m (x + Z.of_nat i)) (seq 0 (Z.to_nat (sp_WordBytes s)))) as E.
  { unfold word_slice. rewrite (word_offset x Hw). rewrite slice_bytes by (rewrite ?(aw_data a Ha) by lia; lia). unfold zrange. rewrite map_map. apply map_ext_in.
    intros i Hi%in_seq. destruct (word_in_line x (Z.of_nat i) Hw ltac:(lia)) as (_ & _ & Emod & _). destruct (decode_word x (Z.of_nat i) Hw ltac:(lia)) as (_ & E2 & E3).
    unfold view. rewrite E2, E3, Ew, Emod. done. }
  rewrite (aw_spec a Ha). rewrite E. unfold word_bytes, splice. rewrite length_map, length_seq. rewrite take_0, app_nil_l. f_equal.
  unfold zero_word. by rewrite drop_replicate.
Qed.

(** The byte map after the enabled bytes of a word are written. *)
Definition store_word (x enable : Z) (source : list Z) (M : Z -> Z) (y : Z) : Z :=
  if (x <=? y) && (y <? x + sp_WordBytes s) && Z.testbit enable (y - x) then default 0 (source !! Z.to_nat (y - x)) else M y.

Lemma write_enabled_bit enable i : (enable .& (1 << Z.of_nat i) <>? 0) = Z.testbit enable (Z.of_nat i).
Proof.
  rewrite Z.shiftl_1_l. destruct (Z.testbit enable (Z.of_nat i)) eqn:E.
  - apply negb_true_iff, Z.eqb_neq. intros E0. assert (Z.testbit (Z.land enable (2 ^ Z.of_nat i)) (Z.of_nat i) = true) as Ht by (rewrite Z.land_spec, E, Z.pow2_bits_true by lia; done).
    by rewrite E0, Z.bits_0 in Ht.
  - apply negb_false_iff, Z.eqb_eq. apply Z.bits_inj'. intros j Hj. rewrite Z.land_spec, Z.bits_0. destruct (Z.eq_dec j (Z.of_nat i)) as [->|]; [by rewrite E|].
    rewrite Z.pow2_bits_false by lia. by rewrite andb_false_r.
Qed.

Lemma write_enabled_bytes word enable source data : 0 <= word -> word * sp_WordBytes s + sp_WordBytes s <= zlen data ->
  zlen (write_enabled s word enable source data) = zlen data /\
  forall offset, 0 <= offset -> byte_of (write_enabled s word enable source data) offset = store_word (word * sp_WordBytes s) enable source (byte_of data) offset.
Proof.
  intros Hw Hfit. assert (0 < sp_WordBytes s <= 8) as HW by (destruct (sw_word s W); lia). unfold write_enabled.
  assert (forall n, (n <= Z.to_nat (sp_WordBytes s))%nat -> let out := fold_left (fun data (i : nat) => if enable .& (1 << Z.of_nat i) <>? 0
      then <[Z.to_nat (word * sp_WordBytes s + Z.of_nat i) := default 0 (source !! i)]> data else data) (seq 0 n) data in
    zlen out = zlen data /\ forall offset, 0 <= offset -> byte_of out offset =
      if (word * sp_WordBytes s <=? offset) && (offset <? word * sp_WordBytes s + Z.of_nat n) && Z.testbit enable (offset - word * sp_WordBytes s)
      then default 0 (source !! Z.to_nat (offset - word * sp_WordBytes s)) else byte_of data offset) as Hloop.
  { induction n as [|n IH]; intros Hn.
    - split; [done|]. intros offset Ho. change (Z.of_nat 0) with 0. rewrite Z.add_0_r.
      destruct (Z.leb_spec (word * sp_WordBytes s) offset), (Z.ltb_spec offset (word * sp_WordBytes s)); try done; lia.
    - rewrite seq_S, fold_left_app. cbn [fold_left Nat.add]. destruct (IH ltac:(lia)) as [Hl Hb]. rewrite write_enabled_bit. split.
      + case_match; [|done]. unfold zlen in *. by rewrite length_insert.
      + intros offset Ho. destruct (Z.eq_dec offset (word * sp_WordBytes s + Z.of_nat n)) as [->|Hne].
        * replace (word * sp_WordBytes s + Z.of_nat n - word * sp_WordBytes s) with (Z.of_nat n) by lia.
          assert ((word * sp_WordBytes s <=? word * sp_WordBytes s + Z.of_nat n) && (word * sp_WordBytes s + Z.of_nat n <? word * sp_WordBytes s + Z.of_nat (S n)) = true) as ->
            by (rewrite andb_true_iff, Z.leb_le, Z.ltb_lt; lia).
          cbn [andb]. destruct (Z.testbit enable (Z.of_nat n)).
          -- unfold byte_of at 1. unfold zlen in *. rewrite list_lookup_insert_eq by lia. by rewrite Nat2Z.id.
          -- rewrite Hb by lia. destruct (Z.ltb_spec (word * sp_WordBytes s + Z.of_nat n) (word * sp_WordBytes s + Z.of_nat n)); [lia|]. by rewrite andb_false_r.
        * assert ((offset <? word * sp_WordBytes s + Z.of_nat (S n)) = (offset <? word * sp_WordBytes s + Z.of_nat n)) as ->
            by (destruct (Z.ltb_spec offset (word * sp_WordBytes s + Z.of_nat (S n))), (Z.ltb_spec offset (word * sp_WordBytes s + Z.of_nat n)); lia).
          rewrite <- Hb by done. case_match; [|done]. unfold byte_of. rewrite list_lookup_insert_ne by lia. done. }
  destruct (Hloop _ (le_n _)) as [Hl Hb]. rewrite Z2Nat.id in Hb by lia. split; [exact Hl|]. intros offset Ho. by rewrite Hb.
Qed.
(** ** What each operation does to the view *)

(** The array and the memory below it. *)
Record consistent a (m : Z -> Z) : Prop := { co_array : array_wf a; co_clean : clean a m }.

(** Two operations agree on the bank when they show the same bytes. *)
Definition shows a m (M : Z -> Z) : Prop := forall x, in_bank (ca_bank a) x -> view a m x = M x.

Lemma write_hit a m r a' : consistent a m -> aligned_word (wq_Address r) -> array_write a r = (a', Ok true) ->
  consistent a' m /\ ca_bank a' = ca_bank a /\ forall y, in_bank (ca_bank a) y -> view a' m y = store_word (wq_Address r) (wq_ByteEnable r) (wq_Data r) (view a m) y.
Proof.
  intros [Ha Hc] Hw H. unfold array_write in H. rewrite (aw_spec a Ha) in H. case_match; [done|]. case_match; [done|]. destruct (lookup_way a (wq_Address r)) as [[way|]|e] eqn:El; [|done..].
  apply pair_eq in H as [<- _]. destruct (lookup_way_ok a _ _ Ha El) as (Eb & Ei & Ew). symmetry in Ew. set (x := wq_Address r) in *. set (d := DecodeAddress s x) in *.
  destruct (decode_parts s W x (proj1 Hw)) as (_ & S1 & _). fold d in S1. apply (way_of_some a _ _ _ Ha S1) in Ew as (Hp & Hv & Ht). rewrite Hv.
  set (line := line_at a (da_set d) way) in *. set (line' := mkCacheLine true true (cl_tag line) _). assert (0 < sp_WordBytes s <= 8) as HW by (destruct (sw_word s W); lia).
  destruct (word_in_line x 0 Hw ltac:(lia)) as (_ & _ & _ & Hfit). pose proof (Z.mod_pos_bound x 64 ltac:(lia)) as Hm. pose proof (word_offset x Hw) as Ho. fold d in Ho.
  assert (zlen (cl_data line) = 64) as Hl by (apply (aw_data a Ha); apply Hp).
  destruct (write_enabled_bytes (da_word d) (wq_ByteEnable r) (wq_Data r) (cl_data line)) as [Hlen Hbytes]; [nia|rewrite Hl; lia|].
  assert (array_wf (put_line (da_set d) way line' a)) as Ha'.
  { apply put_line_wf; [done..|cbn [cl_data line']; by rewrite Hlen|]. intros _. cbn [cl_tag line']. split; [by apply (aw_fits a Ha)|]. split; [done|]. intros way' Hp' Hne Hv' Et.
    apply Hne. apply (aw_unique a Ha (da_set d)); done. }
  split; [|split; [done|]].
  - split; [done|]. intros set' way' offset Hp' Hoff. rewrite !(line_at_put a (da_set d) way) by (done || apply Hp'). case_match; [done|]. apply (Hc set' way' offset Hp' Hoff).
  - intros y [Hy Hby]. rewrite view_put by done. set (e := DecodeAddress s y) in *. cbn [cl_valid cl_tag cl_data line']. rewrite Ht.
    assert (forall z, x <= z < x + sp_WordBytes s -> da_set (DecodeAddress s z) = da_set d /\ da_tag (DecodeAddress s z) = da_tag d /\ z mod 64 = x mod 64 + (z - x)) as Hin.
    { intros z Hz. destruct (decode_word x (z - x) Hw ltac:(lia)) as (_ & E2 & E3). destruct (word_in_line x (z - x) Hw ltac:(lia)) as (_ & _ & E4 & _).
      replace (x + (z - x)) with z in * by lia. by split_and!. }
    destruct ((da_set d =? da_set e) && bool_decide (true = true /\ da_tag d = da_tag e)) eqn:E.
    + apply andb_true_iff in E as [E1%Z.eqb_eq [_ E2]%bool_decide_eq_true]. rewrite Hbytes by (apply Z.mod_pos_bound; lia).
      assert (y / 64 = x / 64) as Eq by (apply (same_line s W y x Hy (proj1 Hw)); fold d e; split_and!; congruence).
      pose proof (Z.div_mod x 64 ltac:(lia)). pose proof (Z.div_mod y 64 ltac:(lia)). unfold store_word. rewrite Ho.
      assert ((x mod 64 <=? y mod 64) = (x <=? y)) as -> by (destruct (Z.leb_spec (x mod 64) (y mod 64)), (Z.leb_spec x y); lia).
      assert ((y mod 64 <? x mod 64 + sp_WordBytes s) = (y <? x + sp_WordBytes s)) as -> by (destruct (Z.ltb_spec (y mod 64) (x mod 64 + sp_WordBytes s)), (Z.ltb_spec y (x + sp_WordBytes s)); lia).
      replace (y mod 64 - x mod 64) with (y - x) by lia. case_match; [done|]. unfold view. fold e. rewrite <- E1, <- E2.
      by rewrite (proj2 (way_of_some a (da_set d) (da_tag d) way Ha S1)) by done.
    + unfold store_word. destruct ((x <=? y) && (y <? x + sp_WordBytes s)) eqn:Er; cbn [andb].
      { exfalso. rewrite andb_true_iff, Z.leb_le, Z.ltb_lt in Er. destruct (Hin y ltac:(lia)) as (E1 & E2 & _). fold e in E1, E2. rewrite <- E1, <- E2, Z.eqb_refl in E. cbn in E.
        by rewrite bool_decide_eq_true_2 in E. }
      unfold view. fold e. destruct (way_of a (da_set e) (da_tag e)) as [w|] eqn:Ew; [|done]. destruct ((da_set d =? da_set e) && (way =? w)) eqn:E3; [|done]. exfalso.
      apply andb_true_iff in E3 as [E1%Z.eqb_eq <-%Z.eqb_eq]. destruct (decode_parts s W y Hy) as (_ & S2 & _). fold e in S2. apply (way_of_some a _ _ _ Ha S2) in Ew as (_ & _ & Tw).
      rewrite <- E1 in Tw. fold line in Tw. rewrite E1, Z.eqb_refl in E. cbn [andb] in E. apply bool_decide_eq_false in E. apply E. split; congruence.
Qed.
(** An address inside a line of the bank. *)
Lemma line_in_bank b set tag offset : 0 <= b < sp_Banks s -> 0 <= set < Sets -> line_fits s b set tag -> 0 <= offset < 64 ->
  let y := lineAddress s b set tag + offset in in_bank b y /\ da_set (DecodeAddress s y) = set /\ da_tag (DecodeAddress s y) = tag /\ y mod 64 = offset.
Proof.
  intros Hb Hs Hf Ho y. unfold y. unfold in_bank. rewrite (decode_line s W) by done. cbn [da_bank da_set da_tag]. rewrite (line_address s W) by (lia || done).
  destruct Hf as [Ht Hf]. assert (0 <= line_number s b set tag) by (destruct W; unfold line_number; nia). split_and!; unfold is_u32; try lia; [done..|].
  rewrite Z.mul_comm, Z.add_comm, Z_mod_plus_full. by apply Z.mod_small.
Qed.

(** The memory after the eviction of a place. *)
Lemma evicted_byte a m set way y : array_wf a -> place set way -> in_bank (ca_bank a) y ->
  write_back (victim a set way) m y =
    if cl_valid (line_at a set way) && cl_dirty (line_at a set way) && bool_decide (da_set (DecodeAddress s y) = set /\ da_tag (DecodeAddress s y) = cl_tag (line_at a set way))
    then byte_of (cl_data (line_at a set way)) (y mod 64) else m y.
Proof.
  intros Ha Hp Hy. unfold write_back, victim. set (line := line_at a set way). cbn [ev_Valid ev_Address ev_Data]. destruct (cl_valid line && cl_dirty line) eqn:E; [|done].
  apply andb_true_iff in E as [Hv _]. cbn [andb]. rewrite (aw_spec a Ha). apply overlay_line; [|apply (aw_bank a Ha)|apply Hp|by apply (aw_fits a Ha)|done].
  apply (aw_data a Ha); apply Hp.
Qed.

Lemma evict_absent a m set way y : array_wf a -> place set way -> in_bank (ca_bank a) y ->
  way_of a (da_set (DecodeAddress s y)) (da_tag (DecodeAddress s y)) = None -> write_back (victim a set way) m y = m y.
Proof.
  intros Ha Hp Hy Hn. rewrite evicted_byte by done. case_match eqn:E; [|done]. exfalso. rewrite !andb_true_iff, bool_decide_eq_true in E.
  destruct E as [[Hv _] [E1 E2]]. apply (way_of_none a _ _ way Ha Hn); by rewrite E1.
Qed.

(** Evicting a place shows the same bytes, once it no longer holds its line. *)
Lemma evict_view a m set way y : consistent a m -> place set way -> in_bank (ca_bank a) y -> let d := DecodeAddress s y in
  match way_of a (da_set d) (da_tag d) with
  | Some w => if (set =? da_set d) && (way =? w) then write_back (victim a set way) m y else byte_of (cl_data (line_at a (da_set d) w)) (y mod 64)
  | None => write_back (victim a set way) m y
  end = view a m y.
Proof.
  intros [Ha Hc] Hp Hy d. destruct (decode_parts s W y (proj1 Hy)) as (_ & S1 & _). fold d in S1. unfold view. fold d. destruct (way_of a (da_set d) (da_tag d)) as [w|] eqn:Ew; [|by apply evict_absent].
  rewrite (evicted_byte a m set way y Ha Hp Hy). fold d.
  destruct ((set =? da_set d) && (way =? w)) eqn:E; [|done]. apply andb_true_iff in E as [E1%Z.eqb_eq <-%Z.eqb_eq]. apply (way_of_some a _ _ _ Ha S1) in Ew as (_ & Hv & Ht). rewrite <- E1 in Hv, Ht |- *.
    rewrite Hv, Ht. rewrite bool_decide_eq_true_2 by done. cbn [andb]. destruct (cl_dirty (line_at a set way)) eqn:Ed; [done|]. cbn [andb].
    destruct (in_line (ca_bank a) y Hy) as (Ey & Ho & _). fold d in Ey. rewrite (Hc set way (y mod 64) Hp Ho Hv Ed), Ht, E1. by rewrite <- Ey.
Qed.

Lemma evict_other a m set way set' way' offset : array_wf a -> place set way -> place set' way' -> (set, way) <> (set', way') -> 0 <= offset < 64 ->
  cl_valid (line_at a set' way') = true ->
  let y := lineAddress s (ca_bank a) set' (cl_tag (line_at a set' way')) + offset in write_back (victim a set way) m y = m y.
Proof.
  intros Ha Hp Hp' Hne Ho Hv y. destruct (line_in_bank (ca_bank a) set' (cl_tag (line_at a set' way')) offset (aw_bank a Ha) (proj1 Hp') (aw_fits a Ha _ _ Hp' Hv) Ho) as (Hy & E1 & E2 & _).
  fold y in Hy, E1, E2. rewrite evicted_byte by done. rewrite E1, E2. case_match eqn:E; [|done]. exfalso. rewrite !andb_true_iff, bool_decide_eq_true in E.
  destruct E as [[Hv' _] [<- Et]]. apply Hne. f_equal. by apply (aw_unique a Ha set').
Qed.

(** The bytes of the line of an address. *)
Definition line_bytes (m : Z -> Z) (x : Z) : list Z := map m (zrange (64 * (x / 64)) 64).

Lemma line_byte m x y : is_u32 y -> y / 64 = x / 64 -> byte_of (line_bytes m x) (y mod 64) = m y.
Proof.
  intros Hy E. pose proof (Z.mod_pos_bound y 64 ltac:(lia)). pose proof (Z.div_mod y 64 ltac:(lia)). unfold byte_of, line_bytes. rewrite list_lookup_fmap, lookup_zrange by lia.
  cbn. f_equal. lia.
Qed.

Lemma fill_miss a m x a' old : consistent a m -> is_u32 x -> lookup_way a x = Ok None -> array_fill a x (line_bytes m x) = (a', Ok old) ->
  consistent a' (write_back old m) /\ ca_bank a' = ca_bank a /\ forall y, in_bank (ca_bank a) y -> view a' (write_back old m) y = view a m y.
Proof.
  intros Hac Hx Hl H. pose proof Hac as [Ha Hc]. destruct (lookup_way_ok a x _ Ha Hl) as (Eb & Ei & Ew). symmetry in Ew. set (d := DecodeAddress s x) in *.
  destruct (decode_parts s W x Hx) as (_ & S1 & _). fold d in S1. unfold array_fill in H. destruct (location a x) as [[[set word] tag]|e] eqn:Eloc; [|done].
  destruct (location_ok a x set word tag Ha Eloc) as (_ & -> & -> & -> & _). fold d in H. rewrite Hl in H. cbn [default] in H. apply pair_eq in H as [<- <-%Ok_inj].
  pose proof (aw_fifo a Ha (da_set d) S1) as Hway. set (way := fifo_at a (da_set d)) in *. set (line := mkCacheLine true false (da_tag d) (line_bytes m x)).
  assert (place (da_set d) way) as Hp by done. assert (line_fits s (ca_bank a) (da_set d) (da_tag d)) as Hf by (rewrite <- Eb; by apply (decode_fits s W)).
  assert (array_wf (put_line (da_set d) way line a)) as Ha1.
  { apply put_line_wf; [done..|]. intros _. cbn [cl_tag line]. split; [done|]. split; [done|]. intros way' Hp' _ Hv' Et. by apply (way_of_none a _ _ way' Ha Ew Hp'). }
  assert (array_wf (put_fifo (da_set d) ((way + 1) mod sp_Ways (ca_spec a)) (put_line (da_set d) way line a))) as Ha2.
  { apply put_fifo_wf; [done..|]. rewrite (aw_spec a Ha). apply Z.mod_pos_bound. apply (sw_ways s W). }
  split; [|split; [done|]].
  - split; [done|]. intros set' way' offset Hp' Ho. change (line_at (put_fifo _ _ ?b) ?u ?v) with (line_at b u v).
    change (ca_bank (put_fifo _ _ _)) with (ca_bank a). rewrite !(line_at_put a (da_set d) way) by (done || apply Hp').
    destruct ((da_set d =? set') && (way =? way')) eqn:E.
    + apply andb_true_iff in E as [<-%Z.eqb_eq <-%Z.eqb_eq]. intros _ _. cbn [cl_data cl_tag line].
      destruct (line_in_bank (ca_bank a) (da_set d) (da_tag d) offset (aw_bank a Ha) S1 Hf Ho) as (Hy & E1 & E2 & E3). set (y := lineAddress s (ca_bank a) (da_set d) (da_tag d) + offset) in *.
      rewrite evict_absent by (done || by rewrite E1, E2). rewrite <- E3. apply line_byte; [apply Hy|]. apply (same_line s W y x (proj1 Hy) Hx). rewrite E1, E2. fold d.
      split; [by rewrite (proj2 Hy)|done].
    + intros Hv Hd. rewrite evict_other; [by apply Hc|done..| |done|done]. intros [= <- <-]. by rewrite !Z.eqb_refl in E.
  - intros y Hy. change (view (put_fifo _ _ ?b) ?u ?v) with (view b u v). rewrite view_put by (done || apply Hy). rewrite <- (evict_view a m (da_set d) way y Hac Hp Hy).
    cbn [cl_valid cl_tag cl_data line]. set (e := DecodeAddress s y). destruct ((da_set d =? da_set e) && bool_decide (true = true /\ da_tag d = da_tag e)) eqn:E; [|done].
    apply andb_true_iff in E as [E1%Z.eqb_eq [_ E2]%bool_decide_eq_true]. rewrite <- E1, <- E2, Ew. rewrite line_byte; [|apply Hy|].
    + symmetry. apply evict_absent; [done..|]. fold e. by rewrite <- E1, <- E2.
    + apply (same_line s W y x (proj1 Hy) Hx). fold d e. split; [by rewrite Eb, (proj2 Hy : da_bank e = _)|done].
Qed.

(** A fill of a resident line evicts nothing and reloads that line. *)
Lemma fill_hit a m x w a' old : consistent a m -> is_u32 x -> lookup_way a x = Ok (Some w) -> array_fill a x (line_bytes m x) = (a', Ok old) ->
  ev_Valid old = false /\ consistent a' m /\ ca_bank a' = ca_bank a /\ forall y, in_bank (ca_bank a) y -> view a' m y = if y / 64 =? x / 64 then m y else view a m y.
Proof.
  intros Hac Hx Hl H. pose proof Hac as [Ha Hc]. destruct (lookup_way_ok a x _ Ha Hl) as (Eb & Ei & Ew). symmetry in Ew. set (d := DecodeAddress s x) in *.
  destruct (decode_parts s W x Hx) as (_ & S1 & _). fold d in S1. unfold array_fill in H. destruct (location a x) as [[[set word] tag]|e] eqn:Eloc; [|done].
  destruct (location_ok a x set word tag Ha Eloc) as (_ & -> & -> & -> & _). fold d in H. rewrite Hl in H. cbn [from_option id] in H. apply pair_eq in H as [<- <-%Ok_inj]. split; [done|].
  apply (way_of_some a _ _ _ Ha S1) in Ew as Hw. destruct Hw as (Hp & Hv & Ht). set (line := mkCacheLine true false (da_tag d) (line_bytes m x)).
  assert (line_fits s (ca_bank a) (da_set d) (da_tag d)) as Hf by (rewrite <- Eb; by apply (decode_fits s W)).
  assert (array_wf (put_line (da_set d) w line a)) as Ha1.
  { apply put_line_wf; [done..|]. intros _. cbn [cl_tag line]. split; [done|]. split; [done|]. intros way' Hp' Hne Hv' Et. apply Hne.
    apply (aw_unique a Ha (da_set d)); [done..|]. by rewrite Ht. }
  assert (array_wf (put_fifo (da_set d) ((fifo_at a (da_set d) + 1) mod sp_Ways (ca_spec a)) (put_line (da_set d) w line a))) as Ha2.
  { apply put_fifo_wf; [done..|]. rewrite (aw_spec a Ha). apply Z.mod_pos_bound. apply (sw_ways s W). }
  split; [|split; [done|]].
  - split; [done|]. intros set' way' offset Hp' Ho. change (line_at (put_fifo _ _ ?b) ?u ?v) with (line_at b u v).
    change (ca_bank (put_fifo _ _ _)) with (ca_bank a). rewrite !(line_at_put a (da_set d) w) by (done || apply Hp').
    destruct ((da_set d =? set') && (w =? way')) eqn:E; [|by apply Hc].
    apply andb_true_iff in E as [<-%Z.eqb_eq <-%Z.eqb_eq]. intros _ _. cbn [cl_data cl_tag line].
    destruct (line_in_bank (ca_bank a) (da_set d) (da_tag d) offset (aw_bank a Ha) S1 Hf Ho) as (Hy & E1 & E2 & E3). set (y := lineAddress s (ca_bank a) (da_set d) (da_tag d) + offset) in *.
    rewrite <- E3. apply line_byte; [apply Hy|]. apply (same_line s W y x (proj1 Hy) Hx). rewrite E1, E2. fold d. split; [by rewrite (proj2 Hy)|done].
  - intros y Hy. change (view (put_fifo _ _ ?b) ?u ?v) with (view b u v). rewrite view_put by (done || apply Hy). cbn [cl_valid cl_tag cl_data line]. set (e := DecodeAddress s y).
    destruct (Z.eqb_spec (y / 64) (x / 64)) as [Eq|Hne].
    + pose proof (proj2 (same_line s W y x (proj1 Hy) Hx) Eq) as (_ & E1 & E2). fold d e in E1, E2. rewrite E1, E2, Z.eqb_refl, bool_decide_eq_true_2 by done. cbn [andb].
      apply line_byte; [apply Hy|done].
    + destruct ((da_set d =? da_set e) && bool_decide (true = true /\ da_tag d = da_tag e)) eqn:E.
      { exfalso. apply andb_true_iff in E as [E1%Z.eqb_eq [_ E2]%bool_decide_eq_true]. apply Hne. apply (same_line s W y x (proj1 Hy) Hx). fold d e. split; [by rewrite Eb, (proj2 Hy : da_bank e = _)|done]. }
      unfold view. fold e. destruct (way_of a (da_set e) (da_tag e)) as [w'|] eqn:Ew'; [|done]. destruct ((da_set d =? da_set e) && (w =? w')) eqn:E3; [|done]. exfalso.
      apply andb_true_iff in E3 as [E1%Z.eqb_eq <-%Z.eqb_eq]. destruct (decode_parts s W y (proj1 Hy)) as (_ & S2 & _). fold e in S2. apply (way_of_some a _ _ _ Ha S2) in Ew' as (_ & _ & Tw).
      rewrite <- E1 in Tw. rewrite E1, Z.eqb_refl in E. cbn [andb] in E. apply bool_decide_eq_false in E. apply E. split; congruence.
Qed.

(** A line that is not resident shows the memory's bytes. *)
Lemma view_absent a m x y : array_wf a -> is_u32 x -> in_bank (ca_bank a) y -> y / 64 = x / 64 -> lookup_way a x = Ok None -> view a m y = m y.
Proof.
  intros Ha Hx Hy E Hl. destruct (lookup_way_ok a x _ Ha Hl) as (_ & _ & Ew). apply (same_line s W y x (proj1 Hy) Hx) in E as (_ & E1 & E2). unfold view. by rewrite E1, E2, <- Ew.
Qed.

(** Whether resident or not, a fill shows the memory's bytes at its line and keeps the others. *)
Lemma fill_view a m x a' old : consistent a m -> is_u32 x -> array_fill a x (line_bytes m x) = (a', Ok old) ->
  consistent a' (write_back old m) /\ ca_bank a' = ca_bank a /\ forall y, in_bank (ca_bank a) y -> view a' (write_back old m) y = if y / 64 =? x / 64 then m y else view a m y.
Proof.
  intros Hac Hx H. destruct (lookup_way a x) as [[w|]|e] eqn:Hl.
  - destruct (fill_hit a m x w a' old Hac Hx Hl H) as (Ev & Hc' & Eb & Hv). unfold write_back. by rewrite Ev.
  - destruct (fill_miss a m x a' old Hac Hx Hl H) as (Hc' & Eb & Hv). split_and!; [done..|]. intros y Hy. rewrite Hv by done.
    destruct (Z.eqb_spec (y / 64) (x / 64)) as [E|]; [|done]. by apply (view_absent a m x y (co_array a m Hac)).
  - unfold array_fill in H. rewrite Hl in H. by destruct (location a x) as [[[]]|].
Qed.

(** Flushing a way empties it. *)
Lemma flush_way a m set way : consistent a m -> place set way ->
  let '(a', old) := flushWay set way a in
  consistent a' (write_back old m) /\ ca_bank a' = ca_bank a /\ forall y, in_bank (ca_bank a) y -> view a' (write_back old m) y = view a m y.
Proof.
  intros Hac Hp. pose proof Hac as [Ha Hc]. unfold flushWay. set (line := mkCacheLine false false _ _).
  assert (array_wf (put_line set way line a)) as Ha1 by (apply put_line_wf; try done; apply (aw_data a Ha); apply Hp). split; [|split; [done|]].
  - split; [done|]. intros set' way' offset Hp' Ho. change (ca_bank (put_line _ _ _ _)) with (ca_bank a). rewrite !(line_at_put a set way) by (done || apply Hp').
    destruct ((set =? set') && (way =? way')) eqn:E; [done|]. intros Hv Hd. rewrite evict_other; [by apply Hc|done..| |done|done].
    intros [= <- <-]. by rewrite !Z.eqb_refl in E.
  - intros y Hy. rewrite view_put by (done || apply Hy). rewrite <- (evict_view a m set way y Hac Hp Hy). cbn [cl_valid line]. rewrite bool_decide_eq_false_2 by (by intros []).
    by rewrite andb_false_r.
Qed.

(** The lines after a set is scanned. *)
Lemma initSet_line a set set' way' : array_wf a -> 0 <= set < Sets -> 0 <= set' -> 0 <= way' ->
  line_at (initSet set a) set' way' = if set =? set' then no_line else line_at a set' way'.
Proof.
  intros Ha Hs Hs' Hw'. unfold line_at, initSet. change (set_lines (put_initialized _ (put_fifo _ _ ?b)) set') with (set_lines b set').
  rewrite set_lines_put by (rewrite ?(aw_sets a Ha); lia). destruct (Z.eqb_spec set set') as [<-|]; [|done]. rewrite list_lookup_fmap. by destruct (set_lines a set !! Z.to_nat way').
Qed.

Lemma initSet_wf a set : array_wf a -> 0 <= set < Sets -> array_wf (initSet set a).
Proof.
  intros Ha Hs. assert (forall set' way', 0 <= set' -> 0 <= way' -> set' <> set -> line_at (initSet set a) set' way' = line_at a set' way') as Hother.
  { intros set' way' ? ? ?. rewrite initSet_line by done. by destruct (Z.eqb_spec set set'). }
  assert (forall way', 0 <= way' -> line_at (initSet set a) set way' = no_line) as Hself by (intros way' ?; rewrite initSet_line by (done || lia); by rewrite Z.eqb_refl).
  split; try apply Ha.
  - unfold initSet, put_initialized, put_fifo, put_set, zlen. cbn [ca_lines]. rewrite length_insert. apply (aw_sets a Ha).
  - intros set' Hs'. unfold initSet. change (set_lines (put_initialized _ (put_fifo _ _ ?b)) set') with (set_lines b set'). rewrite set_lines_put by (rewrite ?(aw_sets a Ha); lia).
    destruct (Z.eqb_spec set set') as [<-|]; [|by apply (aw_ways a Ha)]. unfold zlen. rewrite length_map. by apply (aw_ways a Ha).
  - unfold initSet, put_initialized, put_fifo, zlen. cbn [ca_fifo]. rewrite length_insert. apply (aw_fifos a Ha).
  - apply (put_fifo_wf a set 0 Ha Hs). pose proof (sw_ways s W). lia.
  - unfold initSet, put_initialized, zlen. cbn [ca_initialized]. rewrite length_insert. apply (aw_inits a Ha).
  - intros set' way' Hs' Hw'. destruct (Z.eq_dec set' set) as [->|]; [by rewrite Hself|]. rewrite Hother by done. by apply (aw_data a Ha).
  - intros set' w w' [Hp Hw] [_ Hw']. destruct (Z.eq_dec set' set) as [->|]; [by rewrite Hself by lia|]. rewrite !Hother by lia. by apply (aw_unique a Ha).
  - intros set' w [Hp Hw]. destruct (Z.eq_dec set' set) as [->|]; [by rewrite Hself by lia|]. rewrite !Hother by lia. by apply (aw_fits a Ha).
  - intros set' w [Hp Hw]. destruct (Z.eq_dec set' set) as [->|]; [by rewrite Hself by lia|]. rewrite !Hother by lia. intros Hv.
    unfold initialized_at, initSet, put_initialized. cbn [ca_initialized]. rewrite list_lookup_insert_ne by lia. by apply (aw_scanned a Ha set' w).
Qed.

(** Scanning a set empties it. *)
Lemma init_set a m set : consistent a m -> 0 <= set < Sets ->
  consistent (initSet set a) m /\ forall y, in_bank (ca_bank a) y -> view (initSet set a) m y = if da_set (DecodeAddress s y) =? set then m y else view a m y.
Proof.
  intros Hac Hs. pose proof Hac as [Ha Hc]. pose proof (initSet_wf a set Ha Hs) as Ha'.
  assert (forall set' way', 0 <= set' -> 0 <= way' -> set' <> set -> line_at (initSet set a) set' way' = line_at a set' way') as Hother.
  { intros set' way' ? ? ?. rewrite initSet_line by done. by destruct (Z.eqb_spec set set'). }
  assert (forall way', 0 <= way' -> line_at (initSet set a) set way' = no_line) as Hself by (intros way' ?; rewrite initSet_line by (done || lia); by rewrite Z.eqb_refl).
  split.
  - split; [done|]. intros set' way' offset [Hs' Hw'] Ho. change (ca_bank (initSet set a)) with (ca_bank a).
    destruct (Z.eq_dec set' set) as [->|]; [by rewrite Hself by lia|]. rewrite !Hother by lia. by apply Hc.
  - intros y Hy. unfold view. set (d := DecodeAddress s y). destruct (decode_parts s W y (proj1 Hy)) as (_ & S1 & _). fold d in S1. destruct (Z.eqb_spec (da_set d) set) as [Es|Hne].
    + destruct (way_of (initSet set a) _ _) as [w|] eqn:E; [|done]. apply (way_of_some _ _ _ _ Ha' S1) in E as (Pw & Vw & _). by rewrite Es, Hself in Vw by apply Pw.
    + assert (way_of (initSet set a) (da_set d) (da_tag d) = way_of a (da_set d) (da_tag d)) as ->.
      { destruct (way_of a (da_set d) (da_tag d)) as [w|] eqn:E.
        - apply (way_of_some a _ _ _ Ha S1) in E as (Pw & Vw & Tw). apply (way_of_some _ _ _ _ Ha' S1). by rewrite Hother by (done || apply Pw).
        - destruct (way_of (initSet set a) _ _) as [w|] eqn:E'; [|done]. apply (way_of_some _ _ _ _ Ha' S1) in E' as (Pw & Vw & Tw).
          rewrite !Hother in Vw, Tw by (done || apply Pw). by destruct (way_of_none a _ _ w Ha E Pw). }
      destruct (way_of a (da_set d) (da_tag d)) as [w|] eqn:E; [|done]. apply (way_of_some a _ _ _ Ha S1) in E as (Pw & _). by rewrite Hother by (done || apply Pw).
Qed.

Lemma fresh_consistent b m : 0 <= b < sp_Banks s -> consistent (newCacheArray s b) m /\ forall y, in_bank b y -> view (newCacheArray s b) m y = m y.
Proof.
  intros Hb. destruct W as [_ _ Hways Hsets _].
  assert (forall set, 0 <= set < Sets -> set_lines (newCacheArray s b) set = replicate (Z.to_nat Ways) no_line) as Hsl.
  { intros set Hs. unfold set_lines, newCacheArray. cbn [ca_lines]. by rewrite lookup_replicate_2 by lia. }
  assert (forall set way, line_at (newCacheArray s b) set way = no_line) as Hl.
  { intros set way. unfold line_at, set_lines, newCacheArray. cbn [ca_lines]. destruct (replicate (Z.to_nat Sets) _ !! Z.to_nat set) as [x|] eqn:E; [|done].
    apply lookup_replicate in E as [-> _]. simpl. destruct (replicate (Z.to_nat Ways) no_line !! Z.to_nat way) as [y|] eqn:E'; [|done]. simpl. by apply lookup_replicate in E' as [-> _]. }
  assert (array_wf (newCacheArray s b)) as Ha.
  { split; try done.
    - unfold zlen, newCacheArray. cbn [ca_lines]. rewrite length_replicate. lia.
    - intros set Hs. rewrite Hsl by done. unfold zlen. rewrite length_replicate. lia.
    - unfold zlen, newCacheArray. cbn [ca_fifo]. rewrite length_replicate. lia.
    - intros set Hs. unfold fifo_at, newCacheArray. cbn [ca_fifo]. rewrite lookup_replicate_2 by lia. cbn. lia.
    - unfold zlen, newCacheArray. cbn [ca_initialized]. rewrite length_replicate. lia.
    - intros set way _ _. by rewrite Hl.
    - intros set w w' _ _. by rewrite Hl.
    - intros set w _. by rewrite Hl.
    - intros set w _. by rewrite Hl. }
  split; [split; [done|]; intros set way offset _ _; by rewrite Hl|]. intros y [Hy _]. unfold view. destruct (way_of _ _ _) as [w|] eqn:E; [|done].
  destruct (decode_parts s W y Hy) as (_ & S1 & _). apply (way_of_some _ _ _ _ Ha S1) in E as (_ & Hv & _). by rewrite Hl in Hv.
Qed.
End Array.

(** ** Any sequence of operations *)

(** What a bank does with its array: reads and writes, which hit or miss, fills from the
    memory below, flushes of one way, scans of a set. *)
Inductive array_op :=
| ReadOp (r : WordRequest)
| WriteOp (r : WordRequest)
| FillOp (address : Z)
| FlushOp (set way : Z)
| InitOp (set : Z).

(** One call of the array over the memory below.  The log has the operations served,
    those that hit, with the word of a read; a miss and a refused call change nothing. *)
Definition array_step (st : cacheArray * (Z -> Z)) (op : array_op) : (cacheArray * (Z -> Z)) * list (array_op * list Z) :=
  let '(a, m) := st in
  match op with
  | ReadOp r => (st, match array_read a r with Ok (rsp, true) => [(op, wr_Data rsp)] | _ => [] end)
  | WriteOp r => let '(a', hit) := array_write a r in ((a', m), match hit with Ok true => [(op, [])] | _ => [] end)
  | FillOp x => let '(a', old) := array_fill a x (line_bytes m x) in ((a', match old with Ok old => write_back old m | Err _ => m end), [])
  | FlushOp set way => let '(a', old) := flushWay set way a in ((a', write_back old m), [])
  | InitOp set => ((initSet set a, m), [])
  end.

Fixpoint array_run (st : cacheArray * (Z -> Z)) (ops : list array_op) : (cacheArray * (Z -> Z)) * list (array_op * list Z) :=
  match ops with
  | [] => (st, [])
  | op :: ops => let '(st, log) := array_step st op in let '(st, rest) := array_run st ops in (st, log ++ rest)
  end.

(** The operation drops no dirty line: a fill of a resident line finds it clean, and so
    does the scan of a set. *)
Definition keeps_stores (a : cacheArray) (op : array_op) : bool :=
  match op with
  | FillOp x => match lookup_way a x with Ok (Some way) => negb (cl_dirty (line_at a (da_set (DecodeAddress (ca_spec a) x)) way)) | _ => true end
  | InitOp set => forallb (fun line => negb (cl_valid line && cl_dirty line)) (set_lines a set)
  | _ => true
  end.

Fixpoint run_keeps_stores (st : cacheArray * (Z -> Z)) (ops : list array_op) : bool :=
  match ops with [] => true | op :: ops => keeps_stores st.1 op && run_keeps_stores (array_step st op).1 ops end.

(** The flat memory that serves the same reads and writes. *)
Definition flat_step (s : CacheSpec) (M : Z -> Z) (op : array_op) : (Z -> Z) * list Z :=
  match op with
  | ReadOp r => (M, word_bytes s M (wq_Address r))
  | WriteOp r => (store_word s (wq_Address r) (wq_ByteEnable r) (wq_Data r) M, [])
  | _ => (M, [])
  end.

Fixpoint flat_run (s : CacheSpec) (M : Z -> Z) (ops : list array_op) : (Z -> Z) * list (list Z) :=
  match ops with
  | [] => (M, [])
  | op :: ops => let '(M, word) := flat_step s M op in let '(M, rest) := flat_run s M ops in (M, word :: rest)
  end.

Lemma flat_run_app s M xs ys : flat_run s M (xs ++ ys) = let '(M1, w1) := flat_run s M xs in let '(M2, w2) := flat_run s M1 ys in (M2, w1 ++ w2).
Proof.
  revert M. induction xs as [|x xs IH]; intros M; cbn [flat_run app]; [by destruct (flat_run s M ys)|]. destruct (flat_step s M x) as [M1 w]. rewrite IH.
  destruct (flat_run s M1 xs) as [M2 w2]. by destruct (flat_run s M2 ys).
Qed.

(** The byte shown at [y] after an operation: a write that hits stores its enabled
    bytes; a fill reloads its line and a scan its set from the memory below; everything
    else, and every flush, keeps it. *)
Definition shown_after (s : CacheSpec) (a : cacheArray) (m : Z -> Z) (op : array_op) (y : Z) : Z :=
  match op with
  | WriteOp r => match (array_write a r).2 with Ok true => store_word s (wq_Address r) (wq_ByteEnable r) (wq_Data r) (view s a m) y | _ => view s a m y end
  | FillOp x => if is_ok (array_fill a x (line_bytes m x)).2 && (y / 64 =? x / 64) then m y else view s a m y
  | InitOp set => if da_set (DecodeAddress s y) =? set then m y else view s a m y
  | ReadOp _ | FlushOp _ _ => view s a m y
  end.

Definition op_typed (s : CacheSpec) (op : array_op) : Prop :=
  match op with
  | ReadOp r | WriteOp r => aligned_word s (wq_Address r)
  | FillOp x => is_u32 x
  | FlushOp set way => place s set way
  | InitOp set => 0 <= set < sp_Sets s
  end.

Section Transparent.
Context (s : CacheSpec) (W : spec_wf s).

Lemma word_bytes_ext b M M' x : aligned_word s x -> da_bank (DecodeAddress s x) = b -> (forall y, in_bank s b y -> M y = M' y) -> word_bytes s M x = word_bytes s M' x.
Proof.
  intros Hx Hb HM. unfold word_bytes. f_equal. apply map_ext_in. intros i Hi%in_seq. apply HM. assert (0 <= Z.of_nat i < sp_WordBytes s) as Hr by lia.
  destruct (word_in_line s W x _ Hx Hr) as (Hu & _). split; [done|]. by rewrite (proj1 (decode_word s W x _ Hx Hr)).
Qed.

Lemma write_unserved a r : (array_write a r).2 <> Ok true -> (array_write a r).1 = a.
Proof. unfold array_write. by repeat case_match. Qed.

Lemma fill_refused a x data : is_ok (array_fill a x data).2 = false -> (array_fill a x data).1 = a.
Proof. unfold array_fill. by repeat case_match. Qed.

(** Every operation keeps the array consistent and shows what it should. *)
Lemma array_step_view a m op : consistent s a m -> op_typed s op -> let st' := (array_step (a, m) op).1 in
  consistent s st'.1 st'.2 /\ ca_bank st'.1 = ca_bank a /\ forall y, in_bank s (ca_bank a) y -> view s st'.1 st'.2 y = shown_after s a m op y.
Proof.
  intros Hc Ht. destruct op as [r|r|x|set way|set]; cbn [array_step op_typed shown_after] in *.
  - done.
  - pose proof (write_unserved a r) as Hno. destruct (array_write a r) as [a' o] eqn:Ew. cbn [fst snd] in *.
    destruct o as [[]|e]; [by apply (write_hit s W a m r a')|by rewrite (Hno ltac:(done))..].
  - pose proof (fill_refused a x (line_bytes m x)) as Hno. destruct (array_fill a x (line_bytes m x)) as [a' [old|e]] eqn:Ef; cbn [fst snd is_ok andb] in *.
    + by apply fill_view.
    + by rewrite (Hno eq_refl).
  - pose proof (flush_way s W a m set way Hc Ht) as Hf. by destruct (flushWay set way a) as [a' old].
  - destruct (init_set s W a m set Hc Ht) as [Hc' Hv]. by split_and!.
Qed.

(** A clean line shows the memory's bytes. *)
Lemma clean_shows a m way y : consistent s a m -> in_bank s (ca_bank a) y -> way_of a (da_set (DecodeAddress s y)) (da_tag (DecodeAddress s y)) = Some way ->
  cl_dirty (line_at a (da_set (DecodeAddress s y)) way) = false -> view s a m y = m y.
Proof.
  intros [Ha Hc] Hy Ew Hd. unfold view. rewrite Ew. destruct (decode_parts s W y (proj1 Hy)) as (_ & S1 & _). destruct (in_line s W (ca_bank a) y Hy) as (Ey & Ho & _).
  apply (way_of_some s a _ _ _ Ha S1) in Ew as (Hp & Hv & Ht). rewrite (Hc _ way (y mod 64) Hp Ho Hv Hd), Ht. by rewrite <- Ey.
Qed.

(** An operation that drops no dirty line shows the bytes of the flat memory. *)
Lemma shown_flat a m op y : consistent s a m -> op_typed s op -> keeps_stores a op = true -> in_bank s (ca_bank a) y ->
  shown_after s a m op y = (flat_run s (view s a m) (map fst (array_step (a, m) op).2)).1 y.
Proof.
  intros Hc Ht Hk Hy. pose proof Hc as [Ha _]. destruct op as [r|r|x|set way|set]; cbn [array_step op_typed shown_after keeps_stores] in *.
  - by destruct (array_read a r) as [[rsp []]|].
  - by destruct (array_write a r) as [a' [[]|]].
  - destruct (array_fill a x (line_bytes m x)) as [a' [old|e]] eqn:Ef; cbn [fst snd is_ok andb map flat_run]; [|done]. destruct (Z.eqb_spec (y / 64) (x / 64)) as [E|]; [|done]. symmetry.
    destruct (lookup_way a x) as [[w|]|e] eqn:Hl.
    + rewrite (aw_spec s a Ha) in Hk. destruct (lookup_way_ok s a x _ Ha Hl) as (_ & _ & Ew). apply (same_line s W y x (proj1 Hy) Ht) in E as (_ & E1 & E2). rewrite <- E1, <- E2 in Ew.
      apply (clean_shows a m w y Hc Hy); [done|]. rewrite E1. by apply negb_true_iff.
    + by apply (view_absent s W a m x y).
    + unfold array_fill in Ef. rewrite Hl in Ef. by destruct (location a x) as [[[]]|].
  - by destruct (flushWay set way a).
  - cbn [snd map flat_run fst]. destruct (Z.eqb_spec (da_set (DecodeAddress s y)) set) as [E|]; [|done]. symmetry. destruct (way_of a (da_set (DecodeAddress s y)) (da_tag (DecodeAddress s y))) as [w|] eqn:Ew;
      [|unfold view; by rewrite Ew].
    apply (clean_shows a m w y Hc Hy Ew). destruct (decode_parts s W y (proj1 Hy)) as (_ & S1 & _). apply (way_of_some s a _ _ _ Ha S1) in Ew as (_ & Hv & _). rewrite E in Hv |- *.
    unfold line_at in Hv |- *. destruct (set_lines a set !! Z.to_nat w) as [line|] eqn:El; [|done]. cbn [default] in *. apply list_elem_of_lookup_2 in El.
    pose proof (proj1 (forallb_forall _ _) Hk line (proj1 (list_elem_of_In _ _) El)) as Hn. cbv beta in Hn. change (cl_valid line = true) in Hv. rewrite Hv in Hn. by apply negb_true_iff in Hn.
Qed.

(** The words served are those of the flat memory. *)
Lemma served_words a m op M : array_wf s a -> shows s a m M -> op_typed s op -> map snd (array_step (a, m) op).2 = (flat_run s M (map fst (array_step (a, m) op).2)).2.
Proof.
  intros Ha Hs Ht. destruct op as [r|r|x|set way|set]; cbn [array_step op_typed] in *; [|by repeat case_match..].
  destruct (array_read a r) as [[rsp []]|] eqn:E; cbn [fst snd map flat_run flat_step]; [|done..]. f_equal. destruct (read_hit s W a m r rsp Ha Ht E) as (_ & _ & _ & ->).
  unfold array_read in E. apply result_bind_ok in E as (o & Ho & _). destruct (lookup_way_ok s a _ o Ha Ho) as (Eb & _). by apply (word_bytes_ext (ca_bank a)).
Qed.

Lemma flat_run_ext b M M' ops : Forall (op_typed s) ops -> (forall y, in_bank s b y -> M y = M' y) -> forall y, in_bank s b y -> (flat_run s M ops).1 y = (flat_run s M' ops).1 y.
Proof.
  intros Ht. revert M M'. induction Ht as [|op ops Hop Ht IH]; intros M M' HM; cbn [flat_run]; [done|].
  assert (forall y, in_bank s b y -> (flat_step s M op).1 y = (flat_step s M' op).1 y) as H1.
  { intros y Hy. destruct op; cbn; [by apply HM|unfold store_word; case_match; [done|by apply HM]|by apply HM..]. }
  destruct (flat_step s M op) as [M1 w1], (flat_step s M' op) as [M2 w2]. specialize (IH M1 M2 H1). by destruct (flat_run s M1 ops), (flat_run s M2 ops).
Qed.

Lemma step_served a m op : op_typed s op -> Forall (op_typed s) (map fst (array_step (a, m) op).2).
Proof. intros Ht. destruct op; cbn [array_step]; repeat case_match; cbn; try apply Forall_nil; try done; by constructor. Qed.

Lemma array_run_flat ops a m M : consistent s a m -> shows s a m M -> Forall (op_typed s) ops ->
  let '(st', log) := array_run (a, m) ops in
  consistent s st'.1 st'.2 /\ ca_bank st'.1 = ca_bank a /\
  (run_keeps_stores (a, m) ops = true -> shows s st'.1 st'.2 (flat_run s M (map fst log)).1 /\ map snd log = (flat_run s M (map fst log)).2).
Proof.
  revert a m M. induction ops as [|op ops IH]; intros a m M Hc Hs Ht; cbn [array_run run_keeps_stores]; [done|]. apply Forall_cons in Ht as [Hop Ht].
  pose proof (array_step_view a m op Hc Hop) as (Hc1 & Eb1 & Hv1). pose proof (shown_flat a m op) as Hf. pose proof (served_words a m op M (co_array s a m Hc) Hs Hop) as Hw.
  pose proof (step_served a m op Hop) as Hts. destruct (array_step (a, m) op) as [[a1 m1] l1]. cbn [fst snd] in *.
  assert (keeps_stores a op = true -> shows s a1 m1 (flat_run s M (map fst l1)).1) as Hs1.
  { intros Hk y Hy. rewrite Eb1 in Hy. rewrite Hv1, Hf by done. by apply (flat_run_ext (ca_bank a)). }
  destruct (keeps_stores a op).
  - specialize (IH a1 m1 _ Hc1 (Hs1 eq_refl) Ht). destruct (array_run (a1, m1) ops) as [st2 l2]. destruct IH as (Hc2 & Eb2 & Hk2). split_and!; [done|congruence|]. intros [_ Hk]%andb_true_iff.
    destruct (Hk2 Hk) as [Hs2 Hl2]. rewrite !map_app, flat_run_app. destruct (flat_run s M (map fst l1)) as [M1 w1]. cbn [fst snd] in *. destruct (flat_run s M1 (map fst l2)) as [M2 w2].
    cbn [fst snd] in *. split; [done|congruence].
  - specialize (IH a1 m1 (view s a1 m1) Hc1 ltac:(done) Ht). destruct (array_run (a1, m1) ops) as [st2 l2]. destruct IH as (Hc2 & Eb2 & _). split_and!; [done|congruence|done].
Qed.

(** Without dirty lines the memory below has the bytes the client sees. *)
Lemma undirty_view a m x : consistent s a m -> (residentCounts a).2 = 0 -> in_bank s (ca_bank a) x -> view s a m x = m x.
Proof.
  intros [Ha Hc] Hd Hx. unfold view. destruct (way_of a _ _) as [w|] eqn:Ew; [|done]. destruct (decode_parts s W x (proj1 Hx)) as (_ & S1 & _).
  apply (way_of_some s a _ _ _ Ha S1) in Ew as (Hp & Hv & Ht). destruct (in_line s W (ca_bank a) x Hx) as (Ex & Ho & _).
  assert (cl_dirty (line_at a (da_set (DecodeAddress s x)) w) = false) as Hcl.
  { apply not_true_iff_false. intros Hdirty. unfold residentCounts, zlen in Hd. cbn [snd] in Hd.
    assert (line_at a (da_set (DecodeAddress s x)) w ∈ filter (fun line => cl_dirty line = true) (concat (ca_lines a))) as Hin.
    { apply list_elem_of_filter. split; [done|]. unfold line_at, set_lines in *. destruct (ca_lines a !! _) as [ls|] eqn:E1; [|by destruct (Z.to_nat w)].
      cbn in Hv |- *. destruct (ls !! Z.to_nat w) as [l0|] eqn:E2; [|done]. cbn. apply list_elem_of_In, in_concat. exists ls. split; apply list_elem_of_In; by eapply list_elem_of_lookup_2. }
    destruct (filter _ _); [by apply elem_of_nil in Hin|done]. }
  rewrite (Hc _ w (x mod 64) Hp Ho Hv Hcl), Ht. by rewrite <- Ex.
Qed.
End Transparent.

(** C30: the cache array is transparent.  For any sequence of reads, writes, fills,
    flushes and set scans on one bank, hits, misses and refusals included, as long as no
    fill of a resident line and no scan drops a dirty line: the words served are those
    of a flat memory that executes the served reads and writes in the same order; the
    bytes a client can see are those of the flat memory; and when no line is dirty the
    memory below holds them, so an eviction or a flush loses no store.  After any
    sequence at all, the next operation shows exactly this: a write that hits stores its
    enabled bytes, a fill reloads its own line (so the stores to a dirty resident line
    are lost, and no other), a scan reloads its set, and a read, a flush, a miss or a
    refusal changes no byte. *)
Theorem cache_transparent (s : CacheSpec) (b : Z) (m0 : Z -> Z) ops a m log :
  spec_wf s -> 0 <= b < sp_Banks s -> Forall (op_typed s) ops -> array_run (newCacheArray s b, m0) ops = ((a, m), log) ->
  (run_keeps_stores (newCacheArray s b, m0) ops = true ->
     map snd log = (flat_run s m0 (map fst log)).2 /\
     (forall x, in_bank s b x -> view s a m x = (flat_run s m0 (map fst log)).1 x) /\
     ((residentCounts a).2 = 0 -> forall x, in_bank s b x -> m x = (flat_run s m0 (map fst log)).1 x)) /\
  (forall op, op_typed s op -> let '((a', m'), _) := array_step (a, m) op in forall x, in_bank s b x -> view s a' m' x = shown_after s a m op x).
Proof.
  intros W Hb Ht H. destruct (fresh_consistent s W b m0 Hb) as [Hc Hs]. pose proof (array_run_flat s W ops _ m0 m0 Hc Hs Ht) as Hr. rewrite H in Hr.
  cbn [fst snd newCacheArray ca_bank] in Hr. destruct Hr as (Hc' & Eb & Hk). split.
  - intros Hkeep. destruct (Hk Hkeep) as [Hs' ->]. unfold shows in Hs'. rewrite Eb in Hs'. split_and!; [done..|]. intros Hd x Hx. rewrite <- Hs' by done. symmetry.
    apply (undirty_view s W a m x Hc' Hd). by rewrite Eb.
  - intros op Hop. pose proof (array_step_view s W a m op Hc' Hop) as (_ & _ & Hv). destruct (array_step (a, m) op) as [[a' m'] l]. cbn [fst snd] in Hv. by rewrite Eb in Hv.
Qed.

(** A bank of two sets of one way: a store is evicted by the fill of another line, read
    back after a refill, kept by the refill of a clean resident line, and is in memory
    once its way is flushed; a read of the evicted line misses.  Refilling the line while
    it is dirty loses the store. *)
Definition small_spec : CacheSpec :=
  mkCacheSpec DataCache 256 2 1 2 4 64 2 2 2 4 true no_buffer no_buffer no_buffer no_buffer no_buffer no_buffer no_buffer no_arbiter no_arbiter no_arbiter no_arbiter.

Definition word_at (address : Z) : WordRequest := mkWordRequest no_identity 0 address false false false 0 zero_word.
Definition store_at (address enable : Z) (data : list Z) : WordRequest := mkWordRequest no_identity 0 address true false false enable data.

Definition small_store : list array_op := [InitOp 0; InitOp 1; FillOp 4; WriteOp (store_at 4 6 [1; 2; 3; 4; 0; 0; 0; 0])].

Definition small_ops : list array_op :=
  small_store ++ [ReadOp (word_at 4); FillOp 260; ReadOp (word_at 260); FillOp 4; ReadOp (word_at 4); FillOp 4; ReadOp (word_at 260); FlushOp 0 0].

Definition counting : Z -> Z := fun x => x mod 256.

Example cache_transparent_witness :
  (exists a m log, array_run (newCacheArray small_spec 0, counting) small_ops = ((a, m), log) /\
     map snd log = [[]; [4; 2; 3; 7; 0; 0; 0; 0]; [4; 5; 6; 7; 0; 0; 0; 0]; [4; 2; 3; 7; 0; 0; 0; 0]] /\ m 5 = 2) /\
  exists a m log, array_run (newCacheArray small_spec 0, counting) small_store = ((a, m), log) /\ view small_spec a m 5 = 2 /\
    let '((a', m'), _) := array_step (a, m) (FillOp 4) in view small_spec a' m' 5 = 5.
Proof.
  assert (Forall (op_typed small_spec) small_ops) as Ht by (repeat constructor; try (by vm_compute); by intros).
  assert (Forall (op_typed small_spec) small_store) as Ht' by (apply (proj1 (proj1 (Forall_app _ small_store _) Ht))).
  assert (spec_wf small_spec) as Hs by (split; [reflexivity..|by left]). assert (in_bank small_spec 0 5) as H5 by (split; [unfold is_u32; lia|reflexivity]). split.
  - destruct (array_run (newCacheArray small_spec 0, counting) small_ops) as [[a m] log] eqn:E. exists a, m, log. split; [reflexivity|].
    destruct (proj1 (cache_transparent small_spec 0 counting small_ops a m log Hs ltac:(cbn; lia) Ht E) ltac:(vm_compute; reflexivity)) as (Hr & _ & Hm).
    assert (map fst log = map fst (array_run (newCacheArray small_spec 0, counting) small_ops).2) as El by (by rewrite E).
    assert ((residentCounts a).2 = 0) as Hd by (change a with ((a, m, log).1.1); rewrite <- E; vm_compute; reflexivity).
    rewrite Hr, (Hm Hd 5 H5), El. split; vm_compute; reflexivity.
  - destruct (array_run (newCacheArray small_spec 0, counting) small_store) as [[a m] log] eqn:E. exists a, m, log. split; [reflexivity|].
    destruct (cache_transparent small_spec 0 counting small_store a m log Hs ltac:(cbn; lia) Ht' E) as [Hk Hn]. split.
    + rewrite (proj1 (proj2 (Hk ltac:(vm_compute; reflexivity))) 5 H5). assert (map fst log = map fst (array_run (newCacheArray small_spec 0, counting) small_store).2) as -> by (by rewrite E).
      vm_compute. reflexivity.
    + specialize (Hn (FillOp 4) ltac:(unfold op_typed, is_u32; lia)). assert (shown_after small_spec a m (FillOp 4) 5 = 5) as Ev.
      { etransitivity; [symmetry; exact (f_equal (fun r => shown_after small_spec r.1.1 r.1.2 (FillOp 4) 5) E)|vm_compute; reflexivity]. }
      destruct (array_step (a, m) (FillOp 4)) as [[a' m'] l]. rewrite Hn by exact H5. exact Ev.
Defined.

(** ** What the operations of the array do to its resident lines
    The array side of the bank's invariant: which operations succeed, and which lines
    they keep. *)

Section Resident.
Context (s : CacheSpec) (W : spec_wf s).

Notation Sets := (sp_Sets s).
Notation Ways := (sp_Ways s).
Implicit Type a : cacheArray.

(** The line of [x] is in the array. *)
Definition resident a (x : Z) : bool := match way_of a (da_set (DecodeAddress s x)) (da_tag (DecodeAddress s x)) with Some _ => true | None => false end.

(** Every set has been scanned. *)
Definition scanned a : Prop := forall set, 0 <= set < Sets -> initialized_at a set = true.

(** The array after an operation: still well formed, and the same bank and scan state. *)
Record kept a a' : Prop := {
  kp_wf : array_wf s a';
  kp_bank : ca_bank a' = ca_bank a;
  kp_scan : forall set, 0 <= set -> initialized_at a set = true -> initialized_at a' set = true
}.

Lemma kept_refl a : array_wf s a -> kept a a.
Proof. by split. Qed.

Lemma kept_trans a b c : kept a b -> kept b c -> kept a c.
Proof. intros [H1 H2 H3] [K1 K2 K3]. split; [done|congruence|auto]. Qed.

Lemma kept_scanned a a' : kept a a' -> scanned a -> scanned a'.
Proof. intros K Hs set Hr. apply (kp_scan _ _ K); [lia|by apply Hs]. Qed.

Lemma resident_line a x y : is_u32 x -> is_u32 y -> x / 64 = y / 64 -> resident a x = resident a y.
Proof. intros Hx Hy E. unfold resident. apply (same_line s W x y Hx Hy) in E as (_ & -> & ->). done. Qed.

Lemma lookup_total a x : array_wf s a -> in_bank s (ca_bank a) x -> initialized_at a (da_set (DecodeAddress s x)) = true ->
  location a x = Ok (da_set (DecodeAddress s x), da_word (DecodeAddress s x), da_tag (DecodeAddress s x)) /\
  lookup_way a x = Ok (way_of a (da_set (DecodeAddress s x)) (da_tag (DecodeAddress s x))).
Proof.
  intros Ha [Hx Hb] Hi. assert (location a x = Ok (da_set (DecodeAddress s x), da_word (DecodeAddress s x), da_tag (DecodeAddress s x))) as E.
  { unfold location. rewrite (aw_spec s a Ha). by rewrite Hb, Z.eqb_refl, Hi. }
  split; [done|]. unfold lookup_way. by rewrite E.
Qed.

Lemma read_total a r : array_wf s a -> in_bank s (ca_bank a) (wq_Address r) -> initialized_at a (da_set (DecodeAddress s (wq_Address r))) = true ->
  exists rsp, array_read a r = Ok (rsp, resident a (wq_Address r)) /\ wr_Identity rsp = wq_Identity r /\ wr_Tag rsp = wq_Tag r.
Proof.
  intros Ha Hb Hi. destruct (lookup_total a _ Ha Hb Hi) as [E1 E2]. unfold array_read, resident. rewrite E2. cbn [result_bind].
  destruct (way_of a _ _) as [w|]; [rewrite E1; cbn [result_bind]|]; by eexists.
Qed.

(** A way of the array that is invalid or holds the tag it held keeps its other lines. *)
Lemma resident_put a set way line x : array_wf s a -> array_wf s (put_line set way line a) -> place s set way -> is_u32 x ->
  resident (put_line set way line a) x =
    (((set =? da_set (DecodeAddress s x)) && bool_decide (cl_valid line = true /\ cl_tag line = da_tag (DecodeAddress s x))) ||
     match way_of a (da_set (DecodeAddress s x)) (da_tag (DecodeAddress s x)) with Some w => negb ((set =? da_set (DecodeAddress s x)) && (way =? w)) | None => false end).
Proof.
  intros Ha Ha' Hp Hx. unfold resident. destruct (decode_parts s W x Hx) as (_ & S1 & _). rewrite (way_of_put s a) by done.
  destruct ((set =? _) && bool_decide _); [done|]. cbn [orb]. destruct (way_of a _ _) as [w|]; [|done]. by destruct ((set =? _) && (way =? w)).
Qed.

Lemma write_total a r : array_wf s a -> in_bank s (ca_bank a) (wq_Address r) -> initialized_at a (da_set (DecodeAddress s (wq_Address r))) = true ->
  aligned_word s (wq_Address r) -> sp_Writeback s = true -> wq_ByteEnable r >> sp_WordBytes s = 0 ->
  exists a', array_write a r = (a', Ok (resident a (wq_Address r))) /\ kept a a' /\ forall x, is_u32 x -> resident a' x = resident a x.
Proof.
  intros Ha Hb Hi Hw Hwb Hbe. destruct (lookup_total a _ Ha Hb Hi) as [E1 E2]. unfold array_write. rewrite (aw_spec s a Ha), Hwb, Hbe, E2. cbn [negb Z.eqb].
  destruct Hb as [Hx Hb]. destruct (decode_parts s W _ Hx) as (_ & S1 & _). unfold resident at 1. set (d := DecodeAddress s (wq_Address r)) in *.
  destruct (way_of a (da_set d) (da_tag d)) as [w|] eqn:Ew; [|exists a; split_and!; [done|by apply kept_refl|done]].
  apply (way_of_some s a _ _ _ Ha S1) in Ew as Hway. destruct Hway as (Hp & Hv & Ht). set (line := line_at a (da_set d) w) in *. rewrite Hv.
  set (line' := mkCacheLine true true (cl_tag line) _). assert (0 < sp_WordBytes s <= 8) as HW by (destruct (sw_word s W); lia).
  destruct (word_in_line s W _ 0 Hw ltac:(lia)) as (_ & _ & _ & Hfit). pose proof (Z.mod_pos_bound (wq_Address r) 64 ltac:(lia)) as Hm. pose proof (word_offset s W _ Hw) as Ho. fold d in Ho.
  assert (zlen (cl_data line) = 64) as Hl by (apply (aw_data s a Ha); apply Hp).
  destruct (write_enabled_bytes s W (da_word d) (wq_ByteEnable r) (wq_Data r) (cl_data line)) as [Hlen _]; [nia|rewrite Hl; lia|].
  assert (array_wf s (put_line (da_set d) w line' a)) as Ha'.
  { apply put_line_wf; [done..|cbn [cl_data line']; by rewrite Hlen|]. intros _. cbn [cl_tag line']. split; [by apply (aw_fits s a Ha)|]. split; [done|].
    intros way' Hp' Hne Hv' Et. apply Hne. apply (aw_unique s a Ha (da_set d)); done. }
  exists (put_line (da_set d) w line' a). split; [done|]. split; [by split|]. intros x Hux. rewrite resident_put by done. unfold resident. cbn [cl_valid cl_tag line'].
  destruct (decode_parts s W x Hux) as (_ & S2 & _). destruct (Z.eqb_spec (da_set d) (da_set (DecodeAddress s x))) as [E|]; cbn [andb orb]; [|by case_match]. rewrite <- E.
  case_bool_decide as Hd; cbn [orb]; [|].
  - destruct Hd as [_ <-]. by rewrite Ht, Ew.
  - destruct (way_of a (da_set d) (da_tag (DecodeAddress s x))) as [w'|] eqn:Ew'; [|done]. destruct (Z.eqb_spec w w') as [<-|]; [|done]. exfalso. apply Hd. split; [done|].
    apply (way_of_some s a _ _ _ Ha S1) in Ew' as (_ & _ & ?). done.
Qed.

Lemma fill_total a x data : array_wf s a -> in_bank s (ca_bank a) x -> initialized_at a (da_set (DecodeAddress s x)) = true -> zlen data = 64 ->
  exists a' old, array_fill a x data = (a', Ok old) /\ kept a a' /\ resident a' x = true.
Proof.
  intros Ha Hb Hi Hd. destruct (lookup_total a _ Ha Hb Hi) as [E1 E2]. unfold array_fill. rewrite E1, E2. destruct Hb as [Hx Hb]. destruct (decode_parts s W x Hx) as (_ & S1 & _).
  set (d := DecodeAddress s x) in *. pose proof (aw_fifo s a Ha (da_set d) S1) as Hf. set (way := default (fifo_at a (da_set d)) (way_of a (da_set d) (da_tag d))).
  assert (place s (da_set d) way) as Hp.
  { unfold way. destruct (way_of a (da_set d) (da_tag d)) as [w|] eqn:Ew; [by apply (way_of_some s a _ _ _ Ha S1) in Ew as (? & _)|done]. }
  set (line := mkCacheLine true false (da_tag d) data). assert (array_wf s (put_line (da_set d) way line a)) as Ha1.
  { apply put_line_wf; [done..|]. intros _. cbn [cl_tag line]. split; [rewrite <- Hb; by apply (decode_fits s W)|]. split; [done|]. intros way' Hp' Hne Hv' Et. apply Hne. unfold way.
    by rewrite (proj2 (way_of_some s a (da_set d) (da_tag d) way' Ha S1)). }
  eexists _, _. split; [done|]. split.
  - split; [|done..]. apply put_fifo_wf; [done..|]. rewrite (aw_spec s a Ha). apply Z.mod_pos_bound. apply (sw_ways s W).
  - change (resident (put_fifo _ _ ?b) x) with (resident b x). rewrite resident_put by done. fold d. cbn [cl_valid cl_tag line]. by rewrite Z.eqb_refl, bool_decide_eq_true_2.
Qed.

Lemma flushWay_kept a set way : array_wf s a -> place s set way -> kept a (flushWay set way a).1.
Proof. intros Ha Hp. split; [|done..]. apply put_line_wf; [done..|apply (aw_data s a Ha); apply Hp|done]. Qed.

Lemma initSet_kept a set : array_wf s a -> 0 <= set < Sets -> kept a (initSet set a) /\ initialized_at (initSet set a) set = true.
Proof.
  intros Ha Hs. pose proof (aw_inits s a Ha) as Hl. unfold zlen in Hl. split; [split; [by apply initSet_wf|done|]|].
  - intros set' Hs' Hi. unfold initialized_at, initSet, put_initialized, put_fifo, put_set. cbn [ca_initialized]. destruct (Z.eq_dec set set') as [<-|]; [by rewrite list_lookup_insert_eq by lia|].
    by rewrite list_lookup_insert_ne by lia.
  - unfold initialized_at, initSet, put_initialized, put_fifo, put_set. cbn [ca_initialized]. by rewrite list_lookup_insert_eq by lia.
Qed.

Lemma fresh_array_wf b : 0 <= b < sp_Banks s -> array_wf s (newCacheArray s b).
Proof. intros Hb. by destruct (fresh_consistent s W b (fun _ => 0) Hb) as [[? _] _]. Qed.
End Resident.
