(* ===== verification/Mshr.v ===== *)
(** * The miss status holding registers of a bank (src/timing/memsys/cache_mshr.go)

    One slot per outstanding miss.  Requests to one line are linked in order by [next];
    a returned fill makes the first of them the replay [head].  A handle carries the
    slot's generation, so a late response cannot reach a reused slot.  The code copies
    every handle it stores, so a pointer to a handle is an option here. *)

From S2P Require Import Prelude Memory TimingIR Memsys.

#[local] Open Scope Z_scope.
#[local] Open Scope go_scope.

Record mshrHandle := mkHandle { mh_slot : Z; mh_generation : Z }.

#[export] Instance mshrHandle_eq_dec : EqDecision mshrHandle. Proof. solve_decision. Defined.

Definition no_handle : mshrHandle := mkHandle 0 0.

Record mshrEntry := mkMshrEntry {
  me_valid : bool;
  me_finalized : bool;
  me_generation : Z;
  me_line : Z;
  me_request : WordRequest;
  me_port : Z;
  me_next : option mshrHandle
}.

Definition no_entry : mshrEntry := mkMshrEntry false false 0 0 no_word 0 None.

Definition set_valid (b : bool) (e : mshrEntry) : mshrEntry :=
  mkMshrEntry b (me_finalized e) (me_generation e) (me_line e) (me_request e) (me_port e) (me_next e).
Definition set_finalized (b : bool) (e : mshrEntry) : mshrEntry :=
  mkMshrEntry (me_valid e) b (me_generation e) (me_line e) (me_request e) (me_port e) (me_next e).
Definition set_next_handle (h : option mshrHandle) (e : mshrEntry) : mshrEntry :=
  mkMshrEntry (me_valid e) (me_finalized e) (me_generation e) (me_line e) (me_request e) (me_port e) h.

Record mshrAllocation := mkAllocation { al_request : WordRequest; al_port : Z }.
Record mshrFinalization := mkFinalization { fz_handle : mshrHandle; fz_release : bool; fz_previous : option mshrHandle }.

Record mshrEvents := mkMshrEvents {
  mv_allocate : option mshrAllocation;
  mv_finalize : option mshrFinalization;
  mv_fill : option mshrHandle;
  mv_dequeue : bool
}.

Record mshrAllocationResult := mkAllocationResult { ar_handle : mshrHandle; ar_previous : option mshrHandle }.

Record cacheMSHR := mkMSHR { ms_entries : list mshrEntry; ms_ready : bool; ms_free : Z; ms_head : option mshrHandle }.

Definition newCacheMSHR (size : Z) : cacheMSHR := mkMSHR (replicate (Z.to_nat size) no_entry) false 0 None.

Definition mshr_occupancy (m : cacheMSHR) : Z := zlen (filter (fun e => me_valid e = true) (ms_entries m)).

(** A slot of a table; the indices the code uses are in range. *)
Definition slot_in (entries : list mshrEntry) (slot : Z) : mshrEntry := default no_entry (entries !! Z.to_nat slot).

Definition update_slot_in (slot : Z) (f : mshrEntry -> mshrEntry) (entries : list mshrEntry) : list mshrEntry :=
  alter f (Z.to_nat slot) entries.

Definition mshr_entry (m : cacheMSHR) (h : mshrHandle) : result mshrEntry :=
  if (mh_slot h <? 0) || (mh_slot h >=? zlen (ms_entries m)) then Err (Errorf "invalid MSHR slot")
  else
    let e := slot_in (ms_entries m) (mh_slot h) in
    if negb (me_valid e) || (me_generation e <>? mh_generation h) then Err (Errorf "stale MSHR handle") else Ok e.

(** A head that is no entry is a panic. *)
Definition mshr_replay (m : cacheMSHR) : result (option (mshrHandle * mshrEntry)) :=
  match ms_head m with
  | None => Ok None
  | Some h => match mshr_entry m h with Ok e => Ok (Some (h, e)) | Err _ => Err (GoPanic "stale MSHR handle") end
  end.

Definition is_some {A} (o : option A) : bool := match o with Some _ => true | None => false end.

(** ** The checks of one step *)

Definition check_finalize (m : cacheMSHR) (f : mshrFinalization) : result unit :=
  let? e := mshr_entry m (fz_handle f) in
  check negb (me_finalized e) else Errorf "MSHR finalized twice" in
  match fz_release f, fz_previous f with
  | false, Some p =>
      let? prev := mshr_entry m p in
      check (me_line prev =? me_line e) && negb (bool_decide (p = fz_handle f)) && negb (is_some (me_next prev)) else Errorf "invalid MSHR predecessor" in
      Ok tt
  | _, _ => Ok tt
  end.

Definition check_fill (m : cacheMSHR) (h : mshrHandle) : result unit :=
  let? e := mshr_entry m h in
  check me_finalized e && negb (is_some (ms_head m)) else Errorf "fill before finalize or during active replay" in Ok tt.

Definition check_dequeue (m : cacheMSHR) (finalize : option mshrFinalization) : result unit :=
  match ms_head m with
  | None => Err (Errorf "MSHR dequeue without head")
  | Some h =>
      let? e := mshr_entry m h in
      check me_finalized e else Errorf "MSHR replay before finalize" in
      check negb (match finalize with Some f => bool_decide (fz_handle f = h) | None => false end) else Errorf "duplicate MSHR release" in Ok tt
  end.

Definition check_allocate (m : cacheMSHR) : result unit :=
  check ms_ready m && negb (me_valid (slot_in (ms_entries m) (ms_free m))) else Errorf "MSHR allocation without registered space" in
  check me_generation (slot_in (ms_entries m) (ms_free m)) <>? 2 ^ 64 - 1 else Errorf "MSHR generation exhausted" in Ok tt.

Definition mshr_check (m : cacheMSHR) (ev : mshrEvents) : result unit :=
  let? _ := match mv_finalize ev with Some f => check_finalize m f | None => Ok tt end in
  let? _ := match mv_fill ev with Some h => check_fill m h | None => Ok tt end in
  let? _ := if mv_dequeue ev then check_dequeue m (mv_finalize ev) else Ok tt in
  match mv_allocate ev with Some _ => check_allocate m | None => Ok tt end.

(** ** The next table *)

(** The slot of the dequeued head. *)
Definition dequeued (m : cacheMSHR) (ev : mshrEvents) : option Z := if mv_dequeue ev then mh_slot <$> ms_head m else None.

Definition next_head (m : cacheMSHR) (ev : mshrEvents) : option mshrHandle :=
  match dequeued m ev with
  | None => match mv_fill ev with Some h => Some h | None => ms_head m end
  | Some slot =>
      match me_next (slot_in (ms_entries m) slot), mv_finalize ev with
      | None, Some f => if negb (fz_release f) && bool_decide (fz_previous f <> None /\ fz_previous f = ms_head m) then Some (fz_handle f) else None
      | next, _ => next
      end
  end.

Definition finalize_slots (f : mshrFinalization) (entries : list mshrEntry) : list mshrEntry :=
  let entries := update_slot_in (mh_slot (fz_handle f)) (set_finalized true) entries in
  if fz_release f then update_slot_in (mh_slot (fz_handle f)) (set_valid false) entries
  else match fz_previous f with
       | Some p => update_slot_in (mh_slot p) (set_next_handle (Some (fz_handle f))) entries
       | None => entries
       end.

(** The table after the dequeue and the finalization. *)
Definition settled_slots (m : cacheMSHR) (ev : mshrEvents) : list mshrEntry :=
  let entries := match dequeued m ev with Some slot => update_slot_in slot (set_valid false) (ms_entries m) | None => ms_entries m end in
  match mv_finalize ev with Some f => finalize_slots f entries | None => entries end.

(** The first slot, by index, that is still a tail of the line. *)
Fixpoint find_tail (line : Z) (gone : option Z) (slot : Z) (old next : list mshrEntry) : option mshrHandle :=
  match old, next with
  | e :: old, n :: next =>
      if negb (me_valid e) || (me_line e <>? line) || is_some (me_next n) || bool_decide (gone = Some slot) then find_tail line gone (slot + 1) old next
      else Some (mkHandle slot (me_generation e))
  | _, _ => None
  end.

Definition line_of (address : Z) : Z := address .&^ 63.

Definition allocate_slot (m : cacheMSHR) (ev : mshrEvents) (a : mshrAllocation) (next : list mshrEntry) : list mshrEntry * mshrAllocationResult :=
  let line := line_of (wq_Address (al_request a)) in
  let h := mkHandle (ms_free m) (u64 (me_generation (slot_in (ms_entries m) (ms_free m)) + 1)) in
  (update_slot_in (ms_free m) (fun _ => mkMshrEntry true false (mh_generation h) line (al_request a) (al_port a) None) next,
   mkAllocationResult h (find_tail line (dequeued m ev) 0 (ms_entries m) next)).

(** The first free slot. *)
Fixpoint first_free (slot : Z) (entries : list mshrEntry) : option Z :=
  match entries with
  | [] => None
  | e :: rest => if negb (me_valid e) then Some slot else first_free (slot + 1) rest
  end.

Definition mshr_step (m : cacheMSHR) (ev : mshrEvents) : cacheMSHR * result (option mshrAllocationResult) :=
  match mshr_check m ev with
  | Err e => (m, Err e)
  | Ok _ =>
      let next := settled_slots m ev in
      let '(next, allocated) := match mv_allocate ev with
        | Some a => let '(next, r) := allocate_slot m ev a next in (next, Some r)
        | None => (next, None)
        end in
      (mkMSHR next (is_some (first_free 0 next)) (default 0 (first_free 0 next)) (next_head m ev), Ok allocated)
  end.
