(* ===== verification/MshrSpec.v ===== *)
(** * The miss table keeps every miss

    The chains of the miss table, with the fills that are still outstanding ([roots])
    and the one allocation the pipeline has not finalized yet ([open]). *)

From S2P Require Import Prelude Memory TimingIR Memsys Mshr.

#[local] Open Scope Z_scope.
#[local] Open Scope go_scope.

(** ** Slots *)

Definition in_table (entries : list mshrEntry) (slot : Z) : Prop := 0 <= slot < zlen entries.

Lemma slot_in_update slot f entries i : in_table entries slot -> in_table entries i ->
  slot_in (update_slot_in slot f entries) i = if slot =? i then f (slot_in entries i) else slot_in entries i.
Proof.
  unfold in_table, zlen, slot_in, update_slot_in. intros Hs Hi. destruct (Z.eqb_spec slot i) as [<-|Hne].
  - rewrite list_lookup_alter_eq. by destruct (lookup_lt_is_Some_2 entries (Z.to_nat slot) ltac:(lia)) as [e ->].
  - by rewrite list_lookup_alter_ne by lia.
Qed.

Lemma zlen_update slot f entries : zlen (update_slot_in slot f entries) = zlen entries.
Proof. unfold zlen, update_slot_in. by rewrite length_alter. Qed.

Lemma first_free_spec slot entries : match first_free slot entries with
  | Some i => slot <= i < slot + zlen entries /\ me_valid (slot_in entries (i - slot)) = false
  | None => forall i, in_table entries i -> me_valid (slot_in entries i) = true
  end.
Proof.
  revert slot. unfold zlen, in_table. induction entries as [|e entries IH]; intros slot; cbn [first_free length]; [unfold zlen; cbn; intros; lia|].
  destruct (me_valid e) eqn:Ev; cbn [negb]; [|split; [lia|by rewrite Z.sub_diag]]. specialize (IH (slot + 1)). destruct (first_free (slot + 1) entries) as [i|].
  - destruct IH as [Hi Hv]. split; [lia|]. unfold slot_in in *. replace (Z.to_nat (i - slot)) with (S (Z.to_nat (i - (slot + 1)))) by lia. done.
  - unfold zlen in *. cbn [length]. intros i Hi. destruct (Z.eq_dec i 0) as [->|Hne]; [done|]. specialize (IH (i - 1) ltac:(lia)). unfold slot_in in *.
    replace (Z.to_nat i) with (S (Z.to_nat (i - 1))) by lia. done.
Qed.

Lemma first_free_some entries i : first_free 0 entries = Some i -> in_table entries i /\ me_valid (slot_in entries i) = false.
Proof. intros E. pose proof (first_free_spec 0 entries) as H. rewrite E, Z.sub_0_r in H. unfold in_table. split; [lia|apply H]. Qed.

(** ** Live handles *)

Definition live (entries : list mshrEntry) (h : mshrHandle) : Prop :=
  in_table entries (mh_slot h) /\ me_valid (slot_in entries (mh_slot h)) = true /\ me_generation (slot_in entries (mh_slot h)) = mh_generation h.

Notation at_handle entries h := (slot_in entries (mh_slot h)).

Lemma mshr_entry_live m h e : mshr_entry m h = Ok e <-> live (ms_entries m) h /\ e = at_handle (ms_entries m) h.
Proof.
  unfold mshr_entry, live, in_table. split.
  - case_match eqn:E1; [done|]. case_match eqn:E2; [done|]. intros <-%Ok_inj. apply orb_false_iff in E1 as [?%Z.ltb_ge ?%Z.leb_gt].
    apply orb_false_iff in E2 as [?%negb_false_iff ?%negb_false_iff%Z.eqb_eq]. split_and!; try lia; done.
  - intros [(Hr & Hv & Hg) ->]. assert ((mh_slot h <? 0) || (mh_slot h >=? zlen (ms_entries m)) = false) as -> by (rewrite orb_false_iff, Z.ltb_ge, Z.leb_gt; lia).
    by rewrite Hv, Hg, Z.eqb_refl.
Qed.

Lemma live_slot entries h h' : live entries h -> live entries h' -> mh_slot h = mh_slot h' -> h = h'.
Proof. intros (_ & _ & G) (_ & _ & G') E. rewrite E in G. destruct h, h'. cbn in *. congruence. Qed.

(** ** The invariant *)

(** [h] is the successor of a live entry. *)
Definition pointed (entries : list mshrEntry) (h : mshrHandle) : Prop := exists q, live entries q /\ me_next (at_handle entries q) = Some h.

Record mshr_wf (m : cacheMSHR) (roots : list mshrHandle) (open : option mshrHandle) : Prop := {
  mw_next : forall q h, live (ms_entries m) q -> me_next (at_handle (ms_entries m) q) = Some h ->
    live (ms_entries m) h /\ me_finalized (at_handle (ms_entries m) h) = true /\ me_line (at_handle (ms_entries m) h) = me_line (at_handle (ms_entries m) q);
  mw_inj : forall q q' h, live (ms_entries m) q -> live (ms_entries m) q' -> me_next (at_handle (ms_entries m) q) = Some h ->
    me_next (at_handle (ms_entries m) q') = Some h -> q = q';
  mw_head : forall h, ms_head m = Some h -> live (ms_entries m) h /\ me_finalized (at_handle (ms_entries m) h) = true /\ ~ pointed (ms_entries m) h /\ h ∉ roots;
  mw_nodup : NoDup roots;
  mw_roots : forall h, h ∈ roots -> live (ms_entries m) h /\ me_finalized (at_handle (ms_entries m) h) = true /\ ~ pointed (ms_entries m) h;
  mw_open : forall h, live (ms_entries m) h -> (me_finalized (at_handle (ms_entries m) h) = false <-> open = Some h);
  mw_open_live : forall h, open = Some h -> live (ms_entries m) h /\ me_next (at_handle (ms_entries m) h) = None;
  mw_reached : forall h, live (ms_entries m) h -> me_finalized (at_handle (ms_entries m) h) = true ->
    ms_head m = Some h \/ h ∈ roots \/ pointed (ms_entries m) h
}.

(** The registered free slot is current. *)
Definition free_ok (m : cacheMSHR) : Prop := ms_ready m = is_some (first_free 0 (ms_entries m)) /\ ms_free m = default 0 (first_free 0 (ms_entries m)).

(** What the pipeline may ask of the table in one edge. *)
Record events_ok (m : cacheMSHR) (roots : list mshrHandle) (open : option mshrHandle) (ev : mshrEvents) : Prop := {
  eo_finalize : forall f, mv_finalize ev = Some f -> open = Some (fz_handle f) /\
    forall p, fz_release f = false -> fz_previous f = Some p ->
      live (ms_entries m) p /\ me_finalized (at_handle (ms_entries m) p) = true /\ me_next (at_handle (ms_entries m) p) = None /\
      me_line (at_handle (ms_entries m) p) = me_line (at_handle (ms_entries m) (fz_handle f));
  eo_fill : forall h, mv_fill ev = Some h -> h ∈ roots /\ ms_head m = None;
  eo_dequeue : mv_dequeue ev = true -> ms_head m <> None;
  eo_allocate : mv_allocate ev <> None -> free_ok m /\ first_free 0 (ms_entries m) <> None /\ (open = None \/ mv_finalize ev <> None) /\
    me_generation (slot_in (ms_entries m) (ms_free m)) < 2 ^ 64 - 1 /\ 0 <= me_generation (slot_in (ms_entries m) (ms_free m))
}.

(** What the edge makes of the ghosts. *)
Definition roots_after (roots : list mshrHandle) (ev : mshrEvents) : list mshrHandle :=
  (match mv_fill ev with Some h => filter (fun r => r <> h) roots | None => roots end) ++
  match mv_finalize ev with
  | Some f => if negb (fz_release f) && negb (is_some (fz_previous f)) then [fz_handle f] else []
  | None => []
  end.

Definition open_after (open : option mshrHandle) (ev : mshrEvents) (r : option mshrAllocationResult) : option mshrHandle :=
  match r with Some r => Some (ar_handle r) | None => match mv_finalize ev with Some _ => None | None => open end end.

Section Step.
Context (m : cacheMSHR) (roots : list mshrHandle) (open : option mshrHandle) (ev : mshrEvents).
Context (Hm : mshr_wf m roots open) (He : events_ok m roots open ev).

Notation entries := (ms_entries m).

(** The checks pass. *)
Lemma events_pass : mshr_check m ev = Ok tt.
Proof.
  destruct Hm as [M1 M2 M3 M4 M5 M6 M7 M8]. destruct He as [E1 E2 E3 E4]. unfold mshr_check.
  assert (match mv_finalize ev with Some f => check_finalize m f | None => Ok tt end = Ok tt) as ->.
  { destruct (mv_finalize ev) as [f|]; [|done]. destruct (E1 f eq_refl) as [Ho Hp]. destruct (M7 _ Ho) as [Hl Hn]. unfold check_finalize.
    rewrite (proj2 (mshr_entry_live m (fz_handle f) _) (conj Hl eq_refl)). cbn [result_bind]. rewrite (proj2 (M6 _ Hl) Ho). cbn [negb].
    destruct (fz_release f); [done|]. destruct (fz_previous f) as [p|]; [|done]. destruct (Hp p eq_refl eq_refl) as (Lp & Fp & Np & Lin).
    rewrite (proj2 (mshr_entry_live m p _) (conj Lp eq_refl)). cbn [result_bind]. rewrite Lin, Z.eqb_refl, Np. cbn [andb is_some negb]. rewrite bool_decide_eq_false_2; [done|].
    intros ->. pose proof (proj2 (M6 _ Hl) Ho). congruence. }
  cbn [result_bind].
  assert (match mv_fill ev with Some h => check_fill m h | None => Ok tt end = Ok tt) as ->.
  { destruct (mv_fill ev) as [h|]; [|done]. destruct (E2 h eq_refl) as [Hr Hn]. destruct (M5 h Hr) as (Hl & Hf & _). unfold check_fill.
    rewrite (proj2 (mshr_entry_live m h _) (conj Hl eq_refl)). cbn [result_bind]. by rewrite Hf, Hn. }
  cbn [result_bind].
  assert ((if mv_dequeue ev then check_dequeue m (mv_finalize ev) else Ok tt) = Ok tt) as ->.
  { destruct (mv_dequeue ev); [|done]. specialize (E3 eq_refl). unfold check_dequeue. destruct (ms_head m) as [h|]; [|done]. destruct (M3 h eq_refl) as (Hl & Hf & _).
    rewrite (proj2 (mshr_entry_live m h _) (conj Hl eq_refl)). cbn [result_bind]. rewrite Hf. cbn [negb]. destruct (mv_finalize ev) as [f|]; [|done].
    rewrite bool_decide_eq_false_2; [done|]. destruct (E1 f eq_refl) as [Ho _]. intros <-. pose proof (proj2 (M6 _ Hl) Ho). congruence. }
  cbn [result_bind]. destruct (mv_allocate ev) as [a|]; [|done]. destruct (E4 ltac:(done)) as ([Hr Hf] & Hs & _ & Hg & _). unfold check_allocate.
  destruct (first_free 0 entries) as [i|] eqn:Ei; [|done]. apply first_free_some in Ei as [Hi Hv]. rewrite Hr, Hf in *. cbn [is_some default] in *. change (id i) with i in *.
  rewrite Hv. cbn [negb andb]. destruct (Z.eqb_spec (me_generation (slot_in entries i)) (2 ^ 64 - 1)); [lia|done].
Qed.
(** *** The settled table *)

(** The entry leaves the table at this edge. *)
Definition gone (h : mshrHandle) : Prop :=
  (mv_dequeue ev = true /\ ms_head m = Some h) \/ exists f, mv_finalize ev = Some f /\ fz_release f = true /\ fz_handle f = h.

(** The successor the entry gets at this edge. *)
Definition link_target (h : mshrHandle) : option mshrHandle :=
  match mv_finalize ev with
  | Some f => if negb (fz_release f) && bool_decide (fz_previous f = Some h) then Some (fz_handle f) else None
  | None => None
  end.

Lemma link_target_some h target : link_target h = Some target <-> exists f, mv_finalize ev = Some f /\ fz_release f = false /\ fz_previous f = Some h /\ fz_handle f = target.
Proof.
  unfold link_target. split.
  - destruct (mv_finalize ev) as [f|]; [|done]. destruct (fz_release f) eqn:Er; cbn [negb andb]; [done|]. case_bool_decide as Ep; [|done]. intros [= <-]. by exists f.
  - intros (f & -> & -> & -> & <-). cbn. by rewrite bool_decide_eq_true_2.
Qed.

Notation settled := (settled_slots m ev).

Lemma settled_size : zlen settled = zlen entries.
Proof.
  unfold settled_slots, finalize_slots. destruct (dequeued m ev); destruct (mv_finalize ev) as [f|]; rewrite ?zlen_update; try done;
    destruct (fz_release f); try destruct (fz_previous f); by rewrite ?zlen_update.
Qed.

(** The table, one slot at a time. *)
Lemma settled_at i : in_table entries i ->
  slot_in settled i = mkMshrEntry
    (me_valid (slot_in entries i) && negb (bool_decide (dequeued m ev = Some i)) &&
     negb (match mv_finalize ev with Some f => fz_release f && (mh_slot (fz_handle f) =? i) | None => false end))
    (me_finalized (slot_in entries i) || match mv_finalize ev with Some f => mh_slot (fz_handle f) =? i | None => false end)
    (me_generation (slot_in entries i)) (me_line (slot_in entries i)) (me_request (slot_in entries i)) (me_port (slot_in entries i))
    (match mv_finalize ev with
     | Some f => match fz_previous f with
                 | Some p => if negb (fz_release f) && (mh_slot p =? i) then Some (fz_handle f) else me_next (slot_in entries i)
                 | None => me_next (slot_in entries i)
                 end
     | None => me_next (slot_in entries i)
     end).
Proof.
  intros Hi. destruct Hm as [_ _ M3 _ _ _ M7 _]. destruct He as [E1 _ _ _].
  assert (forall t, zlen t = zlen entries -> in_table t i) as Ht by (intros t E; unfold in_table; by rewrite E).
  set (first := match dequeued m ev with Some slot => update_slot_in slot (set_valid false) entries | None => entries end).
  assert (zlen first = zlen entries) as Hfl by (unfold first; destruct (dequeued m ev); rewrite ?zlen_update; done).
  assert (slot_in first i = set_valid (me_valid (slot_in entries i) && negb (bool_decide (dequeued m ev = Some i))) (slot_in entries i)) as Hf.
  { unfold first, dequeued. destruct (mv_dequeue ev); cbn [fmap option_fmap option_map]; [|rewrite bool_decide_eq_false_2, andb_true_r by done; by destruct (slot_in entries i)].
    destruct (ms_head m) as [h|] eqn:Eh; cbn; [|rewrite bool_decide_eq_false_2, andb_true_r by done; by destruct (slot_in entries i)].
    destruct (M3 h eq_refl) as ((Hr & _) & _). rewrite slot_in_update by done. destruct (Z.eqb_spec (mh_slot h) i) as [<-|Hne].
    - rewrite bool_decide_eq_true_2 by done. by rewrite andb_false_r.
    - rewrite bool_decide_eq_false_2 by congruence. rewrite andb_true_r. by destruct (slot_in entries i). }
  unfold settled_slots. fold first. destruct (mv_finalize ev) as [f|] eqn:Efin.
  - destruct (E1 f eq_refl) as [Ho Hp]. destruct (M7 _ Ho) as [(Hr & _) _]. unfold finalize_slots.
    assert (forall t, zlen t = zlen entries -> in_table t (mh_slot (fz_handle f))) as Htf by (intros t E; unfold in_table; by rewrite E).
    destruct (fz_release f) eqn:Erel.
    + rewrite !slot_in_update by (apply Ht || apply Htf; by rewrite ?zlen_update). rewrite Hf. destruct (Z.eqb_spec (mh_slot (fz_handle f)) i); cbn;
        rewrite ?andb_false_r, ?andb_true_r, ?orb_true_r, ?orb_false_r; by destruct (fz_previous f); destruct (slot_in entries i).
    + destruct (fz_previous f) as [q|].
      * destruct (Hp q eq_refl eq_refl) as ((Hq & _) & _). rewrite !slot_in_update by (apply Ht || apply Htf || (unfold in_table; rewrite ?zlen_update, Hfl); by rewrite ?zlen_update). rewrite Hf.
        destruct (Z.eqb_spec (mh_slot q) i), (Z.eqb_spec (mh_slot (fz_handle f)) i); cbn; rewrite ?andb_true_r, ?orb_true_r, ?orb_false_r; by destruct (slot_in entries i).
      * rewrite slot_in_update by (apply Ht || apply Htf; by rewrite ?zlen_update). rewrite Hf.
        destruct (Z.eqb_spec (mh_slot (fz_handle f)) i); cbn; rewrite ?andb_true_r, ?orb_true_r, ?orb_false_r; by destruct (slot_in entries i).
  - rewrite Hf, andb_true_r, orb_false_r. by destruct (slot_in entries i).
Qed.

Lemma settled_live h : live settled h <-> live entries h /\ ~ gone h.
Proof.
  unfold live at 1. unfold in_table. rewrite settled_size. fold (in_table entries (mh_slot h)). split.
  - intros (Hi & Hv & Hg). rewrite (settled_at _ Hi) in Hv, Hg. cbn [me_valid me_generation] in Hv, Hg. rewrite !andb_true_iff, !negb_true_iff in Hv. destruct Hv as [[Hv Hd] Hr].
    split; [done|]. intros [[Hdq Hh]|(f & Ef & Er & <-)].
    + unfold dequeued in Hd. rewrite Hdq, Hh in Hd. by rewrite bool_decide_eq_true_2 in Hd.
    + by rewrite Ef, Er, Z.eqb_refl in Hr.
  - intros [Hl Hn]. pose proof Hl as (Hi & Hv & Hg). split; [done|]. rewrite (settled_at _ Hi). cbn [me_valid me_generation]. split; [|done].
    rewrite !andb_true_iff, !negb_true_iff. split; [split; [done|]|].
    + apply bool_decide_eq_false. intros Hd. apply Hn. left. unfold dequeued in Hd. destruct (mv_dequeue ev); [|done]. split; [done|].
      destruct (ms_head m) as [x|] eqn:Eh; [|done]. injection Hd as Hd. f_equal. apply (live_slot entries); [apply (mw_head _ _ _ Hm); by rewrite Eh|done..].
    + destruct (mv_finalize ev) as [f|] eqn:Ef; [|done]. destruct (fz_release f) eqn:Er; [|done]. cbn [andb]. apply Z.eqb_neq. intros E. apply Hn. right. exists f.
      split_and!; [done..|]. apply (live_slot entries); [|done..]. apply (mw_open_live _ _ _ Hm). by apply (eo_finalize _ _ _ _ He).
Qed.

Lemma settled_fields h : live entries h ->
  me_generation (at_handle settled h) = me_generation (at_handle entries h) /\ me_line (at_handle settled h) = me_line (at_handle entries h) /\
  me_request (at_handle settled h) = me_request (at_handle entries h) /\ me_port (at_handle settled h) = me_port (at_handle entries h) /\
  (me_finalized (at_handle settled h) = true <-> me_finalized (at_handle entries h) = true \/ exists f, mv_finalize ev = Some f /\ fz_handle f = h) /\
  me_next (at_handle settled h) = match link_target h with Some target => Some target | None => me_next (at_handle entries h) end.
Proof.
  intros Hl. pose proof Hl as (Hi & _). rewrite (settled_at _ Hi). cbn. split_and!; try done.
  - rewrite orb_true_iff. split; (intros [?|Hx]; [by left|right]).
    + destruct (mv_finalize ev) as [f|] eqn:Ef; [|done]. exists f. split; [done|]. apply (live_slot entries); [|done|by apply Z.eqb_eq].
      apply (mw_open_live _ _ _ Hm). by apply (eo_finalize _ _ _ _ He).
    + destruct Hx as (f & -> & <-). apply Z.eqb_refl.
  - unfold link_target. destruct (mv_finalize ev) as [f|] eqn:Ef; [|done]. destruct (fz_release f) eqn:Er; cbn [negb andb]; [by destruct (fz_previous f)|].
    destruct (fz_previous f) as [p|] eqn:Ep; [|by rewrite bool_decide_eq_false_2]. destruct (eo_finalize _ _ _ _ He f Ef) as [_ Hp]. destruct (Hp p Er Ep) as (Lp & _).
    destruct (Z.eqb_spec (mh_slot p) (mh_slot h)) as [E|Hne].
    + apply (live_slot entries) in E as ->; [|done..]. by rewrite bool_decide_eq_true_2.
    + by rewrite bool_decide_eq_false_2 by congruence.
Qed.

(** *** The invariant of the settled table *)

Lemma open_not_gone f : mv_finalize ev = Some f -> fz_release f = false -> ~ gone (fz_handle f).
Proof.
  intros Ef Er [[_ Hh]|(f' & Ef' & Er' & _)]; [|congruence]. destruct Hm. destruct (eo_finalize _ _ _ _ He f Ef) as [Ho _]. destruct (mw_head0 _ Hh) as (Hl & Hf & _).
  pose proof (proj2 (mw_open0 _ Hl) Ho). congruence.
Qed.

Lemma gone_dec h : gone h \/ ~ gone h.
Proof.
  destruct (decide (mv_dequeue ev = true /\ ms_head m = Some h)) as [Hd|Hd]; [left; by left|]. destruct (mv_finalize ev) as [f|] eqn:Ef.
  - destruct (decide (fz_release f = true /\ fz_handle f = h)) as [[Hr Hf]|Hn]; [left; right; by exists f|]. right. intros [Hx|(f' & Ef' & Er & Eh)]; [done|].
    apply Hn. rewrite Ef in Ef'. injection Ef' as <-. done.
  - right. intros [Hx|(f' & Ef' & _)]; [done|congruence].
Qed.

(** A finalized entry leaves only as the dequeued head. *)
Lemma finalized_gone h : live entries h -> me_finalized (at_handle entries h) = true -> gone h -> mv_dequeue ev = true /\ ms_head m = Some h.
Proof.
  intros Hl Hf [?|(f & Ef & Er & <-)]; [done|]. destruct (eo_finalize _ _ _ _ He f Ef) as [Ho _]. pose proof (proj2 (mw_open _ _ _ Hm _ Hl) Ho). congruence.
Qed.

(** No finalized entry is the target of the new link. *)
Lemma link_fresh h target : link_target h = Some target -> live entries target /\ me_finalized (at_handle entries target) = false /\ ~ gone target.
Proof.
  intros (f & Ef & Er & _ & <-)%link_target_some. destruct (eo_finalize _ _ _ _ He f Ef) as [Ho _]. destruct (mw_open_live _ _ _ Hm _ Ho) as [Hl _].
  split; [done|]. split; [by apply (mw_open _ _ _ Hm _ Hl)|by apply open_not_gone].
Qed.

(** The predecessor of the new link was a tail. *)
Lemma link_tail h target : link_target h = Some target -> live entries h /\ me_next (at_handle entries h) = None /\
  me_line (at_handle entries h) = me_line (at_handle entries target).
Proof.
  intros (f & Ef & Er & Ep & <-)%link_target_some. destruct (eo_finalize _ _ _ _ He f Ef) as [_ Hp]. destruct (Hp h Er Ep) as (Lh & _ & Nh & Eh). done.
Qed.

(** Pointed in the settled table: by the new link, or as before by an entry that stays. *)
Lemma settled_pointed h : pointed settled h <->
  exists q, live entries q /\ ~ gone q /\ (link_target q = Some h \/ (me_next (at_handle entries q) = Some h /\ link_target q = None)).
Proof.
  unfold pointed. split.
  - intros (q & [Hq Hg]%settled_live & Hn). exists q. split; [done|]. split; [done|]. destruct (settled_fields q Hq) as (_ & _ & _ & _ & _ & En). rewrite En in Hn.
    destruct (link_target q) eqn:El; [left; congruence|by right].
  - intros (q & Hq & Hg & Hx). exists q. split; [by apply settled_live|]. destruct (settled_fields q Hq) as (_ & _ & _ & _ & _ & ->). by destruct Hx as [-> | [? ->]].
Qed.

(** A finalized entry nobody pointed to is still pointed to by nobody. *)
Lemma unpointed_stays h : live entries h -> me_finalized (at_handle entries h) = true -> ~ pointed entries h -> ~ pointed settled h.
Proof.
  intros Hl Hf Hn (q & Hq & _ & [Hk|[Hk _]])%settled_pointed; [destruct (link_fresh q h Hk) as (_ & ? & _); congruence|]. apply Hn. by exists q.
Qed.

Lemma settled_finalized h : live entries h -> me_finalized (at_handle entries h) = true -> me_finalized (at_handle settled h) = true.
Proof. intros Hl Hf. apply (settled_fields h Hl). by left. Qed.

Lemma settled_head h : next_head m ev = Some h ->
  live settled h /\ me_finalized (at_handle settled h) = true /\ ~ pointed settled h /\ h ∉ roots_after roots ev.
Proof.
  assert (forall h, live entries h -> me_finalized (at_handle entries h) = true -> ~ (mv_dequeue ev = true /\ ms_head m = Some h) -> live settled h) as Hstay.
  { intros x Hl Hf Hn. apply settled_live. split; [done|]. intros Hg. apply Hn. by apply finalized_gone. }
  assert (forall x, live entries x -> me_finalized (at_handle entries x) = true -> (x ∈ roots -> mv_fill ev = Some x) -> x ∉ roots_after roots ev) as Hroot.
  { intros x Hl Hf Hx. unfold roots_after. rewrite elem_of_app. intros [Hin|Hin].
    - destruct (mv_fill ev) as [y|]; [apply list_elem_of_filter in Hin as [Hne Hin]; specialize (Hx Hin); congruence|by specialize (Hx Hin)].
    - destruct (mv_finalize ev) as [f|] eqn:Ef; [|by apply elem_of_nil in Hin]. case_match; [|by apply elem_of_nil in Hin]. apply list_elem_of_singleton in Hin as ->.
      destruct (eo_finalize _ _ _ _ He f Ef) as [Ho _]. pose proof (proj2 (mw_open _ _ _ Hm _ Hl) Ho). congruence. }
  unfold next_head, dequeued. destruct (mv_dequeue ev) eqn:Ed.
  - destruct (ms_head m) as [x|] eqn:Ex; [|by destruct (eo_dequeue _ _ _ _ He Ed)]. cbn [fmap option_fmap option_map]. destruct (mw_head _ _ _ Hm x Ex) as (Lx & Fx & Ux & Rx).
    destruct (me_next (at_handle entries x)) as [y|] eqn:Ey.
    + intros [= <-]. destruct (mw_next _ _ _ Hm x y Lx Ey) as (Ly & Fy & _). assert (y <> x) as Hne by (intros ->; apply Ux; by exists x).
      split; [apply Hstay; [done..|]; intros [_ [= ?]]; congruence|]. split; [by apply settled_finalized|]. split.
      * intros (q & Hq & Hg & [Hk|[Hk _]])%settled_pointed; [destruct (link_fresh q y Hk) as (_ & ? & _); congruence|].
        assert (q = x) as -> by (by apply (mw_inj _ _ _ Hm q x y)). apply Hg. left. done.
      * apply Hroot; [done..|]. intros Hin. exfalso. apply (mw_roots _ _ _ Hm y Hin). by exists x.
    + destruct (mv_finalize ev) as [f|] eqn:Ef; [|done]. destruct (fz_release f) eqn:Er; cbn [negb andb]; [done|]. case_bool_decide as Ep; [|done]. intros [= <-].
      destruct Ep as [_ Ep]. assert (link_target x = Some (fz_handle f)) as Hk by (apply link_target_some; by exists f). destruct (link_fresh _ _ Hk) as (Lf & Ff & Gf).
      split; [by apply settled_live|]. split; [apply (settled_fields _ Lf); right; by exists f|]. split.
      * intros (q & Hq & Hg & [Hq'|[Hq' _]])%settled_pointed.
        -- apply link_target_some in Hq' as (f' & Ef' & _ & Ep' & _). rewrite Ef in Ef'. injection Ef' as <-. rewrite Ep in Ep'. injection Ep' as ->. apply Hg. left. done.
        -- destruct (mw_next _ _ _ Hm q _ Hq Hq') as (_ & ? & _). congruence.
      * unfold roots_after. rewrite elem_of_app, Ef, Er, Ep. cbn. intros [Hin|Hin]; [|by apply elem_of_nil in Hin].
        assert (fz_handle f ∈ roots) as Hin' by (destruct (mv_fill ev); [by apply list_elem_of_filter in Hin as [_ ?]|done]). destruct (mw_roots _ _ _ Hm _ Hin') as (_ & ? & _). congruence.
  - destruct (mv_fill ev) as [y|] eqn:Efill.
    + intros [= <-]. destruct (eo_fill _ _ _ _ He y Efill) as [Hin _]. destruct (mw_roots _ _ _ Hm y Hin) as (Ly & Fy & Uy). split; [apply Hstay; [done..|]; by intros [? _]|].
      split; [by apply settled_finalized|]. split; [by apply unpointed_stays|]. by apply Hroot.
    + intros Hh. destruct (mw_head _ _ _ Hm h Hh) as (Lx & Fx & Ux & Rx). split; [apply Hstay; [done..|]; by intros [? _]|]. split; [by apply settled_finalized|].
      split; [by apply unpointed_stays|]. by apply Hroot.
Qed.
(** A root of the old table that is not filled now stays a root. *)
Lemma settled_root h : h ∈ roots_after roots ev -> live settled h /\ me_finalized (at_handle settled h) = true /\ ~ pointed settled h.
Proof.
  unfold roots_after. intros [Hin|Hin]%elem_of_app.
  - assert (h ∈ roots) as Hr by (destruct (mv_fill ev); [by apply list_elem_of_filter in Hin as [_ ?]|done]). destruct (mw_roots _ _ _ Hm h Hr) as (Hl & Hf & Hu).
    split; [|split; [by apply settled_finalized|by apply unpointed_stays]]. apply settled_live. split; [done|]. intros Hg. destruct (finalized_gone h Hl Hf Hg) as [_ Hh].
    by apply (mw_head _ _ _ Hm h Hh).
  - destruct (mv_finalize ev) as [f|] eqn:Ef; [|by apply elem_of_nil in Hin]. destruct (fz_release f) eqn:Er; [by apply elem_of_nil in Hin|].
    destruct (fz_previous f) as [p|] eqn:Ep; [by apply elem_of_nil in Hin|]. apply list_elem_of_singleton in Hin as ->. destruct (eo_finalize _ _ _ _ He f Ef) as [Ho _].
    destruct (mw_open_live _ _ _ Hm _ Ho) as [Hl _]. split; [apply settled_live; split; [done|by apply open_not_gone]|]. split; [apply (settled_fields _ Hl); right; by exists f|].
    intros (q & Hq & _ & [Hk|[Hk _]])%settled_pointed.
    + apply link_target_some in Hk as (f' & Ef' & _ & Ep' & _). congruence.
    + destruct (mw_next _ _ _ Hm q _ Hq Hk) as (_ & ? & _). pose proof (proj2 (mw_open _ _ _ Hm _ Hl) Ho). congruence.
Qed.

Lemma roots_after_nodup : NoDup (roots_after roots ev).
Proof.
  unfold roots_after. apply NoDup_app. pose proof (mw_nodup _ _ _ Hm) as Hn. split; [destruct (mv_fill ev); [by apply NoDup_filter|done]|]. split.
  - intros h Hin Hx. assert (h ∈ roots) as Hr by (destruct (mv_fill ev); [by apply list_elem_of_filter in Hin as [_ ?]|done]). destruct (mw_roots _ _ _ Hm h Hr) as (Hl & Hf & _).
    destruct (mv_finalize ev) as [f|] eqn:Ef; [|by apply elem_of_nil in Hx]. case_match; [|by apply elem_of_nil in Hx]. apply list_elem_of_singleton in Hx as ->.
    destruct (eo_finalize _ _ _ _ He f Ef) as [Ho _]. pose proof (proj2 (mw_open _ _ _ Hm _ Hl) Ho). congruence.
  - destruct (mv_finalize ev); [|constructor]. case_match; [|constructor]. apply NoDup_singleton.
Qed.

(** The allocation that is still open when the finalization is done. *)
Definition open_settled : option mshrHandle := match mv_finalize ev with Some _ => None | None => open end.

Lemma settled_wf ready free : mshr_wf (mkMSHR settled ready free (next_head m ev)) (roots_after roots ev) open_settled.
Proof.
  split; cbn [ms_entries ms_head].
  - intros q h [Hq Hg]%settled_live Hn. destruct (settled_fields q Hq) as (_ & El & _ & _ & _ & En). rewrite En in Hn. rewrite El. destruct (link_target q) as [x|] eqn:Ek.
    + injection Hn as ->. destruct (link_fresh q h Ek) as (Hl & _ & Hng). destruct (link_tail q h Ek) as (_ & _ & Eline). split; [by apply settled_live|].
      destruct (settled_fields h Hl) as (_ & -> & _ & _ & Hfin & _). split; [|done]. apply Hfin. right. apply link_target_some in Ek as (f & Ef & _ & _ & <-). by exists f.
    + destruct (mw_next _ _ _ Hm q h Hq Hn) as (Hl & Hf & Eline). split; [|split; [by apply settled_finalized|by destruct (settled_fields h Hl) as (_ & -> & _)]].
      apply settled_live. split; [done|]. intros Hgh. destruct (finalized_gone h Hl Hf Hgh) as [_ Hh]. destruct (mw_head _ _ _ Hm h Hh) as (_ & _ & Hu & _). apply Hu. by exists q.
  - intros q q' h [Hq Hg]%settled_live [Hq' Hg']%settled_live Hn Hn'. destruct (settled_fields q Hq) as (_ & _ & _ & _ & _ & En). rewrite En in Hn.
    destruct (settled_fields q' Hq') as (_ & _ & _ & _ & _ & En'). rewrite En' in Hn'. destruct (link_target q) as [x|] eqn:Ek, (link_target q') as [x'|] eqn:Ek'.
    + apply link_target_some in Ek as (f & Ef & _ & Ep & _), Ek' as (f' & Ef' & _ & Ep' & _). congruence.
    + injection Hn as ->. destruct (link_fresh q h Ek) as (_ & ? & _). destruct (mw_next _ _ _ Hm q' h Hq' Hn') as (_ & ? & _). congruence.
    + injection Hn' as ->. destruct (link_fresh q' h Ek') as (_ & ? & _). destruct (mw_next _ _ _ Hm q h Hq Hn) as (_ & ? & _). congruence.
    + by apply (mw_inj _ _ _ Hm q q' h).
  - apply settled_head.
  - apply roots_after_nodup.
  - apply settled_root.
  - intros h [Hl Hg]%settled_live. destruct (settled_fields h Hl) as (_ & _ & _ & _ & Hfin & _). pose proof (mw_open _ _ _ Hm h Hl) as Ho. unfold open_settled.
    destruct (mv_finalize ev) as [f|] eqn:Ef.
    + split; [|done]. intros Hx. exfalso. assert (me_finalized (at_handle settled h) = true) as Ht; [|congruence]. apply Hfin.
      destruct (me_finalized (at_handle entries h)) eqn:Eh; [by left|]. right. exists f. split; [done|]. destruct (eo_finalize _ _ _ _ He f Ef) as [Ho' _]. pose proof (proj1 Ho eq_refl). congruence.
    + rewrite <- Ho. destruct (me_finalized (at_handle entries h)) eqn:Eh; [by rewrite settled_finalized|]. destruct (me_finalized (at_handle settled h)); [|done].
      destruct (proj1 Hfin eq_refl) as [|(? & ? & _)]; done.
  - intros h Ho. unfold open_settled in Ho. destruct (mv_finalize ev) as [f|] eqn:Ef; [done|]. destruct (mw_open_live _ _ _ Hm h Ho) as [Hl Hn]. split.
    + apply settled_live. split; [done|]. intros [[_ Hh]|(f & Ef' & _)]; [|congruence]. destruct (mw_head _ _ _ Hm h Hh) as (_ & Hf & _).
      pose proof (proj2 (mw_open _ _ _ Hm _ Hl) Ho). congruence.
    + destruct (settled_fields h Hl) as (_ & _ & _ & _ & _ & ->). unfold link_target. by rewrite Ef.
  - intros h [Hl Hg]%settled_live Hf. destruct (settled_fields h Hl) as (_ & _ & _ & _ & Hfin & _).
    destruct (me_finalized (at_handle entries h)) eqn:Eh.
    + clear Hfin. destruct (mw_reached _ _ _ Hm h Hl Eh) as [Hh|[Hr|(q & Hq & Hn)]].
      * left. unfold next_head, dequeued. destruct (mv_dequeue ev) eqn:Ed; [exfalso; apply Hg; by left|]. destruct (mv_fill ev) as [y|] eqn:Efl; [|done].
        destruct (eo_fill _ _ _ _ He y Efl) as [_ ?]. congruence.
      * destruct (mv_fill ev) as [y|] eqn:Efl.
        -- destruct (decide (h = y)) as [->|Hne].
           ++ left. unfold next_head, dequeued. rewrite Efl. destruct (eo_fill _ _ _ _ He y Efl) as [_ Hn]. destruct (mv_dequeue ev) eqn:Ed; [by destruct (eo_dequeue _ _ _ _ He Ed)|done].
           ++ right. left. unfold roots_after. rewrite Efl. apply elem_of_app. left. by apply list_elem_of_filter.
        -- right. left. unfold roots_after. rewrite Efl. apply elem_of_app. by left.
      * destruct (gone_dec q) as [Hgq|Hgq].
        -- destruct Hgq as [[Ed Hh]|(f & Ef & Er & <-)].
           ++ left. unfold next_head, dequeued. rewrite Ed, Hh. cbn [fmap option_fmap option_map]. by rewrite Hn.
           ++ destruct (eo_finalize _ _ _ _ He f Ef) as [Ho _]. destruct (mw_open_live _ _ _ Hm _ Ho) as [_ ?]. congruence.
        -- right. right. apply settled_pointed. exists q. split; [done|]. split; [done|]. right. split; [done|]. destruct (link_target q) as [x|] eqn:Ek; [|done].
           destruct (link_tail q x Ek) as (_ & ? & _). congruence.
    + destruct (proj1 Hfin Hf) as [|(f & Ef & <-)]; [done|]. destruct (fz_release f) eqn:Er; [exfalso; apply Hg; right; by exists f|].
      destruct (fz_previous f) as [p|] eqn:Ep.
      * assert (link_target p = Some (fz_handle f)) as Hk by (apply link_target_some; by exists f). destruct (link_tail _ _ Hk) as (Lp & Np & _).
        destruct (decide (mv_dequeue ev = true /\ ms_head m = Some p)) as [[Ed Hh]|Hnd].
        -- left. unfold next_head, dequeued. rewrite Ed, Hh. cbn [fmap option_fmap option_map]. rewrite Np, Ef, Er, Ep. cbn [negb andb]. by rewrite bool_decide_eq_true_2.
        -- right. right. apply settled_pointed. exists p. split; [done|]. split; [|by left]. intros [?|(f' & Ef' & Er' & _)]; [done|congruence].
      * right. left. unfold roots_after. rewrite Ef, Er, Ep. apply elem_of_app. right. by apply list_elem_of_singleton.
Qed.
End Step.

(** ** Allocation *)

Lemma allocate_wf m roots slot e ready free : mshr_wf m roots None -> in_table (ms_entries m) slot -> me_valid (slot_in (ms_entries m) slot) = false ->
  me_valid e = true -> me_finalized e = false -> me_next e = None ->
  mshr_wf (mkMSHR (update_slot_in slot (fun _ => e) (ms_entries m)) ready free (ms_head m)) roots (Some (mkHandle slot (me_generation e))).
Proof.
  intros Hm Hs Hv He Hfe Hne. set (entries := ms_entries m) in *. set (entries' := update_slot_in slot (fun _ => e) entries). set (new := mkHandle slot (me_generation e)).
  assert (forall h, live entries h -> live entries' h /\ at_handle entries' h = at_handle entries h) as Hold.
  { intros h (Hi & Hval & Hg). assert (at_handle entries' h = at_handle entries h) as E.
    { unfold entries'. rewrite slot_in_update by done. destruct (Z.eqb_spec slot (mh_slot h)); [congruence|done]. }
    split; [|done]. split; [unfold in_table, entries'; by rewrite zlen_update|]. by rewrite E. }
  assert (live entries' new /\ at_handle entries' new = e) as [Hnew Enew].
  { assert (at_handle entries' new = e) as E by (unfold entries'; rewrite slot_in_update by done; by rewrite Z.eqb_refl). split; [|done].
    split; [unfold in_table, entries'; by rewrite zlen_update|]. by rewrite E. }
  assert (forall h, live entries' h -> h = new \/ live entries h) as Hcases.
  { intros h Hl. destruct (Z.eq_dec (mh_slot h) slot) as [E|Hne']; [left; by apply (live_slot entries')|right]. destruct Hl as (Hi & Hval & Hg).
    unfold in_table, entries' in Hi. rewrite zlen_update in Hi. unfold entries' in Hval, Hg. rewrite slot_in_update in Hval, Hg by done.
    destruct (Z.eqb_spec slot (mh_slot h)); [congruence|]. done. }
  assert (forall h, live entries h -> ~ pointed entries h -> ~ pointed entries' h) as Hpt.
  { intros h Hl Hn (q & Hq & Hx). destruct (Hcases q Hq) as [->|Hq']; [rewrite Enew in Hx; congruence|]. apply Hn. exists q. split; [done|]. by rewrite <- (proj2 (Hold q Hq')). }
  destruct Hm as [M1 M2 M3 M4 M5 M6 M7 M8]. fold entries in M1, M2, M3, M5, M6, M7, M8. split; cbn [ms_entries ms_head]; fold entries'; try done.
  - intros q h Hq Hn. destruct (Hcases q Hq) as [->|Hq']; [rewrite Enew in Hn; congruence|]. rewrite (proj2 (Hold q Hq')) in Hn |- *. destruct (M1 q h Hq' Hn) as (Hl & Hf & El).
    destruct (Hold h Hl) as [Hl' ->]. done.
  - intros q q' h Hq Hq' Hn Hn'. destruct (Hcases q Hq) as [->|Lq]; [rewrite Enew in Hn; congruence|]. destruct (Hcases q' Hq') as [->|Lq']; [rewrite Enew in Hn'; congruence|].
    rewrite (proj2 (Hold q Lq)) in Hn. rewrite (proj2 (Hold q' Lq')) in Hn'. by apply (M2 q q' h).
  - intros h Hh. destruct (M3 h Hh) as (Hl & Hf & Hu & Hr). destruct (Hold h Hl) as [Hl' ->]. split_and!; try done. by apply Hpt.
  - intros h Hr. destruct (M5 h Hr) as (Hl & Hf & Hu). destruct (Hold h Hl) as [Hl' ->]. split_and!; try done. by apply Hpt.
  - intros h Hl. destruct (Hcases h Hl) as [->|Hl']; [by rewrite Enew, Hfe|]. rewrite (proj2 (Hold h Hl')). rewrite (M6 h Hl'). split; [done|]. intros [= <-].
    destruct Hl' as (_ & Hval & _). cbn in Hval. congruence.
  - intros h [= <-]. split; [done|]. by rewrite Enew.
  - intros h Hl Hf. destruct (Hcases h Hl) as [->|Hl']; [rewrite Enew in Hf; congruence|]. rewrite (proj2 (Hold h Hl')) in Hf. destruct (M8 h Hl' Hf) as [?|[?|(q & Hq & Hn)]]; [by left|by right; left|].
    right. right. exists q. destruct (Hold q Hq) as [Hq' ->]. done.
Qed.

Lemma find_tail_spec line gone slot old next h : length old = length next -> find_tail line gone slot old next = Some h ->
  exists i, 0 <= i < zlen old /\ h = mkHandle (slot + i) (me_generation (slot_in old i)) /\ me_valid (slot_in old i) = true /\ me_line (slot_in old i) = line /\
    me_next (slot_in next i) = None /\ gone <> Some (slot + i).
Proof.
  revert slot next. unfold zlen. induction old as [|e old IH]; intros slot [|n next] Hlen H; cbn [find_tail length] in *; try done.
  destruct (negb (me_valid e) || (me_line e <>? line) || is_some (me_next n) || bool_decide (gone = Some slot)) eqn:E.
  - destruct (IH (slot + 1) next ltac:(lia) H) as (i & Hi & -> & Hv & Hl & Hn & Hg). exists (i + 1). unfold slot_in in *. replace (Z.to_nat (i + 1)) with (S (Z.to_nat i)) by lia.
    replace (slot + (i + 1)) with (slot + 1 + i) by lia. split; [lia|]. done.
  - injection H as <-. rewrite !orb_false_iff, !negb_false_iff, bool_decide_eq_false in E. destruct E as [[[Hv Hl%Z.eqb_eq] Hn] Hg]. exists 0. rewrite Z.add_0_r. split; [lia|].
    unfold slot_in. cbn. unfold id. split_and!; try done. change (me_next n = None). by destruct (me_next n).
Qed.

(** The tail an allocation may find: an entry that stays and is finalized, or the one
    released at this very edge. *)
Definition good_previous (m m' : cacheMSHR) (ev : mshrEvents) (line : Z) (p : mshrHandle) : Prop :=
  (live (ms_entries m') p /\ me_finalized (at_handle (ms_entries m') p) = true /\ me_next (at_handle (ms_entries m') p) = None /\ me_line (at_handle (ms_entries m') p) = line) \/
  (exists f, mv_finalize ev = Some f /\ fz_release f = true /\ fz_handle f = p /\ me_line (at_handle (ms_entries m) p) = line).

(** One edge of the table: it never fails, and keeps the invariant. *)
Lemma mshr_step_ok m roots open ev : mshr_wf m roots open -> events_ok m roots open ev ->
  exists m' r, mshr_step m ev = (m', Ok r) /\ zlen (ms_entries m') = zlen (ms_entries m) /\ free_ok m' /\ mshr_wf m' (roots_after roots ev) (open_after open ev r) /\
    ms_head m' = next_head m ev /\
    match mv_allocate ev, r with
    | Some a, Some r => first_free 0 (ms_entries m) = Some (mh_slot (ar_handle r)) /\ live (ms_entries m') (ar_handle r) /\
        ms_entries m' = update_slot_in (mh_slot (ar_handle r))
          (fun _ => mkMshrEntry true false (mh_generation (ar_handle r)) (line_of (wq_Address (al_request a))) (al_request a) (al_port a) None) (settled_slots m ev) /\
        (forall p, ar_previous r = Some p -> good_previous m m' ev (line_of (wq_Address (al_request a))) p)
    | None, None => ms_entries m' = settled_slots m ev
    | _, _ => False
    end.
Proof.
  intros Hm He. unfold mshr_step. rewrite (events_pass m roots open ev Hm He). pose proof (settled_size m ev) as Hsize.
  destruct (mv_allocate ev) as [a|] eqn:Ea.
  - destruct (eo_allocate _ _ _ _ He ltac:(congruence)) as ([Hr Hf] & Hs & Hopen & Hg & Hg0). destruct (first_free 0 (ms_entries m)) as [slot|] eqn:Eslot; [|done].
    apply first_free_some in Eslot as Hfree. destruct Hfree as [Hin Hinv]. cbn in Hf. rewrite Hf in Hg, Hg0.
    unfold allocate_slot. rewrite Hf. set (h := mkHandle _ _). set (e := mkMshrEntry true false _ _ _ _ _). set (prev := find_tail _ _ _ _ _).
    assert (in_table (settled_slots m ev) slot) as Hin' by (unfold in_table; by rewrite Hsize).
    assert (me_valid (slot_in (settled_slots m ev) slot) = false) as Hinv' by (rewrite (settled_at m roots open ev Hm He) by done; cbn; by rewrite Hinv).
    pose proof (settled_wf m roots open ev Hm He (ms_ready m) (ms_free m)) as Hw. assert (open_settled open ev = None) as Eo.
    { unfold open_settled. destruct Hopen as [->|Hx]; [by destruct (mv_finalize ev)|by destruct (mv_finalize ev)]. }
    rewrite Eo in Hw. set (next := update_slot_in slot (fun _ => e) (settled_slots m ev)).
    pose proof (allocate_wf _ _ slot e (is_some (first_free 0 next)) (default 0 (first_free 0 next)) Hw Hin' Hinv' eq_refl eq_refl eq_refl) as Hw'.
    cbn [ms_entries ms_head] in Hw'. fold next in Hw'. exists (mkMSHR next (is_some (first_free 0 next)) (default 0 (first_free 0 next)) (next_head m ev)), (Some (mkAllocationResult h prev)).
    assert (live next h) as Hlive by (apply (mw_open_live _ _ _ Hw' h); done).
    split; [done|]. split; [cbn; unfold next; by rewrite zlen_update|]. split; [done|]. split; [exact Hw'|]. split; [done|]. cbn [ar_handle ar_previous ms_entries]. split; [done|]. split; [done|].
    split; [done|]. intros p Hp. unfold prev in Hp. apply find_tail_spec in Hp as (i & Hi & -> & Hv & Hl & Hn & Hd); [|unfold zlen in Hsize; lia].
    rewrite Z.add_0_l in *. set (p := mkHandle i _). assert (live (ms_entries m) p) as Hlp by done. assert (i <> slot) as Hne by congruence.
    assert (live (settled_slots m ev) p \/ gone m ev p) as [Hls|Hgone].
    { destruct (gone_dec m ev p) as [|Hng]; [by right|left]. by apply (settled_live m roots open ev Hm He). }
    + left. cbn [ms_entries]. assert (at_handle next p = at_handle (settled_slots m ev) p) as E.
      { unfold next. rewrite slot_in_update by (done || apply Hls). cbn [mh_slot p]. by destruct (Z.eqb_spec slot i). }
      assert (live next p) as Hln by (destruct Hls as (H1 & H2 & H3); split; [unfold in_table, next; by rewrite zlen_update|]; by rewrite E).
      split; [done|]. rewrite E. destruct (settled_fields m roots open ev Hm He p Hlp) as (_ & El & _). split; [|split; [done|by rewrite El]].
      pose proof (mw_open _ _ _ Hw p Hls) as Hop. cbn [ms_entries] in Hop. destruct (me_finalized (at_handle (settled_slots m ev) p)); [done|]. discriminate (proj1 Hop eq_refl).
    + right. destruct Hgone as [[Hdq Hh]|(f & Ef & Er & Eh)]; [|by exists f]. exfalso. apply Hd. unfold dequeued. by rewrite Hdq, Hh.
  - eexists _, None. split; [done|]. cbn [ms_entries ms_head]. split; [done|]. split; [done|]. split; [|done]. apply (settled_wf m roots open ev Hm He).
Qed.

(** A fresh table has no chains. *)
Lemma fresh_mshr_wf size : mshr_wf (newCacheMSHR size) [] None.
Proof.
  assert (forall h, ~ live (ms_entries (newCacheMSHR size)) h) as Hn.
  { intros h (_ & Hv & _). unfold slot_in, newCacheMSHR in Hv. cbn [ms_entries] in Hv. destruct (replicate _ _ !! Z.to_nat (mh_slot h)) as [e|] eqn:E; [|done].
    apply lookup_replicate in E as [-> _]. done. }
  split; cbn [ms_head].
  - intros q h Hq. by destruct (Hn q).
  - intros q q' h Hq. by destruct (Hn q).
  - done.
  - constructor.
  - intros h Hin. by apply elem_of_nil in Hin.
  - intros h Hl. by destruct (Hn h).
  - done.
  - intros h Hl. by destruct (Hn h).
Qed.

(** ** The requests a miss table holds
    The requests of the valid entries, as a multiset: one edge of the table removes the
    replayed head and the released entry and adds the allocated request, nothing else. *)

(** A request and the port its response leaves by. *)
Notation ported := (WordRequest * Z)%type.

Definition entry_key (e : mshrEntry) : ported := (me_request e, me_port e).

Definition held (e : mshrEntry) : list ported := if me_valid e then [entry_key e] else [].

Definition live_requests (entries : list mshrEntry) : list ported := entries ≫= held.

Lemma live_requests_update slot f entries : in_table entries slot ->
  held (slot_in entries slot) ++ live_requests (update_slot_in slot f entries) ≡ₚ held (f (slot_in entries slot)) ++ live_requests entries.
Proof.
  unfold in_table, zlen, slot_in, update_slot_in, live_requests. intros Hs. set (i := Z.to_nat slot). assert (i < length entries)%nat as Hi by lia. clearbody i. clear Hs.
  revert i Hi. induction entries as [|e entries IH]; intros i Hi; [cbn in Hi; lia|]. destruct i as [|i]; cbn [lookup list_lookup default from_option alter list_alter].
  - rewrite !bind_cons. unfold id. solve_Permutation.
  - cbn [length] in Hi. specialize (IH i ltac:(lia)). rewrite !bind_cons. change (list_alter f i entries) with (alter f i entries). unfold lookup in IH.
    rewrite !(Permutation_app_swap_app _ (held e)). by rewrite IH.
Qed.

Lemma occupancy_requests m : mshr_occupancy m = zlen (live_requests (ms_entries m)).
Proof.
  unfold mshr_occupancy, live_requests, zlen. f_equal. induction (ms_entries m) as [|e entries IH]; [done|]. rewrite filter_cons, bind_cons, length_app, <- IH. unfold held.
  case_decide as E; [by rewrite E|]. by destruct (me_valid e).
Qed.

(** A table with an invalid entry holds fewer requests than slots, and the other way round. *)
Lemma first_free_full entries : first_free 0 entries = None -> length (live_requests entries) = length entries.
Proof.
  intros E. pose proof (first_free_spec 0 entries) as H. rewrite E in H. assert (Forall (fun e => me_valid e = true) entries) as Hall.
  { apply Forall_lookup. intros i e Hi. apply lookup_lt_Some in Hi as Hl. specialize (H (Z.of_nat i)). unfold in_table, zlen, slot_in in H. rewrite Nat2Z.id, Hi in H. apply H. lia. }
  clear -Hall. unfold live_requests. induction Hall as [|e entries He _ IH]; [done|]. rewrite bind_cons, length_app, IH. unfold held. by rewrite He.
Qed.

Lemma live_held entries h : live entries h -> held (at_handle entries h) = [entry_key (at_handle entries h)].
Proof. intros (_ & Hv & _). unfold held. by rewrite Hv. Qed.

Lemma live_in_requests entries h : live entries h -> entry_key (at_handle entries h) ∈ live_requests entries.
Proof.
  intros Hl. pose proof Hl as ((Hi & Hj) & _). unfold live_requests. apply list_elem_of_bind. exists (at_handle entries h). split; [rewrite (live_held _ _ Hl); by apply list_elem_of_singleton|].
  unfold slot_in, zlen in *. destruct (lookup_lt_is_Some_2 entries (Z.to_nat (mh_slot h)) ltac:(lia)) as [e E]. rewrite E. by eapply list_elem_of_lookup_2.
Qed.

Lemma no_live_requests entries h : live_requests entries = [] -> ~ live entries h.
Proof. intros E Hl. apply live_in_requests in Hl. rewrite E in Hl. by apply elem_of_nil in Hl. Qed.

(** The requests that leave and the request that enters at an edge. *)
Definition leaving (m : cacheMSHR) (ev : mshrEvents) : list ported :=
  (if mv_dequeue ev then match ms_head m with Some h => [entry_key (at_handle (ms_entries m) h)] | None => [] end else []) ++
  match mv_finalize ev with Some f => if fz_release f then [entry_key (at_handle (ms_entries m) (fz_handle f))] else [] | None => [] end.

Definition entering (ev : mshrEvents) : list ported := match mv_allocate ev with Some a => [(al_request a, al_port a)] | None => [] end.

Section Step.
Context (m : cacheMSHR) (roots : list mshrHandle) (open : option mshrHandle) (ev : mshrEvents).
Context (Hm : mshr_wf m roots open) (He : events_ok m roots open ev).

Lemma settled_requests : leaving m ev ++ live_requests (settled_slots m ev) ≡ₚ live_requests (ms_entries m).
Proof.
  set (first := match dequeued m ev with Some slot => update_slot_in slot (set_valid false) (ms_entries m) | None => ms_entries m end).
  assert (zlen first = zlen (ms_entries m)) as Hfl by (unfold first; destruct (dequeued m ev); rewrite ?zlen_update; done).
  assert ((if mv_dequeue ev then match ms_head m with Some h => [entry_key (at_handle (ms_entries m) h)] | None => [] end else []) ++ live_requests first ≡ₚ live_requests (ms_entries m)) as Hfirst.
  { unfold first, dequeued. destruct (mv_dequeue ev); [|done]. destruct (ms_head m) as [h|] eqn:Eh; cbn [fmap option_fmap option_map]; [|done].
    destruct (mw_head _ _ _ Hm h Eh) as (Hl & _). rewrite <- (live_held _ _ Hl). by rewrite (live_requests_update _ (set_valid false)) by apply Hl. }
  assert (match mv_finalize ev with Some f => if fz_release f then [entry_key (at_handle (ms_entries m) (fz_handle f))] else [] | None => [] end ++ live_requests (settled_slots m ev) ≡ₚ live_requests first) as Hfin.
  { unfold settled_slots. fold first. destruct (mv_finalize ev) as [f|] eqn:Ef; [|done]. destruct (eo_finalize _ _ _ _ He f Ef) as [Ho Hp]. destruct (mw_open_live _ _ _ Hm _ Ho) as [Hl _].
    assert (in_table first (mh_slot (fz_handle f))) as Hi by (unfold in_table; rewrite Hfl; apply Hl).
    assert (at_handle first (fz_handle f) = at_handle (ms_entries m) (fz_handle f)) as Ea.
    { unfold first, dequeued. destruct (mv_dequeue ev); [|done]. destruct (ms_head m) as [h|] eqn:Eh; cbn [fmap option_fmap option_map]; [|done].
      destruct (mw_head _ _ _ Hm h Eh) as (Hlh & Hfh & _). rewrite slot_in_update by (apply Hlh || apply Hl). destruct (Z.eqb_spec (mh_slot h) (mh_slot (fz_handle f))) as [E|]; [|done].
      apply (live_slot _ _ _ Hlh Hl) in E as ->. pose proof (proj2 (mw_open _ _ _ Hm _ Hl) Ho). congruence. }
    unfold finalize_slots. set (done_first := update_slot_in (mh_slot (fz_handle f)) (set_finalized true) first).
    assert (live_requests done_first ≡ₚ live_requests first) as Hd.
    { pose proof (live_requests_update _ (set_finalized true) first Hi) as Hu. fold done_first in Hu. by apply Permutation_app_inv_l in Hu. }
    assert (in_table done_first (mh_slot (fz_handle f))) as Hi' by (unfold in_table, done_first; by rewrite zlen_update).
    destruct (fz_release f) eqn:Er.
    - rewrite <- Hd. pose proof (live_requests_update _ (set_valid false) done_first Hi') as Hu. unfold done_first at 1 3 in Hu. rewrite slot_in_update, Z.eqb_refl, Ea in Hu by done.
      rewrite <- (live_held _ _ Hl). exact Hu.
    - cbn [app]. rewrite <- Hd. destruct (fz_previous f) as [p|] eqn:Ep; [|done]. destruct (Hp p eq_refl eq_refl) as (Lp & _).
      assert (in_table done_first (mh_slot p)) as Hip by (unfold in_table, done_first; rewrite zlen_update, Hfl; apply Lp).
      pose proof (live_requests_update _ (set_next_handle (Some (fz_handle f))) done_first Hip) as Hu. by apply Permutation_app_inv_l in Hu. }
  unfold leaving. rewrite <- Hfirst, <- Hfin. by rewrite <- app_assoc.
Qed.

(** One edge moves the requests it says it moves. *)
Lemma step_requests m' r : mshr_step m ev = (m', Ok r) -> leaving m ev ++ live_requests (ms_entries m') ≡ₚ entering ev ++ live_requests (ms_entries m).
Proof.
  intros Hs. destruct (mshr_step_ok m roots open ev Hm He) as (m1 & r1 & Hs1 & _ & _ & _ & _ & Hr). rewrite Hs1 in Hs. injection Hs as -> ->. rewrite <- settled_requests.
  unfold entering. destruct (mv_allocate ev) as [a|], r as [al|]; try done; [|by rewrite Hr]. destruct Hr as (Hfree & _ & -> & _). apply first_free_some in Hfree as [Hin Hinv].
  set (slot := mh_slot (ar_handle al)) in *. assert (in_table (settled_slots m ev) slot) as Hin' by (unfold in_table; by rewrite settled_size).
  pose proof (live_requests_update slot (fun _ => mkMshrEntry true false (mh_generation (ar_handle al)) (line_of (wq_Address (al_request a))) (al_request a) (al_port a) None) _ Hin') as Hu.
  assert (held (slot_in (settled_slots m ev) slot) = []) as E by (unfold held; rewrite (settled_at m roots open ev Hm He) by done; cbn; by rewrite Hinv).
  rewrite E in Hu. cbn [app] in Hu. rewrite Hu. unfold held. cbn [me_valid entry_key me_request me_port]. by rewrite Permutation_app_swap_app.
Qed.

(** *** The entries after an edge *)

Lemma live_iff entries h : live entries h <-> in_table entries (mh_slot h) /\ me_valid (at_handle entries h) = true /\ me_generation (at_handle entries h) = mh_generation h.
Proof. done. Qed.

(** What never changes in an entry while it is live. *)
Definition same_entry (e e' : mshrEntry) : Prop := me_line e' = me_line e /\ me_request e' = me_request e /\ me_port e' = me_port e.

Lemma step_stays m' r h : mshr_step m ev = (m', Ok r) -> live (ms_entries m) h -> ~ gone m ev h ->
  live (ms_entries m') h /\ same_entry (at_handle (ms_entries m) h) (at_handle (ms_entries m') h).
Proof.
  intros Hs Hl Hg. destruct (mshr_step_ok m roots open ev Hm He) as (m1 & r1 & Hs1 & Hsz & _ & _ & _ & Hr). rewrite Hs1 in Hs. injection Hs as -> ->.
  destruct (settled_fields m roots open ev Hm He h Hl) as (_ & E1 & E2 & E3 & _). pose proof (proj2 (settled_live m roots open ev Hm He h) (conj Hl Hg)) as Hls.
  destruct (mv_allocate ev) as [a|], r as [al|]; try done; [|by rewrite Hr]. destruct Hr as (Hfree & _ & Em & _). apply first_free_some in Hfree as [Hin Hinv].
  assert (mh_slot (ar_handle al) <> mh_slot h) as Hne by (intros E; destruct Hl as (_ & Hv & _); rewrite <- E in Hv; congruence).
  assert (at_handle (ms_entries m') h = at_handle (settled_slots m ev) h) as E.
  { rewrite Em, slot_in_update; [|unfold in_table; rewrite settled_size; apply Hin|apply Hls]. by destruct (Z.eqb_spec (mh_slot (ar_handle al)) (mh_slot h)). }
  rewrite live_iff, E. split; [|done]. destruct Hls as (Hi & Hv & Hgen). split; [|done]. unfold in_table in *. rewrite Em, zlen_update. done.
Qed.

Lemma step_live m' r h : mshr_step m ev = (m', Ok r) -> live (ms_entries m') h ->
  (live (ms_entries m) h /\ ~ gone m ev h /\ same_entry (at_handle (ms_entries m) h) (at_handle (ms_entries m') h)) \/
  (exists a al, mv_allocate ev = Some a /\ r = Some al /\ h = ar_handle al /\
     at_handle (ms_entries m') h = mkMshrEntry true false (mh_generation h) (line_of (wq_Address (al_request a))) (al_request a) (al_port a) None).
Proof.
  intros Hs Hl. destruct (mshr_step_ok m roots open ev Hm He) as (m1 & r1 & Hs1 & Hsz & _ & _ & _ & Hr). rewrite Hs1 in Hs. injection Hs as -> ->.
  assert (live (settled_slots m ev) h -> at_handle (ms_entries m') h = at_handle (settled_slots m ev) h ->
    live (ms_entries m) h /\ ~ gone m ev h /\ same_entry (at_handle (ms_entries m) h) (at_handle (ms_entries m') h)) as Hold.
  { intros [Hl' Hg]%(settled_live m roots open ev Hm He) E. split; [done|]. split; [done|]. unfold same_entry. rewrite E.
    by destruct (settled_fields m roots open ev Hm He h Hl') as (_ & E1 & E2 & E3 & _). }
  destruct (mv_allocate ev) as [a|], r as [al|]; try done; [|left; apply Hold; rewrite <- Hr; done]. destruct Hr as (Hfree & Hlive & Em & _). apply first_free_some in Hfree as [Hin Hinv].
  destruct (decide (mh_slot h = mh_slot (ar_handle al))) as [E|Hne].
  - right. exists a, al. apply (live_slot _ _ _ Hl Hlive) in E as ->. split_and!; [done..|]. rewrite Em, slot_in_update, Z.eqb_refl; [done|unfold in_table; rewrite settled_size; apply Hin..].
  - left. assert (in_table (settled_slots m ev) (mh_slot h)) as Hi by (unfold in_table; rewrite settled_size, <- Hsz; apply Hl).
    assert (at_handle (ms_entries m') h = at_handle (settled_slots m ev) h) as E.
    { rewrite Em, slot_in_update; [|unfold in_table; rewrite settled_size; apply Hin|done]. by destruct (Z.eqb_spec (mh_slot (ar_handle al)) (mh_slot h)). }
    apply Hold; [|done]. apply live_iff. rewrite <- E. split; [done|apply Hl].
Qed.

(** Generations only grow, by one at a time. *)
Lemma step_generation m' r bound : mshr_step m ev = (m', Ok r) -> bound < 2 ^ 64 - 1 ->
  (forall i, in_table (ms_entries m) i -> 0 <= me_generation (slot_in (ms_entries m) i) <= bound) ->
  forall i, in_table (ms_entries m') i -> 0 <= me_generation (slot_in (ms_entries m') i) <= bound + 1.
Proof.
  intros Hs Hb Hgen i Hi. destruct (mshr_step_ok m roots open ev Hm He) as (m1 & r1 & Hs1 & Hsz & _ & _ & _ & Hr). rewrite Hs1 in Hs. injection Hs as -> ->.
  assert (in_table (ms_entries m) i) as Hi' by (unfold in_table in *; lia). pose proof (Hgen i Hi') as Hg.
  assert (me_generation (slot_in (settled_slots m ev) i) = me_generation (slot_in (ms_entries m) i)) as E by (by rewrite (settled_at m roots open ev Hm He)).
  assert (me_generation (slot_in (ms_entries m') i) = me_generation (slot_in (ms_entries m) i) \/
    exists al, r = Some al /\ i = mh_slot (ar_handle al) /\ me_generation (slot_in (ms_entries m') i) = mh_generation (ar_handle al)) as [->|(al & -> & -> & ->)]; [|lia|].
  { destruct (mv_allocate ev) as [a|], r as [al|]; try done; [|left; by rewrite Hr]. destruct Hr as (Hfree & Hlive & Em & _). apply first_free_some in Hfree as [Hin Hinv].
    destruct (decide (i = mh_slot (ar_handle al))) as [->|Hne]; [right; exists al; split_and!; [done..|]; apply Hlive|left].
    rewrite Em, slot_in_update; [|unfold in_table; rewrite settled_size; apply Hin|unfold in_table; rewrite settled_size; apply Hi']. by destruct (Z.eqb_spec (mh_slot (ar_handle al)) i). }
  clear E. destruct (mv_allocate ev) as [a|] eqn:Ea; [|done]. unfold mshr_step in Hs1. rewrite (events_pass m roots open ev Hm He), Ea in Hs1. cbn in Hs1. injection Hs1 as _ E.
  destruct (eo_allocate _ _ _ _ He ltac:(congruence)) as ([_ Hf] & _ & _ & Hg1 & Hg0). rewrite <- E in *. cbn [ar_handle mh_slot mh_generation] in *.
  rewrite u64_id by (unfold is_u64; lia). lia.
Qed.

(** The entry an allocation makes. *)
Lemma step_new m' r : mshr_step m ev = (m', Ok (Some r)) -> exists a, mv_allocate ev = Some a /\ live (ms_entries m') (ar_handle r) /\
  at_handle (ms_entries m') (ar_handle r) = mkMshrEntry true false (mh_generation (ar_handle r)) (line_of (wq_Address (al_request a))) (al_request a) (al_port a) None /\
  forall q, ar_previous r = Some q -> good_previous m m' ev (line_of (wq_Address (al_request a))) q.
Proof.
  intros Hs. destruct (mshr_step_ok m roots open ev Hm He) as (m1 & r1 & Hs1 & Hsz & _ & _ & _ & Hr). rewrite Hs1 in Hs. injection Hs as -> ->.
  destruct (mv_allocate ev) as [a|]; [|done]. destruct Hr as (Hfree & Hlive & Em & Hprev). apply first_free_some in Hfree as [Hin _]. exists a. split; [done|]. split; [done|]. split; [|done].
  rewrite Em, slot_in_update, Z.eqb_refl; [done|unfold in_table; rewrite settled_size; apply Hin..].
Qed.
End Step.
