(* ===== verification/CacheBank.v ===== *)
(** * One cache bank (src/timing/memsys/cache_bank.go)

    A bank arbitrates replays, fills, the flush walk and core requests into two pipeline
    registers [s0] and [s1] over its array, its MSHR and its two output queues.  [step]
    is one clock edge; an error after the MSHR has stepped leaves the bank as far as the
    code has changed it. *)

From S2P Require Import Prelude Memory TimingIR Memsys CacheArray Mshr.

#[local] Open Scope Z_scope.
#[local] Open Scope go_scope.

Inductive bankKind := bankCore | bankReplay | bankFillOp | bankInit | bankFlush.

#[export] Instance bankKind_eq_dec : EqDecision bankKind. Proof. solve_decision. Defined.

Record bankFill := mkBankFill { bf_handle : mshrHandle; bf_data : list Z; bf_err : option error }.

Definition no_fill : bankFill := mkBankFill no_handle zero_sector None.

Record bankOperation := mkBankOperation {
  bo_kind : bankKind;
  bo_request : WordRequest;
  bo_port : Z;
  bo_set : Z;
  bo_way : Z;
  bo_handle : mshrHandle;
  bo_fill : bankFill
}.

Record bankCommit := mkBankCommit {
  bc_op : bankOperation;
  bc_hit : bool;
  bc_allocation : option mshrAllocationResult;
  bc_reply : WordResponse;
  bc_victim : eviction
}.

Record bankMemoryRequest := mkBankMemoryRequest {
  bm_address : Z;
  bm_write : bool;
  bm_data : list Z;
  bm_handle : mshrHandle;
  bm_identity : Identity
}.

Record bankResponse := mkBankResponse { br_port : Z; br_response : WordResponse }.

Record bankInput := mkBankInput {
  bi_request : WordOffer;
  bi_port : Z;
  bi_responseReady : bool;
  bi_memoryReady : bool;
  bi_fill : option bankFill;
  bi_flushBegin : bool
}.

Record bankEdge := mkBankEdge {
  be_accepted : bool;
  be_fillAccepted : bool;
  be_response : option bankResponse;
  be_responseDelivered : bool;
  be_memory : option bankMemoryRequest;
  be_memoryAccepted : bool;
  be_storeApplied : option WordRequest;
  be_storePort : Z;
  be_storeError : option error;
  be_flushDone : bool
}.

Inductive bankFlushState := flushIdle | flushWait | flushWalk | flushDrain | flushDone.

#[export] Instance bankFlushState_eq_dec : EqDecision bankFlushState. Proof. solve_decision. Defined.

Record cacheBank := mkCacheBank {
  cb_spec : CacheSpec;
  cb_bank : Z;
  cb_array : cacheArray;
  cb_mshr : cacheMSHR;
  cb_reserved : Z;
  cb_s0 : option bankOperation;
  cb_s1 : option bankCommit;
  cb_responses : list bankResponse;
  cb_memory : list bankMemoryRequest;
  cb_initNext : Z;
  cb_flushing : bankFlushState;
  cb_flushIndex : Z;
  cb_forwarding : bool;
  cb_forwarded : bankFill
}.

Definition newCacheBank (s : CacheSpec) (bank : Z) : cacheBank :=
  mkCacheBank s bank (newCacheArray s bank) (newCacheMSHR (sp_MSHR s)) 0 None None [] [] 0 flushIdle 0 false no_fill.

Definition bank_empty (b : cacheBank) : bool := negb (is_some (cb_s0 b)) && negb (is_some (cb_s1 b)) && is_empty (cb_memory b).

Definition bank_drained (b : cacheBank) : bool :=
  (cb_initNext b =? sp_Sets (cb_spec b)) && bool_decide (cb_flushing b = flushIdle) && bank_empty b && (cb_reserved b =? 0) && is_empty (cb_responses b).

Definition requestValid (b : cacheBank) (r : WordRequest) : result unit :=
  check negb ((wq_Address r mod sp_WordBytes (cb_spec b) <>? 0) || (da_bank (DecodeAddress (cb_spec b) (wq_Address r)) <>? cb_bank b) ||
              (wq_ByteEnable r >> sp_WordBytes (cb_spec b) <>? 0)) else Errorf "invalid cache word address/bank/byte enable" in
  check negb (wq_Write r && negb (sp_Writeback (cb_spec b))) else Errorf "store to instruction cache" in Ok tt.

Definition bank_check (b : cacheBank) (i : bankInput) : result unit :=
  let? _ := match bi_request i with
    | Some r => let? _ := requestValid b r in
                check negb ((bi_port i <? 0) || (bi_port i >=? sp_CorePorts (cb_spec b))) else Errorf "invalid cache port" in Ok tt
    | None => Ok tt
    end in
  check negb (bi_flushBegin i && negb (bool_decide (cb_flushing b = flushIdle))) else Errorf "duplicate bank flush" in
  match bi_fill i with
  | Some f => let? e := mshr_entry (cb_mshr b) (bf_handle f) in check me_finalized e else Errorf "fill for unfinalized miss" in Ok tt
  | None => Ok tt
  end.

(** ** The commit register *)

Definition is_core (op : bankOperation) : bool := bool_decide (bo_kind op = bankCore).
Definition is_access (op : bankOperation) : bool := bool_decide (bo_kind op = bankCore) || bool_decide (bo_kind op = bankReplay).

(** A first miss on a line: nothing before it in the line's chain.  A core operation
    always carries its allocation. *)
Definition first_miss (c : bankCommit) : bool :=
  is_core (bc_op c) && negb (bc_hit c) && negb (is_some (bc_allocation c ≫= ar_previous)).

Definition commits_read (c : bankCommit) : bool := is_access (bc_op c) && negb (wq_Write (bo_request (bc_op c))) && bc_hit c.
Definition commits_memory (c : bankCommit) : bool := ev_Valid (bc_victim c) || first_miss c.

Definition allocated_handle (c : bankCommit) : mshrHandle := match bc_allocation c with Some a => ar_handle a | None => no_handle end.

(** What the commit register does when it is not stalled. *)
Definition commit_finalize (c : bankCommit) : option mshrFinalization :=
  if is_core (bc_op c) then Some (mkFinalization (allocated_handle c) (bc_hit c) (bc_allocation c ≫= ar_previous)) else None.

Definition commit_response (c : bankCommit) : option bankResponse :=
  if commits_read c then Some (mkBankResponse (bo_port (bc_op c)) (bc_reply c)) else None.

Definition commit_memory (c : bankCommit) : option bankMemoryRequest :=
  if ev_Valid (bc_victim c) then Some (mkBankMemoryRequest (ev_Address (bc_victim c)) true (ev_Data (bc_victim c)) no_handle (wq_Identity (bo_request (bc_op c))))
  else if first_miss c then Some (mkBankMemoryRequest (line_of (wq_Address (bo_request (bc_op c)))) false zero_sector (allocated_handle c) (wq_Identity (bo_request (bc_op c))))
  else None.

Definition commit_store (c : bankCommit) : option bankCommit :=
  if is_access (bc_op c) && wq_Write (bo_request (bc_op c)) && bc_hit c then Some c else None.

(** ** Forwarding the fill to waiting reads *)

Definition forward_response (s : CacheSpec) (fill : bankFill) (e : mshrEntry) : bankResponse :=
  let offset := wq_Address (me_request e) mod SectorBytes in
  let data := match bf_err fill with
    | Some _ => zero_word
    | None => splice zero_word 0 (slice (bf_data fill) (Z.to_nat offset) (Z.to_nat (sp_WordBytes s)))
    end in
  mkBankResponse (me_port e) (mkWordResponse (wq_Identity (me_request e)) (wq_Tag (me_request e)) data (full_enable s) (bf_err fill)).

(** ** Choosing the next operation *)

(** What enters the first register, and what the choice says to the outside. *)
Record selection := mkSelection { se_op : option bankOperation; se_dequeue : bool; se_fill : bool; se_accept : bool }.

Definition no_selection : selection := mkSelection None false false false.

Definition plain_op (kind : bankKind) (set way : Z) : bankOperation := mkBankOperation kind no_word 0 set way no_handle no_fill.

Definition select_operation (b : cacheBank) (i : bankInput) (stalled forwardHead : bool) (replay : option (mshrHandle * mshrEntry)) : selection :=
  let s := cb_spec b in
  let almostFull := zlen (cb_memory b) >=? bs_Size (sp_MemoryRequest s) - sp_Latency s in
  if cb_initNext b <? sp_Sets s then mkSelection (if stalled then None else Some (plain_op bankInit (cb_initNext b) 0)) false false false
  else if stalled then no_selection
  else
    let others :=
      if bool_decide (cb_flushing b = flushWalk) && (negb (sp_Writeback s) || negb almostFull)
      then mkSelection (Some (plain_op bankFlush (cb_flushIndex b mod sp_Sets s) (cb_flushIndex b / sp_Sets s))) false false false
      else
        match bi_request i with
        | Some r =>
            if bool_decide (cb_flushing b = flushIdle) && negb (bi_flushBegin i) && negb almostFull && (cb_reserved b <? sp_MSHR s)
            then mkSelection (Some (mkBankOperation bankCore r (bi_port i) 0 0 no_handle no_fill)) false false true
            else no_selection
        | None => no_selection
        end in
    let fills :=
      match bi_fill i with
      | Some f =>
          if negb (cb_forwarding b && is_some replay) && (negb (sp_Writeback s) || negb almostFull)
          then mkSelection (Some (mkBankOperation bankFillOp no_word 0 0 0 (bf_handle f) f)) false true false
          else others
      | None => others
      end in
    match replay with
    | Some (h, e) =>
        if negb forwardHead then mkSelection (Some (mkBankOperation bankReplay (me_request e) (me_port e) 0 0 h (cb_forwarded b))) true false false else fills
    | None => fills
    end.

(** ** The array access of the first register *)

(** One flush operation: the selected way of a write-back array, all ways otherwise. *)
Definition flush_access (s : CacheSpec) (a : cacheArray) (op : bankOperation) : cacheArray * eviction :=
  if sp_Writeback s then flushWay (bo_set op) (bo_way op) a
  else (fold_left (fun a (way : nat) => (flushWay (bo_set op) (Z.of_nat way) a).1) (seq 0 (Z.to_nat (sp_Ways s))) a, no_eviction).

Definition failed_replay (s : CacheSpec) (op : bankOperation) : WordResponse :=
  mkWordResponse (wq_Identity (bo_request op)) (wq_Tag (bo_request op)) zero_word (full_enable s) (bf_err (bo_fill op)).

Definition array_access (s : CacheSpec) (a : cacheArray) (op : bankOperation) (allocation : option mshrAllocationResult) : cacheArray * result bankCommit :=
  let commit hit reply victim := mkBankCommit op hit allocation reply victim in
  match bo_kind op with
  | bankInit => (initSet (bo_set op) a, Ok (commit false no_word_response no_eviction))
  | bankCore | bankReplay =>
      let replaying := bool_decide (bo_kind op = bankReplay) in
      if replaying && is_some (bf_err (bo_fill op)) then (a, Ok (commit true (failed_replay s op) no_eviction))
      else if wq_Write (bo_request op) then
        match array_write a (bo_request op) with
        | (a, Err e) => (a, Err e)
        | (a, Ok hit) => (a, check negb (replaying && negb hit) else Errorf "cache replay missed" in Ok (commit hit no_word_response no_eviction))
        end
      else
        match array_read a (bo_request op) with
        | Err e => (a, Err e)
        | Ok (reply, hit) => (a, check negb (replaying && negb hit) else Errorf "cache replay missed" in Ok (commit hit reply no_eviction))
        end
  | bankFillOp =>
      match bf_err (bo_fill op) with
      | Some _ => (a, Ok (commit false no_word_response no_eviction))
      | None =>
          match array_fill a (wq_Address (bo_request op)) (bf_data (bo_fill op)) with
          | (a, Err e) => (a, Err e)
          | (a, Ok old) => (a, Ok (commit false no_word_response old))
          end
      end
  | bankFlush => let '(a, old) := flush_access s a op in (a, Ok (commit false no_word_response old))
  end.

(** A selected fill takes its address from its MSHR entry. *)
Definition fill_target (m : cacheMSHR) (op : bankOperation) : result bankOperation :=
  if negb (bool_decide (bo_kind op = bankFillOp)) then Ok op
  else
    let? e := mshr_entry m (bo_handle op) in
    Ok (mkBankOperation (bo_kind op) (mkWordRequest (wq_Identity (me_request e)) 0 (me_line e) false false false 0 zero_word) (bo_port op) (bo_set op) (bo_way op)
          (bo_handle op) (bo_fill op)).

(** ** The flush machine *)

Definition flush_count (s : CacheSpec) : Z := if sp_Writeback s then sp_Sets s * sp_Ways s else sp_Sets s.

Definition selected_kind (o : option bankOperation) (kind : bankKind) : bool := match o with Some op => bool_decide (bo_kind op = kind) | None => false end.

(** The flush state and index after the edge; the predicates are those of the old edge. *)
Definition next_flush (b : cacheBank) (i : bankInput) (selected : option bankOperation) (initNext : Z) (bankEmpty mshrEmpty : bool) : bankFlushState * Z :=
  let s := cb_spec b in
  let '(state, index) := match cb_flushing b with
    | flushWait => if (initNext =? sp_Sets s) && mshrEmpty && bankEmpty then (flushWalk, 0) else (flushWait, cb_flushIndex b)
    | flushWalk =>
        if selected_kind selected bankFlush then
          let index := cb_flushIndex b + 1 in
          (if index =? flush_count s then (if cb_bank b =? 0 then flushDone else flushDrain) else flushWalk, index)
        else (flushWalk, cb_flushIndex b)
    | flushDrain => (if bankEmpty then flushDone else flushDrain, cb_flushIndex b)
    | flushDone => (flushIdle, cb_flushIndex b)
    | flushIdle => (flushIdle, cb_flushIndex b)
    end in
  let state := if bi_flushBegin i then flushWait else state in
  (if selected_kind selected bankInit && (initNext =? sp_Sets s) && bool_decide (state = flushWait) then flushDone else state, index).

(** ** One edge *)

(** Everything decided from the old state. *)
Record bankPlan := mkBankPlan {
  pl_stalled : bool;
  pl_replay : option (mshrHandle * mshrEntry);
  pl_selection : selection;
  pl_events : mshrEvents;
  pl_response : option bankResponse;
  pl_memory : option bankMemoryRequest;
  pl_store : option bankCommit
}.

Definition bank_plan (b : cacheBank) (i : bankInput) (replay : option (mshrHandle * mshrEntry)) : bankPlan :=
  let s := cb_spec b in
  let rspSpace := zlen (cb_responses b) <? bs_Size (sp_CoreResponse s) in
  let memSpace := zlen (cb_memory b) <? bs_Size (sp_MemoryRequest s) in
  let commitRead := match cb_s1 b with Some c => commits_read c | None => false end in
  let commitMemory := match cb_s1 b with Some c => commits_memory c | None => false end in
  let stalled := (commitRead && negb rspSpace) || (commitMemory && negb memSpace) in
  let active := if stalled then None else cb_s1 b in
  let forwardHead := match replay with Some (_, e) => cb_forwarding b && negb (wq_Write (me_request e)) && negb commitRead && negb stalled | None => false end in
  let forwarded := match replay with Some (_, e) => if forwardHead && rspSpace then Some (forward_response s (cb_forwarded b) e) else None | None => None end in
  let selection := select_operation b i stalled forwardHead replay in
  let allocate := match cb_s0 b with Some op => if negb stalled && is_core op then Some (mkAllocation (bo_request op) (bo_port op)) else None | None => None end in
  mkBankPlan stalled replay selection
    (mkMshrEvents allocate (active ≫= commit_finalize)
       (if se_fill selection then bf_handle <$> bi_fill i else None) (is_some forwarded || se_dequeue selection))
    (match forwarded with Some r => Some r | None => active ≫= commit_response end)
    (active ≫= commit_memory) (active ≫= commit_store).

(** The observations of the edge. *)
Definition bank_edge (b : cacheBank) (i : bankInput) (p : bankPlan) : bankEdge :=
  let response := head (cb_responses b) in
  let memory := head (cb_memory b) in
  mkBankEdge (se_accept (pl_selection p)) (se_fill (pl_selection p)) response (is_some response && bi_responseReady i) memory (is_some memory && bi_memoryReady i)
    (bo_request ∘ bc_op <$> pl_store p) (match pl_store p with Some c => bo_port (bc_op c) | None => 0 end)
    (match pl_store p with Some c => wr_Err (bc_reply c) | None => None end) (bool_decide (cb_flushing b = flushDone)).

(** The queues and the reservation count. *)
Definition settle_queues (b : cacheBank) (i : bankInput) (p : bankPlan) (m : cacheMSHR) : cacheBank :=
  let edge := bank_edge b i p in
  let push {A} (o : option A) := match o with Some x => [x] | None => [] end in
  mkCacheBank (cb_spec b) (cb_bank b) (cb_array b) m
    (cb_reserved b + (if be_accepted edge then 1 else 0) - (if mv_dequeue (pl_events p) then 1 else 0) -
     (match mv_finalize (pl_events p) with Some f => if fz_release f then 1 else 0 | None => 0 end))
    (cb_s0 b) (cb_s1 b)
    ((if be_responseDelivered edge then tail (cb_responses b) else cb_responses b) ++ push (pl_response p))
    ((if be_memoryAccepted edge then tail (cb_memory b) else cb_memory b) ++ push (pl_memory p))
    (cb_initNext b) (cb_flushing b) (cb_flushIndex b) (cb_forwarding b) (cb_forwarded b).

Definition set_array (a : cacheArray) (b : cacheBank) : cacheBank :=
  mkCacheBank (cb_spec b) (cb_bank b) a (cb_mshr b) (cb_reserved b) (cb_s0 b) (cb_s1 b) (cb_responses b) (cb_memory b) (cb_initNext b) (cb_flushing b)
    (cb_flushIndex b) (cb_forwarding b) (cb_forwarded b).
Definition set_stages (s0 : option bankOperation) (s1 : option bankCommit) (b : cacheBank) : cacheBank :=
  mkCacheBank (cb_spec b) (cb_bank b) (cb_array b) (cb_mshr b) (cb_reserved b) s0 s1 (cb_responses b) (cb_memory b) (cb_initNext b) (cb_flushing b)
    (cb_flushIndex b) (cb_forwarding b) (cb_forwarded b).
Definition set_control (initNext : Z) (flushing : bankFlushState) (flushIndex : Z) (forwarding : bool) (forwarded : bankFill) (b : cacheBank) : cacheBank :=
  mkCacheBank (cb_spec b) (cb_bank b) (cb_array b) (cb_mshr b) (cb_reserved b) (cb_s0 b) (cb_s1 b) (cb_responses b) (cb_memory b) initNext flushing
    flushIndex forwarding forwarded.

(** The pipeline registers move unless the commit is stalled. *)
Definition advance_stages (b : cacheBank) (p : bankPlan) (allocation : option mshrAllocationResult) : cacheBank * result unit :=
  if pl_stalled p then (b, Ok tt)
  else
    let '(b, r) := match cb_s0 b with
      | None => (b, Ok None)
      | Some op => let '(a, r) := array_access (cb_spec b) (cb_array b) op allocation in
                   (set_array a b, let? c := r in Ok (Some c))
      end in
    match r with
    | Err e => (b, Err e)
    | Ok s1 =>
        match match se_op (pl_selection p) with Some op => let? op := fill_target (cb_mshr b) op in Ok (Some op) | None => Ok None end with
        | Err e => (set_stages (cb_s0 b) s1 b, Err e)
        | Ok s0 => (set_stages s0 s1 b, Ok tt)
        end
    end.

Definition bank_control (old : cacheBank) (i : bankInput) (p : bankPlan) (b : cacheBank) : cacheBank :=
  let selected := se_op (pl_selection p) in
  let consumed := match pl_replay p with Some (_, e) => cb_forwarding old && wq_Write (me_request e) | None => false end in
  let forwarding := if consumed then false else cb_forwarding old in
  let '(forwarding, forwarded) := match bi_fill i with
    | Some f => if se_fill (pl_selection p) then (true, f) else (forwarding, cb_forwarded old)
    | None => (forwarding, cb_forwarded old)
    end in
  let initNext := cb_initNext old + (if selected_kind selected bankInit then 1 else 0) in
  let '(state, index) := next_flush old i selected initNext (bank_empty old) (cb_reserved old =? 0) in
  set_control initNext state index forwarding forwarded b.

Definition bank_step (b : cacheBank) (i : bankInput) : cacheBank * result bankEdge :=
  match bank_check b i with
  | Err e => (b, Err e)
  | Ok _ =>
      match mshr_replay (cb_mshr b) with
      | Err e => (b, Err e)
      | Ok replay =>
          let p := bank_plan b i replay in
          match mshr_step (cb_mshr b) (pl_events p) with
          | (_, Err e) => (b, Err e)
          | (m, Ok allocation) =>
              match advance_stages (settle_queues b i p m) p allocation with
              | (b', Err e) => (b', Err e)
              | (b', Ok _) => (bank_control b i p b', Ok (bank_edge b i p))
              end
          end
      end
  end.
