(* ===== verification/CacheBankInvariant.v ===== *)
(** * The invariant of a cache bank

    What holds between the edges of a bank whose memory answers the reads it was sent,
    and that one legal edge neither fails nor breaks it.  [sent] are the handles of the
    memory reads that have been delivered and not answered. *)

From S2P Require Import Prelude Memory TimingIR Memsys CacheArray CacheArraySpec Mshr MshrSpec CacheBank.

#[local] Open Scope Z_scope.
#[local] Open Scope go_scope.

(** ** Legal requests and inputs *)

Record legal (s : CacheSpec) (bank : Z) (r : WordRequest) : Prop := {
  lg_address : is_u32 (wq_Address r);
  lg_aligned : wq_Address r mod sp_WordBytes s = 0;
  lg_bank : da_bank (DecodeAddress s (wq_Address r)) = bank;
  lg_enable : wq_ByteEnable r >> sp_WordBytes s = 0;
  lg_store : wq_Write r = true -> sp_Writeback s = true
}.

Lemma requestValid_legal b r : is_u32 (wq_Address r) -> requestValid b r = Ok tt <-> legal (cb_spec b) (cb_bank b) r.
Proof.
  intros Hx. unfold requestValid. split.
  - case_match eqn:E1; [|done]. case_match eqn:E2; [|done]. intros _. rewrite negb_true_iff, !orb_false_iff, !negb_false_iff, !Z.eqb_eq in E1.
    split; try apply E1; [done|]. intros Ew. rewrite Ew in E2. cbn in E2. apply negb_true_iff in E2. by destruct (sp_Writeback (cb_spec b)).
  - intros [_ H1 H2 H3 H4]. rewrite H1, H2, H3, !Z.eqb_refl. cbn [negb orb]. destruct (wq_Write r); [by rewrite H4|done].
Qed.

Definition port_ok (s : CacheSpec) (port : Z) : Prop := 0 <= port < sp_CorePorts s.

(** The reads in the memory queue, in order. *)
Definition read_handles (mem : list bankMemoryRequest) : list mshrHandle := map bm_handle (filter (fun r => bm_write r = false) mem).

Record input_ok (b : cacheBank) (sent : list mshrHandle) (i : bankInput) : Prop := {
  io_request : forall r, bi_request i = Some r -> legal (cb_spec b) (cb_bank b) r /\ port_ok (cb_spec b) (bi_port i);
  io_fill : forall f, bi_fill i = Some f -> bf_handle f ∈ sent /\ zlen (bf_data f) = 64;
  io_flush : bi_flushBegin i = true -> cb_flushing b = flushIdle
}.

(** The handles the memory has to answer after an edge. *)
Definition sent_after (sent : list mshrHandle) (i : bankInput) (e : bankEdge) : list mshrHandle :=
  (match bi_fill i with Some f => if be_fillAccepted e then filter (fun h => h <> bf_handle f) sent else sent | None => sent end) ++
  match be_memory e with Some r => if be_memoryAccepted e && negb (bm_write r) then [bm_handle r] else [] | None => [] end.

(** ** The invariant *)

(** The line of a [.&^ 63] address. *)
Lemma line_of_div x : 0 <= x -> line_of x / 64 = x / 64 /\ line_of x = 64 * (x / 64).
Proof.
  intros Hx. unfold line_of. change 63 with (Z.ones 6). rewrite Z.ldiff_ones_r by lia. rewrite Z.shiftl_mul_pow2, Z.shiftr_div_pow2 by lia. change (2 ^ 6) with 64.
  rewrite Z.div_mul by lia. lia.
Qed.

Lemma line_of_u32 x : is_u32 x -> is_u32 (line_of x).
Proof. intros Hx. unfold is_u32 in *. destruct (line_of_div x ltac:(lia)) as [_ ->]. pose proof (Z.div_mod x 64 ltac:(lia)). pose proof (Z.mod_pos_bound x 64 ltac:(lia)). pose proof (Z.div_pos x 64). lia. Qed.

Definition same_block (x y : Z) : Prop := x / 64 = y / 64.

Lemma same_line_of x y : is_u32 x -> is_u32 y -> line_of x = line_of y -> same_block x y.
Proof. intros Hx Hy E. unfold is_u32 in *. destruct (line_of_div x ltac:(lia)) as [_ E1]. destruct (line_of_div y ltac:(lia)) as [_ E2]. unfold same_block. lia. Qed.

Definition core_in (s0 : option bankOperation) : bool := selected_kind s0 bankCore.

(** The handle allocated for the operation in the commit register. *)
Definition open_handle (s1 : option bankCommit) : option mshrHandle :=
  match s1 with Some c => if is_core (bc_op c) then Some (allocated_handle c) else None | None => None end.

Section Invariant.
Context (b : cacheBank) (sent : list mshrHandle) (clock : Z).

Notation s := (cb_spec b).
Notation entries := (ms_entries (cb_mshr b)).

(** What the operation in the first register may rely on. *)
Definition op_ok (op : bankOperation) : Prop :=
  match bo_kind op with
  | bankCore => legal s (cb_bank b) (bo_request op) /\ port_ok s (bo_port op)
  | bankReplay => legal s (cb_bank b) (bo_request op) /\ port_ok s (bo_port op) /\ (bf_err (bo_fill op) = None -> resident s (cb_array b) (wq_Address (bo_request op)) = true)
  | bankFillOp => in_bank s (cb_bank b) (wq_Address (bo_request op)) /\ zlen (bf_data (bo_fill op)) = 64
  | bankInit => 0 <= bo_set op < sp_Sets s /\ cb_reserved b = 0
  | bankFlush => 0 <= bo_set op < sp_Sets s /\ (sp_Writeback s = true -> place s (bo_set op) (bo_way op)) /\ cb_reserved b = 0
  end.

(** The response of a read is the request's. *)
Definition reply_ok (c : bankCommit) : Prop :=
  wq_Write (bo_request (bc_op c)) = false -> wr_Identity (bc_reply c) = wq_Identity (bo_request (bc_op c)) /\ wr_Tag (bc_reply c) = wq_Tag (bo_request (bc_op c)).

Definition commit_ok (c : bankCommit) : Prop :=
  match bo_kind (bc_op c) with
  | bankCore => exists al, bc_allocation c = Some al /\ ev_Valid (bc_victim c) = false /\ reply_ok c /\
      entry_key (at_handle entries (ar_handle al)) = (bo_request (bc_op c), bo_port (bc_op c)) /\
      (bc_hit c = true -> resident s (cb_array b) (wq_Address (bo_request (bc_op c))) = true) /\
      (bc_hit c = false -> forall p, ar_previous al = Some p ->
         live entries p /\ me_finalized (at_handle entries p) = true /\ me_next (at_handle entries p) = None /\
         me_line (at_handle entries p) = me_line (at_handle entries (ar_handle al)))
  | bankReplay => bc_hit c = true /\ ev_Valid (bc_victim c) = false /\ reply_ok c
  | _ => True
  end.

(** While a chain replays, its line is resident, or its fill is in the first register. *)
Definition head_ok (h : mshrHandle) : Prop := bf_err (cb_forwarded b) = None ->
  (exists op, cb_s0 b = Some op /\ bo_kind op = bankFillOp /\ bf_err (bo_fill op) = None /\ same_block (wq_Address (bo_request op)) (me_line (at_handle entries h))) \/
  (resident s (cb_array b) (me_line (at_handle entries h)) = true /\ forall op, cb_s0 b = Some op -> is_access op = true).

Definition entry_ok (e : mshrEntry) : Prop := legal s (cb_bank b) (me_request e) /\ port_ok s (me_port e) /\ me_line e = line_of (wq_Address (me_request e)).

Record bank_ok : Prop := {
  bk_spec : spec_wf s;
  bk_array : array_wf s (cb_array b);
  bk_bank : ca_bank (cb_array b) = cb_bank b;
  bk_init : 0 <= cb_initNext b <= sp_Sets s;
  bk_scan : forall set, 0 <= set < cb_initNext b -> initialized_at (cb_array b) set = true \/ exists op, cb_s0 b = Some op /\ bo_kind op = bankInit /\ bo_set op = set;
  bk_scanning : cb_initNext b < sp_Sets s -> cb_reserved b = 0 /\ forall op, cb_s0 b = Some op -> bo_kind op = bankInit;
  bk_mshr : mshr_wf (cb_mshr b) (sent ++ read_handles (cb_memory b)) (open_handle (cb_s1 b));
  bk_size : zlen entries = sp_MSHR s;
  bk_entries : forall h, live entries h -> entry_ok (at_handle entries h);
  bk_generation : forall i, in_table entries i -> 0 <= me_generation (slot_in entries i) <= clock;
  bk_free : core_in (cb_s0 b) = true -> free_ok (cb_mshr b);
  bk_reserved : cb_reserved b = zlen (live_requests entries) + (if core_in (cb_s0 b) then 1 else 0);
  bk_capacity : cb_reserved b <= sp_MSHR s;
  bk_s0 : forall op, cb_s0 b = Some op -> op_ok op;
  bk_s1 : forall c, cb_s1 b = Some c -> commit_ok c;
  bk_head : forall h, ms_head (cb_mshr b) = Some h -> head_ok h;
  bk_flush : cb_flushing b = flushWalk -> cb_reserved b = 0 /\ cb_initNext b = sp_Sets s /\ 0 <= cb_flushIndex b < flush_count s;
  bk_responses : zlen (cb_responses b) <= bs_Size (sp_CoreResponse s);
  bk_memory : zlen (cb_memory b) <= bs_Size (sp_MemoryRequest s)
}.
End Invariant.

(** A bank with nothing reserved has an empty table. *)
Lemma nothing_reserved b sent clock : bank_ok b sent clock -> cb_reserved b = 0 -> live_requests (ms_entries (cb_mshr b)) = [] /\ core_in (cb_s0 b) = false.
Proof.
  intros Hb Hr. pose proof (bk_reserved _ _ _ Hb) as E. rewrite Hr in E. unfold zlen in E. destruct (live_requests _), (core_in (cb_s0 b)); cbn in E; (done || lia).
Qed.

(** ** What the selection may choose *)

Inductive selects (b : cacheBank) (i : bankInput) (forwardHead : bool) (replay : option (mshrHandle * mshrEntry)) : selection -> Prop :=
| selects_none : selects b i forwardHead replay no_selection
| selects_init : cb_initNext b < sp_Sets (cb_spec b) -> selects b i forwardHead replay (mkSelection (Some (plain_op bankInit (cb_initNext b) 0)) false false false)
| selects_replay h e : sp_Sets (cb_spec b) <= cb_initNext b -> replay = Some (h, e) -> forwardHead = false ->
    selects b i forwardHead replay (mkSelection (Some (mkBankOperation bankReplay (me_request e) (me_port e) 0 0 h (cb_forwarded b))) true false false)
| selects_fill f : sp_Sets (cb_spec b) <= cb_initNext b -> bi_fill i = Some f -> replay = None ->
    selects b i forwardHead replay (mkSelection (Some (mkBankOperation bankFillOp no_word 0 0 0 (bf_handle f) f)) false true false)
| selects_flush : sp_Sets (cb_spec b) <= cb_initNext b -> cb_flushing b = flushWalk ->
    selects b i forwardHead replay (mkSelection (Some (plain_op bankFlush (cb_flushIndex b mod sp_Sets (cb_spec b)) (cb_flushIndex b / sp_Sets (cb_spec b)))) false false false)
| selects_core r : sp_Sets (cb_spec b) <= cb_initNext b -> bi_request i = Some r -> cb_flushing b = flushIdle -> bi_flushBegin i = false -> cb_reserved b < sp_MSHR (cb_spec b) ->
    selects b i forwardHead replay (mkSelection (Some (mkBankOperation bankCore r (bi_port i) 0 0 no_handle no_fill)) false false true).

Lemma selection_spec b i stalled forwardHead replay : (forwardHead = true -> cb_forwarding b = true /\ replay <> None) ->
  let sel := select_operation b i stalled forwardHead replay in
  selects b i forwardHead replay sel /\ (stalled = true -> sel = no_selection).
Proof.
  intros Hf. unfold select_operation. destruct (Z.ltb_spec (cb_initNext b) (sp_Sets (cb_spec b))) as [Hn|Hn].
  { destruct stalled; split; try done; by constructor. }
  destruct stalled; [split; [constructor|done]|]. split; [|done]. set (almost := zlen (cb_memory b) >=? _). set (others := if bool_decide (cb_flushing b = flushWalk) && _ then _ else _).
  assert (selects b i forwardHead replay others) as Ho.
  { unfold others. destruct (bool_decide (cb_flushing b = flushWalk) && _) eqn:E1; [apply andb_true_iff in E1 as [E1%bool_decide_eq_true _]; by constructor|].
    destruct (bi_request i) as [r|] eqn:Er; [|constructor]. destruct (bool_decide (cb_flushing b = flushIdle) && _ && _ && _) eqn:E2; [|constructor].
    rewrite !andb_true_iff, bool_decide_eq_true, negb_true_iff, Z.ltb_lt in E2. destruct E2 as [[[? ?] _] ?]. by constructor. }
  set (fills := match bi_fill i with Some f => _ | None => others end). assert (replay = None \/ forwardHead = true -> selects b i forwardHead replay fills) as Hfill.
  { intros Hr. unfold fills. destruct (bi_fill i) as [f|] eqn:Ef; [|done]. destruct (negb (cb_forwarding b && is_some replay) && _) eqn:E; [|done].
    apply andb_true_iff in E as [E%negb_true_iff _]. constructor; [done..|]. destruct Hr as [->|Hr]; [done|]. destruct (Hf Hr) as [Hw _]. rewrite Hw in E. by destruct replay. }
  destruct replay as [[h e]|]; [|apply Hfill; by left]. destruct forwardHead; cbn [negb]; [apply Hfill; by right|by constructor].
Qed.

(** ** What a bank owes

    The requests accepted and not yet answered: in the first register, in the table (an
    operation in the commit register keeps its entry), replaying in the commit register,
    or waiting in the response queue. *)

Notation request_name := (Z * Identity * Z * bool)%type.

Definition request_key (q : ported) : request_name := (q.2, wq_Identity q.1, wq_Tag q.1, wq_Write q.1).
Definition response_key (r : bankResponse) : request_name := (br_port r, wr_Identity (br_response r), wr_Tag (br_response r), false).

Definition stage0 (s0 : option bankOperation) : list ported := match s0 with Some op => if is_access op then [(bo_request op, bo_port op)] else [] | None => [] end.
Definition stage1 (s1 : option bankCommit) : list ported :=
  match s1 with Some c => if bool_decide (bo_kind (bc_op c) = bankReplay) then [(bo_request (bc_op c), bo_port (bc_op c))] else [] | None => [] end.

Definition pending (b : cacheBank) : list request_name :=
  map request_key (stage0 (cb_s0 b)) ++ map request_key (live_requests (ms_entries (cb_mshr b))) ++ map request_key (stage1 (cb_s1 b)) ++ map response_key (cb_responses b).

(** The request an edge accepts; the read it answers and the store it applies. *)
Definition accepted_key (i : bankInput) (e : bankEdge) : list request_name :=
  match bi_request i with Some r => if be_accepted e then [request_key (r, bi_port i)] else [] | None => [] end.

Definition answered_key (e : bankEdge) : list request_name := match be_response e with Some r => if be_responseDelivered e then [response_key r] else [] | None => [] end.
Definition applied_key (e : bankEdge) : list request_name := match be_storeApplied e with Some r => [request_key (r, be_storePort e)] | None => [] end.
Definition completed_keys (e : bankEdge) : list request_name := answered_key e ++ applied_key e.

(** ** One edge *)

Definition replay_of (m : cacheMSHR) : option (mshrHandle * mshrEntry) := (fun h => (h, at_handle (ms_entries m) h)) <$> ms_head m.

Section Edge.
Context (b : cacheBank) (sent : list mshrHandle) (clock : Z) (i : bankInput).
Context (Hb : bank_ok b sent clock) (Hi : input_ok b sent i) (Hclock : clock < 2 ^ 64 - 1).

Notation s := (cb_spec b).
Notation m := (cb_mshr b).
Notation entries := (ms_entries (cb_mshr b)).
Notation roots := (sent ++ read_handles (cb_memory b)).
Notation open := (open_handle (cb_s1 b)).
Notation p := (bank_plan b i (replay_of (cb_mshr b))).
Notation ev := (pl_events p).

Lemma edge_mshr : mshr_wf m roots open.
Proof. apply Hb. Qed.

Lemma edge_check : bank_check b i = Ok tt.
Proof.
  unfold bank_check. destruct Hi as [H1 H2 H3].
  assert (match bi_request i with Some r => let? _ := requestValid b r in check negb ((bi_port i <? 0) || (bi_port i >=? sp_CorePorts s)) else Errorf "invalid cache port" in Ok tt | None => Ok tt end = Ok tt) as ->.
  { destruct (bi_request i) as [r|]; [|done]. destruct (H1 r eq_refl) as [Hl Hp]. rewrite (proj2 (requestValid_legal b r (lg_address _ _ _ Hl)) Hl). cbn [result_bind]. unfold port_ok in Hp.
    destruct (Z.ltb_spec (bi_port i) 0), (Z.leb_spec (sp_CorePorts s) (bi_port i)); (done || lia). }
  cbn [result_bind]. assert (negb (bi_flushBegin i && negb (bool_decide (cb_flushing b = flushIdle))) = true) as ->.
  { destruct (bi_flushBegin i); [|done]. rewrite H3 by done. by rewrite bool_decide_eq_true_2. }
  destruct (bi_fill i) as [f|]; [|done]. destruct (H2 f eq_refl) as [Hin _]. destruct (mw_roots _ _ _ edge_mshr (bf_handle f)) as (Hl & Hf & _); [apply elem_of_app; by left|].
  rewrite (proj2 (mshr_entry_live m _ _) (conj Hl eq_refl)). cbn [result_bind]. by rewrite Hf.
Qed.

Lemma edge_replay : mshr_replay m = Ok (replay_of m).
Proof.
  unfold mshr_replay, replay_of. destruct (ms_head m) as [h|] eqn:Eh; [|done]. destruct (mw_head _ _ _ edge_mshr h Eh) as (Hl & _). by rewrite (proj2 (mshr_entry_live m _ _) (conj Hl eq_refl)).
Qed.

(** The head is forwarded this edge. *)
Definition forward_head : bool :=
  match replay_of m with
  | Some (_, e) => cb_forwarding b && negb (wq_Write (me_request e)) && negb (match cb_s1 b with Some c => commits_read c | None => false end) && negb (pl_stalled p)
  | None => false
  end.

Definition forwarded : option bankResponse :=
  match replay_of m with
  | Some (_, e) => if forward_head && (zlen (cb_responses b) <? bs_Size (sp_CoreResponse s)) then Some (forward_response s (cb_forwarded b) e) else None
  | None => None
  end.

Lemma edge_selection : selects b i forward_head (replay_of m) (pl_selection p) /\ (pl_stalled p = true -> pl_selection p = no_selection).
Proof.
  apply selection_spec. unfold forward_head. destruct (replay_of m) as [[h e]|]; [|done]. rewrite !andb_true_iff. by intros [[[? _] _] _].
Qed.

Lemma edge_forward : forward_head = true -> pl_stalled p = false /\ exists h, ms_head m = Some h.
Proof.
  unfold forward_head, replay_of. destruct (ms_head m) as [h|]; cbn [fmap option_fmap option_map]; [|done]. rewrite !andb_true_iff, !negb_true_iff. intros [_ ?]. split; [done|by exists h].
Qed.

Lemma edge_forwarded r : forwarded = Some r -> forward_head = true /\ exists h, ms_head m = Some h /\ r = forward_response s (cb_forwarded b) (at_handle entries h).
Proof.
  unfold forwarded, replay_of. destruct (ms_head m) as [h|]; cbn [fmap option_fmap option_map]; [|done]. destruct (forward_head && _) eqn:E; [|done]. intros [= <-].
  apply andb_true_iff in E as [? _]. split; [done|by exists h].
Qed.

(** The operation in the commit register, unless it is stalled. *)
Definition active : option bankCommit := if pl_stalled p then None else cb_s1 b.

Lemma edge_events : ev = mkMshrEvents
  (match cb_s0 b with Some op => if negb (pl_stalled p) && is_core op then Some (mkAllocation (bo_request op) (bo_port op)) else None | None => None end)
  (active ≫= commit_finalize) (if se_fill (pl_selection p) then bf_handle <$> bi_fill i else None) (is_some forwarded || se_dequeue (pl_selection p)).
Proof. done. Qed.

(** A commit that links to a predecessor never waits. *)
Lemma linked_not_stalled c al : cb_s1 b = Some c -> is_core (bc_op c) = true -> bc_hit c = false -> bc_allocation c = Some al -> ar_previous al <> None -> pl_stalled p = false.
Proof.
  intros Ec Ek Eh Ea Ep. pose proof (bk_s1 _ _ _ Hb c Ec) as Hc. unfold is_core in Ek. apply bool_decide_eq_true in Ek. unfold commit_ok in Hc. rewrite Ek in Hc.
  destruct Hc as (al' & Ea' & Hv & _). rewrite Ea in Ea'. injection Ea' as <-. unfold bank_plan. cbn [pl_stalled]. rewrite Ec. unfold commits_read, commits_memory, first_miss.
  rewrite Eh, Hv, Ea, !andb_false_r. cbn [andb orb negb mbind option_bind is_some]. by destruct (ar_previous al); rewrite ?andb_false_r.
Qed.

(** The commit register's entry, when it holds a core operation. *)
Lemma open_commit c : cb_s1 b = Some c -> is_core (bc_op c) = true -> open = Some (allocated_handle c) /\ live entries (allocated_handle c).
Proof. intros Ec Ek. assert (open = Some (allocated_handle c)) as Eo by (unfold open_handle; by rewrite Ec, Ek). split; [done|]. by apply (mw_open_live _ _ _ edge_mshr). Qed.

Lemma edge_finalize f : mv_finalize ev = Some f -> exists c, cb_s1 b = Some c /\ pl_stalled p = false /\ is_core (bc_op c) = true /\
  f = mkFinalization (allocated_handle c) (bc_hit c) (bc_allocation c ≫= ar_previous).
Proof.
  rewrite edge_events. cbn [mv_finalize]. unfold active. destruct (pl_stalled p); [done|]. destruct (cb_s1 b) as [c|]; [|done]. cbn [mbind option_bind]. unfold commit_finalize.
  destruct (is_core (bc_op c)) eqn:Ek; [|done]. intros [= <-]. by exists c.
Qed.

Lemma free_slot : core_in (cb_s0 b) = true -> first_free 0 entries <> None.
Proof.
  intros Hc Hn. apply first_free_full in Hn. pose proof (bk_reserved _ _ _ Hb) as Er. rewrite Hc in Er. pose proof (bk_capacity _ _ _ Hb) as Hcap. pose proof (bk_size _ _ _ Hb) as Hsz.
  unfold zlen in *. lia.
Qed.

Lemma edge_events_ok : events_ok m roots open ev.
Proof.
  pose proof edge_selection as [Hsel Hst]. split.
  - intros f Hf. destruct (edge_finalize f Hf) as (c & Ec & _ & Ek & ->). destruct (open_commit c Ec Ek) as [Eo _]. split; [done|]. cbn [fz_release fz_previous fz_handle].
    intros q Eh Eq. pose proof (bk_s1 _ _ _ Hb c Ec) as Hc. unfold is_core in Ek. apply bool_decide_eq_true in Ek. unfold commit_ok in Hc. rewrite Ek in Hc.
    destruct Hc as (al & Ea & _ & _ & _ & _ & Hmiss). rewrite Ea in Eq. unfold allocated_handle. rewrite Ea. by apply Hmiss.
  - intros h Hf. rewrite edge_events in Hf. cbn [mv_fill] in Hf. destruct Hsel as [| | |f Hn Ef Er| |]; try done. cbn in Hf. rewrite Ef in Hf. injection Hf as <-.
    split; [apply elem_of_app; left; by apply (io_fill _ _ _ Hi)|]. unfold replay_of in Er. by destruct (ms_head m).
  - intros Hd. rewrite edge_events in Hd. cbn [mv_dequeue] in Hd. apply orb_true_iff in Hd as [Hd|Hd].
    + destruct forwarded as [r|] eqn:Ef; [|done]. destruct (edge_forwarded r Ef) as (_ & h & Eh & _). congruence.
    + destruct Hsel as [| |h e Hn Er Hfh| | |]; try done. unfold replay_of in Er. by destruct (ms_head m).
  - intros Ha. rewrite edge_events in Ha. cbn [mv_allocate] in Ha. destruct (cb_s0 b) as [op|] eqn:E0; [|done]. destruct (pl_stalled p) eqn:Es; [done|]. cbn [negb andb] in Ha.
    destruct (is_core op) eqn:Ek; [|done]. assert (core_in (cb_s0 b) = true) as Hc by (by rewrite E0). pose proof (bk_free _ _ _ Hb Hc) as Hfree. pose proof (free_slot Hc) as Hs.
    split; [done|]. split; [done|]. split.
    + unfold open_handle. destruct (cb_s1 b) as [c|] eqn:Ec; [|by left]. destruct (is_core (bc_op c)) eqn:Ekc; [right|by left]. rewrite edge_events. cbn [mv_finalize]. unfold active.
      rewrite Es, Ec. cbn [mbind option_bind]. unfold commit_finalize. by rewrite Ekc.
    + destruct Hfree as [_ Ef]. destruct (first_free 0 entries) as [slot|] eqn:Eslot; [|done]. cbn in Ef. rewrite Ef. apply first_free_some in Eslot as [Hin _].
      pose proof (bk_generation _ _ _ Hb _ Hin). lia.
Qed.

(** *** The array access *)

Definition accessed (op : bankOperation) (a a' : cacheArray) (c : bankCommit) : Prop :=
  match bo_kind op with
  | bankCore => bc_hit c = resident s a (wq_Address (bo_request op)) /\ ev_Valid (bc_victim c) = false /\ reply_ok c /\ forall x, is_u32 x -> resident s a' x = resident s a x
  | bankReplay => bc_hit c = true /\ ev_Valid (bc_victim c) = false /\ reply_ok c /\ forall x, is_u32 x -> resident s a' x = resident s a x
  | bankFillOp => bf_err (bo_fill op) = None -> resident s a' (wq_Address (bo_request op)) = true
  | bankInit => initialized_at a' (bo_set op) = true
  | bankFlush => True
  end.

Lemma s0_scanned op : cb_s0 b = Some op -> bo_kind op <> bankInit -> scanned s (cb_array b).
Proof.
  intros E0 Hk set Hs. destruct (Z.lt_ge_cases (cb_initNext b) (sp_Sets s)) as [Hn|Hn].
  - destruct (bk_scanning _ _ _ Hb Hn) as [_ Hx]. by destruct Hk; apply Hx.
  - destruct (bk_scan _ _ _ Hb set ltac:(lia)) as [?|(op' & E & Hk' & _)]; [done|congruence].
Qed.

(** Reads and writes of the pipeline, on any array that has been scanned. *)
Lemma request_access op al : bo_kind op = bankCore \/ bo_kind op = bankReplay /\ bf_err (bo_fill op) = None /\ resident s (cb_array b) (wq_Address (bo_request op)) = true ->
  legal s (cb_bank b) (bo_request op) -> scanned s (cb_array b) ->
  exists a' c, array_access s (cb_array b) op al = (a', Ok c) /\ kept s (cb_array b) a' /\ bc_op c = op /\ bc_allocation c = al /\
    bc_hit c = resident s (cb_array b) (wq_Address (bo_request op)) /\ ev_Valid (bc_victim c) = false /\ reply_ok c /\
    forall x, is_u32 x -> resident s a' x = resident s (cb_array b) x.
Proof.
  intros Hk [L1 L2 L3 L4 L5] Hsc. pose proof (bk_spec _ _ _ Hb) as W. pose proof (bk_array _ _ _ Hb) as Ha. set (r := bo_request op) in *. set (a := cb_array b) in *.
  assert (in_bank s (ca_bank a) (wq_Address r)) as Hin by (split; [done|]; unfold a; by rewrite (bk_bank _ _ _ Hb)).
  assert (initialized_at a (da_set (DecodeAddress s (wq_Address r))) = true) as Hini by (apply Hsc; by apply (decode_parts s W)).
  set (hit := resident s a (wq_Address r)) in *.
  assert (bool_decide (bo_kind op = bankReplay) && is_some (bf_err (bo_fill op)) = false) as Herr.
  { destruct Hk as [->|(_ & -> & _)]; [done|]. apply andb_false_r. }
  assert (bool_decide (bo_kind op = bankReplay) && negb hit = false) as Hhit.
  { destruct Hk as [->|(_ & _ & ->)]; [done|]. apply andb_false_r. }
  unfold array_access. destruct (wq_Write r) eqn:Ew.
  - destruct (write_total s W a r Ha Hin Hini) as (a' & E & Hkept & Hres); [done..|by apply L5|done|]. fold hit in E. exists a', (mkBankCommit op hit al no_word_response no_eviction).
    split; [|split_and!; try done; intros Hread; cbn in Hread; unfold r in Ew; congruence]. fold r. cbv zeta. rewrite Ew, E. destruct Hk as [Hk|(Hk & He & Hr)]; rewrite Hk; rewrite Hk in Herr, Hhit; by rewrite Herr, ?Hhit.
  - destruct (read_total s a r Ha Hin Hini) as (rsp & E & Eid & Etag). fold hit in E. exists a, (mkBankCommit op hit al rsp no_eviction).
    split; [|split_and!; try done; by apply kept_refl]. fold r. cbv zeta. rewrite Ew, E. destruct Hk as [Hk|(Hk & He & Hr)]; rewrite Hk; rewrite Hk in Herr, Hhit; by rewrite Herr, ?Hhit.
Qed.

Lemma flush_access_kept op : 0 <= bo_set op < sp_Sets s -> (sp_Writeback s = true -> place s (bo_set op) (bo_way op)) -> kept s (cb_array b) (flush_access s (cb_array b) op).1.
Proof.
  intros Hs Hp. pose proof (bk_spec _ _ _ Hb) as W. pose proof (bk_array _ _ _ Hb) as Ha. unfold flush_access. destruct (sp_Writeback s); [apply (flushWay_kept s); [done|by apply Hp]|].
  cbn [fst]. assert (Forall (fun way : nat => 0 <= Z.of_nat way < sp_Ways s) (seq 0 (Z.to_nat (sp_Ways s)))) as Hall.
  { apply Forall_forall. intros way Hw%elem_of_seq. lia. }
  revert Hall. generalize (seq 0 (Z.to_nat (sp_Ways s))) as ways. intros ways. revert Ha. generalize (cb_array b) as a. induction ways as [|way ways IH]; intros a Ha Hall; cbn [fold_left]; [by apply kept_refl|].
  apply Forall_cons in Hall as [Hw Hall]. assert (kept s a (flushWay (bo_set op) (Z.of_nat way) a).1) as K by (by apply (flushWay_kept s)).
  eapply kept_trans; [exact K|]. apply IH; [apply (kp_wf _ _ _ K)|done].
Qed.

Lemma access_ok op al : cb_s0 b = Some op ->
  exists a' c, array_access s (cb_array b) op al = (a', Ok c) /\ kept s (cb_array b) a' /\ bc_op c = op /\ bc_allocation c = al /\ accessed op (cb_array b) a' c.
Proof.
  intros E0. pose proof (bk_spec _ _ _ Hb) as W. pose proof (bk_array _ _ _ Hb) as Ha. pose proof (bk_s0 _ _ _ Hb op E0) as Hop. pose proof (s0_scanned op E0) as Hsc.
  unfold op_ok in Hop. unfold accessed. destruct (bo_kind op) eqn:Ek.
  - destruct Hop as [Hl _]. destruct (request_access op al) as (a' & c & H1 & H2 & H3 & H4 & H5 & H6 & H7 & H8); [by left|done|by apply Hsc|]. exists a', c. by split_and!.
  - destruct Hop as (Hl & _ & Hres). destruct (bf_err (bo_fill op)) as [err|] eqn:Ef.
    + exists (cb_array b), (mkBankCommit op true al (failed_replay s op) no_eviction). unfold array_access. rewrite Ek, Ef. cbn. split_and!; try done; by apply kept_refl.
    + specialize (Hres eq_refl). destruct (request_access op al) as (a' & c & H1 & H2 & H3 & H4 & H5 & H6 & H7 & H8); [by right|done|by apply Hsc|]. exists a', c. rewrite Hres in H5. by split_and!.
  - destruct Hop as [Hin Hd]. unfold array_access. rewrite Ek. destruct (bf_err (bo_fill op)) as [err|] eqn:Ef.
    + eexists _, _. split_and!; try done; by apply kept_refl.
    + assert (initialized_at (cb_array b) (da_set (DecodeAddress s (wq_Address (bo_request op)))) = true) as Hini by (apply (Hsc ltac:(done)); apply (decode_parts s W); apply Hin).
      destruct (fill_total s W (cb_array b) (wq_Address (bo_request op)) (bf_data (bo_fill op))) as (a' & old & E & K & Hr); [done|by rewrite (bk_bank _ _ _ Hb)|done..|].
      rewrite E. eexists _, _. by split_and!.
  - destruct Hop as [Hs _]. unfold array_access. rewrite Ek. destruct (initSet_kept s W (cb_array b) (bo_set op) Ha Hs) as [K Hini]. eexists _, _. by split_and!.
  - destruct Hop as (Hs & Hp & _). unfold array_access. rewrite Ek. pose proof (flush_access_kept op Hs Hp) as K. destruct (flush_access s (cb_array b) op) as [a' old]. eexists _, _. by split_and!.
Qed.

(** *** The bank after the edge *)

Definition targeted (m' : cacheMSHR) (op : bankOperation) : bankOperation :=
  if bool_decide (bo_kind op = bankFillOp) then
    let e := at_handle (ms_entries m') (bo_handle op) in
    mkBankOperation (bo_kind op) (mkWordRequest (wq_Identity (me_request e)) 0 (me_line e) false false false 0 zero_word) (bo_port op) (bo_set op) (bo_way op) (bo_handle op) (bo_fill op)
  else op.

(** How the pipeline moved. *)
Record moved (m' : cacheMSHR) (al : option mshrAllocationResult) (a' : cacheArray) (s0' : option bankOperation) (s1' : option bankCommit) : Prop := {
  mo_stalled : pl_stalled p = true -> a' = cb_array b /\ s0' = cb_s0 b /\ s1' = cb_s1 b;
  mo_s1 : pl_stalled p = false -> match cb_s0 b with
    | None => a' = cb_array b /\ s1' = None
    | Some op => exists c, s1' = Some c /\ bc_op c = op /\ bc_allocation c = al /\ accessed op (cb_array b) a' c
    end;
  mo_kept : kept s (cb_array b) a';
  mo_s0 : pl_stalled p = false -> s0' = targeted m' <$> se_op (pl_selection p)
}.

Definition next_bank (m' : cacheMSHR) (a' : cacheArray) (s0' : option bankOperation) (s1' : option bankCommit) : cacheBank :=
  bank_control b i p (set_stages s0' s1' (set_array a' (settle_queues b i p m'))).

(** The filled entry is live after the edge. *)
Lemma fill_live m' al f : mshr_step m ev = (m', Ok al) -> se_fill (pl_selection p) = true -> bi_fill i = Some f ->
  live entries (bf_handle f) /\ live (ms_entries m') (bf_handle f) /\ same_entry (at_handle entries (bf_handle f)) (at_handle (ms_entries m') (bf_handle f)).
Proof.
  intros Hs Hf Ef. destruct (mw_roots _ _ _ edge_mshr (bf_handle f)) as (Hl & Hfin & _); [apply elem_of_app; left; by apply (io_fill _ _ _ Hi)|]. split; [done|].
  apply (step_stays m roots open ev edge_mshr edge_events_ok m' al _ Hs Hl). intros Hg. destruct (finalized_gone m roots open ev edge_mshr edge_events_ok _ Hl Hfin Hg) as [_ Hh].
  pose proof (proj2 (eo_fill _ _ _ _ edge_events_ok (bf_handle f) ltac:(rewrite edge_events; cbn [mv_fill]; by rewrite Hf, Ef))). congruence.
Qed.

Lemma edge_moves : exists m' al a' s0' s1', mshr_step m ev = (m', Ok al) /\ moved m' al a' s0' s1' /\ bank_step b i = (next_bank m' a' s0' s1', Ok (bank_edge b i p)).
Proof.
  destruct (mshr_step_ok m roots open ev edge_mshr edge_events_ok) as (m' & al & Hs & _). unfold bank_step. rewrite edge_check, edge_replay, Hs. unfold advance_stages.
  destruct (pl_stalled p) eqn:Es.
  { exists m', al, (cb_array b), (cb_s0 b), (cb_s1 b). split; [done|]. split; [split; (done || congruence || apply kept_refl, Hb)|]. done. }
  assert (match se_op (pl_selection p) with Some op => let? op := fill_target m' op in Ok (Some op) | None => Ok None end = Ok (targeted m' <$> se_op (pl_selection p))) as Ht.
  { pose proof edge_selection as [Hsel _]. remember (pl_selection p) as sel eqn:Esel. destruct Hsel as [| | |f Hn Ef Er| |]; try done. cbn [se_op fmap option_fmap option_map].
    unfold fill_target, targeted. cbn [bo_kind]. rewrite bool_decide_eq_true_2 by done. cbn [negb bo_handle].
    destruct (fill_live m' al f Hs) as (_ & Hl & _); [by rewrite <- Esel|done|]. by rewrite (proj2 (mshr_entry_live m' _ _) (conj Hl eq_refl)). }
  destruct (cb_s0 b) as [op|] eqn:E0.
  - destruct (access_ok op al E0) as (a' & c & Hacc & K & Hop & Hal & Hfacts). exists m', al, a', (targeted m' <$> se_op (pl_selection p)), (Some c). split; [done|].
    split; [split; try done; [congruence|intros _; rewrite E0; by exists c]|]. cbn [settle_queues cb_s0 cb_spec cb_array]. rewrite E0, Hacc. cbn [result_bind]. cbn [set_array cb_mshr settle_queues]. by rewrite Ht.
  - exists m', al, (cb_array b), (targeted m' <$> se_op (pl_selection p)), None. split; [done|]. split; [split; (done || congruence || (by rewrite E0) || apply kept_refl, Hb)|].
    cbn [settle_queues cb_s0]. rewrite E0. cbn [settle_queues cb_mshr]. by rewrite Ht.
Qed.

(** *** Its invariant *)

Section Next.
Context (m' : cacheMSHR) (al : option mshrAllocationResult) (a' : cacheArray) (s0' : option bankOperation) (s1' : option bankCommit).
Context (Hs : mshr_step m ev = (m', Ok al)) (Hmv : moved m' al a' s0' s1').

Notation sel := (pl_selection p).
Notation edge := (bank_edge b i p).

Definition released : Z := match mv_finalize ev with Some f => if fz_release f then 1 else 0 | None => 0 end.
Definition reserved_next : Z := cb_reserved b + (if se_accept sel then 1 else 0) - (if mv_dequeue ev then 1 else 0) - released.
Definition init_next : Z := cb_initNext b + (if selected_kind (se_op sel) bankInit then 1 else 0).
Definition flush_next : bankFlushState * Z := next_flush b i (se_op sel) init_next (bank_empty b) (cb_reserved b =? 0).
Definition forwarded_next : bankFill := match bi_fill i with Some f => if se_fill sel then f else cb_forwarded b | None => cb_forwarded b end.
Definition pushed {A} (o : option A) : list A := match o with Some x => [x] | None => [] end.
Definition responses_next : list bankResponse := (if be_responseDelivered edge then tail (cb_responses b) else cb_responses b) ++ pushed (pl_response p).
Definition memory_next : list bankMemoryRequest := (if be_memoryAccepted edge then tail (cb_memory b) else cb_memory b) ++ pushed (pl_memory p).

Lemma next_bank_eq : exists forwarding, next_bank m' a' s0' s1' =
  mkCacheBank s (cb_bank b) a' m' reserved_next s0' s1' responses_next memory_next init_next flush_next.1 flush_next.2 forwarding forwarded_next.
Proof.
  unfold next_bank, bank_control, flush_next, forwarded_next, init_next. destruct (next_flush _ _ _ _ _ _) as [state index]. cbn [fst snd].
  destruct (bi_fill i) as [f|]; [destruct (se_fill sel)|]; eexists; reflexivity.
Qed.

(** With nothing reserved nothing leaves the table. *)
Lemma idle_table : cb_reserved b = 0 -> ms_head m = None /\ mv_dequeue ev = false /\ released = 0 /\ (forall h, ~ live entries h).
Proof.
  intros Hr. destruct (nothing_reserved b sent clock Hb Hr) as [Hn _]. assert (forall h, ~ live entries h) as Hl by (intros h; by apply no_live_requests).
  assert (ms_head m = None) as Eh by (destruct (ms_head m) as [h|] eqn:E; [|done]; destruct (mw_head _ _ _ edge_mshr h E) as [? _]; by destruct (Hl h)).
  split; [done|]. split; [|split; [|done]].
  - apply not_true_iff_false. intros Hd. by apply (eo_dequeue _ _ _ _ edge_events_ok Hd).
  - unfold released. destruct (mv_finalize ev) as [f|] eqn:Ef; [|done]. destruct (edge_finalize f Ef) as (c & Ec & _ & Ek & _). destruct (open_commit c Ec Ek) as [_ ?]. by destruct (Hl (allocated_handle c)).
Qed.

Lemma idle_next : cb_reserved b = 0 -> se_accept sel = false -> reserved_next = 0.
Proof. intros Hr Ha. destruct (idle_table Hr) as (_ & Hd & Hrel & _). unfold reserved_next. rewrite Ha, Hd, Hrel. lia. Qed.

Lemma stalled_selects : pl_stalled p = true -> sel = no_selection.
Proof. apply edge_selection. Qed.

Lemma next_init : 0 <= init_next <= sp_Sets s.
Proof.
  pose proof (bk_init _ _ _ Hb) as Hn. pose proof edge_selection as [Hsel _]. unfold init_next. destruct Hsel; cbn [se_op no_selection selected_kind plain_op bo_kind]; rewrite ?bool_decide_eq_true_2, ?bool_decide_eq_false_2 by done; lia.
Qed.

Lemma next_scan set : 0 <= set < init_next -> initialized_at a' set = true \/ exists op, s0' = Some op /\ bo_kind op = bankInit /\ bo_set op = set.
Proof.
  intros Hset. destruct (pl_stalled p) eqn:Es.
  - destruct (mo_stalled _ _ _ _ _ Hmv Es) as (-> & -> & _). apply (bk_scan _ _ _ Hb). unfold init_next in Hset. rewrite (stalled_selects Es) in Hset. cbn in Hset. lia.
  - destruct (Z.lt_ge_cases set (cb_initNext b)) as [Hlt|Hge].
    + left. destruct (bk_scan _ _ _ Hb set ltac:(lia)) as [Hini|(op & E0 & Hk & <-)]; [apply (kp_scan _ _ _ (mo_kept _ _ _ _ _ Hmv)); [lia|done]|].
      pose proof (mo_s1 _ _ _ _ _ Hmv Es) as H1. rewrite E0 in H1. destruct H1 as (c & _ & _ & _ & Hacc). unfold accessed in Hacc. by rewrite Hk in Hacc.
    + right. rewrite (mo_s0 _ _ _ _ _ Hmv Es). unfold init_next in Hset. pose proof edge_selection as [Hsel _].
      destruct Hsel; cbn [se_op no_selection selected_kind plain_op bo_kind] in Hset; rewrite ?bool_decide_eq_true_2, ?bool_decide_eq_false_2 in Hset by done; try lia.
      eexists. split; [done|]. split; [done|]. change (cb_initNext b = set). lia.
Qed.

Lemma next_scanning : init_next < sp_Sets s -> reserved_next = 0 /\ forall op, s0' = Some op -> bo_kind op = bankInit.
Proof.
  intros Hn. assert (cb_initNext b < sp_Sets s) as Hn' by (unfold init_next in Hn; destruct (selected_kind _ _); lia). destruct (bk_scanning _ _ _ Hb Hn') as [Hr H0].
  assert (se_accept sel = false /\ (forall op, se_op sel = Some op -> bo_kind op = bankInit)) as [Ha Hop].
  { pose proof edge_selection as [Hsel _]. destruct Hsel; try lia; split; try done. by intros op [= <-]. }
  split; [by apply idle_next|]. intros op E. destruct (pl_stalled p) eqn:Es; [destruct (mo_stalled _ _ _ _ _ Hmv Es) as (_ & E' & _); rewrite E' in E; by apply H0|].
  rewrite (mo_s0 _ _ _ _ _ Hmv Es) in E. destruct (se_op sel) as [op'|]; [|done]. cbn in E. injection E as <-. specialize (Hop op' eq_refl). unfold targeted. rewrite Hop. done.
Qed.

Lemma next_open : open_after open ev al = open_handle s1'.
Proof.
  destruct (mshr_step_ok m roots open ev edge_mshr edge_events_ok) as (m1 & al1 & Hs1 & _ & _ & _ & _ & Hal). rewrite Hs in Hs1. injection Hs1 as <- <-.
  unfold open_after. rewrite edge_events in Hal |- *. cbn [mv_allocate mv_finalize] in *. unfold active. destruct (pl_stalled p) eqn:Es.
  - destruct (mo_stalled _ _ _ _ _ Hmv Es) as (_ & _ & ->). cbn [mbind option_bind negb andb] in *. destruct al as [r|]; [by destruct (cb_s0 b)|done].
  - pose proof (mo_s1 _ _ _ _ _ Hmv Es) as H1. cbn [negb andb] in *. assert (open_handle s1' = match al with Some r => Some (ar_handle r) | None => None end) as ->.
    { destruct (cb_s0 b) as [op|]; [|destruct H1 as [_ ->]; by destruct al]. destruct H1 as (c & -> & Hop & Ha & _). unfold open_handle, allocated_handle. rewrite Hop, Ha.
      destruct (is_core op); by destruct al. }
    destruct al as [r|]; [done|]. destruct (cb_s1 b) as [c|] eqn:Ec; cbn [mbind option_bind]; [|done]. unfold commit_finalize, open_handle. by destruct (is_core (bc_op c)).
Qed.

Lemma read_handles_app x y : read_handles (x ++ y) = read_handles x ++ read_handles y.
Proof. unfold read_handles. by rewrite filter_app, map_app. Qed.

(** The memory reads still to be answered are the old ones without the one filled now,
    and the one the commit register sends. *)
Lemma next_roots : roots_after roots ev = sent_after sent i edge ++ read_handles memory_next.
Proof.
  assert (match mv_finalize ev with Some f => if negb (fz_release f) && negb (is_some (fz_previous f)) then [fz_handle f] else [] | None => [] end = read_handles (pushed (pl_memory p))) as Hpush.
  { rewrite edge_events. cbn [mv_finalize]. change (pl_memory p) with (active ≫= commit_memory). unfold active. destruct (pl_stalled p); [done|]. destruct (cb_s1 b) as [c|] eqn:Ec; [|done].
    cbn [mbind option_bind]. pose proof (bk_s1 _ _ _ Hb c Ec) as Hc. unfold commit_finalize, commit_memory, first_miss, commit_ok in *. unfold is_core in *.
    destruct (bo_kind (bc_op c)) eqn:Ek; cbn [bool_decide] in *; rewrite ?bool_decide_eq_true_2, ?bool_decide_eq_false_2 by done.
    - destruct Hc as (r & Ea & -> & _). cbn [fz_release fz_previous fz_handle andb]. rewrite Ea. cbn [mbind option_bind]. destruct (bc_hit c); [done|]. cbn [negb andb].
      by destruct (ar_previous r).
    - destruct Hc as (_ & -> & _). done.
    - by destruct (ev_Valid (bc_victim c)).
    - by destruct (ev_Valid (bc_victim c)).
    - by destruct (ev_Valid (bc_victim c)). }
  assert (sent ++ read_handles (cb_memory b) = (sent ++ match be_memory edge with Some r => if be_memoryAccepted edge && negb (bm_write r) then [bm_handle r] else [] | None => [] end) ++
    read_handles (if be_memoryAccepted edge then tail (cb_memory b) else cb_memory b)) as Hsplit.
  { cbn [be_memory be_memoryAccepted bank_edge]. destruct (cb_memory b) as [|r mem]; cbn [head is_some andb tail]; [by rewrite (app_nil_r sent); destruct (bi_memoryReady i)|].
    destruct (bi_memoryReady i); cbn [andb]; [|by rewrite (app_nil_r sent)]. unfold read_handles. rewrite filter_cons. destruct (bm_write r) eqn:Ew; cbn [negb].
    - rewrite decide_False by done. by rewrite (app_nil_r sent).
    - rewrite decide_True by done. cbn [map]. by rewrite <- app_assoc. }
  unfold roots_after, memory_next. rewrite Hpush, read_handles_app, app_assoc. f_equal. unfold sent_after.
  assert (mv_fill ev = if se_fill sel then bf_handle <$> bi_fill i else None) as -> by done. change (be_fillAccepted edge) with (se_fill sel).
  destruct (bi_fill i) as [f|] eqn:Ef; [|by destruct (se_fill sel)]. destruct (se_fill sel) eqn:Esf; [|done]. cbn [fmap option_fmap option_map].
  assert (NoDup roots) as Hnd by apply edge_mshr. rewrite filter_app. destruct (io_fill _ _ _ Hi f Ef) as [Hin _].
  assert (filter (fun r => r <> bf_handle f) (read_handles (cb_memory b)) = read_handles (cb_memory b)) as ->.
  { apply NoDup_app in Hnd as (_ & Hnd & _). specialize (Hnd (bf_handle f) Hin). revert Hnd. generalize (read_handles (cb_memory b)) as l. induction l as [|h l IH]; [done|].
    rewrite not_elem_of_cons. intros [Hne Hl]. rewrite filter_cons, decide_True by congruence. f_equal. by apply IH. }
  rewrite <- app_assoc. f_equal. apply (app_inv_head sent). rewrite app_assoc. exact Hsplit.
Qed.

Lemma step_facts : zlen (ms_entries m') = zlen entries /\ free_ok m' /\ mshr_wf m' (roots_after roots ev) (open_after open ev al) /\ ms_head m' = next_head m ev.
Proof.
  destruct (mshr_step_ok m roots open ev edge_mshr edge_events_ok) as (m1 & al1 & Hs1 & H1 & H2 & H3 & H4 & _). rewrite Hs in Hs1. injection Hs1 as <- <-. by split_and!.
Qed.

(** A stalled edge asks nothing of the table. *)
Lemma stalled_events : pl_stalled p = true -> mv_allocate ev = None /\ mv_finalize ev = None /\ mv_fill ev = None /\ mv_dequeue ev = false.
Proof.
  intros Es. rewrite edge_events. cbn [mv_allocate mv_finalize mv_fill mv_dequeue]. unfold active. rewrite (stalled_selects Es), Es. cbn [se_fill se_dequeue no_selection negb andb].
  split; [by destruct (cb_s0 b)|]. split; [done|]. split; [done|]. destruct forwarded as [r|] eqn:Ef; [|done]. destruct (edge_forwarded r Ef) as [Hf _]. destruct (edge_forward Hf) as [? _]. congruence.
Qed.

Lemma stalled_stays h : pl_stalled p = true -> live entries h -> live (ms_entries m') h /\ same_entry (at_handle entries h) (at_handle (ms_entries m') h).
Proof.
  intros Es Hl. apply (step_stays m roots open ev edge_mshr edge_events_ok m' al _ Hs Hl). destruct (stalled_events Es) as (_ & Hf & _ & Hd). intros [[? _]|(f & ? & _)]; congruence.
Qed.

Lemma next_entries h : live (ms_entries m') h -> entry_ok b (at_handle (ms_entries m') h).
Proof.
  intros Hl. destruct (step_live m roots open ev edge_mshr edge_events_ok m' al h Hs Hl) as [(Hlo & _ & (E1 & E2 & E3))|(a & r & Ha & _ & _ & ->)].
  - unfold entry_ok. rewrite E1, E2, E3. by apply (bk_entries _ _ _ Hb).
  - rewrite edge_events in Ha. cbn [mv_allocate] in Ha. destruct (cb_s0 b) as [op|] eqn:E0; [|done]. destruct (negb (pl_stalled p) && is_core op) eqn:E; [|done]. injection Ha as <-.
    apply andb_true_iff in E as [_ Ek%bool_decide_eq_true]. pose proof (bk_s0 _ _ _ Hb op E0) as Hop. unfold op_ok in Hop. rewrite Ek in Hop. destruct Hop. done.
Qed.

Lemma next_accept : core_in s0' = if pl_stalled p then core_in (cb_s0 b) else se_accept sel.
Proof.
  destruct (pl_stalled p) eqn:Es; [by destruct (mo_stalled _ _ _ _ _ Hmv Es) as (_ & -> & _)|]. rewrite (mo_s0 _ _ _ _ _ Hmv Es). pose proof edge_selection as [Hsel _]. by destruct Hsel.
Qed.

Lemma next_reserved : reserved_next = zlen (live_requests (ms_entries m')) + (if core_in s0' then 1 else 0).
Proof.
  pose proof (step_requests m roots open ev edge_mshr edge_events_ok m' al Hs) as Hp. apply Permutation_length in Hp. rewrite !length_app in Hp.
  pose proof (bk_reserved _ _ _ Hb) as Er. unfold zlen in *. rewrite next_accept. unfold reserved_next.
  assert (Z.of_nat (length (leaving m ev)) = (if mv_dequeue ev then 1 else 0) + released) as Hl.
  { unfold leaving, released. rewrite length_app. pose proof (eo_dequeue _ _ _ _ edge_events_ok) as Hd. destruct (mv_dequeue ev); [destruct (ms_head m); [|by destruct Hd]|];
      (destruct (mv_finalize ev) as [f|]; [destruct (fz_release f)|]); done. }
  assert (Z.of_nat (length (entering ev)) = if pl_stalled p then 0 else if core_in (cb_s0 b) then 1 else 0) as Hen.
  { unfold entering. rewrite edge_events. cbn [mv_allocate]. unfold core_in, selected_kind. destruct (cb_s0 b) as [op|]; [|by destruct (pl_stalled p)]. unfold is_core.
    destruct (pl_stalled p); [done|]. by destruct (bool_decide (bo_kind op = bankCore)). }
  destruct (pl_stalled p) eqn:Es; [rewrite (stalled_selects Es); cbn [se_accept no_selection]; lia|]. lia.
Qed.

Lemma released_range : 0 <= released <= 1.
Proof. unfold released. destruct (mv_finalize ev) as [f|]; [destruct (fz_release f)|]; lia. Qed.

Lemma next_capacity : reserved_next <= sp_MSHR s.
Proof.
  pose proof (bk_capacity _ _ _ Hb). pose proof released_range. pose proof edge_selection as [Hsel _]. unfold reserved_next. destruct Hsel; cbn [se_accept no_selection]; destruct (mv_dequeue ev); lia.
Qed.

Lemma line_u32 h : live entries h -> is_u32 (me_line (at_handle entries h)).
Proof. intros Hl. destruct (bk_entries _ _ _ Hb h Hl) as ([L1 _ _ _ _] & _ & ->). by apply line_of_u32. Qed.

(** The line of the replaying chain is resident once the first register has moved on. *)
Lemma head_resident h : ms_head m = Some h -> pl_stalled p = false -> bf_err (cb_forwarded b) = None -> resident s a' (me_line (at_handle entries h)) = true.
Proof.
  intros Hh Es He. destruct (mw_head _ _ _ edge_mshr h Hh) as (Hl & _). pose proof (mo_s1 _ _ _ _ _ Hmv Es) as H1. destruct (bk_head _ _ _ Hb h Hh He) as [(op & E0 & Ek & Ee & Eb)|[Hr Hk]].
  - rewrite E0 in H1. destruct H1 as (c & _ & _ & _ & Hacc). unfold accessed in Hacc. rewrite Ek in Hacc. rewrite <- (Hacc Ee). symmetry.
    pose proof (bk_s0 _ _ _ Hb op E0) as Hop. unfold op_ok in Hop. rewrite Ek in Hop. apply (resident_line s (bk_spec _ _ _ Hb)); [apply Hop|by apply line_u32|exact Eb].
  - destruct (cb_s0 b) as [op|]; [|destruct H1 as [-> _]; done]. destruct H1 as (c & _ & _ & _ & Hacc). specialize (Hk op eq_refl). unfold is_access in Hk.
    unfold accessed in Hacc. destruct (bo_kind op); try done; destruct Hacc as (_ & _ & _ & Hsame); rewrite Hsame; (done || by apply line_u32).
Qed.

Context (forwarding : bool).
Notation b' := (mkCacheBank s (cb_bank b) a' m' reserved_next s0' s1' responses_next memory_next init_next flush_next.1 flush_next.2 forwarding forwarded_next).

Lemma replay_head h e : replay_of m = Some (h, e) -> ms_head m = Some h /\ e = at_handle entries h.
Proof. unfold replay_of. destruct (ms_head m) as [h0|]; [|done]. cbn. by intros [= <- <-]. Qed.

Lemma line_in_own_bank e : entry_ok b e -> in_bank s (cb_bank b) (me_line e).
Proof.
  intros ([L1 _ L3 _ _] & _ & ->). pose proof (bk_spec _ _ _ Hb) as W. split; [by apply line_of_u32|]. rewrite <- L3.
  apply (same_line s W); [by apply line_of_u32|done|]. apply line_of_div. unfold is_u32 in L1. lia.
Qed.

Lemma entry_same_line e : entry_ok b e -> same_block (me_line e) (wq_Address (me_request e)) /\ is_u32 (me_line e) /\ is_u32 (wq_Address (me_request e)).
Proof. intros ([L1 _ _ _ _] & _ & ->). split; [apply line_of_div; unfold is_u32 in L1; lia|]. split; [by apply line_of_u32|done]. Qed.

Lemma next_s0 op : s0' = Some op -> op_ok b' op.
Proof.
  intros E. pose proof (bk_spec _ _ _ Hb) as W. destruct (pl_stalled p) eqn:Es.
  { destruct (mo_stalled _ _ _ _ _ Hmv Es) as (Ea & E' & _). rewrite E' in E. pose proof (bk_s0 _ _ _ Hb op E) as Hop. unfold op_ok in *. cbn [cb_spec cb_bank cb_array cb_reserved]. rewrite Ea.
    destruct (bo_kind op); try done; [split; [apply Hop|apply idle_next; [apply Hop|by rewrite (stalled_selects Es)]]|].
    destruct Hop as (Hset & Hway & Hr). split; [done|]. split; [done|]. apply idle_next; [done|by rewrite (stalled_selects Es)]. }
  pose proof (mo_s0 _ _ _ _ _ Hmv Es) as E0. rewrite E in E0. pose proof edge_selection as [Hsel _]. remember sel as choice eqn:Echoice.
  destruct Hsel as [|Hn|h e Hn Er Hfh|f Hn Ef Er|Hn Hfl|r Hn Er Hfl Hbeg Hcap]; cbn [se_op no_selection fmap option_fmap option_map] in E0; [done|..]; injection E0 as ->; unfold targeted; cbn [bo_kind plain_op]; rewrite ?bool_decide_eq_true_2, ?bool_decide_eq_false_2 by done; unfold op_ok;
    cbn [bo_kind bo_set bo_way bo_request bo_port bo_fill bo_handle plain_op wq_Address cb_spec cb_bank cb_array cb_reserved].
  - pose proof (bk_init _ _ _ Hb). split; [lia|]. apply idle_next; [by apply (bk_scanning _ _ _ Hb)|by rewrite <- Echoice].
  - destruct (replay_head h e Er) as [Hh ->]. destruct (mw_head _ _ _ edge_mshr h Hh) as (Hl & _). pose proof (bk_entries _ _ _ Hb h Hl) as He. split; [apply He|]. split; [apply He|].
    intros Hnone. destruct (entry_same_line _ He) as (Eb & Hu1 & Hu2). rewrite <- (resident_line s W a' _ _ Hu1 Hu2 Eb). by apply head_resident.
  - destruct (fill_live m' al f Hs) as (Hl & _ & (El & _)); [by rewrite <- Echoice|done|]. rewrite El. split; [|by apply (io_fill _ _ _ Hi)]. apply line_in_own_bank. by apply (bk_entries _ _ _ Hb).
  - destruct (bk_flush _ _ _ Hb Hfl) as (Hr & _ & Hidx). destruct W as [_ Hbk Hw Hst _]. split; [by apply Z.mod_pos_bound|]. split; [|apply idle_next; [done|by rewrite <- Echoice]].
    intros Hwb. unfold flush_count in Hidx. rewrite Hwb in Hidx. split; [by apply Z.mod_pos_bound|]. split; [apply Z.div_pos; lia|]. apply Z.div_lt_upper_bound; lia.
  - by apply (io_request _ _ _ Hi).
Qed.

Lemma next_s1 c : s1' = Some c -> commit_ok b' c.
Proof.
  intros E. pose proof (bk_spec _ _ _ Hb) as W. destruct (pl_stalled p) eqn:Es.
  { destruct (mo_stalled _ _ _ _ _ Hmv Es) as (Ea & _ & E'). rewrite E' in E. pose proof (bk_s1 _ _ _ Hb c E) as Hc. unfold commit_ok in *. cbn [cb_spec cb_array cb_mshr]. rewrite Ea.
    destruct (bo_kind (bc_op c)) eqn:Ek; try done. destruct Hc as (r & Er & Hv & Hrep & Hkey & Hhit & Hmiss). exists r.
    assert (is_core (bc_op c) = true) as Hcore by (unfold is_core; by rewrite Ek). destruct (open_commit c E Hcore) as [_ Hl]. unfold allocated_handle in Hl. rewrite Er in Hl.
    destruct (stalled_stays _ Es Hl) as [_ (_ & E2 & E3)]. unfold entry_key in *. rewrite E2, E3. split_and!; try done. intros Hh q Hq.
    pose proof (linked_not_stalled c r E Hcore Hh Er) as Hns. rewrite Hq in Hns. specialize (Hns ltac:(done)). congruence. }
  pose proof (mo_s1 _ _ _ _ _ Hmv Es) as H1. destruct (cb_s0 b) as [op|] eqn:E0; [|destruct H1; congruence]. destruct H1 as (c' & E' & Hop & Ha & Hacc). rewrite E in E'. injection E' as <-.
  unfold commit_ok, accessed in *. cbn [cb_spec cb_array cb_mshr]. rewrite Hop. pose proof (bk_s0 _ _ _ Hb op E0) as Hok. unfold op_ok in Hok. destruct (bo_kind op) eqn:Ek; try done.
  - destruct Hacc as (Hhit & Hv & Hrep & Hsame). destruct Hok as [[L1 _ _ _ _] _]. assert (is_core op = true) as Hcore by (unfold is_core; by rewrite Ek).
    assert (mv_allocate ev = Some (mkAllocation (bo_request op) (bo_port op))) as Hal by (rewrite edge_events; cbn [mv_allocate]; by rewrite E0, Es, Hcore).
    destruct al as [r|]; [|destruct (mshr_step_ok m roots open ev edge_mshr edge_events_ok) as (m1 & al1 & Hs1 & _ & _ & _ & _ & Hx); rewrite Hs in Hs1; injection Hs1 as _ <-; by rewrite Hal in Hx].
    destruct (step_new m roots open ev edge_mshr edge_events_ok m' r Hs) as (a & Ea & Hl & Ee & Hprev). rewrite Hal in Ea. injection Ea as <-. cbn [al_request al_port] in *.
    exists r. rewrite Ee. cbn [entry_key me_request me_port me_line]. split_and!; try done.
    + intros Hh. rewrite Hsame by done. congruence.
    + intros Hh q Hq. destruct (Hprev q Hq) as [(G1 & G2 & G3 & G4)|(f & Ef & Er & <- & Eline)]; [done|]. exfalso.
      destruct (edge_finalize f Ef) as (c1 & Ec1 & _ & Ek1 & ->). cbn [fz_release fz_handle] in *. pose proof (bk_s1 _ _ _ Hb c1 Ec1) as Hc1. unfold commit_ok in Hc1. unfold is_core in Ek1.
      apply bool_decide_eq_true in Ek1. rewrite Ek1 in Hc1. destruct Hc1 as (r1 & Er1 & _ & _ & Hkey & Hres & _). specialize (Hres Er). unfold allocated_handle in Eline. rewrite Er1 in Eline.
      assert (live entries (ar_handle r1)) as Hl1.
      { destruct (open_commit c1 Ec1) as [_ Hx]; [unfold is_core; by rewrite Ek1|]. unfold allocated_handle in Hx. by rewrite Er1 in Hx. }
      pose proof (bk_entries _ _ _ Hb _ Hl1) as ([L1' _ _ _ _] & _ & Eln). unfold entry_key in Hkey. injection Hkey as Hkey _. rewrite Hkey in L1', Eln. rewrite Eln in Eline.
      pose proof (same_line_of _ _ L1' L1 Eline) as Eblk. rewrite (resident_line s W (cb_array b) _ _ L1' L1 Eblk) in Hres. congruence.
  - destruct Hacc as (? & ? & ? & _). done.
Qed.

(** Without a fill the chain stays on the line of the old head. *)
Lemma chain_line h : mv_fill ev = None -> next_head m ev = Some h -> exists h0, ms_head m = Some h0 /\ me_line (at_handle entries h) = me_line (at_handle entries h0).
Proof.
  intros Hf Hn. unfold next_head, dequeued in Hn. rewrite Hf in Hn. destruct (mv_dequeue ev) eqn:Ed; cbn [fmap option_fmap option_map] in Hn; [|by exists h].
  destruct (ms_head m) as [h0|] eqn:Eh; [|done]. cbn [fmap option_fmap option_map] in Hn. exists h0. split; [done|]. destruct (mw_head _ _ _ edge_mshr h0 Eh) as (Hl0 & _).
  destruct (me_next (at_handle entries h0)) as [x|] eqn:En; [injection Hn as <-; by apply (mw_next _ _ _ edge_mshr h0 x)|].
  destruct (mv_finalize ev) as [f|] eqn:Ef; [|done]. destruct (negb (fz_release f) && _) eqn:E; [|done]. injection Hn as <-. apply andb_true_iff in E as [Er%negb_true_iff [_ Ep]%bool_decide_eq_true].
  destruct (eo_finalize _ _ _ _ edge_events_ok f Ef) as [_ Hp]. by destruct (Hp h0 Er Ep) as (_ & _ & _ & ->).
Qed.

(** The head after the edge was an entry of the old table. *)
Lemma head_entry h : ms_head m' = Some h -> live entries h /\ same_entry (at_handle entries h) (at_handle (ms_entries m') h).
Proof.
  intros Hh. destruct step_facts as (_ & _ & Hw & _). destruct (mw_head _ _ _ Hw h Hh) as (Hl & Hfin & _).
  destruct (step_live m roots open ev edge_mshr edge_events_ok m' al h Hs Hl) as [(? & _ & ?)|(a & r & _ & _ & _ & E)]; [done|]. rewrite E in Hfin. done.
Qed.

Lemma next_head_ok h : ms_head m' = Some h -> head_ok b' h.
Proof.
  intros Hh He. cbn [cb_forwarded cb_s0 cb_spec cb_array cb_mshr] in *. destruct (head_entry h Hh) as (Hl & (El & _)). rewrite El. destruct step_facts as (_ & _ & _ & En). rewrite Hh in En. symmetry in En.
  pose proof edge_selection as [Hsel _]. destruct (se_fill sel) eqn:Ef.
  - left. assert (pl_stalled p = false) as Es by (destruct (pl_stalled p) eqn:Es; [rewrite (stalled_selects Es) in Ef; done|done]). rewrite (mo_s0 _ _ _ _ _ Hmv Es).
    pose proof (fill_live m' al) as Hlive. unfold forwarded_next in He. rewrite Ef in He. unfold next_head, dequeued in En. assert (mv_fill ev = if se_fill sel then bf_handle <$> bi_fill i else None) as Emf by done.
    rewrite Ef in Emf. remember sel as choice eqn:Echoice. destruct Hsel as [| | |f Hn Efi Er| |]; try done. rewrite Efi in He, Emf. cbn [fmap option_fmap option_map] in Emf.
    assert (ms_head m = None) as Hm0 by (unfold replay_of in Er; by destruct (ms_head m)).
    assert (mv_dequeue ev = false) as Hd by (apply not_true_iff_false; intros Hd; by destruct (eo_dequeue _ _ _ _ edge_events_ok Hd)). rewrite Hd, Emf in En. injection En as <-.
    destruct (Hlive f Hs) as (_ & _ & (El' & _)); [done|done|]. cbn [se_op fmap option_fmap option_map]. eexists. split; [done|]. unfold targeted. cbn [bo_kind].
    rewrite bool_decide_eq_true_2 by done. cbn [bo_kind bo_fill bo_request wq_Address bo_handle]. split; [done|]. split; [done|]. unfold same_block. by rewrite El'.
  - assert (forwarded_next = cb_forwarded b) as Efw by (unfold forwarded_next; rewrite Ef; by destruct (bi_fill i)). rewrite Efw in He.
    assert (mv_fill ev = None) as Emf by (rewrite edge_events; cbn [mv_fill]; by rewrite Ef). destruct (chain_line h Emf En) as (h0 & Hh0 & Eline). rewrite Eline. destruct (pl_stalled p) eqn:Es.
    + destruct (mo_stalled _ _ _ _ _ Hmv Es) as (-> & -> & _). exact (bk_head _ _ _ Hb h0 Hh0 He).
    + right. split; [by apply head_resident|]. rewrite (mo_s0 _ _ _ _ _ Hmv Es). assert (cb_reserved b <> 0) as Hr0 by (intros Hr; destruct (idle_table Hr) as (? & _); congruence).
      destruct Hsel as [|Hn|x e Hn Er Hfh|f Hn Efi Er|Hn Hfl|r Hn Er Hfl Hbeg Hcap]; cbn [se_op no_selection fmap option_fmap option_map]; intros op; try done.
      * destruct Hr0. by apply (bk_scanning _ _ _ Hb).
      * by intros [= <-].
      * destruct Hr0. by apply (bk_flush _ _ _ Hb).
      * by intros [= <-].
Qed.

Lemma flush_count_pos : 0 < flush_count s.
Proof. destruct (bk_spec _ _ _ Hb) as [_ _ Hw Hst _]. unfold flush_count. destruct (sp_Writeback s); nia. Qed.

Lemma next_flush_ok : flush_next.1 = flushWalk -> reserved_next = 0 /\ init_next = sp_Sets s /\ 0 <= flush_next.2 < flush_count s.
Proof.
  intros Hw. pose proof flush_count_pos as Hpos. pose proof edge_selection as [Hsel _].
  assert (cb_flushing b = flushWait \/ cb_flushing b = flushWalk -> se_accept sel = false) as Hacc by (intros Hf; destruct Hsel as [| | | | |r Hn Er Hfl Hbeg Hcap]; try done; destruct Hf; congruence).
  assert (forall st, (let state := if bi_flushBegin i then flushWait else st in
    if selected_kind (se_op sel) bankInit && (init_next =? sp_Sets s) && bool_decide (state = flushWait) then flushDone else state) = flushWalk -> st = flushWalk) as Hst.
  { intros st. cbv zeta. destruct (bi_flushBegin i); [by destruct (_ && _)|]. by destruct (_ && _). }
  unfold flush_next, next_flush in *. destruct (cb_flushing b) eqn:Ef; cbn [fst snd] in *; try (apply Hst in Hw; done).
  - destruct ((init_next =? sp_Sets s) && (cb_reserved b =? 0) && bank_empty b) eqn:E; cbn [fst snd] in *; [|by apply Hst in Hw].
    rewrite !andb_true_iff, !Z.eqb_eq in E. destruct E as [[E1 E2] _]. split; [apply idle_next; [done|apply Hacc; by left]|]. split; [done|lia].
  - destruct (bk_flush _ _ _ Hb Ef) as (Hr & Hin & Hidx). assert (reserved_next = 0) as Hrn by (apply idle_next; [done|apply Hacc; by right]).
    assert (init_next = sp_Sets s) as Hi' by (pose proof next_init; unfold init_next in *; destruct (selected_kind _ bankInit); lia).
    split; [done|]. split; [done|]. destruct (selected_kind (se_op sel) bankFlush) eqn:Ek; cbn [fst snd] in *; [|done]. apply Hst in Hw. destruct (Z.eqb_spec (cb_flushIndex b + 1) (flush_count s)); [by destruct (cb_bank b =? 0)|lia].
  - apply Hst in Hw. by destruct (bank_empty b).
Qed.

Lemma pushed_length {A} (o : option A) : zlen (pushed o) = if is_some o then 1 else 0.
Proof. by destruct o. Qed.

Lemma responses_room : is_some (pl_response p) = true -> zlen (cb_responses b) < bs_Size (sp_CoreResponse s).
Proof.
  change (pl_response p) with (match forwarded with Some r => Some r | None => active ≫= commit_response end). destruct forwarded as [r|] eqn:Ef.
  - intros _. unfold forwarded in Ef. destruct (replay_of m) as [[h e]|]; [|done]. destruct (forward_head && _) eqn:E; [|done]. by apply andb_true_iff in E as [_ ?%Z.ltb_lt].
  - unfold active. destruct (pl_stalled p) eqn:Es; [done|]. destruct (cb_s1 b) as [c|] eqn:Ec; [|done]. cbn [mbind option_bind]. unfold commit_response. destruct (commits_read c) eqn:Er; [|done]. intros _.
    unfold bank_plan in Es. cbn [pl_stalled] in Es. rewrite Ec, Er in Es. apply orb_false_iff in Es as [Es _]. cbn [andb] in Es. by apply negb_false_iff, Z.ltb_lt in Es.
Qed.

Lemma memory_room : is_some (pl_memory p) = true -> zlen (cb_memory b) < bs_Size (sp_MemoryRequest s).
Proof.
  change (pl_memory p) with (active ≫= commit_memory). unfold active. destruct (pl_stalled p) eqn:Es; [done|]. destruct (cb_s1 b) as [c|] eqn:Ec; [|done]. cbn [mbind option_bind]. intros Hc.
  assert (commits_memory c = true) as Er by (unfold commits_memory, commit_memory in *; destruct (ev_Valid (bc_victim c)); [done|]; by destruct (first_miss c)).
  unfold bank_plan in Es. cbn [pl_stalled] in Es. rewrite Ec, Er in Es. apply orb_false_iff in Es as [_ Es]. cbn [andb] in Es. by apply negb_false_iff, Z.ltb_lt in Es.
Qed.

Lemma queue_bound {A} (q : list A) (pop : bool) (o : option A) size : zlen q <= size -> (is_some o = true -> zlen q < size) -> zlen ((if pop then tail q else q) ++ pushed o) <= size.
Proof.
  unfold zlen. rewrite length_app. intros Hq Ho. assert (length (if pop then tail q else q) <= length q)%nat by (destruct pop; [destruct q; cbn; lia|done]).
  destruct o; cbn in *; [specialize (Ho eq_refl)|]; lia.
Qed.

Lemma next_ok : bank_ok b' (sent_after sent i edge) (clock + 1).
Proof.
  destruct step_facts as (Hsz & Hfree & Hw & _). pose proof (mo_kept _ _ _ _ _ Hmv) as K. split; cbn [cb_spec cb_bank cb_array cb_mshr cb_reserved cb_s0 cb_s1 cb_responses cb_memory cb_initNext cb_flushing cb_flushIndex].
  - apply Hb.
  - apply K.
  - rewrite (kp_bank _ _ _ K). apply Hb.
  - apply next_init.
  - apply next_scan.
  - apply next_scanning.
  - rewrite <- next_roots, <- next_open. exact Hw.
  - rewrite Hsz. apply Hb.
  - apply next_entries.
  - intros j Hj. apply (step_generation m roots open ev edge_mshr edge_events_ok m' al clock Hs Hclock (bk_generation _ _ _ Hb) j Hj).
  - done.
  - apply next_reserved.
  - apply next_capacity.
  - apply next_s0.
  - apply next_s1.
  - apply next_head_ok.
  - apply next_flush_ok.
  - apply queue_bound; [apply Hb|apply responses_room].
  - apply queue_bound; [apply Hb|apply memory_room].
Qed.
(** *** What it owes *)

Definition dequeued_keys : list request_name := map request_key (if mv_dequeue ev then match ms_head m with Some h => [entry_key (at_handle entries h)] | None => [] end else []).
Definition released_keys : list request_name :=
  map request_key match mv_finalize ev with Some f => if fz_release f then [entry_key (at_handle entries (fz_handle f))] else [] | None => [] end.

(** A forwarded or replayed head leaves the table; an accepted request enters the first
    register. *)
Lemma selected_keys : pl_stalled p = false ->
  map request_key (stage0 s0') ++ map response_key (pushed forwarded) = accepted_key i edge ++ dequeued_keys \/
  map request_key (stage0 s0') ++ map response_key (pushed forwarded) = dequeued_keys ++ accepted_key i edge.
Proof.
  intros Es. rewrite (mo_s0 _ _ _ _ _ Hmv Es). unfold accepted_key, dequeued_keys. rewrite edge_events. cbn [mv_dequeue be_accepted bank_edge]. pose proof edge_selection as [Hsel _].
  destruct forwarded as [r|] eqn:Ef.
  - destruct (edge_forwarded r Ef) as (Hf & h & Hh & ->). assert (response_key (forward_response s (cb_forwarded b) (at_handle entries h)) = request_key (entry_key (at_handle entries h))) as Ekey.
    { unfold forward_head, replay_of in Hf. rewrite Hh in Hf. cbn [fmap option_fmap option_map] in Hf. rewrite !andb_true_iff, !negb_true_iff in Hf. destruct Hf as [[[_ Hw] _] _].
      unfold response_key, request_key, entry_key, forward_response. cbn. by rewrite Hw. }
    rewrite Hh. cbn [is_some orb pushed map]. rewrite Ekey. left.
    destruct Hsel as [|Hn|x e Hn Er Hfh|f Hn Efi Er|Hn Hfl|q Hn Er Hfl Hbeg Hcap]; cbn [se_op se_accept no_selection fmap option_fmap option_map];
      [by destruct (bi_request i)|by destruct (bi_request i)|congruence|by destruct (bi_request i)|by destruct (bi_request i)|]. by rewrite Er.
  - cbn [is_some orb pushed map]. rewrite app_nil_r. destruct Hsel as [|Hn|x e Hn Er Hfh|f Hn Efi Er|Hn Hfl|q Hn Er Hfl Hbeg Hcap]; cbn [se_op se_accept se_dequeue no_selection fmap option_fmap option_map];
      [left; by destruct (bi_request i)|left; by destruct (bi_request i)| |left; by destruct (bi_request i)|left; by destruct (bi_request i)|].
    + left. destruct (replay_head x e Er) as [-> ->]. by destruct (bi_request i).
    + left. rewrite Er. done.
Qed.

(** The first register hands its request to the table or to the commit register. *)
Lemma stage_keys : pl_stalled p = false -> map request_key (entering ev) ++ map request_key (stage1 s1') = map request_key (stage0 (cb_s0 b)).
Proof.
  intros Es. pose proof (mo_s1 _ _ _ _ _ Hmv Es) as H1. unfold entering. rewrite edge_events. cbn [mv_allocate]. rewrite Es. destruct (cb_s0 b) as [op|]; [|by destruct H1 as [_ ->]].
  destruct H1 as (c & -> & <- & _). unfold stage0, stage1, is_access, is_core. by destruct (bo_kind (bc_op c)).
Qed.

(** The commit register answers what it held. *)
Lemma commit_keys : pl_stalled p = false -> applied_key edge ++ map response_key (pushed (active ≫= commit_response)) = map request_key (stage1 (cb_s1 b)) ++ released_keys.
Proof.
  intros Es. unfold applied_key, released_keys. rewrite edge_events. cbn [mv_finalize bank_edge be_storeApplied be_storePort]. change (pl_store p) with (active ≫= commit_store). unfold active. rewrite Es.
  destruct (cb_s1 b) as [c|] eqn:Ec; [|done]. cbn [mbind option_bind]. pose proof (bk_s1 _ _ _ Hb c Ec) as Hc. unfold commit_ok in Hc.
  unfold commit_finalize, commit_response, commit_store, commits_read, stage1, is_core, is_access, allocated_handle, reply_ok, response_key, request_key in *.
  destruct (bo_kind (bc_op c)) eqn:Ek; try done.
  - rewrite (bool_decide_eq_true_2 (bankCore = bankCore)), (bool_decide_eq_false_2 (bankCore = bankReplay)) by done. cbn [orb andb].
    destruct Hc as (r & Er & _ & Hrep & Hkey & _). rewrite Er. cbn [fz_release fz_handle]. destruct (bc_hit c); rewrite ?andb_false_r, ?andb_true_r; [|done]. rewrite Hkey.
    destruct (wq_Write (bo_request (bc_op c))) eqn:Ew; cbn; rewrite ?Ew; [done|]. destruct (Hrep eq_refl) as [-> ->]. done.
  - rewrite (bool_decide_eq_true_2 (bankReplay = bankReplay)), (bool_decide_eq_false_2 (bankReplay = bankCore)) by done. cbn [orb andb].
    destruct Hc as (-> & _ & Hrep). rewrite ?andb_true_r. destruct (wq_Write (bo_request (bc_op c))) eqn:Ew; cbn; rewrite ?Ew; [done|]. destruct (Hrep eq_refl) as [-> ->]. done.
Qed.

Lemma response_keys : answered_key edge ++ map response_key responses_next = map response_key (cb_responses b) ++ map response_key (pushed forwarded) ++ map response_key (pushed (active ≫= commit_response)).
Proof.
  unfold responses_next, answered_key. cbn [be_response be_responseDelivered bank_edge].
  assert (map response_key (pushed (pl_response p)) = map response_key (pushed forwarded) ++ map response_key (pushed (active ≫= commit_response))) as Ep.
  { change (pl_response p) with (match forwarded with Some r => Some r | None => active ≫= commit_response end). destruct forwarded as [r|] eqn:Ef; [|done].
    destruct (edge_forwarded r Ef) as [Hf _]. destruct (edge_forward Hf) as [Es _].
    assert (match cb_s1 b with Some c => commits_read c | None => false end = false) as Hr.
    { unfold forward_head in Hf. destruct (replay_of m) as [[h e]|]; [|done]. rewrite !andb_true_iff, !negb_true_iff in Hf. apply Hf. }
    unfold active. rewrite Es. destruct (cb_s1 b) as [c|]; cbn [mbind option_bind]; [|done]. unfold commit_response. by rewrite Hr. }
  rewrite map_app, Ep. destruct (cb_responses b) as [|r rest]; cbn [head is_some andb tail map]; [by destruct (bi_responseReady i)|]. by destruct (bi_responseReady i).
Qed.

Lemma conserve {A} (del st s0n live_n s1n rs_n acc s0o live_o s1o rs_o fwd cm deq rel ent : list A) :
  s0n ++ fwd ≡ₚ acc ++ deq -> ent ++ s1n ≡ₚ s0o -> st ++ cm ≡ₚ s1o ++ rel -> del ++ rs_n ≡ₚ rs_o ++ fwd ++ cm -> (deq ++ rel) ++ live_n ≡ₚ ent ++ live_o ->
  (del ++ st) ++ s0n ++ live_n ++ s1n ++ rs_n ≡ₚ acc ++ s0o ++ live_o ++ s1o ++ rs_o.
Proof.
  intros H1 H2 H3 H4 H5. trans ((del ++ rs_n) ++ st ++ s0n ++ live_n ++ s1n); [solve_Permutation|]. rewrite H4.
  trans ((s0n ++ fwd) ++ (st ++ cm) ++ live_n ++ s1n ++ rs_o); [solve_Permutation|]. rewrite H1, H3.
  trans (((deq ++ rel) ++ live_n) ++ acc ++ s1o ++ s1n ++ rs_o); [solve_Permutation|]. rewrite H5, <- H2. solve_Permutation.
Qed.

Lemma next_owes : completed_keys edge ++ pending b' ≡ₚ accepted_key i edge ++ pending b.
Proof.
  pose proof (step_requests m roots open ev edge_mshr edge_events_ok m' al Hs) as Hp. apply (Permutation_map request_key) in Hp. rewrite !map_app in Hp.
  unfold pending, completed_keys. cbn [cb_s0 cb_s1 cb_mshr cb_responses]. pose proof response_keys as Hr. destruct (pl_stalled p) eqn:Es.
  - destruct (mo_stalled _ _ _ _ _ Hmv Es) as (_ & -> & ->). destruct (stalled_events Es) as (E1 & E2 & _ & E4). unfold leaving, entering in Hp. rewrite E1, E2, E4 in Hp. cbn [app map] in Hp.
    assert (accepted_key i edge = []) as -> by (unfold accepted_key; cbn [be_accepted bank_edge]; rewrite (stalled_selects Es); by destruct (bi_request i)).
    assert (active = None) as Ea by (unfold active; by rewrite Es). rewrite Ea in Hr. assert (applied_key edge = []) as ->.
    { unfold applied_key. cbn [be_storeApplied bank_edge]. change (pl_store p) with (active ≫= commit_store). by rewrite Ea. }
    assert (forwarded = None) as Ef by (destruct forwarded as [r|] eqn:Ef; [|done]; destruct (edge_forwarded r Ef) as [Hf _]; destruct (edge_forward Hf); congruence).
    rewrite Ef in Hr. cbn [mbind option_bind pushed map] in Hr. rewrite !app_nil_r in Hr |- *. rewrite <- Hr, Hp. solve_Permutation.
  - apply (conserve _ _ _ _ _ _ _ _ _ _ _ (map response_key (pushed forwarded)) (map response_key (pushed (active ≫= commit_response))) dequeued_keys released_keys (map request_key (entering ev))).
    + destruct (selected_keys Es) as [->| ->]; [done|apply Permutation_app_comm].
    + by rewrite stage_keys.
    + by rewrite commit_keys.
    + by rewrite Hr.
    + unfold dequeued_keys, released_keys. unfold leaving in Hp. rewrite map_app in Hp. exact Hp.
Qed.
End Next.

(** One legal edge succeeds and keeps the invariant. *)
Lemma bank_step_ok : exists b', bank_step b i = (b', Ok (bank_edge b i p)) /\ bank_ok b' (sent_after sent i (bank_edge b i p)) (clock + 1) /\ cb_spec b' = s /\ cb_bank b' = cb_bank b /\
  completed_keys (bank_edge b i p) ++ pending b' ≡ₚ accepted_key i (bank_edge b i p) ++ pending b.
Proof.
  destruct edge_moves as (m' & al & a' & s0' & s1' & Hs & Hmv & ->). eexists. split; [done|]. destruct (next_bank_eq m' a' s0' s1') as [forwarding ->]. split; [by apply (next_ok m' al)|]. split; [done|]. split; [done|]. by apply (next_owes m' al a').
Qed.
End Edge.
