(* ===== verification/CacheBankSpec.v ===== *)
(** * A cache bank never faults and answers every request once

    The runs of a bank from its initial state, under a memory that answers only the
    reads it was sent, in any order and after any delay. *)

From S2P Require Import Prelude Memory TimingIR Memsys CacheArray CacheArraySpec Mshr MshrSpec CacheBank CacheBankInvariant.

#[local] Open Scope Z_scope.
#[local] Open Scope go_scope.

(** ** The initial bank *)

(** Queue sizes and the miss table are not negative. *)
Record sizes_ok (s : CacheSpec) : Prop := {
  so_mshr : 0 <= sp_MSHR s;
  so_response : 0 <= bs_Size (sp_CoreResponse s);
  so_memory : 0 <= bs_Size (sp_MemoryRequest s)
}.

Lemma fresh_bank_ok s bank : spec_wf s -> sizes_ok s -> 0 <= bank < sp_Banks s -> bank_ok (newCacheBank s bank) [] 0 /\ pending (newCacheBank s bank) = [].
Proof.
  intros W [S1 S2 S3] Hb. assert (live_requests (ms_entries (newCacheMSHR (sp_MSHR s))) = []) as Hn.
  { unfold newCacheMSHR, live_requests. cbn [ms_entries]. generalize (Z.to_nat (sp_MSHR s)) as n. intros n. induction n as [|n IH]; [done|]. cbn [replicate]. by rewrite bind_cons, IH. }
  assert (forall h, ~ live (ms_entries (newCacheMSHR (sp_MSHR s))) h) as Hl by (intros h; by apply no_live_requests).
  split; [|unfold pending; cbn [newCacheBank cb_mshr cb_s0 cb_s1 cb_responses]; by rewrite Hn]. destruct W as [W1 W2 W3 W4 W5] eqn:EW.
  split; cbn [newCacheBank cb_spec cb_bank cb_array cb_mshr cb_reserved cb_s0 cb_s1 cb_responses cb_memory cb_initNext cb_flushing cb_flushIndex]; try done.
  - by apply fresh_array_wf.
  - lia.
  - intros set Hset. lia.
  - apply fresh_mshr_wf.
  - unfold newCacheMSHR, zlen. cbn [ms_entries]. rewrite length_replicate. lia.
  - intros h Hh. by destruct (Hl h).
  - intros j _. unfold slot_in, newCacheMSHR. cbn [ms_entries]. destruct (replicate _ _ !! _) as [e|] eqn:E; [apply lookup_replicate in E as [-> _]|]; cbn; lia.
  - by rewrite Hn.
Qed.

(** ** Runs *)

Fixpoint bank_run (b : cacheBank) (inputs : list bankInput) : cacheBank * result (list bankEdge) :=
  match inputs with
  | [] => (b, Ok [])
  | i :: rest =>
      match bank_step b i with
      | (b, Err e) => (b, Err e)
      | (b, Ok edge) => let '(b, r) := bank_run b rest in (b, let? edges := r in Ok (edge :: edges))
      end
  end.

(** Every input is legal when it is given: requests of the bank, from a port it has;
    fills of reads that the memory was sent and has not answered, a line each; flushes
    begun only when none is under way. *)
Fixpoint inputs_ok (b : cacheBank) (sent : list mshrHandle) (inputs : list bankInput) : Prop :=
  match inputs with
  | [] => True
  | i :: rest =>
      input_ok b sent i /\
      match bank_step b i with (b', Ok edge) => inputs_ok b' (sent_after sent i edge) rest | (_, Err _) => True end
  end.

Fixpoint accepted_keys (inputs : list bankInput) (edges : list bankEdge) : list request_name :=
  match inputs, edges with i :: inputs, e :: edges => accepted_key i e ++ accepted_keys inputs edges | _, _ => [] end.

Lemma bank_run_ok inputs b sent clock : bank_ok b sent clock -> inputs_ok b sent inputs -> clock + zlen inputs < 2 ^ 64 ->
  exists b' edges sent', bank_run b inputs = (b', Ok edges) /\ length edges = length inputs /\ bank_ok b' sent' (clock + zlen inputs) /\ cb_spec b' = cb_spec b /\
    (edges ≫= completed_keys) ++ pending b' ≡ₚ accepted_keys inputs edges ++ pending b.
Proof.
  revert b sent clock. induction inputs as [|i inputs IH]; intros b sent clock Hb Hi Hc; cbn [bank_run inputs_ok] in *.
  - exists b, [], sent. unfold zlen. cbn. rewrite Z.add_0_r. by split_and!.
  - destruct Hi as [Hi Hrest]. unfold zlen in *. cbn [length] in *. destruct (bank_step_ok b sent clock i Hb Hi ltac:(lia)) as (b1 & E1 & Hb1 & Es1 & _ & Hp1). rewrite E1 in Hrest |- *.
    destruct (IH b1 _ _ Hb1 Hrest ltac:(lia)) as (b2 & edges & sent' & -> & Hlen & Hb2 & Es2 & Hp2). eexists b2, (_ :: edges), sent'. split; [done|]. split; [cbn; by rewrite Hlen|].
    split; [by replace (clock + Z.of_nat (Datatypes.S (length inputs))) with (clock + 1 + Z.of_nat (length inputs)) by lia|]. split; [congruence|].
    cbn [accepted_keys]. rewrite bind_cons, <- (app_assoc (completed_keys _)), Hp2, Permutation_app_swap_app, Hp1. solve_Permutation.
Qed.

(** C6: a cache bank never faults.  From its initial state, under any sequence of fewer
    than 2^64 legal inputs (requests of its addresses, memory answers in any order after
    any delay, back-pressure on both sides, flushes), every edge succeeds: no MSHR
    allocation without space, no fill or link of a stale or unfinalized entry, no double
    release, no replay that misses, no access of an unscanned set; and neither queue nor
    the miss table ever holds more than its capacity. *)
Theorem bank_never_faults (s : CacheSpec) (bank : Z) (inputs : list bankInput) :
  spec_wf s -> sizes_ok s -> 0 <= bank < sp_Banks s -> inputs_ok (newCacheBank s bank) [] inputs -> zlen inputs < 2 ^ 64 ->
  exists b edges, bank_run (newCacheBank s bank) inputs = (b, Ok edges) /\ length edges = length inputs /\
    zlen (cb_responses b) <= bs_Size (sp_CoreResponse s) /\ zlen (cb_memory b) <= bs_Size (sp_MemoryRequest s) /\
    mshr_occupancy (cb_mshr b) <= cb_reserved b <= sp_MSHR s.
Proof.
  intros W S Hb Hi Hn. destruct (fresh_bank_ok s bank W S Hb) as [Hok _]. destruct (bank_run_ok inputs _ _ _ Hok Hi ltac:(lia)) as (b & edges & sent & E & Hlen & Hb' & Es & _).
  exists b, edges. split; [done|]. split; [done|]. cbn [newCacheBank cb_spec] in Es. rewrite <- Es. split; [apply Hb'|]. split; [apply Hb'|]. rewrite occupancy_requests.
  pose proof (bk_reserved _ _ _ Hb'). pose proof (bk_capacity _ _ _ Hb'). destruct (core_in _); lia.
Qed.

(** C5: a cache bank answers each request exactly once.  The requests accepted in such a
    run are, as a multiset of (port, identity, tag, write), the reads whose response was
    delivered, the stores applied, and those the bank still holds; and a drained bank
    holds none, so by then every request has been answered once and nothing else has. *)
Theorem bank_exactly_once (s : CacheSpec) (bank : Z) (inputs : list bankInput) b edges :
  spec_wf s -> sizes_ok s -> 0 <= bank < sp_Banks s -> inputs_ok (newCacheBank s bank) [] inputs -> zlen inputs < 2 ^ 64 ->
  bank_run (newCacheBank s bank) inputs = (b, Ok edges) ->
  accepted_keys inputs edges ≡ₚ (edges ≫= completed_keys) ++ pending b /\
  (bank_drained b = true -> accepted_keys inputs edges ≡ₚ edges ≫= completed_keys).
Proof.
  intros W S Hb Hi Hn E. destruct (fresh_bank_ok s bank W S Hb) as [Hok Hp0]. destruct (bank_run_ok inputs _ _ _ Hok Hi ltac:(lia)) as (b1 & edges1 & sent & E1 & _ & Hb' & _ & Hp).
  rewrite E in E1. injection E1 as <- <-. rewrite Hp0, app_nil_r in Hp. split; [done|]. intros Hd. rewrite <- Hp. assert (pending b = []) as ->; [|by rewrite app_nil_r].
  unfold bank_drained, bank_empty in Hd. rewrite !andb_true_iff, !negb_true_iff in Hd. destruct Hd as [[[_ [[H0 H1] _]] Hr%Z.eqb_eq] Hq].
  destruct (nothing_reserved b sent _ Hb' Hr) as [Hl _]. unfold pending. rewrite Hl. destruct (cb_s0 b), (cb_s1 b), (cb_responses b); done.
Qed.

(** ** A run *)

(** The legality of a list of inputs, computed. *)
Definition input_okb (b : cacheBank) (sent : list mshrHandle) (i : bankInput) : bool :=
  match bi_request i with
  | Some r => (0 <=? wq_Address r) && (wq_Address r <? 2 ^ 32) && is_ok (requestValid b r) && (0 <=? bi_port i) && (bi_port i <? sp_CorePorts (cb_spec b))
  | None => true
  end &&
  match bi_fill i with Some f => bool_decide (bf_handle f ∈ sent) && (zlen (bf_data f) =? 64) | None => true end &&
  (negb (bi_flushBegin i) || bool_decide (cb_flushing b = flushIdle)).

Fixpoint inputs_okb (b : cacheBank) (sent : list mshrHandle) (inputs : list bankInput) : bool :=
  match inputs with
  | [] => true
  | i :: rest => input_okb b sent i && match bank_step b i with (b', Ok edge) => inputs_okb b' (sent_after sent i edge) rest | (_, Err _) => true end
  end.

Lemma input_okb_ok b sent i : input_okb b sent i = true -> input_ok b sent i.
Proof.
  unfold input_okb. rewrite !andb_true_iff. intros [[Hr Hf] Hb]. split.
  - intros r E. rewrite E, !andb_true_iff, !Z.leb_le, !Z.ltb_lt in Hr. destruct Hr as [[[[? ?] Hv] ?] ?]. unfold port_ok. split; [|lia]. apply requestValid_legal; [unfold is_u32; lia|].
    destruct (requestValid b r) as [[]|]; done.
  - intros f E. rewrite E, andb_true_iff, bool_decide_eq_true, Z.eqb_eq in Hf. done.
  - intros E. rewrite E in Hb. cbn in Hb. by apply bool_decide_eq_true in Hb.
Qed.

Lemma inputs_okb_ok inputs b sent : inputs_okb b sent inputs = true -> inputs_ok b sent inputs.
Proof.
  revert b sent. induction inputs as [|i inputs IH]; intros b sent; cbn [inputs_okb inputs_ok]; [done|]. rewrite andb_true_iff. intros [H1 H2]. split; [by apply input_okb_ok|].
  destruct (bank_step b i) as [b' [edge|e]]; [by apply IH|done].
Qed.

(** One bank of two sets of two ways, with a response queue of two. *)
Definition demo_spec : CacheSpec :=
  mkCacheSpec DataCache 256 1 2 2 4 64 1 1 2 4 true (mkBufferSpec "response" 2 1) (mkBufferSpec "request" 8 1) no_buffer no_buffer no_buffer no_buffer no_buffer no_arbiter no_arbiter no_arbiter no_arbiter.

Lemma demo_spec_wf : spec_wf demo_spec.
Proof. split; [reflexivity..|by left]. Qed.

Lemma demo_sizes_ok : sizes_ok demo_spec.
Proof. by split. Qed.

Definition idle_input : bankInput := mkBankInput None 0 true true None false.
Definition ask (r : WordRequest) : bankInput := mkBankInput (Some r) 0 true true None false.
Definition answer (h : mshrHandle) : bankInput := mkBankInput None 0 true true (Some (mkBankFill h (replicate 64 1) None)) false.
Definition blocked (i : bankInput) : bankInput := mkBankInput (bi_request i) (bi_port i) false (bi_memoryReady i) (bi_fill i) (bi_flushBegin i).

Definition read_word (tag address : Z) : WordRequest := mkWordRequest no_identity tag address false false false 0 zero_word.
Definition store_word_of (tag address : Z) : WordRequest := mkWordRequest no_identity tag address true false false 15 [9; 9; 9; 9; 0; 0; 0; 0].

(** Two sets are scanned; a load and a store of one line miss; the line is filled. *)
Definition demo_inputs : list bankInput :=
  [idle_input; idle_input; ask (read_word 1 4); ask (store_word_of 2 8); idle_input; idle_input; idle_input; answer (mkHandle 0 1); idle_input; idle_input; idle_input; idle_input; idle_input].

Example bank_never_faults_witness : exists b edges, bank_run (newCacheBank demo_spec 0) demo_inputs = (b, Ok edges) /\ length edges = 13%nat /\ zlen (cb_responses b) <= 2.
Proof.
  destruct (bank_never_faults demo_spec 0 demo_inputs demo_spec_wf demo_sizes_ok ltac:(cbn; lia)) as (b & edges & E & Hl & Hr & _).
  - apply inputs_okb_ok. vm_compute. reflexivity.
  - by vm_compute.
  - exists b, edges. split; [exact E|]. split; [exact Hl|exact Hr].
Defined.

Definition demo_edges : list bankEdge := match bank_run (newCacheBank demo_spec 0) demo_inputs with (_, Ok edges) => edges | (_, Err _) => [] end.

Example bank_exactly_once_witness : accepted_keys demo_inputs demo_edges = [(0, no_identity, 1, false); (0, no_identity, 2, true)] /\ accepted_keys demo_inputs demo_edges ≡ₚ demo_edges ≫= completed_keys.
Proof.
  split; [vm_compute; reflexivity|].
  assert (match bank_run (newCacheBank demo_spec 0) demo_inputs with (b, Ok _) => bank_drained b | (_, Err _) => false end = true) as Hd by (vm_compute; reflexivity).
  unfold demo_edges. destruct (bank_run (newCacheBank demo_spec 0) demo_inputs) as [b [edges|e]] eqn:E; [|discriminate Hd].
  refine (proj2 (bank_exactly_once demo_spec 0 demo_inputs b edges demo_spec_wf demo_sizes_ok _ _ _ E) Hd).
  - cbn. lia.
  - apply inputs_okb_ok. vm_compute. reflexivity.
  - by vm_compute.
Defined.

(** What the bank does not promise: with its response queue full, a load accepted after a
    store of the same word can hit the filled line and answer before that store, which
    still waits in the chain, is applied.  The module's documentation leaves that order
    to the caller. *)
Definition overtaking_inputs : list bankInput :=
  map blocked ([idle_input; idle_input; ask (read_word 1 64); ask (read_word 2 64); idle_input; idle_input; answer (mkHandle 0 1)] ++ replicate 6 idle_input ++
    [ask (read_word 3 0); ask (store_word_of 4 0); idle_input; idle_input; answer (mkHandle 0 2); idle_input; ask (read_word 5 0); idle_input; idle_input]) ++ replicate 10 idle_input.

(** Responses by tag and first byte, and applied stores by tag, in order. *)
Definition observed (e : bankEdge) : list (Z * Z) :=
  match be_response e with Some r => if be_responseDelivered e then [(wr_Tag (br_response r), default 0 (wr_Data (br_response r) !! O))] else [] | None => [] end ++
  match be_storeApplied e with Some r => [(wq_Tag r, -1)] | None => [] end.

Example hit_overtakes_store :
  inputs_okb (newCacheBank demo_spec 0) [] overtaking_inputs = true /\
  match bank_run (newCacheBank demo_spec 0) overtaking_inputs with (_, Ok edges) => edges ≫= observed | (_, Err _) => [] end = [(1, 1); (2, 1); (5, 1); (3, 1); (4, -1)].
Proof. split; vm_compute; reflexivity. Qed.
