(* ===== verification/Backend.v ===== *)
(** * The external memory backend (src/timing/memsys/backend.go)

    Clients offer sector requests; the backend accepts a bounded number per edge, serves
    each on the byte owner a fixed latency later, in acceptance order, and returns the
    responses in that order.  The byte owner is any [MemoryService]; [Step] takes it as
    part of the backend and returns it, an error leaves everything as it was. *)

From S2P Require Import Prelude Memory TimingIR Memsys.

#[local] Open Scope Z_scope.
#[local] Open Scope go_scope.

Record Config := mkConfig { cf_Latency : Z; cf_AcceptsPerCycle : Z; cf_MaxInflight : Z; cf_ReturnsPerCycle : Z }.

Definition DefaultConfig `{TimingDocument} : result Config :=
  let value k := Number "memory_contracts" "mc-backend" ["parameters"; k] in
  let? latency := value "latency_cycles" in
  let? accepts := value "accepts_per_cycle" in
  let? inflight := value "max_inflight" in
  let? returns := value "returns_per_cycle" in
  let? line := Number "config" "cfg-memory" ["values"; "line_and_sector_bytes"] in
  check line =? SectorBytes else Errorf "unsupported external sector size" in
  Ok (mkConfig (u64 latency) accepts inflight returns).

(** One accepted request, with its response in the making. *)
Record entry := mkEntry { en_client : Z; en_request : Request; en_due : Z; en_response : Response; en_serviced : bool }.

Section Backend.
Context {M : Type} `{MemoryService M}.

Record Backend := mkBackend {
  bk_owner : M;
  bk_config : Config;
  bk_queue : list entry;
  bk_held : list Offer;
  bk_last : list Z;
  bk_used : list bool;
  bk_nextClient : Z;
  bk_sequence : Z;
  bk_cycle : Z;
  bk_started : bool;
  bk_writeError : option error
}.

(** [owner == nil] is [None]. *)
Definition Backend_New (owner : option M) (config : Config) (clients : Z) : result Backend :=
  match owner with
  | None => Err (Errorf "nil backing owner")
  | Some owner =>
      if (cf_Latency config =? 0) || (cf_AcceptsPerCycle config <=? 0) || (cf_MaxInflight config <=? 0) || (cf_ReturnsPerCycle config <=? 0) || (clients <=? 0)
      then Err (Errorf "invalid backend configuration")
      else
        let n := Z.to_nat clients in
        Ok (mkBackend owner config [] (replicate n None) (replicate n 0) (replicate n false) 0 0 0 false None)
  end.

Definition Outstanding (b : Backend) : Z := zlen (bk_queue b).

Definition MaxUint64 : Z := 2 ^ 64 - 1.

(** ** The checks *)

Definition aligned_sector (r : Request) : bool := bool_decide (rq_Operation r = OpVisibility) || (rq_Address r mod SectorBytes =? 0).

Definition offer_check (b : Backend) (cycle : Z) (held : Offer) (last : Z) (used : bool) (o : Offer) : result unit :=
  check negb (bool_decide (held <> None /\ o <> held)) else Errorf "client changed stalled request" in
  match o with
  | None => Ok tt
  | Some r =>
      check known_operation (rq_Operation r) && aligned_sector r else Errorf "invalid request on client" in
      check negb (used && (id_Transaction (rq_Identity r) <=? last)) else Errorf "repeated or stale transaction on client" in
      check negb (cycle >? MaxUint64 - cf_Latency (bk_config b)) else Errorf "backend due cycle overflow" in Ok tt
  end.

Fixpoint offers_check (b : Backend) (cycle : Z) (held : list Offer) (last : list Z) (used : list bool) (offers : list Offer) : result unit :=
  match held, last, used, offers with
  | h :: held, l :: last, u :: used, o :: offers => let? _ := offer_check b cycle h l u o in offers_check b cycle held last used offers
  | _, _, _, _ => Ok tt
  end.

Definition step_check (b : Backend) (cycle : Z) (offers : list Offer) (ready : list bool) : result unit :=
  check (zlen offers =? zlen (bk_held b)) && (zlen ready =? zlen (bk_held b)) else Errorf "wrong client port count" in
  check negb (bk_started b && ((bk_cycle b =? MaxUint64) || (cycle <>? bk_cycle b + 1))) else Errorf "noncontiguous backend cycle" in
  let? _ := offers_check b cycle (bk_held b) (bk_last b) (bk_used b) offers in
  check negb (bk_sequence b >? MaxUint64 - zlen offers) else Errorf "backend sequence overflow" in Ok tt.

(** ** Service *)

(** The data and the error of a request on the owner; the first write error is kept for
    the visibility requests. *)
Definition serve (owner : M) (writeError : option error) (r : Request) : M * option error * (list Z * option error) :=
  match rq_Operation r with
  | OpRead => match svc_read owner (rq_Address r) SectorBytes with
              | Ok data => (owner, writeError, (data, None))
              | Err e => (owner, writeError, (zero_sector, Some e))
              end
  | OpWrite =>
      let writes := run_writes (rq_Address r) SectorBytes (rq_ByteEnable r) (rq_Data r) in
      let '(owner, err) := match writes with
        | [] => (owner, None)
        | _ => match svc_batch owner (map fst writes) (map snd writes) with (owner, Ok _) => (owner, None) | (owner, Err e) => (owner, Some e) end
        end in
      (owner, match writeError with Some _ => writeError | None => err end, (zero_sector, err))
  | OpVisibility => (owner, writeError, (zero_sector, writeError))
  | OpOther _ => (owner, writeError, (zero_sector, None))
  end.

Definition answered (r : Response) (data : list Z) (err : option error) (cycle : Z) : Response :=
  mkResponse (rs_Identity r) (rs_Tag r) (rs_Operation r) data (rs_ByteEnable r) (rs_AcceptedCycle r) cycle (rs_Sequence r) err.

(** Every due entry that has not been served is served, in queue order. *)
Fixpoint service (cycle : Z) (owner : M) (writeError : option error) (queue : list entry) : M * option error * list entry :=
  match queue with
  | [] => (owner, writeError, [])
  | e :: queue =>
      if en_serviced e || (en_due e >? cycle) then let '(owner, writeError, queue) := service cycle owner writeError queue in (owner, writeError, e :: queue)
      else
        let '(owner, writeError, (data, err)) := serve owner writeError (en_request e) in
        let '(owner, writeError, queue) := service cycle owner writeError queue in
        (owner, writeError, mkEntry (en_client e) (en_request e) (en_due e) (answered (en_response e) data err cycle) true :: queue)
  end.

(** ** Return *)

Definition reply_at (replies : list Reply) (client : Z) : Reply := default no_reply (replies !! Z.to_nat client).
Definition valid_reply (r : Reply) : bool := match rp_Response r with Some _ => true | None => false end.
Definition ready_at (ready : list bool) (client : Z) : bool := default false (ready !! Z.to_nat client).

(** The replies of the edge and the number of entries retired; [limit] turns are left. *)
Fixpoint retire (limit : nat) (ready : list bool) (queue : list entry) (replies : list Reply) : list Reply * nat :=
  match limit, queue with
  | S limit, e :: queue =>
      if negb (en_serviced e) || valid_reply (reply_at replies (en_client e)) then (replies, O)
      else
        let replies := <[Z.to_nat (en_client e) := mkReply (Some (en_response e)) (ready_at ready (en_client e))]> replies in
        if negb (ready_at ready (en_client e)) then (replies, O)
        else let '(replies, n) := retire limit ready queue replies in (replies, S n)
  | _, _ => (replies, O)
  end.

(** ** Acceptance *)

Definition response_mask (r : Request) : Z := match rq_Operation r with OpRead => MaxUint64 | OpVisibility => 0 | _ => rq_ByteEnable r end.

Definition new_entry (b : Backend) (cycle sequence client : Z) (r : Request) : entry :=
  mkEntry client r (cycle + cf_Latency (bk_config b))
    (mkResponse (rq_Identity r) (rq_Tag r) (rq_Operation r) zero_sector (response_mask r) cycle 0 sequence None) false.

(** The state of the acceptance loop. *)
Record acceptance := mkAcceptance { ac_count : Z; ac_next : Z; ac_sequence : Z; ac_entries : list entry; ac_accepted : list bool; ac_last : list Z; ac_used : list bool }.

Definition accept_client (b : Backend) (cycle slots : Z) (offers : list Offer) (st : acceptance) (client : Z) : acceptance :=
  match mjoin (offers !! Z.to_nat client) with
  | None => st
  | Some r =>
      if (ac_count st >=? cf_AcceptsPerCycle (bk_config b)) || (ac_count st >=? slots) then st
      else
        let sequence := u64 (ac_sequence st + 1) in
        mkAcceptance (ac_count st + 1) ((client + 1) mod zlen offers) sequence (ac_entries st ++ [new_entry b cycle sequence client r])
          (<[Z.to_nat client := true]> (ac_accepted st)) (<[Z.to_nat client := id_Transaction (rq_Identity r)]> (ac_last st)) (<[Z.to_nat client := true]> (ac_used st))
  end.

Definition accept_all (b : Backend) (cycle slots : Z) (offers : list Offer) : acceptance :=
  fold_left (accept_client b cycle slots offers) (map (fun offset => (bk_nextClient b + Z.of_nat offset) mod zlen offers) (seq 0 (length offers)))
    (mkAcceptance 0 (bk_nextClient b) (bk_sequence b) [] (replicate (length offers) false) (bk_last b) (bk_used b)).

(** The offers that were not accepted are held. *)
Definition still_held (offers : list Offer) (accepted : list bool) : list Offer :=
  zip_with (fun o (a : bool) => if a then None else o) offers accepted.

Definition Backend_Step (b : Backend) (cycle : Z) (offers : list Offer) (ready : list bool) : Backend * result Edge :=
  match step_check b cycle offers ready with
  | Err e => (b, Err e)
  | Ok _ =>
      let slots := cf_MaxInflight (bk_config b) - zlen (bk_queue b) in
      let '(owner, writeError, queue) := service cycle (bk_owner b) (bk_writeError b) (bk_queue b) in
      let '(replies, retired) := retire (Z.to_nat (cf_ReturnsPerCycle (bk_config b))) ready queue (replicate (length offers) no_reply) in
      let st := accept_all b cycle slots offers in
      (mkBackend owner (bk_config b) (drop retired queue ++ ac_entries st) (still_held offers (ac_accepted st)) (ac_last st) (ac_used st) (ac_next st)
         (ac_sequence st) cycle true writeError,
       Ok (mkEdge (ac_accepted st) replies))
  end.

(** ** Preview *)

Fixpoint preview (limit : nat) (cycle : Z) (queue : list entry) (replies : list Reply) : list Reply :=
  match limit, queue with
  | S limit, e :: queue =>
      if (en_due e >? cycle) || valid_reply (reply_at replies (en_client e)) then replies
      else preview limit cycle queue (<[Z.to_nat (en_client e) := mkReply (Some (en_response e)) false]> replies)
  | _, _ => replies
  end.

Definition PreviewResponses (b : Backend) (cycle : Z) : result (list Reply) :=
  check negb (bk_started b && ((bk_cycle b =? MaxUint64) || (cycle <>? bk_cycle b + 1))) else Errorf "noncontiguous backend preview cycle" in
  Ok (preview (Z.to_nat (cf_ReturnsPerCycle (bk_config b))) cycle (bk_queue b) (replicate (length (bk_held b)) no_reply)).
End Backend.

Arguments Backend M : clear implicits.
