(* ===== verification/BackendSpec.v ===== *)
(** * The backend is a sequential memory with a latency

    Any run of the backend serves the accepted requests one after the other, in
    acceptance order, on the original owner, and returns the results to their clients in
    that order, each exactly the configured latency after its acceptance. *)

From Stdlib Require Import Sorting.Sorted.
From S2P Require Import Prelude Memory TimingIR Memsys Backend.

#[local] Open Scope Z_scope.
#[local] Open Scope go_scope.

(** ** The sequential reference *)

(** A request accepted from a client at a cycle, with its global number. *)
Record ticket := mkTicket { tk_client : Z; tk_request : Request; tk_cycle : Z; tk_sequence : Z }.

Section Spec.
Context {M : Type} `{MemoryService M}.

(** The owner and the first write error after serving the requests in order, and the
    data and error of each. *)
Fixpoint sequential (st : M * option error) (requests : list Request) : M * option error * list (list Z * option error) :=
  match requests with
  | [] => (st, [])
  | r :: requests => let '(owner, we, result) := serve st.1 st.2 r in let '(st, results) := sequential (owner, we) requests in (st, result :: results)
  end.

Lemma sequential_app st rs rs' : sequential st (rs ++ rs') =
  let '(st1, out1) := sequential st rs in let '(st2, out2) := sequential st1 rs' in (st2, out1 ++ out2).
Proof.
  revert st. induction rs as [|r rs IH]; intros st; cbn [app sequential]; [by destruct (sequential st rs')|]. destruct (serve st.1 st.2 r) as [[owner we] result].
  rewrite IH. destruct (sequential (owner, we) rs) as [st1 out1]. by destruct (sequential st1 rs') as [st2 out2].
Qed.

Lemma sequential_length st rs : length (sequential st rs).2 = length rs.
Proof.
  revert st. induction rs as [|r rs IH]; intros st; cbn [sequential]; [done|]. destruct (serve st.1 st.2 r) as [[owner we] result]. specialize (IH (owner, we)).
  destruct (sequential (owner, we) rs) as [st1 out1]. cbn in *. by rewrite IH.
Qed.

(** The response a ticket must get. *)
Definition full_response (latency : Z) (t : ticket) (result : list Z * option error) : Response :=
  let r := tk_request t in
  mkResponse (rq_Identity r) (rq_Tag r) (rq_Operation r) result.1 (response_mask r) (tk_cycle t) (tk_cycle t + latency) (tk_sequence t) result.2.

(** ** Entries of the queue *)

Definition waiting_entry (latency : Z) (t : ticket) : entry :=
  let r := tk_request t in
  mkEntry (tk_client t) r (tk_cycle t + latency) (mkResponse (rq_Identity r) (rq_Tag r) (rq_Operation r) zero_sector (response_mask r) (tk_cycle t) 0 (tk_sequence t) None) false.

Definition served_entry (latency : Z) (t : ticket) (result : list Z * option error) : entry :=
  mkEntry (tk_client t) (tk_request t) (tk_cycle t + latency) (full_response latency t result) true.

Definition due (latency : Z) (t : ticket) : Z := tk_cycle t + latency.

Lemma service_served cycle owner we latency (ts : list ticket) results queue : length results = length ts ->
  service cycle owner we (zip_with (served_entry latency) ts results ++ queue) =
  let '(owner', we', queue') := service cycle owner we queue in (owner', we', zip_with (served_entry latency) ts results ++ queue').
Proof.
  revert results. induction ts as [|t ts IH]; intros [|x results] Hl; cbn [zip_with app service length] in *; try done; [by destruct (service cycle owner we queue) as [[? ?] ?]|].
  cbn [en_serviced served_entry orb]. rewrite IH by lia. by destruct (service cycle owner we queue) as [[? ?] ?].
Qed.

Lemma service_waiting cycle owner we latency (ts : list ticket) : Forall (fun t => cycle < due latency t) ts ->
  service cycle owner we (map (waiting_entry latency) ts) = (owner, we, map (waiting_entry latency) ts).
Proof.
  induction 1 as [|t ts Ht _ IH]; cbn [map service]; [done|]. cbn [en_serviced en_due waiting_entry orb]. unfold due in Ht. destruct (Z.ltb_spec cycle (tk_cycle t + latency)); [|lia]. by rewrite IH.
Qed.

(** The entries due now are served in order. *)
Lemma service_due cycle owner we latency (ts : list ticket) queue : Forall (fun t => due latency t = cycle) ts ->
  service cycle owner we (map (waiting_entry latency) ts ++ queue) =
  let '(st, results) := sequential (owner, we) (map tk_request ts) in
  let '(owner', we', queue') := service cycle st.1 st.2 queue in (owner', we', zip_with (served_entry latency) ts results ++ queue').
Proof.
  intros Hts. revert owner we. induction Hts as [|t ts Ht _ IH]; intros owner we; cbn [map app service sequential zip_with fst snd]; [by destruct (service cycle owner we queue) as [[? ?] ?]|].
  cbn [en_serviced en_due en_request en_client en_response waiting_entry orb]. unfold due in Ht. destruct (Z.ltb_spec cycle (tk_cycle t + latency)); [lia|].
  destruct (serve owner we (tk_request t)) as [[owner1 we1] [data err]] eqn:Es. rewrite IH. destruct (sequential (owner1, we1) (map tk_request ts)) as [st results].
  destruct (service cycle st.1 st.2 queue) as [[owner2 we2] queue2]. cbn [zip_with app]. unfold served_entry, full_response, answered. cbn. by rewrite Ht.
Qed.

(** Tickets in acceptance order: those due now come first. *)
Lemma split_due cycle latency (ts : list ticket) : StronglySorted (fun a b => tk_cycle a <= tk_cycle b) ts -> Forall (fun t => cycle <= due latency t) ts ->
  exists now later, ts = now ++ later /\ Forall (fun t => due latency t = cycle) now /\ Forall (fun t => cycle < due latency t) later.
Proof.
  induction 1 as [|t ts Hs IH Hle]; intros Hd; [by exists [], []|]. apply Forall_cons in Hd as [Ht Hd]. destruct (Z.eq_dec (due latency t) cycle) as [E|Hne].
  - destruct (IH Hd) as (now & later & -> & Hn & Hl). exists (t :: now), later. split; [done|]. split; [by constructor|done].
  - exists [], (t :: ts). split; [done|]. split; [constructor|]. constructor; [unfold due in *; lia|]. eapply Forall_impl; [exact Hle|]. cbv beta. unfold due in *. lia.
Qed.

(** ** The replies of an edge *)

(** The response an edge delivers to a client. *)
Definition delivered_to (client : Z) (replies : list Reply) : list Response :=
  match reply_at replies client with mkReply (Some r) true => [r] | _ => [] end.

Definition in_ports (n : nat) (client : Z) : Prop := 0 <= client < Z.of_nat n.

Lemma reply_at_insert replies client c x : in_ports (length replies) client -> 0 <= c -> reply_at (<[Z.to_nat client := x]> replies) c = if client =? c then x else reply_at replies c.
Proof.
  unfold in_ports, reply_at. intros Hc Hc0. destruct (Z.eqb_spec client c) as [<-|Hne]; [by rewrite list_lookup_insert_eq by lia|]. by rewrite list_lookup_insert_ne by lia.
Qed.

Definition for_client (c : Z) (queue : list entry) : list Response := map en_response (filter (fun e => en_client e = c) queue).

(** The retired entries are a served prefix, and each client gets exactly its own. *)
Lemma retire_spec limit ready queue replies replies' n c : 0 <= c -> Forall (fun e => in_ports (length replies) (en_client e)) queue -> retire limit ready queue replies = (replies', n) ->
  delivered_to c replies' = delivered_to c replies ++ for_client c (take n queue) /\ (n <= length queue)%nat /\ Forall (fun e => en_serviced e = true) (take n queue) /\ length replies' = length replies.
Proof.
  intros Hc. revert queue replies replies' n. induction limit as [|limit IH]; intros queue replies replies' n Hq Hr.
  { assert (replies' = replies /\ n = O) as [-> ->] by (by destruct queue; injection Hr as <- <-). rewrite take_0. unfold for_client. cbn. rewrite app_nil_r. split_and!; [done|lia|constructor|done]. }
  destruct queue as [|e queue]; cbn [retire] in Hr; [injection Hr as <- <-; unfold for_client; cbn; rewrite app_nil_r; split_and!; [done|lia|constructor|done]|].
  apply Forall_cons in Hq as [He Hq]. destruct (negb (en_serviced e) || valid_reply (reply_at replies (en_client e))) eqn:E.
  { injection Hr as <- <-. unfold for_client. cbn. rewrite app_nil_r. split_and!; [done|lia|constructor|done]. }
  apply orb_false_iff in E as [Es%negb_false_iff Ev]. set (replies1 := <[Z.to_nat (en_client e) := _]> replies) in *.
  assert (length replies1 = length replies) as El by (unfold replies1; apply length_insert).
  assert (delivered_to c replies1 = if en_client e =? c then (if ready_at ready (en_client e) then [en_response e] else []) else delivered_to c replies) as Ed.
  { unfold delivered_to, replies1. rewrite reply_at_insert by done. destruct (en_client e =? c); [|done]. by destruct (ready_at ready (en_client e)). }
  assert (en_client e = c -> delivered_to c replies = []) as Hempty.
  { intros <-. unfold delivered_to. destruct (reply_at replies (en_client e)) as [[r|] d]; [done|done]. }
  destruct (ready_at ready (en_client e)) eqn:Erd; cbn [negb] in Hr.
  - destruct (retire limit ready queue replies1) as [replies2 k] eqn:Ek. injection Hr as <- <-. destruct (IH queue replies1 replies2 k) as (H1 & H2 & H3 & H4); [by rewrite El|done|].
    split_and!; [|cbn; lia|cbn [take]; by constructor|congruence]. rewrite H1, Ed. cbn [take]. unfold for_client. rewrite filter_cons. destruct (Z.eqb_spec (en_client e) c) as [Ec|Ec].
    + rewrite decide_True by done. by rewrite Hempty.
    + by rewrite decide_False by done.
  - injection Hr as <- <-. split_and!; [|lia|constructor|done]. rewrite Ed. unfold for_client. cbn. rewrite app_nil_r. destruct (Z.eqb_spec (en_client e) c) as [Ec|]; [by rewrite Hempty|done].
Qed.

(** ** The acceptance of an edge *)

(** The clients from the pointer on, cyclically. *)
Definition rotation (next : Z) (n : nat) : list Z := map (fun offset => (next + Z.of_nat offset) mod Z.of_nat n) (seq 0 n).

(** The accepted offers in the order of the pointer. *)
Definition pick_accepted (offers : list Offer) (accepted : list bool) (client : Z) : option (Z * Request) :=
  if default false (accepted !! Z.to_nat client) then pair client <$> mjoin (offers !! Z.to_nat client) else None.

Definition accepted_requests (next : Z) (offers : list Offer) (accepted : list bool) : list (Z * Request) :=
  omap (pick_accepted offers accepted) (rotation next (length offers)).

(** The tickets they get. *)
Fixpoint number (cycle sequence : Z) (requests : list (Z * Request)) : list ticket :=
  match requests with
  | [] => []
  | (client, r) :: requests => mkTicket client r cycle (sequence + 1) :: number cycle (sequence + 1) requests
  end.

Lemma rotation_nodup next n : NoDup (rotation next n) /\ Forall (in_ports n) (rotation next n).
Proof.
  unfold rotation. split.
  - apply NoDup_fmap_2_strong; [|apply NoDup_seq]. intros x y Hx%elem_of_seq Hy%elem_of_seq E.
    assert ((Z.of_nat x - Z.of_nat y) mod Z.of_nat n = 0) as Hm.
    { replace (Z.of_nat x - Z.of_nat y) with ((next + Z.of_nat x) - (next + Z.of_nat y)) by lia. by rewrite Zminus_mod, E, Z.sub_diag, Z.mod_0_l by lia. }
    apply Z.mod_divide in Hm as [k Hk]; [|lia]. assert (k = 0) as -> by nia. lia.
  - apply Forall_fmap, Forall_forall. intros x Hx%elem_of_seq. unfold in_ports. cbn. apply Z.mod_pos_bound. lia.
Qed.

Lemma flag_insert (l : list bool) c c' : in_ports (length l) c -> 0 <= c' -> default false (<[Z.to_nat c := true]> l !! Z.to_nat c') = if c =? c' then true else default false (l !! Z.to_nat c').
Proof.
  unfold in_ports. intros Hc Hc'. destruct (Z.eqb_spec c c') as [<-|Hne]; [by rewrite list_lookup_insert_eq by lia|]. by rewrite list_lookup_insert_ne by lia.
Qed.

Section Accept.
Context (b : Backend M) (cycle slots : Z) (offers : list Offer).

Notation latency := (cf_Latency (bk_config b)).

(** One turn of the loop: skipped, or the offer enters the queue. *)
Lemma accept_turn st c : 0 <= ac_sequence st < 2 ^ 64 - 1 ->
  accept_client b cycle slots offers st c = st \/
  exists r, mjoin (offers !! Z.to_nat c) = Some r /\ ac_count st < slots /\
    accept_client b cycle slots offers st c =
    mkAcceptance (ac_count st + 1) ((c + 1) mod zlen offers) (ac_sequence st + 1) (ac_entries st ++ [waiting_entry latency (mkTicket c r cycle (ac_sequence st + 1))])
      (<[Z.to_nat c := true]> (ac_accepted st)) (<[Z.to_nat c := id_Transaction (rq_Identity r)]> (ac_last st)) (<[Z.to_nat c := true]> (ac_used st)).
Proof.
  intros Hs. unfold accept_client. destruct (mjoin _) as [r|]; [|by left]. destruct ((ac_count st >=? cf_AcceptsPerCycle (bk_config b)) || (ac_count st >=? slots)) eqn:E; [by left|right].
  apply orb_false_iff in E as [_ E%Z.leb_gt]. exists r. split; [done|]. split; [done|]. by rewrite u64_id by (unfold is_u64; lia).
Qed.

(** The loop leaves the flags of the clients it does not visit. *)
Lemma accept_other clients st c : Forall (in_ports (length (ac_accepted st))) clients -> 0 <= c -> c ∉ clients ->
  default false (ac_accepted (fold_left (accept_client b cycle slots offers) clients st) !! Z.to_nat c) = default false (ac_accepted st !! Z.to_nat c) /\
  length (ac_accepted (fold_left (accept_client b cycle slots offers) clients st)) = length (ac_accepted st).
Proof.
  revert st. induction clients as [|x clients IH]; intros st Hp Hc Hn; cbn [fold_left]; [done|]. apply Forall_cons in Hp as [Hx Hp]. apply not_elem_of_cons in Hn as [Hne Hn].
  assert (length (ac_accepted (accept_client b cycle slots offers st x)) = length (ac_accepted st) /\
    default false (ac_accepted (accept_client b cycle slots offers st x) !! Z.to_nat c) = default false (ac_accepted st !! Z.to_nat c)) as [El Ef].
  { unfold accept_client. destruct (mjoin _) as [r|]; [|done]. case_match; [done|]. cbn [ac_accepted]. rewrite length_insert. split; [done|].
    rewrite flag_insert by done. by destruct (Z.eqb_spec x c). }
  destruct (IH (accept_client b cycle slots offers st x)) as [H1 H2]; [by rewrite El|done..|]. by rewrite H1, H2.
Qed.

Definition unflagged (flags : list bool) (clients : list Z) : Prop := Forall (fun c => default false (flags !! Z.to_nat c) = false) clients.

(** Every accepted client gets one waiting entry, in order, while there is room. *)
Lemma accept_fold clients st : NoDup clients -> Forall (in_ports (length (ac_accepted st))) clients -> unflagged (ac_accepted st) clients ->
  0 <= ac_sequence st -> ac_sequence st + zlen clients < 2 ^ 64 ->
  let st' := fold_left (accept_client b cycle slots offers) clients st in
  let picked := omap (pick_accepted offers (ac_accepted st')) clients in
  ac_entries st' = ac_entries st ++ map (waiting_entry latency) (number cycle (ac_sequence st) picked) /\
  ac_sequence st' = ac_sequence st + zlen picked /\ ac_count st' = ac_count st + zlen picked /\ (picked <> [] -> ac_count st' <= slots).
Proof.
  revert st. induction clients as [|x clients IH]; intros st Hnd Hp Hf Hs Hmax; [cbn; rewrite app_nil_r; unfold zlen; cbn; split_and!; (lia || done)|].
  apply NoDup_cons in Hnd as [Hx Hnd]. apply Forall_cons in Hp as [Hpx Hp]. apply Forall_cons in Hf as [Hfx Hf]. assert (zlen (x :: clients) = 1 + zlen clients) as El by (unfold zlen; cbn [length]; lia).
  rewrite El in Hmax. assert (0 <= zlen clients) as Hz by (unfold zlen; lia). assert (fold_left (accept_client b cycle slots offers) (x :: clients) st = fold_left (accept_client b cycle slots offers) clients (accept_client b cycle slots offers st x)) as -> by done.
  destruct (accept_turn st x) as [->|(r & Er & Hslots & ->)]; [lia| |].
  - destruct (accept_other clients st x Hp ltac:(apply Hpx) Hx) as [Eflag _]. specialize (IH st Hnd Hp Hf Hs ltac:(lia)). cbv zeta in *.
    set (st' := fold_left _ clients st) in *. assert (omap (pick_accepted offers (ac_accepted st')) (x :: clients) = omap (pick_accepted offers (ac_accepted st')) clients) as ->; [|exact IH].
    cbn [omap list_omap]. unfold pick_accepted at 1. by rewrite Eflag, Hfx.
  - set (st1 := mkAcceptance _ _ _ _ _ _ _). assert (length (ac_accepted st1) = length (ac_accepted st)) as El1 by (cbn [st1 ac_accepted]; apply length_insert).
    assert (Forall (in_ports (length (ac_accepted st1))) clients) as Hp1 by (by rewrite El1).
    assert (unflagged (ac_accepted st1) clients) as Hf1.
    { apply Forall_forall. intros c Hc. unfold unflagged in Hf. rewrite Forall_forall in Hf, Hp. cbn [st1 ac_accepted]. rewrite flag_insert by (done || apply Hp; done). destruct (Z.eqb_spec x c) as [->|]; [done|by apply Hf]. }
    destruct (accept_other clients st1 x Hp1 ltac:(apply Hpx) Hx) as [Eflag _]. specialize (IH st1 Hnd Hp1 Hf1 ltac:(cbn [st1 ac_sequence]; lia) ltac:(cbn [st1 ac_sequence]; lia)). cbv zeta in *.
    set (st' := fold_left _ clients st1) in *. destruct IH as (H1 & H2 & H3 & H4).
    assert (omap (pick_accepted offers (ac_accepted st')) (x :: clients) = (x, r) :: omap (pick_accepted offers (ac_accepted st')) clients) as ->.
    { cbn [omap list_omap]. unfold pick_accepted at 1. rewrite Eflag. cbn [st1 ac_accepted]. by rewrite flag_insert, Z.eqb_refl, Er by (done || apply Hpx). }
     revert H1 H2 H3 H4. generalize (omap (pick_accepted offers (ac_accepted st')) clients). intros rest H1 H2 H3 H4. assert (zlen ((x, r) :: rest) = 1 + zlen rest) as -> by (unfold zlen; cbn [length]; lia).
    rewrite H1, H2, H3. cbn [number map ac_entries ac_sequence ac_count st1]. split_and!; [by rewrite <- app_assoc|lia|lia|]. intros _. destruct rest as [|q rest]; [unfold zlen; cbn; lia|]. specialize (H4 ltac:(done)). rewrite H3 in H4. cbn [ac_count st1] in H4. lia.
Qed.
End Accept.

Lemma accept_all_spec (b : Backend M) cycle slots offers : 0 <= bk_sequence b -> bk_sequence b + zlen offers < 2 ^ 64 ->
  let st := accept_all b cycle slots offers in
  let picked := accepted_requests (bk_nextClient b) offers (ac_accepted st) in
  ac_entries st = map (waiting_entry (cf_Latency (bk_config b))) (number cycle (bk_sequence b) picked) /\
  ac_sequence st = bk_sequence b + zlen picked /\ (picked <> [] -> zlen picked <= slots) /\ length (ac_accepted st) = length offers.
Proof.
  intros Hs Hmax. destruct (rotation_nodup (bk_nextClient b) (length offers)) as [Hnd Hp]. unfold accept_all. fold (rotation (bk_nextClient b) (length offers)).
  set (st0 := mkAcceptance 0 _ _ _ _ _ _). pose proof (accept_fold b cycle slots offers (rotation (bk_nextClient b) (length offers)) st0 Hnd) as Ha.
  destruct Ha as (H1 & H2 & H3 & H4).
  - cbn [ac_accepted st0]. by rewrite length_replicate.
  - apply Forall_forall. intros c Hc. cbn [ac_accepted st0]. destruct (replicate _ false !! Z.to_nat c) as [f|] eqn:E; [by apply lookup_replicate in E as [-> _]|done].
  - done.
  - cbn. unfold zlen, rotation in *. rewrite length_map, length_seq. lia.
  - split; [exact H1|]. split; [exact H2|]. split; [intros Hne; specialize (H4 Hne); rewrite H3 in H4; exact H4|].
    destruct (accept_other b cycle slots offers (rotation (bk_nextClient b) (length offers)) st0 (Z.of_nat (length offers))) as [_ El].
    + cbn [ac_accepted st0]. by rewrite length_replicate.
    + lia.
    + intros Hin. rewrite Forall_forall in Hp. specialize (Hp _ Hin). unfold in_ports in Hp. lia.
    + etransitivity; [exact El|]. cbn [ac_accepted st0]. apply length_replicate.
Qed.

(** ** The account of a backend *)

Notation served_state := (M * option error)%type.

(** The owner after the tickets, and the responses they get. *)
Definition after (st : served_state) (log : list ticket) : served_state := (sequential st (map tk_request log)).1.
Definition results (st : served_state) (log : list ticket) : list (list Z * option error) := (sequential st (map tk_request log)).2.
Definition responses_to (latency client : Z) (st : served_state) (log : list ticket) : list Response :=
  map snd (filter (fun p => tk_client p.1 = client) (zip log (zip_with (full_response latency) log (results st log)))).

Lemma after_app st log log' : after st (log ++ log') = after (after st log) log'.
Proof. unfold after. rewrite map_app, sequential_app. destruct (sequential st (map tk_request log)) as [st1 out1]. cbn. by destruct (sequential st1 (map tk_request log')). Qed.

Lemma results_app st log log' : results st (log ++ log') = results st log ++ results (after st log) log'.
Proof. unfold results, after. rewrite map_app, sequential_app. destruct (sequential st (map tk_request log)) as [st1 out1]. cbn. by destruct (sequential st1 (map tk_request log')). Qed.

Lemma results_length st log : length (results st log) = length log.
Proof. unfold results. by rewrite sequential_length, length_map. Qed.

Lemma responses_to_app latency c st log log' : responses_to latency c st (log ++ log') = responses_to latency c st log ++ responses_to latency c (after st log) log'.
Proof.
  unfold responses_to. rewrite results_app. rewrite zip_with_app by (by rewrite results_length). rewrite zip_with_app by (by rewrite length_zip_with, results_length, Nat.min_id).
  by rewrite filter_app, map_app.
Qed.

(** The served entries of tickets, and their responses. *)
Definition served_entries (latency : Z) (st : served_state) (log : list ticket) : list entry := zip_with (served_entry latency) log (results st log).

Lemma served_entries_app latency st log log' : served_entries latency st (log ++ log') = served_entries latency st log ++ served_entries latency (after st log) log'.
Proof. unfold served_entries. rewrite results_app. apply zip_with_app. by rewrite results_length. Qed.

Lemma served_entries_length latency st log : length (served_entries latency st log) = length log.
Proof. unfold served_entries. by rewrite length_zip_with, results_length, Nat.min_id. Qed.

Lemma served_entries_ports n latency st log : Forall (fun t => in_ports n (tk_client t)) log -> Forall (fun e => in_ports n (en_client e)) (served_entries latency st log).
Proof.
  unfold served_entries. generalize (results st log). induction log as [|t log IH]; intros [|x res] Hp; cbn [zip_with]; try done. apply Forall_cons in Hp as [Ht Hp]. constructor; [done|by apply IH].
Qed.

Lemma served_for_client latency c st log : for_client c (served_entries latency st log) = responses_to latency c st log.
Proof.
  unfold for_client, responses_to, served_entries. generalize (results st log). induction log as [|t log IH]; intros [|x res]; cbn [zip_with]; try done.
  rewrite !filter_cons. cbn [en_client served_entry fst]. destruct (decide (tk_client t = c)); cbn [map en_response served_entry snd]; by rewrite IH.
Qed.

(** [gone] were delivered, [ready] are served and [wait] are not due: the queue holds the
    last two, and the owner has seen the first two. *)
Record accounted (owner : M) (b : Backend M) (gone ready wait : list ticket) : Prop := {
  ac_queue : bk_queue b = served_entries (cf_Latency (bk_config b)) (after (owner, None) gone) ready ++ map (waiting_entry (cf_Latency (bk_config b))) wait;
  ac_owner : (bk_owner b, bk_writeError b) = after (owner, None) (gone ++ ready);
  ac_sorted : StronglySorted (fun x y => tk_cycle x <= tk_cycle y) wait;
  ac_wait : Forall (fun t => bk_started b = true /\ tk_cycle t <= bk_cycle b < due (cf_Latency (bk_config b)) t) wait;
  ac_done : Forall (fun t => bk_started b = true /\ due (cf_Latency (bk_config b)) t <= bk_cycle b) (gone ++ ready);
  ac_ports : Forall (fun t => in_ports (length (bk_held b)) (tk_client t)) (ready ++ wait);
  ac_number : bk_sequence b = zlen (gone ++ ready ++ wait);
  ac_room : Outstanding b <= cf_MaxInflight (bk_config b)
}.

Lemma service_account cycle owner we latency st ready now later : 
  (owner, we) = after st ready -> Forall (fun t => due latency t = cycle) now -> Forall (fun t => cycle < due latency t) later ->
  service cycle owner we (served_entries latency st ready ++ map (waiting_entry latency) (now ++ later)) =
  ((after st (ready ++ now)).1, (after st (ready ++ now)).2, served_entries latency st (ready ++ now) ++ map (waiting_entry latency) later).
Proof.
  intros Ho Hn Hl. unfold served_entries at 1. rewrite service_served by apply results_length. rewrite map_app, service_due by done.
  rewrite after_app, served_entries_app, <- Ho. unfold after, served_entries, results. destruct (sequential (owner, we) (map tk_request now)) as [st1 res1] eqn:E1. cbn [fst snd].
  rewrite service_waiting by done. by rewrite <- app_assoc.
Qed.

Lemma number_spec cycle sequence requests : Forall (fun t => tk_cycle t = cycle) (number cycle sequence requests) /\ map tk_client (number cycle sequence requests) = map fst requests.
Proof. revert sequence. induction requests as [|[c r] requests IH]; intros sequence; cbn [number map]; [done|]. destruct (IH (sequence + 1)) as [H1 H2]. split; [by constructor|]. cbn. by rewrite H2. Qed.

Lemma accepted_ports next offers accepted : Forall (in_ports (length offers)) (map fst (accepted_requests next offers accepted)).
Proof.
  unfold accepted_requests. destruct (rotation_nodup next (length offers)) as [_ Hp]. induction Hp as [|c cs Hc _ IH]; cbn [omap list_omap]; [done|]. unfold pick_accepted at 1.
  destruct (default false _); [|exact IH]. destruct (mjoin _) as [r|]; [|exact IH]. cbn. by constructor.
Qed.

Lemma sorted_later (now later : list ticket) : StronglySorted (fun x y => tk_cycle x <= tk_cycle y) (now ++ later) -> StronglySorted (fun x y => tk_cycle x <= tk_cycle y) later.
Proof. induction now as [|t now IH]; cbn [app]; [done|]. intros Hs. apply IH. by inversion Hs. Qed.

Lemma sorted_app_tail (ts new : list ticket) cycle : StronglySorted (fun x y => tk_cycle x <= tk_cycle y) ts -> Forall (fun t => tk_cycle t <= cycle) ts -> Forall (fun t => tk_cycle t = cycle) new ->
  StronglySorted (fun x y => tk_cycle x <= tk_cycle y) (ts ++ new).
Proof.
  intros Hs Hle Hnew. induction Hs as [|t ts Hs IH Hf]; cbn [app].
  - induction Hnew as [|t new Ht Hn IH]; constructor; [done|]. eapply Forall_impl; [exact Hn|]. cbv beta. lia.
  - apply Forall_cons in Hle as [Ht Hle]. constructor; [by apply IH|]. apply Forall_app. split; [done|]. eapply Forall_impl; [exact Hnew|]. cbv beta. lia.
Qed.

(** The checks that let a step through. *)
Lemma step_check_ok (b : Backend M) cycle offers ready : step_check b cycle offers ready = Ok tt ->
  length offers = length (bk_held b) /\ length ready = length (bk_held b) /\ (bk_started b = true -> cycle = bk_cycle b + 1) /\ bk_sequence b + zlen offers < 2 ^ 64.
Proof.
  unfold step_check. destruct ((zlen offers =? zlen (bk_held b)) && (zlen ready =? zlen (bk_held b))) eqn:E1; [|done]. cbn [result_bind].
  destruct (bk_started b && ((bk_cycle b =? MaxUint64) || (cycle <>? bk_cycle b + 1))) eqn:E2; [done|]. cbn [negb].
  destruct (offers_check _ _ _ _ _ _) as [u|]; [|done]. cbn [result_bind]. destruct (bk_sequence b >? MaxUint64 - zlen offers) eqn:E3; [done|]. intros _.
  apply andb_true_iff in E1 as [E1%Z.eqb_eq E1'%Z.eqb_eq]. unfold zlen in *. apply Z.ltb_ge in E3. unfold MaxUint64 in *. split_and!; [lia|lia| |lia].
  intros Hs. rewrite Hs in E2. cbn [andb] in E2. apply orb_false_iff in E2 as [_ E2]. apply negb_false_iff, Z.eqb_eq in E2. done.
Qed.

(** With a ready client the head of a served queue leaves. *)
Lemma retire_progress limit ready e queue n : en_serviced e = true -> ready_at ready (en_client e) = true -> (0 < snd (retire (S limit) ready (e :: queue) (replicate n no_reply)))%nat.
Proof.
  intros Hs Hr. cbn [retire]. rewrite Hs. unfold valid_reply at 1, reply_at. assert (default no_reply (replicate n no_reply !! Z.to_nat (en_client e)) = no_reply) as ->.
  { destruct (_ !! _) as [r|] eqn:E; [by apply lookup_replicate in E as [-> _]|done]. }
  cbn [negb orb rp_Response no_reply]. rewrite Hr. cbn [negb]. destruct (retire limit ready queue _). cbn. lia.
Qed.

(** Only served entries are retired. *)
Lemma retired_are_served n latency st (log later : list ticket) : let queue := served_entries latency st log ++ map (waiting_entry latency) later in
  (n <= length queue)%nat -> Forall (fun e => en_serviced e = true) (take n queue) -> (n <= length log)%nat.
Proof.
  intros queue Hnq Hserved. destruct (le_lt_dec n (length log)) as [|Hgt]; [done|exfalso]. unfold queue in *.
  destruct later as [|t later]; [cbn in Hnq; rewrite app_nil_r, served_entries_length in Hnq; lia|].
  rewrite Forall_forall in Hserved. specialize (Hserved (waiting_entry latency t)). cbn [en_serviced waiting_entry] in Hserved. cut (false = true); [done|]. apply Hserved.
  apply list_elem_of_lookup. exists (length log). rewrite lookup_take_lt by lia. rewrite lookup_app_r by (rewrite served_entries_length; lia). by rewrite served_entries_length, Nat.sub_diag.
Qed.

(** With every client ready the head of a served queue leaves. *)
Lemma retire_moves limit rdy latency st (log : list ticket) queue n : (0 < limit)%nat -> Forall (eq true) rdy -> length rdy = n -> log <> [] ->
  Forall (fun e => in_ports n (en_client e)) (served_entries latency st log ++ queue) -> (0 < snd (retire limit rdy (served_entries latency st log ++ queue) (replicate n no_reply)))%nat.
Proof.
  intros Hl Hrdy Hlen Hne. destruct log as [|t ts]; [done|]. unfold served_entries. pose proof (results_length st (t :: ts)) as Hr. destruct (results st (t :: ts)) as [|x xs]; [done|].
  cbn [zip_with app]. intros [Hin _]%Forall_cons. destruct limit as [|limit]; [lia|]. apply retire_progress; [done|]. cbn [en_client served_entry] in *. unfold in_ports in Hin.
  unfold ready_at. destruct (rdy !! Z.to_nat (tk_client t)) as [y|] eqn:Ey; [rewrite Forall_lookup in Hrdy; by rewrite <- (Hrdy _ _ Ey)|]. apply lookup_ge_None in Ey. lia.
Qed.

Definition edge_tickets (b : Backend M) (cycle : Z) (offers : list Offer) (e : Edge) : list ticket :=
  number cycle (bk_sequence b) (accepted_requests (bk_nextClient b) offers (eg_Accepted e)).

(** One step: the due tickets are served, a prefix of the served ones is delivered, and
    the accepted offers get their tickets. *)
Lemma step_account owner b gone ready wait cycle offers rdy b' e :
  accounted owner b gone ready wait -> 0 < cf_Latency (bk_config b) -> 0 < cf_ReturnsPerCycle (bk_config b) -> Backend_Step b cycle offers rdy = (b', Ok e) ->
  exists back rest now later, ready ++ now = back ++ rest /\ wait = now ++ later /\
    accounted owner b' (gone ++ back) rest (later ++ edge_tickets b cycle offers e) /\
    (bk_config b' = bk_config b /\ length (bk_held b') = length (bk_held b) /\ bk_cycle b' = cycle /\ bk_started b' = true) /\
    (forall c, 0 <= c -> delivered_to c (eg_Replies e) = responses_to (cf_Latency (bk_config b)) c (after (owner, None) gone) back) /\
    (Forall (eq true) rdy -> ready ++ now <> [] -> back <> []).
Proof.
  intros [Hq Ho Hs Hw Hd Hp Hn Hroom] Hlat Hret Hstep. unfold Backend_Step in Hstep. destruct (step_check b cycle offers rdy) as [[]|] eqn:Ec; [|done].
  apply step_check_ok in Ec as (Hlo & Hlr & Hcy & Hmax). set (latency := cf_Latency (bk_config b)) in *.
  destruct (split_due cycle latency wait Hs) as (now & later & -> & Hnow & Hlater).
  { eapply Forall_impl; [exact Hw|]. cbv beta. intros t [Hst Ht]. specialize (Hcy Hst). lia. }
  pose proof (service_account cycle (bk_owner b) (bk_writeError b) latency (after (owner, None) gone) ready now later ltac:(rewrite <- after_app; exact Ho) Hnow Hlater) as Es. rewrite <- Hq in Es. rewrite Es in Hstep. clear Es.
  set (queue := served_entries latency (after (owner, None) gone) (ready ++ now) ++ map (waiting_entry latency) later) in *.
  destruct (retire (Z.to_nat (cf_ReturnsPerCycle (bk_config b))) rdy queue (replicate (length offers) no_reply)) as [replies n] eqn:Er. injection Hstep as <- <-. cbn [eg_Accepted eg_Replies].
  apply Forall_app in Hp as [Hpr Hpw]. rewrite map_app in Hq. apply Forall_app in Hpw as [Hpn Hpl].
  assert (Forall (fun e => in_ports (length (replicate (length offers) no_reply)) (en_client e)) queue) as Hqp.
  { rewrite length_replicate, Hlo. unfold queue. apply Forall_app. split; [apply served_entries_ports; by apply Forall_app|by apply Forall_fmap]. }
  pose proof (retire_spec _ rdy queue _ replies n 0 ltac:(lia) Hqp Er) as (_ & Hnq & Hserved & Hlrep).
  assert (n <= length (ready ++ now))%nat as Hnr by (apply (retired_are_served n latency (after (owner, None) gone) _ later); done).
  set (back := take n (ready ++ now)). set (rest := drop n (ready ++ now)). assert (ready ++ now = back ++ rest) as Esplit by (symmetry; apply take_drop).
  assert (queue = served_entries latency (after (owner, None) gone) back ++ served_entries latency (after (owner, None) (gone ++ back)) rest ++ map (waiting_entry latency) later) as Equeue.
  { unfold queue. by rewrite Esplit, served_entries_app, <- app_assoc, after_app. }
  assert (length (served_entries latency (after (owner, None) gone) back) = n) as Elen by (rewrite served_entries_length; unfold back; rewrite length_take; lia).
  exists back, rest, now, later.
  destruct (accept_all_spec b cycle (cf_MaxInflight (bk_config b) - zlen (bk_queue b)) offers) as (He & Hseq & Hcount & Hacc); [rewrite Hn; unfold zlen; lia|done|].
  cbv zeta in He, Hseq, Hcount, Hacc. fold latency in He. set (st := accept_all b cycle (cf_MaxInflight (bk_config b) - zlen (bk_queue b)) offers) in *. unfold edge_tickets. cbn [eg_Accepted]. set (picked := accepted_requests (bk_nextClient b) offers (ac_accepted st)) in *.
  destruct (number_spec cycle (bk_sequence b) picked) as [Hcyc Hcl].
  split; [done|]. split; [done|]. split; [|split; [|split]].
  - constructor; cbn [bk_queue bk_config bk_owner bk_writeError bk_started bk_cycle bk_held bk_sequence]; fold latency.
    + rewrite Equeue, He, map_app. rewrite <- Elen at 1. by rewrite drop_app_length, app_assoc.
    + rewrite <- app_assoc, <- Esplit, app_assoc. rewrite <- surjective_pairing. by rewrite <- after_app, app_assoc.
    + apply (sorted_app_tail _ _ cycle); [by apply (sorted_later now)| |exact Hcyc]. apply Forall_app in Hw as [_ Hw]. eapply Forall_impl; [exact Hw|]. cbv beta. intros t [Hst Ht]. specialize (Hcy Hst). lia.
    + apply Forall_app. split.
      * apply Forall_app in Hw as [_ Hw]. rewrite Forall_forall in *. intros t Ht. specialize (Hw t Ht). specialize (Hlater t Ht). destruct Hw as [Hst Hw]. specialize (Hcy Hst). split; [done|lia].
      * eapply Forall_impl; [exact Hcyc|]. cbv beta. intros t <-. unfold due. split; [done|lia].
    + rewrite <- app_assoc, <- Esplit, app_assoc. apply Forall_app. split; [|eapply Forall_impl; [exact Hnow|]; cbv beta; split; [done|lia]].
      eapply Forall_impl; [exact Hd|]. cbv beta. intros t [Hst Ht]. specialize (Hcy Hst). split; [done|lia].
    + unfold still_held. rewrite length_zip_with, Hacc, Nat.min_id, Hlo. apply Forall_app. split; [|apply Forall_app; split; [done|]].
      * apply Forall_drop. by apply Forall_app.
      * pose proof (accepted_ports (bk_nextClient b) offers (ac_accepted st)) as Hap. fold picked in Hap. rewrite <- Hcl in Hap. rewrite List.Forall_map in Hap. rewrite Hlo in Hap. exact Hap.
    + rewrite Hseq. assert (zlen (number cycle (bk_sequence b) picked) = zlen picked) as Enum by (unfold zlen; rewrite <- (length_map tk_client), Hcl, length_map; done).
      revert Enum. generalize (number cycle (bk_sequence b) picked). intros new Enum. rewrite Hn. unfold zlen in *. apply (f_equal length) in Esplit. rewrite !length_app in *. lia.
    + unfold Outstanding. cbn [bk_queue]. rewrite He. unfold zlen in *. rewrite length_app, length_drop, length_map. assert (length (number cycle (bk_sequence b) picked) = length picked) as -> by (rewrite <- (length_map tk_client), Hcl, length_map; done).
      unfold Outstanding, zlen in Hroom. assert (length queue = length (bk_queue b)) as -> by (unfold queue; rewrite Hq, !length_app, !served_entries_length, !length_map, length_app; lia).
      destruct picked as [|p ps]; [cbn; lia|]. specialize (Hcount ltac:(done)). lia.
  - cbn. unfold still_held. by rewrite length_zip_with, Hacc, Nat.min_id, Hlo.
  - intros c Hc. pose proof (retire_spec _ rdy queue _ replies n c Hc Hqp Er) as (Hdel & _). rewrite Hdel. rewrite Equeue. rewrite <- Elen at 1. rewrite take_app_length, served_for_client.
    assert (delivered_to c (replicate (length offers) no_reply) = []) as ->; [|done]. unfold delivered_to, reply_at. destruct (_ !! _) as [r|] eqn:E; [by apply lookup_replicate in E as [-> _]|done].
  - intros Hrdy Hne Hb. assert (n = O) as Hn0 by (unfold back in Hb; apply (f_equal length) in Hb; rewrite length_take in Hb; destruct (ready ++ now); [done|cbn in Hb; lia]).
    rewrite length_replicate in Hqp. pose proof (retire_moves (Z.to_nat (cf_ReturnsPerCycle (bk_config b))) rdy latency (after (owner, None) gone) (ready ++ now) (map (waiting_entry latency) later) (length offers)) as Hm.
    fold queue in Hm. rewrite Er, Hn0 in Hm. cut (0 < 0)%nat; [lia|]. apply Hm; [lia|done|lia|done|done].
Qed.

(** ** Runs *)

(** The backend, the tickets and the replies of consecutive edges. *)
Fixpoint backend_run (b : Backend M) (cycle : Z) (inputs : list (list Offer * list bool)) : option (Backend M * list ticket * list (list Reply)) :=
  match inputs with
  | [] => Some (b, [], [])
  | (offers, rdy) :: inputs =>
      match Backend_Step b cycle offers rdy with
      | (_, Err _) => None
      | (b', Ok e) => match backend_run b' (cycle + 1) inputs with
                      | Some (b'', log, edges) => Some (b'', edge_tickets b cycle offers e ++ log, eg_Replies e :: edges)
                      | None => None
                      end
      end
  end.

Definition delivered (c : Z) (edges : list (list Reply)) : list Response := concat (map (delivered_to c) edges).

Definition always_ready (inputs : list (list Offer * list bool)) : Prop := Forall (fun i => Forall (eq true) i.2) inputs.

(** Edges until the first [n] tickets, all due by [deadline], are surely delivered. *)
Definition patience (b : Backend M) (deadline n : Z) : Z := Z.max (deadline - 1 - bk_cycle b) 0 + n.

Lemma run_account owner inputs b gone ready wait cycle b' log edges :
  accounted owner b gone ready wait -> 0 < cf_Latency (bk_config b) -> 0 < cf_ReturnsPerCycle (bk_config b) -> backend_run b cycle inputs = Some (b', log, edges) ->
  exists back rest later, ready ++ wait ++ log = back ++ rest ++ later /\ accounted owner b' (gone ++ back) rest later /\ bk_config b' = bk_config b /\
    (forall c, 0 <= c -> delivered c edges = responses_to (cf_Latency (bk_config b)) c (after (owner, None) gone) back) /\
    (forall deadline watched others, always_ready inputs -> ready ++ wait = watched ++ others -> Forall (fun t => due (cf_Latency (bk_config b)) t <= deadline) watched ->
      (bk_started b = true \/ watched = []) -> patience b deadline (zlen watched) <= zlen inputs -> watched `prefix_of` back).
Proof.
  revert b gone ready wait cycle b' log edges. induction inputs as [|[offers rdy] inputs IH]; intros b gone ready wait cycle b' log edges Ha Hlat Hret Hrun; cbn [backend_run] in Hrun.
  { injection Hrun as <- <- <-. exists [], ready, wait. rewrite !app_nil_r. split; [done|]. split; [done|]. split; [done|]. split; [done|].
    intros D watched others _ _ _ _ Hp. assert (watched = []) as ->; [|apply prefix_nil]. apply nil_length_inv. unfold patience, zlen in Hp. cbn in Hp. lia. }
  destruct (Backend_Step b cycle offers rdy) as [b1 [e|err]] eqn:Est; [|done]. destruct (backend_run b1 (cycle + 1) inputs) as [[[b2 log2] edges2]|] eqn:Er; [|done]. injection Hrun as <- <- <-.
  destruct (step_account owner b gone ready wait cycle offers rdy b1 e Ha Hlat Hret Est) as (back1 & rest1 & now & later1 & E1 & -> & Ha1 & (Ec & Eh & Ecy & Est1) & Hdel1 & Hprog).
  rewrite <- Ec in Hlat, Hret. destruct (IH b1 _ _ _ _ _ _ _ Ha1 Hlat Hret Er) as (back2 & rest2 & later2 & E2 & Ha2 & Ec2 & Hdel2 & Hfair).
  rewrite Ec in Hdel2, Hfair, Ec2. exists (back1 ++ back2), rest2, later2. split_and!; [| |done| |].
  - rewrite <- (app_assoc back1 back2), <- E2, !app_assoc, E1. done.
  - by rewrite app_assoc.
  - intros c Hc. unfold delivered. cbn [map concat]. rewrite responses_to_app, <- after_app. f_equal; [by apply Hdel1|by apply Hdel2].
  - intros D watched others [Hr Hall]%Forall_cons Ew Hd Hst Hp. cbn [snd] in Hr. rewrite app_assoc, E1, <- app_assoc in Ew.
    destruct (decide (length watched <= length back1)%nat) as [Hle|Hgt].
    + apply prefix_app_r. exists (drop (length watched) back1). rewrite <- (take_drop (length watched) back1) at 1. f_equal.
      apply (f_equal (take (length watched))) in Ew. by rewrite take_app_length, take_app_le in Ew by lia.
    + apply app_eq_inv in Ew as [(k & -> & Ew)|(k & -> & Ew)]; [rewrite length_app in Hgt; lia|]. apply prefix_app.
      apply (Hfair D k (others ++ edge_tickets b cycle offers e)); [done|by rewrite !app_assoc, <- Ew| |by left|].
      * apply Forall_app in Hd as [_ Hd]. done.
      * destruct Hst as [Hst|Hnil]; [|by apply app_eq_nil in Hnil as [-> ->]; cbn in Hgt; lia].
        assert (k <> []) as Hk by (intros ->; rewrite app_nil_r in Hgt; lia).
        assert (cycle = bk_cycle b + 1) as Hcy.
        { unfold Backend_Step in Est. destruct (step_check b cycle offers rdy) as [[]|] eqn:Eck; [|done]. apply step_check_ok in Eck as (_ & _ & Hcy & _). by apply Hcy. }
        unfold patience, zlen in *. rewrite Ecy. cbn [length] in Hp. rewrite length_app in Hp. apply Forall_app in Hd as [_ Hd].
        destruct (Z.lt_ge_cases cycle D) as [Hlt|Hge]; [lia|].
        assert (back1 <> []) as Hb1.
        { apply Hprog; [done|]. rewrite E1. intros [-> ->]%app_eq_nil. cbn [app] in Ew. pose proof (ac_wait _ _ _ _ _ Ha1) as Hw. rewrite Ec in Hw. rewrite Ew in Hw.
          destruct k as [|t k]; [done|]. apply Forall_cons in Hd as [Hd _]. cbn [app] in Hw. rewrite <- app_assoc in Hw. apply Forall_cons in Hw as [[_ Hw] _]. rewrite Ecy in Hw. lia. }
        destruct back1; [done|]. cbn [length] in Hp. lia.
Qed.

Lemma new_account (owner : M) config clients b : Backend_New (Some owner) config clients = Ok b -> is_u64 (cf_Latency config) ->
  accounted owner b [] [] [] /\ bk_config b = config /\ 0 < cf_Latency config /\ 0 < cf_ReturnsPerCycle config.
Proof.
  unfold Backend_New, is_u64. intros Hnew Hl. destruct ((cf_Latency config =? 0) || _ || _ || _ || _) eqn:E; [done|]. injection Hnew as <-.
  repeat rewrite orb_false_iff in E. destruct E as [[[[E1%Z.eqb_neq _] E2%Z.leb_gt] E3%Z.leb_gt] _]. split; [|split; [done|lia]]. constructor; cbn; [done|done|apply SSorted_nil|by apply Forall_nil_2..|done|]. unfold Outstanding, zlen. cbn. lia.
Qed.

Lemma number_sequence cycle sequence requests i t : number cycle sequence requests !! i = Some t -> tk_sequence t = sequence + Z.of_nat i + 1.
Proof.
  revert sequence i. induction requests as [|[c r] requests IH]; intros sequence [|i] Hi; cbn in Hi; try done; [injection Hi as <-; cbn; lia|]. apply IH in Hi. lia.
Qed.

(** The tickets of a run are numbered on from the backend's counter. *)
Lemma run_sequence owner inputs b gone ready wait cycle b' log edges i t :
  accounted owner b gone ready wait -> 0 < cf_Latency (bk_config b) -> 0 < cf_ReturnsPerCycle (bk_config b) -> backend_run b cycle inputs = Some (b', log, edges) ->
  log !! i = Some t -> tk_sequence t = bk_sequence b + Z.of_nat i + 1.
Proof.
  revert b gone ready wait cycle b' log edges i. induction inputs as [|[offers rdy] inputs IH]; intros b gone ready wait cycle b' log edges i Ha Hlat Hret Hrun Hi; cbn [backend_run] in Hrun; [by injection Hrun as <- <- <-|].
  destruct (Backend_Step b cycle offers rdy) as [b1 [e|err]] eqn:Est; [|done]. destruct (backend_run b1 (cycle + 1) inputs) as [[[b2 log2] edges2]|] eqn:Er; [|done]. injection Hrun as <- <- <-.
  destruct (step_account owner b gone ready wait cycle offers rdy b1 e Ha Hlat Hret Est) as (back1 & rest1 & now & later1 & E1 & -> & Ha1 & (Ec & _) & _).
  apply lookup_app_Some in Hi as [Hi|[Hge Hi]]; [by apply number_sequence in Hi|]. rewrite <- Ec in Hlat, Hret. rewrite (IH b1 _ _ _ _ _ _ _ _ Ha1 Hlat Hret Er Hi).
  assert (bk_sequence b1 = bk_sequence b + zlen (edge_tickets b cycle offers e)) as ->; [|unfold zlen; lia].
  revert Ha1 Hge. generalize (edge_tickets b cycle offers e). intros new Ha1 Hge. rewrite (ac_number _ _ _ _ _ Ha1), (ac_number _ _ _ _ _ Ha). unfold zlen. apply (f_equal length) in E1. rewrite !length_app in *. lia.
Qed.

(** C7: The backend refines a sequential memory. In every run of a fresh backend, with
    whatever offers and ready flags, the accepted requests, numbered 1, 2, 3 ... in
    acceptance order, split into those delivered, those served and those not yet due;
    the owner is in the state after serving the first two one after the other, which are
    exactly the requests due by now; every client has received, in acceptance order and
    each once, the results its delivered requests have in that sequential service, each
    response carrying its request's identity and tag and completed exactly the latency
    after its acceptance; and no more than [MaxInflight] requests are in the queue. *)
Theorem backend_sequential owner config clients b0 start inputs b log edges :
  Backend_New (Some owner) config clients = Ok b0 -> is_u64 (cf_Latency config) -> backend_run b0 start inputs = Some (b, log, edges) ->
  exists gone ready wait, log = gone ++ ready ++ wait /\
    (bk_owner b, bk_writeError b) = after (owner, None) (gone ++ ready) /\
    Forall (fun t => due (cf_Latency config) t <= bk_cycle b) (gone ++ ready) /\ Forall (fun t => bk_cycle b < due (cf_Latency config) t) wait /\
    (forall c, 0 <= c -> delivered c edges = responses_to (cf_Latency config) c (owner, None) gone) /\
    (forall i t, log !! i = Some t -> tk_sequence t = Z.of_nat i + 1) /\
    Outstanding b = zlen (ready ++ wait) /\ Outstanding b <= cf_MaxInflight config.
Proof.
  intros Hnew Hl Hrun. destruct (new_account owner config clients b0 Hnew Hl) as (Ha & Ec & Hlat & Hret). rewrite <- Ec in Hlat, Hret.
  destruct (run_account owner inputs b0 [] [] [] start b log edges Ha Hlat Hret Hrun) as (back & rest & later & Elog & Hb & Ecb & Hdel & _). cbn [app] in *.
  exists back, rest, later. rewrite Ec in *. destruct Hb as [Hq Ho _ Hw Hd _ _ Hroom]. rewrite Ecb in *. split_and!; try done.
  - eapply Forall_impl; [exact Hd|]. by intros t [_ ?].
  - eapply Forall_impl; [exact Hw|]. by intros t [_ [_ ?]].
  - intros i t Hi. rewrite <- Ec in Hlat, Hret. rewrite (run_sequence owner inputs b0 [] [] [] start b log edges i t Ha Hlat Hret Hrun Hi). by rewrite (ac_number _ _ _ _ _ Ha).
  - unfold Outstanding, zlen. by rewrite Hq, !length_app, served_entries_length, length_map.
Qed.

(** C8: No response is lost or held for ever: when a run goes on for [Latency + MaxInflight]
    edges in which every client is ready, whatever else is offered, each client has
    received the responses of all requests accepted before. *)
Theorem backend_delivers owner config clients b0 start inputs1 b1 log1 edges1 cycle inputs2 b2 log2 edges2 :
  Backend_New (Some owner) config clients = Ok b0 -> is_u64 (cf_Latency config) ->
  backend_run b0 start inputs1 = Some (b1, log1, edges1) -> backend_run b1 cycle inputs2 = Some (b2, log2, edges2) ->
  always_ready inputs2 -> cf_Latency config + cf_MaxInflight config <= zlen inputs2 ->
  forall c, 0 <= c -> responses_to (cf_Latency config) c (owner, None) log1 `prefix_of` delivered c (edges1 ++ edges2).
Proof.
  intros Hnew Hl Hrun1 Hrun2 Hr Hlen c Hc. destruct (new_account owner config clients b0 Hnew Hl) as (Ha & Ec & Hlat & Hret). rewrite <- Ec in Hlat, Hret.
  destruct (run_account owner inputs1 b0 [] [] [] start b1 log1 edges1 Ha Hlat Hret Hrun1) as (back & rest & later & Elog & Hb & Ecb & Hdel & _). cbn [app] in *.
  rewrite <- Ecb in Hlat, Hret. destruct (run_account owner inputs2 b1 back rest later cycle b2 log2 edges2 Hb Hlat Hret Hrun2) as (back2 & rest2 & later2 & Elog2 & Hb2 & _ & Hdel2 & Hfair).
  rewrite Ecb, Ec in *. destruct (Hfair (bk_cycle b1 + cf_Latency config) (rest ++ later) [] Hr) as [k Ek].
  - by rewrite app_nil_r.
  - destruct Hb as [_ _ _ Hw Hd _ _ _]. rewrite Ecb in *. apply Forall_app in Hd as [_ Hd]. apply Forall_app. split; (eapply Forall_impl; [eassumption|]); cbv beta; unfold due; lia.
  - destruct Hb as [_ _ _ Hw Hd _ _ _]. apply Forall_app in Hd as [_ Hd]. destruct rest as [|t rest]; [|apply Forall_cons in Hd as [[Hs _] _]; by left].
    destruct later as [|t later]; [by right|]. apply Forall_cons in Hw as [[Hs _] _]. by left.
  - pose proof (ac_room _ _ _ _ _ Hb) as Hroom. unfold Outstanding in Hroom. rewrite (ac_queue _ _ _ _ _ Hb), Ecb in Hroom. unfold patience, zlen in *.
    rewrite length_app, served_entries_length, length_map in Hroom. rewrite length_app. lia.
  - unfold delivered in *. rewrite map_app, concat_app, Hdel, Hdel2 by done. rewrite <- responses_to_app. rewrite Elog, Ek, (app_assoc back (rest ++ later) k), (responses_to_app _ _ _ (back ++ rest ++ later)). by eexists.
Qed.
End Spec.

(** ** The owner as a flat byte memory *)

Section Flat.
Context {M : Type} `{MemoryLaws M}.

(** A request served on a byte map. *)
Definition flat_serve (f : Z -> Z) (r : Request) : (Z -> Z) * list Z :=
  match rq_Operation r with
  | OpRead => (f, map f (zrange (rq_Address r) SectorBytes))
  | OpWrite => (masked_store (rq_Address r) SectorBytes (rq_ByteEnable r) (rq_Data r) f, zero_sector)
  | _ => (f, zero_sector)
  end.

Fixpoint flat_sequential (f : Z -> Z) (requests : list Request) : (Z -> Z) * list (list Z) :=
  match requests with
  | [] => (f, [])
  | r :: requests => let '(f, data) := flat_serve f r in let '(f, out) := flat_sequential f requests in (f, data :: out)
  end.

(** A sector inside the memory; the data of a write is a sector. *)
Definition in_memory (size : Z) (r : Request) : Prop :=
  known_operation (rq_Operation r) = true /\ (rq_Operation r = OpVisibility \/ (0 <= rq_Address r /\ rq_Address r + SectorBytes <= size /\ zlen (rq_Data r) = SectorBytes)).

Definition same_bytes (f g : Z -> Z) : Prop := forall a, 0 <= a -> f a = g a.

Lemma serve_flat owner (f : Z -> Z) r : svc_wf owner -> same_bytes (svc_byte owner) f -> in_memory (svc_size owner) r ->
  let '(owner', we', result) := serve owner None r in
  svc_wf owner' /\ svc_size owner' = svc_size owner /\ we' = None /\ same_bytes (svc_byte owner') (flat_serve f r).1 /\ result = ((flat_serve f r).2, None).
Proof.
  intros Hw Hf [Hk Hr]. pose proof (svc_size_bound owner Hw) as Hsz. unfold serve, flat_serve. destruct (rq_Operation r) eqn:Eo; [| |by cbn|done].
  - destruct Hr as [Hv|(Ha & Hs & _)]; [congruence|]. rewrite svc_read_law by (done || (unfold SectorBytes; lia)). unfold range_check, SectorBytes in *. rewrite (proj2 (in_range_spec _ _ _)) by lia. cbn [result_bind fst snd].
    split_and!; try done. f_equal. apply map_zrange_ext. intros x Hx. apply Hf. lia.
  - destruct Hr as [Hv|(Ha & Hs & Hd)]; [congruence|]. assert (0 <= SectorBytes) as H64 by (unfold SectorBytes; lia).
    pose proof (run_writes_ok (svc_size owner) (rq_Address r) SectorBytes (rq_ByteEnable r) (rq_Data r) H64 ltac:(lia) Ha ltac:(lia) Hs) as Hok.
    assert (same_bytes (fold_left (fun f w => overlay w.1 w.2 f) (run_writes (rq_Address r) SectorBytes (rq_ByteEnable r) (rq_Data r)) (svc_byte owner))
      (masked_store (rq_Address r) SectorBytes (rq_ByteEnable r) (rq_Data r) f)) as Hst.
    { intros a Ha0. rewrite run_writes_store by (done || lia). unfold masked_store. by rewrite Hf. }
    pose proof (run_writes_address (rq_Address r) SectorBytes (rq_ByteEnable r) (rq_Data r)) as Hadr.
    destruct (run_writes _ _ _ _) as [|w ws]; [cbn [fst snd]; by split_and!|].
    pose proof (svc_batch_law owner (map fst (w :: ws)) (map snd (w :: ws)) Hw ltac:(by apply Forall_fmap) ltac:(by rewrite !length_map)) as Hb. assert (zip (map fst (w :: ws)) (map snd (w :: ws)) = w :: ws) as Ez by apply (zip_fst_snd (w :: ws)). cbv zeta in Hb. rewrite Ez, Hok in Hb. cbn [is_ok] in Hb.
    destruct (svc_batch owner (map fst (w :: ws)) (map snd (w :: ws))) as [owner' res]. cbn [fst snd] in Hb. destruct Hb as (-> & Hw' & Hs' & Hb). cbn [fst snd].
    split_and!; try done. intros a Ha0. rewrite Hb by done. by apply Hst.
Qed.

Lemma sequential_flat owner (f : Z -> Z) requests : svc_wf owner -> same_bytes (svc_byte owner) f -> Forall (in_memory (svc_size owner)) requests ->
  let '(st, results) := sequential (owner, None) requests in let '(g, out) := flat_sequential f requests in
  st.2 = None /\ same_bytes (svc_byte st.1) g /\ results = map (fun data => (data, None)) out.
Proof.
  revert owner f. induction requests as [|r requests IH]; intros owner f Hw Hf Hr; cbn [sequential flat_sequential fst snd]; [done|]. apply Forall_cons in Hr as [Hr Hrs].
  pose proof (serve_flat owner f r Hw Hf Hr) as Hs. destruct (serve owner None r) as [[owner1 we1] result]. destruct Hs as (Hw1 & Hs1 & -> & Hf1 & ->).
  destruct (flat_serve f r) as [f1 data]. cbn [fst snd] in *. rewrite <- Hs1 in Hrs. specialize (IH owner1 f1 Hw1 Hf1 Hrs).
  destruct (sequential (owner1, None) requests) as [st results]. destruct (flat_sequential f1 requests) as [g out]. destruct IH as (H1 & H2 & ->). by split_and!.
Qed.

(** The responses a client gets from the flat memory. *)
Definition flat_responses_to (latency client : Z) (f : Z -> Z) (log : list ticket) : list Response :=
  map snd (filter (fun p => tk_client p.1 = client) (zip log (zip_with (full_response latency) log (map (fun data => (data, None)) (flat_sequential f (map tk_request log)).2)))).

(** C9: Over any byte owner that keeps the memory laws, when the accepted sector requests
    lie in the memory, the backend is a flat byte memory: no response carries an error, a
    read returns the bytes that the writes accepted before it left, a write changes
    exactly its enabled bytes, and the owner's bytes are those after the served
    requests. *)
Theorem backend_flat owner config clients b0 start inputs b log edges :
  svc_wf owner -> Backend_New (Some owner) config clients = Ok b0 -> is_u64 (cf_Latency config) -> backend_run b0 start inputs = Some (b, log, edges) ->
  Forall (fun t => in_memory (svc_size owner) (tk_request t)) log ->
  exists gone ready wait, log = gone ++ ready ++ wait /\ bk_writeError b = None /\
    same_bytes (svc_byte (bk_owner b)) (flat_sequential (svc_byte owner) (map tk_request (gone ++ ready))).1 /\
    (forall c, 0 <= c -> delivered c edges = flat_responses_to (cf_Latency config) c (svc_byte owner) gone).
Proof.
  intros Hw Hnew Hl Hrun Hin. destruct (new_account owner config clients b0 Hnew Hl) as (Ha & Ec & Hlat & Hret). rewrite <- Ec in Hlat, Hret.
  destruct (run_account owner inputs b0 [] [] [] start b log edges Ha Hlat Hret Hrun) as (back & rest & later & Elog & Hb & _ & Hdel & _). cbn [app] in *. subst log.
  exists back, rest, later. rewrite Ec in Hdel. pose proof (ac_owner _ _ _ _ _ Hb) as Ho. unfold after in Ho, Hdel. cbn [app map sequential fst snd] in Ho, Hdel.
  rewrite app_assoc in Hin. apply Forall_app in Hin as [Hin _]. pose proof (sequential_flat owner (svc_byte owner) (map tk_request (back ++ rest)) Hw ltac:(done) ltac:(by apply Forall_fmap)) as Hs.
  apply Forall_app in Hin as [Hin _]. pose proof (sequential_flat owner (svc_byte owner) (map tk_request back) Hw ltac:(done) ltac:(by apply Forall_fmap)) as Hs'.
  destruct (sequential (owner, None) (map tk_request (back ++ rest))) as [st res]. destruct (flat_sequential (svc_byte owner) (map tk_request (back ++ rest))) as [g out]. cbn [fst] in *. subst st. destruct Hs as (H1 & H2 & _).
  split_and!; try done. intros c Hc. rewrite Hdel by done. unfold responses_to, flat_responses_to, results.
  destruct (sequential (owner, None) (map tk_request back)) as [st' res']. destruct (flat_sequential (svc_byte owner) (map tk_request back)) as [g' out']. by destruct Hs' as (_ & _ & ->).
Qed.
End Flat.

(** ** A concrete run *)

Definition run_config : Config := mkConfig 2 1 2 1.
Definition run_identity (n : Z) : Identity := with_transaction n no_identity.
Definition run_write : Request := mkRequest (run_identity 1) 7 OpWrite 64 6 (replicate 64 9).
Definition run_read : Request := mkRequest (run_identity 1) 8 OpRead 64 0 zero_sector.
Definition run_memory : Memory := mkMemory (replicate 128 1).

Definition run_inputs : list (list Offer * list bool) :=
  [([Some run_write; Some run_read], [true; true]); ([None; Some run_read], [true; true])].
Definition idle_inputs : list (list Offer * list bool) := replicate 4 ([None; None], [true; true]).

(** What the reading client receives. *)
Definition run_answer : Response := mkResponse (run_identity 1) 8 OpRead (1 :: 9 :: 9 :: replicate 61 1) MaxUint64 11 13 2 None.

Example backend_sequential_witness : exists b0 b log edges, Backend_New (Some run_memory) run_config 2 = Ok b0 /\ backend_run b0 10 (run_inputs ++ idle_inputs) = Some (b, log, edges) /\
  exists gone, gone `prefix_of` log /\ delivered 1 edges = responses_to 2 1 (run_memory, None) gone /\ delivered 1 edges = [run_answer].
Proof.
  destruct (Backend_New (Some run_memory) run_config 2) as [b0|] eqn:E0; [|vm_compute in E0; discriminate E0]. destruct (backend_run b0 10 (run_inputs ++ idle_inputs)) as [[[b log] edges]|] eqn:Er.
  2: { vm_compute in E0. injection E0 as <-. vm_compute in Er. discriminate Er. }
  exists b0, b, log, edges. split; [done|]. split; [done|]. destruct (backend_sequential run_memory run_config 2 b0 10 (run_inputs ++ idle_inputs) b log edges E0 ltac:(by vm_compute) Er) as (gone & ready & wait & El & _ & _ & _ & Hd & _).
  exists gone. split; [by exists (ready ++ wait)|]. split; [by apply (Hd 1)|]. vm_compute in E0. injection E0 as <-. vm_compute in Er. injection Er as <- <- <-. vm_compute. reflexivity.
Defined.

Example backend_delivers_witness : exists b0 b1 log1 edges1 b2 log2 edges2, Backend_New (Some run_memory) run_config 2 = Ok b0 /\
  backend_run b0 10 run_inputs = Some (b1, log1, edges1) /\ backend_run b1 12 idle_inputs = Some (b2, log2, edges2) /\
  responses_to 2 1 (run_memory, None) log1 `prefix_of` delivered 1 (edges1 ++ edges2) /\ responses_to 2 1 (run_memory, None) log1 = [run_answer].
Proof.
  destruct (Backend_New (Some run_memory) run_config 2) as [b0|] eqn:E0; [|vm_compute in E0; discriminate E0]. destruct (backend_run b0 10 run_inputs) as [[[b1 log1] edges1]|] eqn:E1.
  2: { vm_compute in E0. injection E0 as <-. vm_compute in E1. discriminate E1. }
  destruct (backend_run b1 12 idle_inputs) as [[[b2 log2] edges2]|] eqn:E2.
  2: { vm_compute in E0. injection E0 as <-. vm_compute in E1. injection E1 as <- <- <-. vm_compute in E2. discriminate E2. }
  exists b0, b1, log1, edges1, b2, log2, edges2. split; [done|]. split; [done|]. split; [done|]. split.
  - by apply (backend_delivers run_memory run_config 2 b0 10 run_inputs b1 log1 edges1 12 idle_inputs b2 log2 edges2 E0 ltac:(by vm_compute) E1 E2 ltac:(repeat constructor) ltac:(by vm_compute) 1).
  - vm_compute in E0. injection E0 as <-. vm_compute in E1. injection E1 as _ <- _. vm_compute. reflexivity.
Defined.

Example backend_flat_witness : exists b0 b log edges, Backend_New (Some run_memory) run_config 2 = Ok b0 /\ backend_run b0 10 (run_inputs ++ idle_inputs) = Some (b, log, edges) /\
  exists gone, delivered 1 edges = flat_responses_to 2 1 (svc_byte run_memory) gone /\ gone `prefix_of` log /\ bk_writeError b = None.
Proof.
  destruct (Backend_New (Some run_memory) run_config 2) as [b0|] eqn:E0; [|vm_compute in E0; discriminate E0]. destruct (backend_run b0 10 (run_inputs ++ idle_inputs)) as [[[b log] edges]|] eqn:Er.
  2: { vm_compute in E0. injection E0 as <-. vm_compute in Er. discriminate Er. }
  exists b0, b, log, edges. split; [done|]. split; [done|]. assert (svc_wf run_memory) as Hw by (unfold svc_wf; cbn; unfold Memory_wf; vm_compute; discriminate).
  assert (Forall (fun t => in_memory (svc_size run_memory) (tk_request t)) log) as Hin.
  { vm_compute in E0. injection E0 as <-. vm_compute in Er. injection Er as _ <- _. repeat constructor; (try by vm_compute); right; by vm_compute. }
  destruct (backend_flat run_memory run_config 2 b0 10 (run_inputs ++ idle_inputs) b log edges Hw E0 ltac:(by vm_compute) Er Hin) as (gone & ready & wait & El & Hwe & _ & Hd).
  exists gone. split; [by apply (Hd 1)|]. split; [by exists (ready ++ wait)|done].
Defined.
