(* ===== verification/Coalescer.v ===== *)
(** * The coalescer (src/timing/memsys/coalescer.go)

    One SIMD request of four lane words becomes batches of at most two eight-byte words,
    one per pair of lanes; the responses of a batch are expanded to its lanes.  A read
    batch owns a slot until both of its words are answered. *)

From S2P Require Import Prelude Memory TimingIR Memsys.

#[local] Open Scope Z_scope.
#[local] Open Scope go_scope.

(** ** Requests and responses *)

Record LaneRequest := mkLane { la_Address : Z; la_ByteEnable : Z; la_Data : list Z; la_Local : bool; la_NonCacheable : bool }.

Record SIMDRequest := mkSIMD {
  sq_Identity : Identity;
  sq_Tag : Z;
  sq_Mask : Z;
  sq_Write : bool;
  sq_NoMerge : bool;
  sq_Flush : bool;
  sq_Lanes : quad LaneRequest
}.

#[export] Instance LaneRequest_eq_dec : EqDecision LaneRequest. Proof. solve_decision. Defined.
#[export] Instance SIMDRequest_eq_dec : EqDecision SIMDRequest. Proof. solve_decision. Defined.

Notation SIMDOffer := (option SIMDRequest).

Record BatchID := mkBatchID { bi_Slot : Z; bi_Generation : Z }.

#[export] Instance BatchID_eq_dec : EqDecision BatchID. Proof. solve_decision. Defined.

Definition no_batch : BatchID := mkBatchID 0 0.

Record SIMDResponse := mkSIMDResponse {
  ss_Identity : Identity;
  ss_Batch : BatchID;
  ss_Tag : Z;
  ss_Mask : Z;
  ss_Data : quad (list Z);
  ss_Errors : quad (option error)
}.

#[export] Instance SIMDResponse_eq_dec : EqDecision SIMDResponse. Proof. solve_decision. Defined.

Notation SIMDReply := (option SIMDResponse).

(** A Go [[2]T], indexed by the lane group. *)
Definition sel {A} (p : A * A) (group : Z) : A := if group =? 0 then p.1 else p.2.

Record CoalescedBatch := mkBatch {
  cb_ID : BatchID;
  cb_Identity : Identity;
  cb_Tag : Z;
  cb_Mask : Z;
  cb_LaneMask : Z;
  cb_Write : bool;
  cb_Words : WordRequest * WordRequest
}.

#[export] Instance CoalescedBatch_eq_dec : EqDecision CoalescedBatch. Proof. solve_decision. Defined.

Record BatchResponse := mkBatchResponse {
  br_ID : BatchID;
  br_Mask : Z;
  br_Data : list Z * list Z;
  br_Errors : option error * option error
}.

Record CoalescerInput := mkCoalescerInput {
  ci_OutputAcceptedMask : Z;
  ci_Request : SIMDOffer;
  ci_OutputReady : bool;
  ci_Response : option BatchResponse;
  ci_ResponseReady : bool
}.

Record CoalescerEdge := mkCoalescerEdge {
  ce_Accepted : bool;
  ce_Output : option CoalescedBatch;
  ce_OutputDelivered : bool;
  ce_Response : SIMDReply;
  ce_ResponseDelivered : bool
}.

Definition ErrUnresolvedStoreOrder : error := Errorf "UNRESOLVED: cross-group overlapping stores have different values".

(** ** Batches *)

(** The bytes a lane adds to its word. *)
Definition merge_lane (l : LaneRequest) (w : WordRequest) : WordRequest :=
  let offset := la_Address l mod 8 in
  let step w k :=
    if enabled (la_ByteEnable l) k then
      mkWordRequest (wq_Identity w) (wq_Tag w) (wq_Address w) (wq_Write w) (wq_NonCacheable w) (wq_Flush w)
        (wq_ByteEnable w .| (1 << (offset + k))) (<[Z.to_nat (offset + k) := default 0 (la_Data l !! Z.to_nat k)]> (wq_Data w))
    else w in
  fold4 step w.

(** The lowest remaining lane of a group. *)
Definition seed_of (r : SIMDRequest) (remaining group : Z) : option Z :=
  find (fun lane => enabled (sq_Mask r .& remaining) lane) [group * 2; group * 2 + 1].

Definition merges (r : SIMDRequest) (seed base lane : Z) : bool :=
  negb (negb (enabled (sq_Mask r) lane) || (la_Address (qget (sq_Lanes r) lane) .&^ 7 <>? base) || (sq_NoMerge r && (lane <>? seed))).

(** One turn of the inner loop: the lane mask and the word so far. *)
Definition merge_turn (r : SIMDRequest) (seed base : Z) (st : Z * WordRequest) (lane : Z) : Z * WordRequest :=
  if merges r seed base lane then (st.1 .| (1 << lane), merge_lane (qget (sq_Lanes r) lane) st.2) else st.

(** The lanes and the word of one group. *)
Definition group_word (r : SIMDRequest) (remaining group : Z) : option (Z * WordRequest) :=
  match seed_of r remaining group with
  | None => None
  | Some seed =>
      let base := la_Address (qget (sq_Lanes r) seed) .&^ 7 in
      let w := mkWordRequest (sq_Identity r) (sq_Tag r) base (sq_Write r) (la_NonCacheable (qget (sq_Lanes r) seed)) (sq_Flush r) 0 zero_word in
      Some (fold_left (merge_turn r seed base) [group * 2; group * 2 + 1] (0, w))
  end.

Definition makeBatch (r : SIMDRequest) (remaining : Z) : CoalescedBatch :=
  let g0 := group_word r remaining 0 in
  let g1 := group_word r remaining 1 in
  let bit g b := match g with Some _ => b | None => 0 end in
  let lanes g := match g : option (Z * WordRequest) with Some (m, _) => m | None => 0 end in
  let word g := match g : option (Z * WordRequest) with Some (_, w) => w | None => no_word end in
  mkBatch no_batch (sq_Identity r) (sq_Tag r) (bit g0 1 .| bit g1 2) (lanes g0 .| lanes g1) (sq_Write r) (word g0, word g1).

(** ** Validation *)

Definition lane_valid (r : SIMDRequest) (i : Z) : bool :=
  let l := qget (sq_Lanes r) i in
  negb (enabled (sq_Mask r) i && ((la_Address l mod 4 <>? 0) || (la_ByteEnable l .&^ 15 <>? 0))).

Definition validateSIMD (r : SIMDRequest) : result unit :=
  check negb ((sq_Mask r =? 0) || (sq_Mask r .&^ 15 <>? 0)) else Errorf "invalid SIMD mask" in
  check forallb (lane_valid r) [0; 1; 2; 3] else Errorf "invalid LSU word lane" in Ok tt.

(** Every lane merged into a word has the word's attribute. *)
Definition uniform_attributes (r : SIMDRequest) (b : CoalescedBatch) : bool :=
  forallb (fun lane => negb (enabled (cb_LaneMask b) lane && negb (Bool.eqb (la_NonCacheable (qget (sq_Lanes r) lane)) (wq_NonCacheable (sel (cb_Words b) (lane / 2)))))) [0; 1; 2; 3].

(** The loop of [validateGlobal]: the batches of the remaining lanes. *)
Fixpoint batch_loop (fuel : nat) (r : SIMDRequest) (remaining : Z) (batches : list CoalescedBatch) : result (list CoalescedBatch) :=
  if remaining =? 0 then Ok batches
  else match fuel with
       | O => Err (Errorf "more batches than lanes")
       | S fuel =>
           let b := makeBatch r remaining in
           check uniform_attributes r b else Errorf "UNRESOLVED: mixed attributes within coalesced word" in
           batch_loop fuel r (remaining .&^ cb_LaneMask b) (batches ++ [b])
       end.

(** Two words of different groups agree on the bytes both write. *)
Definition words_agree (x y : WordRequest) : bool :=
  (wq_Address x <>? wq_Address y) ||
  forallb (fun k => negb (enabled (wq_ByteEnable x .& wq_ByteEnable y) k && (default 0 (wq_Data x !! Z.to_nat k) <>? default 0 (wq_Data y !! Z.to_nat k)))) [0; 1; 2; 3; 4; 5; 6; 7].

Definition batches_agree (a b : CoalescedBatch) : bool := negb (enabled (cb_Mask a) 0) || negb (enabled (cb_Mask b) 1) || words_agree (cb_Words a).1 (cb_Words b).2.

(** Four batches are enough: each takes at least one lane. *)
Definition validateGlobal (r : SIMDRequest) : result unit :=
  let? _ := validateSIMD r in
  check forallb (fun i => negb (enabled (sq_Mask r) i && la_Local (qget (sq_Lanes r) i))) [0; 1; 2; 3] else Errorf "local lane at global coalescer" in
  let? batches := batch_loop 4 r (sq_Mask r) [] in
  if negb (sq_Write r) then Ok tt
  else check forallb (fun a => forallb (batches_agree a) batches) batches else ErrUnresolvedStoreOrder in Ok tt.

(** ** The component *)

Record coalescerSlot := mkSlot { cs_valid : bool; cs_sent : Z; cs_generation : Z; cs_request : SIMDRequest; cs_lanes : Z; cs_remaining : Z }.

Definition no_lane : LaneRequest := mkLane 0 0 [0; 0; 0; 0] false false.
Definition no_simd : SIMDRequest := mkSIMD no_identity 0 0 false false false (qfill no_lane).
Definition free_slot : coalescerSlot := mkSlot false 0 0 no_simd 0 0.
Definition empty_batch : CoalescedBatch := mkBatch no_batch no_identity 0 0 0 false (no_word, no_word).

Record Coalescer := mkCoalescer {
  co_acquire : Z;
  co_heldResponse : option BatchResponse;
  co_slots : list coalescerSlot;
  co_held : SIMDOffer;
  co_output : option CoalescedBatch;
  co_send : bool;
  co_remaining : Z;
  co_prepared : CoalescedBatch;
  co_cycle : Z;
  co_last : Z;
  co_started : bool;
  co_used : bool
}.

(** A coalescer with [n] free slots. *)
Definition fresh_coalescer (n : Z) : Coalescer := mkCoalescer 0 None (replicate (Z.to_nat n) free_slot) None None false 15 empty_batch 0 0 false false.

Definition NewCoalescer `{TimingDocument} : result Coalescer :=
  let tags := fun f => Number "resources" "res-coalescer-tags" [f] in
  let? _ := foldM (fun _ '(f, expected) => let? n := tags f in check n =? expected else Errorf "unsupported coalescer" in Ok tt) tt
    [("input_lanes", 4); ("input_data_bytes", 4); ("output_channels", 2); ("output_data_bytes", 8)]%string in
  let? n := tags "capacity"%string in
  check negb (n <=? 0) else Errorf "invalid coalescer capacity" in
  Ok (fresh_coalescer n).

(** [free()], [None] being -1. *)
Definition free (slots : list coalescerSlot) : option Z := (fun p => Z.of_nat (fst p)) <$> list_find (fun s => cs_valid s = false) slots.

Definition slot_at (slots : list coalescerSlot) (i : Z) : coalescerSlot := default free_slot (slots !! Z.to_nat i).

Definition Output (c : Coalescer) : option CoalescedBatch := co_output c.
Definition Coalescer_Empty (c : Coalescer) (inputValid : bool) : bool := negb (co_send c) && negb (bool_decide (co_output c <> None)) && negb inputValid.
Definition Coalescer_Drained (c : Coalescer) : bool :=
  Coalescer_Empty c (bool_decide (co_held c <> None)) && forallb (fun s => negb (cs_valid s)) (co_slots c).

Definition Coalescer_HasResidency (c : Coalescer) (kernel cta : Z) : bool :=
  match co_held c with Some r => belongs kernel cta (sq_Identity r) | None => false end ||
  match co_output c with Some b => belongs kernel cta (cb_Identity b) | None => false end ||
  existsb (fun s => cs_valid s && belongs kernel cta (sq_Identity (cs_request s))) (co_slots c).

(** ** The clock edge *)

Definition MaxUint64 : Z := 2 ^ 64 - 1.

Definition request_check (c : Coalescer) (request : SIMDOffer) : result unit :=
  check negb (bool_decide (co_held c <> None /\ co_held c <> request)) else Errorf "changed stalled SIMD request" in
  match request with
  | None => Ok tt
  | Some r =>
      let? _ := validateGlobal r in
      check negb (co_used c && (id_Transaction (sq_Identity r) <=? co_last c)) else Errorf "stale SIMD transaction" in Ok tt
  end.

Definition progress_check (c : Coalescer) (mask : Z) : result unit :=
  if mask =? 0 then Ok tt
  else match co_output c with
       | None => Err (Errorf "invalid coalescer channel progress")
       | Some b =>
           check mask .&^ cb_Mask b =? 0 else Errorf "invalid coalescer channel progress" in
           check cb_Write b || (cs_sent (slot_at (co_slots c) (bi_Slot (cb_ID b))) .& mask =? 0) else Errorf "duplicate coalescer channel progress" in Ok tt
       end.

(** A stalled response of the same tag keeps what it showed. *)
Definition stable_response (old now : BatchResponse) : result unit :=
  check br_Mask old .&^ br_Mask now =? 0 else Errorf "lost stalled batch channel" in
  check forallb (fun p => negb (enabled (br_Mask old) p) || bool_decide (sel (br_Data old) p = sel (br_Data now) p /\ sel (br_Errors old) p = sel (br_Errors now) p)) [0; 1]
  else Errorf "changed stalled batch data" in Ok tt.

Definition held_check (c : Coalescer) (response : option BatchResponse) : result unit :=
  match co_heldResponse c, response with
  | Some _, None => Err (Errorf "dropped stalled batch valid")
  | Some old, Some now => if decide (br_ID old = br_ID now) then stable_response old now else Ok tt
  | None, _ => Ok tt
  end.

(** The slot a response is for. *)
Definition answers (slots : list coalescerSlot) (r : BatchResponse) : bool :=
  let s := slot_at slots (bi_Slot (br_ID r)) in
  negb (negb (cs_valid s) || (br_Mask r .&^ cs_sent s <>? 0) || (cs_generation s <>? bi_Generation (br_ID r)) || (br_Mask r =? 0) || (br_Mask r .&^ cs_remaining s <>? 0)).

Definition slot_in_range (slots : list coalescerSlot) (i : Z) : bool := negb ((i <? 0) || (i >=? zlen slots)).

Definition response_check (slots : list coalescerSlot) (response : option BatchResponse) : result unit :=
  match response with
  | None => Ok tt
  | Some r =>
      check slot_in_range slots (bi_Slot (br_ID r)) else Errorf "invalid coalescer response slot" in
      check answers slots r else Errorf "stale, duplicate or unsent coalescer response" in Ok tt
  end.

(** The slot of an allocation on this edge, [None] when all were taken. *)
Definition free_index (c : Coalescer) : option Z := match free (co_slots c) with None => None | Some _ => Some (co_acquire c) end.

Definition send_check (c : Coalescer) : result unit :=
  if negb (co_send c) then Ok tt
  else match free_index c with
       | None => Err (Errorf "coalescer slot unavailable in SEND")
       | Some i => check cb_Write (co_prepared c) || (cs_generation (slot_at (co_slots c) i) <>? MaxUint64) else Errorf "coalescer slot unavailable in SEND" in Ok tt
       end.

Definition Coalescer_check (c : Coalescer) (cycle : Z) (input : CoalescerInput) : result unit :=
  check negb (co_started c && ((co_cycle c =? MaxUint64) || (cycle <>? co_cycle c + 1))) else Errorf "noncontiguous coalescer cycle" in
  let? _ := request_check c (ci_Request input) in
  let? _ := progress_check c (ci_OutputAcceptedMask input) in
  let? _ := held_check c (ci_Response input) in
  let? _ := response_check (co_slots c) (ci_Response input) in
  send_check c.

(** The lanes of a batch response; [copy] of four bytes from the lane's offset. *)
Definition expand (s : coalescerSlot) (r : BatchResponse) : SIMDResponse :=
  let lane_in lane := enabled (cs_lanes s) lane && enabled (br_Mask r) (lane / 2) in
  let mask := fold4 (fun m lane => if lane_in lane then m .| (1 << lane) else m) 0 in
  let err lane := if lane_in lane then sel (br_Errors r) (lane / 2) else None in
  let data lane :=
    if lane_in lane && negb (bool_decide (err lane <> None))
    then slice (sel (br_Data r) (lane / 2)) (Z.to_nat (la_Address (qget (sq_Lanes (cs_request s)) lane) mod 8)) 4
    else [0; 0; 0; 0] in
  mkSIMDResponse (sq_Identity (cs_request s)) (br_ID r) (sq_Tag (cs_request s)) mask (qmake data) (qmake err).

Definition with_sent (m : Z) (s : coalescerSlot) : coalescerSlot := mkSlot (cs_valid s) m (cs_generation s) (cs_request s) (cs_lanes s) (cs_remaining s).

(** A delivered response takes its words off the slot, which is free after the last. *)
Definition consume (m : Z) (s : coalescerSlot) : coalescerSlot :=
  let remaining := cs_remaining s .&^ m in
  mkSlot (cs_valid s && (remaining <>? 0)) (cs_sent s) (cs_generation s) (cs_request s) (cs_lanes s) remaining.

Definition alter_slot (f : coalescerSlot -> coalescerSlot) (i : Z) (slots : list coalescerSlot) : list coalescerSlot := alter f (Z.to_nat i) slots.

Definition deliver_response (input : CoalescerInput) (slots : list coalescerSlot) : list coalescerSlot :=
  match ci_Response input with
  | Some r => if ci_ResponseReady input then alter_slot (consume (br_Mask r)) (bi_Slot (br_ID r)) slots else slots
  | None => slots
  end.

Definition response_releases (input : CoalescerInput) (slots : list coalescerSlot) : bool :=
  match ci_Response input with
  | Some r => ci_ResponseReady input && (cs_remaining (slot_at slots (bi_Slot (br_ID r))) .&^ br_Mask r =? 0)
  | None => false
  end.

(** The channels of the output batch that left, in part or as a whole. *)
Definition output_progress (output : option CoalescedBatch) (input : CoalescerInput) (slots : list coalescerSlot) : list coalescerSlot :=
  match output with
  | None => slots
  | Some b =>
      if cb_Write b then slots
      else
        let i := bi_Slot (cb_ID b) in
        let slots := if ci_OutputAcceptedMask input =? 0 then slots else alter_slot (fun s => with_sent (cs_sent s .| ci_OutputAcceptedMask input) s) i slots in
        if ci_OutputReady input then alter_slot (with_sent (cb_Mask b)) i slots else slots
  end.

Definition with_id (id : BatchID) (b : CoalescedBatch) : CoalescedBatch := mkBatch id (cb_Identity b) (cb_Tag b) (cb_Mask b) (cb_LaneMask b) (cb_Write b) (cb_Words b).

(** The prepared batch with its tag, and the slots after its allocation. *)
Definition send_batch (b : CoalescedBatch) (i : Z) (request : SIMDRequest) (slots : list coalescerSlot) : CoalescedBatch * list coalescerSlot :=
  if cb_Write b then (with_id (mkBatchID i 0) b, slots)
  else
    let generation := u64 (cs_generation (slot_at slots i) + 1) in
    (with_id (mkBatchID i generation) b, <[Z.to_nat i := mkSlot true 0 generation request (cb_LaneMask b) (cb_Mask b)]> slots).

Definition held_offer (request : SIMDOffer) (accepted : bool) : SIMDOffer := if accepted then None else request.

Definition Coalescer_Step (c : Coalescer) (cycle : Z) (input : CoalescerInput) : Coalescer * result CoalescerEdge :=
  match Coalescer_check c cycle input with
  | Err e => (c, Err e)
  | Ok _ =>
      let full := bool_decide (free (co_slots c) = None) in
      let allocated := co_send c && negb (cb_Write (co_prepared c)) in
      let delivered := bool_decide (co_output c <> None) && ci_OutputReady input in
      let response := (fun r => expand (slot_at (co_slots c) (bi_Slot (br_ID r))) r) <$> ci_Response input in
      let released := response_releases input (co_slots c) in
      let slots := output_progress (co_output c) input (deliver_response input (co_slots c)) in
      let output := if delivered then None else co_output c in
      let held := if ci_ResponseReady input then None else ci_Response input in
      let edge accepted := mkCoalescerEdge accepted (co_output c) delivered response (bool_decide (ci_Response input <> None) && ci_ResponseReady input) in
      let reacquire slots := match (if allocated || (released && full) then free slots else None) with Some next => next | None => co_acquire c end in
      if co_send c then
        let request := default no_simd (ci_Request input) in
        let '(b, slots) := send_batch (co_prepared c) (default (-1) (free_index c)) request slots in
        let remaining := co_remaining c .&^ cb_LaneMask b in
        let accepted := sq_Mask request .& remaining =? 0 in
        (mkCoalescer (reacquire slots) held slots (held_offer (ci_Request input) accepted) (Some b) false (if accepted then 15 else remaining) (co_prepared c) cycle
           (if accepted then id_Transaction (sq_Identity request) else co_last c) true (co_used c || accepted),
         Ok (edge accepted))
      else
        let '(prepared, send) := match ci_Request input, output, free_index c with
          | Some r, None, Some _ => (makeBatch r (co_remaining c), true)
          | _, _, _ => (co_prepared c, false)
          end in
        (mkCoalescer (reacquire slots) held slots (held_offer (ci_Request input) false) output send (co_remaining c) prepared cycle (co_last c) true (co_used c),
         Ok (edge false))
  end.

(** The expansion of a prospective response; the coalescer is unchanged. *)
Definition Coalescer_Preview (c : Coalescer) (response : option BatchResponse) : result SIMDReply :=
  match response with
  | None => Ok None
  | Some r =>
      check slot_in_range (co_slots c) (bi_Slot (br_ID r)) else Errorf "invalid coalescer response slot" in
      check answers (co_slots c) r else Errorf "stale or unsent coalescer preview" in
      Ok (Some (expand (slot_at (co_slots c) (bi_Slot (br_ID r))) r))
  end.
