(* ===== verification/CoalescerSpec.v ===== *)
(** * What the coalescer does to a SIMD request

    The batches of a request partition its lanes; writing their words, in any order that
    keeps each lane group's own order, is writing the lanes one after the other; the
    expansion of a batch's bytes gives every lane its own word. *)

From S2P Require Import Prelude Memory TimingIR Memsys Coalescer.

#[local] Open Scope Z_scope.
#[local] Open Scope go_scope.

(** ** Words and lanes as stores *)

Definition lane_store (l : LaneRequest) (f : Z -> Z) : Z -> Z := masked_store (la_Address l) 4 (la_ByteEnable l) (la_Data l) f.
Definition word_store (w : WordRequest) (f : Z -> Z) : Z -> Z := masked_store (wq_Address w) 8 (wq_ByteEnable w) (wq_Data w) f.

(** The lane's Go types and its alignment. *)
Definition lane_ok (l : LaneRequest) : Prop := 0 <= la_Address l /\ la_Address l mod 4 = 0 /\ length (la_Data l) = 4%nat.

Lemma ldiff_7 x : x .&^ 7 = x - x mod 8.
Proof. change 7 with (Z.ones 3). rewrite Z.ldiff_ones_r, Z.shiftr_div_pow2, Z.shiftl_mul_pow2 by lia. pose proof (Z.div_mod x 8 ltac:(lia)). change (2 ^ 3) with 8. lia. Qed.

Lemma lane_offset l : lane_ok l -> (la_Address l mod 8 = 0 \/ la_Address l mod 8 = 4) /\ la_Address l = la_Address l .&^ 7 + la_Address l mod 8.
Proof. intros (H0 & H4 & _). rewrite ldiff_7. split; [|lia]. pose proof (Z.div_mod (la_Address l) 4 ltac:(lia)). pose proof (Z.div_mod (la_Address l) 8 ltac:(lia)). pose proof (Z.mod_pos_bound (la_Address l) 8 ltac:(lia)). lia. Qed.

(** A word with one more byte. *)
Lemma word_store_byte w o x f a : 0 <= o < 8 -> length (wq_Data w) = 8%nat ->
  word_store (mkWordRequest (wq_Identity w) (wq_Tag w) (wq_Address w) (wq_Write w) (wq_NonCacheable w) (wq_Flush w) (wq_ByteEnable w .| (1 << o)) (<[Z.to_nat o := x]> (wq_Data w))) f a =
  if a =? wq_Address w + o then x else word_store w f a.
Proof.
  intros Ho Hl. unfold word_store, masked_store. cbn [wq_Address wq_ByteEnable wq_Data]. destruct (Z.leb_spec (wq_Address w) a), (Z.ltb_spec a (wq_Address w + 8)); cbn [andb]; try (destruct (Z.eqb_spec a (wq_Address w + o)); [lia|done]).
  rewrite Z.lor_spec, testbit_shiftl_at by lia. destruct (Z.eqb_spec a (wq_Address w + o)) as [->|Hne].
  - replace (wq_Address w + o - wq_Address w) with o by lia. rewrite Z.sub_diag. change (Z.testbit 1 0) with true. destruct (Z.leb_spec 0 o); [|lia]. rewrite orb_true_r.
    unfold byte_of. by rewrite list_lookup_insert_eq by lia.
  - assert (Z.testbit 1 (a - wq_Address w - o) = false) as ->.
    { destruct (Z.lt_ge_cases (a - wq_Address w - o) 0); [by apply Z.testbit_neg_r|]. change 1 with (2 ^ 0). apply Z.pow2_bits_false. lia. }
    rewrite andb_false_r, orb_false_r. unfold byte_of. by rewrite list_lookup_insert_ne by lia.
Qed.

(** The fields a merge keeps. *)
Definition same_word (w w' : WordRequest) : Prop :=
  wq_Address w' = wq_Address w /\ length (wq_Data w') = length (wq_Data w) /\ wq_NonCacheable w' = wq_NonCacheable w /\ wq_Write w' = wq_Write w /\ wq_Identity w' = wq_Identity w /\ wq_Tag w' = wq_Tag w.

(** [w'] is [w] with the first [n] bytes of the lane. *)
Definition merged_bytes (l : LaneRequest) (w : WordRequest) (n : Z) (w' : WordRequest) : Prop :=
  same_word w w' /\ forall f a, word_store w' f a = masked_store (la_Address l) n (la_ByteEnable l) (la_Data l) (word_store w f) a.

Definition merge_byte (l : LaneRequest) (w : WordRequest) (k : Z) : WordRequest :=
  if enabled (la_ByteEnable l) k then
    mkWordRequest (wq_Identity w) (wq_Tag w) (wq_Address w) (wq_Write w) (wq_NonCacheable w) (wq_Flush w)
      (wq_ByteEnable w .| (1 << (la_Address l mod 8 + k))) (<[Z.to_nat (la_Address l mod 8 + k) := default 0 (la_Data l !! Z.to_nat k)]> (wq_Data w))
  else w.

Lemma merge_byte_spec l w n w' : lane_ok l -> length (wq_Data w) = 8%nat -> wq_Address w = la_Address l .&^ 7 -> 0 <= n < 4 ->
  merged_bytes l w n w' -> merged_bytes l w (n + 1) (merge_byte l w' n).
Proof.
  intros Hl Hw Ha Hn [(E1 & E2 & E3 & E4 & E5 & E6) Hs]. destruct (lane_offset l Hl) as [Ho Eo]. unfold merge_byte. rewrite run_enabled_bit by lia.
  assert (forall f a, masked_store (la_Address l) (n + 1) (la_ByteEnable l) (la_Data l) f a =
    if (a =? la_Address l + n) && Z.testbit (la_ByteEnable l) n then byte_of (la_Data l) n else masked_store (la_Address l) n (la_ByteEnable l) (la_Data l) f a) as Hstep.
  { intros f a. unfold masked_store. destruct (Z.eqb_spec a (la_Address l + n)) as [->|Hne]; cbn [andb].
    - replace (la_Address l + n - la_Address l) with n by lia. destruct (Z.leb_spec (la_Address l) (la_Address l + n)), (Z.ltb_spec (la_Address l + n) (la_Address l + (n + 1))), (Z.ltb_spec (la_Address l + n) (la_Address l + n)); try lia. by destruct (Z.testbit _ n).
    - destruct (Z.ltb_spec a (la_Address l + (n + 1))), (Z.ltb_spec a (la_Address l + n)); try lia; done. }
  destruct (Z.testbit (la_ByteEnable l) n) eqn:Eb.
  - split; [unfold same_word; cbn; rewrite length_insert; by split_and!|]. intros f a. rewrite word_store_byte by (lia || congruence). rewrite Hstep, Hs, E1, Ha, andb_true_r.
    replace (la_Address l .&^ 7 + (la_Address l mod 8 + n)) with (la_Address l + n) by lia. done.
  - split; [by split_and!|]. intros f a. by rewrite Hs, Hstep, andb_false_r.
Qed.

Lemma merge_lane_spec l w : lane_ok l -> length (wq_Data w) = 8%nat -> wq_Address w = la_Address l .&^ 7 ->
  same_word w (merge_lane l w) /\ forall f a, word_store (merge_lane l w) f a = lane_store l (word_store w f) a.
Proof.
  intros Hl Hw Ha. change (merge_lane l w) with (fold4 (merge_byte l) w). unfold fold4, lane_store.
  assert (merged_bytes l w 0 w) as H0. { split; [by unfold same_word|]. intros f a. unfold masked_store. destruct (Z.leb_spec (la_Address l) a), (Z.ltb_spec a (la_Address l + 0)); try lia; done. }
  apply (merge_byte_spec l w 0) in H0; [|done..|lia]. apply (merge_byte_spec l w (0 + 1)) in H0; [|done..|lia]. apply (merge_byte_spec l w (0 + 1 + 1)) in H0; [|done..|lia].
  by apply (merge_byte_spec l w (0 + 1 + 1 + 1)) in H0; [|done..|lia].
Qed.

(** ** Orders of stores *)

(** The interleavings of two sequences. *)
Inductive interleaving {A : Type} : list A -> list A -> list A -> Prop :=
| interleaving_nil : interleaving [] [] []
| interleaving_left x xs ys zs : interleaving xs ys zs -> interleaving (x :: xs) ys (x :: zs)
| interleaving_right xs y ys zs : interleaving xs ys zs -> interleaving xs (y :: ys) (y :: zs).

Definition word_stores (ws : list WordRequest) (f : Z -> Z) : Z -> Z := fold_left (fun f w => word_store w f) ws f.

Definition writes (w : WordRequest) (a : Z) : bool := (wq_Address w <=? a) && (a <? wq_Address w + 8) && Z.testbit (wq_ByteEnable w) (a - wq_Address w).
Definition byte_at (w : WordRequest) (a : Z) : Z := byte_of (wq_Data w) (a - wq_Address w).

(** Two words do not disagree on a byte. *)
Definition agree (x y : WordRequest) : Prop := forall a, writes x a = true -> writes y a = true -> byte_at x a = byte_at y a.

Lemma word_store_at w f a : word_store w f a = if writes w a then byte_at w a else f a.
Proof. reflexivity. Qed.

Lemma masked_store_ext address n enable data f g a : f a = g a -> masked_store address n enable data f a = masked_store address n enable data g a.
Proof. intros E. unfold masked_store. by case_match. Qed.

Lemma word_stores_ext ws f g a : f a = g a -> word_stores ws f a = word_stores ws g a.
Proof. revert f g. unfold word_stores. induction ws as [|w ws IH]; intros f g E; cbn [fold_left]; [done|]. apply IH. by apply masked_store_ext. Qed.

Lemma word_stores_app ws ws' f a : word_stores (ws ++ ws') f a = word_stores ws' (word_stores ws f) a.
Proof. unfold word_stores. by rewrite fold_left_app. Qed.

Lemma word_stores_keep ws f a : (forall w, w ∈ ws -> writes w a = true -> byte_at w a = f a) -> word_stores ws f a = f a.
Proof.
  revert f. unfold word_stores. induction ws as [|w ws IH]; intros f Hw; cbn [fold_left]; [done|].
  assert (word_store w f a = f a) as E by (rewrite word_store_at; destruct (writes w a) eqn:Ew; [apply Hw; [left|done]|done]).
  rewrite IH; [done|]. intros w' Hin Hw'. rewrite E. apply Hw; [by right|done].
Qed.

(** Words that agree may be stored in either order. *)
Lemma word_store_commute y xs f a : (forall x, x ∈ xs -> agree x y) -> word_stores xs (word_store y f) a = word_store y (word_stores xs f) a.
Proof.
  intros Ha. rewrite (word_store_at y (word_stores xs f)). destruct (writes y a) eqn:Ey.
  - assert (word_store y f a = byte_at y a) as E by (by rewrite word_store_at, Ey). rewrite <- E. apply word_stores_keep. intros w Hin Hw. rewrite E. by apply (Ha w Hin).
  - apply word_stores_ext. by rewrite word_store_at, Ey.
Qed.

Lemma interleaving_stores xs ys ws f a : interleaving xs ys ws -> (forall x y, x ∈ xs -> y ∈ ys -> agree x y) -> word_stores ws f a = word_stores (xs ++ ys) f a.
Proof.
  intros Hi. revert f. induction Hi as [|x xs ys ws Hi IH|xs y ys ws Hi IH]; intros f Ha; [done| |].
  - apply (IH (word_store x f)). intros x' y Hx Hy. apply Ha; [by right|done].
  - change (word_stores (y :: ws) f a) with (word_stores ws (word_store y f) a). rewrite IH by (intros x y' Hx Hy; apply Ha; [done|by right]). rewrite !word_stores_app.
    change (word_stores (y :: ys) (word_stores xs f) a) with (word_stores ys (word_store y (word_stores xs f)) a). apply word_stores_ext. apply word_store_commute. intros x Hx. apply Ha; [done|left].
Qed.

(** ** The batches of a request *)

(** The batches a step makes of the remaining lanes, [None] when the turns run out. *)
Fixpoint batches (fuel : nat) (make : Z -> CoalescedBatch) (remaining : Z) : option (list CoalescedBatch) :=
  if remaining =? 0 then Some []
  else match fuel with
       | O => None
       | S fuel => let b := make remaining in cons b <$> batches fuel make (remaining .&^ cb_LaneMask b)
       end.

Lemma batches_ext fuel (make make' : Z -> CoalescedBatch) remaining : (forall m, make m = make' m) -> batches fuel make remaining = batches fuel make' remaining.
Proof. intros He. revert remaining. induction fuel as [|fuel IH]; intros remaining; cbn [batches]; [done|]. by rewrite He, IH. Qed.

Lemma batch_loop_batches fuel r remaining acc bs : batches fuel (makeBatch r) remaining = Some bs ->
  batch_loop fuel r remaining acc = if forallb (uniform_attributes r) bs then Ok (acc ++ bs) else Err (Errorf "UNRESOLVED: mixed attributes within coalesced word").
Proof.
  revert remaining acc bs. induction fuel as [|fuel IH]; intros remaining acc bs; cbn [batches batch_loop]; (destruct (remaining =? 0); [intros [= <-]; cbn; by rewrite app_nil_r|]); [done|].
  intros Hb. destruct (batches fuel (makeBatch r) _) as [bs'|] eqn:E; [|done]. cbn in Hb. injection Hb as <-. cbn [forallb]. destruct (uniform_attributes r (makeBatch r remaining)); [|done].
  rewrite (IH _ _ _ E). cbn [andb]. by rewrite <- app_assoc.
Qed.

Section Request.
Context (r : SIMDRequest).

Notation lane_of := (qget (sq_Lanes r)).

Definition base_of (lane : Z) : Z := la_Address (lane_of lane) .&^ 7.

(** The word of a seed before any byte is merged. *)
Definition seed_word (seed : Z) : WordRequest :=
  mkWordRequest (sq_Identity r) (sq_Tag r) (base_of seed) (sq_Write r) (la_NonCacheable (lane_of seed)) (sq_Flush r) 0 zero_word.

Definition lane_word (seed : Z) : WordRequest := merge_lane (lane_of seed) (seed_word seed).

(** The two lanes of a group share one word. *)
Definition joined (i j : Z) : bool := (base_of i =? base_of j) && negb (sq_NoMerge r).

Lemma group_word_cases remaining g : (g = 0 \/ g = 1) -> let i := g * 2 in let j := g * 2 + 1 in
  group_word r remaining g =
  if enabled (sq_Mask r .& remaining) i then
    Some (if enabled (sq_Mask r) j && joined i j then ((1 << i) .| (1 << j), merge_lane (lane_of j) (lane_word i)) else (1 << i, lane_word i))
  else if enabled (sq_Mask r .& remaining) j then
    Some (if enabled (sq_Mask r) i && joined i j then ((1 << i) .| (1 << j), merge_lane (lane_of j) (merge_lane (lane_of i) (seed_word j))) else (1 << j, lane_word j))
  else None.
Proof.
  intros Hg i j. assert (forall l, 0 <= l -> enabled (sq_Mask r .& remaining) l = true -> enabled (sq_Mask r) l = true) as Hin.
  { intros l Hl. rewrite !run_enabled_bit, Z.land_spec by done. by intros [? _]%andb_true_iff. }
  pose proof (Hin i ltac:(lia)) as Hi. pose proof (Hin j ltac:(lia)) as Hj. clear Hin. subst i j.
  unfold group_word, seed_of, merge_turn, merges, joined, lane_word, seed_word. cbn [find fold_left]. fold (base_of (g * 2)) (base_of (g * 2 + 1)).
  assert ((g * 2 =? g * 2) = true /\ (g * 2 + 1 =? g * 2 + 1) = true /\ (g * 2 =? g * 2 + 1) = false /\ (g * 2 + 1 =? g * 2) = false) as (E1 & E2 & E3 & E4) by (destruct Hg as [-> | ->]; done).
  destruct (enabled (sq_Mask r .& remaining) (g * 2)); [|destruct (enabled (sq_Mask r .& remaining) (g * 2 + 1)); [|done]].
  - fold (base_of (g * 2)). rewrite (Hi eq_refl), E1, E4, (Z.eqb_refl (base_of (g * 2))), (Z.eqb_sym (base_of (g * 2 + 1))). cbn [negb orb andb]. rewrite andb_false_r.
    destruct (enabled (sq_Mask r) (g * 2 + 1)), (base_of (g * 2) =? base_of (g * 2 + 1)), (sq_NoMerge r); reflexivity.
  - fold (base_of (g * 2 + 1)). rewrite (Hj eq_refl), E2, E3, (Z.eqb_refl (base_of (g * 2 + 1))). cbn [negb orb andb]. rewrite andb_false_r.
    destruct (enabled (sq_Mask r) (g * 2)), (base_of (g * 2) =? base_of (g * 2 + 1)), (sq_NoMerge r); reflexivity.
Qed.

(** The words of a group, each with its lanes. *)
Definition group_words (g : Z) : list (Z * WordRequest) :=
  let i := g * 2 in let j := g * 2 + 1 in
  match enabled (sq_Mask r) i, enabled (sq_Mask r) j with
  | true, true => if joined i j then [((1 << i) .| (1 << j), merge_lane (lane_of j) (lane_word i))] else [(1 << i, lane_word i); (1 << j, lane_word j)]
  | true, false => [(1 << i, lane_word i)]
  | false, true => [(1 << j, lane_word j)]
  | false, false => []
  end.

Definition pair_batch (x y : option (Z * WordRequest)) : CoalescedBatch :=
  let bit (g : option (Z * WordRequest)) b := match g with Some _ => b | None => 0 end in
  let lanes (g : option (Z * WordRequest)) := match g with Some (m, _) => m | None => 0 end in
  let word (g : option (Z * WordRequest)) := match g with Some (_, w) => w | None => no_word end in
  mkBatch no_batch (sq_Identity r) (sq_Tag r) (bit x 1 .| bit y 2) (lanes x .| lanes y) (sq_Write r) (word x, word y).

(** The two groups side by side. *)
Fixpoint pair_up (xs ys : list (Z * WordRequest)) : list CoalescedBatch :=
  match xs, ys with
  | x :: xs, y :: ys => pair_batch (Some x) (Some y) :: pair_up xs ys
  | x :: xs, [] => pair_batch (Some x) None :: pair_up xs []
  | [], _ => map (fun y => pair_batch None (Some y)) ys
  end.

Lemma makeBatch_pair remaining : makeBatch r remaining = pair_batch (group_word r remaining 0) (group_word r remaining 1).
Proof. reflexivity. Qed.

Definition mask_valid : Prop := 0 < sq_Mask r < 16.

(** Four turns are enough, and this is what they make. *)
Lemma batches_pair : mask_valid -> batches 4 (makeBatch r) (sq_Mask r) = Some (pair_up (group_words 0) (group_words 1)).
Proof.
  unfold mask_valid. intros Hm. unfold group_words.
  pose proof (fun remaining => group_word_cases remaining 0 ltac:(by left)) as E0. pose proof (fun remaining => group_word_cases remaining 1 ltac:(by right)) as E1. cbv zeta in E0, E1.
  rewrite (batches_ext 4 _ _ _ (fun remaining => f_equal2 pair_batch (E0 remaining) (E1 remaining))). clear E0 E1.
  generalize (joined (0 * 2) (0 * 2 + 1)) (joined (1 * 2) (1 * 2 + 1)). intros J0 J1.
  generalize (merge_lane (lane_of (0 * 2 + 1)) (lane_word (0 * 2))). intros w01. generalize (merge_lane (lane_of (0 * 2 + 1)) (merge_lane (lane_of (0 * 2)) (seed_word (0 * 2 + 1)))). intros w01'.
  generalize (merge_lane (lane_of (1 * 2 + 1)) (lane_word (1 * 2))). intros w23. generalize (merge_lane (lane_of (1 * 2 + 1)) (merge_lane (lane_of (1 * 2)) (seed_word (1 * 2 + 1)))). intros w23'.
  generalize (lane_word (0 * 2)) (lane_word (0 * 2 + 1)) (lane_word (1 * 2)) (lane_word (1 * 2 + 1)). intros w0 w1 w2 w3. revert Hm. generalize (sq_Mask r). intros m Hm.
  assert (m = 1 \/ m = 2 \/ m = 3 \/ m = 4 \/ m = 5 \/ m = 6 \/ m = 7 \/ m = 8 \/ m = 9 \/ m = 10 \/ m = 11 \/ m = 12 \/ m = 13 \/ m = 14 \/ m = 15) as Hc by lia. clear Hm.
  destruct J0, J1; destruct_or! Hc; subst m; reflexivity.
Qed.

(** ** Stores *)

Definition lanes_ok : Prop := forall lane, 0 <= lane < 4 -> enabled (sq_Mask r) lane = true -> lane_ok (lane_of lane).

Definition active (lanes : list Z) : list Z := filter (fun lane => enabled (sq_Mask r) lane = true) lanes.

(** The lanes one after the other. *)
Definition lane_stores (lanes : list Z) (f : Z -> Z) : Z -> Z := fold_left (fun f lane => lane_store (lane_of lane) f) (active lanes) f.

Lemma seed_word_store seed f a : word_store (seed_word seed) f a = f a.
Proof. unfold word_store, masked_store. cbn. by rewrite Z.testbit_0_l, andb_false_r. Qed.

Lemma lane_word_spec seed : lane_ok (lane_of seed) -> same_word (seed_word seed) (lane_word seed) /\ forall f a, word_store (lane_word seed) f a = lane_store (lane_of seed) f a.
Proof.
  intros Hl. destruct (merge_lane_spec (lane_of seed) (seed_word seed) Hl ltac:(done) ltac:(done)) as [Hs Hm]. split; [done|]. intros f a. unfold lane_word. rewrite Hm.
  unfold lane_store. apply masked_store_ext, seed_word_store.
Qed.

(** The words of a group store what its lanes store. *)
Lemma group_words_store g f a : (g = 0 \/ g = 1) -> lanes_ok -> word_stores (map snd (group_words g)) f a = lane_stores [g * 2; g * 2 + 1] f a.
Proof.
  intros Hg Hok. unfold group_words, lane_stores, active. rewrite !filter_cons, filter_nil. cbv zeta.
  assert (0 <= g * 2 < 4 /\ 0 <= g * 2 + 1 < 4) as [Hi Hj] by lia. revert Hi Hj. generalize (g * 2 + 1). generalize (g * 2). intros i j Hi Hj. specialize (Hok i Hi) as Hoi. specialize (Hok j Hj) as Hoj.
  destruct (enabled (sq_Mask r) i) eqn:Ei, (enabled (sq_Mask r) j) eqn:Ej; rewrite ?(decide_True (P := true = true)), ?(decide_False (P := false = true)) by done; unfold word_stores; cbn [map snd fold_left].
  - destruct (lane_word_spec i (Hoi eq_refl)) as [(E1 & E2 & _) Hwi]. destruct (joined i j) eqn:Ejn; cbn [map snd fold_left].
    + apply andb_true_iff in Ejn as [Eb%Z.eqb_eq _]. destruct (merge_lane_spec (lane_of j) (lane_word i) (Hoj eq_refl)) as [_ Hm]; [by rewrite E2|by rewrite E1|].
      rewrite Hm. unfold lane_store. apply masked_store_ext. by rewrite Hwi.
    + destruct (lane_word_spec j (Hoj eq_refl)) as [_ Hwj]. rewrite Hwj. unfold lane_store. apply masked_store_ext. by rewrite Hwi.
  - destruct (lane_word_spec i (Hoi eq_refl)) as [_ Hwi]. by rewrite Hwi.
  - destruct (lane_word_spec j (Hoj eq_refl)) as [_ Hwj]. by rewrite Hwj.
  - done.
Qed.

(** The words of a group among batches, in their order. *)
Definition words_of (g : Z) (bs : list CoalescedBatch) : list WordRequest :=
  omap (fun b => if enabled (cb_Mask b) g then Some (sel (cb_Words b) g) else None) bs.

Lemma words_of_cons g b bs : words_of g (b :: bs) = (if enabled (cb_Mask b) g then [sel (cb_Words b) g] else []) ++ words_of g bs.
Proof. unfold words_of. cbn [omap list_omap]. by destruct (enabled (cb_Mask b) g). Qed.

Lemma words_of_pair_up xs ys : words_of 0 (pair_up xs ys) = map snd xs /\ words_of 1 (pair_up xs ys) = map snd ys.
Proof.
  revert ys. induction xs as [|[m x] xs IH]; intros ys.
  - cbn [pair_up]. induction ys as [|[n y] ys [IH0 IH1]]; cbn [map]; [done|]. rewrite !words_of_cons, IH0, IH1. done.
  - destruct ys as [|[n y] ys]; cbn [pair_up]; rewrite !words_of_cons; [destruct (IH []) as [-> ->]|destruct (IH ys) as [-> ->]]; done.
Qed.

(** Every word starts at a multiple of eight. *)
Lemma group_words_base g w : (g = 0 \/ g = 1) -> lanes_ok -> w ∈ map snd (group_words g) -> wq_Address w mod 8 = 0.
Proof.
  intros Hg Hok. assert (forall x, (x .&^ 7) mod 8 = 0) as H8.
  { intros x. rewrite ldiff_7. pose proof (Z.div_mod x 8 ltac:(lia)). replace (x - x mod 8) with (x / 8 * 8) by lia. apply Z.mod_mul. lia. }
  unfold group_words. cbv zeta. assert (0 <= g * 2 < 4 /\ 0 <= g * 2 + 1 < 4) as [Hi Hj] by lia. pose proof (Hok _ Hi) as Hoi. pose proof (Hok _ Hj) as Hoj. clear Hok Hg. revert Hoi Hoj. generalize (g * 2 + 1). generalize (g * 2). intros j i Hoi Hoj.
  assert (forall seed, lane_ok (lane_of seed) -> wq_Address (lane_word seed) mod 8 = 0) as Hlw.
  { intros seed Hs. destruct (lane_word_spec seed Hs) as [[E _] _]. rewrite E. apply H8. }
  destruct (enabled (sq_Mask r) j), (enabled (sq_Mask r) i); cbn [map snd]; [|intros ->%list_elem_of_singleton; by apply Hlw, Hoi|intros ->%list_elem_of_singleton; by apply Hlw, Hoj|by intros ?%elem_of_nil].
  destruct (joined j i) eqn:Ejn; cbn [map snd].
  - intros ->%list_elem_of_singleton. apply andb_true_iff in Ejn as [Eb%Z.eqb_eq _]. destruct (lane_word_spec j (Hoi eq_refl)) as [(E1 & E2 & _) _].
    destruct (merge_lane_spec (lane_of i) (lane_word j) (Hoj eq_refl)) as [[E _] _]; [by rewrite E2|by rewrite E1|]. rewrite E. by apply Hlw, Hoi.
  - intros [-> | ->%list_elem_of_singleton]%elem_of_cons; [by apply Hlw, Hoi|by apply Hlw, Hoj].
Qed.

(** ** Validation *)

(** The Go types of a request. *)
Definition simd_typed : Prop := is_u8 (sq_Mask r) /\ forall lane, 0 <= lane < 4 -> is_u32 (la_Address (lane_of lane)) /\ length (la_Data (lane_of lane)) = 4%nat.

Lemma validateSIMD_ok : simd_typed -> validateSIMD r = Ok tt -> mask_valid /\ lanes_ok.
Proof.
  intros [Hm Hl]. unfold validateSIMD. destruct (negb ((sq_Mask r =? 0) || (sq_Mask r .&^ 15 <>? 0))) eqn:E1; [|done]. destruct (forallb (lane_valid r) [0; 1; 2; 3]) eqn:E2; [|done]. intros _.
  apply negb_true_iff, orb_false_iff in E1 as [E1%Z.eqb_neq E1'%negb_false_iff%Z.eqb_eq]. split.
  - unfold mask_valid, is_u8 in *. change 15 with (Z.ones 4) in E1'. rewrite Z.ldiff_ones_r, Z.shiftr_div_pow2, Z.shiftl_mul_pow2 in E1' by lia.
    pose proof (Z.div_mod (sq_Mask r) (2 ^ 4) ltac:(lia)). pose proof (Z.mod_pos_bound (sq_Mask r) (2 ^ 4) ltac:(lia)). lia.
  - intros lane Hr He. destruct (Hl lane Hr) as [Ha Hd]. rewrite forallb_forall in E2. assert (In lane [0; 1; 2; 3]) as Hin by (cbn; lia). specialize (E2 lane Hin). unfold lane_valid in E2. rewrite He in E2.
    cbn [andb] in E2. apply negb_true_iff, orb_false_iff in E2 as [E2%negb_false_iff%Z.eqb_eq _]. unfold lane_ok, is_u32 in *. by split_and!; [lia| |].
Qed.

Lemma words_agree_spec x y : wq_Address x mod 8 = 0 -> wq_Address y mod 8 = 0 -> words_agree x y = true -> agree x y.
Proof.
  intros Hx Hy H a. unfold words_agree in H. unfold writes, byte_at, byte_of. intros (( H1 & H2)%andb_true_iff & H3)%andb_true_iff ((H4 & H5)%andb_true_iff & H6)%andb_true_iff.
  apply Z.leb_le in H1, H4. apply Z.ltb_lt in H2, H5. assert (wq_Address x = wq_Address y) as E.
  { pose proof (Z.div_mod (wq_Address x) 8 ltac:(lia)). pose proof (Z.div_mod (wq_Address y) 8 ltac:(lia)). lia. }
  rewrite E, Z.eqb_refl in H. cbn [negb orb] in H. rewrite E in *. rewrite forallb_forall in H. set (k := a - wq_Address y) in *.
  assert (In k [0; 1; 2; 3; 4; 5; 6; 7]) as Hin by (cbn; lia). specialize (H k Hin). rewrite run_enabled_bit, Z.land_spec, H3, H6 in H by lia. cbn [andb] in H. apply negb_true_iff, negb_false_iff, Z.eqb_eq in H. done.
Qed.

(** The lanes of a group's words, and where the words start. *)
Definition group_shape (i j : Z) (ws : list (Z * WordRequest)) : Prop :=
  match enabled (sq_Mask r) i, enabled (sq_Mask r) j, ws with
  | true, true, [(m, w)] => m = (1 << i) .| (1 << j) /\ wq_Address w = base_of i /\ wq_Address w = base_of j
  | true, true, [(m, w); (n, v)] => m = 1 << i /\ wq_Address w = base_of i /\ n = 1 << j /\ wq_Address v = base_of j
  | true, false, [(m, w)] => m = 1 << i /\ wq_Address w = base_of i
  | false, true, [(m, w)] => m = 1 << j /\ wq_Address w = base_of j
  | false, false, [] => True
  | _, _, _ => False
  end.

Lemma group_words_shape g : (g = 0 \/ g = 1) -> lanes_ok -> group_shape (g * 2) (g * 2 + 1) (group_words g).
Proof.
  intros Hg Hok. assert (0 <= g * 2 < 4 /\ 0 <= g * 2 + 1 < 4) as [Hi Hj] by lia. pose proof (Hok _ Hi) as Hoi. pose proof (Hok _ Hj) as Hoj. unfold group_words, group_shape. cbv zeta.
  clear Hok Hg Hi Hj. revert Hoi Hoj. generalize (g * 2 + 1). generalize (g * 2). intros i j Hoi Hoj.
  assert (forall l, lane_ok (lane_of l) -> wq_Address (lane_word l) = base_of l) as Hlw.
  { intros l Hl. by destruct (lane_word_spec l Hl) as [[E _] _]. }
  destruct (enabled (sq_Mask r) i), (enabled (sq_Mask r) j); [|by split; [|apply Hlw, Hoi]|by split; [|apply Hlw, Hoj]|done].
  destruct (joined i j) eqn:Ejn; [|split_and!; [done|by apply Hlw, Hoi|done|by apply Hlw, Hoj]].
  apply andb_true_iff in Ejn as [Eb%Z.eqb_eq _]. destruct (lane_word_spec i (Hoi eq_refl)) as [(E1 & E2 & _) _].
  destruct (merge_lane_spec (lane_of j) (lane_word i) (Hoj eq_refl)) as [[E _] _]; [by rewrite E2|by rewrite E1|]. rewrite E, Hlw by (by apply Hoi). by split_and!.
Qed.

Lemma partition_shape xs ys : group_shape 0 1 xs -> group_shape 2 3 ys ->
  (length (pair_up xs ys) <= 2)%nat /\
  (forall lane, 0 <= lane < 4 -> length (filter (fun b => enabled (cb_LaneMask b) lane = true) (pair_up xs ys)) = if enabled (sq_Mask r) lane then 1%nat else 0%nat) /\
  (forall b lane, b ∈ pair_up xs ys -> 0 <= lane < 4 -> enabled (cb_LaneMask b) lane = true -> enabled (cb_Mask b) (lane / 2) = true /\ wq_Address (sel (cb_Words b) (lane / 2)) = base_of lane).
Proof.
  unfold group_shape. destruct (enabled (sq_Mask r) 0) eqn:E0, (enabled (sq_Mask r) 1) eqn:E1, (enabled (sq_Mask r) 2) eqn:E2, (enabled (sq_Mask r) 3) eqn:E3;
    destruct xs as [|[m w] [|[m' w'] [|[m'' w''] xs]]]; try done; destruct ys as [|[n v] [|[n' v'] [|[n'' v''] ys]]]; try done; intros Hx Hy; destruct_and?; subst; cbn [pair_up map];
    (split; [cbn; lia|]); split.
  all: try (intros lane Hl; assert (lane = 0 \/ lane = 1 \/ lane = 2 \/ lane = 3) as Hc by lia; destruct_or! Hc; subst lane; rewrite ?E0, ?E1, ?E2, ?E3; reflexivity).
  all: intros b lane Hb Hl He; assert (lane = 0 \/ lane = 1 \/ lane = 2 \/ lane = 3) as Hc by lia; repeat (apply elem_of_cons in Hb as [-> | Hb]; [destruct_or! Hc; subst lane; (vm_compute in He; discriminate He) || (by split)|]); by apply elem_of_nil in Hb.
Qed.

(** Coalescing partitions the lanes. Whatever the request, the loop of the coalescer
    ends within four batches, and they take every active lane exactly once and no other;
    every word has the base of each lane merged into it. *)
Theorem coalesced_partition : simd_typed -> validateSIMD r = Ok tt ->
  exists bs, batches 4 (makeBatch r) (sq_Mask r) = Some bs /\ (length bs <= 2)%nat /\
    (forall lane, 0 <= lane < 4 -> length (filter (fun b => enabled (cb_LaneMask b) lane = true) bs) = if enabled (sq_Mask r) lane then 1%nat else 0%nat) /\
    (forall b lane, b ∈ bs -> 0 <= lane < 4 -> enabled (cb_LaneMask b) lane = true -> enabled (cb_Mask b) (lane / 2) = true /\ wq_Address (sel (cb_Words b) (lane / 2)) = base_of lane).
Proof.
  intros Ht Hv. destruct (validateSIMD_ok Ht Hv) as [Hm Hok]. exists (pair_up (group_words 0) (group_words 1)). split; [by apply batches_pair|].
  apply partition_shape; [apply (group_words_shape 0)|apply (group_words_shape 1)]; (done || (by left) || (by right)).
Qed.

(** C24: Coalescing keeps the stores. When a store request is accepted, its words, written
    in any order in which the words of each lane group keep theirs, leave in memory
    exactly what the active lanes leave when they store one after the other. *)
Theorem coalesced_store : simd_typed -> validateGlobal r = Ok tt -> sq_Write r = true ->
  exists bs, batches 4 (makeBatch r) (sq_Mask r) = Some bs /\
    forall ws f a, interleaving (words_of 0 bs) (words_of 1 bs) ws -> word_stores ws f a = lane_stores [0; 1; 2; 3] f a.
Proof.
  intros Ht Hv Hw. unfold validateGlobal in Hv. destruct (validateSIMD r) as [[]|] eqn:Es; [|done]. cbn [result_bind] in Hv. destruct (validateSIMD_ok Ht Es) as [Hm Hok].
  destruct (forallb (fun i => negb (enabled (sq_Mask r) i && la_Local (lane_of i))) [0; 1; 2; 3]); [|done].
  pose proof (batches_pair Hm) as Hb. exists (pair_up (group_words 0) (group_words 1)). split; [done|]. rewrite (batch_loop_batches 4 r _ [] _ Hb) in Hv.
  destruct (forallb (uniform_attributes r) _); [|done]. cbn [result_bind app] in Hv. rewrite Hw in Hv. cbn [negb] in Hv. set (bs := pair_up _ _) in *.
  destruct (forallb (fun a => forallb (batches_agree a) bs) bs) eqn:Ea; [|done]. clear Hv. destruct (words_of_pair_up (group_words 0) (group_words 1)) as [E0 E1]. fold bs in E0, E1.
  intros ws f a Hi. rewrite (interleaving_stores _ _ _ f a Hi).
  - rewrite word_stores_app, E0, E1. rewrite group_words_store by (done || by right). unfold lane_stores, active. change [0; 1; 2; 3] with ([0 * 2; 0 * 2 + 1] ++ [1 * 2; 1 * 2 + 1]). rewrite filter_app, fold_left_app.
    pose proof (group_words_store 0 f a ltac:(by left) Hok) as Hg. unfold lane_stores, active in Hg. revert Hg. generalize (word_stores (map snd (group_words 0)) f). generalize (fold_left (fun f lane => lane_store (lane_of lane) f) (filter (fun lane => enabled (sq_Mask r) lane = true) [0 * 2; 0 * 2 + 1]) f).
    intros g1 g2 E. revert g1 g2 E. generalize (filter (fun lane => enabled (sq_Mask r) lane = true) [1 * 2; 1 * 2 + 1]). intros l. induction l as [|x l IH]; intros g1 g2 E; cbn [fold_left]; [done|]. apply IH. by apply masked_store_ext.
  - intros x y Hx Hy. rewrite forallb_forall in Ea. unfold words_of in Hx, Hy. apply list_elem_of_omap in Hx as (b1 & Hb1 & E1x). apply list_elem_of_omap in Hy as (b2 & Hb2 & E2y).
    apply list_elem_of_In in Hb1, Hb2. specialize (Ea b1 Hb1). rewrite forallb_forall in Ea. specialize (Ea b2 Hb2). unfold batches_agree in Ea.
    destruct (enabled (cb_Mask b1) 0) eqn:Em1; [|done]. destruct (enabled (cb_Mask b2) 1) eqn:Em2; [|done]. injection E1x as <-. injection E2y as <-. cbn [negb orb] in Ea.
    apply words_agree_spec; [..|done].
    + apply (group_words_base 0); [by left|done|]. rewrite <- E0. unfold words_of. apply list_elem_of_omap. exists b1. split; [by apply list_elem_of_In|]. by rewrite Em1.
    + apply (group_words_base 1); [by right|done|]. rewrite <- E1. unfold words_of. apply list_elem_of_omap. exists b2. split; [by apply list_elem_of_In|]. by rewrite Em2.
Qed.

(** ** Loads *)

Lemma fold_mask (keep : Z -> bool) lane : 0 <= lane < 4 -> enabled (fold4 (fun m i => if keep i then m .| (1 << i) else m) 0) lane = keep lane.
Proof.
  intros Hl. unfold fold4. assert (lane = 0 \/ lane = 1 \/ lane = 2 \/ lane = 3) as Hc by lia. destruct_or! Hc; subst lane; destruct (keep 0), (keep 1), (keep 2), (keep 3); reflexivity.
Qed.

Lemma expand_mask s rsp lane : 0 <= lane < 4 -> enabled (ss_Mask (expand s rsp)) lane = enabled (cs_lanes s) lane && enabled (br_Mask rsp) (lane / 2).
Proof. intros Hl. unfold expand. cbn [ss_Mask]. by apply (fold_mask (fun lane => enabled (cs_lanes s) lane && enabled (br_Mask rsp) (lane / 2))). Qed.

Lemma slice_word (f : Z -> Z) base o : (o = 0 \/ o = 4) -> slice (map f (zrange base 8)) (Z.to_nat o) 4 = map f (zrange (base + o) 4).
Proof.
  intros Ho. unfold zrange, slice. change (seq 0 (Z.to_nat 8)) with [0; 1; 2; 3; 4; 5; 6; 7]%nat. change (seq 0 (Z.to_nat 4)) with [0; 1; 2; 3]%nat.
  destruct Ho as [-> | ->]; [change (Z.to_nat 0) with 0%nat|change (Z.to_nat 4) with 4%nat]; cbn [map take drop]; rewrite <- !Z.add_assoc; reflexivity.
Qed.

(** Coalescing keeps the loads. When the words of a batch are answered, in one or in
    several parts, with the bytes at the words' addresses, every lane of the batch whose
    word is in the part receives the four bytes at its own address and no error, and no
    other lane receives anything. *)
Theorem coalesced_load bs b s rsp (f : Z -> Z) lane : simd_typed -> validateSIMD r = Ok tt -> batches 4 (makeBatch r) (sq_Mask r) = Some bs -> b ∈ bs ->
  cs_request s = r -> cs_lanes s = cb_LaneMask b ->
  (forall g, (g = 0 \/ g = 1) -> enabled (br_Mask rsp) g = true -> sel (br_Errors rsp) g = None /\ sel (br_Data rsp) g = map f (zrange (wq_Address (sel (cb_Words b) g)) 8)) ->
  0 <= lane < 4 ->
  let out := expand s rsp in
  enabled (ss_Mask out) lane = enabled (cb_LaneMask b) lane && enabled (br_Mask rsp) (lane / 2) /\
  (enabled (ss_Mask out) lane = true -> enabled (sq_Mask r) lane = true /\ qget (ss_Data out) lane = map f (zrange (la_Address (lane_of lane)) 4) /\ qget (ss_Errors out) lane = None).
Proof.
  intros Ht Hv Hb Hin Hr Hl Hrsp Hlane out. destruct (validateSIMD_ok Ht Hv) as [Hm Hok]. rewrite (batches_pair Hm) in Hb. injection Hb as <-.
  destruct (partition_shape (group_words 0) (group_words 1) (group_words_shape 0 ltac:(by left) Hok) (group_words_shape 1 ltac:(by right) Hok)) as (_ & Hcount & Hbase).
  pose proof (expand_mask s rsp lane Hlane) as Em. rewrite Hl in Em. split; [exact Em|]. intros Hin'. unfold out in Hin'. rewrite Em in Hin'. apply andb_true_iff in Hin' as [Hlm Hbm].
  destruct (Hbase b lane Hin Hlane Hlm) as [_ Eb]. assert (enabled (sq_Mask r) lane = true) as Hact.
  { specialize (Hcount lane Hlane). destruct (enabled (sq_Mask r) lane); [done|]. apply nil_length_inv in Hcount. assert (b ∈ filter (fun b => enabled (cb_LaneMask b) lane = true) (pair_up (group_words 0) (group_words 1))) as Hf by by apply list_elem_of_filter.
    rewrite Hcount in Hf. by apply elem_of_nil in Hf. }
  split; [done|]. assert (lane / 2 = 0 \/ lane / 2 = 1) as Hg by (assert (lane = 0 \/ lane = 1 \/ lane = 2 \/ lane = 3) as Hc by lia; destruct_or! Hc; subst lane; by (by left) || (by right)).
  destruct (Hrsp _ Hg Hbm) as [He Hd]. unfold out, expand. cbn [ss_Data ss_Errors]. rewrite !qget_qmake by (apply idx4_range; lia). rewrite Hl, Hlm, Hbm, He, Hr. cbn [andb].
  split; [|done]. rewrite bool_decide_eq_false_2 by (intros Hn; by apply Hn). cbn [negb]. rewrite Hd, Eb. destruct (lane_offset (lane_of lane) (Hok lane Hlane Hact)) as [Ho Ea].
  rewrite slice_word by done. unfold base_of. by rewrite <- Ea.
Qed.
End Request.

(** ** A concrete request *)

Definition sample_lane (address : Z) : LaneRequest := mkLane address 15 [1; 2; 3; 4] false false.
Definition sample_request (write : bool) : SIMDRequest := mkSIMD no_identity 0 15 write false false (Quad (sample_lane 0) (sample_lane 4) (sample_lane 0) (sample_lane 16)).

Lemma sample_typed write : simd_typed (sample_request write).
Proof. split; [by vm_compute|]. intros lane Hl. assert (lane = 0 \/ lane = 1 \/ lane = 2 \/ lane = 3) as Hc by lia. destruct_or! Hc; subst lane; by vm_compute. Qed.

Example coalesced_partition_witness : exists bs, batches 4 (makeBatch (sample_request false)) 15 = Some bs /\ length bs = 2%nat /\ length (filter (fun b => enabled (cb_LaneMask b) 3 = true) bs) = 1%nat.
Proof.
  destruct (coalesced_partition (sample_request false) (sample_typed false) ltac:(by vm_compute)) as (bs & Hb & _ & Hc & _). exists bs. split; [exact Hb|]. split; [|by apply (Hc 3)].
  vm_compute in Hb. injection Hb as <-. reflexivity.
Defined.

Example coalesced_store_witness : exists bs, batches 4 (makeBatch (sample_request true)) 15 = Some bs /\
  forall f, word_stores (words_of 1 bs ++ words_of 0 bs) f 5 = 2 /\ word_stores (words_of 1 bs ++ words_of 0 bs) f 5 = lane_stores (sample_request true) [0; 1; 2; 3] f 5.
Proof.
  destruct (coalesced_store (sample_request true) (sample_typed true) ltac:(by vm_compute) eq_refl) as (bs & Hb & Hs). exists bs. split; [exact Hb|]. intros f.
  assert (interleaving (words_of 0 bs) (words_of 1 bs) (words_of 1 bs ++ words_of 0 bs)) as Hi.
  { clear. generalize (words_of 0 bs), (words_of 1 bs). intros xs ys. induction ys as [|y ys IH]; cbn [app]; [|by constructor]. induction xs as [|x xs IH]; by constructor. }
  split; [|by apply Hs]. rewrite (Hs _ f 5 Hi). reflexivity.
Defined.

Example coalesced_load_witness :
  let b := makeBatch (sample_request false) 15 in
  let rsp := mkBatchResponse no_batch 2 (zero_word, map (fun a => a) (zrange 0 8)) (None, None) in
  let s := mkSlot true 3 1 (sample_request false) (cb_LaneMask b) (cb_Mask b) in
  enabled (ss_Mask (expand s rsp)) 2 = true /\ qget (ss_Data (expand s rsp)) 2 = zrange 0 4.
Proof.
  intros b rsp s. destruct (batches 4 (makeBatch (sample_request false)) 15) as [bs|] eqn:Eb; [|vm_compute in Eb; discriminate Eb].
  assert (b ∈ bs) as Hin by (vm_compute in Eb; injection Eb as <-; left).
  assert (forall g, (g = 0 \/ g = 1) -> enabled (br_Mask rsp) g = true ->
    sel (br_Errors rsp) g = None /\ sel (br_Data rsp) g = map (fun a => a) (zrange (wq_Address (sel (cb_Words b) g)) 8)) as Hd by (intros g [-> | ->] He; [discriminate He|by split]).
  destruct (coalesced_load (sample_request false) bs b s rsp (fun a => a) 2 (sample_typed false) ltac:(by vm_compute) Eb Hin eq_refl eq_refl Hd ltac:(lia)) as [Em Hl].
  assert (enabled (ss_Mask (expand s rsp)) 2 = true) as Ht by (rewrite Em; reflexivity). split; [exact Ht|]. destruct (Hl Ht) as (_ & E & _). etransitivity; [exact E|]. reflexivity.
Defined.
