(* ===== verification/CoalescerRun.v ===== *)
(** * Runs of the coalescer

    Any run from a fresh coalescer emits exactly the batches of the accepted requests, in
    order, and answers every lane of every read batch once. *)

From S2P Require Import Prelude Memory TimingIR Memsys Coalescer CoalescerSpec.

#[local] Open Scope Z_scope.
#[local] Open Scope go_scope.

(** What a run shows: the requests it accepted, the batches and the responses it delivered. *)
Record trace := mkTrace { tr_accepted : list SIMDRequest; tr_batches : list CoalescedBatch; tr_responses : list SIMDResponse }.

Definition no_trace : trace := mkTrace [] [] [].
Definition trace_app (t u : trace) : trace := mkTrace (tr_accepted t ++ tr_accepted u) (tr_batches t ++ tr_batches u) (tr_responses t ++ tr_responses u).

Definition edge_trace (input : CoalescerInput) (e : CoalescerEdge) : trace :=
  mkTrace (if ce_Accepted e then option_list (ci_Request input) else []) (if ce_OutputDelivered e then option_list (ce_Output e) else [])
    (if ce_ResponseDelivered e then option_list (ce_Response e) else []).

Fixpoint coalescer_run (c : Coalescer) (cycle : Z) (inputs : list CoalescerInput) : option (Coalescer * trace) :=
  match inputs with
  | [] => Some (c, no_trace)
  | input :: inputs =>
      match Coalescer_Step c cycle input with
      | (_, Err _) => None
      | (c', Ok e) => match coalescer_run c' (cycle + 1) inputs with Some (c'', t) => Some (c'', trace_app (edge_trace input e) t) | None => None end
      end
  end.

(** The inputs have their Go types. *)
Definition input_typed (input : CoalescerInput) : Prop := match ci_Request input with Some r => simd_typed r | None => True end.

(** ** Slots *)

Lemma free_some slots i : free slots = Some i -> 0 <= i < zlen slots /\ cs_valid (slot_at slots i) = false.
Proof.
  unfold free. destruct (list_find _ slots) as [[n s]|] eqn:E; [|done]. intros [= <-]. apply list_find_Some in E as (El & Hv & _). pose proof (lookup_lt_Some _ _ _ El). unfold zlen, slot_at. cbn. rewrite Nat2Z.id, El. split; [lia|done].
Qed.

Lemma free_none slots i : free slots = None -> 0 <= i < zlen slots -> cs_valid (slot_at slots i) = true.
Proof.
  unfold free. destruct (list_find _ slots) as [[n s]|] eqn:E; [done|]. intros _ Hi. apply list_find_None in E. rewrite Forall_lookup in E. unfold zlen in Hi. unfold slot_at.
  destruct (lookup_lt_is_Some_2 slots (Z.to_nat i) ltac:(lia)) as [s Es]. rewrite Es. cbn. specialize (E _ _ Es). by destruct (cs_valid s).
Qed.

Lemma free_exists slots i : 0 <= i < zlen slots -> cs_valid (slot_at slots i) = false -> free slots <> None.
Proof. intros Hi Hv Hf. pose proof (free_none slots i Hf Hi). congruence. Qed.

Lemma slot_alter f slots i j : 0 <= i < zlen slots -> 0 <= j -> slot_at (alter_slot f i slots) j = if i =? j then f (slot_at slots j) else slot_at slots j.
Proof.
  intros Hi Hj. unfold slot_at, alter_slot, zlen in *. destruct (Z.eqb_spec i j) as [->|Hne].
  - rewrite list_lookup_alter_eq. destruct (slots !! Z.to_nat j) as [s|] eqn:E; [done|]. apply lookup_ge_None in E. lia.
  - by rewrite list_lookup_alter_ne by lia.
Qed.

Lemma alter_slot_length f slots i : length (alter_slot f i slots) = length slots.
Proof. apply length_alter. Qed.

Lemma slot_insert s slots i j : 0 <= i < zlen slots -> 0 <= j -> slot_at (<[Z.to_nat i := s]> slots) j = if i =? j then s else slot_at slots j.
Proof.
  intros Hi Hj. unfold slot_at, zlen in *. destruct (Z.eqb_spec i j) as [->|Hne]; [by rewrite list_lookup_insert_eq by lia|by rewrite list_lookup_insert_ne by lia].
Qed.

(** What the progress of the output can change in a slot. *)
Definition same_slot (s s' : coalescerSlot) : Prop :=
  cs_valid s' = cs_valid s /\ cs_generation s' = cs_generation s /\ cs_request s' = cs_request s /\ cs_lanes s' = cs_lanes s /\ cs_remaining s' = cs_remaining s.

Lemma alter_sent_same f slots i j : (forall s, same_slot s (f s)) -> same_slot (slot_at slots j) (slot_at (alter_slot f i slots) j).
Proof.
  intros Hf. unfold slot_at, alter_slot. destruct (decide (Z.to_nat i = Z.to_nat j)) as [->|Hne]; [|by rewrite list_lookup_alter_ne by done].
  rewrite list_lookup_alter_eq. destruct (slots !! Z.to_nat j); [apply Hf|done].
Qed.

Lemma output_progress_same output input slots j : same_slot (slot_at slots j) (slot_at (output_progress output input slots) j) /\ length (output_progress output input slots) = length slots.
Proof.
  unfold output_progress. destruct output as [b|]; [|done]. destruct (cb_Write b); [done|].
  assert (forall f g : coalescerSlot -> coalescerSlot, (forall s, same_slot s (f s)) -> (forall s, same_slot s (g s)) -> forall i, same_slot (slot_at slots j) (slot_at (alter_slot g i (alter_slot f i slots)) j)) as Htrans.
  { intros f g Hf Hg i. pose proof (alter_sent_same f slots i j Hf) as (A1 & A2 & A3 & A4 & A5). pose proof (alter_sent_same g (alter_slot f i slots) i j Hg) as (B1 & B2 & B3 & B4 & B5). unfold same_slot. split_and!; congruence. }
  destruct (ci_OutputAcceptedMask input =? 0), (ci_OutputReady input); rewrite ?alter_slot_length; split; try done; [by apply alter_sent_same|by apply Htrans|by apply alter_sent_same].
Qed.

(** ** What the slots account for *)

(** Lanes of a batch whose word is not answered yet. *)
Definition pending (slots : list coalescerSlot) (id : BatchID) (lane : Z) : bool :=
  let s := slot_at slots (bi_Slot id) in (cs_generation s =? bi_Generation id) && enabled (cs_remaining s) (lane / 2).

(** The responses of a batch that contain a lane. *)
Definition answered (responses : list SIMDResponse) (id : BatchID) (lane : Z) : nat :=
  length (filter (fun x => ss_Batch x = id /\ enabled (ss_Mask x) lane = true) responses).

Definition reads (bs : list CoalescedBatch) : list CoalescedBatch := filter (fun b => cb_Write b = false) bs.

Record slots_inv (slots : list coalescerSlot) (emitted : list CoalescedBatch) (responses : list SIMDResponse) : Prop := {
  si_idle : forall i, 0 <= i < zlen slots -> cs_valid (slot_at slots i) = false -> cs_remaining (slot_at slots i) = 0;
  si_gen : forall i, 0 <= i < zlen slots -> is_u64 (cs_generation (slot_at slots i));
  si_sent : forall b, b ∈ reads emitted -> 0 <= bi_Slot (cb_ID b) < zlen slots /\ bi_Generation (cb_ID b) <= cs_generation (slot_at slots (bi_Slot (cb_ID b)));
  si_cur : forall i, 0 <= i < zlen slots -> cs_valid (slot_at slots i) = true ->
    exists b, b ∈ reads emitted /\ cb_ID b = mkBatchID i (cs_generation (slot_at slots i)) /\ cs_lanes (slot_at slots i) = cb_LaneMask b /\
      sq_Identity (cs_request (slot_at slots i)) = cb_Identity b /\ sq_Tag (cs_request (slot_at slots i)) = cb_Tag b;
  si_rsp : forall x, x ∈ responses -> exists b, b ∈ reads emitted /\ cb_ID b = ss_Batch x /\ ss_Identity x = cb_Identity b /\ ss_Tag x = cb_Tag b;
  si_count : forall b lane, b ∈ reads emitted -> 0 <= lane < 4 ->
    answered responses (cb_ID b) lane = if enabled (cb_LaneMask b) lane && negb (pending slots (cb_ID b) lane) then 1%nat else 0%nat;
  si_nodup : NoDup (map cb_ID (reads emitted))
}.

Lemma reads_app bs bs' : reads (bs ++ bs') = reads bs ++ reads bs'.
Proof. apply filter_app. Qed.

Lemma nodup_id emitted b b' : NoDup (map cb_ID (reads emitted)) -> b ∈ reads emitted -> b' ∈ reads emitted -> cb_ID b = cb_ID b' -> b = b'.
Proof.
  intros Hnd Hb Hb' E. apply list_elem_of_lookup in Hb as [i Hi]. apply list_elem_of_lookup in Hb' as [j Hj].
  assert (i = j) as ->; [|congruence]. apply (NoDup_lookup _ i j (cb_ID b) Hnd); etrans; try apply list_lookup_fmap; [by rewrite Hi|rewrite Hj; cbn; by rewrite E].
Qed.

Lemma same_slots_inv slots slots' emitted responses : (forall j, same_slot (slot_at slots j) (slot_at slots' j)) -> length slots' = length slots ->
  slots_inv slots emitted responses -> slots_inv slots' emitted responses.
Proof.
  intros Hs Hl [H1 H2 H3 H4 H5 H6 H7]. assert (zlen slots' = zlen slots) as Ez by (unfold zlen; by rewrite Hl).
  constructor; rewrite ?Ez; try done.
  - intros i Hi Hv. destruct (Hs i) as (E1 & _ & _ & _ & E5). rewrite E5. apply H1; [done|congruence].
  - intros i Hi. destruct (Hs i) as (_ & E2 & _). rewrite E2. by apply H2.
  - intros b Hb. destruct (Hs (bi_Slot (cb_ID b))) as (_ & E2 & _). rewrite E2. by apply H3.
  - intros i Hi Hv. destruct (Hs i) as (E1 & E2 & E3 & E4 & _). rewrite E1 in Hv. rewrite E2, E3, E4. by apply H4.
  - intros b lane Hb Hlane. rewrite H6 by done. unfold pending. by destruct (Hs (bi_Slot (cb_ID b))) as (_ & -> & _ & _ & ->).
Qed.

(** A delivered response. *)
Lemma deliver_inv slots emitted responses r : slots_inv slots emitted responses -> response_check slots (Some r) = Ok tt ->
  slots_inv (alter_slot (consume (br_Mask r)) (bi_Slot (br_ID r)) slots) emitted (responses ++ [expand (slot_at slots (bi_Slot (br_ID r))) r]).
Proof.
  intros [H1 H2 H3 H4 H5 H6 H7] Hc. unfold response_check in Hc. destruct (slot_in_range slots (bi_Slot (br_ID r))) eqn:Er; [|done]. destruct (answers slots r) eqn:Ea; [|done]. clear Hc.
  set (i := bi_Slot (br_ID r)) in *. unfold slot_in_range in Er. apply negb_true_iff, orb_false_iff in Er as [Er1%Z.ltb_ge Er2%Z.leb_gt]. assert (0 <= i < zlen slots) as Hi by lia.
  unfold answers in Ea. fold i in Ea. apply negb_true_iff in Ea. rewrite !orb_false_iff in Ea. destruct Ea as ((((Ev%negb_false_iff & _) & Eg%negb_false_iff%Z.eqb_eq) & _) & Em%negb_false_iff%Z.eqb_eq).
  set (s := slot_at slots i) in *. assert (zlen (alter_slot (consume (br_Mask r)) i slots) = zlen slots) as Ez by (unfold zlen; by rewrite alter_slot_length).
  assert (forall j, 0 <= j -> slot_at (alter_slot (consume (br_Mask r)) i slots) j = if i =? j then consume (br_Mask r) (slot_at slots j) else slot_at slots j) as Hat by (intros j Hj; by apply slot_alter).
  destruct (H4 i Hi Ev) as (b0 & Hb0 & Eid & Elanes & Eident & Etag). fold s in Eid, Elanes, Eident, Etag. assert (br_ID r = cb_ID b0) as Erid by (rewrite Eid, Eg; by destruct (br_ID r)).
  constructor; rewrite ?Ez.
  - intros j Hj Hv. rewrite Hat in Hv |- * by lia. destruct (Z.eqb_spec i j) as [<-|]; [|by apply H1]. cbn [consume cs_valid cs_remaining] in *. fold s in Hv |- *. rewrite Ev in Hv. cbn [andb] in Hv. by apply negb_false_iff, Z.eqb_eq in Hv.
  - intros j Hj. rewrite Hat by lia. destruct (i =? j); [cbn|]; by apply H2.
  - intros b Hb. destruct (H3 b Hb) as [Hr Hg]. split; [done|]. rewrite Hat by lia. by destruct (i =? _).
  - intros j Hj Hv. rewrite Hat in Hv |- * by lia. destruct (Z.eqb_spec i j) as [<-|]; [|by apply H4]. cbn [consume cs_valid cs_generation cs_lanes cs_request]. by exists b0.
  - intros x [Hx|Hx%list_elem_of_singleton]%elem_of_app; [by apply H5|]. subst x. exists b0. split; [done|]. unfold expand. cbn. by rewrite Erid.
  - intros b lane Hb Hlane. unfold answered. rewrite filter_app, length_app. fold (answered responses (cb_ID b) lane). rewrite H6 by done. rewrite filter_cons, filter_nil.
    pose proof (expand_mask s r lane Hlane) as Exm. assert (ss_Batch (expand s r) = br_ID r) as Exb by done. unfold pending. destruct (H3 b Hb) as [Hbr _]. rewrite Hat by lia.
    destruct (decide (cb_ID b = br_ID r)) as [Eb|Hne].
    + assert (b = b0) as -> by (apply (nodup_id emitted); [done..|congruence]). rewrite Eb. fold i. rewrite Z.eqb_refl. fold s. cbn [consume cs_generation cs_remaining]. rewrite Eg, Z.eqb_refl. cbn [andb].
      assert (0 <= lane / 2) as Hl2 by (apply Z.div_pos; lia). rewrite !run_enabled_bit, Z.ldiff_spec by lia.
      assert (Z.testbit (br_Mask r) (lane / 2) = true -> Z.testbit (cs_remaining s) (lane / 2) = true) as Hsub.
      { intros Ht. destruct (Z.testbit (cs_remaining s) (lane / 2)) eqn:E; [done|]. pose proof (f_equal (fun x => Z.testbit x (lane / 2)) Em) as Hb'. cbv beta in Hb'. rewrite Z.ldiff_spec, Ht, E, Z.bits_0 in Hb'. done. }
      rewrite Elanes, (run_enabled_bit (cb_LaneMask b0)), (run_enabled_bit (br_Mask r)) in Exm by lia. rewrite (run_enabled_bit (ss_Mask _)) in Exm by lia.
      destruct (Z.testbit (cb_LaneMask b0) lane) eqn:El; cbn [andb] in *; [|rewrite decide_False by (rewrite Exm; by intros [_ ?]); done].
      destruct (Z.testbit (br_Mask r) (lane / 2)) eqn:Eb2.
      * rewrite (Hsub eq_refl). cbn [negb andb]. rewrite decide_True by (by rewrite Exm). done.
      * rewrite andb_true_r. rewrite decide_False by (rewrite Exm; by intros [_ ?]). cbn. lia.
    + rewrite decide_False by (intros [E _]; rewrite Exb in E; congruence). cbn [length]. rewrite Nat.add_0_r. destruct (Z.eqb_spec i (bi_Slot (cb_ID b))) as [Ei|]; [|done].
      cbn [consume cs_generation cs_remaining]. destruct (Z.eqb_spec (cs_generation (slot_at slots (bi_Slot (cb_ID b)))) (bi_Generation (cb_ID b))) as [Egen|]; [|done].
      exfalso. apply Hne. rewrite <- Ei in Egen. fold s in Egen. unfold i in Ei. destruct (cb_ID b), (br_ID r). cbn in *. congruence.
  - done.
Qed.

(** A read batch takes a free slot under the slot's next generation. *)
Lemma allocate_inv slots emitted responses b i request : slots_inv slots emitted responses -> 0 <= i < zlen slots -> cs_valid (slot_at slots i) = false ->
  cs_generation (slot_at slots i) <> MaxUint64 -> cb_Write b = false -> sq_Identity request = cb_Identity b -> sq_Tag request = cb_Tag b ->
  (forall lane, 0 <= lane < 4 -> enabled (cb_LaneMask b) lane = true -> enabled (cb_Mask b) (lane / 2) = true) ->
  let '(b', slots') := send_batch b i request slots in slots_inv slots' (emitted ++ [b']) responses.
Proof.
  intros [H1 H2 H3 H4 H5 H6 H7] Hi Hv Hmax Hw Hident Htag Hlanes. unfold send_batch. rewrite Hw. set (s := slot_at slots i) in *.
  assert (u64 (cs_generation s + 1) = cs_generation s + 1) as -> by (apply u64_id; specialize (H2 i Hi); fold s in H2; unfold is_u64, MaxUint64 in *; lia).
  set (g := cs_generation s + 1). set (b' := with_id (mkBatchID i g) b). set (s' := mkSlot true 0 g request (cb_LaneMask b) (cb_Mask b)).
  assert (zlen (<[Z.to_nat i := s']> slots) = zlen slots) as Ez by (unfold zlen; by rewrite length_insert).
  assert (forall j, 0 <= j -> slot_at (<[Z.to_nat i := s']> slots) j = if i =? j then s' else slot_at slots j) as Hat by (intros j Hj; by apply slot_insert).
  assert (reads (emitted ++ [b']) = reads emitted ++ [b']) as Er by (rewrite reads_app; f_equal; unfold reads; by rewrite filter_cons, decide_True).
  assert (forall c, c ∈ reads emitted -> cb_ID c <> mkBatchID i g) as Hfresh. { intros c Hc E. destruct (H3 c Hc) as [_ Hg]. rewrite E in Hg. cbn in Hg. fold s in Hg. lia. }
  constructor; rewrite ?Ez, ?Er.
  - intros j Hj Hvj. rewrite Hat in Hvj |- * by lia. destruct (Z.eqb_spec i j) as [<-|]; [done|by apply H1].
  - intros j Hj. rewrite Hat by lia. destruct (i =? j); [|by apply H2]. cbn. specialize (H2 i Hi). fold s in H2. unfold is_u64, MaxUint64, g in *. lia.
  - intros c [Hc | ->%list_elem_of_singleton]%elem_of_app.
    + destruct (H3 c Hc) as [Hr Hg]. split; [done|]. rewrite Hat by lia. destruct (Z.eqb_spec i (bi_Slot (cb_ID c))) as [E|]; [|done]. rewrite <- E in Hg. fold s in Hg. cbn. lia.
    + cbn [with_id b' cb_ID bi_Slot bi_Generation]. split; [done|]. rewrite Hat, Z.eqb_refl by lia. cbn. lia.
  - intros j Hj Hvj. rewrite Hat in Hvj |- * by lia. destruct (Z.eqb_spec i j) as [<-|].
    + exists b'. split; [apply elem_of_app; right; by apply list_elem_of_singleton|]. done.
    + destruct (H4 j Hj Hvj) as (c & Hc & Hrest). exists c. split; [apply elem_of_app; by left|done].
  - intros x Hx. destruct (H5 x Hx) as (c & Hc & Hrest). exists c. split; [apply elem_of_app; by left|done].
  - intros c lane [Hc | ->%list_elem_of_singleton]%elem_of_app Hlane.
    + rewrite H6 by done. unfold pending. destruct (H3 c Hc) as [Hr Hg]. rewrite Hat by lia. destruct (Z.eqb_spec i (bi_Slot (cb_ID c))) as [E|]; [|done].
      rewrite <- E in Hg |- *. fold s in Hg |- *. pose proof (H1 i Hi Hv) as Hrem. fold s in Hrem. rewrite Hrem. cbn [cs_generation cs_remaining s']. destruct (Z.eqb_spec g (bi_Generation (cb_ID c))) as [Eg|]; [lia|].
      rewrite (run_enabled_bit 0) by (apply Z.div_pos; lia). rewrite Z.bits_0, andb_false_r. done.
    + unfold pending. cbn [with_id b' cb_ID bi_Slot bi_Generation cb_LaneMask]. rewrite Hat, Z.eqb_refl by lia. cbn [cs_generation cs_remaining s']. rewrite Z.eqb_refl. cbn [andb].
      assert (answered responses (mkBatchID i g) lane = 0%nat) as ->.
      { unfold answered. destruct (filter _ responses) as [|x l] eqn:Ef; [done|exfalso]. assert (x ∈ x :: l) as Hx by left. rewrite <- Ef in Hx. apply list_elem_of_filter in Hx as [[Eb _] Hx]. destruct (H5 x Hx) as (c & Hc & Eid & _). apply (Hfresh c Hc). congruence. }
      destruct (enabled (cb_LaneMask b) lane) eqn:El; [|done]. by rewrite Hlanes.
  - rewrite map_app. apply NoDup_app. split; [done|]. split; [|apply NoDup_singleton]. intros id Hid Hin%list_elem_of_singleton. subst id. apply list_elem_of_fmap in Hid as (c & Ec & Hc). by apply (Hfresh c Hc).
Qed.

(** A write batch takes no slot. *)
Lemma write_inv slots emitted responses b : cb_Write b = true -> slots_inv slots emitted responses -> slots_inv slots (emitted ++ [b]) responses.
Proof.
  intros Hw Hi. assert (reads (emitted ++ [b]) = reads emitted) as Er. { rewrite reads_app. unfold reads at 2. rewrite filter_cons, decide_False by (by rewrite Hw). apply app_nil_r. }
  destruct Hi. constructor; by rewrite ?Er.
Qed.

(** ** The slots of an edge *)

Definition edge_slots (c : Coalescer) (input : CoalescerInput) : list coalescerSlot := output_progress (co_output c) input (deliver_response input (co_slots c)).

Definition edge_responses (c : Coalescer) (input : CoalescerInput) : list SIMDResponse :=
  if ci_ResponseReady input then option_list ((fun r => expand (slot_at (co_slots c) (bi_Slot (br_ID r))) r) <$> ci_Response input) else [].

Lemma edge_slots_length c input : length (edge_slots c input) = length (co_slots c).
Proof.
  unfold edge_slots. destruct (output_progress_same (co_output c) input (deliver_response input (co_slots c)) 0) as [_ ->]. unfold deliver_response.
  destruct (ci_Response input) as [r|]; [|done]. destruct (ci_ResponseReady input); [apply alter_slot_length|done].
Qed.

Lemma edge_slots_inv c input emitted responses : slots_inv (co_slots c) emitted responses -> response_check (co_slots c) (ci_Response input) = Ok tt ->
  slots_inv (edge_slots c input) emitted (responses ++ edge_responses c input).
Proof.
  intros Hi Hc. unfold edge_slots, edge_responses.
  apply (same_slots_inv (deliver_response input (co_slots c))); [intros j; by apply output_progress_same|apply (output_progress_same _ _ _ 0)|].
  unfold deliver_response. destruct (ci_Response input) as [r|]; [|cbn; destruct (ci_ResponseReady input); by rewrite app_nil_r]. destruct (ci_ResponseReady input); [|by rewrite app_nil_r].
  by apply deliver_inv.
Qed.

(** A free slot stays free, and none becomes free without a release. *)
Lemma edge_slots_valid c input j : response_check (co_slots c) (ci_Response input) = Ok tt -> 0 <= j < zlen (co_slots c) ->
  (cs_valid (slot_at (co_slots c) j) = false -> cs_valid (slot_at (edge_slots c input) j) = false) /\
  (response_releases input (co_slots c) = false -> cs_valid (slot_at (edge_slots c input) j) = cs_valid (slot_at (co_slots c) j)).
Proof.
  intros Hc Hj. unfold edge_slots. destruct (output_progress_same (co_output c) input (deliver_response input (co_slots c)) j) as [(-> & _) _].
  unfold deliver_response, response_releases. destruct (ci_Response input) as [r|]; [|done]. destruct (ci_ResponseReady input); [|done]. unfold response_check in Hc.
  destruct (slot_in_range (co_slots c) (bi_Slot (br_ID r))) eqn:Er; [|done]. unfold slot_in_range in Er. apply negb_true_iff, orb_false_iff in Er as [Er1%Z.ltb_ge Er2%Z.leb_gt].
  rewrite slot_alter by lia. destruct (Z.eqb_spec (bi_Slot (br_ID r)) j) as [E|]; [|done]. rewrite E. cbn [consume cs_valid andb]. split; [by intros ->|]. intros ->. cbn [negb]. by rewrite andb_true_r.
Qed.

(** ** The invariant *)

Definition batches_of (r : SIMDRequest) : list CoalescedBatch := default [] (batches 4 (makeBatch r) (sq_Mask r)).

Definition erase (b : CoalescedBatch) : CoalescedBatch := with_id no_batch b.

Definition emitted (c : Coalescer) (t : trace) : list CoalescedBatch := tr_batches t ++ option_list (co_output c).

(** The emitted batches are those of the accepted requests and a part of the held one's. *)
Definition stream_inv (c : Coalescer) (out : list CoalescedBatch) (accepted : list SIMDRequest) : Prop :=
  match co_held c with
  | None => co_remaining c = 15 /\ co_send c = false /\ map erase out = concat (map batches_of accepted)
  | Some r =>
      simd_typed r /\ validateGlobal r = Ok tt /\
      exists sent rest n, batches_of r = sent ++ rest /\ batches n (makeBatch r) (sq_Mask r .& co_remaining c) = Some rest /\ rest <> [] /\
        map erase out = concat (map batches_of accepted) ++ sent
  end.

Record coalescer_inv (c : Coalescer) (t : trace) : Prop := {
  in_slots : slots_inv (co_slots c) (emitted c t) (tr_responses t);
  in_acquire : 0 <= co_acquire c < zlen (co_slots c) /\ (free (co_slots c) <> None -> cs_valid (slot_at (co_slots c) (co_acquire c)) = false);
  in_send : co_send c = true -> free (co_slots c) <> None /\ co_output c = None /\ exists r, co_held c = Some r /\ co_prepared c = makeBatch r (co_remaining c);
  in_stream : stream_inv c (emitted c t) (tr_accepted t)
}.

Lemma makeBatch_masked r remaining : makeBatch r remaining = makeBatch r (sq_Mask r .& remaining).
Proof. unfold makeBatch, group_word, seed_of. by rewrite Z.land_assoc, Z.land_diag. Qed.

Lemma batches_nonempty n make m bs : batches n make m = Some bs -> (bs = [] <-> m = 0).
Proof.
  destruct n as [|n]; cbn [batches]; destruct (Z.eqb_spec m 0) as [->|Hm]; try done; [by intros [= <-]..|].
  destruct (batches n make _); [|done]. cbn. intros [= <-]. split; [done|lia].
Qed.

Lemma batches_head n make m b bs : batches n make m = Some (b :: bs) -> b = make m /\ exists n', batches n' make (m .&^ cb_LaneMask b) = Some bs.
Proof.
  destruct n as [|n]; cbn [batches]; destruct (Z.eqb_spec m 0) as [->|Hm]; try done. destruct (batches n make _) eqn:E; [|done]. cbn. intros [= <- <-]. split; [done|]. by exists n.
Qed.

Lemma validateGlobal_SIMD r : validateGlobal r = Ok tt -> validateSIMD r = Ok tt.
Proof. unfold validateGlobal. by destruct (validateSIMD r) as [[]|]. Qed.

Lemma batches_of_valid r : simd_typed r -> validateGlobal r = Ok tt -> batches 4 (makeBatch r) (sq_Mask r) = Some (batches_of r) /\ batches_of r <> [] /\ sq_Mask r .& 15 = sq_Mask r.
Proof.
  intros Ht Hv%validateGlobal_SIMD. destruct (validateSIMD_ok r Ht Hv) as [Hm _]. pose proof (batches_pair r Hm) as Hb. unfold batches_of. rewrite Hb. split; [done|]. split.
  - cbn. intros Hn. apply (batches_nonempty _ _ _ _ Hb) in Hn. unfold mask_valid in Hm. lia.
  - unfold mask_valid in Hm. change 15 with (Z.ones 4). rewrite Z.land_ones by lia. apply Z.mod_small. lia.
Qed.

Lemma batches_of_lanes r b lane : simd_typed r -> validateGlobal r = Ok tt -> b ∈ batches_of r -> 0 <= lane < 4 -> enabled (cb_LaneMask b) lane = true -> enabled (cb_Mask b) (lane / 2) = true.
Proof.
  intros Ht Hv%validateGlobal_SIMD. destruct (validateSIMD_ok r Ht Hv) as [Hm Hok]. unfold batches_of. rewrite (batches_pair r Hm). cbn.
  destruct (partition_shape r _ _ (group_words_shape r 0 ltac:(by left) Hok) (group_words_shape r 1 ltac:(by right) Hok)) as (_ & _ & Hb). intros Hin Hl He. by apply Hb.
Qed.

(** ** One step *)

Lemma check_facts c cycle input : Coalescer_check c cycle input = Ok tt ->
  request_check c (ci_Request input) = Ok tt /\ response_check (co_slots c) (ci_Response input) = Ok tt /\ send_check c = Ok tt.
Proof.
  unfold Coalescer_check. destruct (co_started c && ((co_cycle c =? MaxUint64) || (cycle <>? co_cycle c + 1))); [done|]. cbn [negb].
  destruct (request_check c (ci_Request input)) as [[]|]; [|done]. cbn [result_bind]. destruct (progress_check c (ci_OutputAcceptedMask input)) as [[]|]; [|done]. cbn [result_bind].
  destruct (held_check c (ci_Response input)) as [[]|]; [|done]. cbn [result_bind]. by destruct (response_check (co_slots c) (ci_Response input)) as [[]|].
Qed.

Lemma request_facts c request : request_check c request = Ok tt -> (forall r, co_held c = Some r -> request = Some r) /\ (forall r, request = Some r -> validateGlobal r = Ok tt).
Proof.
  unfold request_check. destruct (bool_decide (co_held c <> None /\ co_held c <> request)) eqn:E; [done|]. cbn [negb]. intros Hc. apply bool_decide_eq_false in E. split.
  - intros r Hr. destruct (decide (co_held c = request)) as [<-|Hne]; [done|]. exfalso. apply E. by rewrite Hr in *.
  - intros r ->. by destruct (validateGlobal r) as [[]|].
Qed.

(** The register of the next free slot. *)
Lemma reacquire_inv c input slots' (allocated : bool) : response_check (co_slots c) (ci_Response input) = Ok tt ->
  0 <= co_acquire c < zlen (co_slots c) -> (free (co_slots c) <> None -> cs_valid (slot_at (co_slots c) (co_acquire c)) = false) ->
  length slots' = length (co_slots c) -> (allocated = false -> slots' = edge_slots c input) ->
  let acquire := match (if allocated || (response_releases input (co_slots c) && bool_decide (free (co_slots c) = None)) then free slots' else None) with Some next => next | None => co_acquire c end in
  0 <= acquire < zlen slots' /\ (free slots' <> None -> cs_valid (slot_at slots' acquire) = false).
Proof.
  intros Hc Hr Hf Hl Ha. assert (zlen slots' = zlen (co_slots c)) as Ez by (unfold zlen; by rewrite Hl). cbv zeta. rewrite Ez.
  destruct (free slots') as [n|] eqn:En; [|by destruct (allocated || _)]. destruct (free_some _ _ En) as [Hn Hv]. rewrite Ez in Hn.
  destruct (allocated || (response_releases input (co_slots c) && bool_decide (free (co_slots c) = None))) eqn:E; [done|]. apply orb_false_iff in E as [-> E]. rewrite Ha in * by done. split; [done|]. intros _.
  destruct (decide (free (co_slots c) = None)) as [Hnone|Hsome].
  - rewrite bool_decide_eq_true_2, andb_true_r in E by done. destruct (edge_slots_valid c input n Hc Hn) as [_ Hsame]. rewrite Hsame in Hv by done. pose proof (free_none _ n Hnone Hn). congruence.
  - destruct (edge_slots_valid c input (co_acquire c) Hc Hr) as [Hfree _]. apply Hfree. by apply Hf.
Qed.

Lemma edge_free c input : response_check (co_slots c) (ci_Response input) = Ok tt -> free (co_slots c) <> None -> free (edge_slots c input) <> None.
Proof.
  intros Hc Hf. destruct (free (co_slots c)) as [n|] eqn:En; [|done]. destruct (free_some _ _ En) as [Hn Hv]. destruct (edge_slots_valid c input n Hc Hn) as [Hfree _].
  apply (free_exists _ n); [|by apply Hfree]. unfold zlen in *. by rewrite edge_slots_length.
Qed.

Lemma erase_sent b i request slots : cb_ID b = no_batch -> erase (fst (send_batch b i request slots)) = b.
Proof. intros E. unfold send_batch, erase, with_id. destruct b. cbn in *. subst. by destruct cb_Write. Qed.

Lemma send_batch_fields b i request slots : cb_LaneMask (fst (send_batch b i request slots)) = cb_LaneMask b /\ length (snd (send_batch b i request slots)) = length slots.
Proof. unfold send_batch. destruct (cb_Write b); cbn [fst snd]; [done|]. split; [done|]. apply length_insert. Qed.

(** The batch of a send, in the slots and in the stream. *)
Lemma send_slots_inv c input out responses r : slots_inv (edge_slots c input) out responses -> response_check (co_slots c) (ci_Response input) = Ok tt ->
  0 <= co_acquire c < zlen (co_slots c) -> cs_valid (slot_at (co_slots c) (co_acquire c)) = false ->
  (cb_Write (co_prepared c) || (cs_generation (slot_at (co_slots c) (co_acquire c)) <>? MaxUint64)) = true ->
  sq_Identity r = cb_Identity (co_prepared c) -> sq_Tag r = cb_Tag (co_prepared c) ->
  (forall lane, 0 <= lane < 4 -> enabled (cb_LaneMask (co_prepared c)) lane = true -> enabled (cb_Mask (co_prepared c)) (lane / 2) = true) ->
  let '(b, slots') := send_batch (co_prepared c) (co_acquire c) r (edge_slots c input) in slots_inv slots' (out ++ [b]) responses.
Proof.
  intros Hi Hc Hr Hv Hg Hid Htag Hl. destruct (cb_Write (co_prepared c)) eqn:Ew.
  - unfold send_batch. rewrite Ew. by apply write_inv.
  - apply allocate_inv; try done.
    + unfold zlen in *. by rewrite edge_slots_length.
    + by apply edge_slots_valid.
    + cbn [orb] in Hg. apply negb_true_iff, Z.eqb_neq in Hg. unfold edge_slots. destruct (output_progress_same (co_output c) input (deliver_response input (co_slots c)) (co_acquire c)) as [(_ & -> & _) _].
      unfold deliver_response. destruct (ci_Response input) as [x|]; [|done]. destruct (ci_ResponseReady input); [|done]. unfold slot_at, alter_slot in *.
      destruct (decide (Z.to_nat (bi_Slot (br_ID x)) = Z.to_nat (co_acquire c))) as [->|]; [rewrite list_lookup_alter_eq|by rewrite list_lookup_alter_ne by done].
      by destruct (co_slots c !! _).
Qed.

(** The stream when a batch of the held request is sent. *)
Lemma send_stream c out accepted r b : stream_inv c out accepted -> co_held c = Some r -> erase b = makeBatch r (co_remaining c) -> cb_LaneMask b = cb_LaneMask (makeBatch r (co_remaining c)) ->
  let remaining := co_remaining c .&^ cb_LaneMask b in
  (sq_Mask r .& remaining = 0 -> map erase (out ++ [b]) = concat (map batches_of (accepted ++ [r]))) /\
  (sq_Mask r .& remaining <> 0 -> exists sent rest n, batches_of r = sent ++ rest /\ batches n (makeBatch r) (sq_Mask r .& remaining) = Some rest /\ rest <> [] /\
    map erase (out ++ [b]) = concat (map batches_of accepted) ++ sent).
Proof.
  intros Hs Hh Eb El remaining. unfold stream_inv in Hs. rewrite Hh in Hs. destruct Hs as (_ & _ & sent & rest & n & Ebs & Hrest & Hne & Eout). destruct rest as [|b1 rest]; [done|].
  apply batches_head in Hrest as (-> & n' & Hn'). rewrite <- makeBatch_masked in Hn'. assert ((sq_Mask r .& co_remaining c) .&^ cb_LaneMask (makeBatch r (co_remaining c)) = sq_Mask r .& remaining) as Em.
  { unfold remaining. rewrite El. bitwise. by rewrite andb_assoc. }
  rewrite Em in Hn'. rewrite <- makeBatch_masked in Ebs. rewrite map_app, Eout. cbn [map]. rewrite Eb. split.
  - intros Hz. apply (batches_nonempty _ _ _ _ Hn') in Hz as ->. rewrite map_app, concat_app. cbn [map concat]. by rewrite app_nil_r, Ebs, app_assoc.
  - intros Hnz. exists (sent ++ [makeBatch r (co_remaining c)]), rest, n'. split_and!; [by rewrite Ebs, <- app_assoc|done|by rewrite (batches_nonempty _ _ _ _ Hn')|by rewrite app_assoc].
Qed.

Lemma free_index_some c : free (co_slots c) <> None -> free_index c = Some (co_acquire c).
Proof. unfold free_index. by destruct (free (co_slots c)). Qed.

Lemma option_list_app {A} (d : bool) (x : option A) : (if d then option_list x else []) ++ option_list (if d then None else x) = option_list x.
Proof. destruct d; [by rewrite app_nil_r|done]. Qed.

Lemma make_inv c t out responses accepted : emitted c t = out -> tr_responses t = responses -> tr_accepted t = accepted ->
  slots_inv (co_slots c) out responses ->
  (0 <= co_acquire c < zlen (co_slots c) /\ (free (co_slots c) <> None -> cs_valid (slot_at (co_slots c) (co_acquire c)) = false)) ->
  (co_send c = true -> free (co_slots c) <> None /\ co_output c = None /\ exists r, co_held c = Some r /\ co_prepared c = makeBatch r (co_remaining c)) ->
  stream_inv c out accepted -> coalescer_inv c t.
Proof. by intros <- <- <-. Qed.

Lemma edge_responses_shown c input :
  (if bool_decide (ci_Response input <> None) && ci_ResponseReady input then option_list ((fun r => expand (slot_at (co_slots c) (bi_Slot (br_ID r))) r) <$> ci_Response input) else []) = edge_responses c input.
Proof. unfold edge_responses. by destruct (ci_Response input), (ci_ResponseReady input). Qed.

Lemma step_inv c t cycle input c' e : coalescer_inv c t -> input_typed input -> Coalescer_Step c cycle input = (c', Ok e) -> coalescer_inv c' (trace_app t (edge_trace input e)).
Proof.
  intros [Hslots [Har Haf] Hsend Hstream] Htyped Hstep. unfold Coalescer_Step in Hstep. destruct (Coalescer_check c cycle input) as [[]|] eqn:Ec; [|done].
  destruct (check_facts _ _ _ Ec) as (Hreq & Hrsp & Hsc). destruct (request_facts _ _ Hreq) as [Hheld Hval]. fold (edge_slots c input) in Hstep.
  pose proof (edge_slots_inv c input _ _ Hslots Hrsp) as Hes. destruct (co_send c) eqn:Esend.
  - destruct (Hsend eq_refl) as (Hfree & Hout & r & Hh & Hp). specialize (Hheld r Hh) as Er. rewrite Er in Hstep. cbn [default from_option] in Hstep. unfold id in Hstep.
    unfold send_check in Hsc. rewrite Esend in Hsc. rewrite (free_index_some c Hfree) in Hsc, Hstep. cbn [negb] in Hsc. cbn [default from_option] in Hstep. unfold id in Hstep.
    destruct (cb_Write (co_prepared c) || (cs_generation (slot_at (co_slots c) (co_acquire c)) <>? MaxUint64)) eqn:Eg; [|done].
    pose proof Hstream as Hst. unfold stream_inv in Hst. rewrite Hh in Hst. destruct Hst as (Htr & Hvr & sent & rest & k & Ebs & Hrest & Hne & _).
    assert (co_prepared c ∈ batches_of r) as Hin.
    { destruct rest as [|b1 rest]; [done|]. apply batches_head in Hrest as (-> & _). rewrite Ebs, Hp, makeBatch_masked. apply elem_of_app. right. left. }
    pose proof (send_slots_inv c input (emitted c t) (tr_responses t ++ edge_responses c input) r Hes Hrsp Har (Haf Hfree) Eg ltac:(by rewrite Hp) ltac:(by rewrite Hp)) as Hsi.
    specialize (Hsi (fun lane => batches_of_lanes r (co_prepared c) lane Htr Hvr Hin)).
    pose proof (erase_sent (co_prepared c) (co_acquire c) r (edge_slots c input) ltac:(by rewrite Hp)) as Eer. pose proof (send_batch_fields (co_prepared c) (co_acquire c) r (edge_slots c input)) as [Elm Elen].
    destruct (send_batch (co_prepared c) (co_acquire c) r (edge_slots c input)) as [b slots'] eqn:Esb. cbn [fst snd] in Eer, Elm, Elen.
    pose proof (send_stream c (emitted c t) (tr_accepted t) r b Hstream Hh ltac:(by rewrite Eer) ltac:(by rewrite Elm, Hp)) as [Hacc Hmore]. rewrite edge_slots_length in Elen.
    assert (negb (cb_Write (co_prepared c)) = false -> slots' = edge_slots c input) as Hwr. { intros Ew%negb_false_iff. unfold send_batch in Esb. rewrite Ew in Esb. by injection Esb as _ <-. }
    assert (emitted c t = tr_batches t) as Eem by (unfold emitted; rewrite Hout; apply app_nil_r).
    injection Hstep as <- <-. set (accepted := sq_Mask r .& (co_remaining c .&^ cb_LaneMask b) =? 0).
    apply (make_inv _ _ (emitted c t ++ [b]) (tr_responses t ++ edge_responses c input) (tr_accepted t ++ (if accepted then [r] else []))).
    + rewrite Eem, Hout. unfold emitted. cbn. by rewrite app_nil_r.
    + cbn [trace_app edge_trace tr_responses ce_ResponseDelivered ce_Response]. by rewrite edge_responses_shown.
    + cbn [trace_app edge_trace tr_accepted ce_Accepted]. by rewrite Er.
    + exact Hsi.
    + cbn [co_slots co_acquire andb]. by apply (reacquire_inv c input slots').
    + done.
    + unfold stream_inv, held_offer. cbn [co_held co_remaining co_send]. unfold accepted in *. destruct (Z.eqb_spec (sq_Mask r .& (co_remaining c .&^ cb_LaneMask b)) 0) as [Ez|Hnz].
      * split_and!; [done..|]. by apply Hacc.
      * split_and!; [done..|]. rewrite app_nil_r. by apply Hmore.
  - set (delivered := bool_decide (co_output c <> None) && ci_OutputReady input) in *. set (output := if delivered then None else co_output c) in *.
    destruct (match ci_Request input, output, free_index c with Some r, None, Some _ => (makeBatch r (co_remaining c), true) | _, _, _ => (co_prepared c, false) end) as [prepared send] eqn:Ep.
    injection Hstep as <- <-. apply (make_inv _ _ (emitted c t) (tr_responses t ++ edge_responses c input) (tr_accepted t)).
    + unfold emitted. cbn [trace_app edge_trace tr_batches ce_OutputDelivered ce_Output co_output]. rewrite <- app_assoc. f_equal. apply option_list_app.
    + cbn [trace_app edge_trace tr_responses ce_ResponseDelivered ce_Response]. by rewrite edge_responses_shown.
    + cbn. apply app_nil_r.
    + exact Hes.
    + cbn [co_slots co_acquire andb orb]. apply (reacquire_inv c input (edge_slots c input) false); try done. apply edge_slots_length.
    + cbn [co_send co_slots co_output co_held co_prepared co_remaining held_offer]. intros ->. destruct (ci_Request input) as [r|] eqn:Er; [|done]. destruct output eqn:Eo; [done|]. destruct (free_index c) as [i|] eqn:Ef; [|done].
      injection Ep as <-. split; [|split; [done|by exists r]]. apply edge_free; [done|]. unfold free_index in Ef. by destruct (free (co_slots c)).
    + unfold stream_inv in *. cbn [co_held co_remaining co_send held_offer]. destruct (co_held c) as [r0|] eqn:Eh.
      * by rewrite (Hheld r0 eq_refl).
      * destruct Hstream as (E15 & _ & Eout). unfold input_typed in Htyped. destruct (ci_Request input) as [r|] eqn:Er; [|split; [done|]; split; [by injection Ep as _ <-|done]].
        destruct (batches_of_valid r Htyped (Hval r eq_refl)) as (Hb & Hne & Em). split; [done|]. split; [by apply Hval|]. exists [], (batches_of r), 4%nat. rewrite E15, Em, app_nil_r. done.
Qed.

(** ** Runs *)

Lemma run_inv inputs c t cycle c' u : coalescer_inv c t -> Forall input_typed inputs -> coalescer_run c cycle inputs = Some (c', u) -> coalescer_inv c' (trace_app t u).
Proof.
  revert c t cycle c' u. induction inputs as [|input inputs IH]; intros c t cycle c' u Hi Ht Hrun; cbn [coalescer_run] in Hrun.
  - injection Hrun as <- <-. unfold trace_app. cbn. rewrite !app_nil_r. by destruct t.
  - apply Forall_cons in Ht as [Ht1 Ht]. destruct (Coalescer_Step c cycle input) as [c1 [e|]] eqn:Es; [|done]. destruct (coalescer_run c1 (cycle + 1) inputs) as [[c2 u2]|] eqn:Er; [|done]. injection Hrun as <- <-.
    pose proof (IH _ _ _ _ _ (step_inv c t cycle input c1 e Hi Ht1 Es) Ht Er) as Hres. unfold trace_app in *. cbn in *. by rewrite !app_assoc.
Qed.

Lemma new_inv n : 0 < n -> coalescer_inv (fresh_coalescer n) no_trace.
Proof.
  intros Hn. unfold fresh_coalescer. assert (forall i, slot_at (replicate (Z.to_nat n) free_slot) i = free_slot) as Hat.
  { intros i. unfold slot_at. destruct (_ !! _) as [s|] eqn:E; [by apply lookup_replicate in E as [-> _]|done]. }
  constructor; cbn [co_slots co_acquire co_send co_output]; [|rewrite Hat; unfold zlen; rewrite length_replicate; split; [lia|done]|done|done].
  unfold emitted. cbn. constructor; cbn; try (intros ? ?; rewrite ?Hat; done); try by intros ? ?%elem_of_nil.
  - intros b lane Hb. by apply elem_of_nil in Hb.
  - apply NoDup_nil_2.
Qed.

(** The part of the held request that has been emitted. *)
Definition emitted_part (c : Coalescer) (part : list CoalescedBatch) : Prop :=
  match co_held c with Some r => part `prefix_of` batches_of r /\ part <> batches_of r | None => part = [] end.

(** C10: The coalescer emits every batch once and answers every lane once. In any run of a
    fresh coalescer, whatever the readiness of its neighbours and the order and the
    parts in which the batches are answered: the emitted batches are, tags apart, those
    of the accepted requests one after the other, then a part of the held one's; no two
    read batches have the same tag; every response carries the identity and the tag of
    a read batch it belongs to; a lane of a read batch is answered exactly once, unless
    its word is still pending, and no other lane is; when a batch waits to be sent there
    is a free slot for it; and a drained coalescer has nothing pending. *)
Theorem coalescer_exactly_once n inputs start c t : 0 < n -> Forall input_typed inputs -> coalescer_run (fresh_coalescer n) start inputs = Some (c, t) ->
  let out := tr_batches t ++ option_list (co_output c) in
  (exists part, map erase out = concat (map batches_of (tr_accepted t)) ++ part /\ emitted_part c part) /\
  NoDup (map cb_ID (reads out)) /\
  (forall x, x ∈ tr_responses t -> exists b, b ∈ reads out /\ cb_ID b = ss_Batch x /\ ss_Identity x = cb_Identity b /\ ss_Tag x = cb_Tag b) /\
  (forall b lane, b ∈ reads out -> 0 <= lane < 4 ->
    answered (tr_responses t) (cb_ID b) lane = if enabled (cb_LaneMask b) lane && negb (pending (co_slots c) (cb_ID b) lane) then 1%nat else 0%nat) /\
  (co_send c = true -> exists i, free_index c = Some i /\ cs_valid (slot_at (co_slots c) i) = false) /\
  (Coalescer_Drained c = true -> co_output c = None /\ co_held c = None /\ forall b lane, b ∈ reads out -> pending (co_slots c) (cb_ID b) lane = false).
Proof.
  intros Hn Ht Hrun out. destruct (run_inv _ _ _ _ _ _ (new_inv n Hn) Ht Hrun) as [[H1 H2 H3 H4 H5 H6 H7] [Har Haf] Hsend Hstream].
  unfold emitted in *. cbn [trace_app no_trace tr_batches tr_responses tr_accepted app] in *. fold out in H3, H5, H6, H7, Hstream. split_and!; try done.
  - unfold stream_inv, emitted_part in *. destruct (co_held c) as [r|]; [|destruct Hstream as (_ & _ & ->); exists []; by rewrite app_nil_r].
    destruct Hstream as (_ & _ & sent & rest & k & Eb & _ & Hne & ->). exists sent. split; [done|]. rewrite Eb. split; [by exists rest|]. intros E. apply Hne. by apply (app_inv_head sent); rewrite app_nil_r.
  - intros Hs. destruct (Hsend Hs) as (Hf & _). exists (co_acquire c). split; [by apply free_index_some|by apply Haf].
  - unfold Coalescer_Drained, Coalescer_Empty. intros [Hd Hall]%andb_true_iff. rewrite !andb_true_iff in Hd. destruct Hd as [[_ Ho%negb_true_iff%bool_decide_eq_false] Hh%negb_true_iff%bool_decide_eq_false].
    split; [by destruct (co_output c); [exfalso; apply Ho|]|]. split; [by destruct (co_held c); [exfalso; apply Hh|]|]. intros b lane Hb. destruct (H3 b Hb) as [Hr _]. unfold pending. rewrite H1; [|done|].
    + rewrite andb_comm. unfold enabled. by rewrite Z.land_0_l.
    + rewrite forallb_forall in Hall. unfold slot_at, zlen in *. destruct (lookup_lt_is_Some_2 (co_slots c) (Z.to_nat (bi_Slot (cb_ID b))) ltac:(lia)) as [s Es]. rewrite Es. cbn.
      apply negb_true_iff. apply Hall. apply list_elem_of_In. by apply list_elem_of_lookup_2 in Es.
Qed.

(** ** A concrete run *)

Definition run_lane (address : Z) : LaneRequest := mkLane address 15 [1; 2; 3; 4] false false.
Definition run_load : SIMDRequest := mkSIMD (with_transaction 1 no_identity) 9 15 false false false (Quad (run_lane 0) (run_lane 4) (run_lane 16) (run_lane 32)).
Definition run_data : list Z * list Z := ([0; 1; 2; 3; 4; 5; 6; 7], [8; 9; 10; 11; 12; 13; 14; 15]).

Definition run_steps : list CoalescerInput :=
  let request := mkCoalescerInput 0 (Some run_load) true None true in
  let answer slot mask := mkCoalescerInput 0 None true (Some (mkBatchResponse (mkBatchID slot 1) mask run_data (None, None))) true in
  [request; request; request; request; mkCoalescerInput 0 None true None true; answer 0 2; answer 1 2; answer 0 1].

Example coalescer_exactly_once_witness : exists c t, coalescer_run (fresh_coalescer 2) 0 run_steps = Some (c, t) /\ Coalescer_Drained c = true /\
  map erase (tr_batches t) = batches_of run_load /\ length (tr_responses t) = 3%nat /\
  forall b lane, b ∈ reads (tr_batches t) -> 0 <= lane < 4 -> answered (tr_responses t) (cb_ID b) lane = if enabled (cb_LaneMask b) lane then 1%nat else 0%nat.
Proof.
  assert (Forall input_typed run_steps) as Ht.
  { assert (simd_typed run_load) as Hr. { split; [by vm_compute|]. intros lane Hl. assert (lane = 0 \/ lane = 1 \/ lane = 2 \/ lane = 3) as Hc by lia. destruct_or! Hc; subst lane; by vm_compute. } repeat (apply Forall_cons; split; [done|]); apply Forall_nil_2. }
  destruct (coalescer_run (fresh_coalescer 2) 0 run_steps) as [[c t]|] eqn:Er; [|vm_compute in Er; discriminate Er]. exists c, t.
  pose proof (coalescer_exactly_once 2 run_steps 0 c t ltac:(lia) Ht Er) as H. cbv zeta in H. destruct H as (_ & _ & _ & Hcount & _ & Hdr).
  assert (Coalescer_Drained c = true) as Hd by (clear -Er; vm_compute in Er; injection Er as <- _; reflexivity). split; [done|]. split; [done|]. specialize (Hdr Hd) as (Ho & _ & Hp).
  split; [clear -Er; vm_compute in Er; injection Er as _ <-; reflexivity|]. split; [clear -Er; vm_compute in Er; injection Er as _ <-; reflexivity|].
  intros b lane Hb Hl. rewrite Ho in Hcount, Hp. cbn [option_list] in Hcount, Hp. rewrite app_nil_r in Hcount, Hp. rewrite Hcount by done. rewrite Hp by done. by rewrite andb_true_r.
Defined.
