(* ===== verification/LocalMemory.v ===== *)
(** * The local memory (src/timing/memsys/local_memory.go)

    Four banks behind a request and a response crossbar.  The byte owners of the resident
    CTAs are reached through a resolver from the identity of a request to an owner, which
    is the class [LocalOwner]: the bytes of all owners are one state. *)

From S2P Require Import Prelude Memory TimingIR Memsys.

#[local] Open Scope Z_scope.
#[local] Open Scope go_scope.

(** The resolver and the [AtomicMemoryService] of what it returns; [None] is a nil owner. *)
Class LocalOwner (S : Type) := {
  lo_Handle : Type;
  lo_owner : S -> Identity -> result (option lo_Handle);
  lo_read : S -> lo_Handle -> Z -> Z -> result (list Z);
  lo_batch : S -> lo_Handle -> list Z -> list (list Z) -> S * result unit
}.

Record localRequest := mkLocalRequest { lq_request : WordRequest; lq_port : Z }.
Record localResponse := mkLocalResponse { lr_response : WordResponse; lr_port : Z }.

Record LocalMemory := mkLocalMemory {
  lm_base : Z;
  lm_size : Z;
  lm_requests : quad (cacheQueue localRequest);
  lm_responses : quad (cacheQueue WordResponse);
  lm_pipe : quad (option localResponse);
  lm_lastWrite : quad bool;
  lm_lastAddress : quad Z;
  lm_held : quad WordOffer;
  lm_last : quad Z;
  lm_used : quad bool;
  lm_cycle : Z;
  lm_started : bool
}.

Definition fresh_local (base size : Z) (req rsp : BufferSpec) : LocalMemory :=
  mkLocalMemory base size (qfill (empty_queue req)) (qfill (empty_queue rsp)) (qfill None) (qfill false) (qfill 0) (qfill None) (qfill 0) (qfill false) 0 false.

Definition NewLocalMemory `{TimingDocument} : result LocalMemory :=
  let memory f := Number "config" "cfg-memory" ["values"%string; f] in
  let shape f := let? v := memory f in check v =? 4 else Errorf "unsupported local memory shape" in Ok tt in
  let? _ := shape "local_banks"%string in
  let? _ := shape "lsu_word_bytes"%string in
  let? req := Buffer "b-local-request-xbar" in
  let? rsp := Buffer "b-local-result" in
  let xbar id := let? a := Arbiter id in
    check negb ((ar_Inputs a <>? 4) || negb (ar_Policy a == "P") || ar_Sticky a) else Errorf "unsupported local crossbar" in Ok tt in
  let? _ := xbar "b-local-request-xbar"%string in
  let? _ := xbar "b-local-result"%string in
  let sram f := let? n := Number "boundaries" "b-local-sram-tag" ["rtl_parameters"%string; f] in check n =? 1 else Errorf "unsupported local SRAM output" in Ok tt in
  let? _ := sram "SRAM_OUT_REG"%string in
  let? _ := sram "TAG_PIPE_DEPTH"%string in
  check negb ((bs_Size req <>? 2) || (bs_Size rsp <>? 2)) else Errorf "unsupported local memory buffers" in
  let? base := memory "local_base_address"%string in
  let? size := memory "local_size_bytes"%string in
  Ok (fresh_local (u32 base) (u32 size) req rsp).

Definition LocalMemory_Responses (m : LocalMemory) : list WordReply := map (fun q => mkWordReply (queue_head q) false) (qlist (lm_responses m)).

Definition LocalMemory_HasResidency (m : LocalMemory) (kernel cta : Z) : bool :=
  let bank b :=
    existsb (fun r => belongs kernel cta (wq_Identity (lq_request r))) (qu_values (qget (lm_requests m) b)) ||
    existsb (fun r => belongs kernel cta (wr_Identity r)) (qu_values (qget (lm_responses m) b)) ||
    match qget (lm_pipe m) b with Some r => belongs kernel cta (wr_Identity (lr_response r)) | None => false end in
  existsb bank [0; 1; 2; 3].

Definition LocalMemory_Drained (m : LocalMemory) : bool :=
  let bank b := is_empty (qu_values (qget (lm_requests m) b)) && is_empty (qu_values (qget (lm_responses m) b)) && negb (bool_decide (is_Some (qget (lm_pipe m) b))) in
  forallb bank [0; 1; 2; 3].

(** ** Checks *)

Definition MaxUint64 : Z := 2 ^ 64 - 1.

Definition offer_at (offers : list WordOffer) (p : Z) : WordOffer := mjoin (offers !! Z.to_nat p).

Definition local_offer_check (m : LocalMemory) (offers : list WordOffer) (p : Z) : result unit :=
  let o := offer_at offers p in
  check negb (bool_decide (qget (lm_held m) p <> None /\ qget (lm_held m) p <> o)) else Errorf "changed stalled local word" in
  match o with
  | None => Ok tt
  | Some r =>
      check negb ((wq_Address r mod 4 <>? 0) || (wq_Address r <? lm_base m) || (wq_Address r + 4 >? lm_base m + lm_size m) || (wq_ByteEnable r .&^ 15 <>? 0) ||
                  wq_NonCacheable r || (qget (lm_used m) p && (id_Transaction (wq_Identity r) <=? qget (lm_last m) p)))
      else Errorf "invalid local word or stale transaction" in Ok tt
  end.

Definition local_check (m : LocalMemory) (cycle : Z) (offers : list WordOffer) (ready : list bool) : result unit :=
  check (zlen offers =? 4) && (zlen ready =? 4) else Errorf "local memory port count" in
  check negb (lm_started m && ((lm_cycle m =? MaxUint64) || (cycle <>? lm_cycle m + 1))) else Errorf "noncontiguous local cycle" in
  foldM (fun _ p => local_offer_check m offers p) tt [0; 1; 2; 3].

(** ** Service *)

(** What the service of a request leaves: the receipt of a store or the response of a load. *)
Inductive localOutcome := LocalStore (receipt : StoreReceipt) | LocalLoad (response : localResponse).

Section Owner.
Context {S : Type} `{LocalOwner S}.

Definition resolve (s : S) (id : Identity) : result lo_Handle :=
  let? owner := lo_owner s id in
  match owner with None => Err (Errorf "local resolver returned nil owner") | Some h => Ok h end.

Definition error_of {A} (r : result A) : option error := match r with Ok _ => None | Err e => Some e end.

Definition local_serve (s : S) (r : localRequest) : S * localOutcome :=
  let w := lq_request r in
  let owner := resolve s (wq_Identity w) in
  if wq_Write w then
    let writes := run_writes (wq_Address w) 4 (wq_ByteEnable w) (wq_Data w) in
    let '(s, err) := match owner with
      | Err e => (s, Some e)
      | Ok h => let '(s, res) := lo_batch s h (map fst writes) (map snd writes) in (s, error_of res)
      end in
    (s, LocalStore (mkStoreReceipt (lq_port r) w err))
  else
    let reply data err := LocalLoad (mkLocalResponse (mkWordResponse (wq_Identity w) (wq_Tag w) data 15 err) (lq_port r)) in
    match (let? h := owner in lo_read s h (wq_Address w) 4) with
    | Err e => (s, reply zero_word (Some e))
    | Ok data => (s, reply (data ++ [0; 0; 0; 0]) None)
    end.

(** ** The edge *)

Definition banks : list Z := [0; 1; 2; 3].

(** The bank whose response a port takes: the lowest one. *)
Definition response_grant (m : LocalMemory) (p : Z) : option Z :=
  if queue_ready (qget (lm_responses m) p) false
  then find (fun b => match qget (lm_pipe m) b with Some r => lr_port r =? p | None => false end) banks
  else None.

Definition bank_pop (m : LocalMemory) (b : Z) : bool := existsb (fun p => bool_decide (response_grant m p = Some b)) banks.

(** The head of a bank's queue is served unless a hazard or a full pipe stops it. *)
Definition serves (m : LocalMemory) (b : Z) : option localRequest :=
  match queue_head (qget (lm_requests m) b) with
  | None => None
  | Some r =>
      let w := lq_request r in
      let hazard := qget (lm_lastWrite m) b && negb (wq_Write w) && (qget (lm_lastAddress m) b =? wq_Address w) in
      if hazard || (negb (wq_Write w) && bool_decide (is_Some (qget (lm_pipe m) b)) && negb (bank_pop m b)) then None else Some r
  end.

(** The owners, the receipts and the new pipe entries after the banks so far. *)
Record served := mkServed { sv_state : S; sv_stores : list StoreReceipt; sv_pipe : quad (option localResponse) }.

Definition serve_bank (m : LocalMemory) (st : served) (b : Z) : served :=
  match serves m b with
  | None => st
  | Some r =>
      let '(s, outcome) := local_serve (sv_state st) r in
      match outcome with
      | LocalStore receipt => mkServed s (sv_stores st ++ [receipt]) (sv_pipe st)
      | LocalLoad response => mkServed s (sv_stores st) (qset (sv_pipe st) b (Some response))
      end
  end.

Definition bank_of (r : WordRequest) : Z := wq_Address r / 4 mod 4.

(** The port whose offer a bank takes: the lowest one. *)
Definition request_grant (m : LocalMemory) (offers : list WordOffer) (b : Z) : option Z :=
  if queue_ready (qget (lm_requests m) b) false
  then find (fun p => match offer_at offers p with Some r => bank_of r =? b | None => false end) banks
  else None.

Definition port_accepted (m : LocalMemory) (offers : list WordOffer) (p : Z) : bool := existsb (fun b => bool_decide (request_grant m offers b = Some p)) banks.

(** The request a bank's queue takes, the response a port's queue takes. *)
Definition request_push (m : LocalMemory) (offers : list WordOffer) (b : Z) : option localRequest :=
  match request_grant m offers b with Some p => (fun r => mkLocalRequest r p) <$> offer_at offers p | None => None end.
Definition response_push (m : LocalMemory) (p : Z) : option WordResponse :=
  match response_grant m p with Some b => lr_response <$> qget (lm_pipe m) b | None => None end.

Definition reply_delivered (m : LocalMemory) (ready : list bool) (p : Z) : bool :=
  bool_decide (is_Some (queue_head (qget (lm_responses m) p))) && default false (ready !! Z.to_nat p).

Definition LocalMemory_Step (m : LocalMemory) (s : S) (cycle : Z) (offers : list WordOffer) (ready : list bool) : LocalMemory * S * result CacheEdge :=
  match local_check m cycle offers ready with
  | Err e => (m, s, Err e)
  | Ok _ =>
      let st := fold4 (serve_bank m) (mkServed s [] (qfill None)) in
      let accepted := port_accepted m offers in
      let request b := lq_request <$> serves m b in
      (mkLocalMemory (lm_base m) (lm_size m)
         (qmake (fun b => queue_update (bool_decide (is_Some (serves m b))) (request_push m offers b) (qget (lm_requests m) b)))
         (qmake (fun p => queue_update (reply_delivered m ready p) (response_push m p) (qget (lm_responses m) p)))
         (qmake (fun b => match qget (sv_pipe st) b with Some r => Some r | None => if bank_pop m b then None else qget (lm_pipe m) b end))
         (qmake (fun b => match request b with Some w => wq_Write w | None => false end))
         (qmake (fun b => match request b with Some w => wq_Address w | None => qget (lm_lastAddress m) b end))
         (qmake (fun p => if accepted p then None else offer_at offers p))
         (qmake (fun p => match offer_at offers p with Some r => if accepted p then id_Transaction (wq_Identity r) else qget (lm_last m) p | None => qget (lm_last m) p end))
         (qmake (fun p => qget (lm_used m) p || accepted p)) cycle true,
       sv_state st,
       Ok (mkCacheEdge (map accepted banks) (map (fun p => mkWordReply (queue_head (qget (lm_responses m) p)) (reply_delivered m ready p)) banks)
             (sv_stores st) false None []))
  end.
End Owner.
