(* ===== verification/LocalMemorySpec.v ===== *)
(** * The local memory serves every word once, in order

    Whatever the traffic, the accepted words are served one after the other, each bank in
    the order of acceptance, and every load's word reaches its port once. *)

From S2P Require Import Prelude Memory TimingIR Memsys LocalMemory.

#[local] Open Scope Z_scope.
#[local] Open Scope go_scope.

Definition port_of (p : Z) : Prop := p ∈ banks.

Lemma banks_idx b : b ∈ banks <-> idx4 b.
Proof. unfold banks, idx4. rewrite !elem_of_cons, elem_of_nil. tauto. Qed.

(** ** Lists over the banks *)

Lemma flat_map_permutation {A} (f g h k : Z -> list A) bs : (forall b, b ∈ bs -> f b ++ g b ≡ₚ h b ++ k b) ->
  flat_map f bs ++ flat_map g bs ≡ₚ flat_map h bs ++ flat_map k bs.
Proof.
  induction bs as [|b bs IH]; intros Hb; cbn [flat_map]; [done|].
  rewrite <- !app_assoc, (Permutation_app_comm (flat_map f bs)), <- app_assoc, app_assoc, Hb by left.
  rewrite <- app_assoc. apply Permutation_app_head. rewrite (Permutation_app_comm (flat_map g bs)), (IH ltac:(intros; apply Hb; by right)).
  rewrite !app_assoc. apply Permutation_app_tail, Permutation_app_comm.
Qed.

(** A function that is [x] at one bank only. *)
Lemma flat_map_single {A} (f : Z -> list A) bs b x : NoDup bs -> b ∈ bs -> f b = x -> (forall c, c ∈ bs -> c <> b -> f c = []) -> flat_map f bs = x.
Proof.
  intros Hnd Hb Hx Hf. induction Hnd as [|c bs Hc Hnd IH]; [by apply elem_of_nil in Hb|]. cbn [flat_map]. apply elem_of_cons in Hb as [<-|Hb].
  - rewrite Hx. assert (flat_map f bs = []) as ->; [|by rewrite app_nil_r].
    clear IH Hnd. assert (forall d, d ∈ bs -> f d = []) as Hz by (intros d Hd; apply Hf; [by right|intros ->; done]). clear Hf Hc. induction bs as [|d bs IH]; [done|]. cbn. rewrite Hz by left. apply IH. intros d' Hd'. apply Hz. by right.
  - rewrite Hf by (by left || (intros ->; done)). apply IH; [done|]. intros d Hd. apply Hf. by right.
Qed.

Lemma flat_map_none {A} (f : Z -> list A) bs : (forall c, c ∈ bs -> f c = []) -> flat_map f bs = [].
Proof. induction bs as [|c bs IH]; intros Hf; cbn [flat_map]; [done|]. rewrite Hf by left. apply IH. intros d Hd. apply Hf. by right. Qed.

Lemma banks_nodup : NoDup banks.
Proof. by apply (bool_decide_unpack (NoDup banks)). Qed.

Section Spec.
Context {S : Type} `{LocalOwner S}.

(** ** The sequential reference *)

Fixpoint serve_all (s : S) (rs : list localRequest) : S * list localOutcome :=
  match rs with
  | [] => (s, [])
  | r :: rs => let '(s, out) := local_serve s r in let '(s, outs) := serve_all s rs in (s, out :: outs)
  end.

Lemma serve_all_app s rs rs' : serve_all s (rs ++ rs') = let '(s1, o1) := serve_all s rs in let '(s2, o2) := serve_all s1 rs' in (s2, o1 ++ o2).
Proof.
  revert s. induction rs as [|r rs IH]; intros s; cbn [app serve_all]; [by destruct (serve_all s rs')|]. destruct (local_serve s r) as [s1 out]. rewrite IH.
  destruct (serve_all s1 rs) as [s2 o1]. by destruct (serve_all s2 rs') as [s3 o2].
Qed.

Definition stores_of (outs : list localOutcome) : list StoreReceipt := omap (fun o => match o with LocalStore r => Some r | LocalLoad _ => None end) outs.

(** The words loaded for a port. *)
Definition load_for (p : Z) (o : localOutcome) : list WordResponse :=
  match o with LocalLoad r => if lr_port r =? p then [lr_response r] else [] | LocalStore _ => [] end.
Definition loads_for (p : Z) (outs : list localOutcome) : list WordResponse := flat_map (load_for p) outs.

(** ** The service of an edge *)

Definition edge_served (m : LocalMemory) : list localRequest := omap (serves m) banks.

Definition pipe_entry (p : Z) (e : option localResponse) : list WordResponse := match e with Some r => if lr_port r =? p then [lr_response r] else [] | None => [] end.
Definition pipe_for (p : Z) (pipe : quad (option localResponse)) : list WordResponse := flat_map (fun b => pipe_entry p (qget pipe b)) banks.

Lemma serve_kind s r : match (local_serve s r).2 with LocalStore _ => wq_Write (lq_request r) = true | LocalLoad x => wq_Write (lq_request r) = false /\ lr_port x = lq_port r end.
Proof. unfold local_serve. destruct (wq_Write (lq_request r)); [by destruct (match resolve s _ with Ok _ => _ | Err _ => _ end)|]. by destruct (result_bind _ _). Qed.

(** Serving the banks one after the other is serving their requests in sequence. *)
Lemma serve_banks_spec m s bs st : NoDup bs -> (forall b, b ∈ bs -> idx4 b) -> (forall b, b ∈ bs -> qget (sv_pipe st) b = None) -> sv_state st = s ->
  let st' := fold_left (serve_bank m) bs st in
  let '(s', outs) := serve_all s (omap (serves m) bs) in
  sv_state st' = s' /\ sv_stores st' = sv_stores st ++ stores_of outs /\
  (forall p, flat_map (fun b => pipe_entry p (qget (sv_pipe st') b)) bs = loads_for p outs) /\
  (forall b, idx4 b -> b ∉ bs -> qget (sv_pipe st') b = qget (sv_pipe st) b) /\
  (forall b, b ∈ bs -> is_Some (qget (sv_pipe st') b) -> exists r, serves m b = Some r /\ wq_Write (lq_request r) = false).
Proof.
  intros Hnd. revert s st. induction Hnd as [|b bs Hb Hnd IH]; intros s st Hin Hp <-; cbn [fold_left omap list_omap].
  { cbn [serve_all]. split_and!; [done|by rewrite app_nil_r|done|done|]. intros b Hb. by apply elem_of_nil in Hb. }
  assert (forall c, c ∈ bs -> idx4 c) as Hin' by (intros c Hc; apply Hin; by right). assert (idx4 b) as Hbi by (apply Hin; left).
  destruct (serves m b) as [r|] eqn:Er.
  - cbn [serve_all]. pose proof (serve_kind (sv_state st) r) as Hk. destruct (local_serve (sv_state st) r) as [s1 out] eqn:Es. cbn [snd] in Hk. destruct out as [receipt|response].
    + set (st1 := mkServed s1 (sv_stores st ++ [receipt]) (sv_pipe st)). assert (serve_bank m st b = st1) as -> by (unfold serve_bank; by rewrite Er, Es). specialize (IH s1 st1 Hin' ltac:(intros c Hc; apply Hp; by right) eq_refl). cbv zeta in IH.
      destruct (serve_all s1 (omap (serves m) bs)) as [s2 outs]. destruct IH as (H1 & H2 & H3 & H4 & H5). split_and!.
      * done.
      * rewrite H2. cbn. by rewrite <- app_assoc.
      * intros p. cbn [flat_map loads_for load_for app]. rewrite H4 by done. cbn [st1 sv_pipe]. rewrite Hp by left. cbn. apply H3.
      * intros c Hc Hn. apply not_elem_of_cons in Hn as [_ Hn]. by apply H4.
      * intros c [-> | Hc]%elem_of_cons; [|by apply H5]. rewrite H4 by done. cbn [st1 sv_pipe]. rewrite Hp by left. by intros [? ?].
    + set (st1 := mkServed s1 (sv_stores st) (qset (sv_pipe st) b (Some response))). assert (serve_bank m st b = st1) as -> by (unfold serve_bank; by rewrite Er, Es). destruct Hk as [Hk Hport].
      assert (forall c, c ∈ bs -> qget (sv_pipe st1) c = None) as Hp1.
      { intros c Hc. cbn [st1 sv_pipe]. rewrite qget_qset_ne; [apply Hp; by right|done|by apply Hin'|intros ->; done]. }
      specialize (IH s1 st1 Hin' Hp1 eq_refl). cbv zeta in IH. destruct (serve_all s1 (omap (serves m) bs)) as [s2 outs]. destruct IH as (H1 & H2 & H3 & H4 & H5). split_and!.
      * done.
      * done.
      * intros p. cbn [flat_map loads_for load_for]. rewrite H4 by done. cbn [st1 sv_pipe]. rewrite qget_qset_eq by done. cbn [pipe_entry]. f_equal. apply H3.
      * intros c Hc Hn. apply not_elem_of_cons in Hn as [Hne Hn]. rewrite H4 by done. cbn [st1 sv_pipe]. by rewrite qget_qset_ne by done.
      * intros c [-> | Hc]%elem_of_cons; [|by apply H5]. intros _. by exists r.
  - assert (serve_bank m st b = st) as -> by (unfold serve_bank; by rewrite Er). specialize (IH (sv_state st) st Hin' ltac:(intros c Hc; apply Hp; by right) eq_refl). cbv zeta in IH.
    destruct (serve_all (sv_state st) (omap (serves m) bs)) as [s2 outs]. destruct IH as (H1 & H2 & H3 & H4 & H5). split_and!; [done|done| | |].
    + intros p. cbn [flat_map]. rewrite H4 by done. rewrite Hp by left. cbn. apply H3.
    + intros c Hc Hn. apply not_elem_of_cons in Hn as [_ Hn]. by apply H4.
    + intros c [-> | Hc]%elem_of_cons; [|by apply H5]. rewrite H4 by done. rewrite Hp by left. by intros [? ?].
Qed.

(** ** The crossbars *)

Lemma find_in {A} (f : A -> bool) (l : list A) x : find f l = Some x -> x ∈ l /\ f x = true.
Proof. intros Hf. apply find_some in Hf as [Hin Hx]. split; [by apply list_elem_of_In|done]. Qed.

Lemma response_grant_some m p b : response_grant m p = Some b -> b ∈ banks /\ exists r, qget (lm_pipe m) b = Some r /\ lr_port r = p.
Proof.
  unfold response_grant. destruct (queue_ready _ _); [|done]. intros [Hb Hp]%find_in. split; [done|]. destruct (qget (lm_pipe m) b) as [r|]; [|done]. exists r. split; [done|by apply Z.eqb_eq].
Qed.

Lemma request_grant_some m offers b p : request_grant m offers b = Some p -> p ∈ banks /\ exists r, offer_at offers p = Some r /\ bank_of r = b.
Proof.
  unfold request_grant. destruct (queue_ready _ _); [|done]. intros [Hp Hb]%find_in. split; [done|]. destruct (offer_at offers p) as [r|]; [|done]. exists r. split; [done|by apply Z.eqb_eq].
Qed.

Lemma exists_bank (f : Z -> bool) : existsb f banks = true <-> exists b, b ∈ banks /\ f b = true.
Proof. rewrite existsb_exists. split; intros (b & Hb & Hf); exists b; split; try done; by apply list_elem_of_In. Qed.

Lemma bank_pop_some m b : bank_pop m b = true <-> exists p, p ∈ banks /\ response_grant m p = Some b.
Proof. unfold bank_pop. rewrite exists_bank. split; intros (p & Hp & Hg); exists p; split; try done; by apply bool_decide_eq_true in Hg || apply bool_decide_eq_true. Qed.

Lemma port_accepted_some m offers p : port_accepted m offers p = true <-> exists b, b ∈ banks /\ request_grant m offers b = Some p.
Proof. unfold port_accepted. rewrite exists_bank. split; intros (b & Hb & Hg); exists b; split; try done; by apply bool_decide_eq_true in Hg || apply bool_decide_eq_true. Qed.

(** The response a port takes is the one popped from its bank. *)
Lemma response_push_popped m p : p ∈ banks ->
  option_list (response_push m p) = flat_map (fun b => if bank_pop m b then pipe_entry p (qget (lm_pipe m) b) else []) banks.
Proof.
  intros Hp. unfold response_push. destruct (response_grant m p) as [b|] eqn:Eg.
  - destruct (response_grant_some _ _ _ Eg) as (Hb & r & Er & Hr). symmetry. apply (flat_map_single _ _ b); [apply banks_nodup|done| |].
    + assert (bank_pop m b = true) as -> by (apply bank_pop_some; by exists p). rewrite Er. cbn. by rewrite Hr, Z.eqb_refl.
    + intros c Hc Hne. destruct (bank_pop m c) eqn:Ep; [|done]. apply bank_pop_some in Ep as (q & Hq & Eq). destruct (response_grant_some _ _ _ Eq) as (_ & x & Ex & Hx). rewrite Ex. cbn.
      destruct (Z.eqb_spec (lr_port x) p) as [E|]; [|done]. congruence.
  - symmetry. apply flat_map_none. intros c Hc. destruct (bank_pop m c) eqn:Ep; [|done]. apply bank_pop_some in Ep as (q & Hq & Eq). destruct (response_grant_some _ _ _ Eq) as (_ & x & Ex & Hx). rewrite Ex. cbn.
    destruct (Z.eqb_spec (lr_port x) p) as [E|]; [|done]. congruence.
Qed.

(** The pipes of an edge: what was popped went to the ports, what was loaded came in. *)
Lemma pipe_balance m p (pipe : quad (option localResponse)) : p ∈ banks ->
  (forall b, b ∈ banks -> is_Some (qget pipe b) -> exists r, serves m b = Some r /\ wq_Write (lq_request r) = false) ->
  option_list (response_push m p) ++ pipe_for p (qmake (fun b => match qget pipe b with Some r => Some r | None => if bank_pop m b then None else qget (lm_pipe m) b end)) ≡ₚ
  pipe_for p (lm_pipe m) ++ pipe_for p pipe.
Proof.
  intros Hp Hs. rewrite response_push_popped by done. unfold pipe_for. apply flat_map_permutation. intros b Hb. rewrite qget_qmake by (by apply banks_idx).
  specialize (Hs b Hb). destruct (qget pipe b) as [x|] eqn:Ex.
  - destruct (Hs ltac:(done)) as (r & Er & Hr). unfold serves in Er. destruct (queue_head _) as [r0|]; [|done]. destruct (_ || _) eqn:E in Er; [done|]. injection Er as ->. apply orb_false_iff in E as [_ E].
    rewrite Hr in E. cbn [negb andb] in E. destruct (bank_pop m b); [done|]. cbn [negb] in E. rewrite andb_true_r in E. apply bool_decide_eq_false in E. destruct (qget (lm_pipe m) b); [|done]. exfalso. by apply E.
  - destruct (bank_pop m b); cbn [pipe_entry app]; by rewrite ?app_nil_r.
Qed.

(** ** Acceptance and service, bank by bank *)

Definition at_bank (b : Z) (rs : list localRequest) : list localRequest := filter (fun r => bank_of (lq_request r) = b) rs.

(** The requests an edge accepts, in the order of the ports. *)
Definition accepted_of (offers : list WordOffer) (e : CacheEdge) : list localRequest :=
  flat_map (fun p => if default false (cg_Accepted e !! Z.to_nat p) then option_list ((fun r => mkLocalRequest r p) <$> offer_at offers p) else []) banks.

Lemma at_bank_app b rs rs' : at_bank b (rs ++ rs') = at_bank b rs ++ at_bank b rs'.
Proof. apply filter_app. Qed.

Lemma at_bank_flat_map b (f : Z -> list localRequest) ps : at_bank b (flat_map f ps) = flat_map (fun p => at_bank b (f p)) ps.
Proof. induction ps as [|p ps IH]; cbn [flat_map]; [done|]. by rewrite at_bank_app, IH. Qed.

Lemma at_bank_option b o : at_bank b (option_list o) = match o with Some r => if bank_of (lq_request r) =? b then [r] else [] | None => [] end.
Proof. destruct o as [r|]; [|done]. unfold at_bank. cbn [option_list]. rewrite filter_cons, filter_nil. destruct (Z.eqb_spec (bank_of (lq_request r)) b); [by rewrite decide_True|by rewrite decide_False]. Qed.

Lemma omap_flat_map {A B} (f : A -> option B) l : omap f l = flat_map (fun x => option_list (f x)) l.
Proof. induction l as [|x l IH]; cbn [omap list_omap flat_map]; [done|]. rewrite <- IH. by destruct (f x). Qed.

Lemma accepted_at_bank m offers e b : cg_Accepted e = map (port_accepted m offers) banks -> b ∈ banks -> at_bank b (accepted_of offers e) = option_list (request_push m offers b).
Proof.
  intros Ea Hb. unfold accepted_of. rewrite at_bank_flat_map. rewrite Ea.
  assert (forall p, p ∈ banks -> default false (map (port_accepted m offers) banks !! Z.to_nat p) = port_accepted m offers p) as Hat.
  { intros p Hp%banks_idx. destruct Hp as [-> | [-> | [-> | ->]]]; reflexivity. }
  unfold request_push. destruct (request_grant m offers b) as [p|] eqn:Eg.
  - destruct (request_grant_some _ _ _ _ Eg) as (Hp & r & Er & Hr). apply (flat_map_single _ _ p); [apply banks_nodup|done| |].
    + rewrite Hat by done. assert (port_accepted m offers p = true) as -> by (apply port_accepted_some; by exists b). rewrite Er. cbn [fmap option_fmap option_map]. rewrite at_bank_option. cbn [lq_request]. by rewrite Hr, Z.eqb_refl.
    + intros q Hq Hne. rewrite Hat by done. destruct (port_accepted m offers q) eqn:Eq; [|done]. apply port_accepted_some in Eq as (c & Hc & Ec). destruct (request_grant_some _ _ _ _ Ec) as (_ & x & Ex & Hx).
      rewrite Ex. cbn [fmap option_fmap option_map]. rewrite at_bank_option. cbn [lq_request]. destruct (Z.eqb_spec (bank_of x) b) as [E|]; [congruence|done].
  - apply flat_map_none. intros q Hq. rewrite Hat by done. destruct (port_accepted m offers q) eqn:Eq; [|done]. apply port_accepted_some in Eq as (c & Hc & Ec). destruct (request_grant_some _ _ _ _ Ec) as (_ & x & Ex & Hx).
    rewrite Ex. cbn [fmap option_fmap option_map]. rewrite at_bank_option. cbn [lq_request]. destruct (Z.eqb_spec (bank_of x) b) as [E|]; [congruence|done].
Qed.

Lemma serves_head m b r : serves m b = Some r -> exists rest, qu_values (qget (lm_requests m) b) = r :: rest.
Proof. unfold serves, queue_head. destruct (qu_values (qget (lm_requests m) b)) as [|x rest]; [done|]. cbn. case_match; [done|]. intros [= ->]. by exists rest. Qed.

Lemma served_at_bank m b : b ∈ banks -> (forall c, c ∈ banks -> Forall (fun r => bank_of (lq_request r) = c) (qu_values (qget (lm_requests m) c))) ->
  at_bank b (edge_served m) = option_list (serves m b).
Proof.
  intros Hb Hq. unfold edge_served. rewrite omap_flat_map, at_bank_flat_map.
  assert (forall c, c ∈ banks -> at_bank b (option_list (serves m c)) = if c =? b then option_list (serves m c) else []) as Hc.
  { intros c Hc. rewrite at_bank_option. destruct (serves m c) as [r|] eqn:Er; [|by destruct (c =? b)]. destruct (serves_head _ _ _ Er) as [rest Erest]. specialize (Hq c Hc). rewrite Erest in Hq. apply Forall_cons in Hq as [-> _]. done. }
  apply (flat_map_single _ _ b); [apply banks_nodup|done| |]; [by rewrite Hc, Z.eqb_refl|]. intros c Hcb Hne. rewrite Hc by done. by destruct (Z.eqb_spec c b).
Qed.

(** ** The account *)

Definition delivered_of (p : Z) (e : CacheEdge) : list WordResponse :=
  match cg_Replies e !! Z.to_nat p with Some (mkWordReply (Some r) true) => [r] | _ => [] end.

(** [sv] is the order of service. *)
Record local_inv (s0 : S) (m : LocalMemory) (s : S) (accepted : list localRequest) (edges : list CacheEdge) (sv : list localRequest) : Prop := {
  li_queue : forall b, b ∈ banks -> at_bank b accepted = at_bank b sv ++ qu_values (qget (lm_requests m) b);
  li_bank : forall b, b ∈ banks -> Forall (fun r => bank_of (lq_request r) = b) (qu_values (qget (lm_requests m) b));
  li_serve : exists outs, serve_all s0 sv = (s, outs) /\ stores_of outs = flat_map cg_Stores edges /\
    forall p, p ∈ banks -> loads_for p outs ≡ₚ flat_map (delivered_of p) edges ++ qu_values (qget (lm_responses m) p) ++ pipe_for p (lm_pipe m);
  li_room : forall b, b ∈ banks -> queue_ok (qget (lm_requests m) b) /\ queue_ok (qget (lm_responses m) b)
}.

Lemma queue_update_values {A} (q : cacheQueue A) pop push : qu_values (queue_update pop push q) = (if pop then tail (qu_values q) else qu_values q) ++ option_list push.
Proof. by destruct push. Qed.

Lemma served_queue m b : option_list (serves m b) ++ (if bool_decide (is_Some (serves m b)) then tail (qu_values (qget (lm_requests m) b)) else qu_values (qget (lm_requests m) b)) = qu_values (qget (lm_requests m) b).
Proof. destruct (serves m b) as [r|] eqn:E; [|done]. destruct (serves_head _ _ _ E) as [rest ->]. done. Qed.

Lemma delivered_queue m ready p : p ∈ banks ->
  delivered_of p (mkCacheEdge (map (port_accepted m []) banks) (map (fun p => mkWordReply (queue_head (qget (lm_responses m) p)) (reply_delivered m ready p)) banks) [] false None []) ++
  (if reply_delivered m ready p then tail (qu_values (qget (lm_responses m) p)) else qu_values (qget (lm_responses m) p)) = qu_values (qget (lm_responses m) p).
Proof.
  intros Hp%banks_idx. assert (forall f : Z -> WordReply, map f banks !! Z.to_nat p = Some (f p)) as Hat by (intros f; destruct Hp as [-> | [-> | [-> | ->]]]; reflexivity).
  unfold delivered_of. cbn [cg_Replies]. rewrite Hat. destruct (reply_delivered m ready p) eqn:Ed.
  - unfold reply_delivered in Ed. apply andb_true_iff in Ed as [Ed _]. apply bool_decide_eq_true in Ed. unfold queue_head in *. by destruct (qu_values (qget (lm_responses m) p)) as [|x rest]; [destruct Ed|].
  - by destruct (queue_head _).
Qed.

Lemma local_step_inv s0 m s accepted edges sv cycle offers ready m' s' e :
  local_inv s0 m s accepted edges sv -> LocalMemory_Step m s cycle offers ready = (m', s', Ok e) ->
  local_inv s0 m' s' (accepted ++ accepted_of offers e) (edges ++ [e]) (sv ++ edge_served m).
Proof.
  intros [Hq Hbank (outs & Hserve & Hstores & Hloads) Hroom] Hstep. unfold LocalMemory_Step in Hstep. destruct (local_check m cycle offers ready) as [[]|]; [|done].
  pose proof (serve_banks_spec m s banks (mkServed s [] (qfill None)) banks_nodup (fun b => proj1 (banks_idx b)) ltac:(intros b _; apply qget_qfill) eq_refl) as Hsv. cbv zeta in Hsv.
  change (fold_left (serve_bank m) banks (mkServed s [] (qfill None))) with (fold4 (serve_bank m) (mkServed s [] (qfill None))) in Hsv.
  set (st := fold4 (serve_bank m) (mkServed s [] (qfill None))) in *. fold (edge_served m) in Hsv. destruct (serve_all s (edge_served m)) as [s2 outs2] eqn:Es2. destruct Hsv as (Est & Hst & Hld & _ & Hpipe).
  injection Hstep as <- <- <-. cbn [sv_stores app] in Hst. constructor; cbn [lm_requests lm_responses lm_pipe].
  - intros b Hb. rewrite !at_bank_app, (Hq b Hb), (served_at_bank m b Hb Hbank). rewrite (accepted_at_bank m offers) by done. rewrite qget_qmake by (by apply banks_idx). rewrite queue_update_values.
    rewrite <- (served_queue m b) at 1. by rewrite <- !app_assoc.
  - intros b Hb. rewrite qget_qmake by (by apply banks_idx). rewrite queue_update_values. apply Forall_app. split.
    + pose proof (Hbank b Hb) as Hf. rewrite <- (served_queue m b) in Hf. by apply Forall_app in Hf as [_ Hf].
    + unfold request_push. destruct (request_grant m offers b) as [p|] eqn:Eg; [|constructor]. destruct (request_grant_some _ _ _ _ Eg) as (_ & r & -> & Hr). cbn. by repeat constructor.
  - exists (outs ++ outs2). split; [by rewrite serve_all_app, Hserve, Es2, Est|]. split.
    + unfold stores_of in *. rewrite omap_app, flat_map_app, Hstores. cbn [flat_map cg_Stores]. by rewrite Hst, app_nil_r.
    + intros p Hp. unfold loads_for in *. rewrite !flat_map_app, (Hloads p Hp), <- Hld. fold (pipe_for p (sv_pipe st)). cbn [flat_map]. rewrite app_nil_r.
      rewrite qget_qmake by (by apply banks_idx). rewrite queue_update_values, <- !app_assoc. apply Permutation_app_head.
      pose proof (delivered_queue m ready p Hp) as Hd. rewrite <- Hd at 1. rewrite <- !app_assoc. apply Permutation_app_head, Permutation_app_head.
      symmetry. by apply pipe_balance.
  - intros b Hb. destruct (Hroom b Hb) as [Hr1 Hr2]. pose proof (proj1 (banks_idx b) Hb) as Hi. rewrite !qget_qmake by done. split; apply queue_update_ok; try done.
    + intros Hp%bool_decide_eq_true. destruct Hp as [r Hr]. destruct (serves_head _ _ _ Hr) as [rest ->]. done.
    + unfold request_push, request_grant. destruct (queue_ready (qget (lm_requests m) b) false) eqn:Er; [|done]. intros _. unfold queue_ready in *. rewrite andb_false_r, orb_false_r in Er. by rewrite Er.
    + unfold reply_delivered. intros [Hp%bool_decide_eq_true _]%andb_true_iff. unfold queue_head in Hp. destruct (qu_values _); [by destruct Hp|done].
    + unfold response_push, response_grant. destruct (queue_ready (qget (lm_responses m) b) false) eqn:Er; [|done]. intros _. unfold queue_ready in *. rewrite andb_false_r, orb_false_r in Er. by rewrite Er.
Qed.

(** ** Runs *)

(** The state, the accepted words and the edges of consecutive cycles. *)
Fixpoint local_run (m : LocalMemory) (s : S) (cycle : Z) (inputs : list (list WordOffer * list bool)) : option (LocalMemory * S * list localRequest * list CacheEdge) :=
  match inputs with
  | [] => Some (m, s, [], [])
  | (offers, ready) :: inputs =>
      match LocalMemory_Step m s cycle offers ready with
      | (_, _, Err _) => None
      | (m', s', Ok e) => match local_run m' s' (cycle + 1) inputs with
                          | Some (m'', s'', accepted, edges) => Some (m'', s'', accepted_of offers e ++ accepted, e :: edges)
                          | None => None
                          end
      end
  end.

Lemma local_run_inv s0 inputs m s accepted edges sv cycle m' s' accepted' edges' : local_inv s0 m s accepted edges sv -> local_run m s cycle inputs = Some (m', s', accepted', edges') ->
  exists sv', local_inv s0 m' s' (accepted ++ accepted') (edges ++ edges') sv'.
Proof.
  revert m s accepted edges sv cycle m' s' accepted' edges'. induction inputs as [|[offers ready] inputs IH]; intros m s accepted edges sv cycle m' s' accepted' edges' Hi Hrun; cbn [local_run] in Hrun.
  - injection Hrun as <- <- <- <-. exists sv. by rewrite !app_nil_r.
  - destruct (LocalMemory_Step m s cycle offers ready) as [[m1 s1] [e|]] eqn:Es; [|done]. destruct (local_run m1 s1 (cycle + 1) inputs) as [[[[m2 s2] acc2] edges2]|] eqn:Er; [|done]. injection Hrun as <- <- <- <-.
    pose proof (local_step_inv _ _ _ _ _ _ _ _ _ _ _ _ Hi Es) as Hi1. destruct (IH _ _ _ _ _ _ _ _ _ _ Hi1 Er) as [sv' Hsv']. exists sv'. rewrite <- !app_assoc in Hsv'. done.
Qed.

Lemma fresh_local_inv s base size req rsp : 0 <= bs_Size req -> 0 <= bs_Size rsp -> local_inv s (fresh_local base size req rsp) s [] [] [].
Proof.
  intros H1 H2. constructor; cbn [lm_requests lm_responses lm_pipe fresh_local].
  - intros b Hb. by rewrite qget_qfill.
  - intros b Hb. rewrite qget_qfill. constructor.
  - exists []. split; [done|]. split; [done|]. intros p Hp. rewrite qget_qfill. unfold pipe_for. by rewrite flat_map_none by (intros c Hc; by rewrite qget_qfill).
  - intros b Hb. by rewrite !qget_qfill.
Qed.

(** C25: The local memory serves every accepted word exactly once. In any run of a fresh
    local memory, whatever the traffic, the resolver and the readiness of the ports,
    there is one order of service such that: each bank serves its words in the order in
    which they were accepted, and what it has not served yet is in its queue; the byte
    owners are in the state after serving the words one after the other; the store
    receipts are those of that service, in its order; every load's response, as that
    service computes it, was delivered to its port once, or waits for it; and no queue
    exceeds its capacity. A drained local memory has served and delivered all. *)
Theorem local_memory_sequential base size req rsp s0 start inputs m s accepted edges : 0 <= bs_Size req -> 0 <= bs_Size rsp ->
  local_run (fresh_local base size req rsp) s0 start inputs = Some (m, s, accepted, edges) ->
  exists sv outs, serve_all s0 sv = (s, outs) /\
    (forall b, b ∈ banks -> at_bank b accepted = at_bank b sv ++ qu_values (qget (lm_requests m) b)) /\
    flat_map cg_Stores edges = stores_of outs /\
    (forall p, p ∈ banks -> flat_map (delivered_of p) edges ++ qu_values (qget (lm_responses m) p) ++ pipe_for p (lm_pipe m) ≡ₚ loads_for p outs) /\
    (forall b, b ∈ banks -> queue_ok (qget (lm_requests m) b) /\ queue_ok (qget (lm_responses m) b)) /\
    (LocalMemory_Drained m = true ->
      (forall b, b ∈ banks -> at_bank b accepted = at_bank b sv) /\ (forall p, p ∈ banks -> flat_map (delivered_of p) edges ≡ₚ loads_for p outs)).
Proof.
  intros H1 H2 Hrun. destruct (local_run_inv s0 inputs _ _ _ _ _ _ _ _ _ _ (fresh_local_inv s0 base size req rsp H1 H2) Hrun) as (sv & [Hq _ (outs & Hserve & Hst & Hld) Hroom]). cbn [app] in *.
  exists sv, outs. split_and!; try done; [intros p Hp; by rewrite Hld|]. intros Hd. unfold LocalMemory_Drained in Hd. rewrite forallb_forall in Hd.
  assert (forall b, b ∈ banks -> qu_values (qget (lm_requests m) b) = [] /\ qu_values (qget (lm_responses m) b) = [] /\ qget (lm_pipe m) b = None) as Hempty.
  { intros b Hb. specialize (Hd b ltac:(by apply list_elem_of_In)). rewrite !andb_true_iff in Hd. destruct Hd as [[D1 D2] D3%negb_true_iff%bool_decide_eq_false]. unfold is_empty in D1, D2.
    split_and!; [by destruct (qu_values (qget (lm_requests m) b))|by destruct (qu_values (qget (lm_responses m) b))|]. destruct (qget (lm_pipe m) b); [exfalso; by apply D3|done]. }
  split.
  - intros b Hb. rewrite Hq by done. destruct (Hempty b Hb) as (-> & _). apply app_nil_r.
  - intros p Hp. rewrite Hld by done. destruct (Hempty p Hp) as (_ & -> & _). unfold pipe_for. rewrite flat_map_none; [by rewrite !app_nil_r|]. intros c Hc. by destruct (Hempty c Hc) as (_ & _ & ->).
Qed.
End Spec.

(** ** A concrete run *)

(** One owner for every identity. *)
#[local] Instance single_owner : LocalOwner Memory := {|
  lo_Handle := unit;
  lo_owner := fun _ _ => Ok (Some tt);
  lo_read := fun m _ address n => Memory_Read m address n;
  lo_batch := fun m _ addresses sources => Memory_WriteBatch m addresses sources
|}.

Definition two_slots : BufferSpec := mkBufferSpec "" 2 1.
Definition small_local : LocalMemory := fresh_local 0 64 two_slots two_slots.
Definition small_memory : Memory := mkMemory (replicate 64 1).
Definition a_word (write : bool) (t address : Z) : WordRequest := mkWordRequest (with_transaction t no_identity) t address write false false 15 [9; 8; 7; 6; 0; 0; 0; 0].

(** A load held behind a store to its word, which also meets the hazard. *)
Definition small_inputs : list (list WordOffer * list bool) :=
  let idle := [None; None; None; None] in
  let go := [true; true; true; true] in
  ([Some (a_word true 1 8); Some (a_word false 1 8); Some (a_word false 1 4); None], go) :: ([None; Some (a_word false 1 8); None; None], go) :: replicate 5 (idle, go).

Example local_memory_sequential_witness : exists m s accepted edges, local_run small_local small_memory 0 small_inputs = Some (m, s, accepted, edges) /\ LocalMemory_Drained m = true /\
  length accepted = 3%nat /\ map wr_Data (flat_map (delivered_of 1) edges) = [[9; 8; 7; 6; 0; 0; 0; 0]] /\
  exists sv outs, serve_all small_memory sv = (s, outs) /\ forall b, b ∈ banks -> at_bank b accepted = at_bank b sv.
Proof.
  destruct (local_run small_local small_memory 0 small_inputs) as [[[[m s] accepted] edges]|] eqn:Er; [|vm_compute in Er; discriminate Er]. exists m, s, accepted, edges. split; [done|].
  assert (LocalMemory_Drained m = true) as Hd by (clear -Er; vm_compute in Er; injection Er as <- _ _ _; reflexivity). split; [done|].
  split; [clear -Er; vm_compute in Er; injection Er as _ _ <- _; reflexivity|]. split; [clear -Er; vm_compute in Er; injection Er as _ _ _ <-; reflexivity|].
  destruct (local_memory_sequential 0 64 two_slots two_slots small_memory 0 small_inputs m s accepted edges ltac:(done) ltac:(done) Er) as (sv & outs & H1 & _ & _ & _ & _ & H6).
  exists sv, outs. split; [done|]. by apply H6.
Defined.
