(* ===== verification/Split.v ===== *)
(** * The SIMD split (src/timing/memsys/split.go)

    A SIMD request of mixed lanes becomes one global and one local request; the split
    keeps a record of each request until all of its lanes are released and completed.
    A nil record, which Go would dereference, is the error [GoPanic]. *)

From stdpp Require Import sorting.
From S2P Require Import Prelude Memory TimingIR Memsys Coalescer.

#[local] Open Scope Z_scope.
#[local] Open Scope go_scope.

Definition GlobalPath : Z := 0.
Definition LocalPath : Z := 1.

#[export] Instance Identity_countable : Countable Identity.
Proof.
  apply (inj_countable' (fun i => (id_Kernel i, id_CTA i, id_WarpGeneration i, id_Token i, id_Epoch i, id_Subrequest i, id_Transaction i, id_Warp i))
    (fun '(a, b, c, d, e, f, g, h) => mkIdentity a b c d e f g h)). by intros [].
Defined.

Record SplitInput := mkSplitInput {
  si_Progress : list SIMDResponse * list SIMDResponse;
  si_Request : SIMDOffer;
  si_PathReady : bool * bool;
  si_Reads : SIMDReply * SIMDReply;
  si_Stores : list SIMDResponse * list SIMDResponse;
  si_ResponseReady : bool
}.

Record SplitEdge := mkSplitEdge {
  se_Accepted : bool;
  se_SubsetAccepted : bool * bool;
  se_Outputs : SIMDOffer * SIMDOffer;
  se_OutputDelivered : bool * bool;
  se_ReadReady : bool * bool;
  se_Response : SIMDReply;
  se_ResponseDelivered : bool;
  se_Stores : list SIMDResponse;
  se_Complete : list Identity
}.

Record splitRecord := mkSplitRecord {
  sr_request : SIMDRequest;
  sr_masks : Z * Z;
  sr_sent : Z;
  sr_arrived : Z;
  sr_completed : Z;
  sr_queued : Z;
  sr_released : Z;
  sr_accepted : bool
}.

Record SIMDSplit := mkSplit {
  sp_requests : cacheQueue SIMDRequest * cacheQueue SIMDRequest;
  sp_responses : cacheQueue SIMDResponse;
  sp_held : SIMDOffer;
  sp_heldReads : SIMDReply * SIMDReply;
  sp_submitted : Z;
  sp_records : gmap Identity splitRecord;
  sp_cycle : Z;
  sp_last : Z;
  sp_started : bool;
  sp_used : bool;
  sp_rtlMixedHazard : bool
}.

Definition RTLTimingIssue (s : SIMDSplit) : string := if sp_rtlMixedHazard s then "mixed-local-global-asymmetric-acceptance" else "".

Definition fresh_split (global local response : BufferSpec) : SIMDSplit :=
  mkSplit (empty_queue global, empty_queue local) (empty_queue response) None (None, None) 0 ∅ 0 0 false false false.

Definition NewSIMDSplit `{TimingDocument} : result SIMDSplit :=
  let request id := let? b := Buffer id in check bs_Size b =? 1 else Errorf "unsupported split request buffer" in Ok b in
  let? global := request "b-split-global_out_buf" in
  let? local := request "b-split-local_out_buf" in
  let? response := Buffer "b-split-rsp_out_buf" in
  check bs_Size response =? 1 else Errorf "unsupported split response buffer" in
  let? a := Arbiter "b-split-rsp_out_buf" in
  check negb ((ar_Inputs a <>? 2) || negb (ar_Policy a == "P") || ar_Sticky a) else Errorf "unsupported split arbiter" in
  Ok (fresh_split global local response).

(** The lanes of each path. *)
Definition splitMasks (r : SIMDRequest) : Z * Z :=
  let lane i path := if enabled (sq_Mask r) i && Bool.eqb (la_Local (qget (sq_Lanes r) i)) path then 1 << i else 0 in
  (fold4 (fun m i => m .| lane i false) 0, fold4 (fun m i => m .| lane i true) 0).

Definition Split_Outputs (s : SIMDSplit) : SIMDOffer * SIMDOffer := (queue_head (sp_requests s).1, queue_head (sp_requests s).2).
Definition Split_Response (s : SIMDSplit) : SIMDReply := queue_head (sp_responses s).

Definition present {A} (o : option A) : bool := match o with Some _ => true | None => false end.

(** The global path wins every contested grant. *)
Definition ReadReady (s : SIMDSplit) (reads : SIMDReply * SIMDReply) (responseReady : bool) : bool * bool :=
  let grant := queue_ready (sp_responses s) (negb (is_empty (qu_values (sp_responses s))) && responseReady) in
  match pick 0 [present reads.1; present reads.2] with
  | Some i => (grant && (i =? 0), grant && (i =? 1))
  | None => (false, false)
  end.

Definition Split_HasResidency (s : SIMDSplit) (kernel cta : Z) : bool := existsb (belongs kernel cta) (map fst (map_to_list (sp_records s))).

Definition Split_Drained (s : SIMDSplit) : bool :=
  bool_decide (sp_records s = ∅) && negb (present (sp_held s)) && is_empty (qu_values (sp_responses s)) && is_empty (qu_values (sp_requests s).1) && is_empty (qu_values (sp_requests s).2).

(** ** Checks *)

Definition with_mask (m : Z) (r : SIMDRequest) : SIMDRequest := mkSIMD (sq_Identity r) (sq_Tag r) m (sq_Write r) (sq_NoMerge r) (sq_Flush r) (sq_Lanes r).

Definition split_request_check (s : SIMDSplit) (request : SIMDOffer) : result unit :=
  check negb (present (sp_held s) && negb (bool_decide (sp_held s = request))) else Errorf "changed stalled split request" in
  match request with
  | None => Ok tt
  | Some r =>
      let? _ := validateSIMD r in
      check negb (sp_used s && (id_Transaction (sq_Identity r) <=? sp_last s)) else Errorf "stale split transaction" in
      if (splitMasks r).1 <>? 0 then validateGlobal (with_mask (splitMasks r).1 r) else Ok tt
  end.

(** Masks per identity; an absent one is 0. *)
Definition mask_of (m : gmap Identity Z) (id : Identity) : Z := default 0 (m !! id).
Definition add_mask (id : Identity) (mask : Z) (m : gmap Identity Z) : gmap Identity Z := <[id := mask_of m id .| mask]> m.

Definition progress_item (s : SIMDSplit) (p : Z) (progress : gmap Identity Z) (r : SIMDResponse) : result (gmap Identity Z) :=
  match sp_records s !! ss_Identity r with
  | None => Err (Errorf "invalid split partial progress")
  | Some rec =>
      check negb ((ss_Tag r <>? sq_Tag (sr_request rec)) || (ss_Mask r =? 0) || (ss_Mask r .&^ sel (sr_masks rec) p <>? 0) || (ss_Mask r .&^ sr_queued rec <>? 0) ||
                  (ss_Mask r .& (sr_sent rec .| mask_of progress (ss_Identity r)) <>? 0)) else Errorf "invalid split partial progress" in
      Ok (add_mask (ss_Identity r) (ss_Mask r) progress)
  end.

Definition completion_item (s : SIMDSplit) (progress : gmap Identity Z) (p : Z) (write : bool) (seen : gmap Identity Z) (r : SIMDResponse) : result (gmap Identity Z) :=
  match sp_records s !! ss_Identity r with
  | None => Err (Errorf "foreign, premature or duplicate split completion")
  | Some rec =>
      check negb ((sq_Tag (sr_request rec) <>? ss_Tag r) || negb (Bool.eqb (sq_Write (sr_request rec)) write) || (ss_Mask r =? 0) || (ss_Mask r .&^ sel (sr_masks rec) p <>? 0) ||
                  (ss_Mask r .&^ (sr_sent rec .| mask_of progress (ss_Identity r)) <>? 0) || (ss_Mask r .& sr_arrived rec <>? 0) || (ss_Mask r .& mask_of seen (ss_Identity r) <>? 0))
      else Errorf "foreign, premature or duplicate split completion" in
      Ok (add_mask (ss_Identity r) (ss_Mask r) seen)
  end.

(** A stalled fragment keeps its lanes. *)
Definition stable_read (held now : SIMDReply) : result unit :=
  match held, now with
  | Some _, None => Err (Errorf "dropped stalled path valid")
  | Some old, Some now =>
      if decide (ss_Identity old = ss_Identity now /\ ss_Batch old = ss_Batch now) then
        check negb ((ss_Tag old <>? ss_Tag now) || (ss_Mask old .&^ ss_Mask now <>? 0)) else Errorf "lost stalled path lanes" in
        check forallb (fun lane => negb (enabled (ss_Mask old) lane) ||
                        bool_decide (qget (ss_Data old) lane = qget (ss_Data now) lane /\ qget (ss_Errors old) lane = qget (ss_Errors now) lane)) [0; 1; 2; 3]
        else Errorf "changed stalled path response" in Ok tt
      else Ok tt
  | None, _ => Ok tt
  end.

Definition path_check (s : SIMDSplit) (progress : gmap Identity Z) (input : SplitInput) (seen : gmap Identity Z) (p : Z) : result (gmap Identity Z) :=
  let? _ := stable_read (sel (sp_heldReads s) p) (sel (si_Reads input) p) in
  let? seen := match sel (si_Reads input) p with Some r => completion_item s progress p false seen r | None => Ok seen end in
  foldM (completion_item s progress p true) seen (sel (si_Stores input) p).

Definition MaxUint64 : Z := 2 ^ 64 - 1.

Definition split_check (s : SIMDSplit) (cycle : Z) (input : SplitInput) : result unit :=
  check negb (sp_started s && ((sp_cycle s =? MaxUint64) || (cycle <>? sp_cycle s + 1))) else Errorf "noncontiguous split cycle" in
  let? _ := split_request_check s (si_Request input) in
  let? progress := foldM (fun progress p => foldM (progress_item s p) progress (sel (si_Progress input) p)) ∅ [0; 1] in
  let? _ := foldM (path_check s progress input) ∅ [0; 1] in
  Ok tt.

(** ** Records *)

Definition set_sent (m : Z) (r : splitRecord) : splitRecord :=
  mkSplitRecord (sr_request r) (sr_masks r) (sr_sent r .| m) (sr_arrived r) (sr_completed r) (sr_queued r) (sr_released r) (sr_accepted r).
Definition set_arrived (m : Z) (r : splitRecord) : splitRecord :=
  mkSplitRecord (sr_request r) (sr_masks r) (sr_sent r) (sr_arrived r .| m) (sr_completed r) (sr_queued r) (sr_released r) (sr_accepted r).
Definition set_completed (m : Z) (r : splitRecord) : splitRecord :=
  mkSplitRecord (sr_request r) (sr_masks r) (sr_sent r) (sr_arrived r) (sr_completed r .| m) (sr_queued r) (sr_released r) (sr_accepted r).
Definition set_queued (m : Z) (r : splitRecord) : splitRecord :=
  mkSplitRecord (sr_request r) (sr_masks r) (sr_sent r) (sr_arrived r) (sr_completed r) (sr_queued r .| m) (sr_released r) (sr_accepted r).
Definition set_released (m : Z) (r : splitRecord) : splitRecord :=
  mkSplitRecord (sr_request r) (sr_masks r) (sr_sent r) (sr_arrived r) (sr_completed r) (sr_queued r) (sr_released r .| m) (sr_accepted r).
Definition set_accepted (r : splitRecord) : splitRecord :=
  mkSplitRecord (sr_request r) (sr_masks r) (sr_sent r) (sr_arrived r) (sr_completed r) (sr_queued r) (sr_released r) true.

Notation records := (gmap Identity splitRecord).

(** [s.records[id]] is dereferenced. *)
Definition update_record (f : splitRecord -> splitRecord) (id : Identity) (rs : records) : result records :=
  match rs !! id with None => Err (GoPanic "nil split record") | Some r => Ok (<[id := f r]> rs) end.

(** ** The clock edge *)

Definition mixed_hazard (s : SIMDSplit) (input : SplitInput) : bool :=
  let ready p := queue_ready (sel (sp_requests s) p) (negb (is_empty (qu_values (sel (sp_requests s) p))) && sel (si_PathReady input) p) in
  match si_Request input with
  | Some r => ((splitMasks r).1 <>? 0) && ((splitMasks r).2 <>? 0) && negb (Bool.eqb (ready 0) (ready 1))
  | None => false
  end.

Definition output_delivered (s : SIMDSplit) (input : SplitInput) (p : Z) : bool := present (sel (Split_Outputs s) p) && sel (si_PathReady input) p.
Definition response_delivered (s : SIMDSplit) (input : SplitInput) : bool := present (Split_Response s) && si_ResponseReady input.

Definition progress_records (input : SplitInput) (rs : records) : result records :=
  foldM (fun rs p => foldM (fun rs r => update_record (set_sent (ss_Mask r)) (ss_Identity r) rs) rs (sel (si_Progress input) p)) rs [0; 1].

Definition response_records (s : SIMDSplit) (input : SplitInput) (rs : records) : result records :=
  match Split_Response s with
  | Some r => if si_ResponseReady input then update_record (set_completed (ss_Mask r)) (ss_Identity r) rs else Ok rs
  | None => Ok rs
  end.

(** One path: its output leaves, its read arrives, its stores apply. *)
Definition path_records (s : SIMDSplit) (input : SplitInput) (rs : records) (p : Z) : result records :=
  let? rs := match sel (Split_Outputs s) p with
    | Some r => if sel (si_PathReady input) p then update_record (fun rec => set_released (sq_Mask r) (set_sent (sq_Mask r) rec)) (sq_Identity r) rs else Ok rs
    | None => Ok rs
    end in
  let? rs := match sel (si_Reads input) p with
    | Some r => if sel (ReadReady s (si_Reads input) (si_ResponseReady input)) p then update_record (set_arrived (ss_Mask r)) (ss_Identity r) rs else Ok rs
    | None => Ok rs
    end in
  foldM (fun rs r => update_record (fun rec => set_completed (ss_Mask r) (set_arrived (ss_Mask r) rec)) (ss_Identity r) rs) rs (sel (si_Stores input) p).

(** The buffer of a path takes its lanes on this edge. *)
Definition subset_accepted (s : SIMDSplit) (input : SplitInput) (p : Z) : bool :=
  match si_Request input with
  | Some r => (sel (splitMasks r) p <>? 0) && negb (enabled (sp_submitted s) p) && queue_ready (sel (sp_requests s) p) (output_delivered s input p)
  | None => false
  end.

Definition submitted (s : SIMDSplit) (input : SplitInput) : Z :=
  (sp_submitted s .| (if subset_accepted s input 0 then 1 else 0)) .| (if subset_accepted s input 1 then 2 else 0).

Definition split_accepted (s : SIMDSplit) (input : SplitInput) : bool :=
  match si_Request input with
  | Some r => (((splitMasks r).1 =? 0) || enabled (submitted s input) 0) && (((splitMasks r).2 =? 0) || enabled (submitted s input) 1)
  | None => false
  end.

(** The record of the request, made with its first subset. *)
Definition queue_subset (s : SIMDSplit) (input : SplitInput) (r : SIMDRequest) (rs : records) (p : Z) : records :=
  if subset_accepted s input p then
    let rec := default (mkSplitRecord r (splitMasks r) 0 0 0 0 0 false) (rs !! sq_Identity r) in
    <[sq_Identity r := set_queued (sel (splitMasks r) p) rec]> rs
  else rs.

Definition request_records (s : SIMDSplit) (input : SplitInput) (rs : records) : result records :=
  match si_Request input with
  | None => Ok rs
  | Some r =>
      let rs := queue_subset s input r (queue_subset s input r rs 0) 1 in
      if split_accepted s input then update_record set_accepted (sq_Identity r) rs else Ok rs
  end.

Definition finished (r : splitRecord) : bool := sr_accepted r && (sr_completed r =? sq_Mask (sr_request r)) && (sr_released r =? sq_Mask (sr_request r)).

(** The finished requests by transaction. *)
Definition by_transaction (i j : Identity) : Prop := id_Transaction i <= id_Transaction j.
#[export] Instance by_transaction_dec i j : Decision (by_transaction i j). Proof. unfold by_transaction. apply _. Defined.

Definition complete_ids (rs : records) : list Identity :=
  merge_sort by_transaction (map fst (filter (fun p => finished p.2 = true) (map_to_list rs))).

Definition pushed_subset (s : SIMDSplit) (input : SplitInput) (p : Z) : option SIMDRequest :=
  match si_Request input with Some r => if subset_accepted s input p then Some (with_mask (sel (splitMasks r) p) r) else None | None => None end.

(** The read response that enters the output buffer. *)
Definition pushed_response (s : SIMDSplit) (input : SplitInput) : option SIMDResponse :=
  let ready := ReadReady s (si_Reads input) (si_ResponseReady input) in
  match (if ready.2 then (si_Reads input).2 else None) with
  | Some r => Some r
  | None => if ready.1 then (si_Reads input).1 else None
  end.

Definition next_records (s : SIMDSplit) (input : SplitInput) : result records :=
  let? rs := progress_records input (sp_records s) in
  let? rs := response_records s input rs in
  let? rs := foldM (path_records s input) rs [0; 1] in
  request_records s input rs.

Definition Split_Step (s : SIMDSplit) (cycle : Z) (input : SplitInput) : SIMDSplit * result SplitEdge :=
  match split_check s cycle input with
  | Err e => (s, Err e)
  | Ok _ =>
      match next_records s input with
      | Err e => (s, Err e)
      | Ok rs =>
          let ready := ReadReady s (si_Reads input) (si_ResponseReady input) in
          let accepted := split_accepted s input in
          let delivered p := output_delivered s input p in
          let requests p := queue_update (delivered p) (pushed_subset s input p) (sel (sp_requests s) p) in
          let held p := if sel ready p then None else sel (si_Reads input) p in
          (mkSplit (requests 0, requests 1) (queue_update (response_delivered s input) (pushed_response s input) (sp_responses s))
             (if accepted then None else si_Request input) (held 0, held 1) (if accepted then 0 else submitted s input)
             (filter (fun p => finished p.2 = false) rs) cycle
             (match si_Request input with Some r => if accepted then id_Transaction (sq_Identity r) else sp_last s | None => sp_last s end) true (sp_used s || accepted)
             (sp_rtlMixedHazard s || mixed_hazard s input),
           Ok (mkSplitEdge accepted (subset_accepted s input 0, subset_accepted s input 1) (Split_Outputs s) (delivered 0, delivered 1) ready (Split_Response s)
                 (response_delivered s input) ((si_Stores input).1 ++ (si_Stores input).2) (complete_ids rs)))
      end
  end.
