(* ===== verification/DCachePort.v ===== *)
(** * The D-cache port buffer (src/timing/memsys/dcache_port_buffer.go)

    Port 0 of the data cache is reached through two registered slots, which words and host
    flushes share; port 1 is a wire.  The buffer is a FIFO, and one host flush at a time is
    between its acceptance and its completion. *)

From S2P Require Import Prelude Memory TimingIR Memsys.

#[local] Open Scope Z_scope.
#[local] Open Scope go_scope.

Record dcachePortRequest := mkPortRequest { dp_word : WordOffer; dp_flush : FlushOffer }.

Record dcachePortBuffer := mkPortBuffer {
  db_queue : cacheQueue dcachePortRequest;
  db_activeFlush : FlushOffer;
  db_heldFlush : FlushOffer;
  db_lastFlush : Z;
  db_usedFlush : bool
}.

Definition newDCachePortBuffer `{TimingDocument} : result dcachePortBuffer :=
  let? b := Buffer "b-dflush" in
  check (bs_Size b =? 2) && (bs_OutReg b =? 1) else Errorf "unsupported b-dflush buffer" in
  Ok (mkPortBuffer (empty_queue b) None None 0 false).

(** The offers to the cache: the head of the queue, and port 1 of the core. *)
Definition port_output (b : dcachePortBuffer) (core : list WordOffer) : list WordOffer * FlushOffer :=
  let head := queue_head (db_queue b) in
  ([mjoin (dp_word <$> head); mjoin (core !! 1%nat)], mjoin (dp_flush <$> head)).

Definition port_validate (b : dcachePortBuffer) (flush : FlushOffer) : result unit :=
  check negb (bool_decide (db_heldFlush b <> None /\ db_heldFlush b <> flush)) else Errorf "changed stalled D-cache port flush" in
  check negb (match flush with Some f => db_usedFlush b && (id_Transaction (fl_Identity f) <=? db_lastFlush b) | None => false end) else Errorf "stale D-cache port flush transaction" in
  Ok tt.

(** What enters the queue: the core before the host. *)
Definition port_push (b : dcachePortBuffer) (core : list WordOffer) (flush : FlushOffer) : option dcachePortRequest :=
  if queue_ready (db_queue b) false then
    match mjoin (core !! 0%nat) with
    | Some w => Some (mkPortRequest (Some w) None)
    | None => match flush, db_activeFlush b with Some f, None => Some (mkPortRequest None (Some f)) | _, _ => None end
    end
  else None.

Definition accepts_flush (push : option dcachePortRequest) : bool := bool_decide (mjoin (dp_flush <$> push) <> None).
Definition accepts_word (push : option dcachePortRequest) : bool := bool_decide (mjoin (dp_word <$> push) <> None).

Definition accepted_at (accepted : list bool) (i : nat) : bool := default false (accepted !! i).

Definition flush_delivered (cache : CacheEdge) : bool := match cg_Flush cache with Some r => fr_Delivered r | None => false end.

Definition port_advance (b : dcachePortBuffer) (core : list WordOffer) (flush : FlushOffer) (cache : CacheEdge) : dcachePortBuffer * (list bool * bool) :=
  let push := port_push b core flush in
  let flushAccepted := accepts_flush push in
  (mkPortBuffer (queue_update (accepted_at (cg_Accepted cache) 0 || cg_FlushAccepted cache) push (db_queue b))
     (if flushAccepted then flush else if flush_delivered cache then None else db_activeFlush b)
     (if flushAccepted then None else flush)
     (match flush with Some f => if flushAccepted then id_Transaction (fl_Identity f) else db_lastFlush b | None => db_lastFlush b end)
     (db_usedFlush b || flushAccepted),
   ([accepts_word push; accepted_at (cg_Accepted cache) 1], flushAccepted)).

Definition Port_Drained (b : dcachePortBuffer) : bool := is_empty (qu_values (db_queue b)) && bool_decide (db_activeFlush b = None) && bool_decide (db_heldFlush b = None).

Definition flush_belongs (kernel cta : Z) (f : FlushOffer) : bool := match f with Some f => belongs kernel cta (fl_Identity f) | None => false end.

Definition Port_HasResidency (b : dcachePortBuffer) (kernel cta : Z) : bool :=
  existsb (fun r => match dp_word r with Some w => belongs kernel cta (wq_Identity w) | None => false end || flush_belongs kernel cta (dp_flush r)) (qu_values (db_queue b)) ||
  flush_belongs kernel cta (db_activeFlush b) || flush_belongs kernel cta (db_heldFlush b).

(** ** Runs *)

(** One edge: the core's offers, the host's flush and the answer of the cache. *)
Record portInput := mkPortInput { pn_core : list WordOffer; pn_flush : FlushOffer; pn_cache : CacheEdge }.

(** The cache accepts the head of the queue or nothing, and completes the flush that left
    the queue. *)
Definition cache_answers (b : dcachePortBuffer) (cache : CacheEdge) : Prop :=
  (accepted_at (cg_Accepted cache) 0 = true -> exists r w, queue_head (db_queue b) = Some r /\ dp_word r = Some w) /\
  (cg_FlushAccepted cache = true -> exists r f, queue_head (db_queue b) = Some r /\ dp_flush r = Some f) /\
  (flush_delivered cache = true -> Forall (fun r => dp_flush r = None) (qu_values (db_queue b))).

Record portTrace := mkPortTrace { pt_in : list dcachePortRequest; pt_out : list dcachePortRequest; pt_completed : list Flush }.

Definition port_edge (b : dcachePortBuffer) (i : portInput) : portTrace :=
  mkPortTrace (option_list (port_push b (pn_core i) (pn_flush i)))
    (if accepted_at (cg_Accepted (pn_cache i)) 0 || cg_FlushAccepted (pn_cache i) then option_list (queue_head (db_queue b)) else [])
    (if flush_delivered (pn_cache i) then option_list (db_activeFlush b) else []).

Fixpoint port_run (b : dcachePortBuffer) (inputs : list portInput) : option (dcachePortBuffer * portTrace) :=
  match inputs with
  | [] => Some (b, mkPortTrace [] [] [])
  | i :: inputs =>
      match port_validate b (pn_flush i) with
      | Err _ => None
      | Ok _ =>
          match port_run (port_advance b (pn_core i) (pn_flush i) (pn_cache i)).1 inputs with
          | Some (b', t) =>
              let e := port_edge b i in
              Some (b', mkPortTrace (pt_in e ++ pt_in t) (pt_out e ++ pt_out t) (pt_completed e ++ pt_completed t))
          | None => None
          end
      end
  end.

Fixpoint answers_hold (b : dcachePortBuffer) (inputs : list portInput) : Prop :=
  match inputs with
  | [] => True
  | i :: inputs => cache_answers b (pn_cache i) /\ answers_hold (port_advance b (pn_core i) (pn_flush i) (pn_cache i)).1 inputs
  end.

(** The host flushes among the requests. *)
Definition flushes (l : list dcachePortRequest) : list Flush := omap dp_flush l.

Lemma flushes_app l l' : flushes (l ++ l') = flushes l ++ flushes l'.
Proof. apply omap_app. Qed.

Lemma flushes_none l : Forall (fun r => dp_flush r = None) l -> flushes l = [].
Proof. induction 1 as [|r l E _ IH]; [done|]. unfold flushes in *. cbn. by rewrite E. Qed.

(** A queued flush is the active one. *)
Definition port_ok (b : dcachePortBuffer) : Prop := queue_ok (db_queue b) /\ (flushes (qu_values (db_queue b)) = [] \/ flushes (qu_values (db_queue b)) = option_list (db_activeFlush b)).

Lemma port_step b i : port_ok b -> cache_answers b (pn_cache i) ->
  let b' := (port_advance b (pn_core i) (pn_flush i) (pn_cache i)).1 in
  let e := port_edge b i in
  port_ok b' /\ qu_values (db_queue b) ++ pt_in e = pt_out e ++ qu_values (db_queue b') /\
  option_list (db_activeFlush b) ++ flushes (pt_in e) = pt_completed e ++ option_list (db_activeFlush b').
Proof.
  intros [Hq Hf] (Hw & Hfa & Hd). cbv zeta. unfold port_advance, port_edge. cbn [fst db_queue db_activeFlush pt_in pt_out pt_completed].
  set (pop := accepted_at (cg_Accepted (pn_cache i)) 0 || cg_FlushAccepted (pn_cache i)). set (push := port_push b (pn_core i) (pn_flush i)).
  assert (pop = true -> qu_values (db_queue b) <> []) as Hpop.
  { intros [H|H]%orb_true_iff; [destruct (Hw H) as (r & ? & E & _)|destruct (Hfa H) as (r & ? & E & _)]; unfold queue_head in E; by destruct (qu_values (db_queue b)). }
  assert (push <> None -> queue_ready (db_queue b) pop = true) as Hroom.
  { unfold push, port_push. destruct (queue_ready (db_queue b) false) eqn:E; [|done]. intros _. unfold queue_ready in *. rewrite andb_false_r, orb_false_r in E. by rewrite E. }
  assert (flushes (option_list push) = if accepts_flush push then option_list (pn_flush i) else []) as Ef.
  { unfold push, port_push. destruct (queue_ready (db_queue b) false); [|done]. destruct (mjoin (pn_core i !! 0%nat)); [done|]. by destruct (pn_flush i), (db_activeFlush b). }
  assert (accepts_flush push = true -> db_activeFlush b = None) as Hna.
  { unfold push, port_push. destruct (queue_ready (db_queue b) false); [|done]. destruct (mjoin (pn_core i !! 0%nat)); [done|]. by destruct (pn_flush i), (db_activeFlush b). }
  assert (qu_values (db_queue b) ++ option_list push = (if pop then option_list (queue_head (db_queue b)) else []) ++ qu_values (queue_update pop push (db_queue b))) as Eq. by apply queue_update_turn.
  split_and!; [split; [by apply queue_update_ok|]|done|].
  - apply (f_equal flushes) in Eq. rewrite !flushes_app in Eq. unfold flush_delivered in *. destruct (accepts_flush push) eqn:Ea.
    + rewrite (Hna eq_refl) in Hf. cbn [db_queue db_activeFlush]. assert (flushes (qu_values (db_queue b)) = []) as E0 by (by destruct Hf). rewrite E0, Ef in Eq. cbn [app] in Eq. right.
      destruct pop; [|symmetry; exact Eq]. specialize (Hpop eq_refl). unfold queue_head in Eq. destruct (qu_values (db_queue b)) as [|r l]; [done|]. cbn [head option_list] in Eq.
      unfold flushes in E0, Eq. cbn [omap list_omap] in E0, Eq. destruct (dp_flush r); [done|]. by rewrite Eq.
    + cbn [db_queue db_activeFlush]. rewrite Ef, app_nil_r in Eq. destruct (match cg_Flush (pn_cache i) with Some r => fr_Delivered r | None => false end).
      * left. rewrite (flushes_none _ (Hd eq_refl)) in Eq. symmetry in Eq. by apply app_nil in Eq as [_ ?].
      * destruct Hf as [E0|E1]; [left; rewrite E0 in Eq; symmetry in Eq; by apply app_nil in Eq as [_ ?]|]. rewrite E1 in Eq. destruct (db_activeFlush b) as [a|]; [|left; symmetry in Eq; by apply app_nil in Eq as [_ ?]].
        cbn [option_list] in *. symmetry in Eq. apply app_eq_unit in Eq as [[_ ->]|[_ ->]]; [by right|by left].
  - rewrite Ef. destruct (accepts_flush push) eqn:Ea; [|rewrite app_nil_r; by destruct (flush_delivered (pn_cache i)); [rewrite app_nil_r|]].
    rewrite (Hna eq_refl). by destruct (flush_delivered (pn_cache i)).
Qed.

(** The port is in order and loses nothing. Over any run of a fresh buffer in front of
    a cache that accepts what it is offered: what entered is what left followed by the
    queue, in order, which never exceeds its slots; the flushes that entered are those
    that completed followed by the active one, so at most one is under way; and a drained
    buffer has passed on everything and completed every flush. *)
Theorem dcache_port_in_order spec inputs b t : 0 <= bs_Size spec ->
  answers_hold (mkPortBuffer (empty_queue spec) None None 0 false) inputs -> port_run (mkPortBuffer (empty_queue spec) None None 0 false) inputs = Some (b, t) ->
  pt_in t = pt_out t ++ qu_values (db_queue b) /\ zlen (qu_values (db_queue b)) <= bs_Size (qu_spec (db_queue b)) /\
  flushes (pt_in t) = pt_completed t ++ option_list (db_activeFlush b) /\
  (Port_Drained b = true -> pt_in t = pt_out t /\ flushes (pt_in t) = pt_completed t).
Proof.
  intros Hs Ha Hrun. assert (forall inputs b0 b t, port_ok b0 -> answers_hold b0 inputs -> port_run b0 inputs = Some (b, t) ->
    port_ok b /\ qu_values (db_queue b0) ++ pt_in t = pt_out t ++ qu_values (db_queue b) /\ option_list (db_activeFlush b0) ++ flushes (pt_in t) = pt_completed t ++ option_list (db_activeFlush b)) as Hind.
  { clear. induction inputs as [|i inputs IH]; intros b0 b t Hok Ha Hrun; cbn [port_run answers_hold] in *.
    - injection Hrun as <- <-. cbn. by rewrite !app_nil_r.
    - destruct (port_validate b0 (pn_flush i)); [|done]. destruct (port_run _ inputs) as [[b' t']|] eqn:E; [|done]. injection Hrun as <- <-. destruct Ha as [Ha Hrest].
      destruct (port_step b0 i Hok Ha) as (Hok' & E1 & E2). destruct (IH _ _ _ Hok' Hrest E) as (Hok'' & E3 & E4). unfold port_edge in *. cbn [pt_in pt_out pt_completed] in *.
      split; [done|]. rewrite flushes_app, !app_assoc, E1, E2, <- !app_assoc, E3, E4. done. }
  destruct (Hind _ _ _ _ (conj Hs (or_introl eq_refl) : port_ok (mkPortBuffer (empty_queue spec) None None 0 false)) Ha Hrun) as ([Hq _] & E1 & E2). cbn [db_queue db_activeFlush empty_queue qu_values option_list app] in E1, E2.
  split_and!; [done|done|done|]. unfold Port_Drained, is_empty. rewrite !andb_true_iff, !bool_decide_eq_true. intros [[Hv Hf] _]. rewrite Hf, app_nil_r in E2. destruct (qu_values (db_queue b)); [|done]. by rewrite app_nil_r in E1.
Qed.

Definition port_word : WordRequest := mkWordRequest (mkIdentity 1 1 0 0 0 0 1 0) 7 64 false false false 15 zero_word.
Definition port_flush : Flush := mkFlush (mkIdentity 1 1 0 0 0 0 1 0) 9.
Definition quiet_cache (word flush : bool) (reply : option FlushReply) : CacheEdge := mkCacheEdge [word; false] [] [] flush reply [].
Definition port_inputs : list portInput :=
  [mkPortInput [Some port_word; None] (Some port_flush) (quiet_cache false false None); mkPortInput [None; None] (Some port_flush) (quiet_cache true false None);
   mkPortInput [None; None] None (quiet_cache false true None); mkPortInput [None; None] None (quiet_cache false false (Some (mkFlushReply port_flush true None)))].

Lemma dcache_port_in_order_witness : exists b t, port_run (mkPortBuffer (empty_queue (mkBufferSpec "b-dflush" 2 1)) None None 0 false) port_inputs = Some (b, t) /\
  pt_in t = pt_out t /\ flushes (pt_in t) = [port_flush].
Proof.
  set (spec := mkBufferSpec "b-dflush" 2 1).
  destruct (port_run (mkPortBuffer (empty_queue spec) None None 0 false) port_inputs) as [[b t]|] eqn:E; [|exfalso; vm_compute in E; discriminate E].
  exists b, t. split; [done|]. destruct (dcache_port_in_order spec port_inputs b t ltac:(cbn; lia)) as (_ & _ & _ & Hd); [|done|].
  - cbn [answers_hold port_inputs]. unfold cache_answers. vm_compute. split_and!; intros; try done; repeat constructor; eauto.
  - destruct (Hd ltac:(vm_compute in E; by injection E as <- <-)) as [H1 H2]. split; [done|]. vm_compute in E. by injection E as <- <-.
Defined.
