(* ===== verification/Cache.v ===== *)
(** * One cache (src/timing/memsys/cache.go)

    The banks of an instruction or data cache between the core ports and the external
    backend: response and request crossbars, the bypass of non-cacheable words, the
    outer buffers, and the flush control.  [Cache_Step] is one clock edge.

    The topology has one core port, one memory port and one bank per index
    ([topology_ok]); a list of the code that is indexed by any of them has that length. *)

From S2P Require Import Prelude Memory TimingIR Memsys CacheArray Mshr CacheBank.

#[local] Open Scope Z_scope.
#[local] Open Scope go_scope.

Inductive cachePacketKind := packetFill | packetWriteback | packetNC | packetFlush.

#[export] Instance cachePacketKind_eq_dec : EqDecision cachePacketKind. Proof. solve_decision. Defined.

Record cachePacket := mkPacket {
  pk_acceptedCycle : Z;
  pk_request : Request;
  pk_kind : cachePacketKind;
  pk_handle : mshrHandle;
  pk_origin : WordRequest;
  pk_port : Z
}.

Record cacheIncoming := mkIncoming { in_response : Response; in_packet : cachePacket }.

Inductive cacheControl := controlIdle | controlPulse | controlBanks | controlTail | controlTicket | controlReturn | controlRelease.

#[export] Instance cacheControl_eq_dec : EqDecision cacheControl. Proof. solve_decision. Defined.

Record CacheInput := mkCacheInput {
  cn_Requests : list WordOffer;
  cn_ResponseReady : list bool;
  cn_Memory : Edge;
  cn_Flush : FlushOffer;
  cn_FlushReady : bool
}.

(** The flush machine and the kept write error. *)
Record flushControl := mkFlushControl {
  fc_control : cacheControl;
  fc_inline : bool;
  fc_released : list bool;
  fc_flush : Flush;
  fc_done : list bool;
  fc_flushErr : option error;
  fc_writeErr : option error;
  fc_writeErrSequence : Z
}.

Record Cache := mkCache {
  ch_spec : CacheSpec;
  ch_banks : list cacheBank;
  ch_core : list (cacheQueue WordResponse);
  ch_coreOut : list (cacheQueue WordResponse);
  ch_memory : list (cacheQueue cachePacket);
  ch_memoryOut : list (cacheQueue cachePacket);
  ch_mrsq : list (cacheQueue cacheIncoming);
  ch_refill : list (cacheQueue bankFill);
  ch_requestRR : list Z;
  ch_responseRR : list Z;
  ch_ncRequestRR : list Z;
  ch_ncResponseRR : list Z;
  ch_sequence : list Z;
  ch_last : list Z;
  ch_used : list bool;
  ch_held : list WordOffer;
  ch_sent : list (gmap Z cachePacket);
  ch_heldFlush : FlushOffer;
  ch_lastFlush : Z;
  ch_usedFlush : bool;
  ch_flush : flushControl;
  ch_cycle : Z;
  ch_started : bool
}.

(** An element of a list of ports. *)
Definition nth_port {A} (d : A) (l : list A) (i : Z) : A := default d (l !! Z.to_nat i).
Definition set_port {A} (i : Z) (x : A) (l : list A) : list A := <[Z.to_nat i := x]> l.
Definition port_list (n : Z) : list Z := map Z.of_nat (seq 0 (Z.to_nat n)).
Definition queue_at {A} (l : list (cacheQueue A)) (i : Z) : cacheQueue A := nth_port (empty_queue no_buffer) l i.

Definition no_flush : Flush := mkFlush no_identity 0.
Definition no_request : Request := mkRequest no_identity 0 OpRead 0 0 zero_sector.
Definition no_packet : cachePacket := mkPacket 0 no_request packetFill no_handle no_word 0.

(** A cache in its first state; the bypass has its buffers. *)
Definition fresh_cache (s : CacheSpec) (coreOut : list (cacheQueue WordResponse)) (memoryOut : list (cacheQueue cachePacket)) : Cache :=
  let core := Z.to_nat (sp_CorePorts s) in
  let memory := Z.to_nat (sp_MemoryPorts s) in
  let banks := Z.to_nat (sp_Banks s) in
  mkCache s (map (newCacheBank s) (port_list (sp_Banks s))) (replicate core (empty_queue (sp_OuterCoreResponse s))) coreOut
    (replicate memory (empty_queue (sp_OuterMemoryRequest s))) memoryOut (replicate memory (empty_queue (sp_MemoryResponse s)))
    (replicate banks (empty_queue (sp_RefillCrossbar s))) (replicate banks 0) (replicate core 0) (replicate memory 0) (replicate core 0) (replicate memory 0)
    (replicate core 0) (replicate core false) (replicate core None) (replicate memory ∅) None 0 false
    (mkFlushControl controlIdle false [] no_flush (replicate banks false) None None 0) 0 false.

Definition NewCache `{TimingDocument} (kind : CacheKind) : result Cache :=
  let? s := FrozenCacheSpec kind in
  if is_data kind then
    let? rsp := Buffer "b-dcache-nc-response" in
    let? req := Buffer "b-dcache-nc-memory-request" in
    Ok (fresh_cache s (replicate (Z.to_nat (sp_CorePorts s)) (empty_queue rsp)) (replicate (Z.to_nat (sp_MemoryPorts s)) (empty_queue req)))
  else Ok (fresh_cache s [] []).

Definition is_data_cache (c : Cache) : bool := is_data (sp_Kind (ch_spec c)).
Definition finalMemory (c : Cache) : list (cacheQueue cachePacket) := if is_data_cache c then ch_memoryOut c else ch_memory c.
Definition finalCore (c : Cache) : list (cacheQueue WordResponse) := if is_data_cache c then ch_coreOut c else ch_core c.

Definition ports (c : Cache) : list Z := port_list (sp_CorePorts (ch_spec c)).

Definition MemoryOffers (c : Cache) : list Offer := map (fun q => pk_request <$> queue_head q) (finalMemory c).
Definition Cache_Responses (c : Cache) : list WordReply := map (fun q => mkWordReply (queue_head q) false) (finalCore c).

(** The packet a response answers. *)
Definition sent_packet (c : Cache) (port : Z) (r : Response) : option cachePacket := nth_port ∅ (ch_sent c) port !! id_Transaction (rs_Identity r).

Definition nonempty {A} (q : cacheQueue A) : bool := negb (is_empty (qu_values q)).

Definition MemoryResponseReady (c : Cache) (port : Z) (r : Response) : bool :=
  if (port <? 0) || (port >=? zlen (ch_sent c)) then false
  else match sent_packet c port r with
       | None => false
       | Some p =>
           match pk_kind p with
           | packetFill => if bs_Size (sp_MemoryResponse (ch_spec c)) =? 0 then queue_ready (queue_at (ch_refill c) port) false else queue_ready (queue_at (ch_mrsq c) port) false
           | packetNC =>
               if wq_Write (pk_origin p) then true
               else queue_ready (queue_at (ch_coreOut c) port) false &&
                    bool_decide (pick (nth_port 0 (ch_ncResponseRR c) port) [true; nonempty (queue_at (ch_core c) port)] = Some 0)
           | _ => true
           end
       end.

(** ** Packets *)

Definition MaxUint64 : Z := 2 ^ 64 - 1.

Definition with_wire (n : Z) (p : cachePacket) : cachePacket :=
  let r := pk_request p in
  mkPacket (pk_acceptedCycle p) (mkRequest (with_transaction n (rq_Identity r)) (rq_Tag r) (rq_Operation r) (rq_Address r) (rq_ByteEnable r) (rq_Data r))
    (pk_kind p) (pk_handle p) (pk_origin p) (pk_port p).

(** The port's next external transaction. *)
Definition wire (port : Z) (p : cachePacket) (sequence : list Z) : cachePacket * list Z :=
  let n := u64 (nth_port 0 sequence port + 1) in (with_wire n p, set_port port n sequence).

Definition fromBank (port : Z) (v : bankMemoryRequest) : cachePacket :=
  let '(op, kind, identity) := if bm_write v then (OpWrite, packetWriteback, no_identity) else (OpRead, packetFill, bm_identity v) in
  mkPacket 0 (mkRequest identity (u64 (mh_slot (bm_handle v))) op (bm_address v) MaxUint64 (bm_data v)) kind (bm_handle v) no_word port.

Definition noncached (s : CacheSpec) (port : Z) (r : WordRequest) : cachePacket :=
  let offset := wq_Address r mod SectorBytes in
  mkPacket 0 (mkRequest (wq_Identity r) (wq_Tag r) (if wq_Write r then OpWrite else OpRead) (wq_Address r .&^ (SectorBytes - 1)) (u64 (wq_ByteEnable r << offset))
                (splice zero_sector (Z.to_nat offset) (slice (wq_Data r) 0 (Z.to_nat (sp_WordBytes s)))))
    packetNC no_handle r port.

(** ** Checks *)

Definition client_check (c : Cache) (held : WordOffer) (used : bool) (last : Z) (o : WordOffer) : result unit :=
  check negb (bool_decide (held <> None /\ held <> o)) else Errorf "cache client changed stalled request" in
  match o with
  | None => Ok tt
  | Some r =>
      check negb (used && (id_Transaction (wq_Identity r) <=? last)) else Errorf "stale cache client transaction" in
      match ch_banks c !! Z.to_nat (da_bank (DecodeAddress (ch_spec c) (wq_Address r))) with
      | None => Err (GoPanic "index out of range")
      | Some b =>
          let? _ := requestValid b r in
          check negb (wq_NonCacheable r && negb (is_data_cache c)) else Errorf "instruction cache has no NC path" in Ok tt
      end
  end.

Definition response_mask_of (r : Request) : Z := match rq_Operation r with OpRead => MaxUint64 | OpVisibility => 0 | _ => rq_ByteEnable r end.

Definition reply_check (c : Cache) (cycle : Z) (port : Z) (accepted : bool) (r : Reply) : result unit :=
  check negb (nth_port 0 (ch_sequence c) port =? MaxUint64) else Errorf "cache external transaction exhausted" in
  check negb (accepted && negb (is_some (nth_port None (MemoryOffers c) port))) else Errorf "external acceptance without cache offer" in
  match rp_Response r with
  | None => check negb (rp_Delivered r) else Errorf "invalid external response handshake" in Ok tt
  | Some rs =>
      match sent_packet c port rs with
      | None => Err (Errorf "foreign or repeated cache memory response")
      | Some p =>
          let q := pk_request p in
          check bool_decide (rq_Identity q = rs_Identity rs) && (rq_Tag q =? rs_Tag rs) && bool_decide (rq_Operation q = rs_Operation rs)
          else Errorf "foreign or repeated cache memory response" in
          check negb (rp_Delivered r && negb (MemoryResponseReady c port rs)) else Errorf "cache response delivered under backpressure" in
          check (rs_AcceptedCycle rs =? pk_acceptedCycle p) && negb (rs_CompletedCycle rs <=? pk_acceptedCycle p) && negb (rs_CompletedCycle rs >? cycle) && negb (rs_Sequence rs =? 0)
          else Errorf "invalid cache memory response timing" in
          check rs_ByteEnable rs =? response_mask_of q else Errorf "invalid cache memory response mask" in
          if decide (pk_kind p = packetFill)
          then match ch_banks c !! Z.to_nat port with
               | None => Err (GoPanic "index out of range")
               | Some b => let? _ := mshr_entry (cb_mshr b) (pk_handle p) in Ok tt
               end
          else Ok tt
      end
  end.

Definition cache_check (c : Cache) (cycle : Z) (i : CacheInput) : result unit :=
  let s := ch_spec c in
  check (zlen (cn_Requests i) =? sp_CorePorts s) && (zlen (cn_ResponseReady i) =? sp_CorePorts s) && (zlen (eg_Accepted (cn_Memory i)) =? sp_MemoryPorts s) &&
        (zlen (eg_Replies (cn_Memory i)) =? sp_MemoryPorts s) else Errorf "cache port count mismatch" in
  check negb (ch_started c && ((ch_cycle c =? MaxUint64) || (cycle <>? ch_cycle c + 1))) else Errorf "noncontiguous cache cycle" in
  let? _ := foldM (fun _ p => client_check c (nth_port None (ch_held c) p) (nth_port false (ch_used c) p) (nth_port 0 (ch_last c) p) (nth_port None (cn_Requests i) p)) tt (ports c) in
  check negb (bool_decide (ch_heldFlush c <> None /\ ch_heldFlush c <> cn_Flush i)) else Errorf "changed stalled cache flush" in
  check negb (match cn_Flush i with Some f => ch_usedFlush c && (id_Transaction (fl_Identity f) <=? ch_lastFlush c) | None => false end) else Errorf "stale cache flush transaction" in
  foldM (fun _ p => reply_check c cycle p (nth_port false (eg_Accepted (cn_Memory i)) p) (nth_port no_reply (eg_Replies (cn_Memory i)) p)) tt (ports c).

(** ** Replies of the backend *)

Definition reply_of (i : CacheInput) (port : Z) : Reply := nth_port no_reply (eg_Replies (cn_Memory i)) port.
Definition memory_accepted (i : CacheInput) (port : Z) : bool := nth_port false (eg_Accepted (cn_Memory i)) port.
Definition request_of (i : CacheInput) (port : Z) : WordOffer := nth_port None (cn_Requests i) port.

(** The response delivered on this edge and the packet it answers. *)
Definition delivered_packet (c : Cache) (i : CacheInput) (port : Z) : option (Response * cachePacket) :=
  match reply_of i port with
  | mkReply (Some r) true => Some (r, default no_packet (sent_packet c port r))
  | _ => None
  end.

(** A non-cacheable load whose response is offered. *)
Definition nc_reply (c : Cache) (i : CacheInput) (port : Z) : option (Response * cachePacket) :=
  match rp_Response (reply_of i port) with
  | Some r => match sent_packet c port r with
              | Some p => if bool_decide (pk_kind p = packetNC) && negb (wq_Write (pk_origin p)) then Some (r, p) else None
              | None => None
              end
  | None => None
  end.

Definition nc_response (s : CacheSpec) (r : Response) (p : cachePacket) : WordResponse :=
  let offset := wq_Address (pk_origin p) mod SectorBytes in
  mkWordResponse (wq_Identity (pk_origin p)) (wq_Tag (pk_origin p))
    (match rs_Err r with Some _ => zero_word | None => splice zero_word 0 (slice (rs_Data r) (Z.to_nat offset) (Z.to_nat (sp_WordBytes s))) end)
    (full_enable s) (rs_Err r).

(** What moves on the response side of a port. *)
Record coreMove := mkCoreMove { cm_push : option WordResponse; cm_pop : bool; cm_rr : Z }.

Definition reply_delivered (c : Cache) (i : CacheInput) (port : Z) : bool := nonempty (queue_at (finalCore c) port) && nth_port false (cn_ResponseReady i) port.

Definition core_move (c : Cache) (i : CacheInput) (port : Z) : coreMove :=
  let rr := nth_port 0 (ch_ncResponseRR c) port in
  let stay := mkCoreMove None false rr in
  if negb (is_data_cache c) then mkCoreMove None (reply_delivered c i port) rr
  else if negb (queue_ready (queue_at (ch_coreOut c) port) false) then stay
  else match pick rr [is_some (nc_reply c i port); nonempty (queue_at (ch_core c) port)] with
       | None => stay
       | Some choice =>
           if choice =? 1 then mkCoreMove (queue_head (queue_at (ch_core c) port)) true 0
           else if rp_Delivered (reply_of i port) then mkCoreMove ((fun '(r, p) => nc_response (ch_spec c) r p) <$> nc_reply c i port) false 1
           else stay
       end.

Definition incoming_at (c : Cache) (i : CacheInput) (port : Z) : option cacheIncoming :=
  match delivered_packet c i port with
  | Some (r, p) => if decide (pk_kind p = packetFill) then Some (mkIncoming r p) else None
  | None => None
  end.

Definition with_flush_err (e : option error) (control : cacheControl) (f : flushControl) : flushControl :=
  mkFlushControl control (fc_inline f) (fc_released f) (fc_flush f) (fc_done f) e (fc_writeErr f) (fc_writeErrSequence f).
Definition with_write_err (e : option error) (sequence : Z) (f : flushControl) : flushControl :=
  mkFlushControl (fc_control f) (fc_inline f) (fc_released f) (fc_flush f) (fc_done f) (fc_flushErr f) e sequence.

(** The outstanding packets, the control and the events after the replies of the ports. *)
Record received := mkReceived { rd_sent : list (gmap Z cachePacket); rd_flush : flushControl; rd_stores : list StoreReceipt; rd_errors : list Response }.

(** The first write error in acceptance order is kept. *)
Definition keep_write_error (r : Response) (f : flushControl) : flushControl :=
  match fc_writeErr f with
  | Some _ => if rs_Sequence r <? fc_writeErrSequence f then with_write_err (rs_Err r) (rs_Sequence r) f else f
  | None => with_write_err (rs_Err r) (rs_Sequence r) f
  end.

Definition or_error (a b : option error) : option error := match a with Some _ => a | None => b end.

Definition receive_port (c : Cache) (i : CacheInput) (st : received) (port : Z) : received :=
  match delivered_packet c i port with
  | None => st
  | Some (r, p) =>
      let sent := set_port port (delete (id_Transaction (rs_Identity r)) (nth_port ∅ (rd_sent st) port)) (rd_sent st) in
      match pk_kind p with
      | packetFill => mkReceived sent (rd_flush st) (rd_stores st) (rd_errors st)
      | packetWriteback =>
          match rs_Err r with
          | Some _ => mkReceived sent (keep_write_error r (rd_flush st)) (rd_stores st) (rd_errors st ++ [r])
          | None => mkReceived sent (rd_flush st) (rd_stores st) (rd_errors st)
          end
      | packetNC =>
          if wq_Write (pk_origin p) then mkReceived sent (rd_flush st) (rd_stores st ++ [mkStoreReceipt (pk_port p) (pk_origin p) (rs_Err r)]) (rd_errors st)
          else mkReceived sent (rd_flush st) (rd_stores st) (rd_errors st)
      | packetFlush => mkReceived sent (with_flush_err (or_error (rs_Err r) (fc_writeErr (rd_flush st))) controlReturn (rd_flush st)) (rd_stores st) (rd_errors st)
      end
  end.

Definition receive (c : Cache) (i : CacheInput) : received :=
  let st := fold_left (receive_port c i) (ports c) (mkReceived (ch_sent c) (ch_flush c) [] []) in
  let f := rd_flush st in
  if bool_decide (fc_control f = controlReturn) then mkReceived (rd_sent st) (with_flush_err (or_error (fc_flushErr f) (fc_writeErr f)) controlReturn f) (rd_stores st) (rd_errors st)
  else st.

(** ** Flushes and who may enter *)

Definition flush_masked (i : CacheInput) (port : Z) : bool := match request_of i port with Some r => wq_Flush r && negb (wq_NonCacheable r) | None => false end.
Definition any_flush (c : Cache) (i : CacheInput) : bool := existsb (flush_masked i) (ports c).

(** [f] is the control after the replies. *)
Definition start_inline (c : Cache) (f : flushControl) (i : CacheInput) : bool := bool_decide (fc_control f = controlIdle) && any_flush c i && negb (is_some (cn_Flush i)).
Definition flush_accepted (f : flushControl) (i : CacheInput) : bool := bool_decide (fc_control f = controlIdle) && is_some (cn_Flush i).
Definition block_core (c : Cache) (f : flushControl) (i : CacheInput) : bool := bool_decide (fc_control f <> controlIdle) || is_some (cn_Flush i) || any_flush c i.

Definition begin_flush (c : Cache) (f : flushControl) (i : CacheInput) : flushControl :=
  let cleared := map (fun _ => false) (fc_done f) in
  let f := if start_inline c f i then mkFlushControl (fc_control f) true (fc_released f) (fc_flush f) cleared (fc_flushErr f) (fc_writeErr f) (fc_writeErrSequence f) else f in
  match cn_Flush i with
  | Some flush => if bool_decide (fc_control f = controlIdle) then mkFlushControl (fc_control f) false (fc_released f) flush cleared None (fc_writeErr f) (fc_writeErrSequence f) else f
  | None => f
  end.

(** [f'] is the control after the flush has begun. *)
Definition port_enabled (c : Cache) (f f' : flushControl) (i : CacheInput) (port : Z) : bool :=
  if fc_inline f' && bool_decide (fc_control f = controlRelease) then negb (any_flush c i) || nth_port false (fc_released f) port
  else negb (block_core c f i).

(** What moves on the memory side of a port. *)
Record memoryMove := mkMemoryMove { mm_push : option cachePacket; mm_pop : bool; mm_rr : Z; mm_accepted : bool }.

Definition memory_move (c : Cache) (f f' : flushControl) (i : CacheInput) (port : Z) : memoryMove :=
  let rr := nth_port 0 (ch_ncRequestRR c) port in
  if negb (is_data_cache c) then mkMemoryMove None (memory_accepted i port) rr false
  else
    let nc := match request_of i port with Some r => if (negb (block_core c f i) || fc_inline f') && wq_NonCacheable r then Some r else None | None => None end in
    let stay := mkMemoryMove None false rr false in
    if negb (queue_ready (queue_at (ch_memoryOut c) port) false) then stay
    else match pick rr [is_some nc; nonempty (queue_at (ch_memory c) port)] with
         | None => stay
         | Some choice =>
             let p := if choice =? 0 then noncached (ch_spec c) port (default no_word nc) else default no_packet (queue_head (queue_at (ch_memory c) port)) in
             mkMemoryMove (Some (fst (wire port p (ch_sequence c)))) (negb (choice =? 0)) ((choice + 1) mod 2) (choice =? 0)
         end.

Definition moved_sequence (c : Cache) (f f' : flushControl) (i : CacheInput) : list Z :=
  map (fun port => match mm_push (memory_move c f f' i port) with Some p => id_Transaction (rq_Identity (pk_request p)) | None => nth_port 0 (ch_sequence c) port end) (ports c).

(** ** The banks *)

Definition bank_at (c : Cache) (bank : Z) : cacheBank := default (newCacheBank (ch_spec c) bank) (ch_banks c !! Z.to_nat bank).

Definition response_winner (c : Cache) (port : Z) : option Z :=
  pick (nth_port 0 (ch_responseRR c) port) (map (fun b => match head (cb_responses b) with Some r => br_port r =? port | None => false end) (ch_banks c)).

Definition request_winner (c : Cache) (f f' : flushControl) (i : CacheInput) (bank : Z) : option Z :=
  pick (nth_port 0 (ch_requestRR c) bank)
    (map (fun port => match request_of i port with
                      | Some r => port_enabled c f f' i port && negb (wq_NonCacheable r) && (da_bank (DecodeAddress (ch_spec c) (wq_Address r)) =? bank)
                      | None => false
                      end) (ports c)).

Definition bank_input (c : Cache) (f f' : flushControl) (i : CacheInput) (bank : Z) : bankInput :=
  let winner := request_winner c f f' i bank in
  mkBankInput (match winner with Some p => request_of i p | None => None end) (default 0 winner)
    (existsb (fun port => bool_decide (response_winner c port = Some bank) && queue_ready (queue_at (ch_core c) port) (cm_pop (core_move c i port))) (ports c))
    (queue_ready (queue_at (ch_memory c) bank) (mm_pop (memory_move c f f' i bank)))
    (queue_head (queue_at (ch_refill c) bank)) (bool_decide (fc_control f = controlPulse)).

(** The fill that enters the refill crossbar of a bank, with or without a response queue. *)
Definition unqueued (c : Cache) : bool := bs_Size (sp_MemoryResponse (ch_spec c)) =? 0.

Definition refill_push (c : Cache) (i : CacheInput) (bank : Z) : option bankFill :=
  match (if unqueued c then incoming_at c i bank else queue_head (queue_at (ch_mrsq c) bank)) with
  | Some v => if queue_ready (queue_at (ch_refill c) bank) false then Some (mkBankFill (pk_handle (in_packet v)) (rs_Data (in_response v)) (rs_Err (in_response v))) else None
  | None => None
  end.

Definition mrsq_pop (c : Cache) (i : CacheInput) (bank : Z) : bool := is_some (refill_push c i bank) && negb (unqueued c).

Definition tail_empty (c : Cache) : bool :=
  forallb (fun bank => bank_empty (bank_at c bank) && (cb_reserved (bank_at c bank) =? 0) && negb (nonempty (queue_at (ch_memory c) bank)) &&
                       (negb (is_data_cache c) || negb (nonempty (queue_at (ch_memoryOut c) bank)))) (ports c).

(** What the loop over the banks has changed and pushed so far. *)
Record bankWork := mkBankWork {
  bw_banks : list cacheBank;
  bw_requestRR : list Z;
  bw_responseRR : list Z;
  bw_sequence : list Z;
  bw_refill : list (cacheQueue bankFill);
  bw_done : list bool;
  bw_accepted : list bool;
  bw_corePush : list (option WordResponse);
  bw_memoryPush : list (option cachePacket);
  bw_stores : list StoreReceipt
}.

(** The edge of one bank reaches the ports. *)
Definition settle_bank (c : Cache) (f f' : flushControl) (i : CacheInput) (bank : Z) (b : cacheBank) (r : bankEdge) (st : bankWork) : bankWork :=
  let winner := default 0 (request_winner c f f' i bank) in
  let response := if be_responseDelivered r then be_response r else None in
  let '(memoryPush, sequence) := match (if be_memoryAccepted r then be_memory r else None) with
    | Some v =>
        let p := fromBank bank v in
        let '(p, sequence) := if is_data_cache c then (p, bw_sequence st) else wire bank p (bw_sequence st) in
        (set_port bank (Some p) (bw_memoryPush st), sequence)
    | None => (bw_memoryPush st, bw_sequence st)
    end in
  mkBankWork (set_port bank b (bw_banks st))
    (if be_accepted r then set_port bank ((winner + 1) mod sp_CorePorts (ch_spec c)) (bw_requestRR st) else bw_requestRR st)
    (match response with Some v => set_port (br_port v) ((bank + 1) mod sp_Banks (ch_spec c)) (bw_responseRR st) | None => bw_responseRR st end)
    sequence
    (set_port bank (queue_update (be_fillAccepted r) (refill_push c i bank) (queue_at (bw_refill st) bank)) (bw_refill st))
    (if be_flushDone r then set_port bank true (bw_done st) else bw_done st)
    (if be_accepted r then set_port winner true (bw_accepted st) else bw_accepted st)
    (match response with Some v => set_port (br_port v) (Some (br_response v)) (bw_corePush st) | None => bw_corePush st end)
    memoryPush
    (match be_storeApplied r with Some w => bw_stores st ++ [mkStoreReceipt (be_storePort r) w (be_storeError r)] | None => bw_stores st end).

(** An error of a bank ends the loop. *)
Definition bank_turn (c : Cache) (f f' : flushControl) (i : CacheInput) (st : bankWork * result unit) (bank : Z) : bankWork * result unit :=
  match st with
  | (st, Err e) => (st, Err e)
  | (st, Ok _) =>
      match bank_step (bank_at c bank) (bank_input c f f' i bank) with
      | (b, Err e) => (mkBankWork (set_port bank b (bw_banks st)) (bw_requestRR st) (bw_responseRR st) (bw_sequence st) (bw_refill st) (bw_done st) (bw_accepted st) (bw_corePush st)
                         (bw_memoryPush st) (bw_stores st), Err e)
      | (b, Ok r) => (settle_bank c f f' i bank b r st, Ok tt)
      end
  end.


Definition banks_edge (c : Cache) (f f' : flushControl) (i : CacheInput) : bankWork * result unit :=
  fold_left (bank_turn c f f' i) (ports c)
    (mkBankWork (ch_banks c) (ch_requestRR c) (ch_responseRR c) (moved_sequence c f f' i) (ch_refill c) (fc_done f')
       (map (fun port => mm_accepted (memory_move c f f' i port)) (ports c)) (map (fun _ => None) (ports c)) (map (fun _ => None) (ports c))
       (rd_stores (receive c i)), Ok tt).

(** ** The flush control *)

Definition with_control (control : cacheControl) (inline : bool) (released : list bool) (f : flushControl) : flushControl :=
  mkFlushControl control inline released (fc_flush f) (fc_done f) (fc_flushErr f) (fc_writeErr f) (fc_writeErrSequence f).

Definition with_done (done : list bool) (f : flushControl) : flushControl :=
  mkFlushControl (fc_control f) (fc_inline f) (fc_released f) (fc_flush f) done (fc_flushErr f) (fc_writeErr f) (fc_writeErrSequence f).

Definition released_after (released accepted : list bool) : list bool := zip_with (fun r a => r && negb a) released accepted.

Definition all_set (l : list bool) : bool := forallb id l.

(** The flush's own packet. *)
Definition flushPacket (flush : Flush) : cachePacket :=
  mkPacket 0 (mkRequest (fl_Identity flush) (fl_Tag flush) OpVisibility 0 0 zero_sector) packetFlush no_handle no_word 0.

Definition tail_leaves (c : Cache) (f f' : flushControl) (i : CacheInput) : bool :=
  tail_empty c && queue_ready (queue_at (ch_memory c) 0) (mm_pop (memory_move c f f' i 0)).

(** [f] is the control before the edge, [f'] after the flush has begun and the banks have
    reported. *)
Definition next_control (c : Cache) (f f' : flushControl) (i : CacheInput) (accepted : list bool) : flushControl :=
  match fc_control f with
  | controlIdle => if flush_accepted f i || start_inline c f i then with_control controlPulse (fc_inline f') (fc_released f') f' else f'
  | controlPulse => with_control controlBanks (fc_inline f') (fc_released f') f'
  | controlBanks =>
      if all_set (fc_done f') then
        if fc_inline f' then with_control controlRelease true (map (flush_masked i) (ports c)) f'
        else with_control controlTail false (fc_released f') f'
      else f'
  | controlRelease =>
      let released := released_after (fc_released f') accepted in
      if existsb id released then with_control controlRelease (fc_inline f') released f' else with_control controlIdle false released f'
  | controlTail => if tail_leaves c f f' i then with_control controlTicket (fc_inline f') (fc_released f') f' else f'
  | controlTicket => f'
  | controlReturn => if cn_FlushReady i then with_control controlIdle (fc_inline f') (fc_released f') f' else f'
  end.

(** The ticket leaves through port 0. *)
Definition flush_pushed (c : Cache) (f f' : flushControl) (i : CacheInput) (sequence : list Z) (push : list (option cachePacket)) :
  list Z * list (option cachePacket) :=
  if bool_decide (fc_control f = controlTail) && tail_leaves c f f' i then
    let p := flushPacket (fc_flush f') in
    let '(p, sequence) := if is_data_cache c then (p, sequence) else wire 0 p sequence in
    (sequence, set_port 0 (Some p) push)
  else (sequence, push).

(** ** One edge *)

Definition with_cycle (cycle : Z) (p : cachePacket) : cachePacket := mkPacket cycle (pk_request p) (pk_kind p) (pk_handle p) (pk_origin p) (pk_port p).

Definition sent_after (c : Cache) (cycle : Z) (i : CacheInput) (sent : list (gmap Z cachePacket)) (port : Z) : gmap Z cachePacket :=
  let m := nth_port ∅ sent port in
  if memory_accepted i port
  then match queue_head (queue_at (finalMemory c) port) with
       | Some p => <[id_Transaction (rq_Identity (pk_request p)) := with_cycle cycle p]> m
       | None => m
       end
  else m.

Definition held_after (i : CacheInput) (accepted : list bool) (port : Z) : WordOffer := if nth_port false accepted port then None else request_of i port.
Definition last_after (c : Cache) (i : CacheInput) (accepted : list bool) (port : Z) : Z :=
  if nth_port false accepted port then match request_of i port with Some r => id_Transaction (wq_Identity r) | None => 0 end else nth_port 0 (ch_last c) port.

(** [f] and [f'] are the control before the edge and after the flush has begun. *)
Definition Cache_commit (c : Cache) (cycle : Z) (i : CacheInput) (f f' : flushControl) (w : bankWork) : Cache :=
  let mm := memory_move c f f' i in
  let cm := core_move c i in
  let accepted := bw_accepted w in
  let '(sequence, memoryPush) := flush_pushed c f f' i (bw_sequence w) (bw_memoryPush w) in
  let data {A} (g : Z -> cacheQueue A) (old : list (cacheQueue A)) := if is_data_cache c then map g (ports c) else old in
  mkCache (ch_spec c) (bw_banks w)
    (map (fun p => queue_update (cm_pop (cm p)) (nth_port None (bw_corePush w) p) (queue_at (ch_core c) p)) (ports c))
    (data (fun p => queue_update (reply_delivered c i p) (cm_push (cm p)) (queue_at (ch_coreOut c) p)) (ch_coreOut c))
    (map (fun p => queue_update (mm_pop (mm p)) (nth_port None memoryPush p) (queue_at (ch_memory c) p)) (ports c))
    (data (fun p => queue_update (memory_accepted i p) (mm_push (mm p)) (queue_at (ch_memoryOut c) p)) (ch_memoryOut c))
    (if unqueued c then ch_mrsq c else map (fun p => queue_update (mrsq_pop c i p) (incoming_at c i p) (queue_at (ch_mrsq c) p)) (ports c))
    (bw_refill w) (bw_requestRR w) (bw_responseRR w) (map (fun p => mm_rr (mm p)) (ports c)) (map (fun p => cm_rr (cm p)) (ports c)) sequence
    (map (last_after c i accepted) (ports c)) (map (fun p => nth_port false (ch_used c) p || nth_port false accepted p) (ports c))
    (map (held_after i accepted) (ports c)) (map (sent_after c cycle i (rd_sent (receive c i))) (ports c))
    (if flush_accepted f i then None else cn_Flush i)
    (match cn_Flush i with Some flush => if flush_accepted f i then id_Transaction (fl_Identity flush) else ch_lastFlush c | None => ch_lastFlush c end)
    (ch_usedFlush c || flush_accepted f i) (next_control c f (with_done (bw_done w) f') i accepted) cycle true.

Definition Cache_edge (c : Cache) (i : CacheInput) (f : flushControl) (w : bankWork) : CacheEdge :=
  mkCacheEdge (bw_accepted w) (map (fun p => mkWordReply (queue_head (queue_at (finalCore c) p)) (reply_delivered c i p)) (ports c)) (bw_stores w) (flush_accepted f i)
    (if bool_decide (fc_control f = controlReturn) then Some (mkFlushReply (fc_flush f) (cn_FlushReady i) (fc_flushErr f)) else None) (rd_errors (receive c i)).

(** What an error of a bank leaves behind. *)
Definition Cache_failed (c : Cache) (i : CacheInput) (f f' : flushControl) (w : bankWork) : Cache :=
  mkCache (ch_spec c) (bw_banks w) (ch_core c) (ch_coreOut c) (ch_memory c) (ch_memoryOut c) (ch_mrsq c) (bw_refill w) (bw_requestRR w) (bw_responseRR w)
    (map (fun p => mm_rr (memory_move c f f' i p)) (ports c)) (map (fun p => cm_rr (core_move c i p)) (ports c)) (bw_sequence w) (ch_last c) (ch_used c) (ch_held c)
    (rd_sent (receive c i)) (ch_heldFlush c) (ch_lastFlush c) (ch_usedFlush c) (with_done (bw_done w) f') (ch_cycle c) (ch_started c).

Definition Cache_Step (c : Cache) (cycle : Z) (i : CacheInput) : Cache * result CacheEdge :=
  match cache_check c cycle i with
  | Err e => (c, Err e)
  | Ok _ =>
      let f := rd_flush (receive c i) in
      let f' := begin_flush c f i in
      match banks_edge c f f' i with
      | (w, Err e) => (Cache_failed c i f f' w, Err e)
      | (w, Ok _) => (Cache_commit c cycle i f f' w, Ok (Cache_edge c i f w))
      end
  end.

(** ** Views *)

Definition Cache_Drained (c : Cache) : bool :=
  bool_decide (fc_control (ch_flush c) = controlIdle) &&
  forallb (fun p => bank_drained (bank_at c p) && negb (nonempty (queue_at (ch_core c) p)) && negb (nonempty (queue_at (ch_memory c) p)) && negb (nonempty (queue_at (ch_mrsq c) p)) &&
                    negb (nonempty (queue_at (ch_refill c) p)) && bool_decide (nth_port ∅ (ch_sent c) p = ∅) &&
                    negb (is_data_cache c && (nonempty (queue_at (ch_coreOut c) p) || nonempty (queue_at (ch_memoryOut c) p)))) (ports c).

Record CacheBankState := mkBankState {
  bs_Reserved : Z;
  bs_Pipeline : Z;
  bs_CoreResponses : Z;
  bs_MemoryRequests : Z;
  bs_RefillResponses : Z;
  bs_ValidLines : Z;
  bs_DirtyLines : Z;
  bs_Initializing : bool;
  bs_Flushing : bool
}.

Record CacheState := mkCacheState {
  cs_Banks : list CacheBankState;
  cs_CoreBuffers : list Z;
  cs_CoreBypassBuffers : list Z;
  cs_MemoryBuffers : list Z;
  cs_MemoryBypassBuffers : list Z;
  cs_MemoryResponseBuffers : list Z;
  cs_ExternalPending : list Z;
  cs_FlushActive : bool;
  cs_Drained : bool;
  cs_WritebackError : option error
}.

Definition bank_state (c : Cache) (p : Z) : CacheBankState :=
  let b := bank_at c p in
  let '(valid, dirty) := residentCounts (cb_array b) in
  mkBankState (cb_reserved b) (Z.b2z (is_some (cb_s0 b)) + Z.b2z (is_some (cb_s1 b))) (zlen (cb_responses b)) (zlen (cb_memory b)) (zlen (qu_values (queue_at (ch_refill c) p)))
    valid dirty (cb_initNext b <? sp_Sets (cb_spec b)) (negb (bool_decide (cb_flushing b = flushIdle))).

Definition Cache_State (c : Cache) : CacheState :=
  let count {A} (l : list (cacheQueue A)) := map (fun p => zlen (qu_values (queue_at l p))) (ports c) in
  let data (l : list Z) := if is_data_cache c then l else [] in
  mkCacheState (map (bank_state c) (ports c)) (count (ch_core c)) (data (count (ch_coreOut c))) (count (ch_memory c)) (data (count (ch_memoryOut c))) (count (ch_mrsq c))
    (map (fun p => Z.of_nat (size (nth_port ∅ (ch_sent c) p))) (ports c)) (negb (bool_decide (fc_control (ch_flush c) = controlIdle))) (Cache_Drained c) (fc_writeErr (ch_flush c)).

(** Bank operations below [bankInit] act for a request. *)
Definition op_belongs (kernel cta : Z) (op : bankOperation) : bool :=
  match bo_kind op with bankCore | bankReplay | bankFillOp => belongs kernel cta (wq_Identity (bo_request op)) | _ => false end.

Definition packet_belongs (kernel cta : Z) (p : cachePacket) : bool := negb (bool_decide (pk_kind p = packetWriteback)) && belongs kernel cta (rq_Identity (pk_request p)).

Definition bank_belongs (kernel cta : Z) (b : cacheBank) : bool :=
  existsb (fun e => me_valid e && belongs kernel cta (wq_Identity (me_request e))) (ms_entries (cb_mshr b)) ||
  from_option (op_belongs kernel cta) false (cb_s0 b) || from_option (fun s => op_belongs kernel cta (bc_op s)) false (cb_s1 b) ||
  existsb (fun r => belongs kernel cta (wr_Identity (br_response r))) (cb_responses b) ||
  existsb (fun r => negb (bm_write r) && belongs kernel cta (bm_identity r)) (cb_memory b).

Definition Cache_HasResidency (c : Cache) (kernel cta : Z) : bool :=
  let word r := belongs kernel cta (wr_Identity r) in
  let packet := packet_belongs kernel cta in
  (negb (bool_decide (fc_control (ch_flush c) = controlIdle)) && negb (fc_inline (ch_flush c)) && belongs kernel cta (fl_Identity (fc_flush (ch_flush c)))) ||
  existsb (fun p =>
    bank_belongs kernel cta (bank_at c p) || existsb word (qu_values (queue_at (ch_core c) p)) || existsb packet (qu_values (queue_at (ch_memory c) p)) ||
    existsb packet (map snd (map_to_list (nth_port ∅ (ch_sent c) p))) || existsb (fun v => packet (in_packet v)) (qu_values (queue_at (ch_mrsq c) p)) ||
    (is_data_cache c && (existsb word (qu_values (queue_at (ch_coreOut c) p)) || existsb packet (qu_values (queue_at (ch_memoryOut c) p))))) (ports c).
