(* ===== verification/CacheExternal.v ===== *)
(** * The external side of a cache

    In any run of a new cache each memory port numbers its external requests 1, 2, 3 ...,
    offers them in that order, and takes back exactly one response for each. *)

From S2P Require Import Prelude Memory TimingIR Memsys CacheArray Mshr CacheBank Cache.

#[local] Open Scope Z_scope.
#[local] Open Scope go_scope.

(** ** Lists of ports *)

Lemma elem_of_port_list n p : p ∈ port_list n <-> 0 <= p < n.
Proof.
  unfold port_list. rewrite list_elem_of_fmap. setoid_rewrite elem_of_seq. split; [intros (k & -> & Hk); lia|]. intros Hp. exists (Z.to_nat p). lia.
Qed.

Lemma port_list_NoDup n : NoDup (port_list n).
Proof. unfold port_list. apply (NoDup_fmap_2 Z.of_nat), NoDup_seq. Qed.

Lemma port_list_length n : length (port_list n) = Z.to_nat n.
Proof. unfold port_list. by rewrite length_map, length_seq. Qed.

Lemma nth_port_map {A} (d : A) f n p : 0 <= p < n -> nth_port d (map f (port_list n)) p = f p.
Proof.
  intros Hp. unfold nth_port, port_list. rewrite map_map, list_lookup_fmap, lookup_seq_lt by lia. cbn. by rewrite Z2Nat.id by lia.
Qed.

Lemma nth_port_set {A} (d x : A) l p q : 0 <= p -> 0 <= q < zlen l -> nth_port d (set_port q x l) p = if decide (p = q) then x else nth_port d l p.
Proof.
  intros Hp Hq. unfold nth_port, set_port, zlen in *. destruct (decide (p = q)) as [->|Hne]; [by rewrite list_lookup_insert_eq by lia|by rewrite list_lookup_insert_ne by lia].
Qed.

Lemma set_port_length {A} q (x : A) l : length (set_port q x l) = length l.
Proof. apply length_insert. Qed.

Lemma nth_port_replicate {A} (d x : A) n p : 0 <= p < n -> nth_port d (replicate (Z.to_nat n) x) p = x.
Proof. intros Hp. unfold nth_port. by rewrite lookup_replicate_2 by lia. Qed.

(** ** The pushes onto the external queues *)

Definition packet_tx (p : cachePacket) : Z := id_Transaction (rq_Identity (pk_request p)).

Lemma wire_tx port p sequence : packet_tx (wire port p sequence).1 = u64 (nth_port 0 sequence port + 1) /\ (wire port p sequence).2 = set_port port (u64 (nth_port 0 sequence port + 1)) sequence.
Proof. done. Qed.

(** A port has pushed nothing and kept its number, or pushed a packet with the next one. *)
Definition push_ok (old new : Z) (push : option cachePacket) : Prop :=
  match push with None => new = old | Some p => packet_tx p = u64 (old + 1) /\ new = u64 (old + 1) end.

Lemma memory_move_push c f f' i port : push_ok (nth_port 0 (ch_sequence c) port)
  (match mm_push (memory_move c f f' i port) with Some p => packet_tx p | None => nth_port 0 (ch_sequence c) port end) (mm_push (memory_move c f f' i port)).
Proof.
  unfold memory_move. destruct (negb (is_data_cache c)); [done|]. destruct (negb (queue_ready _ _)); [done|]. destruct (pick _ _); [|done]. cbn [mm_push push_ok]. unfold wire. cbn [fst]. done.
Qed.

Section Edge.
Context (c : Cache) (f f' : flushControl) (i : CacheInput) (n : Z) (Hports : sp_CorePorts (ch_spec c) = n) (Hsequence : zlen (ch_sequence c) = n).

Definition old_sequence (p : Z) : Z := nth_port 0 (ch_sequence c) p.

(** The packets the banks push, and the numbers after the loop over the banks, for a cache
    without the bypass. *)
Definition bank_pushes (done : list Z) (st : bankWork) : Prop :=
  zlen (bw_sequence st) = n /\ zlen (bw_memoryPush st) = n /\
  forall p, 0 <= p < n -> push_ok (old_sequence p) (nth_port 0 (bw_sequence st) p) (nth_port None (bw_memoryPush st) p) /\
    ((p ∉ done \/ cb_memory (bank_at c p) = []) -> nth_port None (bw_memoryPush st) p = None).

Lemma bank_step_memory b j b' r : bank_step b j = (b', Ok r) -> be_memory r = head (cb_memory b).
Proof.
  unfold bank_step. destruct (bank_check b j); [|done]. destruct (mshr_replay (cb_mshr b)); [|done]. destruct (mshr_step _ _) as [m [?|]]; [|done]. destruct (advance_stages _ _ _) as [b1 [?|]]; [|done]. by intros [= _ <-].
Qed.

Lemma bank_turn_pushes done st bank st' : is_data_cache c = false -> 0 <= bank < n -> bank ∉ done -> bank_pushes done st -> bank_turn c f f' i (st, Ok tt) bank = (st', Ok tt) -> bank_pushes (bank :: done) st'.
Proof.
  intros Hd Hb Hnew (L1 & L2 & Hp) H. unfold bank_turn in H. destruct (bank_step (bank_at c bank) (bank_input c f f' i bank)) as [b [r|]] eqn:Es; [|done]. injection H as <-. apply bank_step_memory in Es.
  unfold settle_bank. rewrite Hd. destruct (if be_memoryAccepted r then be_memory r else None) as [v|] eqn:Ev; cbn [bw_sequence bw_memoryPush].
  - unfold wire. cbn [bw_sequence bw_memoryPush]. unfold bank_pushes. cbn [bw_sequence bw_memoryPush]. unfold zlen in *. rewrite !set_port_length. split_and!; [done|done|]. intros p Hpp. rewrite !nth_port_set by (unfold zlen; lia). destruct (Hp p Hpp) as [H1 H2].
    destruct (decide (p = bank)) as [->|Hne].
    + rewrite H2 in H1 by (by left). cbn [push_ok] in H1. split; [cbn [push_ok]; rewrite H1; done|]. intros [Hn|Hn]; [exfalso; apply Hn; by left|]. destruct (be_memoryAccepted r); [|done]. by rewrite Es, Hn in Ev.
    + split; [done|]. intros [Hn|Hn]; apply H2; [left; intros Hin; apply Hn; by right|by right].
  - split_and!; [done|done|]. intros p Hpp. destruct (Hp p Hpp) as [H1 H2]. split; [done|]. intros [Hn|Hn]; apply H2; [left; intros Hin; apply Hn; by right|by right].
Qed.

Lemma bank_turn_err st e bank : bank_turn c f f' i (st, Err e) bank = (st, Err e).
Proof. done. Qed.

Lemma fold_bank_err l st e : fold_left (bank_turn c f f' i) l (st, Err e) = (st, Err e).
Proof. induction l as [|x l IH]; [done|exact IH]. Qed.

Lemma bank_turns_pushes l done st w : is_data_cache c = false -> (forall b, b ∈ l -> 0 <= b < n) -> NoDup l -> (forall b, b ∈ l -> b ∉ done) -> bank_pushes done st ->
  fold_left (bank_turn c f f' i) l (st, Ok tt) = (w, Ok tt) -> exists done', bank_pushes done' w.
Proof.
  intros Hd. revert done st. induction l as [|b l IH]; intros done st Hl Hnd Hnew Hst H; cbn [fold_left] in H; [injection H as <-; by exists done|].
  apply NoDup_cons in Hnd as [Hb Hnd]. destruct (bank_turn c f f' i (st, Ok tt) b) as [st1 [[]|e]] eqn:E; [|by rewrite fold_bank_err in H].
  apply (IH (b :: done) st1); [intros x Hx; apply Hl; by right|done| | |done].
  - intros x Hx. apply not_elem_of_cons. split; [intros ->; done|apply Hnew; by right].
  - eapply bank_turn_pushes; [done|apply Hl; by left|apply Hnew; by left|done|done].
Qed.

(** The bypass keeps the numbers in its own loop. *)
Lemma bank_turns_sequence l st w r : is_data_cache c = true -> fold_left (bank_turn c f f' i) l (st, Ok tt) = (w, r) -> bw_sequence w = bw_sequence st.
Proof.
  intros Hd. revert st. induction l as [|b l IH]; intros st H; cbn [fold_left] in H; [by injection H as <- _|].
  destruct (bank_turn c f f' i (st, Ok tt) b) as [st1 [[]|e]] eqn:E; unfold bank_turn in E; destruct (bank_step _ _) as [b' [x|]]; try done; injection E as <-.
  - rewrite (IH _ H). unfold settle_bank. rewrite Hd. by destruct (if be_memoryAccepted x then be_memory x else None).
  - subst. rewrite fold_bank_err in H. by injection H as <- _.
Qed.

Lemma bank_turns_length l st w r : zlen (bw_sequence st) = n -> fold_left (bank_turn c f f' i) l (st, Ok tt) = (w, r) -> zlen (bw_sequence w) = n.
Proof.
  revert st. induction l as [|b l IH]; intros st Hst H; cbn [fold_left] in H; [by injection H as <- _|].
  destruct (bank_turn c f f' i (st, Ok tt) b) as [st1 [[]|e]] eqn:E; unfold bank_turn in E; destruct (bank_step _ _) as [b' [x|]]; try done; injection E as <-.
  - refine (IH _ _ H). unfold settle_bank. destruct (if be_memoryAccepted x then be_memory x else None) as [v|]; [|done]. destruct (is_data_cache c); [done|]. unfold wire. cbn [bw_sequence]. unfold zlen in *. by rewrite set_port_length.
  - subst. rewrite fold_bank_err in H. by injection H as <- _.
Qed.

Context (Hn : 0 < n) (w : bankWork) (Hw : banks_edge c f f' i = (w, Ok tt)).

(** What enters the external queue of a port. *)
Definition external_push (p : Z) : option cachePacket :=
  if is_data_cache c then mm_push (memory_move c f f' i p) else nth_port None (flush_pushed c f f' i (bw_sequence w) (bw_memoryPush w)).2 p.

Lemma moved_sequence_at p : 0 <= p < n -> nth_port 0 (moved_sequence c f f' i) p =
  match mm_push (memory_move c f f' i p) with Some x => packet_tx x | None => old_sequence p end.
Proof. intros Hp. unfold moved_sequence, ports. rewrite Hports. by rewrite nth_port_map. Qed.

Lemma external_push_ok p : 0 <= p < n -> push_ok (old_sequence p) (nth_port 0 (flush_pushed c f f' i (bw_sequence w) (bw_memoryPush w)).1 p) (external_push p).
Proof.
  intros Hp. unfold external_push, flush_pushed. unfold banks_edge, ports in Hw. rewrite Hports in Hw. destruct (is_data_cache c) eqn:Hd.
  - apply bank_turns_sequence in Hw; [|done]. cbn [bw_sequence] in Hw. assert (nth_port 0 (bw_sequence w) p = match mm_push (memory_move c f f' i p) with Some x => packet_tx x | None => old_sequence p end) as E by (rewrite Hw; by apply moved_sequence_at).
    assert (push_ok (old_sequence p) (nth_port 0 (bw_sequence w) p) (mm_push (memory_move c f f' i p))) as H by (rewrite E; apply memory_move_push). by destruct (_ && _).
  - apply (bank_turns_pushes (port_list n) []) in Hw as (done' & L1 & L2 & H); [|done|by intros b Hb%elem_of_port_list|apply port_list_NoDup|by intros b _ Hb%elem_of_nil|].
    2:{ unfold bank_pushes. cbn [bw_sequence bw_memoryPush]. unfold moved_sequence, ports, zlen. rewrite !length_map, Hports, port_list_length, Z2Nat.id by lia. split_and!; [done|done|].
        intros q Hq. change (map _ (port_list n)) with (map (fun port => match mm_push (memory_move c f f' i port) with Some x => packet_tx x | None => old_sequence port end) (port_list n)) at 1.
        rewrite !nth_port_map by done. split; [|done]. unfold memory_move. by rewrite Hd. }
    destruct (H p Hp) as [H1 H2]. destruct (bool_decide (fc_control f = controlTail) && tail_leaves c f f' i) eqn:Et; [|done].
    apply andb_true_iff in Et as [_ Et]. unfold tail_leaves in Et. apply andb_true_iff in Et as [Et _]. unfold tail_empty in Et. rewrite forallb_forall in Et.
    specialize (Et 0 ltac:(apply list_elem_of_In; unfold ports; rewrite Hports; apply elem_of_port_list; lia)). rewrite !andb_true_iff in Et. destruct Et as [[[Et _] _] _]. unfold bank_empty in Et. rewrite !andb_true_iff in Et. destruct Et as [_ Et].
    destruct (H 0 ltac:(lia)) as [G1 G2]. rewrite G2 in G1 by (right; unfold is_empty in Et; destruct (cb_memory (bank_at c 0)); done). cbn [push_ok] in G1. unfold wire. cbn [fst snd]. rewrite !nth_port_set by (unfold zlen in *; lia).
    destruct (decide (p = 0)) as [->|]; [|done]. cbn [push_ok]. rewrite G1. done.
Qed.

Lemma final_queue_next cycle p : 0 <= p < n -> queue_at (finalMemory (Cache_commit c cycle i f f' w)) p = queue_update (memory_accepted i p) (external_push p) (queue_at (finalMemory c) p).
Proof.
  intros Hp. unfold external_push, Cache_commit, finalMemory. destruct (flush_pushed _ _ _ _ _ _) as [sequence push]. unfold is_data_cache, ports. cbn [ch_spec ch_memory ch_memoryOut snd]. rewrite Hports.
  destruct (is_data (sp_Kind (ch_spec c))) eqn:Hd; unfold queue_at at 1; rewrite nth_port_map by done; [done|]. unfold memory_move, is_data_cache. by rewrite Hd.
Qed.
End Edge.

(** ** The responses *)

Lemma receive_port_sent c i st p : rd_sent (receive_port c i st p) = match delivered_packet c i p with
  | Some (r, _) => set_port p (delete (id_Transaction (rs_Identity r)) (nth_port ∅ (rd_sent st) p)) (rd_sent st) | None => rd_sent st end.
Proof. unfold receive_port. destruct (delivered_packet c i p) as [[r x]|]; [|done]. destruct (pk_kind x); try done; [by destruct (rs_Err r)|by destruct (wq_Write (pk_origin x))]. Qed.

Definition sent_less (c : Cache) (i : CacheInput) (m : gmap Z cachePacket) (p : Z) : gmap Z cachePacket :=
  match delivered_packet c i p with Some (r, _) => delete (id_Transaction (rs_Identity r)) m | None => m end.

Lemma receive_fold c i l st p : NoDup l -> (forall q, q ∈ l -> 0 <= q < zlen (rd_sent st)) -> 0 <= p ->
  zlen (rd_sent (fold_left (receive_port c i) l st)) = zlen (rd_sent st) /\ nth_port ∅ (rd_sent (fold_left (receive_port c i) l st)) p = if decide (p ∈ l) then sent_less c i (nth_port ∅ (rd_sent st) p) p else nth_port ∅ (rd_sent st) p.
Proof.
  revert st. induction l as [|q l IH]; intros st Hnd Hl Hp; cbn [fold_left]; [done|]. apply NoDup_cons in Hnd as [Hq Hnd].
  assert (zlen (rd_sent (receive_port c i st q)) = zlen (rd_sent st)) as El by (rewrite receive_port_sent; destruct (delivered_packet c i q) as [[r x]|]; [unfold zlen; by rewrite set_port_length|done]).
  destruct (IH (receive_port c i st q) Hnd) as [E1 E2]; [intros x Hx; rewrite El; apply Hl; by right|done|]. rewrite E1, El. split; [done|]. rewrite E2.
  assert (nth_port ∅ (rd_sent (receive_port c i st q)) p = if decide (p = q) then sent_less c i (nth_port ∅ (rd_sent st) p) p else nth_port ∅ (rd_sent st) p) as Eq.
  { rewrite receive_port_sent. unfold sent_less. pose proof (Hl q ltac:(by left)) as Hr. destruct (decide (p = q)) as [->|Hne].
    - destruct (delivered_packet c i q) as [[r x]|]; [|done]. rewrite nth_port_set by lia. by rewrite decide_True.
    - destruct (delivered_packet c i q) as [[r x]|]; [|done]. rewrite nth_port_set by lia. by rewrite decide_False. }
  rewrite Eq. destruct (decide (p = q)) as [->|Hne].
  - rewrite decide_False by done. by rewrite decide_True by (by left).
  - destruct (decide (p ∈ l)) as [Hin|Hin]; [by rewrite decide_True by (by right)|]. rewrite decide_False; [done|]. intros [?|?]%elem_of_cons; done.
Qed.

Lemma receive_sent c i n p : sp_CorePorts (ch_spec c) = n -> zlen (ch_sent c) = n -> 0 <= p < n ->
  zlen (rd_sent (receive c i)) = n /\ nth_port ∅ (rd_sent (receive c i)) p = sent_less c i (nth_port ∅ (ch_sent c) p) p.
Proof.
  intros Hports Hs Hp. unfold receive, ports. rewrite Hports. destruct (receive_fold c i (port_list n) (mkReceived (ch_sent c) (ch_flush c) [] []) p) as [E1 E2];
    [apply port_list_NoDup|intros q Hq%elem_of_port_list; cbn; lia|lia|]. cbn [rd_sent] in *. rewrite decide_True in E2 by (by apply elem_of_port_list).
  destruct (bool_decide _); cbn [rd_sent]; rewrite E1, E2; done.
Qed.

(** ** What the checks show *)

Record port_checked (c : Cache) (i : CacheInput) (p : Z) : Prop := {
  pc_number : nth_port 0 (ch_sequence c) p <> MaxUint64;
  pc_accepted : memory_accepted i p = true -> exists x, queue_head (queue_at (finalMemory c) p) = Some x;
  pc_delivered r : reply_of i p = mkReply (Some r) true -> exists x, sent_packet c p r = Some x /\ rq_Identity (pk_request x) = rs_Identity r /\ rq_Tag (pk_request x) = rs_Tag r /\ rq_Operation (pk_request x) = rs_Operation r
}.

Lemma cache_check_port c cycle i p : cache_check c cycle i = Ok tt -> p ∈ ports c -> port_checked c i p.
Proof.
  unfold cache_check. intros H Hp. destruct (_ && _); [|done]. destruct (negb (ch_started c && _)); [|done]. destruct (foldM _ tt (ports c)) as [[]|]; [|done]. cbn [result_bind] in H.
  destruct (negb (bool_decide _)); [|done]. destruct (negb _) in H; [|done]. apply (foldM_unit (fun p => reply_check c cycle p (nth_port false (eg_Accepted (cn_Memory i)) p) (nth_port no_reply (eg_Replies (cn_Memory i)) p))) with (x := p) in H; [|done].
  unfold reply_check in H. destruct (nth_port 0 (ch_sequence c) p =? MaxUint64) eqn:En; [done|]. cbn [negb] in H.
  destruct (nth_port false (eg_Accepted (cn_Memory i)) p && negb (is_some (nth_port None (MemoryOffers c) p))) eqn:Ea; [done|]. cbn [negb] in H. split.
  - by apply Z.eqb_neq.
  - unfold memory_accepted. intros E. rewrite E in Ea. cbn [andb] in Ea. apply negb_false_iff in Ea. unfold MemoryOffers, nth_port in Ea. unfold queue_at, nth_port. rewrite list_lookup_fmap in Ea.
    destruct (finalMemory c !! Z.to_nat p) as [q|]; [|done]. cbn in Ea |- *. destruct (queue_head q) as [x|]; [by exists x|done].
  - unfold reply_of. intros r E. rewrite E in H. cbn [rp_Response] in H. destruct (sent_packet c p r) as [x|]; [|done]. exists x. split; [done|].
    destruct (bool_decide _ && (rq_Tag (pk_request x) =? rs_Tag r) && bool_decide _) eqn:Ec; [|done]. rewrite !andb_true_iff, !bool_decide_eq_true, Z.eqb_eq in Ec. tauto.
Qed.

(** ** Runs *)

(** The states and inputs of the edges of a run. *)
Notation history := (list (Cache * CacheInput)).

Fixpoint cache_run (c : Cache) (cycle : Z) (inputs : list CacheInput) : option (Cache * history) :=
  match inputs with
  | [] => Some (c, [])
  | i :: inputs =>
      match Cache_Step c cycle i with
      | (_, Err _) => None
      | (c', Ok _) => match cache_run c' (cycle + 1) inputs with Some (c'', h) => Some (c'', (c, i) :: h) | None => None end
      end
  end.

Definition edge_accepted (p : Z) (x : Cache * CacheInput) : list cachePacket := if memory_accepted x.2 p then option_list (queue_head (queue_at (finalMemory x.1) p)) else [].
Definition edge_delivered (p : Z) (x : Cache * CacheInput) : list Response := match reply_of x.2 p with mkReply (Some r) true => [r] | _ => [] end.

(** The requests the backend accepted from a port, and the responses it delivered. *)
Definition accepted_packets (p : Z) (h : history) : list cachePacket := flat_map (edge_accepted p) h.
Definition delivered_responses (p : Z) (h : history) : list Response := flat_map (edge_delivered p) h.
Definition response_tx (r : Response) : Z := id_Transaction (rs_Identity r).
Definition pending_tx (c : Cache) (p : Z) : list Z := map fst (map_to_list (nth_port ∅ (ch_sent c) p)).

Record port_inv (c : Cache) (h : history) (p : Z) : Prop := {
  pi_number : 0 <= nth_port 0 (ch_sequence c) p <= MaxUint64;
  pi_order : map packet_tx (accepted_packets p h) ++ map packet_tx (qu_values (queue_at (finalMemory c) p)) = zrange 1 (nth_port 0 (ch_sequence c) p);
  pi_pending : map response_tx (delivered_responses p h) ++ pending_tx c p ≡ₚ map packet_tx (accepted_packets p h);
  pi_sent tx x : nth_port ∅ (ch_sent c) p !! tx = Some x -> packet_tx x = tx /\ exists a, a ∈ accepted_packets p h /\ pk_request a = pk_request x;
  pi_answers r : r ∈ delivered_responses p h -> exists a, a ∈ accepted_packets p h /\
    rq_Identity (pk_request a) = rs_Identity r /\ rq_Tag (pk_request a) = rs_Tag r /\ rq_Operation (pk_request a) = rs_Operation r
}.

Record external_inv (n : Z) (c : Cache) (h : history) : Prop := {
  ei_ports : sp_CorePorts (ch_spec c) = n;
  ei_sequence : zlen (ch_sequence c) = n;
  ei_sent : zlen (ch_sent c) = n;
  ei_port p : 0 <= p < n -> port_inv c h p
}.

Lemma delivered_packet_spec c i p : delivered_packet c i p = match reply_of i p with mkReply (Some r) true => Some (r, default no_packet (sent_packet c p r)) | _ => None end.
Proof. done. Qed.

(** The pending transactions of a port after an edge. *)
Lemma pending_step (m : gmap Z cachePacket) (del : option Z) (ins : option (Z * cachePacket)) : (forall k, del = Some k -> is_Some (m !! k)) -> (forall k x, ins = Some (k, x) -> m !! k = None) ->
  let m1 := match del with Some k => delete k m | None => m end in
  let m2 := match ins with Some (k, x) => <[k := x]> m1 | None => m1 end in
  option_list del ++ map fst (map_to_list m2) ≡ₚ map fst (map_to_list m) ++ map fst (option_list ins).
Proof.
  intros Hd Hi. cbv zeta. set (m1 := match del with Some k => delete k m | None => m end).
  assert (option_list del ++ map fst (map_to_list m1) ≡ₚ map fst (map_to_list m)) as E1.
  { unfold m1. destruct del as [k|]; [|done]. destruct (Hd k eq_refl) as [x Hx]. cbn [option_list app]. by rewrite <- (map_to_list_delete m k x Hx). }
  destruct ins as [[k x]|]; [|cbn; by rewrite app_nil_r]. assert (m1 !! k = None) as Hk. { unfold m1. pose proof (Hi k x eq_refl). destruct del as [j|]; [|done]. rewrite lookup_delete_None. by right. }
  rewrite (map_to_list_insert m1 k x Hk). cbn [map fst option_list]. rewrite <- Permutation_middle, E1. apply Permutation_cons_append.
Qed.

Section Step.
Context (n : Z) (Hn : 0 < n) (c : Cache) (h : history) (cycle : Z) (i : CacheInput) (Hinv : external_inv n c h) (Hcheck : cache_check c cycle i = Ok tt).
Context (f f' : flushControl) (w : bankWork) (Hw : banks_edge c f f' i = (w, Ok tt)).

Notation c' := (Cache_commit c cycle i f f' w).
Notation h' := (h ++ [(c, i)]).

Lemma sent_next p : 0 <= p < n -> nth_port ∅ (ch_sent c') p = sent_after c cycle i (rd_sent (receive c i)) p.
Proof. intros Hp. unfold Cache_commit. destruct (flush_pushed _ _ _ _ _ _). cbn [ch_sent]. unfold ports. rewrite (ei_ports _ _ _ Hinv). by rewrite nth_port_map. Qed.

Lemma sequence_next : ch_sequence c' = (flush_pushed c f f' i (bw_sequence w) (bw_memoryPush w)).1.
Proof. unfold Cache_commit. by destruct (flush_pushed _ _ _ _ _ _). Qed.

Lemma accepted_snoc p : accepted_packets p h' = accepted_packets p h ++ edge_accepted p (c, i).
Proof. unfold accepted_packets. rewrite flat_map_app. cbn [flat_map]. by rewrite app_nil_r. Qed.

Lemma delivered_snoc p : delivered_responses p h' = delivered_responses p h ++ edge_delivered p (c, i).
Proof. unfold delivered_responses. rewrite flat_map_app. cbn [flat_map]. by rewrite app_nil_r. Qed.

Lemma checked_port p : 0 <= p < n -> port_checked c i p.
Proof. intros Hp. eapply cache_check_port; [exact Hcheck|]. unfold ports. rewrite (ei_ports _ _ _ Hinv). by apply elem_of_port_list. Qed.

Lemma order_next p : 0 <= p < n -> 0 <= nth_port 0 (ch_sequence c') p <= MaxUint64 /\
  map packet_tx (accepted_packets p h') ++ map packet_tx (qu_values (queue_at (finalMemory c') p)) = zrange 1 (nth_port 0 (ch_sequence c') p).
Proof.
  intros Hp. destruct (ei_port _ _ _ Hinv p Hp) as [Hb Ho _ _ _]. pose proof (pc_number _ _ _ (checked_port p Hp)) as Hmax.
  pose proof (external_push_ok c f f' i n (ei_ports _ _ _ Hinv) (ei_sequence _ _ _ Hinv) Hn w Hw p Hp) as Hpush. unfold old_sequence in Hpush.
  rewrite (final_queue_next c f f' i n (ei_ports _ _ _ Hinv) w cycle p Hp). rewrite sequence_next, accepted_snoc, map_app, <- app_assoc.
  pose proof (f_equal (map packet_tx) (queue_update_turn (queue_at (finalMemory c) p) (memory_accepted i p) (external_push c f f' i w p))) as E. rewrite !map_app in E.
  change (if memory_accepted i p then option_list (queue_head (queue_at (finalMemory c) p)) else []) with (edge_accepted p (c, i)) in E. rewrite <- E, app_assoc, Ho.
  unfold MaxUint64 in *. destruct (external_push c f f' i w p) as [x|]; cbn [push_ok option_list map] in *; [|by rewrite Hpush, app_nil_r].
  destruct Hpush as [Ex ->]. rewrite Ex, (u64_id (nth_port 0 (ch_sequence c) p + 1)) by (unfold is_u64; lia). split; [lia|]. by rewrite zrange_1_S by lia.
Qed.

(** What the edge accepts is not pending yet. *)
Lemma accepted_fresh p x : 0 <= p < n -> memory_accepted i p = true -> queue_head (queue_at (finalMemory c) p) = Some x -> nth_port ∅ (ch_sent c) p !! packet_tx x = None.
Proof.
  intros Hp Ha Hx. destruct (ei_port _ _ _ Hinv p Hp) as [_ Ho Hk _ _]. destruct (nth_port ∅ (ch_sent c) p !! packet_tx x) as [y|] eqn:E; [|done]. exfalso.
  assert (packet_tx x ∈ map packet_tx (accepted_packets p h)) as Hin.
  { rewrite <- Hk. apply elem_of_app. right. unfold pending_tx. apply list_elem_of_fmap. exists (packet_tx x, y). split; [done|]. by apply elem_of_map_to_list. }
  assert (packet_tx x ∈ map packet_tx (qu_values (queue_at (finalMemory c) p))) as Hq. { apply list_elem_of_fmap. exists x. split; [done|]. unfold queue_head in Hx. destruct (qu_values _); [done|]. injection Hx as ->. by left. }
  pose proof (zrange_1_NoDup (nth_port 0 (ch_sequence c) p)) as Hnd. rewrite <- Ho in Hnd. apply NoDup_app in Hnd as (_ & Hd & _). by apply (Hd (packet_tx x)).
Qed.

Definition deleted (p : Z) : option Z := match reply_of i p with mkReply (Some r) true => Some (response_tx r) | _ => None end.
Definition inserted (p : Z) : option (Z * cachePacket) :=
  if memory_accepted i p then (fun x => (packet_tx x, with_cycle cycle x)) <$> queue_head (queue_at (finalMemory c) p) else None.

Lemma sent_next_map p : 0 <= p < n -> nth_port ∅ (ch_sent c') p =
  (let m1 := match deleted p with Some k => delete k (nth_port ∅ (ch_sent c) p) | None => nth_port ∅ (ch_sent c) p end in match inserted p with Some (k, x) => <[k := x]> m1 | None => m1 end).
Proof.
  intros Hp. rewrite sent_next by done. unfold sent_after. destruct (receive_sent c i n p (ei_ports _ _ _ Hinv) (ei_sent _ _ _ Hinv) Hp) as [_ ->]. unfold sent_less, delivered_packet, deleted, inserted, response_tx, packet_tx.
  destruct (reply_of i p) as [[r|] []]; destruct (memory_accepted i p); cbn; try done; by destruct (queue_head _).
Qed.

Lemma deleted_pending p k : 0 <= p < n -> deleted p = Some k -> exists r x, reply_of i p = mkReply (Some r) true /\ k = response_tx r /\ nth_port ∅ (ch_sent c) p !! k = Some x /\
  rq_Identity (pk_request x) = rs_Identity r /\ rq_Tag (pk_request x) = rs_Tag r /\ rq_Operation (pk_request x) = rs_Operation r.
Proof.
  intros Hp. unfold deleted. destruct (reply_of i p) as [[r|] []] eqn:Er; try done. intros [= <-]. destruct (pc_delivered _ _ _ (checked_port p Hp) r Er) as (x & Ex & Hx). by exists r, x.
Qed.

Lemma inserted_fresh p k x : 0 <= p < n -> inserted p = Some (k, x) -> nth_port ∅ (ch_sent c) p !! k = None.
Proof.
  intros Hp. unfold inserted. destruct (memory_accepted i p) eqn:Ea; [|done]. destruct (queue_head _) as [y|] eqn:Ey; [|done]. intros [= <- <-]. by apply accepted_fresh.
Qed.

Lemma pending_next p : 0 <= p < n -> map response_tx (delivered_responses p h') ++ pending_tx c' p ≡ₚ map packet_tx (accepted_packets p h').
Proof.
  intros Hp. pose proof (pi_pending _ _ _ (ei_port _ _ _ Hinv p Hp)) as Hk. rewrite delivered_snoc, accepted_snoc, !map_app, <- Hk, <- !app_assoc. apply Permutation_app_head. unfold pending_tx. rewrite sent_next_map by done.
  pose proof (pending_step (nth_port ∅ (ch_sent c) p) (deleted p) (inserted p)) as E. cbv zeta in E.
  assert (map response_tx (edge_delivered p (c, i)) = option_list (deleted p)) as -> by (unfold edge_delivered, deleted; cbn [snd]; by destruct (reply_of i p) as [[r|] []]).
  assert (map packet_tx (edge_accepted p (c, i)) = map fst (option_list (inserted p))) as -> by (unfold edge_accepted, inserted; cbn [fst snd]; destruct (memory_accepted i p); [by destruct (queue_head _)|done]).
  apply E.
  - intros k Hk'. destruct (deleted_pending p k Hp Hk') as (r & x & _ & _ & Hx & _). by exists x.
  - intros k x Hk'. by apply (inserted_fresh p k x).
Qed.

Lemma port_next p : 0 <= p < n -> port_inv c' h' p.
Proof.
  intros Hp. destruct (order_next p Hp) as [Hb Ho]. pose proof (ei_port _ _ _ Hinv p Hp) as [_ _ _ Hsent Hans]. split; [done|done|by apply pending_next| |].
  - intros tx x. rewrite sent_next_map by done. cbv zeta. rewrite accepted_snoc.
    assert (forall m : gmap Z cachePacket, m ⊆ nth_port ∅ (ch_sent c) p -> m !! tx = Some x -> packet_tx x = tx /\ exists a, a ∈ accepted_packets p h ++ edge_accepted p (c, i) /\ pk_request a = pk_request x) as Hold.
    { intros m Hm Hx. eapply lookup_weaken in Hx; [|exact Hm]. destruct (Hsent tx x Hx) as [E1 (a & Ha & E2)]. split; [done|]. exists a. split; [|done]. apply elem_of_app. by left. }
    assert ((match deleted p with Some k => delete k (nth_port ∅ (ch_sent c) p) | None => nth_port ∅ (ch_sent c) p end) ⊆ nth_port ∅ (ch_sent c) p) as Hsub by (destruct (deleted p); [apply delete_subseteq|done]).
    destruct (inserted p) as [[k y]|] eqn:Ei; [|exact (Hold _ Hsub)]. assert (exists z, z ∈ edge_accepted p (c, i) /\ k = packet_tx z /\ y = with_cycle cycle z) as (z & Hz & -> & ->).
    { unfold inserted in Ei. unfold edge_accepted. cbn [fst snd]. destruct (memory_accepted i p); [|done]. destruct (queue_head _) as [z|]; [|done]. injection Ei as <- <-. exists z. split; [by left|done]. }
    destruct (decide (packet_tx z = tx)) as [<-|Hne].
    + rewrite lookup_insert_eq. intros [= <-]. split; [done|]. exists z. split; [|done]. apply elem_of_app. by right.
    + rewrite lookup_insert_ne by done. exact (Hold _ Hsub).
  - intros r. rewrite delivered_snoc, accepted_snoc. intros [Hr|Hr]%elem_of_app.
    + destruct (Hans r Hr) as (a & Ha & E). exists a. split; [|done]. apply elem_of_app. by left.
    + unfold edge_delivered in Hr. cbn [snd] in Hr. destruct (reply_of i p) as [[q|] []] eqn:Eq; try (by apply elem_of_nil in Hr). apply list_elem_of_singleton in Hr as ->.
      destruct (deleted_pending p (response_tx q) Hp) as (r' & x & Er & _ & Hx & E1 & E2 & E3); [unfold deleted; by rewrite Eq|]. rewrite Eq in Er. injection Er as <-.
      destruct (Hsent _ _ Hx) as [_ (a & Ha & E)]. exists a. rewrite E. split; [|done]. apply elem_of_app. by left.
Qed.

Lemma external_next : external_inv n c' h'.
Proof.
  split.
  - unfold Cache_commit. destruct (flush_pushed _ _ _ _ _ _). apply (ei_ports _ _ _ Hinv).
  - rewrite sequence_next. unfold flush_pushed. pose proof (ei_ports _ _ _ Hinv) as Hports. unfold banks_edge, ports in Hw. rewrite Hports in Hw.
    assert (zlen (bw_sequence w) = n) as El.
    { destruct (is_data_cache c) eqn:Hd.
      - eapply (bank_turns_sequence c f f' i n) in Hw; [|exact Hports|exact (ei_sequence _ _ _ Hinv)|done]. rewrite Hw. cbn [bw_sequence]. unfold moved_sequence, ports, zlen. rewrite length_map, Hports, port_list_length. lia.
      - eapply bank_turns_length; [exact Hports|exact (ei_sequence _ _ _ Hinv)| |exact Hw]. cbn [bw_sequence]. unfold moved_sequence, ports, zlen. rewrite length_map, Hports, port_list_length. lia. }
    destruct (_ && _); [|done]. destruct (is_data_cache c); [done|]. unfold wire. cbn [fst]. unfold zlen in *. by rewrite set_port_length.
  - unfold Cache_commit. destruct (flush_pushed _ _ _ _ _ _). cbn [ch_sent]. unfold ports, zlen. rewrite length_map, (ei_ports _ _ _ Hinv), port_list_length. lia.
  - apply port_next.
Qed.
End Step.

(** A new cache, with ports as [FrozenCacheSpec] guarantees. *)
Lemma fresh_external_inv s coreOut memoryOut : sp_MemoryPorts s = sp_CorePorts s -> 0 < sp_CorePorts s -> Forall (fun q => qu_values q = []) memoryOut ->
  external_inv (sp_CorePorts s) (fresh_cache s coreOut memoryOut) [].
Proof.
  intros Em Hn Ho. split; cbn [fresh_cache ch_spec ch_sequence ch_sent]; [done|unfold zlen; rewrite length_replicate, Em; lia..|]. intros p Hp.
  assert (forall (A : Type) spec k, qu_values (queue_at (replicate k (empty_queue (A := A) spec)) p) = []) as Hrep.
  { intros A spec k. unfold queue_at, nth_port. destruct (replicate k (empty_queue spec) !! Z.to_nat p) as [q|] eqn:E; [|done]. by apply lookup_replicate in E as [-> _]. }
  assert (qu_values (queue_at (finalMemory (fresh_cache s coreOut memoryOut)) p) = []) as Eq.
  { unfold finalMemory. cbn [fresh_cache ch_memory ch_memoryOut]. destruct (is_data_cache _); [|apply Hrep]. unfold queue_at, nth_port. destruct (memoryOut !! Z.to_nat p) as [q|] eqn:E; [|done]. rewrite Forall_lookup in Ho. by apply (Ho _ _ E). }
  split; rewrite ?Eq; cbn [fresh_cache ch_sequence ch_sent accepted_packets delivered_responses flat_map map app]; rewrite ?nth_port_replicate by lia.
  - unfold MaxUint64. lia.
  - done.
  - unfold pending_tx. cbn [fresh_cache ch_sent]. rewrite nth_port_replicate by lia. by rewrite map_to_list_empty.
  - intros tx x. by rewrite lookup_empty.
  - by intros r Hr%elem_of_nil.
Qed.

Lemma cache_run_inv n inputs c h cycle c' h' : 0 < n -> external_inv n c h -> cache_run c cycle inputs = Some (c', h') -> external_inv n c' (h ++ h').
Proof.
  intros Hn. revert c h cycle h'. induction inputs as [|i inputs IH]; intros c h cycle h' Hinv Hrun; cbn [cache_run] in Hrun; [injection Hrun as <- <-; by rewrite app_nil_r|].
  destruct (Cache_Step c cycle i) as [c1 [e|]] eqn:Es; [|done]. destruct (cache_run c1 (cycle + 1) inputs) as [[c2 h2]|] eqn:Er; [|done]. injection Hrun as <- <-.
  unfold Cache_Step in Es. destruct (cache_check c cycle i) as [[]|] eqn:Ec; [|done]. destruct (banks_edge _ _ _ _) as [w [[]|]] eqn:Ew; [|done]. injection Es as <- _.
  change ((c, i) :: h2) with ([(c, i)] ++ h2). rewrite app_assoc. eapply IH; [|exact Er]. by apply external_next.
Qed.

(** [NewCache] makes such a cache. *)
Lemma NewCache_fresh `{TimingDocument} kind c : NewCache kind = Ok c -> exists s coreOut memoryOut, c = fresh_cache s coreOut memoryOut /\ sp_Kind s = kind /\
  sp_MemoryPorts s = sp_CorePorts s /\ 0 < sp_CorePorts s /\ Forall (fun q => qu_values q = []) memoryOut.
Proof.
  unfold NewCache. intros (s & Es & Hc)%result_bind_ok. assert (sp_Kind s = kind /\ sp_MemoryPorts s = sp_CorePorts s /\ 0 < sp_CorePorts s) as (E1 & E2 & E3).
  { clear Hc. unfold FrozenCacheSpec in Es. case_match; [|done]. repeat (apply result_bind_ok in Es as (? & _ & Es)). case_match eqn:Eg; [|done]. apply result_bind_ok in Es as (? & _ & Es). case_match; [|done].
    apply result_bind_ok in Es as (? & _ & Es). case_match eqn:Et; [|done]. do 3 (case_match; [|done]). apply Ok_inj in Es as <-. cbn [sp_Kind sp_MemoryPorts sp_CorePorts].
    rewrite !andb_true_iff in Eg. destruct Eg as [[_ Eb%Z.ltb_lt] _]. unfold topology_ok in Et. rewrite !andb_true_iff in Et. destruct Et as [[[[_ Ec%Z.eqb_eq] Em%Z.eqb_eq] _] _]. split_and!; [done|congruence|lia]. }
  destruct (is_data kind).
  - apply result_bind_ok in Hc as (rsp & _ & Hc). apply result_bind_ok in Hc as (req & _ & Hc). apply Ok_inj in Hc as <-. eexists s, _, _. split_and!; try done. apply Forall_replicate. done.
  - apply Ok_inj in Hc as <-. eexists s, _, _. by split_and!.
Qed.

(** C13: The external side of a cache is exactly-once. In any run of a new instruction or
    data cache, whatever the clients, the flushes, the bank contents and the timing of the
    backend, each memory port numbers its requests 1, 2, 3 ... without gap or reuse, and
    the backend has accepted them in that order, up to those still queued; every accepted
    request is either pending or was answered by exactly one delivered response, which
    carries its identity, tag and operation; and a drained cache has been answered every
    request it ever numbered. *)
Theorem cache_external_exactly_once s coreOut memoryOut start inputs c h p :
  sp_MemoryPorts s = sp_CorePorts s -> 0 <= p < sp_CorePorts s -> Forall (fun q => qu_values q = []) memoryOut ->
  cache_run (fresh_cache s coreOut memoryOut) start inputs = Some (c, h) ->
  map packet_tx (accepted_packets p h) ++ map packet_tx (qu_values (queue_at (finalMemory c) p)) = zrange 1 (nth_port 0 (ch_sequence c) p) /\
  map response_tx (delivered_responses p h) ++ pending_tx c p ≡ₚ map packet_tx (accepted_packets p h) /\
  NoDup (map packet_tx (accepted_packets p h)) /\
  (forall r, r ∈ delivered_responses p h -> exists a, a ∈ accepted_packets p h /\
    rq_Identity (pk_request a) = rs_Identity r /\ rq_Tag (pk_request a) = rs_Tag r /\ rq_Operation (pk_request a) = rs_Operation r) /\
  (Cache_Drained c = true -> map response_tx (delivered_responses p h) ≡ₚ zrange 1 (nth_port 0 (ch_sequence c) p)).
Proof.
  intros Em Hp Ho Hrun. pose proof (cache_run_inv (sp_CorePorts s) _ _ _ _ _ _ ltac:(lia) (fresh_external_inv s coreOut memoryOut Em ltac:(lia) Ho) Hrun) as Hinv. cbn [app] in Hinv.
  destruct (ei_port _ _ _ Hinv p Hp) as [_ H1 H2 _ H4]. split_and!; [done|done| |done|].
  - pose proof (zrange_1_NoDup (nth_port 0 (ch_sequence c) p)) as Hnd. rewrite <- H1 in Hnd. by apply NoDup_app in Hnd as (? & _).
  - unfold Cache_Drained. rewrite andb_true_iff, forallb_forall. intros [_ Hd]. specialize (Hd p ltac:(apply list_elem_of_In; unfold ports; rewrite (ei_ports _ _ _ Hinv); by apply elem_of_port_list)).
    rewrite !andb_true_iff, bool_decide_eq_true in Hd. destruct Hd as [[[[[_ D1] _] _] D2] D3]. unfold pending_tx in H2. rewrite D2, map_to_list_empty, app_nil_r in H2. rewrite H2, <- H1.
    assert (qu_values (queue_at (finalMemory c) p) = []) as ->; [|by rewrite app_nil_r]. unfold finalMemory, nonempty in *. destruct (is_data_cache c).
    + cbn [andb] in D3. rewrite negb_orb, andb_true_iff, !negb_involutive in D3. destruct D3 as [_ D3]. by destruct (qu_values (queue_at (ch_memoryOut c) p)).
    + rewrite negb_involutive in D1. by destruct (qu_values (queue_at (ch_memory c) p)).
Qed.

(** ** A run *)

Definition slots (n : Z) : BufferSpec := mkBufferSpec "slots" n 1.

(** A data cache of one bank of two sets of two ways. *)
Definition cache_demo_spec : CacheSpec :=
  mkCacheSpec DataCache 256 1 2 2 4 64 1 1 2 4 true (slots 2) (slots 4) no_buffer (slots 2) (slots 2) (slots 2) no_buffer no_arbiter no_arbiter no_arbiter no_arbiter.
Definition cache_demo : Cache := fresh_cache cache_demo_spec [empty_queue (slots 2)] [empty_queue (slots 2)].
Definition cache_identity (tx : Z) : Identity := mkIdentity 1 1 0 0 0 0 tx 0.
Definition cache_load (tx : Z) : WordRequest := mkWordRequest (cache_identity tx) 7 64 false false false 15 zero_word.
Definition cache_edge (request : WordOffer) (accepted : bool) (reply : Reply) : CacheInput := mkCacheInput [request] [true] (mkEdge [accepted] [reply]) None false.
Definition cache_quiet : CacheInput := cache_edge None false no_reply.
Definition fill_reply : Reply := mkReply (Some (mkResponse (cache_identity 1) 0 OpRead (replicate 64 9) MaxUint64 8 9 1 None)) true.

(** A load misses, its line is fetched, and it is answered. *)
Definition cache_demo_inputs : list CacheInput :=
  [cache_quiet; cache_quiet; cache_quiet; cache_edge (Some (cache_load 1)) false no_reply; cache_quiet; cache_quiet; cache_quiet; cache_quiet; cache_edge None true no_reply; cache_quiet;
   cache_edge None false fill_reply; cache_quiet; cache_quiet; cache_quiet; cache_quiet; cache_quiet; cache_quiet; cache_quiet; cache_quiet].

Lemma cache_external_exactly_once_witness : exists c h, cache_run cache_demo 0 cache_demo_inputs = Some (c, h) /\ map packet_tx (accepted_packets 0 h) = [1] /\
  map response_tx (delivered_responses 0 h) ≡ₚ zrange 1 (nth_port 0 (ch_sequence c) 0).
Proof.
  destruct (cache_run cache_demo 0 cache_demo_inputs) as [[c h]|] eqn:E; [|exfalso; vm_compute in E; discriminate E]. exists c, h. split; [done|].
  destruct (cache_external_exactly_once cache_demo_spec [empty_queue (slots 2)] [empty_queue (slots 2)] 0 cache_demo_inputs c h 0 eq_refl ltac:(cbn; lia) ltac:(by apply Forall_singleton) E) as (_ & _ & _ & _ & Hd).
  split; [|apply Hd]; vm_compute in E; by injection E as <- <-.
Defined.
