(* ===== verification/Lanes.v ===== *)
(** * Lanes and their account

    Masks of lanes, how often a lane of a key occurs in a list, and the table of records by
    which both adapters of the memory system keep the requests under way: a request is
    numbered when it starts, its lanes are sent and come back one by one, and its record is
    dropped when all are back. *)

From S2P Require Import Prelude Memory TimingIR Memsys.

#[local] Open Scope Z_scope.
#[local] Open Scope go_scope.

Notation bit m n := (Z.testbit m n).

Lemma ldiff_0_bits a b : a .&^ b = 0 -> forall n, bit a n = true -> bit b n = true.
Proof. intros E n Ha. pose proof (f_equal (fun x => bit x n) E) as Hb. cbv beta in Hb. rewrite Z.ldiff_spec, Ha, Z.bits_0 in Hb. by destruct (bit b n). Qed.

Lemma land_0_bits a b : a .& b = 0 -> forall n, bit a n && bit b n = false.
Proof. intros E n. pose proof (f_equal (fun x => bit x n) E) as Hb. cbv beta in Hb. by rewrite Z.land_spec, Z.bits_0 in Hb. Qed.

Lemma bits_or a b n : bit (a .| b) n = bit a n || bit b n.
Proof. apply Z.lor_spec. Qed.

Lemma nonzero_bit m : m <> 0 -> exists n, bit m n = true.
Proof. intros H. destruct (Z.bits_inj_iff' m 0) as [Hi _]. destruct (Z.lt_trichotomy m 0) as [Hm|[->|Hm]]; [|done|exists (Z.log2 m); by apply Z.bit_log2].
  exists (Z.log2 (- m - 1) + 1). pose proof (Z.log2_nonneg (- m - 1)). replace m with (Z.lnot (- m - 1)) at 1 by (unfold Z.lnot; lia). rewrite Z.lnot_spec by lia.
  apply negb_true_iff, Z.bits_above_log2; lia.
Qed.

Lemma bit_shift p n : 0 <= p -> bit (1 << p) n = (n =? p).
Proof. intros Hp. rewrite testbit_shiftl_at by done. destruct (Z.leb_spec 0 n); cbn [andb]; [|symmetry; apply Z.eqb_neq; lia]. destruct (Z.eqb_spec n p) as [->|]; [by rewrite Z.sub_diag|]. destruct (Z_lt_dec n p); [apply Z.testbit_neg_r; lia|apply Z.bits_above_log2; cbn; lia]. Qed.

Lemma enabled_bit m p : 0 <= p -> enabled m p = bit m p.
Proof. apply run_enabled_bit. Qed.

(** ** Counting lanes *)

Section Cover.
Context {K : Type} `{EqDecision K}.
Implicit Types (id : K) (l : list (K * Z)).

(** How often lane [n] of [id] occurs in a list of keys and masks. *)
Definition cover (l : list (K * Z)) (id : K) (n : Z) : nat := length (filter (fun x => x.1 = id /\ bit x.2 n = true) l).

Lemma cover_app l l' id n : cover (l ++ l') id n = (cover l id n + cover l' id n)%nat.
Proof. unfold cover. by rewrite filter_app, length_app. Qed.

Lemma cover_cons x l id n : cover (x :: l) id n = (Nat.b2n (bool_decide (x.1 = id) && bit x.2 n) + cover l id n)%nat.
Proof. unfold cover. rewrite filter_cons. case_decide as Hd; case_bool_decide; destruct (bit x.2 n); naive_solver. Qed.

Lemma cover_none l id n : (forall x, x ∈ l -> x.1 <> id) -> cover l id n = 0%nat.
Proof. intros H. unfold cover. destruct (filter _ l) as [|x f] eqn:E; [done|]. assert (x ∈ filter (fun x => x.1 = id /\ bit x.2 n = true) l) as Hin by (rewrite E; left). apply list_elem_of_filter in Hin as [[Hx _] Hl]. by apply H in Hl. Qed.

(** Whether lane [n] of [id] occurs. *)
Definition covers (l : list (K * Z)) (id : K) (n : Z) : bool := existsb (fun x => bool_decide (x.1 = id) && bit x.2 n) l.

Lemma covers_app l l' id n : covers (l ++ l') id n = covers l id n || covers l' id n.
Proof. apply existsb_app. Qed.

Lemma covers_true l id n : covers l id n = true <-> exists m, (id, m) ∈ l /\ bit m n = true.
Proof.
  unfold covers. rewrite existsb_exists. setoid_rewrite andb_true_iff. setoid_rewrite bool_decide_eq_true. setoid_rewrite <- list_elem_of_In. split.
  - intros ([i m] & Hin & Hi & Hb). cbn in *. subst i. by exists m.
  - intros (m & Hin & Hb). by exists (id, m).
Qed.

Lemma cover_covers l id n : (cover l id n <= 1)%nat -> cover l id n = Nat.b2n (covers l id n).
Proof.
  induction l as [|x l IH]; [done|]. rewrite cover_cons. cbn [covers existsb]. fold (covers l id n). destruct (bool_decide (x.1 = id) && bit x.2 n); cbn [Nat.b2n orb]; [lia|exact IH].
Qed.

Lemma cover_in l id m n : (id, m) ∈ l -> bit m n = true -> (1 <= cover l id n)%nat.
Proof.
  intros Hin Hb. unfold cover. assert ((id, m) ∈ filter (fun x : K * Z => x.1 = id /\ bit x.2 n = true) l) as H by (apply list_elem_of_filter; by split). destruct (filter _ l); [by apply elem_of_nil in H|cbn; lia].
Qed.

Lemma cover_singleton (k : K) m id n : cover [(k, m)] id n = Nat.b2n (bool_decide (k = id) && bit m n).
Proof. rewrite cover_cons. cbn [fst snd]. unfold cover. cbn. lia. Qed.

Lemma covers_cover l id n : covers l id n = true <-> (1 <= cover l id n)%nat.
Proof. induction l as [|x l IH]; [cbn; split; [done|lia]|]. rewrite cover_cons. cbn [covers existsb]. fold (covers l id n). destruct (bool_decide (x.1 = id) && bit x.2 n); cbn [Nat.b2n orb]; [split; [lia|done]|exact IH]. Qed.

Lemma covers_false l id n : covers l id n = false <-> cover l id n = 0%nat.
Proof. rewrite <- not_true_iff_false, covers_cover. lia. Qed.
End Cover.

(** One lane for each port that has a key. *)
Definition port_keys (f : Z -> option Z) (ps : list Z) : list (Z * Z) := flat_map (fun p => match f p with Some id => [(id, 1 << p)] | None => [] end) ps.

Lemma cover_ports f ps id n : NoDup ps -> Forall (fun p => 0 <= p) ps -> cover (port_keys f ps) id n = Nat.b2n (bool_decide (n ∈ ps /\ f n = Some id)).
Proof.
  induction ps as [|p ps IH]; intros Hnd Hpos.
  - rewrite bool_decide_false; [done|]. intros [H _]. by apply elem_of_nil in H.
  - apply NoDup_cons in Hnd as [Hp Hnd]. apply Forall_cons in Hpos as [H0 Hpos]. cbn [port_keys flat_map]. rewrite cover_app. fold (port_keys f ps). rewrite IH by done.
    assert (cover (match f p with Some id => [(id, 1 << p)] | None => [] end) id n = Nat.b2n (bool_decide (n = p /\ f n = Some id))) as ->.
    { destruct (f p) as [k|] eqn:E; [|rewrite bool_decide_false; [done|]; intros [-> H]; congruence]. rewrite cover_singleton, bit_shift by done. f_equal. apply eq_bool_prop_intro.
      rewrite andb_True, !bool_decide_spec, Is_true_true, Z.eqb_eq. split; [intros [-> ->]; done|intros [-> H]; split; congruence]. }
    destruct (decide (n = p)) as [->|Hne].
    + rewrite (bool_decide_false (p ∈ ps /\ _)) by tauto. rewrite Nat.add_0_r. f_equal. apply bool_decide_ext. set_solver.
    + rewrite (bool_decide_false (n = p /\ _)) by tauto. cbn. f_equal. apply bool_decide_ext. set_solver.
Qed.

Lemma covers_ports f ps id n : NoDup ps -> Forall (fun p => 0 <= p) ps -> covers (port_keys f ps) id n = true <-> n ∈ ps /\ f n = Some id.
Proof. intros H1 H2. rewrite covers_cover, cover_ports by done. case_bool_decide; cbn; split; try done; try lia; tauto. Qed.

Lemma port_keys_bit f ps k : k ∈ port_keys f ps -> exists p, p ∈ ps /\ f p = Some k.1 /\ k.2 = 1 << p.
Proof.
  intros (p & Hp & Hk)%list_elem_of_In%in_flat_map. apply list_elem_of_In in Hp; apply list_elem_of_In in Hk. destruct (f p) as [id|] eqn:E; [|by apply elem_of_nil in Hk]. apply list_elem_of_singleton in Hk as ->. by exists p.
Qed.

(** ** The table of records *)

(** What the table says of a record: what it carries, its lanes that were sent, those that
    are back, and whether its request is complete. *)
Class WireRecord (R P : Type) := { wi_payload : R -> P; wi_mask : P -> Z; wi_sent : R -> Z; wi_done : R -> Z; wi_released : R -> bool }.

Section Table.
Context {R P : Type} `{WireRecord R P}.
Implicit Types (rs : gmap Z R) (accepted : list P) (held : option P) (sent back : list (Z * Z)).

(** The request of a number; the one under way is numbered last. *)
Definition wire_number accepted : Z := zlen accepted + 1.
Definition wire_at accepted held (id : Z) : option P := if id =? wire_number accepted then held else if 1 <=? id then accepted !! Z.to_nat (id - 1) else None.

(** The lanes of a request that may have been sent. *)
Definition wire_open accepted delivered (p : P) (id : Z) : Z := if id =? wire_number accepted then delivered else wi_mask p.

Record record_inv accepted held delivered sent back (id : Z) (r : R) : Prop := {
  ri_at : wire_at accepted held id = Some (wi_payload r);
  ri_released : wi_released r = negb (id =? wire_number accepted);
  ri_open : forall n, bit (wi_sent r) n = true -> bit (wire_open accepted delivered (wi_payload r) id) n = true;
  ri_back : forall n, bit (wi_done r) n = true -> bit (wi_sent r) n = true;
  ri_sent_once : forall n, cover sent id n = Nat.b2n (bit (wi_sent r) n);
  ri_back_once : forall n, cover back id n = Nat.b2n (bit (wi_done r) n);
  ri_live : wi_released r = true -> wi_done r <> wi_mask (wi_payload r)
}.

Record table_inv rs accepted held delivered sent back : Prop := {
  ti_record : forall id r, rs !! id = Some r -> record_inv accepted held delivered sent back id r;
  ti_absent : forall id, rs !! id = None -> forall n,
    let m := if id =? wire_number accepted then 0 else from_option wi_mask 0 (wire_at accepted held id) in
    cover sent id n = Nat.b2n (bit m n) /\ cover back id n = Nat.b2n (bit m n);
  ti_current : rs !! wire_number accepted = None -> delivered = 0;
  ti_mask : forall p, held = Some p -> forall n, bit delivered n = true -> bit (wi_mask p) n = true
}.

Lemma wire_at_accepted accepted held i p : accepted !! i = Some p -> wire_at accepted held (Z.of_nat i + 1) = Some p.
Proof.
  intros Hp. pose proof (lookup_lt_Some _ _ _ Hp). unfold wire_at, wire_number, zlen. destruct (Z.eqb_spec (Z.of_nat i + 1) (Z.of_nat (length accepted) + 1)); [lia|].
  destruct (Z.leb_spec 1 (Z.of_nat i + 1)); [|lia]. by replace (Z.to_nat (Z.of_nat i + 1 - 1)) with i by lia.
Qed.

Definition wire_finished (r : R) : bool := wi_released r && (wi_done r =? wi_mask (wi_payload r)).

(** What one edge does to the table: [sk] leaves, [dk] comes back, and the request under
    way, [cur], is complete or has the lanes [delivered'] of it started. *)
Record table_step rs (mid : gmap Z R) accepted held delivered delivered' (cur : option P) (acc : bool) (sk dk : list (Z * Z)) : Prop := {
  ts_cur : held <> None -> cur = held;
  ts_mid : forall id,
    let was := match rs !! id with
               | Some r => Some (wi_payload r, wi_sent r, wi_done r, wi_released r)
               | None => if (id =? wire_number accepted) && (delivered' <>? 0) then (fun p => (p, 0, 0, false)) <$> cur else None
               end in
    match was with
    | None => mid !! id = None
    | Some (p, s, d, l) => exists r, mid !! id = Some r /\ wi_payload r = p /\ (forall n, bit (wi_sent r) n = bit s n || covers sk id n) /\
        (forall n, bit (wi_done r) n = bit d n || covers dk id n) /\ wi_released r = l || (acc && (id =? wire_number accepted))
    end;
  ts_more : forall n, bit delivered n = true -> bit delivered' n = true;
  ts_mask : forall p, cur = Some p -> forall n, bit delivered' n = true -> bit (wi_mask p) n = true;
  ts_none : cur = None -> delivered' = 0;
  ts_back : forall id n, covers dk id n = true -> (cover dk id n <= 1)%nat /\ exists r, rs !! id = Some r /\ bit (wi_sent r) n = true /\ bit (wi_done r) n = false;
  ts_sent : forall id n, covers sk id n = true -> (cover sk id n <= 1)%nat /\
    match rs !! id with
    | Some r => bit (wi_sent r) n = false /\ bit (wire_open accepted delivered' (wi_payload r) id) n = true
    | None => id = wire_number accepted /\ bit delivered' n = true
    end;
  ts_acc : acc = true -> exists p, cur = Some p /\ wi_mask p <> 0 /\ forall n, bit (wi_mask p) n = true -> bit delivered' n = true
}.

Lemma wire_at_range accepted held id p : wire_at accepted held id = Some p -> 1 <= id <= wire_number accepted.
Proof.
  unfold wire_at, wire_number, zlen. destruct (Z.eqb_spec id (Z.of_nat (length accepted) + 1)); [lia|]. destruct (Z.leb_spec 1 id); [|done].
  intros Hl%lookup_lt_Some. lia.
Qed.

Section Step.
Context (rs mid : gmap Z R) (accepted : list P) (held cur : option P) (delivered delivered' : Z) (acc : bool) (sk dk sent back : list (Z * Z)).
Context (Hinv : table_inv rs accepted held delivered sent back) (Hstep : table_step rs mid accepted held delivered delivered' cur acc sk dk).

#[local] Notation number := (wire_number accepted).
Definition accepted_next : list P := accepted ++ (if acc then option_list cur else []).
Definition held_next : option P := if acc then None else cur.
Definition delivered_next : Z := if acc then 0 else delivered'.

Lemma acc_some : acc = true -> exists p, cur = Some p.
Proof. intros E. destruct (ts_acc _ _ _ _ _ _ _ _ _ _ Hstep E) as (p & -> & _). by exists p. Qed.

Lemma cur_some : delivered' <> 0 -> exists p, cur = Some p.
Proof. pose proof (ts_none _ _ _ _ _ _ _ _ _ _ Hstep) as Hn. destruct cur as [p|]; [by exists p|]. intros H'. by destruct (H' (Hn eq_refl)). Qed.

Lemma number_next : wire_number accepted_next = if acc then number + 1 else number.
Proof.
  unfold accepted_next, wire_number, zlen. pose proof acc_some as Hs. destruct acc; [|by rewrite app_nil_r]. destruct Hs as [p ->]; [done|]. rewrite length_app. cbn. lia.
Qed.

Lemma at_next id : id <> number -> id <> wire_number accepted_next -> wire_at accepted_next held_next id = wire_at accepted held id.
Proof.
  intros H1 H2. unfold wire_at. rewrite (proj2 (Z.eqb_neq _ _) H1), (proj2 (Z.eqb_neq _ _) H2). destruct (Z.leb_spec 1 id); [|done].
  unfold accepted_next. rewrite number_next in H2. pose proof acc_some as Hs. destruct acc; [|by rewrite app_nil_r]. destruct Hs as [p ->]; [done|]. cbn [option_list].
  unfold wire_number, zlen in *. destruct (decide (Z.to_nat (id - 1) < length accepted)%nat); [by rewrite lookup_app_l|].
  rewrite !(proj2 (lookup_ge_None _ _)); [done|lia|rewrite length_app; cbn; lia].
Qed.

Lemma at_current p : cur = Some p -> wire_at accepted_next held_next number = Some p.
Proof.
  intros Hc. unfold wire_at. rewrite number_next. unfold held_next, accepted_next. destruct acc; [|by rewrite Z.eqb_refl].
  rewrite (proj2 (Z.eqb_neq _ _)) by lia. unfold wire_number, zlen. rewrite (proj2 (Z.leb_le _ _)) by lia. rewrite Hc. cbn [option_list].
  replace (Z.to_nat _) with (length accepted) by lia. by rewrite list_lookup_middle.
Qed.

Lemma wire_at_mono id p : wire_at accepted held id = Some p -> wire_at accepted_next held_next id = Some p.
Proof.
  intros Hb. pose proof (wire_at_range _ _ _ _ Hb) as Hr. destruct (Z.eq_dec id number) as [->|Hne].
  - unfold wire_at in Hb. rewrite Z.eqb_refl in Hb. apply at_current. rewrite <- Hb. apply (ts_cur _ _ _ _ _ _ _ _ _ _ Hstep). by rewrite Hb.
  - rewrite <- Hb. apply at_next; [done|]. rewrite number_next. destruct acc; lia.
Qed.

Lemma open_next p id : 1 <= id <= number -> wire_open accepted_next delivered_next p id = if (id =? number) && negb acc then delivered' else wi_mask p.
Proof.
  intros Hr. unfold wire_open, delivered_next. rewrite number_next. destruct acc; [rewrite (proj2 (Z.eqb_neq _ _)) by lia; by rewrite andb_false_r|]. by rewrite andb_true_r.
Qed.

Lemma cover_add (l k : list (Z * Z)) id n b : cover l id n = Nat.b2n b -> (covers k id n = true -> (cover k id n <= 1)%nat /\ b = false) -> cover (l ++ k) id n = Nat.b2n (b || covers k id n).
Proof.
  intros Hl Hk. rewrite cover_app, Hl. destruct (covers k id n) eqn:E; [destruct (Hk eq_refl) as [H1 ->]; apply covers_cover in E; cbn; lia|]. apply covers_false in E. rewrite E, orb_false_r. lia.
Qed.

(** Every record of the middle has what it needs, but for being live. *)
Lemma mid_record id r : mid !! id = Some r ->
  1 <= id <= number /\ wire_at accepted_next held_next id = Some (wi_payload r) /\ wi_released r = negb (id =? wire_number accepted_next) /\
  (forall n, bit (wi_sent r) n = true -> bit (wire_open accepted_next delivered_next (wi_payload r) id) n = true) /\
  (forall n, bit (wi_done r) n = true -> bit (wi_sent r) n = true) /\
  (forall n, cover (sent ++ sk) id n = Nat.b2n (bit (wi_sent r) n)) /\ (forall n, cover (back ++ dk) id n = Nat.b2n (bit (wi_done r) n)).
Proof.
  intros Hm. pose proof (ts_mid _ _ _ _ _ _ _ _ _ _ Hstep id) as Hw. cbv zeta in Hw. destruct (rs !! id) as [old|] eqn:Eo.
  - destruct Hw as (r' & Hr' & Ep & Es & Ed & El). rewrite Hm in Hr'. injection Hr' as <-. destruct (ti_record _ _ _ _ _ _ Hinv _ _ Eo) as [R1 R2 R3 R4 R5 R6 _].
    pose proof (wire_at_range _ _ _ _ R1) as Hr. assert (id = number -> cur = Some (wi_payload old)) as Hcur.
    { intros ->. unfold wire_at in R1. rewrite Z.eqb_refl in R1. rewrite <- R1. apply (ts_cur _ _ _ _ _ _ _ _ _ _ Hstep). by rewrite R1. }
    rewrite Ep. split_and!; try done.
    + lia.
    + lia.
    + destruct (Z.eq_dec id number) as [->|Hne]; [apply at_current; by apply Hcur|]. rewrite at_next; [done|done|rewrite number_next; destruct acc; lia].
    + rewrite El, R2, number_next. destruct (Z.eqb_spec id number) as [->|]; destruct acc; cbn; try (by rewrite Z.eqb_refl); symmetry; apply negb_true_iff, Z.eqb_neq; lia.
    + intros n. rewrite Es, open_next by done. intros [Hs|Hs]%orb_true_iff.
      * specialize (R3 n Hs). unfold wire_open in R3. destruct (Z.eqb_spec id number) as [->|]; [|done]. pose proof (ts_more _ _ _ _ _ _ _ _ _ _ Hstep n R3) as Hn.
        destruct acc; cbn; [|done]. by apply (ts_mask _ _ _ _ _ _ _ _ _ _ Hstep _ (Hcur eq_refl)).
      * destruct (ts_sent _ _ _ _ _ _ _ _ _ _ Hstep id n Hs) as [_ Hx]. rewrite Eo in Hx. destruct Hx as [_ Hx]. unfold wire_open in Hx.
        destruct (Z.eqb_spec id number) as [->|]; [|done]. destruct acc; cbn; [|done]. by apply (ts_mask _ _ _ _ _ _ _ _ _ _ Hstep _ (Hcur eq_refl)).
    + intros n. rewrite Ed, Es. intros [Hs|Hs]%orb_true_iff; [by rewrite (R4 n Hs)|]. destruct (ts_back _ _ _ _ _ _ _ _ _ _ Hstep id n Hs) as (_ & x & Hx & Hb & _). rewrite Eo in Hx. injection Hx as <-. by rewrite Hb.
    + intros n. rewrite Es. apply cover_add; [apply R5|]. intros Hk. destruct (ts_sent _ _ _ _ _ _ _ _ _ _ Hstep id n Hk) as [H1 Hx]. rewrite Eo in Hx. tauto.
    + intros n. rewrite Ed. apply cover_add; [apply R6|]. intros Hk. destruct (ts_back _ _ _ _ _ _ _ _ _ _ Hstep id n Hk) as (H1 & x & Hx & _ & Hb). rewrite Eo in Hx. injection Hx as <-. done.
  - destruct (Z.eqb_spec id number) as [->|]; cbn [andb] in Hw; [|congruence]. destruct (Z.eqb_spec delivered' 0) as [|Hnz]; cbn [negb] in Hw; [congruence|]. destruct (cur_some Hnz) as [p Ec]. rewrite Ec in Hw. cbn in Hw.
    destruct Hw as (r' & Hr' & Ep & Es & Ed & El). rewrite Hm in Hr'. injection Hr' as <-. rewrite Ep. assert (1 <= number) by (unfold wire_number, zlen; lia).
    assert (forall n, covers dk number n = false) as Hdk.
    { intros n. apply not_true_iff_false. intros Hk. destruct (ts_back _ _ _ _ _ _ _ _ _ _ Hstep _ n Hk) as (_ & x & Hx & _). rewrite Eo in Hx. done. }
    assert (forall n, cover sent number n = 0%nat /\ cover back number n = 0%nat) as Hz.
    { intros n. pose proof (ti_absent _ _ _ _ _ _ Hinv _ Eo n) as Ha. cbv zeta in Ha. rewrite Z.eqb_refl, Z.bits_0 in Ha. exact Ha. }
    split_and!; try lia.
    + by apply at_current.
    + rewrite El, number_next. destruct acc; cbn; symmetry; [apply negb_true_iff, Z.eqb_neq; lia|by rewrite Z.eqb_refl].
    + intros n. rewrite Es, Z.bits_0, open_next by lia. rewrite ?Z.eqb_refl. cbn. intros Hs. destruct (ts_sent _ _ _ _ _ _ _ _ _ _ Hstep _ n Hs) as [_ Hx]. rewrite Eo in Hx. destruct Hx as [_ Hx].
      destruct acc; cbn; [|done]. by apply (ts_mask _ _ _ _ _ _ _ _ _ _ Hstep _ Ec).
    + intros n. by rewrite Ed, Z.bits_0, Hdk.
    + intros n. rewrite Es, Z.bits_0. apply cover_add; [apply Hz|]. intros Hk. destruct (ts_sent _ _ _ _ _ _ _ _ _ _ Hstep _ n Hk) as [H1 _]. done.
    + intros n. rewrite Ed, Z.bits_0. apply cover_add; [apply Hz|]. by rewrite Hdk.
Qed.

Lemma table_next rs' : (forall id, rs' !! id = match mid !! id with Some r => if wire_finished r then None else Some r | None => None end) ->
  table_inv rs' accepted_next held_next delivered_next (sent ++ sk) (back ++ dk).
Proof.
  intros Hrs. split.
  - intros id r Hr. rewrite Hrs in Hr. destruct (mid !! id) as [r'|] eqn:Em; [|done]. destruct (wire_finished r') eqn:Ef; [done|]. injection Hr as ->.
    destruct (mid_record _ _ Em) as (_ & H1 & H2 & H3 & H4 & H5 & H6). split; try done. intros Hrel Hd. unfold wire_finished in Ef. by rewrite Hrel, Hd, Z.eqb_refl in Ef.
  - intros id Hr n. cbv zeta. rewrite Hrs in Hr. destruct (mid !! id) as [r'|] eqn:Em.
    + destruct (wire_finished r') eqn:Ef; [|done]. unfold wire_finished in Ef. apply andb_true_iff in Ef as [Hrel Hd%Z.eqb_eq].
      destruct (mid_record _ _ Em) as (Hr1 & H1 & H2 & H3 & H4 & H5 & H6). rewrite H2 in Hrel. apply negb_true_iff in Hrel. rewrite Hrel, H1, H5, H6, Hd. cbn [from_option]. split; [|done]. f_equal.
      specialize (H3 n). specialize (H4 n). rewrite Hd in H4. rewrite open_next in H3 by done. assert ((id =? number) && negb acc = false) as E.
      { rewrite number_next in Hrel. destruct acc; [by rewrite andb_false_r|]. by rewrite Hrel. }
      rewrite E in H3. destruct (bit (wi_sent r') n), (bit (wi_mask (wi_payload r')) n); try done; [by rewrite H3|by rewrite H4].
    + pose proof (ts_mid _ _ _ _ _ _ _ _ _ _ Hstep id) as Hw. cbv zeta in Hw. destruct (rs !! id) as [old|] eqn:Eo; [destruct Hw as (x & Hx & _); congruence|].
      assert (id = number -> delivered' = 0) as Hd0.
      { intros ->. rewrite Z.eqb_refl in Hw. cbn [andb] in Hw. destruct (Z.eqb_spec delivered' 0) as [|Hnz]; [done|]. cbn [negb] in Hw. destruct (cur_some Hnz) as [p Ec]. rewrite Ec in Hw.
        cbn in Hw. destruct Hw as (x & Hx & _). congruence. }
      assert (cover sk id n = 0%nat) as Hsk.
      { apply covers_false, not_true_iff_false. intros Hk. destruct (ts_sent _ _ _ _ _ _ _ _ _ _ Hstep _ n Hk) as [_ Hx]. rewrite Eo in Hx. destruct Hx as [E Hx]. rewrite (Hd0 E), Z.bits_0 in Hx. done. }
      assert (cover dk id n = 0%nat) as Hdk.
      { apply covers_false, not_true_iff_false. intros Hk. destruct (ts_back _ _ _ _ _ _ _ _ _ _ Hstep _ n Hk) as (_ & x & Hx & _). congruence. }
      rewrite !cover_app, Hsk, Hdk, !Nat.add_0_r. pose proof (ti_absent _ _ _ _ _ _ Hinv _ Eo n) as Ha. cbv zeta in Ha.
      destruct (Z.eqb_spec id number) as [E|Hne].
      * assert (acc = false) as Ea.
        { apply not_true_iff_false. intros Ha'. destruct (ts_acc _ _ _ _ _ _ _ _ _ _ Hstep Ha') as (p & _ & Hp & Hb). destruct (nonzero_bit _ Hp) as [k Hk]. specialize (Hb k Hk). rewrite (Hd0 E), Z.bits_0 in Hb. done. }
        rewrite number_next, Ea, (proj2 (Z.eqb_eq _ _) E). exact Ha.
      * destruct (Z.eqb_spec id (wire_number accepted_next)) as [E|Hne']; [|by rewrite at_next].
        assert (wire_at accepted held id = None) as En.
        { destruct (wire_at accepted held id) eqn:Ew; [|done]. apply wire_at_range in Ew. rewrite number_next in E. destruct acc; lia. }
        rewrite En in Ha. exact Ha.
  - unfold delivered_next. rewrite Hrs, number_next. assert (acc = true \/ acc = false) as [Ea|Ea] by (destruct acc; tauto); rewrite Ea; [done|]. intros Hm. pose proof (ts_mid _ _ _ _ _ _ _ _ _ _ Hstep number) as Hw. cbv zeta in Hw. rewrite Z.eqb_refl in Hw. cbn [andb] in Hw.
    destruct (mid !! number) as [r|] eqn:Em.
    + destruct (wire_finished r) eqn:Ef; [|done]. unfold wire_finished in Ef. apply andb_true_iff in Ef as [Hrel _]. destruct (mid_record _ _ Em) as (_ & _ & H2 & _). rewrite H2, number_next, Ea, Z.eqb_refl in Hrel. done.
    + destruct (rs !! number); [destruct Hw as (x & Hx & _); done|]. destruct (Z.eqb_spec delivered' 0) as [|Hnz]; [done|]. cbn [negb] in Hw. destruct (cur_some Hnz) as [p Ec]. rewrite Ec in Hw.
      cbn in Hw. destruct Hw as (x & Hx & _). done.
  - unfold held_next, delivered_next. destruct acc; [done|]. apply (ts_mask _ _ _ _ _ _ _ _ _ _ Hstep).
Qed.
End Step.

(** ** What the table shows *)

Lemma table_fresh : table_inv ∅ [] None 0 [] [].
Proof.
  split; [intros id r; by rewrite lookup_empty| |done|done]. intros id _ n. cbv zeta. unfold wire_at, wire_number. cbn [zlen length Z.of_nat Z.add]. destruct (id =? zlen [] + 1); [by rewrite Z.bits_0|]. destruct (1 <=? id); [rewrite lookup_nil|]; cbn [from_option]; by rewrite Z.bits_0.
Qed.

(** No lane leaves or comes back twice, none comes back that did not leave, and a request
    without a record has had each of its lanes leave and come back. *)
Record wire_account rs accepted sent back : Prop := {
  wa_once : forall id n, (cover back id n <= cover sent id n <= 1)%nat;
  wa_mask : forall i p n, accepted !! i = Some p -> cover sent (Z.of_nat i + 1) n = 1%nat -> bit (wi_mask p) n = true;
  wa_done : forall i p n, accepted !! i = Some p -> rs !! (Z.of_nat i + 1) = None ->
    cover sent (Z.of_nat i + 1) n = Nat.b2n (bit (wi_mask p) n) /\ cover back (Z.of_nat i + 1) n = Nat.b2n (bit (wi_mask p) n)
}.

Lemma table_account rs accepted held delivered sent back : table_inv rs accepted held delivered sent back -> wire_account rs accepted sent back.
Proof.
  intros [T1 T2 T3 T4].
  assert (forall i p, accepted !! i = Some p -> (Z.of_nat i + 1 =? wire_number accepted) = false) as Hn.
  { intros i p Hp. pose proof (lookup_lt_Some _ _ _ Hp). apply Z.eqb_neq. unfold wire_number, zlen. lia. }
  split.
  - intros id n. destruct (rs !! id) as [r|] eqn:E.
    + destruct (T1 _ _ E) as [_ _ _ R4 R5 R6 _]. rewrite R5, R6. specialize (R4 n). destruct (bit (wi_done r) n); [rewrite R4 by done; done|]. destruct (bit (wi_sent r) n); cbn; lia.
    + destruct (T2 _ E n) as [-> ->]. destruct (bit _ n); cbn; lia.
  - intros i p n Hp Hc. pose proof (wire_at_accepted accepted held i p Hp) as Hw. destruct (rs !! (Z.of_nat i + 1)) as [r|] eqn:E.
    + destruct (T1 _ _ E) as [R1 _ R3 _ R5 _ _]. rewrite Hw in R1. injection R1 as ->. rewrite R5 in Hc. specialize (R3 n). unfold wire_open in R3. rewrite (Hn _ _ Hp) in R3. apply R3. by destruct (bit (wi_sent r) n).
    + destruct (T2 _ E n) as [H1 _]. cbv zeta in H1. rewrite (Hn _ _ Hp), Hw in H1. cbn in H1. rewrite H1 in Hc. by destruct (bit (wi_mask p) n).
  - intros i p n Hp E. destruct (T2 _ E n) as [H1 H2]. by rewrite (Hn _ _ Hp), (wire_at_accepted accepted held i p Hp) in H1, H2.
Qed.

(** ** Marking lanes *)

(** The masks of a key, in order. *)
Definition masks_of (ks : list (Z * Z)) (id : Z) : list Z := map snd (filter (fun k => k.1 = id) ks).

Lemma covers_masks ks id n : covers ks id n = existsb (fun m => bit m n) (masks_of ks id).
Proof. unfold masks_of. induction ks as [|k ks IH]; [done|]. cbn [covers existsb]. fold (covers ks id n). rewrite IH, filter_cons. case_decide; case_bool_decide; done. Qed.

Section Marks.
Context (mark : Z -> R -> R) (missing : error).

(** Each key is looked up and its record marked. *)
Definition mark_one rs (k : Z * Z) : result (gmap Z R) := match rs !! k.1 with None => Err missing | Some r => Ok (<[k.1 := mark k.2 r]> rs) end.

Lemma marks_ok ks rs : Forall (fun k => is_Some (rs !! k.1)) ks ->
  exists rs', foldM mark_one rs ks = Ok rs' /\ forall id, rs' !! id = (fun r => fold_left (fun r m => mark m r) (masks_of ks id) r) <$> rs !! id.
Proof.
  revert rs. induction ks as [|k ks IH]; intros rs Hk.
  - exists rs. split; [done|]. intros id. unfold masks_of. cbn. by destruct (rs !! id).
  - apply Forall_cons in Hk as [[r Hr] Hk]. cbn [foldM]. unfold mark_one at 1. rewrite Hr. cbn [result_bind].
    destruct (IH (<[k.1 := mark k.2 r]> rs)) as (rs' & E & Hrs).
    { eapply Forall_impl; [exact Hk|]. intros x [y Hy]. cbv beta. destruct (decide (k.1 = x.1)) as [<-|]; [rewrite lookup_insert_eq|rewrite lookup_insert_ne by done]; by eexists. }
    exists rs'. split; [done|]. intros id. rewrite Hrs. unfold masks_of. rewrite filter_cons. destruct (decide (k.1 = id)) as [<-|Hne].
    + by rewrite lookup_insert_eq, Hr.
    + by rewrite lookup_insert_ne by done.
Qed.
End Marks.
End Table.

(** ** Counting what the numbers stand for *)

Lemma sum_add {A} (f g : A -> nat) l : sum_list_with (fun x => f x + g x)%nat l = (sum_list_with f l + sum_list_with g l)%nat.
Proof. induction l as [|x l IH]; cbn; [done|]. rewrite IH. lia. Qed.

Lemma sum_ext {A} (f g : A -> nat) l : (forall x, x ∈ l -> f x = g x) -> sum_list_with f l = sum_list_with g l.
Proof. induction l as [|x l IH]; intros H; cbn; [done|]. rewrite H by (by left). f_equal. apply IH. intros y Hy. apply H. by right. Qed.

Lemma sum_single j c N : (j < N)%nat -> sum_list_with (fun i => if Nat.eqb j i then c else 0%nat) (seq 0 N) = c.
Proof.
  intros Hj. assert (forall l, NoDup l -> sum_list_with (fun i => if Nat.eqb j i then c else 0%nat) l = if decide (j ∈ l) then c else 0%nat) as Hl.
  { induction 1 as [|x l Hx _ IH]; [done|]. cbn [sum_list_with]. rewrite IH. destruct (Nat.eqb_spec j x) as [<-|Hne].
    - destruct (decide (j ∈ l)); [done|]. rewrite decide_True by (by left). lia.
    - destruct (decide (j ∈ l)) as [Hj'|Hj'], (decide (j ∈ x :: l)) as [Hc|Hc]; try done; exfalso; rewrite elem_of_cons in Hc; tauto. }
  rewrite Hl by apply NoDup_seq. rewrite decide_True; [done|]. apply elem_of_seq. lia.
Qed.

(** The entries of lane [q] whose number is of a kind [g], number by number. *)
Lemma count_numbers (sent : list (Z * Z)) (g : Z -> bool) q N : (forall x, x ∈ sent -> 1 <= x.1 <= Z.of_nat N) ->
  length (filter (fun x => g x.1 && bit x.2 q = true) sent) = sum_list_with (fun j => if g (Z.of_nat j + 1) then cover sent (Z.of_nat j + 1) q else 0%nat) (seq 0 N).
Proof.
  induction sent as [|x sent IH]; intros Hr.
  - clear Hr. cbn. induction (seq 0 N) as [|j l IH]; [done|]. cbn. rewrite <- IH. by destruct (g _).
  - pose proof (Hr x ltac:(by left)) as Hx. assert (Z.of_nat (Z.to_nat (x.1 - 1)) + 1 = x.1) as Ex by lia.
    rewrite (sum_ext _ (fun j => (if Nat.eqb (Z.to_nat (x.1 - 1)) j then Nat.b2n (g x.1 && bit x.2 q) else 0) + (if g (Z.of_nat j + 1)%Z then cover sent (Z.of_nat j + 1)%Z q else 0))%nat).
    + rewrite sum_add, sum_single by lia. rewrite <- IH by (intros y Hy; apply Hr; by right). rewrite filter_cons. case_decide as Hd; [rewrite Hd|apply not_true_iff_false in Hd; rewrite Hd]; done.
    + intros j _. rewrite cover_cons. destruct (Nat.eqb_spec (Z.to_nat (x.1 - 1)) j) as [<-|Hne].
      * rewrite Ex, bool_decide_true by done. destruct (g x.1); done.
      * rewrite bool_decide_false by lia. by destruct (g _).
Qed.

Lemma sum_lookup {A} (f : A -> nat) (l : list A) : sum_list_with (fun j => from_option f 0%nat (l !! j)) (seq 0 (length l)) = sum_list_with f l.
Proof.
  induction l as [|x l IH]; [done|]. cbn [length seq sum_list_with lookup list_lookup from_option]. f_equal. rewrite <- IH. rewrite <- fmap_S_seq.
  generalize (seq 0 (length l)). induction l0 as [|j js IHj]; [done|]. cbn. by rewrite IHj.
Qed.

Lemma cover_sum {K A} `{EqDecision K} (key : A -> K * Z) l (id : K) n : cover (map key l) id n = sum_list_with (fun x => Nat.b2n (bool_decide ((key x).1 = id) && bit (key x).2 n)) l.
Proof. induction l as [|x l IH]; [done|]. cbn [map sum_list_with]. by rewrite cover_cons, IH. Qed.

(** When every number of a list was sent once for what it stands for, what was sent stands
    for the list. *)
Lemma numbers_account {K P} `{EqDecision K} (accepted : list P) (sent : list (Z * Z)) (key : P -> K * Z) (stands : list (K * Z)) (id : K) n q :
  Forall2 (fun x y => 1 <= x.1 <= zlen accepted /\ forall p, accepted !! Z.to_nat (x.1 - 1) = Some p ->
    bool_decide (y.1 = id) && bit y.2 n = bool_decide ((key p).1 = id) && bit (key p).2 n && bit x.2 q) sent stands ->
  (forall j p, accepted !! j = Some p -> (key p).1 = id -> bit (key p).2 n = true -> cover sent (Z.of_nat j + 1) q = 1%nat) ->
  cover stands id n = cover (map key accepted) id n.
Proof.
  intros Hf Hs. set (g := fun k => match accepted !! Z.to_nat (k - 1) with Some p => bool_decide ((key p).1 = id) && bit (key p).2 n | None => false end).
  assert (cover stands id n = length (filter (fun x => g x.1 && bit x.2 q = true) sent)) as ->.
  { clear Hs. induction Hf as [|x y sent stands [Hr Hx] _ IH]; [done|]. rewrite cover_cons, IH, filter_cons. unfold zlen in Hr. destruct (lookup_lt_is_Some_2 accepted (Z.to_nat (x.1 - 1)) ltac:(lia)) as [p Ep].
    rewrite (Hx p Ep). assert (g x.1 = bool_decide ((key p).1 = id) && bit (key p).2 n) as -> by (unfold g; by rewrite Ep).
    destruct (bool_decide ((key p).1 = id) && bit (key p).2 n && bit x.2 q); [by rewrite decide_True|by rewrite decide_False]. }
  rewrite (count_numbers _ _ _ (length accepted)).
  - rewrite cover_sum, <- (sum_lookup _ accepted). apply sum_ext. intros j _. unfold g. replace (Z.to_nat (Z.of_nat j + 1 - 1)) with j by lia. destruct (accepted !! j) as [p|] eqn:Ep; [|done]. cbn [from_option].
    destruct (bool_decide ((key p).1 = id)) eqn:Ei; [|done]. destruct (bit (key p).2 n) eqn:Eb; [|done]. cbn. apply bool_decide_eq_true in Ei. by apply (Hs j p).
  - intros x Hx. apply list_elem_of_lookup_1 in Hx as [i Hi]. destruct (Forall2_lookup_l _ _ _ _ _ Hf Hi) as (y & _ & Hr & _). unfold zlen in Hr. lia.
Qed.

(** The numbers keep standing for the same requests. *)
Lemma wire_at_edge {P} (accepted : list P) (held cur : option P) (acc : bool) id p : (acc = true -> cur <> None) -> (held <> None -> cur = held) ->
  wire_at accepted held id = Some p -> wire_at (accepted ++ (if acc then option_list cur else [])) (if acc then None else cur) id = Some p.
Proof.
  intros Ha Hh Hw. assert (wire_number (accepted ++ (if acc then option_list cur else [])) = if acc then wire_number accepted + 1 else wire_number accepted) as En.
  { unfold wire_number, zlen. rewrite length_app. destruct acc; [|cbn; lia]. destruct cur; [cbn; lia|by destruct Ha]. }
  unfold wire_at in *. rewrite En. destruct (Z.eqb_spec id (wire_number accepted)) as [->|Hne].
  - subst held. assert (cur = Some p) as -> by (by apply Hh). destruct acc; [|by rewrite Z.eqb_refl]. rewrite (proj2 (Z.eqb_neq _ _)) by lia. unfold wire_number, zlen. rewrite (proj2 (Z.leb_le _ _)) by lia.
    cbn [option_list]. replace (Z.to_nat _) with (length accepted) by lia. by rewrite list_lookup_middle.
  - destruct (Z.leb_spec 1 id); [|done]. pose proof (lookup_lt_Some _ _ _ Hw). unfold wire_number, zlen in *. assert ((id =? (if acc then Z.of_nat (length accepted) + 1 + 1 else Z.of_nat (length accepted) + 1)) = false) as -> by (destruct acc; apply Z.eqb_neq; lia).
    by rewrite lookup_app_l.
Qed.

Lemma wire_at_now {P} (accepted : list P) (cur : option P) (acc : bool) p : cur = Some p ->
  wire_at (accepted ++ (if acc then option_list cur else [])) (if acc then None else cur) (wire_number accepted) = Some p.
Proof.
  intros ->. apply (wire_at_edge _ (Some p)); [done|done|]. unfold wire_at. by rewrite Z.eqb_refl.
Qed.
