(* ===== verification/SplitSpec.v ===== *)
(** * Runs of the SIMD split

    In any run of a fresh split every accepted request leaves each of its lanes once on the
    path of the lane, receives each of them back once, and is completed once; the records
    of the split are never missing where the code looks one up. *)

From stdpp Require Import sorting.
From S2P Require Import Prelude Memory TimingIR Memsys Coalescer Split Lanes.

#[local] Open Scope Z_scope.
#[local] Open Scope go_scope.

Definition keys (l : list SIMDResponse) : list (Identity * Z) := map (fun r => (ss_Identity r, ss_Mask r)) l.

(** ** Updates of the records *)

(** Every update of the first stages only adds lanes to four masks of one record. *)
Record delta := mkDelta { dl_id : Identity; dl_sent : Z; dl_arrived : Z; dl_completed : Z; dl_released : Z }.

Definition add_delta (d : delta) (r : splitRecord) : splitRecord :=
  mkSplitRecord (sr_request r) (sr_masks r) (sr_sent r .| dl_sent d) (sr_arrived r .| dl_arrived d) (sr_completed r .| dl_completed d) (sr_queued r) (sr_released r .| dl_released d) (sr_accepted r).

Definition add_deltas (ds : list delta) (rs : records) : result records := foldM (fun rs d => update_record (add_delta d) (dl_id d) rs) rs ds.

Definition progress_deltas (input : SplitInput) : list delta := flat_map (fun p => map (fun r => mkDelta (ss_Identity r) (ss_Mask r) 0 0 0) (sel (si_Progress input) p)) [0; 1].
Definition delivered_deltas (s : SIMDSplit) (input : SplitInput) : list delta :=
  map (fun r => mkDelta (ss_Identity r) 0 0 (ss_Mask r) 0) (if si_ResponseReady input then option_list (Split_Response s) else []).
Definition out_requests (s : SIMDSplit) (input : SplitInput) (p : Z) : list SIMDRequest := if sel (si_PathReady input) p then option_list (sel (Split_Outputs s) p) else [].
Definition taken_read (s : SIMDSplit) (input : SplitInput) (p : Z) : list SIMDResponse :=
  if sel (ReadReady s (si_Reads input) (si_ResponseReady input)) p then option_list (sel (si_Reads input) p) else [].
Definition path_deltas (s : SIMDSplit) (input : SplitInput) (p : Z) : list delta :=
  map (fun r => mkDelta (sq_Identity r) (sq_Mask r) 0 0 (sq_Mask r)) (out_requests s input p) ++
  map (fun r => mkDelta (ss_Identity r) 0 (ss_Mask r) 0 0) (taken_read s input p) ++
  map (fun r => mkDelta (ss_Identity r) 0 (ss_Mask r) (ss_Mask r) 0) (sel (si_Stores input) p).
Definition edge_deltas (s : SIMDSplit) (input : SplitInput) : list delta := progress_deltas input ++ delivered_deltas s input ++ path_deltas s input 0 ++ path_deltas s input 1.

Lemma update_record_ext f g id rs : (forall r, f r = g r) -> update_record f id rs = update_record g id rs.
Proof. intros H. unfold update_record. destruct (rs !! id); [by rewrite H|done]. Qed.

(** An update of one record is a delta. *)
Lemma update_delta f d rs : (forall r, f r = add_delta d r) -> update_record f (dl_id d) rs = update_record (add_delta d) (dl_id d) rs.
Proof. intros H. unfold update_record. destruct (rs !! dl_id d); [by rewrite H|done]. Qed.

Ltac same_record := let r := fresh in intros r; destruct r; unfold add_delta, set_sent, set_arrived, set_completed, set_released; cbn; by rewrite ?Z.lor_0_r.

Lemma add_deltas_map {A} (g : A -> delta) f xs rs : (forall x r, f x r = add_delta (g x) r) ->
  foldM (fun rs x => update_record (f x) (dl_id (g x)) rs) rs xs = add_deltas (map g xs) rs.
Proof. intros H. unfold add_deltas. rewrite foldM_map. apply foldM_ext. intros s x. by apply update_delta. Qed.

Lemma add_deltas_app ds ds' rs : add_deltas (ds ++ ds') rs = (let? rs := add_deltas ds rs in add_deltas ds' rs).
Proof. apply foldM_app. Qed.

Lemma option_updates {A} (g : A -> delta) f (o : option A) (b : bool) rs : (forall x r, f x r = add_delta (g x) r) ->
  (match o with Some x => if b then update_record (f x) (dl_id (g x)) rs else Ok rs | None => Ok rs end) = add_deltas (map g (if b then option_list o else [])) rs.
Proof.
  intros H. destruct o as [x|], b; try done. cbn [option_list map]. unfold add_deltas. cbn [foldM]. rewrite <- (update_delta (f x) (g x)) by apply H. by destruct (update_record (f x) (dl_id (g x)) rs).
Qed.

Lemma path_records_deltas s input rs p : path_records s input rs p = add_deltas (path_deltas s input p) rs.
Proof.
  unfold path_records, path_deltas, out_requests, taken_read. rewrite !add_deltas_app.
  rewrite <- (option_updates (fun r => mkDelta (sq_Identity r) (sq_Mask r) 0 0 (sq_Mask r)) (fun r rec => set_released (sq_Mask r) (set_sent (sq_Mask r) rec))) by (intros x; same_record).
  cbn [dl_id]. destruct (match sel (Split_Outputs s) p with Some r => _ | None => _ end) as [rs1|e]; [|done]. cbn [result_bind].
  rewrite add_deltas_app, <- (option_updates (fun r => mkDelta (ss_Identity r) 0 (ss_Mask r) 0 0) (fun r => set_arrived (ss_Mask r))) by (intros x; same_record).
  cbn [dl_id]. destruct (match sel (si_Reads input) p with Some r => _ | None => _ end) as [rs2|e]; [|done]. cbn [result_bind].
  apply (add_deltas_map (fun r => mkDelta (ss_Identity r) 0 (ss_Mask r) (ss_Mask r) 0) (fun r rec => set_completed (ss_Mask r) (set_arrived (ss_Mask r) rec))). intros x; same_record.
Qed.

Lemma progress_records_deltas input rs : progress_records input rs = add_deltas (progress_deltas input) rs.
Proof.
  unfold progress_records, progress_deltas. cbn [foldM flat_map]. rewrite app_nil_r, add_deltas_app.
  rewrite <- (add_deltas_map (fun r => mkDelta (ss_Identity r) (ss_Mask r) 0 0 0) (fun r => set_sent (ss_Mask r)) (sel (si_Progress input) 0)) by (intros x; same_record).
  cbn [dl_id]. destruct (foldM _ rs (sel (si_Progress input) 0)) as [rs1|e]; [|done]. cbn [result_bind].
  rewrite <- (add_deltas_map (fun r => mkDelta (ss_Identity r) (ss_Mask r) 0 0 0) (fun r => set_sent (ss_Mask r)) (sel (si_Progress input) 1)) by (intros x; same_record).
  cbn [dl_id]. by destruct (foldM _ rs1 (sel (si_Progress input) 1)).
Qed.

(** The stages before the request are one list of updates. *)
Lemma next_records_deltas s input : next_records s input = (let? rs := add_deltas (edge_deltas s input) (sp_records s) in request_records s input rs).
Proof.
  unfold next_records, edge_deltas. rewrite progress_records_deltas, !add_deltas_app. destruct (add_deltas (progress_deltas input) (sp_records s)) as [rs1|e]; [|done]. cbn [result_bind].
  rewrite add_deltas_app. unfold response_records, delivered_deltas.
  rewrite <- (option_updates (fun r => mkDelta (ss_Identity r) 0 0 (ss_Mask r) 0) (fun r => set_completed (ss_Mask r))) by (intros x; same_record).
  cbn [dl_id]. destruct (match Split_Response s with Some r => _ | None => _ end) as [rs2|e]; [|done]. cbn [result_bind foldM].
  rewrite path_records_deltas, add_deltas_app. destruct (add_deltas (path_deltas s input 0) rs2) as [rs3|e]; [|done]. cbn [result_bind]. rewrite path_records_deltas. by destruct (add_deltas (path_deltas s input 1) rs3).
Qed.

(** What the updates have made of a record. *)
Definition updated (ds : list delta) (id : Identity) (old new : splitRecord) : Prop :=
  sr_request new = sr_request old /\ sr_masks new = sr_masks old /\ sr_queued new = sr_queued old /\ sr_accepted new = sr_accepted old /\
  (forall n, bit (sr_sent new) n = bit (sr_sent old) n || covers (map (fun d => (dl_id d, dl_sent d)) ds) id n) /\
  (forall n, bit (sr_arrived new) n = bit (sr_arrived old) n || covers (map (fun d => (dl_id d, dl_arrived d)) ds) id n) /\
  (forall n, bit (sr_completed new) n = bit (sr_completed old) n || covers (map (fun d => (dl_id d, dl_completed d)) ds) id n) /\
  (forall n, bit (sr_released new) n = bit (sr_released old) n || covers (map (fun d => (dl_id d, dl_released d)) ds) id n).

Lemma add_deltas_ok ds rs : Forall (fun d => is_Some (rs !! dl_id d)) ds ->
  exists rs', add_deltas ds rs = Ok rs' /\ forall id, match rs !! id with Some old => exists new, rs' !! id = Some new /\ updated ds id old new | None => rs' !! id = None end.
Proof.
  revert rs. induction ds as [|d ds IH]; intros rs Hd.
  - exists rs. split; [done|]. intros id. destruct (rs !! id) as [old|] eqn:E; [|done]. exists old. split; [done|]. unfold updated. cbn. split_and!; intros; by rewrite ?orb_false_r.
  - apply Forall_cons in Hd as [[old Ho] Hd]. unfold add_deltas. cbn [foldM]. unfold update_record at 1. rewrite Ho. cbn [result_bind]. fold (add_deltas ds (<[dl_id d := add_delta d old]> rs)).
    destruct (IH (<[dl_id d := add_delta d old]> rs)) as (rs' & E & Hrs).
    { eapply Forall_impl; [exact Hd|]. intros x [y Hy]. cbv beta. destruct (decide (dl_id d = dl_id x)) as [<-|]; [rewrite lookup_insert_eq|rewrite lookup_insert_ne by done]; by eexists. }
    exists rs'. split; [done|]. intros id. specialize (Hrs id). destruct (decide (dl_id d = id)) as [<-|Hne].
    + rewrite lookup_insert_eq in Hrs. rewrite Ho. destruct Hrs as (new & En & U1 & U2 & U3 & U4 & U5 & U6 & U7 & U8). exists new. split; [done|]. unfold updated.
      cbn [map covers existsb fst snd]. rewrite (bool_decide_true (dl_id d = dl_id d)) by done. cbn [andb]. unfold add_delta in *. cbn [sr_request sr_masks sr_sent sr_arrived sr_completed sr_queued sr_released sr_accepted] in *.
      split_and!; try done; intros n; [rewrite U5|rewrite U6|rewrite U7|rewrite U8]; by rewrite Z.lor_spec, orb_assoc.
    + rewrite lookup_insert_ne in Hrs by done. destruct (rs !! id) as [old'|]; [|done]. destruct Hrs as (new & En & U). exists new. split; [done|]. unfold updated in *.
      cbn [map covers existsb fst snd]. rewrite (bool_decide_false (dl_id d = id)) by done. exact U.
Qed.

(** ** What the checks show *)

Lemma add_mask_bit id m pm id' n : bit (mask_of (add_mask id m pm) id') n = bit (mask_of pm id') n || (bool_decide (id = id') && bit m n).
Proof.
  unfold add_mask, mask_of. destruct (decide (id = id')) as [<-|Hne].
  - rewrite lookup_insert_eq, bool_decide_true by done. cbn. by rewrite Z.lor_spec.
  - rewrite lookup_insert_ne, bool_decide_false by done. by rewrite orb_false_r.
Qed.

Lemma progress_fold s p rs pm pm' : foldM (progress_item s p) pm rs = Ok pm' ->
  (forall r, r ∈ rs -> exists rec, sp_records s !! ss_Identity r = Some rec /\ forall n, bit (ss_Mask r) n = true -> bit (sr_queued rec) n = true) /\
  (forall id n, bit (mask_of pm' id) n = bit (mask_of pm id) n || covers (keys rs) id n).
Proof.
  revert pm. induction rs as [|r rs IH]; intros pm H; cbn [foldM] in H.
  - injection H as ->. split; [intros r Hr; by apply elem_of_nil in Hr|]. intros id n. cbn. by rewrite orb_false_r.
  - unfold progress_item at 1 in H. destruct (sp_records s !! ss_Identity r) as [rec|] eqn:Er; [|done].
    destruct (negb _) eqn:Ec in H; [|done]. cbn [result_bind] in H. apply negb_true_iff in Ec. rewrite !orb_false_iff in Ec. destruct Ec as [[[[_ _] _] Hq] _]. apply negb_false_iff, Z.eqb_eq in Hq.
    destruct (IH _ H) as [H1 H2]. split.
    + intros x Hx. apply elem_of_cons in Hx as [->|Hx]; [|by apply H1]. exists rec. split; [done|]. by apply ldiff_0_bits.
    + intros id n. rewrite H2, add_mask_bit. cbn [keys map covers existsb fst snd]. by rewrite orb_assoc.
Qed.

(** A completion of path [p] is of lanes that were sent there, in [pk] at the latest, and have
    not come back. *)
Definition completable (s : SIMDSplit) (pk : list (Identity * Z)) (p : Z) (r : SIMDResponse) : Prop :=
  ss_Mask r <> 0 /\ exists rec, sp_records s !! ss_Identity r = Some rec /\ sq_Tag (sr_request rec) = ss_Tag r /\
    forall n, bit (ss_Mask r) n = true -> bit (sel (sr_masks rec) p) n = true /\ bit (sr_sent rec) n || covers pk (ss_Identity r) n = true /\ bit (sr_arrived rec) n = false.

Lemma completion_fold s progress pk p write rs seen seen' : (forall id n, bit (mask_of progress id) n = covers pk id n) ->
  foldM (completion_item s progress p write) seen rs = Ok seen' ->
  (forall r, r ∈ rs -> completable s pk p r) /\
  (forall id n, (cover (keys rs) id n + Nat.b2n (bit (mask_of seen id) n))%nat = Nat.b2n (bit (mask_of seen' id) n)).
Proof.
  intros Hpk. revert seen. induction rs as [|r rs IH]; intros seen H; cbn [foldM] in H.
  - injection H as ->. split; [intros r Hr; by apply elem_of_nil in Hr|]. done.
  - unfold completion_item at 1 in H. destruct (sp_records s !! ss_Identity r) as [rec|] eqn:Er; [|done].
    destruct (negb _) eqn:Ec in H; [|done]. cbn [result_bind] in H. apply negb_true_iff in Ec. rewrite !orb_false_iff, !negb_false_iff, !Z.eqb_eq, Z.eqb_neq in Ec.
    destruct Ec as [[[[[[Et _] Hm] Hp] Hs] Ha] Hn]. destruct (IH _ H) as [H1 H2]. split.
    + intros x Hx. apply elem_of_cons in Hx as [->|Hx]; [|by apply H1]. split; [done|]. exists rec. split_and!; [done|done|]. intros n Hb. split_and!; [by apply (ldiff_0_bits _ _ Hp)| |].
      * rewrite <- Hpk, <- bits_or. by apply (ldiff_0_bits _ _ Hs).
      * pose proof (land_0_bits _ _ Ha n) as E. by rewrite Hb in E.
    + intros id n. rewrite <- H2, add_mask_bit. cbn [keys map]. rewrite cover_cons. cbn [fst snd]. pose proof (land_0_bits _ _ Hn n) as E. fold (keys rs).
      case_bool_decide as Hid; [subst id|cbn [andb Nat.b2n]; rewrite orb_false_r; lia]. destruct (bit (ss_Mask r) n); cbn [andb] in *; [rewrite E; cbn; lia|rewrite orb_false_r; cbn; lia].
Qed.

(** The read of a path and its stores. *)
Definition completions (input : SplitInput) (p : Z) : list SIMDResponse := option_list (sel (si_Reads input) p) ++ sel (si_Stores input) p.
Definition progress_keys (input : SplitInput) : list (Identity * Z) := keys (sel (si_Progress input) 0 ++ sel (si_Progress input) 1).

Lemma keys_app l l' : keys (l ++ l') = keys l ++ keys l'.
Proof. apply map_app. Qed.

Lemma path_check_completions s progress pk input seen seen' p : (forall id n, bit (mask_of progress id) n = covers pk id n) ->
  path_check s progress input seen p = Ok seen' ->
  (forall r, r ∈ completions input p -> completable s pk p r) /\
  (forall id n, (cover (keys (completions input p)) id n + Nat.b2n (bit (mask_of seen id) n))%nat = Nat.b2n (bit (mask_of seen' id) n)).
Proof.
  intros Hpk H. unfold path_check in H. destruct (stable_read _ _) as [[]|]; [|done]. cbn [result_bind] in H.
  assert (exists seen1, foldM (completion_item s progress p false) seen (option_list (sel (si_Reads input) p)) = Ok seen1 /\ foldM (completion_item s progress p true) seen1 (sel (si_Stores input) p) = Ok seen') as (seen1 & E1 & E2).
  { destruct (sel (si_Reads input) p) as [r|]; cbn [option_list foldM]; [|by exists seen]. destruct (completion_item s progress p false seen r) as [seen1|]; [|done]. by exists seen1. }
  apply (completion_fold _ _ _ _ _ _ _ _ Hpk) in E1 as [A1 B1], E2 as [A2 B2]. unfold completions. split.
  - intros r [Hr|Hr]%elem_of_app; auto.
  - intros id n. rewrite keys_app, cover_app. specialize (B1 id n). specialize (B2 id n). lia.
Qed.

Record checked (s : SIMDSplit) (input : SplitInput) : Prop := {
  ck_progress r : r ∈ sel (si_Progress input) 0 ++ sel (si_Progress input) 1 -> exists rec, sp_records s !! ss_Identity r = Some rec /\ forall n, bit (ss_Mask r) n = true -> bit (sr_queued rec) n = true;
  ck_completions p r : p = 0 \/ p = 1 -> r ∈ completions input p -> completable s (progress_keys input) p r;
  ck_once id n : (cover (keys (completions input 0 ++ completions input 1)) id n <= 1)%nat;
  ck_held : sp_held s <> None -> sp_held s = si_Request input;
  ck_request r : si_Request input = Some r -> validateSIMD r = Ok tt /\ (sp_used s = true -> sp_last s < id_Transaction (sq_Identity r))
}.

Lemma split_check_ok s cycle input : split_check s cycle input = Ok tt -> checked s input.
Proof.
  unfold split_check. destruct (negb (sp_started s && _)); [|done]. intros H. destruct (split_request_check s (si_Request input)) as [[]|] eqn:Er; [|done]. cbn [result_bind foldM] in H.
  destruct (foldM (progress_item s 0) ∅ (sel (si_Progress input) 0)) as [pm0|] eqn:E0; [|done]. cbn [result_bind] in H.
  destruct (foldM (progress_item s 1) pm0 (sel (si_Progress input) 1)) as [pm|] eqn:E1; [|done]. cbn [result_bind] in H.
  destruct (path_check s pm input ∅ 0) as [seen0|] eqn:C0; [|done]. cbn [result_bind] in H. destruct (path_check s pm input seen0 1) as [seen|] eqn:C1; [|done].
  apply progress_fold in E0 as [P0 B0], E1 as [P1 B1]. assert (forall id n, bit (mask_of pm id) n = covers (progress_keys input) id n) as Hpk.
  { intros id n. unfold progress_keys. rewrite B1, B0, keys_app, covers_app. unfold mask_of. by rewrite lookup_empty, Z.bits_0. }
  apply (path_check_completions _ _ _ _ _ _ _ Hpk) in C0 as [A0 N0], C1 as [A1 N1]. unfold split_request_check in Er. destruct (negb (present (sp_held s) && _)) eqn:Eh; [|done]. split.
  - intros r [Hr|Hr]%elem_of_app; auto.
  - intros p r [-> | ->]; auto.
  - intros id n. rewrite keys_app, cover_app. specialize (N0 id n). specialize (N1 id n). destruct (bit (mask_of seen id) n); cbn in N1; lia.
  - intros Hh. apply negb_true_iff, andb_false_iff in Eh as [Eh|Eh%negb_false_iff%bool_decide_eq_true]; [|done]. by destruct (sp_held s).
  - intros r E. rewrite E in Er. cbn [result_bind] in Er. destruct (validateSIMD r) as [[]|]; [|done]. cbn [result_bind] in Er. split; [done|]. intros Hu. rewrite Hu in Er. cbn [andb] in Er.
    destruct (Z.leb_spec (id_Transaction (sq_Identity r)) (sp_last s)); [done|lia].
Qed.

(** ** The masks of a request *)

Lemma splitMasks_bits r n : validateSIMD r = Ok tt -> bit (sq_Mask r) n = bit (splitMasks r).1 n || bit (splitMasks r).2 n /\ bit (splitMasks r).1 n && bit (splitMasks r).2 n = false.
Proof.
  intros Hv. unfold validateSIMD in Hv. destruct (negb ((sq_Mask r =? 0) || (sq_Mask r .&^ 15 <>? 0))) eqn:E; [|done]. apply negb_true_iff, orb_false_iff in E as [_ E%negb_false_iff%Z.eqb_eq].
  destruct (decide (n < 0)) as [Hn|Hn]; [by rewrite !Z.testbit_neg_r|]. pose proof (ldiff_0_bits _ _ E n) as Hm. unfold splitMasks, fold4. cbn [fst snd fold_left]. rewrite !Z.lor_spec, !Z.bits_0, !run_enabled_bit by lia.
  destruct (decide (n < 4)) as [Hn4|Hn4].
  - assert (n = 0 \/ n = 1 \/ n = 2 \/ n = 3) as Hc by lia.
    destruct (bit (sq_Mask r) 0) eqn:?, (bit (sq_Mask r) 1) eqn:?, (bit (sq_Mask r) 2) eqn:?, (bit (sq_Mask r) 3) eqn:?, (la_Local (qget (sq_Lanes r) 0)), (la_Local (qget (sq_Lanes r) 1)), (la_Local (qget (sq_Lanes r) 2)),
      (la_Local (qget (sq_Lanes r) 3)); destruct_or! Hc; subst n; split; (assumption || reflexivity).
  - assert (bit 15 n = false) as E15 by (change 15 with (Z.ones 4); rewrite Z.testbit_ones_nonneg by lia; apply Z.ltb_ge; lia).
    assert (bit (sq_Mask r) n = false) as -> by (destruct (bit (sq_Mask r) n); [by rewrite Hm in E15|done]).
    assert (forall b i, 0 <= i < 4 -> bit (if b : bool then 1 << i else 0) n = false) as Hz.
    { intros b i Hi. destruct b; [|apply Z.bits_0]. rewrite testbit_shiftl_at by lia. change 1 with (Z.ones 1). rewrite Z.testbit_ones by lia. lia. }
    by rewrite !Hz by lia.
Qed.

Lemma splitMasks_some r : validateSIMD r = Ok tt -> (splitMasks r).1 <> 0 \/ (splitMasks r).2 <> 0.
Proof.
  intros Hv. destruct (Z.eq_dec (splitMasks r).1 0) as [E1|]; [|by left]. destruct (Z.eq_dec (splitMasks r).2 0) as [E2|]; [|by right]. exfalso.
  assert (sq_Mask r = 0) as E. { apply Z.bits_inj. intros n. destruct (splitMasks_bits r n Hv) as [-> _]. by rewrite E1, E2, Z.bits_0. }
  unfold validateSIMD in Hv. by rewrite E in Hv.
Qed.

(** ** Runs *)

(** What a run shows: the accepted requests, the lanes that left, the responses and store
    events that came back, and the completed identities. *)
Record split_trace := mkSplitTrace { st_accepted : list SIMDRequest; st_outs : list SIMDRequest; st_back : list SIMDResponse; st_complete : list Identity }.

Definition no_split_trace : split_trace := mkSplitTrace [] [] [] [].
Definition split_trace_app (t u : split_trace) : split_trace :=
  mkSplitTrace (st_accepted t ++ st_accepted u) (st_outs t ++ st_outs u) (st_back t ++ st_back u) (st_complete t ++ st_complete u).

Definition split_edge_trace (input : SplitInput) (e : SplitEdge) : split_trace :=
  mkSplitTrace (if se_Accepted e then option_list (si_Request input) else [])
    ((if (se_OutputDelivered e).1 then option_list (se_Outputs e).1 else []) ++ (if (se_OutputDelivered e).2 then option_list (se_Outputs e).2 else []))
    ((if se_ResponseDelivered e then option_list (se_Response e) else []) ++ se_Stores e) (se_Complete e).

Fixpoint split_run (s : SIMDSplit) (cycle : Z) (inputs : list SplitInput) : option (SIMDSplit * split_trace) :=
  match inputs with
  | [] => Some (s, no_split_trace)
  | input :: inputs =>
      match Split_Step s cycle input with
      | (_, Err _) => None
      | (s', Ok e) => match split_run s' (cycle + 1) inputs with Some (s'', t) => Some (s'', split_trace_app (split_edge_trace input e) t) | None => None end
      end
  end.

(** The lanes that left, as identities and masks. *)
Definition out_keys (l : list SIMDRequest) : list (Identity * Z) := map (fun r => (sq_Identity r, sq_Mask r)) l.

Lemma out_keys_app l l' : out_keys (l ++ l') = out_keys l ++ out_keys l'.
Proof. apply map_app. Qed.

Definition queued_requests (s : SIMDSplit) : list SIMDRequest := qu_values (sp_requests s).1 ++ qu_values (sp_requests s).2.
Definition queued_responses (s : SIMDSplit) : list SIMDResponse := qu_values (sp_responses s).

(** ** The invariant *)

Record record_ok (s : SIMDSplit) (t : split_trace) (id : Identity) (rec : splitRecord) : Prop := {
  rc_id : sq_Identity (sr_request rec) = id;
  rc_valid : validateSIMD (sr_request rec) = Ok tt;
  rc_masks : sr_masks rec = splitMasks (sr_request rec);
  rc_sent n : bit (sr_sent rec) n = true -> bit (sr_queued rec) n = true;
  rc_arrived n : bit (sr_arrived rec) n = true -> bit (sr_sent rec) n = true;
  rc_queued n : bit (sr_queued rec) n = true -> bit (sq_Mask (sr_request rec)) n = true;
  rc_released n : (Nat.b2n (bit (sr_released rec) n) + cover (out_keys (queued_requests s)) id n)%nat = Nat.b2n (bit (sr_queued rec) n);
  rc_completed n : (Nat.b2n (bit (sr_completed rec) n) + cover (keys (queued_responses s)) id n)%nat = Nat.b2n (bit (sr_arrived rec) n);
  rc_out n : cover (out_keys (st_outs t)) id n = Nat.b2n (bit (sr_released rec) n);
  rc_back n : cover (keys (st_back t)) id n = Nat.b2n (bit (sr_completed rec) n)
}.

Record split_inv (s : SIMDSplit) (t : split_trace) : Prop := {
  iv_records id rec : sp_records s !! id = Some rec -> record_ok s t id rec;
  iv_source id rec : sp_records s !! id = Some rec -> if sr_accepted rec then sr_request rec ∈ st_accepted t else sp_held s = Some (sr_request rec);
  iv_requests r : r ∈ queued_requests s -> sq_Mask r <> 0 /\ is_Some (sp_records s !! sq_Identity r);
  iv_responses r : r ∈ queued_responses s -> ss_Mask r <> 0 /\ exists rec, sp_records s !! ss_Identity r = Some rec /\ ss_Tag r = sq_Tag (sr_request rec);
  iv_unknown id n : sp_records s !! id = None -> id ∉ map sq_Identity (st_accepted t) -> cover (out_keys (st_outs t)) id n = 0%nat /\ cover (keys (st_back t)) id n = 0%nat;
  iv_done r n : r ∈ st_accepted t -> sp_records s !! sq_Identity r = None ->
    cover (out_keys (st_outs t)) (sq_Identity r) n = Nat.b2n (bit (sq_Mask r) n) /\ cover (keys (st_back t)) (sq_Identity r) n = Nat.b2n (bit (sq_Mask r) n);
  iv_tags x : x ∈ st_back t -> exists r, r ∈ st_accepted t ++ option_list (sp_held s) /\ sq_Identity r = ss_Identity x /\ sq_Tag r = ss_Tag x;
  iv_complete id : id ∈ st_complete t <-> id ∈ map sq_Identity (st_accepted t) /\ sp_records s !! id = None;
  iv_complete_once : NoDup (st_complete t);
  iv_accepted_once : NoDup (map sq_Identity (st_accepted t));
  iv_stale r : r ∈ st_accepted t -> sp_used s = true /\ id_Transaction (sq_Identity r) <= sp_last s;
  iv_held r : sp_held s = Some r -> validateSIMD r = Ok tt /\ (sp_used s = true -> sp_last s < id_Transaction (sq_Identity r));
  iv_fresh : sp_held s = None -> sp_submitted s = 0;
  iv_submitted r p : sp_held s = Some r -> p = 0 \/ p = 1 ->
    if enabled (sp_submitted s) p then exists rec, sp_records s !! sq_Identity r = Some rec /\ forall n, bit (sel (splitMasks r) p) n = true -> bit (sr_queued rec) n = true
    else forall rec n, sp_records s !! sq_Identity r = Some rec -> bit (sel (splitMasks r) p) n = true -> bit (sr_queued rec) n = false
}.

(** ** One edge *)

Section Edge.
Context (s : SIMDSplit) (t : split_trace) (input : SplitInput) (Hinv : split_inv s t) (Hck : checked s input).

Definition outs : list SIMDRequest := out_requests s input 0 ++ out_requests s input 1.
Definition deliv : list SIMDResponse := if si_ResponseReady input then option_list (Split_Response s) else [].
Definition taken : list SIMDResponse := taken_read s input 0 ++ taken_read s input 1.
Definition stores : list SIMDResponse := (si_Stores input).1 ++ (si_Stores input).2.

Lemma covers_zero {A} (f : A -> Identity) (l : list A) id n : covers (map (fun x => (f x, 0)) l) id n = false.
Proof. induction l as [|x l IH]; [done|]. cbn [map covers existsb fst snd]. rewrite Z.bits_0, andb_false_r. exact IH. Qed.

Ltac delta_covers :=
  intros id n; unfold edge_deltas, progress_deltas, delivered_deltas, path_deltas, outs, taken, stores, deliv, progress_keys, keys, out_keys; cbn [flat_map]; rewrite ?app_nil_r, ?map_app, ?map_map;
  cbn [dl_id dl_sent dl_arrived dl_completed dl_released sel Z.eqb fst snd]; rewrite ?covers_app, ?covers_zero, ?orb_false_r, ?orb_false_l;
  repeat match goal with |- context [covers ?l id n] => generalize (covers l id n); intros [] end; reflexivity.

Lemma sent_covers : forall id n, covers (map (fun d => (dl_id d, dl_sent d)) (edge_deltas s input)) id n = covers (progress_keys input) id n || covers (out_keys outs) id n.
Proof. delta_covers. Qed.
Lemma arrived_covers : forall id n, covers (map (fun d => (dl_id d, dl_arrived d)) (edge_deltas s input)) id n = covers (keys (taken ++ stores)) id n.
Proof. delta_covers. Qed.
Lemma completed_covers : forall id n, covers (map (fun d => (dl_id d, dl_completed d)) (edge_deltas s input)) id n = covers (keys (deliv ++ stores)) id n.
Proof. delta_covers. Qed.
Lemma released_covers : forall id n, covers (map (fun d => (dl_id d, dl_released d)) (edge_deltas s input)) id n = covers (out_keys outs) id n.
Proof. delta_covers. Qed.

Lemma outs_queued r : r ∈ outs -> r ∈ queued_requests s.
Proof.
  unfold outs, out_requests, queued_requests, Split_Outputs, queue_head. cbn [sel fst snd Z.eqb]. intros [H|H]%elem_of_app; apply elem_of_app; [left|right].
  - destruct (si_PathReady input).1; [|by apply elem_of_nil in H]. destruct (qu_values (sp_requests s).1) as [|x l]; [by apply elem_of_nil in H|]. cbn in H. apply list_elem_of_singleton in H as ->. by left.
  - destruct (si_PathReady input).2; [|by apply elem_of_nil in H]. destruct (qu_values (sp_requests s).2) as [|x l]; [by apply elem_of_nil in H|]. cbn in H. apply list_elem_of_singleton in H as ->. by left.
Qed.

Lemma deliv_queued r : r ∈ deliv -> r ∈ queued_responses s.
Proof.
  unfold deliv, Split_Response, queue_head, queued_responses. destruct (si_ResponseReady input); [|by intros H%elem_of_nil]. destruct (qu_values (sp_responses s)) as [|x l]; [by intros H%elem_of_nil|].
  cbn. intros ->%list_elem_of_singleton. by left.
Qed.

Lemma taken_completions r : r ∈ taken -> exists p, (p = 0 \/ p = 1) /\ r ∈ completions input p.
Proof.
  unfold taken, taken_read, completions. intros [H|H]%elem_of_app; [exists 0|exists 1]; (split; [auto|]); apply elem_of_app; left; by destruct (sel (ReadReady _ _ _) _); [|apply elem_of_nil in H].
Qed.

Lemma stores_completions r : r ∈ stores -> exists p, (p = 0 \/ p = 1) /\ r ∈ completions input p.
Proof. unfold stores, completions. intros [H|H]%elem_of_app; [exists 0|exists 1]; (split; [auto|]); apply elem_of_app; by right. Qed.

Lemma returned_completable r : r ∈ taken ++ stores -> exists p, (p = 0 \/ p = 1) /\ completable s (progress_keys input) p r.
Proof. intros [H|H]%elem_of_app; [apply taken_completions in H|apply stores_completions in H]; destruct H as (p & Hp & H); exists p; (split; [done|]); by apply (ck_completions _ _ Hck). Qed.

(** A returned lane is of a record, was sent and is new. *)
Lemma returned_lane id n : covers (keys (taken ++ stores)) id n = true ->
  exists rec, sp_records s !! id = Some rec /\ bit (sr_sent rec) n || covers (progress_keys input) id n = true /\ bit (sr_arrived rec) n = false.
Proof.
  rewrite covers_true. intros (m & Hin & Hb). unfold keys in Hin. apply list_elem_of_fmap in Hin as (r & [= -> ->] & Hr). apply returned_completable in Hr as (p & Hp & _ & rec & Er & _ & Hn).
  exists rec. split; [done|]. by destruct (Hn n Hb) as (_ & H1 & H2).
Qed.

Lemma returned_once id n : (cover (keys (taken ++ stores)) id n <= 1)%nat.
Proof.
  pose proof (ck_once _ _ Hck id n) as H. unfold completions, taken, taken_read, stores in *. cbn [sel Z.eqb] in *. rewrite !keys_app, !cover_app in *.
  destruct (ReadReady s (si_Reads input) (si_ResponseReady input)) as [[] []]; cbn [fst snd] in *; change (keys []) with (@nil (Identity * Z)); change (cover [] id n) with 0%nat; lia.
Qed.

Lemma edge_deltas_present : Forall (fun d => is_Some (sp_records s !! dl_id d)) (edge_deltas s input).
Proof.
  assert (forall r, r ∈ outs -> is_Some (sp_records s !! sq_Identity r)) as Ho by (intros r Hr; by apply (iv_requests _ _ Hinv r), outs_queued).
  assert (forall r, r ∈ taken ++ stores -> is_Some (sp_records s !! ss_Identity r)) as Hr by (intros r (p & _ & _ & rec & E & _)%returned_completable; by exists rec).
  unfold edge_deltas, progress_deltas, delivered_deltas, path_deltas. fold deliv. cbn [flat_map]. rewrite app_nil_r. setoid_rewrite elem_of_app in Hr. unfold outs, taken, stores in *. setoid_rewrite elem_of_app in Ho. setoid_rewrite elem_of_app in Hr.
  rewrite !Forall_app. split_and!; apply Forall_fmap, Forall_forall; intros r Hin; cbn; auto.
  1,2: destruct (ck_progress _ _ Hck r) as (rec & E & _); [apply elem_of_app; auto|by exists rec].
  destruct (iv_responses _ _ Hinv r (deliv_queued r Hin)) as (_ & rec & E & _). by exists rec.
Qed.

(** What the edge makes of an old record before the request is looked at. *)
Record advanced (id : Identity) (old new : splitRecord) : Prop := {
  ad_request : sr_request new = sr_request old;
  ad_masks : sr_masks new = sr_masks old;
  ad_queued : sr_queued new = sr_queued old;
  ad_accepted : sr_accepted new = sr_accepted old;
  ad_sent n : bit (sr_sent new) n = true -> bit (sr_queued old) n = true;
  ad_arrived n : bit (sr_arrived new) n = true -> bit (sr_sent new) n = true;
  ad_released n : Nat.b2n (bit (sr_released new) n) = (Nat.b2n (bit (sr_released old) n) + cover (out_keys outs) id n)%nat;
  ad_completed n : Nat.b2n (bit (sr_completed new) n) = (Nat.b2n (bit (sr_completed old) n) + cover (keys (deliv ++ stores)) id n)%nat;
  ad_returned n : Nat.b2n (bit (sr_arrived new) n) = (Nat.b2n (bit (sr_arrived old) n) + cover (keys (taken ++ stores)) id n)%nat
}.

(** A flag that takes lanes it did not have counts them. *)
Lemma b2n_covers b l (id : Identity) n : (Nat.b2n b + cover l id n <= 1)%nat -> Nat.b2n (b || covers l id n) = (Nat.b2n b + cover l id n)%nat.
Proof. intros H. rewrite cover_covers in * by lia. destruct b, (covers l id n); cbn in *; lia. Qed.

(** The requests and the response that leave are part of the queues. *)
Lemma outs_cover id n : (cover (out_keys outs) id n <= cover (out_keys (queued_requests s)) id n)%nat.
Proof.
  unfold outs, out_requests, queued_requests, Split_Outputs, queue_head. cbn [sel fst snd Z.eqb]. rewrite !out_keys_app, !cover_app.
  assert (forall (b : bool) (l : list SIMDRequest), (cover (out_keys (if b then option_list (head l) else [])) id n <= cover (out_keys l) id n)%nat) as H.
  { intros [] [|x l]; try (cbn; lia). cbn [head option_list out_keys map]. rewrite !cover_cons. change (cover [] id n) with 0%nat. lia. }
  pose proof (H (si_PathReady input).1 (qu_values (sp_requests s).1)). pose proof (H (si_PathReady input).2 (qu_values (sp_requests s).2)). lia.
Qed.

Lemma deliv_cover id n : (cover (keys deliv) id n <= cover (keys (queued_responses s)) id n)%nat.
Proof.
  unfold deliv, Split_Response, queue_head, queued_responses. destruct (si_ResponseReady input), (qu_values (sp_responses s)) as [|x l]; try (cbn; lia). cbn [head option_list keys map]. rewrite !cover_cons. change (cover [] id n) with 0%nat. lia.
Qed.

Lemma advance_record id old new : sp_records s !! id = Some old -> updated (edge_deltas s input) id old new -> advanced id old new.
Proof.
  intros Eo (U1 & U2 & U3 & U4 & U5 & U6 & U7 & U8). pose proof (iv_records _ _ Hinv id old Eo) as R. setoid_rewrite sent_covers in U5. setoid_rewrite arrived_covers in U6. setoid_rewrite completed_covers in U7. setoid_rewrite released_covers in U8.
  assert (forall n, (Nat.b2n (bit (sr_arrived old) n) + cover (keys (taken ++ stores)) id n <= 1)%nat) as Har.
  { intros n. pose proof (returned_once id n) as H1. destruct (covers (keys (taken ++ stores)) id n) eqn:Ec; [|rewrite cover_covers, Ec by done; destruct (bit (sr_arrived old) n); cbn; lia].
    destruct (returned_lane id n Ec) as (rec & Er & _ & Ha). rewrite Eo in Er. injection Er as <-. rewrite Ha. cbn. lia. }
  assert (forall n, (Nat.b2n (bit (sr_released old) n) + cover (out_keys outs) id n <= 1)%nat) as Hre.
  { intros n. pose proof (rc_released _ _ _ _ R n). pose proof (outs_cover id n). destruct (bit (sr_queued old) n); cbn in *; lia. }
  assert (forall n, covers (out_keys outs) id n = true -> bit (sr_queued old) n = true) as Hoq.
  { intros n Hc. pose proof (rc_released _ _ _ _ R n). pose proof (outs_cover id n). specialize (Hre n). rewrite (cover_covers (out_keys outs)), Hc in * by lia. destruct (bit (sr_queued old) n); cbn in *; [done|lia]. }
  split; try done.
  - intros n. rewrite U5, !orb_true_iff. intros [H|[H|H]]; [by apply (rc_sent _ _ _ _ R)| |by apply Hoq].
    apply covers_true in H as (m & Hin & Hb). unfold progress_keys, keys in Hin. apply list_elem_of_fmap in Hin as (r & [= -> ->] & Hr). destruct (ck_progress _ _ Hck r Hr) as (rec & Er & Hq). rewrite Eo in Er. injection Er as <-. by apply Hq.
  - intros n. rewrite U5, U6, !orb_true_iff. intros [H|H]; [left; by apply (rc_arrived _ _ _ _ R)|]. destruct (returned_lane id n H) as (rec & Er & Hs & _). rewrite Eo in Er. injection Er as <-. apply orb_true_iff in Hs. tauto.
  - intros n. rewrite U8. by apply b2n_covers.
  - intros n. rewrite U7. apply b2n_covers. pose proof (rc_completed _ _ _ _ R n). pose proof (deliv_cover id n). specialize (Har n). rewrite !keys_app, !cover_app in *. lia.
  - intros n. rewrite U6. by apply b2n_covers.
Qed.

Definition pushes : list SIMDRequest := option_list (pushed_subset s input 0) ++ option_list (pushed_subset s input 1).
Definition pushed_lane (r : SIMDRequest) (n : Z) : bool :=
  (subset_accepted s input 0 && bit (splitMasks r).1 n) || (subset_accepted s input 1 && bit (splitMasks r).2 n).

(** The record of the request after the request stage. *)
Definition requested (r : SIMDRequest) (old : option splitRecord) : splitRecord :=
  let rec := default (mkSplitRecord r (splitMasks r) 0 0 0 0 0 false) old in
  mkSplitRecord (sr_request rec) (sr_masks rec) (sr_sent rec) (sr_arrived rec) (sr_completed rec)
    ((sr_queued rec .| (if subset_accepted s input 0 then (splitMasks r).1 else 0)) .| (if subset_accepted s input 1 then (splitMasks r).2 else 0))
    (sr_released rec) (sr_accepted rec || split_accepted s input).

Definition any_subset : bool := subset_accepted s input 0 || subset_accepted s input 1.

Lemma request_stage r rs : si_Request input = Some r -> (split_accepted s input = true -> is_Some (rs !! sq_Identity r) \/ any_subset = true) ->
  exists rs', request_records s input rs = Ok rs' /\ (forall id, id <> sq_Identity r -> rs' !! id = rs !! id) /\
    rs' !! sq_Identity r = if decide (is_Some (rs !! sq_Identity r) \/ any_subset = true) then Some (requested r (rs !! sq_Identity r)) else None.
Proof.
  intros Er Hsome. unfold request_records. rewrite Er. set (rs2 := queue_subset s input r (queue_subset s input r rs 0) 1).
  assert (forall id, id <> sq_Identity r -> rs2 !! id = rs !! id) as Hne.
  { intros id Hid. unfold rs2, queue_subset. destruct (subset_accepted s input 0), (subset_accepted s input 1); rewrite ?lookup_insert_ne by done; done. }
  assert (forall b x, (if b : bool then set_accepted x else x) = mkSplitRecord (sr_request x) (sr_masks x) (sr_sent x) (sr_arrived x) (sr_completed x) (sr_queued x) (sr_released x) (sr_accepted x || b)) as Hacc.
  { intros [] []; cbn; [by rewrite orb_true_r|by rewrite orb_false_r]. }
  assert (rs2 !! sq_Identity r = if decide (is_Some (rs !! sq_Identity r) \/ any_subset = true)
            then Some (let x := requested r (rs !! sq_Identity r) in mkSplitRecord (sr_request x) (sr_masks x) (sr_sent x) (sr_arrived x) (sr_completed x) (sr_queued x) (sr_released x) (sr_accepted (default (mkSplitRecord r (splitMasks r) 0 0 0 0 0 false) (rs !! sq_Identity r)))) else None) as Heq.
  { unfold rs2, queue_subset, requested, any_subset. destruct (subset_accepted s input 0), (subset_accepted s input 1); rewrite ?lookup_insert_eq; cbn [default from_option sel Z.eqb orb]; destruct (rs !! sq_Identity r) as [x|];
      (destruct (decide _) as [Hd|Hd]; [|try (exfalso; apply Hd; by eauto)]); try (destruct Hd as [[? ?]|?]; done); unfold set_queued; cbn; rewrite ?Z.lor_0_r, ?Z.lor_0_l; try done; try (by destruct x). }
  destruct (split_accepted s input) eqn:Ea.
  - destruct (decide _) as [Hd|Hd] in Heq; [|exfalso; by apply Hd, Hsome]. unfold update_record. rewrite Heq. eexists. split; [done|]. split; [intros id Hid; rewrite lookup_insert_ne by done; by apply Hne|].
    rewrite lookup_insert_eq. destruct (decide _) as [_|Hn]; [|done]. f_equal. unfold requested. cbn. by rewrite Ea, orb_true_r.
  - exists rs2. split; [done|]. split; [done|]. rewrite Heq. destruct (decide _); [|done]. f_equal. unfold requested. cbn. by rewrite Ea, orb_false_r.
Qed.

Lemma pushes_cover r id n : si_Request input = Some r -> validateSIMD r = Ok tt -> cover (out_keys pushes) id n = if decide (sq_Identity r = id) then Nat.b2n (pushed_lane r n) else 0%nat.
Proof.
  intros Er Hv. destruct (splitMasks_bits r n Hv) as [_ Hd]. unfold pushes, pushed_subset, pushed_lane. rewrite Er, out_keys_app, cover_app.
  destruct (subset_accepted s input 0), (subset_accepted s input 1); cbn [option_list out_keys map]; rewrite ?cover_cons; change (cover [] id n) with 0%nat; cbn [fst snd with_mask sq_Identity sq_Mask sel Z.eqb andb orb];
    case_decide as Hid; [rewrite !bool_decide_true by done|rewrite !bool_decide_false by done| | | | | |]; rewrite ?(bool_decide_true (sq_Identity r = id)) by done; rewrite ?(bool_decide_false (sq_Identity r = id)) by done;
    cbn [andb Nat.b2n]; destruct (bit (splitMasks r).1 n), (bit (splitMasks r).2 n); cbn in *; try done; lia.
Qed.

Lemma no_pushes : si_Request input = None -> pushes = [].
Proof. intros E. unfold pushes, pushed_subset. by rewrite E. Qed.

(** A record of the request's identity before the edge is the held request's. *)
Lemma request_record r rec : si_Request input = Some r -> sp_records s !! sq_Identity r = Some rec -> sr_accepted rec = false /\ sr_request rec = r /\ sp_held s = Some r.
Proof.
  intros Er Hl. pose proof (iv_records _ _ Hinv _ _ Hl) as R. pose proof (iv_source _ _ Hinv _ _ Hl) as Hs. destruct (sr_accepted rec).
  - exfalso. destruct (iv_stale _ _ Hinv _ Hs) as [Hu Hle]. destruct (ck_request _ _ Hck r Er) as [_ Hlt]. rewrite (rc_id _ _ _ _ R) in Hle. specialize (Hlt Hu). lia.
  - pose proof (ck_held _ _ Hck ltac:(by rewrite Hs)) as Hh. rewrite Hs, Er in Hh. injection Hh as Hh. split_and!; congruence.
Qed.

Lemma request_fresh r : si_Request input = Some r -> sq_Identity r ∉ map sq_Identity (st_accepted t).
Proof.
  intros Er (x & Ex & Hx)%list_elem_of_fmap. destruct (iv_stale _ _ Hinv _ Hx) as [Hu Hle]. destruct (ck_request _ _ Hck r Er) as [_ Hlt]. rewrite <- Ex in Hle. specialize (Hlt Hu). lia.
Qed.

Lemma enabled_submitted p : p = 0 \/ p = 1 -> enabled (submitted s input) p = enabled (sp_submitted s) p || subset_accepted s input p.
Proof.
  intros Hp. unfold submitted. rewrite !run_enabled_bit by lia. rewrite !Z.lor_spec. destruct Hp as [-> | ->], (subset_accepted s input 0), (subset_accepted s input 1); cbn; by rewrite ?orb_false_r, ?orb_true_r.
Qed.

(** The lanes that enter the queues have not been queued before. *)
Lemma pushed_new r rec p n : si_Request input = Some r -> p = 0 \/ p = 1 -> subset_accepted s input p = true -> sp_records s !! sq_Identity r = Some rec -> bit (sel (splitMasks r) p) n = true -> bit (sr_queued rec) n = false.
Proof.
  intros Er Hp Ha Hl Hb. destruct (request_record r rec Er Hl) as (_ & _ & Hh). pose proof (iv_submitted _ _ Hinv r p Hh Hp) as Hs. unfold subset_accepted in Ha. rewrite Er in Ha. rewrite !andb_true_iff in Ha.
  destruct Ha as [[_ Hns%negb_true_iff] _]. rewrite Hns in Hs. by apply (Hs rec n).
Qed.

(** An accepted request has its record. *)
Lemma accepted_recorded r (rs : records) : si_Request input = Some r -> (forall id, is_Some (sp_records s !! id) -> is_Some (rs !! id)) -> split_accepted s input = true -> is_Some (rs !! sq_Identity r) \/ any_subset = true.
Proof.
  intros Er Hrs Ha. destruct (ck_request _ _ Hck r Er) as [Hv _]. unfold split_accepted in Ha. rewrite Er, andb_true_iff, !orb_true_iff, !Z.eqb_eq, !enabled_submitted in Ha by auto. destruct Ha as [H0 H1]. unfold any_subset.
  assert (forall p, p = 0 \/ p = 1 -> enabled (sp_submitted s) p = true -> is_Some (sp_records s !! sq_Identity r)) as Hold.
  { intros p Hp He. destruct (sp_held s) as [x|] eqn:Eh.
    - pose proof (ck_held _ _ Hck ltac:(by rewrite Eh)) as Ex. rewrite Eh, Er in Ex. injection Ex as ->. pose proof (iv_submitted _ _ Hinv r p Eh Hp) as Hs. rewrite He in Hs. destruct Hs as (rec & E & _). by exists rec.
    - rewrite (iv_fresh _ _ Hinv Eh) in He. by destruct Hp as [-> | ->]. }
  assert (forall p, p = 0 \/ p = 1 -> enabled (sp_submitted s) p || subset_accepted s input p = true -> is_Some (rs !! sq_Identity r) \/ subset_accepted s input 0 || subset_accepted s input 1 = true) as Hgo.
  { intros p Hp [He|He]%orb_true_iff; [left; eauto|right]. destruct Hp as [-> | ->]; rewrite He; [done|apply orb_true_r]. }
  destruct (splitMasks_some r Hv) as [Hz|Hz]; [destruct H0 as [|H0]; [done|]|destruct H1 as [|H1]; [done|]]; eauto.
Qed.

(** ** The queues after the edge *)

Definition requests_next (p : Z) : cacheQueue SIMDRequest := queue_update (output_delivered s input p) (pushed_subset s input p) (sel (sp_requests s) p).
Definition responses_next : cacheQueue SIMDResponse := queue_update (response_delivered s input) (pushed_response s input) (sp_responses s).

Lemma requests_turn p : qu_values (sel (sp_requests s) p) ++ option_list (pushed_subset s input p) = out_requests s input p ++ qu_values (requests_next p).
Proof.
  unfold requests_next. rewrite (queue_update_turn _ (output_delivered s input p)). f_equal. unfold output_delivered, out_requests, Split_Outputs. destruct p; cbn [sel fst snd Z.eqb present];
    destruct (queue_head _); cbn [present andb]; by destruct (si_PathReady input) as [[] []].
Qed.

Lemma requests_next_cover id n : (cover (out_keys outs) id n + cover (out_keys (qu_values (requests_next 0) ++ qu_values (requests_next 1))) id n)%nat =
  (cover (out_keys (queued_requests s)) id n + cover (out_keys pushes) id n)%nat.
Proof.
  pose proof (f_equal (fun l => cover (out_keys l) id n) (requests_turn 0)) as E0. pose proof (f_equal (fun l => cover (out_keys l) id n) (requests_turn 1)) as E1. cbv beta in *. cbn [sel Z.eqb] in *.
  unfold outs, pushes, queued_requests. rewrite !out_keys_app, !cover_app in *. lia.
Qed.

Lemma pushed_taken : option_list (pushed_response s input) = taken.
Proof.
  unfold pushed_response, taken, taken_read, ReadReady. destruct (pick 0 _) as [i|]; [|done]. destruct (queue_ready _ _); [|done]. cbn [andb sel fst snd Z.eqb].
  destruct (Z.eqb_spec i 0) as [->|]; [by destruct (si_Reads input).1|]. destruct (Z.eqb_spec i 1); [by destruct (si_Reads input).2|done].
Qed.

Lemma responses_turn : queued_responses s ++ taken = deliv ++ qu_values responses_next.
Proof.
  rewrite <- pushed_taken. unfold responses_next, queued_responses. rewrite (queue_update_turn _ (response_delivered s input)). f_equal. unfold response_delivered, deliv, Split_Response.
  destruct (queue_head _), (si_ResponseReady input); done.
Qed.

Lemma responses_next_cover id n : (cover (keys deliv) id n + cover (keys (qu_values responses_next)) id n)%nat = (cover (keys (queued_responses s)) id n + cover (keys taken) id n)%nat.
Proof. pose proof (f_equal (fun l => cover (keys l) id n) responses_turn) as E. cbv beta in E. rewrite !keys_app, !cover_app in E. lia. Qed.

(** ** The records after the edge *)

Definition fresh_record (r : SIMDRequest) : splitRecord := mkSplitRecord r (splitMasks r) 0 0 0 0 0 false.

Lemma no_record_cover id n : sp_records s !! id = None ->
  cover (out_keys (queued_requests s)) id n = 0%nat /\ cover (keys (queued_responses s)) id n = 0%nat /\ cover (out_keys outs) id n = 0%nat /\ cover (keys (deliv ++ stores)) id n = 0%nat /\ cover (keys (taken ++ stores)) id n = 0%nat.
Proof.
  intros Hn. assert (cover (out_keys (queued_requests s)) id n = 0%nat) as E1.
  { apply cover_none. intros x (r & -> & Hr)%list_elem_of_fmap. destruct (iv_requests _ _ Hinv r Hr) as [_ [rec E]]. cbn. intros <-. congruence. }
  assert (cover (keys (queued_responses s)) id n = 0%nat) as E2.
  { apply cover_none. intros x (r & -> & Hr)%list_elem_of_fmap. destruct (iv_responses _ _ Hinv r Hr) as (_ & rec & E & _). cbn. intros <-. congruence. }
  assert (cover (keys (taken ++ stores)) id n = 0%nat) as E3.
  { apply cover_none. intros x (r & -> & Hr)%list_elem_of_fmap. destruct (returned_completable r Hr) as (p & _ & _ & rec & E & _). cbn. intros <-. congruence. }
  pose proof (outs_cover id n). pose proof (deliv_cover id n). rewrite !keys_app, !cover_app in *. split_and!; lia.
Qed.

Lemma fresh_ok r : si_Request input = Some r -> sp_records s !! sq_Identity r = None -> record_ok s t (sq_Identity r) (fresh_record r) /\ advanced (sq_Identity r) (fresh_record r) (fresh_record r).
Proof.
  intros Er Hn. destruct (ck_request _ _ Hck r Er) as [Hv _]. assert (forall n, bit 0 n = false) as Hz by (intros; apply Z.bits_0).
  split; split; cbn [fresh_record sr_request sr_masks sr_sent sr_arrived sr_completed sr_queued sr_released sr_accepted]; try done; intros n; rewrite ?Hz; try done;
    destruct (no_record_cover _ n Hn) as (E1 & E2 & E3 & E4 & E5); destruct (iv_unknown _ _ Hinv _ n Hn (request_fresh r Er)) as [U1 U2]; cbn; lia.
Qed.

(** The record of an identity after the edge comes from an old or a fresh one. *)
Definition came_from (id : Identity) (rec : splitRecord) : Prop :=
  exists old new, record_ok s t id old /\ advanced id old new /\ (sp_records s !! id = Some old \/ (sp_records s !! id = None /\ exists r, si_Request input = Some r /\ sq_Identity r = id /\ old = fresh_record r)) /\
    ((rec = new /\ forall r, si_Request input = Some r -> sq_Identity r <> id) \/ exists r, si_Request input = Some r /\ sq_Identity r = id /\ sr_request old = r /\ sr_accepted old = false /\ rec = requested r (Some new)).

Lemma records_next : exists rs, next_records s input = Ok rs /\ (forall id rec, rs !! id = Some rec -> came_from id rec) /\ (forall id, is_Some (sp_records s !! id) -> is_Some (rs !! id)) /\
  (forall r, si_Request input = Some r -> any_subset = true \/ split_accepted s input = true -> is_Some (rs !! sq_Identity r)).
Proof.
  rewrite next_records_deltas. destruct (add_deltas_ok _ _ edge_deltas_present) as (rs1 & E1 & H1). rewrite E1. cbn [result_bind].
  assert (forall id, is_Some (sp_records s !! id) -> is_Some (rs1 !! id)) as Hkeep.
  { intros id [old Eo]. specialize (H1 id). rewrite Eo in H1. destruct H1 as (new & En & _). by exists new. }
  assert (forall id new, rs1 !! id = Some new -> exists old, sp_records s !! id = Some old /\ record_ok s t id old /\ advanced id old new) as Hold.
  { intros id new En. specialize (H1 id). destruct (sp_records s !! id) as [old|] eqn:Eo; [|congruence]. destruct H1 as (new' & En' & U). rewrite En in En'. injection En' as <-.
    exists old. split; [done|]. split; [by apply (iv_records _ _ Hinv)|by apply advance_record]. }
  destruct (si_Request input) as [r|] eqn:Er.
  - destruct (request_stage r rs1 Er (accepted_recorded r rs1 Er Hkeep)) as (rs & E & Hne & Heq). exists rs. split; [done|]. split_and!.
    + intros id rec Hrec. destruct (decide (id = sq_Identity r)) as [->|Hid].
      * rewrite Hrec in Heq. destruct (decide _) as [Hd|]; [|done]. injection Heq as ->. destruct (rs1 !! sq_Identity r) as [new|] eqn:En.
        -- destruct (Hold _ _ En) as (old & Eo & Ho & Ha). destruct (request_record r old Er Eo) as (A1 & A2 & _). exists old, new. split_and!; [done|done|by left|]. right. by exists r.
        -- assert (sp_records s !! sq_Identity r = None) as Hn. { destruct (sp_records s !! sq_Identity r) eqn:E0; [|done]. destruct (Hkeep (sq_Identity r)) as [? ?]; [by eexists|congruence]. }
           destruct (fresh_ok r Er Hn) as [Ho Ha]. exists (fresh_record r), (fresh_record r). split_and!; [done|done|right; split; [done|by exists r]|]. right. by exists r.
      * rewrite Hne in Hrec by done. destruct (Hold _ _ Hrec) as (old & Eo & Ho & Ha). exists old, rec. split_and!; [done|done|by left|]. left. split; [done|]. intros x Ex. rewrite Er in Ex. by injection Ex as <-.
    + intros id Hs. destruct (decide (id = sq_Identity r)) as [->|Hid]; [|rewrite Hne by done; by apply Hkeep]. rewrite Heq. destruct (decide _) as [|Hd]; [by eexists|exfalso; apply Hd; left; by apply Hkeep].
    + intros x [= <-] Hs. rewrite Heq. destruct (decide _) as [|Hd]; [by eexists|]. exfalso. apply Hd. destruct Hs as [Hs|Hs]; [by right|]. by apply accepted_recorded.
  - exists rs1. unfold request_records. rewrite Er. split_and!; [done| |done|done]. intros id rec Hrec. destruct (Hold _ _ Hrec) as (old & Eo & Ho & Ha). exists old, rec. split_and!; [done|done|by left|]. left. split; [done|]. intros x Ex. by rewrite Er in Ex.
Qed.

(** The split and the trace after the edge, as far as the invariant reads them. *)
Context (rs : records) (s' : SIMDSplit) (Hrs : next_records s input = Ok rs).
Context (Hrequests : queued_requests s' = qu_values (requests_next 0) ++ qu_values (requests_next 1)) (Hresponses : queued_responses s' = qu_values responses_next).
Context (Hrecords : sp_records s' = filter (fun p => finished p.2 = false) rs) (Hheld : sp_held s' = if split_accepted s input then None else si_Request input).
Context (Hsubmitted : sp_submitted s' = if split_accepted s input then 0 else submitted s input) (Hused : sp_used s' = sp_used s || split_accepted s input).
Context (Hlast : sp_last s' = match si_Request input with Some r => if split_accepted s input then id_Transaction (sq_Identity r) else sp_last s | None => sp_last s end).

Definition accepted_now : list SIMDRequest := if split_accepted s input then option_list (si_Request input) else [].
Definition trace_next : split_trace := mkSplitTrace (st_accepted t ++ accepted_now) (st_outs t ++ outs) (st_back t ++ (deliv ++ stores)) (st_complete t ++ complete_ids rs).

Lemma records_came id rec : rs !! id = Some rec -> came_from id rec.
Proof. destruct records_next as (rs' & E & H & _). rewrite Hrs in E. injection E as <-. apply H. Qed.

Lemma records_kept id : is_Some (sp_records s !! id) -> is_Some (rs !! id).
Proof. destruct records_next as (rs' & E & _ & H & _). rewrite Hrs in E. injection E as <-. apply H. Qed.

Lemma records_requested r : si_Request input = Some r -> any_subset = true \/ split_accepted s input = true -> is_Some (rs !! sq_Identity r).
Proof. destruct records_next as (rs' & E & _ & _ & H). rewrite Hrs in E. injection E as <-. apply H. Qed.

(** What the request adds to its record. *)
Lemma came_queued id rec : rs !! id = Some rec -> exists old new, record_ok s t id old /\ advanced id old new /\ sr_request rec = sr_request old /\ sr_masks rec = sr_masks old /\
  sr_sent rec = sr_sent new /\ sr_arrived rec = sr_arrived new /\ sr_completed rec = sr_completed new /\ sr_released rec = sr_released new /\
  (forall n, Nat.b2n (bit (sr_queued rec) n) = (Nat.b2n (bit (sr_queued old) n) + cover (out_keys pushes) id n)%nat) /\
  (forall n, bit (sr_queued rec) n = true -> bit (sq_Mask (sr_request old)) n = true) /\
  (forall o, sp_records s !! id = Some o -> o = old) /\ (sp_records s !! id = None -> forall n, bit (sr_queued old) n = false).
Proof.
  intros Hrec. destruct (records_came id rec Hrec) as (old & new & Ho & Ha & Hsrc & Hcase). exists old, new.
  assert ((forall o, sp_records s !! id = Some o -> o = old) /\ (sp_records s !! id = None -> forall n, bit (sr_queued old) n = false)) as [Hs1 Hs2].
  { destruct Hsrc as [Hl|(Hn & r & _ & _ & ->)]; split; intros; try congruence. apply Z.bits_0. } destruct Ha as [A1 A2 A3 A4 A5 A6 A7 A8 A9].
  destruct Hcase as [[-> Hno]|(r & Er & <- & Eold & Eacc & ->)].
  - split_and!; try done.
    + intros n. rewrite A3. destruct (si_Request input) as [r|] eqn:Er; [|rewrite no_pushes by done; cbn; lia]. destruct (ck_request _ _ Hck r Er) as [Hv _].
      rewrite (pushes_cover r) by done. destruct (decide _) as [Hid|]; [by destruct (Hno r eq_refl)|lia].
    + intros n. rewrite A3. apply (rc_queued _ _ _ _ Ho).
  - destruct (ck_request _ _ Hck r Er) as [Hv _]. unfold requested. cbn [default from_option id sr_request sr_masks sr_sent sr_arrived sr_completed sr_queued sr_released].
    assert (forall n, bit ((sr_queued new .| (if subset_accepted s input 0 then (splitMasks r).1 else 0)) .| (if subset_accepted s input 1 then (splitMasks r).2 else 0)) n = bit (sr_queued old) n || pushed_lane r n) as Eq.
    { intros n. rewrite !Z.lor_spec, A3. unfold pushed_lane. destruct (subset_accepted s input 0), (subset_accepted s input 1); rewrite ?Z.bits_0; cbn [andb orb]; by rewrite ?orb_false_r, <- ?orb_assoc. }
    assert (forall n, pushed_lane r n = true -> bit (sr_queued old) n = false) as Hnew.
    { intros n Hp. destruct Hsrc as [Hl|(_ & x & _ & _ & ->)]; [|apply Z.bits_0]. unfold pushed_lane in Hp. apply orb_true_iff in Hp as [[Hs Hb]%andb_true_iff|[Hs Hb]%andb_true_iff];
        [by apply (pushed_new r old 0 n Er ltac:(by left) Hs Hl)|by apply (pushed_new r old 1 n Er ltac:(by right) Hs Hl)]. }
    split_and!; try done.
    + intros n. rewrite Eq, (pushes_cover r) by done. rewrite decide_True by done. specialize (Hnew n). destruct (pushed_lane r n); [rewrite Hnew by done; cbn; lia|rewrite orb_false_r; cbn; lia].
    + intros n. rewrite Eq, Eold, orb_true_iff. intros [Hq|Hp]; [rewrite <- Eold; by apply (rc_queued _ _ _ _ Ho)|]. destruct (splitMasks_bits r n Hv) as [-> _]. unfold pushed_lane in Hp.
      destruct (bit (splitMasks r).1 n), (bit (splitMasks r).2 n); rewrite ?andb_false_r in Hp; done.
Qed.

Lemma record_next id rec : rs !! id = Some rec -> record_ok s' trace_next id rec.
Proof.
  intros Hrec. destruct (came_queued id rec Hrec) as (old & new & [O1 O2 O3 O4 O5 O6 O7 O8 O9 O10] & [A1 A2 A3 A4 A5 A6 A7 A8 A9] & E1 & E2 & E3 & E4 & E5 & E6 & Hq & Hm & _).
  assert (forall n, bit (sr_queued old) n = true -> bit (sr_queued rec) n = true) as Hmono by (intros n Hb; specialize (Hq n); rewrite Hb in Hq; destruct (bit (sr_queued rec) n); cbn in *; [done|lia]).
  split; rewrite ?E1, ?E2, ?E3, ?E4, ?E5, ?E6; try done; intros n.
  - intros Hb. by apply Hmono, A5.
  - rewrite Hq, A7, Hrequests. pose proof (requests_next_cover id n). specialize (O7 n). lia.
  - rewrite A8, A9, Hresponses. pose proof (responses_next_cover id n). specialize (O8 n). rewrite !keys_app, !cover_app. lia.
  - cbn [trace_next st_outs]. rewrite out_keys_app, cover_app, O9, A7. lia.
  - cbn [trace_next st_back]. rewrite keys_app, cover_app, O10, A8. lia.
Qed.

Lemma finished_lanes id rec n : rs !! id = Some rec -> finished rec = true ->
  sr_accepted rec = true /\ bit (sr_completed rec) n = bit (sq_Mask (sr_request rec)) n /\ bit (sr_released rec) n = bit (sq_Mask (sr_request rec)) n /\
  cover (out_keys (queued_requests s')) id n = 0%nat /\ cover (keys (queued_responses s')) id n = 0%nat.
Proof.
  intros Hrec Hf. unfold finished in Hf. rewrite !andb_true_iff, !Z.eqb_eq in Hf. destruct Hf as [[Ha Ec] Er]. destruct (record_next id rec Hrec) as [R1 R2 R3 R4 R5 R6 R7 R8 _ _].
  specialize (R4 n). specialize (R5 n). specialize (R6 n). specialize (R7 n). specialize (R8 n). rewrite Ec in R8 |- *. rewrite Er in R7 |- *. split_and!; try done.
  - destruct (bit (sr_queued rec) n) eqn:E; [rewrite (R6 eq_refl) in R7; cbn in R7; lia|]. cbn in R7. lia.
  - destruct (bit (sr_arrived rec) n) eqn:E; [rewrite (R6 (R4 (R5 eq_refl))) in R8; cbn in R8; lia|]. cbn in R8. lia.
Qed.

Lemma records_next_lookup id rec : sp_records s' !! id = Some rec <-> rs !! id = Some rec /\ finished rec = false.
Proof. rewrite Hrecords, map_lookup_filter_Some. done. Qed.

Lemma complete_ids_spec id : id ∈ complete_ids rs <-> exists rec, rs !! id = Some rec /\ finished rec = true.
Proof.
  unfold complete_ids. rewrite merge_sort_Permutation. rewrite list_elem_of_fmap. split.
  - intros ([i rec] & -> & [Hf Hin]%list_elem_of_filter). exists rec. apply elem_of_map_to_list in Hin. done.
  - intros (rec & Hrec & Hf). exists (id, rec). split; [done|]. apply list_elem_of_filter. split; [done|]. by apply elem_of_map_to_list.
Qed.

Lemma complete_ids_once : NoDup (complete_ids rs).
Proof.
  unfold complete_ids. rewrite merge_sort_Permutation. eapply sublist_NoDup; [apply (NoDup_fst_map_to_list rs)|]. apply (fmap_sublist fst), sublist_filter.
Qed.

(** An accepted request is the one offered, and its record is marked. *)
Lemma accepted_now_in r : r ∈ accepted_now -> si_Request input = Some r /\ split_accepted s input = true.
Proof. unfold accepted_now. destruct (split_accepted s input); [|by intros H%elem_of_nil]. destruct (si_Request input); cbn; [by intros ->%list_elem_of_singleton|by intros H%elem_of_nil]. Qed.

Lemma source_next id rec : rs !! id = Some rec -> if sr_accepted rec then sr_request rec ∈ st_accepted t ++ accepted_now else si_Request input = Some (sr_request rec) /\ split_accepted s input = false.
Proof.
  intros Hrec. destruct (records_came id rec Hrec) as (old & new & Ho & [A1 A2 A3 A4 A5 A6 A7 A8 A9] & Hsrc & Hcase). destruct Hcase as [[-> Hno]|(r & Er & <- & Eold & Eacc & ->)].
  - destruct Hsrc as [Hl|(_ & r & Er & Eid & ->)]; [|by destruct (Hno r Er)]. pose proof (iv_source _ _ Hinv _ _ Hl) as Hs. rewrite A4, A1. destruct (sr_accepted old); [apply elem_of_app; by left|].
    pose proof (ck_held _ _ Hck ltac:(by rewrite Hs)) as Hh. rewrite Hs in Hh. destruct (Hno _ (eq_sym Hh)). by rewrite (rc_id _ _ _ _ Ho).
  - unfold requested. cbn [default from_option id sr_accepted sr_request]. rewrite A4, Eacc, A1, Eold. cbn [orb]. unfold accepted_now. destruct (split_accepted s input); [|done].
    rewrite Er. apply elem_of_app. right. by left.
Qed.

Lemma accepted_none r : sp_records s' !! sq_Identity r = None -> r ∈ st_accepted t ++ accepted_now ->
  (sp_records s !! sq_Identity r = None /\ rs !! sq_Identity r = None /\ r ∈ st_accepted t) \/ exists rec, rs !! sq_Identity r = Some rec /\ finished rec = true.
Proof.
  intros Hn Hin. destruct (rs !! sq_Identity r) as [rec|] eqn:E.
  - right. exists rec. split; [done|]. destruct (finished rec) eqn:Ef; [done|]. rewrite (proj2 (records_next_lookup (sq_Identity r) rec)) in Hn by done. done.
  - left. split_and!; [|done|].
    + destruct (sp_records s !! sq_Identity r) eqn:E0; [|done]. destruct (records_kept (sq_Identity r)) as [? ?]; [by eexists|congruence].
    + apply elem_of_app in Hin as [|Hin]; [done|]. apply accepted_now_in in Hin as [Er Ha]. destruct (records_requested r Er ltac:(by right)) as [? ?]. congruence.
Qed.

Lemma none_kept id : rs !! id = None -> sp_records s !! id = None.
Proof. intros H. destruct (sp_records s !! id) eqn:E; [|done]. destruct (records_kept id) as [? ?]; [by eexists|congruence]. Qed.

(** Two accepted requests of one identity are the same. *)
Lemma accepted_unique (l : list SIMDRequest) x y : NoDup (map sq_Identity l) -> x ∈ l -> y ∈ l -> sq_Identity x = sq_Identity y -> x = y.
Proof.
  intros Hnd Hx Hy E. apply list_elem_of_lookup in Hx as [i Hi], Hy as [j Hj]. assert (i = j) as ->; [|congruence]. eapply NoDup_lookup; [exact Hnd| |]; rewrite list_lookup_fmap; [rewrite Hi|rewrite Hj]; cbn; by rewrite ?E.
Qed.

Lemma accepted_once_next : NoDup (map sq_Identity (st_accepted t ++ accepted_now)).
Proof.
  rewrite map_app. apply NoDup_app. split_and!; [apply (iv_accepted_once _ _ Hinv)| |].
  - intros id Hid (r & -> & Hr)%list_elem_of_fmap. apply accepted_now_in in Hr as [Er _]. by apply (request_fresh r Er).
  - unfold accepted_now. destruct (split_accepted s input), (si_Request input); cbn; try apply NoDup_nil_2. apply NoDup_singleton.
Qed.

Lemma done_next r n : r ∈ st_accepted t ++ accepted_now -> sp_records s' !! sq_Identity r = None ->
  cover (out_keys (st_outs t ++ outs)) (sq_Identity r) n = Nat.b2n (bit (sq_Mask r) n) /\ cover (keys (st_back t ++ (deliv ++ stores))) (sq_Identity r) n = Nat.b2n (bit (sq_Mask r) n).
Proof.
  intros Hin Hn. destruct (accepted_none r Hn Hin) as [(Hn0 & _ & Hold)|(rec & Hrec & Hf)].
  - destruct (iv_done _ _ Hinv r n Hold Hn0) as [D1 D2]. destruct (no_record_cover _ n Hn0) as (_ & _ & E3 & E4 & _). rewrite out_keys_app, (keys_app (st_back t)), !cover_app, D1, D2, E3, E4. lia.
  - destruct (finished_lanes _ _ n Hrec Hf) as (Ha & Hc & Hr & _). pose proof (record_next _ _ Hrec) as [R1 _ _ _ _ _ _ _ R9 R10]. cbn [trace_next st_outs st_back] in R9, R10. specialize (R9 n). specialize (R10 n).
    rewrite Hc in R10. rewrite Hr in R9. pose proof (source_next _ _ Hrec) as Hs. rewrite Ha in Hs. rewrite (accepted_unique _ _ _ accepted_once_next Hs Hin R1) in R9, R10. done.
Qed.

Lemma unknown_next id n : sp_records s' !! id = None -> id ∉ map sq_Identity (st_accepted t ++ accepted_now) -> cover (out_keys (st_outs t ++ outs)) id n = 0%nat /\ cover (keys (st_back t ++ (deliv ++ stores))) id n = 0%nat.
Proof.
  intros Hn Hin. assert (rs !! id = None) as E.
  { destruct (rs !! id) as [rec|] eqn:E; [|done]. exfalso. destruct (finished rec) eqn:Ef; [|by rewrite (proj2 (records_next_lookup id rec)) in Hn].
    destruct (finished_lanes _ _ 0 E Ef) as (Ha & _). pose proof (source_next _ _ E) as Hs. rewrite Ha in Hs. apply Hin. apply list_elem_of_fmap. exists (sr_request rec). split; [|done]. symmetry. apply (rc_id _ _ _ _ (record_next _ _ E)). }
  apply none_kept in E. destruct (iv_unknown _ _ Hinv id n E) as [U1 U2]; [intros H; apply Hin; rewrite map_app; apply elem_of_app; by left|].
  destruct (no_record_cover _ n E) as (_ & _ & E3 & E4 & _). rewrite out_keys_app, (keys_app (st_back t)), !cover_app, U1, U2, E3, E4. lia.
Qed.

Lemma complete_next id : id ∈ st_complete t ++ complete_ids rs <-> id ∈ map sq_Identity (st_accepted t ++ accepted_now) /\ sp_records s' !! id = None.
Proof.
  rewrite elem_of_app, (iv_complete _ _ Hinv), complete_ids_spec. split.
  - intros [[Hin Hn]|(rec & Hrec & Hf)].
    + split; [rewrite map_app; apply elem_of_app; by left|]. destruct (sp_records s' !! id) as [rec|] eqn:E; [|done]. exfalso. apply records_next_lookup in E as [E _].
      destruct (records_came id rec E) as (old & new & _ & _ & [Hl|(_ & r & Er & <- & _)] & _); [congruence|]. by apply (request_fresh r Er).
    + pose proof (source_next _ _ Hrec) as Hs. destruct (finished_lanes _ _ 0 Hrec Hf) as (Ha & _). rewrite Ha in Hs. split.
      * apply list_elem_of_fmap. exists (sr_request rec). split; [|done]. symmetry. apply (rc_id _ _ _ _ (record_next _ _ Hrec)).
      * destruct (sp_records s' !! id) as [rec'|] eqn:E; [|done]. apply records_next_lookup in E as [E Ef]. congruence.
  - intros [(r & -> & Hr)%list_elem_of_fmap Hn]. destruct (accepted_none r Hn Hr) as [(Hn0 & _ & Hold)|Hf]; [left|by right]. split; [|done]. apply list_elem_of_fmap. by exists r.
Qed.

Lemma complete_once_next : NoDup (st_complete t ++ complete_ids rs).
Proof.
  apply NoDup_app. split_and!; [apply (iv_complete_once _ _ Hinv)| |apply complete_ids_once]. intros id [Hin Hn]%(iv_complete _ _ Hinv) (rec & Hrec & _)%complete_ids_spec.
  destruct (records_came id rec Hrec) as (old & new & _ & _ & [Hl|(_ & r & Er & <- & _)] & _); [congruence|]. by apply (request_fresh r Er).
Qed.

(** An old record keeps its request and its queued lanes. *)
Lemma record_kept id old : sp_records s !! id = Some old -> exists rec, rs !! id = Some rec /\ sr_request rec = sr_request old /\ forall n, bit (sr_queued old) n = true -> bit (sr_queued rec) n = true.
Proof.
  intros Hl. destruct (records_kept id) as [rec Hrec]; [by eexists|]. exists rec. split; [done|]. destruct (came_queued id rec Hrec) as (o & new & _ & _ & E1 & _ & _ & _ & _ & _ & Hq & _ & Hsame & _).
  rewrite <- (Hsame _ Hl) in *. split; [done|]. intros n Hb. specialize (Hq n). rewrite Hb in Hq. destruct (bit (sr_queued rec) n); cbn in *; [done|lia].
Qed.

Lemma requests_next_in r : r ∈ queued_requests s' -> r ∈ queued_requests s \/ r ∈ pushes.
Proof.
  rewrite Hrequests. pose proof (requests_turn 0) as E0. pose proof (requests_turn 1) as E1. unfold queued_requests, pushes. setoid_rewrite elem_of_app.
  intros [H|H]; [assert (r ∈ out_requests s input 0 ++ qu_values (requests_next 0)) as Hin by (apply elem_of_app; by right); rewrite <- E0 in Hin|
                 assert (r ∈ out_requests s input 1 ++ qu_values (requests_next 1)) as Hin by (apply elem_of_app; by right); rewrite <- E1 in Hin]; apply elem_of_app in Hin; cbn [sel Z.eqb] in Hin; tauto.
Qed.

Lemma pushes_in r : r ∈ pushes -> sq_Mask r <> 0 /\ exists q, si_Request input = Some q /\ sq_Identity q = sq_Identity r /\ any_subset = true.
Proof.
  unfold pushes, pushed_subset, any_subset. destruct (si_Request input) as [q|] eqn:Eq; [|by intros H%elem_of_nil].
  assert (forall p, r ∈ option_list (if subset_accepted s input p then Some (with_mask (sel (splitMasks q) p) q) else None) -> subset_accepted s input p = true /\ sq_Mask r <> 0 /\ sq_Identity q = sq_Identity r) as H.
  { intros p Hin. destruct (subset_accepted s input p) eqn:Ea; [|by apply elem_of_nil in Hin]. apply list_elem_of_singleton in Hin as ->. cbn. split_and!; [done| |done].
    unfold subset_accepted in Ea. rewrite Eq, !andb_true_iff in Ea. destruct Ea as [[Ea _] _]. by apply negb_true_iff, Z.eqb_neq in Ea. }
  intros [Hin|Hin]%elem_of_app; apply H in Hin as (Ha & Hm & Hi); (split; [done|]); exists q; rewrite Ha; by rewrite ?orb_true_r.
Qed.

(** A record with something queued is kept. *)
Lemma queued_unfinished id rec n : rs !! id = Some rec -> (1 <= cover (out_keys (queued_requests s')) id n \/ 1 <= cover (keys (queued_responses s')) id n)%nat -> sp_records s' !! id = Some rec.
Proof.
  intros Hrec Hc. apply records_next_lookup. split; [done|]. destruct (finished rec) eqn:Ef; [|done]. destruct (finished_lanes _ _ n Hrec Ef) as (_ & _ & _ & C1 & C2). lia.
Qed.

Lemma requests_inv r : r ∈ queued_requests s' -> sq_Mask r <> 0 /\ is_Some (sp_records s' !! sq_Identity r).
Proof.
  intros Hin. assert (sq_Mask r <> 0 /\ is_Some (rs !! sq_Identity r)) as [Hm [rec Hrec]].
  { destruct (requests_next_in r Hin) as [Hold|Hp].
    - destruct (iv_requests _ _ Hinv r Hold) as [Hm Hr]. split; [done|]. by apply records_kept.
    - destruct (pushes_in r Hp) as (Hm & q & Eq & <- & Ha). split; [done|]. apply records_requested; auto. }
  split; [done|]. exists rec. destruct (nonzero_bit _ Hm) as [n Hn]. apply (queued_unfinished _ _ n Hrec). left. eapply cover_in; [|exact Hn]. unfold out_keys. apply list_elem_of_fmap. by exists r.
Qed.

Lemma responses_inv r : r ∈ queued_responses s' -> ss_Mask r <> 0 /\ exists rec, sp_records s' !! ss_Identity r = Some rec /\ ss_Tag r = sq_Tag (sr_request rec).
Proof.
  intros Hin. assert (r ∈ queued_responses s ++ taken) as Hold. { rewrite responses_turn. apply elem_of_app. right. by rewrite <- Hresponses. }
  assert (ss_Mask r <> 0 /\ exists old, sp_records s !! ss_Identity r = Some old /\ ss_Tag r = sq_Tag (sr_request old)) as (Hm & old & Eo & Et).
  { apply elem_of_app in Hold as [Hold|Ht]; [by apply (iv_responses _ _ Hinv)|]. destruct (returned_completable r ltac:(apply elem_of_app; by left)) as (p & _ & Hm & old & Eo & Et & _). split; [done|]. by exists old. }
  split; [done|]. destruct (record_kept _ _ Eo) as (rec & Hrec & Ereq & _). exists rec. rewrite Ereq. split; [|done]. destruct (nonzero_bit _ Hm) as [n Hn]. apply (queued_unfinished _ _ n Hrec). right.
  eapply cover_in; [|exact Hn]. unfold keys. apply list_elem_of_fmap. by exists r.
Qed.

Lemma request_somewhere r : si_Request input = Some r -> r ∈ accepted_now ++ option_list (sp_held s').
Proof. intros Er. unfold accepted_now. rewrite Hheld, Er. destruct (split_accepted s input); cbn; by left. Qed.

Lemma source_somewhere id old : sp_records s !! id = Some old -> sr_request old ∈ (st_accepted t ++ accepted_now) ++ option_list (sp_held s').
Proof.
  intros Hl. pose proof (iv_source _ _ Hinv _ _ Hl) as Hs. rewrite <- app_assoc. apply elem_of_app. destruct (sr_accepted old); [by left|]. right. apply request_somewhere. rewrite <- Hs. symmetry. apply (ck_held _ _ Hck). by rewrite Hs.
Qed.

Lemma tags_next x : x ∈ st_back t ++ (deliv ++ stores) -> exists r, r ∈ (st_accepted t ++ accepted_now) ++ option_list (sp_held s') /\ sq_Identity r = ss_Identity x /\ sq_Tag r = ss_Tag x.
Proof.
  assert (forall old, sp_records s !! ss_Identity x = Some old -> ss_Tag x = sq_Tag (sr_request old) -> exists r, r ∈ (st_accepted t ++ accepted_now) ++ option_list (sp_held s') /\ sq_Identity r = ss_Identity x /\ sq_Tag r = ss_Tag x) as Hgo.
  { intros old Hl Et. exists (sr_request old). split_and!; [by apply (source_somewhere (ss_Identity x))|apply (rc_id _ _ _ _ (iv_records _ _ Hinv _ _ Hl))|done]. }
  intros [Hin|[Hin|Hin]%elem_of_app]%elem_of_app.
  - destruct (iv_tags _ _ Hinv x Hin) as (r & Hr & E1 & E2). exists r. split; [|done]. rewrite <- app_assoc. apply elem_of_app in Hr as [Hr|Hr]; apply elem_of_app; [by left|right]. apply request_somewhere.
    destruct (sp_held s) as [q|] eqn:Eh; [|by apply elem_of_nil in Hr]. apply list_elem_of_singleton in Hr as ->. rewrite <- Eh. symmetry. apply (ck_held _ _ Hck). by rewrite Eh.
  - destruct (iv_responses _ _ Hinv x (deliv_queued x Hin)) as (_ & old & Eo & Et). by apply (Hgo old).
  - destruct (returned_completable x ltac:(apply elem_of_app; by right)) as (p & _ & _ & old & Eo & Et & _). by apply (Hgo old).
Qed.

Lemma submitted_next r p : sp_held s' = Some r -> p = 0 \/ p = 1 ->
  if enabled (sp_submitted s') p then exists rec, sp_records s' !! sq_Identity r = Some rec /\ forall n, bit (sel (splitMasks r) p) n = true -> bit (sr_queued rec) n = true
  else forall rec n, sp_records s' !! sq_Identity r = Some rec -> bit (sel (splitMasks r) p) n = true -> bit (sr_queued rec) n = false.
Proof.
  rewrite Hheld, Hsubmitted. case_eq (split_accepted s input); intros Ea; [done|]. intros Er Hp. rewrite enabled_submitted by done. destruct (ck_request _ _ Hck r Er) as [Hv _].
  assert (forall rec, rs !! sq_Identity r = Some rec -> sp_records s' !! sq_Identity r = Some rec) as Hunf.
  { intros rec Hrec. apply records_next_lookup. split; [done|]. destruct (finished rec) eqn:Ef; [|done]. exfalso. destruct (finished_lanes _ _ 0 Hrec Ef) as (Hacc & _). pose proof (source_next _ _ Hrec) as Hs. rewrite Hacc in Hs.
    unfold accepted_now in Hs. rewrite Ea, app_nil_r in Hs. apply (request_fresh r Er). apply list_elem_of_fmap. exists (sr_request rec). split; [|done]. symmetry. apply (rc_id _ _ _ _ (record_next _ _ Hrec)). }
  assert (forall n, bit (sel (splitMasks r) p) n = true -> pushed_lane r n = subset_accepted s input p) as Hlane.
  { intros n Hb. destruct (splitMasks_bits r n Hv) as [_ Hd]. unfold pushed_lane. destruct Hp as [-> | ->]; cbn [sel Z.eqb] in Hb; rewrite Hb in *; [|rewrite andb_true_r in Hd]; cbn [andb] in Hd; rewrite Hd, ?andb_false_r, ?andb_true_r, ?orb_false_r; done. }
  destruct (enabled (sp_submitted s) p) eqn:Eold; cbn [orb].
  - assert (sp_held s = Some r) as Hh. { destruct (sp_held s) as [q|] eqn:Eh; [|rewrite (iv_fresh _ _ Hinv Eh) in Eold; by destruct Hp as [-> | ->]]. rewrite <- Eh, <- Er. apply (ck_held _ _ Hck). by rewrite Eh. }
    pose proof (iv_submitted _ _ Hinv r p Hh Hp) as Hs. rewrite Eold in Hs. destruct Hs as (old & Eo & Hq). destruct (record_kept _ _ Eo) as (rec & Hrec & _ & Hmono). exists rec. split; [by apply Hunf|]. auto.
  - destruct (subset_accepted s input p) eqn:Esub.
    + destruct (records_requested r Er) as [rec Hrec]; [left; unfold any_subset; destruct Hp as [-> | ->]; rewrite Esub, ?orb_true_r; done|]. exists rec. split; [by apply Hunf|]. intros n Hb.
      destruct (came_queued _ _ Hrec) as (old & new & _ & _ & _ & _ & _ & _ & _ & _ & Hq & _). specialize (Hq n). rewrite (pushes_cover r), decide_True, (Hlane n Hb) in Hq by done. destruct (bit (sr_queued rec) n); cbn in *; [done|lia].
    + intros rec n Hrec Hb. apply records_next_lookup in Hrec as [Hrec _]. destruct (came_queued _ _ Hrec) as (old & new & _ & _ & _ & _ & _ & _ & _ & _ & Hq & _ & Hsame & Hfresh). specialize (Hq n).
      rewrite (pushes_cover r), decide_True, (Hlane n Hb) in Hq by done. assert (bit (sr_queued old) n = false) as E; [|rewrite E in Hq; by destruct (bit (sr_queued rec) n)].
      destruct (sp_records s !! sq_Identity r) as [o|] eqn:Eo; [|by apply Hfresh]. rewrite <- (Hsame o eq_refl). destruct (request_record r o Er Eo) as (_ & _ & Hh). pose proof (iv_submitted _ _ Hinv r p Hh Hp) as Hs. rewrite Eold in Hs. by apply (Hs o n).
Qed.

Lemma edge_inv : split_inv s' trace_next.
Proof.
  split; cbn [trace_next st_accepted st_outs st_back st_complete].
  - intros id rec Hrec. apply records_next_lookup in Hrec as [Hrec _]. by apply record_next.
  - intros id rec Hrec. apply records_next_lookup in Hrec as [Hrec _]. pose proof (source_next _ _ Hrec) as Hs. destruct (sr_accepted rec); [done|]. destruct Hs as [E1 E2]. by rewrite Hheld, E2.
  - apply requests_inv.
  - apply responses_inv.
  - apply unknown_next.
  - intros r n. by apply done_next.
  - apply tags_next.
  - apply complete_next.
  - apply complete_once_next.
  - apply accepted_once_next.
  - rewrite Hused, Hlast. intros r [Hr|Hr]%elem_of_app.
    + destruct (iv_stale _ _ Hinv r Hr) as [Hu Hle]. rewrite Hu. split; [done|]. destruct (si_Request input) as [q|] eqn:Er; [|done]. destruct (split_accepted s input); [|done]. destruct (ck_request _ _ Hck q Er) as [_ Hlt]. specialize (Hlt Hu). lia.
    + apply accepted_now_in in Hr as [Er Ha]. rewrite Er, Ha, orb_true_r. split; [done|lia].
  - intros r. rewrite Hheld, Hused, Hlast. destruct (split_accepted s input); [done|]. intros Er. rewrite orb_false_r, Er. by apply (ck_request _ _ Hck).
  - rewrite Hheld, Hsubmitted. destruct (split_accepted s input); [done|]. intros Er. unfold submitted, subset_accepted. rewrite Er. rewrite !Z.lor_0_r. apply (iv_fresh _ _ Hinv).
    destruct (sp_held s) eqn:Eh; [|done]. rewrite <- Er, <- Eh. apply (ck_held _ _ Hck). by rewrite Eh.
  - apply submitted_next.
Qed.
End Edge.

(** ** Runs *)

Lemma edge_trace_next s input rs s' e cycle : Split_Step s cycle input = (s', Ok e) -> next_records s input = Ok rs -> split_edge_trace input e = mkSplitTrace (accepted_now s input) (outs s input) (deliv s input ++ stores input) (complete_ids rs).
Proof.
  unfold Split_Step. destruct (split_check s cycle input); [|done]. intros H E. rewrite E in H. injection H as _ <-. unfold split_edge_trace, outs, accepted_now, out_requests, deliv, stores, output_delivered, response_delivered.
  cbn [se_Accepted se_OutputDelivered se_Outputs se_ResponseDelivered se_Response se_Stores se_Complete fst snd sel Z.eqb]. f_equal; [f_equal|f_equal].
  - destruct (Split_Outputs s).1; cbn [present andb]; by destruct (si_PathReady input).1.
  - destruct (Split_Outputs s).2; cbn [present andb]; by destruct (si_PathReady input).2.
  - destruct (Split_Response s); cbn [present andb]; by destruct (si_ResponseReady input).
Qed.

Lemma split_step s t cycle input : split_inv s t -> split_check s cycle input = Ok tt ->
  exists s' e, Split_Step s cycle input = (s', Ok e) /\ split_inv s' (split_trace_app t (split_edge_trace input e)).
Proof.
  intros Hinv Hcheck. pose proof (split_check_ok _ _ _ Hcheck) as Hck. destruct (records_next s t input Hinv Hck) as (rs & E & _).
  destruct (Split_Step s cycle input) as [s' [e|err]] eqn:Es; [|unfold Split_Step in Es; by rewrite Hcheck, E in Es]. exists s', e. split; [done|].
  rewrite (edge_trace_next _ _ rs _ _ _ Es E). unfold Split_Step in Es. rewrite Hcheck, E in Es. injection Es as <- _. eapply (edge_inv s t input Hinv Hck rs); done.
Qed.

Lemma split_run_inv s t cycle inputs s' u : split_inv s t -> split_run s cycle inputs = Some (s', u) -> split_inv s' (split_trace_app t u).
Proof.
  revert s t cycle u. induction inputs as [|input inputs IH]; intros s t cycle u Hinv Hrun; cbn [split_run] in Hrun.
  - injection Hrun as <- <-. unfold split_trace_app, no_split_trace. cbn. rewrite !app_nil_r. by destruct t.
  - destruct (Split_Step s cycle input) as [s1 [e|]] eqn:Es; [|done]. destruct (split_run s1 (cycle + 1) inputs) as [[s2 v]|] eqn:Er; [|done]. injection Hrun as <- <-.
    assert (split_check s cycle input = Ok tt) as Hc by (unfold Split_Step in Es; by destruct (split_check s cycle input) as [[]|]).
    destruct (split_step s t cycle input Hinv Hc) as (s1' & e' & Es' & Hinv'). rewrite Es in Es'. injection Es' as <- <-. specialize (IH _ _ _ _ Hinv' Er). unfold split_trace_app in *. cbn [st_accepted st_outs st_back st_complete] in IH |- *. rewrite <- !app_assoc in IH. exact IH.
Qed.

Lemma fresh_split_inv global local response : split_inv (fresh_split global local response) no_split_trace.
Proof.
  split; cbn; try done; try (intros; by match goal with H : _ ∈ _ |- _ => apply elem_of_nil in H end); try apply NoDup_nil_2.
  intros id. split; [intros H; by apply elem_of_nil in H|intros [H _]; by apply elem_of_nil in H].
Qed.

(** No lane leaves or comes back twice, and none outside the mask of its request does. *)
Lemma split_lanes_bound s t r n : split_inv s t -> r ∈ st_accepted t ++ option_list (sp_held s) ->
  (cover (out_keys (st_outs t)) (sq_Identity r) n <= Nat.b2n (bit (sq_Mask r) n) /\ cover (keys (st_back t)) (sq_Identity r) n <= Nat.b2n (bit (sq_Mask r) n))%nat.
Proof.
  intros Hinv Hr. destruct (sp_records s !! sq_Identity r) as [rec|] eqn:Er.
  - destruct (iv_records _ _ Hinv _ _ Er) as [R1 _ _ R3 R4 R5 R7 R8 R9 R10]. rewrite R9, R10. assert (sr_request rec = r) as Ereq.
    { pose proof (iv_source _ _ Hinv _ _ Er) as Hs. apply elem_of_app in Hr as [Hr|Hr].
      + destruct (sr_accepted rec); [by apply (accepted_unique (st_accepted t)); [apply (iv_accepted_once _ _ Hinv)| | |]|]. exfalso. destruct (iv_held _ _ Hinv _ Hs) as [_ Hlt]. destruct (iv_stale _ _ Hinv r Hr) as [Hu Hle]. specialize (Hlt Hu). rewrite R1 in Hlt. lia.
      + destruct (sp_held s) as [q|] eqn:Eh; [|by apply elem_of_nil in Hr]. apply list_elem_of_singleton in Hr as ->. destruct (sr_accepted rec); [|congruence].
        exfalso. destruct (iv_held _ _ Hinv _ Eh) as [_ Hlt]. destruct (iv_stale _ _ Hinv _ Hs) as [Hu Hle]. specialize (Hlt Hu). rewrite R1 in Hle. lia. }
    specialize (R3 n). specialize (R4 n). specialize (R5 n). specialize (R7 n). specialize (R8 n). rewrite Ereq in R5. destruct (bit (sr_queued rec) n); [rewrite R5 by done; cbn in *; destruct (bit (sr_released rec) n), (bit (sr_completed rec) n); cbn; lia|].
    destruct (bit (sr_arrived rec) n); [by specialize (R3 (R4 eq_refl))|]. cbn in R7, R8. lia.
  - destruct (decide (sq_Identity r ∈ map sq_Identity (st_accepted t))) as [Hin|Hin]; [|destruct (iv_unknown _ _ Hinv _ n Er Hin); lia]. apply elem_of_app in Hr as [Hr|Hr]; [destruct (iv_done _ _ Hinv r n Hr Er); lia|].
    exfalso. destruct (sp_held s) as [q|] eqn:Eh; [|by apply elem_of_nil in Hr]. apply list_elem_of_singleton in Hr as ->. apply list_elem_of_fmap in Hin as (x & Ex & Hx). destruct (iv_held _ _ Hinv _ Eh) as [_ Hlt]. destruct (iv_stale _ _ Hinv x Hx) as [Hu Hle]. specialize (Hlt Hu). rewrite Ex in Hlt. lia.
Qed.

(** C11: The split handles every request and every lane exactly once. In any run of a fresh
    split, whatever the readiness of the two paths and of the consumer, the order in
    which lanes come back and the progress its neighbours report: an edge that passes
    the checks never looks up a missing record; each accepted request is completed at
    most once, and only then is its record dropped; no lane of a request leaves, or comes
    back, twice, and no lane outside its mask does; a completed request has had each of
    its lanes leave once and come back once; what comes back carries the tag of its
    request; and a drained split has completed every request it accepted. *)
Theorem split_exactly_once global local response start inputs s t : split_run (fresh_split global local response) start inputs = Some (s, t) ->
  (forall cycle input, split_check s cycle input = Ok tt -> exists s' e, Split_Step s cycle input = (s', Ok e)) /\
  NoDup (map sq_Identity (st_accepted t)) /\ NoDup (st_complete t) /\
  (forall id, id ∈ st_complete t <-> id ∈ map sq_Identity (st_accepted t) /\ sp_records s !! id = None) /\
  (forall r n, r ∈ st_accepted t ++ option_list (sp_held s) ->
    (cover (out_keys (st_outs t)) (sq_Identity r) n <= Nat.b2n (bit (sq_Mask r) n) /\ cover (keys (st_back t)) (sq_Identity r) n <= Nat.b2n (bit (sq_Mask r) n))%nat) /\
  (forall r n, r ∈ st_accepted t -> sq_Identity r ∈ st_complete t ->
    cover (out_keys (st_outs t)) (sq_Identity r) n = Nat.b2n (bit (sq_Mask r) n) /\ cover (keys (st_back t)) (sq_Identity r) n = Nat.b2n (bit (sq_Mask r) n)) /\
  (forall x, x ∈ st_back t -> exists r, r ∈ st_accepted t ++ option_list (sp_held s) /\ sq_Identity r = ss_Identity x /\ sq_Tag r = ss_Tag x) /\
  (Split_Drained s = true -> st_complete t ≡ₚ map sq_Identity (st_accepted t)).
Proof.
  intros Hrun. pose proof (split_run_inv _ _ _ _ _ _ (fresh_split_inv global local response) Hrun) as Hinv. assert (split_trace_app no_split_trace t = t) as Et by (by destruct t). rewrite Et in Hinv. split_and!.
  - intros cycle input Hc. destruct (split_step s t cycle input Hinv Hc) as (s' & e & E & _). by exists s', e.
  - apply (iv_accepted_once _ _ Hinv).
  - apply (iv_complete_once _ _ Hinv).
  - apply (iv_complete _ _ Hinv).
  - intros r n. by apply split_lanes_bound.
  - intros r n Hr Hc. apply (iv_complete _ _ Hinv) in Hc as [_ Hn]. by apply (iv_done _ _ Hinv).
  - apply (iv_tags _ _ Hinv).
  - unfold Split_Drained. rewrite !andb_true_iff, bool_decide_eq_true. intros [[[[Hr _] _] _] _]. apply NoDup_Permutation; [apply (iv_complete_once _ _ Hinv)|apply (iv_accepted_once _ _ Hinv)|].
    intros id. rewrite (iv_complete _ _ Hinv), Hr, lookup_empty. tauto.
Qed.

(** A load of two local and two global lanes. *)
Definition split_lane (address : Z) (local : bool) : LaneRequest := mkLane address 15 [0; 0; 0; 0] local false.
Definition split_load : SIMDRequest := mkSIMD (mkIdentity 1 1 0 0 0 0 1 0) 5 15 false false false (Quad (split_lane 0 true) (split_lane 4 true) (split_lane 64 false) (split_lane 68 false)).
Definition split_read (mask : Z) : SIMDResponse := mkSIMDResponse (mkIdentity 1 1 0 0 0 0 1 0) no_batch 5 mask (qfill [1; 2; 3; 4]) (qfill None).
Definition split_input (request : SIMDOffer) (ready : bool) (global local : SIMDReply) (responseReady : bool) : SplitInput :=
  mkSplitInput ([], []) request (ready, ready) (global, local) ([], []) responseReady.
Definition split_inputs : list SplitInput :=
  [split_input (Some split_load) false None None false; split_input None true None None false; split_input None false (Some (split_read 12)) (Some (split_read 3)) true;
   split_input None false None (Some (split_read 3)) true; split_input None false None None true].
Definition one_slot (id : string) : BufferSpec := mkBufferSpec id 1 0.

Lemma split_exactly_once_witness : exists s t, split_run (fresh_split (one_slot "g") (one_slot "l") (one_slot "r")) 0 split_inputs = Some (s, t) /\
  st_complete t ≡ₚ map sq_Identity (st_accepted t) /\ st_accepted t = [split_load].
Proof.
  destruct (split_run (fresh_split (one_slot "g") (one_slot "l") (one_slot "r")) 0 split_inputs) as [[s t]|] eqn:E; [|exfalso; vm_compute in E; discriminate E].
  exists s, t. split; [done|]. destruct (split_exactly_once _ _ _ _ _ _ _ E) as (_ & _ & _ & _ & _ & _ & _ & Hd).
  split; [apply Hd|]; vm_compute in E; by injection E as <- <-.
Defined.
