(* ===== verification/GlobalAdapter.v ===== *)
(** * The global adapter (src/timing/memsys/global_adapter.go)

    Between the coalescer and the two word ports of the data cache: a batch leaves as one
    word per channel, under one wire transaction, and the words' responses and store
    receipts come back as parts of the batch.  A record keeps each batch until every
    channel is done; a nil record, which Go would dereference, is the error [GoPanic]. *)

From S2P Require Import Prelude Memory TimingIR Memsys Coalescer.

#[local] Open Scope Z_scope.
#[local] Open Scope go_scope.

Record globalWordRecord := mkGlobalRecord {
  gw_batch : CoalescedBatch;
  gw_words : WordRequest * WordRequest;
  gw_sent : Z;
  gw_done : Z;
  gw_released : bool
}.

Record GlobalAdapter := mkGlobalAdapter {
  ga_sequence : Z;
  ga_cycle : Z;
  ga_started : bool;
  ga_held : option CoalescedBatch;
  ga_delivered : Z;
  ga_records : gmap Z globalWordRecord;
  ga_heldReads : option WordResponse * option WordResponse
}.

Record GlobalAdapterInput := mkGlobalInput { gi_Batch : option CoalescedBatch; gi_Cache : CacheEdge; gi_ResponseReady : bool }.

Record GlobalAdapterEdge := mkGlobalEdge {
  ge_Accepted : bool;
  ge_Response : option BatchResponse;
  ge_ResponseDelivered : bool;
  ge_Progress : list SIMDResponse;
  ge_Stores : list SIMDResponse
}.

Definition fresh_global : GlobalAdapter := mkGlobalAdapter 1 0 false None 0 ∅ (None, None).

Definition NewGlobalAdapter `{TimingDocument} : result GlobalAdapter :=
  let unbuffered id := let? b := Buffer id in check bs_Size b =? 0 else Errorf "unsupported global adapter buffering" in Ok tt in
  let? _ := unbuffered "b-global-adapter-request" in
  let? _ := unbuffered "b-global-adapter-response" in
  let? a := Arbiter "b-global-adapter-response" in
  check negb ((ar_Inputs a <>? 2) || negb (ar_Policy a == "P") || ar_Sticky a) else Errorf "unsupported global adapter pack arbitration" in
  Ok fresh_global.

(** The word of a channel, under the batch's wire transaction. *)
Definition global_word (sequence : Z) (b : CoalescedBatch) (p : Z) : WordRequest :=
  let w := sel (cb_Words b) p in
  mkWordRequest (with_transaction sequence (cb_Identity b)) sequence (wq_Address w) (wq_Write w) (wq_NonCacheable w) (wq_Flush w) (wq_ByteEnable w) (wq_Data w).

Definition global_offer (a : GlobalAdapter) (b : option CoalescedBatch) (p : Z) : WordOffer :=
  match b with
  | Some b => if enabled (cb_Mask b) p && negb (enabled (ga_delivered a) p) then Some (global_word (ga_sequence a) b p) else None
  | None => None
  end.

Definition Global_Offers (a : GlobalAdapter) (b : option CoalescedBatch) : list WordOffer := [global_offer a b 0; global_offer a b 1].

Definition reply_at (replies : list WordReply) (p : Z) : WordReply := default no_word_reply (replies !! Z.to_nat p).

(** A response is of a word that was sent and is not done. *)
Definition global_owns (rec : globalWordRecord) (p : Z) (r : WordResponse) : bool :=
  negb (cb_Write (gw_batch rec)) && enabled (gw_sent rec) p && negb (enabled (gw_done rec) p) && bool_decide (wr_Identity r = wq_Identity (sel (gw_words rec) p)) &&
  (wr_Tag r =? wq_Tag (sel (gw_words rec) p)) && (wr_ByteEnable r =? 255).

Definition set_sel {A} (p : Z) (x : A) (v : A * A) : A * A := if p =? 0 then (x, v.2) else (v.1, x).

(** The packed response so far, with the transaction it was selected for. *)
Definition preview_port (a : GlobalAdapter) (reads : list WordReply) (st : option (Z * BatchResponse)) (p : Z) : result (option (Z * BatchResponse)) :=
  match wy_Response (reply_at reads p) with
  | None => Ok st
  | Some r =>
      let id := id_Transaction (wr_Identity r) in
      match ga_records a !! id with
      | None => Err (Errorf "foreign or duplicate global word response")
      | Some rec =>
          check global_owns rec p r else Errorf "foreign or duplicate global word response" in
          let '(selected, b) := default (id, mkBatchResponse (cb_ID (gw_batch rec)) 0 (zero_word, zero_word) (None, None)) st in
          Ok (Some (selected, if id =? selected then mkBatchResponse (br_ID b) (br_Mask b .| (1 << p)) (set_sel p (wr_Data r) (br_Data b)) (set_sel p (wr_Err r) (br_Errors b)) else b))
      end
  end.

Definition Global_Preview (a : GlobalAdapter) (reads : list WordReply) : result (option BatchResponse) :=
  check zlen reads =? 2 else Errorf "global adapter read port count" in
  let? st := foldM (preview_port a reads) None [0; 1] in
  Ok (snd <$> st).

Definition packed (response : option BatchResponse) (p : Z) : bool := match response with Some b => enabled (br_Mask b) p | None => false end.

Definition Global_ReadReady (a : GlobalAdapter) (reads : list WordReply) (ready : bool) : result (list bool) :=
  let? b := Global_Preview a reads in
  Ok (map (fun p => ready && packed b p) [0; 1]).

Definition batchLaneMask (b : CoalescedBatch) (p : Z) : Z := cb_LaneMask b .& (3 << (2 * p)).

Definition Global_HasResidency (a : GlobalAdapter) (kernel cta : Z) : bool :=
  existsb (fun r => belongs kernel cta (cb_Identity (gw_batch r))) (map snd (map_to_list (ga_records a))) ||
  match ga_held a with Some b => belongs kernel cta (cb_Identity b) | None => false end.

Definition Global_Drained (a : GlobalAdapter) : bool := bool_decide (ga_held a = None) && bool_decide (ga_records a = ∅).

(** ** Checks *)

Definition MaxUint64 : Z := 2 ^ 64 - 1.

Definition batch_word_check (b : CoalescedBatch) (p : Z) : result unit :=
  let w := sel (cb_Words b) p in
  check Bool.eqb (enabled (cb_Mask b) p) (batchLaneMask b p <>? 0) else Errorf "inconsistent batch lane coverage" in
  check negb (enabled (cb_Mask b) p && ((wq_Address w mod 8 <>? 0) || negb (Bool.eqb (wq_Write w) (cb_Write b)) || (batchLaneMask b p =? 0))) else Errorf "invalid global batch word" in Ok tt.

Definition batch_check (a : GlobalAdapter) (batch : option CoalescedBatch) : result unit :=
  check negb (bool_decide (ga_held a <> None /\ ga_held a <> batch)) else Errorf "changed stalled batch" in
  match batch with
  | None => Ok tt
  | Some b =>
      check negb ((ga_sequence a =? MaxUint64) || (cb_Mask b =? 0) || (cb_Mask b .&^ 3 <>? 0) || (cb_LaneMask b =? 0) || (cb_LaneMask b .&^ 15 <>? 0)) else Errorf "invalid global batch" in
      let? _ := batch_word_check b 0 in batch_word_check b 1
  end.

Definition accepted_of (edge : CacheEdge) (p : Z) : bool := default false (cg_Accepted edge !! Z.to_nat p).

(** A stalled response stays, and exactly the packed responses are delivered. *)
Definition reply_stable (held : option WordResponse) (r : WordReply) (want : bool) : result unit :=
  check negb (bool_decide (held <> None /\ held <> wy_Response r)) else Errorf "changed stalled cache response" in
  check Bool.eqb (wy_Delivered r) want else Errorf "incorrect adapter response handshake" in Ok tt.

Definition wanted (response : option BatchResponse) (ready : bool) (r : WordReply) (p : Z) : bool := bool_decide (wy_Response r <> None) && packed response p && ready.

Definition receipt_port (r : StoreReceipt) : bool := (0 <=? st_Port r) && (st_Port r <? 2).

Definition store_check (a : GlobalAdapter) (seen : gmap Z Z) (r : StoreReceipt) : result (gmap Z Z) :=
  let id := id_Transaction (wq_Identity (st_Request r)) in
  match ga_records a !! id with
  | None => Err (Errorf "foreign or duplicate adapter store receipt")
  | Some rec =>
      check receipt_port r && cb_Write (gw_batch rec) && bool_decide (sel (gw_words rec) (st_Port r) = st_Request r) && enabled (gw_sent rec) (st_Port r) &&
            negb (enabled (gw_done rec .| default 0 (seen !! id)) (st_Port r)) else Errorf "foreign or duplicate adapter store receipt" in
      Ok (<[id := default 0 (seen !! id) .| (1 << st_Port r)]> seen)
  end.

Definition Global_check (a : GlobalAdapter) (cycle : Z) (i : GlobalAdapterInput) : result (option BatchResponse) :=
  check negb (ga_started a && ((ga_cycle a =? MaxUint64) || (cycle <>? ga_cycle a + 1))) else Errorf "noncontiguous adapter cycle" in
  check (zlen (cg_Accepted (gi_Cache i)) =? 2) && (zlen (cg_Replies (gi_Cache i)) =? 2) else Errorf "global adapter port count" in
  let? _ := batch_check a (gi_Batch i) in
  check forallb (fun p => negb (accepted_of (gi_Cache i) p && negb (bool_decide (global_offer a (gi_Batch i) p <> None)))) [0; 1] else Errorf "cache accepted without adapter offer" in
  let? response := Global_Preview a (cg_Replies (gi_Cache i)) in
  let? _ := foldM (fun _ p => let r := reply_at (cg_Replies (gi_Cache i)) p in reply_stable (sel (ga_heldReads a) p) r (wanted response (gi_ResponseReady i) r p)) tt [0; 1] in
  let? _ := foldM (store_check a) ∅ (cg_Stores (gi_Cache i)) in
  Ok response.

(** ** The edge *)

Notation global_records := (gmap Z globalWordRecord).

Definition with_done (m : Z) (r : globalWordRecord) : globalWordRecord := mkGlobalRecord (gw_batch r) (gw_words r) (gw_sent r) (gw_done r .| m) (gw_released r).
Definition with_released (r : globalWordRecord) : globalWordRecord := mkGlobalRecord (gw_batch r) (gw_words r) (gw_sent r) (gw_done r) true.
Definition with_word (p : Z) (w : WordRequest) (r : globalWordRecord) : globalWordRecord :=
  mkGlobalRecord (gw_batch r) (set_sel p w (gw_words r)) (gw_sent r .| (1 << p)) (gw_done r) (gw_released r).

(** [a.records[id]] is dereferenced. *)
Definition update_global (f : globalWordRecord -> globalWordRecord) (id : Z) (rs : global_records) : result global_records :=
  match rs !! id with None => Err (GoPanic "nil global record") | Some r => Ok (<[id := f r]> rs) end.

(** The transaction of a delivered reply. *)
Definition done_reply (replies : list WordReply) (p : Z) : option Z :=
  let r := reply_at replies p in if wy_Delivered r then (fun x => id_Transaction (wr_Identity x)) <$> wy_Response r else None.

Definition reply_done (replies : list WordReply) (rs : global_records) (p : Z) : result global_records :=
  match done_reply replies p with Some id => update_global (with_done (1 << p)) id rs | None => Ok rs end.

Definition lane_event (identity : Identity) (tag mask : Z) (err : option error) : SIMDResponse :=
  mkSIMDResponse identity no_batch tag mask (qfill [0; 0; 0; 0]) (qmake (fun lane => if enabled mask lane then err else None)).

Definition store_done (st : global_records * list SIMDResponse) (r : StoreReceipt) : result (global_records * list SIMDResponse) :=
  let id := id_Transaction (wq_Identity (st_Request r)) in
  match st.1 !! id with
  | None => Err (GoPanic "nil global record")
  | Some rec => Ok (<[id := with_done (1 << st_Port r) rec]> st.1, st.2 ++ [lane_event (cb_Identity (gw_batch rec)) (cb_Tag (gw_batch rec)) (batchLaneMask (gw_batch rec) (st_Port r)) (st_Err r)])
  end.

(** A channel leaves: its word is recorded under the current transaction. *)
Definition word_sent (a : GlobalAdapter) (i : GlobalAdapterInput) (st : global_records * Z * list SIMDResponse) (p : Z) : global_records * Z * list SIMDResponse :=
  let '(rs, delivered, progress) := st in
  match (if accepted_of (gi_Cache i) p then global_offer a (gi_Batch i) p else None), gi_Batch i with
  | Some w, Some b =>
      let rec := default (mkGlobalRecord b (no_word, no_word) 0 0 false) (rs !! ga_sequence a) in
      (<[ga_sequence a := with_word p w rec]> rs, delivered .| (1 << p), progress ++ [lane_event (cb_Identity (gw_batch rec)) (cb_Tag (gw_batch rec)) (batchLaneMask (gw_batch rec) p) None])
  | _, _ => st
  end.

Definition batch_accepted (batch : option CoalescedBatch) (delivered : Z) : bool := match batch with Some b => delivered .& cb_Mask b =? cb_Mask b | None => false end.

Definition word_finished (r : globalWordRecord) : bool := gw_released r && (gw_done r =? cb_Mask (gw_batch r)).

Definition stalled_read (replies : list WordReply) (p : Z) : option WordResponse := let r := reply_at replies p in if wy_Delivered r then None else wy_Response r.

Definition Global_Step (a : GlobalAdapter) (cycle : Z) (i : GlobalAdapterInput) : GlobalAdapter * result GlobalAdapterEdge :=
  match Global_check a cycle i with
  | Err e => (a, Err e)
  | Ok response =>
      let replies := cg_Replies (gi_Cache i) in
      match (let? rs := foldM (reply_done replies) (ga_records a) [0; 1] in
             let? (rs, stores) := foldM store_done (rs, []) (cg_Stores (gi_Cache i)) in
             let '(rs, delivered, progress) := word_sent a i (word_sent a i (rs, ga_delivered a, []) 0) 1 in
             let accepted := batch_accepted (gi_Batch i) delivered in
             let? rs := (if accepted then update_global with_released (ga_sequence a) rs else Ok rs) in
             Ok (rs, stores, delivered, progress, accepted)) with
      | Err e => (a, Err e)
      | Ok (rs, stores, delivered, progress, accepted) =>
          (mkGlobalAdapter (if accepted then u64 (ga_sequence a + 1) else ga_sequence a) cycle true (if accepted then None else gi_Batch i) (if accepted then 0 else delivered)
             (filter (fun x => word_finished x.2 = false) rs) (stalled_read replies 0, stalled_read replies 1),
           Ok (mkGlobalEdge accepted response (bool_decide (response <> None) && gi_ResponseReady i) progress stores))
      end
  end.
