(* ===== verification/GlobalAdapterSpec.v ===== *)
(** * Runs of the global adapter

    In any run of a fresh global adapter each word of an accepted batch is sent once and
    comes back once, under the number of its batch; the records are never missing where
    the code looks one up. *)

From S2P Require Import Prelude Memory TimingIR Memsys Coalescer GlobalAdapter Lanes.

#[local] Open Scope Z_scope.
#[local] Open Scope go_scope.

#[export] Instance global_wire : WireRecord globalWordRecord CoalescedBatch :=
  {| wi_payload := gw_batch; wi_mask := cb_Mask; wi_sent := gw_sent; wi_done := gw_done; wi_released := gw_released |}.

(** ** What an edge sends and takes back *)

Definition accepts (a : GlobalAdapter) (i : GlobalAdapterInput) (p : Z) : bool := accepted_of (gi_Cache i) p && bool_decide (global_offer a (gi_Batch i) p <> None).
Definition port_key (a : GlobalAdapter) (i : GlobalAdapterInput) (p : Z) : list (Z * Z) := if accepts a i p then [(ga_sequence a, 1 << p)] else [].
Definition sent_keys (a : GlobalAdapter) (i : GlobalAdapterInput) : list (Z * Z) := port_key a i 0 ++ port_key a i 1.

Definition reply_key (replies : list WordReply) (p : Z) : list (Z * Z) := match done_reply replies p with Some id => [(id, 1 << p)] | None => [] end.
Definition reply_keys (replies : list WordReply) : list (Z * Z) := reply_key replies 0 ++ reply_key replies 1.
Definition store_key (r : StoreReceipt) : Z * Z := (id_Transaction (wq_Identity (st_Request r)), 1 << st_Port r).
Definition back_keys (i : GlobalAdapterInput) : list (Z * Z) := reply_keys (cg_Replies (gi_Cache i)) ++ map store_key (cg_Stores (gi_Cache i)).

(** ** Records *)

Lemma done_marks ms r : let r' := fold_left (fun r m => with_done m r) ms r in
  gw_batch r' = gw_batch r /\ gw_words r' = gw_words r /\ gw_sent r' = gw_sent r /\ gw_released r' = gw_released r /\
  forall n, bit (gw_done r') n = bit (gw_done r) n || existsb (fun m => bit m n) ms.
Proof.
  revert r. induction ms as [|m ms IH]; intros r; cbn [fold_left existsb]; cbv zeta; [split_and!; try done; intros n; by rewrite orb_false_r|].
  destruct (IH (with_done m r)) as (H1 & H2 & H3 & H4 & H5). split_and!; try done. intros n. rewrite H5. cbn [with_done gw_done]. by rewrite bits_or, orb_assoc.
Qed.

Notation mark_done := (mark_one with_done (GoPanic "nil global record")).

Lemma replies_marks replies ps rs : foldM (reply_done replies) rs ps = foldM mark_done rs (flat_map (reply_key replies) ps).
Proof.
  revert rs. induction ps as [|p ps IH]; intros rs; [done|]. cbn [foldM flat_map]. unfold reply_done at 1, reply_key at 1. destruct (done_reply replies p) as [id|]; cbn [app foldM result_bind]; [|apply IH].
  unfold update_global, mark_one at 1. cbn [fst snd]. destruct (rs !! id); cbn [result_bind]; [apply IH|done].
Qed.

(** The event of a store receipt. *)
Definition store_event (rs : global_records) (r : StoreReceipt) (x : SIMDResponse) : Prop :=
  exists rec, rs !! (store_key r).1 = Some rec /\ x = lane_event (cb_Identity (gw_batch rec)) (cb_Tag (gw_batch rec)) (batchLaneMask (gw_batch rec) (st_Port r)) (st_Err r).

Lemma store_event_marked rs r rec m id x : rs !! id = Some rec -> store_event (<[id := with_done m rec]> rs) r x -> store_event rs r x.
Proof.
  intros Hr (y & Hy & E). destruct (decide (id = (store_key r).1)) as [Ei|Hne]; [rewrite <- Ei, lookup_insert_eq in Hy; injection Hy as <-; exists rec; by rewrite <- Ei|]. rewrite lookup_insert_ne in Hy by done. by exists y.
Qed.

Lemma stores_marks rs ev ss rs' : foldM mark_done rs (map store_key ss) = Ok rs' ->
  exists ev', foldM store_done (rs, ev) ss = Ok (rs', ev ++ ev') /\ Forall2 (store_event rs) ss ev'.
Proof.
  revert rs ev. induction ss as [|r ss IH]; intros rs ev H; cbn [map foldM] in H.
  - injection H as <-. exists []. rewrite app_nil_r. by split.
  - unfold mark_one at 1 in H. cbn [foldM]. unfold store_done at 1. cbn [fst snd] in *. change (store_key r).1 with (id_Transaction (wq_Identity (st_Request r))) in H. change (store_key r).2 with (1 << st_Port r) in H. destruct (rs !! id_Transaction (wq_Identity (st_Request r))) as [rec|] eqn:Er; [|done]. cbn [result_bind] in *.
    destruct (IH _ (ev ++ [lane_event (cb_Identity (gw_batch rec)) (cb_Tag (gw_batch rec)) (batchLaneMask (gw_batch rec) (st_Port r)) (st_Err r)]) H) as (ev' & E & Hev).
    eexists (_ :: ev'). rewrite E, <- app_assoc. split; [done|]. constructor; [by exists rec|]. eapply Forall2_impl; [exact Hev|]. intros x y. by apply store_event_marked.
Qed.

(** ** What the checks show *)

Lemma enabled_port m p : p = 0 \/ p = 1 -> enabled m p = bit m p.
Proof. intros Hp. apply enabled_bit. lia. Qed.

(** A response is of a sent word of a read batch. *)
Definition answers (a : GlobalAdapter) (p : Z) (r : WordResponse) : Prop :=
  exists rec, ga_records a !! id_Transaction (wr_Identity r) = Some rec /\ cb_Write (gw_batch rec) = false /\ bit (gw_sent rec) p = true /\ bit (gw_done rec) p = false.

(** The response under construction: a batch and the ports whose words it has. *)
Definition packs (a : GlobalAdapter) (reads : list WordReply) (ps : list Z) (st : option (Z * BatchResponse)) : Prop :=
  match st with
  | None => forall p, p ∈ ps -> wy_Response (reply_at reads p) = None
  | Some (id, b) => exists rec, ga_records a !! id = Some rec /\ br_ID b = cb_ID (gw_batch rec) /\
      forall n, bit (br_Mask b) n = bool_decide (n ∈ ps) && match wy_Response (reply_at reads n) with Some r => id_Transaction (wr_Identity r) =? id | None => false end
  end.

Lemma preview_step a reads ps st p st' : p = 0 \/ p = 1 -> p ∉ ps -> packs a reads ps st -> preview_port a reads st p = Ok st' ->
  packs a reads (ps ++ [p]) st' /\ forall r, wy_Response (reply_at reads p) = Some r -> answers a p r.
Proof.
  intros Hp Hnew Hst H. unfold preview_port in H. destruct (wy_Response (reply_at reads p)) as [r|] eqn:Er.
  - destruct (ga_records a !! id_Transaction (wr_Identity r)) as [rec|] eqn:Erec; [|done]. destruct (global_owns rec p r) eqn:Eo; [|done]. split.
    + assert (exists id b, default (id_Transaction (wr_Identity r), mkBatchResponse (cb_ID (gw_batch rec)) 0 (zero_word, zero_word) (None, None)) st = (id, b) /\
        exists rec', ga_records a !! id = Some rec' /\ br_ID b = cb_ID (gw_batch rec') /\ (st = None -> id = id_Transaction (wr_Identity r)) /\
        forall n, bit (br_Mask b) n = bool_decide (n ∈ ps) && match wy_Response (reply_at reads n) with Some r => id_Transaction (wr_Identity r) =? id | None => false end) as (id & b & E & rec' & Hrec' & Hid & Hsel & Hbits).
      { destruct st as [[id b]|]; cbn.
        - destruct Hst as (rec' & H1 & H2 & H3). exists id, b. split; [done|]. by exists rec'.
        - do 2 eexists. split; [done|]. exists rec. split_and!; try done. intros n. cbn [br_Mask]. rewrite Z.bits_0. case_bool_decide as Hn; [|done]. cbn. by rewrite (Hst n Hn). }
      rewrite E in H. injection H as <-. exists rec'. split; [done|]. assert (forall n, bool_decide (n ∈ ps ++ [p]) = bool_decide (n ∈ ps) || (n =? p)) as Hin.
      { intros n. case_bool_decide as H1; case_bool_decide as H2; cbn; try done; destruct (Z.eqb_spec n p) as [->|]; cbn; try done; set_solver. }
      destruct (Z.eqb_spec (id_Transaction (wr_Identity r)) id) as [Ei|Ei].
      * split; [done|]. intros n. cbn [br_Mask]. rewrite bits_or, bit_shift, Hbits, Hin by lia. destruct (Z.eqb_spec n p) as [->|]; [rewrite Er, !orb_true_r; symmetry; by apply Z.eqb_eq|by rewrite !orb_false_r].
      * split; [done|]. intros n. rewrite Hbits, Hin. destruct (Z.eqb_spec n p) as [->|]; [|by rewrite orb_false_r]. rewrite Er. destruct (Z.eqb_spec (id_Transaction (wr_Identity r)) id); [done|]. by rewrite !andb_false_r.
    + intros x [= <-]. exists rec. unfold global_owns in Eo. rewrite !andb_true_iff, !negb_true_iff, !enabled_port in Eo by done. by destruct Eo as [[[[[? ?] ?] _] _] _].
  - injection H as <-. split; [|done]. destruct st as [[id b]|]; cbn [packs] in *.
    + destruct Hst as (rec' & H1 & H2 & H3). exists rec'. split_and!; try done. intros n. rewrite H3. destruct (decide (n = p)) as [->|Hne]; [by rewrite Er, !andb_false_r|].
      f_equal. apply bool_decide_ext. set_solver.
    + intros q [Hq|Hq%list_elem_of_singleton]%elem_of_app; [by apply Hst|by subst q].
Qed.

Lemma Preview_packs a reads response : Global_Preview a reads = Ok response ->
  (forall p r, p = 0 \/ p = 1 -> wy_Response (reply_at reads p) = Some r -> answers a p r) /\
  (forall b, response = Some b -> exists id rec, ga_records a !! id = Some rec /\ br_ID b = cb_ID (gw_batch rec) /\
    forall n, bit (br_Mask b) n = true -> (n = 0 \/ n = 1) /\ exists r, wy_Response (reply_at reads n) = Some r /\ id_Transaction (wr_Identity r) = id).
Proof.
  unfold Global_Preview. destruct (zlen reads =? 2); [|done]. cbn [foldM]. destruct (preview_port a reads None 0) as [s1|] eqn:E1; [|done]. cbn [result_bind]. destruct (preview_port a reads s1 1) as [s2|] eqn:E2; [|done]. intros [= <-].
  destruct (preview_step a reads [] None 0 s1 ltac:(by left) ltac:(set_solver) ltac:(intros p Hp; by apply elem_of_nil in Hp) E1) as [P1 A1].
  destruct (preview_step a reads [0] s1 1 s2 ltac:(by right) ltac:(set_solver) P1 E2) as [P2 A2]. split.
  - intros p r [->| ->]; [apply A1|apply A2].
  - intros b Eb. destruct s2 as [[id b']|]; [|done]. cbn in Eb. injection Eb as ->. destruct P2 as (rec & H1 & H2 & H3). exists id, rec. split_and!; try done.
    intros n Hn. rewrite H3 in Hn. apply andb_true_iff in Hn as [Hn%bool_decide_eq_true Hm]. split; [set_solver|]. destruct (wy_Response (reply_at reads n)) as [r|]; [|done]. exists r. split; [done|]. by apply Z.eqb_eq.
Qed.

(** A receipt is of a sent word of a write batch. *)
Definition acknowledges (a : GlobalAdapter) (r : StoreReceipt) : Prop :=
  (st_Port r = 0 \/ st_Port r = 1) /\
  exists rec, ga_records a !! (store_key r).1 = Some rec /\ cb_Write (gw_batch rec) = true /\ bit (gw_sent rec) (st_Port r) = true /\ bit (gw_done rec) (st_Port r) = false.

Definition seen_mask (seen : gmap Z Z) (id : Z) : Z := default 0 (seen !! id).

Lemma stores_checked a ss seen seen' : foldM (store_check a) seen ss = Ok seen' ->
  Forall (acknowledges a) ss /\ forall id n, (cover (map store_key ss) id n + Nat.b2n (bit (seen_mask seen id) n) <= 1)%nat.
Proof.
  revert seen. induction ss as [|r ss IH]; intros seen H; cbn [foldM map] in *; [split; [done|intros id n; destruct (bit _ n); cbn; lia]|].
  unfold store_check at 1 in H. destruct (ga_records a !! id_Transaction (wq_Identity (st_Request r))) as [rec|] eqn:Er; [|done].
  destruct (receipt_port r && _ && _ && _ && _) eqn:Ec in H; [|done]. cbn [result_bind] in H. rewrite !andb_true_iff, negb_true_iff in Ec. destruct Ec as [[[[Hp Hw] _] Hs] Hd].
  unfold receipt_port in Hp. apply andb_true_iff in Hp as [H1%Z.leb_le H2%Z.ltb_lt]. rewrite enabled_bit in Hs, Hd by done. rewrite bits_or in Hd. apply orb_false_iff in Hd as [Hd Hseen].
  destruct (IH _ H) as [Hf Hc]. split.
  - constructor; [|done]. split; [lia|]. by exists rec.
  - intros id n. specialize (Hc id n). rewrite cover_cons. cbn [store_key fst snd]. rewrite bit_shift by done. destruct (decide (id_Transaction (wq_Identity (st_Request r)) = id)) as [<-|Hne].
    + rewrite bool_decide_true by done. unfold seen_mask in *. rewrite lookup_insert_eq in Hc. match type of Hc with context [default 0 (Some ?x)] => change (default 0 (Some x)) with x in Hc end.
      rewrite bits_or, bit_shift in Hc by done. destruct (Z.eqb_spec n (st_Port r)) as [En|]; cbn [andb Nat.b2n]; [rewrite orb_true_r in Hc; rewrite En, Hseen in *; cbn in *; lia|]. rewrite orb_false_r in Hc. lia.
    + rewrite bool_decide_false by done. unfold seen_mask in *. rewrite lookup_insert_ne in Hc by done. cbn. lia.
Qed.

(** The checks of an edge. *)
Record edge_checked (a : GlobalAdapter) (i : GlobalAdapterInput) (response : option BatchResponse) : Prop := {
  ec_held : ga_held a <> None -> gi_Batch i = ga_held a;
  ec_batch : forall b, gi_Batch i = Some b -> cb_Mask b <> 0 /\ ga_sequence a <> MaxUint64;
  ec_preview : Global_Preview a (cg_Replies (gi_Cache i)) = Ok response;
  ec_delivered : forall p, p = 0 \/ p = 1 -> wy_Delivered (reply_at (cg_Replies (gi_Cache i)) p) = wanted response (gi_ResponseReady i) (reply_at (cg_Replies (gi_Cache i)) p) p;
  ec_stores : Forall (acknowledges a) (cg_Stores (gi_Cache i)) /\ forall id n, (cover (map store_key (cg_Stores (gi_Cache i))) id n <= 1)%nat;
  ec_accepted : forall p, p = 0 \/ p = 1 -> accepted_of (gi_Cache i) p = true -> global_offer a (gi_Batch i) p <> None
}.

Lemma Global_check_ok a cycle i response : Global_check a cycle i = Ok response -> edge_checked a i response.
Proof.
  unfold Global_check. destruct (negb (ga_started a && _)); [|done]. destruct (_ && _); [|done].
  destruct (batch_check a (gi_Batch i)) as [[]|] eqn:Eb; [|done]. cbn [result_bind]. destruct (forallb _ _) eqn:Ea; [|done].
  destruct (Global_Preview a (cg_Replies (gi_Cache i))) as [resp|] eqn:Ep; [|done]. cbn [result_bind foldM].
  destruct (reply_stable (sel (ga_heldReads a) 0) _ _) as [[]|] eqn:E0; [|done]. cbn [result_bind].
  destruct (reply_stable (sel (ga_heldReads a) 1) _ _) as [[]|] eqn:E1; [|done]. cbn [result_bind].
  destruct (foldM (store_check a) ∅ _) as [seen|] eqn:Es; [|done]. intros [= <-].
  unfold batch_check in Eb. destruct (negb (bool_decide _)) eqn:Eh in Eb; [|done]. apply negb_true_iff, bool_decide_eq_false in Eh.
  split; try done.
  - intros Hh. destruct (decide (gi_Batch i = ga_held a)) as [|Hne]; [done|]. destruct Eh. split; [done|]. by intros E.
  - intros b Ebatch. rewrite Ebatch in Eb. destruct (negb _) eqn:Ec in Eb; [|done]. apply negb_true_iff in Ec. rewrite !orb_false_iff in Ec. destruct Ec as [[[[Hs Hm] _] _] _].
    split; by apply Z.eqb_neq.
  - intros p Hp. assert (forall held r want, reply_stable held r want = Ok tt -> wy_Delivered r = want) as Hst.
    { intros held r want. unfold reply_stable. destruct (negb _); [|done]. by destruct (Bool.eqb_spec (wy_Delivered r) want). }
    destruct Hp as [->| ->]; by eapply Hst.
  - destruct (stores_checked _ _ _ _ Es) as [H1 H2]. split; [done|]. intros id n. specialize (H2 id n). lia.
  - intros p Hp Hacc. rewrite forallb_forall in Ea. specialize (Ea p ltac:(destruct Hp as [->| ->]; cbn; tauto)). rewrite Hacc in Ea. cbn in Ea. rewrite negb_involutive in Ea. by apply bool_decide_eq_true in Ea.
Qed.

(** ** An edge *)

Definition port_bit (a : GlobalAdapter) (i : GlobalAdapterInput) (p : Z) : Z := if accepts a i p then 1 << p else 0.
Definition delivered_after (a : GlobalAdapter) (i : GlobalAdapterInput) : Z := ga_delivered a .| port_bit a i 0 .| port_bit a i 1.

Lemma accepts_offer a i p : p = 0 \/ p = 1 -> accepts a i p = true -> exists b, gi_Batch i = Some b /\ bit (cb_Mask b) p = true /\ bit (ga_delivered a) p = false.
Proof.
  intros Hp [_ H%bool_decide_eq_true]%andb_true_iff. unfold global_offer in H. destruct (gi_Batch i) as [b|]; [|done]. destruct (enabled _ _ && _) eqn:E in H; [|done].
  apply andb_true_iff in E as [E1 E2%negb_true_iff]. rewrite !enabled_port in * by done. by exists b.
Qed.

(** What sending a word makes of the records. *)
Lemma word_sent_spec a i p rs d pr : p = 0 \/ p = 1 ->
  exists rs' pr', word_sent a i (rs, d, pr) p = (rs', d .| port_bit a i p, pr') /\
    if accepts a i p then exists b w, gi_Batch i = Some b /\ rs' = <[ga_sequence a := with_word p w (default (mkGlobalRecord b (no_word, no_word) 0 0 false) (rs !! ga_sequence a))]> rs
    else rs' = rs.
Proof.
  intros Hp. unfold word_sent, port_bit, accepts. destruct (accepted_of (gi_Cache i) p); cbn [andb].
  - unfold global_offer. destruct (gi_Batch i) as [b|]; [|rewrite bool_decide_false by (intros H; by apply H); rewrite Z.lor_0_r; by do 2 eexists].
    destruct (enabled _ _ && _) eqn:E; [rewrite bool_decide_true by done|rewrite bool_decide_false by (intros H; by apply H); rewrite Z.lor_0_r; by do 2 eexists].
    do 2 eexists. split; [done|]. by exists b, (global_word (ga_sequence a) b p).
  - destruct (gi_Batch i); rewrite Z.lor_0_r; by do 2 eexists.
Qed.

Section Edge.
Context (a : GlobalAdapter) (i : GlobalAdapterInput) (accepted : list CoalescedBatch) (sent back : list (Z * Z)) (response : option BatchResponse).
Context (Hinv : table_inv (ga_records a) accepted (ga_held a) (ga_delivered a) sent back) (Hseq : ga_sequence a = wire_number accepted) (Hck : edge_checked a i response).

Lemma reply_key_back p id : p = 0 \/ p = 1 -> done_reply (cg_Replies (gi_Cache i)) p = Some id ->
  exists rec, ga_records a !! id = Some rec /\ cb_Write (gw_batch rec) = false /\ bit (gw_sent rec) p = true /\ bit (gw_done rec) p = false.
Proof.
  intros Hp H. unfold done_reply in H. destruct (wy_Delivered _); [|done]. destruct (wy_Response _) as [r|] eqn:Er; [|done]. injection H as <-.
  exact (proj1 (Preview_packs _ _ _ (ec_preview _ _ _ Hck)) p r Hp Er).
Qed.

Lemma reply_keys_covers id n : covers (reply_keys (cg_Replies (gi_Cache i))) id n = true -> (n = 0 \/ n = 1) /\ done_reply (cg_Replies (gi_Cache i)) n = Some id.
Proof.
  unfold reply_keys. rewrite covers_app, orb_true_iff. unfold reply_key. intros [H|H].
  - destruct (done_reply _ 0) eqn:E; [|done]. cbn [covers existsb fst snd] in H. rewrite orb_false_r, andb_true_iff, bool_decide_eq_true, bit_shift, Z.eqb_eq in H by lia. destruct H as [-> ->]. split; [by left|done].
  - destruct (done_reply _ 1) eqn:E; [|done]. cbn [covers existsb fst snd] in H. rewrite orb_false_r, andb_true_iff, bool_decide_eq_true, bit_shift, Z.eqb_eq in H by lia. destruct H as [-> ->]. split; [by right|done].
Qed.

Lemma store_keys_covers id n : covers (map store_key (cg_Stores (gi_Cache i))) id n = true ->
  exists rec, ga_records a !! id = Some rec /\ cb_Write (gw_batch rec) = true /\ bit (gw_sent rec) n = true /\ bit (gw_done rec) n = false.
Proof.
  intros (m & Hin & Hb)%covers_true. apply list_elem_of_fmap in Hin as (r & E & Hr). destruct (ec_stores _ _ _ Hck) as [Hf _]. rewrite Forall_forall in Hf. destruct (Hf r Hr) as (Hp & rec & H1 & H2 & H3 & H4).
  rewrite <- E in H1. cbn [fst] in H1. injection E as _ Em. subst m. rewrite bit_shift in Hb by lia. apply Z.eqb_eq in Hb as ->. by exists rec.
Qed.

Lemma reply_key_once p id n : (cover (reply_key (cg_Replies (gi_Cache i)) p) id n <= 1)%nat.
Proof. unfold reply_key. destruct (done_reply _ p); [rewrite cover_singleton; destruct (_ && _); cbn; lia|cbn; lia]. Qed.

Lemma back_keys_ok id n : covers (back_keys i) id n = true -> (cover (back_keys i) id n <= 1)%nat /\ exists rec, ga_records a !! id = Some rec /\ bit (gw_sent rec) n = true /\ bit (gw_done rec) n = false.
Proof.
  unfold back_keys. rewrite covers_app, cover_app. destruct (ec_stores _ _ _ Hck) as [_ Hone]. specialize (Hone id n). intros [H|H]%orb_true_iff.
  - destruct (reply_keys_covers _ _ H) as [Hn Hd]. destruct (reply_key_back _ _ Hn Hd) as (rec & H1 & H2 & H3 & H4). split; [|by exists rec].
    assert (cover (map store_key (cg_Stores (gi_Cache i))) id n = 0%nat) as ->.
    { apply covers_false, not_true_iff_false. intros Hs. destruct (store_keys_covers _ _ Hs) as (rec' & E & Hw & _). rewrite H1 in E. injection E as <-. congruence. }
    unfold reply_keys. rewrite cover_app. pose proof (reply_key_once 0 id n). pose proof (reply_key_once 1 id n).
    assert (forall p, p = 0 \/ p = 1 -> n <> p -> cover (reply_key (cg_Replies (gi_Cache i)) p) id n = 0%nat) as Hz.
    { intros p Hp Hne. unfold reply_key. destruct (done_reply _ p); [|done]. rewrite cover_singleton, bit_shift by lia. rewrite (proj2 (Z.eqb_neq _ _) Hne). by rewrite andb_false_r. }
    destruct Hn as [-> | ->]; [rewrite (Hz 1)|rewrite (Hz 0)]; try lia; tauto.
  - destruct (store_keys_covers _ _ H) as (rec & H1 & H2 & H3 & H4). split; [|by exists rec].
    assert (cover (reply_keys (cg_Replies (gi_Cache i))) id n = 0%nat) as ->; [|lia].
    apply covers_false, not_true_iff_false. intros Hs. destruct (reply_keys_covers _ _ Hs) as [Hn Hd]. destruct (reply_key_back _ _ Hn Hd) as (rec' & E & Hw & _). rewrite H1 in E. injection E as <-. congruence.
Qed.

Lemma back_present : Forall (fun k => is_Some (ga_records a !! k.1)) (back_keys i).
Proof.
  apply Forall_forall. intros [id m] Hin. cbn. destruct (nonzero_bit m) as [n Hn].
  - unfold back_keys, reply_keys, reply_key in Hin. rewrite !elem_of_app in Hin. destruct Hin as [[Hin|Hin]|Hin].
    + destruct (done_reply _ 0); [apply list_elem_of_singleton in Hin; by injection Hin as _ ->|by apply elem_of_nil in Hin].
    + destruct (done_reply _ 1); [apply list_elem_of_singleton in Hin; by injection Hin as _ ->|by apply elem_of_nil in Hin].
    + apply list_elem_of_fmap in Hin as (r & E & Hr). injection E as _ ->. destruct (ec_stores _ _ _ Hck) as [Hf _]. rewrite Forall_forall in Hf. destruct (Hf r Hr) as ([-> | ->] & _); done.
  - destruct (back_keys_ok id n) as (_ & rec & H & _); [apply covers_true; by exists m|by eexists].
Qed.

Lemma held_none : ga_held a = None -> ga_delivered a = 0.
Proof.
  intros H. apply (ti_current _ _ _ _ _ _ Hinv). destruct (ga_records a !! wire_number accepted) as [r|] eqn:E; [|done].
  pose proof (ri_at _ _ _ _ _ _ _ (ti_record _ _ _ _ _ _ Hinv _ _ E)) as Hat. unfold wire_at in Hat. rewrite Z.eqb_refl, H in Hat. done.
Qed.

Lemma delivered_after_bit n : bit (delivered_after a i) n = bit (ga_delivered a) n || covers (sent_keys a i) (ga_sequence a) n.
Proof.
  unfold delivered_after, sent_keys, port_key, port_bit. rewrite !bits_or, covers_app, <- orb_assoc. f_equal.
  f_equal; destruct (accepts a i _); cbn [covers existsb fst snd]; rewrite ?Z.bits_0, ?bool_decide_true by done; by rewrite ?orb_false_r.
Qed.

Lemma sent_keys_covers id n : covers (sent_keys a i) id n = true -> id = ga_sequence a /\ (n = 0 \/ n = 1) /\ accepts a i n = true.
Proof.
  unfold sent_keys, port_key. rewrite covers_app. intros [H|H]%orb_true_iff; (destruct (accepts a i _) eqn:E; [|done]); cbn [covers existsb fst snd] in H;
    rewrite orb_false_r, andb_true_iff, bool_decide_eq_true, bit_shift, Z.eqb_eq in H by lia; destruct H as [<- ->]; tauto.
Qed.

Lemma sent_keys_once id n : (cover (sent_keys a i) id n <= 1)%nat.
Proof.
  assert (forall p, p = 0 \/ p = 1 -> (cover (port_key a i p) id n <= Nat.b2n (Z.eqb n p))%nat) as Hp.
  { intros p Hp. unfold port_key. destruct (accepts a i p); [|cbn; lia]. rewrite cover_singleton, bit_shift by lia. destruct (bool_decide _), (n =? p); cbn; lia. }
  unfold sent_keys. rewrite cover_app. pose proof (Hp 0 ltac:(by left)). pose proof (Hp 1 ltac:(by right)). destruct (Z.eqb_spec n 0), (Z.eqb_spec n 1); subst; cbn in *; lia.
Qed.

Lemma delivered_after_mask p : gi_Batch i = Some p -> forall n, bit (delivered_after a i) n = true -> bit (cb_Mask p) n = true.
Proof.
  intros Hp n. rewrite delivered_after_bit. intros [H|H]%orb_true_iff.
  - assert (ga_held a <> None) as Hh by (intros Eh; rewrite (held_none Eh), Z.bits_0 in H; done). pose proof (ec_held _ _ _ Hck Hh) as E. destruct (not_eq_None_Some (ga_held a)) as [Hs _]. destruct (Hs Hh) as [b Eh]. rewrite Eh in E.
    rewrite Hp in E. injection E as <-. apply (ti_mask _ _ _ _ _ _ Hinv _ Eh _ H).
  - destruct (sent_keys_covers _ _ H) as (_ & Hn & Ha). destruct (accepts_offer _ _ _ Hn Ha) as (b & E & Hb & _). rewrite Hp in E. by injection E as <-.
Qed.

Lemma sent_keys_bits n : covers (sent_keys a i) (ga_sequence a) n = (accepts a i 0 && (n =? 0)) || (accepts a i 1 && (n =? 1)).
Proof. unfold sent_keys, port_key. rewrite covers_app. f_equal; destruct (accepts a i _); cbn [covers existsb fst snd andb]; rewrite ?bool_decide_true, ?bit_shift, ?orb_false_r by lia; done. Qed.

(** What the records have come to when a word leaves. *)
Definition marked_records (stores : global_records) : Prop :=
  forall id, stores !! id = (fun r => fold_left (fun r m => with_done m r) (masks_of (back_keys i) id) r) <$> ga_records a !! id.

Lemma marked_current stores : marked_records stores ->
  match stores !! ga_sequence a with
              | Some r => ga_records a !! ga_sequence a <> None /\ gw_batch r = from_option gw_batch (gw_batch r) (ga_records a !! ga_sequence a) /\
                  gw_sent r = from_option gw_sent 0 (ga_records a !! ga_sequence a) /\ gw_released r = from_option gw_released false (ga_records a !! ga_sequence a) /\
                  forall n, bit (gw_done r) n = bit (from_option gw_done 0 (ga_records a !! ga_sequence a)) n || covers (back_keys i) (ga_sequence a) n
              | None => ga_records a !! ga_sequence a = None /\ forall n, covers (back_keys i) (ga_sequence a) n = false
              end.
Proof.
  intros Hst. pose proof (Hst (ga_sequence a)) as Hid. rewrite Hid. destruct (ga_records a !! ga_sequence a) as [r|] eqn:Eo; cbn [fmap option_fmap option_map from_option].
  - destruct (done_marks (masks_of (back_keys i) (ga_sequence a)) r) as (M1 & M2 & M3 & M4 & M5). split_and!; try done. intros n. by rewrite M5, <- covers_masks.
  - split; [done|]. intros n. apply not_true_iff_false. intros Hc. destruct (back_keys_ok _ _ Hc) as (_ & x & Hx & _). congruence.
Qed.

Definition port_sent (rs rs' : global_records) (p : Z) : Prop :=
  if accepts a i p then exists b w, gi_Batch i = Some b /\ rs' = <[ga_sequence a := with_word p w (default (mkGlobalRecord b (no_word, no_word) 0 0 false) (rs !! ga_sequence a))]> rs
  else rs' = rs.

Lemma sent_records stores rs0 mid : marked_records stores -> port_sent stores rs0 0 -> port_sent rs0 mid 1 ->
  forall id, match (match ga_records a !! id with
               | Some r => Some (gw_batch r, gw_sent r, gw_done r, gw_released r)
               | None => if (id =? ga_sequence a) && (delivered_after a i <>? 0) then (fun p => (p, 0, 0, false)) <$> gi_Batch i else None
               end) with
    | None => mid !! id = None
    | Some (p, s, d, l) => exists r, mid !! id = Some r /\ gw_batch r = p /\ (forall n, bit (gw_sent r) n = bit s n || covers (sent_keys a i) id n) /\
        (forall n, bit (gw_done r) n = bit d n || covers (back_keys i) id n) /\ gw_released r = l
    end.
Proof.
  intros Hst H0 H1. unfold port_sent in H0, H1.
  intros id. pose proof (Hst id) as Hid. destruct (Z.eqb_spec id (ga_sequence a)) as [->|Hne]; cbn [andb].
    - pose proof (marked_current stores Hst) as Hs.
      clear Hid. pose proof sent_keys_bits as Hsk. assert (ga_records a !! ga_sequence a = None -> delivered_after a i = port_bit a i 0 .| port_bit a i 1) as Hd.
      { intros En. unfold delivered_after. rewrite Hseq in En. by rewrite (ti_current _ _ _ _ _ _ Hinv En). }
      unfold port_bit in Hd. destruct (accepts a i 0), (accepts a i 1); [destruct H0 as (b0 & w0 & Eb & ->)|destruct H0 as (b0 & w0 & Eb & ->)|subst rs0|subst rs0]; [destruct H1 as (b1 & w1 & _ & ->)|subst mid|destruct H1 as (b1 & w1 & Eb & ->)|subst mid];
        rewrite ?lookup_insert_eq; (destruct (stores !! ga_sequence a) as [r|]; [destruct Hs as (Hn & S1 & S2 & S3 & S4); destruct (ga_records a !! ga_sequence a) as [o|]; [|done]; cbn [from_option] in S1, S2, S3, S4|destruct Hs as [En Hb]; rewrite En, (Hd En), ?Eb; match goal with |- context [if ?b then _ else _] => let v := eval vm_compute in b in change b with v end; cbn [fmap option_fmap option_map]]);
        repeat match goal with |- context [default ?x (Some ?y)] => change (default x (Some y)) with y | |- context [default ?x None] => change (default x None) with x end;
        try (eexists; split; [done|]; cbn [with_word gw_batch gw_sent gw_done gw_released]; split_and!; try done; intros n; rewrite ?bits_or, ?bit_shift, ?Z.bits_0, ?Hsk, ?S2, ?Hb by lia; cbn [andb orb]; try done;
             destruct (n =? 0), (n =? 1); rewrite ?orb_true_r, ?orb_false_r; done).
      done.
    - assert (mid !! id = stores !! id) as ->.
      { destruct (accepts a i 0), (accepts a i 1); [destruct H0 as (b0 & w0 & _ & ->)|destruct H0 as (b0 & w0 & _ & ->)|subst rs0|subst rs0]; [destruct H1 as (b1 & w1 & _ & ->)|subst mid|destruct H1 as (b1 & w1 & _ & ->)|by subst mid]; by rewrite ?lookup_insert_ne by done. }
      assert (forall n, covers (sent_keys a i) id n = false) as Hsk by (intros n; apply not_true_iff_false; by intros (-> & _)%sent_keys_covers).
      rewrite Hid. destruct (ga_records a !! id) as [r|]; [|done]. cbn [fmap option_fmap option_map]. destruct (done_marks (masks_of (back_keys i) id) r) as (M1 & M2 & M3 & M4 & M5).
      eexists. split; [done|]. split_and!; try done; intros n; [by rewrite M3, Hsk, orb_false_r|by rewrite M5, <- covers_masks].
Qed.

(** The edge never finds a record missing, and is a step of the table. *)
Lemma edge_step : ga_sequence a <= MaxUint64 -> exists marked mid stores events progress,
  foldM (reply_done (cg_Replies (gi_Cache i))) (ga_records a) [0; 1] = Ok marked /\
  foldM store_done (marked, []) (cg_Stores (gi_Cache i)) = Ok (stores, events) /\
  word_sent a i (word_sent a i (stores, ga_delivered a, []) 0) 1 = (mid, delivered_after a i, progress) /\
  Forall2 (store_event (ga_records a)) (cg_Stores (gi_Cache i)) events /\
  let acc := batch_accepted (gi_Batch i) (delivered_after a i) in
  exists released, (if acc then update_global with_released (ga_sequence a) mid else Ok mid) = Ok released /\
    table_step (ga_records a) released accepted (ga_held a) (ga_delivered a) (delivered_after a i) (gi_Batch i) acc (sent_keys a i) (back_keys i).
Proof.
  intros Hmax. destruct (marks_ok with_done (GoPanic "nil global record") _ _ back_present) as (stores & Em & Hst).
  unfold back_keys in Em. rewrite foldM_app in Em. destruct (foldM mark_done (ga_records a) (reply_keys (cg_Replies (gi_Cache i)))) as [marked|] eqn:Er; [|done]. cbn [result_bind] in Em.
  destruct (stores_marks _ [] _ _ Em) as (events & Es & Hev).
  assert (Forall (fun k => is_Some (ga_records a !! k.1)) (reply_keys (cg_Replies (gi_Cache i)))) as Hp by (pose proof back_present as Hb; unfold back_keys in Hb; by apply Forall_app in Hb as [? _]).
  destruct (marks_ok with_done (GoPanic "nil global record") _ _ Hp) as (marked' & Er' & Hmk). rewrite Er in Er'. injection Er' as <-.
  destruct (word_sent_spec a i 0 stores (ga_delivered a) [] ltac:(by left)) as (rs0 & pr0 & E0 & H0).
  destruct (word_sent_spec a i 1 rs0 (ga_delivered a .| port_bit a i 0) pr0 ltac:(by right)) as (mid & pr1 & E1 & H1).
  exists marked, mid, stores, events, pr1. split; [rewrite replies_marks; cbn [flat_map]; by rewrite app_nil_r|]. split; [done|]. split; [by rewrite E0, E1|]. split.
  { eapply Forall2_impl; [exact Hev|]. intros r x (rec & Hrec & ->). rewrite Hmk in Hrec. destruct (ga_records a !! (store_key r).1) as [old|] eqn:Eo; [|done]. injection Hrec as <-. cbv beta.
    exists old. split; [done|]. match goal with |- context [fold_left _ ?ms old] => destruct (done_marks ms old) as (-> & _) end. done. }
  cbv zeta. set (acc := batch_accepted (gi_Batch i) (delivered_after a i)).
  pose proof (sent_records stores rs0 mid Hst H0 H1) as Hmid.
  rewrite Hseq in Hmid |- *.
  assert (forall b, gi_Batch i = Some b -> acc = true -> forall n, bit (cb_Mask b) n = true -> bit (delivered_after a i) n = true) as Hacc.
  { intros b Eb Ha n Hn. unfold acc, batch_accepted in Ha. rewrite Eb in Ha. apply Z.eqb_eq in Ha. rewrite <- Ha, Z.land_spec in Hn. by apply andb_true_iff in Hn as [? _]. }
  assert (acc = true -> exists b, gi_Batch i = Some b /\ cb_Mask b <> 0) as Hsome.
  { intros Ha. unfold acc, batch_accepted in Ha. destruct (gi_Batch i) as [b|] eqn:Eb; [|done]. exists b. split; [done|]. by apply (ec_batch _ _ _ Hck). }
  assert (exists released, (if acc then update_global with_released (wire_number accepted) mid else Ok mid) = Ok released /\ forall id, released !! id = (if acc && (id =? wire_number accepted) then with_released else (fun r => r)) <$> mid !! id) as (released & Erel & Hrel).
  { destruct acc eqn:Ha; cbn [andb]; [|exists mid; split; [done|]; intros id; by destruct (mid !! id)]. destruct (Hsome eq_refl) as (b & Eb & Hm). destruct (nonzero_bit _ Hm) as [n Hn]. pose proof (Hacc b Eb eq_refl n Hn) as Hd.
    specialize (Hmid (wire_number accepted)). rewrite Z.eqb_refl in Hmid. assert (delivered_after a i <>? 0 = true) as Hnz by (apply negb_true_iff, Z.eqb_neq; intros E; rewrite E, Z.bits_0 in Hd; done). rewrite Hnz, Eb in Hmid. cbn in Hmid.
    assert (is_Some (mid !! wire_number accepted)) as [r Hr] by (destruct (ga_records a !! wire_number accepted); destruct Hmid as (x & Hx & _); by eexists).
    unfold update_global. rewrite Hr. eexists. split; [done|]. intros id. destruct (Z.eqb_spec id (wire_number accepted)) as [->|Hne]; [by rewrite lookup_insert_eq, Hr|]. rewrite lookup_insert_ne by done. by destruct (mid !! id). }
  exists released. split; [done|]. split.
  - apply (ec_held _ _ _ Hck).
  - intros id. cbv zeta. specialize (Hmid id). rewrite Hrel. cbn [global_wire wi_payload wi_sent wi_done wi_released].
    destruct (match ga_records a !! id with Some r => _ | None => _ end) as [[[[p s] d] l]|]; [|by rewrite Hmid]. destruct Hmid as (r & Hr & H2 & H3 & H4 & H5). rewrite Hr. cbn [fmap option_fmap option_map].
    destruct (acc && (id =? wire_number accepted)); (eexists; split; [done|]); cbn [with_released gw_batch gw_sent gw_done gw_released]; rewrite ?orb_true_r, ?orb_false_r; done.
  - intros n Hn. by rewrite delivered_after_bit, Hn.
  - apply delivered_after_mask.
  - intros Eb. unfold delivered_after, port_bit, accepts, global_offer. rewrite Eb, bool_decide_false, !andb_false_r, !Z.lor_0_r by (intros H; by apply H). apply held_none.
    destruct (decide (ga_held a = None)) as [|Hh]; [done|]. rewrite <- (ec_held _ _ _ Hck Hh). done.
  - apply back_keys_ok.
  - intros id n Hc. split; [apply sent_keys_once|]. destruct (sent_keys_covers _ _ Hc) as (-> & Hn & Ha). destruct (accepts_offer _ _ _ Hn Ha) as (b & Eb & _ & Hd). rewrite Hseq in *.
    assert (bit (delivered_after a i) n = true) as Hda by (rewrite delivered_after_bit, Hseq, Hc; apply orb_true_r).
    destruct (ga_records a !! wire_number accepted) as [r|] eqn:Er'; [|done]. split; [|unfold wire_open; by rewrite Z.eqb_refl].
    pose proof (ri_open _ _ _ _ _ _ _ (ti_record _ _ _ _ _ _ Hinv _ _ Er') n) as Ho. unfold wire_open in Ho. rewrite Z.eqb_refl, Hd in Ho. apply not_true_iff_false. intros E. by specialize (Ho E).
  - intros Ha. destruct (Hsome Ha) as (b & Eb & Hm). exists b. split_and!; try done. by apply (Hacc b).
Qed.
End Edge.


(** ** Runs *)

(** What a run shows: the accepted batches, the words sent and back by number and port, the
    delivered responses and the store events. *)
Record globalTrace := mkGlobalTrace { gt_accepted : list CoalescedBatch; gt_sent : list (Z * Z); gt_back : list (Z * Z); gt_responses : list BatchResponse; gt_stores : list SIMDResponse }.

Definition no_global_trace : globalTrace := mkGlobalTrace [] [] [] [] [].
Definition global_trace_app (t u : globalTrace) : globalTrace :=
  mkGlobalTrace (gt_accepted t ++ gt_accepted u) (gt_sent t ++ gt_sent u) (gt_back t ++ gt_back u) (gt_responses t ++ gt_responses u) (gt_stores t ++ gt_stores u).

Definition global_edge_trace (a : GlobalAdapter) (i : GlobalAdapterInput) (e : GlobalAdapterEdge) : globalTrace :=
  mkGlobalTrace (if ge_Accepted e then option_list (gi_Batch i) else []) (sent_keys a i) (back_keys i) (if ge_ResponseDelivered e then option_list (ge_Response e) else []) (ge_Stores e).

Fixpoint global_run (a : GlobalAdapter) (cycle : Z) (inputs : list GlobalAdapterInput) : option (GlobalAdapter * globalTrace) :=
  match inputs with
  | [] => Some (a, no_global_trace)
  | i :: inputs =>
      match Global_Step a cycle i with
      | (a', Ok e) => match global_run a' (cycle + 1) inputs with Some (a'', t) => Some (a'', global_trace_app (global_edge_trace a i e) t) | None => None end
      | (_, Err _) => None
      end
  end.

(** A delivered response is of one batch, and its words are back; a store event is of one
    word that is back. *)
Definition response_routed (at_ : Z -> option CoalescedBatch) (back : list (Z * Z)) (r : BatchResponse) : Prop :=
  exists id b, at_ id = Some b /\ br_ID r = cb_ID b /\ forall n, bit (br_Mask r) n = true -> covers back id n = true.
Definition store_routed (at_ : Z -> option CoalescedBatch) (back : list (Z * Z)) (x : SIMDResponse) : Prop :=
  exists id b p, at_ id = Some b /\ cb_Write b = true /\ ss_Identity x = cb_Identity b /\ ss_Tag x = cb_Tag b /\ ss_Mask x = batchLaneMask b p /\ covers back id p = true.

Record global_inv (a : GlobalAdapter) (t : globalTrace) : Prop := {
  gv_table : table_inv (ga_records a) (gt_accepted t) (ga_held a) (ga_delivered a) (gt_sent t) (gt_back t);
  gv_sequence : ga_sequence a = wire_number (gt_accepted t) /\ ga_sequence a <= MaxUint64;
  gv_responses : Forall (response_routed (wire_at (gt_accepted t) (ga_held a)) (gt_back t)) (gt_responses t);
  gv_stores : Forall (store_routed (wire_at (gt_accepted t) (ga_held a)) (gt_back t)) (gt_stores t)
}.

Lemma response_routed_mono (f g : Z -> option CoalescedBatch) back back' r : (forall id b, f id = Some b -> g id = Some b) -> response_routed f back r -> response_routed g (back ++ back') r.
Proof. intros Hfg (id & b & H1 & H2 & H3). exists id, b. split; [by apply Hfg|]. split; [done|]. intros n Hn. by rewrite covers_app, (H3 n Hn). Qed.

Lemma store_routed_mono (f g : Z -> option CoalescedBatch) back back' x : (forall id b, f id = Some b -> g id = Some b) -> store_routed f back x -> store_routed g (back ++ back') x.
Proof. intros Hfg (id & b & p & H1 & H2 & H3 & H4 & H5 & H6). exists id, b, p. split_and!; try done; [by apply Hfg|]. by rewrite covers_app, H6. Qed.

Lemma reply_back i p r : p = 0 \/ p = 1 -> wy_Delivered (reply_at (cg_Replies (gi_Cache i)) p) = true -> wy_Response (reply_at (cg_Replies (gi_Cache i)) p) = Some r ->
  covers (back_keys i) (id_Transaction (wr_Identity r)) p = true.
Proof.
  intros Hp Hd Hr. unfold back_keys, reply_keys. rewrite !covers_app. assert (covers (reply_key (cg_Replies (gi_Cache i)) p) (id_Transaction (wr_Identity r)) p = true) as H.
  { unfold reply_key, done_reply. rewrite Hd, Hr. cbn [fmap option_fmap option_map covers existsb fst snd]. rewrite bool_decide_true, bit_shift, Z.eqb_refl by (done || lia). done. }
  destruct Hp as [->| ->]; rewrite H; by rewrite ?orb_true_r.
Qed.

Lemma global_step a t cycle i response : global_inv a t -> Global_check a cycle i = Ok response ->
  exists a' e, Global_Step a cycle i = (a', Ok e) /\ global_inv a' (global_trace_app t (global_edge_trace a i e)).
Proof.
  intros [Htab [Hseq Hmax] Hresp Hstores] Hcheck. pose proof (Global_check_ok _ _ _ _ Hcheck) as Hck.
  destruct (edge_step a i _ _ _ response Htab Hseq Hck Hmax) as (marked & mid & stores & events & progress & E1 & E2 & E3 & Hev & released & E4 & Hstep). cbv zeta in E4, Hstep.
  set (acc := batch_accepted (gi_Batch i) (delivered_after a i)) in *.
  unfold Global_Step. rewrite Hcheck, E1. cbn [result_bind]. rewrite E2. cbn [result_bind]. rewrite E3. fold acc. rewrite E4. cbn [result_bind]. do 2 eexists. split; [done|].
  set (e := mkGlobalEdge _ _ _ _ _). set (a' := mkGlobalAdapter _ _ _ _ _ _ _).
  assert (gt_accepted t ++ (if ge_Accepted e then option_list (gi_Batch i) else []) = accepted_next (gt_accepted t) (gi_Batch i) acc) as Eacc by done.
  assert (forall id b, wire_at (gt_accepted t) (ga_held a) id = Some b -> wire_at (accepted_next (gt_accepted t) (gi_Batch i) acc) (held_next (gi_Batch i) acc) id = Some b) as Hmono.
  { intros id b Hb. pose proof (wire_at_range _ _ _ _ Hb) as Hr. destruct (Z.eq_dec id (wire_number (gt_accepted t))) as [->|Hne].
    - unfold wire_at in Hb. rewrite Z.eqb_refl in Hb. eapply at_current; [exact Hstep|]. rewrite <- Hb. apply (ec_held _ _ _ Hck). by rewrite Hb.
    - rewrite <- Hb. eapply at_next; [exact Hstep|done|]. erewrite number_next by exact Hstep. destruct acc; lia. }
  split; unfold global_trace_app, global_edge_trace; cbn [gt_accepted gt_sent gt_back gt_responses gt_stores]; rewrite ?Eacc.
  - eapply table_next; [exact Htab|exact Hstep|]. intros id. unfold a'. cbn [ga_records]. change wire_finished with word_finished. destruct (released !! id) as [r|] eqn:Er.
    + destruct (word_finished r) eqn:Ef; [apply map_lookup_filter_None_2; right; intros x Hx; rewrite Er in Hx; injection Hx as <-; cbn; by rewrite Ef|by apply map_lookup_filter_Some_2].
    + apply map_lookup_filter_None_2. by left.
  - unfold a'. cbn [ga_sequence]. erewrite number_next by exact Hstep. destruct acc eqn:Ha; [|by rewrite Hseq in *].
    destruct (ts_acc _ _ _ _ _ _ _ _ _ _ Hstep eq_refl) as (b & Eb & _). destruct (ec_batch _ _ _ Hck b Eb) as [_ Hne]. assert (1 <= wire_number (gt_accepted t)) by (unfold wire_number, zlen; lia).
    unfold MaxUint64 in *. rewrite u64_id by (unfold is_u64; lia). lia.
  - apply Forall_app. split; [eapply Forall_impl; [exact Hresp|]; intros r; apply response_routed_mono; exact Hmono|].
    unfold e. cbn [ge_ResponseDelivered ge_Response]. destruct response as [r|]; [|done]. rewrite bool_decide_true by done. destruct (gi_ResponseReady i) eqn:Eready; [|done]. cbn [andb option_list]. apply Forall_singleton.
    destruct (proj2 (Preview_packs _ _ _ (ec_preview _ _ _ Hck)) r eq_refl) as (id & rec & Hrec & Hid & Hbits). exists id, (gw_batch rec). split; [apply Hmono; exact (ri_at _ _ _ _ _ _ _ (ti_record _ _ _ _ _ _ Htab _ _ Hrec))|]. split; [done|].
    intros n Hn. destruct (Hbits n Hn) as (Hp & x & Hx & <-). rewrite covers_app. rewrite reply_back; [apply orb_true_r|done| |done].
    rewrite (ec_delivered _ _ _ Hck n Hp), Eready. unfold wanted, packed. rewrite Hx, bool_decide_true, enabled_port, Hn by done. done.
  - apply Forall_app. split; [eapply Forall_impl; [exact Hstores|]; intros x; apply store_routed_mono; exact Hmono|].
    unfold e. cbn [ge_Stores]. destruct (ec_stores _ _ _ Hck) as [Hack _]. rewrite Forall_forall in Hack. apply Forall_forall. intros x Hx.
    destruct (list_elem_of_lookup_1 _ _ Hx) as [k Hk]. destruct (Forall2_lookup_r _ _ _ _ _ Hev Hk) as (r & Hr & rec & Hrec & ->). pose proof (list_elem_of_lookup_2 _ _ _ Hr) as Hin.
    destruct (Hack r Hin) as (Hp & rec' & Hrec' & Hw & _). rewrite Hrec in Hrec'. injection Hrec' as <-. exists (store_key r).1, (gw_batch rec), (st_Port r).
    split; [apply Hmono; exact (ri_at _ _ _ _ _ _ _ (ti_record _ _ _ _ _ _ Htab _ _ Hrec))|]. split_and!; try done. unfold back_keys. rewrite !covers_app. apply orb_true_iff. right. apply orb_true_iff. right.
    apply covers_true. exists (1 << st_Port r). split; [apply list_elem_of_fmap; by exists r|]. rewrite bit_shift by lia. apply Z.eqb_refl.
Qed.

Lemma global_trace_nil t : global_trace_app t no_global_trace = t.
Proof. destruct t. unfold global_trace_app. cbn. by rewrite !app_nil_r. Qed.

Lemma global_run_inv a t cycle inputs a' u : global_inv a t -> global_run a cycle inputs = Some (a', u) -> global_inv a' (global_trace_app t u).
Proof.
  revert a t cycle u. induction inputs as [|i inputs IH]; intros a t cycle u Hinv Hrun; cbn [global_run] in Hrun.
  - injection Hrun as <- <-. by rewrite global_trace_nil.
  - destruct (Global_Step a cycle i) as [a1 [e|]] eqn:Es; [|done]. destruct (global_run a1 (cycle + 1) inputs) as [[a2 v]|] eqn:Er; [|done]. injection Hrun as <- <-.
    destruct (Global_check a cycle i) as [response|] eqn:Ec; [|unfold Global_Step in Es; by rewrite Ec in Es].
    destruct (global_step a t cycle i response Hinv Ec) as (a1' & e' & Es' & Hinv'). rewrite Es in Es'. injection Es' as <- <-. specialize (IH _ _ _ _ Hinv' Er). unfold global_trace_app in *. cbn in *. by rewrite <- !app_assoc in IH.
Qed.

Lemma fresh_global_inv : global_inv fresh_global no_global_trace.
Proof. split; [apply table_fresh|by unfold MaxUint64|constructor|constructor]. Qed.

(** C12: The global adapter sends and takes back every word exactly once. In any run of a
    fresh adapter, whatever the cache accepts and answers and whenever the coalescer is
    ready: an edge that passes the checks never looks up a missing record; the batches are
    numbered in the order of their acceptance, and no word of a batch leaves twice, comes
    back twice, comes back without having left, or leaves outside the mask of its batch; a
    batch whose record is gone has had each of its words leave once and come back once,
    and a drained adapter has dropped them all; a delivered response carries the
    identifier of one batch and only words of it that are back; and a store event carries
    the identity and the lanes of one word of a write batch that is back. *)
Theorem global_adapter_exactly_once start inputs a t : global_run fresh_global start inputs = Some (a, t) ->
  (forall cycle i response, Global_check a cycle i = Ok response -> exists a' e, Global_Step a cycle i = (a', Ok e)) /\
  (forall id n, (cover (gt_back t) id n <= cover (gt_sent t) id n <= 1)%nat) /\
  (forall k b n, gt_accepted t !! k = Some b -> cover (gt_sent t) (Z.of_nat k + 1) n = 1%nat -> bit (cb_Mask b) n = true) /\
  (forall k b n, gt_accepted t !! k = Some b -> ga_records a !! (Z.of_nat k + 1) = None \/ Global_Drained a = true ->
    cover (gt_sent t) (Z.of_nat k + 1) n = Nat.b2n (bit (cb_Mask b) n) /\ cover (gt_back t) (Z.of_nat k + 1) n = Nat.b2n (bit (cb_Mask b) n)) /\
  Forall (response_routed (wire_at (gt_accepted t) (ga_held a)) (gt_back t)) (gt_responses t) /\
  Forall (store_routed (wire_at (gt_accepted t) (ga_held a)) (gt_back t)) (gt_stores t).
Proof.
  intros Hrun. pose proof (global_run_inv _ _ _ _ _ _ fresh_global_inv Hrun) as Hinv. assert (global_trace_app no_global_trace t = t) as Et by (by destruct t). rewrite Et in Hinv.
  destruct (table_account _ _ _ _ _ _ (gv_table _ _ Hinv)) as [W1 W2 W3]. split_and!; try done.
  - intros cycle i response Hc. destruct (global_step _ _ _ _ _ Hinv Hc) as (a' & e & E & _). by exists a', e.
  - intros k b n Hk Hr. apply (W3 _ _ _ Hk). destruct Hr as [Hr|Hd]; [done|]. unfold Global_Drained in Hd. apply andb_true_iff in Hd as [_ Hd%bool_decide_eq_true]. by rewrite Hd, lookup_empty.
  - apply (gv_responses _ _ Hinv).
  - apply (gv_stores _ _ Hinv).
Qed.

(** A read batch of two words, which leave and come back on different edges. *)
Definition read_word (address : Z) : WordRequest := mkWordRequest no_identity 0 address false false false 255 zero_word.
Definition read_batch : CoalescedBatch := mkBatch (mkBatchID 2 1) (mkIdentity 1 1 0 0 0 0 7 0) 3 3 15 false (read_word 0, read_word 64).
Definition wire_identity : Identity := mkIdentity 1 1 0 0 0 0 1 0.
Definition word_reply (delivered : bool) : WordReply := mkWordReply (Some (mkWordResponse wire_identity 1 zero_word 255 None)) delivered.
Definition cache_edge (accepted : list bool) (replies : list WordReply) : CacheEdge := mkCacheEdge accepted replies [] false None [].
Definition read_inputs : list GlobalAdapterInput :=
  [mkGlobalInput (Some read_batch) (cache_edge [true; false] [no_word_reply; no_word_reply]) true;
   mkGlobalInput (Some read_batch) (cache_edge [false; true] [word_reply true; no_word_reply]) true;
   mkGlobalInput None (cache_edge [false; false] [no_word_reply; word_reply true]) true].

Lemma global_adapter_exactly_once_witness : exists a t, global_run fresh_global 0 read_inputs = Some (a, t) /\ Global_Drained a = true /\
  gt_accepted t = [read_batch] /\ length (gt_responses t) = 2%nat /\ forall n, cover (gt_back t) 1 n = Nat.b2n (bit 3 n).
Proof.
  destruct (global_run fresh_global 0 read_inputs) as [[a t]|] eqn:E; [|exfalso; vm_compute in E; discriminate E]. exists a, t. split; [done|].
  destruct (global_adapter_exactly_once _ _ _ _ E) as (_ & _ & _ & Hdone & _ & _).
  assert (Global_Drained a = true) as Hd by (clear -E; vm_compute in E; injection E as <- _; reflexivity). assert (gt_accepted t = [read_batch]) as Ha by (clear -E; vm_compute in E; injection E as _ <-; reflexivity).
  split; [done|]. split; [done|]. split; [clear -E; vm_compute in E; injection E as _ <-; reflexivity|]. intros n.
  apply (Hdone 0%nat read_batch n); [by rewrite Ha|by right].
Defined.
