(* ===== verification/LocalAdapter.v ===== *)
(** * The local adapter (src/timing/memsys/local_adapter.go)

    Between the split and the four ports of the local memory: each lane of a SIMD request
    waits in the queue of its port under one wire transaction, and the lanes' responses and
    store receipts come back as parts of the request.  A record keeps each request until
    every lane is done; a nil record, which Go would dereference, is the error [GoPanic]. *)

From S2P Require Import Prelude Memory TimingIR Memsys Coalescer GlobalAdapter.

#[local] Open Scope Z_scope.
#[local] Open Scope go_scope.

Record localWordRecord := mkLocalRecord {
  lw_request : SIMDRequest;
  lw_words : quad WordRequest;
  lw_sent : Z;
  lw_done : Z;
  lw_released : bool
}.

Record LocalAdapter := mkLocalAdapter {
  la_queues : quad (cacheQueue WordRequest);
  la_records : gmap Z localWordRecord;
  la_sequence : Z;
  la_cycle : Z;
  la_last : Z;
  la_started : bool;
  la_used : bool;
  la_held : SIMDOffer;
  la_delivered : Z;
  la_heldReads : quad (option WordResponse)
}.

Record LocalAdapterInput := mkLocalInput { lin_Request : SIMDOffer; lin_Memory : CacheEdge; lin_ResponseReady : bool }.

Record LocalAdapterEdge := mkLocalEdge {
  le_Accepted : bool;
  le_Response : SIMDReply;
  le_ResponseDelivered : bool;
  le_Progress : list SIMDResponse;
  le_Stores : list SIMDResponse
}.

Definition fresh_adapter (q : BufferSpec) : LocalAdapter := mkLocalAdapter (qfill (empty_queue q)) ∅ 1 0 0 false false None 0 (qfill None).

Definition NewLocalAdapter `{TimingDocument} : result LocalAdapter :=
  let? q := Buffer "b-local-adapter-request" in
  let? rsp := Buffer "b-local-adapter-response" in
  let? arb := Arbiter "b-local-adapter-response" in
  check negb ((bs_Size q <>? 2) || (bs_Size rsp <>? 0) || (ar_Inputs arb <>? 4) || negb (ar_Policy arb == "P") || ar_Sticky arb) else Errorf "unsupported local adapter shape" in
  Ok (fresh_adapter q).

Definition lanes : list Z := [0; 1; 2; 3].

Definition local_offer (a : LocalAdapter) (p : Z) : WordOffer := queue_head (qget (la_queues a) p).
Definition Local_Offers (a : LocalAdapter) : list WordOffer := map (local_offer a) lanes.

(** A response is of a word that was sent and is not done. *)
Definition local_owns (rec : localWordRecord) (p : Z) (r : WordResponse) : bool :=
  negb (sq_Write (lw_request rec)) && enabled (lw_sent rec) p && negb (enabled (lw_done rec) p) && bool_decide (wr_Identity r = wq_Identity (qget (lw_words rec) p)) &&
  (wr_Tag r =? wq_Tag (qget (lw_words rec) p)) && (wr_ByteEnable r =? 15).

(** The lanes packed so far, with the transaction they were selected for. *)
Definition pack_lane (a : LocalAdapter) (reads : list WordReply) (st : option (Z * SIMDResponse)) (p : Z) : result (option (Z * SIMDResponse)) :=
  match wy_Response (reply_at reads p) with
  | None => Ok st
  | Some r =>
      let id := id_Transaction (wr_Identity r) in
      match la_records a !! id with
      | None => Err (Errorf "foreign or duplicate local response")
      | Some rec =>
          check local_owns rec p r else Errorf "foreign or duplicate local response" in
          let '(selected, x) := default (id, mkSIMDResponse (sq_Identity (lw_request rec)) no_batch (sq_Tag (lw_request rec)) 0 (qfill [0; 0; 0; 0]) (qfill None)) st in
          Ok (Some (selected, if id =? selected
            then mkSIMDResponse (ss_Identity x) (ss_Batch x) (ss_Tag x) (ss_Mask x .| (1 << p)) (qset (ss_Data x) p (take 4 (wr_Data r))) (qset (ss_Errors x) p (wr_Err r)) else x))
      end
  end.

Definition Local_Preview (a : LocalAdapter) (reads : list WordReply) : result SIMDReply :=
  check zlen reads =? 4 else Errorf "local adapter port count" in
  let? st := foldM (pack_lane a reads) None lanes in
  Ok (snd <$> st).

Definition packed_lane (response : SIMDReply) (p : Z) : bool := match response with Some x => enabled (ss_Mask x) p | None => false end.

Definition Local_ReadReady (a : LocalAdapter) (reads : list WordReply) (ready : bool) : result (list bool) :=
  let? r := Local_Preview a reads in
  Ok (map (fun p => ready && packed_lane r p) lanes).

Definition Local_HasResidency (a : LocalAdapter) (kernel cta : Z) : bool :=
  existsb (fun r => belongs kernel cta (sq_Identity (lw_request r))) (map snd (map_to_list (la_records a))) ||
  match la_held a with Some r => belongs kernel cta (sq_Identity r) | None => false end.

Definition Local_Drained (a : LocalAdapter) : bool := bool_decide (la_records a = ∅) && bool_decide (la_held a = None).

(** ** Checks *)

Definition local_lane (r : SIMDRequest) (p : Z) : bool := negb (enabled (sq_Mask r) p && (negb (la_Local (qget (sq_Lanes r) p)) || la_NonCacheable (qget (sq_Lanes r) p))).

Definition request_check (a : LocalAdapter) (request : SIMDOffer) : result unit :=
  check negb (bool_decide (la_held a <> None /\ la_held a <> request)) else Errorf "changed stalled local SIMD request" in
  match request with
  | None => Ok tt
  | Some r =>
      let? _ := validateSIMD r in
      check negb ((la_sequence a =? MaxUint64) || (la_used a && (id_Transaction (sq_Identity r) <=? la_last a))) else Errorf "stale local input transaction" in
      check forallb (local_lane r) lanes else Errorf "nonlocal lane at local adapter" in Ok tt
  end.

Definition lane_stable (held : option WordResponse) (r : WordReply) (want : bool) : result unit :=
  check negb (bool_decide (held <> None /\ held <> wy_Response r)) else Errorf "changed stalled local response" in
  check Bool.eqb (wy_Delivered r) want else Errorf "local response handshake mismatch" in Ok tt.

Definition lane_wanted (response : SIMDReply) (ready : bool) (r : WordReply) (p : Z) : bool := bool_decide (wy_Response r <> None) && packed_lane response p && ready.

Definition local_store_check (a : LocalAdapter) (seen : gmap Z Z) (r : StoreReceipt) : result (gmap Z Z) :=
  let id := id_Transaction (wq_Identity (st_Request r)) in
  match la_records a !! id with
  | None => Err (Errorf "foreign or duplicate local store receipt")
  | Some rec =>
      check (0 <=? st_Port r) && (st_Port r <? 4) && sq_Write (lw_request rec) && bool_decide (qget (lw_words rec) (st_Port r) = st_Request r) && enabled (lw_sent rec) (st_Port r) &&
            negb (enabled (lw_done rec .| default 0 (seen !! id)) (st_Port r)) else Errorf "foreign or duplicate local store receipt" in
      Ok (<[id := default 0 (seen !! id) .| (1 << st_Port r)]> seen)
  end.

Definition Local_check (a : LocalAdapter) (cycle : Z) (i : LocalAdapterInput) : result SIMDReply :=
  check negb (la_started a && ((la_cycle a =? MaxUint64) || (cycle <>? la_cycle a + 1))) else Errorf "noncontiguous local adapter cycle" in
  check (zlen (cg_Accepted (lin_Memory i)) =? 4) && (zlen (cg_Replies (lin_Memory i)) =? 4) else Errorf "local adapter port count" in
  let? _ := request_check a (lin_Request i) in
  check forallb (fun p => negb (accepted_of (lin_Memory i) p && negb (bool_decide (local_offer a p <> None)))) lanes else Errorf "local acceptance without offer" in
  let? response := Local_Preview a (cg_Replies (lin_Memory i)) in
  let? _ := foldM (fun _ p => let r := reply_at (cg_Replies (lin_Memory i)) p in lane_stable (qget (la_heldReads a) p) r (lane_wanted response (lin_ResponseReady i) r p)) tt lanes in
  let? _ := foldM (local_store_check a) ∅ (cg_Stores (lin_Memory i)) in
  Ok response.

(** ** The edge *)

Notation local_records := (gmap Z localWordRecord).

Definition local_done (m : Z) (r : localWordRecord) : localWordRecord := mkLocalRecord (lw_request r) (lw_words r) (lw_sent r) (lw_done r .| m) (lw_released r).
Definition local_sent (m : Z) (r : localWordRecord) : localWordRecord := mkLocalRecord (lw_request r) (lw_words r) (lw_sent r .| m) (lw_done r) (lw_released r).
Definition local_released (r : localWordRecord) : localWordRecord := mkLocalRecord (lw_request r) (lw_words r) (lw_sent r) (lw_done r) true.
Definition local_word_at (p : Z) (w : WordRequest) (r : localWordRecord) : localWordRecord := mkLocalRecord (lw_request r) (qset (lw_words r) p w) (lw_sent r) (lw_done r) (lw_released r).

(** [a.records[id]] is dereferenced. *)
Definition update_local (f : localWordRecord -> localWordRecord) (id : Z) (rs : local_records) : result local_records :=
  match rs !! id with None => Err (GoPanic "nil local record") | Some r => Ok (<[id := f r]> rs) end.

Definition lane_reply (replies : list WordReply) (rs : local_records) (p : Z) : result local_records :=
  match done_reply replies p with Some id => update_local (local_done (1 << p)) id rs | None => Ok rs end.

Definition lane_store (st : local_records * list SIMDResponse) (r : StoreReceipt) : result (local_records * list SIMDResponse) :=
  let id := id_Transaction (wq_Identity (st_Request r)) in
  match st.1 !! id with
  | None => Err (GoPanic "nil local record")
  | Some rec => Ok (<[id := local_done (1 << st_Port r) rec]> st.1,
      st.2 ++ [mkSIMDResponse (sq_Identity (lw_request rec)) no_batch (sq_Tag (lw_request rec)) (1 << st_Port r) (qfill [0; 0; 0; 0]) (qset (qfill None) (st_Port r) (st_Err r))])
  end.

(** The word of a lane, under the request's wire transaction. *)
Definition local_word (sequence : Z) (r : SIMDRequest) (p : Z) : WordRequest :=
  let l := qget (sq_Lanes r) p in
  mkWordRequest (with_transaction sequence (sq_Identity r)) sequence (la_Address l) (sq_Write r) false (sq_Flush r) (la_ByteEnable l) (take 4 (la_Data l) ++ [0; 0; 0; 0]).

(** A lane enters the queue of its port. *)
Definition lane_pushed (a : LocalAdapter) (request : SIMDOffer) (p : Z) : option WordRequest :=
  match request with
  | Some r => if enabled (sq_Mask r) p && negb (enabled (la_delivered a) p) && queue_ready (qget (la_queues a) p) false then Some (local_word (la_sequence a) r p) else None
  | None => None
  end.

Definition lane_queued (a : LocalAdapter) (request : SIMDOffer) (st : local_records * Z * list SIMDResponse) (p : Z) : local_records * Z * list SIMDResponse :=
  let '(rs, delivered, progress) := st in
  match lane_pushed a request p, request with
  | Some w, Some r =>
      let rec := default (mkLocalRecord r (qfill no_word) 0 0 false) (rs !! la_sequence a) in
      (<[la_sequence a := local_word_at p w rec]> rs, delivered .| (1 << p), progress ++ [mkSIMDResponse (sq_Identity r) no_batch (sq_Tag r) (1 << p) (qfill [0; 0; 0; 0]) (qfill None)])
  | _, _ => st
  end.

Definition request_accepted (request : SIMDOffer) (delivered : Z) : bool := match request with Some r => delivered .& sq_Mask r =? sq_Mask r | None => false end.

(** The memory takes the head of a queue. *)
Definition lane_sent (a : LocalAdapter) (memory : CacheEdge) (rs : local_records) (p : Z) : result local_records :=
  if accepted_of memory p then update_local (local_sent (1 << p)) (id_Transaction (wq_Identity (default no_word (local_offer a p)))) rs else Ok rs.

Definition lanes_finished (r : localWordRecord) : bool := lw_released r && (lw_done r =? sq_Mask (lw_request r)).

Definition Local_Step (a : LocalAdapter) (cycle : Z) (i : LocalAdapterInput) : LocalAdapter * result LocalAdapterEdge :=
  match Local_check a cycle i with
  | Err e => (a, Err e)
  | Ok response =>
      let memory := lin_Memory i in
      let request := lin_Request i in
      match (let? rs := foldM (lane_reply (cg_Replies memory)) (la_records a) lanes in
             let? (rs, stores) := foldM lane_store (rs, []) (cg_Stores memory) in
             let '(rs, delivered, progress) := fold4 (lane_queued a request) (rs, la_delivered a, []) in
             let accepted := request_accepted request delivered in
             let? rs := (if accepted then update_local local_released (la_sequence a) rs else Ok rs) in
             let? rs := foldM (lane_sent a memory) rs lanes in
             Ok (rs, stores, delivered, progress, accepted)) with
      | Err e => (a, Err e)
      | Ok (rs, stores, delivered, progress, accepted) =>
          (mkLocalAdapter (qmake (fun p => queue_update (accepted_of memory p) (lane_pushed a request p) (qget (la_queues a) p)))
             (filter (fun x => lanes_finished x.2 = false) rs)
             (if accepted then u64 (la_sequence a + 1) else la_sequence a) cycle
             (match request with Some r => if accepted then id_Transaction (sq_Identity r) else la_last a | None => la_last a end)
             true (la_used a || accepted) (if accepted then None else request) (if accepted then 0 else delivered)
             (qmake (stalled_read (cg_Replies memory))),
           Ok (mkLocalEdge accepted response (bool_decide (response <> None) && lin_ResponseReady i) progress stores))
      end
  end.
