(* ===== verification/LocalAdapterSpec.v ===== *)
(** * Runs of the local adapter

    In any run of a fresh local adapter each lane of an accepted request waits in the queue
    of its port, leaves once and comes back once, under the number of its request; the
    records are never missing where the code looks one up. *)

From S2P Require Import Prelude Memory TimingIR Memsys Coalescer GlobalAdapter LocalAdapter Lanes.

#[local] Open Scope Z_scope.
#[local] Open Scope go_scope.

#[export] Instance local_wire : WireRecord localWordRecord SIMDRequest :=
  {| wi_payload := lw_request; wi_mask := sq_Mask; wi_sent := lw_sent; wi_done := lw_done; wi_released := lw_released |}.

(** ** What an edge sends and takes back *)

Definition word_number (w : WordRequest) : Z := id_Transaction (wq_Identity w).

(** The number of the word that leaves a port. *)
Definition leaves (a : LocalAdapter) (memory : CacheEdge) (p : Z) : option Z := if accepted_of memory p then word_number <$> local_offer a p else None.
Definition local_sent_keys (a : LocalAdapter) (i : LocalAdapterInput) : list (Z * Z) := port_keys (leaves a (lin_Memory i)) lanes.
Definition receipt_key (r : StoreReceipt) : Z * Z := (id_Transaction (wq_Identity (st_Request r)), 1 << st_Port r).
Definition local_back_keys (i : LocalAdapterInput) : list (Z * Z) := port_keys (done_reply (cg_Replies (lin_Memory i))) lanes ++ map receipt_key (cg_Stores (lin_Memory i)).

Lemma lanes_nodup : NoDup lanes. Proof. apply (bool_decide_unpack _). by vm_compute. Qed.
Lemma lanes_pos : Forall (fun p => 0 <= p) lanes. Proof. repeat constructor; lia. Qed.
Lemma lanes_idx p : p ∈ lanes <-> idx4 p. Proof. unfold lanes, idx4. set_solver. Qed.

Lemma enabled_lane m p : p ∈ lanes -> enabled m p = bit m p.
Proof. intros Hp%lanes_idx%idx4_range. apply enabled_bit. lia. Qed.

Lemma bit_lane p n : p ∈ lanes -> bit (1 << p) n = (n =? p).
Proof. intros Hp%lanes_idx%idx4_range. apply bit_shift. lia. Qed.

(** ** Records *)

Lemma local_done_marks ms r : let r' := fold_left (fun r m => local_done m r) ms r in
  lw_request r' = lw_request r /\ lw_sent r' = lw_sent r /\ lw_released r' = lw_released r /\ forall n, bit (lw_done r') n = bit (lw_done r) n || existsb (fun m => bit m n) ms.
Proof.
  revert r. induction ms as [|m ms IH]; intros r; cbn [fold_left existsb]; cbv zeta; [split_and!; try done; intros n; by rewrite orb_false_r|].
  destruct (IH (local_done m r)) as (H1 & H2 & H3 & H4). split_and!; try done. intros n. rewrite H4. cbn [local_done lw_done]. by rewrite bits_or, orb_assoc.
Qed.

Lemma local_sent_marks ms r : let r' := fold_left (fun r m => local_sent m r) ms r in
  lw_request r' = lw_request r /\ lw_done r' = lw_done r /\ lw_released r' = lw_released r /\ forall n, bit (lw_sent r') n = bit (lw_sent r) n || existsb (fun m => bit m n) ms.
Proof.
  revert r. induction ms as [|m ms IH]; intros r; cbn [fold_left existsb]; cbv zeta; [split_and!; try done; intros n; by rewrite orb_false_r|].
  destruct (IH (local_sent m r)) as (H1 & H2 & H3 & H4). split_and!; try done. intros n. rewrite H4. cbn [local_sent lw_sent]. by rewrite bits_or, orb_assoc.
Qed.

Notation nil_record := (GoPanic "nil local record").

(** An optional update per port is a list of marks. *)
Lemma ports_marks mark f (step : local_records -> Z -> result local_records) ps rs :
  (forall rs p, p ∈ ps -> step rs p = match f p with Some id => update_local (mark (1 << p)) id rs | None => Ok rs end) ->
  foldM step rs ps = foldM (mark_one mark nil_record) rs (port_keys f ps).
Proof.
  intros Hstep. revert rs. induction ps as [|p ps IH]; intros rs; [done|]. cbn [foldM port_keys flat_map]. rewrite Hstep by left. specialize (IH ltac:(intros x q Hx; apply Hstep; by right)). fold (port_keys f ps). destruct (f p) as [id|]; cbn [app foldM result_bind]; [|apply IH].
  unfold update_local, mark_one at 1. cbn [fst snd]. destruct (rs !! id); cbn [result_bind]; [apply IH|done].
Qed.

(** The event of a store receipt. *)
Definition receipt_event (rs : local_records) (r : StoreReceipt) (x : SIMDResponse) : Prop :=
  exists rec, rs !! (receipt_key r).1 = Some rec /\ ss_Identity x = sq_Identity (lw_request rec) /\ ss_Tag x = sq_Tag (lw_request rec) /\ ss_Mask x = 1 << st_Port r.

Lemma receipt_event_marked rs r rec m id x : rs !! id = Some rec -> receipt_event (<[id := local_done m rec]> rs) r x -> receipt_event rs r x.
Proof.
  intros Hr (y & Hy & E). destruct (decide (id = (receipt_key r).1)) as [Ei|Hne]; [rewrite <- Ei, lookup_insert_eq in Hy; injection Hy as <-; exists rec; by rewrite <- Ei|]. rewrite lookup_insert_ne in Hy by done. by exists y.
Qed.

Lemma receipts_marks rs ev ss rs' : foldM (mark_one local_done nil_record) rs (map receipt_key ss) = Ok rs' ->
  exists ev', foldM lane_store (rs, ev) ss = Ok (rs', ev ++ ev') /\ Forall2 (receipt_event rs) ss ev'.
Proof.
  revert rs ev. induction ss as [|r ss IH]; intros rs ev H; cbn [map foldM] in H.
  - injection H as <-. exists []. rewrite app_nil_r. by split.
  - unfold mark_one at 1 in H. cbn [foldM]. unfold lane_store at 1. cbn [fst snd] in *. change (receipt_key r).1 with (id_Transaction (wq_Identity (st_Request r))) in H. change (receipt_key r).2 with (1 << st_Port r) in H.
    destruct (rs !! id_Transaction (wq_Identity (st_Request r))) as [rec|] eqn:Er; [|done]. cbn [result_bind] in *. set (x := mkSIMDResponse _ _ _ _ _ _).
    destruct (IH _ (ev ++ [x]) H) as (ev' & E & Hev). exists (x :: ev'). rewrite E, <- app_assoc. split; [done|]. constructor; [by exists rec|]. eapply Forall2_impl; [exact Hev|]. intros y z. by apply receipt_event_marked.
Qed.

(** ** What the checks show *)

(** A response is of a sent lane of a read request. *)
Definition local_answers (a : LocalAdapter) (p : Z) (r : WordResponse) : Prop :=
  exists rec, la_records a !! id_Transaction (wr_Identity r) = Some rec /\ sq_Write (lw_request rec) = false /\ bit (lw_sent rec) p = true /\ bit (lw_done rec) p = false.

(** The response under construction: a request and the lanes it has. *)
Definition lanes_packed (a : LocalAdapter) (reads : list WordReply) (ps : list Z) (st : option (Z * SIMDResponse)) : Prop :=
  match st with
  | None => forall p, p ∈ ps -> wy_Response (reply_at reads p) = None
  | Some (id, x) => exists rec, la_records a !! id = Some rec /\ ss_Identity x = sq_Identity (lw_request rec) /\ ss_Tag x = sq_Tag (lw_request rec) /\ sq_Write (lw_request rec) = false /\
      forall n, bit (ss_Mask x) n = bool_decide (n ∈ ps) && match wy_Response (reply_at reads n) with Some r => id_Transaction (wr_Identity r) =? id | None => false end
  end.

Lemma pack_step a reads ps st p st' : p ∈ lanes -> p ∉ ps -> lanes_packed a reads ps st -> pack_lane a reads st p = Ok st' ->
  lanes_packed a reads (ps ++ [p]) st' /\ forall r, wy_Response (reply_at reads p) = Some r -> local_answers a p r.
Proof.
  intros Hp Hnew Hst H. unfold pack_lane in H. destruct (wy_Response (reply_at reads p)) as [r|] eqn:Er.
  - destruct (la_records a !! id_Transaction (wr_Identity r)) as [rec|] eqn:Erec; [|done]. destruct (local_owns rec p r) eqn:Eo; [|done]. split.
    + set (fresh := mkSIMDResponse _ no_batch _ 0 _ _) in H.
      assert (exists id x, default (id_Transaction (wr_Identity r), fresh) st = (id, x) /\
        exists rec', la_records a !! id = Some rec' /\ ss_Identity x = sq_Identity (lw_request rec') /\ ss_Tag x = sq_Tag (lw_request rec') /\ sq_Write (lw_request rec') = false /\
        forall n, bit (ss_Mask x) n = bool_decide (n ∈ ps) && match wy_Response (reply_at reads n) with Some r => id_Transaction (wr_Identity r) =? id | None => false end) as (id & x & E & rec' & Hrec' & Hid & Htag & Hwrite & Hbits).
      { destruct st as [[id x]|]; cbn.
        - destruct Hst as (rec' & H1 & H2 & H3 & H4 & H5). exists id, x. split; [done|]. by exists rec'.
        - do 2 eexists. split; [done|]. exists rec. split_and!; try done; [unfold local_owns in Eo; rewrite !andb_true_iff, negb_true_iff in Eo; tauto|]. intros n. cbn [fresh ss_Mask]. rewrite Z.bits_0. case_bool_decide as Hn; [|done]. cbn. by rewrite (Hst n Hn). }
      rewrite E in H. injection H as <-. exists rec'. split; [done|]. assert (forall n, bool_decide (n ∈ ps ++ [p]) = bool_decide (n ∈ ps) || (n =? p)) as Hin.
      { intros n. case_bool_decide as H1; case_bool_decide as H2; cbn; try done; destruct (Z.eqb_spec n p) as [->|]; cbn; try done; set_solver. }
      destruct (Z.eqb_spec (id_Transaction (wr_Identity r)) id) as [Ei|Ei]; (split; [done|]); (split; [done|]); (split; [done|]); intros n; cbn [ss_Mask].
      * rewrite bits_or, bit_lane, Hbits, Hin by done. destruct (Z.eqb_spec n p) as [->|]; [rewrite Er, !orb_true_r; symmetry; by apply Z.eqb_eq|by rewrite !orb_false_r].
      * rewrite Hbits, Hin. destruct (Z.eqb_spec n p) as [->|]; [|by rewrite orb_false_r]. rewrite Er. destruct (Z.eqb_spec (id_Transaction (wr_Identity r)) id); [done|]. by rewrite !andb_false_r.
    + intros x [= <-]. exists rec. unfold local_owns in Eo. rewrite !andb_true_iff, !negb_true_iff, !enabled_lane in Eo by done. by destruct Eo as [[[[[? ?] ?] _] _] _].
  - injection H as <-. split; [|done]. destruct st as [[id x]|]; cbn [lanes_packed] in *.
    + destruct Hst as (rec' & H1 & H2 & H3 & H4 & H5). exists rec'. split_and!; try done. intros n. rewrite H5. destruct (decide (n = p)) as [->|Hne]; [by rewrite Er, !andb_false_r|].
      f_equal. apply bool_decide_ext. set_solver.
    + intros q [Hq|Hq%list_elem_of_singleton]%elem_of_app; [by apply Hst|by subst q].
Qed.

Lemma pack_fold a reads qs ps st st' : (forall q, q ∈ qs -> q ∈ lanes) -> NoDup (ps ++ qs) -> lanes_packed a reads ps st -> foldM (pack_lane a reads) st qs = Ok st' ->
  lanes_packed a reads (ps ++ qs) st' /\ forall p r, p ∈ qs -> wy_Response (reply_at reads p) = Some r -> local_answers a p r.
Proof.
  revert ps st. induction qs as [|q qs IH]; intros ps st Hq Hnd Hst H; cbn [foldM] in H.
  - injection H as <-. rewrite app_nil_r. split; [done|]. intros p r Hp. by apply elem_of_nil in Hp.
  - destruct (pack_lane a reads st q) as [s1|] eqn:E; [|done]. cbn [result_bind] in H. pose proof Hnd as Hnd'. apply NoDup_app in Hnd' as (_ & Hdis & _).
    destruct (pack_step a reads ps st q s1 ltac:(apply Hq; by left) ltac:(intros Hx; apply (Hdis q Hx); by left) Hst E) as [P A].
    destruct (IH (ps ++ [q]) s1 ltac:(intros x Hx; apply Hq; by right) ltac:(by rewrite <- app_assoc) P H) as [P' A']. rewrite <- app_assoc in P'. split; [done|].
    intros p r [->|Hp]%elem_of_cons; [apply A|by apply A'].
Qed.

Lemma Local_Preview_packs a reads response : Local_Preview a reads = Ok response ->
  (forall p r, p ∈ lanes -> wy_Response (reply_at reads p) = Some r -> local_answers a p r) /\
  (forall x, response = Some x -> exists id rec, la_records a !! id = Some rec /\ ss_Identity x = sq_Identity (lw_request rec) /\ ss_Tag x = sq_Tag (lw_request rec) /\ sq_Write (lw_request rec) = false /\
    forall n, bit (ss_Mask x) n = true -> n ∈ lanes /\ exists r, wy_Response (reply_at reads n) = Some r /\ id_Transaction (wr_Identity r) = id).
Proof.
  unfold Local_Preview. destruct (zlen reads =? 4); [|done]. destruct (foldM (pack_lane a reads) None lanes) as [st|] eqn:E; [|done]. intros [= <-].
  destruct (pack_fold a reads lanes [] None st ltac:(done) lanes_nodup ltac:(intros p Hp; by apply elem_of_nil in Hp) E) as [P A]. split; [done|].
  intros x Ex. destruct st as [[id y]|]; [|done]. cbn in Ex. injection Ex as ->. destruct P as (rec & H1 & H2 & H3 & H4 & H5). exists id, rec. split_and!; try done.
  intros n Hn. rewrite H5 in Hn. apply andb_true_iff in Hn as [Hn%bool_decide_eq_true Hm]. split; [done|]. destruct (wy_Response (reply_at reads n)) as [r|]; [|done]. exists r. split; [done|]. by apply Z.eqb_eq.
Qed.

(** A receipt is of a sent lane of a write request. *)
Definition local_acknowledges (a : LocalAdapter) (r : StoreReceipt) : Prop :=
  st_Port r ∈ lanes /\ exists rec, la_records a !! (receipt_key r).1 = Some rec /\ sq_Write (lw_request rec) = true /\ bit (lw_sent rec) (st_Port r) = true /\ bit (lw_done rec) (st_Port r) = false.

Definition seen_lanes (seen : gmap Z Z) (id : Z) : Z := default 0 (seen !! id).

Lemma receipts_checked a ss seen seen' : foldM (local_store_check a) seen ss = Ok seen' ->
  Forall (local_acknowledges a) ss /\ forall id n, (cover (map receipt_key ss) id n + Nat.b2n (bit (seen_lanes seen id) n) <= 1)%nat.
Proof.
  revert seen. induction ss as [|r ss IH]; intros seen H; cbn [foldM map] in *; [split; [done|intros id n; destruct (bit _ n); cbn; lia]|].
  unfold local_store_check at 1 in H. destruct (la_records a !! id_Transaction (wq_Identity (st_Request r))) as [rec|] eqn:Er; [|done].
  destruct (_ && _ && _ && _ && _ && _) eqn:Ec in H; [|done]. cbn [result_bind] in H. rewrite !andb_true_iff, negb_true_iff in Ec. destruct Ec as [[[[[H1 H2] Hw] _] Hs] Hd].
  apply Z.leb_le in H1. apply Z.ltb_lt in H2. rewrite enabled_bit in Hs, Hd by done. rewrite bits_or in Hd. apply orb_false_iff in Hd as [Hd Hseen].
  destruct (IH _ H) as [Hf Hc]. split.
  - constructor; [|done]. split; [apply lanes_idx, idx4_range; lia|]. by exists rec.
  - intros id n. specialize (Hc id n). rewrite cover_cons. cbn [receipt_key fst snd]. rewrite bit_shift by done. destruct (decide (id_Transaction (wq_Identity (st_Request r)) = id)) as [<-|Hne].
    + rewrite bool_decide_true by done. unfold seen_lanes in *. rewrite lookup_insert_eq in Hc. match type of Hc with context [default 0 (Some ?x)] => change (default 0 (Some x)) with x in Hc end.
      rewrite bits_or, bit_shift in Hc by done. destruct (Z.eqb_spec n (st_Port r)) as [En|]; cbn [andb Nat.b2n]; [rewrite orb_true_r in Hc; rewrite En, Hseen in *; cbn in *; lia|]. rewrite orb_false_r in Hc. lia.
    + rewrite bool_decide_false by done. unfold seen_lanes in *. rewrite lookup_insert_ne in Hc by done. cbn. lia.
Qed.

(** The checks of an edge. *)
Record local_checked (a : LocalAdapter) (i : LocalAdapterInput) (response : SIMDReply) : Prop := {
  lc_held : la_held a <> None -> lin_Request i = la_held a;
  lc_request : forall r, lin_Request i = Some r -> sq_Mask r <> 0 /\ (forall n, bit (sq_Mask r) n = true -> n ∈ lanes) /\ la_sequence a <> MaxUint64;
  lc_preview : Local_Preview a (cg_Replies (lin_Memory i)) = Ok response;
  lc_delivered : forall p, p ∈ lanes -> wy_Delivered (reply_at (cg_Replies (lin_Memory i)) p) = lane_wanted response (lin_ResponseReady i) (reply_at (cg_Replies (lin_Memory i)) p) p;
  lc_stores : Forall (local_acknowledges a) (cg_Stores (lin_Memory i)) /\ forall id n, (cover (map receipt_key (cg_Stores (lin_Memory i))) id n <= 1)%nat;
  lc_accepted : forall p, p ∈ lanes -> accepted_of (lin_Memory i) p = true -> local_offer a p <> None
}.

Lemma Local_check_ok a cycle i response : Local_check a cycle i = Ok response -> local_checked a i response.
Proof.
  unfold Local_check. destruct (negb (la_started a && _)); [|done]. destruct (_ && _); [|done].
  destruct (request_check a (lin_Request i)) as [[]|] eqn:Eb; [|done]. cbn [result_bind]. destruct (forallb _ _) eqn:Ea; [|done].
  destruct (Local_Preview a (cg_Replies (lin_Memory i))) as [resp|] eqn:Ep; [|done]. cbn [result_bind].
  destruct (foldM (fun _ p => lane_stable _ _ _) tt lanes) as [[]|] eqn:E0; [|done]. cbn [result_bind].
  destruct (foldM (local_store_check a) ∅ _) as [seen|] eqn:Es; [|done]. intros [= <-].
  unfold request_check in Eb. destruct (negb (bool_decide _)) eqn:Eh in Eb; [|done]. apply negb_true_iff, bool_decide_eq_false in Eh.
  split; try done.
  - intros Hh. destruct (decide (lin_Request i = la_held a)) as [|Hne]; [done|]. destruct Eh. split; [done|]. by intros E.
  - intros r Er. rewrite Er in Eb. unfold validateSIMD in Eb. destruct (negb ((sq_Mask r =? 0) || _)) eqn:Em in Eb; [|done]. apply negb_true_iff, orb_false_iff in Em as [Em Em']. apply negb_false_iff, Z.eqb_eq in Em'.
    destruct (forallb (lane_valid r) _); [|done]. cbn [result_bind] in Eb. destruct (negb _) eqn:Ec in Eb; [|done]. apply negb_true_iff in Ec. rewrite !orb_false_iff in Ec. destruct Ec as [Ec _].
    split; [by apply Z.eqb_neq|]. split; [|by apply Z.eqb_neq]. intros n Hn. apply lanes_idx, idx4_range. pose proof (ldiff_0_bits _ _ Em' n Hn) as Hb.
    destruct (Z_lt_dec n 0); [by rewrite Z.testbit_neg_r in Hb|]. destruct (Z_lt_dec n 4); [lia|]. rewrite Z.bits_above_log2 in Hb by (cbn; lia). done.
  - intros p Hp. pose proof (foldM_unit _ _ E0 p Hp) as Hs. cbv beta zeta in Hs. unfold lane_stable in Hs. destruct (negb _); [|done]. by destruct (Bool.eqb_spec (wy_Delivered (reply_at (cg_Replies (lin_Memory i)) p)) (lane_wanted resp (lin_ResponseReady i) (reply_at (cg_Replies (lin_Memory i)) p) p)).
  - destruct (receipts_checked _ _ _ _ Es) as [H1 H2]. split; [done|]. intros id n. specialize (H2 id n). lia.
  - intros p Hp Hacc. rewrite forallb_forall in Ea. specialize (Ea p ltac:(by apply list_elem_of_In)). rewrite Hacc in Ea. cbn in Ea. rewrite negb_involutive in Ea. by apply bool_decide_eq_true in Ea.
Qed.

(** ** An edge *)

Definition pushes (a : LocalAdapter) (i : LocalAdapterInput) (p : Z) : bool := bool_decide (lane_pushed a (lin_Request i) p <> None).
Definition local_after (a : LocalAdapter) (i : LocalAdapterInput) : Z := fold_left (fun d p => d .| (if pushes a i p then 1 << p else 0)) lanes (la_delivered a).

Lemma pushes_request a i p : p ∈ lanes -> pushes a i p = true -> exists r, lin_Request i = Some r /\ bit (sq_Mask r) p = true /\ bit (la_delivered a) p = false /\
  queue_ready (qget (la_queues a) p) false = true /\ lane_pushed a (lin_Request i) p = Some (local_word (la_sequence a) r p).
Proof.
  intros Hp H%bool_decide_eq_true. unfold lane_pushed in *. destruct (lin_Request i) as [r|]; [|done]. destruct (_ && _ && _) eqn:E in H |- *; [|done].
  apply andb_true_iff in E as [[E1 E2%negb_true_iff]%andb_true_iff E3]. rewrite !enabled_lane in * by done. by exists r.
Qed.

Lemma local_after_bit a i n : bit (local_after a i) n = bit (la_delivered a) n || (bool_decide (n ∈ lanes) && pushes a i n).
Proof.
  unfold local_after. assert (forall ps d, (forall p, p ∈ ps -> p ∈ lanes) -> bit (fold_left (fun d p => d .| (if pushes a i p then 1 << p else 0)) ps d) n = bit d n || (bool_decide (n ∈ ps) && pushes a i n)) as H; [|by apply H].
  induction ps as [|p ps IH]; intros d Hps; cbn [fold_left]; [by rewrite bool_decide_false, orb_false_r by (intros Hn; by apply elem_of_nil in Hn)|].
  rewrite IH by (intros x Hx; apply Hps; by right). rewrite bits_or, <- orb_assoc. f_equal.
  assert (bit (if pushes a i p then 1 << p else 0) n = (n =? p) && pushes a i p) as ->.
  { destruct (pushes a i p); [rewrite bit_lane by (apply Hps; by left)|rewrite Z.bits_0]; by rewrite ?andb_true_r, ?andb_false_r. }
  assert (bool_decide (n ∈ p :: ps) = (n =? p) || bool_decide (n ∈ ps)) as ->.
  { destruct (Z.eqb_spec n p) as [->|Hne]; cbn [orb]; [apply bool_decide_true; by left|apply bool_decide_ext; rewrite elem_of_cons; tauto]. }
  destruct (Z.eqb_spec n p) as [->|]; cbn [orb andb]; [|done]. destruct (pushes a i p), (bool_decide (p ∈ ps)); done.
Qed.

(** What the queued lanes make of the records. *)
Lemma lanes_queued a i ps rs d pr : exists rs' pr',
  fold_left (lane_queued a (lin_Request i)) ps (rs, d, pr) = (rs', fold_left (fun d p => d .| (if pushes a i p then 1 << p else 0)) ps d, pr') /\
  (forall id, id <> la_sequence a -> rs' !! id = rs !! id) /\
  match rs !! la_sequence a with
  | Some r => exists r', rs' !! la_sequence a = Some r' /\ lw_request r' = lw_request r /\ lw_sent r' = lw_sent r /\ lw_done r' = lw_done r /\ lw_released r' = lw_released r
  | None => if existsb (pushes a i) ps then exists r r', lin_Request i = Some r /\ rs' !! la_sequence a = Some r' /\ lw_request r' = r /\ lw_sent r' = 0 /\ lw_done r' = 0 /\ lw_released r' = false
            else rs' !! la_sequence a = None
  end.
Proof.
  revert rs d pr. induction ps as [|p ps IH]; intros rs d pr; cbn [fold_left existsb].
  - exists rs, pr. split; [done|]. split; [done|]. destruct (rs !! la_sequence a) as [r|]; [by exists r|done].
  - unfold lane_queued at 2. unfold pushes at 2 3. destruct (lane_pushed a (lin_Request i) p) as [w|] eqn:Ew.
    + rewrite bool_decide_true by done. destruct (lin_Request i) as [r|] eqn:Er; [|by unfold lane_pushed in Ew]. cbn [orb].
      edestruct IH as (rs' & pr' & E & Hother & Hcur). rewrite E. exists rs', pr'. split; [done|]. split; [intros id Hid; by rewrite Hother, lookup_insert_ne by done|].
      rewrite lookup_insert_eq in Hcur. destruct Hcur as (r' & H1 & H2 & H3 & H4 & H5). destruct (rs !! la_sequence a) as [old|]; cbn [default from_option local_word_at lw_request lw_sent lw_done lw_released] in *; [by exists r'|].
      exists r, r'. split_and!; done.
    + rewrite bool_decide_false by (intros H; by apply H). cbn [orb]. rewrite Z.lor_0_r. destruct (lin_Request i); apply IH.
Qed.

(** The number of a queued word. *)
Definition queue_numbers (a : LocalAdapter) (p : Z) : list Z := map word_number (qu_values (qget (la_queues a) p)).

(** A queue holds, once each, the lanes that have entered it and not left. *)
Record queues_inv (a : LocalAdapter) (accepted : list SIMDRequest) : Prop := {
  qi_once : forall p, p ∈ lanes -> NoDup (queue_numbers a p);
  qi_waits : forall p id, p ∈ lanes -> id ∈ queue_numbers a p <->
    exists rec, la_records a !! id = Some rec /\ bit (wire_open accepted (la_delivered a) (lw_request rec) id) p = true /\ bit (lw_sent rec) p = false;
  qi_word : forall p w, p ∈ lanes -> w ∈ qu_values (qget (la_queues a) p) -> exists r, wire_at accepted (la_held a) (word_number w) = Some r /\ w = local_word (word_number w) r p;
  qi_room : forall p, p ∈ lanes -> queue_ok (qget (la_queues a) p)
}.

Section Edge.
Context (a : LocalAdapter) (i : LocalAdapterInput) (accepted : list SIMDRequest) (sent back : list (Z * Z)) (response : SIMDReply).
Context (Hinv : table_inv (la_records a) accepted (la_held a) (la_delivered a) sent back) (Hseq : la_sequence a = wire_number accepted) (Hq : queues_inv a accepted) (Hck : local_checked a i response).

Lemma reply_lane_back p id : p ∈ lanes -> done_reply (cg_Replies (lin_Memory i)) p = Some id ->
  exists rec, la_records a !! id = Some rec /\ sq_Write (lw_request rec) = false /\ bit (lw_sent rec) p = true /\ bit (lw_done rec) p = false.
Proof.
  intros Hp H. unfold done_reply in H. destruct (wy_Delivered _); [|done]. destruct (wy_Response _) as [r|] eqn:Er; [|done]. injection H as <-.
  exact (proj1 (Local_Preview_packs _ _ _ (lc_preview _ _ _ Hck)) p r Hp Er).
Qed.

Lemma receipt_keys_covers id n : covers (map receipt_key (cg_Stores (lin_Memory i))) id n = true ->
  exists rec, la_records a !! id = Some rec /\ sq_Write (lw_request rec) = true /\ bit (lw_sent rec) n = true /\ bit (lw_done rec) n = false.
Proof.
  intros (m & Hin & Hb)%covers_true. apply list_elem_of_fmap in Hin as (r & E & Hr). destruct (lc_stores _ _ _ Hck) as [Hf _]. rewrite Forall_forall in Hf. destruct (Hf r Hr) as (Hp & rec & H1 & H2 & H3 & H4).
  rewrite <- E in H1. cbn [fst] in H1. injection E as _ Em. subst m. rewrite bit_lane in Hb by done. apply Z.eqb_eq in Hb as ->. by exists rec.
Qed.

Lemma local_back_ok id n : covers (local_back_keys i) id n = true ->
  (cover (local_back_keys i) id n <= 1)%nat /\ exists rec, la_records a !! id = Some rec /\ bit (lw_sent rec) n = true /\ bit (lw_done rec) n = false.
Proof.
  unfold local_back_keys. rewrite covers_app, cover_app, cover_ports by (apply lanes_nodup || apply lanes_pos). destruct (lc_stores _ _ _ Hck) as [_ Hone]. specialize (Hone id n). intros [H|H]%orb_true_iff.
  - apply covers_ports in H as [Hn Hd]; [|apply lanes_nodup|apply lanes_pos]. destruct (reply_lane_back _ _ Hn Hd) as (rec & H1 & H2 & H3 & H4). split; [|by exists rec].
    assert (cover (map receipt_key (cg_Stores (lin_Memory i))) id n = 0%nat) as ->; [|destruct (bool_decide _); cbn; lia].
    apply covers_false, not_true_iff_false. intros Hs. destruct (receipt_keys_covers _ _ Hs) as (rec' & E & Hw & _). rewrite H1 in E. injection E as <-. congruence.
  - destruct (receipt_keys_covers _ _ H) as (rec & H1 & H2 & H3 & H4). split; [|by exists rec]. rewrite bool_decide_false; [cbn; lia|]. intros [Hn Hd].
    destruct (reply_lane_back _ _ Hn Hd) as (rec' & E & Hw & _). rewrite H1 in E. injection E as <-. congruence.
Qed.

Lemma local_back_present : Forall (fun k => is_Some (la_records a !! k.1)) (local_back_keys i).
Proof.
  apply Forall_forall. intros [id m] Hin. cbn. unfold local_back_keys in Hin. apply elem_of_app in Hin as [Hin|Hin].
  - apply port_keys_bit in Hin as (p & Hp & Hd & _). destruct (reply_lane_back _ _ Hp Hd) as (rec & H & _). by exists rec.
  - apply list_elem_of_fmap in Hin as (r & E & Hr). destruct (lc_stores _ _ _ Hck) as [Hf _]. rewrite Forall_forall in Hf. destruct (Hf r Hr) as (_ & rec & H & _). rewrite <- E in H. by exists rec.
Qed.

Lemma leaves_head p id : leaves a (lin_Memory i) p = Some id -> exists w rest, qu_values (qget (la_queues a) p) = w :: rest /\ word_number w = id /\ accepted_of (lin_Memory i) p = true.
Proof.
  unfold leaves, local_offer, queue_head. destruct (accepted_of _ p); [|done]. destruct (qu_values _) as [|w rest]; [done|]. cbn. intros [= <-]. by exists w, rest.
Qed.

Lemma leaves_waits p id : p ∈ lanes -> leaves a (lin_Memory i) p = Some id -> exists rec, la_records a !! id = Some rec /\ bit (wire_open accepted (la_delivered a) (lw_request rec) id) p = true /\ bit (lw_sent rec) p = false.
Proof.
  intros Hp H. destruct (leaves_head _ _ H) as (w & rest & E & <- & _). apply (qi_waits _ _ Hq); [done|]. unfold queue_numbers. rewrite E. by left.
Qed.

Lemma local_held_none : la_held a = None -> la_delivered a = 0.
Proof.
  intros H. apply (ti_current _ _ _ _ _ _ Hinv). destruct (la_records a !! wire_number accepted) as [r|] eqn:E; [|done].
  pose proof (ri_at _ _ _ _ _ _ _ (ti_record _ _ _ _ _ _ Hinv _ _ E)) as Hat. unfold wire_at in Hat. rewrite Z.eqb_refl, H in Hat. done.
Qed.

Lemma local_after_mask r : lin_Request i = Some r -> forall n, bit (local_after a i) n = true -> bit (sq_Mask r) n = true.
Proof.
  intros Hr n. rewrite local_after_bit. intros [H|[Hn%bool_decide_eq_true H]%andb_true_iff]%orb_true_iff.
  - assert (la_held a <> None) as Hh by (intros Eh; rewrite (local_held_none Eh), Z.bits_0 in H; done). pose proof (lc_held _ _ _ Hck Hh) as E. destruct (not_eq_None_Some (la_held a)) as [Hs _]. destruct (Hs Hh) as [b Eh]. rewrite Eh in E.
    rewrite Hr in E. injection E as <-. apply (ti_mask _ _ _ _ _ _ Hinv _ Eh _ H).
  - destruct (pushes_request _ _ _ Hn H) as (x & E & Hb & _). rewrite Hr in E. by injection E as <-.
Qed.

(** A record before the edge, or of the request that starts with it. *)
Definition was (id : Z) : option (SIMDRequest * Z * Z * bool) :=
  match la_records a !! id with
  | Some r => Some (lw_request r, lw_sent r, lw_done r, lw_released r)
  | None => if (id =? wire_number accepted) && (local_after a i <>? 0) then (fun r => (r, 0, 0, false)) <$> lin_Request i else None
  end.

Lemma after_nonzero : la_records a !! wire_number accepted = None -> (local_after a i <>? 0) = existsb (pushes a i) lanes.
Proof.
  intros En. apply eq_bool_prop_intro. rewrite !Is_true_true, negb_true_iff, Z.eqb_neq, existsb_exists. pose proof (ti_current _ _ _ _ _ _ Hinv En) as Hd. split.
  - intros [n Hn]%nonzero_bit. rewrite local_after_bit, Hd, Z.bits_0 in Hn. cbn [orb] in Hn. apply andb_true_iff in Hn as [Hn%bool_decide_eq_true H]. exists n. split; [by apply list_elem_of_In|done].
  - intros (p & Hp%list_elem_of_In & H) E. pose proof (local_after_bit a i p) as Hb. rewrite E, Z.bits_0, bool_decide_true, H, orb_true_r in Hb by done. done.
Qed.

(** The records once the lanes back are marked and the new ones queued. *)
Lemma queued_records (stores mid : local_records) : (forall id, stores !! id = (fun r => fold_left (fun r m => local_done m r) (masks_of (local_back_keys i) id) r) <$> la_records a !! id) ->
  (forall id, id <> la_sequence a -> mid !! id = stores !! id) ->
  match stores !! la_sequence a with
  | Some r => exists r', mid !! la_sequence a = Some r' /\ lw_request r' = lw_request r /\ lw_sent r' = lw_sent r /\ lw_done r' = lw_done r /\ lw_released r' = lw_released r
  | None => if existsb (pushes a i) lanes then exists r r', lin_Request i = Some r /\ mid !! la_sequence a = Some r' /\ lw_request r' = r /\ lw_sent r' = 0 /\ lw_done r' = 0 /\ lw_released r' = false
            else mid !! la_sequence a = None
  end ->
  forall id, match was id with
    | None => mid !! id = None
    | Some (p, s, d, l) => exists r, mid !! id = Some r /\ lw_request r = p /\ lw_sent r = s /\ (forall n, bit (lw_done r) n = bit d n || covers (local_back_keys i) id n) /\ lw_released r = l
    end.
Proof.
  intros Hst Hother Hcur id. unfold was. destruct (Z.eqb_spec id (wire_number accepted)) as [->|Hne].
  - rewrite Hseq, Hst in Hcur. destruct (la_records a !! wire_number accepted) as [r|] eqn:Er; cbn [fmap option_fmap option_map] in Hcur.
    + destruct Hcur as (r' & H1 & H2 & H3 & H4 & H5). destruct (local_done_marks (masks_of (local_back_keys i) (wire_number accepted)) r) as (M1 & M2 & M3 & M4). exists r'. rewrite H2, H3, H4, H5. split_and!; try done. intros n. by rewrite M4, <- covers_masks.
    + rewrite (after_nonzero Er). cbn [andb]. destruct (existsb (pushes a i) lanes); [|done]. destruct Hcur as (r & r' & -> & H1 & H2 & H3 & H4 & H5). exists r'. split_and!; try done. intros n. rewrite H4, Z.bits_0. symmetry.
      apply not_true_iff_false. intros Hc. destruct (local_back_ok _ _ Hc) as (_ & x & Hx & _). congruence.
  - rewrite Hother by (by rewrite Hseq). rewrite Hst. cbn [andb]. destruct (la_records a !! id) as [r|]; [|done]. cbn [fmap option_fmap option_map].
    destruct (local_done_marks (masks_of (local_back_keys i) id) r) as (M1 & M2 & M3 & M4). eexists. split; [done|]. split_and!; try done. intros n. by rewrite M4, <- covers_masks.
Qed.

Lemma acc_request : request_accepted (lin_Request i) (local_after a i) = true -> exists r, lin_Request i = Some r /\ sq_Mask r <> 0 /\ forall n, bit (sq_Mask r) n = true -> bit (local_after a i) n = true.
Proof.
  unfold request_accepted. destruct (lin_Request i) as [r|] eqn:Er; [|done]. intros Ha%Z.eqb_eq. exists r. split; [done|]. split; [by apply (lc_request _ _ _ Hck)|].
  intros n Hn. rewrite <- Ha, Z.land_spec in Hn. by apply andb_true_iff in Hn as [? _].
Qed.

(** The edge never finds a record missing, and is a step of the table. *)
Lemma local_edge_step : exists marked stores events mid progress,
  foldM (lane_reply (cg_Replies (lin_Memory i))) (la_records a) lanes = Ok marked /\
  foldM lane_store (marked, []) (cg_Stores (lin_Memory i)) = Ok (stores, events) /\
  fold4 (lane_queued a (lin_Request i)) (stores, la_delivered a, []) = (mid, local_after a i, progress) /\
  Forall2 (receipt_event (la_records a)) (cg_Stores (lin_Memory i)) events /\
  let acc := request_accepted (lin_Request i) (local_after a i) in
  exists released final, (if acc then update_local local_released (la_sequence a) mid else Ok mid) = Ok released /\
    foldM (lane_sent a (lin_Memory i)) released lanes = Ok final /\
    table_step (la_records a) final accepted (la_held a) (la_delivered a) (local_after a i) (lin_Request i) acc (local_sent_keys a i) (local_back_keys i).
Proof.
  destruct (marks_ok local_done nil_record _ _ local_back_present) as (stores & Em & Hst). pose proof local_back_present as Hp. unfold local_back_keys in Hp. apply Forall_app in Hp as [Hp _].
  unfold local_back_keys in Em. rewrite foldM_app in Em. destruct (marks_ok local_done nil_record _ _ Hp) as (marked & Er & Hmk). rewrite Er in Em. cbn [result_bind] in Em.
  destruct (receipts_marks _ [] _ _ Em) as (events & Es & Hev).
  destruct (lanes_queued a i lanes stores (la_delivered a) []) as (mid & progress & Eq & Hother & Hcur).
  exists marked, stores, events, mid, progress. split; [by rewrite (ports_marks local_done (done_reply (cg_Replies (lin_Memory i))))|]. split; [done|]. split; [exact Eq|]. split.
  { eapply Forall2_impl; [exact Hev|]. intros r x (rec & Hrec & E). rewrite Hmk in Hrec. destruct (la_records a !! (receipt_key r).1) as [old|] eqn:Eo; [|done]. injection Hrec as <-. cbv beta in E.
    exists old. split; [done|]. match type of E with context [fold_left _ ?ms old] => destruct (local_done_marks ms old) as (E1 & _) end. by rewrite E1 in E. }
  cbv zeta. set (acc := request_accepted (lin_Request i) (local_after a i)).
  pose proof (queued_records stores mid Hst Hother Hcur) as Hmid.
  assert (exists released, (if acc then update_local local_released (la_sequence a) mid else Ok mid) = Ok released /\ forall id, released !! id = (if acc && (id =? wire_number accepted) then local_released else (fun r => r)) <$> mid !! id) as (released & Erel & Hrel).
  { assert (acc = true -> is_Some (mid !! wire_number accepted)) as Hpresent.
    { intros Ha. destruct (acc_request Ha) as (r & Er' & Hm & Hall). destruct (nonzero_bit _ Hm) as [n Hn]. specialize (Hall n Hn). specialize (Hmid (wire_number accepted)). unfold was in Hmid. rewrite Z.eqb_refl in Hmid.
      rewrite (proj2 (negb_true_iff _)) in Hmid by (apply Z.eqb_neq; intros E; rewrite E, Z.bits_0 in Hall; done). rewrite Er' in Hmid. cbn in Hmid. destruct (la_records a !! wire_number accepted); destruct Hmid as (x & Hx & _); by eexists. }
    destruct acc; cbn [andb]; [|exists mid; split; [done|]; intros id; by destruct (mid !! id)]. destruct (Hpresent eq_refl) as [r Hr]. rewrite Hseq. unfold update_local. rewrite Hr. eexists. split; [done|].
    intros id. destruct (Z.eqb_spec id (wire_number accepted)) as [->|Hne]; [by rewrite lookup_insert_eq, Hr|]. rewrite lookup_insert_ne by done. by destruct (mid !! id). }
  assert (forall id, is_Some (la_records a !! id) -> is_Some (released !! id)) as Hkeep.
  { intros id [r Hr]. specialize (Hmid id). unfold was in Hmid. rewrite Hr in Hmid. destruct Hmid as (x & Hx & _). rewrite Hrel, Hx. by eexists. }
  assert (Forall (fun k => is_Some (released !! k.1)) (local_sent_keys a i)) as Hsp.
  { apply Forall_forall. intros k (p & Hp' & Hl & _)%port_keys_bit. apply Hkeep. destruct (leaves_waits _ _ Hp' Hl) as (rec & Hrec & _). by exists rec. }
  destruct (marks_ok local_sent nil_record _ _ Hsp) as (final & Ef & Hf). exists released, final. split; [done|]. split.
  { rewrite (ports_marks local_sent (leaves a (lin_Memory i))); [done|]. intros rs p Hp'. unfold lane_sent, leaves. pose proof (lc_accepted _ _ _ Hck p Hp') as Ho. destruct (accepted_of (lin_Memory i) p); [|done]. by destruct (local_offer a p); [|destruct (Ho eq_refl)]. }
  split.
  - apply (lc_held _ _ _ Hck).
  - intros id. cbv zeta. specialize (Hmid id). unfold was in Hmid. rewrite Hf, Hrel. cbn [local_wire wi_payload wi_sent wi_done wi_released].
    destruct (match la_records a !! id with Some r => _ | None => _ end) as [[[[p s] d] l]|]; [|by rewrite Hmid]. destruct Hmid as (r & Hr & H2 & H3 & H4 & H5). rewrite Hr. cbn [fmap option_fmap option_map].
    set (r1 := (if acc && (id =? wire_number accepted) then local_released else fun r => r) r). destruct (local_sent_marks (masks_of (local_sent_keys a i) id) r1) as (M1 & M2 & M3 & M4). eexists. split; [done|]. cbv beta.
    rewrite M1, M2, M3. setoid_rewrite M4. unfold r1. destruct (acc && (id =? wire_number accepted)); cbn [local_released lw_request lw_sent lw_done lw_released]; rewrite ?orb_true_r, ?orb_false_r; split_and!; try done; intros n; by rewrite H3, covers_masks.
  - intros n Hn. by rewrite local_after_bit, Hn.
  - apply local_after_mask.
  - intros Er'. assert (la_held a = None) as Eh by (destruct (decide (la_held a = None)) as [|Hh]; [done|]; rewrite <- (lc_held _ _ _ Hck Hh); done). destruct (Z.eq_dec (local_after a i) 0) as [|Hne]; [done|].
    destruct (nonzero_bit _ Hne) as [n Hn]. rewrite local_after_bit, (local_held_none Eh), Z.bits_0 in Hn. cbn [orb] in Hn. apply andb_true_iff in Hn as [Hn%bool_decide_eq_true H]. destruct (pushes_request _ _ _ Hn H) as (r & E & _). congruence.
  - apply local_back_ok.
  - intros id n Hc. unfold local_sent_keys in *. rewrite cover_ports by (apply lanes_nodup || apply lanes_pos). apply covers_ports in Hc as [Hn Hl]; [|apply lanes_nodup|apply lanes_pos]. split; [destruct (bool_decide _); cbn; lia|].
    destruct (leaves_waits _ _ Hn Hl) as (rec & Hrec & Ho & Hs). rewrite Hrec. split; [done|]. cbn [local_wire wi_payload]. unfold wire_open in *. destruct (id =? wire_number accepted); [|done]. by rewrite local_after_bit, Ho.
  - apply acc_request.
Qed.

(** ** The queues after an edge *)

Definition acc : bool := request_accepted (lin_Request i) (local_after a i).

Context (final : local_records) (Hstep : table_step (la_records a) final accepted (la_held a) (la_delivered a) (local_after a i) (lin_Request i) acc (local_sent_keys a i) (local_back_keys i)).

Definition values (p : Z) : list WordRequest := qu_values (qget (la_queues a) p).
Definition values_next (p : Z) : list WordRequest := (if accepted_of (lin_Memory i) p then tail (values p) else values p) ++ option_list (lane_pushed a (lin_Request i) p).

Lemma leaves_covers p id : p ∈ lanes -> covers (local_sent_keys a i) id p = true <-> leaves a (lin_Memory i) p = Some id.
Proof. intros Hp. unfold local_sent_keys. rewrite covers_ports by (apply lanes_nodup || apply lanes_pos). tauto. Qed.

(** What stays in a queue. *)
Lemma stays p id : p ∈ lanes -> id ∈ map word_number (if accepted_of (lin_Memory i) p then tail (values p) else values p) <-> id ∈ queue_numbers a p /\ leaves a (lin_Memory i) p <> Some id.
Proof.
  intros Hp. pose proof (qi_once _ _ Hq p Hp) as Hnd. pose proof (lc_accepted _ _ _ Hck p Hp) as Hhead. unfold queue_numbers, leaves, local_offer, queue_head in *. unfold values. destruct (accepted_of _ p); [|split; [intros H; by split|tauto]].
  destruct (qu_values _) as [|w rest]; [by destruct (Hhead eq_refl)|]. cbn [head tail map fmap option_fmap option_map] in *. apply NoDup_cons in Hnd as [Hw _]. rewrite elem_of_cons. split.
  - intros H. split; [by right|]. intros [= E]. by rewrite E in Hw.
  - intros [[->|H] Hne]; [done|exact H].
Qed.

Lemma waiting_open p id rec : p ∈ lanes -> la_records a !! id = Some rec -> bit (wire_open accepted (la_delivered a) (lw_request rec) id) p = true -> bit (sq_Mask (lw_request rec)) p = true.
Proof.
  intros Hp Hrec Ho. unfold wire_open in Ho. destruct (Z.eqb_spec id (wire_number accepted)) as [->|]; [|done]. pose proof (ri_at _ _ _ _ _ _ _ (ti_record _ _ _ _ _ _ Hinv _ _ Hrec)) as Hat.
  unfold wire_at in Hat. rewrite Z.eqb_refl in Hat. exact (ti_mask _ _ _ _ _ _ Hinv _ Hat _ Ho).
Qed.

Lemma request_current rec r : la_records a !! wire_number accepted = Some rec -> lin_Request i = Some r -> lw_request rec = r.
Proof.
  intros Hrec Hr. pose proof (ri_at _ _ _ _ _ _ _ (ti_record _ _ _ _ _ _ Hinv _ _ Hrec)) as Hat. unfold wire_at in Hat. rewrite Z.eqb_refl in Hat. rewrite (lc_held _ _ _ Hck) in Hr by (by rewrite Hat). rewrite Hat in Hr. by injection Hr.
Qed.

(** A lane that enters a queue now has not been there. *)
Lemma pushed_fresh p : p ∈ lanes -> bit (la_delivered a) p = false -> (forall rec, la_records a !! wire_number accepted = Some rec -> bit (lw_sent rec) p = false) /\ wire_number accepted ∉ queue_numbers a p.
Proof.
  intros Hp Hd. split.
  - intros rec Hrec. pose proof (ri_open _ _ _ _ _ _ _ (ti_record _ _ _ _ _ _ Hinv _ _ Hrec) p) as Ho. unfold wire_open in Ho. rewrite Z.eqb_refl, Hd in Ho. apply not_true_iff_false. intros E. by specialize (Ho E).
  - rewrite (qi_waits _ _ Hq) by done. intros (rec & Hrec & Ho & _). unfold wire_open in Ho. rewrite Z.eqb_refl, Hd in Ho. done.
Qed.

Lemma open_now p r : lin_Request i = Some r -> bit (local_after a i) p = true -> bit (wire_open (accepted_next accepted (lin_Request i) acc) (delivered_next (local_after a i) acc) r (wire_number accepted)) p = true.
Proof.
  intros Er Ha. erewrite open_next by (exact Hstep || (unfold wire_number, zlen; lia)). rewrite Z.eqb_refl. destruct acc; cbn; [by apply local_after_mask|done].
Qed.

Lemma pushed_in p : p ∈ lanes -> bit (la_delivered a) p = false -> bit (local_after a i) p = true -> wire_number accepted ∈ map word_number (option_list (lane_pushed a (lin_Request i) p)).
Proof.
  intros Hp Hd Ha. rewrite local_after_bit, Hd, bool_decide_true in Ha by done. cbn [orb andb] in Ha. destruct (pushes_request _ _ _ Hp Ha) as (r & _ & _ & _ & _ & ->). cbn [option_list map]. rewrite <- Hseq. by left.
Qed.

Lemma open_after p r : lin_Request i = Some r -> bit (if negb acc then local_after a i else sq_Mask r) p = true -> bit (local_after a i) p = true.
Proof.
  intros Er. destruct acc eqn:Ha; cbn; [|done]. unfold acc in Ha. destruct (acc_request Ha) as (x & Ex & _ & Hall). rewrite Er in Ex. injection Ex as <-. apply Hall.
Qed.

(** A lane of the new records that is open and not sent waits in the queue of its port. *)
Lemma waits_next p id : p ∈ lanes -> id ∈ map word_number (values_next p) <->
  exists rec, final !! id = Some rec /\ bit (wire_open (accepted_next accepted (lin_Request i) acc) (delivered_next (local_after a i) acc) (lw_request rec) id) p = true /\ bit (lw_sent rec) p = false.
Proof.
  intros Hp. unfold values_next. rewrite map_app, elem_of_app, stays by done. pose proof (ts_mid _ _ _ _ _ _ _ _ _ _ Hstep id) as Hm. cbv zeta in Hm. cbn [local_wire wi_payload wi_sent wi_done wi_released] in Hm. split.
  - intros [[Hin Hl]|Hin].
    + apply (qi_waits _ _ Hq) in Hin as (rec & Hrec & Ho & Hs); [|done]. rewrite Hrec in Hm. destruct Hm as (r & Hr & Er & Hsent & _). exists r. split; [done|]. rewrite Er, Hsent, Hs. split.
      * pose proof (wire_at_range _ _ _ _ (ri_at _ _ _ _ _ _ _ (ti_record _ _ _ _ _ _ Hinv _ _ Hrec))) as Hr'. erewrite open_next by (exact Hstep || exact Hr'). destruct ((id =? wire_number accepted) && negb acc) eqn:E; [|by apply (waiting_open p id)].
        apply andb_true_iff in E as [E _]. unfold wire_open in Ho. rewrite E in Ho. by rewrite local_after_bit, Ho.
      * cbn [orb]. apply not_true_iff_false. by rewrite leaves_covers.
    + destruct (lane_pushed a (lin_Request i) p) as [w|] eqn:Ew; [|by apply elem_of_nil in Hin]. assert (pushes a i p = true) as Hpush by (unfold pushes; by rewrite Ew, bool_decide_true).
      destruct (pushes_request _ _ _ Hp Hpush) as (r & Er & Hb & Hd & _ & E). rewrite Ew in E. injection E as ->. cbn in Hin. apply list_elem_of_singleton in Hin. change (id = la_sequence a) in Hin. rewrite Hseq in Hin. subst id.
      destruct (pushed_fresh p Hp Hd) as [Hs Hn]. assert (bit (local_after a i) p = true) as Ha by (rewrite local_after_bit, bool_decide_true, Hpush by done; apply orb_true_r).
      assert (covers (local_sent_keys a i) (wire_number accepted) p = false) as Hc.
      { apply not_true_iff_false. rewrite leaves_covers by done. intros Hl. destruct (leaves_waits _ _ Hp Hl) as (rec & Hrec & Ho & _). unfold wire_open in Ho. rewrite Z.eqb_refl in Ho. congruence. }
      destruct (la_records a !! wire_number accepted) as [rec|] eqn:Erec.
      * destruct Hm as (x & Hx & Ex & Hsent & _). exists x. split; [done|]. rewrite Hsent, Hc, (Hs _ eq_refl), Ex. split; [|done]. rewrite (request_current rec r Erec Er). by apply open_now.
      * rewrite Z.eqb_refl, Er in Hm. rewrite (proj2 (negb_true_iff _)) in Hm by (apply Z.eqb_neq; intros E; rewrite E, Z.bits_0 in Ha; done). cbn [andb fmap option_fmap option_map] in Hm. destruct Hm as (x & Hx & Ex & Hsent & _). exists x. split; [done|].
        rewrite Hsent, Hc, Z.bits_0, Ex. split; [|done]. by apply open_now.
  - intros (rec & Hrec & Ho & Hs). destruct (mid_record _ _ _ _ _ _ _ _ _ _ _ _ Hinv Hstep _ _ Hrec) as (Hrange & _). cbn [local_wire wi_payload] in Ho. erewrite open_next in Ho by (exact Hstep || exact Hrange).
    destruct (la_records a !! id) as [old|] eqn:Eold.
    + destruct Hm as (x & Hx & Ex & Hsent & _). rewrite Hrec in Hx. injection Hx as <-. rewrite Hsent in Hs. apply orb_false_iff in Hs as [Hs Hc]. rewrite Ex in Ho.
      destruct (bit (wire_open accepted (la_delivered a) (lw_request old) id) p) eqn:Eo; [left; split; [apply (qi_waits _ _ Hq); [done|by exists old]|rewrite <- leaves_covers by done; congruence]|].
      right. unfold wire_open in Eo. destruct (Z.eqb_spec id (wire_number accepted)) as [->|]; [|exfalso; cbn [andb] in Ho; cbn [local_wire wi_mask] in Eo, Ho; congruence]. apply pushed_in; [done|done|]. cbn [andb] in Ho.
      assert (la_held a = Some (lw_request old)) as Hh by (pose proof (ri_at _ _ _ _ _ _ _ (ti_record _ _ _ _ _ _ Hinv _ _ Eold)) as Hat; unfold wire_at in Hat; rewrite Z.eqb_refl in Hat; exact Hat).
      apply (open_after p (lw_request old)); [|exact Ho]. by rewrite (lc_held _ _ _ Hck) by (by rewrite Hh).
    + destruct (Z.eqb_spec id (wire_number accepted)) as [->|]; cbn [andb] in Hm; [|congruence]. destruct (negb (local_after a i =? 0)); [|congruence]. assert (exists r, lin_Request i = Some r) as [r Er] by (clear -Hm Hrec; destruct (lin_Request i) as [r|]; [by exists r|]; cbn in Hm; congruence). rewrite Er in Hm. cbn [fmap option_fmap option_map] in Hm.
      destruct Hm as (x & Hx & Ex & _). rewrite Hrec in Hx. injection Hx as <-. rewrite Ex in Ho. cbn [andb] in Ho. right. apply pushed_in; [done| |by apply (open_after p r)]. by rewrite (ti_current _ _ _ _ _ _ Hinv Eold), Z.bits_0.
Qed.

Lemma once_next p : p ∈ lanes -> NoDup (map word_number (values_next p)).
Proof.
  intros Hp. unfold values_next. rewrite map_app. apply NoDup_app. split_and!.
  - pose proof (qi_once _ _ Hq p Hp) as Hnd. unfold queue_numbers, values in *. destruct (accepted_of _ p); [|done]. destruct (qu_values _); [done|]. by apply NoDup_cons in Hnd as [_ ?].
  - intros id Hin Hnew. apply stays in Hin as [Hin _]; [|done]. destruct (lane_pushed a (lin_Request i) p) as [w|] eqn:Ew; [|by apply elem_of_nil in Hnew]. assert (pushes a i p = true) as Hpush by (unfold pushes; by rewrite Ew, bool_decide_true).
    destruct (pushes_request _ _ _ Hp Hpush) as (r & _ & _ & Hd & _ & E). rewrite Ew in E. injection E as ->. apply list_elem_of_singleton in Hnew. change (id = la_sequence a) in Hnew. rewrite Hseq in Hnew. subst id. by destruct (pushed_fresh p Hp Hd).
  - destruct (lane_pushed a (lin_Request i) p); cbn; [apply NoDup_singleton|apply NoDup_nil_2].
Qed.

Lemma room_next p : p ∈ lanes -> queue_ok (queue_update (accepted_of (lin_Memory i) p) (lane_pushed a (lin_Request i) p) (qget (la_queues a) p)).
Proof.
  intros Hp. apply queue_update_ok; [by apply (qi_room _ _ Hq)| |].
  - intros Ha E. apply (lc_accepted _ _ _ Hck p Hp Ha). unfold local_offer, queue_head. by rewrite E.
  - intros Hpush. assert (pushes a i p = true) as Hb by (unfold pushes; by rewrite bool_decide_true). destruct (pushes_request _ _ _ Hp Hb) as (_ & _ & _ & _ & Hr & _). unfold queue_ready in *. rewrite andb_false_r, orb_false_r in Hr. by rewrite Hr.
Qed.

Lemma word_next p w : p ∈ lanes -> w ∈ values_next p -> exists r, wire_at (accepted_next accepted (lin_Request i) acc) (held_next (lin_Request i) acc) (word_number w) = Some r /\ w = local_word (word_number w) r p.
Proof.
  intros Hp Hw. unfold values_next in Hw. apply elem_of_app in Hw as [Hw|Hw].
  - assert (w ∈ values p) as Hold by (destruct (accepted_of _ p); [unfold values in *; destruct (qu_values _); [done|by right]|done]). destruct (qi_word _ _ Hq p w Hp Hold) as (r & Hr & E). exists r. split; [|done].
    eapply wire_at_mono; [exact Hstep|exact Hr].
  - destruct (lane_pushed a (lin_Request i) p) as [x|] eqn:Ew; [|by apply elem_of_nil in Hw]. assert (pushes a i p = true) as Hpush by (unfold pushes; by rewrite Ew, bool_decide_true).
    destruct (pushes_request _ _ _ Hp Hpush) as (r & Er & _ & _ & _ & E). rewrite Ew in E. injection E as ->. apply list_elem_of_singleton in Hw. subst w. exists r. split; [|done].
    change (word_number (local_word (la_sequence a) r p)) with (la_sequence a). rewrite Hseq. by eapply at_current.
Qed.

Lemma queues_next a' : la_queues a' = qmake (fun p => queue_update (accepted_of (lin_Memory i) p) (lane_pushed a (lin_Request i) p) (qget (la_queues a) p)) ->
  (forall id, la_records a' !! id = match final !! id with Some r => if wire_finished r then None else Some r | None => None end) ->
  la_delivered a' = delivered_next (local_after a i) acc -> la_held a' = held_next (lin_Request i) acc -> queues_inv a' (accepted_next accepted (lin_Request i) acc).
Proof.
  intros Hqs Hrs Hds Hhs. assert (forall p, p ∈ lanes -> qget (la_queues a') p = queue_update (accepted_of (lin_Memory i) p) (lane_pushed a (lin_Request i) p) (qget (la_queues a) p)) as Hget.
  { intros p Hp. rewrite Hqs. destruct (proj1 (lanes_idx p) Hp) as [->|[->|[->| ->]]]; reflexivity. }
  assert (forall p, p ∈ lanes -> qu_values (qget (la_queues a') p) = values_next p) as Hvals by (intros p Hp; rewrite Hget by done; unfold values_next, values; by destruct (lane_pushed a (lin_Request i) p)).
  split.
  - intros p Hp. unfold queue_numbers. rewrite Hvals by done. by apply once_next.
  - intros p id Hp. unfold queue_numbers. rewrite Hvals, waits_next, Hds, Hrs by done. split; intros (rec & Hrec & Ho & Hs).
    + exists rec. split; [|done]. rewrite Hrec. destruct (wire_finished rec) eqn:Ef; [|done]. exfalso. unfold wire_finished in Ef. apply andb_true_iff in Ef as [Hrel Hd%Z.eqb_eq]. cbn [local_wire wi_done wi_mask wi_payload] in Hd.
      destruct (mid_record _ _ _ _ _ _ _ _ _ _ _ _ Hinv Hstep _ _ Hrec) as (Hrange & _ & Hr2 & _ & Hds' & _). specialize (Hds' p). cbn [local_wire wi_done wi_sent] in Hds'. rewrite Hd, Hs in Hds'.
      assert (bit (sq_Mask (lw_request rec)) p = true) as Hm; [|by specialize (Hds' Hm)]. unfold wire_open in Ho. rewrite Hr2 in Hrel. apply negb_true_iff in Hrel. by rewrite Hrel in Ho.
    + destruct (final !! id) as [x|]; [|done]. destruct (wire_finished x); [done|]. injection Hrec as ->. by exists rec.
  - intros p w Hp. rewrite Hvals, Hhs by done. by apply word_next.
  - intros p Hp. rewrite Hget by done. by apply room_next.
Qed.
End Edge.

(** ** Runs *)

(** What a run shows: the accepted requests, the words that left with their ports, the lanes
    sent and back by number and port, the delivered responses and the store events. *)
Record localTrace := mkLocalTrace { lt_accepted : list SIMDRequest; lt_out : list (Z * WordRequest); lt_sent : list (Z * Z); lt_back : list (Z * Z); lt_responses : list SIMDResponse; lt_stores : list SIMDResponse }.

Definition no_local_trace : localTrace := mkLocalTrace [] [] [] [] [] [].
Definition local_trace_app (t u : localTrace) : localTrace :=
  mkLocalTrace (lt_accepted t ++ lt_accepted u) (lt_out t ++ lt_out u) (lt_sent t ++ lt_sent u) (lt_back t ++ lt_back u) (lt_responses t ++ lt_responses u) (lt_stores t ++ lt_stores u).

Definition words_out (a : LocalAdapter) (memory : CacheEdge) : list (Z * WordRequest) :=
  flat_map (fun p => if accepted_of memory p then map (fun w => (p, w)) (option_list (local_offer a p)) else []) lanes.

Definition local_edge_trace (a : LocalAdapter) (i : LocalAdapterInput) (e : LocalAdapterEdge) : localTrace :=
  mkLocalTrace (if le_Accepted e then option_list (lin_Request i) else []) (words_out a (lin_Memory i)) (local_sent_keys a i) (local_back_keys i)
    (if le_ResponseDelivered e then option_list (le_Response e) else []) (le_Stores e).

Fixpoint local_adapter_run (a : LocalAdapter) (cycle : Z) (inputs : list LocalAdapterInput) : option (LocalAdapter * localTrace) :=
  match inputs with
  | [] => Some (a, no_local_trace)
  | i :: inputs =>
      match Local_Step a cycle i with
      | (a', Ok e) => match local_adapter_run a' (cycle + 1) inputs with Some (a'', t) => Some (a'', local_trace_app (local_edge_trace a i e) t) | None => None end
      | (_, Err _) => None
      end
  end.

Definition lanes_routed (at_ : Z -> option SIMDRequest) (back : list (Z * Z)) (write : bool) (x : SIMDResponse) : Prop :=
  exists id r, at_ id = Some r /\ sq_Write r = write /\ ss_Identity x = sq_Identity r /\ ss_Tag x = sq_Tag r /\ forall n, bit (ss_Mask x) n = true -> covers back id n = true.

Definition word_routed (at_ : Z -> option SIMDRequest) (x : Z * WordRequest) : Prop := exists r, at_ (word_number x.2) = Some r /\ x.2 = local_word (word_number x.2) r x.1.

Record local_adapter_inv (a : LocalAdapter) (t : localTrace) : Prop := {
  lv_table : table_inv (la_records a) (lt_accepted t) (la_held a) (la_delivered a) (lt_sent t) (lt_back t);
  lv_sequence : la_sequence a = wire_number (lt_accepted t) /\ la_sequence a <= MaxUint64;
  lv_queues : queues_inv a (lt_accepted t);
  lv_out : Forall (word_routed (wire_at (lt_accepted t) (la_held a))) (lt_out t);
  lv_responses : Forall (lanes_routed (wire_at (lt_accepted t) (la_held a)) (lt_back t) false) (lt_responses t);
  lv_stores : Forall (lanes_routed (wire_at (lt_accepted t) (la_held a)) (lt_back t) true) (lt_stores t)
}.

Lemma lanes_routed_mono (f g : Z -> option SIMDRequest) back back' w x : (forall id r, f id = Some r -> g id = Some r) -> lanes_routed f back w x -> lanes_routed g (back ++ back') w x.
Proof. intros Hfg (id & r & H1 & H2 & H3 & H4 & H5). exists id, r. split_and!; try done; [by apply Hfg|]. intros n Hn. by rewrite covers_app, (H5 n Hn). Qed.

Lemma word_routed_mono (f g : Z -> option SIMDRequest) x : (forall id r, f id = Some r -> g id = Some r) -> word_routed f x -> word_routed g x.
Proof. intros Hfg (r & H1 & H2). exists r. split; [by apply Hfg|done]. Qed.

Lemma lane_back i p r : p ∈ lanes -> wy_Delivered (reply_at (cg_Replies (lin_Memory i)) p) = true -> wy_Response (reply_at (cg_Replies (lin_Memory i)) p) = Some r ->
  covers (local_back_keys i) (id_Transaction (wr_Identity r)) p = true.
Proof.
  intros Hp Hd Hr. unfold local_back_keys. rewrite covers_app. apply orb_true_iff. left. apply covers_ports; [apply lanes_nodup|apply lanes_pos|]. split; [done|]. unfold done_reply. by rewrite Hd, Hr.
Qed.

Lemma words_out_queued a memory x : x ∈ words_out a memory -> x.1 ∈ lanes /\ x.2 ∈ qu_values (qget (la_queues a) x.1).
Proof.
  unfold words_out. intros (p & Hp & Hx)%list_elem_of_In%in_flat_map. apply list_elem_of_In in Hp, Hx. destruct (accepted_of memory p); [|by apply elem_of_nil in Hx].
  unfold local_offer, queue_head in Hx. destruct (qu_values (qget (la_queues a) p)) as [|w rest] eqn:E; [by apply elem_of_nil in Hx|]. apply list_elem_of_singleton in Hx as ->. cbn. rewrite E. split; [done|by left].
Qed.

Lemma local_step a t cycle i response : local_adapter_inv a t -> Local_check a cycle i = Ok response ->
  exists a' e, Local_Step a cycle i = (a', Ok e) /\ local_adapter_inv a' (local_trace_app t (local_edge_trace a i e)).
Proof.
  intros [Htab [Hseq Hmax] Hq Hout Hresp Hstores] Hcheck. pose proof (Local_check_ok _ _ _ _ Hcheck) as Hck.
  destruct (local_edge_step a i _ _ _ response Htab Hseq Hq Hck) as (marked & stores & events & mid & progress & E1 & E2 & E3 & Hev & released & final & E4 & E5 & Hstep). cbv zeta in E4, Hstep. fold (acc a i) in E4, Hstep.
  unfold Local_Step. rewrite Hcheck, E1. cbn [result_bind]. rewrite E2. cbn [result_bind]. rewrite E3. fold (acc a i). rewrite E4. cbn [result_bind]. rewrite E5. cbn [result_bind]. do 2 eexists. split; [done|].
  set (e := mkLocalEdge _ _ _ _ _). set (a' := mkLocalAdapter _ _ _ _ _ _ _ _ _ _).
  assert (forall id r, wire_at (lt_accepted t) (la_held a) id = Some r -> wire_at (accepted_next (lt_accepted t) (lin_Request i) (acc a i)) (held_next (lin_Request i) (acc a i)) id = Some r) as Hmono by (intros id r; eapply wire_at_mono; exact Hstep).
  assert (forall id r, la_records a !! id = Some r -> wire_at (lt_accepted t) (la_held a) id = Some (lw_request r)) as Hat by (intros id r Hr; exact (ri_at _ _ _ _ _ _ _ (ti_record _ _ _ _ _ _ Htab _ _ Hr))).
  assert (forall id, la_records a' !! id = match final !! id with Some r => if wire_finished r then None else Some r | None => None end) as Hrec'.
  { intros id. unfold a'. cbn [la_records]. change wire_finished with lanes_finished. destruct (final !! id) as [r|] eqn:Er; [|apply map_lookup_filter_None_2; by left].
    destruct (lanes_finished r) eqn:Ef; [apply map_lookup_filter_None_2; right; intros x Hx; rewrite Er in Hx; injection Hx as <-; cbn; by rewrite Ef|by apply map_lookup_filter_Some_2]. }
  split; unfold local_trace_app, local_edge_trace; cbn [lt_accepted lt_out lt_sent lt_back lt_responses lt_stores];
    change (lt_accepted t ++ (if le_Accepted e then option_list (lin_Request i) else [])) with (accepted_next (lt_accepted t) (lin_Request i) (acc a i)).
  - eapply table_next; [exact Htab|exact Hstep|exact Hrec'].
  - unfold a'. cbn [la_sequence]. erewrite number_next by exact Hstep. destruct (acc a i) eqn:Ha; [|by rewrite Hseq in *].
    destruct (ts_acc _ _ _ _ _ _ _ _ _ _ Hstep eq_refl) as (r & Er & _). destruct (lc_request _ _ _ Hck r Er) as (_ & _ & Hne). assert (1 <= wire_number (lt_accepted t)) by (unfold wire_number, zlen; lia).
    unfold MaxUint64 in *. rewrite u64_id by (unfold is_u64; lia). lia.
  - by eapply (queues_next a i _ _ _ response Htab Hseq Hq Hck final Hstep).
  - apply Forall_app. split; [eapply Forall_impl; [exact Hout|]; intros x; apply word_routed_mono; exact Hmono|]. apply Forall_forall. intros x Hx. destruct (words_out_queued _ _ _ Hx) as [Hp Hw].
    apply (word_routed_mono _ _ _ Hmono). destruct (qi_word _ _ Hq _ _ Hp Hw) as (r & Hr & E). by exists r.
  - apply Forall_app. split; [eapply Forall_impl; [exact Hresp|]; intros r; apply lanes_routed_mono; exact Hmono|].
    unfold e. cbn [le_ResponseDelivered le_Response]. destruct response as [x|]; [|done]. rewrite bool_decide_true by done. destruct (lin_ResponseReady i) eqn:Eready; [|done]. cbn [andb option_list]. apply Forall_singleton.
    destruct (proj2 (Local_Preview_packs _ _ _ (lc_preview _ _ _ Hck)) x eq_refl) as (id & rec & Hrec & Hid & Htag & Hwrite & Hbits). exists id, (lw_request rec). split; [by apply Hmono, Hat|]. split_and!; try done.
    intros n Hn. destruct (Hbits n Hn) as (Hp & r & Hr & <-). rewrite covers_app, lane_back; [apply orb_true_r|done| |done].
      rewrite (lc_delivered _ _ _ Hck n Hp), Eready. unfold lane_wanted, packed_lane. rewrite Hr, bool_decide_true, enabled_lane, Hn by done. done.
  - apply Forall_app. split; [eapply Forall_impl; [exact Hstores|]; intros x; apply lanes_routed_mono; exact Hmono|].
    unfold e. cbn [le_Stores]. destruct (lc_stores _ _ _ Hck) as [Hack _]. rewrite Forall_forall in Hack. apply Forall_forall. intros x Hx.
    destruct (list_elem_of_lookup_1 _ _ Hx) as [k Hk]. destruct (Forall2_lookup_r _ _ _ _ _ Hev Hk) as (r & Hr & rec & Hrec & Ei & Et & Em). pose proof (list_elem_of_lookup_2 _ _ _ Hr) as Hin.
    destruct (Hack r Hin) as (Hp & rec' & Hrec'' & Hw & _). rewrite Hrec in Hrec''. injection Hrec'' as <-. exists (receipt_key r).1, (lw_request rec). split; [by apply Hmono, Hat|]. split_and!; try done.
    intros n Hn. rewrite Em, bit_lane in Hn by done. apply Z.eqb_eq in Hn as ->. unfold local_back_keys. rewrite !covers_app. apply orb_true_iff. right. apply orb_true_iff. right.
    apply covers_true. exists (1 << st_Port r). split; [apply list_elem_of_fmap; by exists r|]. rewrite bit_lane by done. apply Z.eqb_refl.
Qed.

Lemma local_adapter_run_inv a t cycle inputs a' u : local_adapter_inv a t -> local_adapter_run a cycle inputs = Some (a', u) -> local_adapter_inv a' (local_trace_app t u).
Proof.
  revert a t cycle u. induction inputs as [|i inputs IH]; intros a t cycle u Hinv Hrun; cbn [local_adapter_run] in Hrun.
  - injection Hrun as <- <-. destruct t. unfold local_trace_app. cbn. by rewrite !app_nil_r.
  - destruct (Local_Step a cycle i) as [a1 [e|]] eqn:Es; [|done]. destruct (local_adapter_run a1 (cycle + 1) inputs) as [[a2 v]|] eqn:Er; [|done]. injection Hrun as <- <-.
    destruct (Local_check a cycle i) as [response|] eqn:Ec; [|unfold Local_Step in Es; by rewrite Ec in Es].
    destruct (local_step a t cycle i response Hinv Ec) as (a1' & e' & Es' & Hinv'). rewrite Es in Es'. injection Es' as <- <-. specialize (IH _ _ _ _ Hinv' Er).
    unfold local_trace_app in *. cbn [lt_accepted lt_out lt_sent lt_back lt_responses lt_stores] in *. by rewrite <- !app_assoc in IH.
Qed.

Lemma fresh_adapter_inv q : 0 <= bs_Size q -> local_adapter_inv (fresh_adapter q) no_local_trace.
Proof.
  intros Hq. split; [apply table_fresh|by unfold MaxUint64| |constructor..]. split; intros p; unfold queue_numbers; cbn [fresh_adapter la_queues]; rewrite ?qget_qfill; cbn [empty_queue qu_values].
  - intros _. apply NoDup_nil_2.
  - intros id _. split; [intros H; by apply elem_of_nil in H|]. intros (rec & H & _). cbn in H. by rewrite lookup_empty in H.
  - intros w _ H. by apply elem_of_nil in H.
  - intros _. done.
Qed.

(** The local adapter sends and takes back every lane exactly once. In any run of a
    fresh adapter, whatever the memory accepts and answers and whenever the split is
    ready: an edge that passes the checks never looks up a missing record; the requests
    are numbered in the order of their acceptance, and no lane leaves twice, comes back
    twice, comes back without having left, or leaves outside the mask of its request; a
    request whose record is gone has had each of its lanes leave once and come back once,
    and a drained adapter has dropped them all; the queue of a port holds, within its
    capacity and once each, exactly the lanes that were started and have not left; every
    word that leaves is the word of its lane; and a delivered response or a store event
    carries the identity and the tag of one request, and only lanes of it that are back. *)
Theorem local_adapter_exactly_once q start inputs a t : 0 <= bs_Size q -> local_adapter_run (fresh_adapter q) start inputs = Some (a, t) ->
  (forall cycle i response, Local_check a cycle i = Ok response -> exists a' e, Local_Step a cycle i = (a', Ok e)) /\
  (forall id n, (cover (lt_back t) id n <= cover (lt_sent t) id n <= 1)%nat) /\
  (forall k r n, lt_accepted t !! k = Some r -> cover (lt_sent t) (Z.of_nat k + 1) n = 1%nat -> bit (sq_Mask r) n = true) /\
  (forall k r n, lt_accepted t !! k = Some r -> la_records a !! (Z.of_nat k + 1) = None \/ Local_Drained a = true ->
    cover (lt_sent t) (Z.of_nat k + 1) n = Nat.b2n (bit (sq_Mask r) n) /\ cover (lt_back t) (Z.of_nat k + 1) n = Nat.b2n (bit (sq_Mask r) n)) /\
  (forall p, p ∈ lanes -> queue_ok (qget (la_queues a) p) /\ NoDup (queue_numbers a p) /\
    forall id, id ∈ queue_numbers a p <-> exists rec, la_records a !! id = Some rec /\ bit (wire_open (lt_accepted t) (la_delivered a) (lw_request rec) id) p = true /\ bit (lw_sent rec) p = false) /\
  Forall (word_routed (wire_at (lt_accepted t) (la_held a))) (lt_out t) /\
  Forall (lanes_routed (wire_at (lt_accepted t) (la_held a)) (lt_back t) false) (lt_responses t) /\
  Forall (lanes_routed (wire_at (lt_accepted t) (la_held a)) (lt_back t) true) (lt_stores t).
Proof.
  intros Hq Hrun. pose proof (local_adapter_run_inv _ _ _ _ _ _ (fresh_adapter_inv q Hq) Hrun) as Hinv. assert (local_trace_app no_local_trace t = t) as Et by (by destruct t). rewrite Et in Hinv.
  destruct (table_account _ _ _ _ _ _ (lv_table _ _ Hinv)) as [W1 W2 W3]. destruct (lv_queues _ _ Hinv) as [Q1 Q2 _ Q4]. split_and!; try done.
  - intros cycle i response Hc. destruct (local_step _ _ _ _ _ Hinv Hc) as (a' & e & E & _). by exists a', e.
  - intros k r n Hk Hr. apply (W3 _ _ _ Hk). destruct Hr as [Hr|Hd]; [done|]. unfold Local_Drained in Hd. apply andb_true_iff in Hd as [Hd%bool_decide_eq_true _]. by rewrite Hd, lookup_empty.
  - intros p Hp. split_and!; [by apply Q4|by apply Q1|]. intros id. by apply Q2.
  - apply (lv_out _ _ Hinv).
  - apply (lv_responses _ _ Hinv).
  - apply (lv_stores _ _ Hinv).
Qed.

(** A store of two lanes, which leave and are acknowledged on different edges. *)
Definition store_lane (address : Z) : LaneRequest := mkLane address 15 [1; 2; 3; 4] true false.
Definition store_request : SIMDRequest := mkSIMD (mkIdentity 1 1 0 0 0 0 7 0) 5 5 true false false (Quad (store_lane 0) (store_lane 4) (store_lane 8) (store_lane 12)).
Definition lane_receipt (p : Z) : StoreReceipt := mkStoreReceipt p (local_word 1 store_request p) None.
Definition memory_edge (accepted : list bool) (stores : list StoreReceipt) : CacheEdge := mkCacheEdge accepted (replicate 4 no_word_reply) stores false None [].
Definition store_inputs : list LocalAdapterInput :=
  [mkLocalInput (Some store_request) (memory_edge [false; false; false; false] []) true;
   mkLocalInput None (memory_edge [true; false; false; false] []) true;
   mkLocalInput None (memory_edge [false; false; true; false] [lane_receipt 0]) true;
   mkLocalInput None (memory_edge [false; false; false; false] [lane_receipt 2]) true].
Definition adapter_slots : BufferSpec := mkBufferSpec "" 2 1.

Lemma local_adapter_exactly_once_witness : exists a t, local_adapter_run (fresh_adapter adapter_slots) 0 store_inputs = Some (a, t) /\ Local_Drained a = true /\
  lt_accepted t = [store_request] /\ map fst (lt_out t) = [0; 2] /\ length (lt_stores t) = 2%nat /\ forall n, cover (lt_back t) 1 n = Nat.b2n (bit 5 n).
Proof.
  destruct (local_adapter_run (fresh_adapter adapter_slots) 0 store_inputs) as [[a t]|] eqn:E; [|exfalso; vm_compute in E; discriminate E]. exists a, t. split; [done|].
  destruct (local_adapter_exactly_once adapter_slots _ _ _ _ ltac:(done) E) as (_ & _ & _ & Hdone & _).
  assert (Local_Drained a = true) as Hd by (clear -E; vm_compute in E; injection E as <- _; reflexivity). assert (lt_accepted t = [store_request]) as Ha by (clear -E; vm_compute in E; injection E as _ <-; reflexivity).
  split; [done|]. split; [done|]. split; [clear -E; vm_compute in E; injection E as _ <-; reflexivity|]. split; [clear -E; vm_compute in E; injection E as _ <-; reflexivity|]. intros n.
  apply (Hdone 0%nat store_request n); [by rewrite Ha|by right].
Defined.
