(* ===== verification/External.v ===== *)
(** * The asynchronous external backend (src/timing/memsys/external.go)

    Below the caches, in place of the fixed-latency backend: requests are served on the byte
    owner when they are accepted, and an external timing library says when each of them is
    complete.  The library is any [DRAMTiming]; [Step] takes its state as part of the
    backend and returns it. *)

From S2P Require Import Prelude Memory TimingIR Memsys Backend.

#[local] Open Scope Z_scope.
#[local] Open Scope go_scope.

(** What the memory system asks of an external backend. *)
Class ExternalBackend (B : Type) := {
  xb_Outstanding : B -> Z;
  xb_PreviewResponses : B -> Z -> result (list Reply);
  xb_Step : B -> Z -> list Offer -> list bool -> B * result Edge
}.

#[export] Instance backend_external {M} `{MemoryService M} : ExternalBackend (Backend M) := {|
  xb_Outstanding := Outstanding;
  xb_PreviewResponses := PreviewResponses;
  xb_Step := Backend_Step
|}.

(** The timing library: [dr_Tick] returns the numbers completed by the edge. *)
Class DRAMTiming (D : Type) := {
  dr_Submit : D -> Z -> Z -> bool -> D * result unit;
  dr_Tick : D -> D * result (list Z)
}.

Section Async.
Context {M D : Type} `{MemoryService M} `{DRAMTiming D}.

Record AsyncBackend := mkAsync {
  ab_Backend : Backend M;
  ab_driver : D;
  ab_banks : Z;
  ab_returnHeld : list Reply
}.

Definition NewAsync (owner : option M) (config : Config) (clients banks : Z) (driver : option D) : result AsyncBackend :=
  check negb ((banks <? 1) || (banks .& (banks - 1) <>? 0)) else Errorf "DRAM bus banks must be a positive power of two" in
  match driver with
  | None => Err (Errorf "nil DRAM timing driver")
  | Some driver =>
      let? b := Backend_New owner config clients in
      Ok (mkAsync b driver banks (replicate (Z.to_nat clients) no_reply))
  end.

Definition with_queue (q : list entry) (b : Backend M) : Backend M :=
  mkBackend (bk_owner b) (bk_config b) q (bk_held b) (bk_last b) (bk_used b) (bk_nextClient b) (bk_sequence b) (bk_cycle b) (bk_started b) (bk_writeError b).

Definition is_visibility (r : Request) : bool := bool_decide (rq_Operation r = OpVisibility).

(** ** Preview *)

Definition bus_bank (b : AsyncBackend) (r : Request) : Z := (rq_Address r / SectorBytes) mod ab_banks b.

(** The loop over the queue: the replies, how many there are, and the banks seen. *)
Fixpoint async_preview (b : AsyncBackend) (queue : list entry) (replies : list Reply) (count : Z) (seen : list bool) : list Reply :=
  match queue with
  | [] => replies
  | e :: queue =>
      let bank := Z.to_nat (bus_bank b (en_request e)) in
      if negb (is_visibility (en_request e)) && default false (seen !! bank) then async_preview b queue replies count seen
      else
        let seen := if is_visibility (en_request e) then seen else <[bank := true]> seen in
        if en_serviced e && negb (valid_reply (reply_at replies (en_client e))) && (count <? cf_ReturnsPerCycle (bk_config (ab_Backend b)))
        then async_preview b queue (<[Z.to_nat (en_client e) := mkReply (Some (en_response e)) false]> replies) (count + 1) seen
        else async_preview b queue replies count seen
  end.

Definition Async_PreviewResponses (b : AsyncBackend) (cycle : Z) : result (list Reply) :=
  let base := ab_Backend b in
  check negb (bk_started base && ((bk_cycle base =? MaxUint64) || (cycle <>? bk_cycle base + 1))) else Errorf "noncontiguous DRAM cycle" in
  Ok (async_preview b (bk_queue base) (ab_returnHeld b) (zlen (filter (fun r => valid_reply r = true) (ab_returnHeld b))) (replicate (Z.to_nat (ab_banks b)) false)).

(** ** Checks *)

Definition async_offer_check (held : Offer) (last : Z) (used : bool) (o : Offer) : result unit :=
  check negb (bool_decide (held <> None /\ o <> held)) else Errorf "client changed stalled DRAM request" in
  match o with
  | None => Ok tt
  | Some r =>
      check known_operation (rq_Operation r) && aligned_sector r else Errorf "invalid DRAM request" in
      check negb (used && (id_Transaction (rq_Identity r) <=? last)) else Errorf "stale DRAM transaction" in Ok tt
  end.

Fixpoint async_offers_check (held : list Offer) (last : list Z) (used : list bool) (offers : list Offer) : result unit :=
  match held, last, used, offers with
  | h :: held, l :: last, u :: used, o :: offers => let? _ := async_offer_check h l u o in async_offers_check held last used offers
  | _, _, _, _ => Ok tt
  end.

(** The replies of the edge, before any change. *)
Definition async_check (b : AsyncBackend) (cycle : Z) (offers : list Offer) (ready : list bool) : result (list Reply) :=
  let base := ab_Backend b in
  let? preview := Async_PreviewResponses b cycle in
  check (zlen offers =? zlen (bk_held base)) && (zlen ready =? zlen (bk_held base)) else Errorf "wrong DRAM port count" in
  check negb ((cycle =? MaxUint64) || (bk_sequence base >? MaxUint64 - zlen offers)) else Errorf "DRAM counter overflow" in
  let? _ := async_offers_check (bk_held base) (bk_last base) (bk_used base) offers in
  Ok preview.

(** ** Return *)

(** The replies, the numbers retired and how many. *)
Fixpoint async_retire (limit : Z) (preview : list Reply) (ready : list bool) (queue : list entry) (replies : list Reply) (retired : list Z) : list Reply * list Z :=
  match queue with
  | [] => (replies, retired)
  | e :: queue =>
      match rp_Response (reply_at preview (en_client e)) with
      | Some r =>
          if (rs_Sequence r =? rs_Sequence (en_response e)) && (zlen retired <? limit) then
            let rdy := ready_at ready (en_client e) in
            async_retire limit preview ready queue (<[Z.to_nat (en_client e) := mkReply (Some r) rdy]> replies) (if rdy then retired ++ [rs_Sequence (en_response e)] else retired)
          else async_retire limit preview ready queue replies retired
      | None => async_retire limit preview ready queue replies retired
      end
  end.

Definition keep_queue (retired : list Z) (queue : list entry) : list entry := filter (fun e => rs_Sequence (en_response e) ∉ retired) queue.

(** ** Completion *)

Definition completed_at (cycle : Z) (r : Response) : Response :=
  mkResponse (rs_Identity r) (rs_Tag r) (rs_Operation r) (rs_Data r) (rs_ByteEnable r) (rs_AcceptedCycle r) cycle (rs_Sequence r) (rs_Err r).

Definition complete (cycle : Z) (e : entry) : entry := mkEntry (en_client e) (en_request e) (en_due e) (completed_at (cycle + 1) (en_response e)) true.

(** The first entry of a number is completed. *)
Fixpoint complete_one (cycle id : Z) (queue : list entry) : result (list entry) :=
  match queue with
  | [] => Err (Errorf "unknown DRAM completion")
  | e :: queue =>
      if rs_Sequence (en_response e) =? id then
        check negb (en_serviced e || is_visibility (en_request e)) else Errorf "duplicate DRAM completion" in Ok (complete cycle e :: queue)
      else let? queue := complete_one cycle id queue in Ok (e :: queue)
  end.

(** The queue so far, also when a completion is refused. *)
Fixpoint complete_all (cycle : Z) (ids : list Z) (queue : list entry) : list entry * result unit :=
  match ids with
  | [] => (queue, Ok tt)
  | id :: ids => match complete_one cycle id queue with Ok queue => complete_all cycle ids queue | Err e => (queue, Err e) end
  end.

(** ** Acceptance *)

(** The entry of an accepted request, served on the owner. *)
Definition async_entry (client cycle sequence : Z) (r : Request) (answer : list Z * option error) : entry :=
  mkEntry client r 0 (mkResponse (rq_Identity r) (rq_Tag r) (rq_Operation r) (fst answer) (response_mask r) cycle 0 sequence (snd answer)) false.

Record admission := mkAdmission { ad_base : Backend M; ad_driver : D; ad_accepted : list bool; ad_count : Z; ad_next : Z }.

Definition async_accept (b : AsyncBackend) (cycle slots : Z) (offers : list Offer) (st : admission * result unit) (client : Z) : admission * result unit :=
  match snd st, mjoin (offers !! Z.to_nat client) with
  | Ok _, Some r =>
      let a := fst st in
      let base := ad_base a in
      if (ad_count a >=? slots) || (ad_count a >=? cf_AcceptsPerCycle (bk_config base)) then st
      else
        let sequence := u64 (bk_sequence base + 1) in
        let '(driver, submitted) := if is_visibility r then (ad_driver a, Ok tt) else dr_Submit (ad_driver a) sequence (rq_Address r) (bool_decide (rq_Operation r = OpWrite)) in
        match submitted with
        | Err e => (mkAdmission (mkBackend (bk_owner base) (bk_config base) (bk_queue base) (bk_held base) (bk_last base) (bk_used base) (bk_nextClient base) sequence (bk_cycle base) (bk_started base) (bk_writeError base))
                      driver (ad_accepted a) (ad_count a) (ad_next a), Err e)
        | Ok _ =>
            let '(owner, writeError, answer) := serve (bk_owner base) (bk_writeError base) r in
            (mkAdmission
               (mkBackend owner (bk_config base) (bk_queue base ++ [async_entry client cycle sequence r answer]) (bk_held base)
                  (<[Z.to_nat client := id_Transaction (rq_Identity r)]> (bk_last base)) (<[Z.to_nat client := true]> (bk_used base)) (bk_nextClient base) sequence (bk_cycle base) (bk_started base) writeError)
               driver (<[Z.to_nat client := true]> (ad_accepted a)) (ad_count a + 1) ((client + 1) mod zlen offers), Ok tt)
        end
  | _, _ => st
  end.

Definition client_order (b : AsyncBackend) (offers : list Offer) : list Z := map (fun offset => (bk_nextClient (ab_Backend b) + Z.of_nat offset) mod zlen offers) (seq 0 (length offers)).

(** A visibility request is complete when all before it are. *)
Fixpoint complete_visibility (cycle : Z) (olderDone : bool) (queue : list entry) : list entry :=
  match queue with
  | [] => []
  | e :: queue =>
      let e := if is_visibility (en_request e) && negb (en_serviced e) && olderDone then complete cycle e else e in
      e :: complete_visibility cycle (olderDone && en_serviced e) queue
  end.

Definition held_reply (r : Reply) : Reply := if valid_reply r && negb (rp_Delivered r) then r else no_reply.

Definition with_backend (base : Backend M) (driver : D) (b : AsyncBackend) : AsyncBackend := mkAsync base driver (ab_banks b) (ab_returnHeld b).

Definition Async_Step (b : AsyncBackend) (cycle : Z) (offers : list Offer) (ready : list bool) : AsyncBackend * result Edge :=
  match async_check b cycle offers ready with
  | Err e => (b, Err e)
  | Ok preview =>
      let base := ab_Backend b in
      let slots := cf_MaxInflight (bk_config base) - zlen (bk_queue base) in
      let '(replies, retired) := async_retire (cf_ReturnsPerCycle (bk_config base)) preview ready (bk_queue base) (replicate (length offers) no_reply) [] in
      let kept := keep_queue retired (bk_queue base) in
      match dr_Tick (ab_driver b) with
      | (driver, Err e) => (with_backend (with_queue kept base) driver b, Err e)
      | (driver, Ok ids) =>
          match complete_all cycle ids kept with
          | (queue, Err e) => (with_backend (with_queue queue base) driver b, Err e)
          | (queue, Ok _) =>
              match fold_left (async_accept b cycle slots offers) (client_order b offers) (mkAdmission (with_queue queue base) driver (replicate (length offers) false) 0 (bk_nextClient base), Ok tt) with
              | (a, Err e) => (with_backend (ad_base a) (ad_driver a) b, Err e)
              | (a, Ok _) =>
                  let c := ad_base a in
                  (mkAsync (mkBackend (bk_owner c) (bk_config c) (complete_visibility cycle true (bk_queue c)) (still_held offers (ad_accepted a)) (bk_last c) (bk_used c) (ad_next a) (bk_sequence c) cycle true (bk_writeError c))
                     (ad_driver a) (ab_banks b) (map held_reply replies),
                   Ok (mkEdge (ad_accepted a) replies))
              end
          end
      end
  end.

#[export] Instance async_external : ExternalBackend AsyncBackend := {|
  xb_Outstanding := fun b => Outstanding (ab_Backend b);
  xb_PreviewResponses := Async_PreviewResponses;
  xb_Step := Async_Step
|}.
End Async.

Arguments AsyncBackend M D : clear implicits.
