(* ===== verification/ExternalSpec.v ===== *)
(** * Runs of the asynchronous backend

    Whatever the timing library completes and in whatever order, the accepted requests are
    served on the byte owner one after the other in acceptance order, and each of them is
    answered at most once, with its own answer and only after the library has completed it;
    a visibility request waits for all requests before it. *)

From stdpp Require Import sorting.
From S2P Require Import Prelude Memory TimingIR Memsys Backend BackendSpec External.

#[local] Open Scope Z_scope.
#[local] Open Scope go_scope.

Definition seq_of (e : entry) : Z := rs_Sequence (en_response e).

Section Spec.
Context {M D : Type} `{MemoryService M} `{DRAMTiming D}.
Implicit Types (b : AsyncBackend M D) (log : list (Z * Request)) (acks : list Z).

(** ** Entries against the log *)

(** A request is complete: the library has reported it, or, for a visibility request, all
    requests before it. *)
Definition completed_in acks log (k : nat) : Prop :=
  forall c r, log !! k = Some (c, r) ->
    if is_visibility r then forall j c' r', (j < k)%nat -> log !! j = Some (c', r') -> is_visibility r' = true \/ Z.of_nat j + 1 ∈ acks
    else Z.of_nat k + 1 ∈ acks.

(** The response of the request at a place of the log. *)
Definition answer_of (k : nat) (r : Request) (answer : list Z * option error) (x : Response) : Prop :=
  rs_Sequence x = Z.of_nat k + 1 /\ rs_Identity x = rq_Identity r /\ rs_Tag x = rq_Tag r /\ rs_Operation x = rq_Operation r /\
  rs_ByteEnable x = response_mask r /\ rs_Data x = answer.1 /\ rs_Err x = answer.2.

Definition entry_ok log (answers : list (list Z * option error)) acks (e : entry) : Prop :=
  exists k r answer, log !! k = Some (en_client e, r) /\ answers !! k = Some answer /\ en_request e = r /\ answer_of k r answer (en_response e) /\
    (en_serviced e = true -> completed_in acks log k).

Definition returned_ok log (answers : list (list Z * option error)) acks (x : Z * Response) : Prop :=
  exists k r answer, log !! k = Some (x.1, r) /\ answers !! k = Some answer /\ answer_of k r answer x.2 /\ completed_in acks log k.

Lemma completed_mono acks acks' log new k : (k < length log)%nat -> (forall x, x ∈ acks -> x ∈ acks') -> completed_in acks log k -> completed_in acks' (log ++ new) k.
Proof.
  intros Hk Ha Hc c r Hr. rewrite lookup_app_l in Hr by done. specialize (Hc c r Hr). destruct (is_visibility r); [|by apply Ha]. intros j c' r' Hj Hl. rewrite lookup_app_l in Hl by lia. destruct (Hc j c' r' Hj Hl); [by left|right; by apply Ha].
Qed.

Lemma entry_mono log new answers more acks acks' e : (forall x, x ∈ acks -> x ∈ acks') -> entry_ok log answers acks e -> entry_ok (log ++ new) (answers ++ more) acks' e.
Proof.
  intros Ha (k & r & a & H1 & H2 & H3 & H4 & H5). pose proof (lookup_lt_Some _ _ _ H1). exists k, r, a. rewrite lookup_app_l by done. rewrite (lookup_app_l_Some _ _ _ _ H2). split_and!; try done.
  intros Hs. by apply (completed_mono acks); [done|done|apply H5].
Qed.

Lemma returned_mono log new answers more acks acks' x : (forall x, x ∈ acks -> x ∈ acks') -> returned_ok log answers acks x -> returned_ok (log ++ new) (answers ++ more) acks' x.
Proof.
  intros Ha (k & r & a & H1 & H2 & H3 & H4). pose proof (lookup_lt_Some _ _ _ H1). exists k, r, a. rewrite lookup_app_l by done. rewrite (lookup_app_l_Some _ _ _ _ H2). split_and!; try done.
  by apply (completed_mono acks).
Qed.

(** ** Preview *)

(** A previewed reply is a held one or that of a completed entry. *)
Lemma async_preview_spec b queue replies count seen c r : 0 <= c -> Forall (fun e => in_ports (length replies) (en_client e)) queue ->
  rp_Response (reply_at (async_preview b queue replies count seen) c) = Some r ->
  rp_Response (reply_at replies c) = Some r \/ exists e, e ∈ queue /\ en_client e = c /\ en_serviced e = true /\ en_response e = r.
Proof.
  intros Hc. revert replies count seen. induction queue as [|e queue IH]; intros replies count seen Hq Hr; cbn [async_preview] in Hr; [by left|]. apply Forall_cons in Hq as [He Hq].
  destruct (_ && default false _); [destruct (IH _ _ _ Hq Hr) as [|(x & Hx & ?)]; [by left|right; exists x; split; [by right|done]]|].
  destruct (en_serviced e && _ && _) eqn:E.
  - rewrite !andb_true_iff in E. destruct E as [[Hs _] _]. destruct (IH _ _ _ ltac:(by rewrite length_insert) Hr) as [Hx|(x & Hx & ?)]; [|right; exists x; split; [by right|done]].
    rewrite reply_at_insert in Hx by done. destruct (Z.eqb_spec (en_client e) c) as [<-|]; [|by left]. cbn in Hx. injection Hx as <-. right. exists e. split; [by left|done].
  - destruct (IH _ _ _ Hq Hr) as [|(x & Hx & ?)]; [by left|right; exists x; split; [by right|done]].
Qed.

(** ** Return *)

(** Starting from [replies] and [retired], the loop over [queue] gives [replies'] and
    [retired']: a reply is the previewed one of an entry of the queue, and the delivered
    ones are those of the retired numbers. *)
Record retires (preview : list Reply) (ready : list bool) (queue : list entry) (replies : list Reply) (retired : list Z) (replies' : list Reply) (retired' : list Z) : Prop := {
  rt_once : NoDup retired';
  rt_length : length replies' = length replies;
  rt_grows : forall s, s ∈ retired -> s ∈ retired';
  rt_keeps : forall c r d, 0 <= c -> rp_Response (reply_at preview c) = Some r -> d = ready_at ready c -> reply_at replies c = mkReply (Some r) d -> reply_at replies' c = mkReply (Some r) d;
  rt_retired : forall s, s ∈ retired' -> s ∈ retired \/ exists e r, e ∈ queue /\ seq_of e = s /\ rp_Response (reply_at preview (en_client e)) = Some r /\ rs_Sequence r = s /\
    ready_at ready (en_client e) = true /\ reply_at replies' (en_client e) = mkReply (Some r) true;
  rt_reply : forall c r d, 0 <= c -> reply_at replies' c = mkReply (Some r) d -> reply_at replies c = mkReply (Some r) d \/
    (rp_Response (reply_at preview c) = Some r /\ d = ready_at ready c /\ (d = true -> rs_Sequence r ∈ retired') /\ exists e, e ∈ queue /\ en_client e = c /\ seq_of e = rs_Sequence r)
}.

Lemma retires_skip preview ready e queue replies retired replies' retired' : retires preview ready queue replies retired replies' retired' -> retires preview ready (e :: queue) replies retired replies' retired'.
Proof.
  intros [R1 R2 R3 R4 R5 R6]. split; try done.
  - intros s Hs. destruct (R5 s Hs) as [|(x & r & Hx & ?)]; [by left|right; exists x, r; split; [by right|done]].
  - intros c r d Hc E. destruct (R6 c r d Hc E) as [|(? & ? & ? & x & Hx & ?)]; [by left|right; split_and!; try done; exists x; split; [by right|done]].
Qed.

Lemma retires_here preview ready e r queue replies retired replies' retired' : in_ports (length replies) (en_client e) -> rp_Response (reply_at preview (en_client e)) = Some r -> rs_Sequence r = seq_of e ->
  let rdy := ready_at ready (en_client e) in
  retires preview ready queue (<[Z.to_nat (en_client e) := mkReply (Some r) rdy]> replies) (if rdy then retired ++ [seq_of e] else retired) replies' retired' ->
  retires preview ready (e :: queue) replies retired replies' retired'.
Proof.
  intros He Ep Em rdy [R1 R2 R3 R4 R5 R6]. rewrite length_insert in R2. assert (0 <= en_client e) as Hpos by apply He.
  assert (reply_at (<[Z.to_nat (en_client e) := mkReply (Some r) rdy]> replies) (en_client e) = mkReply (Some r) rdy) as Eat by (by rewrite reply_at_insert, Z.eqb_refl by done). split; try done.
  - intros s Hs. apply R3. destruct rdy; [apply elem_of_app; by left|done].
  - intros c y d Hc Hy Hd E. apply R4; try done. rewrite reply_at_insert by done. destruct (Z.eqb_spec (en_client e) c) as [<-|]; [|done]. rewrite Ep in Hy. injection Hy as <-. by rewrite Hd.
  - intros s Hs. destruct (R5 s Hs) as [Hs'|(x & y & Hx & ?)]; [|right; exists x, y; split; [by right|done]]. destruct rdy eqn:Erdy; [|by left].
    apply elem_of_app in Hs' as [Hs'|Hs'%list_elem_of_singleton]; [by left|]. right. exists e, r. subst s. split_and!; try done; [by left|]. by apply R4.
  - intros c y d Hc E. destruct (R6 c y d Hc E) as [E'|(? & ? & ? & x & Hx & ?)]; [|right; split_and!; try done; exists x; split; [by right|done]].
    rewrite reply_at_insert in E' by done. destruct (Z.eqb_spec (en_client e) c) as [<-|]; [|by left]. injection E' as <- <-. right. split_and!; [done|done| |exists e; split_and!; [by left|done|done]].
    intros Erdy. apply R3. rewrite Erdy. apply elem_of_app. right. rewrite Em. by left.
Qed.

Lemma retire_inv limit preview ready queue replies retired replies' retired' :
  Forall (fun e => in_ports (length replies) (en_client e)) queue -> NoDup (map seq_of queue) -> NoDup retired -> (forall s, s ∈ retired -> s ∉ map seq_of queue) ->
  async_retire limit preview ready queue replies retired = (replies', retired') -> retires preview ready queue replies retired replies' retired'.
Proof.
  revert replies retired. induction queue as [|e queue IH]; intros replies retired Hq Hnd Hr Hdis H1; cbn [async_retire] in H1.
  - injection H1 as <- <-. split; try done; intros; by left.
  - apply Forall_cons in Hq as [He Hq]. cbn [map] in Hnd. apply NoDup_cons in Hnd as [Hn Hnd].
    assert (forall s, s ∈ retired -> s ∉ map seq_of queue) as Hdis' by (intros s Hs Hin; apply (Hdis s Hs); by right).
    destruct (rp_Response (reply_at preview (en_client e))) as [r|] eqn:Ep; [|by apply retires_skip, IH]. destruct ((rs_Sequence r =? rs_Sequence (en_response e)) && _) eqn:Em; [|by apply retires_skip, IH].
    apply andb_true_iff in Em as [Em%Z.eqb_eq _]. apply (retires_here _ _ _ r); [done|done|done|]. apply IH; [by rewrite length_insert|done| | |exact H1].
    + destruct (ready_at ready (en_client e)); [|done]. apply NoDup_app. split_and!; [done| |apply NoDup_singleton]. intros s Hs ->%list_elem_of_singleton. apply (Hdis _ Hs). by left.
    + destruct (ready_at ready (en_client e)); [|done]. intros s [Hs| ->%list_elem_of_singleton]%elem_of_app; [by apply Hdis'|done].
Qed.

(** ** Completion *)

Lemma complete_seq cycle e : seq_of (complete cycle e) = seq_of e. Proof. done. Qed.

Lemma complete_one_spec cycle id queue queue' : complete_one cycle id queue = Ok queue' ->
  exists pre e post, queue = pre ++ e :: post /\ queue' = pre ++ complete cycle e :: post /\ seq_of e = id /\ en_serviced e = false /\ is_visibility (en_request e) = false.
Proof.
  revert queue'. induction queue as [|e queue IH]; intros queue' E; cbn [complete_one] in E; [done|]. destruct (Z.eqb_spec (rs_Sequence (en_response e)) id) as [Ei|].
  - destruct (en_serviced e) eqn:Es, (is_visibility (en_request e)) eqn:Ev; try done. injection E as <-. by exists [], e, queue.
  - destruct (complete_one cycle id queue) as [rest|]; [|done]. injection E as <-. destruct (IH rest eq_refl) as (pre & x & post & -> & -> & ?). by exists (e :: pre), x, post.
Qed.

(** What completing leaves: numbers, clients, and the completed entries. *)
Definition kept_by (queue queue' : list entry) : Prop :=
  map seq_of queue' = map seq_of queue /\ map en_client queue' = map en_client queue /\ forall e, e ∈ queue -> en_serviced e = true -> e ∈ queue'.

Lemma kept_by_refl queue : kept_by queue queue. Proof. by split_and!. Qed.
Lemma kept_by_trans q1 q2 q3 : kept_by q1 q2 -> kept_by q2 q3 -> kept_by q1 q3.
Proof. intros (A1 & A2 & A3) (B1 & B2 & B3). split_and!; [congruence|congruence|]. intros e He Hs. apply B3; [by apply A3|done]. Qed.

Lemma complete_entry_ok log answers acks cycle e : entry_ok log answers acks e -> en_serviced e = false -> (forall k, (k < length log)%nat -> seq_of e = Z.of_nat k + 1 -> completed_in acks log k) -> entry_ok log answers acks (complete cycle e).
Proof.
  intros (k & r & a & H1 & H2 & H3 & H4 & H5) Hs Hc. pose proof (lookup_lt_Some _ _ _ H1). exists k, r, a. split_and!; try done. intros _. apply Hc; [done|]. destruct H4 as [E _]. exact E.
Qed.

Lemma complete_all_spec log answers acks cycle ids queue queue' : complete_all cycle ids queue = (queue', Ok tt) -> Forall (entry_ok log answers acks) queue ->
  kept_by queue queue' /\ Forall (entry_ok log answers (acks ++ ids)) queue'.
Proof.
  revert acks queue. induction ids as [|id ids IH]; intros acks queue E Hq; cbn [complete_all] in E.
  - injection E as <-. rewrite app_nil_r. split; [apply kept_by_refl|done].
  - destruct (complete_one cycle id queue) as [q1|] eqn:E1; [|done]. destruct (complete_one_spec _ _ _ _ E1) as (pre & e & post & -> & -> & Ei & Es & Ev).
    assert (Forall (entry_ok log answers (acks ++ [id])) (pre ++ complete cycle e :: post)) as Hq1.
    { assert (forall x, entry_ok log answers acks x -> entry_ok log answers (acks ++ [id]) x) as Hm by (intros x Hx; rewrite <- (app_nil_r log), <- (app_nil_r answers); apply (entry_mono _ _ _ _ acks); [set_solver|done]).
      apply Forall_app in Hq as [H1 H2]. apply Forall_cons in H2 as [H2 H3]. apply Forall_app. split; [by eapply Forall_impl|]. apply Forall_cons. split; [|by eapply Forall_impl].
      apply complete_entry_ok; [by apply Hm|done|]. intros k Hk Hseq. intros c r Hr. destruct H2 as (k' & r' & a' & K1 & _ & K3 & K4 & _). assert (k' = k) as -> by (destruct K4 as [K4 _]; unfold seq_of in Hseq; lia).
      rewrite K1 in Hr. injection Hr as <- <-. rewrite <- K3, Ev. apply elem_of_app. right. rewrite <- Hseq, Ei. by left. }
    destruct (IH (acks ++ [id]) _ E Hq1) as [H1 H2]. rewrite <- app_assoc in H2. split; [|exact H2]. eapply kept_by_trans; [|exact H1]. split_and!; [by rewrite !map_app|by rewrite !map_app|].
    intros x [Hx|[->|Hx]%elem_of_cons]%elem_of_app Hsx; [apply elem_of_app; by left|congruence|apply elem_of_app; right; by right].
Qed.

(** What is not in the queue any more is complete. *)
Definition absent_complete log acks (seqs : list Z) : Prop := forall j c r, log !! j = Some (c, r) -> is_visibility r = false -> Z.of_nat j + 1 ∉ seqs -> Z.of_nat j + 1 ∈ acks.

Lemma serviced_ack log answers acks e j c r : entry_ok log answers acks e -> en_serviced e = true -> seq_of e = Z.of_nat j + 1 -> log !! j = Some (c, r) -> is_visibility r = false -> Z.of_nat j + 1 ∈ acks.
Proof.
  intros (k & r' & a & H1 & _ & _ & [H4 _] & H5) Hs Hseq Hl Hv. assert (k = j) as -> by (unfold seq_of in Hseq; lia). specialize (H5 Hs _ _ H1). rewrite H1 in Hl. injection Hl as _ ->. by rewrite Hv in H5.
Qed.

Lemma visibility_turns log answers acks cycle older pre queue : Forall (entry_ok log answers acks) pre -> Forall (entry_ok log answers acks) queue ->
  StronglySorted Z.lt (map seq_of (pre ++ queue)) -> absent_complete log acks (map seq_of (pre ++ queue)) -> (older = true -> Forall (fun e => en_serviced e = true) pre) ->
  kept_by queue (complete_visibility cycle older queue) /\ Forall (entry_ok log answers acks) (complete_visibility cycle older queue).
Proof.
  revert older pre. induction queue as [|e queue IH]; intros older pre Hpre Hq Hsort Habs Hold; cbn [complete_visibility]; [split; [apply kept_by_refl|done]|].
  apply Forall_cons in Hq as [He Hq]. set (e' := if is_visibility (en_request e) && negb (en_serviced e) && older then complete cycle e else e).
  assert (seq_of e' = seq_of e /\ en_client e' = en_client e) as [Eseq Ecl] by (unfold e'; by destruct (_ && _)).
  assert (en_serviced e = true -> e' = e) as Hsame by (intros Es; unfold e'; by rewrite Es, andb_false_r).
  assert (entry_ok log answers acks e') as He'.
  { unfold e'. destruct (is_visibility (en_request e)) eqn:Ev; [|done]. destruct (en_serviced e) eqn:Es; [done|]. destruct older; [|done]. cbn [negb andb]. apply complete_entry_ok; [done|done|].
    intros k Hk Hseq c r Hr. destruct (is_visibility r) eqn:Er; [|exfalso; destruct He as (k' & r' & a & K1 & _ & K3 & [K4 _] & _); assert (k' = k) as -> by (unfold seq_of in Hseq; lia); rewrite K1 in Hr; injection Hr as _ ->; congruence].
    intros j c' r' Hj Hl. destruct (is_visibility r') eqn:Ev'; [by left|right]. destruct (decide (Z.of_nat j + 1 ∈ map seq_of (pre ++ e :: queue))) as [Hin|Hin]; [|by eapply Habs].
    apply list_elem_of_fmap in Hin as (x & Ex & Hx). apply elem_of_app in Hx as [Hx|Hx].
    - specialize (Hold eq_refl). rewrite Forall_forall in Hold, Hpre. by eapply serviced_ack; [by apply Hpre|by apply Hold|..].
    - exfalso. rewrite map_app in Hsort. apply StronglySorted_app_1_r in Hsort. cbn [map] in Hsort. apply StronglySorted_inv in Hsort as [_ Hlt]. apply elem_of_cons in Hx as [->|Hx]; [lia|].
      rewrite Forall_forall in Hlt. specialize (Hlt (seq_of x) ltac:(apply list_elem_of_fmap; by exists x)). lia. }
  assert (map seq_of ((pre ++ [e']) ++ queue) = map seq_of (pre ++ e :: queue)) as Emap by (rewrite !map_app; cbn [map]; by rewrite Eseq, <- app_assoc).
  destruct (IH (older && en_serviced e') (pre ++ [e'])) as [(K1 & K2 & K3) Kok].
  - apply Forall_app. split; [done|]. by apply Forall_singleton.
  - done.
  - by rewrite Emap.
  - by rewrite Emap.
  - intros [Ho Hs]%andb_true_iff. apply Forall_app. split; [by apply Hold|]. by apply Forall_singleton.
  - split; [|by apply Forall_cons]. split_and!; [cbn [map]; by rewrite Eseq, K1|cbn [map]; by rewrite Ecl, K2|]. intros x [->|Hx]%elem_of_cons Hs; [rewrite <- (Hsame Hs) at 1; by left|right; by apply K3].
Qed.

(** ** Acceptance *)

(** The entries of accepted requests with their answers. *)
Fixpoint admitted (cycle sequence : Z) (picked : list (Z * Request)) (answers : list (list Z * option error)) : list entry :=
  match picked, answers with
  | (c, r) :: picked, answer :: answers => async_entry c cycle (sequence + 1) r answer :: admitted cycle (sequence + 1) picked answers
  | _, _ => []
  end.

Notation served_by := (fun base : Backend M => (bk_owner base, bk_writeError base)).

(** The state of the loop after accepting [picked]. *)
Record admits (slots cycle : Z) (a a' : admission (M := M) (D := D)) (picked : list (Z * Request)) : Prop := {
  am_served : served_by (ad_base a') = (sequential (served_by (ad_base a)) (map snd picked)).1;
  am_queue : bk_queue (ad_base a') = bk_queue (ad_base a) ++ admitted cycle (bk_sequence (ad_base a)) picked (sequential (served_by (ad_base a)) (map snd picked)).2;
  am_sequence : bk_sequence (ad_base a') = bk_sequence (ad_base a) + zlen picked;
  am_config : bk_config (ad_base a') = bk_config (ad_base a);
  am_count : ad_count a' = ad_count a + zlen picked /\ (picked <> [] -> ad_count a' <= slots);
  am_length : length (ad_accepted a') = length (ad_accepted a)
}.

Section Accept.
Context (b : AsyncBackend M D) (cycle slots : Z) (offers : list Offer).

Notation turn := (async_accept b cycle slots offers).

Lemma async_err clients a e : fold_left turn clients (a, Err e) = (a, Err e).
Proof. induction clients as [|x clients IH]; [done|exact IH]. Qed.

Definition accepted_state (a a1 : admission) (c : Z) (r : Request) : Prop :=
  admits slots cycle a a1 [(c, r)] /\ ad_accepted a1 = <[Z.to_nat c := true]> (ad_accepted a).

(** One turn: skipped, refused by the library, or accepted. *)
Lemma async_turn a c a1 : 0 <= bk_sequence (ad_base a) < 2 ^ 64 - 1 -> turn (a, Ok tt) c = (a1, Ok tt) ->
  a1 = a \/ exists r, mjoin (offers !! Z.to_nat c) = Some r /\ accepted_state a a1 c r.
Proof.
  intros Hs E. unfold async_accept in E. cbn [fst snd] in E. destruct (mjoin _) as [r|]; [|left; by injection E]. destruct ((ad_count a >=? slots) || _) eqn:El; [left; by injection E|]. right. exists r. split; [done|].
  apply orb_false_iff in El as [El%Z.leb_gt _]. destruct (if is_visibility r then _ else _) as [driver [[]|]]; [|done].
  destruct (serve (bk_owner (ad_base a)) (bk_writeError (ad_base a)) r) as [[owner we] answer] eqn:Eserve. injection E as <-. rewrite u64_id by (unfold is_u64; lia). split; [|done].
  split; cbn [ad_base ad_count ad_accepted bk_owner bk_writeError bk_queue bk_sequence bk_config map snd sequential fst]; rewrite ?Eserve; try done; [|by rewrite length_insert].
  unfold zlen. cbn [length]. split; [done|]. lia.
Qed.

Lemma admitted_app sequence p1 p2 as1 as2 : length as1 = length p1 -> admitted cycle sequence (p1 ++ p2) (as1 ++ as2) = admitted cycle sequence p1 as1 ++ admitted cycle (sequence + zlen p1) p2 as2.
Proof.
  revert sequence as1. induction p1 as [|[c r] p1 IH]; intros sequence [|x as1] El; try done; [cbn; unfold zlen; cbn; by rewrite Z.add_0_r|]. cbn [app admitted]. rewrite IH by (cbn in El; lia). do 3 f_equal. unfold zlen. cbn [length]. lia.
Qed.

Lemma admits_trans a a1 a2 c r picked : admits slots cycle a a1 [(c, r)] -> admits slots cycle a1 a2 picked -> admits slots cycle a a2 ((c, r) :: picked).
Proof.
  intros [A1 A2 A3 A4 [A5 A5'] A6] [B1 B2 B3 B4 [B5 B5'] B6]. pose proof (sequential_app (served_by (ad_base a)) [r] (map snd picked)) as Hs. pose proof (sequential_length (served_by (ad_base a)) [r]) as Hl. cbn [map snd] in *.
  destruct (sequential (served_by (ad_base a)) [r]) as [st1 out1]. cbn [fst snd] in *. subst st1. destruct (sequential (served_by (ad_base a1)) (map snd picked)) as [st2 out2]. cbn [fst snd] in *.
  assert (zlen ((c, r) :: picked) = 1 + zlen picked) as Ez by (unfold zlen; cbn [length]; lia). change (zlen [(c, r)]) with 1 in *. split; cbn [map snd app] in *.
  - rewrite Hs. exact B1.
  - rewrite Hs, B2. cbn [fst snd]. rewrite A2, A3, <- app_assoc. f_equal. symmetry. apply (admitted_app _ [(c, r)] picked out1 out2). done.
  - rewrite B3, A3, Ez. lia.
  - congruence.
  - rewrite B5, A5, Ez. split; [lia|]. intros _. destruct picked; [unfold zlen; cbn; specialize (A5' ltac:(done)); lia|]. specialize (B5' ltac:(done)). lia.
  - congruence.
Qed.

Lemma admits_nil a : admits slots cycle a a [].
Proof. split; unfold zlen; cbn [length Z.of_nat map sequential fst snd admitted]; rewrite ?app_nil_r, ?Z.add_0_r; done. Qed.

Lemma async_other clients a a' c : fold_left turn clients (a, Ok tt) = (a', Ok tt) -> 0 <= bk_sequence (ad_base a) -> bk_sequence (ad_base a) + zlen clients < 2 ^ 64 ->
  Forall (in_ports (length (ad_accepted a))) clients -> 0 <= c -> c ∉ clients -> default false (ad_accepted a' !! Z.to_nat c) = default false (ad_accepted a !! Z.to_nat c).
Proof.
  revert a. induction clients as [|x clients IH]; intros a E Hs Hmax Hp Hc Hn; cbn [fold_left] in E; [by injection E as <-|]. apply Forall_cons in Hp as [Hx Hp]. apply not_elem_of_cons in Hn as [Hne Hn].
  assert (zlen (x :: clients) = 1 + zlen clients) as Ez by (unfold zlen; cbn [length]; lia). assert (0 <= zlen clients) by (unfold zlen; lia). rewrite Ez in Hmax.
  destruct (turn (a, Ok tt) x) as [a1 [[]|e]] eqn:Et; [|by rewrite async_err in E]. destruct (async_turn a x a1 ltac:(lia) Et) as [->|(r & Er & Ha & Eacc)]; [apply IH; (done || lia)|].
  rewrite (IH a1 E); [rewrite Eacc, flag_insert by done; by destruct (Z.eqb_spec x c)| | | |done|done]; rewrite ?(am_sequence _ _ _ _ _ Ha), ?(am_length _ _ _ _ _ Ha); try done; change (zlen [(x, r)]) with 1; lia.
Qed.

Lemma async_fold clients a a' : NoDup clients -> Forall (in_ports (length (ad_accepted a))) clients -> unflagged (ad_accepted a) clients ->
  0 <= bk_sequence (ad_base a) -> bk_sequence (ad_base a) + zlen clients < 2 ^ 64 -> fold_left turn clients (a, Ok tt) = (a', Ok tt) ->
  admits slots cycle a a' (omap (pick_accepted offers (ad_accepted a')) clients).
Proof.
  revert a. induction clients as [|x clients IH]; intros a Hnd Hp Hf Hs Hmax E; [injection E as <-; apply admits_nil|].
  apply NoDup_cons in Hnd as [Hx Hnd]. apply Forall_cons in Hp as [Hpx Hp]. apply Forall_cons in Hf as [Hfx Hf]. assert (zlen (x :: clients) = 1 + zlen clients) as Ez by (unfold zlen; cbn [length]; lia).
  assert (0 <= zlen clients) by (unfold zlen; lia). rewrite Ez in Hmax. cbn [fold_left] in E. destruct (turn (a, Ok tt) x) as [a1 [[]|e]] eqn:Et; [|by rewrite async_err in E].
  cbn [omap list_omap]. unfold pick_accepted at 1. destruct (async_turn a x a1 ltac:(lia) Et) as [->|(r & Er & Ha & Eacc)].
  - rewrite (async_other clients a a' x E) by (done || lia || apply Hpx). rewrite Hfx. apply IH; (done || lia).
  - assert (bk_sequence (ad_base a1) = bk_sequence (ad_base a) + 1) as Es1 by exact (am_sequence _ _ _ _ _ Ha). pose proof (am_length _ _ _ _ _ Ha) as El.
    assert (Forall (in_ports (length (ad_accepted a1))) clients) as Hp1 by (by rewrite El).
    rewrite (async_other clients a1 a' x E) by (done || lia || apply Hpx). rewrite Eacc, flag_insert, Z.eqb_refl by (done || apply Hpx). cbn [default]. rewrite Er. cbn [fmap option_fmap option_map].
    eapply admits_trans; [exact Ha|]. apply IH; try done; [|lia|lia].
    apply Forall_forall. intros c Hc. unfold unflagged in Hf. rewrite Forall_forall in Hf, Hp. rewrite Eacc, flag_insert by (done || apply Hp; done). destruct (Z.eqb_spec x c) as [->|]; [done|by apply Hf].
Qed.
End Accept.

Lemma admitted_entry cycle sequence picked answers e : e ∈ admitted cycle sequence picked answers ->
  exists k c r answer, picked !! k = Some (c, r) /\ answers !! k = Some answer /\ e = async_entry c cycle (sequence + Z.of_nat k + 1) r answer.
Proof.
  revert sequence answers. induction picked as [|[c r] picked IH]; intros sequence [|x answers] He; cbn [admitted] in He; try (by apply elem_of_nil in He). apply elem_of_cons in He as [->|He].
  - exists 0%nat, c, r, x. split_and!; try done. f_equal. lia.
  - destruct (IH _ _ He) as (k & c' & r' & a & H1 & H2 & ->). exists (Datatypes.S k), c', r', a. split_and!; try done. f_equal. lia.
Qed.

Lemma admitted_seqs cycle sequence picked answers : length answers = length picked -> map seq_of (admitted cycle sequence picked answers) = zrange (sequence + 1) (zlen picked).
Proof.
  revert sequence answers. induction picked as [|[c r] picked IH]; intros sequence [|x answers] El; cbn in El; try done. cbn [admitted map]. rewrite IH by lia.
  assert (zlen ((c, r) :: picked) = 1 + zlen picked) as -> by (unfold zlen; cbn [length]; lia). rewrite zrange_app by (unfold zlen; lia). assert (zrange (sequence + 1) 1 = [sequence + 1]) as -> by (unfold zrange; change (Z.to_nat 1) with 1%nat; cbn [seq map]; f_equal; lia). done.
Qed.

(** ** The account of an asynchronous backend *)

Definition answers_of (owner : M) log : list (list Z * option error) := (sequential (owner, None) (map snd log)).2.

Record async_inv (n : nat) (owner : M) b log acks (returned : list (Z * Response)) : Prop := {
  ai_served : (bk_owner (ab_Backend b), bk_writeError (ab_Backend b)) = (sequential (owner, None) (map snd log)).1;
  ai_number : bk_sequence (ab_Backend b) = zlen log;
  ai_clients : Forall (fun x => in_ports n x.1) log;
  ai_ports : length (bk_held (ab_Backend b)) = n /\ length (ab_returnHeld b) = n;
  ai_queue : Forall (entry_ok log (answers_of owner log) acks) (bk_queue (ab_Backend b));
  ai_sorted : StronglySorted Z.lt (map seq_of (bk_queue (ab_Backend b)));
  ai_account : map (fun x => rs_Sequence x.2) returned ++ map seq_of (bk_queue (ab_Backend b)) ≡ₚ zrange 1 (zlen log);
  ai_returned : Forall (returned_ok log (answers_of owner log) acks) returned;
  ai_held : forall c r, 0 <= c -> rp_Response (reply_at (ab_returnHeld b) c) = Some r -> exists e, e ∈ bk_queue (ab_Backend b) /\ en_client e = c /\ en_serviced e = true /\ en_response e = r;
  ai_room : zlen (bk_queue (ab_Backend b)) <= cf_MaxInflight (bk_config (ab_Backend b))
}.

Definition edge_returned (e : Edge) : list (Z * Response) := flat_map (fun c => map (pair c) (delivered_to c (eg_Replies e))) (map Z.of_nat (seq 0 (length (eg_Replies e)))).
Definition edge_acks b : list Z := match dr_Tick (ab_driver b) with (_, Ok ids) => ids | _ => [] end.
Definition edge_log b (offers : list Offer) (e : Edge) : list (Z * Request) := accepted_requests (bk_nextClient (ab_Backend b)) offers (eg_Accepted e).

Lemma sorted_NoDup (l : list Z) : StronglySorted Z.lt l -> NoDup l.
Proof. induction 1 as [|x l Hl IH Hx]; [apply NoDup_nil_2|]. apply NoDup_cons. split; [|done]. intros Hin. rewrite Forall_forall in Hx. specialize (Hx _ Hin). lia. Qed.

Lemma same_entry queue e e' : NoDup (map seq_of queue) -> e ∈ queue -> e' ∈ queue -> seq_of e = seq_of e' -> e = e'.
Proof.
  intros Hnd He He' E. apply list_elem_of_lookup in He as [i Hi], He' as [j Hj]. assert (i = j) as ->; [|congruence]. eapply NoDup_lookup; [exact Hnd|rewrite list_lookup_fmap, Hi; done|rewrite list_lookup_fmap, Hj; cbn; by rewrite E].
Qed.

Lemma keep_queue_perm retired queue : NoDup (map seq_of queue) -> NoDup retired -> (forall s, s ∈ retired -> s ∈ map seq_of queue) -> map seq_of queue ≡ₚ retired ++ map seq_of (keep_queue retired queue).
Proof.
  intros Hq Hr Hs. unfold keep_queue. apply NoDup_Permutation; [done| |].
  - apply NoDup_app. split_and!; [done| |].
    + intros s Hin (e & -> & [He _]%list_elem_of_filter)%list_elem_of_fmap. done.
    + eapply sublist_NoDup; [exact Hq|]. apply fmap_sublist, sublist_filter.
  - intros s. rewrite elem_of_app. split.
    + intros (e & -> & He)%list_elem_of_fmap. destruct (decide (seq_of e ∈ retired)); [by left|right]. apply list_elem_of_fmap. exists e. split; [done|]. by apply list_elem_of_filter.
    + intros [Hin|(e & -> & [_ He]%list_elem_of_filter)%list_elem_of_fmap]; [by apply Hs|]. apply list_elem_of_fmap. by exists e.
Qed.

Lemma keep_queue_sorted retired queue : StronglySorted Z.lt (map seq_of queue) -> StronglySorted Z.lt (map seq_of (keep_queue retired queue)).
Proof.
  unfold keep_queue. induction queue as [|e queue IH]; intros Hs; [done|]. cbn [map] in Hs. apply StronglySorted_inv in Hs as [Hs Hx]. rewrite filter_cons. case_decide; [|by apply IH]. cbn [map]. constructor; [by apply IH|].
  apply Forall_forall. intros s (y & -> & [_ Hy]%list_elem_of_filter)%list_elem_of_fmap. rewrite Forall_forall in Hx. apply Hx. apply list_elem_of_fmap. by exists y.
Qed.

Lemma edge_returned_elem e c r : (c, r) ∈ edge_returned e <-> 0 <= c < Z.of_nat (length (eg_Replies e)) /\ reply_at (eg_Replies e) c = mkReply (Some r) true.
Proof.
  unfold edge_returned. rewrite list_elem_of_In, in_flat_map. split.
  - intros (x & Hx & Hin). apply list_elem_of_In, list_elem_of_fmap in Hx as (k & -> & Hk%elem_of_seq). apply list_elem_of_In, list_elem_of_fmap in Hin as (y & [= -> ->] & Hy). split; [lia|].
    unfold delivered_to in Hy. destruct (reply_at _ _) as [[z|] []]; try (by apply elem_of_nil in Hy). by apply list_elem_of_singleton in Hy as ->.
  - intros [Hc E]. exists c. split.
    + apply list_elem_of_In, list_elem_of_fmap. exists (Z.to_nat c). split; [lia|]. apply elem_of_seq. lia.
    + apply list_elem_of_In, list_elem_of_fmap. exists r. split; [done|]. unfold delivered_to. rewrite E. by left.
Qed.

Section Step.
Context (n : nat) (owner : M) (b : AsyncBackend M D) (log : list (Z * Request)) (acks : list Z) (returned : list (Z * Response)) (Hinv : async_inv n owner b log acks returned).

Notation base := (ab_Backend b).
Notation queue := (bk_queue base).

Lemma queue_ports : Forall (fun e => in_ports n (en_client e)) queue.
Proof.
  eapply Forall_impl; [apply (ai_queue _ _ _ _ _ _ Hinv)|]. intros e (k & r & a & Hl & _). pose proof (ai_clients _ _ _ _ _ _ Hinv) as Hc. rewrite Forall_forall in Hc. exact (Hc _ (list_elem_of_lookup_2 _ _ _ Hl)).
Qed.

Lemma queue_NoDup : NoDup (map seq_of queue).
Proof. apply sorted_NoDup, (ai_sorted _ _ _ _ _ _ Hinv). Qed.

Lemma previewed cycle preview c r : Async_PreviewResponses b cycle = Ok preview -> 0 <= c -> rp_Response (reply_at preview c) = Some r ->
  exists e, e ∈ queue /\ en_client e = c /\ en_serviced e = true /\ en_response e = r.
Proof.
  unfold Async_PreviewResponses. destruct (negb _); [|done]. intros [= <-] Hc Hr.
  apply async_preview_spec in Hr as [Hr|Hr]; [by apply (ai_held _ _ _ _ _ _ Hinv)|done|done|]. destruct (ai_ports _ _ _ _ _ _ Hinv) as [_ ->]. apply queue_ports.
Qed.

Context (preview : list Reply) (ready : list bool) (replies : list Reply) (retired : list Z).
Context (Hpreview : forall c r, 0 <= c -> rp_Response (reply_at preview c) = Some r -> exists e, e ∈ queue /\ en_client e = c /\ en_serviced e = true /\ en_response e = r).
Context (Hret : retires preview ready queue (replicate n no_reply) [] replies retired).

Lemma no_reply_at c r d : reply_at (replicate n no_reply) c <> mkReply (Some r) d.
Proof. unfold reply_at. destruct (replicate n no_reply !! Z.to_nat c) eqn:E; [apply lookup_replicate in E as [-> _]|]; done. Qed.

(** A reply of the edge is the response of a completed entry. *)
Lemma reply_entry c r d : 0 <= c -> reply_at replies c = mkReply (Some r) d ->
  d = ready_at ready c /\ (d = true -> rs_Sequence r ∈ retired) /\ exists e, e ∈ queue /\ en_client e = c /\ en_serviced e = true /\ en_response e = r.
Proof.
  intros Hc E. destruct (rt_reply _ _ _ _ _ _ _ Hret c r d Hc E) as [E'|(Hp & Hd & Hin & _)]; [by destruct (no_reply_at c r d)|]. split; [done|]. split; [done|]. by apply Hpreview.
Qed.

Lemma retired_seqs s : s ∈ retired -> s ∈ map seq_of queue.
Proof.
  intros Hs. destruct (rt_retired _ _ _ _ _ _ _ Hret s Hs) as [Hn|(e & r & He & <- & _)]; [by apply elem_of_nil in Hn|]. apply list_elem_of_fmap. by exists e.
Qed.

(** The numbers of the delivered replies are the retired ones. *)
Lemma returned_retired e : eg_Replies e = replies -> map (fun x => rs_Sequence x.2) (edge_returned e) ≡ₚ retired.
Proof.
  intros Ee. pose proof (rt_length _ _ _ _ _ _ _ Hret) as Hlen. rewrite length_replicate in Hlen. apply NoDup_Permutation.
  - unfold edge_returned. rewrite Ee, Hlen. clear Ee.
    assert (forall l : list nat, NoDup l -> (forall k, k ∈ l -> (k < n)%nat) -> NoDup (map (fun x : Z * Response => rs_Sequence x.2) (flat_map (fun c => map (pair c) (delivered_to c replies)) (map Z.of_nat l)))) as Hl.
    { induction l as [|k l IH]; intros Hnd Hk; [apply NoDup_nil_2|]. apply NoDup_cons in Hnd as [Hnk Hnd]. cbn [map flat_map]. rewrite map_app. apply NoDup_app. split_and!; [| |apply IH; [done|intros x Hx; apply Hk; by right]].
      - unfold delivered_to. destruct (reply_at replies (Z.of_nat k)) as [[r|] []]; cbn; try apply NoDup_nil_2. apply NoDup_singleton.
      - intros s Hs (x & -> & Hx)%list_elem_of_fmap. apply list_elem_of_In, in_flat_map in Hx as (c & Hc & Hx). apply list_elem_of_In, list_elem_of_fmap in Hc as (j & -> & Hj). apply list_elem_of_In, list_elem_of_fmap in Hx as (y & -> & Hy).
        apply list_elem_of_fmap in Hs as (z & Ez & Hz). apply list_elem_of_fmap in Hz as (w & -> & Hw). cbn in Ez. unfold delivered_to in Hy, Hw.
        destruct (reply_at replies (Z.of_nat j)) as [[rj|] []] eqn:Ej; try (by apply elem_of_nil in Hy). destruct (reply_at replies (Z.of_nat k)) as [[rk|] []] eqn:Ek; try (by apply elem_of_nil in Hw).
        apply list_elem_of_singleton in Hy as ->, Hw as ->. destruct (reply_entry (Z.of_nat j) rj true ltac:(lia) Ej) as (_ & _ & ej & Hej & Cj & _ & Rj). destruct (reply_entry (Z.of_nat k) rk true ltac:(lia) Ek) as (_ & _ & ek & Hek & Ck & _ & Rk).
        assert (ej = ek) as -> by (apply (same_entry queue); [apply queue_NoDup|done|done|unfold seq_of; congruence]). assert (j = k) as -> by lia. done. }
    apply Hl; [apply NoDup_seq|]. intros k Hk%elem_of_seq. lia.
  - apply (rt_once _ _ _ _ _ _ _ Hret).
  - intros s. split.
    + intros ([c r] & -> & Hx)%list_elem_of_fmap. apply edge_returned_elem in Hx as [Hc Hr]. rewrite Ee in Hr. by apply (reply_entry c r true ltac:(lia) Hr).
    + intros Hs. destruct (rt_retired _ _ _ _ _ _ _ Hret s Hs) as [Hn|(x & r & Hx & <- & _ & Er & _ & Hr)]; [by apply elem_of_nil in Hn|]. apply list_elem_of_fmap. exists (en_client x, r). split; [done|].
      apply edge_returned_elem. rewrite Ee, Hlen. split; [|done]. pose proof queue_ports as Hq. rewrite Forall_forall in Hq. apply (Hq x Hx).
Qed.

(** A reply that is held back stays in the queue. *)
Lemma held_stays c r : 0 <= c -> reply_at replies c = mkReply (Some r) false -> exists e, e ∈ keep_queue retired queue /\ en_client e = c /\ en_serviced e = true /\ en_response e = r.
Proof.
  intros Hc E. destruct (reply_entry c r false Hc E) as (Hd & _ & e & He & Ec & Es & Er). exists e. split_and!; try done. apply list_elem_of_filter. split; [|done]. intros Hin.
  destruct (rt_retired _ _ _ _ _ _ _ Hret _ Hin) as [Hn|(x & y & Hx & Ex & _ & _ & Hy & _)]; [by apply elem_of_nil in Hn|].
  assert (x = e) as -> by (apply (same_entry queue); [apply queue_NoDup|done|done|done]). rewrite Ec in Hy. congruence.
Qed.

Lemma kept_account e : eg_Replies e = replies -> map (fun x => rs_Sequence x.2) (returned ++ edge_returned e) ++ map seq_of (keep_queue retired queue) ≡ₚ zrange 1 (zlen log).
Proof.
  intros Ee. rewrite <- (ai_account _ _ _ _ _ _ Hinv), map_app, (returned_retired e Ee), <- app_assoc. apply Permutation_app_head. symmetry. apply keep_queue_perm; [apply queue_NoDup|apply (rt_once _ _ _ _ _ _ _ Hret)|apply retired_seqs].
Qed.

Lemma returned_now e : eg_Replies e = replies -> Forall (returned_ok log (answers_of owner log) acks) (returned ++ edge_returned e).
Proof.
  intros Ee. apply Forall_app. split; [apply (ai_returned _ _ _ _ _ _ Hinv)|]. apply Forall_forall. intros [c r] Hx. apply edge_returned_elem in Hx as [Hc Hr]. rewrite Ee in Hr.
  destruct (reply_entry c r true ltac:(lia) Hr) as (_ & _ & x & Hx & <- & Es & <-). pose proof (ai_queue _ _ _ _ _ _ Hinv) as Hq. rewrite Forall_forall in Hq. destruct (Hq x Hx) as (k & q & a & H1 & H2 & H3 & H4 & H5).
  exists k, q, a. split_and!; try done. by apply H5.
Qed.

Lemma absent_now e : eg_Replies e = replies -> absent_complete log acks (map seq_of (keep_queue retired queue)).
Proof.
  intros Ee j c r Hl Hv Hn. pose proof (kept_account e Ee) as Hp. assert (Z.of_nat j + 1 ∈ zrange 1 (zlen log)) as Hin by (apply elem_of_zrange; apply lookup_lt_Some in Hl; unfold zlen; lia).
  rewrite <- Hp in Hin. apply elem_of_app in Hin as [Hin|Hin]; [|done]. apply list_elem_of_fmap in Hin as (x & Ex & Hx). pose proof (returned_now e Ee) as Hr. rewrite Forall_forall in Hr.
  destruct (Hr x Hx) as (k & q & a & H1 & _ & [H2 _] & H3). assert (k = j) as -> by lia. specialize (H3 _ _ H1). rewrite H1 in Hl. injection Hl as _ ->. by rewrite Hv in H3.
Qed.
End Step.

Lemma sorted_app_zrange (l : list Z) s k : StronglySorted Z.lt l -> (forall x, x ∈ l -> x <= s) -> StronglySorted Z.lt (l ++ zrange (s + 1) k).
Proof.
  intros Hl Hle. apply StronglySorted_app. split_and!; [|done|].
  - intros x y Hx Hy. specialize (Hle x Hx). apply elem_of_zrange in Hy. lia.
  - unfold zrange. generalize (Z.to_nat k). intros m. generalize 0%nat. induction m as [|m IH]; intros i; cbn [seq map]; constructor; [apply IH|]. apply Forall_forall. intros x (j & -> & Hj%elem_of_seq)%list_elem_of_fmap. lia.
Qed.

Lemma admitted_ok owner log acks picked cycle : Forall (entry_ok (log ++ picked) (answers_of owner (log ++ picked)) acks)
  (admitted cycle (zlen log) picked (sequential (sequential (owner, None) (map snd log)).1 (map snd picked)).2).
Proof.
  apply Forall_forall. intros e (k & c & r & a & H1 & H2 & ->)%admitted_entry. exists (length log + k)%nat, r, a. unfold answers_of. rewrite map_app, sequential_app.
  pose proof (sequential_length (owner, None) (map snd log)) as El. destruct (sequential (owner, None) (map snd log)) as [st out]. cbn [fst snd] in *. destruct (sequential st (map snd picked)) as [st2 out2]. cbn [fst snd] in *. rewrite length_map in El.
  split_and!; [cbn; by rewrite lookup_app_r, Nat.add_sub_swap, Nat.sub_diag by lia|rewrite lookup_app_r by lia; by replace (length log + k - length out)%nat with k by lia|done| |done].
  split_and!; try done. cbn. unfold zlen. lia.
Qed.

Lemma answers_app owner log picked : answers_of owner (log ++ picked) = answers_of owner log ++ (sequential (sequential (owner, None) (map snd log)).1 (map snd picked)).2.
Proof. unfold answers_of. rewrite map_app, sequential_app. destruct (sequential (owner, None) (map snd log)) as [st out]. cbn. by destruct (sequential st (map snd picked)). Qed.

Lemma served_app owner log picked : (sequential (owner, None) (map snd (log ++ picked))).1 = (sequential (sequential (owner, None) (map snd log)).1 (map snd picked)).1.
Proof. rewrite map_app, sequential_app. destruct (sequential (owner, None) (map snd log)) as [st out]. cbn. by destruct (sequential st (map snd picked)). Qed.

Lemma async_step n owner b log acks returned cycle offers ready b' e : async_inv n owner b log acks returned -> Async_Step b cycle offers ready = (b', Ok e) ->
  async_inv n owner b' (log ++ edge_log b offers e) (acks ++ edge_acks b) (returned ++ edge_returned e) /\ bk_config (ab_Backend b') = bk_config (ab_Backend b).
Proof.
  intros Hinv Hstep. unfold Async_Step in Hstep. destruct (async_check b cycle offers ready) as [preview|] eqn:Ec; [|done].
  destruct (async_retire _ _ _ _ _ _) as [replies retired] eqn:Er. destruct (dr_Tick (ab_driver b)) as [driver [ids|]] eqn:Et; [|done].
  destruct (complete_all cycle ids _) as [queue [[]|]] eqn:Eq; [|done]. set (start := mkAdmission (with_queue queue (ab_Backend b)) driver (replicate (length offers) false) 0 (bk_nextClient (ab_Backend b))) in *.
  destruct (fold_left _ _ (start, Ok tt)) as [a [[]|]] eqn:Ef; [|done]. injection Hstep as <- <-.
  unfold async_check in Ec. apply result_bind_ok in Ec as (pv & Epv & Ec). destruct (_ && _) eqn:El in Ec; [|done]. destruct (negb _) eqn:Eo in Ec; [|done]. apply result_bind_ok in Ec as ([] & _ & Ec). apply Ok_inj in Ec as ->.
  apply andb_true_iff in El as [El%Z.eqb_eq _]. apply negb_true_iff, orb_false_iff in Eo as [_ Eo%Z.ltb_ge]. destruct (ai_ports _ _ _ _ _ _ Hinv) as [Eheld Erh]. assert (length offers = n) as En by (unfold zlen in El; lia).
  rewrite En in *. set (kept := keep_queue retired (bk_queue (ab_Backend b))) in *.
  assert (retires preview ready (bk_queue (ab_Backend b)) (replicate n no_reply) [] replies retired) as Hret.
  { eapply retire_inv; [|by eapply queue_NoDup|apply NoDup_nil_2| |exact Er]; [rewrite length_replicate; by eapply queue_ports|]. intros s Hs. by apply elem_of_nil in Hs. }
  pose proof (fun c r => previewed n owner b log acks returned Hinv cycle preview c r Epv) as Hpv.
  set (e := mkEdge (ad_accepted a) replies). assert (edge_acks b = ids) as -> by (unfold edge_acks; by rewrite Et). set (picked := edge_log b offers e).
  destruct (rotation_nodup (bk_nextClient (ab_Backend b)) n) as [Hrot Hrp].
  assert (admits (cf_MaxInflight (bk_config (ab_Backend b)) - zlen (bk_queue (ab_Backend b))) cycle start a picked) as [A1 A2 A3 A4 [A5 A5'] A6].
  { unfold picked, edge_log, accepted_requests. rewrite En. assert (length (ad_accepted start) = n) as Els by (rewrite <- En; apply length_replicate). eapply async_fold; [done|by rewrite Els| |cbn [start ad_base with_queue bk_sequence]; rewrite (ai_number _ _ _ _ _ _ Hinv); unfold zlen; lia|cbn [start ad_base with_queue bk_sequence]|].
    - apply Forall_forall. intros c _. cbn [start ad_accepted]. destruct (replicate (length offers) false !! Z.to_nat c) as [f|] eqn:E; [by apply lookup_replicate in E as [-> _]|done].
    - unfold rotation, zlen. rewrite length_map, length_seq. unfold MaxUint64, zlen in Eo. lia.
    - unfold client_order in Ef. unfold rotation. rewrite En in Ef. unfold zlen in Ef at 2. rewrite En in Ef. exact Ef. }
  cbn [start ad_base with_queue bk_owner bk_writeError bk_queue bk_sequence bk_config ad_count ad_accepted] in *.
  pose proof (kept_account n owner b log acks returned Hinv preview ready replies retired Hpv Hret e eq_refl) as Hacc. pose proof (returned_now n owner b log acks returned Hinv preview ready replies retired Hpv Hret e eq_refl) as Hretn.
  pose proof (absent_now n owner b log acks returned Hinv preview ready replies retired Hpv Hret e eq_refl) as Habs.
  fold kept in Hacc, Habs. assert (Forall (entry_ok log (answers_of owner log) acks) kept) as Hkok by (pose proof (ai_queue _ _ _ _ _ _ Hinv) as Hq; rewrite Forall_forall in Hq; apply Forall_forall; intros x [_ Hx]%list_elem_of_filter; by apply Hq).
  destruct (complete_all_spec _ _ _ _ _ _ _ Eq Hkok) as [(K1 & K2 & K3) Hqok]. rewrite (ai_number _ _ _ _ _ _ Hinv), (ai_served _ _ _ _ _ _ Hinv) in *.
  set (more := sequential (sequential (owner, None) (map snd log)).1 (map snd picked)) in *. assert (length more.2 = length picked) as Elm by (unfold more; rewrite sequential_length; apply length_map).
  assert (Forall (entry_ok (log ++ picked) (answers_of owner (log ++ picked)) (acks ++ ids)) (bk_queue (ad_base a))) as Hok.
  { rewrite A2. apply Forall_app. split; [|apply admitted_ok]. rewrite answers_app. eapply Forall_impl; [exact Hqok|]. intros x. by apply entry_mono. }
  assert (map seq_of (bk_queue (ad_base a)) = map seq_of kept ++ zrange (zlen log + 1) (zlen picked)) as Eseqs by (rewrite A2, map_app, K1, admitted_seqs by done; done).
  assert (StronglySorted Z.lt (map seq_of (bk_queue (ad_base a)))) as Hsort.
  { rewrite Eseqs. apply sorted_app_zrange; [apply keep_queue_sorted, (ai_sorted _ _ _ _ _ _ Hinv)|]. intros x Hx. assert (x ∈ zrange 1 (zlen log)) as Hz by (rewrite <- Hacc; apply elem_of_app; by right). apply elem_of_zrange in Hz. lia. }
  assert (absent_complete (log ++ picked) (acks ++ ids) (map seq_of ([] ++ bk_queue (ad_base a)))) as Habs'.
  { intros j c r Hl Hv Hn. cbn [app] in Hn. rewrite Eseqs, not_elem_of_app in Hn. destruct Hn as [Hn1 Hn2]. apply elem_of_app. left. apply lookup_app_Some in Hl as [Hl|[Hge Hl]]; [by apply (Habs j c r)|]. exfalso. apply Hn2, elem_of_zrange.
    apply lookup_lt_Some in Hl. unfold zlen. lia. }
  destruct (visibility_turns _ _ _ cycle true [] _ ltac:(constructor) Hok Hsort Habs' ltac:(constructor)) as [(V1 & V2 & V3) Vok].
  split; [|exact A4]. split; cbn [ab_Backend ab_returnHeld bk_owner bk_writeError bk_sequence bk_held bk_queue bk_config].
  - by rewrite served_app.
  - rewrite A3. unfold zlen. rewrite length_app. lia.
  - apply Forall_app. split; [apply (ai_clients _ _ _ _ _ _ Hinv)|]. unfold picked, edge_log. rewrite <- En. pose proof (accepted_ports (bk_nextClient (ab_Backend b)) offers (eg_Accepted e)) as Hp. rewrite Forall_forall in Hp. apply Forall_forall. intros x Hx. apply Hp, list_elem_of_fmap. by exists x.
  - unfold still_held. rewrite length_zip_with, length_map, (rt_length _ _ _ _ _ _ _ Hret), A6, !length_replicate. lia.
  - exact Vok.
  - by rewrite V1.
  - rewrite V1, Eseqs, app_assoc, Hacc. assert (zlen (log ++ picked) = zlen log + zlen picked) as -> by (unfold zlen; rewrite length_app; lia). rewrite zrange_app by (unfold zlen; lia). by rewrite Z.add_comm.
  - rewrite answers_app. eapply Forall_impl; [exact Hretn|]. intros x. apply returned_mono. set_solver.
  - intros c r Hc Hr. unfold reply_at in Hr. rewrite list_lookup_fmap in Hr. destruct (replies !! Z.to_nat c) as [[[x|] d]|] eqn:Erp; cbn in Hr; try done. destruct d; cbn in Hr; [done|]. injection Hr as ->.
    destruct (held_stays n owner b log acks returned Hinv preview ready replies retired Hpv Hret c r Hc ltac:(unfold reply_at; by rewrite Erp)) as (x & Hx & Ec & Es & Ex). exists x. split_and!; try done. apply V3; [|done]. rewrite A2. apply elem_of_app. left. by apply K3.
  - rewrite A4. assert (zlen (complete_visibility cycle true (bk_queue (ad_base a))) = zlen kept + zlen picked) as ->.
    { apply (f_equal length) in V1. rewrite Eseqs, length_app, zrange_length, !length_map in V1. unfold zlen in *. lia. }
    assert (zlen kept <= zlen (bk_queue (ab_Backend b))) as Hk by (unfold zlen, kept, keep_queue; apply inj_le, length_filter).
    pose proof (ai_room _ _ _ _ _ _ Hinv). destruct (decide (picked = [])) as [->|Hne]; [unfold zlen in *; cbn; lia|]. specialize (A5' Hne). lia.
Qed.

(** ** Runs *)

(** What a run shows: the accepted requests with their clients, the numbers the library has
    completed and the delivered responses with their clients. *)
Record asyncTrace := mkAsyncTrace { as_log : list (Z * Request); as_acks : list Z; as_returned : list (Z * Response) }.

Fixpoint async_run b (cycle : Z) (inputs : list (list Offer * list bool)) : option (AsyncBackend M D * asyncTrace) :=
  match inputs with
  | [] => Some (b, mkAsyncTrace [] [] [])
  | (offers, ready) :: inputs =>
      match Async_Step b cycle offers ready with
      | (b', Ok e) =>
          match async_run b' (cycle + 1) inputs with
          | Some (b'', t) => Some (b'', mkAsyncTrace (edge_log b offers e ++ as_log t) (edge_acks b ++ as_acks t) (edge_returned e ++ as_returned t))
          | None => None
          end
      | (_, Err _) => None
      end
  end.

Lemma async_run_inv n owner b log acks returned cycle inputs b' t : async_inv n owner b log acks returned -> async_run b cycle inputs = Some (b', t) ->
  async_inv n owner b' (log ++ as_log t) (acks ++ as_acks t) (returned ++ as_returned t) /\ bk_config (ab_Backend b') = bk_config (ab_Backend b).
Proof.
  revert b log acks returned cycle t. induction inputs as [|[offers ready] inputs IH]; intros b log acks returned cycle t Hinv Hrun; cbn [async_run] in Hrun.
  - injection Hrun as <- <-. cbn. by rewrite !app_nil_r.
  - destruct (Async_Step b cycle offers ready) as [b1 [e|]] eqn:Es; [|done]. destruct (async_run b1 (cycle + 1) inputs) as [[b2 u]|] eqn:Er; [|done]. injection Hrun as <- <-. cbn [as_log as_acks as_returned].
    destruct (async_step _ _ _ _ _ _ _ _ _ _ _ Hinv Es) as [Hinv1 E1]. destruct (IH _ _ _ _ _ _ Hinv1 Er) as [Hinv2 E2]. rewrite !app_assoc. split; [done|congruence].
Qed.

Lemma NewAsync_inv owner config clients banks driver b : NewAsync (Some owner) config clients banks (Some driver) = Ok b ->
  async_inv (Z.to_nat clients) owner b [] [] [] /\ bk_config (ab_Backend b) = config.
Proof.
  unfold NewAsync, Backend_New. destruct (negb _); [|done]. destruct ((cf_Latency config =? 0) || _ || _ || _ || _) eqn:E; [done|]. intros [= <-]. rewrite !orb_false_iff in E. destruct E as [[[_ E%Z.leb_gt] _] _]. split; [|done].
  split; cbn [ab_Backend ab_returnHeld bk_owner bk_writeError bk_sequence bk_held bk_queue bk_config]; try done; try constructor; rewrite ?length_replicate; try done.
  - intros c r _ Hr. unfold reply_at in Hr. destruct (replicate _ no_reply !! Z.to_nat c) eqn:El; [apply lookup_replicate in El as [-> _]|]; done.
  - unfold zlen. cbn. lia.
Qed.

(** C14: The asynchronous backend is a sequential memory whose answers wait for the timing
    library. In any run of a new backend, whatever the clients offer, whenever they are
    ready and whatever the library completes, in any order: the accepted requests are
    served on the byte owner one after the other in acceptance order, also when their
    responses overtake each other; each is numbered 1, 2, 3 ... and is either in the queue
    or has been answered once, by a response to its client with its identity, tag and
    operation and with the data and the error of that service; no answer is given before
    the library has completed the request, or, for a visibility request, every request
    accepted before it; and the queue never exceeds [MaxInflight]. *)
Theorem async_exactly_once owner config clients banks driver b0 start inputs b t :
  NewAsync (Some owner) config clients banks (Some driver) = Ok b0 -> async_run b0 start inputs = Some (b, t) ->
  (bk_owner (ab_Backend b), bk_writeError (ab_Backend b)) = (sequential (owner, None) (map snd (as_log t))).1 /\
  map (fun x => rs_Sequence x.2) (as_returned t) ++ map seq_of (bk_queue (ab_Backend b)) ≡ₚ zrange 1 (zlen (as_log t)) /\
  Forall (returned_ok (as_log t) (sequential (owner, None) (map snd (as_log t))).2 (as_acks t)) (as_returned t) /\
  xb_Outstanding b = zlen (as_log t) - zlen (as_returned t) /\ xb_Outstanding b <= cf_MaxInflight config.
Proof.
  intros Hnew Hrun. destruct (NewAsync_inv _ _ _ _ _ _ Hnew) as [H1 Ec]. destruct (async_run_inv _ _ _ _ _ _ _ _ _ _ H1 Hrun) as [Hinv Ec']. cbn [app] in Hinv. split_and!.
  - apply (ai_served _ _ _ _ _ _ Hinv).
  - apply (ai_account _ _ _ _ _ _ Hinv).
  - apply (ai_returned _ _ _ _ _ _ Hinv).
  - pose proof (ai_account _ _ _ _ _ _ Hinv) as Hp. apply Permutation_length in Hp. rewrite length_app, !length_map, zrange_length in Hp. cbn. unfold Outstanding, zlen in *. lia.
  - rewrite <- Ec, <- Ec'. apply (ai_room _ _ _ _ _ _ Hinv).
Qed.
End Spec.

(** ** A concrete run *)

(** A library that completes the last submitted number first. *)
#[local] Instance last_first : DRAMTiming (list Z) := {|
  dr_Submit := fun d id _ _ => (id :: d, Ok tt);
  dr_Tick := fun d => match d with [] => ([], Ok []) | id :: d => (d, Ok [id]) end
|}.

Definition async_config : Config := mkConfig 1 2 4 2.
Definition async_identity (n : Z) : Identity := with_transaction n no_identity.
Definition async_write : Request := mkRequest (async_identity 1) 7 OpWrite 64 6 (replicate 64 9).
Definition async_read : Request := mkRequest (async_identity 1) 8 OpRead 64 0 zero_sector.
Definition async_ticket : Request := mkRequest (async_identity 2) 9 OpVisibility 0 0 zero_sector.
Definition async_memory : Memory := mkMemory (replicate 128 1).

(** A write, a read of its bytes from another client and a visibility request. *)
Definition async_inputs : list (list Offer * list bool) :=
  [([Some async_write; Some async_read], [true; true]); ([Some async_ticket; None], [true; true])] ++ replicate 4 ([None; None], [true; true]).

Lemma async_exactly_once_witness : exists b0 b t, NewAsync (Some async_memory) async_config 2 2 (Some []) = Ok b0 /\ async_run b0 0 async_inputs = Some (b, t) /\
  as_acks t = [2; 1] /\ map (fun x => (x.1, rs_Sequence x.2)) (as_returned t) = [(0, 1); (0, 3); (1, 2)] /\
  map (fun x => rs_Sequence x.2) (as_returned t) ++ map seq_of (bk_queue (ab_Backend b)) ≡ₚ [1; 2; 3].
Proof.
  destruct (NewAsync (Some async_memory) async_config 2 2 (Some [])) as [b0|] eqn:E0; [|exfalso; vm_compute in E0; discriminate E0]. exists b0.
  destruct (async_run b0 0 async_inputs) as [[b t]|] eqn:E; [|exfalso; vm_compute in E0; injection E0 as <-; vm_compute in E; discriminate E]. exists b, t. split; [done|]. split; [done|].
  destruct (async_exactly_once _ _ _ _ _ _ _ _ _ _ E0 E) as (_ & Ha & _). revert Ha. clear -E0 E. vm_compute in E0. injection E0 as <-. vm_compute in E. injection E as <- <-. intros Ha. split; [reflexivity|]. split; [reflexivity|]. exact Ha.
Defined.
