(* ===== verification/MemorySystem.v ===== *)
(** * The timing memory system (src/timing/memsys/system.go, trace.go)

    The two caches, the external backend, the local memory and the parts between them and
    the load-store unit, each advanced once by an edge of [System].  Every part sees the
    state of the others before the edge.  An error is terminal: the parts advanced so far
    keep what they did, and [sy_fault] refuses every later edge. *)

From S2P Require Import Prelude Memory TimingIR Memsys Backend External CacheArray Mshr CacheBank Cache Coalescer LocalMemory Split DCachePort GlobalAdapter LocalAdapter.

#[local] Open Scope Z_scope.
#[local] Open Scope go_scope.

(** ** Transfers (trace.go) *)

Record Transfer := mkTransfer {
  tr_Boundary : string;
  tr_Port : Z;
  tr_Request : WordRequest;
  tr_Parent : Identity;
  tr_Batch : BatchID;
  tr_LaneMask : Z
}.

Record SystemInput := mkSystemInput {
  in_Trace : bool;
  in_Fetch : WordOffer;
  in_Memory : SIMDOffer;
  in_FetchReady : bool;
  in_MemoryReady : bool;
  in_InstructionFlush : FlushOffer;
  in_DataFlush : FlushOffer;
  in_InstructionFlushReady : bool;
  in_DataFlushReady : bool
}.

Record SystemEdge := mkSystemEdge {
  ed_Transfers : list Transfer;
  ed_FetchAccepted : bool;
  ed_MemoryAccepted : bool;
  ed_Fetch : WordReply;
  ed_Memory : SIMDReply;
  ed_MemoryDelivered : bool;
  ed_Stores : list SIMDResponse;
  ed_Complete : list Identity;
  ed_InstructionFlushAccepted : bool;
  ed_DataFlushAccepted : bool;
  ed_InstructionFlush : option FlushReply;
  ed_DataFlush : option FlushReply;
  ed_WritebackErrors : list Response;
  ed_DataAdapterAccepted : list bool;
  ed_DataCacheAccepted : list bool;
  ed_DataCacheFlushAccepted : bool
}.

Section System.
Context {B S : Type} `{ExternalBackend B} `{LocalOwner S}.

(** [sy_owner] is the state of the owners behind the local memory. *)
Record System := mkSystem {
  sy_instruction : Cache;
  sy_data : Cache;
  sy_backend : B;
  sy_local : LocalMemory;
  sy_owner : S;
  sy_split : SIMDSplit;
  sy_coalescer : Coalescer;
  sy_globalAdapter : GlobalAdapter;
  sy_dataPort : dcachePortBuffer;
  sy_localAdapter : LocalAdapter;
  sy_progress : gmap Identity Z;
  sy_released : gset Identity;
  sy_started : bool;
  sy_cycle : Z;
  sy_fault : option error;
  sy_ioBase : Z;
  sy_ioEnd : Z
}.

(** [factory] makes the backend for a number of ports. *)
Definition NewSystemWithBackend `{TimingDocument} (owner : S) (factory : Z -> result B) : result System :=
  let? ioBase := Number "config" "cfg-memory" ["values"; "io_base_address"]%string in
  let? ioEnd := Number "config" "cfg-memory" ["values"; "io_end_address"]%string in
  check negb ((ioBase <? 0) || (ioEnd <=? ioBase) || (ioEnd >? 2 ^ 32 - 1) || (ioBase mod SectorBytes <>? 0) || (ioEnd mod SectorBytes <>? 0)) else Errorf "unsupported RTL I/O aperture" in
  let? instruction := NewCache InstructionCache in
  let? data := NewCache DataCache in
  let? backend := factory (sp_MemoryPorts (ch_spec instruction) + sp_MemoryPorts (ch_spec data)) in
  let? local := NewLocalMemory in
  let? split := NewSIMDSplit in
  let? coalescer := NewCoalescer in
  let? globalAdapter := NewGlobalAdapter in
  let? dataPort := newDCachePortBuffer in
  let? localAdapter := NewLocalAdapter in
  Ok (mkSystem instruction data backend local owner split coalescer globalAdapter dataPort localAdapter ∅ ∅ false 0 None ioBase ioEnd).

(** ** Views *)

Definition System_Responses (s : System) : WordReply * SIMDReply := (default no_word_reply (head (Cache_Responses (sy_instruction s))), Split_Response (sy_split s)).

Definition System_Drained (s : System) : bool :=
  bool_decide (sy_fault s = None) && Port_Drained (sy_dataPort s) && Cache_Drained (sy_instruction s) && Cache_Drained (sy_data s) && LocalMemory_Drained (sy_local s) &&
  Split_Drained (sy_split s) && Coalescer_Drained (sy_coalescer s) && Global_Drained (sy_globalAdapter s) &&
  Local_Drained (sy_localAdapter s) && (xb_Outstanding (sy_backend s) =? 0).

Definition DCachePort0Occupancy (s : System) : Z := zlen (qu_values (db_queue (sy_dataPort s))).

Definition System_HasResidency (s : System) (kernel cta : Z) : bool :=
  Port_HasResidency (sy_dataPort s) kernel cta || Cache_HasResidency (sy_instruction s) kernel cta || Cache_HasResidency (sy_data s) kernel cta ||
  LocalMemory_HasResidency (sy_local s) kernel cta || Split_HasResidency (sy_split s) kernel cta ||
  Coalescer_HasResidency (sy_coalescer s) kernel cta || Global_HasResidency (sy_globalAdapter s) kernel cta ||
  Local_HasResidency (sy_localAdapter s) kernel cta.

(** The sums are of uint64. *)
Definition IsLocal (s : System) (address : Z) : bool := (address >=? lm_base (sy_local s)) && (address <? lm_base (sy_local s) + lm_size (sy_local s)).

Definition IsIO (s : System) (address : Z) : bool := (address >=? sy_ioBase s) && (address <? sy_ioEnd s).

Definition bank_settled (b : cacheBank) : bool :=
  negb ((cb_initNext b <? sp_Sets (cb_spec b)) || from_option (fun op => bool_decide (bo_kind op = bankInit)) false (cb_s0 b) || from_option (fun c => bool_decide (bo_kind (bc_op c) = bankInit)) false (cb_s1 b)).

Definition ResetSettled (s : System) : bool := forallb (fun c => forallb bank_settled (ch_banks c)) [sy_instruction s; sy_data s].

Definition MemUnitEmpty (s : System) : bool := Coalescer_Empty (sy_coalescer s) (present (sel (Split_Outputs (sy_split s)) GlobalPath)).

Definition System_RTLTimingIssue (s : System) : string := RTLTimingIssue (sy_split s).

Definition NextCycle (s : System) : result Z :=
  match sy_fault s with
  | Some e => Err e
  | None => if negb (sy_started s) then Ok 0 else check negb (sy_cycle s =? GlobalAdapter.MaxUint64) else Errorf "memory cycle exhausted" in Ok (sy_cycle s + 1)
  end.

(** ** The edge *)

(** A stage advances the system and may fail. *)
Definition stage (A : Type) : Type := System -> System * result A.

Definition stage_bind {A C} (m : stage A) (k : A -> stage C) : stage C := fun s => match m s with (s, Ok x) => k x s | (s, Err e) => (s, Err e) end.
Definition pure {A} (r : result A) : stage A := fun s => (s, r).

Notation "'do' x '<-' m ; k" := (stage_bind m (fun x => k)) (at level 60, x pattern, m at level 59, right associativity).

Definition start_edge (cycle : Z) : stage unit := fun s =>
  (mkSystem (sy_instruction s) (sy_data s) (sy_backend s) (sy_local s) (sy_owner s) (sy_split s) (sy_coalescer s) (sy_globalAdapter s) (sy_dataPort s) (sy_localAdapter s)
     (sy_progress s) (sy_released s) true cycle (sy_fault s) (sy_ioBase s) (sy_ioEnd s), Ok tt).

Definition step_backend (cycle : Z) (offers : list Offer) (ready : list bool) : stage Edge := fun s =>
  let '(b, r) := xb_Step (sy_backend s) cycle offers ready in
  (mkSystem (sy_instruction s) (sy_data s) b (sy_local s) (sy_owner s) (sy_split s) (sy_coalescer s) (sy_globalAdapter s) (sy_dataPort s) (sy_localAdapter s)
     (sy_progress s) (sy_released s) (sy_started s) (sy_cycle s) (sy_fault s) (sy_ioBase s) (sy_ioEnd s), r).

Definition step_instruction (cycle : Z) (i : CacheInput) : stage CacheEdge := fun s =>
  let '(c, r) := Cache_Step (sy_instruction s) cycle i in
  (mkSystem c (sy_data s) (sy_backend s) (sy_local s) (sy_owner s) (sy_split s) (sy_coalescer s) (sy_globalAdapter s) (sy_dataPort s) (sy_localAdapter s)
     (sy_progress s) (sy_released s) (sy_started s) (sy_cycle s) (sy_fault s) (sy_ioBase s) (sy_ioEnd s), r).

Definition step_data (cycle : Z) (i : CacheInput) : stage CacheEdge := fun s =>
  let '(c, r) := Cache_Step (sy_data s) cycle i in
  (mkSystem (sy_instruction s) c (sy_backend s) (sy_local s) (sy_owner s) (sy_split s) (sy_coalescer s) (sy_globalAdapter s) (sy_dataPort s) (sy_localAdapter s)
     (sy_progress s) (sy_released s) (sy_started s) (sy_cycle s) (sy_fault s) (sy_ioBase s) (sy_ioEnd s), r).

Definition advance_port (core : list WordOffer) (flush : FlushOffer) (cache : CacheEdge) : stage (list bool * bool) := fun s =>
  let '(p, r) := port_advance (sy_dataPort s) core flush cache in
  (mkSystem (sy_instruction s) (sy_data s) (sy_backend s) (sy_local s) (sy_owner s) (sy_split s) (sy_coalescer s) (sy_globalAdapter s) p (sy_localAdapter s)
     (sy_progress s) (sy_released s) (sy_started s) (sy_cycle s) (sy_fault s) (sy_ioBase s) (sy_ioEnd s), Ok r).

Definition step_local (cycle : Z) (offers : list WordOffer) (ready : list bool) : stage CacheEdge := fun s =>
  let '(m, o, r) := LocalMemory_Step (sy_local s) (sy_owner s) cycle offers ready in
  (mkSystem (sy_instruction s) (sy_data s) (sy_backend s) m o (sy_split s) (sy_coalescer s) (sy_globalAdapter s) (sy_dataPort s) (sy_localAdapter s)
     (sy_progress s) (sy_released s) (sy_started s) (sy_cycle s) (sy_fault s) (sy_ioBase s) (sy_ioEnd s), r).

Definition step_global (cycle : Z) (i : GlobalAdapterInput) : stage GlobalAdapterEdge := fun s =>
  let '(a, r) := Global_Step (sy_globalAdapter s) cycle i in
  (mkSystem (sy_instruction s) (sy_data s) (sy_backend s) (sy_local s) (sy_owner s) (sy_split s) (sy_coalescer s) a (sy_dataPort s) (sy_localAdapter s)
     (sy_progress s) (sy_released s) (sy_started s) (sy_cycle s) (sy_fault s) (sy_ioBase s) (sy_ioEnd s), r).

Definition step_adapter (cycle : Z) (i : LocalAdapterInput) : stage LocalAdapterEdge := fun s =>
  let '(a, r) := Local_Step (sy_localAdapter s) cycle i in
  (mkSystem (sy_instruction s) (sy_data s) (sy_backend s) (sy_local s) (sy_owner s) (sy_split s) (sy_coalescer s) (sy_globalAdapter s) (sy_dataPort s) a
     (sy_progress s) (sy_released s) (sy_started s) (sy_cycle s) (sy_fault s) (sy_ioBase s) (sy_ioEnd s), r).

Definition step_coalescer (cycle : Z) (i : CoalescerInput) : stage CoalescerEdge := fun s =>
  let '(c, r) := Coalescer_Step (sy_coalescer s) cycle i in
  (mkSystem (sy_instruction s) (sy_data s) (sy_backend s) (sy_local s) (sy_owner s) (sy_split s) c (sy_globalAdapter s) (sy_dataPort s) (sy_localAdapter s)
     (sy_progress s) (sy_released s) (sy_started s) (sy_cycle s) (sy_fault s) (sy_ioBase s) (sy_ioEnd s), r).

Definition step_split (cycle : Z) (i : SplitInput) : stage SplitEdge := fun s =>
  let '(p, r) := Split_Step (sy_split s) cycle i in
  (mkSystem (sy_instruction s) (sy_data s) (sy_backend s) (sy_local s) (sy_owner s) p (sy_coalescer s) (sy_globalAdapter s) (sy_dataPort s) (sy_localAdapter s)
     (sy_progress s) (sy_released s) (sy_started s) (sy_cycle s) (sy_fault s) (sy_ioBase s) (sy_ioEnd s), r).

Definition set_progress (progress : gmap Identity Z) (released : gset Identity) : stage unit := fun s =>
  (mkSystem (sy_instruction s) (sy_data s) (sy_backend s) (sy_local s) (sy_owner s) (sy_split s) (sy_coalescer s) (sy_globalAdapter s) (sy_dataPort s) (sy_localAdapter s)
     progress released (sy_started s) (sy_cycle s) (sy_fault s) (sy_ioBase s) (sy_ioEnd s), Ok tt).

(** The ready signals of the memory ports of a cache, for the replies from [offset] on. *)
Definition response_ready (c : Cache) (preview : list Reply) (offset : Z) : list bool :=
  map (fun p => match rp_Response (Backend.reply_at preview (offset + p)) with Some r => MemoryResponseReady c p r | None => false end) (port_list (sp_MemoryPorts (ch_spec c))).

(** Progress of lanes that has not been reported, for requests still in the coalescer. *)
Definition progress_turn (released : gset Identity) (st : gmap Identity Z * list SIMDResponse) (p : SIMDResponse) : gmap Identity Z * list SIMDResponse :=
  let id := ss_Identity p in
  if decide (id ∈ released) then st
  else
    let mask := ss_Mask p .&^ mask_of (fst st) id in
    if mask =? 0 then st else (add_mask id mask (fst st), snd st ++ [mkSIMDResponse id (ss_Batch p) (ss_Tag p) mask (ss_Data p) (ss_Errors p)]).

(** The ports with their flags. *)
Definition flagged (accepted : list bool) : list Z := filter (fun p => default false (accepted !! Z.to_nat p) = true) (port_list (zlen accepted)).

Definition accepted_bits (accepted : list bool) : Z := fold_left (fun m p => m .| (1 << p)) (flagged accepted) 0.

Definition offer_at_port (offers : list WordOffer) (p : Z) : WordRequest := default no_word (mjoin (offers !! Z.to_nat p)).

(** A nil record of the local adapter would be dereferenced. *)
Definition local_transfer (a : LocalAdapter) (offers : list WordOffer) (p : Z) : result Transfer :=
  let req := offer_at_port offers p in
  match la_records a !! id_Transaction (wq_Identity req) with
  | None => Err (GoPanic "nil local record")
  | Some rec => Ok (mkTransfer "local-memory" p req (sq_Identity (lw_request rec)) no_batch (1 << p))
  end.

Definition transfers_of (s : System) (input : SystemInput) (batch : option CoalescedBatch) (adapterOffers dataRequests localOffers : list WordOffer)
    (ie de me : CacheEdge) (adapterAccepted : list bool) : result (list Transfer) :=
  if negb (in_Trace input) then Ok []
  else
    let fetch := default no_word (in_Fetch input) in
    let b := default empty_batch batch in
    let head := if default false (head (cg_Accepted ie)) then [mkTransfer "fetch-cache" 0 fetch (wq_Identity fetch) no_batch 0] else [] in
    let adapter := map (fun p => mkTransfer "global-adapter" p (offer_at_port adapterOffers p) (cb_Identity b) (cb_ID b) (cb_LaneMask b)) (flagged adapterAccepted) in
    let data := map (fun p => mkTransfer "data-cache" p (offer_at_port dataRequests p) no_identity no_batch 0) (flagged (cg_Accepted de)) in
    let? local := foldM (fun l p => let? t := local_transfer (sy_localAdapter s) localOffers p in Ok (l ++ [t])) [] (flagged (cg_Accepted me)) in
    Ok (head ++ adapter ++ data ++ local).

Definition with_accepted (accepted : list bool) (e : CacheEdge) : CacheEdge := mkCacheEdge accepted (cg_Replies e) (cg_Stores e) (cg_FlushAccepted e) (cg_Flush e) (cg_WritebackErrors e).

Definition drop_complete {A} (ids : list Identity) (m : gmap Identity A) : gmap Identity A := filter (fun x => x.1 ∉ ids) m.

(** The edge of a system without a fault, after the checks; [s] is the state before it. *)
Definition system_edge (s : System) (cycle : Z) (input : SystemInput) : stage SystemEdge :=
  let paths := Split_Outputs (sy_split s) in
  let batch := Output (sy_coalescer s) in
  do gp <- pure (Global_Preview (sy_globalAdapter s) (Cache_Responses (sy_data s)));
  do gread <- pure (Coalescer_Preview (sy_coalescer s) gp);
  do lread <- pure (Local_Preview (sy_localAdapter s) (LocalMemory_Responses (sy_local s)));
  let reads := (gread, lread) in
  let pathReady := ReadReady (sy_split s) reads (in_MemoryReady input) in
  do gr <- pure (Global_ReadReady (sy_globalAdapter s) (Cache_Responses (sy_data s)) (fst pathReady));
  do lr <- pure (Local_ReadReady (sy_localAdapter s) (LocalMemory_Responses (sy_local s)) (snd pathReady));
  do preview <- pure (xb_PreviewResponses (sy_backend s) cycle);
  let n := sp_MemoryPorts (ch_spec (sy_instruction s)) in
  do memory <- step_backend cycle (MemoryOffers (sy_instruction s) ++ MemoryOffers (sy_data s)) (response_ready (sy_instruction s) preview 0 ++ response_ready (sy_data s) preview n);
  do ie <- step_instruction cycle (mkCacheInput [in_Fetch input] [in_FetchReady input]
    (mkEdge (take (Z.to_nat n) (eg_Accepted memory)) (take (Z.to_nat n) (eg_Replies memory))) (in_InstructionFlush input) (in_InstructionFlushReady input));
  let adapterOffers := Global_Offers (sy_globalAdapter s) batch in
  let '(dataRequests, dataFlush) := port_output (sy_dataPort s) adapterOffers in
  do de <- step_data cycle (mkCacheInput dataRequests gr
    (mkEdge (drop (Z.to_nat n) (eg_Accepted memory)) (drop (Z.to_nat n) (eg_Replies memory))) dataFlush (in_DataFlushReady input));
  do ports <- advance_port adapterOffers (in_DataFlush input) de;
  let '(adapterAccepted, dataFlushAccepted) := ports in
  let localOffers := Local_Offers (sy_localAdapter s) in
  do me <- step_local cycle localOffers lr;
  do transfers <- pure (transfers_of s input batch adapterOffers dataRequests localOffers ie de me adapterAccepted);
  do ge <- step_global cycle (mkGlobalInput batch (with_accepted adapterAccepted de) (fst pathReady));
  do le <- step_adapter cycle (mkLocalInput (snd paths) me (snd pathReady));
  do ce <- step_coalescer cycle (mkCoalescerInput (accepted_bits adapterAccepted) (fst paths) (ge_Accepted ge) (ge_Response ge) (fst pathReady));
  let '(progress, reported) := fold_left (progress_turn (sy_released s)) (ge_Progress ge) (sy_progress s, []) in
  let released := if ce_Accepted ce then {[from_option sq_Identity no_identity (fst paths)]} ∪ sy_released s else sy_released s in
  do _ <- set_progress progress released;
  do se <- step_split cycle (mkSplitInput (reported, le_Progress le) (in_Memory input) (ce_Accepted ce, le_Accepted le) reads (ge_Stores ge, le_Stores le) (in_MemoryReady input));
  do _ <- set_progress (drop_complete (se_Complete se) progress) (filter (fun id => id ∉ se_Complete se) released);
  pure (Ok (mkSystemEdge transfers (default false (head (cg_Accepted ie))) (se_Accepted se) (default no_word_reply (head (cg_Replies ie))) (se_Response se) (se_ResponseDelivered se)
    (se_Stores se) (se_Complete se) (cg_FlushAccepted ie) dataFlushAccepted (cg_Flush ie) (cg_Flush de) (cg_WritebackErrors ie ++ cg_WritebackErrors de)
    adapterAccepted (cg_Accepted de) (cg_FlushAccepted de))).

Definition with_fault (e : error) (s : System) : System :=
  mkSystem (sy_instruction s) (sy_data s) (sy_backend s) (sy_local s) (sy_owner s) (sy_split s) (sy_coalescer s) (sy_globalAdapter s) (sy_dataPort s) (sy_localAdapter s)
    (sy_progress s) (sy_released s) (sy_started s) (sy_cycle s) (Some e) (sy_ioBase s) (sy_ioEnd s).

Definition system_check (s : System) (cycle : Z) (input : SystemInput) : result unit :=
  check negb (sy_started s && ((sy_cycle s =? GlobalAdapter.MaxUint64) || (cycle <>? sy_cycle s + 1))) else Errorf "noncontiguous memory system cycle" in
  port_validate (sy_dataPort s) (in_DataFlush input).

Definition System_Step (s : System) (cycle : Z) (input : SystemInput) : System * result SystemEdge :=
  match sy_fault s with
  | Some e => (s, Err e)
  | None =>
      match (do _ <- pure (system_check s cycle input); do _ <- start_edge cycle; system_edge s cycle input) s with
      | (s', Ok e) => (s', Ok e)
      | (s', Err e) => (with_fault e s', Err e)
      end
  end.
End System.

Arguments System B S : clear implicits.

(** The default factory makes the backend of fixed latency. *)
Definition NewSystem `{TimingDocument} {M S} `{MemoryService M} `{LocalOwner S} (owner : M) (localOwner : S) (config : Config) : result (System (Backend M) S) :=
  NewSystemWithBackend localOwner (fun ports => Backend_New (Some owner) config ports).
