(* ===== verification/MemorySystemSpec.v ===== *)
(** * The timing memory system as a whole

    A fault-free run of a new system is a run of each of its parts, and what one part
    passes on the next one takes.  With the theorems' invariants of the parts this gives
    what the load-store unit sees, from the request to its completion.  A fault is
    terminal, and a drained system holds nothing of any CTA. *)

From S2P Require Import Prelude Memory TimingIR Memsys Backend External CacheArray CacheBank Cache Coalescer CoalescerSpec CoalescerRun LocalMemory Split DCachePort GlobalAdapter LocalAdapter Lanes SplitSpec GlobalAdapterSpec LocalAdapterSpec MemorySystem.

#[local] Open Scope Z_scope.
#[local] Open Scope go_scope.

(** ** What the batches carry *)

Definition batch_key (b : CoalescedBatch) : Identity * Z := (cb_Identity b, cb_LaneMask b).
Definition request_key (r : SIMDRequest) : Identity * Z := (sq_Identity r, sq_Mask r).

Lemma pair_up_identity r xs ys : Forall (fun b => cb_Identity b = sq_Identity r) (pair_up r xs ys).
Proof.
  revert ys. induction xs as [|x xs IH]; intros [|y ys]; cbn [pair_up map]; repeat constructor; try apply IH.
  apply Forall_fmap, Forall_forall. by intros z _.
Qed.

Lemma batches_cover r id n : simd_typed r -> validateGlobal r = Ok tt -> 0 <= n < 4 -> cover (map batch_key (batches_of r)) id n = cover [request_key r] id n.
Proof.
  intros Ht Hv%validateGlobal_SIMD Hn. destruct (validateSIMD_ok r Ht Hv) as [Hm Hok]. assert (batches_of r = pair_up r (group_words r 0) (group_words r 1)) as -> by (unfold batches_of; by rewrite (batches_pair r Hm)).
  destruct (partition_shape r _ _ (group_words_shape r 0 ltac:(by left) Hok) (group_words_shape r 1 ltac:(by right) Hok)) as (_ & Hc & _). specialize (Hc n Hn).
  pose proof (pair_up_identity r (group_words r 0) (group_words r 1)) as Hi. set (bs := pair_up r (group_words r 0) (group_words r 1)) in *. clearbody bs. rewrite enabled_bit in Hc by lia.
  unfold request_key. rewrite cover_singleton. destruct (bool_decide (sq_Identity r = id)) eqn:Ei; [apply bool_decide_eq_true in Ei|apply bool_decide_eq_false in Ei].
  - cbn [andb]. transitivity (length (filter (fun b => enabled (cb_LaneMask b) n = true) bs)); [clear Hc|rewrite Hc; by destruct (bit (sq_Mask r) n)].
    induction Hi as [|b bs Hb _ IH]; [done|]. cbn [map]. rewrite cover_cons, filter_cons, IH. cbn [batch_key fst snd]. rewrite bool_decide_true, enabled_bit by (congruence || lia). by destruct (bit (cb_LaneMask b) n).
  - clear Hc. induction Hi as [|b bs Hb _ IH]; [done|]. cbn [map]. rewrite cover_cons, IH. cbn [batch_key fst snd]. by rewrite bool_decide_false by congruence.
Qed.

(** The batches of the requests cover the lanes of the requests. *)
Lemma requests_cover rs bs id n : Forall (fun r => simd_typed r /\ validateGlobal r = Ok tt) rs -> 0 <= n < 4 -> map erase bs = concat (map batches_of rs) ->
  cover (map batch_key bs) id n = cover (map request_key rs) id n.
Proof.
  intros Hrs Hn Hbs. assert (map batch_key bs = map batch_key (concat (map batches_of rs))) as ->.
  { assert (map batch_key (map erase bs) = map batch_key bs) as <- by (rewrite map_map; by apply map_ext). by rewrite Hbs. }
  clear Hbs. induction Hrs as [|r rs [Ht Hv] _ IH]; [done|]. cbn [map concat]. rewrite map_app, cover_app, IH, (batches_cover r) by done. by rewrite <- (cover_app [request_key r]).
Qed.

Lemma batches_words rs b bs n : Forall (fun r => simd_typed r /\ validateGlobal r = Ok tt) rs -> map erase bs = concat (map batches_of rs) -> b ∈ bs -> 0 <= n < 4 ->
  bit (cb_LaneMask b) n = true -> bit (cb_Mask b) (n / 2) = true.
Proof.
  intros Hrs Hbs Hb Hn Hl. assert (erase b ∈ concat (map batches_of rs)) as Hin by (rewrite <- Hbs; by apply list_elem_of_fmap_2).
  apply list_elem_of_In, in_concat in Hin as (l & (r & <- & Hr)%in_map_iff & Hin). apply list_elem_of_In in Hin. apply list_elem_of_In in Hr. rewrite Forall_forall in Hrs. destruct (Hrs r Hr) as [Ht Hv].
  rewrite <- enabled_bit by (apply Z.div_pos; lia). apply (batches_of_lanes r (erase b) n Ht Hv Hin Hn). by rewrite enabled_bit by lia.
Qed.

(** ** Transfers *)

(** The lanes of a SIMD request that a transfer carries towards the memories. *)
Definition transfer_key (x : Transfer) : list (Identity * Z) :=
  if tr_Boundary x == "global-adapter" then [(tr_Parent x, tr_LaneMask x .& (3 << (2 * tr_Port x)))]
  else if tr_Boundary x == "local-memory" then [(tr_Parent x, tr_LaneMask x)]
  else [].

Definition lane_transfers (l : list Transfer) : list (Identity * Z) := flat_map transfer_key l.

(** What was sent under a number stands for lanes of the request of that number. *)
Definition global_stands (at_ : Z -> option CoalescedBatch) (x : Z * Z) (y : Identity * Z) : Prop :=
  exists b p, at_ x.1 = Some b /\ (p = 0 \/ p = 1) /\ x.2 = 1 << p /\ y = (cb_Identity b, batchLaneMask b p).
Definition local_stands (at_ : Z -> option SIMDRequest) (x : Z * Z) (y : Identity * Z) : Prop :=
  exists r p, at_ x.1 = Some r /\ p ∈ lanes /\ x.2 = 1 << p /\ y = (sq_Identity r, 1 << p).

Lemma foldM_collect {A C} (f : A -> result C) xs acc ys : foldM (fun (l : list C) (x : A) => let? y := f x in Ok (l ++ [y])) acc xs = Ok ys -> exists zs, ys = acc ++ zs /\ Forall2 (fun x y => f x = Ok y) xs zs.
Proof.
  revert acc. induction xs as [|x xs IH]; intros acc Hf; cbn [foldM] in Hf; [injection Hf as <-; exists []; by rewrite app_nil_r|].
  destruct (f x) as [y|] eqn:E; [|done]. cbn [result_bind] in Hf. destruct (IH _ Hf) as (zs & -> & Hz). exists (y :: zs). rewrite <- app_assoc. split; [done|by constructor].
Qed.

Lemma lane_transfers_app l l' : lane_transfers (l ++ l') = lane_transfers l ++ lane_transfers l'.
Proof. apply flat_map_app. Qed.

Lemma lane_transfers_map {A} (f : A -> Transfer) l : lane_transfers (map f l) = flat_map (fun x => transfer_key (f x)) l.
Proof. unfold lane_transfers. rewrite !flat_map_concat_map, map_map. done. Qed.

Lemma flat_map_pure {A C} (f : A -> C) l : flat_map (fun x => [f x]) l = map f l.
Proof. induction l as [|x l IH]; [done|]. cbn. by rewrite IH. Qed.

Lemma flat_map_absent {A C} (l : list A) : flat_map (fun _ => @nil C) l = [].
Proof. by induction l. Qed.

(** *** At the global adapter *)

Lemma Global_Step_ok a cycle i a' e : Global_Step a cycle i = (a', Ok e) ->
  (exists response, edge_checked a i response) /\ ga_held a' = (if ge_Accepted e then None else gi_Batch i) /\ (ge_Accepted e = true -> gi_Batch i <> None).
Proof.
  unfold Global_Step. destruct (Global_check a cycle i) as [response|] eqn:Ec; [|done]. apply Global_check_ok in Ec. destruct (foldM (reply_done _) _ _) as [rs|]; [|done]. cbn [result_bind].
  destruct (foldM store_done _ _) as [[rs1 stores]|]; [|done]. cbn [result_bind]. destruct (word_sent _ _ _ _) as [[rs2 delivered] progress]. destruct (if batch_accepted _ _ then _ else _) as [rs3|]; [|done]. cbn [result_bind].
  intros [= <- <-]. split; [by exists response|]. split; [done|]. cbn [ge_Accepted]. unfold batch_accepted. by destruct (gi_Batch i).
Qed.

Lemma sent_flagged a i response taken : edge_checked a i response -> length taken = 2%nat -> cg_Accepted (gi_Cache i) = taken ->
  sent_keys a i = map (fun p => (ga_sequence a, 1 << p)) (flagged taken) /\ (flagged taken <> [] -> gi_Batch i <> None).
Proof.
  intros Hck Hl Ht. destruct taken as [|t0 [|t1 [|? ?]]]; try done. clear Hl.
  assert (forall p (t : bool), p = 0 \/ p = 1 -> default false (cg_Accepted (gi_Cache i) !! Z.to_nat p) = t -> accepts a i p = t /\ (t = true -> gi_Batch i <> None)) as Ha.
  { intros p t Hp E. unfold accepts, accepted_of. pose proof (ec_accepted _ _ _ Hck p Hp) as Ho. unfold accepted_of in Ho. rewrite E in *. destruct t; [|by rewrite andb_false_l]. specialize (Ho eq_refl). rewrite bool_decide_true by done. split; [done|].
    intros _ En. unfold global_offer in Ho. by rewrite En in Ho. }
  destruct (Ha 0 t0) as [E0 H0]; [by left|by rewrite Ht|]. destruct (Ha 1 t1) as [E1 H1]; [by right|by rewrite Ht|].
  unfold sent_keys, port_key. rewrite E0, E1. destruct t0, t1; cbn; split; try done; intros _; auto.
Qed.

(** *** At the local adapter *)

Lemma Local_Step_ok a cycle i a' e : Local_Step a cycle i = (a', Ok e) ->
  (exists response, local_checked a i response) /\ length (cg_Accepted (lin_Memory i)) = 4%nat /\ la_held a' = (if le_Accepted e then None else lin_Request i) /\ (le_Accepted e = true -> lin_Request i <> None).
Proof.
  unfold Local_Step. destruct (Local_check a cycle i) as [response|] eqn:Ec; [|done].
  assert (length (cg_Accepted (lin_Memory i)) = 4%nat) as Hl.
  { unfold Local_check in Ec. destruct (negb (la_started a && _)); [|done]. destruct (_ && _) eqn:El in Ec; [|done]. apply andb_true_iff in El as [El%Z.eqb_eq _]. unfold zlen in El. lia. }
  apply Local_check_ok in Ec. destruct (foldM (lane_reply _) _ _) as [rs|]; [|done]. cbn [result_bind].
  destruct (foldM lane_store _ _) as [[rs1 stores]|]; [|done]. cbn [result_bind]. destruct (fold4 _ _) as [[rs2 delivered] progress]. destruct (if request_accepted _ _ then _ else _) as [rs3|]; [|done]. cbn [result_bind].
  destruct (foldM (lane_sent _ _) _ _) as [rs4|]; [|done]. cbn [result_bind]. intros [= <- <-]. split; [by exists response|]. split; [done|]. split; [done|]. cbn [le_Accepted]. unfold request_accepted. by destruct (lin_Request i).
Qed.

Lemma local_flagged a i response : local_checked a i response -> length (cg_Accepted (lin_Memory i)) = 4%nat ->
  local_sent_keys a i = map (fun p => (word_number (offer_at_port (Local_Offers a) p), 1 << p)) (flagged (cg_Accepted (lin_Memory i))) /\ Forall (fun p => p ∈ lanes) (flagged (cg_Accepted (lin_Memory i))).
Proof.
  intros Hck Hl. remember (cg_Accepted (lin_Memory i)) as accepted eqn:Ea. destruct accepted as [|t0 [|t1 [|t2 [|t3 [|? ?]]]]]; try done. clear Hl.
  assert (forall p (t : bool), p ∈ lanes -> [t0; t1; t2; t3] !! Z.to_nat p = Some t -> leaves a (lin_Memory i) p = if t then Some (word_number (offer_at_port (Local_Offers a) p)) else None) as Hp.
  { intros p t Hp E. unfold leaves, accepted_of. pose proof (lc_accepted _ _ _ Hck p Hp) as Ho. unfold accepted_of in Ho. rewrite <- Ea, E in *. cbn [default from_option] in *. change (id t) with t in *. destruct t; [|done]. specialize (Ho eq_refl).
    assert (offer_at_port (Local_Offers a) p = default no_word (local_offer a p)) as ->.
    { unfold offer_at_port, Local_Offers. assert (p = 0 \/ p = 1 \/ p = 2 \/ p = 3) as Hc by (unfold lanes in Hp; set_solver). by destruct_or! Hc; subst p. }
    by destruct (local_offer a p). }
  split.
  - unfold local_sent_keys, port_keys, lanes. cbn [flat_map]. rewrite (Hp 0 t0), (Hp 1 t1), (Hp 2 t2), (Hp 3 t3) by (done || unfold lanes; set_solver). by destruct t0, t1, t2, t3.
  - apply Forall_forall. intros p. unfold flagged. rewrite list_elem_of_filter. intros [_ H]. exact H.
Qed.

Section System.
Context {B S : Type} `{ExternalBackend B} `{LocalOwner S}.

(** ** One edge, part by part *)

Lemma stage_bind_ok {A C} (m : stage (B := B) (S := S) A) (k : A -> stage C) s s' y : stage_bind m k s = (s', Ok y) -> exists s1 x, m s = (s1, Ok x) /\ k x s1 = (s', Ok y).
Proof. unfold stage_bind. destruct (m s) as [s1 [x|]]; [|done]. by exists s1, x. Qed.

Lemma pure_ok {A} (r : result A) (s s' : System B S) y : pure r s = (s', Ok y) -> s' = s /\ r = Ok y.
Proof. unfold pure. by intros [= -> ->]. Qed.

(** What an edge did to the parts between the load-store unit and the memories. *)
Record part_edges := mkPartEdges {
  pe_fetch : CacheEdge;
  pe_data : CacheEdge;
  pe_memory : CacheEdge;
  pe_words : list WordOffer;
  pe_taken : list bool;
  pe_global : GlobalAdapterInput * GlobalAdapterEdge;
  pe_local : LocalAdapterInput * LocalAdapterEdge;
  pe_coalescer : CoalescerInput * CoalescerEdge;
  pe_split : SplitInput * SplitEdge
}.

Record edge_parts (s : System B S) (cycle : Z) (input : SystemInput) (s' : System B S) (e : SystemEdge) (p : part_edges) : Prop := {
  ep_global : Global_Step (sy_globalAdapter s) cycle (pe_global p).1 = (sy_globalAdapter s', Ok (pe_global p).2);
  ep_local : Local_Step (sy_localAdapter s) cycle (pe_local p).1 = (sy_localAdapter s', Ok (pe_local p).2);
  ep_coalescer : Coalescer_Step (sy_coalescer s) cycle (pe_coalescer p).1 = (sy_coalescer s', Ok (pe_coalescer p).2);
  ep_split : Split_Step (sy_split s) cycle (pe_split p).1 = (sy_split s', Ok (pe_split p).2);
  ep_batch : gi_Batch (pe_global p).1 = Output (sy_coalescer s);
  ep_cache : gi_Cache (pe_global p).1 = with_accepted (pe_taken p) (pe_data p);
  ep_memory : lin_Memory (pe_local p).1 = pe_memory p;
  ep_ready : ci_OutputReady (pe_coalescer p).1 = ge_Accepted (pe_global p).2;
  ep_paths : (ci_Request (pe_coalescer p).1, lin_Request (pe_local p).1) = Split_Outputs (sy_split s);
  ep_accepted : si_PathReady (pe_split p).1 = (ce_Accepted (pe_coalescer p).2, le_Accepted (pe_local p).2);
  ep_request : si_Request (pe_split p).1 = in_Memory input;
  ep_shown : ed_MemoryAccepted e = se_Accepted (pe_split p).2 /\ ed_Memory e = se_Response (pe_split p).2 /\ ed_MemoryDelivered e = se_ResponseDelivered (pe_split p).2 /\
    ed_Stores e = se_Stores (pe_split p).2 /\ ed_Complete e = se_Complete (pe_split p).2;
  ep_transfers : transfers_of s input (Output (sy_coalescer s)) (Global_Offers (sy_globalAdapter s) (Output (sy_coalescer s))) (pe_words p) (Local_Offers (sy_localAdapter s))
    (pe_fetch p) (pe_data p) (pe_memory p) (pe_taken p) = Ok (ed_Transfers e);
  ep_taken : length (pe_taken p) = 2%nat
}.

Lemma system_edge_parts s cycle input s' e : system_edge s cycle input (start_edge cycle s).1 = (s', Ok e) -> exists p, edge_parts s cycle input s' e p.
Proof.
  destruct s as [instruction data backend local owner split coalescer globalAdapter dataPort localAdapter progress released started cy fault ioBase ioEnd]. unfold system_edge, start_edge.
  cbn [fst sy_instruction sy_data sy_backend sy_local sy_owner sy_split sy_coalescer sy_globalAdapter sy_dataPort sy_localAdapter sy_progress sy_released].
  intros Hstep. do 6 (apply stage_bind_ok in Hstep as (? & ? & [-> _]%pure_ok & Hstep)).
  apply stage_bind_ok in Hstep as (? & memory & Hx & Hstep). unfold step_backend in Hx. cbn [sy_backend] in Hx. destruct (xb_Step _ _ _ _) as [backend' ?]. injection Hx as <- _.
  apply stage_bind_ok in Hstep as (? & fetch & Hx & Hstep). unfold step_instruction in Hx. cbn [sy_instruction] in Hx. destruct (Cache_Step _ _ _) as [instruction' ?]. injection Hx as <- _.
  destruct (port_output _ _) as [words flush]. apply stage_bind_ok in Hstep as (? & cache & Hx & Hstep). unfold step_data in Hx. cbn [sy_data] in Hx. destruct (Cache_Step _ _ _) as [data' ?]. injection Hx as <- _.
  apply stage_bind_ok in Hstep as (? & [taken flushed] & Hx & Hstep). unfold advance_port in Hx. cbn [sy_dataPort] in Hx. destruct (port_advance _ _ _ _) as [port' out] eqn:Ep. injection Hx as <- ->.
  apply stage_bind_ok in Hstep as (? & me & Hx & Hstep). unfold step_local in Hx. cbn [sy_local sy_owner] in Hx. destruct (LocalMemory_Step _ _ _ _ _) as [[local' owner'] ?]. injection Hx as <- _.
  apply stage_bind_ok in Hstep as (? & transfers & [-> Ht]%pure_ok & Hstep).
  apply stage_bind_ok in Hstep as (? & ge & Hx & Hstep). unfold step_global in Hx. cbn [sy_globalAdapter] in Hx. destruct (Global_Step _ _ _) as [global' ?] eqn:Eg. injection Hx as <- ->.
  apply stage_bind_ok in Hstep as (? & le & Hx & Hstep). unfold step_adapter in Hx. cbn [sy_localAdapter] in Hx. destruct (Local_Step _ _ _) as [adapter' ?] eqn:El. injection Hx as <- ->.
  apply stage_bind_ok in Hstep as (? & ce & Hx & Hstep). unfold step_coalescer in Hx. cbn [sy_coalescer] in Hx. destruct (Coalescer_Step _ _ _) as [coalescer' ?] eqn:Ec. injection Hx as <- ->.
  destruct (fold_left _ _ _) as [progress' reported]. apply stage_bind_ok in Hstep as (? & ? & Hx & Hstep). unfold set_progress in Hx. injection Hx as <- _.
  apply stage_bind_ok in Hstep as (? & se & Hx & Hstep). unfold step_split in Hx. cbn [sy_split] in Hx. destruct (Split_Step _ _ _) as [split' ?] eqn:Es. injection Hx as <- ->.
  apply stage_bind_ok in Hstep as (? & ? & Hx & Hstep). unfold set_progress in Hx. injection Hx as <- _. apply pure_ok in Hstep as [-> [= <-]].
  eexists (mkPartEdges fetch cache me words taken (_, ge) (_, le) (_, ce) (_, se)). split; [exact Eg|exact El|exact Ec|exact Es|..]; cbn [pe_global pe_local pe_coalescer pe_split pe_data pe_memory pe_taken fst snd]; try done.
  unfold port_advance in Ep. by injection Ep as _ <- _.
Qed.

(** ** Runs *)

(** What a run shows: the accepted memory requests, the responses and store events that
    came back, the completed identities and the transfers. *)
Record systemTrace := mkSystemTrace { yt_accepted : list SIMDRequest; yt_back : list SIMDResponse; yt_complete : list Identity; yt_transfers : list Transfer }.

Definition no_system_trace : systemTrace := mkSystemTrace [] [] [] [].
Definition system_trace_app (t u : systemTrace) : systemTrace :=
  mkSystemTrace (yt_accepted t ++ yt_accepted u) (yt_back t ++ yt_back u) (yt_complete t ++ yt_complete u) (yt_transfers t ++ yt_transfers u).

Definition system_edge_trace (input : SystemInput) (e : SystemEdge) : systemTrace :=
  mkSystemTrace (if ed_MemoryAccepted e then option_list (in_Memory input) else []) ((if ed_MemoryDelivered e then option_list (ed_Memory e) else []) ++ ed_Stores e) (ed_Complete e) (ed_Transfers e).

Fixpoint system_run (s : System B S) (cycle : Z) (inputs : list SystemInput) : option (System B S * systemTrace) :=
  match inputs with
  | [] => Some (s, no_system_trace)
  | input :: inputs =>
      match System_Step s cycle input with
      | (_, Err _) => None
      | (s', Ok e) => match system_run s' (cycle + 1) inputs with Some (s'', t) => Some (s'', system_trace_app (system_edge_trace input e) t) | None => None end
      end
  end.

(** The inputs have their Go types and ask for the transfers. *)
Definition system_input_typed (input : SystemInput) : Prop := in_Trace input = true /\ match in_Memory input with Some r => simd_typed r | None => True end.

(** ** The invariant *)

(** The parts with the traces of their own, and how these meet. *)
Record parts_inv (s : System B S) (t : systemTrace) (ts : split_trace) (tc : trace) (tg : globalTrace) (tl : localTrace) (gk lk : list (Identity * Z)) : Prop := {
  pi_split : split_inv (sy_split s) ts;
  pi_coalescer : coalescer_inv (sy_coalescer s) tc;
  pi_global : global_inv (sy_globalAdapter s) tg;
  pi_local : local_adapter_inv (sy_localAdapter s) tl;
  pi_shown : yt_accepted t = st_accepted ts /\ yt_back t = st_back ts /\ yt_complete t = st_complete ts;
  pi_queue : Forall simd_typed (qu_values (sp_requests (sy_split s)).1);
  pi_typed : Forall (fun r => simd_typed r /\ validateGlobal r = Ok tt) (tr_accepted tc);
  pi_outs : st_outs ts ≡ₚ tr_accepted tc ++ lt_accepted tl;
  pi_batches : gt_accepted tg = tr_batches tc;
  pi_transfers : lane_transfers (yt_transfers t) ≡ₚ gk ++ lk;
  pi_words : Forall2 (global_stands (wire_at (gt_accepted tg) (ga_held (sy_globalAdapter s)))) (gt_sent tg) gk;
  pi_lanes : Forall2 (local_stands (wire_at (lt_accepted tl) (la_held (sy_localAdapter s)))) (lt_sent tl) lk
}.

Definition system_inv (s : System B S) (t : systemTrace) : Prop := exists ts tc tg tl gk lk, parts_inv s t ts tc tg tl gk lk.

(** *** The parts of an edge *)

Lemma Split_Step_check sp cycle i sp' e : Split_Step sp cycle i = (sp', Ok e) -> split_check sp cycle i = Ok tt.
Proof. unfold Split_Step. by destruct (split_check sp cycle i) as [[]|]. Qed.

Lemma Global_Step_check a cycle i a' e : Global_Step a cycle i = (a', Ok e) -> exists response, Global_check a cycle i = Ok response.
Proof. unfold Global_Step. destruct (Global_check a cycle i) as [r|]; [by exists r|done]. Qed.

Lemma Local_Step_check a cycle i a' e : Local_Step a cycle i = (a', Ok e) -> exists response, Local_check a cycle i = Ok response.
Proof. unfold Local_Step. destruct (Local_check a cycle i) as [r|]; [by exists r|done]. Qed.

Lemma coalescer_shown c cycle i c' e : Coalescer_Step c cycle i = (c', Ok e) ->
  tr_batches (edge_trace i e) = (if ci_OutputReady i then option_list (co_output c) else []) /\ Coalescer.request_check c (ci_Request i) = Ok tt.
Proof.
  unfold Coalescer_Step. destruct (Coalescer_check c cycle i) as [[]|] eqn:Ec; [|done]. destruct (check_facts _ _ _ Ec) as (Hr & _). intros Hs. split; [|done].
  assert (ce_Output e = co_output c /\ ce_OutputDelivered e = bool_decide (co_output c <> None) && ci_OutputReady i) as [E1 E2].
  { destruct (co_send c).
    - destruct (send_batch _ _ _ _). by injection Hs as _ <-.
    - destruct (match ci_Request i, _, _ with Some _, None, Some _ => _ | _, _, _ => _ end). by injection Hs as _ <-. }
  unfold edge_trace. cbn [tr_batches]. rewrite E1, E2. by destruct (co_output c), (ci_OutputReady i).
Qed.

Lemma split_shown sp cycle i sp' e : Split_Step sp cycle i = (sp', Ok e) ->
  st_outs (split_edge_trace i e) = (if (si_PathReady i).1 then option_list (Split_Outputs sp).1 else []) ++ (if (si_PathReady i).2 then option_list (Split_Outputs sp).2 else []) /\
  (forall r, r ∈ qu_values (sp_requests sp').1 -> r ∈ qu_values (sp_requests sp).1 \/ exists q, si_Request i = Some q /\ r = with_mask (splitMasks q).1 q).
Proof.
  unfold Split_Step. destruct (split_check sp cycle i) as [[]|]; [|done]. destruct (next_records sp i) as [rs|]; [|done]. intros [= <- <-]. split.
  - unfold split_edge_trace, output_delivered. cbn [st_outs se_OutputDelivered se_Outputs fst snd sel Z.eqb]. f_equal; [by destruct (Split_Outputs sp).1, (si_PathReady i).1|by destruct (Split_Outputs sp).2, (si_PathReady i).2].
  - cbn [sp_requests fst]. intros r. unfold queue_update. cbn [qu_values sel Z.eqb]. intros [Hr|Hr]%elem_of_app.
    + left. destruct (output_delivered sp i 0); [|done]. destruct (qu_values (sp_requests sp).1); [done|by right].
    + right. unfold pushed_subset in Hr. destruct (si_Request i) as [q|]; [|by apply elem_of_nil in Hr]. destruct (subset_accepted sp i 0); [|by apply elem_of_nil in Hr]. apply list_elem_of_singleton in Hr as ->. by exists q.
Qed.

Lemma split_masks_typed q : simd_typed q -> simd_typed (with_mask (splitMasks q).1 q).
Proof.
  intros [_ Hl]. split; [|exact Hl]. cbn [with_mask sq_Mask]. unfold splitMasks, fold4. cbn [fst fold_left].
  destruct (enabled (sq_Mask q) 0 && _), (enabled (sq_Mask q) 1 && _), (enabled (sq_Mask q) 2 && _), (enabled (sq_Mask q) 3 && _); by vm_compute.
Qed.

Lemma flagged_ports taken p : length taken = 2%nat -> p ∈ flagged taken -> p = 0 \/ p = 1.
Proof. destruct taken as [|? [|? [|? ?]]]; try done. intros _ Hp. unfold flagged in Hp. apply list_elem_of_filter in Hp as [_ Hp]. unfold port_list in Hp. cbn in Hp. set_solver. Qed.

Lemma global_moved a i taken batch offers at_ : gi_Batch i = batch -> (flagged taken <> [] -> batch <> None) -> length taken = 2%nat ->
  (forall b, batch = Some b -> at_ (ga_sequence a) = Some b) ->
  Forall2 (global_stands at_) (map (fun p => (ga_sequence a, 1 << p)) (flagged taken))
    (lane_transfers (map (fun p => mkTransfer "global-adapter" p (offer_at_port offers p) (cb_Identity (default empty_batch batch)) (cb_ID (default empty_batch batch)) (cb_LaneMask (default empty_batch batch))) (flagged taken))).
Proof.
  intros Hb Hne Hl Hat. rewrite lane_transfers_map. match goal with |- Forall2 _ _ ?l => change l with (flat_map (fun p : Z => [(cb_Identity (default empty_batch batch), cb_LaneMask (default empty_batch batch) .& (3 << (2 * p)))]) (flagged taken)) end. rewrite flat_map_pure.
  pose proof (flagged_ports taken) as Hp. destruct batch as [b|].
  - cbn [default from_option]. unfold id. apply Forall2_fmap, Forall_Forall2_diag, Forall_forall. intros p Hin. exists b, p. split; [by apply Hat|]. split; [by apply Hp|]. done.
  - destruct (flagged taken); [constructor|]. by destruct Hne.
Qed.

Lemma local_moved a offers ps xs (at_ : Z -> option SIMDRequest) : Forall (fun p => p ∈ lanes) ps -> (forall id rec, la_records a !! id = Some rec -> at_ id = Some (lw_request rec)) ->
  Forall2 (fun p x => local_transfer a offers p = Ok x) ps xs ->
  Forall2 (local_stands at_) (map (fun p => (word_number (offer_at_port offers p), 1 << p)) ps) (lane_transfers xs).
Proof.
  intros Hp Hat Hf. induction Hf as [|p x ps xs Hx _ IH]; [constructor|]. apply Forall_cons in Hp as [Hin Hp]. unfold local_transfer in Hx. destruct (la_records a !! _) as [rec|] eqn:Er; [|done]. injection Hx as <-.
  match goal with |- Forall2 _ _ (lane_transfers (?x :: ?l)) => change (lane_transfers (x :: l)) with ((tr_Parent x, tr_LaneMask x) :: lane_transfers l) end. constructor; [|by apply IH]. exists (lw_request rec), p. cbn [fst snd]. split; [by apply Hat|]. done.
Qed.

Lemma global_stands_mono (f g : Z -> option CoalescedBatch) x y : (forall id b, f id = Some b -> g id = Some b) -> global_stands f x y -> global_stands g x y.
Proof. intros Hfg (b & p & Hb & Hr). exists b, p. split; [by apply Hfg|done]. Qed.

Lemma local_stands_mono (f g : Z -> option SIMDRequest) x y : (forall id b, f id = Some b -> g id = Some b) -> local_stands f x y -> local_stands g x y.
Proof. intros Hfg (b & p & Hb & Hr). exists b, p. split; [by apply Hfg|done]. Qed.

(** What the transfers of an edge carry. *)
Lemma edge_transfers (s : System B S) input batch offers words local fetch data memory taken xs : in_Trace input = true -> transfers_of s input batch offers words local fetch data memory taken = Ok xs ->
  exists ls, Forall2 (fun p x => local_transfer (sy_localAdapter s) local p = Ok x) (flagged (cg_Accepted memory)) ls /\
    lane_transfers xs = lane_transfers (map (fun p => mkTransfer "global-adapter" p (offer_at_port offers p) (cb_Identity (default empty_batch batch)) (cb_ID (default empty_batch batch)) (cb_LaneMask (default empty_batch batch))) (flagged taken)) ++ lane_transfers ls.
Proof.
  intros Ht. unfold transfers_of. rewrite Ht. cbn [negb]. destruct (foldM _ _ _) as [ls|] eqn:El; [|done]. cbn [result_bind]. intros [= <-]. apply foldM_collect in El as (zs & -> & Hz). exists zs. split; [done|].
  rewrite !lane_transfers_app. cbn [app]. assert (lane_transfers (if default false (head (cg_Accepted fetch)) then [mkTransfer "fetch-cache" 0 (default no_word (in_Fetch input)) (wq_Identity (default no_word (in_Fetch input))) no_batch 0] else []) = []) as -> by (by destruct (default false _)).
  cbn [app]. f_equal. rewrite (lane_transfers_map _ (flagged (cg_Accepted data))). rewrite <- (app_nil_l (lane_transfers zs)) at 2. f_equal. apply (flat_map_absent (A := Z)).
Qed.

Lemma system_edge_inv (s : System B S) t cycle input s' e p : system_inv s t -> system_input_typed input -> edge_parts s cycle input s' e p -> system_inv s' (system_trace_app t (system_edge_trace input e)).
Proof.
  intros (ts & tc & tg & tl & gk & lk & [Is Ic Ig Il (Sa & Sb & Sc) Iq It Io Ib Ix Iw In]) [Htr Hty] [Pg Pl Pc Ps Pb Pca Pm Prd Ppa Pac Prq (Ea & Em & Ed & Est & Eco) Ptr Ptk].
  destruct (pe_global p) as [gi ge], (pe_local p) as [li le], (pe_coalescer p) as [ci ce], (pe_split p) as [si se]. cbn [fst snd] in *. injection Ppa as Pci Pli.
  destruct (Global_Step_ok _ _ _ _ _ Pg) as ((gr & Gck) & Gheld & Gacc). destruct (Local_Step_ok _ _ _ _ _ Pl) as ((lr & Lck) & Ll & Lheld & Lacc).
  destruct (coalescer_shown _ _ _ _ _ Pc) as [Cb Cq]. destruct (request_facts _ _ Cq) as [_ Cv]. destruct (split_shown _ _ _ _ _ Ps) as [So Sq].
  destruct (sent_flagged _ _ _ (pe_taken p) Gck Ptk ltac:(by rewrite Pca)) as [Gs Gne]. destruct (local_flagged _ _ _ Lck Ll) as [Ls Lp].
  destruct (edge_transfers _ _ _ _ _ _ _ _ _ _ _ Htr Ptr) as (ls & Hls & Hx). rewrite <- Pm in Hls.
  assert (forall r, ci_Request ci = Some r -> simd_typed r) as Ctyped.
  { intros r Hr. rewrite Pci in Hr. unfold Split_Outputs, queue_head in Hr. cbn [fst] in Hr. rewrite Forall_forall in Iq. apply Iq. destruct (qu_values _); [done|]. injection Hr as ->. by left. }
  pose proof (Global_Step_check _ _ _ _ _ Pg) as (? & Gc). destruct (global_step _ _ _ _ _ Ig Gc) as (ga' & ge' & Eg & Ig'). rewrite Pg in Eg. injection Eg as <- <-.
  pose proof (Local_Step_check _ _ _ _ _ Pl) as (? & Lc). destruct (local_step _ _ _ _ _ Il Lc) as (la' & le' & El & Il'). rewrite Pl in El. injection El as <- <-.
  destruct (split_step _ _ _ _ Is (Split_Step_check _ _ _ _ _ Ps)) as (sp' & se' & Es & Is'). rewrite Ps in Es. injection Es as <- <-.
  assert (coalescer_inv (sy_coalescer s') (trace_app tc (edge_trace ci ce))) as Ic'. { eapply step_inv; [exact Ic| |exact Pc]. unfold input_typed. destruct (ci_Request ci); [by apply Ctyped|done]. }
  set (gk' := lane_transfers (map _ (flagged (pe_taken p)))) in Hx.
  assert (forall id b, wire_at (gt_accepted tg) (ga_held (sy_globalAdapter s)) id = Some b -> wire_at (gt_accepted (global_trace_app tg (global_edge_trace (sy_globalAdapter s) gi ge))) (ga_held (sy_globalAdapter s')) id = Some b) as Gmono.
  { intros id b Hb. rewrite Gheld. cbn [global_trace_app global_edge_trace gt_accepted]. eapply wire_at_edge; [exact Gacc|exact (ec_held _ _ _ Gck)|exact Hb]. }
  assert (forall id b, wire_at (lt_accepted tl) (la_held (sy_localAdapter s)) id = Some b -> wire_at (lt_accepted (local_trace_app tl (local_edge_trace (sy_localAdapter s) li le))) (la_held (sy_localAdapter s')) id = Some b) as Lmono.
  { intros id b Hb. rewrite Lheld. cbn [local_trace_app local_edge_trace lt_accepted]. eapply wire_at_edge; [exact Lacc|exact (lc_held _ _ _ Lck)|exact Hb]. }
  eexists (split_trace_app ts (split_edge_trace si se)), _, _, _, (gk ++ gk'), (lk ++ lane_transfers ls).
  split; [exact Is'|exact Ic'|exact Ig'|exact Il'|..].
  - unfold system_trace_app, system_edge_trace, split_trace_app, split_edge_trace. cbn [yt_accepted yt_back yt_complete st_accepted st_back st_complete]. by rewrite Sa, Sb, Sc, Ea, Em, Ed, Est, Eco, Prq.
  - apply Forall_forall. intros r Hr. rewrite Forall_forall in Iq. destruct (Sq r Hr) as [Hr'|(q & Hq & ->)]; [by apply Iq|]. apply split_masks_typed. rewrite Prq in Hq. by rewrite Hq in Hty.
  - cbn [trace_app edge_trace tr_accepted]. apply Forall_app. split; [done|]. destruct (ce_Accepted ce); [|constructor]. destruct (ci_Request ci) as [r|]; [|constructor]. constructor; [|constructor]. split; [by apply Ctyped|by apply Cv].
  - cbn [split_trace_app st_outs trace_app edge_trace tr_accepted local_trace_app local_edge_trace lt_accepted]. rewrite So, Pac, Io. unfold Split_Outputs. cbn [fst snd]. rewrite <- Pci, <- Pli. solve_Permutation.
  - cbn [global_trace_app global_edge_trace gt_accepted trace_app tr_batches]. rewrite Ib. f_equal. rewrite Cb, Prd, Pb. done.
  - unfold system_trace_app, system_edge_trace. cbn [yt_transfers]. rewrite lane_transfers_app, Ix, Hx. solve_Permutation.
  - cbn [global_trace_app global_edge_trace gt_sent]. apply Forall2_app; [eapply Forall2_impl; [exact Iw|]; intros k y; by apply global_stands_mono|]. rewrite Gs. apply (global_moved _ gi); [done| |done|].
    + intros Hne. rewrite <- Pb. by apply Gne.
    + intros b Hb. destruct (gv_sequence _ _ Ig) as [-> _]. rewrite Gheld. cbn [global_trace_app global_edge_trace gt_accepted]. apply wire_at_now. by rewrite Pb.
  - cbn [local_trace_app local_edge_trace lt_sent]. apply Forall2_app; [eapply Forall2_impl; [exact In|]; intros k y; by apply local_stands_mono|]. rewrite Ls. apply local_moved with (a := sy_localAdapter s); [done| |done].
    intros id rec Hrec. apply Lmono. exact (ri_at _ _ _ _ _ _ _ (ti_record _ _ _ _ _ _ (lv_table _ _ Il) _ _ Hrec)).
Qed.

(** *** Runs *)

Lemma System_Step_parts s cycle input s' e : System_Step s cycle input = (s', Ok e) -> exists p, edge_parts s cycle input s' e p.
Proof.
  unfold System_Step. destruct (sy_fault s); [done|]. destruct (stage_bind _ _ s) as [s2 [e2|]] eqn:Es; [|done]. intros [= -> ->].
  apply stage_bind_ok in Es as (s1 & x & [-> _]%pure_ok & Es). apply stage_bind_ok in Es as (s1 & y & Hst & Es). injection Hst as <- _. by apply system_edge_parts in Es.
Qed.

Lemma system_run_inv s t cycle inputs s' u : system_inv s t -> Forall system_input_typed inputs -> system_run s cycle inputs = Some (s', u) -> system_inv s' (system_trace_app t u).
Proof.
  revert s t cycle u. induction inputs as [|input inputs IH]; intros s t cycle u Hinv Hty Hrun; cbn [system_run] in Hrun.
  - injection Hrun as <- <-. unfold system_trace_app. cbn. rewrite !app_nil_r. by destruct t.
  - apply Forall_cons in Hty as [Ht1 Hty]. destruct (System_Step s cycle input) as [s1 [e|]] eqn:Es; [|done]. destruct (system_run s1 (cycle + 1) inputs) as [[s2 v]|] eqn:Er; [|done]. injection Hrun as <- <-.
    apply System_Step_parts in Es as (p & Hp). specialize (IH _ _ _ _ (system_edge_inv _ _ _ _ _ _ _ Hinv Ht1 Hp) Hty Er).
    unfold system_trace_app in *. cbn [yt_accepted yt_back yt_complete yt_transfers] in *. by rewrite <- !app_assoc in IH.
Qed.

Lemma new_system_inv `{TimingDocument} (owner : S) (factory : Z -> result B) s : NewSystemWithBackend owner factory = Ok s -> system_inv s no_system_trace.
Proof.
  unfold NewSystemWithBackend, NewCoalescer, NewSIMDSplit, NewGlobalAdapter, NewLocalAdapter. intros Hnew.
  repeat match type of Hnew with
  | result_bind ?r _ = Ok _ => let E := fresh "E" in destruct r eqn:E; [cbn [result_bind] in Hnew|done]
  | (if ?b then _ else _) = Ok _ => let E := fresh "E" in destruct b eqn:E; [|done]
  end.
  injection Hnew as <-. repeat match goal with
  | E : result_bind ?r _ = Ok _ |- _ => let F := fresh "F" in destruct r eqn:F; [cbn [result_bind] in E|done]
  | E : (if ?b then _ else _) = Ok _ |- _ => let F := fresh "F" in destruct b eqn:F; [|done]
  end.
  repeat match goal with E : Ok _ = Ok _ |- _ => injection E as <- end.
  exists no_split_trace, no_trace, no_global_trace, no_local_trace, [], []. split; cbn [sy_split sy_coalescer sy_globalAdapter sy_localAdapter fresh_split sp_requests fst empty_queue qu_values].
  - apply fresh_split_inv.
  - apply new_inv. lia.
  - apply fresh_global_inv.
  - apply fresh_adapter_inv. match goal with E : negb (_ || ar_Sticky _) = true |- 0 <= bs_Size ?q => apply negb_true_iff in E; rewrite !orb_false_iff in E end. lia.
  - done.
  - constructor.
  - constructor.
  - constructor.
  - done.
  - constructor.
  - constructor.
  - constructor.
Qed.

(** ** A drained system *)

Lemma batch_lanes_bit b p n : p = 0 \/ p = 1 -> 0 <= n < 4 -> bit (batchLaneMask b p) n = bit (cb_LaneMask b) n && bit (1 << p) (n / 2).
Proof.
  intros Hp Hn. unfold batchLaneMask. rewrite Z.land_spec. f_equal. assert (n = 0 \/ n = 1 \/ n = 2 \/ n = 3) as Hc by lia. by destruct Hp as [->| ->]; destruct_or! Hc; subst n.
Qed.

(** Without a request under way a number stands for an accepted one. *)
Lemma wire_at_idle {P} (accepted : list P) id p : wire_at accepted None id = Some p -> 1 <= id <= zlen accepted /\ accepted !! Z.to_nat (id - 1) = Some p.
Proof.
  intros Hw. pose proof (wire_at_range _ _ _ _ Hw) as Hr. unfold wire_at in Hw. destruct (Z.eqb_spec id (wire_number accepted)); [done|]. unfold wire_number in *. split; [lia|]. by destruct (1 <=? id).
Qed.

(** Every word of every batch was sent once, for the lanes it carries. *)
Lemma words_account s t ts tc tg tl gk lk id n : parts_inv s t ts tc tg tl gk lk -> Coalescer_Drained (sy_coalescer s) = true -> Global_Drained (sy_globalAdapter s) = true -> 0 <= n < 4 ->
  cover gk id n = cover (map request_key (tr_accepted tc)) id n.
Proof.
  intros [_ Ic Ig _ _ _ It _ Ib _ Iw _] Hc Hg Hn. unfold Global_Drained in Hg. apply andb_true_iff in Hg as [Hheld%bool_decide_eq_true Hrec%bool_decide_eq_true]. rewrite Hheld in Iw.
  assert (map erase (gt_accepted tg) = concat (map batches_of (tr_accepted tc))) as Hbs.
  { pose proof (in_stream _ _ Ic) as Hs. unfold stream_inv, emitted in Hs. unfold Coalescer_Drained, Coalescer_Empty in Hc. rewrite !andb_true_iff, !negb_true_iff, !bool_decide_eq_false in Hc. destruct Hc as [[[_ Ho] Hh] _].
    destruct (co_output (sy_coalescer s)); [by destruct Ho|]. destruct (co_held (sy_coalescer s)); [by destruct Hh|]. destruct Hs as (_ & _ & <-). cbn [option_list]. by rewrite app_nil_r, Ib. }
  rewrite <- (requests_cover _ _ id n It Hn Hbs). apply (numbers_account _ (gt_sent tg) batch_key _ _ _ (n / 2)).
  - eapply Forall2_impl; [exact Iw|]. intros x y (b & p & Hb & Hp & -> & ->). apply wire_at_idle in Hb as [Hr Hb]. split; [done|]. intros b' Hb'. rewrite Hb in Hb'. injection Hb' as <-. cbn [batch_key fst snd]. by rewrite batch_lanes_bit, andb_assoc.
  - intros j b Hb _ Hl. destruct (table_account _ _ _ _ _ _ (gv_table _ _ Ig)) as [_ _ Hd]. destruct (Hd j b (n / 2) Hb) as [-> _]; [by rewrite Hrec, lookup_empty|]. cbn [wi_mask global_wire].
    by rewrite (batches_words _ _ _ _ It Hbs (list_elem_of_lookup_2 _ _ _ Hb) Hn Hl).
Qed.

(** Every lane of every local request was sent once. *)
Lemma lanes_account s t ts tc tg tl gk lk id n : parts_inv s t ts tc tg tl gk lk -> Local_Drained (sy_localAdapter s) = true -> 0 <= n < 4 ->
  cover lk id n = cover (map request_key (lt_accepted tl)) id n.
Proof.
  intros [_ _ _ Il _ _ _ _ _ _ _ In] Hl Hn. unfold Local_Drained in Hl. apply andb_true_iff in Hl as [Hrec%bool_decide_eq_true Hheld%bool_decide_eq_true]. rewrite Hheld in In.
  destruct (table_account _ _ _ _ _ _ (lv_table _ _ Il)) as [_ Hm Hd]. apply (numbers_account _ (lt_sent tl) request_key _ _ _ n).
  - apply Forall2_same_length_lookup. split; [by eapply Forall2_length|]. intros k x y Hx Hy. destruct (Forall2_lookup_lr _ _ _ _ _ _ In Hx Hy) as (r & p & Hr & Hp & Ex & ->). apply wire_at_idle in Hr as [Hrange Hr]. split; [done|].
    intros r' Hr'. rewrite Hr in Hr'. injection Hr' as <-. cbn [request_key fst snd]. rewrite Ex, <- andb_assoc. f_equal. destruct (bit (1 << p) n) eqn:Eb; [|by rewrite andb_false_r]. rewrite andb_true_r. symmetry.
    apply (Hm _ _ n Hr). destruct (Hd _ _ n Hr) as [Hc _]; [by rewrite Hrec, lookup_empty|]. rewrite Hc. apply list_elem_of_lookup_2 in Hx. destruct x as [num m]. cbn [fst snd] in *. rewrite <- Ex in Eb.
    pose proof (cover_in _ _ _ n Hx Eb) as H1. replace (Z.of_nat (Z.to_nat (num - 1)) + 1) with num in Hc by lia. rewrite Hc in H1. by destruct (bit (wi_mask r) n); [|cbn in H1; lia].
  - intros j r Hr _ Hb. destruct (Hd j r n Hr) as [-> _]; [by rewrite Hrec, lookup_empty|]. cbn [wi_mask local_wire]. cbn [request_key snd] in Hb. by rewrite Hb.
Qed.

Lemma drained_lanes s t r n : system_inv s t -> System_Drained s = true -> r ∈ yt_accepted t -> 0 <= n < 4 -> cover (lane_transfers (yt_transfers t)) (sq_Identity r) n = Nat.b2n (bit (sq_Mask r) n).
Proof.
  intros (ts & tc & tg & tl & gk & lk & Hi) Hd Hr Hn. unfold System_Drained in Hd. rewrite !andb_true_iff in Hd. destruct Hd as [[[[[_ Hs] Hc] Hg] Hl] _].
  destruct Hi as [Is Ic Ig Il (Sa & Sb & Sc) Iq It Io Ib Ix Iw In] eqn:Ei.
  assert (forall l l', l ≡ₚ l' -> cover l (sq_Identity r) n = cover l' (sq_Identity r) n) as Hperm by (intros l l' E; unfold cover; by rewrite E).
  rewrite (Hperm _ _ Ix), cover_app, (words_account _ _ _ _ _ _ _ _ _ _ Hi Hc Hg Hn), (lanes_account _ _ _ _ _ _ _ _ _ _ Hi Hl Hn), <- cover_app, <- map_app.
  rewrite <- (Hperm (out_keys (st_outs ts))) by (unfold out_keys; rewrite Io; done). unfold Split_Drained in Hs. rewrite !andb_true_iff, bool_decide_eq_true in Hs. destruct Hs as [[[[Hs _] _] _] _].
  apply (iv_done _ _ Is); [by rewrite <- Sa|by rewrite Hs, lookup_empty].
Qed.

(** ** The memory system *)

(** C4: The memory system moves every lane of every memory request exactly once. In any run
    of a new system, whatever the external backend answers and the owners of the local
    memory do, and whenever the load-store unit takes responses: no accepted request is
    accepted or completed twice, and only accepted ones complete; no lane comes back
    twice or outside the mask of its request, and every lane of a completed request has
    come back; what comes back carries the tag of its request; and when the system is
    drained every accepted request is complete, and each of its lanes has crossed once
    either the global adapter, in a word of some batch, or the port of the local memory. *)
Theorem system_exactly_once `{TimingDocument} (owner : S) (factory : Z -> result B) s0 start inputs s t :
  NewSystemWithBackend owner factory = Ok s0 -> Forall system_input_typed inputs -> system_run s0 start inputs = Some (s, t) ->
  NoDup (map sq_Identity (yt_accepted t)) /\ NoDup (yt_complete t) /\ (forall id, id ∈ yt_complete t -> id ∈ map sq_Identity (yt_accepted t)) /\
  (forall r n, r ∈ yt_accepted t -> (cover (keys (yt_back t)) (sq_Identity r) n <= Nat.b2n (bit (sq_Mask r) n))%nat) /\
  (forall r n, r ∈ yt_accepted t -> sq_Identity r ∈ yt_complete t -> cover (keys (yt_back t)) (sq_Identity r) n = Nat.b2n (bit (sq_Mask r) n)) /\
  (forall x, x ∈ yt_back t -> exists r, r ∈ yt_accepted t ++ option_list (sp_held (sy_split s)) /\ sq_Identity r = ss_Identity x /\ sq_Tag r = ss_Tag x) /\
  (System_Drained s = true -> yt_complete t ≡ₚ map sq_Identity (yt_accepted t) /\
    forall r n, r ∈ yt_accepted t -> 0 <= n < 4 -> cover (lane_transfers (yt_transfers t)) (sq_Identity r) n = Nat.b2n (bit (sq_Mask r) n)).
Proof.
  intros Hnew Hty Hrun. pose proof (system_run_inv _ _ _ _ _ _ (new_system_inv _ _ _ Hnew) Hty Hrun) as Hinv. assert (system_trace_app no_system_trace t = t) as Et by (by destruct t). rewrite Et in Hinv.
  pose proof (fun r n Hd => drained_lanes s t r n Hinv Hd) as Hlanes. destruct Hinv as (ts & tc & tg & tl & gk & lk & [Is _ _ _ (Ea & Eb & Ec) _ _ _ _ _ _ _]). rewrite Ea in *. rewrite Eb, Ec. split_and!.
  - apply (iv_accepted_once _ _ Is).
  - apply (iv_complete_once _ _ Is).
  - intros id Hid. by apply (iv_complete _ _ Is).
  - intros r n Hr. apply (split_lanes_bound _ _ _ _ Is). apply elem_of_app. by left.
  - intros r n Hr Hc. apply (iv_complete _ _ Is) in Hc as [_ Hn]. by apply (iv_done _ _ Is).
  - apply (iv_tags _ _ Is).
  - intros Hd. split; [|by intros r n; apply Hlanes].
    unfold System_Drained in Hd. rewrite !andb_true_iff in Hd. destruct Hd as [[[[[_ Hs] _] _] _] _]. unfold Split_Drained in Hs. rewrite !andb_true_iff, bool_decide_eq_true in Hs. destruct Hs as [[[[Hs _] _] _] _].
    apply NoDup_Permutation; [apply (iv_complete_once _ _ Is)|apply (iv_accepted_once _ _ Is)|]. intros id. rewrite (iv_complete _ _ Is), Hs, lookup_empty. tauto.
Qed.

(** C17: A fault is terminal. When an edge fails, the system keeps the error: every later
    edge, of any cycle and with any input, returns that error and changes nothing; the
    next cycle is that error too; and the system never counts as drained.  An edge that
    fails its own checks has advanced no part. *)
Theorem system_fault_terminal (s : System B S) cycle input s' err : System_Step s cycle input = (s', Err err) ->
  (forall cycle' input', System_Step s' cycle' input' = (s', Err err)) /\ NextCycle s' = Err err /\ System_Drained s' = false /\
  (sy_fault s = Some err -> s' = s) /\
  (sy_fault s = None -> system_check s cycle input = Err err -> s' = with_fault err s).
Proof.
  intros Hs. assert (sy_fault s' = Some err) as Hf.
  { unfold System_Step in Hs. destruct (sy_fault s) as [e|] eqn:E; [injection Hs as -> ->; done|]. destruct (stage_bind _ _ s) as [s2 [e2|e2]]; [done|]. by injection Hs as <- ->. }
  split_and!.
  - intros cycle' input'. unfold System_Step. by rewrite Hf.
  - unfold NextCycle. by rewrite Hf.
  - unfold System_Drained. by rewrite Hf.
  - intros E. unfold System_Step in Hs. rewrite E in Hs. by injection Hs.
  - intros E Ec. unfold System_Step in Hs. rewrite E in Hs. unfold stage_bind, pure in Hs. rewrite Ec in Hs. by injection Hs as <-.
Qed.

End System.

(** ** The frozen document

    The entries of the embedded document (src/timing/ir.yaml) that the constructors of the
    memory system read, as the library parses them. *)

Definition digit (c : Ascii.ascii) : Z :=
  let n := Z.of_nat (Ascii.nat_of_ascii c) in if n <? 58 then n - 48 else n - 87.

Fixpoint digits (base acc : Z) (s : string) : Z := match s with EmptyString => acc | String c s => digits base (acc * base + digit c) s end.

(** A YAML integer, decimal or hexadecimal. *)
Definition yaml_int (s : string) : Z := match s with String c (String x rest) => if (digit c =? 0) && (Z.of_nat (Ascii.nat_of_ascii x) =? 120) then digits 16 0 rest else digits 10 0 s | _ => digits 10 0 s end.

Definition scalar (v : string) : Node := mkNode ScalarNode "!!int" v [].
Definition named (v : string) : Node := mkNode ScalarNode "!!str" v [].
Definition mapping (fields : list (string * Node)) : Node := mkNode MappingNode "!!map" "" (flat_map (fun x => [named x.1; x.2]) fields).
Definition integers (fields : list (string * string)) : Node := mapping (map (fun x => (x.1, scalar x.2)) fields).
Definition sequence (items : list Node) : Node := mkNode SequenceNode "!!seq" "" items.

Record boundary_row := boundary { br_id : string; br_kind : string; br_parameters : list (string * string); br_arbitration : option (Z * string) }.

Open Scope string_scope.

Definition frozen_boundaries : list boundary_row := [
  boundary "b-split-global_out_buf" "output_buffer_encoding" [("OUT_BUF", "1")] None;
  boundary "b-split-local_out_buf" "output_buffer_encoding" [("OUT_BUF", "1")] None;
  boundary "b-split-rsp_out_buf" "output_buffer_encoding" [("OUT_BUF", "1")] (Some (2, "P"));
  boundary "b-local-adapter-request" "output_buffer_encoding" [("OUT_BUF", "3")] None;
  boundary "b-local-adapter-response" "output_buffer_encoding" [("OUT_BUF", "0")] (Some (4, "P"));
  boundary "b-local-result" "output_buffer_encoding" [("OUT_BUF", "3")] (Some (4, "P"));
  boundary "b-global-adapter-request" "output_buffer_encoding" [("OUT_BUF", "0")] None;
  boundary "b-global-adapter-response" "output_buffer_encoding" [("OUT_BUF", "0")] (Some (2, "P"));
  boundary "b-dflush" "output_buffer_encoding" [("OUT_BUF", "3")] None;
  boundary "b-local-request-xbar" "internal_instance_parameters" [("OUT_BUF", "3"); ("instances", "4")] (Some (4, "P"));
  boundary "b-local-sram-tag" "internal_instance_parameters" [("SRAM_OUT_REG", "1"); ("TAG_PIPE_DEPTH", "1"); ("instances", "4")] None;
  boundary "b-icache-bank-crsq" "internal_instance_parameters" [("SIZE", "2"); ("OUT_REG", "0"); ("instances", "1")] None;
  boundary "b-icache-bank-mreq" "internal_instance_parameters" [("DEPTH", "4"); ("OUT_REG", "0"); ("instances", "1")] None;
  boundary "b-icache-memory-response-queue" "internal_instance_parameters" [("SIZE", "0"); ("OUT_REG", "0"); ("instances", "1")] None;
  boundary "b-icache-memory-response-xbar" "internal_instance_parameters" [("OUT_BUF", "3")] None;
  boundary "b-icache-outer-core-response" "internal_instance_parameters" [("OUT_BUF", "3")] (Some (1, "R"));
  boundary "b-icache-outer-memory-request" "internal_instance_parameters" [("OUT_BUF", "2")] None;
  boundary "b-dcache-bank-crsq" "internal_instance_parameters" [("SIZE", "2"); ("OUT_REG", "1"); ("instances", "2")] None;
  boundary "b-dcache-bank-mreq" "internal_instance_parameters" [("DEPTH", "16"); ("OUT_REG", "1"); ("instances", "2")] None;
  boundary "b-dcache-memory-response-queue" "internal_instance_parameters" [("SIZE", "4"); ("OUT_REG", "1"); ("instances", "2")] None;
  boundary "b-dcache-memory-response-xbar" "internal_instance_parameters" [("OUT_BUF", "3")] None;
  boundary "b-dcache-outer-core-response" "internal_instance_parameters" [("OUT_BUF", "1")] (Some (2, "R"));
  boundary "b-dcache-outer-memory-request" "internal_instance_parameters" [("OUT_BUF", "1")] None;
  boundary "b-dcache-nc-response" "internal_instance_parameters" [("OUT_BUF", "3")] (Some (2, "R"));
  boundary "b-dcache-nc-memory-request" "internal_instance_parameters" [("OUT_BUF", "2")] (Some (2, "R"));
  boundary "b-icache-core-request-bank-xbar" "internal_instance_parameters" [("OUT_BUF", "0")] (Some (1, "R"));
  boundary "b-dcache-core-request-bank-xbar" "internal_instance_parameters" [("OUT_BUF", "0")] (Some (2, "R"))
]%Z.

Definition frozen_root : Node := mkNode DocumentNode "" "" [mapping [
  ("config", sequence [mapping [("id", named "cfg-memory"); ("values", integers [
     ("local_banks", "4"); ("lsu_word_bytes", "4"); ("local_base_address", "0xffff0000"); ("local_size_bytes", "16384"); ("io_base_address", "64");
     ("io_end_address", "65536"); ("icache_word_bytes", "4"); ("icache_core_ports", "1"); ("icache_memory_ports", "1"); ("dcache_word_bytes", "8");
     ("dcache_core_ports", "2"); ("dcache_memory_ports", "2"); ("icache_banks", "1"); ("dcache_banks", "2"); ("icache_size_bytes", "16384");
     ("dcache_size_bytes", "16384"); ("icache_ways", "4"); ("dcache_ways", "4"); ("line_and_sector_bytes", "64"); ("dcache_writeback", "1");
     ("replacement_enum_fifo", "1")])]]);
  ("resources", sequence [
     mapping (("id", named "res-coalescer-tags") :: map (fun x => (x.1, scalar x.2)) [("capacity", "8"); ("input_lanes", "4"); ("input_data_bytes", "4"); ("output_channels", "2"); ("output_data_bytes", "8")]);
     mapping [("id", named "res-icache"); ("rtl_parameters", integers [("MSHR_SIZE", "16"); ("LATENCY", "2")])];
     mapping [("id", named "res-dcache"); ("rtl_parameters", integers [("MSHR_SIZE", "16"); ("LATENCY", "2")])]]);
  ("boundaries", sequence (map (fun r => mapping [("id", named (br_id r)); ("rtl_parameters", integers (br_parameters r))]) frozen_boundaries));
  ("memory_contracts", sequence [mapping [("id", named "mc-backend"); ("parameters", integers [("latency_cycles", "100"); ("accepts_per_cycle", "1"); ("max_inflight", "16"); ("returns_per_cycle", "1")])]])]].

Close Scope string_scope.

Definition parameter (r : boundary_row) (name : string) : option Z := yaml_int ∘ snd <$> find (fun x => x.1 == name) (br_parameters r).

#[local] Instance frozen_document : TimingDocument := {|
  doc_root := Ok frozen_root;
  doc_Decode n := Ok (yaml_int (nd_Value n));
  doc_buffers := Ok (mkBufferDocument
    (map (fun r => mkBufferBoundary (br_id r) (br_kind r) (parameter r "SIZE") (parameter r "OUT_REG") (parameter r "OUT_BUF") (parameter r "DEPTH")) frozen_boundaries)
    (list_to_map [(0, (Some 0, Some 0)); (1, (Some 1, Some 1)); (2, (Some 2, Some 0)); (3, (Some 2, Some 1))]));
  doc_arbiters := Ok (map (fun r => match br_arbitration r with
    | Some (inputs, policy) => mkArbiterBoundary (br_id r) (Some inputs) policy (Some 0) (Some 1)
    | None => mkArbiterBoundary (br_id r) None "" None None end) frozen_boundaries)
|}.

(** ** A concrete run *)

(** One owner for every identity. *)
#[local] Instance lone_owner : LocalOwner Memory := {|
  lo_Handle := unit;
  lo_owner := fun _ _ => Ok (Some tt);
  lo_read := fun m _ address n => Memory_Read m address n;
  lo_batch := fun m _ addresses sources => Memory_WriteBatch m addresses sources
|}.

Definition sample_system : result (System (Backend Memory) Memory) := NewSystem (mkMemory (replicate 128 7)) (mkMemory (replicate 64 3)) (mkConfig 2 1 4 1).

(** A load of two local and two global lanes, once the caches are initialised. *)
Definition local_base : Z := yaml_int "0xffff0000".
Definition system_load : SIMDRequest :=
  mkSIMD (mkIdentity 1 1 0 0 0 0 1 0) 5 15 false false false (Quad (mkLane local_base 15 [0; 0; 0; 0] true false) (mkLane (local_base + 4) 15 [0; 0; 0; 0] true false) (mkLane 64 15 [0; 0; 0; 0] false false) (mkLane 72 15 [0; 0; 0; 0] false false)).
Definition system_input (request : SIMDOffer) : SystemInput := mkSystemInput true None request true true None None true true.
Definition system_inputs : list SystemInput := replicate 70 (system_input None) ++ system_input (Some system_load) :: replicate 40 (system_input None).

Definition sample_result : option (System (Backend Memory) Memory * systemTrace) := match sample_system with Ok s => system_run s 0 system_inputs | Err _ => None end.

Lemma system_exactly_once_witness : exists s0 s t, sample_system = Ok s0 /\ system_run s0 0 system_inputs = Some (s, t) /\ map sq_Identity (yt_accepted t) = [sq_Identity system_load] /\
  yt_complete t ≡ₚ map sq_Identity (yt_accepted t) /\ forall r n, r ∈ yt_accepted t -> 0 <= n < 4 -> cover (lane_transfers (yt_transfers t)) (sq_Identity r) n = Nat.b2n (bit (sq_Mask r) n).
Proof.
  assert (match sample_result with Some (s, t) => System_Drained s && bool_decide (map sq_Identity (yt_accepted t) = [sq_Identity system_load]) | None => false end = true) as Hall by (by vm_compute).
  unfold sample_result in Hall. destruct sample_system as [s0|] eqn:E0; [|done]. destruct (system_run s0 0 system_inputs) as [[s t]|] eqn:Er; [|done]. apply andb_true_iff in Hall as [Hd Ha%bool_decide_eq_true].
  exists s0, s, t. split; [done|]. split; [done|]. split; [done|].
  assert (Forall system_input_typed system_inputs) as Hty.
  { unfold system_inputs. apply Forall_app. split; [|constructor]; [by apply Forall_replicate| |by apply Forall_replicate]. split; [done|]. split; [by vm_compute|]. intros lane Hl. assert (lane = 0 \/ lane = 1 \/ lane = 2 \/ lane = 3) as Hc by lia. destruct_or! Hc; subst lane; by vm_compute. }
  unfold sample_system, NewSystem in E0. destruct (system_exactly_once _ _ s0 0 system_inputs s t E0 Hty Er) as (_ & _ & _ & _ & _ & _ & Hlast). by apply Hlast.
Defined.

(** A cycle that is not the next one is the fault. *)
Lemma system_fault_terminal_witness : exists s0 s1 e s2 err, sample_system = Ok s0 /\ System_Step s0 0 (system_input None) = (s1, Ok e) /\ System_Step s1 5 (system_input None) = (s2, Err err) /\
  System_Drained s2 = false /\ System_Step s2 1 (system_input None) = (s2, Err err).
Proof.
  assert (match sample_system with Ok s0 => match System_Step s0 0 (system_input None) with (s1, Ok _) => match System_Step s1 5 (system_input None) with (_, Err _) => true | _ => false end | _ => false end | Err _ => false end = true) as Hall by (by vm_compute).
  destruct sample_system as [s0|]; [|done]. destruct (System_Step s0 0 (system_input None)) as [s1 [e|]] eqn:E1; [|done]. destruct (System_Step s1 5 (system_input None)) as [s2 [|err]] eqn:E2; [done|].
  exists s0, s1, e, s2, err. split; [done|]. split; [done|]. split; [done|]. destruct (system_fault_terminal _ _ _ _ _ E2) as (H1 & _ & H3 & _). by split.
Defined.
